(* ===== verification/_CoqProject ===== *)
-Q . S2P
Prelude.v
Bitmap.v
Memory.v
Multiboot.v
Pmm.v
Vmm.v
Process.v
Ipc.v
Path.v
Io.v
Console.v
Font.v
Graphics.v
FbText.v
Sheet.v
Windows.v
Gui.v
Power.v
Pci.v
Ahci.v
FsIo.v
Vol.v
Ide.v
Ext2.v
Ext2Dir.v
Ext2Disk.v
Ext2Alloc.v
Ext2Spec.v
Ext2Format.v
Vfs.v
Disks.v
UserFd.v
HybridIpc.v
Loader.v
Package.v
Cndyn.v
UserExec.v
UserDisk.v
Kernel.v
Shell.v
Isr.v
Hello.v
Boot.v
Interplay.v
Session.v
Crc.v
Blknum.v
Csum.v
Groups.v
U32List.v
Digest.v
Hashmap.v
Bitops.v
Bitmap64.v
BitArray.v
Alloc.v
InodeAlloc.v
