(* ===== verification/Prelude.v ===== *)
(** * A verification of the ChaserOS kernel

    ChaserOS (kernel/ of the repository) is a small x86-64 kernel: it boots
    from Multiboot2, hands out physical pages, edits page tables, schedules
    sixteen tasks, passes messages between them, keeps an ext2 file system on
    a RAM or IDE volume behind a virtual file system, and runs user programs
    that it loads from ELF files or from packages.  This library models the
    kernel's own C code as Rocq functions and proves what each part promises,
    with the parts of the e2fsprogs library under kernel/fs/lib that keep the
    books of a file system.

    ** Conventions
    - A C function is a definition of the same name.  Pure code is a function,
      stateful code takes and returns its state; [outcome] (this file) is the
      result of code that may make an access outside an array ([Undef]) or
      need more iterations than its fuel ([Loop]).  [return -1] is [None] or an
      error value.
    - Integers are [Z] with the wrap-around written out ([u32], [i64], ...).
    - A buffer or string is the list of its bytes; a string stops before its
      NUL.  Physical memory is a function from addresses to bytes (Memory.v);
      the kernel runs with memory mapped one to one, so a pointer is its address.
    - Loops without a structural bound have fuel.  The definitions that the
      code calls choose it large enough ([range_fuel], [read_fuel],
      [copy_fuel], the length of the input, the number of pages or slots), and
      the theorems prove that it is enough, except where the C loop really
      does not end, which the theorems then say.

    ** Files, parts of the source, and what is shown
    - Prelude.v: outcomes, state monads, machine integers, byte lists, tactics.
      Bitmap.v: bitmaps as byte arrays.  Memory.v: physical memory.
    - Multiboot.v (multiboot.c): the tag list of the boot loader.
    - Pmm.v (pmm.c): the page allocator.  Start-up, which reads the memory map
      again after it has written the bitmap behind the kernel, frees exactly the
      available pages outside reserved areas; allocation is first fit; freeing
      undoes allocation; freeing null breaks the allocator.
    - Vmm.v (vmm.c, vmm_cow.c): page tables as a tree in memory that refines a
      map from pages to entries; mapping, unmapping, cloning and granting change
      the map as they should, except that mapping under a 2 MiB page writes into
      its frame; the user range checks are exact in the leaf entries, and next to
      the processor's rule, which looks at every level.
    - Process.v (process.c, sched.c): the task table.  Round robin, no
      starvation, exit and reap, the frame of a new thread, and two defects.
      Ipc.v (ipc.c): queues of senders refine lists, a call hands both messages
      over, a queued send never returns, and every reachable table is well formed.
      HybridIpc.v (hybrid_ipc.c): opening a file by message.
    - Path.v (fs/vfs.c, fs/chaseros/chaseros_ext2_vol.c): path normalisation
      equals a reference definition on components.
    - Io.v (io.h): port input and output; the machine behind the ports is a
      parameter (class [Ports]).  Console.v (drivers/vga.c, console.c,
      drivers/ttfont.c): the text screen shows the laid out text, the
      framebuffer console stays inside its margins.  Font.v, Graphics.v
      (drivers/font.c, drivers/graphics.c): the framebuffer in memory refines a
      canvas.  FbText.v: console, font and framebuffer together show the text
      that was printed, pixel by pixel.  Power.v (power.c): the
      ACPI tables, soft off, reset.  Pci.v (drivers/pci.c): configuration
      space.  Ahci.v (drivers/ahci_pci.c): the probe finds and enables the
      first AHCI controller.
    - Sheet.v, Windows.v (drivers/sheet.c): overlapping sheets on the
      framebuffer.  [windows] is every state the functions can reach, and in
      each the map and the video memory show the topmost opaque sheet at every
      point; changing a height refines moving an element of a list.  Gui.v
      (drivers/gui.c, drivers/mouse.c): the desktop and the mouse; a session
      from the packets of a PS/2 mouse, for movements that fit in a byte, to the
      pixels of the pointer.
    - FsIo.v (fs/chaseros/chaseros_alloc.c, chaseros_io.c): the allocator of
      the reserved area and the RAM disk as an I/O channel.
    - Vol.v: volumes.  The class [Blocks] is the block device that ext2 calls,
      [BlocksLaws] what it promises; a RAM volume satisfies it.  Ide.v
      (drivers/ide.c): the disk driver over [AtaLaws], what the ports of an ATA
      disk promise; sectors survive a round trip and the IDE volume satisfies
      [BlocksLaws] too.
    - Ext2.v, Ext2Dir.v, Ext2Disk.v, Ext2Alloc.v, Ext2Spec.v, Ext2Format.v
      (fs/chaseros/chaseros_ext2_vol.c): the file system's code, directory
      blocks as lists of entries, images and lookup, block allocation, the
      invariant [fs_wf] with reading and writing files, and formatting.
    - Vfs.v (fs/vfs.c, fs/vfs_devfs.c): file operations refine a map from paths
      to contents.  UserFd.v (user_fd.c): descriptors and user memory, with the
      class [UserMemLaws] of what they need of a volume that shares memory with
      user programs.
    - Loader.v (elf_load.c, fs/cnaf/cnab_load.c): loading places the segments;
      the streaming loaders equal the flat ones.  Package.v (fs/cnaf/...):
      sections and manifests.
    - Cndyn.v (loader/cndyn_loader.c): loading a package from the file system,
      the dependency check, the library table.  UserExec.v (user.c,
      loader/user_exec.c): launching programs and the process system calls.
    - Disks.v: the volume, ext2 and the VFS on an IDE disk, end to end.
      UserDisk.v: IDE volumes satisfy [UserMemLaws] too, so that descriptors
      and loaders work on disks as on RAM volumes; a file of a disk is opened
      with the function of the file service, read into user memory and closed.
      The build sets CHASEROS_HYBRID_FS_VIA_IPC, so the open system call goes
      through the service (Isr.v has that call).
    - Kernel.v (main.c, sched.c, sysinfo.c): the state of the whole kernel
      ([ksys]) and its printed reports.  Shell.v (shell.c): the line editor and
      the commands.  Isr.v (isr.c): exceptions, hardware interrupts and the
      system calls: what every interrupt does for the number that its stub
      leaves in the frame.  The stub of vector 128 sign-extends the number, so
      that the handler does no system call at all; theorems on the calls
      themselves are about a frame with 128.  Hello.v
      (user/include/chaseros_user.h, user/hello.c and the compiler runtime): the
      user library and a program on top of the system calls, which prints
      nothing with the stub as it is.  Boot.v (drivers/serial.c, gdt.c,
      idt.c, main.c): the serial port, the processor's tables and
      [kernel_main].  Interplay.v: the booted kernel, some of its interrupts and
      a program: no stack is switched, so the file service does not answer.
    - Session.v: keys to disk.  Interrupts, shell, VFS, ext2 and disk driver
      together: typed lines, one interrupt per scan code, store a file on the
      disk and print it back.
    - Crc.v, Csum.v (fs/lib/ext2fs/crc16.c, crc32c.c, gen_crc32ctable.c,
      csum.c): the table-driven CRCs are the bitwise ones; metadata checksums
      are those of the disk format, and changes are refused.  Blknum.v, Groups.v
      (blknum.c, closefs.c, openfs.c): fields of superblock, descriptors and
      inodes, the division into groups, the copies of superblock and
      descriptors.  Bitops.v, Bitmap64.v, BitArray.v (bitops.c, gen_bitmap64.c,
      blkmap64_ba.c): bitmaps over an implementation [BitmapOps] with its
      [BitmapLaws], and the bit array that keeps them and refines a set.
      Alloc.v, InodeAlloc.v (alloc.c, alloc_stats.c): allocation of blocks and
      inodes, proved against [BitmapLaws]; the counts, flags and checksums match
      the bitmaps in every reachable state.  U32List.v, Digest.v, Hashmap.v
      (badblocks.c, digest_encode.c, hashmap.c): lists of block numbers, digests
      and hash maps.

    ** Bounds and fuel
    The polling loops of the drivers have the bounds of the source (100000
    polls of the disk, 500 and 1000 of the power management).  The waits of
    serial.c, ipc.c and user_exec.c have none; their fuel is an argument, and
    the theorems say how much is enough or that none is.

    ** Interfaces
    Components meet at classes: [Ports] and its laws ([AtaLaws], [Uart],
    [PciLaws], [KeyDisk], [Apart], [MouseHw]), [IdeOps], [Blocks] with
    [BlocksLaws], [UserMem] with [UserMemLaws], [hello_env] (what the user
    program needs of the kernel), [Kern] (the task table inside a larger
    state). Client theorems are proved against the class; Vol.v and Ide.v
    discharge [BlocksLaws], UserFd.v and UserDisk.v [UserMemLaws], BitArray.v
    [BitmapLaws] (its clients are Alloc.v and InodeAlloc.v), and simulated
    devices show that the laws of the ports can hold.

    ** Not modelled
    The rest of the vendored e2fsprogs library (fs/lib, fs/include), which is
    third-party code that the kernel does not link: its I/O managers, the TDB
    database, extents, extended attributes, Unicode tables, the red-black tree
    bitmap, the 32-bit bitmaps and the tools.  FsIo.v models the kernel's side
    of it, with a channel as the record of its fields.  The boot and interrupt stubs in
    assembly and the optional Rust AHCI driver (off by default; Ahci.v takes
    its two functions as parameters) are not C code.  drivers/gui.c, sheet.c
    and mouse.c are modelled although the build leaves them out.  The state of
    the console keeps the list of its drawing calls; FbText.v carries them out
    in memory.  Outline fonts are off in the build.  The console output of the
    kernel's state leaves out what the package loader and the superblock check
    print, and the polling of the serial port for each character.  Interrupts
    that arrive while the kernel waits are a parameter of the functions that
    wait.

    Some simplifications are visible in the definitions: a loader's image is a
    list apart from the memory it is loaded to, so an image that overlaps its
    destination is not represented; the length of the shell's line is that of a
    list, which cannot be negative; coordinates and heights of sheets are
    unbounded integers; the callbacks of the e2fsprogs library are unset.

    ** What could come next
    Stack switching, so that tasks and the service really take turns; the other
    kinds of bitmap and the extents of the e2fsprogs library. *)
From stdpp Require Import base numbers list strings.
Open Scope Z_scope.

(** ** Outcomes of C code

    [Ret a]: the C function returned [a]; [Undef]: it made an access outside
    the array it indexes (undefined behaviour); [Loop]: the fuel given to a
    loop with no structural bound ran out. *)
Inductive outcome (A : Type) : Type :=
| Ret (a : A)
| Undef
| Loop.
Arguments Ret {A} a.
Arguments Undef {A}.
Arguments Loop {A}.

#[export] Instance outcome_mret : MRet outcome := @Ret.
#[export] Instance outcome_mbind : MBind outcome :=
  λ A B f m, match m with Ret a => f a | Undef => Undef | Loop => Loop end.

(** Stateful code: a state transformer that may be undefined or loop. *)
Definition st (S A : Type) : Type := S → outcome (A * S).
#[export] Instance st_mret S : MRet (st S) := λ A a s, Ret (a, s).
#[export] Instance st_mbind S : MBind (st S) :=
  λ A B f m s, match m s with
               | Ret (a, s') => f a s'
               | Undef => Undef
               | Loop => Loop
               end.
Definition st_get {S} : st S S := λ s, Ret (s, s).
Definition st_put {S} (s : S) : st S unit := λ _, Ret (tt, s).
Definition st_modify {S} (f : S → S) : st S unit := λ s, Ret (tt, f s).
Definition st_lift {S A} (m : outcome A) : st S A :=
  λ s, match m with Ret a => Ret (a, s) | Undef => Undef | Loop => Loop end.

(** Stateful code whose C function reports failure by [return -1]: [None] is
    that failure, and it is propagated by the caller's own [return -1]. *)
Definition est (S A : Type) : Type := S → outcome (option A * S).
#[export] Instance est_mret S : MRet (est S) := λ A a s, Ret (Some a, s).
#[export] Instance est_mbind S : MBind (est S) :=
  λ A B f m s, match m s with
               | Ret (Some a, s') => f a s'
               | Ret (None, s') => Ret (None, s')
               | Undef => Undef
               | Loop => Loop
               end.
Definition est_fail {S A} : est S A := λ s, Ret (None, s).
Definition est_lift {S A} (m : outcome A) : est S A :=
  λ s, match m with Ret a => Ret (Some a, s) | Undef => Undef | Loop => Loop end.
Definition est_opt {S A} (m : option A) : est S A := λ s, Ret (m, s).
Definition est_get {S} : est S S := λ s, Ret (Some s, s).
Definition est_modify {S} (f : S → S) : est S unit := λ s, Ret (Some tt, f s).
(** [if (!b) return -1;] *)
Definition est_guard {S} (b : bool) : est S unit :=
  λ s, Ret (if b then Some tt else None, s).

(** ** Machine integers: values of [Z] with the wrap-around written out *)
Definition u8 (x : Z) : Z := x mod 2 ^ 8.
Definition u16 (x : Z) : Z := x mod 2 ^ 16.
Definition u32 (x : Z) : Z := x mod 2 ^ 32.
Definition u64 (x : Z) : Z := x mod 2 ^ 64.
(** Conversion to a signed type of [w] bits. *)
Definition swrap (w x : Z) : Z :=
  let y := x mod 2 ^ w in if y <? 2 ^ (w - 1) then y else y - 2 ^ w.
Definition i8 (x : Z) : Z := swrap 8 x.
Definition i32 (x : Z) : Z := swrap 32 x.
Definition i64 (x : Z) : Z := swrap 64 x.
(** [x & m], as a C condition *)
Definition has (x m : Z) : bool := negb (Z.land x m =? 0).

(** ** Arrays: a C array is the list of its elements *)
Section arrays.
Context {A : Type}.
Definition aget (l : list A) (i : Z) : outcome A :=
  if 0 <=? i then match l !! Z.to_nat i with Some x => Ret x | None => Undef end
  else Undef.
Definition aset (l : list A) (i : Z) (x : A) : outcome (list A) :=
  if (0 <=? i) && (i <? Z.of_nat (length l)) then Ret (<[Z.to_nat i := x]> l)
  else Undef.
End arrays.

(** [slice l off n]: [n] bytes of [l] from [off]; [splice l off d]: [l] with
    [d] copied over it from [off] ([memcpy(l + off, d, length d)]). *)
Definition slice (l : list Z) (off n : nat) : list Z := take n (drop off l).
Definition splice (l : list Z) (off : nat) (d : list Z) : list Z :=
  take off l ++ d ++ drop (off + length d) l.

(** ** Little-endian integers in byte arrays *)
Fixpoint le_of (n : nat) (v : Z) : list Z :=
  match n with
  | O => []
  | S n => v mod 256 :: le_of n (v / 256)
  end.
Fixpoint le_to (l : list Z) : Z :=
  match l with
  | [] => 0
  | b :: l => b + 256 * le_to l
  end.
Definition is_byte (b : Z) : Prop := 0 <= b < 256.
Definition bytes (l : list Z) : Prop := Forall is_byte l.

(** ** C strings: the bytes before the terminating NUL *)
Definition str (s : string) : list Z :=
  (λ a, Z.of_nat (Ascii.nat_of_ascii a)) <$> String.list_ascii_of_string s.
Arguments str s%_string.
Fixpoint cstr (l : list Z) : list Z :=
  match l with
  | [] => []
  | c :: l => if c =? 0 then [] else c :: cstr l
  end.
(** A C string proper: its bytes are neither NUL nor out of range. *)
Definition is_cstr (l : list Z) : Prop := Forall (λ c, 0 < c < 256) l.
(** [strcmp(a, b) == 0] and its relatives *)
Fixpoint str_eqb (a b : list Z) : bool :=
  match a, b with
  | [], [] => true
  | x :: a, y :: b => (x =? y) && str_eqb a b
  | _, _ => false
  end.

(** ** Tactics and hints of the development *)
Create HintDb chaser.
(** linear arithmetic with division and modulo by constants *)
Ltac zdm := Z.to_euclidean_division_equations; lia.
(** turn boolean tests into propositions *)
Ltac breflect :=
  repeat match goal with
  | H : _ && _ = true |- _ => apply andb_true_iff in H as [? ?]
  | H : _ || _ = false |- _ => apply orb_false_iff in H as [? ?]
  | H : negb _ = true |- _ => apply negb_true_iff in H
  | H : negb _ = false |- _ => apply negb_false_iff in H
  | H : (_ =? _) = true |- _ => apply Z.eqb_eq in H
  | H : (_ =? _) = false |- _ => apply Z.eqb_neq in H
  | H : (_ <? _) = true |- _ => apply Z.ltb_lt in H
  | H : (_ <? _) = false |- _ => apply Z.ltb_ge in H
  | H : (_ <=? _) = true |- _ => apply Z.leb_le in H
  | H : (_ <=? _) = false |- _ => apply Z.leb_gt in H
  end.
(** case split on the conditional of the goal, with both sides in context *)
Ltac case_if :=
  match goal with
  | |- context [if ?b then _ else _] => destruct b eqn:?; breflect
  end.
(** rewrite a boolean test of the goal to its value by arithmetic *)
Ltac btrue :=
  match goal with
  | |- context [?a =? ?b] => rewrite (proj2 (Z.eqb_eq a b)) by lia
  | |- context [?a <? ?b] => rewrite (proj2 (Z.ltb_lt a b)) by lia
  | |- context [?a <=? ?b] => rewrite (proj2 (Z.leb_le a b)) by lia
  end.
Ltac bfalse :=
  match goal with
  | |- context [?a =? ?b] => rewrite (proj2 (Z.eqb_neq a b)) by lia
  | |- context [?a <? ?b] => rewrite (proj2 (Z.ltb_ge a b)) by lia
  | |- context [?a <=? ?b] => rewrite (proj2 (Z.leb_gt a b)) by lia
  end.

(** one step of a computation whose first action is a known result *)
Ltac ostep := cbn [mbind outcome_mbind st_mbind est_mbind mret outcome_mret st_mret est_mret].

(** ** Monad rules *)
Section monads.
Context {S A B : Type}.
Lemma outcome_bind_Ret (m : outcome A) (f : A → outcome B) b :
  m ≫= f = Ret b ↔ ∃ a, m = Ret a ∧ f a = Ret b.
Proof. destruct m; unfold mbind, outcome_mbind; naive_solver. Qed.
Lemma st_bind_step (m : st S A) (f : A → st S B) s a s' :
  m s = Ret (a, s') → (m ≫= f) s = f a s'.
Proof. unfold mbind, st_mbind. by intros ->. Qed.
Lemma st_bind_Ret (m : st S A) (f : A → st S B) s r :
  (m ≫= f) s = Ret r ↔ ∃ a s', m s = Ret (a, s') ∧ f a s' = Ret r.
Proof.
  unfold mbind, st_mbind. destruct (m s) as [[a s']| |]; naive_solver.
Qed.
Lemma est_bind_step (m : est S A) (f : A → est S B) s a s' :
  m s = Ret (Some a, s') → (m ≫= f) s = f a s'.
Proof. unfold mbind, est_mbind. by intros ->. Qed.
Lemma est_bind_fail (m : est S A) (f : A → est S B) s s' :
  m s = Ret (None, s') → (m ≫= f) s = Ret (None, s').
Proof. unfold mbind, est_mbind. by intros ->. Qed.
Lemma est_bind_Some (m : est S A) (f : A → est S B) s b s'' :
  (m ≫= f) s = Ret (Some b, s'') ↔
  ∃ a s', m s = Ret (Some a, s') ∧ f a s' = Ret (Some b, s'').
Proof.
  unfold mbind, est_mbind. destruct (m s) as [[[a|] s']| |]; naive_solver.
Qed.
Lemma est_guard_true (b : bool) (f : unit → est S B) s :
  b = true → (est_guard b ≫= f) s = f tt s.
Proof. by intros ->. Qed.
End monads.

(** ** Integers *)
Lemma u8_small x : 0 <= x < 256 → u8 x = x.
Proof. intros. unfold u8. apply Z.mod_small. lia. Qed.
Lemma u16_small x : 0 <= x < 65536 → u16 x = x.
Proof. intros. unfold u16. apply Z.mod_small. lia. Qed.
Lemma u32_small x : 0 <= x < 2 ^ 32 → u32 x = x.
Proof. intros. unfold u32. by apply Z.mod_small. Qed.
Lemma u64_small x : 0 <= x < 2 ^ 64 → u64 x = x.
Proof. intros. unfold u64. by apply Z.mod_small. Qed.
Lemma u8_range x : 0 <= u8 x < 256.
Proof. unfold u8. apply Z.mod_pos_bound. lia. Qed.
Lemma u32_range x : 0 <= u32 x < 2 ^ 32.
Proof. unfold u32. by apply Z.mod_pos_bound. Qed.
Lemma u64_range x : 0 <= u64 x < 2 ^ 64.
Proof. unfold u64. by apply Z.mod_pos_bound. Qed.
Lemma i32_small x : - 2 ^ 31 <= x < 2 ^ 31 → i32 x = x.
Proof.
  intros. unfold i32, swrap.
  destruct (x mod 2 ^ 32 <? 2 ^ (32 - 1)) eqn:E; breflect; zdm.
Qed.
Lemma i64_u64 x : - 2 ^ 63 <= x < 2 ^ 63 → i64 (u64 x) = x.
Proof.
  intros. unfold i64, swrap, u64. rewrite Z.mod_mod by lia.
  destruct (x mod 2 ^ 64 <? 2 ^ (64 - 1)) eqn:E; breflect; zdm.
Qed.
Lemma land_ones_range x n m : 0 <= n → m = Z.ones n → 0 <= Z.land x m < 2 ^ n.
Proof. intros ? ->. rewrite Z.land_ones by lia. apply Z.mod_pos_bound. lia. Qed.
(** [x & ~(2^n - 1)] rounds down to a multiple of [2^n]. *)
Lemma lor_shiftl lo hi k : 0 <= k → 0 <= lo < 2 ^ k → Z.lor lo (Z.shiftl hi k) = lo + 2 ^ k * hi.
Proof.
  intros Hk Hlo. assert (Z.land lo (Z.shiftl hi k) = 0) as Hd.
  { apply Z.bits_inj'. intros n Hn. rewrite Z.land_spec, Z.testbit_0_l.
    destruct (Z.lt_ge_cases n k); [by rewrite Z.shiftl_spec_low, andb_false_r by lia|].
    replace lo with (lo mod 2 ^ k) by (by apply Z.mod_small). by rewrite Z.mod_pow2_bits_high by lia. }
  rewrite <-(Z.lxor_lor _ _ Hd), <-(Z.add_nocarry_lxor _ _ Hd), Z.shiftl_mul_pow2 by lia. lia.
Qed.
Lemma land_lnot_ones x n m : 0 <= n → m = Z.ones n → Z.land x (Z.lnot m) = 2 ^ n * (x / 2 ^ n).
Proof.
  intros ? ->. rewrite <-Z.ldiff_land, Z.ldiff_ones_r, Z.shiftl_mul_pow2, Z.shiftr_div_pow2 by lia.
  lia.
Qed.
#[export] Hint Resolve u8_range u32_range u64_range : chaser.

(** ** Arrays *)
Section array_lemmas.
Context {A : Type}.
Implicit Types (l : list A) (x : A).
Lemma aget_Ret l i x : aget l i = Ret x ↔ 0 <= i ∧ l !! Z.to_nat i = Some x.
Proof.
  unfold aget. destruct (0 <=? i) eqn:E; breflect; [|naive_solver lia].
  destruct (l !! Z.to_nat i); naive_solver.
Qed.
Lemma aget_in_range l i :
  0 <= i < Z.of_nat (length l) → ∃ x, aget l i = Ret x ∧ l !! Z.to_nat i = Some x.
Proof.
  intros. destruct (lookup_lt_is_Some_2 l (Z.to_nat i)) as [x Hx]; [lia|].
  exists x. split; [|done]. apply aget_Ret. split; [lia|done].
Qed.
Lemma aset_Ret l i x l' :
  aset l i x = Ret l' ↔ 0 <= i < Z.of_nat (length l) ∧ l' = <[Z.to_nat i := x]> l.
Proof. unfold aset. case_if; naive_solver lia. Qed.
Lemma aset_in_range l i x :
  0 <= i < Z.of_nat (length l) → aset l i x = Ret (<[Z.to_nat i := x]> l).
Proof. intros. by apply aset_Ret. Qed.
End array_lemmas.

Lemma foldl_seqZ_ind {B} (P : Z → B → Prop) (f : B → Z → B) b n : 0 <= n → P 0 b →
  (∀ i b, 0 <= i < n → P i b → P (i + 1) (f b i)) → P n (foldl f b (seqZ 0 n)).
Proof.
  intros Hn H0 Hs. rewrite <-(Z2Nat.id n) in Hs |- * by done. induction (Z.to_nat n) as [|k IH]; [done|].
  rewrite Nat2Z.inj_succ in *. unfold Z.succ in *. rewrite seqZ_app, foldl_app by lia. rewrite (seqZ_cons _ 1), (seqZ_nil _ (Z.pred 1)) by lia.
  cbn [foldl]. rewrite Z.add_0_l. apply Hs; [lia|]. apply IH. intros i c Hi. apply Hs. lia.
Qed.
Lemma nth_replicate {A} (x : A) n k : nth k (replicate n x) x = x.
Proof. revert k. induction n; intros [|k]; simpl; auto. Qed.
Lemma length_splice l off d :
  (off + length d ≤ length l)%nat → length (splice l off d) = length l.
Proof. intros. unfold splice. rewrite !length_app, length_take, length_drop. lia. Qed.
Lemma lookup_splice_in l off d i :
  (off + length d ≤ length l)%nat → (off ≤ i < off + length d)%nat →
  splice l off d !! i = d !! (i - off)%nat.
Proof.
  intros. unfold splice. rewrite lookup_app_r by (rewrite length_take; lia).
  rewrite length_take, Nat.min_l, lookup_app_l by lia. done.
Qed.
Lemma lookup_splice_out l off d i :
  (off + length d ≤ length l)%nat → (i < off ∨ off + length d ≤ i)%nat →
  splice l off d !! i = l !! i.
Proof.
  intros ? [?|?]; unfold splice.
  - rewrite lookup_app_l by (rewrite length_take; lia). by rewrite lookup_take_lt.
  - rewrite lookup_app_r by (rewrite length_take; lia). rewrite length_take, Nat.min_l by lia.
    rewrite lookup_app_r by lia. rewrite lookup_drop. f_equal. lia.
Qed.
Lemma length_slice l off n : (off + n ≤ length l)%nat → length (slice l off n) = n.
Proof. intros. unfold slice. rewrite length_take, length_drop. lia. Qed.
Lemma lookup_slice l off n i : (i < n)%nat → slice l off n !! i = l !! (off + i)%nat.
Proof. intros. unfold slice. by rewrite lookup_take_lt, lookup_drop. Qed.
Lemma slice_ext l l' off n :
  (∀ i, (i < n)%nat → l !! (off + i)%nat = l' !! (off + i)%nat) →
  slice l off n = slice l' off n.
Proof.
  intros H. apply list_eq. intros i. destruct (decide (i < n)%nat).
  - by rewrite !lookup_slice, H by done.
  - unfold slice. rewrite !lookup_take_ge by lia. done.
Qed.
Lemma slice_splice_same l off d :
  (off + length d ≤ length l)%nat → slice (splice l off d) off (length d) = d.
Proof.
  intros. apply list_eq. intros i. destruct (decide (i < length d)%nat).
  - rewrite lookup_slice, lookup_splice_in by lia. f_equal. lia.
  - unfold slice. rewrite lookup_take_ge, lookup_ge_None_2 by lia. done.
Qed.
Lemma slice_splice_disjoint l off d off' n :
  (off + length d ≤ length l)%nat → (off' + n ≤ off ∨ off + length d ≤ off')%nat →
  slice (splice l off d) off' n = slice l off' n.
Proof. intros. apply slice_ext. intros. apply lookup_splice_out; lia. Qed.
Lemma bytes_splice l off d : bytes l → bytes d → bytes (splice l off d).
Proof.
  intros. unfold splice, bytes in *. rewrite !Forall_app.
  auto using Forall_take, Forall_drop.
Qed.
Lemma bytes_slice l off n : bytes l → bytes (slice l off n).
Proof. intros. unfold slice, bytes in *. auto using Forall_take, Forall_drop. Qed.
#[export] Hint Resolve bytes_splice bytes_slice : chaser.

(** ** Little-endian integers *)
Lemma slice_split (d : list Z) a k1 k2 : slice d a (k1 + k2) = slice d a k1 ++ slice d (a + k1) k2.
Proof. unfold slice. rewrite <-drop_drop. symmetry. apply take_take_drop. Qed.
Lemma le_to_app l1 l2 : le_to (l1 ++ l2) = le_to l1 + 256 ^ Z.of_nat (length l1) * le_to l2.
Proof.
  induction l1 as [|b l1 IH]; [by rewrite app_nil_l; simpl; destruct (le_to l2)|].
  rewrite <-app_comm_cons. cbn [le_to length]. rewrite IH, Nat2Z.inj_succ, Z.pow_succ_r by lia. ring.
Qed.
Lemma length_le_of n v : length (le_of n v) = n.
Proof. revert v; induction n; intros; simpl; auto. Qed.
Lemma bytes_le_of n v : bytes (le_of n v).
Proof.
  revert v; induction n; intros; simpl; constructor; [|apply IHn].
  unfold is_byte. apply Z.mod_pos_bound. lia.
Qed.
Lemma le_to_of n v : 0 <= v < 256 ^ Z.of_nat n → le_to (le_of n v) = v.
Proof.
  revert v. induction n as [|n IH]; intros v Hv; simpl.
  - change (256 ^ Z.of_nat 0) with 1 in Hv. lia.
  - rewrite Nat2Z.inj_succ, Z.pow_succ_r in Hv by lia.
    rewrite IH; [zdm|]. split; [apply Z.div_pos; lia|apply Z.div_lt_upper_bound; lia].
Qed.
Lemma le_to_bound l : bytes l → 0 <= le_to l < 256 ^ Z.of_nat (length l).
Proof.
  induction 1 as [|b l Hb _ IH]; simpl; [lia|]. unfold is_byte in Hb.
  rewrite Nat2Z.inj_succ, Z.pow_succ_r by lia. lia.
Qed.
Lemma le_of_to l : bytes l → le_of (length l) (le_to l) = l.
Proof.
  induction 1 as [|b l Hb _ IH]; simpl; [done|]. unfold is_byte in Hb.
  replace ((b + 256 * le_to l) mod 256) with b by zdm.
  replace ((b + 256 * le_to l) / 256) with (le_to l) by zdm. by rewrite IH.
Qed.
#[export] Hint Resolve bytes_le_of : chaser.

(** ** C strings *)
Lemma str_eqb_eq a b : str_eqb a b = true ↔ a = b.
Proof.
  revert b. induction a as [|x a IH]; intros [|y b]; simpl; try done.
  rewrite andb_true_iff, Z.eqb_eq, IH. naive_solver.
Qed.
Lemma str_eqb_refl a : str_eqb a a = true.
Proof. by apply str_eqb_eq. Qed.
Lemma str_eqb_neq a b : str_eqb a b = false ↔ a ≠ b.
Proof. rewrite <-not_true_iff_false, str_eqb_eq. done. Qed.
Lemma cstr_app_nul l r : is_cstr l → cstr (l ++ 0 :: r) = l.
Proof. induction 1 as [|c l Hc _ IH]; simpl; [done|]. bfalse. by rewrite IH. Qed.
Lemma cstr_is_cstr l : bytes l → is_cstr (cstr l).
Proof.
  induction 1 as [|c l Hc _ IH]; simpl; [constructor|]. unfold is_byte in Hc.
  case_if; constructor; [lia|done].
Qed.
Lemma cstr_id l : is_cstr l → cstr l = l.
Proof. induction 1 as [|c l Hc _ IH]; simpl; [done|]. bfalse. by rewrite IH. Qed.
