(* ===== verification/Bitmap.v ===== *)
(** Bit maps in byte arrays, as the page allocator (kernel/pmm.c) and the
    ext2 volume (kernel/fs/chaseros/chaseros_ext2_vol.c) keep them: bit [i] is
    bit [i % 8] of byte [i / 8].  The three accessors are total up to the
    length of the array; the lemmas relate them to the abstract map
    [bit : Z → bool] and to [popcount], the number of set bits. *)
From stdpp Require Import base numbers list.
From S2P Require Import Prelude.
Open Scope Z_scope.

Definition bm_test (bm : list Z) (i : Z) : outcome Z :=
  b ← aget bm (i / 8); Ret (Z.land (Z.shiftr b (i mod 8)) 1).
Definition bm_put1 (bm : list Z) (i : Z) : outcome (list Z) :=
  b ← aget bm (i / 8);
  aset bm (i / 8) (u8 (Z.lor b (Z.shiftl 1 (i mod 8)))).
Definition bm_put0 (bm : list Z) (i : Z) : outcome (list Z) :=
  b ← aget bm (i / 8);
  aset bm (i / 8) (u8 (Z.land b (Z.lnot (Z.shiftl 1 (i mod 8))))).

(** The abstract content: bits past the end read as clear. *)
Definition bit (bm : list Z) (i : Z) : bool :=
  match bm !! Z.to_nat (i / 8) with
  | Some b => Z.testbit b (i mod 8)
  | None => false
  end.
(** Number of [true] among [f 0 .. f (n-1)]. *)
Fixpoint popcount (f : Z → bool) (n : nat) : Z :=
  match n with
  | O => 0
  | S n => popcount f n + (if f (Z.of_nat n) then 1 else 0)
  end.
Definition bm_range (bm : list Z) (i : Z) : Prop := 0 <= i < 8 * Z.of_nat (length bm).

Lemma land1_testbit b k : 0 <= k → Z.land (Z.shiftr b k) 1 = Z.b2z (Z.testbit b k).
Proof.
  intros. change 1 with (Z.ones 1). rewrite Z.land_ones, Z.shiftr_div_pow2 by lia.
  change (2 ^ 1) with 2. by rewrite Z.testbit_spec'.
Qed.
Lemma u8_testbit b k : 0 <= k < 8 → Z.testbit (u8 b) k = Z.testbit b k.
Proof. intros. unfold u8. by rewrite Z.mod_pow2_bits_low by lia. Qed.
Lemma testbit_1_shiftl k j : 0 <= j → 0 <= k → Z.testbit (Z.shiftl 1 k) j = bool_decide (j = k).
Proof.
  intros. rewrite Z.shiftl_1_l, Z.pow2_bits_eqb by lia.
  case_bool_decide; [by apply Z.eqb_eq|apply Z.eqb_neq; lia].
Qed.

Section bits.
Context (bm : list Z).
Lemma bm_range_byte i : bm_range bm i →
  0 <= i / 8 < Z.of_nat (length bm) ∧ 0 <= i mod 8 < 8.
Proof. unfold bm_range. intros. zdm. Qed.

(** [bm_test] reads the abstract bit. *)
Lemma bm_test_bit i : bm_range bm i → bm_test bm i = Ret (Z.b2z (bit bm i)).
Proof.
  intros [Hi Hm]%bm_range_byte. unfold bm_test, bit.
  destruct (aget_in_range bm (i / 8)) as (b & Hb & Hl); [lia|].
  rewrite Hb, Hl. simpl. unfold mbind, outcome_mbind.
  by rewrite land1_testbit by lia.
Qed.

Lemma bit_insert i j b : bm_range bm i → 0 <= j →
  bit (<[Z.to_nat (i / 8) := b]> bm) j =
  if decide (i / 8 = j / 8) then Z.testbit b (j mod 8) else bit bm j.
Proof.
  intros [Hi Hm]%bm_range_byte ?. unfold bit. case_decide as E.
  - rewrite E, list_lookup_insert_eq; [done|]. lia.
  - rewrite list_lookup_insert_ne; [done|].
    intros E'. apply E. apply Z2Nat.inj; zdm.
Qed.

Lemma bm_put1_spec i : bm_range bm i → bytes bm →
  ∃ bm', bm_put1 bm i = Ret bm' ∧ length bm' = length bm ∧ bytes bm' ∧
         ∀ j, 0 <= j → bit bm' j = bool_decide (j = i) || bit bm j.
Proof.
  intros Hr Hb. pose proof (bm_range_byte i Hr) as [Hi Hm]. unfold bm_put1.
  destruct (aget_in_range bm (i / 8)) as (b & Hg & Hl); [lia|]. rewrite Hg.
  eexists. unfold mbind, outcome_mbind. rewrite aset_in_range by lia.
  split; [done|]. split; [by rewrite length_insert|].
  split; [apply Forall_insert; [done|]; unfold is_byte; apply u8_range|].
  intros j Hj. rewrite bit_insert by done. case_decide as E.
  - rewrite u8_testbit, Z.lor_spec, testbit_1_shiftl by zdm.
    unfold bit. rewrite <-E, Hl, orb_comm. f_equal. apply bool_decide_ext. zdm.
  - rewrite bool_decide_false; [done|]. intros ->. done.
Qed.

Lemma bm_put0_spec i : bm_range bm i → bytes bm →
  ∃ bm', bm_put0 bm i = Ret bm' ∧ length bm' = length bm ∧ bytes bm' ∧
         ∀ j, 0 <= j → bit bm' j = negb (bool_decide (j = i)) && bit bm j.
Proof.
  intros Hr Hb. pose proof (bm_range_byte i Hr) as [Hi Hm]. unfold bm_put0.
  destruct (aget_in_range bm (i / 8)) as (b & Hg & Hl); [lia|]. rewrite Hg.
  eexists. unfold mbind, outcome_mbind. rewrite aset_in_range by lia.
  split; [done|]. split; [by rewrite length_insert|].
  split; [apply Forall_insert; [done|]; unfold is_byte; apply u8_range|].
  intros j Hj. rewrite bit_insert by done. case_decide as E.
  - rewrite u8_testbit, Z.land_spec, Z.lnot_spec, testbit_1_shiftl by zdm.
    unfold bit. rewrite <-E, Hl, andb_comm. f_equal. f_equal.
    apply bool_decide_ext. zdm.
  - rewrite bool_decide_false; [done|]. intros ->. done.
Qed.
End bits.

Section popcount.
Implicit Types f g : Z → bool.
Lemma popcount_ext f g n :
  (∀ i, 0 <= i < Z.of_nat n → f i = g i) → popcount f n = popcount g n.
Proof.
  induction n as [|n IH]; intros H; simpl; [done|].
  rewrite IH by (intros; apply H; lia). by rewrite H by lia.
Qed.
Lemma popcount_bound f n : 0 <= popcount f n <= Z.of_nat n.
Proof. induction n; simpl; [lia|]. case_if; lia. Qed.
(** setting a clear bit adds one, clearing a set bit removes one *)
Lemma popcount_set f g n i : 0 <= i < Z.of_nat n → f i = false →
  (∀ j, 0 <= j → g j = bool_decide (j = i) || f j) →
  popcount g n = popcount f n + 1.
Proof.
  intros Hi Hf Hg. induction n as [|n IH]; [lia|]. simpl.
  destruct (decide (i = Z.of_nat n)) as [->|Hne].
  - rewrite Hf, (Hg (Z.of_nat n)), bool_decide_true by lia. simpl.
    rewrite (popcount_ext g f); [lia|]. intros.
    rewrite Hg, bool_decide_false by lia. done.
  - rewrite IH by lia. rewrite (Hg (Z.of_nat n)), bool_decide_false by lia. simpl. lia.
Qed.
Lemma popcount_clear f g n i : 0 <= i < Z.of_nat n → f i = true →
  (∀ j, 0 <= j → g j = negb (bool_decide (j = i)) && f j) →
  popcount g n = popcount f n - 1.
Proof.
  intros Hi Hf Hg. rewrite (popcount_set g f n i); [lia|done| |].
  - rewrite Hg, bool_decide_true by lia. done.
  - intros j Hj. rewrite Hg by done. case_bool_decide; subst; simpl; [done|].
    done.
Qed.
Lemma popcount_all f n : (∀ i, 0 <= i < Z.of_nat n → f i = true) → popcount f n = Z.of_nat n.
Proof.
  induction n as [|n IH]; intros H; simpl; [done|].
  rewrite IH by (intros; apply H; lia). rewrite H by lia. lia.
Qed.
Lemma popcount_full f n : popcount f n = Z.of_nat n → ∀ i, 0 <= i < Z.of_nat n → f i = true.
Proof.
  induction n as [|n IH]; simpl; [lia|]. intros H i Hi.
  pose proof (popcount_bound f n).
  destruct (f (Z.of_nat n)) eqn:E; [|lia].
  destruct (decide (i = Z.of_nat n)) as [->|]; [done|]. apply IH; lia.
Qed.
End popcount.
