(* ===== verification/Memory.v ===== *)
(** Physical memory as the kernel sees it through its identity mapping: a
    byte per address, read and written as little-endian words. *)
From stdpp Require Import base numbers list.
From S2P Require Import Prelude.
Open Scope Z_scope.

Definition mem : Type := Z → Z.
Definition mread (m : mem) (a : Z) (n : nat) : list Z :=
  (λ i, m (a + Z.of_nat i)) <$> seq 0 n.
Definition mwrite (m : mem) (a : Z) (l : list Z) : mem :=
  λ x, if (a <=? x) && (x <? a + Z.of_nat (length l))
       then nth (Z.to_nat (x - a)) l 0 else m x.
Definition ld8 (m : mem) (a : Z) : Z := m a.
Definition ld16 (m : mem) (a : Z) : Z := le_to (mread m a 2).
Definition ld32 (m : mem) (a : Z) : Z := le_to (mread m a 4).
Definition ld64 (m : mem) (a : Z) : Z := le_to (mread m a 8).
Definition st8 (m : mem) (a v : Z) : mem := mwrite m a [v].
Definition st32 (m : mem) (a v : Z) : mem := mwrite m a (le_of 4 v).
Definition st64 (m : mem) (a v : Z) : mem := mwrite m a (le_of 8 v).
Definition mem_bytes (m : mem) : Prop := ∀ a, is_byte (m a).
(** Two memories that agree on [[a, a+n)]. *)
Definition mem_same (m m' : mem) (a n : Z) : Prop := ∀ x, a <= x < a + n → m' x = m x.

Section memory.
Implicit Types (m : mem) (a b v : Z) (l : list Z).
Lemma length_mread m a n : length (mread m a n) = n.
Proof. unfold mread. by rewrite length_fmap, length_seq. Qed.
Lemma lookup_mread m a n i : (i < n)%nat → mread m a n !! i = Some (m (a + Z.of_nat i)).
Proof. intros. unfold mread. by rewrite list_lookup_fmap, lookup_seq_lt. Qed.
Lemma mread_ext m m' a n : (∀ x, a <= x < a + Z.of_nat n → m x = m' x) →
  mread m a n = mread m' a n.
Proof.
  intros H. apply list_eq. intros i. destruct (decide (i < n)%nat).
  - rewrite !lookup_mread by done. f_equal. apply H. lia.
  - rewrite !lookup_ge_None_2; [done| |]; rewrite length_mread; lia.
Qed.
Lemma bytes_mread m a n : mem_bytes m → bytes (mread m a n).
Proof.
  intros H. apply Forall_lookup. intros i x Hx.
  pose proof (lookup_lt_Some _ _ _ Hx) as Hl. rewrite length_mread in Hl.
  rewrite lookup_mread in Hx by done. by simplify_eq.
Qed.
Lemma mwrite_in m a l x : a <= x < a + Z.of_nat (length l) →
  mwrite m a l x = nth (Z.to_nat (x - a)) l 0.
Proof. intros. unfold mwrite. repeat btrue. done. Qed.
Lemma mwrite_out m a l x : x < a ∨ a + Z.of_nat (length l) <= x → mwrite m a l x = m x.
Proof. intros. unfold mwrite. case_if; [lia|done]. Qed.
Lemma mread_mwrite_same m a l : mread (mwrite m a l) a (length l) = l.
Proof.
  apply list_eq. intros i. destruct (decide (i < length l)%nat).
  - rewrite lookup_mread, mwrite_in by lia.
    destruct (nth_lookup_or_length l (Z.to_nat (a + Z.of_nat i - a)) 0) as [E|E]; [|lia].
    rewrite <-E. f_equal. lia.
  - rewrite !lookup_ge_None_2; [done| |]; rewrite ?length_mread; lia.
Qed.
Lemma mread_mwrite_disj m a l b n :
  b + Z.of_nat n <= a ∨ a + Z.of_nat (length l) <= b →
  mread (mwrite m a l) b n = mread m b n.
Proof. intros. apply mread_ext. intros. apply mwrite_out. lia. Qed.
Lemma mem_bytes_mwrite m a l : mem_bytes m → bytes l → mem_bytes (mwrite m a l).
Proof.
  intros Hm Hl x. unfold mwrite. case_if; [|apply Hm].
  destruct (nth_lookup_or_length l (Z.to_nat (x - a)) 0) as [E|E]; [|lia].
  unfold bytes in Hl. rewrite Forall_lookup in Hl. eauto.
Qed.
Lemma ld64_st64_same m a v : 0 <= v < 2 ^ 64 → ld64 (st64 m a v) a = v.
Proof.
  intros. unfold ld64, st64.
  pose proof (mread_mwrite_same m a (le_of 8 v)) as E. rewrite length_le_of in E.
  rewrite E. apply le_to_of. done.
Qed.
Lemma ld64_st64_disj m a b v : b + 8 <= a ∨ a + 8 <= b → ld64 (st64 m a v) b = ld64 m b.
Proof.
  intros. unfold ld64, st64. rewrite mread_mwrite_disj; [done|].
  rewrite length_le_of. lia.
Qed.
Lemma ld64_ext m m' a : (∀ x, a <= x < a + 8 → m x = m' x) → ld64 m a = ld64 m' a.
Proof. intros. unfold ld64. f_equal. apply mread_ext. intros. apply H. lia. Qed.
Lemma ld64_range m a : mem_bytes m → 0 <= ld64 m a < 2 ^ 64.
Proof.
  intros Hm. pose proof (le_to_bound _ (bytes_mread m a 8 Hm)) as H.
  rewrite length_mread in H. done.
Qed.
Lemma ld32_range m a : mem_bytes m → 0 <= ld32 m a < 2 ^ 32.
Proof.
  intros Hm. pose proof (le_to_bound _ (bytes_mread m a 4 Hm)) as H.
  rewrite length_mread in H. done.
Qed.
Lemma mem_bytes_st64 m a v : mem_bytes m → mem_bytes (st64 m a v).
Proof. intros. apply mem_bytes_mwrite; auto with chaser. Qed.
Lemma mwrite_app m a l1 l2 x : mwrite (mwrite m a l1) (a + Z.of_nat (length l1)) l2 x = mwrite m a (l1 ++ l2) x.
Proof.
  unfold mwrite. rewrite length_app.
  destruct (Z.leb_spec a x), (Z.ltb_spec x (a + Z.of_nat (length l1))), (Z.leb_spec (a + Z.of_nat (length l1)) x),
    (Z.ltb_spec x (a + Z.of_nat (length l1) + Z.of_nat (length l2))), (Z.ltb_spec x (a + Z.of_nat (length l1 + length l2)));
    cbn [andb]; try lia; try done; first [rewrite app_nth2 by lia; f_equal; lia|by rewrite app_nth1 by lia].
Qed.
(** two memories equal at every address *)
Definition meq m m' : Prop := ∀ x, m x = m' x.
#[export] Instance meq_equiv : Equivalence meq.
Proof. split; [by intros m x|by intros m m' Hm x; rewrite Hm|by intros m1 m2 m3 H1 H2 x; rewrite H1, H2]. Qed.
#[export] Instance mwrite_proper : Proper (meq ==> eq ==> eq ==> meq) mwrite.
Proof. intros m m' Hm a ? <- l ? <- x. unfold mwrite. by rewrite Hm. Qed.
End memory.
#[export] Hint Resolve mem_bytes_mwrite mem_bytes_st64 bytes_mread : chaser.
