(* ===== verification/Multiboot.v ===== *)
(** Multiboot2 boot information (kernel/multiboot.c, kernel/multiboot.h): the
    boot loader leaves a list of tags in memory; each tag starts with its
    32-bit type and 32-bit size, the next one follows at the next multiple of
    8, and a tag of type 0 ends the list.  Every parser walks that list with
    [for (;;)], so the walks take fuel; [tag_chain] is the shape of a list
    that ends, and on it the walks return what a search of the list finds. *)
From stdpp Require Import base numbers list.
From S2P Require Import Prelude Memory.
Open Scope Z_scope.

Module Mb.
Definition MULTIBOOT2_BOOTLOADER_MAGIC := 0x36d76289.
Definition TAG_END := 0.
Definition TAG_MODULE := 3.
Definition TAG_MMAP := 6.
Definition TAG_FRAMEBUFFER := 8.
Definition TAG_EFI32 := 11.
Definition TAG_EFI64 := 12.
Definition FRAMEBUFFER_TYPE_RGB := 1.
Definition MEMORY_AVAILABLE := 1.
(** [sizeof] of the packed structures of multiboot.h *)
Definition sizeof_tag_mmap := 16.
Definition sizeof_mmap_entry := 24.
Definition sizeof_tag_framebuffer := 32.
Definition sizeof_tag_module := 16.

Definition tag_type (m : mem) (tag : Z) : Z := ld32 m tag.
Definition tag_size (m : mem) (tag : Z) : Z := ld32 m (tag + 4).

(** the fields of [struct vbe_mode_info] that the kernel fills and reads *)
Record vbe_mode_info := Vbe {
  vbe_width : Z; vbe_height : Z; vbe_pitch : Z; vbe_bpp : Z; vbe_framebuffer : Z
}.

Definition suffix_match (cmdline suffix : list Z) : bool :=
  let sl := length suffix in
  let i := length cmdline in
  if (i <? sl)%nat then false
  else forallb (λ j, nth (i - sl + j)%nat cmdline 0 =? nth j suffix 0) (seq 0 sl).

Definition next_tag (m : mem) (tag : Z) : Z :=
  tag + Z.land (u32 (tag_size m tag + 7)) (2 ^ 32 - 8).

Definition multiboot_validate (m : mem) (magic mbi_phys : Z) : bool :=
  if negb (magic =? MULTIBOOT2_BOOTLOADER_MAGIC) then false
  else if has mbi_phys 7 then false
  else
    let total := ld32 m mbi_phys in
    negb ((total <? 16) || (total >? 0x100000)).

(** [multiboot_fill_vbe]: [None] is its [return -1]. *)
Fixpoint fill_vbe_loop (fuel : nat) (m : mem) (tag : Z) : outcome (option vbe_mode_info) :=
  match fuel with
  | O => Loop
  | S fuel =>
    if tag_type m tag =? TAG_END then Ret None
    else if (tag_type m tag =? TAG_FRAMEBUFFER) && (sizeof_tag_framebuffer <=? tag_size m tag)
    then
      let framebuffer_addr := ld64 m (tag + 8) in
      let framebuffer_type := ld8 m (tag + 29) in
      if (framebuffer_addr =? 0) || negb (framebuffer_type =? FRAMEBUFFER_TYPE_RGB)
      then fill_vbe_loop fuel m (next_tag m tag)
      else Ret (Some {| vbe_width := u16 (ld32 m (tag + 20));
                        vbe_height := u16 (ld32 m (tag + 24));
                        vbe_pitch := ld32 m (tag + 16);
                        vbe_bpp := ld8 m (tag + 28);
                        vbe_framebuffer := framebuffer_addr |})
    else fill_vbe_loop fuel m (next_tag m tag)
  end.
Definition multiboot_fill_vbe (fuel : nat) (m : mem) (mbi_phys : Z) : outcome (option vbe_mode_info) :=
  fill_vbe_loop fuel m (mbi_phys + 8).

Fixpoint has_efi_loop (fuel : nat) (m : mem) (tag : Z) : outcome bool :=
  match fuel with
  | O => Loop
  | S fuel =>
    if tag_type m tag =? TAG_END then Ret false
    else if (tag_type m tag =? TAG_EFI32) || (tag_type m tag =? TAG_EFI64) then Ret true
    else has_efi_loop fuel m (next_tag m tag)
  end.
Definition multiboot_has_efi_handoff (fuel : nat) (m : mem) (mbi_phys : Z) : outcome bool :=
  has_efi_loop fuel m (mbi_phys + 8).

(** The copy of a module's command line into [char buf[128]]: at most
    [cmd_max] bytes and 127 characters, up to the NUL. *)
Fixpoint copy_cmdline (m : mem) (cmdline : Z) (cmd_max ci : Z) (n : nat) : list Z :=
  match n with
  | O => []
  | S n =>
    if (ci <? cmd_max) && (ci + 1 <? 128) && negb (ld8 m (cmdline + ci) =? 0)
    then ld8 m (cmdline + ci) :: copy_cmdline m cmdline cmd_max (ci + 1) n
    else []
  end.
Fixpoint find_module_loop (fuel : nat) (m : mem) (suffix : list Z) (tag : Z) :
    outcome (option (Z * Z)) :=
  match fuel with
  | O => Loop
  | S fuel =>
    if tag_type m tag =? TAG_END then Ret None
    else if (tag_type m tag =? TAG_MODULE) && (sizeof_tag_module <=? tag_size m tag)
    then
      let cmdline := tag + sizeof_tag_module in
      let cmd_max := tag_size m tag - sizeof_tag_module in
      let buf := copy_cmdline m cmdline cmd_max 0 128 in
      if suffix_match buf suffix
      then Ret (Some (ld32 m (tag + 8), ld32 m (tag + 12)))
      else find_module_loop fuel m suffix (next_tag m tag)
    else find_module_loop fuel m suffix (next_tag m tag)
  end.
Definition multiboot_find_module_suffix (fuel : nat) (m : mem) (mbi_phys : Z) (suffix : list Z) :
    outcome (option (Z * Z)) :=
  find_module_loop fuel m suffix (mbi_phys + 8).

(** ** Tag lists that end *)
Fixpoint tag_chain (m : mem) (tag : Z) (tags : list Z) : Prop :=
  match tags with
  | [] => tag_type m tag = TAG_END
  | t :: tags => t = tag ∧ tag_type m t ≠ TAG_END ∧ tag_chain m (next_tag m t) tags
  end.

(** ** The walks as list searches *)
Definition rgb_framebuffer (m : mem) (tag : Z) : bool :=
  (tag_type m tag =? TAG_FRAMEBUFFER) && (sizeof_tag_framebuffer <=? tag_size m tag) &&
  negb ((ld64 m (tag + 8) =? 0) || negb (ld8 m (tag + 29) =? FRAMEBUFFER_TYPE_RGB)).
Definition vbe_of_tag (m : mem) (tag : Z) : vbe_mode_info :=
  {| vbe_width := u16 (ld32 m (tag + 20)); vbe_height := u16 (ld32 m (tag + 24));
     vbe_pitch := ld32 m (tag + 16); vbe_bpp := ld8 m (tag + 28);
     vbe_framebuffer := ld64 m (tag + 8) |}.
Definition module_named (m : mem) (suffix : list Z) (tag : Z) : bool :=
  (tag_type m tag =? TAG_MODULE) && (sizeof_tag_module <=? tag_size m tag) &&
  suffix_match (copy_cmdline m (tag + sizeof_tag_module) (tag_size m tag - sizeof_tag_module) 0 128)
               suffix.

Lemma rgb_framebuffer_match m tag :
  rgb_framebuffer m tag =
  ((tag_type m tag =? TAG_FRAMEBUFFER) && (sizeof_tag_framebuffer <=? tag_size m tag)) &&
  negb ((ld64 m (tag + 8) =? 0) || negb (ld8 m (tag + 29) =? FRAMEBUFFER_TYPE_RGB)).
Proof. done. Qed.

Lemma fill_vbe_chain m tags : ∀ tag fuel, tag_chain m tag tags → (length tags < fuel)%nat →
  fill_vbe_loop fuel m tag = Ret (vbe_of_tag m <$> List.find (rgb_framebuffer m) tags).
Proof.
  induction tags as [|t tags IH]; intros tag [|fuel] Hc Hf; simpl in *; try lia.
  - by rewrite Hc.
  - destruct Hc as (-> & Hne & Hc). bfalse.
    specialize (IH _ fuel Hc ltac:(lia)). rewrite rgb_framebuffer_match.
    destruct (_ && _); simpl; [|exact IH].
    destruct (_ || _); simpl; [exact IH|done].
Qed.

Lemma find_module_chain m suffix tags : ∀ tag fuel, tag_chain m tag tags → (length tags < fuel)%nat →
  find_module_loop fuel m suffix tag =
  Ret ((λ t, (ld32 m (t + 8), ld32 m (t + 12))) <$> List.find (module_named m suffix) tags).
Proof.
  induction tags as [|t tags IH]; intros tag [|fuel] Hc Hf; simpl in *; try lia.
  - by rewrite Hc.
  - destruct Hc as (-> & Hne & Hc). bfalse.
    specialize (IH _ fuel Hc ltac:(lia)). unfold module_named at 1.
    destruct ((tag_type m tag =? TAG_MODULE) && _); simpl; [|exact IH].
    destruct (suffix_match _ _); simpl; [done|exact IH].
Qed.

Lemma has_efi_chain m tags : ∀ tag fuel, tag_chain m tag tags → (length tags < fuel)%nat →
  has_efi_loop fuel m tag =
  Ret (existsb (λ t, (tag_type m t =? TAG_EFI32) || (tag_type m t =? TAG_EFI64)) tags).
Proof.
  induction tags as [|t tags IH]; intros tag [|fuel] Hc Hf; simpl in *; try lia.
  - by rewrite Hc.
  - destruct Hc as (-> & Hne & Hc). bfalse. destruct (_ || _); simpl; [done|].
    apply IH; [done|lia].
Qed.

(** A tag whose size is 0 has itself as its successor. *)
Lemma next_tag_zero m tag : tag_size m tag = 0 → next_tag m tag = tag.
Proof. intros H. unfold next_tag. rewrite H. change (Z.land (u32 (0 + 7)) (2 ^ 32 - 8)) with 0. lia. Qed.

Lemma suffix_match_app p s : suffix_match (p ++ s) s = true.
Proof.
  unfold suffix_match. rewrite length_app.
  destruct (_ <? _)%nat eqn:E; [apply Nat.ltb_lt in E; lia|].
  apply forallb_forall. intros j Hj%in_seq. apply Z.eqb_eq.
  rewrite app_nth2 by lia. f_equal. lia.
Qed.
Lemma suffix_match_inv c s : suffix_match c s = true → c = take (length c - length s) c ++ s.
Proof.
  unfold suffix_match. destruct (_ <? _)%nat eqn:E; [done|]. apply Nat.ltb_ge in E.
  rewrite forallb_forall. intros H.
  rewrite <-(take_drop (length c - length s) c) at 1. f_equal.
  apply (List.nth_ext _ _ 0 0); [rewrite length_drop; lia|].
  intros j Hj. rewrite length_drop in Hj.
  specialize (H j ltac:(apply in_seq; lia)). apply Z.eqb_eq in H. rewrite <-H.
  rewrite nth_skipn. done.
Qed.

(** ** Theorems *)

(** [suffix_match] decides whether a command line ends with the suffix. *)
Theorem suffix_match_spec (c s : list Z) : suffix_match c s = true ↔ ∃ p, c = p ++ s.
Proof.
  split; [|intros [p ->]; apply suffix_match_app].
  intros H%suffix_match_inv. eauto.
Qed.
End Mb.
