(* ===== verification/Pmm.v ===== *)
(** Physical page allocator (kernel/pmm.c).  The state is the file's four
    static variables; the bitmap, which the C code places right after the
    kernel image, is kept as the list of its bytes, and an access past its
    end is [Undef].  [pmm_wf] is the allocator's invariant: the bitmap covers
    the pages and [used_pages] is the number of its set bits.  Theorems:
    start-up reserves the kernel, the bitmap, the first megabyte and the
    framebuffer; allocation hands out a page that was free and is the lowest
    one, or the first fitting run; freeing undoes it. *)
From stdpp Require Import base numbers list.
From S2P Require Import Prelude Bitmap Memory Multiboot.
Open Scope Z_scope.

Module Pmm.
Import Mb.
Definition PAGE_SIZE := 4096.

Record pmm := Pmm {
  bitmap : list Z;
  total_pages : Z;
  used_pages : Z;
  bitmap_size : Z
}.
Definition set_bitmap (p : pmm) (bm : list Z) : pmm :=
  Pmm bm (total_pages p) (used_pages p) (bitmap_size p).
Definition used_incr (p : pmm) (n : Z) : pmm :=
  Pmm (bitmap p) (total_pages p) (u64 (used_pages p + n)) (bitmap_size p).

Definition bitmap_set (p : pmm) (page_index : Z) : outcome pmm :=
  bm ← bm_put1 (bitmap p) page_index; Ret (set_bitmap p bm).
Definition bitmap_clear (p : pmm) (page_index : Z) : outcome pmm :=
  bm ← bm_put0 (bitmap p) page_index; Ret (set_bitmap p bm).
Definition bitmap_test (p : pmm) (page_index : Z) : outcome Z :=
  bm_test (bitmap p) page_index.

(** [if (!bitmap_test(i)) { bitmap_set(i); used_pages++; }], the loop body
    with which [pmm_init] reserves pages *)
Definition reserve_page (p : pmm) (i : Z) : outcome pmm :=
  t ← bitmap_test p i;
  if t =? 0 then p ← bitmap_set p i; Ret (used_incr p 1) else Ret p.
Fixpoint reserve_pages (p : pmm) (i : Z) (n : nat) : outcome pmm :=
  match n with
  | O => Ret p
  | S n => p ← reserve_page p i; reserve_pages p (i + 1) n
  end.
(** [bitmap_clear(j); used_pages--] for [n] pages from [j] *)
Fixpoint release_pages (p : pmm) (j : Z) (n : nat) : outcome pmm :=
  match n with
  | O => Ret p
  | S n => p ← bitmap_clear p j; release_pages (used_incr p (-1)) (j + 1) n
  end.

(** ** The memory map tag *)
Definition pmm_next_tag (m : mem) (tag : Z) : Z :=
  tag + Z.land (u32 (tag_size m tag + 7)) (2 ^ 32 - 8).
Fixpoint find_mmap (fuel : nat) (m : mem) (tag : Z) : outcome (option Z) :=
  match fuel with
  | O => Loop
  | S fuel =>
    if tag_type m tag =? TAG_END then Ret None
    else if tag_type m tag =? TAG_MMAP then Ret (Some tag)
    else find_mmap fuel m (pmm_next_tag m tag)
  end.
Record mmap_entry := Entry { e_base : Z; e_length : Z; e_type : Z }.
(** [while (p + entry_size <= end)]: the entries of the tag, in order *)
Fixpoint entries_from (m : mem) (p e entry_size : Z) (n : nat) : list mmap_entry :=
  match n with
  | O => []
  | S n =>
    if p + entry_size <=? e
    then Entry (ld64 m p) (ld64 m (p + 8)) (ld32 m (p + 16))
         :: entries_from m (p + entry_size) e entry_size n
    else []
  end.
Definition mmap_entries (m : mem) (mmap_tag : option Z) : list mmap_entry :=
  match mmap_tag with
  | Some tag =>
    let size := tag_size m tag in
    let entry_size := ld32 m (tag + 8) in
    if (sizeof_tag_mmap <=? size) && (sizeof_mmap_entry <=? entry_size)
    then entries_from m (tag + sizeof_tag_mmap) (tag + size) entry_size (Z.to_nat size)
    else []
  | None => []
  end.
Definition end_addr (e : mmap_entry) : Z := u64 (e_base e + e_length e).
(** the first pass: the highest end of an available entry *)
Definition max_step (mx : Z) (e : mmap_entry) : Z :=
  if e_type e =? MEMORY_AVAILABLE
  then (if mx <? end_addr e then end_addr e else mx) else mx.
Definition max_avail (es : list mmap_entry) : Z := foldl max_step 0 es.
(** the second pass, after the bitmap has been written behind the kernel: the
    entries are read again from the memory that now holds the bitmap *)
Definition bitmap_in (m : mem) (ke : Z) (p : pmm) : mem := mwrite m ke (bitmap p).
Definition free_entry (p : pmm) (e : mmap_entry) : outcome pmm :=
  if e_type e =? MEMORY_AVAILABLE
  then let start_page := e_base e / PAGE_SIZE in
       let end_page := end_addr e / PAGE_SIZE in
       release_pages p start_page (Z.to_nat (end_page - start_page))
  else Ret p.
Fixpoint free_entries (n : nat) (m : mem) (ke tag q e : Z) (p : pmm) : outcome pmm :=
  match n with
  | O => Loop
  | S n =>
    let v := bitmap_in m ke p in
    if q + ld32 v (tag + 8) <=? e
    then p ← free_entry p (Entry (ld64 v q) (ld64 v (q + 8)) (ld32 v (q + 16)));
         free_entries n m ke tag (q + ld32 (bitmap_in m ke p) (tag + 8)) e p
    else Ret p
  end.
Definition free_pass (m : mem) (ke : Z) (mmap_tag : option Z) (p : pmm) : outcome pmm :=
  match mmap_tag with
  | Some tag =>
    let v := bitmap_in m ke p in
    let size := tag_size v tag in
    if (sizeof_tag_mmap <=? size) && (sizeof_mmap_entry <=? ld32 v (tag + 8))
    then free_entries (S (Z.to_nat size)) m ke tag (tag + sizeof_tag_mmap) (tag + size) p
    else Ret p
  | None => Ret p
  end.
(** the framebuffer pages, [for (a = fb_base & ~4095; a < fb_end; a += 4096)] *)
Fixpoint reserve_fb (p : pmm) (a fb_end : Z) (n : nat) {struct n} : outcome pmm :=
  if a <? fb_end
  then
    match n with
    | O => Loop
    | S n =>
      p ← (let pg := a / PAGE_SIZE in
           if pg <? total_pages p then reserve_page p pg else Ret p);
      reserve_fb p (u64 (a + PAGE_SIZE)) fb_end n
    end
  else Ret p.
Definition reserve_framebuffer (p : pmm) (vbe : option vbe_mode_info) : outcome pmm :=
  match vbe with
  | Some v =>
    if negb (vbe_framebuffer v =? 0) && (0 <? vbe_height v)
    then let fb_base := vbe_framebuffer v in
         let fb_size := u64 (vbe_pitch v * vbe_height v) in
         if negb (fb_size =? 0)
         then let fb_end := u64 (fb_base + fb_size) in
              let a := Z.land fb_base (Z.lnot (PAGE_SIZE - 1)) in
              reserve_fb p a fb_end (Z.to_nat (fb_size / PAGE_SIZE + 2))
         else Ret p
    else Ret p
  | None => Ret p
  end.

(** [pmm_init(mbi_phys)]; [ks] and [ke] are the linker's [_kernel_start] and
    [_kernel_end], where the bitmap begins. *)
Definition bitmap_size_of (total : Z) : Z :=
  total / 8 + (if total mod 8 =? 0 then 0 else 1).
Definition pmm_start (es : list mmap_entry) : pmm :=
  let total := max_avail es / PAGE_SIZE in
  let total := if total =? 0 then 1 else total in
  let bs := bitmap_size_of total in
  Pmm (replicate (Z.to_nat bs) 0xFF) total total bs.
Definition pmm_init (fuel : nat) (m : mem) (mbi_phys ks ke : Z) : outcome pmm :=
  mmap_tag ← find_mmap fuel m (mbi_phys + 8);
  p ← free_pass m ke mmap_tag (pmm_start (mmap_entries m mmap_tag));
  let kernel_start_page := ks / PAGE_SIZE in
  let kernel_end_page := u64 (ke + bitmap_size p) / PAGE_SIZE + 1 in
  p ← reserve_pages p kernel_start_page (Z.to_nat (kernel_end_page - kernel_start_page));
  p ← reserve_pages p 0 (Z.to_nat (0x100000 / PAGE_SIZE));
  vbe ← multiboot_fill_vbe fuel (bitmap_in m ke p) mbi_phys;
  reserve_framebuffer p vbe.

(** ** Allocation.  The null pointer is address 0. *)
Fixpoint alloc_page_from (p : pmm) (i : Z) (n : nat) : outcome (Z * pmm) :=
  match n with
  | O => Ret (0, p)
  | S n =>
    t ← bitmap_test p i;
    if t =? 0
    then p ← bitmap_set p i; Ret (i * PAGE_SIZE, used_incr p 1)
    else alloc_page_from p (i + 1) n
  end.
Definition pmm_alloc_page (p : pmm) : outcome (Z * pmm) :=
  alloc_page_from p 0 (Z.to_nat (total_pages p)).

(** [int ok]: whether the [n] pages from [i] are all free *)
Fixpoint run_free (p : pmm) (i : Z) (n : nat) : outcome bool :=
  match n with
  | O => Ret true
  | S n => t ← bitmap_test p i; if t =? 0 then run_free p (i + 1) n else Ret false
  end.
Fixpoint set_run (p : pmm) (i : Z) (n : nat) : outcome pmm :=
  match n with
  | O => Ret p
  | S n => p ← bitmap_set p i; set_run p (i + 1) n
  end.
Fixpoint alloc_run_from (p : pmm) (n start : Z) (fuel : nat) : outcome (Z * pmm) :=
  match fuel with
  | O => Loop
  | S fuel =>
    if u64 (start + n) <=? total_pages p
    then
      ok ← run_free p start (Z.to_nat n);
      if ok : bool
      then p ← set_run p start (Z.to_nat n); Ret (start * PAGE_SIZE, used_incr p n)
      else alloc_run_from p n (start + 1) fuel
    else Ret (0, p)
  end.
Definition pmm_alloc_contiguous_pages (p : pmm) (n : Z) : outcome (Z * pmm) :=
  if n =? 0 then Ret (0, p)
  else alloc_run_from p n 0 (S (Z.to_nat (total_pages p))).

(** [if (bitmap_test(i)) { bitmap_clear(i); used_pages--; }] *)
Definition free_one (p : pmm) (i : Z) : outcome pmm :=
  t ← bitmap_test p i;
  if t =? 0 then Ret p else p ← bitmap_clear p i; Ret (used_incr p (-1)).
Fixpoint free_run (p : pmm) (i : Z) (n : nat) : outcome pmm :=
  match n with
  | O => Ret p
  | S n =>
    if i <? total_pages p then p ← free_one p i; free_run p (i + 1) n else Ret p
  end.
Definition pmm_free_contiguous (p : pmm) (ptr n : Z) : outcome pmm :=
  if (ptr =? 0) || (n =? 0) then Ret p
  else
    let page_index := ptr / PAGE_SIZE in
    if total_pages p <=? page_index then Ret p
    else free_run p page_index (Z.to_nat n).
Definition pmm_free_page (p : pmm) (ptr : Z) : outcome pmm :=
  let page_index := ptr / PAGE_SIZE in
  if page_index <? total_pages p then free_one p page_index else Ret p.

Definition pmm_get_total_memory (p : pmm) : Z := u64 (total_pages p * PAGE_SIZE).
Definition pmm_get_used_memory (p : pmm) : Z := u64 (used_pages p * PAGE_SIZE).
Definition pmm_get_free_memory (p : pmm) : Z := u64 ((total_pages p - used_pages p) * PAGE_SIZE).

(** ** Invariant *)
Definition page_used (p : pmm) (i : Z) : bool := bit (bitmap p) i.
Record pmm_wf (p : pmm) : Prop := {
  wf_bytes : bytes (bitmap p);
  wf_length : Z.of_nat (length (bitmap p)) = bitmap_size p;
  wf_cover : total_pages p <= 8 * bitmap_size p;
  wf_total : 0 < total_pages p < 2 ^ 52;
  wf_used : used_pages p = popcount (page_used p) (Z.to_nat (total_pages p))
}.
(** [p'] is [p] with the pages [i] where [f i] marked used (or free). *)
Definition pages_plus (p p' : pmm) (f : Z → bool) : Prop :=
  total_pages p' = total_pages p ∧ bitmap_size p' = bitmap_size p ∧
  ∀ j, 0 <= j → page_used p' j = f j || page_used p j.
Definition pages_minus (p p' : pmm) (f : Z → bool) : Prop :=
  total_pages p' = total_pages p ∧ bitmap_size p' = bitmap_size p ∧
  ∀ j, 0 <= j → page_used p' j = negb (f j) && page_used p j.
Definition in_run (i : Z) (n : nat) (j : Z) : bool := (i <=? j) && (j <? i + Z.of_nat n).

Section ops.
Implicit Types (p : pmm) (i : Z).
Lemma wf_range p i : pmm_wf p → 0 <= i < total_pages p → bm_range (bitmap p) i.
Proof. intros [??? ? ?] ?. unfold bm_range. lia. Qed.
Lemma bitmap_test_spec p i : pmm_wf p → 0 <= i < total_pages p →
  bitmap_test p i = Ret (Z.b2z (page_used p i)).
Proof. intros. by apply bm_test_bit, wf_range. Qed.

(** setting a free page and counting it keeps the invariant *)
Lemma bitmap_set_count p i : pmm_wf p → 0 <= i < total_pages p → page_used p i = false →
  ∃ p', bitmap_set p i = Ret p' ∧ pmm_wf (used_incr p' 1) ∧
        pages_plus p (used_incr p' 1) (λ j, bool_decide (j = i)).
Proof.
  intros Hwf Hi Hf. destruct (bm_put1_spec (bitmap p) i) as (bm & E & Hl & Hb & Hbit);
    [by apply wf_range|apply Hwf|].
  exists (set_bitmap p bm). unfold bitmap_set. rewrite E. split; [done|].
  split; [|split; [done|split; [done|exact Hbit]]].
  destruct Hwf as [? ? ? ? Hu]. split; simpl; try done; [by rewrite Hl|].
  pose proof (popcount_set (page_used p) (bit bm) (Z.to_nat (total_pages p)) i
    ltac:(lia) Hf Hbit) as Hc.
  trans (popcount (bit bm) (Z.to_nat (total_pages p))); [|done]. rewrite Hu, Hc.
  pose proof (popcount_bound (page_used p) (Z.to_nat (total_pages p))).
  rewrite u64_small; [done|]. lia.
Qed.
Lemma bitmap_clear_count p i : pmm_wf p → 0 <= i < total_pages p → page_used p i = true →
  ∃ p', bitmap_clear p i = Ret p' ∧ pmm_wf (used_incr p' (-1)) ∧
        pages_minus p (used_incr p' (-1)) (λ j, bool_decide (j = i)).
Proof.
  intros Hwf Hi Hf. destruct (bm_put0_spec (bitmap p) i) as (bm & E & Hl & Hb & Hbit);
    [by apply wf_range|apply Hwf|].
  exists (set_bitmap p bm). unfold bitmap_clear. rewrite E. split; [done|].
  split; [|split; [done|split; [done|exact Hbit]]].
  destruct Hwf as [? ? ? ? Hu]. split; simpl; try done; [by rewrite Hl|].
  pose proof (popcount_clear (page_used p) (bit bm) (Z.to_nat (total_pages p)) i
    ltac:(lia) Hf Hbit) as Hc.
  trans (popcount (bit bm) (Z.to_nat (total_pages p))); [|done]. rewrite Hu, Hc.
  pose proof (popcount_bound (page_used p) (Z.to_nat (total_pages p))).
  pose proof (popcount_bound (bit bm) (Z.to_nat (total_pages p))).
  rewrite u64_small; lia.
Qed.

Lemma pages_plus_refl p : pages_plus p p (λ _, false).
Proof. by repeat split. Qed.
Lemma pages_plus_none p f : (∀ j, 0 <= j → f j = false) → pages_plus p p f.
Proof. intros H. split; [done|]. split; [done|]. intros j Hj. by rewrite H. Qed.
Lemma pages_minus_none p f : (∀ j, 0 <= j → f j = false) → pages_minus p p f.
Proof. intros H. split; [done|]. split; [done|]. intros j Hj. by rewrite H. Qed.
Lemma pages_plus_trans p p1 p2 f g h :
  pages_plus p p1 f → pages_plus p1 p2 g →
  (∀ j, 0 <= j → g j || f j = h j) → pages_plus p p2 h.
Proof.
  intros (Ht & Hb & H1) (Ht' & Hb' & H2) Hh. split; [congruence|]. split; [congruence|].
  intros j Hj. rewrite H2, H1, <-Hh by done. by destruct (g j), (f j).
Qed.
Lemma pages_minus_trans p p1 p2 f g h :
  pages_minus p p1 f → pages_minus p1 p2 g →
  (∀ j, 0 <= j → g j || f j = h j) → pages_minus p p2 h.
Proof.
  intros (Ht & Hb & H1) (Ht' & Hb' & H2) Hh. split; [congruence|]. split; [congruence|].
  intros j Hj. rewrite H2, H1, <-Hh by done. by destruct (g j), (f j).
Qed.

Lemma reserve_page_spec p i : pmm_wf p → 0 <= i < total_pages p →
  ∃ p', reserve_page p i = Ret p' ∧ pmm_wf p' ∧ pages_plus p p' (λ j, bool_decide (j = i)).
Proof.
  intros Hwf Hi. unfold reserve_page. rewrite bitmap_test_spec by done.
  destruct (page_used p i) eqn:E.
  - exists p. split; [done|]. split; [done|]. split; [done|]. split; [done|].
    intros j Hj. case_bool_decide; by subst.
  - destruct (bitmap_set_count p i) as (p' & Es & Hwf' & Hp); [done..|].
    exists (used_incr p' 1). cbn. rewrite Es. done.
Qed.

Lemma reserve_pages_spec n : ∀ p i, pmm_wf p → 0 <= i → i + Z.of_nat n <= total_pages p →
  ∃ p', reserve_pages p i n = Ret p' ∧ pmm_wf p' ∧ pages_plus p p' (in_run i n).
Proof.
  induction n as [|n IH]; intros p i Hwf Hi Hn.
  - exists p. split; [done|]. split; [done|]. eapply pages_plus_trans; [apply pages_plus_refl..|].
    intros j _. unfold in_run. destruct (_ <=? j) eqn:?, (j <? _) eqn:?; breflect; simpl; lia || done.
  - destruct (reserve_page_spec p i) as (p1 & E1 & Hwf1 & Hp1); [done|lia|].
    destruct (IH p1 (i + 1)) as (p2 & E2 & Hwf2 & Hp2);
      [done|lia|destruct Hp1 as (-> & _); lia|].
    exists p2. split; [cbn; by rewrite E1|]. split; [done|].
    eapply pages_plus_trans; [done..|]. intros j Hj. unfold in_run.
    apply eq_true_iff_eq. rewrite orb_true_iff, !andb_true_iff, bool_decide_eq_true, !Z.leb_le, !Z.ltb_lt. lia.
Qed.

Lemma release_pages_spec n : ∀ p i, pmm_wf p → 0 <= i → i + Z.of_nat n <= total_pages p →
  (∀ j, i <= j < i + Z.of_nat n → page_used p j = true) →
  ∃ p', release_pages p i n = Ret p' ∧ pmm_wf p' ∧ pages_minus p p' (in_run i n).
Proof.
  induction n as [|n IH]; intros p i Hwf Hi Hn Hu.
  - exists p. split; [done|]. split; [done|]. split; [done|]. split; [done|].
    intros j _. unfold in_run. destruct (_ <=? j) eqn:?, (j <? _) eqn:?; breflect; simpl; lia || done.
  - destruct (bitmap_clear_count p i) as (p1 & E1 & Hwf1 & Hp1); [done|lia|apply Hu; lia|].
    destruct (IH (used_incr p1 (-1)) (i + 1)) as (p2 & E2 & Hwf2 & Hp2);
      [done|lia|destruct Hp1 as (-> & _); lia| |].
    { destruct Hp1 as (_ & _ & Hb). intros j Hj. rewrite Hb, bool_decide_false, Hu by lia. done. }
    exists p2. split; [cbn; by rewrite E1|]. split; [done|].
    eapply pages_minus_trans; [done..|]. intros j Hj. unfold in_run.
    apply eq_true_iff_eq. rewrite orb_true_iff, !andb_true_iff, bool_decide_eq_true, !Z.leb_le, !Z.ltb_lt. lia.
Qed.
End ops.

Section allocation.
Implicit Types (p : pmm).
Lemma alloc_page_from_spec n : ∀ p i, pmm_wf p → 0 <= i → i + Z.of_nat n = total_pages p →
  (∀ j, 0 <= j < i → page_used p j = true) →
  ∃ a p', alloc_page_from p i n = Ret (a, p') ∧ pmm_wf p' ∧
    ((∃ k, 0 <= k < total_pages p ∧ a = k * PAGE_SIZE ∧ page_used p k = false ∧
           (∀ j, 0 <= j < k → page_used p j = true) ∧
           pages_plus p p' (λ j, bool_decide (j = k)))
     ∨ (a = 0 ∧ p' = p ∧ ∀ j, 0 <= j < total_pages p → page_used p j = true)).
Proof.
  induction n as [|n IH]; intros p i Hwf Hi Hn Hu; cbn.
  - exists 0, p. split; [done|]. split; [done|]. right. split; [done|]. split; [done|].
    intros. apply Hu. lia.
  - rewrite bitmap_test_spec by (done || lia). cbn. destruct (page_used p i) eqn:E.
    + apply IH; [done|lia|lia|]. intros j Hj. destruct (decide (j = i)) as [->|]; [done|]. apply Hu. lia.
    + destruct (bitmap_set_count p i) as (p' & Es & Hwf' & Hp); [done|lia|done|].
      exists (i * PAGE_SIZE), (used_incr p' 1). cbn. rewrite Es. split; [done|]. split; [done|].
      left. exists i. repeat split; try done; try lia; apply Hp.
Qed.

Lemma run_free_spec n : ∀ p i, pmm_wf p → 0 <= i → i + Z.of_nat n <= total_pages p →
  ∃ b, run_free p i n = Ret b ∧
       (b = true ↔ ∀ j, i <= j < i + Z.of_nat n → page_used p j = false).
Proof.
  induction n as [|n IH]; intros p i Hwf Hi Hn; cbn.
  - exists true. split; [done|]. split; [intros; lia|done].
  - rewrite bitmap_test_spec by (done || lia). cbn. destruct (page_used p i) eqn:E; cbn.
    + exists false. split; [done|]. split; [done|]. intros H. rewrite H in E by lia. done.
    + destruct (IH p (i + 1)) as (b & -> & Hb); [done|lia|lia|]. exists b. split; [done|].
      rewrite Hb. split; intros H j Hj; [|apply H; lia].
      destruct (decide (j = i)) as [->|]; [done|]. apply H. lia.
Qed.

Lemma used_incr_add p a b : used_incr (used_incr p a) b = used_incr p (a + b).
Proof.
  unfold used_incr. simpl. f_equal. unfold u64. rewrite Zplus_mod_idemp_l. f_equal. lia.
Qed.
Lemma set_run_used_incr n : ∀ p k i,
  set_run (used_incr p k) i n = (p' ← set_run p i n; Ret (used_incr p' k)).
Proof.
  induction n as [|n IH]; intros p k i; cbn; [done|]. unfold bitmap_set. simpl.
  destruct (bm_put1 (bitmap p) i); cbn; [|done..]. rewrite <-IH. done.
Qed.
(** on a free run, marking it and adding [n] is reserving page by page *)
Lemma set_run_reserve n : ∀ p i, pmm_wf p → 0 <= i → i + Z.of_nat n <= total_pages p →
  (∀ j, i <= j < i + Z.of_nat n → page_used p j = false) →
  ∃ p', set_run p i n = Ret p' ∧ reserve_pages p i n = Ret (used_incr p' (Z.of_nat n)).
Proof.
  induction n as [|n IH]; intros p i Hwf Hi Hn Hf; cbn.
  - exists p. split; [done|]. f_equal. destruct p, Hwf; unfold used_incr; simpl in *.
    f_equal. rewrite u64_small; [lia|].
    pose proof (popcount_bound (page_used (Pmm bitmap0 total_pages0 used_pages0 bitmap_size0))
                  (Z.to_nat total_pages0)). lia.
  - destruct (bitmap_set_count p i) as (p1 & E1 & Hwf1 & Hp1); [done|lia|apply Hf; lia|].
    unfold reserve_page. rewrite bitmap_test_spec, Hf by (done || lia). cbn. rewrite E1. cbn.
    destruct (IH (used_incr p1 1) (i + 1)) as (p2 & E2 & R2);
      [done|lia|destruct Hp1 as (-> & _); lia| |].
    { intros j Hj. destruct Hp1 as (_ & _ & Hb). rewrite Hb, bool_decide_false, Hf by lia. done. }
    rewrite set_run_used_incr in E2.
    destruct (set_run p1 (i + 1) n) as [q| |]; cbn in E2; simplify_eq.
    exists q. split; [done|]. rewrite R2, used_incr_add. do 2 f_equal. lia.
Qed.

Lemma alloc_run_from_spec fuel : ∀ p n start, pmm_wf p → 0 < n < 2 ^ 63 → 0 <= start →
  start <= total_pages p → (Z.to_nat (total_pages p - start) < fuel)%nat →
  (∀ k, 0 <= k < start → ∃ j, k <= j < k + n ∧ page_used p j = true) →
  ∃ a p', alloc_run_from p n start fuel = Ret (a, p') ∧ pmm_wf p' ∧
    ((∃ k, 0 <= k ∧ k + n <= total_pages p ∧ a = k * PAGE_SIZE ∧
           (∀ j, k <= j < k + n → page_used p j = false) ∧
           (∀ k', 0 <= k' < k → ∃ j, k' <= j < k' + n ∧ page_used p j = true) ∧
           pages_plus p p' (in_run k (Z.to_nat n)))
     ∨ (a = 0 ∧ p' = p ∧
        ∀ k, 0 <= k → k + n <= total_pages p → ∃ j, k <= j < k + n ∧ page_used p j = true)).
Proof.
  induction fuel as [|fuel IH]; intros p n start Hwf Hn Hs Hst Hf Hb; [lia|]. cbn.
  pose proof (wf_total _ Hwf). rewrite u64_small by lia. case_if.
  - destruct (run_free_spec (Z.to_nat n) p start) as (b & -> & Hfree); [done|lia|lia|].
    cbn. destruct b.
    + destruct Hfree as [Hfree _]. specialize (Hfree eq_refl).
      destruct (set_run_reserve (Z.to_nat n) p start) as (p' & -> & Hr); [done|lia|lia|done|].
      destruct (reserve_pages_spec (Z.to_nat n) p start) as (p2 & Hr2 & Hwf2 & Hp2); [done|lia|lia|].
      rewrite Hr in Hr2. simplify_eq. rewrite Z2Nat.id in * by lia. cbn.
      exists (start * PAGE_SIZE), (used_incr p' n). split; [done|]. split; [done|].
      left. exists start. repeat split; try done; try lia; try apply Hp2.
    + apply IH; [done|done|lia|lia|lia|]. intros k Hk.
      destruct (decide (k < start)); [apply Hb; lia|]. assert (k = start) as -> by lia.
      destruct (decide (Exists (λ j, page_used p j = true) (seqZ start n))) as [Hex|Hnex].
      * apply Exists_exists in Hex as (j & Hj & ?). apply elem_of_seqZ in Hj. eauto.
      * exfalso. cut (false = true); [done|]. apply Hfree. intros j Hj.
        apply not_true_is_false. intros Hj'. apply Hnex. apply Exists_exists.
        exists j. split; [apply elem_of_seqZ; lia|done].
  - exists 0, p. split; [done|]. split; [done|]. right. split; [done|]. split; [done|].
    intros. apply Hb. lia.
Qed.

Lemma free_one_spec p i : pmm_wf p → 0 <= i < total_pages p →
  ∃ p', free_one p i = Ret p' ∧ pmm_wf p' ∧ pages_minus p p' (λ j, bool_decide (j = i)).
Proof.
  intros Hwf Hi. unfold free_one. rewrite bitmap_test_spec by done. cbn.
  destruct (page_used p i) eqn:E; cbn.
  - destruct (bitmap_clear_count p i) as (p' & Es & Hwf' & Hp); [done..|].
    exists (used_incr p' (-1)). rewrite Es. done.
  - exists p. split; [done|]. split; [done|]. split; [done|]. split; [done|].
    intros j Hj. case_bool_decide; by subst.
Qed.
Lemma free_run_spec n : ∀ p i, pmm_wf p → 0 <= i → i + Z.of_nat n <= total_pages p →
  ∃ p', free_run p i n = Ret p' ∧ pmm_wf p' ∧ pages_minus p p' (in_run i n).
Proof.
  induction n as [|n IH]; intros p i Hwf Hi Hn; cbn.
  - exists p. split; [done|]. split; [done|]. split; [done|]. split; [done|].
    intros j _. unfold in_run. destruct (_ <=? j) eqn:?, (j <? _) eqn:?; breflect; simpl; lia || done.
  - btrue. destruct (free_one_spec p i) as (p1 & -> & Hwf1 & Hp1); [done|lia|]. cbn.
    destruct (IH p1 (i + 1)) as (p2 & -> & Hwf2 & Hp2); [done|lia|destruct Hp1 as (-> & _); lia|].
    exists p2. split; [done|]. split; [done|]. eapply pages_minus_trans; [done..|].
    intros j Hj. unfold in_run. apply eq_true_iff_eq.
    rewrite orb_true_iff, !andb_true_iff, bool_decide_eq_true, !Z.leb_le, !Z.ltb_lt. lia.
Qed.
(** two well-formed allocators with the same pages in use agree on the count *)
Lemma wf_used_ext p p' : pmm_wf p → pmm_wf p' → total_pages p = total_pages p' →
  (∀ j, 0 <= j < total_pages p → page_used p j = page_used p' j) → used_pages p = used_pages p'.
Proof.
  intros H1 H2 Ht H. rewrite (wf_used _ H1), (wf_used _ H2), <-Ht. apply popcount_ext.
  intros. apply H. pose proof (wf_total _ H1). lia.
Qed.
End allocation.

(** ** Start-up *)
(** the pages of every available entry of a map become free *)
Fixpoint free_avail (p : pmm) (es : list mmap_entry) : outcome pmm :=
  match es with
  | [] => Ret p
  | e :: es => p ← free_entry p e; free_avail p es
  end.
(** the pages that an available entry frees: from the page of its first byte to
    the last page that ends inside it *)
Definition avail_run (e : mmap_entry) (j : Z) : bool :=
  (e_type e =? MEMORY_AVAILABLE) && (e_base e / PAGE_SIZE <=? j) && (j <? end_addr e / PAGE_SIZE).
(** no page belongs to two available entries *)
Definition avail_disjoint (es : list mmap_entry) : Prop :=
  ForallOrdPairs (λ e e', ∀ j, avail_run e j = true → avail_run e' j = false) es.
(** the pages of the framebuffer *)
Definition fb_page (vbe : option vbe_mode_info) (j : Z) : bool :=
  match vbe with
  | Some v =>
    negb (vbe_framebuffer v =? 0) && (0 <? vbe_height v) && negb (vbe_pitch v * vbe_height v =? 0) &&
    (vbe_framebuffer v / PAGE_SIZE <=? j) &&
    (j * PAGE_SIZE <? vbe_framebuffer v + vbe_pitch v * vbe_height v)
  | None => false
  end.
(** the framebuffer lies below the top page of the address space *)
Definition fb_fits (vbe : option vbe_mode_info) : Prop :=
  match vbe with
  | Some v => 0 <= vbe_framebuffer v ∧ 0 <= vbe_pitch v ∧ 0 <= vbe_height v ∧
              vbe_framebuffer v + vbe_pitch v * vbe_height v < 2 ^ 64 - PAGE_SIZE
  | None => True
  end.

Section startup.
Implicit Types (p : pmm) (es : list mmap_entry).
Lemma max_step_mono es : ∀ mx, mx <= foldl max_step mx es.
Proof.
  induction es as [|e es IH]; intros mx; simpl; [lia|].
  etrans; [|apply IH]. unfold max_step. repeat case_if; lia.
Qed.
Lemma max_avail_ge es : ∀ mx e, e ∈ es → e_type e = MEMORY_AVAILABLE →
  end_addr e <= foldl max_step mx es.
Proof.
  induction es as [|e' es IH]; intros mx e He Ha; simpl; [by apply not_elem_of_nil in He|].
  apply elem_of_cons in He as [->|He]; [|by apply IH].
  etrans; [|apply max_step_mono]. unfold max_step. rewrite Ha. simpl. case_if; lia.
Qed.
Lemma max_step_range es : ∀ mx, 0 <= mx < 2 ^ 64 → 0 <= foldl max_step mx es < 2 ^ 64.
Proof.
  induction es as [|e es IH]; intros mx Hmx; simpl; [done|].
  apply IH. pose proof (u64_range (e_base e + e_length e)) as Hr.
  unfold max_step, end_addr. repeat case_if; done.
Qed.
Lemma max_avail_range es : 0 <= max_avail es < 2 ^ 64.
Proof. by apply max_step_range. Qed.

Lemma bitmap_size_cover t : t <= 8 * bitmap_size_of t.
Proof. unfold bitmap_size_of. case_if; zdm. Qed.
Lemma pmm_start_wf es : pmm_wf (pmm_start es) ∧ ∀ j, 0 <= j < total_pages (pmm_start es) →
  page_used (pmm_start es) j = true.
Proof.
  pose proof (max_avail_range es) as Hm.
  assert (0 < total_pages (pmm_start es) < 2 ^ 52) as Ht.
  { simpl. unfold PAGE_SIZE. case_if; zdm. }
  assert (total_pages (pmm_start es) <= 8 * bitmap_size (pmm_start es)) as Hc.
  { change (bitmap_size (pmm_start es)) with (bitmap_size_of (total_pages (pmm_start es))).
    by apply bitmap_size_cover. }
  assert (∀ j, 0 <= j < total_pages (pmm_start es) → page_used (pmm_start es) j = true) as Hu.
  { intros j Hj. unfold page_used, bit. simpl bitmap. simpl bitmap_size in Hc.
    rewrite lookup_replicate_2; [|zdm].
    assert (j mod 8 = 0 ∨ j mod 8 = 1 ∨ j mod 8 = 2 ∨ j mod 8 = 3 ∨ j mod 8 = 4 ∨ j mod 8 = 5 ∨
            j mod 8 = 6 ∨ j mod 8 = 7) as Hj8 by zdm.
    by destruct Hj8 as [->|[->|[->|[->|[->|[->|[->| ->]]]]]]]. }
  split; [|done]. split.
  - simpl. apply Forall_replicate. unfold is_byte. lia.
  - simpl in *. rewrite length_replicate. lia.
  - done.
  - done.
  - rewrite popcount_all; [|intros; apply Hu; lia].
    rewrite Z2Nat.id; [done|lia].
Qed.

Lemma free_avail_spec es : ∀ p, pmm_wf p → avail_disjoint es →
  Forall (λ e, 0 <= e_base e ∧ (e_type e = MEMORY_AVAILABLE → end_addr e / PAGE_SIZE <= total_pages p)) es →
  (∀ e j, e ∈ es → avail_run e j = true → page_used p j = true) →
  ∃ p', free_avail p es = Ret p' ∧ pmm_wf p' ∧ pages_minus p p' (λ j, existsb (λ e, avail_run e j) es).
Proof.
  induction es as [|e es IH]; intros p Hwf Hd Hb Hu; cbn.
  { exists p. split; [done|]. split; [done|]. by repeat split. }
  inversion Hd as [|? ? Hd1 Hd2]; subst. apply Forall_cons in Hb as [[Hb1 Hb2] Hb].
  assert (∃ p1, free_entry p e = Ret p1 ∧ pmm_wf p1 ∧ pages_minus p p1 (avail_run e)) as (p1 & -> & Hwf1 & Hp1).
  { unfold free_entry, avail_run. cbv zeta. case_if; cbn.
    - destruct (decide (e_base e / PAGE_SIZE <= end_addr e / PAGE_SIZE)) as [Hle|Hgt].
      + destruct (release_pages_spec (Z.to_nat (end_addr e / PAGE_SIZE - e_base e / PAGE_SIZE))
          p (e_base e / PAGE_SIZE)) as (p1 & E & Hwf1 & Hp1).
        * done.
        * apply Z.div_pos; [done|]. unfold PAGE_SIZE. lia.
        * specialize (Hb2 ltac:(done)). lia.
        * intros j Hj. apply (Hu e); [left|]. unfold avail_run. rewrite !andb_true_iff.
          rewrite Z.leb_le, Z.ltb_lt, Z.eqb_eq. split; [split; [done|]|]; lia.
        * exists p1. split; [done|]. split; [done|]. destruct Hp1 as (? & ? & Hp1).
          split; [done|]. split; [done|]. intros j Hj. rewrite Hp1 by done. unfold in_run.
          do 3 f_equal. apply eq_true_iff_eq. rewrite !Z.ltb_lt. lia.
      + exists p. replace (Z.to_nat _) with O by lia. split; [done|]. split; [done|].
        split; [done|]. split; [done|]. intros j Hj.
        replace ((e_base e / PAGE_SIZE <=? j) && (j <? end_addr e / PAGE_SIZE)) with false; [done|].
        symmetry. apply not_true_is_false. rewrite andb_true_iff, Z.leb_le, Z.ltb_lt. lia.
    - exists p. split; [done|]. split; [done|]. by repeat split. }
  destruct (IH p1) as (p2 & E2 & Hwf2 & Hp2); [done|done| | |].
  { eapply Forall_impl; [exact Hb|]. intros e' [? H2]. split; [done|]. destruct Hp1 as (-> & _). done. }
  { intros e' j He' Hr. destruct Hp1 as (_ & _ & Hp1). rewrite List.Forall_forall in Hd1.
    assert (0 <= j) as Hj.
    { unfold avail_run in Hr. breflect. etrans; [|done]. rewrite List.Forall_forall in Hb.
      apply Z.div_pos; [|done]. apply Hb. by apply list_elem_of_In. }
    rewrite Hp1 by done. rewrite (Hu e' j) by (by right || done). rewrite andb_true_r.
    apply negb_true_iff, not_true_is_false. intros Hr'.
    rewrite (Hd1 e') in Hr; [done|by apply list_elem_of_In|done]. }
  exists p2. split; [cbn; exact E2|]. split; [done|]. eapply pages_minus_trans; [done..|].
  intros. cbn. by rewrite orb_comm.
Qed.

Lemma reserve_fb_spec n : ∀ p k fb_end, pmm_wf p → 0 <= k → fb_end < 2 ^ 64 - PAGE_SIZE →
  fb_end - k * PAGE_SIZE <= PAGE_SIZE * Z.of_nat n →
  ∃ p', reserve_fb p (k * PAGE_SIZE) fb_end n = Ret p' ∧ pmm_wf p' ∧
    pages_plus p p' (λ j, (k <=? j) && (j * PAGE_SIZE <? fb_end) && (j <? total_pages p)).
Proof.
  unfold PAGE_SIZE. induction n as [|n IH]; intros p k fb_end Hwf Hk He Hn; cbn -[Z.mul reserve_page]; unfold PAGE_SIZE in *.
  - case_if; [lia|]. exists p. split; [done|]. split; [done|]. split; [done|]. split; [done|].
    intros j Hj. destruct (k <=? j) eqn:?, (j * 4096 <? fb_end) eqn:?; breflect; simpl; done || lia.
  - case_if.
    + rewrite Z.div_mul by done. rewrite (u64_small (k * 4096 + 4096)) by lia.
      replace (k * 4096 + 4096) with ((k + 1) * 4096) by lia.
      assert (∃ p1, (if k <? total_pages p then reserve_page p k else Ret p) = Ret p1 ∧ pmm_wf p1 ∧
        pages_plus p p1 (λ j, bool_decide (j = k) && (j <? total_pages p))) as (p1 & -> & Hwf1 & Hp1).
      { case_if.
        - destruct (reserve_page_spec p k) as (p1 & ? & ? & ? & ? & Hp1); [done|lia|].
          exists p1. split; [done|]. split; [done|]. split; [done|]. split; [done|]. intros j Hj. rewrite Hp1 by done.
          case_bool_decide; subst; simpl; [|done]. btrue. done.
        - exists p. split; [done|]. split; [done|]. repeat split; try done. intros j Hj.
          case_bool_decide; subst; simpl; [|done]. bfalse. done. }
      destruct (IH p1 (k + 1) fb_end) as (p2 & E2 & Hwf2 & Hp2); [done|lia|done|lia|].
      exists p2. cbn -[Z.mul]. split; [exact E2|]. split; [done|]. eapply pages_plus_trans; [done..|].
      intros j Hj. cbn -[Z.mul]. destruct Hp1 as (-> & _). apply eq_true_iff_eq.
      rewrite orb_true_iff, !andb_true_iff, bool_decide_eq_true, !Z.leb_le, !Z.ltb_lt. lia.
    + exists p. split; [done|]. split; [done|]. split; [done|]. split; [done|].
      intros j Hj. destruct (k <=? j) eqn:?, (j * 4096 <? fb_end) eqn:?; breflect; simpl; done || lia.
Qed.

Lemma reserve_framebuffer_spec p vbe : pmm_wf p → fb_fits vbe →
  ∃ p', reserve_framebuffer p vbe = Ret p' ∧ pmm_wf p' ∧
    pages_plus p p' (λ j, fb_page vbe j && (j <? total_pages p)).
Proof.
  intros Hwf Hfit. destruct vbe as [v|]; [|exists p; eauto using pages_plus_none].
  destruct Hfit as (H1 & H2 & H3 & H4). unfold reserve_framebuffer, fb_page, PAGE_SIZE in *.
  assert (0 <= vbe_pitch v * vbe_height v) as H5 by lia.
  rewrite (u64_small (_ * _)), (u64_small (_ + _)) by lia.
  destruct (negb _ && _) eqn:E1; [|exists p; eauto using pages_plus_none].
  destruct (negb (_ * _ =? 0)) eqn:E2; [|exists p; eauto using pages_plus_none].
  rewrite (land_lnot_ones _ 12) by done. change (2 ^ 12) with 4096. rewrite (Z.mul_comm 4096).
  apply reserve_fb_spec; [done|apply Z.div_pos; lia|done|unfold PAGE_SIZE; zdm].
Qed.
End startup.

Section tags.
Context (m : mem).
Definition is_mmap (t : Z) : bool := tag_type m t =? TAG_MMAP.
Lemma find_mmap_chain tags : ∀ tag fuel, tag_chain m tag tags → (length tags < fuel)%nat →
  find_mmap fuel m tag = Ret (List.find is_mmap tags).
Proof.
  induction tags as [|t tags IH]; intros tag [|fuel] Hc Hf; simpl in *; try lia.
  - by rewrite Hc.
  - destruct Hc as (-> & Hne & Hc). bfalse. unfold is_mmap at 1. case_if; [done|].
    apply IH; [done|lia].
Qed.
Lemma entries_from_base n : mem_bytes m → ∀ p e sz, Forall (λ en, 0 <= e_base en) (entries_from m p e sz n).
Proof.
  intros Hm. induction n as [|n IH]; intros; simpl; [constructor|]. case_if; [|constructor].
  constructor; [|apply IH]. simpl. by apply ld64_range.
Qed.
Lemma mmap_entries_base t : mem_bytes m → Forall (λ en, 0 <= e_base en) (mmap_entries m t).
Proof.
  intros Hm. destruct t as [t|]; simpl; [|constructor].
  case_if; [by apply entries_from_base|constructor].
Qed.
End tags.

(** ** The boot information beside the bitmap *)
(** the bytes of a tag list, its end tag included, lie outside [lo, hi) *)
Fixpoint tags_apart (m : mem) (tag : Z) (tags : list Z) (lo hi : Z) : Prop :=
  match tags with
  | [] => tag + 8 <= lo ∨ hi <= tag
  | t :: tags => (t + Z.max 8 (tag_size m t) <= lo ∨ hi <= t) ∧ tags_apart m (next_tag m t) tags lo hi
  end.
Section apart.
Context (m v : mem) (lo hi : Z) (Hv : ∀ x, x < lo ∨ hi <= x → v x = m x).
Lemma ld32_apart a : a + 4 <= lo ∨ hi <= a → ld32 v a = ld32 m a.
Proof. intros H. unfold ld32. f_equal. apply mread_ext. intros x Hx. apply Hv. lia. Qed.
Lemma ld64_apart a : a + 8 <= lo ∨ hi <= a → ld64 v a = ld64 m a.
Proof. intros H. apply ld64_ext. intros x Hx. apply Hv. lia. Qed.
Lemma tag_apart t : t + 8 <= lo ∨ hi <= t → tag_type v t = tag_type m t ∧ tag_size v t = tag_size m t ∧ next_tag v t = next_tag m t.
Proof. intros H. assert (tag_size v t = tag_size m t) as E by (apply ld32_apart; lia). split; [apply ld32_apart; lia|]. split; [done|]. unfold next_tag. by rewrite E. Qed.
Lemma chain_apart tags : ∀ tag, tag_chain m tag tags → tags_apart m tag tags lo hi → tag_chain v tag tags.
Proof.
  induction tags as [|t tags IH]; intros tag Hc Ha; cbn [tag_chain tags_apart] in *.
  - by destruct (tag_apart tag) as (-> & _).
  - destruct Hc as (-> & Hn & Hc), Ha as [Ha1 Ha2]. destruct (tag_apart tag ltac:(lia)) as (-> & _ & ->). split; [done|]. split; [done|]. by apply IH.
Qed.
Lemma fb_apart t : t + Z.max 8 (tag_size m t) <= lo ∨ hi <= t → rgb_framebuffer v t = rgb_framebuffer m t ∧ (rgb_framebuffer m t = true → vbe_of_tag v t = vbe_of_tag m t).
Proof.
  intros Ha. destruct (tag_apart t ltac:(lia)) as (Et & Es & _). unfold rgb_framebuffer. rewrite Et, Es. destruct (tag_type m t =? TAG_FRAMEBUFFER); cbn [andb]; [|done]. destruct (sizeof_tag_framebuffer <=? tag_size m t) eqn:E; cbn [andb]; [|done]. unfold sizeof_tag_framebuffer in E. breflect.
  assert (∀ k, 0 <= k <= 31 → ld8 v (t + k) = ld8 m (t + k)) as H8 by (intros k Hk; apply Hv; lia). unfold vbe_of_tag. rewrite !H8 by lia. rewrite !ld64_apart by lia. rewrite !ld32_apart by lia. done.
Qed.
Lemma find_fb_apart tags : ∀ tag, tag_chain m tag tags → tags_apart m tag tags lo hi → vbe_of_tag v <$> List.find (rgb_framebuffer v) tags = vbe_of_tag m <$> List.find (rgb_framebuffer m) tags.
Proof.
  induction tags as [|t tags IH]; intros tag Hc Ha; [done|]. cbn [tag_chain tags_apart] in *. destruct Hc as (-> & Hn & Hc), Ha as [Ha1 Ha2]. destruct (fb_apart tag Ha1) as [E1 E2]. cbn [List.find]. rewrite E1. destruct (rgb_framebuffer m tag); [cbn; by rewrite E2|]. by eapply IH.
Qed.
End apart.
Lemma bitmap_in_out m ke p x : x < ke ∨ ke + Z.of_nat (length (bitmap p)) <= x → bitmap_in m ke p x = m x.
Proof. apply mwrite_out. Qed.
Lemma release_length n : ∀ p j p', release_pages p j n = Ret p' → length (bitmap p') = length (bitmap p).
Proof.
  induction n as [|n IH]; intros p j p'; cbn [release_pages]; [by intros [= ->]|]. unfold bitmap_clear, bm_put0. destruct (aget _ _) as [b| |]; [|done..]. ostep. unfold aset. case_if; [|done]. ostep. intros Hr%IH. rewrite Hr. cbn. by rewrite length_insert.
Qed.
(** the second pass over a map that the bitmap does not overwrite *)
Lemma free_entries_eq m ke tag es e n : ∀ q p, es = ld32 m (tag + 8) → sizeof_mmap_entry <= es → tag + 12 <= q → e - q <= Z.of_nat n → (∀ L, L = Z.of_nat (length (bitmap p)) → Z.max e (tag + 12) <= ke ∨ ke + L <= tag) →
  free_entries (S n) m ke tag q e p = free_avail p (entries_from m q e es n).
Proof.
  unfold sizeof_mmap_entry. induction n as [|n IH]; intros q p Hes Hsz Hq Hn Ha; specialize (Ha _ eq_refl).
  - cbn [free_entries entries_from]. rewrite (ld32_apart m _ ke (ke + Z.of_nat (length (bitmap p))) (bitmap_in_out m ke p)) by lia. rewrite <-Hes. by rewrite (proj2 (Z.leb_gt _ _)) by lia.
  - set (fe := free_entries (S n)) in *. change (free_entries (S (S n)) m ke tag q e p) with (let v := bitmap_in m ke p in if q + ld32 v (tag + 8) <=? e then p ← free_entry p (Entry (ld64 v q) (ld64 v (q + 8)) (ld32 v (q + 16))); fe m ke tag (q + ld32 (bitmap_in m ke p) (tag + 8)) e p else Ret p).
    cbn [entries_from]. cbv zeta. pose proof (bitmap_in_out m ke p) as Hv. rewrite (ld32_apart m _ _ _ Hv (tag + 8)) by lia. rewrite <-Hes. destruct (q + es <=? e) eqn:E; [|done]. breflect.
    rewrite !(ld64_apart m _ _ _ Hv), (ld32_apart m _ _ _ Hv) by lia. cbn [free_avail]. destruct (free_entry p _) as [p1| |] eqn:Ef; [|done..]. ostep. assert (length (bitmap p1) = length (bitmap p)) as El by (revert Ef; unfold free_entry; case_if; [apply release_length|by intros [= ->]]).
    rewrite (ld32_apart m _ _ _ (bitmap_in_out m ke p1) (tag + 8)) by (rewrite El; lia). rewrite <-Hes. apply IH; [done|done|lia|lia|]. rewrite El. by intros L ->.
Qed.
Lemma free_pass_eq m ke tag p : (tag + Z.max 8 (tag_size m tag) <= ke ∨ ke + Z.of_nat (length (bitmap p)) <= tag) → free_pass m ke (Some tag) p = free_avail p (mmap_entries m (Some tag)).
Proof.
  intros Ha. pose proof (bitmap_in_out m ke p) as Hv. destruct (tag_apart m _ _ _ Hv tag ltac:(lia)) as (_ & Es & _). unfold free_pass, mmap_entries. cbv zeta. rewrite Es. destruct (sizeof_tag_mmap <=? tag_size m tag) eqn:E1; cbn [andb]; [|done]. unfold sizeof_tag_mmap in *. breflect.
  rewrite (ld32_apart m _ _ _ Hv) by lia. destruct (sizeof_mmap_entry <=? _) eqn:E2; [|done]. breflect. apply free_entries_eq; [done|done|lia|lia|]. intros L ->. lia.
Qed.
Lemma apart_mmap m tags lo hi : ∀ tag t, tag_chain m tag tags → tags_apart m tag tags lo hi → List.find (is_mmap m) tags = Some t → t + Z.max 8 (tag_size m t) <= lo ∨ hi <= t.
Proof.
  induction tags as [|t0 tags IH]; intros tag t Hc Ha Hf; [done|]. cbn [tag_chain tags_apart List.find] in *. destruct Hc as (-> & Hn & Hc), Ha as [Ha1 Ha2]. destruct (is_mmap m tag); [by injection Hf as <-|by eapply IH].
Qed.
Section init.
Implicit Types (es : list mmap_entry).
(** the first two passes over the memory map *)
Lemma free_avail_start es : Forall (λ e, 0 <= e_base e) es → avail_disjoint es →
  0x100000 <= max_avail es →
  ∃ p, free_avail (pmm_start es) es = Ret p ∧ pmm_wf p ∧ total_pages p = max_avail es / PAGE_SIZE ∧
       bitmap_size p = bitmap_size_of (max_avail es / PAGE_SIZE) ∧
       ∀ j, 0 <= j < max_avail es / PAGE_SIZE → page_used p j = negb (existsb (λ e, avail_run e j) es).
Proof.
  intros Hb Hd Hmax. rewrite List.Forall_forall in Hb.
  pose proof (pmm_start_wf es) as [Hwf0 Hu0]. pose proof (max_avail_range es) as Hmr.
  assert (total_pages (pmm_start es) = max_avail es / PAGE_SIZE) as Ht0.
  { simpl. unfold PAGE_SIZE. case_if; [|done]. zdm. }
  destruct (free_avail_spec es (pmm_start es)) as (p1 & -> & Hwf1 & Ht1 & Hs1 & Hp1); [done|done| | |].
  { apply List.Forall_forall. intros e He. split; [by apply Hb|]. intros Ha. rewrite Ht0.
    apply Z.div_le_mono; [done|]. by apply max_avail_ge; [apply list_elem_of_In|]. }
  { intros e j He Hr. apply Hu0. unfold avail_run in Hr. breflect. rewrite Ht0.
    specialize (Hb e (proj1 (list_elem_of_In _ _) He)).
    pose proof (max_avail_ge es 0 e He ltac:(done)) as Hge. fold (max_avail es) in Hge.
    unfold PAGE_SIZE in *. zdm. }
  exists p1. split; [done|]. split; [done|]. rewrite Ht1, Hs1, <-Ht0. split; [done|]. split; [done|].
  intros j Hj. by rewrite Hp1, Hu0, andb_true_r by lia.
Qed.
(** the loop over the pages [first .. last] *)
Lemma reserve_upto p first last : pmm_wf p → 0 <= first → 0 <= last < total_pages p →
  ∃ p', reserve_pages p first (Z.to_nat (last + 1 - first)) = Ret p' ∧ pmm_wf p' ∧
        pages_plus p p' (λ j, (first <=? j) && (j <=? last)).
Proof.
  intros Hwf Hf Hl. destruct (decide (last + 1 <= first)).
  - replace (Z.to_nat _) with O by lia. exists p. split; [done|]. split; [done|].
    apply pages_plus_none. intros j _. apply andb_false_iff. rewrite !Z.leb_gt. lia.
  - destruct (reserve_pages_spec (Z.to_nat (last + 1 - first)) p first)
      as (p' & E & Hwf' & Ht & Hs & Hp); [done|done|lia|].
    exists p'. split; [done|]. split; [done|]. split; [done|]. split; [done|].
    intros j Hj. rewrite Hp by done. f_equal. unfold in_run. apply eq_true_iff_eq.
    rewrite !andb_true_iff, !Z.leb_le, Z.ltb_lt. lia.
Qed.
End init.

(** ** Theorems *)

(** Start-up over a boot information block that the bitmap does not overwrite *)
Lemma pmm_init_ok fuel m mbi ks ke tags :
  let es := mmap_entries m (List.find (is_mmap m) tags) in
  let vbe := vbe_of_tag m <$> List.find (rgb_framebuffer m) tags in
  let size := bitmap_size_of (max_avail es / PAGE_SIZE) in
  let last := (ke + size) / PAGE_SIZE in
  mem_bytes m → tag_chain m (mbi + 8) tags → (length tags < fuel)%nat → tags_apart m (mbi + 8) tags ke (ke + size) →
  avail_disjoint es → fb_fits vbe → 0x100000 <= max_avail es → 0 <= ks → 0 <= ke → last < max_avail es / PAGE_SIZE →
  ∃ p, pmm_init fuel m mbi ks ke = Ret p ∧ pmm_wf p ∧ total_pages p = max_avail es / PAGE_SIZE ∧
    ∀ j, 0 <= j < total_pages p →
      page_used p j = false ↔
      existsb (λ e, avail_run e j) es = true ∧ 256 <= j ∧
      (j < ks / PAGE_SIZE ∨ last < j) ∧ fb_page vbe j = false.
Proof.
  intros es vbe size last Hm Hc Hf Ha Hd Hfb Hmax Hks Hke Hlast. pose proof (max_avail_range es) as Hmr.
  destruct (free_avail_start es) as (p1 & E1 & Hwf1 & Ht1 & Hs1 & Hp1); [by apply mmap_entries_base|done|done|]. fold size in Hs1.
  assert (total_pages (pmm_start es) = max_avail es / PAGE_SIZE) as Ht0 by (simpl; unfold PAGE_SIZE in *; case_if; [zdm|done]).
  assert (0 <= size) as Hbs0 by (unfold size; pose proof (bitmap_size_cover (max_avail es / PAGE_SIZE)); unfold PAGE_SIZE in *; zdm).
  assert (Z.of_nat (length (bitmap (pmm_start es))) = size) as Hl0.
  { pose proof (pmm_start_wf es) as [Hwf0 _]. rewrite (wf_length _ Hwf0). unfold size. rewrite <-Ht0. done. }
  assert (free_pass m ke (List.find (is_mmap m) tags) (pmm_start es) = Ret p1) as Ep.
  { assert (es = mmap_entries m (List.find (is_mmap m) tags)) as Ees by done. clearbody es. rewrite <-E1. pose proof (apart_mmap m tags ke (ke + size) (mbi + 8)) as Hap. destruct (List.find (is_mmap m) tags) as [t|] eqn:Et; [|by rewrite Ees].
    rewrite free_pass_eq by (rewrite Hl0; by apply Hap). by rewrite <-Ees. }
  unfold pmm_init. rewrite (find_mmap_chain m tags) by done. ostep. fold es. rewrite Ep. ostep. rewrite Hs1.
  rewrite u64_small by (unfold last, PAGE_SIZE in *; zdm). fold last.
  destruct (reserve_upto p1 (ks / PAGE_SIZE) last) as (p2 & -> & Hwf2 & Ht2 & Hs2 & Hp2);
    [done|by apply Z.div_pos|rewrite Ht1; split; [apply Z.div_pos; [lia|done]|done]|]. ostep.
  destruct (reserve_pages_spec 256 p2 0) as (p3 & E3 & Hwf3 & Ht3 & Hs3 & Hp3); [done|done| |].
  { rewrite Ht2, Ht1. unfold PAGE_SIZE. zdm. }
  change (Z.to_nat (0x100000 / PAGE_SIZE)) with 256%nat. rewrite E3. ostep.
  assert (∀ x, x < ke ∨ ke + size <= x → bitmap_in m ke p3 x = m x) as Hv by (intros x Hx; apply bitmap_in_out; rewrite (wf_length _ Hwf3), Hs3, Hs2, Hs1; done).
  unfold multiboot_fill_vbe. rewrite (fill_vbe_chain _ tags) by (try done; by eapply chain_apart). ostep. rewrite (find_fb_apart m _ _ _ Hv tags (mbi + 8)) by done. fold vbe.
  destruct (reserve_framebuffer_spec p3 vbe) as (p4 & -> & Hwf4 & Ht4 & _ & Hp4); [done|done|].
  exists p4. split; [done|]. split; [done|]. rewrite Ht4, Ht3, Ht2, Ht1. split; [done|].
  intros j Hj. rewrite Hp4, Hp3, Hp2, Hp1 by lia. rewrite Ht3, Ht2, Ht1. btrue.
  rewrite andb_true_r, !orb_false_iff, negb_false_iff. unfold in_run.
  rewrite !andb_false_iff, !Z.leb_gt, !Z.ltb_ge.
  split; intros (? & ? & ? & ?); repeat split; try done; lia.
Qed.
(** a page that lies inside an available entry *)
Definition inside_entry (e : mmap_entry) (j : Z) : Prop := e_type e = MEMORY_AVAILABLE ∧ e_base e <= j * PAGE_SIZE ∧ j * PAGE_SIZE + PAGE_SIZE <= end_addr e.
Lemma avail_run_inside e j : e_base e mod PAGE_SIZE = 0 → avail_run e j = true ↔ inside_entry e j.
Proof.
  intros Ha. unfold avail_run, inside_entry. rewrite !andb_true_iff, Z.eqb_eq, Z.leb_le, Z.ltb_lt. unfold PAGE_SIZE in *. set (b := e_base e) in *. set (x := end_addr e). clearbody b x. split; [intros [[-> ?] ?]|intros (-> & ? & ?)]; zdm.
Qed.

(** C17. Start-up.  The boot information is a tag list that ends and that the
    bitmap, which is written behind the kernel, does not overlap; available
    memory map entries do not share pages, reach at least 1 MiB and beyond
    kernel and bitmap; the framebuffer ends below the top page.  Then
    [pmm_init] returns (no access outside the bitmap), the allocator is well
    formed, and a page is free exactly when an available entry frees it and it
    is not in the first megabyte, not in the kernel image or the bitmap, and not
    in the framebuffer.  An entry frees the pages from that of its first byte to
    the last page that ends inside it ([avail_run]); if the available entries
    start at page boundaries, these are the pages that lie inside it. *)
Theorem pmm_init_free_pages fuel m mbi ks ke tags :
  let es := mmap_entries m (List.find (is_mmap m) tags) in
  let vbe := vbe_of_tag m <$> List.find (rgb_framebuffer m) tags in
  let size := bitmap_size_of (max_avail es / PAGE_SIZE) in
  let last := (ke + size) / PAGE_SIZE in
  mem_bytes m → tag_chain m (mbi + 8) tags → (length tags < fuel)%nat → tags_apart m (mbi + 8) tags ke (ke + size) →
  avail_disjoint es → fb_fits vbe → 0x100000 <= max_avail es → 0 <= ks → 0 <= ke → last < max_avail es / PAGE_SIZE →
  ∃ p, pmm_init fuel m mbi ks ke = Ret p ∧ pmm_wf p ∧ total_pages p = max_avail es / PAGE_SIZE ∧
    ∀ j, 0 <= j < total_pages p →
      let reserved := j < 256 ∨ ks / PAGE_SIZE <= j <= last ∨ fb_page vbe j = true in
      (page_used p j = false ↔ existsb (λ e, avail_run e j) es = true ∧ ¬ reserved) ∧
      (Forall (λ e, e_type e = MEMORY_AVAILABLE → e_base e mod PAGE_SIZE = 0) es →
       page_used p j = false ↔ Exists (λ e, inside_entry e j) es ∧ ¬ reserved).
Proof.
  intros es vbe size last Hm Hc Hf Ha Hd Hfb Hmax Hks Hke Hlast. destruct (pmm_init_ok fuel m mbi ks ke tags Hm Hc Hf Ha Hd Hfb Hmax Hks Hke Hlast) as (p & E & Hwf & Ht & Hp). fold es vbe size last in Hp, Ht. fold size last in Hp.
  exists p. split; [done|]. split; [done|]. split; [done|]. intros j Hj reserved. assert (page_used p j = false ↔ existsb (λ e, avail_run e j) es = true ∧ ¬ reserved) as H.
  { rewrite (Hp j Hj). unfold reserved. split.
    - intros (A & B & C & D). split; [done|]. intros [F|[F|F]]; [lia|lia|congruence].
    - intros [A N]. apply Decidable.not_or in N as [N1 [N2 N3]%Decidable.not_or]. split; [done|]. split; [lia|]. split; [lia|]. by apply not_true_is_false. }
  split; [exact H|]. intros Hal. rewrite H. assert (existsb (λ e, avail_run e j) es = true ↔ Exists (λ e, inside_entry e j) es) as ->; [|done]. rewrite existsb_exists, List.Exists_exists. rewrite List.Forall_forall in Hal.
  split; intros (e & He & Hr); exists e; (split; [done|]); [assert (e_type e = MEMORY_AVAILABLE) as Et by (unfold avail_run in Hr; by breflect); by apply avail_run_inside; [apply Hal|]|]. apply avail_run_inside; [|done]. apply Hal; [done|apply Hr].
Qed.

(** Allocation: [pmm_alloc_page] returns; either it hands out the lowest
    free page and marks it (and only it) used, or every page is in use and it
    returns NULL with the state unchanged.  The invariant is kept. *)
Theorem pmm_alloc_page_first_free p : pmm_wf p →
  ∃ a p', pmm_alloc_page p = Ret (a, p') ∧ pmm_wf p' ∧
    ((∃ k, 0 <= k < total_pages p ∧ a = k * PAGE_SIZE ∧ page_used p k = false ∧
           (∀ j, 0 <= j < k → page_used p j = true) ∧
           pages_plus p p' (λ j, bool_decide (j = k)))
     ∨ (a = 0 ∧ p' = p ∧ ∀ j, 0 <= j < total_pages p → page_used p j = true)).
Proof.
  intros Hwf. pose proof (wf_total _ Hwf). apply alloc_page_from_spec; [done|lia|lia|lia].
Qed.

(** C18. Contiguous allocation is first fit: a request of [n > 0] pages (below
    2^63) returns the first run of [n] free pages, marking exactly that run,
    or NULL with the state unchanged when every candidate run holds a used
    page.  The search loop ends and stays inside the bitmap. *)
Theorem pmm_alloc_contiguous_first_fit p n : pmm_wf p → 0 < n < 2 ^ 63 →
  ∃ a p', pmm_alloc_contiguous_pages p n = Ret (a, p') ∧ pmm_wf p' ∧
    ((∃ k, 0 <= k ∧ k + n <= total_pages p ∧ a = k * PAGE_SIZE ∧
           (∀ j, k <= j < k + n → page_used p j = false) ∧
           (∀ k', 0 <= k' < k → ∃ j, k' <= j < k' + n ∧ page_used p j = true) ∧
           pages_plus p p' (in_run k (Z.to_nat n)))
     ∨ (a = 0 ∧ p' = p ∧
        ∀ k, 0 <= k → k + n <= total_pages p → ∃ j, k <= j < k + n ∧ page_used p j = true)).
Proof.
  intros Hwf Hn. pose proof (wf_total _ Hwf). unfold pmm_alloc_contiguous_pages. bfalse.
  apply alloc_run_from_spec; [done|done|lia|lia|lia|lia].
Qed.

(** Round trip: freeing the run that a contiguous allocation returned
    gives back an allocator with the same pages in use and the same count;
    freeing the run a second time changes nothing. *)
Theorem pmm_alloc_free_roundtrip p n a p1 : pmm_wf p → 0 < n < 2 ^ 63 →
  pmm_alloc_contiguous_pages p n = Ret (a, p1) → a ≠ 0 →
  ∃ p2, pmm_free_contiguous p1 a n = Ret p2 ∧ pmm_wf p2 ∧ used_pages p2 = used_pages p ∧
        (∀ j, 0 <= j → page_used p2 j = page_used p j) ∧
        ∃ p3, pmm_free_contiguous p2 a n = Ret p3 ∧ used_pages p3 = used_pages p2.
Proof.
  intros Hwf Hn E Ha.
  assert (∀ q k, pmm_wf q → 0 < k → k + n <= total_pages q →
    ∃ q', pmm_free_contiguous q (k * PAGE_SIZE) n = Ret q' ∧ pmm_wf q' ∧
          pages_minus q q' (in_run k (Z.to_nat n))) as Hfree.
  { intros q k Hq Hk Hkn. unfold pmm_free_contiguous, PAGE_SIZE. rewrite Z.div_mul by done.
    do 2 bfalse. simpl. bfalse. apply free_run_spec; [done|lia|lia]. }
  destruct (alloc_run_from_spec (S (Z.to_nat (total_pages p))) p n 0)
    as (a' & p' & E' & Hwf1 & [(k & Hk & Hkn & -> & Hf & _ & Ht & _ & Hp)|(-> & _)]);
    [done|done|done|pose proof (wf_total _ Hwf); lia|lia|lia| |].
  - unfold pmm_alloc_contiguous_pages in E. rewrite (proj2 (Z.eqb_neq n 0)), E' in E by lia. simplify_eq.
    unfold PAGE_SIZE in Ha. destruct (Hfree p1 k) as (p2 & E2 & Hwf2 & Ht2 & _ & Hp2); [done|lia|lia|].
    assert (∀ j, 0 <= j → page_used p2 j = page_used p j) as Heq.
    { intros j Hj. rewrite Hp2, Hp by done. destruct (in_run _ _ j) eqn:Ej; simpl; [|done].
      unfold in_run in Ej. breflect. rewrite Hf; [done|lia]. }
    exists p2. split; [done|]. split; [done|].
    split; [apply wf_used_ext; [done..|congruence|intros; apply Heq; lia]|]. split; [done|].
    destruct (Hfree p2 k) as (p3 & E3 & Hwf3 & Ht3 & _ & Hp3); [done|lia|lia|].
    exists p3. split; [done|]. apply wf_used_ext; [done..|]. intros j Hj.
    rewrite Hp3, Hp2 by lia. by destruct (in_run _ _ j).
  - unfold pmm_alloc_contiguous_pages in E. rewrite (proj2 (Z.eqb_neq n 0)), E' in E by lia. simplify_eq.
Qed.

(** [pmm_free_page] has no null check: freeing NULL releases page 0, which
    the start-up code reserves, and the next allocation then returns address 0
    (the out-of-memory answer) although it took a page. *)
Theorem pmm_free_null_breaks_alloc p : pmm_wf p → page_used p 0 = true →
  ∃ p1 p2, pmm_free_page p 0 = Ret p1 ∧ page_used p1 0 = false ∧
           pmm_alloc_page p1 = Ret (0, p2) ∧ used_pages p2 = used_pages p1 + 1.
Proof.
  intros Hwf Hu. pose proof (wf_total _ Hwf). unfold pmm_free_page. change (0 / PAGE_SIZE) with 0. btrue.
  destruct (free_one_spec p 0) as (p1 & -> & Hwf1 & Ht1 & _ & Hp1); [done|lia|].
  assert (page_used p1 0 = false) as Hf by (rewrite Hp1, bool_decide_true; done).
  destruct (alloc_page_from_spec (Z.to_nat (total_pages p1)) p1 0)
    as (a & p2 & E & Hwf2 & [(k & Hk & -> & Hkf & Hlow & Hp)|(_ & _ & Hall)]); [done|done|lia|lia| |].
  - assert (k = 0) as ->. { destruct (decide (k = 0)); [done|]. rewrite Hlow in Hf; [done|lia]. }
    exists p1, p2. split; [done|]. split; [done|]. split; [done|].
    destruct Hp as (Ht2 & _ & Hp). rewrite (wf_used _ Hwf2), (wf_used _ Hwf1), Ht2.
    apply popcount_set with 0; [lia|done|done].
  - rewrite Hall in Hf; [done|lia].
Qed.

(** ** Witnesses *)
Definition pmm8 : pmm := Pmm [0x17] 8 4 1.
Lemma pmm8_wf : pmm_wf pmm8.
Proof. split; try done. repeat constructor; unfold is_byte; lia. Qed.

Lemma pmm_alloc_page_first_free_witness :
  ∃ a p', pmm_alloc_page pmm8 = Ret (a, p') ∧ pmm_wf p'.
Proof.
  destruct (pmm_alloc_page_first_free pmm8 pmm8_wf) as (a & p' & H & Hwf & _). eauto.
Defined.
Lemma pmm_alloc_contiguous_first_fit_witness :
  ∃ a p', pmm_alloc_contiguous_pages pmm8 2 = Ret (a, p') ∧ pmm_wf p'.
Proof.
  destruct (pmm_alloc_contiguous_first_fit pmm8 2 pmm8_wf) as (a & p' & H & Hwf & _); [lia|eauto].
Defined.
Lemma pmm_alloc_free_roundtrip_witness :
  ∃ p2, pmm_free_contiguous (Pmm [0x77] 8 6 1) (5 * 4096) 2 = Ret p2 ∧ used_pages p2 = 4.
Proof.
  destruct (pmm_alloc_free_roundtrip pmm8 2 (5 * 4096) (Pmm [0x77] 8 6 1) pmm8_wf)
    as (p2 & H & _ & Hu & _); [lia|reflexivity|lia|]. exists p2. split; [exact H|exact Hu].
Defined.
Lemma pmm_free_null_breaks_alloc_witness :
  ∃ p1 p2, pmm_free_page pmm8 0 = Ret p1 ∧ pmm_alloc_page p1 = Ret (0, p2).
Proof.
  destruct (pmm_free_null_breaks_alloc pmm8 pmm8_wf eq_refl) as (p1 & p2 & H1 & _ & H2 & _). eauto.
Defined.

(** a boot information block at 0x1000 with one memory map tag: 636 KiB at 0
    and 1 MiB at 1 MiB *)
Definition boot_mem : mem :=
  mwrite (λ _, 0) 0x1008
    (le_of 4 6 ++ le_of 4 64 ++ le_of 4 24 ++ le_of 4 0 ++
     le_of 8 0 ++ le_of 8 0x9F000 ++ le_of 4 1 ++ le_of 4 0 ++
     le_of 8 0x100000 ++ le_of 8 0x100000 ++ le_of 4 1 ++ le_of 4 0).
Definition boot_entries : list mmap_entry := [Entry 0 0x9F000 1; Entry 0x100000 0x100000 1].
Lemma boot_mem_entries : mmap_entries boot_mem (List.find (is_mmap boot_mem) [0x1008]) = boot_entries.
Proof. vm_compute. reflexivity. Qed.
Lemma pmm_init_free_pages_witness :
  ∃ p, pmm_init 2 boot_mem 0x1000 0x100000 0x110000 = Ret p ∧ total_pages p = 512.
Proof.
  destruct (pmm_init_free_pages 2 boot_mem 0x1000 0x100000 0x110000 [0x1008])
    as (p & H & _ & Ht & _).
  - apply mem_bytes_mwrite; [intros a; unfold is_byte; lia|].
    unfold bytes. rewrite !Forall_app. repeat split; apply bytes_le_of.
  - vm_compute. done.
  - simpl. lia.
  - rewrite boot_mem_entries. vm_compute. split; left; discriminate.
  - rewrite boot_mem_entries. repeat constructor. intros j Hj.
    unfold avail_run in *. simpl in *. unfold end_addr, PAGE_SIZE in *. simpl in *.
    change (u64 (0 + 0x9F000) / 4096) with 159 in Hj. change (0x100000 / 4096) with 256. breflect. bfalse.
    done.
  - vm_compute. done.
  - rewrite boot_mem_entries. vm_compute. done.
  - lia.
  - lia.
  - rewrite boot_mem_entries. vm_compute. done.
  - exists p. split; [done|]. rewrite Ht, boot_mem_entries. reflexivity.
Defined.
End Pmm.
