(* ===== verification/Vmm.v ===== *)
(** Virtual memory manager (kernel/vmm.c, kernel/vmm_cow.c).  Page tables live
    in physical memory, so the state is the memory, the page allocator that
    hands out new tables, and CR3.  The abstract view of an address space is
    [walk]: the leaf entry the processor's four-level walk finds for an
    address.  [tree] is the invariant of a table tree (tables are used,
    aligned, and reached by one index path each); under it [vmm_map] and
    [vmm_unmap] are the point updates of [walk], a cloned address space walks
    like the original, and the range checks decide whether every page of a
    user range has the flags. *)
From stdpp Require Import base numbers list.
From S2P Require Import Prelude Bitmap Memory Pmm.
Open Scope Z_scope.

Module Vmm.
Import Pmm.
Definition PAGE_PRESENT := 1.
Definition PAGE_WRITE := 2.
Definition PAGE_USER := 4.
Definition PAGE_NX := 2 ^ 63.
Definition PD_PS := 128.
Definition PML4_INDEX (addr : Z) : Z := Z.land (Z.shiftr addr 39) 0x1FF.
Definition PDPT_INDEX (addr : Z) : Z := Z.land (Z.shiftr addr 30) 0x1FF.
Definition PD_INDEX (addr : Z) : Z := Z.land (Z.shiftr addr 21) 0x1FF.
Definition PT_INDEX (addr : Z) : Z := Z.land (Z.shiftr addr 12) 0x1FF.

Record vm := Vm { vm_mem : mem; vm_pmm : pmm; vm_cr3 : Z }.
Definition set_mem (s : vm) (m : mem) : vm := Vm m (vm_pmm s) (vm_cr3 s).
Definition set_pmm (s : vm) (p : pmm) : vm := Vm (vm_mem s) p (vm_cr3 s).

(** [table[index]] and [entry & ~0xFFFULL] *)
Definition entry (m : mem) (table index : Z) : Z := ld64 m (table + 8 * index).
Definition set_entry (m : mem) (table index e : Z) : mem := st64 m (table + 8 * index) e.
Definition table_of (e : Z) : Z := Z.land e (2 ^ 64 - 4096).

Definition vmm_get_current_pml4 (s : vm) : Z := vm_cr3 s.
Definition vmm_set_pml4 (s : vm) (pml4 : Z) : vm := Vm (vm_mem s) (vm_pmm s) pml4.
Definition vmm_flush_tlb_all (s : vm) : vm := vmm_set_pml4 s (vmm_get_current_pml4 s).

Definition vmm_page_has_flags (s : vm) (virt need_pte_flags : Z) : bool :=
  let t := vm_mem s in
  let pml4e := entry t (vmm_get_current_pml4 s) (PML4_INDEX virt) in
  if negb (has pml4e PAGE_PRESENT) then false
  else
    let pdpte := entry t (table_of pml4e) (PDPT_INDEX virt) in
    if negb (has pdpte PAGE_PRESENT) then false
    else
      let pde := entry t (table_of pdpte) (PD_INDEX virt) in
      if negb (has pde PAGE_PRESENT) then false
      else
        let m := Z.lor (Z.lor PAGE_PRESENT PAGE_USER) need_pte_flags in
        if has pde PD_PS then Z.land pde m =? m
        else
          let pte := entry t (table_of pde) (PT_INDEX virt) in
          Z.land pte m =? m.
Definition vmm_page_user_readable (s : vm) (virt : Z) : bool := vmm_page_has_flags s virt 0.
Definition vmm_page_user_writable (s : vm) (virt : Z) : bool := vmm_page_has_flags s virt PAGE_WRITE.

(** [for (pg = first_page; pg <= last_page; pg += PAGE_SIZE)], which never
    ends by its own condition when [last_page] is the topmost page *)
Fixpoint range_loop (ok : Z → bool) (pg last_page : Z) (fuel : nat) : outcome bool :=
  match fuel with
  | O => Loop
  | S fuel =>
    if pg <=? last_page
    then if ok pg then range_loop ok (u64 (pg + PAGE_SIZE)) last_page fuel else Ret false
    else Ret true
  end.
Definition range_check (fuel : nat) (ok : Z → bool) (addr len : Z) : outcome bool :=
  if len =? 0 then Ret true
  else if u64 (addr + len) <? addr then Ret false
  else
    let last := u64 (u64 (addr + len) - 1) in
    let first_page := Z.land addr (Z.lnot (PAGE_SIZE - 1)) in
    let last_page := Z.land last (Z.lnot (PAGE_SIZE - 1)) in
    range_loop ok first_page last_page fuel.
Definition vmm_user_range_readable (fuel : nat) (s : vm) (addr len : Z) : outcome bool :=
  range_check fuel (vmm_page_user_readable s) addr len.
Definition vmm_user_range_writable (fuel : nat) (s : vm) (addr len : Z) : outcome bool :=
  range_check fuel (vmm_page_user_writable s) addr len.

Definition vmm_grant_user_2mb_region (s : vm) (virt : Z) (user_writable : bool) : vm :=
  let m := vm_mem s in
  let pml4 := vmm_get_current_pml4 s in
  let i4 := PML4_INDEX virt in
  let pml4e := entry m pml4 i4 in
  if negb (has pml4e PAGE_PRESENT) then s
  else
    let m := set_entry m pml4 i4 (Z.lor pml4e PAGE_USER) in
    let pdpt := table_of pml4e in
    let i3 := PDPT_INDEX virt in
    let pdpte := entry m pdpt i3 in
    if negb (has pdpte PAGE_PRESENT) then set_mem s m
    else
      let m := set_entry m pdpt i3 (Z.lor pdpte PAGE_USER) in
      let pd := table_of pdpte in
      let idx := PD_INDEX virt in
      if has (entry m pd idx) PAGE_PRESENT
      then
        let ent := entry m pd idx in
        let ent := Z.ldiff ent PAGE_NX in
        let ent := Z.lor ent PAGE_USER in
        let ent := if user_writable then Z.lor ent PAGE_WRITE else Z.ldiff ent PAGE_WRITE in
        set_mem s (set_entry m pd idx ent)
      else set_mem s m.

(** The page that [for (i = 0; i < PAGE_SIZE; i++) ptr[i] = 0] clears *)
Definition zero_page (m : mem) (a : Z) : mem := mwrite m a (replicate 4096 0).

(** a null result is 0 *)
Definition get_next_level (current_level index flags : Z) : st vm Z := λ s,
  if negb (has (entry (vm_mem s) current_level index) PAGE_PRESENT)
  then
    '(new_page, p) ← pmm_alloc_page (vm_pmm s);
    let s := set_pmm s p in
    if new_page =? 0 then Ret (0, s)
    else
      let m := zero_page (vm_mem s) new_page in
      let m := set_entry m current_level index (Z.lor (Z.lor new_page flags) PAGE_PRESENT) in
      Ret (table_of (entry m current_level index), set_mem s m)
  else Ret (table_of (entry (vm_mem s) current_level index), s).

Definition vmm_map (pml4_phys virt phys flags : Z) : st vm unit :=
  pdpt ← get_next_level pml4_phys (PML4_INDEX virt) flags;
  if pdpt =? 0 then mret tt else
  pd ← get_next_level pdpt (PDPT_INDEX virt) flags;
  if pd =? 0 then mret tt else
  pt ← get_next_level pd (PD_INDEX virt) flags;
  if pt =? 0 then mret tt else
  st_modify (λ s, set_mem s (set_entry (vm_mem s) pt (PT_INDEX virt)
                               (Z.lor (Z.lor (table_of phys) flags) PAGE_PRESENT))).

Definition vmm_unmap (s : vm) (pml4_phys virt : Z) : vm :=
  let m := vm_mem s in
  let e4 := entry m pml4_phys (PML4_INDEX virt) in
  if negb (has e4 PAGE_PRESENT) then s else
  let pdpt := table_of e4 in
  let e3 := entry m pdpt (PDPT_INDEX virt) in
  if negb (has e3 PAGE_PRESENT) then s else
  let pd := table_of e3 in
  let e2 := entry m pd (PD_INDEX virt) in
  if negb (has e2 PAGE_PRESENT) then s else
  let pt := table_of e2 in
  set_mem s (set_entry m pt (PT_INDEX virt) 0).

(** [new_pml4[i] = current_pml4[i]] for [n] entries from [i] *)
Fixpoint copy_entries (m : mem) (dst src i : Z) (n : nat) : mem :=
  match n with
  | O => m
  | S n => copy_entries (set_entry m dst i (entry m src i)) dst src (i + 1) n
  end.
Definition vmm_create_address_space : st vm Z := λ s,
  '(new_pml4, p) ← pmm_alloc_page (vm_pmm s);
  let s := set_pmm s p in
  if new_pml4 =? 0 then Ret (0, s)
  else Ret (new_pml4, set_mem s (copy_entries (vm_mem s) new_pml4 (vmm_get_current_pml4 s) 0 512)).

(** vmm_cow.c: the hooks record nothing and never handle a fault *)
Definition vmm_mark_process_cow (s : vm) (pml4_phys : Z) : vm := s.
Definition vmm_try_handle_cow_fault (fault_addr err_code : Z) : Z := -1.

(** ** The abstract address space *)
Definition vpath (virt : Z) : list Z :=
  [PML4_INDEX virt; PDPT_INDEX virt; PD_INDEX virt; PT_INDEX virt].
Definition page_of (virt : Z) : Z := (virt / PAGE_SIZE) mod 2 ^ 36.
Definition is_link (e : Z) : bool := has e PAGE_PRESENT && negb (has e PD_PS).
(** the table that an index path leads to *)
Fixpoint tbl (m : mem) (t : Z) (p : list Z) : option Z :=
  match p with
  | [] => Some t
  | i :: p => let e := entry m t i in if is_link e then tbl m (table_of e) p else None
  end.
(** the leaf entry that the processor's walk finds *)
Fixpoint walk (m : mem) (t : Z) (p : list Z) : option Z :=
  match p with
  | [] => None
  | i :: p =>
    let e := entry m t i in
    if has e PAGE_PRESENT
    then match p with
         | [] => Some e
         | _ => if has e PD_PS then Some e else walk m (table_of e) p
         end
    else None
  end.
Definition index_ok (i : Z) : Prop := 0 <= i < 512.
Definition table_path (p : list Z) : Prop := Forall index_ok p ∧ (length p <= 3)%nat.
Definition table_page (p : pmm) (t : Z) : Prop :=
  0 < t ∧ t mod PAGE_SIZE = 0 ∧ t / PAGE_SIZE < total_pages p ∧ page_used p (t / PAGE_SIZE) = true.
Record tree (s : vm) (root : Z) : Prop := {
  tr_pmm : pmm_wf (vm_pmm s);
  tr_null : page_used (vm_pmm s) 0 = true;
  tr_mem : mem_bytes (vm_mem s);
  tr_table : ∀ p t, table_path p → tbl (vm_mem s) root p = Some t → table_page (vm_pmm s) t;
  tr_inj : ∀ p q t, table_path p → table_path q →
    tbl (vm_mem s) root p = Some t → tbl (vm_mem s) root q = Some t → p = q
}.

(** ** Indices, entries and frames *)
Section entries.
Implicit Types (m : mem) (t i e : Z).
Lemma index_range a k : index_ok (Z.land (Z.shiftr a k) 0x1FF).
Proof. unfold index_ok. change 512 with (2 ^ 9). by apply land_ones_range. Qed.
Lemma vpath_ok v : Forall index_ok (vpath v).
Proof. repeat constructor; apply index_range. Qed.
Lemma index_div a k : 0 <= k → Z.land (Z.shiftr a k) 0x1FF = (a / 2 ^ k) mod 512.
Proof. intros. change 0x1FF with (Z.ones 9). by rewrite Z.land_ones, Z.shiftr_div_pow2. Qed.
Lemma vpath_page a b : vpath a = vpath b ↔ page_of a = page_of b.
Proof.
  unfold vpath, PML4_INDEX, PDPT_INDEX, PD_INDEX, PT_INDEX, page_of, PAGE_SIZE.
  rewrite !index_div by lia.
  change (2 ^ 39) with (4096 * (512 * (512 * 512))). change (2 ^ 30) with (4096 * (512 * 512)).
  change (2 ^ 21) with (4096 * 512). change (2 ^ 12) with 4096. change (2 ^ 36) with (512 * (512 * (512 * 512))).
  rewrite <-!Z.div_div by lia. generalize (a / 4096) (b / 4096). intros x y.
  rewrite !Z.rem_mul_r by lia.
  assert (∀ z, 0 <= z mod 512 < 512) as Hm by (intros; apply Z.mod_pos_bound; lia).
  pose proof (Hm x); pose proof (Hm (x / 512)); pose proof (Hm (x / 512 / 512)).
  pose proof (Hm y); pose proof (Hm (y / 512)); pose proof (Hm (y / 512 / 512)).
  split; [intros H'; injection H' as E4 E3 E2 E1; lia|]. intros H'.
  f_equal; [lia|]. f_equal; [lia|]. f_equal; [lia|]. f_equal. lia.
Qed.
Lemma table_of_div e : 0 <= e < 2 ^ 64 → table_of e = 4096 * (e / 4096).
Proof.
  intros. unfold table_of. change (2 ^ 64 - 4096) with (Z.shiftl (Z.ones 52) 12).
  apply Z.bits_inj_iff'. intros n Hn. rewrite Z.land_spec, Z.shiftl_spec by done.
  rewrite Z.mul_comm. change 4096 with (2 ^ 12). rewrite <-Z.shiftr_div_pow2, <-Z.shiftl_mul_pow2 by lia.
  rewrite Z.shiftl_spec by done.
  destruct (decide (n < 12)).
  - rewrite !(Z.testbit_neg_r _ (n - 12)) by lia. by rewrite andb_false_r.
  - rewrite Z.shiftr_spec by lia. replace (n - 12 + 12) with n by lia.
    destruct (decide (n < 64)).
    + rewrite Z.ones_spec_low by lia. by rewrite andb_true_r.
    + rewrite Z.ones_spec_high by lia. rewrite andb_false_r.
      symmetry. apply Z.testbit_false; [lia|]. rewrite Z.div_small; [done|].
      assert (2 ^ 64 <= 2 ^ n) by (apply Z.pow_le_mono_r; lia). lia.
Qed.
(** a new entry: the frame, the flags and the present bit *)
Lemma entry_split t f : t mod PAGE_SIZE = 0 → 0 <= t → 0 <= f < PAGE_SIZE →
  Z.lor (Z.lor t f) PAGE_PRESENT = t + Z.lor f PAGE_PRESENT ∧ 0 <= Z.lor f PAGE_PRESENT < PAGE_SIZE.
Proof.
  unfold PAGE_SIZE, PAGE_PRESENT. intros Ht Ht0 Hf. rewrite <-Z.lor_assoc.
  assert (0 <= Z.lor f 1 < 4096) as Hr.
  { split; [apply Z.lor_nonneg; lia|]. change 4096 with (2 ^ 12). apply Z.log2_lt_cancel.
    rewrite Z.log2_lor by lia. change (Z.log2 (2 ^ 12)) with 12. change (Z.log2 1) with 0.
    destruct (decide (f = 0)) as [->|]; [done|]. apply Z.max_lub_lt; [|lia]. apply Z.log2_lt_pow2; lia. }
  split; [|done]. rewrite <-Z.lxor_lor, <-Z.add_nocarry_lxor; try done;
    (apply Z.bits_inj_iff'; intros n Hn; rewrite Z.land_spec, Z.bits_0;
     destruct (decide (n < 12));
     [rewrite (proj2 (Z.testbit_false t n ltac:(lia))); [done|]
     |rewrite andb_comm, (proj2 (Z.testbit_false (Z.lor f 1) n ltac:(lia))); [done|]]).
  all: try (rewrite Z.div_small; [done|]; assert (2 ^ 12 <= 2 ^ n) by (apply Z.pow_le_mono_r; lia); lia).
  all: replace t with (2 ^ n * (2 ^ (12 - n) * (t / 4096)))
    by (rewrite Z.mul_assoc, <-Z.pow_add_r by lia; replace (n + (12 - n)) with 12 by lia; change (2 ^ 12) with 4096; zdm).
  all: rewrite Z.mul_comm, Z.div_mul by lia.
  all: replace (2 ^ (12 - n)) with (2 * 2 ^ (11 - n)) by (rewrite <-Z.pow_succ_r by lia; f_equal; lia).
  all: rewrite <-Z.mul_assoc, Z.mul_comm, Z.mod_mul; lia.
Qed.
Lemma has_present_lor x : has (Z.lor x PAGE_PRESENT) PAGE_PRESENT = true.
Proof.
  unfold has. rewrite Z.land_comm, Z.land_lor_distr_r. apply negb_true_iff, Z.eqb_neq.
  change (Z.land PAGE_PRESENT PAGE_PRESENT) with 1. rewrite Z.lor_eq_0_iff. lia.
Qed.

Definition aligned (t : Z) : Prop := t mod PAGE_SIZE = 0.
Lemma entry_set_same m t i e : 0 <= e < 2 ^ 64 → entry (set_entry m t i e) t i = e.
Proof. apply ld64_st64_same. Qed.
Lemma entry_set_other m t i e t' j : aligned t → aligned t' → index_ok i → index_ok j →
  t ≠ t' ∨ i ≠ j → entry (set_entry m t i e) t' j = entry m t' j.
Proof.
  unfold aligned, index_ok, PAGE_SIZE. intros. apply ld64_st64_disj.
  destruct (decide (t = t')) as [->|]; [lia|]. zdm.
Qed.
Lemma entry_zero_other m a t j : aligned a → aligned t → index_ok j → a ≠ t →
  entry (zero_page m a) t j = entry m t j.
Proof.
  unfold aligned, index_ok, PAGE_SIZE. intros. apply ld64_ext. intros x Hx.
  apply mwrite_out. rewrite length_replicate. zdm.
Qed.
Lemma entry_zero_same m a j : index_ok j → entry (zero_page m a) a j = 0.
Proof.
  unfold index_ok. intros. unfold entry, ld64.
  replace (mread _ _ 8) with (replicate 8 0); [done|].
  apply list_eq. intros i. destruct (decide (i < 8)%nat).
  - rewrite lookup_mread, lookup_replicate_2 by done. unfold zero_page.
    rewrite mwrite_in by (rewrite length_replicate; lia). f_equal. symmetry. apply nth_replicate.
  - rewrite !lookup_ge_None_2; [done|rewrite length_mread|rewrite length_replicate]; lia.
Qed.
Lemma mem_bytes_zero m a : mem_bytes m → mem_bytes (zero_page m a).
Proof.
  intros. apply mem_bytes_mwrite; [done|]. apply Forall_replicate. unfold is_byte. lia.
Qed.
Lemma mem_bytes_set m t i e : mem_bytes m → mem_bytes (set_entry m t i e).
Proof. apply mem_bytes_st64. Qed.
Lemma entry_range m t i : mem_bytes m → 0 <= entry m t i < 2 ^ 64.
Proof. apply ld64_range. Qed.
Lemma table_of_aligned m t i : mem_bytes m → aligned (table_of (entry m t i)).
Proof.
  intros Hm. rewrite table_of_div by by apply entry_range. unfold aligned, PAGE_SIZE. zdm.
Qed.
Lemma table_page_aligned p t : table_page p t → aligned t.
Proof. by intros (? & ? & ?). Qed.
End entries.
#[export] Hint Resolve mem_bytes_zero mem_bytes_set entry_range table_page_aligned index_range : chaser.

(** ** Walks: composition and framing *)
Section walks.
Implicit Types (m : mem) (t i e : Z) (p q w : list Z).
Lemma tbl_app m p : ∀ t q, tbl m t (p ++ q) = t' ← tbl m t p; tbl m t' q.
Proof. induction p as [|i p IH]; intros t q; [done|]. simpl. case_if; [apply IH|done]. Qed.
Lemma tbl_snoc m t p i t' : tbl m t p = Some t' →
  tbl m t (p ++ [i]) = let e := entry m t' i in if is_link e then Some (table_of e) else None.
Proof. intros E. rewrite tbl_app, E. done. Qed.
Lemma walk_app m p : ∀ t t' q, q ≠ [] → tbl m t p = Some t' → walk m t (p ++ q) = walk m t' q.
Proof.
  induction p as [|i p IH]; intros t t' q Hq E; simpl in *; [by simplify_eq|].
  unfold is_link in E. destruct (has (entry m t i) PAGE_PRESENT); [|done].
  destruct (has (entry m t i) PD_PS); [done|]. simpl in E.
  destruct (p ++ q) eqn:Epq; [by destruct p, q|]. rewrite <-Epq. by apply IH.
Qed.
(** a walk only reads the entries of the tables on its way *)
Definition frame m m' root w : Prop := ∀ q j r t,
  w = q ++ j :: r → tbl m root q = Some t → entry m' t j = entry m t j.
Lemma frame_tail m m' root i w : frame m m' root (i :: w) → is_link (entry m root i) = true →
  frame m m' (table_of (entry m root i)) w.
Proof.
  intros F L q j r t -> E. apply (F (i :: q) j r t); [done|]. simpl. by rewrite L.
Qed.
Lemma walk_frame m m' w : ∀ root, frame m m' root w → walk m' root w = walk m root w.
Proof.
  induction w as [|i w IH]; intros root F; [done|]. simpl.
  rewrite (F [] i w root) by done. destruct (has (entry m root i) PAGE_PRESENT) eqn:E1; [|done].
  destruct w; [done|]. destruct (has (entry m root i) PD_PS) eqn:E2; [done|].
  apply IH, frame_tail; [done|]. unfold is_link. by rewrite E1, E2.
Qed.
Lemma tbl_frame m m' w : ∀ root, frame m m' root w → tbl m' root w = tbl m root w.
Proof.
  induction w as [|i w IH]; intros root F; [done|]. simpl.
  rewrite (F [] i w root) by done. destruct (is_link (entry m root i)) eqn:E1; [|done].
  apply IH, frame_tail; done.
Qed.
Lemma table_path_prefix p q : table_path (p ++ q) → table_path p.
Proof. intros [H1 H2]. rewrite Forall_app in H1. rewrite length_app in H2. split; [naive_solver|lia]. Qed.
Lemma path4_prefix w q j r : Forall index_ok w → length w = 4%nat → w = q ++ j :: r →
  table_path q ∧ index_ok j.
Proof.
  intros Hw Hl ->. rewrite Forall_app, Forall_cons in Hw. rewrite length_app in Hl. simpl in Hl.
  split; [split; [naive_solver|lia]|naive_solver].
Qed.
End walks.

(** ** One entry changes *)
Section update.
Context (s : vm) (root : Z) (Htree : tree s root).
Context (p : list Z) (i t : Z) (Hp : table_path p) (Hi : index_ok i).
Context (Ht : tbl (vm_mem s) root p = Some t).
Implicit Types (m : mem) (q w : list Z).
(** [m'] keeps every entry of the tree but entry [i] of table [t] *)
Definition only_changes m' : Prop := ∀ q t' j, table_path q → index_ok j →
  tbl (vm_mem s) root q = Some t' → (q, j) ≠ (p, i) → entry m' t' j = entry (vm_mem s) t' j.
Lemma only_changes_set m' e :
  (∀ q t' j, table_path q → index_ok j → tbl (vm_mem s) root q = Some t' →
     entry m' t' j = entry (vm_mem s) t' j) → only_changes (set_entry m' t i e).
Proof.
  intros Hm q t' j Hq Hj Eq Hne.
  pose proof (tr_table _ _ Htree p t Hp Ht). pose proof (tr_table _ _ Htree q t' Hq Eq).
  rewrite entry_set_other; eauto with chaser.
  destruct (decide (t = t')) as [->|]; [|by left]. right. intros ->. apply Hne.
  f_equal. by apply (tr_inj _ _ Htree q p t').
Qed.
Lemma frame_outside m' w : only_changes m' → Forall index_ok w → (length w <= 4)%nat →
  ¬ (p ++ [i]) `prefix_of` w → frame (vm_mem s) m' root w.
Proof.
  intros Hm Hw Hl Hpre q j r t' -> E. rewrite Forall_app, Forall_cons in Hw.
  rewrite length_app in Hl. simpl in Hl. destruct Hw as (Hq & Hj & _).
  apply (Hm q); [split; [done|lia]|done|done|]. intros [= -> ->]. apply Hpre.
  exists r. by rewrite <-app_assoc.
Qed.
Lemma tbl_table m' : only_changes m' → tbl m' root p = Some t.
Proof.
  intros Hm. rewrite (tbl_frame (vm_mem s)); [done|]. destruct Hp as [Hp1 Hp2].
  apply frame_outside; [done|done|lia|]. intros Hpre%prefix_length.
  rewrite length_app in Hpre. simpl in Hpre. lia.
Qed.
(** the tables of the tree survive a write to a leaf table *)
Lemma leaf_write_tree e : length p = 3%nat → tree (set_mem s (set_entry (vm_mem s) t i e)) root.
Proof.
  intros Hl. assert (only_changes (set_entry (vm_mem s) t i e)) as Hoc by by apply only_changes_set.
  assert (∀ q, table_path q → tbl (set_entry (vm_mem s) t i e) root q = tbl (vm_mem s) root q) as Heq.
  { intros q [Hq1 Hq2]. apply tbl_frame, frame_outside; [done|done|lia|].
    intros Hpre%prefix_length. rewrite length_app in Hpre. simpl in Hpre. lia. }
  destruct Htree as [H1 H2 H3 H4 H5]. split; simpl; auto with chaser.
  - intros q t' Hq. rewrite Heq by done. by apply H4.
  - intros q q' t' Hq Hq'. rewrite !Heq by done. by apply H5.
Qed.
Lemma leaf_write_walk e w : length p = 3%nat → Forall index_ok w → length w = 4%nat →
  0 <= e < 2 ^ 64 →
  walk (set_entry (vm_mem s) t i e) root w =
  if decide (w = p ++ [i]) then (if has e PAGE_PRESENT then Some e else None)
  else walk (vm_mem s) root w.
Proof.
  intros Hl Hw Hlw He. assert (only_changes (set_entry (vm_mem s) t i e)) as Hoc by by apply only_changes_set.
  case_decide as Hd; subst.
  - rewrite (walk_app _ p root t) by (done || by apply tbl_table). simpl. by rewrite entry_set_same.
  - apply walk_frame, frame_outside; [done|done|lia|]. intros [r Hr]. apply Hd.
    rewrite Hr in Hlw |- *. rewrite !length_app in Hlw. simpl in Hlw.
    destruct r; [by rewrite app_nil_r|]. simpl in Hlw. lia.
Qed.
End update.

(** ** A new table is linked in *)
(** no entry on the path of [w] above its leaf maps a large page *)
Definition no_large (m : mem) (root : Z) (w : list Z) : Prop := ∀ q j r t,
  w = q ++ j :: r → r ≠ [] → tbl m root q = Some t →
  has (entry m t j) PAGE_PRESENT = true → has (entry m t j) PD_PS = false.
Definition all_used (p : pmm) : Prop := ∀ j, 0 <= j < total_pages p → page_used p j = true.
(** a state change that adds tables only: the leaf entries, CR3 and the large
    pages stay *)
Record grows (s s' : vm) (root : Z) : Prop := {
  gr_tree : tree s' root;
  gr_cr3 : vm_cr3 s' = vm_cr3 s;
  gr_walk : ∀ w, Forall index_ok w → length w = 4%nat →
    walk (vm_mem s') root w = walk (vm_mem s) root w;
  gr_large : ∀ w, Forall index_ok w → length w = 4%nat →
    no_large (vm_mem s) root w → no_large (vm_mem s') root w
}.
Section link.
Context (s : vm) (root : Z) (Htree : tree s root).
Context (p : list Z) (i t : Z) (Hp : table_path p) (Hl : (length p <= 2)%nat) (Hi : index_ok i).
Context (Ht : tbl (vm_mem s) root p = Some t).
Context (Habs : has (entry (vm_mem s) t i) PAGE_PRESENT = false).
Context (k : Z) (pm : pmm) (Hk : 0 <= k < total_pages (vm_pmm s)).
Context (Hfree : page_used (vm_pmm s) k = false) (Hwf : pmm_wf pm).
Context (Hplus : pages_plus (vm_pmm s) pm (λ j, bool_decide (j = k))).
Context (flags : Z) (Hfl : 0 <= flags < PAGE_SIZE) (Hps : has flags PD_PS = false).
Notation new := (k * PAGE_SIZE).
Notation e := (Z.lor (Z.lor new flags) PAGE_PRESENT).
Notation m' := (set_entry (zero_page (vm_mem s) new) t i e).

Lemma new_page : 0 < k ∧ aligned new ∧ 0 <= e < 2 ^ 64 ∧ table_of e = new ∧ is_link e = true.
Proof.
  assert (0 < k).
  { destruct (decide (k = 0)) as [->|]; [|lia]. by rewrite (tr_null _ _ Htree) in Hfree. }
  assert (aligned new) as Ha by (unfold aligned, PAGE_SIZE; zdm).
  destruct (entry_split new flags) as [-> Hr]; [done|unfold PAGE_SIZE; lia|done|].
  pose proof (wf_total _ (tr_pmm _ _ Htree)).
  assert (0 <= new + Z.lor flags PAGE_PRESENT < 2 ^ 64) as Hb by (unfold PAGE_SIZE in *; lia).
  split; [done|]. split; [done|]. split; [done|].
  split; [rewrite table_of_div by done; unfold PAGE_SIZE in *; zdm|].
  destruct (entry_split new flags) as [<- _]; [done|unfold PAGE_SIZE; lia|done|].
  unfold is_link. rewrite has_present_lor. simpl. apply negb_true_iff.
  unfold has in *. apply negb_false_iff. apply negb_false_iff in Hps. breflect. apply Z.eqb_eq.
  rewrite !Z.land_lor_distr_l. rewrite Hps. change (Z.land PAGE_PRESENT PD_PS) with 0.
  rewrite !Z.lor_0_r. unfold PAGE_SIZE. replace (k * 4096) with (Z.shiftl k 12).
  2: { rewrite Z.shiftl_mul_pow2 by lia. done. }
  apply Z.bits_inj_iff'. intros n Hn. rewrite Z.land_spec, Z.shiftl_spec, Z.bits_0 by done.
  destruct (decide (n < 12)); [by rewrite Z.testbit_neg_r by lia|].
  rewrite andb_comm. rewrite (proj2 (Z.testbit_false PD_PS n Hn)); [done|].
  rewrite Z.div_small; [done|]. unfold PD_PS.
  assert (2 ^ 12 <= 2 ^ n) by (apply Z.pow_le_mono_r; lia). lia.
Qed.
Lemma new_not_table q t' : table_path q → tbl (vm_mem s) root q = Some t' → t' ≠ new.
Proof.
  intros Hq E ->. destruct (tr_table _ _ Htree _ _ Hq E) as (_ & _ & _ & Hu).
  unfold PAGE_SIZE in Hu. rewrite Z.div_mul in Hu by done. congruence.
Qed.
Lemma link_changes : only_changes s root p i m'.
Proof.
  apply only_changes_set; [done..|]. intros q t' j Hq Hj E.
  destruct new_page as (_ & Ha & _). pose proof (tr_table _ _ Htree _ _ Hq E).
  apply entry_zero_other; eauto with chaser. pose proof (new_not_table _ _ Hq E). done.
Qed.
Lemma link_table : tbl m' root (p ++ [i]) = Some new.
Proof.
  destruct new_page as (_ & _ & He & Htab & Hlink).
  rewrite (tbl_snoc _ _ _ _ t) by (eapply tbl_table; eauto using link_changes). simpl.
  rewrite entry_set_same by done. by rewrite Hlink, Htab.
Qed.
Lemma link_below j : index_ok j → entry m' new j = 0.
Proof.
  intros Hj. destruct new_page as (_ & Ha & _). pose proof (tr_table _ _ Htree _ _ Hp Ht).
  rewrite entry_set_other; eauto with chaser; [by apply entry_zero_same|].
  left. by apply (new_not_table p).
Qed.
Lemma absent_below r : tbl (vm_mem s) root (p ++ i :: r) = None.
Proof. rewrite tbl_app, Ht. simpl. unfold is_link. by rewrite Habs. Qed.
Lemma link_tbl q : table_path q → q ≠ p ++ [i] → tbl m' root q = tbl (vm_mem s) root q.
Proof.
  intros [Hq1 Hq2] Hne. destruct (decide ((p ++ [i]) `prefix_of` q)) as [[r ->]|Hn].
  - destruct r as [|j r]; [by rewrite app_nil_r in Hne|].
    rewrite tbl_app, link_table. simpl. rewrite Forall_app, Forall_cons in Hq1.
    rewrite link_below by naive_solver. change (is_link 0) with false. cbn.
    rewrite <-app_assoc. symmetry. apply absent_below.
  - eapply tbl_frame, frame_outside; eauto using link_changes; lia.
Qed.
Lemma link_walk w : Forall index_ok w → length w = 4%nat → walk m' root w = walk (vm_mem s) root w.
Proof.
  intros Hw Hlw. destruct (decide ((p ++ [i]) `prefix_of` w)) as [[r ->]|Hn].
  - rewrite !length_app in Hlw. simpl in Hlw. destruct r as [|j r]; [simpl in Hlw; lia|].
    rewrite (walk_app _ (p ++ [i]) root new) by (done || apply link_table).
    rewrite Forall_app, Forall_cons in Hw. simpl. rewrite link_below by naive_solver.
    change (has 0 PAGE_PRESENT) with false. cbn. rewrite <-app_assoc.
    rewrite (walk_app _ p root t) by done. simpl. by rewrite Habs.
  - eapply walk_frame, frame_outside; eauto using link_changes; lia.
Qed.
Lemma link_tree : tree (Vm m' pm (vm_cr3 s)) root.
Proof.
  destruct Hplus as (Htot & _ & Hu). destruct new_page as (Hk0 & Ha & _).
  assert (table_page pm new) as Hnew.
  { split; [unfold PAGE_SIZE; lia|]. split; [done|]. unfold PAGE_SIZE. rewrite Z.div_mul by done.
    rewrite Htot, Hu by lia. split; [lia|]. by rewrite bool_decide_true. }
  pose proof Htree as [H1 H2 H3 H4 H5]. split; simpl.
  - done.
  - rewrite Hu by lia. by rewrite H2, orb_true_r.
  - auto with chaser.
  - intros q t' Hq E. destruct (decide (q = p ++ [i])) as [->|Hne].
    { rewrite link_table in E. by simplify_eq. }
    rewrite link_tbl in E by done. destruct (H4 _ _ Hq E) as (? & ? & ? & Hux).
    split; [done|]. split; [done|]. rewrite Htot. split; [done|].
    rewrite Hu, Hux, orb_true_r; [done|]. apply Z.div_pos; [lia|done].
  - intros q q' t' Hq Hq' E E'.
    destruct (decide (q = p ++ [i])) as [->|Hne], (decide (q' = p ++ [i])) as [->|Hne']; [done| | |].
    + rewrite link_table in E. rewrite link_tbl in E' by done. simplify_eq. by apply new_not_table in E'.
    + rewrite link_table in E'. rewrite link_tbl in E by done. simplify_eq. by apply new_not_table in E.
    + rewrite link_tbl in E, E' by done. by apply (H5 q q' t').
Qed.
Lemma link_large w : Forall index_ok w → length w = 4%nat →
  no_large (vm_mem s) root w → no_large m' root w.
Proof.
  intros Hw Hlw Hno q j r t' Heq Hr Eq Hpj. destruct (path4_prefix w q j r Hw Hlw Heq) as [Hq Hj].
  destruct (decide (q = p ++ [i])) as [->|Hne].
  { rewrite link_table in Eq. simplify_eq. by rewrite link_below in Hpj. }
  rewrite link_tbl in Eq by done.
  destruct (decide ((q, j) = (p, i))) as [[= -> ->]|Hnij].
  - rewrite Ht in Eq. destruct new_page as (_ & _ & He & _ & Hlink). simplify_eq.
    rewrite entry_set_same by done. unfold is_link in Hlink.
    by apply andb_true_iff in Hlink as [_ ?%negb_true_iff].
  - rewrite (link_changes q t' j) in * by done. by apply (Hno q j r t').
Qed.
Lemma link_grows : grows s (Vm m' pm (vm_cr3 s)) root.
Proof. split; [apply link_tree|done|apply link_walk|apply link_large]. Qed.
End link.

(** ** Getting or creating the next level, and mapping *)
Section mapping.
Context (root flags : Z) (Hfl : 0 <= flags < PAGE_SIZE) (Hps : has flags PD_PS = false).
Implicit Types (s : vm) (p q w : list Z).
Lemma grows_refl s : tree s root → grows s s root.
Proof. by split. Qed.
Lemma grows_trans s1 s2 s3 : grows s1 s2 root → grows s2 s3 root → grows s1 s3 root.
Proof.
  intros [? ? W1 L1] [? ? W2 L2]. split; [done|congruence| |auto].
  intros w Hw Hl. by rewrite W2, W1.
Qed.
Lemma get_next_level_spec s p i t : tree s root → table_path p → (length p <= 2)%nat →
  index_ok i → tbl (vm_mem s) root p = Some t →
  (has (entry (vm_mem s) t i) PAGE_PRESENT = true → has (entry (vm_mem s) t i) PD_PS = false) →
  ∃ r s', get_next_level t i flags s = Ret (r, s') ∧ grows s s' root ∧
    ((r = 0 ∧ s' = s ∧ all_used (vm_pmm s)) ∨
     (r ≠ 0 ∧ tbl (vm_mem s') root (p ++ [i]) = Some r)).
Proof.
  intros Htree Hp Hl Hi Ht Hlarge. unfold get_next_level.
  destruct (has (entry (vm_mem s) t i) PAGE_PRESENT) eqn:Hpres; cbn [negb].
  { assert (tbl (vm_mem s) root (p ++ [i]) = Some (table_of (entry (vm_mem s) t i))) as E.
    { rewrite (tbl_snoc _ _ _ _ t) by done. cbn zeta. unfold is_link. by rewrite Hpres, Hlarge. }
    exists (table_of (entry (vm_mem s) t i)), s. split; [done|]. split; [by apply grows_refl|]. right. split; [|done].
    assert (table_path (p ++ [i])) as Hp'.
    { destruct Hp. split; [rewrite Forall_app; auto|rewrite length_app; simpl; lia]. }
    destruct (tr_table _ _ Htree _ _ Hp' E). lia. }
  destruct (alloc_page_from_spec (Z.to_nat (total_pages (vm_pmm s))) (vm_pmm s) 0)
    as (a & pm & E & Hwf & [(k & Hk & -> & Hf & _ & Hplus)|(-> & -> & Hall)]);
    [apply Htree|done|pose proof (wf_total _ (tr_pmm _ _ Htree)); lia|lia| |];
    unfold pmm_alloc_page; rewrite E; ostep.
  - destruct (new_page s root Htree p i t Hl Hpres k pm Hk Hf Hplus flags Hfl Hps)
      as (Hk0 & _ & He & Htab & Hlink).
    rewrite (proj2 (Z.eqb_neq (k * PAGE_SIZE) 0)) by (unfold PAGE_SIZE; lia).
    cbn [vm_mem set_pmm]. eexists _, _. split; [done|]. rewrite entry_set_same, Htab by done.
    split; [exact (link_grows s root Htree p i t Hp Hl Hi Ht Hpres k pm Hk Hf Hwf Hplus flags Hfl Hps)|]. right. split; [unfold PAGE_SIZE; lia|].
    by eapply (link_table s root Htree p i t).
  - exists 0, s. split; [by destruct s|]. split; [by apply grows_refl|]. by left.
Qed.

(** the three levels above the leaf table of [virt] *)
Lemma vmm_map_levels s virt phys : tree s root → no_large (vm_mem s) root (vpath virt) →
  ∃ s', grows s s' root ∧
    ((vmm_map root virt phys flags s = Ret (tt, s') ∧ all_used (vm_pmm s')) ∨
     ∃ pt, tbl (vm_mem s') root [PML4_INDEX virt; PDPT_INDEX virt; PD_INDEX virt] = Some pt ∧
       vmm_map root virt phys flags s =
       Ret (tt, set_mem s' (set_entry (vm_mem s') pt (PT_INDEX virt)
                              (Z.lor (Z.lor (table_of phys) flags) PAGE_PRESENT)))).
Proof.
  intros Htree Hno. pose proof (vpath_ok virt) as Hw. assert (length (vpath virt) = 4%nat) as Hl4 by done.
  pose proof (index_range virt) as Hix.
  destruct (get_next_level_spec s [] (PML4_INDEX virt) root) as (r1 & s1 & E1 & G1 & H1);
    [done|split; [done|simpl; lia]|simpl; lia|apply Hix|done|by apply (Hno [] _ (drop 1 (vpath virt)))|].
  unfold vmm_map. rewrite (st_bind_step _ _ _ _ _ E1).
  destruct H1 as [(-> & -> & Hall)|[Hr1 T1]]; [exists s; split; [done|by left]|]. bfalse.
  pose proof (gr_large _ _ _ G1 _ Hw Hl4 Hno) as N1.
  destruct (get_next_level_spec s1 [PML4_INDEX virt] (PDPT_INDEX virt) r1) as (r2 & s2 & E2 & G2 & H2);
    [apply G1|split; [repeat constructor; apply Hix|simpl; lia]|simpl; lia|apply Hix|done
    |by apply (N1 [PML4_INDEX virt] _ (drop 2 (vpath virt)))|].
  rewrite (st_bind_step _ _ _ _ _ E2). pose proof (grows_trans _ _ _ G1 G2) as G12.
  destruct H2 as [(-> & -> & Hall)|[Hr2 T2]]; [exists s1; split; [done|by left]|]. bfalse.
  pose proof (gr_large _ _ _ G2 _ Hw Hl4 N1) as N2.
  destruct (get_next_level_spec s2 [PML4_INDEX virt; PDPT_INDEX virt] (PD_INDEX virt) r2)
    as (r3 & s3 & E3 & G3 & H3);
    [apply G2|split; [repeat constructor; apply Hix|simpl; lia]|simpl; lia|apply Hix|done
    |by apply (N2 [PML4_INDEX virt; PDPT_INDEX virt] _ (drop 3 (vpath virt)))|].
  rewrite (st_bind_step _ _ _ _ _ E3). pose proof (grows_trans _ _ _ G12 G3) as G13.
  exists s3. split; [done|].
  destruct H3 as [(-> & -> & Hall)|[Hr3 T3]]; [by left|]. bfalse. right. by exists r3.
Qed.
End mapping.

(** ** Unmapping, cloning, granting *)
Section bits.
Implicit Types (e : Z).
Lemma has_bit x k m : 0 <= k → m = 2 ^ k → has x m = Z.testbit x k.
Proof.
  intros Hk ->. unfold has. destruct (Z.testbit x k) eqn:E.
  - apply negb_true_iff, Z.eqb_neq. intros Hz.
    assert (Z.testbit (Z.land x (2 ^ k)) k = true) as Hb
      by by rewrite Z.land_spec, E, Z.pow2_bits_true.
    by rewrite Hz, Z.bits_0 in Hb.
  - apply negb_false_iff, Z.eqb_eq. apply Z.bits_inj_iff'. intros n Hn.
    rewrite Z.land_spec, Z.bits_0. destruct (decide (n = k)) as [->|]; [by rewrite E|].
    by rewrite Z.pow2_bits_false, andb_false_r by done.
Qed.
Lemma has_present e : has e PAGE_PRESENT = Z.testbit e 0.
Proof. by apply has_bit. Qed.
Lemma has_user e : has e PAGE_USER = Z.testbit e 2.
Proof. by apply has_bit. Qed.
Lemma has_ps e : has e PD_PS = Z.testbit e 7.
Proof. by apply has_bit. Qed.
Lemma user_link e : table_of (Z.lor e PAGE_USER) = table_of e ∧ is_link (Z.lor e PAGE_USER) = is_link e.
Proof.
  split.
  - unfold table_of. rewrite Z.land_lor_distr_l. change (Z.land PAGE_USER (2 ^ 64 - 4096)) with 0.
    apply Z.lor_0_r.
  - unfold is_link. rewrite !has_present, !has_ps, !Z.lor_spec.
    change (Z.testbit PAGE_USER 0) with false. change (Z.testbit PAGE_USER 7) with false.
    by rewrite !orb_false_r.
Qed.
Lemma flags_bits e need : Z.land e (Z.lor (Z.lor PAGE_PRESENT PAGE_USER) need) =? Z.lor (Z.lor PAGE_PRESENT PAGE_USER) need =
  (Z.land e 5 =? 5) && (Z.land e need =? need).
Proof.
  apply eq_true_iff_eq. rewrite andb_true_iff, !Z.eqb_eq. change (Z.lor PAGE_PRESENT PAGE_USER) with 5.
  rewrite <-!Z.bits_inj_iff'. setoid_rewrite Z.land_spec. setoid_rewrite Z.lor_spec. split.
  - intros H. split; intros n Hn; specialize (H n Hn);
      destruct (Z.testbit e n), (Z.testbit 5 n), (Z.testbit need n); done.
  - intros [H1 H2] n Hn. specialize (H1 n Hn). specialize (H2 n Hn).
    destruct (Z.testbit e n), (Z.testbit 5 n), (Z.testbit need n); done.
Qed.
End bits.

Section unmap.
Context (s : vm) (root virt : Z) (Htree : tree s root) (Hno : no_large (vm_mem s) root (vpath virt)).
(** either the walk of [virt] ends at an absent table, or its leaf table exists *)
Lemma unmap_cases : (vmm_unmap s root virt = s ∧ walk (vm_mem s) root (vpath virt) = None) ∨
  ∃ pt, tbl (vm_mem s) root [PML4_INDEX virt; PDPT_INDEX virt; PD_INDEX virt] = Some pt ∧
    vmm_unmap s root virt = set_mem s (set_entry (vm_mem s) pt (PT_INDEX virt) 0).
Proof.
  unfold vmm_unmap. cbn [walk vpath tbl].
  destruct (has (entry (vm_mem s) root (PML4_INDEX virt)) PAGE_PRESENT) eqn:P4; cbn [negb]; [|by left].
  pose proof (Hno [] _ (drop 1 (vpath virt)) root eq_refl ltac:(done) eq_refl P4) as S4. rewrite S4.
  assert (is_link (entry (vm_mem s) root (PML4_INDEX virt)) = true) as -> by (unfold is_link; by rewrite P4, S4).
  set (t3 := table_of _). assert (tbl (vm_mem s) root [PML4_INDEX virt] = Some t3) as T3
    by (simpl; unfold is_link; by rewrite P4, S4).
  destruct (has (entry (vm_mem s) t3 (PDPT_INDEX virt)) PAGE_PRESENT) eqn:P3; cbn [negb]; [|by left].
  pose proof (Hno [PML4_INDEX virt] _ (drop 2 (vpath virt)) t3 eq_refl ltac:(done) T3 P3) as S3. rewrite S3.
  assert (is_link (entry (vm_mem s) t3 (PDPT_INDEX virt)) = true) as L3 by (unfold is_link; by rewrite P3, S3).
  rewrite L3. set (t2 := table_of (entry (vm_mem s) t3 _)).
  assert (tbl (vm_mem s) root [PML4_INDEX virt; PDPT_INDEX virt] = Some t2) as T2.
  { change [PML4_INDEX virt; PDPT_INDEX virt] with ([PML4_INDEX virt] ++ [PDPT_INDEX virt]).
    rewrite (tbl_snoc _ _ _ _ t3) by done. cbn zeta. by rewrite L3. }
  destruct (has (entry (vm_mem s) t2 (PD_INDEX virt)) PAGE_PRESENT) eqn:P2; cbn [negb]; [|by left].
  pose proof (Hno [PML4_INDEX virt; PDPT_INDEX virt] _ (drop 3 (vpath virt)) t2 eq_refl ltac:(done) T2 P2) as S2.
  assert (is_link (entry (vm_mem s) t2 (PD_INDEX virt)) = true) as -> by (unfold is_link; by rewrite P2, S2).
  right. eauto.
Qed.
End unmap.

Section clone.
Implicit Types (m : mem).
Lemma copy_entries_spec n : ∀ m dst src i t j, mem_bytes m → aligned dst → aligned src → aligned t → dst ≠ src →
  0 <= i → i + Z.of_nat n <= 512 → index_ok j →
  entry (copy_entries m dst src i n) t j =
  if decide (t = dst ∧ i <= j < i + Z.of_nat n) then entry m src j else entry m t j.
Proof.
  induction n as [|n IH]; intros m dst src i t j Hm Hd Hs Ht Hne Hi Hn Hj; cbn [copy_entries].
  { rewrite decide_False by lia. done. }
  rewrite IH by (auto with chaser; lia).
  assert (index_ok i) by (unfold index_ok; lia).
  rewrite (entry_set_other _ dst i _ src j) by auto.
  destruct (decide (t = dst ∧ i <= j < i + Z.of_nat (S n))) as [[-> Hr]|Hr].
  - destruct (decide (j = i)) as [->|].
    + rewrite decide_False by lia. by rewrite entry_set_same by auto with chaser.
    + by rewrite decide_True by lia.
  - rewrite decide_False by lia. apply entry_set_other; auto.
    destruct (decide (t = dst)) as [->|]; [right; lia|left; congruence].
Qed.
Lemma copy_entries_bytes n : ∀ m dst src i, mem_bytes m → mem_bytes (copy_entries m dst src i n).
Proof. induction n; intros; simpl; auto with chaser. Qed.

Context (s : vm) (Htree : tree s (vm_cr3 s)).
Context (k : Z) (Hk : 0 < k < total_pages (vm_pmm s)) (Hf : page_used (vm_pmm s) k = false).
Notation new := (k * PAGE_SIZE).
Notation m' := (copy_entries (vm_mem s) new (vm_cr3 s) 0 512).
Lemma clone_not_table q t : table_path q → tbl (vm_mem s) (vm_cr3 s) q = Some t → aligned t ∧ t ≠ new.
Proof.
  intros Hq E. destruct (tr_table _ _ Htree _ _ Hq E) as (? & ? & ? & Hux). split; [done|].
  intros ->. unfold PAGE_SIZE in Hux. rewrite Z.div_mul in Hux by done. congruence.
Qed.
Lemma clone_entry t j : aligned t → index_ok j → entry m' t j =
  if decide (t = new) then entry (vm_mem s) (vm_cr3 s) j else entry (vm_mem s) t j.
Proof.
  intros Ht Hj. destruct (clone_not_table [] (vm_cr3 s)) as [Hal Hne]; [split; [done|simpl; lia]|done|].
  assert (aligned new) by (unfold aligned, PAGE_SIZE; zdm).
  rewrite copy_entries_spec; [|apply Htree|assumption|assumption|assumption|congruence|lia|simpl; lia|assumption].
  destruct (decide (t = new)) as [->|]; [by rewrite decide_True by (unfold index_ok in Hj; lia)|].
  by rewrite decide_False by naive_solver.
Qed.
Lemma clone_frame w : Forall index_ok w → (length w <= 4)%nat → frame (vm_mem s) m' (vm_cr3 s) w.
Proof.
  intros Hw Hl q j r t -> E. rewrite Forall_app, Forall_cons in Hw. rewrite length_app in Hl.
  simpl in Hl. destruct (clone_not_table q t) as [Ht Hne]; [split; [naive_solver|lia]|done|].
  by rewrite clone_entry, decide_False by naive_solver.
Qed.
Lemma clone_tree pm : pmm_wf pm → total_pages pm = total_pages (vm_pmm s) →
  (∀ j, 0 <= j → page_used pm j = bool_decide (j = k) || page_used (vm_pmm s) j) →
  tree (Vm m' pm (vm_cr3 s)) (vm_cr3 s).
Proof.
  intros Hwf Ht Hu. pose proof Htree as [H1 H2 H3 H4 H5].
  assert (∀ q, table_path q → tbl m' (vm_cr3 s) q = tbl (vm_mem s) (vm_cr3 s) q) as Htbl.
  { intros q [Hq1 Hq2]. apply tbl_frame, clone_frame; [done|lia]. }
  split; cbn [vm_mem vm_pmm].
  - done.
  - by rewrite Hu, H2, orb_true_r by lia.
  - by apply copy_entries_bytes.
  - intros q t Hq. rewrite Htbl by done. intros E. destruct (H4 _ _ Hq E) as (? & ? & ? & Hux).
    split; [done|]. split; [done|]. rewrite Ht. split; [done|].
    rewrite Hu, Hux, orb_true_r; [done|]. apply Z.div_pos; [lia|done].
  - intros q q' t Hq Hq'. rewrite !Htbl by done. by apply H5.
Qed.
Lemma clone_walk va : walk m' new (vpath va) = walk (vm_mem s) (vm_cr3 s) (vpath va) ∧
  walk m' (vm_cr3 s) (vpath va) = walk (vm_mem s) (vm_cr3 s) (vpath va).
Proof.
  assert (walk m' (vm_cr3 s) (vpath va) = walk (vm_mem s) (vm_cr3 s) (vpath va)) as Hw
    by (apply walk_frame, clone_frame; [apply vpath_ok|done]).
  split; [|done]. rewrite <-Hw.
  destruct (clone_not_table [] (vm_cr3 s)) as [Hal Hne]; [split; [done|simpl; lia]|done|].
  assert (aligned new) by (unfold aligned, PAGE_SIZE; zdm).
  assert (∀ j, index_ok j → entry m' new j = entry m' (vm_cr3 s) j) as He.
  { intros j Hj. rewrite !clone_entry by assumption. rewrite decide_True by reflexivity.
    by rewrite decide_False by congruence. }
  cbn [walk vpath]. rewrite He; [reflexivity|apply index_range].
Qed.
End clone.

(** entries that may gain the user bit on the links of a path *)
Section sim.
Implicit Types (m : mem) (w q : list Z).
Definition link_sim m m' root w : Prop := ∀ q j r t,
  w = q ++ j :: r → tbl m root q = Some t →
  entry m' t j = entry m t j ∨
  (r ≠ [] ∧ is_link (entry m t j) = true ∧ is_link (entry m' t j) = true ∧
   table_of (entry m' t j) = table_of (entry m t j)).
Lemma link_sim_tail m m' root i w : link_sim m m' root (i :: w) → is_link (entry m root i) = true →
  link_sim m m' (table_of (entry m root i)) w.
Proof.
  intros F L q j r t -> E. apply (F (i :: q) j r t); [done|]. simpl. by rewrite L.
Qed.
Lemma walk_sim m m' w : ∀ root, link_sim m m' root w → walk m' root w = walk m root w.
Proof.
  induction w as [|i w IH]; intros root F; [done|].
  pose proof (link_sim_tail _ _ _ _ _ F) as Ft. cbn [walk].
  destruct (F [] i w root eq_refl eq_refl) as [->|(Hr & L & L' & E)].
  - destruct (has (entry m root i) PAGE_PRESENT) eqn:E1; [|done].
    destruct w; [done|]. destruct (has (entry m root i) PD_PS) eqn:E2; [done|].
    apply IH, Ft. unfold is_link. by rewrite E1, E2.
  - specialize (Ft L). unfold is_link in L, L'.
    apply andb_true_iff in L as [-> L2%negb_true_iff]. apply andb_true_iff in L' as [-> L2'%negb_true_iff].
    destruct w; [done|]. rewrite L2, L2', E. by apply IH.
Qed.
End sim.

Section ranges.
Implicit Types (ok : Z → bool).
Lemma range_loop_spec ok fuel : ∀ a b, 0 <= a → b * PAGE_SIZE < 2 ^ 64 - PAGE_SIZE → a <= b + 1 →
  (Z.to_nat (b + 1 - a) < fuel)%nat →
  ∃ r, range_loop ok (a * PAGE_SIZE) (b * PAGE_SIZE) fuel = Ret r ∧
       (r = true ↔ ∀ k, a <= k <= b → ok (k * PAGE_SIZE) = true).
Proof.
  unfold PAGE_SIZE. induction fuel as [|fuel IH]; intros a b Ha Hb Hab Hf; [lia|]. cbn [range_loop].
  destruct (decide (a <= b)).
  - btrue. destruct (ok (a * 4096)) eqn:E.
    + unfold PAGE_SIZE. rewrite u64_small by lia. replace (a * 4096 + 4096) with ((a + 1) * 4096) by lia.
      destruct (IH (a + 1) b) as (r & -> & Hr); [lia|lia|lia|lia|]. exists r. split; [done|].
      rewrite Hr. split; intros H k Hk; [|apply H; lia].
      destruct (decide (k = a)) as [->|]; [done|apply H; lia].
    + exists false. split; [done|]. split; [done|]. intros H. rewrite H in E; [done|lia].
  - bfalse. exists true. split; [done|]. split; [intros _ k Hk; lia|done].
Qed.
Lemma range_check_spec ok fuel addr len : 0 <= addr → 0 <= len → addr + len <= 2 ^ 64 - PAGE_SIZE →
  (Z.to_nat (len / PAGE_SIZE + 2) < fuel)%nat →
  ∃ r, range_check fuel ok addr len = Ret r ∧
       (r = true ↔ ∀ x, addr <= x < addr + len → ok (x / PAGE_SIZE * PAGE_SIZE) = true).
Proof.
  intros Ha Hl Hs Hf. unfold range_check. case_if.
  { exists true. split; [done|]. split; [intros _ x Hx; lia|done]. }
  rewrite u64_small by (unfold PAGE_SIZE in *; lia). bfalse.
  rewrite u64_small by (unfold PAGE_SIZE in *; lia).
  rewrite !(land_lnot_ones _ 12) by done. change (2 ^ 12) with PAGE_SIZE. rewrite !(Z.mul_comm PAGE_SIZE).
  destruct (range_loop_spec ok fuel (addr / PAGE_SIZE) ((addr + len - 1) / PAGE_SIZE)) as (r & -> & Hr).
  - apply Z.div_pos; [lia|done].
  - unfold PAGE_SIZE in *. zdm.
  - unfold PAGE_SIZE in *. zdm.
  - unfold PAGE_SIZE in *. zdm.
  - exists r. split; [done|]. rewrite Hr. split.
    + intros H x Hx. apply H. unfold PAGE_SIZE. split; apply Z.div_le_mono; lia.
    + intros H k Hk. destruct (decide (k = addr / PAGE_SIZE)) as [->|]; [apply H; lia|].
      replace k with ((k * PAGE_SIZE) / PAGE_SIZE) by (unfold PAGE_SIZE; by rewrite Z.div_mul).
      apply H. unfold PAGE_SIZE in *. zdm.
Qed.
End ranges.

(** The entries of the two upper levels are links, never 1 GiB pages: the
    tables that the boot code sets up, and all that [vmm_map] adds. *)
Definition upper_links (m : mem) (root : Z) : Prop := ∀ q j t,
  Forall index_ok q → (length q <= 1)%nat → index_ok j → tbl m root q = Some t →
  has (entry m t j) PAGE_PRESENT = true → has (entry m t j) PD_PS = false.
(** a leaf entry grants a user access that needs [need] *)
Definition grants (leaf : option Z) (need : Z) : bool :=
  match leaf with
  | Some e => (Z.land e 5 =? 5) && (Z.land e need =? need)
  | None => false
  end.
Section flags.
Context (s : vm) (Hup : upper_links (vm_mem s) (vm_cr3 s)).
Lemma absent_grants e need : has e PAGE_PRESENT = false → grants (Some e) need = false.
Proof.
  rewrite has_present. intros E. apply andb_false_iff. left. apply Z.eqb_neq. intros H.
  assert (Z.testbit (Z.land e 5) 0 = true) as Hb by (rewrite H; done).
  by rewrite Z.land_spec, E in Hb.
Qed.
Lemma has_flags_walk virt need :
  vmm_page_has_flags s virt need = grants (walk (vm_mem s) (vm_cr3 s) (vpath virt)) need.
Proof.
  unfold vmm_page_has_flags, vmm_get_current_pml4. cbn [walk vpath]. pose proof (index_range virt) as Hix.
  destruct (has (entry (vm_mem s) (vm_cr3 s) (PML4_INDEX virt)) PAGE_PRESENT) eqn:P4; cbn [negb]; [|done].
  assert (has (entry (vm_mem s) (vm_cr3 s) (PML4_INDEX virt)) PD_PS = false) as S4
    by (apply (Hup []); [done|simpl; lia|apply Hix|done|done]).
  rewrite S4. set (t3 := table_of _).
  destruct (has (entry (vm_mem s) t3 (PDPT_INDEX virt)) PAGE_PRESENT) eqn:P3; cbn [negb]; [|done].
  assert (has (entry (vm_mem s) t3 (PDPT_INDEX virt)) PD_PS = false) as ->.
  { apply (Hup [PML4_INDEX virt]); [repeat constructor; apply Hix|simpl; lia|apply Hix| |done].
    simpl. unfold is_link. by rewrite P4, S4. }
  set (t2 := table_of (entry _ t3 _)).
  destruct (has (entry (vm_mem s) t2 (PD_INDEX virt)) PAGE_PRESENT); cbn [negb]; [|done].
  destruct (has (entry (vm_mem s) t2 (PD_INDEX virt)) PD_PS); [apply flags_bits|].
  rewrite flags_bits. destruct (has (entry _ (table_of _) _) PAGE_PRESENT) eqn:P1; [reflexivity|]. exact (absent_grants _ need P1).
Qed.
End flags.

Lemma land_pow2 e k : 0 <= k → (Z.land e (2 ^ k) =? 2 ^ k) = Z.testbit e k.
Proof.
  intros Hk. pose proof (has_bit e k _ Hk eq_refl) as Hb. unfold has in Hb.
  apply eq_true_iff_eq. rewrite Z.eqb_eq, <-Hb, negb_true_iff, Z.eqb_neq.
  assert (0 < 2 ^ k) by (apply Z.pow_pos_nonneg; lia).
  split; [lia|]. intros Hz. apply Z.bits_inj_iff'. intros n Hn.
  rewrite Z.land_spec, Z.pow2_bits_eqb by lia.
  destruct (Z.eqb_spec k n) as [<-|]; [|by rewrite andb_false_r]. rewrite andb_true_r, <-Hb.
  by apply negb_true_iff, Z.eqb_neq.
Qed.
Lemma grants_bits e : Z.testbit e 0 = true → Z.testbit e 2 = true →
  grants (Some e) 0 = true ∧ grants (Some e) PAGE_WRITE = Z.testbit e 1.
Proof.
  intros B0 B2. assert (Z.land e 5 = 5) as H5.
  { change 5 with (Z.lor (2 ^ 0) (2 ^ 2)). apply Z.bits_inj_iff'. intros n Hn. rewrite Z.land_spec, Z.lor_spec.
    rewrite !Z.pow2_bits_eqb by lia.
    destruct (Z.eqb_spec 0 n) as [<-|]; [by rewrite B0|]. destruct (Z.eqb_spec 2 n) as [<-|]; [by rewrite B2|].
    by rewrite andb_false_r. }
  unfold grants. rewrite H5, Z.land_0_r. split; [done|]. simpl. change PAGE_WRITE with (2 ^ 1).
  by apply land_pow2.
Qed.
(** evaluate a bit of a constant *)
Ltac const_bit :=
  match goal with
  | |- context [Z.testbit ?c ?k] =>
    let v := eval vm_compute in (Z.testbit c k) in
    match v with
    | true => change (Z.testbit c k) with true
    | false => change (Z.testbit c k) with false
    end
  end.
Section grant.
Context (s : vm) (virt : Z) (uw : bool) (Htree : tree s (vm_cr3 s)).
Notation root := (vm_cr3 s).
Notation m := (vm_mem s).
Notation i4 := (PML4_INDEX virt).
Notation i3 := (PDPT_INDEX virt).
Notation i2 := (PD_INDEX virt).
Context (pdpt pd : Z) (T3 : tbl m root [i4] = Some pdpt) (T2 : tbl m root [i4; i3] = Some pd).
Context (Hpres : has (entry m pd i2) PAGE_PRESENT = true) (Hps : has (entry m pd i2) PD_PS = true).
(** the new large-page entry *)
Definition granted (e : Z) : Z :=
  let e := Z.lor (Z.ldiff e PAGE_NX) PAGE_USER in
  if uw then Z.lor e PAGE_WRITE else Z.ldiff e PAGE_WRITE.
Notation m1 := (set_entry m root i4 (Z.lor (entry m root i4) PAGE_USER)).
Notation m2 := (set_entry m1 pdpt i3 (Z.lor (entry m pdpt i3) PAGE_USER)).
Notation m3 := (set_entry m2 pd i2 (granted (entry m pd i2))).

Lemma granted_bits e : 0 <= e < 2 ^ 64 → 0 <= granted e < 2 ^ 64 ∧
  Z.testbit (granted e) 0 = Z.testbit e 0 ∧ Z.testbit (granted e) 7 = Z.testbit e 7 ∧
  Z.testbit (granted e) 2 = true ∧ Z.testbit (granted e) 1 = uw.
Proof.
  intros He. split.
  - assert (∀ x, Z.land x (Z.ones 64) = x → 0 <= x < 2 ^ 64) as Hr
      by (intros x <-; by apply land_ones_range).
    assert (Z.land e (Z.ones 64) = e) as He' by (rewrite Z.land_ones by lia; by apply Z.mod_small).
    apply Hr. apply Z.bits_inj_iff'. intros n Hn. rewrite Z.land_spec.
    destruct (decide (n < 64)); [rewrite Z.ones_spec_low by lia; apply andb_true_r|].
    rewrite Z.ones_spec_high, andb_false_r by lia. symmetry.
    assert (Z.testbit e n = false) as Hen by (rewrite <-He', Z.land_spec, Z.ones_spec_high, andb_false_r by lia; done).
    assert (∀ k, 0 <= k < 64 → Z.testbit (2 ^ k) n = false) as Hc by (intros k Hk; apply Z.pow2_bits_false; lia).
    pose proof (Hc 1 ltac:(lia)). pose proof (Hc 2 ltac:(lia)).
    unfold granted, PAGE_NX, PAGE_USER, PAGE_WRITE.
    change 4 with (2 ^ 2). change 2 with (2 ^ 1) at 3 4. 
    destruct uw; rewrite ?Z.lor_spec, ?Z.ldiff_spec, ?Z.lor_spec, ?Z.ldiff_spec, Hen, !Hc by lia; done.
  - unfold granted.
    destruct uw; repeat (rewrite Z.lor_spec || rewrite Z.ldiff_spec); repeat const_bit;
      repeat split; repeat match goal with |- context [Z.testbit e ?k] => destruct (Z.testbit e k) end; done.
Qed.

Lemma grant_links : is_link (entry m root i4) = true ∧ table_of (entry m root i4) = pdpt ∧
  is_link (entry m pdpt i3) = true ∧ table_of (entry m pdpt i3) = pd.
Proof.
  assert (tbl m root [i4] = Some pdpt) as T3' by done. simpl in T3'.
  destruct (is_link (entry m root i4)) eqn:L4; [|done]. injection T3' as E3.
  assert (tbl m root [i4; i3] = Some pd) as T2' by done. simpl in T2'. rewrite L4, E3 in T2'.
  destruct (is_link (entry m pdpt i3)) eqn:L3; [|done]. by injection T2' as E2.
Qed.
Lemma grant_tables : aligned root ∧ aligned pdpt ∧ aligned pd ∧ root ≠ pdpt ∧ root ≠ pd ∧ pdpt ≠ pd.
Proof.
  pose proof (index_range virt) as Hix.
  assert (table_path []) as P0 by (split; [done|simpl; lia]).
  assert (table_path [i4]) as P1 by (split; [repeat constructor; apply Hix|simpl; lia]).
  assert (table_path [i4; i3]) as P2 by (split; [repeat constructor; apply Hix|simpl; lia]).
  split; [by eapply table_page_aligned, (tr_table _ _ Htree [])|].
  split; [by eapply table_page_aligned, (tr_table _ _ Htree [i4])|].
  split; [by eapply table_page_aligned, (tr_table _ _ Htree [i4; i3])|].
  split_and!; intros Heq.
  - pose proof (tr_inj _ _ Htree [] [i4] root P0 P1 eq_refl ltac:(congruence)) as Hx. done.
  - pose proof (tr_inj _ _ Htree [] [i4; i3] root P0 P2 eq_refl ltac:(congruence)) as Hx. done.
  - pose proof (tr_inj _ _ Htree [i4] [i4; i3] pdpt P1 P2 T3 ltac:(congruence)) as Hx. done.
Qed.
Lemma user_entry_range t i : 0 <= Z.lor (entry m t i) PAGE_USER < 2 ^ 64.
Proof.
  pose proof (entry_range m t i (tr_mem _ _ Htree)) as He. split; [apply Z.lor_nonneg; unfold PAGE_USER; lia|].
  destruct (decide (entry m t i = 0)) as [->|]; [done|]. apply Z.log2_lt_cancel.
  rewrite Z.log2_lor by (unfold PAGE_USER; lia). change (Z.log2 (2 ^ 64)) with 64. change (Z.log2 PAGE_USER) with 2.
  apply Z.max_lub_lt; [|lia]. apply Z.log2_lt_pow2; lia.
Qed.
(** the three entries of the result *)
Lemma grant_entries : entry m3 root i4 = Z.lor (entry m root i4) PAGE_USER ∧
  entry m3 pdpt i3 = Z.lor (entry m pdpt i3) PAGE_USER ∧
  entry m3 pd i2 = granted (entry m pd i2) ∧
  ∀ t j, aligned t → index_ok j → (t, j) ≠ (root, i4) → (t, j) ≠ (pdpt, i3) → (t, j) ≠ (pd, i2) →
    entry m3 t j = entry m t j.
Proof.
  destruct grant_tables as (A1 & A2 & A3 & N1 & N2 & N3). pose proof (index_range virt) as Hix.
  assert (index_ok i4 ∧ index_ok i3 ∧ index_ok i2) as (I4 & I3 & I2) by (split_and!; apply Hix).
  split_and!.
  - rewrite !(entry_set_other _ _ _ _ root) by auto. apply entry_set_same, user_entry_range.
  - rewrite (entry_set_other _ pd) by auto. apply entry_set_same, user_entry_range.
  - apply entry_set_same, granted_bits, entry_range, Htree.
  - intros t j At Ij H1 H2 H3.
    rewrite (entry_set_other _ pd), (entry_set_other _ pdpt), (entry_set_other _ root); auto.
    + destruct (decide (root = t)) as [Heq|]; [right; intros Hij; apply H1; congruence|by left].
    + destruct (decide (pdpt = t)) as [Heq|]; [right; intros Hij; apply H2; congruence|by left].
    + destruct (decide (pd = t)) as [Heq|]; [right; intros Hij; apply H3; congruence|by left].
Qed.
Lemma grant_result : vmm_grant_user_2mb_region s virt uw = set_mem s m3.
Proof.
  destruct grant_links as (L4 & E3 & L3 & E2). destruct grant_tables as (A1 & A2 & A3 & N1 & N2 & N3).
  pose proof (index_range virt) as Hix. unfold is_link in L4, L3.
  apply andb_true_iff in L4 as [P4 _], L3 as [P3 _].
  unfold vmm_grant_user_2mb_region, vmm_get_current_pml4. rewrite P4. cbn [negb]. rewrite E3.
  rewrite (entry_set_other m root i4 _ pdpt i3), P3, E2 by (auto; apply Hix). cbn [negb].
  rewrite (entry_set_other _ pdpt i3 _ pd i2), (entry_set_other m root i4 _ pd i2), Hpres by (auto; apply Hix).
  by unfold granted.
Qed.
Lemma grant_tbl : tbl m3 root [i4; i3] = Some pd.
Proof.
  destruct grant_links as (L4 & E3 & L3 & E2). destruct grant_entries as (G4 & G3 & _).
  cbn [tbl]. rewrite G4. destruct (user_link (entry m root i4)) as [-> ->]. rewrite L4, E3, G3.
  destruct (user_link (entry m pdpt i3)) as [-> ->]. by rewrite L3, E2.
Qed.
Lemma grant_walk_same w x : w = [i4; i3; i2; x] → walk m3 root w = Some (granted (entry m pd i2)).
Proof.
  intros ->. change [i4; i3; i2; x] with ([i4; i3] ++ [i2; x]). rewrite (walk_app _ _ root pd) by (done || apply grant_tbl).
  destruct grant_entries as (_ & _ & G2 & _). cbn [walk]. rewrite G2.
  destruct (granted_bits (entry m pd i2)) as (_ & B0 & B7 & _); [apply entry_range, Htree|].
  rewrite !has_present, !has_ps in *. by rewrite B0, B7, Hpres, Hps.
Qed.
Lemma grant_walk_other w : Forall index_ok w → length w = 4%nat → take 3 w ≠ [i4; i3; i2] →
  walk m3 root w = walk m root w.
Proof.
  intros Hw Hl Hne. apply walk_sim. intros q j r t Heq E.
  destruct (path4_prefix w q j r Hw Hl Heq) as [Hq Hj].
  destruct grant_links as (L4 & E3 & L3 & E2). destruct grant_entries as (G4 & G3 & G2 & G).
  pose proof (tr_table _ _ Htree q t Hq E) as Htp. pose proof (index_range virt) as Hix.
  destruct (decide ((t, j) = (root, i4))) as [[= -> ->]|N4].
  { right. split; [|rewrite G4; destruct (user_link (entry m root i4)) as [-> ->]; by rewrite L4].
    assert (q = []) as -> by (apply (tr_inj _ _ Htree _ _ root); [done|split; [done|simpl; lia]|done|done]).
    destruct r; [subst w; done|done]. }
  destruct (decide ((t, j) = (pdpt, i3))) as [[= -> ->]|N3].
  { right. split; [|rewrite G3; destruct (user_link (entry m pdpt i3)) as [-> ->]; by rewrite L3].
    assert (q = [i4]) as -> by (apply (tr_inj _ _ Htree _ _ pdpt); [done|split; [repeat constructor; apply Hix|simpl; lia]|done|done]).
    destruct r; [subst w; done|done]. }
  left. apply G; eauto with chaser. intros [= -> ->]. apply Hne.
  assert (q = [i4; i3]) as -> by (apply (tr_inj _ _ Htree _ _ pd); [done|split; [repeat constructor; apply Hix|simpl; lia]|done|done]).
  by rewrite Heq.
Qed.
End grant.

(** ** Theorems *)

(** [vmm_map] on a tree without a large page on the way *)
Lemma vmm_map_small s root virt phys flags :
  tree s root → no_large (vm_mem s) root (vpath virt) → 0 <= flags < PAGE_SIZE →
  has flags PD_PS = false → 0 <= phys < 2 ^ 64 →
  ∃ s', vmm_map root virt phys flags s = Ret (tt, s') ∧ tree s' root ∧ vm_cr3 s' = vm_cr3 s ∧
    ((∀ va, walk (vm_mem s') root (vpath va) =
            if decide (page_of va = page_of virt)
            then Some (PAGE_SIZE * (phys / PAGE_SIZE) + Z.lor flags PAGE_PRESENT)
            else walk (vm_mem s) root (vpath va)) ∨
     (all_used (vm_pmm s') ∧ ∀ va, walk (vm_mem s') root (vpath va) = walk (vm_mem s) root (vpath va))).
Proof.
  intros Htree Hno Hfl Hps Hphys.
  destruct (vmm_map_levels root flags Hfl Hps s virt phys Htree Hno) as (s' & G & [[-> Hall]|(pt & T & ->)]).
  { exists s'. split; [done|]. split; [apply G|]. split; [apply G|]. right. split; [done|].
    intros va. apply (gr_walk _ _ _ G); [apply vpath_ok|done]. }
  pose proof (index_range virt) as Hix.
  assert (table_path [PML4_INDEX virt; PDPT_INDEX virt; PD_INDEX virt]) as Hp3
    by (split; [repeat constructor; apply Hix|done]).
  destruct (entry_split (PAGE_SIZE * (phys / PAGE_SIZE)) flags) as [He Hr];
    [unfold PAGE_SIZE; zdm|unfold PAGE_SIZE; zdm|done|].
  rewrite table_of_div by done. fold PAGE_SIZE. rewrite He.
  assert (has (PAGE_SIZE * (phys / PAGE_SIZE) + Z.lor flags PAGE_PRESENT) PAGE_PRESENT = true) as Hpr
    by (rewrite <-He; apply has_present_lor).
  eexists. split; [done|]. split; [|split; [apply G|]].
  { exact (leaf_write_tree s' root (gr_tree _ _ _ G) _ _ _ Hp3 (Hix _) T _ eq_refl). }
  left. intros va. cbn [vm_mem set_mem].
  rewrite (leaf_write_walk s' root (gr_tree _ _ _ G) _ (PT_INDEX virt) pt Hp3 (Hix _) T) by
    (done || apply vpath_ok || (unfold PAGE_SIZE in *; zdm)).
  change ([PML4_INDEX virt; PDPT_INDEX virt; PD_INDEX virt] ++ [PT_INDEX virt]) with (vpath virt).
  rewrite (gr_walk _ _ _ G) by (done || apply vpath_ok).
  rewrite Hpr.
  destruct (decide (vpath va = vpath virt)) as [Hv%vpath_page|Hv]; [by rewrite decide_True|].
  rewrite decide_False; [done|]. by rewrite <-vpath_page.
Qed.
(** below a 2 MiB page the frame of the page is taken for a table *)
Lemma vmm_map_large s root virt phys flags pd :
  tree s root → tbl (vm_mem s) root [PML4_INDEX virt; PDPT_INDEX virt] = Some pd → let e := entry (vm_mem s) pd (PD_INDEX virt) in
  has e PAGE_PRESENT = true → table_of e ≠ 0 →
  vmm_map root virt phys flags s = Ret (tt, set_mem s (set_entry (vm_mem s) (table_of e) (PT_INDEX virt) (Z.lor (Z.lor (table_of phys) flags) PAGE_PRESENT))).
Proof.
  intros Htree T e Hp Hn. pose proof (index_range virt) as Hix. cbn [tbl] in T. destruct (is_link (entry (vm_mem s) root (PML4_INDEX virt))) eqn:L4; [|done]. destruct (is_link (entry _ (table_of _) (PDPT_INDEX virt))) eqn:L3; [|done]. injection T as T.
  assert (table_page (vm_pmm s) (table_of (entry (vm_mem s) root (PML4_INDEX virt)))) as [P3 _] by (apply (tr_table _ _ Htree [PML4_INDEX virt]); [split; [repeat constructor; apply Hix|simpl; lia]|simpl; by rewrite L4]).
  assert (table_page (vm_pmm s) pd) as [P2 _] by (apply (tr_table _ _ Htree [PML4_INDEX virt; PDPT_INDEX virt]); [split; [repeat constructor; apply Hix|simpl; lia]|simpl; rewrite L4, L3; by rewrite T]).
  unfold is_link in L4, L3. apply andb_true_iff in L4 as [L4 _], L3 as [L3 _]. unfold vmm_map, get_next_level, mbind, st_mbind. rewrite L4. cbn [negb]. ostep. rewrite (proj2 (Z.eqb_neq _ 0)) by lia. ostep. rewrite L3. cbn [negb]. ostep. rewrite T. rewrite (proj2 (Z.eqb_neq pd 0)) by lia. fold e. rewrite Hp. cbn [negb]. ostep. by rewrite (proj2 (Z.eqb_neq _ 0)) by done.
Qed.

(** C19. [vmm_map] with flags in the lower 12 bits (not the large page bit).
    With the table tree intact and no large page on the way it refines the point
    update of the address space: it returns with the tree intact, and either the
    leaf entry of the page of [virt] is the new one and every other address
    translates as before, or physical memory is exhausted and every address
    translates as before.  Where a 2 MiB page already maps [virt], it maps
    nothing: it stores the entry in the page's own frame, as if the frame were a
    table, and allocates nothing. *)
Theorem vmm_map_refines s root virt phys flags :
  tree s root → 0 <= flags < PAGE_SIZE → has flags PD_PS = false → 0 <= phys < 2 ^ 64 →
  (no_large (vm_mem s) root (vpath virt) →
   ∃ s', vmm_map root virt phys flags s = Ret (tt, s') ∧ tree s' root ∧ vm_cr3 s' = vm_cr3 s ∧
     ((∀ va, walk (vm_mem s') root (vpath va) =
             if decide (page_of va = page_of virt)
             then Some (PAGE_SIZE * (phys / PAGE_SIZE) + Z.lor flags PAGE_PRESENT)
             else walk (vm_mem s) root (vpath va)) ∨
      (all_used (vm_pmm s') ∧ ∀ va, walk (vm_mem s') root (vpath va) = walk (vm_mem s) root (vpath va)))) ∧
  ∀ pd, tbl (vm_mem s) root [PML4_INDEX virt; PDPT_INDEX virt] = Some pd → let e := entry (vm_mem s) pd (PD_INDEX virt) in
    has e PAGE_PRESENT = true → has e PD_PS = true → table_of e ≠ 0 →
    vmm_map root virt phys flags s = Ret (tt, set_mem s (set_entry (vm_mem s) (table_of e) (PT_INDEX virt) (Z.lor (Z.lor (table_of phys) flags) PAGE_PRESENT))).
Proof. intros Ht Hf Hp Hphys. split; [intros Hn; by apply vmm_map_small|]. intros pd T e H1 _ H2. by apply vmm_map_large. Qed.

(** [vmm_unmap] refines the deletion of a page from the address space:
    afterwards the page of [virt] has no translation, every other address
    translates as before and the table tree is intact. *)
Theorem vmm_unmap_refines s root virt : tree s root → no_large (vm_mem s) root (vpath virt) →
  tree (vmm_unmap s root virt) root ∧
  ∀ va, walk (vm_mem (vmm_unmap s root virt)) root (vpath va) =
        if decide (page_of va = page_of virt) then None else walk (vm_mem s) root (vpath va).
Proof.
  intros Htree Hno. pose proof (index_range virt) as Hix.
  destruct (unmap_cases s root virt Hno) as [[-> Hn]|(pt & T & ->)].
  - split; [done|]. intros va. case_decide as Hv; [|done]. apply vpath_page in Hv. by rewrite Hv.
  - assert (table_path [PML4_INDEX virt; PDPT_INDEX virt; PD_INDEX virt]) as Hp3
      by (split; [repeat constructor; apply Hix|done]).
    split; [exact (leaf_write_tree s root Htree _ _ _ Hp3 (Hix _) T _ eq_refl)|].
    intros va. cbn [vm_mem set_mem].
    rewrite (leaf_write_walk s root Htree _ (PT_INDEX virt) pt Hp3 (Hix _) T) by (done || apply vpath_ok).
    change ([PML4_INDEX virt; PDPT_INDEX virt; PD_INDEX virt] ++ [PT_INDEX virt]) with (vpath virt).
    destruct (decide (vpath va = vpath virt)) as [Hv%vpath_page|Hv]; [by rewrite decide_True|].
    rewrite decide_False; [done|]. by rewrite <-vpath_page.
Qed.

(** A cloned address space translates like the one it was cloned from:
    [vmm_create_address_space] either fails without effect because no page is
    free, or returns a new root whose walks, and those of the current root,
    are the walks of the current root before the call. *)
Theorem vmm_create_address_space_same s : tree s (vm_cr3 s) →
  ∃ r s', vmm_create_address_space s = Ret (r, s') ∧
    ((r = 0 ∧ s' = s ∧ all_used (vm_pmm s)) ∨
     (r ≠ 0 ∧ tree s' (vm_cr3 s) ∧
      ∀ va, walk (vm_mem s') r (vpath va) = walk (vm_mem s) (vm_cr3 s) (vpath va) ∧
            walk (vm_mem s') (vm_cr3 s) (vpath va) = walk (vm_mem s) (vm_cr3 s) (vpath va))).
Proof.
  intros Htree. unfold vmm_create_address_space, pmm_alloc_page.
  destruct (alloc_page_from_spec (Z.to_nat (total_pages (vm_pmm s))) (vm_pmm s) 0)
    as (a & pm & -> & Hwf & [(k & Hk & -> & Hf & _ & Ht & _ & Hu)|(-> & -> & Hall)]);
    [apply Htree|done|pose proof (wf_total _ (tr_pmm _ _ Htree)); lia|lia| |]; ostep.
  2: { exists 0, s. split; [by destruct s|]. by left. }
  assert (0 < k) by (destruct (decide (k = 0)) as [->|]; [by rewrite (tr_null _ _ Htree) in Hf|lia]).
  rewrite (proj2 (Z.eqb_neq (k * PAGE_SIZE) 0)) by (unfold PAGE_SIZE; lia).
  eexists _, _. split; [done|]. right. split; [unfold PAGE_SIZE; lia|].
  assert (0 < k < total_pages (vm_pmm s)) as Hk' by lia.
  split; [exact (clone_tree s Htree k Hk' Hf pm Hwf Ht Hu)|]. exact (clone_walk s Htree k Hk' Hf).
Qed.

(** What the processor asks of a user access: the bits of [need] and of a
    present user entry at every level down to the leaf. *)
Definition bits_ok (e need : Z) : bool := (Z.land e 5 =? 5) && (Z.land e need =? need).
Fixpoint access (m : mem) (t : Z) (p : list Z) (need : Z) : bool :=
  match p with
  | [] => false
  | i :: p => let e := entry m t i in bits_ok e need && match p with [] => true | _ => if has e PD_PS then true else access m (table_of e) p need end
  end.
(** the entries above the leaf allow it *)
Fixpoint upper_open (m : mem) (t : Z) (p : list Z) (need : Z) : bool :=
  match p with
  | [] => true
  | i :: p => let e := entry m t i in
    if has e PAGE_PRESENT then match p with [] => true | _ => if has e PD_PS then true else bits_ok e need && upper_open m (table_of e) p need end else true
  end.
Lemma access_leaf m need : ∀ p t, access m t p need = upper_open m t p need && grants (walk m t p) need.
Proof.
  induction p as [|i p IH]; intros t; [done|]. cbn [access upper_open walk]. cbv zeta. set (e := entry m t i). destruct (has e PAGE_PRESENT) eqn:P.
  - destruct p as [|j p]; [by rewrite andb_true_r|]. destruct (has e PD_PS); [by rewrite andb_true_r|]. rewrite IH. by rewrite andb_assoc.
  - pose proof (absent_grants e need P) as Ha. cbn [grants] in Ha. unfold bits_ok. by rewrite Ha.
Qed.
Lemma range_loop_top ok fuel : ∀ a, 0 <= a < 2 ^ 52 → range_loop ok (a * PAGE_SIZE) (2 ^ 64 - PAGE_SIZE) fuel ≠ Ret true.
Proof.
  induction fuel as [|fuel IH]; intros a Ha; [done|]. cbn [range_loop]. rewrite (proj2 (Z.leb_le _ _)) by (unfold PAGE_SIZE; lia). destruct (ok _); [|done]. destruct (decide (a = 2 ^ 52 - 1)) as [->|].
  - change (u64 ((2 ^ 52 - 1) * PAGE_SIZE + PAGE_SIZE)) with (0 * PAGE_SIZE). apply IH. lia.
  - rewrite u64_small by (unfold PAGE_SIZE; lia). replace (a * PAGE_SIZE + PAGE_SIZE) with ((a + 1) * PAGE_SIZE) by lia. apply IH. lia.
Qed.
(** a range that reaches the topmost page is never accepted *)
Lemma range_check_top ok fuel addr len : 0 <= addr < 2 ^ 64 → 0 < len < 2 ^ 64 → 2 ^ 64 - PAGE_SIZE < addr + len → range_check fuel ok addr len ≠ Ret true.
Proof.
  intros Ha Hl He. unfold range_check. rewrite (proj2 (Z.eqb_neq len 0)) by lia. destruct (decide (2 ^ 64 <= addr + len)) as [Hw|Hw].
  { assert (u64 (addr + len) = addr + len - 2 ^ 64) as -> by (unfold u64; zdm). by rewrite (proj2 (Z.ltb_lt _ addr)) by lia. }
  rewrite (u64_small (addr + len)) by lia. rewrite (proj2 (Z.ltb_ge _ _)) by lia. cbv zeta. rewrite u64_small by lia.
  rewrite !(land_lnot_ones _ 12) by done. replace (2 ^ 12 * ((addr + len - 1) / 2 ^ 12)) with (2 ^ 64 - PAGE_SIZE) by (unfold PAGE_SIZE in *; zdm). change (2 ^ 12) with PAGE_SIZE. rewrite Z.mul_comm. apply range_loop_top. unfold PAGE_SIZE in *. zdm.
Qed.
(** C20. The user range checks, for tables without 1 GiB pages.  For a range
    that ends below the topmost page they return, with fuel for its pages, and
    accept exactly when the leaf entry of every byte is a present user entry, with
    the write bit for the writable check.  The processor asks for these bits at
    every level ([access]): whatever it would let a user access is accepted, and
    where the entries above the leaves are open to users, as granting a region
    leaves them, exactly that.  A range that reaches the topmost page or wraps
    around is never accepted (the loop over the topmost page starts again at 0
    and only a page that fails ends it). *)
Theorem vmm_user_range_correct s addr len : upper_links (vm_mem s) (vm_cr3 s) → 0 <= addr < 2 ^ 64 → 0 <= len < 2 ^ 64 →
  ∀ need check, (need, check) = (0, vmm_user_range_readable) ∨ (need, check) = (PAGE_WRITE, vmm_user_range_writable) →
  let leaf x := grants (walk (vm_mem s) (vm_cr3 s) (vpath x)) need = true in
  let user x := access (vm_mem s) (vm_cr3 s) (vpath x) need = true in
  (addr + len <= 2 ^ 64 - PAGE_SIZE → ∀ fuel, (Z.to_nat (len / PAGE_SIZE + 2) < fuel)%nat →
   ∃ r, check fuel s addr len = Ret r ∧ (r = true ↔ ∀ x, addr <= x < addr + len → leaf x) ∧
     ((∀ x, addr <= x < addr + len → user x) → r = true) ∧
     ((∀ x, addr <= x < addr + len → upper_open (vm_mem s) (vm_cr3 s) (vpath x) need = true) → r = true ↔ ∀ x, addr <= x < addr + len → user x)) ∧
  (0 < len → 2 ^ 64 - PAGE_SIZE < addr + len → ∀ fuel, check fuel s addr len ≠ Ret true).
Proof.
  intros Hup Ha Hl need check Hc leaf user. split.
  - intros Hs fuel Hf. set (ok := λ virt, vmm_page_has_flags s virt need). assert (check fuel s addr len = range_check fuel ok addr len) as -> by (by destruct Hc as [[= -> ->]|[= -> ->]]).
    destruct (range_check_spec ok fuel addr len) as (r & Er & Hr); [lia|lia|done..|].
    assert (∀ x, vpath (x / PAGE_SIZE * PAGE_SIZE) = vpath x) as Hp by (intros x; apply vpath_page; unfold page_of, PAGE_SIZE; by rewrite Z.div_mul).
    assert (r = true ↔ ∀ x, addr <= x < addr + len → leaf x) as Hleaf by (rewrite Hr; unfold ok, leaf; split; intros H x Hx; specialize (H x Hx); rewrite has_flags_walk, Hp in * by done; exact H).
    assert (∀ x, user x → leaf x) as Hul by (intros x; unfold user, leaf; rewrite access_leaf; intros [_ ?]%andb_true_iff; done). exists r. split; [done|]. split; [done|]. split; [rewrite Hleaf; auto|].
    intros Ho. rewrite Hleaf. split; intros H x Hx; [|by apply Hul, H]. unfold user. rewrite access_leaf, (Ho x Hx). by apply H.
  - intros H0 Ht fuel. destruct Hc as [[= -> ->]|[= -> ->]]; apply range_check_top; lia.
Qed.

(** [vmm_grant_user_2mb_region] on a mapped large page: afterwards the
    whole 2 MiB region of [virt] is user readable at every level of the walk,
    user writable exactly when asked, and the translation of every other
    region is unchanged. *)
Theorem vmm_grant_user_2mb_effect s virt uw pdpt pd : tree s (vm_cr3 s) →
  tbl (vm_mem s) (vm_cr3 s) [PML4_INDEX virt] = Some pdpt →
  tbl (vm_mem s) (vm_cr3 s) [PML4_INDEX virt; PDPT_INDEX virt] = Some pd →
  has (entry (vm_mem s) pd (PD_INDEX virt)) PAGE_PRESENT = true →
  has (entry (vm_mem s) pd (PD_INDEX virt)) PD_PS = true →
  let s' := vmm_grant_user_2mb_region s virt uw in
  has (entry (vm_mem s') (vm_cr3 s) (PML4_INDEX virt)) PAGE_USER = true ∧
  has (entry (vm_mem s') pdpt (PDPT_INDEX virt)) PAGE_USER = true ∧
  ∀ va, if decide (take 3 (vpath va) = take 3 (vpath virt))
        then ∃ e, walk (vm_mem s') (vm_cr3 s) (vpath va) = Some e ∧
                  grants (Some e) 0 = true ∧ grants (Some e) PAGE_WRITE = uw
        else walk (vm_mem s') (vm_cr3 s) (vpath va) = walk (vm_mem s) (vm_cr3 s) (vpath va).
Proof.
  intros Htree T3 T2 Hpres Hps s'. unfold s'. rewrite (grant_result s virt uw Htree pdpt pd) by done.
  cbn [vm_mem set_mem]. destruct (grant_entries s virt uw Htree pdpt pd T3 T2) as (G4 & G3 & _).
  rewrite G4, G3, !has_user, !Z.lor_spec. rewrite !orb_true_r. split; [done|]. split; [done|].
  intros va. case_decide as Hd; [|apply grant_walk_other; auto using vpath_ok].
  exists (granted uw (entry (vm_mem s) pd (PD_INDEX virt))). split.
  { apply grant_walk_same with (x := PT_INDEX va); try done. unfold vpath in *. simpl in Hd. by injection Hd as -> -> ->. }
  destruct (granted_bits uw (entry (vm_mem s) pd (PD_INDEX virt))) as (_ & B0 & _ & B2 & B1); [apply entry_range, Htree|].
  rewrite has_present in Hpres. rewrite Hpres in B0. rewrite <-B1 at 3. by apply grants_bits.
Qed.

(** ** Witnesses: the tables the boot code builds, with one 2 MiB page for the
    region at 0x400000, in a machine of 8 pages *)
Definition boot_tables (pde : Z) : mem :=
  set_entry (set_entry (set_entry (λ _, 0) 0x1000 0 0x2003) 0x2000 0 0x3003) 0x3000 2 pde.
Definition boot_vm (pde : Z) : vm := Vm (boot_tables pde) (Pmm [0x0F] 8 4 1) 0x1000.
Lemma boot_pmm_wf : pmm_wf (Pmm [0x0F] 8 4 1).
Proof. split; try done. repeat constructor; unfold is_byte; lia. Qed.
Section boot.
Context (pde : Z) (Hpde : 0 <= pde < 2 ^ 64).
Lemma boot_bytes : mem_bytes (boot_tables pde).
Proof. unfold boot_tables. apply mem_bytes_set, mem_bytes_set, mem_bytes_set. intros a. unfold is_byte. lia. Qed.
Lemma boot_entry t j : aligned t → index_ok j →
  entry (boot_tables pde) t j =
  if decide ((t, j) = (0x3000, 2)) then pde
  else if decide ((t, j) = (0x2000, 0)) then 0x3003
  else if decide ((t, j) = (0x1000, 0)) then 0x2003 else 0.
Proof.
  intros Ht Hj. unfold boot_tables.
  assert (∀ m a i e, aligned a → index_ok i → 0 <= e < 2 ^ 64 → entry (set_entry m a i e) t j =
    if decide ((t, j) = (a, i)) then e else entry m t j) as Hset.
  { intros m a i e Ha Hi He. case_decide as Hd; [simplify_eq; by apply entry_set_same|].
    apply entry_set_other; auto. destruct (decide (a = t)) as [->|]; [right; congruence|by left]. }
  rewrite !Hset by (done || (unfold index_ok; lia)). done.
Qed.
Context (Hleaf : is_link pde = false).
Lemma boot_tbl q t : table_path q → tbl (boot_tables pde) 0x1000 q = Some t →
  (q = [] ∧ t = 0x1000) ∨ (q = [0] ∧ t = 0x2000) ∨ (q = [0; 0] ∧ t = 0x3000).
Proof.
  intros [Hq _] E. destruct q as [|a q]; [simpl in E; simplify_eq; auto|]. apply Forall_cons in Hq as [Ha Hq].
  cbn [tbl] in E. rewrite boot_entry in E by done. repeat case_decide; simplify_eq; try done.
  change (table_of 8195) with 0x2000 in E. change (is_link 8195) with true in E. cbn iota in E.
  destruct q as [|b q]; [simpl in E; simplify_eq; auto|]. apply Forall_cons in Hq as [Hb Hq].
  cbn [tbl] in E. rewrite boot_entry in E by done. repeat case_decide; simplify_eq; try done.
  change (table_of 12291) with 0x3000 in E. change (is_link 12291) with true in E. cbn iota in E.
  destruct q as [|c q]; [simpl in E; simplify_eq; auto|]. apply Forall_cons in Hq as [Hc Hq].
  cbn [tbl] in E. rewrite boot_entry in E by done. repeat case_decide; simplify_eq; try done.
  by rewrite Hleaf in E.
Qed.
Lemma boot_tree : tree (boot_vm pde) 0x1000.
Proof.
  split; simpl; [apply boot_pmm_wf|done|apply boot_bytes| |].
  - intros q t Hq E. destruct (boot_tbl q t Hq E) as [[_ ->]|[[_ ->]|[_ ->]]]; (split_and!; [lia|done|done|done]).
  - intros q q' t Hq Hq' E E'. apply boot_tbl in E, E'; try done. naive_solver.
Qed.
Lemma boot_upper : upper_links (boot_tables pde) 0x1000.
Proof.
  intros q j t Hq Hl Hj E. assert (table_path q) as Hqp by (split; [done|lia]).
  destruct (boot_tbl q t Hqp E) as [[_ ->]|[[_ ->]|[-> _]]]; [| |simpl in Hl; lia];
    rewrite boot_entry by done; repeat case_decide; by simplify_eq.
Qed.
Lemma boot_no_large : no_large (boot_tables pde) 0x1000 (vpath 0x40000000).
Proof.
  intros q j r t Hw Hr E. destruct (path4_prefix (vpath 0x40000000) q j r) as [Hq Hj]; [apply vpath_ok|reflexivity|assumption|].
  destruct (boot_tbl q t Hq E) as [[-> ->]|[[-> ->]|[-> ->]]].
  - apply (boot_upper [] j 0x1000); [done|simpl; lia|assumption|reflexivity].
  - apply (boot_upper [0] j 0x2000); [apply Hq|simpl; lia|assumption|assumption].
  - apply (f_equal (λ l, nth 1 l 0)) in Hw. change (1 = 0) in Hw. lia.
Qed.
End boot.

Lemma vmm_map_refines_witness :
  ∃ s', vmm_map 0x1000 0x40000000 0x5000 7 (boot_vm 0x83) = Ret (tt, s') ∧ tree s' 0x1000.
Proof.
  destruct (vmm_map_refines (boot_vm 0x83) 0x1000 0x40000000 0x5000 7) as [H _]; [by apply boot_tree|unfold PAGE_SIZE; lia|reflexivity|lia|].
  destruct H as (s' & E & Ht & _); [by apply boot_no_large|]. exists s'. split; [exact E|exact Ht].
Defined.
Lemma vmm_unmap_refines_witness : tree (vmm_unmap (boot_vm 0x0) 0x1000 0x40000000) 0x1000.
Proof.
  destruct (vmm_unmap_refines (boot_vm 0) 0x1000 0x40000000) as [Ht _]; [by apply boot_tree|by apply boot_no_large|exact Ht].
Defined.
Lemma vmm_create_address_space_same_witness :
  ∃ r s', vmm_create_address_space (boot_vm 0x83) = Ret (r, s').
Proof.
  destruct (vmm_create_address_space_same (boot_vm 0x83)) as (r & s' & E & _); [by apply boot_tree|].
  exists r, s'. exact E.
Defined.
Lemma vmm_user_range_correct_witness :
  ∃ r, vmm_user_range_writable 4 (boot_vm 0x87) 0x400ff0 0x20 = Ret r ∧
    (r = true ↔ ∀ x, 0x400ff0 <= x < 0x400ff0 + 0x20 → grants (walk (boot_tables 0x87) 0x1000 (vpath x)) PAGE_WRITE = true).
Proof.
  destruct (vmm_user_range_correct (boot_vm 0x87) 0x400ff0 0x20) with (need := PAGE_WRITE) (check := vmm_user_range_writable) as [H _];
    [by apply boot_upper|lia|lia|by right|]. destruct (H ltac:(unfold PAGE_SIZE; lia) 4%nat ltac:(vm_compute; lia)) as (r & E & Hr & _). exists r. split; [exact E|exact Hr].
Defined.
(** The checks look at the leaf entry only: with the upper entries of the boot
    tables, which have no user bit, they accept a page that the processor
    refuses. *)
Lemma range_check_leaf_only : vmm_user_range_readable 4 (boot_vm 0x87) 0x400000 16 = Ret true ∧ access (boot_tables 0x87) 0x1000 (vpath 0x400000) 0 = false.
Proof. split; vm_compute; reflexivity. Qed.
(** With the no-execute flag a new table is entered, but the pointer to it
    keeps bit 63 and is not its address. *)
Lemma next_level_nx : match get_next_level 0x1000 5 (PAGE_NX + 3) (boot_vm 0x83) with Ret (t, s') => t = 0x4000 + 2 ^ 63 ∧ entry (vm_mem s') 0x1000 5 = 0x4003 + 2 ^ 63 | _ => False end.
Proof. vm_compute. split; reflexivity. Qed.
Lemma vmm_grant_user_2mb_effect_witness :
  has (entry (vm_mem (vmm_grant_user_2mb_region (boot_vm 0x83) 0x400000 true)) 0x1000 0) PAGE_USER = true.
Proof.
  destruct (vmm_grant_user_2mb_effect (boot_vm 0x83) 0x400000 true 0x2000 0x3000) as [H _];
    [by apply boot_tree|reflexivity|reflexivity|reflexivity|reflexivity|exact H].
Defined.
End Vmm.
