(* ===== verification/Process.v ===== *)
(** Task table and round-robin scheduler (kernel/process.c, kernel/process.h,
    kernel/sched.c).  The static [sched] and the globals of process.c are the
    record [kst]; a [proc_t *] is the index of its slot in [tasks], and NULL
    is [None].  [kwf] is the invariant of the table: 16 slots, every pointer
    names a slot, a slot in use has its index as pid, and only the current
    slot can be RUNNING.  Theorems: every operation keeps it; [schedule]
    picks the next READY slot in cyclic order and a READY task runs within 16
    ticks; exit and reap hand the child's status to the parent. *)
From stdpp Require Import base numbers list option strings.
From S2P Require Import Prelude Memory Pmm Vmm.
Open Scope Z_scope.

Module Process.
Import Pmm.Pmm Vmm.Vmm.
Definition MAX_TASKS : nat := 16.
Definition MAX_MSG_PAYLOAD : nat := 48.

Record message_t := Msg { sender : Z; mtype : Z; payload : list Z }.

Inductive proc_state_t :=
| PROC_STATE_FREE
| PROC_STATE_READY
| PROC_STATE_RUNNING
| PROC_STATE_BLOCKED
| PROC_STATE_SENDING
| PROC_STATE_RECEIVING
| PROC_STATE_SLEEPING
| PROC_STATE_EXITED
| PROC_STATE_WAITING_REPLY
| PROC_STATE_USER_SLOT.
#[export] Instance proc_state_eq_dec : EqDecision proc_state_t.
Proof. solve_decision. Defined.

Record proc_t := Proc {
  pid : Z;
  ppid : Z;
  state : proc_state_t;
  rsp : Z;
  stack_base : Z;
  pml4_phys : Z;
  exit_code : Z;
  exited : Z;
  wait_target : Z;
  wait_result_pid : Z;
  wait_result_status : Z;
  user_entry : Z;
  user_stack_top : Z;
  vm_flags : Z;
  open_files : Z;
  msg_buffer : message_t;
  next_in_queue : option nat;
  sender_queue : option nat;
  msg_pending : Z
}.
Definition set_pid (v : Z) (p : proc_t) : proc_t :=
  Proc v (ppid p) (state p) (rsp p) (stack_base p) (pml4_phys p) (exit_code p) (exited p) (wait_target p) (wait_result_pid p) (wait_result_status p) (user_entry p) (user_stack_top p) (vm_flags p) (open_files p) (msg_buffer p) (next_in_queue p) (sender_queue p) (msg_pending p).
Definition set_ppid (v : Z) (p : proc_t) : proc_t :=
  Proc (pid p) v (state p) (rsp p) (stack_base p) (pml4_phys p) (exit_code p) (exited p) (wait_target p) (wait_result_pid p) (wait_result_status p) (user_entry p) (user_stack_top p) (vm_flags p) (open_files p) (msg_buffer p) (next_in_queue p) (sender_queue p) (msg_pending p).
Definition set_state (v : proc_state_t) (p : proc_t) : proc_t :=
  Proc (pid p) (ppid p) v (rsp p) (stack_base p) (pml4_phys p) (exit_code p) (exited p) (wait_target p) (wait_result_pid p) (wait_result_status p) (user_entry p) (user_stack_top p) (vm_flags p) (open_files p) (msg_buffer p) (next_in_queue p) (sender_queue p) (msg_pending p).
Definition set_rsp (v : Z) (p : proc_t) : proc_t :=
  Proc (pid p) (ppid p) (state p) v (stack_base p) (pml4_phys p) (exit_code p) (exited p) (wait_target p) (wait_result_pid p) (wait_result_status p) (user_entry p) (user_stack_top p) (vm_flags p) (open_files p) (msg_buffer p) (next_in_queue p) (sender_queue p) (msg_pending p).
Definition set_stack_base (v : Z) (p : proc_t) : proc_t :=
  Proc (pid p) (ppid p) (state p) (rsp p) v (pml4_phys p) (exit_code p) (exited p) (wait_target p) (wait_result_pid p) (wait_result_status p) (user_entry p) (user_stack_top p) (vm_flags p) (open_files p) (msg_buffer p) (next_in_queue p) (sender_queue p) (msg_pending p).
Definition set_pml4_phys (v : Z) (p : proc_t) : proc_t :=
  Proc (pid p) (ppid p) (state p) (rsp p) (stack_base p) v (exit_code p) (exited p) (wait_target p) (wait_result_pid p) (wait_result_status p) (user_entry p) (user_stack_top p) (vm_flags p) (open_files p) (msg_buffer p) (next_in_queue p) (sender_queue p) (msg_pending p).
Definition set_exit_code (v : Z) (p : proc_t) : proc_t :=
  Proc (pid p) (ppid p) (state p) (rsp p) (stack_base p) (pml4_phys p) v (exited p) (wait_target p) (wait_result_pid p) (wait_result_status p) (user_entry p) (user_stack_top p) (vm_flags p) (open_files p) (msg_buffer p) (next_in_queue p) (sender_queue p) (msg_pending p).
Definition set_exited (v : Z) (p : proc_t) : proc_t :=
  Proc (pid p) (ppid p) (state p) (rsp p) (stack_base p) (pml4_phys p) (exit_code p) v (wait_target p) (wait_result_pid p) (wait_result_status p) (user_entry p) (user_stack_top p) (vm_flags p) (open_files p) (msg_buffer p) (next_in_queue p) (sender_queue p) (msg_pending p).
Definition set_wait_target (v : Z) (p : proc_t) : proc_t :=
  Proc (pid p) (ppid p) (state p) (rsp p) (stack_base p) (pml4_phys p) (exit_code p) (exited p) v (wait_result_pid p) (wait_result_status p) (user_entry p) (user_stack_top p) (vm_flags p) (open_files p) (msg_buffer p) (next_in_queue p) (sender_queue p) (msg_pending p).
Definition set_wait_result_pid (v : Z) (p : proc_t) : proc_t :=
  Proc (pid p) (ppid p) (state p) (rsp p) (stack_base p) (pml4_phys p) (exit_code p) (exited p) (wait_target p) v (wait_result_status p) (user_entry p) (user_stack_top p) (vm_flags p) (open_files p) (msg_buffer p) (next_in_queue p) (sender_queue p) (msg_pending p).
Definition set_wait_result_status (v : Z) (p : proc_t) : proc_t :=
  Proc (pid p) (ppid p) (state p) (rsp p) (stack_base p) (pml4_phys p) (exit_code p) (exited p) (wait_target p) (wait_result_pid p) v (user_entry p) (user_stack_top p) (vm_flags p) (open_files p) (msg_buffer p) (next_in_queue p) (sender_queue p) (msg_pending p).
Definition set_user_entry (v : Z) (p : proc_t) : proc_t :=
  Proc (pid p) (ppid p) (state p) (rsp p) (stack_base p) (pml4_phys p) (exit_code p) (exited p) (wait_target p) (wait_result_pid p) (wait_result_status p) v (user_stack_top p) (vm_flags p) (open_files p) (msg_buffer p) (next_in_queue p) (sender_queue p) (msg_pending p).
Definition set_user_stack_top (v : Z) (p : proc_t) : proc_t :=
  Proc (pid p) (ppid p) (state p) (rsp p) (stack_base p) (pml4_phys p) (exit_code p) (exited p) (wait_target p) (wait_result_pid p) (wait_result_status p) (user_entry p) v (vm_flags p) (open_files p) (msg_buffer p) (next_in_queue p) (sender_queue p) (msg_pending p).
Definition set_vm_flags (v : Z) (p : proc_t) : proc_t :=
  Proc (pid p) (ppid p) (state p) (rsp p) (stack_base p) (pml4_phys p) (exit_code p) (exited p) (wait_target p) (wait_result_pid p) (wait_result_status p) (user_entry p) (user_stack_top p) v (open_files p) (msg_buffer p) (next_in_queue p) (sender_queue p) (msg_pending p).
Definition set_open_files (v : Z) (p : proc_t) : proc_t :=
  Proc (pid p) (ppid p) (state p) (rsp p) (stack_base p) (pml4_phys p) (exit_code p) (exited p) (wait_target p) (wait_result_pid p) (wait_result_status p) (user_entry p) (user_stack_top p) (vm_flags p) v (msg_buffer p) (next_in_queue p) (sender_queue p) (msg_pending p).
Definition set_msg_buffer (v : message_t) (p : proc_t) : proc_t :=
  Proc (pid p) (ppid p) (state p) (rsp p) (stack_base p) (pml4_phys p) (exit_code p) (exited p) (wait_target p) (wait_result_pid p) (wait_result_status p) (user_entry p) (user_stack_top p) (vm_flags p) (open_files p) v (next_in_queue p) (sender_queue p) (msg_pending p).
Definition set_next_in_queue (v : option nat) (p : proc_t) : proc_t :=
  Proc (pid p) (ppid p) (state p) (rsp p) (stack_base p) (pml4_phys p) (exit_code p) (exited p) (wait_target p) (wait_result_pid p) (wait_result_status p) (user_entry p) (user_stack_top p) (vm_flags p) (open_files p) (msg_buffer p) v (sender_queue p) (msg_pending p).
Definition set_sender_queue (v : option nat) (p : proc_t) : proc_t :=
  Proc (pid p) (ppid p) (state p) (rsp p) (stack_base p) (pml4_phys p) (exit_code p) (exited p) (wait_target p) (wait_result_pid p) (wait_result_status p) (user_entry p) (user_stack_top p) (vm_flags p) (open_files p) (msg_buffer p) (next_in_queue p) v (msg_pending p).
Definition set_msg_pending (v : Z) (p : proc_t) : proc_t :=
  Proc (pid p) (ppid p) (state p) (rsp p) (stack_base p) (pml4_phys p) (exit_code p) (exited p) (wait_target p) (wait_result_pid p) (wait_result_status p) (user_entry p) (user_stack_top p) (vm_flags p) (open_files p) (msg_buffer p) (next_in_queue p) (sender_queue p) v.

(** the zero-initialised static storage *)
Definition proc_zero : proc_t :=
  Proc 0 0 PROC_STATE_FREE 0 0 0 0 0 0 0 0 0 0 0 0 (Msg 0 0 (replicate MAX_MSG_PAYLOAD 0)) None None 0.
#[export] Instance proc_inhabited : Inhabited proc_t := populate proc_zero.

Record kst := Kst {
  k_vm : vm;
  tasks : list proc_t;
  current_task_idx : nat;
  task_count : Z;
  active_user_pid : Z;
  ctx_switches : Z
}.
Definition set_vm (s : kst) (v : vm) : kst :=
  Kst v (tasks s) (current_task_idx s) (task_count s) (active_user_pid s) (ctx_switches s).
Definition set_tasks (s : kst) (l : list proc_t) : kst :=
  Kst (k_vm s) l (current_task_idx s) (task_count s) (active_user_pid s) (ctx_switches s).
Definition set_current (s : kst) (i : nat) : kst :=
  Kst (k_vm s) (tasks s) i (task_count s) (active_user_pid s) (ctx_switches s).
Definition set_task_count (s : kst) (n : Z) : kst :=
  Kst (k_vm s) (tasks s) (current_task_idx s) n (active_user_pid s) (ctx_switches s).
Definition set_active (s : kst) (a : Z) : kst :=
  Kst (k_vm s) (tasks s) (current_task_idx s) (task_count s) a (ctx_switches s).
Definition set_switches (s : kst) (n : Z) : kst :=
  Kst (k_vm s) (tasks s) (current_task_idx s) (task_count s) (active_user_pid s) n.
(** the record a pointer points to, and an assignment through it *)
Definition task (s : kst) (i : nat) : proc_t := tasks s !!! i.
Definition upd (s : kst) (i : nat) (f : proc_t → proc_t) : kst :=
  set_tasks s (<[i := f (task s i)]> (tasks s)).

Definition process_clear_runtime (p : proc_t) : proc_t :=
  set_msg_pending 0 (set_next_in_queue None (set_sender_queue None (set_open_files 0
    (set_vm_flags 0 (set_user_stack_top 0 (set_user_entry 0 (set_wait_result_status 0
      (set_wait_result_pid 0 (set_wait_target 0 (set_exited 0 (set_exit_code 0 (set_ppid 0 p)))))))))))).

(** [for (i = 0; i < MAX_TASKS; i++) if (f(tasks[i])) return &tasks[i];] *)
Fixpoint find_task (f : proc_t → bool) (l : list proc_t) (i : nat) : option nat :=
  match l with
  | [] => None
  | p :: l => if f p then Some i else find_task f l (S i)
  end.
Definition is_state (st : proc_state_t) (p : proc_t) : bool := bool_decide (state p = st).

Definition process_sched_ready_count (s : kst) : Z :=
  Z.of_nat (length (filter (λ p, state p = PROC_STATE_READY) (tasks s))).
Definition get_current_process (s : kst) : nat := current_task_idx s.

Definition process_init (s : kst) : kst :=
  let s := set_tasks s ((λ p, process_clear_runtime (set_state PROC_STATE_FREE p)) <$> tasks s) in
  let s := upd s 0 (λ p, process_clear_runtime
             (set_pml4_phys (vmm_get_current_pml4 (k_vm s)) (set_state PROC_STATE_RUNNING (set_pid 0 p)))) in
  set_task_count (set_current s 0) 1.

Definition process_find_by_pid (s : kst) (n : Z) : option nat :=
  find_task (λ p, negb (is_state PROC_STATE_FREE p) && (pid p =? n)) (tasks s) 0.

(** [*(--stack_top) = v] *)
Definition push (mp : mem * Z) (v : Z) : mem * Z :=
  let stack_top := snd mp - 8 in (st64 (fst mp) stack_top v, stack_top).
Definition init_kernel_stack (s : kst) (i : nat) (entry : Z) : outcome kst :=
  '(page, pm) ← pmm_alloc_page (vm_pmm (k_vm s));
  let v := set_pmm (k_vm s) pm in
  let s := upd s i (set_stack_base page) in
  let f := push (vm_mem v, page + 4096) 0x10 in
  let rsp_ptr := snd f in
  let f := foldl push f [rsp_ptr; 0x202; 0x08; entry; 0; 0] in
  let f := foldl push f (replicate 15 0) in
  let v := set_mem v (fst f) in
  Ret (upd (set_vm s v) i (λ p, set_pml4_phys (vmm_get_current_pml4 v) (set_rsp (snd f) p))).

Definition grow_task_count (s : kst) (n : Z) : kst :=
  if task_count s <? n then set_task_count s n else s.

Definition process_alloc_user (s : kst) (parent : Z) : option nat * kst :=
  match find_task (is_state PROC_STATE_FREE) (tasks s) 0 with
  | Some i =>
    let s := upd s i (λ p, set_ppid parent (set_pid (Z.of_nat i) (process_clear_runtime
               (set_pml4_phys (vmm_get_current_pml4 (k_vm s)) (set_state PROC_STATE_READY
                  (set_ppid parent (set_pid (Z.of_nat i) p))))))) in
    (Some i, grow_task_count s (Z.of_nat i + 1))
  | None => (None, s)
  end.

Definition process_create (s : kst) (entry : Z) : outcome (option nat * kst) :=
  match find_task (is_state PROC_STATE_FREE) (tasks s) 0 with
  | Some i =>
    let s := upd s i (λ p, set_pid (Z.of_nat i) (process_clear_runtime
               (set_state PROC_STATE_READY (set_ppid 0 (set_pid (Z.of_nat i) p))))) in
    s ← init_kernel_stack s i entry;
    Ret (Some i, set_task_count s (i32 (task_count s + 1)))
  | None => Ret (None, s)
  end.

(** [(int)pid], and the range test on it *)
Definition slot_of (n : Z) : option nat :=
  let idx := i32 n in
  if (idx <=? 0) || (Z.of_nat MAX_TASKS <=? idx) then None else Some (Z.to_nat idx).

Definition process_spawn_kernel_at_pid (s : kst) (n entry : Z) : outcome (option nat * kst) :=
  match slot_of n with
  | Some idx =>
    if entry =? 0 then Ret (None, s)
    else if negb (is_state PROC_STATE_FREE (task s idx)) then Ret (None, s)
    else
      let s := upd s idx (λ p, set_pid n (process_clear_runtime
                 (set_state PROC_STATE_READY (set_ppid 0 (set_pid n p))))) in
      s ← init_kernel_stack s idx entry;
      Ret (Some idx, grow_task_count s (Z.of_nat idx + 1))
  | None => Ret (None, s)
  end.

Definition process_bind_user_slot_ex (s : kst) (n parent : Z) : kst :=
  match slot_of n with
  | Some idx =>
    if negb (is_state PROC_STATE_FREE (task s idx)) && negb (pid (task s idx) =? n) then s
    else
      let cr3 := vmm_get_current_pml4 (k_vm s) in
      let s := upd s idx (λ p, set_rsp 0 (set_stack_base 0 (set_pml4_phys cr3
                 (set_state PROC_STATE_USER_SLOT (set_ppid parent (set_pid n p)))))) in
      let s := upd s idx (λ p, set_pml4_phys cr3 (set_state PROC_STATE_USER_SLOT
                 (set_ppid parent (set_pid n (process_clear_runtime p))))) in
      grow_task_count s (Z.of_nat idx + 1)
  | None => s
  end.
Definition process_bind_user_slot (s : kst) (n : Z) : kst := process_bind_user_slot_ex s n 0.

Definition process_mark_exit (s : kst) (p : option nat) (status : Z) : kst :=
  match p with
  | None => s
  | Some i =>
    let s := upd s i (λ p, set_state PROC_STATE_EXITED (set_exited 1 (set_exit_code status p))) in
    let me := pid (task s i) in
    let s := if me =? active_user_pid s then set_active s 0 else s in
    match process_find_by_pid s (ppid (task s i)) with
    | Some j =>
      if is_state PROC_STATE_BLOCKED (task s j) &&
         ((wait_target (task s j) =? 0) || (wait_target (task s j) =? me))
      then upd s j (λ q, set_state PROC_STATE_READY (set_wait_result_status status (set_wait_result_pid me q)))
      else s
    | None => s
    end
  end.

(** the child's pid and status, [None] for -1 *)
Definition reapable (parent_pid target_pid : Z) (p : proc_t) : bool :=
  negb (is_state PROC_STATE_FREE p) && (ppid p =? parent_pid) &&
  negb (negb (target_pid =? 0) && negb (pid p =? target_pid)) && negb (exited p =? 0).
Definition process_reap_child (s : kst) (parent : option nat) (target_pid : Z) :
    outcome (option (Z * Z) * kst) :=
  match parent with
  | None => Ret (None, s)
  | Some par =>
    match find_task (reapable (pid (task s par)) target_pid) (tasks s) 0 with
    | Some i =>
      let p := task s i in
      s ← (if negb (stack_base p =? 0)
           then pm ← pmm_free_page (vm_pmm (k_vm s)) (stack_base p); Ret (set_vm s (set_pmm (k_vm s) pm))
           else Ret s);
      Ret (Some (pid p, exit_code p), upd s i (λ p, process_clear_runtime (set_state PROC_STATE_FREE p)))
    | None => Ret (None, s)
    end
  end.

Definition process_current_task_for_ipc (s : kst) : nat :=
  match process_find_by_pid s (active_user_pid s) with
  | Some u =>
    if negb (active_user_pid s =? 0) &&
       (is_state PROC_STATE_USER_SLOT (task s u) || is_state PROC_STATE_WAITING_REPLY (task s u) ||
        is_state PROC_STATE_SENDING (task s u))
    then u else get_current_process s
  | None => get_current_process s
  end.

Definition wake_state (s : kst) (p : proc_t) : proc_state_t :=
  if (pid p =? active_user_pid s) && negb (active_user_pid s =? 0)
  then PROC_STATE_USER_SLOT else PROC_STATE_READY.
Definition process_ipc_wake_from_receive (s : kst) (i : nat) : kst :=
  if negb (is_state PROC_STATE_RECEIVING (task s i)) then s
  else upd s i (set_state (wake_state s (task s i))).
Definition process_ipc_wake_after_reply (s : kst) (i : nat) : kst :=
  if negb (is_state PROC_STATE_WAITING_REPLY (task s i)) then s
  else upd s i (set_state (wake_state s (task s i))).

(** [while (tasks[next_idx].state != READY && next_idx != old_idx)] *)
Fixpoint sched_scan (s : kst) (old next : nat) (fuel : nat) : outcome nat :=
  if negb (is_state PROC_STATE_READY (task s next)) && negb (next =? old)%nat
  then match fuel with
       | O => Loop
       | S fuel => sched_scan s old ((next + 1) mod MAX_TASKS)%nat fuel
       end
  else Ret next.
Definition schedule (s : kst) : outcome kst :=
  let old := current_task_idx s in
  next ← sched_scan s old ((old + 1) mod MAX_TASKS)%nat MAX_TASKS;
  if is_state PROC_STATE_READY (task s next)
  then
    let s := if is_state PROC_STATE_RUNNING (task s old) then upd s old (set_state PROC_STATE_READY) else s in
    let s := upd s next (set_state PROC_STATE_RUNNING) in
    let s := set_current s next in
    Ret (set_switches s (u64 (ctx_switches s + 1)))
  else Ret s.

(** sched.c *)
Definition sched_init (s : kst) : kst := set_switches s 0.
Definition sched_on_timer_tick (s : kst) : outcome kst := schedule s.
Definition sched_yield (s : kst) : outcome kst := schedule s.
Definition sched_context_switches (s : kst) : Z := ctx_switches s.
Definition sched_ready_kernel_threads (s : kst) : Z := process_sched_ready_count s.
Definition sched_state_name (st : proc_state_t) : list Z :=
  match st with
  | PROC_STATE_FREE => str "free"
  | PROC_STATE_READY => str "ready"
  | PROC_STATE_RUNNING => str "run"
  | PROC_STATE_BLOCKED => str "blocked"
  | PROC_STATE_SENDING => str "sending"
  | PROC_STATE_RECEIVING => str "rcv"
  | PROC_STATE_SLEEPING => str "sleep"
  | PROC_STATE_EXITED => str "exit"
  | PROC_STATE_WAITING_REPLY => str "waitreply"
  | PROC_STATE_USER_SLOT => str "user"
  end.
Definition sched_pid_role (n : Z) : list Z :=
  if n =? 0 then str "idle" else if n =? 2 then str "ring3" else if n =? 3 then str "ipc-fs" else str "kthread".

(** ** The table and its invariant *)
Record kwf (s : kst) : Prop := {
  kw_pmm : pmm_wf (vm_pmm (k_vm s));
  kw_len : length (tasks s) = MAX_TASKS;
  kw_cur : (current_task_idx s < MAX_TASKS)%nat;
  kw_pid : ∀ i, (i < MAX_TASKS)%nat → state (task s i) ≠ PROC_STATE_FREE → pid (task s i) = Z.of_nat i;
  kw_run : ∀ i, (i < MAX_TASKS)%nat → state (task s i) = PROC_STATE_RUNNING → i = current_task_idx s;
  kw_ptr : ∀ i j, (i < MAX_TASKS)%nat →
    next_in_queue (task s i) = Some j ∨ sender_queue (task s i) = Some j → (j < MAX_TASKS)%nat;
  kw_stack : ∀ i, (i < MAX_TASKS)%nat → 0 <= stack_base (task s i);
  kw_payload : ∀ i, (i < MAX_TASKS)%nat → length (payload (msg_buffer (task s i))) = MAX_MSG_PAYLOAD
}.
(** what a new value of slot [i] must satisfy *)
Record slot_ok (s : kst) (i : nat) (p : proc_t) : Prop := {
  so_pid : state p ≠ PROC_STATE_FREE → pid p = Z.of_nat i;
  so_run : state p = PROC_STATE_RUNNING → i = current_task_idx s;
  so_next : ∀ j, next_in_queue p = Some j → (j < MAX_TASKS)%nat;
  so_queue : ∀ j, sender_queue p = Some j → (j < MAX_TASKS)%nat;
  so_stack : 0 <= stack_base p;
  so_payload : length (payload (msg_buffer p)) = MAX_MSG_PAYLOAD
}.

Section table.
Implicit Types (s : kst) (i j : nat) (p : proc_t).
Lemma task_upd_same s i f : (i < length (tasks s))%nat → task (upd s i f) i = f (task s i).
Proof. intros. unfold task, upd. simpl. by apply list_lookup_total_insert_eq. Qed.
Lemma task_upd_other s i j f : i ≠ j → task (upd s i f) j = task s j.
Proof. intros. unfold task, upd. simpl. by apply list_lookup_total_insert_ne. Qed.
Lemma task_upd s i j f : (i < length (tasks s))%nat →
  task (upd s i f) j = if decide (i = j) then f (task s i) else task s j.
Proof. intros. case_decide as Hd; [subst; by apply task_upd_same|by apply task_upd_other]. Qed.
Lemma length_upd s i f : length (tasks (upd s i f)) = length (tasks s).
Proof. apply length_insert. Qed.
Lemma is_state_true st p : is_state st p = true ↔ state p = st.
Proof. apply bool_decide_eq_true. Qed.
Lemma is_state_false st p : is_state st p = false ↔ state p ≠ st.
Proof. apply bool_decide_eq_false. Qed.
Lemma find_task_Some f l : ∀ i k, find_task f l i = Some k ↔
  (i <= k)%nat ∧ (∃ p, l !! (k - i)%nat = Some p ∧ f p = true) ∧
  ∀ j p, (j < k - i)%nat → l !! j = Some p → f p = false.
Proof.
  induction l as [|p l IH]; intros i k; cbn [find_task]; [naive_solver|].
  destruct (f p) eqn:E.
  - split.
    + intros [= ->]. rewrite Nat.sub_diag. split; [lia|]. split; [by exists p|]. intros; lia.
    + intros (Hle & (q & Hq & Hf) & Hlow). destruct (decide (k = i)) as [->|]; [done|].
      specialize (Hlow 0%nat p ltac:(lia) eq_refl). congruence.
  - rewrite IH. split.
    + intros (Hle & (q & Hq & Hf) & Hlow). split; [lia|].
      replace (k - i)%nat with (S (k - S i)) by lia. split; [by exists q|].
      intros [|j] q' Hj Hq'; simpl in *; [congruence|]. apply (Hlow j); [lia|done].
    + intros (Hle & (q & Hq & Hf) & Hlow). destruct (decide (k = i)) as [->|].
      { rewrite Nat.sub_diag in Hq. simpl in Hq. congruence. }
      replace (k - i)%nat with (S (k - S i)) in * by lia. split; [lia|]. split; [by exists q|].
      intros j q' Hj Hq'. apply (Hlow (S j)); [lia|done].
Qed.
Lemma find_task_None f l : ∀ i, find_task f l i = None ↔ ∀ j p, l !! j = Some p → f p = false.
Proof.
  induction l as [|p l IH]; intros i; cbn [find_task]; [naive_solver|]. destruct (f p) eqn:E.
  - split; [done|]. intros H. by rewrite (H 0%nat p) in E.
  - rewrite IH. split; [|intros H j; apply (H (S j))]. intros H [|j] q Hq; simpl in *; [congruence|eauto].
Qed.
Lemma task_lookup s i p : tasks s !! i = Some p → task s i = p.
Proof. apply list_lookup_total_correct. Qed.
Lemma lookup_task s i : (i < length (tasks s))%nat → tasks s !! i = Some (task s i).
Proof. intros. unfold task. apply list_lookup_lookup_total_lt. done. Qed.
(** the first slot of the table that satisfies [f] *)
Lemma find_slot s f k : find_task f (tasks s) 0 = Some k ↔
  (k < length (tasks s))%nat ∧ f (task s k) = true ∧ ∀ j, (j < k)%nat → f (task s j) = false.
Proof.
  rewrite find_task_Some, Nat.sub_0_r. split.
  - intros (_ & (p & Hp & Hf) & Hlow). pose proof (lookup_lt_Some _ _ _ Hp).
    rewrite (task_lookup s k p) by done. split; [done|]. split; [done|].
    intros j Hj. apply (Hlow j); [done|]. apply lookup_task. lia.
  - intros (Hk & Hf & Hlow). split; [lia|]. split; [exists (task s k); auto using lookup_task|].
    intros j p Hj Hp. rewrite <-(task_lookup _ _ _ Hp). auto.
Qed.
Lemma find_slot_None s f : find_task f (tasks s) 0 = None ↔
  ∀ j, (j < length (tasks s))%nat → f (task s j) = false.
Proof.
  rewrite find_task_None. split; intros H j.
  - intros Hj. apply (H j). by apply lookup_task.
  - intros p Hp. rewrite <-(task_lookup _ _ _ Hp). apply H. by eapply lookup_lt_Some.
Qed.
Lemma kwf_slot s i : kwf s → (i < MAX_TASKS)%nat → slot_ok s i (task s i).
Proof. intros [? ? ? H1 H2 H3 H4 H5] Hi. split; eauto. Qed.
Lemma kwf_upd s i f : kwf s → (i < MAX_TASKS)%nat → slot_ok s i (f (task s i)) → kwf (upd s i f).
Proof.
  intros Hs Hi [Hp Hr Hn Hq Hst Hpl]. pose proof Hs as [? Hl ? H1 H2 H3 H4 H5].
  split; simpl; try done; [by rewrite length_insert|..];
    intros j; fold (upd s i f); rewrite task_upd by lia; case_decide; subst; auto.
  - intros ? ? [?|?]; eauto.
  - eauto.
Qed.
(** pids are slot numbers *)
Lemma find_by_pid_Some s n k : kwf s → process_find_by_pid s n = Some k ↔
  (k < MAX_TASKS)%nat ∧ n = Z.of_nat k ∧ state (task s k) ≠ PROC_STATE_FREE.
Proof.
  intros Hs. unfold process_find_by_pid. rewrite find_slot, (kw_len _ Hs). split.
  - intros (Hk & Hf & _). apply andb_true_iff in Hf as [Hf Hn]. apply negb_true_iff, is_state_false in Hf.
    breflect. rewrite (kw_pid _ Hs) in Hn by done. auto.
  - intros (Hk & -> & Hf). split; [done|]. split.
    + apply andb_true_iff. split; [by apply negb_true_iff, is_state_false|]. rewrite (kw_pid _ Hs) by done. lia.
    + intros j Hj. apply andb_false_iff. destruct (decide (state (task s j) = PROC_STATE_FREE)).
      * left. by apply negb_false_iff, is_state_true.
      * right. rewrite (kw_pid _ Hs) by (done || lia). lia.
Qed.
Lemma current_for_ipc_lt s : kwf s → (process_current_task_for_ipc s < MAX_TASKS)%nat.
Proof.
  intros Hs. unfold process_current_task_for_ipc. pose proof (kw_cur _ Hs).
  destruct (process_find_by_pid s (active_user_pid s)) eqn:E; [|done].
  apply find_by_pid_Some in E as [? _]; [|done]. by case_if.
Qed.
End table.

(** ** Every operation keeps the invariant *)
Section preserve.
Implicit Types (s : kst) (i j : nat) (p : proc_t).
Lemma slot_ok_ext s s' i p : current_task_idx s' = current_task_idx s → slot_ok s i p → slot_ok s' i p.
Proof. intros E [? ? ? ? ? ?]. split; try done. by rewrite E. Qed.
Lemma kwf_of_slots s : pmm_wf (vm_pmm (k_vm s)) → length (tasks s) = MAX_TASKS →
  (current_task_idx s < MAX_TASKS)%nat → (∀ i, (i < MAX_TASKS)%nat → slot_ok s i (task s i)) → kwf s.
Proof.
  intros Hp Hl Hc H. split; try done; try (intros i Hi; apply (H i Hi)).
  intros i j Hi [?|?]; [by eapply (so_next _ _ _ (H i Hi))|by eapply (so_queue _ _ _ (H i Hi))].
Qed.
(** a change outside the table and the current index *)
Lemma kwf_ext s s' : kwf s → tasks s' = tasks s → current_task_idx s' = current_task_idx s →
  pmm_wf (vm_pmm (k_vm s')) → kwf s'.
Proof.
  intros [? ? ? ? ? ? ? ?] Ht Hc Hp. split; rewrite ?Hc; unfold task in *; rewrite ?Ht; try done.
Qed.
Lemma kwf_task_count s n : kwf s → kwf (set_task_count s n).
Proof. intros H. apply (kwf_ext s); [done..|exact (kw_pmm _ H)]. Qed.
Lemma kwf_grow s n : kwf s → kwf (grow_task_count s n).
Proof. intros. unfold grow_task_count. case_if; [by apply kwf_task_count|done]. Qed.
Lemma kwf_switches s n : kwf s → kwf (set_switches s n).
Proof. intros H. apply (kwf_ext s); [done..|exact (kw_pmm _ H)]. Qed.
Lemma kwf_active s n : kwf s → kwf (set_active s n).
Proof. intros H. apply (kwf_ext s); [done..|exact (kw_pmm _ H)]. Qed.
Lemma kwf_vm s v : kwf s → pmm_wf (vm_pmm v) → kwf (set_vm s v).
Proof. intros H Hv. by apply (kwf_ext s). Qed.

Lemma process_init_wf s : pmm_wf (vm_pmm (k_vm s)) → length (tasks s) = MAX_TASKS →
  (∀ p, p ∈ tasks s → 0 <= stack_base p ∧ length (payload (msg_buffer p)) = MAX_MSG_PAYLOAD) →
  kwf (process_init s).
Proof.
  intros Hp Hl Hz. unfold process_init. apply kwf_task_count.
  set (s1 := set_tasks s _). set (f := λ p, process_clear_runtime _).
  assert (length (tasks s1) = MAX_TASKS) as Hl1 by (simpl; by rewrite length_fmap).
  assert (∀ i, (i < MAX_TASKS)%nat → ∃ p, p ∈ tasks s ∧
    task s1 i = process_clear_runtime (set_state PROC_STATE_FREE p)) as Ht.
  { intros i Hi. exists (task s i). split.
    - eapply list_elem_of_lookup_2, lookup_task. lia.
    - apply task_lookup. simpl. rewrite list_lookup_fmap, lookup_task by lia. done. }
  apply kwf_of_slots; simpl; [done|rewrite length_insert; exact Hl1|unfold MAX_TASKS; lia|].
  intros i Hi. change (task (set_current (upd s1 0 f) 0) i) with (task (upd s1 0 f) i).
  rewrite task_upd by (rewrite Hl1; unfold MAX_TASKS; lia).
  destruct (Ht i Hi) as (p & Hin & Hti). destruct (Hz p Hin) as [Hz1 Hz2].
  case_decide; subst; rewrite Hti; split; simpl; done.
Qed.
Lemma find_free_lt s i : kwf s → find_task (is_state PROC_STATE_FREE) (tasks s) 0 = Some i →
  (i < MAX_TASKS)%nat ∧ state (task s i) = PROC_STATE_FREE.
Proof.
  intros Hs (Hi & Hf & _)%find_slot. rewrite (kw_len _ Hs) in Hi. by apply is_state_true in Hf.
Qed.
(** a slot that is cleared and given a pid *)
Lemma slot_ok_fresh s i st parent cr3 p : slot_ok s i p → st ≠ PROC_STATE_RUNNING →
  slot_ok s i (set_ppid parent (set_pid (Z.of_nat i) (process_clear_runtime
     (set_pml4_phys cr3 (set_state st (set_ppid parent (set_pid (Z.of_nat i) p))))))).
Proof. intros [? ? ? ? ? ?] Hst. by split. Qed.
Lemma process_alloc_user_wf s parent : kwf s → kwf (snd (process_alloc_user s parent)).
Proof.
  intros Hs. unfold process_alloc_user.
  destruct (find_task _ _ _) as [i|] eqn:E; [|done]. apply find_free_lt in E as [Hi _]; [|done].
  apply kwf_grow, kwf_upd; [done..|]. by apply slot_ok_fresh; [apply kwf_slot|].
Qed.
Lemma init_kernel_stack_wf s i entry : kwf s → (i < MAX_TASKS)%nat →
  ∃ s', init_kernel_stack s i entry = Ret s' ∧ kwf s' ∧ task_count s' = task_count s ∧
    current_task_idx s' = current_task_idx s ∧ active_user_pid s' = active_user_pid s ∧
    (∀ j, j ≠ i → task s' j = task s j) ∧ state (task s' i) = state (task s i) ∧
    pid (task s' i) = pid (task s i) ∧ ppid (task s' i) = ppid (task s i).
Proof.
  intros Hs Hi. unfold init_kernel_stack, pmm_alloc_page.
  destruct (alloc_page_from_spec (Z.to_nat (total_pages (vm_pmm (k_vm s)))) (vm_pmm (k_vm s)) 0)
    as (a & pm & -> & Hwf & Ha); [apply Hs|done|pose proof (wf_total _ (kw_pmm _ Hs)); lia|lia|]. ostep.
  assert (0 <= a) as Ha0 by (destruct Ha as [(k & ? & -> & _)|(-> & _)]; unfold PAGE_SIZE; lia).
  eexists. split; [done|].
  assert (kwf (upd s i (set_stack_base a))) as H1.
  { apply kwf_upd; [done..|]. destruct (kwf_slot s i Hs Hi). by split. }
  split.
  { apply kwf_upd; [by apply kwf_vm|done|]. simpl.
    change (task (set_vm (upd s i (set_stack_base a)) ?v) i) with (task (upd s i (set_stack_base a)) i).
    destruct (kwf_slot _ i H1 Hi). by split. }
  assert (i < length (tasks s))%nat as Hil by (by rewrite (kw_len _ Hs)).
  split_and!; try done.
  - intros j Hj. rewrite task_upd_other by done. exact (task_upd_other s i j _ (not_eq_sym Hj)).
  - rewrite task_upd_same by (simpl; by rewrite length_insert). simpl. unfold task at 1. simpl.
    by rewrite list_lookup_total_insert_eq.
  - rewrite task_upd_same by (simpl; by rewrite length_insert). simpl. unfold task at 1. simpl.
    by rewrite list_lookup_total_insert_eq.
  - rewrite task_upd_same by (simpl; by rewrite length_insert). simpl. unfold task at 1. simpl.
    by rewrite list_lookup_total_insert_eq.
Qed.

Lemma slot_ok_named s i n p : slot_ok s i p → n = Z.of_nat i →
  slot_ok s i (set_pid n (process_clear_runtime (set_state PROC_STATE_READY (set_ppid 0 (set_pid n p))))).
Proof. intros [? ? ? ? ? ?] ->. by split. Qed.
Lemma process_create_wf s entry : kwf s →
  ∃ r s', process_create s entry = Ret (r, s') ∧ kwf s'.
Proof.
  intros Hs. unfold process_create.
  destruct (find_task _ _ _) as [i|] eqn:E; [|eauto]. apply find_free_lt in E as [Hi _]; [|done].
  destruct (init_kernel_stack_wf (upd s i (λ p, set_pid (Z.of_nat i) (process_clear_runtime
     (set_state PROC_STATE_READY (set_ppid 0 (set_pid (Z.of_nat i) p)))))) i entry)
    as (s' & -> & Hs' & _); [|done|].
  - apply kwf_upd; [done..|]. apply slot_ok_named; [by apply kwf_slot|done].
  - eexists _, _. split; [done|]. by apply kwf_task_count.
Qed.
Lemma slot_of_Some n i : slot_of n = Some i → (0 < i < MAX_TASKS)%nat ∧ i32 n = Z.of_nat i.
Proof.
  unfold slot_of. case_if; [done|]. intros [= <-].
  unfold MAX_TASKS in *. lia.
Qed.
Lemma process_spawn_wf s n entry : kwf s → 0 <= n < 2 ^ 31 →
  ∃ r s', process_spawn_kernel_at_pid s n entry = Ret (r, s') ∧ kwf s'.
Proof.
  intros Hs Hn. unfold process_spawn_kernel_at_pid.
  destruct (slot_of n) as [i|] eqn:E; [|eauto]. apply slot_of_Some in E as [Hi En].
  rewrite i32_small in En by lia. case_if; [eauto|]. case_if; [eauto|].
  destruct (init_kernel_stack_wf (upd s i (λ p, set_pid n (process_clear_runtime
     (set_state PROC_STATE_READY (set_ppid 0 (set_pid n p)))))) i entry)
    as (s' & -> & Hs' & _); [|lia|].
  - apply kwf_upd; [done|lia|]. apply slot_ok_named; [apply kwf_slot; [done|lia]|done].
  - eexists _, _. split; [done|]. by apply kwf_grow.
Qed.
Lemma process_bind_wf s n parent : kwf s → 0 <= n < 2 ^ 31 → kwf (process_bind_user_slot_ex s n parent).
Proof.
  intros Hs Hn. unfold process_bind_user_slot_ex.
  destruct (slot_of n) as [i|] eqn:E; [|done]. apply slot_of_Some in E as [Hi En].
  rewrite i32_small in En by lia. case_if; [done|].
  apply kwf_grow. assert (i < MAX_TASKS)%nat as Hi' by lia. pose proof (kwf_slot s i Hs Hi') as Hslot.
  set (f := λ p, set_rsp 0 _).
  assert (kwf (upd s i f)) as H1 by (apply kwf_upd; [done..|]; destruct Hslot; by split).
  apply kwf_upd; [done..|]. destruct (kwf_slot _ i H1 Hi') as [? ? ? ? ? ?]. by split.
Qed.
Lemma process_mark_exit_wf s o status : kwf s → (∀ i, o = Some i → (i < MAX_TASKS)%nat) →
  (∀ i, o = Some i → state (task s i) ≠ PROC_STATE_FREE) → kwf (process_mark_exit s o status).
Proof.
  intros Hs Hp Hf. destruct o as [i|]; [|done]. specialize (Hp i eq_refl). specialize (Hf i eq_refl).
  unfold process_mark_exit. set (s1 := upd s i _).
  assert (kwf s1) as H1.
  { apply kwf_upd; [done..|]. destruct (kwf_slot s i Hs Hp) as [Hpid ? ? ? ? ?]. split; simpl; auto; try done. }
  cbv zeta. set (s2 := if pid (task s1 i) =? active_user_pid s1 then set_active s1 0 else s1).
  assert (kwf s2) as H2 by (unfold s2; case_if; [by apply kwf_active|done]).
  destruct (process_find_by_pid s2 _) as [j|] eqn:E; [|done].
  apply find_by_pid_Some in E as (Hj & _ & Hfree); [|done]. case_if; [|done].
  apply kwf_upd; [done..|]. destruct (kwf_slot s2 j H2 Hj) as [Hpid ? ? ? ? ?]. split; simpl; auto; done.
Qed.
Lemma pmm_free_page_wf (m : pmm) a : pmm_wf m → 0 <= a → ∃ m', pmm_free_page m a = Ret m' ∧ pmm_wf m'.
Proof.
  intros Hp Ha. unfold pmm_free_page. cbv zeta. case_if; [|eauto].
  destruct (free_one_spec m (a / PAGE_SIZE)) as (m' & -> & Hwf & _); [done| |eauto].
  split; [apply Z.div_pos; [lia|done]|done].
Qed.
Lemma process_reap_wf s parent target : kwf s →
  ∃ r s', process_reap_child s parent target = Ret (r, s') ∧ kwf s'.
Proof.
  intros Hs. destruct parent as [par|]; [|simpl; eauto]. unfold process_reap_child.
  destruct (find_task _ _ _) as [i|] eqn:E; [|eauto]. apply find_slot in E as (Hi & _).
  rewrite (kw_len _ Hs) in Hi. cbv zeta.
  assert (∃ s1, (if negb (stack_base (task s i) =? 0)
     then pm ← pmm_free_page (vm_pmm (k_vm s)) (stack_base (task s i)); Ret (set_vm s (set_pmm (k_vm s) pm))
     else Ret s) = Ret s1 ∧ kwf s1) as (s1 & -> & H1).
  { case_if; [|eauto].
    destruct (pmm_free_page_wf (vm_pmm (k_vm s)) (stack_base (task s i))) as (pm & -> & Hpm);
      [apply Hs|by apply Hs|]. ostep. eexists. split; [done|]. by apply kwf_vm. }
  ostep. eexists _, _. split; [done|]. apply kwf_upd; [done..|].
  destruct (kwf_slot s1 i H1 Hi) as [? ? ? ? ? ?]. by split.
Qed.
Lemma wake_state_ok s p : wake_state s p ≠ PROC_STATE_RUNNING ∧ wake_state s p ≠ PROC_STATE_FREE.
Proof. unfold wake_state. by case_if. Qed.
Lemma set_state_wf s i st : kwf s → (i < MAX_TASKS)%nat → state (task s i) ≠ PROC_STATE_FREE →
  st ≠ PROC_STATE_RUNNING → kwf (upd s i (set_state st)).
Proof.
  intros Hs Hi Hf Hr. apply kwf_upd; [done..|]. destruct (kwf_slot s i Hs Hi) as [Hpid ? ? ? ? ?].
  split; simpl; auto. done.
Qed.
Lemma wake_from_receive_wf s i : kwf s → (i < MAX_TASKS)%nat → kwf (process_ipc_wake_from_receive s i).
Proof.
  intros Hs Hi. unfold process_ipc_wake_from_receive. case_if; [done|].
  apply is_state_true in Heqb. apply set_state_wf; [done..| |apply wake_state_ok]. by rewrite Heqb.
Qed.
Lemma wake_after_reply_wf s i : kwf s → (i < MAX_TASKS)%nat → kwf (process_ipc_wake_after_reply s i).
Proof.
  intros Hs Hi. unfold process_ipc_wake_after_reply. case_if; [done|].
  apply is_state_true in Heqb. apply set_state_wf; [done..| |apply wake_state_ok]. by rewrite Heqb.
Qed.
End preserve.

(** ** Round robin *)
Section round_robin.
Implicit Types (s : kst) (i j k old : nat).
(** the slot [k + 1] places after [old] *)
Definition after (old k : nat) : nat := ((old + 1 + k) mod MAX_TASKS)%nat.
Lemma after_lt old k : (after old k < MAX_TASKS)%nat.
Proof. apply Nat.mod_upper_bound. done. Qed.
Lemma after_succ old k : ((after old k + 1) mod MAX_TASKS = after old (S k))%nat.
Proof.
  unfold after. rewrite Nat.Div0.add_mod_idemp_l. f_equal. lia.
Qed.
Lemma after_15 old : (old < MAX_TASKS)%nat → after old 15 = old.
Proof.
  intros. unfold after. replace (old + 1 + 15)%nat with (old + 1 * MAX_TASKS)%nat by (unfold MAX_TASKS; lia).
  rewrite Nat.Div0.mod_add. by apply Nat.mod_small.
Qed.
Lemma after_offset old i : (old < MAX_TASKS)%nat → (i < MAX_TASKS)%nat →
  ∃ k, (k < MAX_TASKS)%nat ∧ after old k = i.
Proof.
  intros Ho Hi. exists ((i + (MAX_TASKS - 1) - old) mod MAX_TASKS)%nat.
  split; [by apply Nat.mod_upper_bound|]. unfold after. rewrite Nat.Div0.add_mod_idemp_r.
  replace (old + 1 + (i + (MAX_TASKS - 1) - old))%nat with (i + 1 * MAX_TASKS)%nat by (unfold MAX_TASKS in *; lia).
  rewrite Nat.Div0.mod_add. by apply Nat.mod_small.
Qed.
Lemma after_inj old k k' : (k < MAX_TASKS)%nat → (k' < MAX_TASKS)%nat → after old k = after old k' → k = k'.
Proof.
  unfold after, MAX_TASKS. intros Hk Hk' E. apply (f_equal Z.of_nat) in E.
  rewrite !Nat2Z.inj_mod in E. zdm.
Qed.
Lemma after_after old d k : (d <= k)%nat → after (after old d) (k - d - 1) = after old k ∨ d = k.
Proof.
  intros Hd. destruct (decide (d = k)); [by right|]. left. unfold after.
  replace ((old + 1 + d) mod MAX_TASKS + 1 + (k - d - 1))%nat
    with ((old + 1 + d) mod MAX_TASKS + (k - d))%nat by lia.
  rewrite Nat.Div0.add_mod_idemp_l. f_equal. lia.
Qed.
Lemma sched_scan_spec s old fuel : (old < MAX_TASKS)%nat → ∀ k, (k <= 15)%nat → (15 - k <= fuel)%nat →
  ∃ k', (k <= k' <= 15)%nat ∧ sched_scan s old (after old k) fuel = Ret (after old k') ∧
    (∀ j, (k <= j < k')%nat → state (task s (after old j)) ≠ PROC_STATE_READY) ∧
    (state (task s (after old k')) = PROC_STATE_READY ∨ k' = 15%nat).
Proof.
  intros Ho. induction fuel as [|fuel IH]; intros k Hk Hf; cbn [sched_scan].
  - assert (k = 15)%nat as -> by lia. rewrite after_15 by done. rewrite Nat.eqb_refl, andb_false_r.
    exists 15%nat. rewrite after_15 by done. repeat split; [lia..| |by right]. intros; lia.
  - destruct (is_state PROC_STATE_READY (task s (after old k))) eqn:E.
    { exists k. apply is_state_true in E. repeat split; [lia..| |by left]. intros; lia. }
    apply is_state_false in E. destruct (after old k =? old)%nat eqn:Eo; cbn [negb andb].
    { apply Nat.eqb_eq in Eo. assert (k = 15)%nat as ->.
      { apply (after_inj old); [unfold MAX_TASKS; lia..|]. by rewrite after_15. }
      exists 15%nat. repeat split; [lia..| |by right]. intros; lia. }
    assert (k ≠ 15)%nat.
    { intros ->. rewrite after_15 in Eo by done. by rewrite Nat.eqb_refl in Eo. }
    rewrite after_succ. destruct (IH (S k)) as (k' & Hk' & -> & Hno & Hr); [lia|lia|].
    exists k'. repeat split; [lia|lia| |done]. intros j Hj.
    destruct (decide (j = k)) as [->|]; [done|apply Hno; lia].
Qed.
(** [s'] is [s] after a switch to slot [next] *)
Definition switched s s' next : Prop :=
  current_task_idx s' = next ∧ ctx_switches s' = u64 (ctx_switches s + 1) ∧
  k_vm s' = k_vm s ∧ active_user_pid s' = active_user_pid s ∧ task_count s' = task_count s ∧
  ∀ i, (i < MAX_TASKS)%nat → task s' i =
    if decide (i = next) then set_state PROC_STATE_RUNNING (task s i)
    else if decide (i = current_task_idx s ∧ state (task s i) = PROC_STATE_RUNNING)
         then set_state PROC_STATE_READY (task s i) else task s i.
Lemma set_state_twice a b p : set_state a (set_state b p) = set_state a p.
Proof. done. Qed.
Lemma switched_wf s s' next : kwf s → (next < MAX_TASKS)%nat → state (task s next) ≠ PROC_STATE_FREE →
  length (tasks s') = MAX_TASKS → switched s s' next → kwf s'.
Proof.
  intros Hs Hn Hf Hl (Hc & _ & Hv & _ & _ & Ht). apply kwf_of_slots; [rewrite Hv; apply Hs|done|by rewrite Hc|].
  intros i Hi. rewrite Ht by done. destruct (kwf_slot s i Hs Hi) as [Hp Hr ? ? ? ?].
  destruct (decide (i = next)) as [->|Hne];
    [|destruct (decide (i = current_task_idx s ∧ state (task s i) = PROC_STATE_RUNNING)) as [[-> Hrun]|Hnot]].
  - split; simpl; auto.
  - split; simpl; auto; [|done]. intros _. apply Hp. by rewrite Hrun.
  - split; simpl; auto. intros Hrun. destruct Hnot. auto.
Qed.
Lemma schedule_spec s : kwf s → ∃ s', schedule s = Ret s' ∧ kwf s' ∧
  ((∃ k, (k < MAX_TASKS)%nat ∧ state (task s (after (current_task_idx s) k)) = PROC_STATE_READY ∧
         (∀ j, (j < k)%nat → state (task s (after (current_task_idx s) j)) ≠ PROC_STATE_READY) ∧
         switched s s' (after (current_task_idx s) k)) ∨
   (s' = s ∧ ∀ i, (i < MAX_TASKS)%nat → state (task s i) ≠ PROC_STATE_READY)).
Proof.
  intros Hs. pose proof (kw_cur _ Hs) as Ho. pose proof (kw_len _ Hs) as Hl. set (old := current_task_idx s) in *.
  destruct (sched_scan_spec s old MAX_TASKS Ho 0) as (k & Hk & E & Hno & Hr); [lia|unfold MAX_TASKS; lia|].
  unfold schedule. fold old. change ((old + 1) mod MAX_TASKS)%nat with (after old 0) || idtac.
  replace ((old + 1) mod MAX_TASKS)%nat with (after old 0) by (unfold after; f_equal; lia).
  rewrite E. ostep. destruct (is_state PROC_STATE_READY (task s (after old k))) eqn:Er.
  - apply is_state_true in Er. pose proof (after_lt old k) as Hn.
    eexists. split; [done|]. set (s1 := if is_state PROC_STATE_RUNNING (task s old) then _ else s).
    assert (length (tasks s1) = MAX_TASKS) as Hl1 by (unfold s1; case_if; [by rewrite length_upd|done]).
    assert (switched s (set_switches (set_current (upd s1 (after old k) (set_state PROC_STATE_RUNNING)) (after old k))
       (u64 (ctx_switches s1 + 1))) (after old k)) as Hsw.
    { split; [done|]. split; [by unfold s1; case_if|]. split; [by unfold s1; case_if|].
      split; [by unfold s1; case_if|]. split; [by unfold s1; case_if|]. intros i Hi.
      change (task (upd s1 (after old k) (set_state PROC_STATE_RUNNING)) i = if decide (i = after old k)
        then set_state PROC_STATE_RUNNING (task s i)
        else if decide (i = old ∧ state (task s i) = PROC_STATE_RUNNING)
             then set_state PROC_STATE_READY (task s i) else task s i).
      rewrite task_upd by lia. destruct (decide (after old k = i)) as [<-|Hne].
      - rewrite decide_True by done. unfold s1. case_if; [|done].
        rewrite task_upd by lia. destruct (decide (old = after old k)) as [<-|]; done.
      - rewrite decide_False by congruence. unfold s1.
        destruct (is_state PROC_STATE_RUNNING (task s old)) eqn:Erun;
          [apply is_state_true in Erun; rewrite task_upd by lia|apply is_state_false in Erun].
        + destruct (decide (old = i)) as [<-|]; [by rewrite decide_True|].
          rewrite decide_False; [done|]. intros [Hio _]. congruence.
        + rewrite decide_False; [done|]. intros [Hio Hst]. rewrite Hio in Hst. congruence. }
    split.
    + apply (switched_wf s _ (after old k)); [done|done|by rewrite Er| |exact Hsw].
      simpl. rewrite length_insert. exact Hl1.
    + left. exists k. split; [unfold MAX_TASKS; lia|]. split; [done|].
      split; [intros j Hj; apply Hno; lia|exact Hsw].
  - apply is_state_false in Er. exists s. split; [done|]. split; [done|]. right. split; [done|].
    intros i Hi. destruct Hr as [?| ->]; [done|]. destruct (after_offset old i Ho Hi) as (k' & Hk' & <-).
    destruct (decide (k' = 15)%nat) as [->|]; [done|]. apply Hno. unfold MAX_TASKS in Hk'. lia.
Qed.
(** [n] timer ticks *)
Fixpoint ticks (n : nat) (s : kst) : outcome kst :=
  match n with
  | O => Ret s
  | S n => s ← sched_on_timer_tick s; ticks n s
  end.
Lemma ticks_reach k : ∀ s j, kwf s → (k < MAX_TASKS)%nat → after (current_task_idx s) k = j →
  state (task s j) = PROC_STATE_READY →
  ∃ n s', (n <= k + 1)%nat ∧ ticks n s = Ret s' ∧ kwf s' ∧
    current_task_idx s' = j ∧ state (task s' j) = PROC_STATE_RUNNING.
Proof.
  induction k as [k IH] using lt_wf_ind. intros s j Hs Hk Hj Hr.
  destruct (schedule_spec s Hs) as (s' & E & Hs' & [(d & Hd & Hrd & Hno & Hsw)|(_ & Hno)]).
  2: { exfalso. apply (Hno j); [|done]. rewrite <-Hj. apply after_lt. }
  assert (d <= k)%nat as Hdk.
  { destruct (decide (d <= k)%nat); [done|]. exfalso. apply (Hno k); [lia|]. by rewrite Hj. }
  destruct Hsw as (Hc & _ & _ & _ & _ & Ht).
  assert (j < MAX_TASKS)%nat as Hjlt by (rewrite <-Hj; apply after_lt).
  destruct (decide (d = k)) as [->|Hne].
  - exists 1%nat, s'. split; [lia|]. simpl. unfold sched_on_timer_tick. rewrite E. split; [done|].
    split; [done|]. rewrite Hc, Hj. split; [done|]. rewrite Ht, decide_True by done. done.
  - destruct (IH (k - d - 1)%nat ltac:(lia) s' j) as (n & s'' & Hn & Et & Hs'' & Hc'' & Hst);
      [done|lia| | |].
    + rewrite Hc. destruct (after_after (current_task_idx s) d k Hdk) as [->|]; done.
    + rewrite Ht by done. rewrite decide_False.
      * case_decide; [done|done].
      * rewrite <-Hj. intros Heq. apply after_inj in Heq; [lia|done|done].
    + exists (S n), s''. split; [lia|]. simpl. unfold sched_on_timer_tick. rewrite E. ostep. eauto.
Qed.
End round_robin.

(** ** Exit and reap *)
Section exit_reap.
Context (s : kst) (i par : nat) (status : Z) (Hs : kwf s).
Context (Hi : (0 < i < MAX_TASKS)%nat) (Hpar : (par < MAX_TASKS)%nat) (Hne : i ≠ par).
Context (Hlive : state (task s i) ≠ PROC_STATE_FREE) (Hplive : state (task s par) ≠ PROC_STATE_FREE).
Context (Hchild : ppid (task s i) = pid (task s par)).
Notation s1 := (process_mark_exit s (Some i) status).
(** the parent waits for this child *)
Definition waits_for : bool :=
  is_state PROC_STATE_BLOCKED (task s par) &&
  ((wait_target (task s par) =? 0) || (wait_target (task s par) =? Z.of_nat i)).
Lemma mark_exit_effect : kwf s1 ∧ k_vm s1 = k_vm s ∧
  task s1 i = set_state PROC_STATE_EXITED (set_exited 1 (set_exit_code status (task s i))) ∧
  task s1 par = if waits_for then set_state PROC_STATE_READY (set_wait_result_status status
                  (set_wait_result_pid (Z.of_nat i) (task s par))) else task s par.
Proof.
  pose proof (kw_len _ Hs) as Hl.
  split; [by apply process_mark_exit_wf; [done|intros ? [= <-]; lia|intros ? [= <-]]|].
  unfold process_mark_exit. set (u := upd s i _).
  assert (task u i = set_state PROC_STATE_EXITED (set_exited 1 (set_exit_code status (task s i)))) as Hui
    by (apply task_upd_same; lia).
  assert (task u par = task s par) as Hup by (by apply task_upd_other).
  cbv zeta. set (v := if pid (task u i) =? active_user_pid u then set_active u 0 else u).
  assert (∀ j, task v j = task u j) as Hv by (intros j; unfold v; by case_if).
  assert (tasks v = tasks u) as Hvt by (unfold v; by case_if).
  assert (k_vm v = k_vm s) as Hvv by (unfold v; by case_if).
  assert (process_find_by_pid v (ppid (task v i)) = Some par) as ->.
  { assert (kwf u) as Hu.
    { apply kwf_upd; [done|lia|]. destruct (kwf_slot s i Hs ltac:(lia)) as [Hpid ? ? ? ? ?]. split; simpl; auto; done. }
    assert (kwf v) by (unfold v; case_if; [by apply kwf_active|done]).
    apply find_by_pid_Some; [done|]. rewrite !Hv, Hui, Hup. simpl. split; [done|]. split; [|done].
    rewrite Hchild. by apply Hs. }
  rewrite !Hv, Hui, Hup. simpl. rewrite (kw_pid _ Hs i) by (done || lia). unfold waits_for.
  destruct (is_state PROC_STATE_BLOCKED (task s par) && _); [|by rewrite !Hv, Hui, Hup].
  split; [done|]. rewrite !task_upd by (rewrite Hvt; unfold u; rewrite length_upd; lia).
  rewrite decide_False, decide_True by done. by rewrite !Hv, Hui, Hup.
Qed.
Lemma exit_reap_spec : ∃ s2, process_reap_child s1 (Some par) (Z.of_nat i) = Ret (Some (Z.of_nat i, status), s2) ∧
  kwf s2 ∧ state (task s2 i) = PROC_STATE_FREE ∧ task s2 par = task s1 par ∧
  (stack_base (task s i) = 0 → k_vm s2 = k_vm s) ∧
  (0 < stack_base (task s i) → stack_base (task s i) / PAGE_SIZE < total_pages (vm_pmm (k_vm s)) →
   pages_minus (vm_pmm (k_vm s)) (vm_pmm (k_vm s2)) (λ j, bool_decide (j = stack_base (task s i) / PAGE_SIZE))).
Proof.
  destruct mark_exit_effect as (H1 & Hvm & Ti & Tp). revert H1 Hvm Ti Tp.
  generalize (process_mark_exit s (Some i) status). intros z H1 Hvm Ti Tp. pose proof (kw_len _ H1) as Hl.
  assert (pid (task z par) = pid (task s par)) as Epp by (rewrite Tp; by case_if).
  assert (find_task (reapable (pid (task z par)) (Z.of_nat i)) (tasks z) 0 = Some i) as Ef.
  { apply find_slot. rewrite Hl. split; [lia|]. split.
    - rewrite Ti, Epp. unfold reapable. simpl. rewrite <-Hchild, (kw_pid _ Hs i) by (done || lia).
      rewrite !Z.eqb_refl. by rewrite andb_false_r.
    - intros j Hj. unfold reapable. apply not_true_iff_false. intros Hb.
      repeat (apply andb_true_iff in Hb as [Hb ?]). apply negb_true_iff, is_state_false in Hb.
      destruct (Z.eqb_spec (pid (task z j)) (Z.of_nat i)) as [He|He].
      + rewrite (kw_pid _ H1) in He by (done || lia). lia.
      + rewrite (proj2 (Z.eqb_neq (Z.of_nat i) 0)) in * by lia. done. }
  destruct (process_reap_wf z (Some par) (Z.of_nat i) H1) as (r & s2 & E & H2). rewrite E.
  unfold process_reap_child in E. rewrite Ef in E. cbv zeta in E. rewrite Ti in E. simpl in E.
  rewrite (kw_pid _ Hs i) in E by (done || lia). rewrite Hvm in E.
  destruct (Z.eqb_spec (stack_base (task s i)) 0) as [E0|E0]; simpl in E.
  - injection E as <- <-. exists (upd z i (λ p, process_clear_runtime (set_state PROC_STATE_FREE p))).
    split; [done|]. split; [done|]. split; [by rewrite task_upd_same by lia|]. split; [by apply task_upd_other|].
    split; [intros _; exact Hvm|lia].
  - destruct (pmm_free_page_wf (vm_pmm (k_vm s)) (stack_base (task s i))) as (pm & Epm & Hpm);
      [apply Hs|apply Hs; lia|]. rewrite Epm in E. cbn [mbind outcome_mbind] in E. injection E as <- <-.
    eexists. split; [done|]. split; [done|].
    split; [rewrite task_upd_same by (simpl; lia); done|]. split; [by rewrite task_upd_other|].
    split; [done|]. intros Hpos Hin. simpl. unfold pmm_free_page in Epm. cbv zeta in Epm.
    rewrite (proj2 (Z.ltb_lt _ _)) in Epm by done.
    destruct (free_one_spec (vm_pmm (k_vm s)) (stack_base (task s i) / PAGE_SIZE)) as (pm' & Ef' & _ & Hmin);
      [apply Hs|split; [apply Z.div_pos; [lia|done]|done]|]. rewrite Ef' in Epm. by injection Epm as <-.
Qed.
End exit_reap.

(** ** The initial stack of a kernel thread *)
(** pushing the words [l] leaves the last one lowest *)
Lemma push_words l : ∀ m sp,
  snd (foldl push (m, sp) l) = sp - 8 * Z.of_nat (length l) ∧
  (Forall (λ v, 0 <= v < 2 ^ 64) l →
   ∀ k v, l !! k = Some v → ld64 (fst (foldl push (m, sp) l)) (sp - 8 * Z.of_nat k - 8) = v) ∧
  (∀ a, sp <= a → ld64 (fst (foldl push (m, sp) l)) a = ld64 m a).
Proof.
  induction l as [|w l IH]; intros m sp; cbn [foldl].
  { split; [simpl; lia|]. split; [intros _ k v Hk; by rewrite lookup_nil in Hk|done]. }
  destruct (IH (st64 m (sp - 8) w) (sp - 8)) as (H1 & H2 & H3). unfold push at 2 4 6. cbn [fst snd].
  split; [rewrite H1; simpl length; lia|]. split.
  - intros [Hw Hl]%Forall_cons [|k] v Hk; simpl in Hk.
    + injection Hk as <-. rewrite H3 by lia. replace (sp - 8 * Z.of_nat 0 - 8) with (sp - 8) by lia.
      by apply ld64_st64_same.
    + replace (sp - 8 * Z.of_nat (S k) - 8) with (sp - 8 - 8 * Z.of_nat k - 8) by lia. by apply H2.
  - intros a Ha. rewrite H3 by lia. apply ld64_st64_disj. lia.
Qed.
(** the words of the interrupt frame, top of the stack first *)
Definition frame_words (top entry : Z) : list Z := [0x10; top - 8; 0x202; 0x08; entry; 0; 0] ++ replicate 15 0.

Lemma init_kernel_stack_frame s i entry : kwf s → (i < MAX_TASKS)%nat → 0 <= entry < 2 ^ 64 →
  ∃ s' base, init_kernel_stack s i entry = Ret s' ∧
    stack_base (task s' i) = base ∧ rsp (task s' i) = base + 4096 - 176 ∧
    (base = 0 ∨ page_used (vm_pmm (k_vm s)) (base / PAGE_SIZE) = false) ∧
    ∀ k v, frame_words (base + 4096) entry !! k = Some v →
      ld64 (vm_mem (k_vm s')) (base + 4096 - 8 * Z.of_nat k - 8) = v.
Proof.
  intros Hs Hi He. pose proof (kw_len _ Hs) as Hl. unfold init_kernel_stack, pmm_alloc_page.
  destruct (alloc_page_from_spec (Z.to_nat (total_pages (vm_pmm (k_vm s)))) (vm_pmm (k_vm s)) 0)
    as (a & pm & -> & Hwf & Ha); [apply Hs|done|pose proof (wf_total _ (kw_pmm _ Hs)); lia|lia|]. ostep.
  assert (Forall (λ v, 0 <= v < 2 ^ 64) (frame_words (a + 4096) entry)) as Hw.
  { assert (0 <= a ∧ a + 4096 < 2 ^ 64).
    { pose proof (wf_total _ (kw_pmm _ Hs)). destruct Ha as [(k & ? & -> & _)|(-> & _)]; unfold PAGE_SIZE; lia. }
    repeat constructor; lia. }
  destruct (push_words (frame_words (a + 4096) entry) (vm_mem (k_vm s)) (a + 4096)) as (P1 & P2 & _).
  specialize (P2 Hw). eexists _, a. split; [done|].
  rewrite task_upd_same by (simpl; rewrite length_insert; lia). cbn [stack_base rsp set_pml4_phys set_rsp].
  unfold task. cbn [tasks set_vm upd set_tasks]. rewrite list_lookup_total_insert_eq by lia.
  split; [done|]. split; [exact P1|]. split; [|exact P2].
  destruct Ha as [(k & Hk & -> & Hf & _)|(-> & _)]; [right|by left]. unfold PAGE_SIZE. by rewrite Z.div_mul.
Qed.

(** ** Theorems *)

(** C21. Round robin: [schedule] terminates and keeps the table well formed.
    If some slot is READY it switches to the first READY slot after the
    current one in cyclic order (the current one last): that slot becomes
    RUNNING and current, a RUNNING old slot becomes READY, the counter is
    incremented and nothing else changes; if none is, nothing changes. *)
Theorem schedule_round_robin s : kwf s → ∃ s', schedule s = Ret s' ∧ kwf s' ∧
  ((∃ k, (k < MAX_TASKS)%nat ∧ state (task s (after (current_task_idx s) k)) = PROC_STATE_READY ∧
         (∀ j, (j < k)%nat → state (task s (after (current_task_idx s) j)) ≠ PROC_STATE_READY) ∧
         switched s s' (after (current_task_idx s) k)) ∨
   (s' = s ∧ ∀ i, (i < MAX_TASKS)%nat → state (task s i) ≠ PROC_STATE_READY)).
Proof. apply schedule_spec. Qed.

(** C22. No starvation: a READY task becomes the running one within 16 timer
    ticks. *)
Theorem schedule_starvation_free s j : kwf s → (j < MAX_TASKS)%nat →
  state (task s j) = PROC_STATE_READY →
  ∃ n s', (n <= MAX_TASKS)%nat ∧ ticks n s = Ret s' ∧ kwf s' ∧
    current_task_idx s' = j ∧ state (task s' j) = PROC_STATE_RUNNING.
Proof.
  intros Hs Hj Hr. destruct (after_offset (current_task_idx s) j (kw_cur _ Hs) Hj) as (k & Hk & Hkj).
  destruct (ticks_reach k s j Hs Hk Hkj Hr) as (n & s' & Hn & H). exists n, s'. split; [lia|done].
Qed.

(** Exit and reap: after a live child exits, its parent reaps it by pid,
    receives its pid and status, and the child's slot is free again and no
    longer found; a parent that was blocked waiting for it (or for any child)
    is READY with the child's pid and status recorded.  The child's kernel
    stack page goes back to the allocator. *)
Theorem process_exit_reap s i par status : kwf s → (0 < i < MAX_TASKS)%nat → (par < MAX_TASKS)%nat → i ≠ par →
  state (task s i) ≠ PROC_STATE_FREE → state (task s par) ≠ PROC_STATE_FREE →
  ppid (task s i) = pid (task s par) →
  let s1 := process_mark_exit s (Some i) status in
  (if waits_for s i par
   then state (task s1 par) = PROC_STATE_READY ∧ wait_result_pid (task s1 par) = Z.of_nat i ∧
        wait_result_status (task s1 par) = status
   else task s1 par = task s par) ∧
  ∃ s2, process_reap_child s1 (Some par) (Z.of_nat i) = Ret (Some (Z.of_nat i, status), s2) ∧
    kwf s2 ∧ process_find_by_pid s2 (Z.of_nat i) = None ∧
    (0 < stack_base (task s i) → stack_base (task s i) / PAGE_SIZE < total_pages (vm_pmm (k_vm s)) →
     page_used (vm_pmm (k_vm s2)) (stack_base (task s i) / PAGE_SIZE) = false).
Proof.
  intros Hs Hi Hpar Hne Hl Hpl Hc s1.
  destruct (mark_exit_effect s i par status Hs Hi Hpar Hne Hl Hpl Hc) as (H1 & _ & _ & Tp).
  destruct (exit_reap_spec s i par status Hs Hi Hpar Hne Hl Hpl Hc) as (s2 & E & H2 & Hf & _ & _ & Hpm).
  fold s1 in H1, Tp, E. split; [destruct (waits_for s i par); [by rewrite Tp|done]|].
  exists s2. split; [done|]. split; [done|]. split.
  - destruct (process_find_by_pid s2 (Z.of_nat i)) as [k|] eqn:Ek; [|done].
    apply find_by_pid_Some in Ek as (_ & Hk%Nat2Z.inj & Hk'); [|done]. by subst k.
  - intros Hpos Hin. destruct (Hpm Hpos Hin) as (_ & _ & Hu).
    rewrite Hu by (apply Z.div_pos; [lia|done]). by rewrite bool_decide_true.
Qed.

(** A new kernel thread: with a free slot, [process_create] takes the
    lowest free slot, marks it READY with its index as pid, takes a page that
    was free for its stack (or page 0 when none is free: the result of the
    allocation is not tested), and leaves on that page the frame that [iretq] pops: the
    entry point, code segment 0x08, flags 0x202, stack pointer and data
    segment 0x10, below them two zero words and fifteen zero registers, with
    the saved stack pointer at the lowest word. *)
Theorem process_create_frame s entry i : kwf s → 0 <= entry < 2 ^ 64 →
  find_task (is_state PROC_STATE_FREE) (tasks s) 0 = Some i →
  ∃ s' base, process_create s entry = Ret (Some i, s') ∧ kwf s' ∧
    state (task s' i) = PROC_STATE_READY ∧ pid (task s' i) = Z.of_nat i ∧
    stack_base (task s' i) = base ∧ rsp (task s' i) = base + 4096 - 176 ∧
    (base = 0 ∨ page_used (vm_pmm (k_vm s)) (base / PAGE_SIZE) = false) ∧
    ∀ k v, frame_words (base + 4096) entry !! k = Some v →
      ld64 (vm_mem (k_vm s')) (base + 4096 - 8 * Z.of_nat k - 8) = v.
Proof.
  intros Hs He Ef. destruct (find_free_lt s i Hs Ef) as [Hi Hfree].
  unfold process_create. rewrite Ef. set (f := λ p, set_pid (Z.of_nat i) _).
  assert (kwf (upd s i f)) as Hu by (apply kwf_upd; [done..|]; apply slot_ok_named; [by apply kwf_slot|done]).
  destruct (init_kernel_stack_wf (upd s i f) i entry Hu Hi) as (s' & E & Hs' & _ & _ & _ & _ & Hst & Hpid & _).
  destruct (init_kernel_stack_frame (upd s i f) i entry Hu Hi He) as (s'' & base & E' & Hb & Hr & Hp & Hw).
  rewrite E in E'. injection E' as <-. rewrite E. ostep.
  rewrite task_upd_same in Hst, Hpid by (by rewrite (kw_len _ Hs)).
  exists (set_task_count s' (i32 (task_count s' + 1))), base. split; [done|]. split; [by apply kwf_task_count|].
  split; [exact Hst|]. split; [exact Hpid|]. split; [exact Hb|]. split; [exact Hr|]. split; [exact Hp|exact Hw].
Qed.

(** A slot that is reaped keeps its [stack_base], and [process_alloc_user]
    does not reset it: when the slot is reused for a user process, the exit of
    that process frees the old stack page once more, whoever owns it by then. *)
Theorem process_reuse_frees_stale_stack s i par status : kwf s →
  find_task (is_state PROC_STATE_FREE) (tasks s) 0 = Some i → (0 < i)%nat →
  (par < MAX_TASKS)%nat → state (task s par) ≠ PROC_STATE_FREE →
  0 < stack_base (task s i) → stack_base (task s i) / PAGE_SIZE < total_pages (vm_pmm (k_vm s)) →
  let s1 := snd (process_alloc_user s (pid (task s par))) in
  k_vm s1 = k_vm s ∧
  ∃ s2, process_reap_child (process_mark_exit s1 (Some i) status) (Some par) (Z.of_nat i) =
        Ret (Some (Z.of_nat i, status), s2) ∧
    page_used (vm_pmm (k_vm s2)) (stack_base (task s i) / PAGE_SIZE) = false.
Proof.
  intros Hs Ef Hi Hpar Hpl Hst Hin s1. destruct (find_free_lt s i Hs Ef) as [Hi' Hfree].
  assert (i ≠ par) as Hne by congruence.
  pose proof (process_alloc_user_wf s (pid (task s par)) Hs) as H1. fold s1 in H1.
  set (f := λ p, set_ppid (pid (task s par)) (set_pid (Z.of_nat i) (process_clear_runtime
    (set_pml4_phys (vmm_get_current_pml4 (k_vm s)) (set_state PROC_STATE_READY
      (set_ppid (pid (task s par)) (set_pid (Z.of_nat i) p))))))).
  assert (s1 = grow_task_count (upd s i f) (Z.of_nat i + 1)) as Es1
    by (unfold s1, process_alloc_user; by rewrite Ef).
  assert (∀ j, task s1 j = task (upd s i f) j) as Hj by (intros j; rewrite Es1; unfold grow_task_count; by case_if).
  assert (k_vm s1 = k_vm s) as Hvm by (rewrite Es1; unfold grow_task_count; by case_if).
  assert (task s1 i = f (task s i)) as Ti by (rewrite Hj; apply task_upd_same; by rewrite (kw_len _ Hs)).
  assert (task s1 par = task s par) as Tp by (rewrite Hj; by apply task_upd_other).
  clearbody s1. clear Es1 Hj. split; [done|].
  destruct (exit_reap_spec s1 i par status H1) as (s2 & E & _ & _ & _ & _ & Hpm);
    [lia|done|done|by rewrite Ti|by rewrite Tp|by rewrite Ti, Tp|].
  exists s2. split; [done|]. rewrite Ti, Hvm in Hpm. simpl in Hpm. destruct (Hpm Hst Hin) as (_ & _ & Hu).
  rewrite Hu by (apply Z.div_pos; [lia|done]). by rewrite bool_decide_true.
Qed.

(** ** Witnesses: the table after [process_init], with a blocked task 1, its
    child 2, and a free slot 4 that still has the address of a stack page *)
Definition boot_kst : kst := Kst (boot_vm 0x83) (replicate MAX_TASKS proc_zero) 0 0 0 0.
Lemma boot_kst_wf : kwf (process_init boot_kst).
Proof.
  apply process_init_wf; [apply boot_pmm_wf|done|]. intros p Hp.
  apply list_elem_of_lookup in Hp as [k Hk]. apply lookup_replicate in Hk as [-> _]. done.
Qed.
Definition demo_procs : list proc_t :=
  [ set_state PROC_STATE_RUNNING proc_zero;
    set_state PROC_STATE_BLOCKED (set_pid 1 proc_zero);
    set_state PROC_STATE_READY (set_ppid 1 (set_pid 2 proc_zero));
    set_state PROC_STATE_READY (set_pid 3 proc_zero);
    set_stack_base 0x3000 proc_zero ] ++ replicate 11 proc_zero.
Definition demo : kst := Kst (boot_vm 0x83) demo_procs 0 4 0 0.
Lemma demo_wf : kwf demo.
Proof.
  apply kwf_of_slots; [apply boot_pmm_wf|done|unfold MAX_TASKS; simpl; lia|]. intros i Hi. unfold MAX_TASKS in Hi.
  do 16 (destruct i as [|i]; [by split|]). lia.
Qed.
Lemma schedule_round_robin_witness : ∃ s', schedule demo = Ret s' ∧ kwf s'.
Proof. destruct (schedule_round_robin demo demo_wf) as (s' & E & H & _). exists s'. split; [exact E|exact H]. Defined.
Lemma schedule_starvation_free_witness :
  ∃ n s', ticks n demo = Ret s' ∧ state (task s' 3) = PROC_STATE_RUNNING.
Proof.
  destruct (schedule_starvation_free demo 3 demo_wf) as (n & s' & _ & E & _ & _ & H);
    [unfold MAX_TASKS; lia|reflexivity|]. exists n, s'. split; [exact E|exact H].
Defined.
Lemma process_exit_reap_witness :
  ∃ s2, process_reap_child (process_mark_exit demo (Some 2%nat) 7) (Some 1%nat) 2 = Ret (Some (2, 7), s2).
Proof.
  destruct (process_exit_reap demo 2 1 7 demo_wf) as (_ & s2 & E & _);
    [unfold MAX_TASKS; lia|unfold MAX_TASKS; lia|discriminate|discriminate|discriminate|reflexivity|].
  exists s2. exact E.
Defined.
Lemma process_create_frame_witness : ∃ s' base, process_create demo 0x100000 = Ret (Some 4%nat, s') ∧
  stack_base (task s' 4) = base.
Proof.
  destruct (process_create_frame demo 0x100000 4 demo_wf) as (s' & base & E & _ & _ & _ & Hb & _);
    [lia|reflexivity|]. exists s', base. split; [exact E|exact Hb].
Defined.
Lemma process_reuse_frees_stale_stack_witness :
  ∃ s2, process_reap_child (process_mark_exit (snd (process_alloc_user demo 1)) (Some 4%nat) 0) (Some 1%nat) 4 =
        Ret (Some (4, 0), s2) ∧ page_used (vm_pmm (k_vm s2)) 3 = false.
Proof.
  destruct (process_reuse_frees_stale_stack demo 4 1 0 demo_wf) as (_ & s2 & E & H);
    [reflexivity|lia|unfold MAX_TASKS; lia|discriminate|reflexivity|reflexivity|].
  exists s2. split; [exact E|exact H].
Defined.
End Process.
