(* ===== verification/Ipc.v ===== *)
(** Message passing between tasks (kernel/ipc.c, kernel/ipc.h).  Messages are
    copied between the [msg_buffer] of the task records; senders to a task
    that is not receiving link themselves into its sender queue.  The halts
    ([sti; hlt; cli]) run whatever the interrupt handlers do, which is the
    parameter [irq] of the waiting loops.  Theorems: the sender queue refines
    a list; a send to a receiving task, the receive, the reply and the
    sender's consumption hand both messages over unchanged; a send to a task
    that is not receiving never returns; all operations keep the task table
    well formed. *)
From stdpp Require Import base numbers list option sets.
From S2P Require Import Prelude Memory Pmm Vmm Process.
Open Scope Z_scope.

Module Ipc.
Import Pmm.Pmm Vmm.Vmm Process.Process.
Definition IPC_OK := 0.
Definition IPC_ERROR := -1.

Definition msg_copy_to_buffer (s : kst) (dest src : nat) (msg : message_t) : kst :=
  upd s dest (set_msg_buffer (Msg (pid (task s src)) (mtype msg) (payload msg))).
Definition msg_copy_out (s : kst) (from : nat) : message_t :=
  let b := msg_buffer (task s from) in Msg (sender b) (mtype b) (payload b).
Definition stash_outgoing (s : kst) (snd : nat) (msg : message_t) : kst := msg_copy_to_buffer s snd snd msg.
Definition sender_enqueue (s : kst) (dest snd : nat) : kst :=
  let s := upd s snd (set_next_in_queue (sender_queue (task s dest))) in
  upd s dest (set_sender_queue (Some snd)).

(** [proc_t **pp]: the address of a queue head or of a link *)
Inductive qloc := Qhead (r : nat) | Qnext (i : nat).
Definition qread (s : kst) (pp : qloc) : option nat :=
  match pp with Qhead r => sender_queue (task s r) | Qnext i => next_in_queue (task s i) end.
Definition qwrite (s : kst) (pp : qloc) (v : option nat) : kst :=
  match pp with
  | Qhead r => upd s r (set_sender_queue v)
  | Qnext i => upd s i (set_next_in_queue v)
  end.
Definition from_match (src_pid : Z) (p : proc_t) : bool := (src_pid =? 0) || (pid p =? src_pid).
Fixpoint dequeue_from (s : kst) (pp : qloc) (src_pid : Z) (fuel : nat) : outcome (option nat * kst) :=
  match fuel with
  | O => Loop
  | S fuel =>
    match qread s pp with
    | None => Ret (None, s)
    | Some i =>
      if from_match src_pid (task s i)
      then let s := qwrite s pp (next_in_queue (task s i)) in
           Ret (Some i, upd s i (set_next_in_queue None))
      else dequeue_from s (Qnext i) src_pid fuel
    end
  end.
(** a list longer than the table is a cycle *)
Definition sender_dequeue (s : kst) (recv : nat) (src_pid : Z) : outcome (option nat * kst) :=
  dequeue_from s (Qhead recv) src_pid (S MAX_TASKS).

Definition ipc_wake_sender_after_deliver (s : kst) (snd : option nat) : kst :=
  match snd with
  | Some i =>
    if is_state PROC_STATE_SENDING (task s i) then upd s i (set_state PROC_STATE_WAITING_REPLY) else s
  | None => s
  end.

(** the task table as a part of a larger state *)
Class Kern (K : Type) := { kget : K → kst; kput : K → kst → K }.
#[export] Instance kst_kern : Kern kst := { kget := λ s, s; kput := λ _ s, s }.
Section halting.
(** what runs between [sti; hlt] and [cli] *)
Context {K : Type} `{Kern K} (irq : K → outcome K).
Fixpoint ipc_wait_until_pending (fuel : nat) (s : K) (cur : nat) : outcome K :=
  if msg_pending (task (kget s) cur) =? 0
  then match fuel with
       | O => Loop
       | S fuel => s ← irq s; ipc_wait_until_pending fuel s cur
       end
  else Ret s.
(** one round of [for (;;)] of [ipc_receive] *)
Definition receive_round (s : kst) (current : nat) (src_pid : Z) : outcome (option message_t * kst) :=
  let p := task s current in
  if negb (msg_pending p =? 0) && ((src_pid =? 0) || (sender (msg_buffer p) =? src_pid))
  then
    let msg := msg_copy_out s current in
    let s := upd s current (set_msg_pending 0) in
    Ret (Some msg, process_ipc_wake_from_receive s current)
  else
    '(snd, s) ← sender_dequeue s current src_pid;
    match snd with
    | Some i => Ret (Some (msg_copy_out s i), ipc_wake_sender_after_deliver s (Some i))
    | None => Ret (None, upd s current (set_state PROC_STATE_RECEIVING))
    end.
Fixpoint receive_loop (fuel : nat) (s : K) (current : nat) (src_pid : Z) : outcome (message_t * K) :=
  '(r, k) ← receive_round (kget s) current src_pid;
  let s := kput s k in
  match r with
  | Some msg => Ret (msg, s)
  | None => match fuel with
            | O => Loop
            | S fuel => s ← irq s; receive_loop fuel s current src_pid
            end
  end.
Definition ipc_receive (fuel : nat) (s : K) (src_pid : Z) : outcome (message_t * K) :=
  receive_loop fuel s (get_current_process (kget s)) src_pid.
End halting.

Definition ipc_consume_pending_message (s : kst) (cur : nat) : message_t * kst :=
  (msg_copy_out s cur, upd s cur (set_msg_pending 0)).

(** [while (current->state == SENDING) sched_yield();] *)
Fixpoint send_spin (fuel : nat) (s : kst) (current : nat) : outcome kst :=
  if is_state PROC_STATE_SENDING (task s current)
  then match fuel with
       | O => Loop
       | S fuel => s ← sched_yield s; send_spin fuel s current
       end
  else Ret s.
(** a null message is [None] *)
Definition ipc_send (fuel : nat) (s : kst) (dest_pid : Z) (msg : option message_t) : outcome (Z * kst) :=
  match msg with
  | None => Ret (IPC_ERROR, s)
  | Some msg =>
    let current := process_current_task_for_ipc s in
    match process_find_by_pid s dest_pid with
    | None => Ret (IPC_ERROR, s)
    | Some dest =>
      if is_state PROC_STATE_FREE (task s dest) then Ret (IPC_ERROR, s)
      else if (dest =? current)%nat then Ret (IPC_ERROR, s)
      else if is_state PROC_STATE_RECEIVING (task s dest)
      then
        let s := msg_copy_to_buffer s dest current msg in
        let s := upd s dest (set_msg_pending 1) in
        let s := process_ipc_wake_from_receive s dest in
        Ret (IPC_OK, upd s current (set_state PROC_STATE_WAITING_REPLY))
      else
        let s := stash_outgoing s current msg in
        let s := upd s current (set_state PROC_STATE_SENDING) in
        let s := sender_enqueue s dest current in
        s ← send_spin fuel s current;
        Ret (IPC_OK, s)
    end
  end.
Definition ipc_reply (s : kst) (dest_pid : Z) (msg : option message_t) : Z * kst :=
  match msg with
  | None => (IPC_ERROR, s)
  | Some msg =>
    let current := get_current_process s in
    match process_find_by_pid s dest_pid with
    | None => (IPC_ERROR, s)
    | Some peer =>
      if negb (is_state PROC_STATE_WAITING_REPLY (task s peer)) then (IPC_ERROR, s)
      else
        let s := msg_copy_to_buffer s peer current msg in
        let s := upd s peer (set_msg_pending 1) in
        (IPC_OK, process_ipc_wake_after_reply s peer)
    end
  end.

(** ** The sender queue as a list *)
Fixpoint chain (s : kst) (head : option nat) (l : list nat) : Prop :=
  match l with
  | [] => head = None
  | i :: l => head = Some i ∧ chain s (next_in_queue (task s i)) l
  end.
(** the location that holds the pointer to the element after [l1] *)
Fixpoint pred (pp : qloc) (l1 : list nat) : qloc :=
  match l1 with
  | [] => pp
  | i :: l1 => pred (Qnext i) l1
  end.
Definition loc_slot (pp : qloc) : nat := match pp with Qhead r => r | Qnext i => i end.
Definition not_link (pp : qloc) (l : list nat) : Prop := match pp with Qhead _ => True | Qnext i => i ∉ l end.
Definition slots (s : kst) (l : list nat) : Prop := Forall (λ i, (i < length (tasks s))%nat) l.

Section queue.
Implicit Types (s : kst) (l : list nat) (pp : qloc) (i j : nat).
Lemma chain_frame s s' l : ∀ h, (∀ i, i ∈ l → next_in_queue (task s' i) = next_in_queue (task s i)) →
  chain s h l → chain s' h l.
Proof.
  induction l as [|i l IH]; intros h Hf; [done|]. intros [-> Hc]. split; [done|].
  rewrite Hf by set_solver. apply IH; [|done]. intros. apply Hf. set_solver.
Qed.
Lemma dequeue_from_spec s src l : ∀ pp fuel, chain s (qread s pp) l → (length l < fuel)%nat →
  (∃ l1 j l2, l = l1 ++ j :: l2 ∧ (∀ k, k ∈ l1 → from_match src (task s k) = false) ∧
     from_match src (task s j) = true ∧
     dequeue_from s pp src fuel =
     Ret (Some j, upd (qwrite s (pred pp l1) (next_in_queue (task s j))) j (set_next_in_queue None))) ∨
  ((∀ k, k ∈ l → from_match src (task s k) = false) ∧ dequeue_from s pp src fuel = Ret (None, s)).
Proof.
  induction l as [|i l IH]; intros pp fuel Hc Hf; (destruct fuel as [|fuel]; [simpl in Hf; lia|]);
    cbn [dequeue_from]; cbn [chain] in Hc.
  { rewrite Hc. right. split; [set_solver|done]. }
  destruct Hc as [Hh Hc]. rewrite Hh. destruct (from_match src (task s i)) eqn:E.
  { left. exists [], i, l. split; [done|]. split; [set_solver|]. split; [done|]. done. }
  simpl in Hf. destruct (IH (Qnext i) fuel Hc ltac:(lia)) as [(l1 & j & l2 & -> & H1 & H2 & H3)|[H1 H2]].
  - left. exists (i :: l1), j, l2. split; [done|]. split; [|done].
    intros k [->|Hk]%elem_of_cons; [done|auto].
  - right. split; [|done]. intros k [->|Hk]%elem_of_cons; [done|auto].
Qed.
Lemma length_qwrite s pp v : length (tasks (qwrite s pp v)) = length (tasks s).
Proof. destruct pp; apply length_upd. Qed.
(** unlinking [j] from [l1 ++ j :: l2] *)
Lemma chain_unlink s j l2 : ∀ l1 pp, chain s (qread s pp) (l1 ++ j :: l2) → NoDup (l1 ++ j :: l2) →
  slots s (loc_slot pp :: l1 ++ j :: l2) → not_link pp (l1 ++ j :: l2) →
  let s' := upd (qwrite s (pred pp l1) (next_in_queue (task s j))) j (set_next_in_queue None) in
  chain s' (qread s' pp) (l1 ++ l2).
Proof.
  induction l1 as [|i l1 IH]; intros pp Hc Hnd Hsl Hnl s'; cbn [app chain pred] in *.
  - destruct Hc as [Hh Hc]. apply NoDup_cons in Hnd as [Hj Hnd]. apply Forall_cons in Hsl as [Hpl Hsl].
    apply Forall_cons in Hsl as [Hjl Hsl].
    assert (qread s' pp = next_in_queue (task s j)) as ->.
    { unfold s'. destruct pp as [r|k]; cbn [qread qwrite loc_slot] in *.
      - rewrite task_upd by (rewrite length_upd; lia). case_decide; subst; simpl; by rewrite task_upd_same.
      - assert (k ≠ j) by set_solver. rewrite task_upd_other by done. by rewrite task_upd_same. }
    eapply chain_frame, Hc. intros i Hi. unfold s'. assert (j ≠ i) by set_solver.
    rewrite task_upd_other by done. destruct pp as [r|k]; cbn [qwrite not_link loc_slot] in *.
    + rewrite task_upd by lia. by case_decide; subst.
    + rewrite task_upd_other; [done|]. set_solver.
  - destruct Hc as [Hh Hc]. apply NoDup_cons in Hnd as [Hi Hnd]. apply Forall_cons in Hsl as [Hpl Hsl].
    pose proof Hsl as [Hil Hsl']%Forall_cons.
    split; [|apply (IH (Qnext i)); done].
    assert (∃ q, pred (Qnext i) l1 = Qnext q ∧ q ∈ i :: l1) as (q & Eq & Hq).
    { clear. revert i. induction l1 as [|a l1 IH]; intros i; simpl; [exists i; set_solver|].
      destruct (IH a) as (q & -> & ?). exists q. set_solver. }
    unfold s'. rewrite Eq. cbn [qwrite]. destruct pp as [r|k]; cbn [qread not_link loc_slot] in *.
    + rewrite task_upd by (rewrite length_upd; unfold slots in Hsl'; rewrite Forall_forall in Hsl'; apply Hsl'; set_solver).
      assert (q < length (tasks s))%nat by (unfold slots in Hsl; rewrite Forall_forall in Hsl; apply Hsl; set_solver).
      case_decide; subst; simpl; rewrite task_upd by done; case_decide; subst; done.
    + assert (k ≠ j ∧ k ≠ q) as [? ?] by set_solver. by rewrite !task_upd_other.
Qed.
End queue.

(** ** Invariant *)
Section preserve.
Implicit Types (s : kst) (i j : nat).
(** writes that touch only the message or the queue links *)
Lemma set_buffer_wf s i m : kwf s → (i < MAX_TASKS)%nat → length (payload m) = MAX_MSG_PAYLOAD →
  kwf (upd s i (set_msg_buffer m)).
Proof. intros Hs Hi Hm. apply kwf_upd; [done..|]. destruct (kwf_slot s i Hs Hi). by split. Qed.
Lemma set_pending_wf s i v : kwf s → (i < MAX_TASKS)%nat → kwf (upd s i (set_msg_pending v)).
Proof. intros Hs Hi. apply kwf_upd; [done..|]. destruct (kwf_slot s i Hs Hi). by split. Qed.
Lemma set_next_wf s i v : kwf s → (i < MAX_TASKS)%nat → (∀ j, v = Some j → (j < MAX_TASKS)%nat) →
  kwf (upd s i (set_next_in_queue v)).
Proof. intros Hs Hi Hv. apply kwf_upd; [done..|]. destruct (kwf_slot s i Hs Hi). by split. Qed.
Lemma set_queue_wf s i v : kwf s → (i < MAX_TASKS)%nat → (∀ j, v = Some j → (j < MAX_TASKS)%nat) →
  kwf (upd s i (set_sender_queue v)).
Proof. intros Hs Hi Hv. apply kwf_upd; [done..|]. destruct (kwf_slot s i Hs Hi). by split. Qed.
Lemma ptr_lt s i j : kwf s → (i < MAX_TASKS)%nat →
  next_in_queue (task s i) = Some j ∨ sender_queue (task s i) = Some j → (j < MAX_TASKS)%nat.
Proof. intros Hs. apply Hs. Qed.
Lemma qread_lt s pp j : kwf s → (loc_slot pp < MAX_TASKS)%nat → qread s pp = Some j → (j < MAX_TASKS)%nat.
Proof. intros Hs Hp E. destruct pp; eapply ptr_lt; eauto. Qed.
Lemma qwrite_wf s pp v : kwf s → (loc_slot pp < MAX_TASKS)%nat → (∀ j, v = Some j → (j < MAX_TASKS)%nat) →
  kwf (qwrite s pp v).
Proof. intros Hs Hp Hv. destruct pp; [by apply set_queue_wf|by apply set_next_wf]. Qed.
Lemma dequeue_from_wf fuel : ∀ s pp src r s', kwf s → (loc_slot pp < MAX_TASKS)%nat →
  dequeue_from s pp src fuel = Ret (r, s') → kwf s' ∧ (∀ i, r = Some i → (i < MAX_TASKS)%nat).
Proof.
  induction fuel as [|fuel IH]; intros s pp src r s' Hs Hp E; [done|]. cbn [dequeue_from] in E.
  destruct (qread s pp) as [i|] eqn:Eq; [|by simplify_eq].
  pose proof (qread_lt s pp i Hs Hp Eq) as Hi. destruct (from_match src (task s i)); [|by eapply IH in E].
  injection E as <- <-. split; [|by intros ? [= <-]]. apply set_next_wf; [|done|done].
  apply qwrite_wf; [done..|]. intros j Hj. eapply ptr_lt; eauto.
Qed.
Lemma sender_enqueue_wf s d i : kwf s → (d < MAX_TASKS)%nat → (i < MAX_TASKS)%nat → kwf (sender_enqueue s d i).
Proof.
  intros Hs Hd Hi. unfold sender_enqueue. apply set_queue_wf; [|done|by intros ? [= <-]].
  apply set_next_wf; [done..|]. intros j Hj. apply (ptr_lt s d j Hs Hd). by right.
Qed.
Lemma ipc_reply_wf s n m : kwf s → (∀ x, m = Some x → length (payload x) = MAX_MSG_PAYLOAD) →
  kwf (snd (ipc_reply s n m)).
Proof.
  intros Hs Hm. unfold ipc_reply. destruct m as [m|]; [|done]. specialize (Hm m eq_refl).
  destruct (process_find_by_pid s n) as [k|] eqn:E; [|done]. apply find_by_pid_Some in E as (Hk & _); [|done].
  case_if; [done|]. apply wake_after_reply_wf; [|done]. apply set_pending_wf; [|done]. by apply set_buffer_wf.
Qed.
Lemma send_spin_wf fuel : ∀ s c s', kwf s → send_spin fuel s c = Ret s' → kwf s'.
Proof.
  induction fuel as [|fuel IH]; intros s c s' Hs E; cbn [send_spin] in E; case_match; try done; try by simplify_eq.
  destruct (schedule_spec s Hs) as (s1 & E1 & H1 & _). unfold sched_yield in E. rewrite E1 in E. by apply IH in E.
Qed.
Lemma ipc_send_wf fuel s n m r s' : kwf s →
  state (task s (process_current_task_for_ipc s)) ≠ PROC_STATE_FREE →
  (∀ x, m = Some x → length (payload x) = MAX_MSG_PAYLOAD) → ipc_send fuel s n m = Ret (r, s') → kwf s'.
Proof.
  intros Hs Hc Hm E. unfold ipc_send in E. destruct m as [m|]; [|by simplify_eq]. specialize (Hm m eq_refl).
  pose proof (current_for_ipc_lt s Hs) as Hcl. set (c := process_current_task_for_ipc s) in *.
  destruct (process_find_by_pid s n) as [d|] eqn:Ed; [|by simplify_eq].
  apply find_by_pid_Some in Ed as (Hd & _ & Hdf); [|done].
  destruct (is_state PROC_STATE_FREE (task s d)); [by simplify_eq|].
  destruct (d =? c)%nat eqn:Edc; [by simplify_eq|]. apply Nat.eqb_neq in Edc.
  destruct (is_state PROC_STATE_RECEIVING (task s d)) eqn:Er.
  - injection E as <- <-. unfold msg_copy_to_buffer.
    assert (kwf (upd (upd s d (set_msg_buffer (Msg (pid (task s c)) (mtype m) (payload m)))) d (set_msg_pending 1))) as H1
      by (apply set_pending_wf; [by apply set_buffer_wf|done]).
    pose proof (wake_from_receive_wf _ d H1 Hd) as H2. apply set_state_wf; [done..| |done].
    unfold process_ipc_wake_from_receive. case_if; rewrite !task_upd_other by done; done.
  - destruct (send_spin _ _ _) as [s1| |] eqn:Es; [|done..]. cbn in E. injection E as <- <-.
    eapply send_spin_wf, Es. apply sender_enqueue_wf; [|done..]. unfold stash_outgoing, msg_copy_to_buffer.
    apply set_state_wf; [by apply set_buffer_wf|done| |done]. rewrite task_upd_same by (rewrite (kw_len _ Hs); done). done.
Qed.
Lemma receive_round_wf s src r s' : kwf s → state (task s (get_current_process s)) ≠ PROC_STATE_FREE →
  receive_round s (get_current_process s) src = Ret (r, s') → kwf s'.
Proof.
  intros Hs Hlive E. unfold receive_round in E. pose proof (kw_cur _ Hs) as Hc. fold (get_current_process s) in Hc.
  set (c := get_current_process s) in *.
  destruct (negb (msg_pending (task s c) =? 0) && ((src =? 0) || (sender (msg_buffer (task s c)) =? src))).
  - injection E as <- <-. apply wake_from_receive_wf; [by apply set_pending_wf|done].
  - destruct (sender_dequeue s c src) as [[o s1]| |] eqn:Ed; [|done..]. cbn in E.
    pose proof (dequeue_from_wf _ s (Qhead c) _ _ _ Hs Hc Ed) as [H1 Ho]. destruct o as [i|].
    + injection E as <- <-. specialize (Ho i eq_refl). unfold ipc_wake_sender_after_deliver. case_if; [|done].
      apply is_state_true in Heqb. apply set_state_wf; [done..| |done]. by rewrite Heqb.
    + injection E as <- <-. apply set_state_wf; [done..| |done].
      assert (s1 = s) as ->; [|done]. unfold sender_dequeue in Ed.
      clear -Ed. revert Ed. generalize (Qhead c) (S MAX_TASKS). intros pp fuel. revert pp.
      induction fuel as [|fuel IH]; intros pp Ed; [done|]. cbn [dequeue_from] in Ed.
      destruct (qread s pp); [|by simplify_eq]. case_match; [done|eauto].
Qed.
End preserve.

(** ** The task table as a transition system *)
(** Kernel entry points that change the table, with the conditions under which
    the kernel calls them: the task that acts is live, messages have 48 bytes
    of payload, and fixed pids fit in an [int]. *)
Inductive kstep : kst → kst → Prop :=
| step_alloc s parent : kstep s (snd (process_alloc_user s parent))
| step_create s ep r s' : process_create s ep = Ret (r, s') → kstep s s'
| step_spawn s n ep r s' : 0 <= n < 2 ^ 31 →
    process_spawn_kernel_at_pid s n ep = Ret (r, s') → kstep s s'
| step_bind s n parent : 0 <= n < 2 ^ 31 → kstep s (process_bind_user_slot_ex s n parent)
| step_exit s i status : (i < MAX_TASKS)%nat → state (task s i) ≠ PROC_STATE_FREE →
    kstep s (process_mark_exit s (Some i) status)
| step_reap s par target r s' : process_reap_child s par target = Ret (r, s') → kstep s s'
| step_tick s s' : sched_on_timer_tick s = Ret s' → kstep s s'
| step_send fuel s n m r s' : state (task s (process_current_task_for_ipc s)) ≠ PROC_STATE_FREE →
    length (payload m) = MAX_MSG_PAYLOAD → ipc_send fuel s n (Some m) = Ret (r, s') → kstep s s'
| step_receive s src r s' : state (task s (get_current_process s)) ≠ PROC_STATE_FREE →
    receive_round s (get_current_process s) src = Ret (r, s') → kstep s s'
| step_reply s n m : length (payload m) = MAX_MSG_PAYLOAD → kstep s (snd (ipc_reply s n (Some m)))
| step_consume s i : (i < MAX_TASKS)%nat → kstep s (snd (ipc_consume_pending_message s i)).
Inductive reachable (s0 : kst) : kst → Prop :=
| reach_init : reachable s0 (process_init s0)
| reach_step s s' : reachable s0 s → kstep s s' → reachable s0 s'.

Lemma kstep_wf s s' : kwf s → kstep s s' → kwf s'.
Proof.
  intros Hs Hst. destruct Hst.
  - by apply process_alloc_user_wf.
  - destruct (process_create_wf s ep Hs) as (r' & s1 & E & H1). congruence.
  - destruct (process_spawn_wf s n ep Hs) as (r' & s1 & E & H1); [done|]. congruence.
  - by apply process_bind_wf.
  - apply process_mark_exit_wf; [done|by intros ? [= <-]|by intros ? [= <-]].
  - destruct (process_reap_wf s par target Hs) as (r' & s1 & E & H1). congruence.
  - destruct (schedule_spec s Hs) as (s1 & E & H1 & _). unfold sched_on_timer_tick in *. congruence.
  - eapply ipc_send_wf; eauto. by intros ? [= <-].
  - by eapply receive_round_wf.
  - apply ipc_reply_wf; [done|]. by intros ? [= <-].
  - by apply set_pending_wf.
Qed.

(** ** Rendezvous *)
Section rendezvous.
Implicit Types (s : kst) (c d : nat).
(** the state after a send to a receiving task *)
Lemma send_receiving fuel s d msg : kwf s → (d < MAX_TASKS)%nat →
  state (task s d) = PROC_STATE_RECEIVING → d ≠ process_current_task_for_ipc s →
  let c := process_current_task_for_ipc s in
  ∃ s1, ipc_send fuel s (Z.of_nat d) (Some msg) = Ret (IPC_OK, s1) ∧
    current_task_idx s1 = current_task_idx s ∧ active_user_pid s1 = active_user_pid s ∧
    task s1 d = set_state (wake_state s (task s d)) (set_msg_pending 1
                  (set_msg_buffer (Msg (pid (task s c)) (mtype msg) (payload msg)) (task s d))) ∧
    task s1 c = set_state PROC_STATE_WAITING_REPLY (task s c).
Proof.
  intros Hs Hd Hst Hne c. pose proof (current_for_ipc_lt s Hs) as Hc. fold c in Hc, Hne.
  pose proof (kw_len _ Hs) as Hl. unfold ipc_send. fold c.
  assert (process_find_by_pid s (Z.of_nat d) = Some d) as -> by (apply find_by_pid_Some; [done|]; by rewrite Hst).
  rewrite (proj2 (is_state_false _ _)) by (by rewrite Hst). rewrite (proj2 (Nat.eqb_neq d c)) by done.
  rewrite (proj2 (is_state_true _ _)) by done. eexists. split; [done|].
  unfold process_ipc_wake_from_receive, msg_copy_to_buffer.
  assert (task (upd (upd s d (set_msg_buffer (Msg (pid (task s c)) (mtype msg) (payload msg)))) d (set_msg_pending 1)) d
          = set_msg_pending 1 (set_msg_buffer (Msg (pid (task s c)) (mtype msg) (payload msg)) (task s d))) as E
    by (rewrite !task_upd_same by (rewrite ?length_upd; lia); done).
  rewrite E, (proj2 (is_state_true _ _)) by done. cbn [negb].
  split; [done|]. split; [done|]. rewrite (task_upd_other _ c d) by done.
  rewrite (task_upd_same _ c), !(task_upd_other _ d c), (task_upd_same _ d), E by
    (done || rewrite !length_upd; lia). done.
Qed.
Lemma receive_pending irq fuel s src : kwf s → msg_pending (task s (current_task_idx s)) ≠ 0 →
  src = 0 ∨ sender (msg_buffer (task s (current_task_idx s))) = src →
  state (task s (current_task_idx s)) ≠ PROC_STATE_RECEIVING →
  ipc_receive irq fuel s src = Ret (msg_buffer (task s (current_task_idx s)),
    upd s (current_task_idx s) (set_msg_pending 0)).
Proof.
  intros Hs Hp Hsrc Hst. unfold ipc_receive, get_current_process. cbn [kget kst_kern]. pose proof (kw_cur _ Hs).
  set (d := current_task_idx s) in *.
  assert (receive_round s d src = Ret (Some (msg_buffer (task s d)), upd s d (set_msg_pending 0))) as E.
  { unfold receive_round, msg_copy_out. rewrite (proj2 (Z.eqb_neq (msg_pending (task s d)) 0)) by done. cbn [negb andb].
    assert ((src =? 0) || (sender (msg_buffer (task s d)) =? src) = true) as ->
      by (destruct Hsrc as [->|<-]; [done|by rewrite Z.eqb_refl, orb_true_r]).
    unfold process_ipc_wake_from_receive. rewrite task_upd_same by (by rewrite (kw_len _ Hs)).
    rewrite (proj2 (is_state_false _ _)) by done. cbn. by destruct (msg_buffer (task s d)). }
  destruct fuel; cbn [receive_loop kget kput kst_kern]; rewrite E; done.
Qed.
Lemma reply_waiting s c msg : kwf s → (c < MAX_TASKS)%nat → state (task s c) = PROC_STATE_WAITING_REPLY →
  ∃ s', ipc_reply s (Z.of_nat c) (Some msg) = (IPC_OK, s') ∧
    task s' c = set_state (wake_state s (task s c)) (set_msg_pending 1
      (set_msg_buffer (Msg (pid (task s (current_task_idx s))) (mtype msg) (payload msg)) (task s c))) ∧
    active_user_pid s' = active_user_pid s.
Proof.
  intros Hs Hc Hst. pose proof (kw_len _ Hs) as Hl. unfold ipc_reply, get_current_process.
  assert (process_find_by_pid s (Z.of_nat c) = Some c) as -> by (apply find_by_pid_Some; [done|]; by rewrite Hst).
  rewrite (proj2 (is_state_true _ _)) by done. cbn [negb]. eexists. split; [done|].
  unfold process_ipc_wake_after_reply, msg_copy_to_buffer.
  assert (task (upd (upd s c (set_msg_buffer (Msg (pid (task s (current_task_idx s))) (mtype msg) (payload msg)))) c (set_msg_pending 1)) c
          = set_msg_pending 1 (set_msg_buffer (Msg (pid (task s (current_task_idx s))) (mtype msg) (payload msg)) (task s c))) as E
    by (rewrite !task_upd_same by (rewrite ?length_upd; lia); done).
  rewrite E, (proj2 (is_state_true _ _)) by done. cbn [negb].
  rewrite task_upd_same, E by (rewrite !length_upd; lia). done.
Qed.
(** the spinning sender stays in SENDING *)
Lemma send_spin_loops fuel : ∀ s c, kwf s → (c < MAX_TASKS)%nat →
  state (task s c) = PROC_STATE_SENDING → send_spin fuel s c = Loop.
Proof.
  induction fuel as [|fuel IH]; intros s c Hs Hc Hst; cbn [send_spin];
    rewrite (proj2 (is_state_true _ _)) by done; [done|].
  destruct (schedule_spec s Hs) as (s1 & E & H1 & Hcase). unfold sched_yield. rewrite E. ostep.
  apply IH; [done..|]. destruct Hcase as [(k & _ & Hr & _ & _ & _ & _ & _ & _ & Ht)|(-> & _)]; [|done].
  rewrite Ht by done. rewrite decide_False by congruence. rewrite decide_False; [done|]. intros [_ ?]. congruence.
Qed.
End rendezvous.

(** ** Theorems *)

(** The sender queue refines a list.  With the pointers of [dest] forming
    the duplicate-free list [l] of slots, [sender_enqueue] puts the sender in
    front of [l]; [sender_dequeue] takes the first element whose pid is wanted
    (any, for 0) out of the list, keeping the order of the others and
    clearing its link, or returns NULL and changes nothing when no element is
    wanted. *)
Theorem sender_queue_refines s dest l src : kwf s → (dest < MAX_TASKS)%nat →
  chain s (sender_queue (task s dest)) l → NoDup l → Forall (λ i, (i < MAX_TASKS)%nat) l →
  (∀ i, (i < MAX_TASKS)%nat → i ∉ l →
     let s' := sender_enqueue s dest i in chain s' (sender_queue (task s' dest)) (i :: l)) ∧
  ((∃ l1 j l2 s', l = l1 ++ j :: l2 ∧ (∀ k, k ∈ l1 → from_match src (task s k) = false) ∧
      from_match src (task s j) = true ∧ sender_dequeue s dest src = Ret (Some j, s') ∧
      next_in_queue (task s' j) = None ∧ chain s' (sender_queue (task s' dest)) (l1 ++ l2)) ∨
   ((∀ k, k ∈ l → from_match src (task s k) = false) ∧ sender_dequeue s dest src = Ret (None, s))).
Proof.
  intros Hs Hd Hc Hnd Hl. pose proof (kw_len _ Hs) as Hlen. split.
  - intros i Hi Hil s'.
    assert (sender_queue (task s' dest) = Some i) as ->
      by (unfold s', sender_enqueue; by rewrite task_upd_same by (rewrite length_upd; lia)).
    cbn [chain]. split; [done|].
    assert (next_in_queue (task s' i) = sender_queue (task s dest)) as ->.
    { unfold s', sender_enqueue. rewrite task_upd by (rewrite length_upd; lia).
      case_decide; subst; simpl; by rewrite task_upd_same by lia. }
    eapply chain_frame, Hc. intros k Hk. unfold s', sender_enqueue. rewrite task_upd by (rewrite length_upd; lia).
    assert (i ≠ k) by congruence. case_decide; subst; simpl; by rewrite task_upd_other.
  - assert (length l < S MAX_TASKS)%nat as Hlt.
    { assert (l ⊆+ seq 0 MAX_TASKS) as Hsub%submseteq_length.
      { apply NoDup_submseteq; [done|]. intros x Hx. rewrite Forall_forall in Hl. apply elem_of_seq.
        specialize (Hl x Hx). lia. }
      rewrite length_seq in Hsub. lia. }
    destruct (dequeue_from_spec s src l (Qhead dest) (S MAX_TASKS) Hc Hlt) as [(l1 & j & l2 & -> & H1 & H2 & H3)|?];
      [left|by right].
    eexists l1, j, l2, _. split; [done|]. split; [done|]. split; [done|]. split; [exact H3|].
    assert (slots s (dest :: l1 ++ j :: l2)) as Hsl by (constructor; rewrite ?Hlen; done).
    split.
    + rewrite task_upd_same; [done|]. rewrite length_qwrite, Hlen. rewrite Forall_forall in Hl. apply Hl. set_solver.
    + by apply (chain_unlink s j l2 l1 (Qhead dest)).
Qed.

(** timer ticks move tasks between READY and RUNNING and nothing else *)
Lemma set_state_self p : set_state (state p) p = p.
Proof. by destruct p. Qed.
Lemma ticks_frame n : ∀ s s', kwf s → ticks n s = Ret s' → active_user_pid s' = active_user_pid s ∧
  ∀ i, (i < MAX_TASKS)%nat → task s' i = set_state (state (task s' i)) (task s i) ∧
    (state (task s i) ≠ PROC_STATE_READY → state (task s i) ≠ PROC_STATE_RUNNING → task s' i = task s i).
Proof.
  induction n as [|n IH]; intros s s' Hs E; cbn [ticks] in E.
  { injection E as <-. split; [done|]. intros i _. by rewrite set_state_self. }
  apply outcome_bind_Ret in E as (s1 & E1 & E2). destruct (schedule_spec s Hs) as (s1' & Es & H1 & Hcase).
  unfold sched_on_timer_tick in E1. rewrite Es in E1. injection E1 as <-. destruct (IH _ _ H1 E2) as [Ha Ht].
  assert (active_user_pid s1' = active_user_pid s ∧ ∀ i, (i < MAX_TASKS)%nat → (∃ st, task s1' i = set_state st (task s i)) ∧
    (state (task s i) ≠ PROC_STATE_READY → state (task s i) ≠ PROC_STATE_RUNNING → task s1' i = task s i)) as [Ha1 Ht1].
  { destruct Hcase as [(k & _ & Hr & _ & _ & _ & _ & Ha1 & _ & Hsw)|(-> & _)].
    - split; [done|]. intros i Hi. rewrite (Hsw i Hi). case_decide as Hd; [split; [eauto|congruence]|]. case_decide as Hd2; [split; [eauto|by intros _ N2; destruct Hd2]|].
      split; [exists (state (task s i)); by rewrite set_state_self|done].
    - split; [done|]. intros i _. split; [exists (state (task s i)); by rewrite set_state_self|done]. }
  split; [congruence|]. intros i Hi. destruct (Ht i Hi) as [Hi1 Hi2], (Ht1 i Hi) as [[st Hi3] Hi4]. split.
  - rewrite Hi1 at 1. by rewrite Hi3.
  - intros N1 N2. rewrite Hi2; rewrite Hi4; done.
Qed.

(** C24. A remote call hands both messages over unchanged: when [d] is
    RECEIVING and is not the slot of the active user program, the current
    task's [ipc_send] returns; within 16 timer ticks the scheduler makes [d]
    the current task; its [ipc_receive] then returns the sender's pid with the
    type and payload that were sent; its [ipc_reply] to that pid succeeds, and
    the message the caller then consumes carries the pid of [d] and the
    reply's type and payload, with the caller runnable again.  The functions
    are run in this order on the task table: that the code of [d] goes on when
    [d] becomes current is what a context switch would add. *)
Theorem ipc_call_roundtrip irq fuel fuel' s d msg rep : kwf s → (d < MAX_TASKS)%nat →
  state (task s d) = PROC_STATE_RECEIVING → d ≠ process_current_task_for_ipc s → active_user_pid s ≠ Z.of_nat d →
  state (task s (process_current_task_for_ipc s)) ≠ PROC_STATE_FREE → length (payload msg) = MAX_MSG_PAYLOAD →
  let c := process_current_task_for_ipc s in
  ∃ s1 n s1' s2 s3, ipc_send fuel s (Z.of_nat d) (Some msg) = Ret (IPC_OK, s1) ∧
    (n <= MAX_TASKS)%nat ∧ ticks n s1 = Ret s1' ∧ current_task_idx s1' = d ∧
    ipc_receive irq fuel' s1' 0 = Ret (Msg (Z.of_nat c) (mtype msg) (payload msg), s2) ∧
    ipc_reply s2 (Z.of_nat c) (Some rep) = (IPC_OK, s3) ∧
    fst (ipc_consume_pending_message s3 c) = Msg (Z.of_nat d) (mtype rep) (payload rep) ∧
    state (task s3 c) = wake_state s (task s c).
Proof.
  intros Hs Hd Hst Hne Hna Hlive Hlen c. pose proof (current_for_ipc_lt s Hs) as Hc. fold c in Hc, Hlive, Hne.
  destruct (send_receiving fuel s d msg Hs Hd Hst Hne) as (s1 & E1 & _ & Ha & Td & Tc). fold c in Td, Tc.
  assert (kwf s1) as Hs1 by (apply (ipc_send_wf fuel s (Z.of_nat d) (Some msg) IPC_OK s1 Hs Hlive); [intros x [= <-]; exact Hlen|exact E1]).
  assert (pid (task s d) = Z.of_nat d) as Hpd by (apply Hs; [done|by rewrite Hst]).
  assert (pid (task s c) = Z.of_nat c) as Hpc by (by apply Hs).
  assert (state (task s1 d) = PROC_STATE_READY) as Hready.
  { rewrite Td. cbn. unfold wake_state. rewrite Hpd, (proj2 (Z.eqb_neq _ _)) by congruence. done. }
  destruct (after_offset (current_task_idx s1) d (kw_cur _ Hs1) Hd) as (k & Hk & Hkd).
  destruct (ticks_reach k s1 d Hs1 Hk Hkd Hready) as (n & s1' & Hn & Et & H1 & Hcur & Hrun).
  destruct (ticks_frame n s1 s1' Hs1 Et) as [Hact Hfr]. destruct (Hfr d Hd) as [Td1 _]. rewrite Hrun, Td in Td1.
  assert (task s1' c = task s1 c) as Tc1 by (apply Hfr; [done|by rewrite Tc..]). rewrite Tc in Tc1.
  pose proof (kw_len _ H1) as Hl1.
  pose proof (receive_pending irq fuel' s1' 0 H1) as E2. rewrite Hcur, Td1 in E2. cbn in E2.
  rewrite Hpc in E2. specialize (E2 ltac:(lia) ltac:(by left) ltac:(done)).
  set (s2 := upd s1' d (set_msg_pending 0)) in *.
  assert (kwf s2) as H2 by (by apply set_pending_wf).
  assert (task s2 c = task s1' c) as T2c by (by apply task_upd_other).
  destruct (reply_waiting s2 c rep H2 Hc) as (s3 & E3 & T3 & _); [by rewrite T2c, Tc1|].
  exists s1, n, s1', s2, s3. split; [done|]. split; [lia|]. split; [done|]. split; [done|]. split; [done|]. split; [done|].
  unfold ipc_consume_pending_message, msg_copy_out. cbn [fst].
  change (current_task_idx s2) with (current_task_idx s1') in T3. rewrite Hcur in T3.
  assert (pid (task s2 d) = Z.of_nat d) as Hpd2.
  { unfold s2. rewrite task_upd_same by lia. by rewrite Td1. }
  rewrite T3, Hpd2. cbn. split; [done|]. rewrite T2c, Tc1. unfold wake_state.
  change (active_user_pid s2) with (active_user_pid s1'). by rewrite Hact, Ha.
Qed.

(** A send to a live task that is not receiving never returns: the sender
    spins in SENDING on [sched_yield], which only moves tasks between READY
    and RUNNING, so no amount of yielding ends the loop. *)
Theorem ipc_send_queued_spins fuel s d msg : kwf s → (d < MAX_TASKS)%nat →
  state (task s d) ≠ PROC_STATE_FREE → state (task s d) ≠ PROC_STATE_RECEIVING →
  d ≠ process_current_task_for_ipc s →
  state (task s (process_current_task_for_ipc s)) ≠ PROC_STATE_FREE →
  length (payload msg) = MAX_MSG_PAYLOAD →
  ipc_send fuel s (Z.of_nat d) (Some msg) = Loop.
Proof.
  intros Hs Hd Hf Hr Hne Hlive Hm. pose proof (current_for_ipc_lt s Hs) as Hc. pose proof (kw_len _ Hs) as Hl.
  unfold ipc_send. set (c := process_current_task_for_ipc s) in *.
  assert (process_find_by_pid s (Z.of_nat d) = Some d) as -> by (by apply find_by_pid_Some).
  rewrite (proj2 (is_state_false PROC_STATE_FREE _)) by done. rewrite (proj2 (Nat.eqb_neq d c)) by done.
  rewrite (proj2 (is_state_false PROC_STATE_RECEIVING _)) by done.
  assert (kwf (upd (stash_outgoing s c msg) c (set_state PROC_STATE_SENDING))) as H1.
  { unfold stash_outgoing, msg_copy_to_buffer.
    apply set_state_wf; [by apply set_buffer_wf|done| |done]. rewrite task_upd_same by lia. done. }
  rewrite send_spin_loops; [done|by apply sender_enqueue_wf|done|].
  unfold sender_enqueue. rewrite task_upd_other by done. unfold stash_outgoing, msg_copy_to_buffer.
  rewrite !task_upd_same by (rewrite ?length_upd; lia). done.
Qed.

(** C23. In every state reachable from start-up by process creation, binding,
    exit, reaping, timer ticks and message passing, the task table is well
    formed: 16 slots, every queue pointer names a slot, a slot in use has its
    index as pid, and at most the current slot is RUNNING. *)
Theorem reachable_table_wf s0 s : pmm_wf (vm_pmm (k_vm s0)) → tasks s0 = replicate MAX_TASKS proc_zero →
  reachable s0 s → kwf s.
Proof.
  intros Hp Ht Hr. induction Hr as [|s s' _ IH Hst]; [|by eapply kstep_wf].
  apply process_init_wf; [done|by rewrite Ht|]. rewrite Ht. intros p Hp'.
  apply list_elem_of_lookup in Hp' as [k Hk]. apply lookup_replicate in Hk as [-> _]. done.
Qed.

(** ** Witnesses: task 3 is receiving, task 2 is the active user task, and
    tasks 1 and 4 wait in the queue of task 3 *)
Definition msg48 (t : Z) : message_t := Msg 0 t (replicate MAX_MSG_PAYLOAD 0).
Definition ipc_procs : list proc_t :=
  [ set_state PROC_STATE_RUNNING proc_zero;
    set_next_in_queue (Some 4%nat) (set_state PROC_STATE_SENDING (set_pid 1 proc_zero));
    set_state PROC_STATE_USER_SLOT (set_pid 2 proc_zero);
    set_sender_queue (Some 1%nat) (set_state PROC_STATE_RECEIVING (set_pid 3 proc_zero));
    set_state PROC_STATE_SENDING (set_pid 4 proc_zero) ] ++ replicate 11 proc_zero.
Definition ipc_demo : kst := Kst (boot_vm 0x83) ipc_procs 0 5 2 0.
Lemma ipc_demo_wf : kwf ipc_demo.
Proof.
  apply kwf_of_slots; [apply boot_pmm_wf|done|unfold MAX_TASKS; simpl; lia|]. intros i Hi. unfold MAX_TASKS in Hi.
  do 16 (destruct i as [|i]; [split; simpl; intros; simplify_eq; unfold MAX_TASKS; first [done|lia]|]). lia.
Qed.
Lemma sender_queue_refines_witness :
  chain (sender_enqueue ipc_demo 3 2) (sender_queue (task (sender_enqueue ipc_demo 3 2) 3)) [2; 1; 4]%nat.
Proof.
  destruct (sender_queue_refines ipc_demo 3 [1; 4]%nat 0 ipc_demo_wf) as [H _];
    [unfold MAX_TASKS; lia|repeat split|by repeat constructor; set_solver|repeat constructor; unfold MAX_TASKS; lia|].
  apply (H 2%nat); [unfold MAX_TASKS; lia|set_solver].
Defined.
Lemma ipc_call_roundtrip_witness : ∃ s1 n s1' s2 s3, ipc_send 0 ipc_demo 3 (Some (msg48 10)) = Ret (IPC_OK, s1) ∧
  ticks n s1 = Ret s1' ∧ ipc_receive (λ s, Ret s) 0 s1' 0 = Ret (Msg 2 10 (replicate MAX_MSG_PAYLOAD 0), s2) ∧
  ipc_reply s2 2 (Some (msg48 11)) = (IPC_OK, s3) ∧
  fst (ipc_consume_pending_message s3 2) = Msg 3 11 (replicate MAX_MSG_PAYLOAD 0) ∧ state (task s3 2) = PROC_STATE_USER_SLOT.
Proof.
  destruct (ipc_call_roundtrip (λ s, Ret s) 0 0 ipc_demo 3 (msg48 10) (msg48 11) ipc_demo_wf)
    as (s1 & n & s1' & s2 & s3 & E1 & _ & E2 & _ & E3 & E4 & E5 & E6);
    [unfold MAX_TASKS; lia|reflexivity|discriminate|discriminate|discriminate|reflexivity|].
  exists s1, n, s1', s2, s3. split; [exact E1|]. split; [exact E2|]. split; [exact E3|]. split; [exact E4|]. split; [exact E5|exact E6].
Defined.
Lemma ipc_send_queued_spins_witness : ipc_send 100 ipc_demo 1 (Some (msg48 1)) = Loop.
Proof.
  apply (ipc_send_queued_spins 100 ipc_demo 1 (msg48 1) ipc_demo_wf);
    [unfold MAX_TASKS; lia|discriminate|discriminate|discriminate|discriminate|reflexivity].
Defined.
Lemma reachable_table_wf_witness : kwf (snd (process_alloc_user (process_init boot_kst) 0)).
Proof.
  apply (reachable_table_wf boot_kst); [apply boot_pmm_wf|reflexivity|].
  eapply reach_step; [apply reach_init|apply step_alloc].
Defined.
End Ipc.
