(* ===== verification/Path.v ===== *)
(** Absolute paths (the path functions of kernel/fs/chaseros/chaseros_ext2_vol.c
    and [vfs_resolve_path] of kernel/fs/vfs.c).  A C string is the list of its
    bytes before the NUL.  [canon] is the specification of normalisation: the
    components of the path with empty ones and "." dropped and ".." removing
    the component before it.  Theorems: [chaseros_path_normalize] computes
    [canon] for paths of at most 32 components of at most 127 bytes and fails
    exactly when the result does not fit the buffer; its results are
    canonical and a fixed point; [path_split_parent] undoes joining. *)
From stdpp Require Import base numbers list sets strings.
From S2P Require Import Prelude.
Open Scope Z_scope.

Module Path.
Definition slash := 47.
Definition dot := 46.
Definition CHASEROS_PATH_MAX : nat := 256.
Definition CHASEROS_SEG_MAX : nat := 32.

(** [while ( *p && *p != '/' && i < n ) seg[i++] = *p++;] *)
Fixpoint seg_take (n : nat) (p : list Z) : list Z * list Z :=
  match n, p with
  | S n, c :: p' => if c =? slash then ([], p) else let '(s, r) := seg_take n p' in (c :: s, r)
  | _, _ => ([], p)
  end.
Definition skip1 (p : list Z) : list Z :=
  match p with c :: p' => if c =? slash then p' else p | [] => [] end.
(** [while ( *p && nseg < CHASEROS_SEG_MAX )] *)
Fixpoint norm_loop (fuel : nat) (p : list Z) (segs : list (list Z)) : outcome (list (list Z)) :=
  match p with
  | [] => Ret segs
  | _ =>
    if (CHASEROS_SEG_MAX <=? length segs)%nat then Ret segs
    else match fuel with
         | O => Loop
         | S fuel =>
           let '(s, p) := seg_take 127 p in
           let p := skip1 p in
           if str_eqb s [] then norm_loop fuel p segs
           else if str_eqb s [dot] then norm_loop fuel p segs
           else if str_eqb s [dot; dot] then norm_loop fuel p (removelast segs)
           else norm_loop fuel p (segs ++ [s])
         end
  end.
(** [for (s = 0; s < nseg; s++)] with [pos] = [length out] *)
Fixpoint emit_segs (out : list Z) (outsz : nat) (segs : list (list Z)) : option (list Z) :=
  match segs with
  | [] => Some out
  | s :: segs =>
    if (outsz <=? length out + 1 + length s)%nat then None
    else emit_segs (out ++ slash :: s) outsz segs
  end.
Definition chaseros_path_normalize (inp : list Z) (outsz : nat) : outcome (option (list Z)) :=
  match inp with
  | c :: p =>
    if negb (c =? slash) || (outsz <? 2)%nat then Ret None
    else
      segs ← norm_loop (length p) p [];
      Ret (match segs with [] => Some [slash] | _ => emit_segs [] outsz segs end)
  | [] => Ret None
  end.

(** the position of the last slash after the first byte *)
Fixpoint last_slash_from (q : list Z) (i : nat) (last : option nat) : option nat :=
  match q with
  | [] => last
  | c :: q => last_slash_from q (S i) (if c =? slash then Some i else last)
  end.
Definition path_split_parent (norm : list Z) (psz bsz : nat) : option (list Z * list Z) :=
  match norm with
  | [] => None
  | c :: q =>
    if negb (c =? slash) then None
    else
      let len := length norm in
      if (len <=? 1)%nat then None
      else match last_slash_from q 1 None with
           | None => if (psz <? 2)%nat || (bsz <=? len)%nat then None else Some ([slash], q)
           | Some plen =>
             if (psz <=? plen)%nat then None
             else
               let bp := drop (S plen) norm in
               if (length bp =? 0)%nat || (bsz <=? length bp)%nat then None
               else Some (take plen norm, bp)
           end
  end.

(** vfs.c; the buffer [tmp] has 512 bytes *)
Definition vfs_resolve_path (cwd rel : list Z) (outsz : nat) : outcome (option (list Z)) :=
  if (outsz <? 2)%nat then Ret None
  else
    let ci := length cwd in
    let ri := length rel in
    match rel with
    | c :: _ =>
      if c =? slash then chaseros_path_normalize rel outsz
      else if (512 <? ci + 1 + ri + 2)%nat then Ret None
      else if (ci =? 1)%nat && str_eqb cwd [slash] then chaseros_path_normalize (slash :: rel) outsz
      else chaseros_path_normalize (cwd ++ slash :: rel) outsz
    | [] =>
      if (512 <? ci + 1 + ri + 2)%nat then Ret None
      else if (ci =? 1)%nat && str_eqb cwd [slash] then chaseros_path_normalize (slash :: rel) outsz
      else chaseros_path_normalize (cwd ++ slash :: rel) outsz
    end.

(** ** Specification *)
(** the components between slashes *)
Fixpoint split (p : list Z) : list (list Z) :=
  match p with
  | [] => [[]]
  | c :: p => if c =? slash then [] :: split p
              else match split p with s :: l => (c :: s) :: l | [] => [[c]] end
  end.
Definition canon_step (segs : list (list Z)) (c : list Z) : list (list Z) :=
  if str_eqb c [] then segs
  else if str_eqb c [dot] then segs
  else if str_eqb c [dot; dot] then removelast segs
  else segs ++ [c].
Definition canon (comps : list (list Z)) : list (list Z) := foldl canon_step [] comps.
Definition joined (segs : list (list Z)) : list Z := concat (cons slash <$> segs).
Definition join (segs : list (list Z)) : list Z := match segs with [] => [slash] | _ => joined segs end.
(** a component of a normalised path *)
Definition comp_ok (c : list Z) : Prop :=
  c ≠ [] ∧ c ≠ [dot] ∧ c ≠ [dot; dot] ∧ slash ∉ c ∧ (length c <= 127)%nat.

Section paths.
Implicit Types (p c : list Z) (segs : list (list Z)).
Lemma split_nonempty p : split p ≠ [].
Proof. destruct p as [|c p]; simpl; [done|]. case_if; [done|]. by destruct (split p). Qed.
Lemma split_no_slash p : Forall (λ c, slash ∉ c) (split p).
Proof.
  induction p as [|c p IH]; simpl; [repeat constructor; set_solver|]. case_if.
  - constructor; [set_solver|done].
  - destruct (split p) as [|s l] eqn:E; [repeat constructor; set_solver|].
    apply Forall_cons in IH as [? ?]. constructor; [set_solver|done].
Qed.
(** the first component and the rest, as the inner loop finds them *)
Lemma seg_take_split n : ∀ p, (length (hd [] (split p)) <= n)%nat →
  ∃ s r, seg_take n p = (s, r) ∧ split p = s :: match r with [] => [] | _ :: r' => split r' end ∧
         (r = [] ∨ ∃ r', r = slash :: r') ∧ (length s + length r = length p)%nat.
Proof.
  induction n as [|n IH]; intros [|c p] Hl; cbn [seg_take split] in *.
  - exists [], []. naive_solver.
  - destruct (Z.eqb_spec c slash) as [->|Hc].
    + exists [], (slash :: p). simpl. naive_solver.
    + destruct (split p); simpl in Hl; lia.
  - exists [], []. naive_solver.
  - destruct (Z.eqb_spec c slash) as [->|Hc].
    + exists [], (slash :: p). simpl. naive_solver.
    + pose proof (split_nonempty p). destruct (split p) as [|s0 l] eqn:E; [done|]. simpl in Hl.
      destruct (IH p) as (s & r & -> & Hs & Hr & Hlen); [rewrite E; simpl; lia|].
      exists (c :: s), r. rewrite E in Hs. injection Hs as -> ->. simpl. split; [done|]. split; [done|].
      split; [done|lia].
Qed.
Lemma skip1_tail (r : list Z) : r = [] ∨ (∃ r', r = slash :: r') → skip1 r = tail r.
Proof. intros [->|[r' ->]]; done. Qed.
Lemma canon_step_nil segs : canon_step segs [] = segs.
Proof. done. Qed.
Lemma canon_step_length segs c : (length (canon_step segs c) <= S (length segs))%nat.
Proof.
  unfold canon_step. repeat case_if; try lia.
  - destruct segs using rev_ind; [simpl; lia|]. rewrite removelast_last, length_app. simpl. lia.
  - rewrite length_app. simpl. lia.
Qed.
Lemma norm_loop_spec fuel : ∀ p segs, (length p <= fuel)%nat →
  Forall (λ c, (length c <= 127)%nat) (split p) → (length segs + length (split p) <= CHASEROS_SEG_MAX)%nat →
  norm_loop fuel p segs = Ret (foldl canon_step segs (split p)).
Proof.
  induction fuel as [|fuel IH]; intros p segs Hf H127 H32; (destruct p as [|c p]; [done|]); [simpl in Hf; lia|].
  cbn [norm_loop]. assert (1 <= length (split (c :: p)))%nat.
  { pose proof (split_nonempty (c :: p)). destruct (split (c :: p)); [done|simpl; lia]. }
  rewrite (proj2 (Nat.leb_gt _ _)) by lia.
  destruct (seg_take_split 127 (c :: p)) as (s & r & E & Hs & Hr & Hlen).
  { pose proof (split_nonempty (c :: p)). destruct (split (c :: p)); [done|]. by apply Forall_cons in H127 as [? _]. }
  rewrite E, Hs in *. rewrite skip1_tail by done. cbn [foldl].
  assert (length (tail r) <= fuel)%nat as Hf'.
  { destruct r; simpl in *; [lia|]. lia. }
  assert (∀ segs', (length segs' <= S (length segs))%nat →
    norm_loop fuel (tail r) segs' = Ret (foldl canon_step segs' (match r with [] => [] | _ :: r' => split r' end))) as Hk.
  { intros segs' Hl'. apply Forall_cons in H127 as [_ H127]. cbn [length] in H32.
    destruct r as [|x r']; [simpl; by destruct fuel|]. simpl. apply IH; [done|done|].
    simpl in *. lia. }
  unfold canon_step at 2. pose proof (canon_step_length segs s) as Hcl. unfold canon_step in Hcl.
  repeat case_if; apply Hk; lia.
Qed.
Lemma length_joined_app a b : length (joined (a ++ b)) = (length (joined a) + length (joined b))%nat.
Proof. unfold joined. rewrite fmap_app, concat_app, length_app. done. Qed.
Lemma emit_segs_spec segs : ∀ out outsz, (length out < outsz)%nat → emit_segs out outsz segs =
  if (length out + length (joined segs) <? outsz)%nat then Some (out ++ joined segs) else None.
Proof.
  induction segs as [|s segs IH]; intros out outsz Ho; cbn [emit_segs].
  { unfold joined. simpl. rewrite Nat.add_0_r, app_nil_r. by rewrite (proj2 (Nat.ltb_lt _ _)). }
  change (joined (s :: segs)) with ((slash :: s) ++ joined segs). rewrite length_app. simpl length.
  destruct (Nat.leb_spec outsz (length out + 1 + length s)) as [Hge|Hlt].
  { rewrite (proj2 (Nat.ltb_ge _ _)); [done|lia]. }
  rewrite IH by (rewrite length_app; simpl; lia). rewrite length_app, <-app_assoc. simpl length.
  by rewrite Nat.add_assoc.
Qed.
Lemma canon_step_ok segs c : Forall comp_ok segs → slash ∉ c → (length c <= 127)%nat →
  Forall comp_ok (canon_step segs c).
Proof.
  intros Hs Hc Hl. unfold canon_step.
  destruct (str_eqb c []) eqn:E1; [done|]. destruct (str_eqb c [dot]) eqn:E2; [done|].
  destruct (str_eqb c [dot; dot]) eqn:E3.
  - destruct segs using rev_ind; [done|]. rewrite removelast_last. by apply Forall_app in Hs as [? _].
  - apply Forall_app. split; [done|]. apply Forall_singleton. apply str_eqb_neq in E1, E2, E3. by split_and!.
Qed.
Lemma canon_ok l : Forall (λ c, slash ∉ c) l → Forall (λ c, (length c <= 127)%nat) l → ∀ segs,
  Forall comp_ok segs → Forall comp_ok (foldl canon_step segs l).
Proof.
  induction l as [|c l IH]; intros H1 H2 segs Hs; [done|]. apply Forall_cons in H1 as [? ?], H2 as [? ?].
  simpl. apply IH; [done..|]. by apply canon_step_ok.
Qed.
(** splitting what was joined *)
Lemma split_app_slash c p : slash ∉ c → split (c ++ slash :: p) = c :: split p.
Proof.
  induction c as [|x c IH]; intros Hc; simpl; [done|].
  rewrite (proj2 (Z.eqb_neq x slash)) by set_solver. by rewrite IH by set_solver.
Qed.
Lemma split_single c : slash ∉ c → split c = [c].
Proof.
  induction c as [|x c IH]; intros Hc; simpl; [done|].
  rewrite (proj2 (Z.eqb_neq x slash)) by set_solver. by rewrite IH by set_solver.
Qed.
Lemma split_joined segs : Forall (λ c, slash ∉ c) segs → segs ≠ [] → split (tail (joined segs)) = segs.
Proof.
  induction segs as [|c segs IH]; intros H Hne; [done|]. apply Forall_cons in H as [Hc H].
  change (joined (c :: segs)) with (slash :: c ++ joined segs). cbn [tail]. destruct segs as [|d segs].
  { unfold joined. simpl. rewrite app_nil_r. by apply split_single. }
  change (joined (d :: segs)) with (slash :: tail (joined (d :: segs))) at 1.
  rewrite split_app_slash by done. by rewrite IH.
Qed.
Lemma canon_id segs : Forall comp_ok segs → ∀ acc, foldl canon_step acc segs = acc ++ segs.
Proof.
  induction segs as [|c segs IH]; intros H acc; simpl; [by rewrite app_nil_r|].
  apply Forall_cons in H as [(H1 & H2 & H3 & _) H]. rewrite IH by done. unfold canon_step.
  rewrite (proj2 (str_eqb_neq c [])), (proj2 (str_eqb_neq c [dot])), (proj2 (str_eqb_neq c [dot; dot])) by done.
  by rewrite <-app_assoc.
Qed.
Lemma normalize_spec p outsz : (2 <= outsz)%nat → Forall (λ c, (length c <= 127)%nat) (split p) →
  (length (split p) <= CHASEROS_SEG_MAX)%nat →
  chaseros_path_normalize (slash :: p) outsz =
  Ret (let out := join (canon (split p)) in if (length out <? outsz)%nat then Some out else None).
Proof.
  intros Ho H127 H32. unfold chaseros_path_normalize. rewrite Z.eqb_refl. cbn [negb orb].
  rewrite (proj2 (Nat.ltb_ge _ _)) by lia. rewrite norm_loop_spec by (done || lia). ostep. f_equal.
  fold (canon (split p)). unfold join. destruct (canon (split p)) as [|s l] eqn:E.
  - rewrite (proj2 (Nat.ltb_lt _ _)); [done|simpl; lia].
  - rewrite emit_segs_spec by (simpl; lia). done.
Qed.
(** the parent of a joined path *)
Lemma last_slash_none q : ∀ i l, slash ∉ q → last_slash_from q i l = l.
Proof.
  induction q as [|c q IH]; intros i l Hq; simpl; [done|].
  rewrite (proj2 (Z.eqb_neq c slash)) by set_solver. apply IH. set_solver.
Qed.
Lemma last_slash_app a b : slash ∉ b → ∀ i l, last_slash_from (a ++ slash :: b) i l = Some (i + length a)%nat.
Proof.
  intros Hb. induction a as [|c a IH]; intros i l; simpl.
  - rewrite Z.eqb_refl || idtac. rewrite last_slash_none by done. f_equal. lia.
  - rewrite IH. f_equal. lia.
Qed.
Lemma split_parent_join segs b psz bsz : Forall comp_ok (segs ++ [b]) →
  (length (join (segs ++ [b])) < psz)%nat → (length b + 1 < bsz)%nat →
  path_split_parent (join (segs ++ [b])) psz bsz = Some (join segs, b).
Proof.
  intros Hok Hp Hb. apply Forall_app in Hok as [Hs [(Hb1 & _ & _ & Hbs & _) _]%Forall_cons].
  assert (1 <= length b)%nat as Hb0 by (destruct b; [done|simpl; lia]).
  assert (join (segs ++ [b]) = joined segs ++ slash :: b) as E.
  { unfold join. destruct (segs ++ [b]) eqn:E0; [by destruct segs|]. rewrite <-E0. unfold joined.
    rewrite fmap_app, concat_app. simpl. by rewrite app_nil_r. }
  rewrite E in *. rewrite length_app in Hp. simpl in Hp. unfold path_split_parent.
  destruct segs as [|s segs].
  - change (joined []) with (@nil Z). cbn [app]. rewrite Z.eqb_refl. cbn [negb]. simpl length.
    rewrite (proj2 (Nat.leb_gt _ _)) by lia. rewrite last_slash_none by done.
    rewrite (proj2 (Nat.ltb_ge _ _)), (proj2 (Nat.leb_gt _ _)) by lia. done.
  - assert (∃ t, joined (s :: segs) = slash :: t) as [t Et] by (eexists; reflexivity).
    change (join (s :: segs)) with (joined (s :: segs)). rewrite Et in *. cbn [app]. rewrite Z.eqb_refl. cbn [negb].
    cbn [length] in *. rewrite length_app. cbn [length]. rewrite (proj2 (Nat.leb_gt _ _)) by lia.
    rewrite last_slash_app by done. rewrite (proj2 (Nat.leb_gt psz _)) by lia.
    change (1 + length t)%nat with (length (slash :: t)). change (slash :: t ++ slash :: b) with ((slash :: t) ++ slash :: b).
    rewrite take_app_length. replace (S (length (slash :: t))) with (length (slash :: t) + 1)%nat by lia.
    rewrite drop_app_add. change (drop 1 (slash :: b)) with b. rewrite (proj2 (Nat.eqb_neq _ _)), (proj2 (Nat.leb_gt bsz _)) by lia. done.
Qed.
(** normal forms are fixed points *)
Lemma normalize_join segs outsz : Forall comp_ok segs → (length segs <= CHASEROS_SEG_MAX)%nat →
  (length (join segs) < outsz)%nat → chaseros_path_normalize (join segs) outsz = Ret (Some (join segs)).
Proof.
  intros Hok Hn Ho. destruct segs as [|c segs'].
  { simpl in Ho. unfold join, chaseros_path_normalize. rewrite Z.eqb_refl, (proj2 (Nat.ltb_ge _ _)) by lia. done. }
  set (segs := c :: segs') in *. assert (segs ≠ []) as Hne by done.
  assert (Forall (λ c, slash ∉ c) segs) as Hns
    by (eapply Forall_impl; [exact Hok|]; by intros x (_ & _ & _ & ? & _)).
  assert (join segs = slash :: tail (joined segs)) as E by done.
  assert (2 <= length (join segs))%nat as H2.
  { rewrite E. unfold segs, joined. simpl. rewrite length_app. apply Forall_cons in Hok as [(? & _) _]. destruct c; [done|simpl; lia]. }
  rewrite E. rewrite normalize_spec; rewrite ?split_joined by done; [|lia| |done].
  - unfold canon. rewrite canon_id by done. cbn [app]. rewrite <-E. by rewrite (proj2 (Nat.ltb_lt _ _)).
  - eapply Forall_impl; [exact Hok|]. by intros x (_ & _ & _ & _ & ?).
Qed.
End paths.

(** ** Theorems *)

(** C26. Normalisation computes the specification: on an absolute path of at
    most 32 components of at most 127 bytes, [chaseros_path_normalize] returns
    the components that remain after dropping empty ones and ".", and letting
    ".." remove its predecessor (at the root, nothing), joined by slashes; it
    fails exactly when that does not fit the output buffer. *)
Theorem chaseros_path_normalize_canon p outsz : (2 <= outsz)%nat →
  Forall (λ c, (length c <= 127)%nat) (split p) → (length (split p) <= CHASEROS_SEG_MAX)%nat →
  chaseros_path_normalize (slash :: p) outsz =
  Ret (let out := join (canon (split p)) in if (length out <? outsz)%nat then Some out else None).
Proof. apply normalize_spec. Qed.

(** Normal forms are fixed points and split into parent and name: for
    components that are neither empty, "." nor "..", the joined path
    normalises to itself, and [path_split_parent] returns the joined path of
    all components but the last, and the last. *)
Theorem chaseros_path_normal_form segs b outsz : Forall comp_ok (segs ++ [b]) →
  (length (segs ++ [b]) <= CHASEROS_SEG_MAX)%nat → (length (join (segs ++ [b])) < outsz)%nat →
  (length b + 1 < 128)%nat →
  chaseros_path_normalize (join (segs ++ [b])) outsz = Ret (Some (join (segs ++ [b]))) ∧
  path_split_parent (join (segs ++ [b])) outsz 128 = Some (join segs, b).
Proof. intros Hok Hn Ho Hb. split; [by apply normalize_join|by apply split_parent_join].
Qed.

(** [vfs_resolve_path] of an absolute path is its normal form; of a
    relative one, the normal form of the components of the working directory
    followed by those of the path. *)
Theorem vfs_resolve_path_spec segs rel outsz : Forall comp_ok segs → (2 <= outsz)%nat →
  Forall (λ c, (length c <= 127)%nat) (split rel) →
  (length segs + length (split rel) <= CHASEROS_SEG_MAX)%nat →
  (length (join segs) + length rel + 3 <= 512)%nat → hd slash rel ≠ slash →
  vfs_resolve_path (join segs) rel outsz =
  Ret (let out := join (canon (segs ++ split rel)) in if (length out <? outsz)%nat then Some out else None).
Proof.
  intros Hok Ho H127 H32 Htmp Hrel. destruct rel as [|c rel]; [done|]. simpl in Hrel.
  unfold vfs_resolve_path. rewrite (proj2 (Nat.ltb_ge outsz 2)) by lia. rewrite (proj2 (Z.eqb_neq c slash)) by done.
  rewrite (proj2 (Nat.ltb_ge 512 _)) by lia.
  assert (Forall (λ c, slash ∉ c) segs) as Hns
    by (eapply Forall_impl; [exact Hok|]; by intros x (_ & _ & _ & ? & _)).
  destruct segs as [|s segs].
  - simpl join. rewrite Nat.eqb_refl, str_eqb_refl. cbn [andb]. by apply normalize_spec.
  - assert (join (s :: segs) = slash :: tail (joined (s :: segs))) as E by done.
    assert (split (tail (joined (s :: segs)) ++ slash :: c :: rel) = (s :: segs) ++ split (c :: rel)) as Es.
    { clear -Hns. revert s Hns. induction segs as [|d segs IH]; intros s [Hs Hns]%Forall_cons.
      - change (tail (joined [s])) with (s ++ []). rewrite app_nil_r. by apply split_app_slash.
      - change (tail (joined (s :: d :: segs))) with (s ++ slash :: tail (joined (d :: segs))).
        rewrite <-app_assoc. cbn [app]. rewrite split_app_slash by done. by rewrite (IH d). }
    assert ((length (join (s :: segs)) =? 1)%nat && str_eqb (join (s :: segs)) [slash] = false) as ->.
    { apply andb_false_iff. right. apply str_eqb_neq. rewrite E. intros [= Ht].
      apply Forall_cons in Hok as [(Hs0 & _) _]. change (tail (joined (s :: segs))) with (s ++ joined segs) in Ht.
      by apply app_eq_nil in Ht as [-> _]. }
    rewrite E. cbn [app]. rewrite normalize_spec; rewrite ?Es; [done|done| |].
    + apply Forall_app. split; [|done]. eapply Forall_impl; [exact Hok|]. by intros x (_ & _ & _ & _ & ?).
    + rewrite length_app. done.
Qed.

(** ** Witnesses *)
Definition demo_path : list Z := str "a/./b//../c".
Lemma chaseros_path_normalize_canon_witness : chaseros_path_normalize (slash :: demo_path) 256 = Ret (Some (str "/a/c")).
Proof.
  rewrite (chaseros_path_normalize_canon demo_path 256); [reflexivity|lia| |].
  - repeat constructor; simpl; lia.
  - unfold CHASEROS_SEG_MAX. simpl. lia.
Defined.
Lemma demo_comps_ok : Forall comp_ok [str "usr"; str "bin"].
Proof. repeat constructor; try done; try (simpl; lia); unfold slash; set_solver by lia. Qed.
Lemma chaseros_path_normal_form_witness :
  chaseros_path_normalize (str "/usr/bin") 256 = Ret (Some (str "/usr/bin")) ∧
  path_split_parent (str "/usr/bin") 256 128 = Some (str "/usr", str "bin").
Proof.
  apply (chaseros_path_normal_form [str "usr"] (str "bin") 256).
  - exact demo_comps_ok.
  - unfold CHASEROS_SEG_MAX. simpl. lia.
  - simpl. lia.
  - simpl. lia.
Defined.
Lemma vfs_resolve_path_spec_witness : vfs_resolve_path (str "/usr/bin") (str "../lib") 256 = Ret (Some (str "/usr/lib")).
Proof.
  change (str "/usr/bin") with (join [str "usr"; str "bin"]).
  rewrite (vfs_resolve_path_spec [str "usr"; str "bin"] (str "../lib") 256); [reflexivity|exact demo_comps_ok|lia| | | |].
  - repeat constructor; simpl; lia.
  - unfold CHASEROS_SEG_MAX. simpl. lia.
  - simpl. lia.
  - discriminate.
Defined.
End Path.
