(* ===== verification/Io.v ===== *)
(** Port input and output (kernel/io.h).  The machine behind the ports is a
    parameter: a state [D] with what an [in] instruction returns and how an
    [out] instruction changes it.  Drivers are written in the error monad over
    [D]. *)
From stdpp Require Import base numbers list.
From S2P Require Import Prelude.
Open Scope Z_scope.

Class Ports (D : Type) := {
  inb : Z → D → Z * D;
  outb : Z → Z → D → D;
  inw : Z → D → Z * D;
  outw : Z → Z → D → D;
  inl32 : Z → D → Z * D;
  outl : Z → Z → D → D
}.

Module Io.
Section io.
Context {D : Type} `{Ports D}.
Definition in_b (port : Z) : est D Z := λ d, Ret (Some (fst (inb port d)), snd (inb port d)).
Definition out_b (port v : Z) : est D unit := λ d, Ret (Some tt, outb port v d).
Definition in_w (port : Z) : est D Z := λ d, Ret (Some (fst (inw port d)), snd (inw port d)).
Definition out_w (port v : Z) : est D unit := λ d, Ret (Some tt, outw port v d).
Definition in_l (port : Z) : est D Z := λ d, Ret (Some (fst (inl32 port d)), snd (inl32 port d)).
Definition out_l (port v : Z) : est D unit := λ d, Ret (Some tt, outl port v d).
Definition io_wait : est D unit := out_b 0x80 0.
(** run [m] and look at its result instead of passing a failure on *)
Definition attempt {A} (m : est D A) : est D (option A) := λ d, '(r, d) ← m d; Ret (Some r, d).
End io.
(** ports that read fixed values and record what is written *)
Record plog := PortLog { p_in : Z → Z; p_log : list (Z * Z) }.
Definition log_write (port v : Z) (d : plog) : plog := PortLog (p_in d) (p_log d ++ [(port, v)]).
#[export] Instance plog_ports : Ports plog := {
  inb := λ port d, (p_in d port, d); outb := log_write;
  inw := λ port d, (p_in d port, d); outw := log_write;
  inl32 := λ port d, (p_in d port, d); outl := log_write
}.
End Io.
