(* ===== verification/Console.v ===== *)
(** The text consoles: the VGA text screen (kernel/drivers/vga.c), the
    framebuffer console (kernel/console.c with the bitmap metrics of
    kernel/drivers/ttfont.c) and the number printing of kernel/main.c.  The VGA buffer is a cell per index
    from 0xB8000, the drawing calls of the framebuffer console are recorded
    in order.  Characters are bytes; [char] is signed, so [i8] of the byte
    enters integer expressions.
    Theorems: the VGA screen shows the last 25 rows of the text laid out at 80
    columns and nothing outside the screen is written; every glyph of the
    framebuffer console lies inside the margins; decimal numbers fit the
    20-byte buffer. *)
From stdpp Require Import base numbers list sets strings.
From S2P Require Import Prelude Memory Multiboot Io.
Open Scope Z_scope.

Module Vga.
Definition VGA_WIDTH := 80.
Definition VGA_HEIGHT := 25.
Definition newline := 10.
Definition backspace := 8.
(** [(uint16_t)((0x07 << 8) | c)] *)
Definition glyph (c : Z) : Z := u16 (Z.lor (Z.shiftl 0x07 8) (i8 c)).
Definition blank : Z := glyph 32.
(** the buffer, the cursor and the cursor registers of the controller *)
Record vga := VgaSt { cells : Z → Z; cursor_x : Z; cursor_y : Z; crtc : Z → Z }.
Definition set_cell (b : Z → Z) (i v : Z) : Z → Z := λ j, if j =? i then v else b j.
Definition set_cells (v : vga) (b : Z → Z) : vga := VgaSt b (cursor_x v) (cursor_y v) (crtc v).
Definition move (v : vga) (x y : Z) : vga := VgaSt (cells v) x y (crtc v).
Definition vga_update_cursor (v : vga) : vga :=
  let pos := u16 (cursor_y v * VGA_WIDTH + cursor_x v) in
  let r := set_cell (crtc v) 0x0F (u8 (Z.land pos 0xFF)) in
  VgaSt (cells v) (cursor_x v) (cursor_y v) (set_cell r 0x0E (u8 (Z.land (Z.shiftr pos 8) 0xFF))).
Definition vga_clear (v : vga) : vga :=
  let b := foldl (λ b i, set_cell b i blank) (cells v) (seqZ 0 (VGA_WIDTH * VGA_HEIGHT)) in
  vga_update_cursor (move (set_cells v b) 0 0).
Definition vga_init (v : vga) : vga := vga_clear v.
(** the two loops of a scroll *)
Definition scroll_rows (b : Z → Z) : Z → Z :=
  foldl (λ b y, foldl (λ b x, set_cell b (y * VGA_WIDTH + x) (b ((y + 1) * VGA_WIDTH + x))) b (seqZ 0 VGA_WIDTH))
    b (seqZ 0 (VGA_HEIGHT - 1)).
Definition clear_last_row (b : Z → Z) : Z → Z :=
  foldl (λ b x, set_cell b ((VGA_HEIGHT - 1) * VGA_WIDTH + x) blank) b (seqZ 0 VGA_WIDTH).
Definition put_cell (v : vga) (c : Z) : vga :=
  if c =? newline then move v 0 (cursor_y v + 1)
  else if c =? backspace then
    if 0 <? cursor_x v then
      let v := move v (cursor_x v - 1) (cursor_y v) in
      set_cells v (set_cell (cells v) (cursor_y v * VGA_WIDTH + cursor_x v) blank)
    else v
  else
    let v := set_cells v (set_cell (cells v) (cursor_y v * VGA_WIDTH + cursor_x v) (glyph c)) in
    move v (cursor_x v + 1) (cursor_y v).
Definition wrap_line (v : vga) : vga :=
  if VGA_WIDTH <=? cursor_x v then move v 0 (cursor_y v + 1) else v.
Definition scroll (v : vga) : vga :=
  if VGA_HEIGHT <=? cursor_y v
  then move (set_cells v (clear_last_row (scroll_rows (cells v)))) (cursor_x v) (VGA_HEIGHT - 1)
  else v.
Definition vga_putchar (c : Z) (v : vga) : vga := vga_update_cursor (scroll (wrap_line (put_cell v c))).
Definition vga_puts (s : list Z) (v : vga) : vga := foldl (λ v c, vga_putchar c v) v s.

(** ** What the screen shows *)
(** the rows above the current one, and the current one *)
Definition page : Type := list (list Z) * list Z.
Definition type_char (p : page) (c : Z) : page :=
  let '(above, row) := p in
  if c =? newline then (above ++ [row], [])
  else if c =? backspace then (above, take (length row - 1) row)
  else if (length row =? 79)%nat then (above ++ [row ++ [c]], []) else (above, row ++ [c]).
Definition type_text (s : list Z) : page := foldl type_char ([], []) s.
(** the last 25 rows *)
Definition visible (p : page) : list (list Z) := let rows := fst p ++ [snd p] in drop (length rows - 25) rows.
Definition shown (rows : list (list Z)) (y x : Z) : Z :=
  match nth (Z.to_nat y) rows [] !! Z.to_nat x with Some c => glyph c | None => blank end.

Section screen.
Implicit Types (b : Z → Z) (v : vga) (p : page).
Lemma set_cell_same b i w : set_cell b i w i = w.
Proof. unfold set_cell. by rewrite Z.eqb_refl. Qed.
Lemma set_cell_other b i w j : j ≠ i → set_cell b i w j = b j.
Proof. intros. unfold set_cell. by rewrite (proj2 (Z.eqb_neq j i)). Qed.
Lemma fill_cells b o w n : 0 <= n → ∀ j, foldl (λ b x, set_cell b (o + x) w) b (seqZ 0 n) j =
  if (o <=? j) && (j <? o + n) then w else b j.
Proof.
  intros Hn. apply (foldl_seqZ_ind (λ n b', ∀ j, b' j = if (o <=? j) && (j <? o + n) then w else b j)); [done| |].
  - intros j. case_if; [lia|done].
  - intros i b' Hi IH j. destruct (decide (j = o + i)) as [->|Hj].
    + rewrite set_cell_same. repeat btrue. done.
    + rewrite set_cell_other, IH by done. destruct (Z.leb_spec o j); cbn [andb]; [|done].
      destruct (Z.ltb_spec j (o + i)); destruct (Z.ltb_spec j (o + (i + 1))); done || lia.
Qed.
Lemma scroll_row b y : ∀ j, foldl (λ b x, set_cell b (y * VGA_WIDTH + x) (b ((y + 1) * VGA_WIDTH + x))) b (seqZ 0 VGA_WIDTH) j =
  if (y * 80 <=? j) && (j <? y * 80 + 80) then b (j + 80) else b j.
Proof.
  apply (foldl_seqZ_ind (λ n b', ∀ j, b' j = if (y * 80 <=? j) && (j <? y * 80 + n) then b (j + 80) else b j)); [done| |].
  - intros j. case_if; [lia|done].
  - unfold VGA_WIDTH. intros i b' Hi IH j. destruct (decide (j = y * 80 + i)) as [->|Hj].
    + rewrite set_cell_same, IH. repeat btrue. case_if; [lia|]. f_equal. lia.
    + rewrite set_cell_other, IH by done. destruct (Z.leb_spec (y * 80) j); cbn [andb]; [|done].
      destruct (Z.ltb_spec j (y * 80 + i)); destruct (Z.ltb_spec j (y * 80 + (i + 1))); done || lia.
Qed.
Lemma scroll_rows_spec b : ∀ j, scroll_rows b j = if (0 <=? j) && (j <? 24 * 80) then b (j + 80) else b j.
Proof.
  unfold scroll_rows.
  apply (foldl_seqZ_ind (λ n b', ∀ j, b' j = if (0 <=? j) && (j <? n * 80) then b (j + 80) else b j)); [done| |].
  - intros j. case_if; [lia|done].
  - intros y b' Hy IH j. rewrite scroll_row. destruct (Z.leb_spec (y * 80) j); cbn [andb].
    + destruct (Z.ltb_spec j (y * 80 + 80)); rewrite IH.
      * case_if; [lia|]. case_if; [done|lia].
      * case_if; [lia|]. case_if; [lia|done].
    + rewrite IH. destruct (Z.leb_spec 0 j); cbn [andb]; [|done]. repeat btrue. done.
Qed.
Lemma clear_last_spec b j : clear_last_row b j = if (24 * 80 <=? j) && (j <? 24 * 80 + 80) then blank else b j.
Proof. unfold clear_last_row. apply (fill_cells b ((VGA_HEIGHT - 1) * VGA_WIDTH) blank VGA_WIDTH). done. Qed.

(** *** The screen and the page *)
Definition vis (above : list (list Z)) : list (list Z) := drop (length above - 24) above.
Lemma length_vis above : length (vis above) = Nat.min (length above) 24.
Proof. unfold vis. rewrite length_drop. lia. Qed.
Lemma visible_vis above row : visible (above, row) = vis above ++ [row].
Proof.
  unfold visible, vis. cbn [fst snd]. rewrite length_app. cbn [length].
  replace (length above + 1 - 25)%nat with (length above - 24)%nat by lia. by rewrite drop_app_le by lia.
Qed.
Lemma vis_next above row : vis (above ++ [row]) = if (length above <? 24)%nat then vis above ++ [row] else drop 1 (vis above) ++ [row].
Proof.
  unfold vis. rewrite length_app. cbn [length]. destruct (Nat.ltb_spec (length above) 24).
  - replace (length above + 1 - 24)%nat with 0%nat by lia. replace (length above - 24)%nat with 0%nat by lia. by rewrite !drop_0.
  - rewrite drop_app_le, drop_drop by lia. repeat f_equal. lia.
Qed.
(** the screen shows the page; [row] may be full *)
Record shows (v : vga) (above : list (list Z)) (row : list Z) : Prop := {
  sh_len : (length row <= 80)%nat;
  sh_x : cursor_x v = Z.of_nat (length row);
  sh_y : cursor_y v = Z.of_nat (length (vis above));
  sh_cells : ∀ y x, 0 <= y < 25 → 0 <= x < 80 → cells v (y * 80 + x) = shown (vis above ++ [row]) y x
}.
Lemma shown_nil rows y x : shown (rows ++ [[]]) y x = shown rows y x.
Proof.
  unfold shown. destruct (decide (Z.to_nat y < length rows)%nat) as [Hl|Hl]; [by rewrite app_nth1|].
  rewrite app_nth2, (nth_overflow rows) by lia. by destruct (Z.to_nat y - length rows)%nat as [|[|]].
Qed.
Lemma shown_lt rows row y x : 0 <= y < Z.of_nat (length rows) → shown (rows ++ [row]) y x = shown rows y x.
Proof. intros. unfold shown. by rewrite app_nth1 by lia. Qed.
Lemma shown_row rows row y x : y = Z.of_nat (length rows) →
  shown (rows ++ [row]) y x = match row !! Z.to_nat x with Some c => glyph c | None => blank end.
Proof. intros ->. unfold shown. rewrite Nat2Z.id, app_nth2, Nat.sub_diag by lia. done. Qed.
Lemma shown_above rows row row' y x : y ≠ Z.of_nat (length rows) → 0 <= y → shown (rows ++ [row]) y x = shown (rows ++ [row']) y x.
Proof.
  intros Hy H0. unfold shown. destruct (decide (Z.to_nat y < length rows)%nat); [by rewrite !app_nth1|].
  rewrite !app_nth2 by lia. destruct (Z.to_nat y - length rows)%nat eqn:E; [lia|]. by destruct n0.
Qed.
Lemma cell_index y x y' x' : 0 <= x < 80 → 0 <= x' < 80 → y * 80 + x = y' * 80 + x' → y = y' ∧ x = x'.
Proof. lia. Qed.
(** nothing outside the screen is written *)
Definition same_outside (v v' : vga) : Prop := ∀ j, j < 0 ∨ 2000 <= j → cells v' j = cells v j.
(** replacing the cell at the cursor *)
Lemma shows_cell v above row row' i w x' : shows v above row → (length row' <= 80)%nat → x' = Z.of_nat (length row') →
  0 <= i < 80 → (∀ x, 0 <= x < 80 → x ≠ i → row' !! Z.to_nat x = row !! Z.to_nat x) →
  w = match row' !! Z.to_nat i with Some c => glyph c | None => blank end →
  shows (move (set_cells v (set_cell (cells v) (cursor_y v * VGA_WIDTH + i) w)) x' (cursor_y v)) above row' ∧
  same_outside v (move (set_cells v (set_cell (cells v) (cursor_y v * VGA_WIDTH + i) w)) x' (cursor_y v)).
Proof.
  intros [Hl Hx Hy Hc] Hl' -> Hi Hrow ->. pose proof (length_vis above) as Hlv. unfold VGA_WIDTH. split.
  - split; [done|done|done|]. intros y x Hy' Hx'. cbn [cells move set_cells].
    destruct (decide (y = cursor_y v)) as [->|Hny].
    + rewrite shown_row by done. destruct (decide (x = i)) as [->|Hxi]; [by rewrite set_cell_same|].
      rewrite set_cell_other, Hc, shown_row, Hrow by (done || lia). done.
    + rewrite set_cell_other, Hc by lia. apply shown_above; [by rewrite <-Hy|lia].
  - intros j Hj. cbn [cells move set_cells]. apply set_cell_other. lia.
Qed.
Lemma shows_put v above row c : shows v above row → (length row < 80)%nat → c ≠ newline → c ≠ backspace →
  shows (put_cell v c) above (row ++ [c]) ∧ same_outside v (put_cell v c).
Proof.
  intros Hs Hl Hn Hb. pose proof (sh_x _ _ _ Hs) as Hx. unfold put_cell.
  rewrite (proj2 (Z.eqb_neq c newline)), (proj2 (Z.eqb_neq c backspace)) by done. cbn [cursor_x cursor_y set_cells].
  apply (shows_cell v above row); [done|rewrite length_app; cbn [length]; lia|rewrite length_app; cbn [length]; lia|lia| |].
  - intros x Hx' Hxi. destruct (decide (Z.to_nat x < length row)%nat); [by rewrite lookup_app_l|].
    rewrite !lookup_ge_None_2; [done|lia|rewrite length_app; simpl; lia].
  - rewrite lookup_app_r by lia. replace (Z.to_nat (cursor_x v) - length row)%nat with 0%nat by lia. done.
Qed.
Lemma shows_back v above row : shows v above row →
  shows (put_cell v backspace) above (take (length row - 1) row) ∧ same_outside v (put_cell v backspace).
Proof.
  intros Hs. pose proof (sh_x _ _ _ Hs) as Hx. pose proof (sh_len _ _ _ Hs) as Hl. unfold put_cell. change (backspace =? newline) with false.
  rewrite Z.eqb_refl. destruct (Z.ltb_spec 0 (cursor_x v)) as [Hpos|Hz].
  - cbn [cursor_x cursor_y move cells].
    apply (shows_cell v above row (take (length row - 1) row) (cursor_x v - 1) blank (cursor_x v - 1)); [done|rewrite length_take; lia|rewrite length_take; lia|lia| |].
    + intros x Hx' Hxi. destruct (decide (Z.to_nat x < length row - 1)%nat); [by rewrite lookup_take_lt by lia|].
      rewrite !lookup_ge_None_2; [done|lia|rewrite length_take; lia].
    + by rewrite lookup_ge_None_2 by (rewrite length_take; lia).
  - replace row with (@nil Z) in * by (destruct row; [done|simpl in Hx; lia]). done.
Qed.
(** the next line, scrolling if needed *)
Lemma shows_next v above row : shows v above row →
  shows (scroll (move v 0 (cursor_y v + 1))) (above ++ [row]) [] ∧ same_outside v (scroll (move v 0 (cursor_y v + 1))).
Proof.
  intros [Hl Hx Hy Hc]. pose proof (length_vis above) as Hlv. pose proof (vis_next above row) as Hv.
  unfold scroll. cbn [cursor_x cursor_y move cells set_cells]. unfold VGA_HEIGHT. rewrite Hy.
  destruct (Nat.ltb_spec (length above) 24) as [Hlt|Hge].
  - rewrite (proj2 (Z.leb_gt 25 _)) by lia. split; [|done]. split; [simpl; lia|done| |].
    + cbn [cursor_y move]. rewrite Hv, length_app. simpl. lia.
    + intros y x Hy' Hx'. cbn [cells move]. rewrite Hv, shown_nil. by apply Hc.
  - rewrite (proj2 (Z.leb_le 25 _)) by lia. split.
    + split; [simpl; lia|done| |].
      * cbn [cursor_y move]. rewrite Hv, length_app, length_drop. simpl. lia.
      * intros y x Hy' Hx'. cbn [cells move set_cells]. rewrite clear_last_spec, scroll_rows_spec, Hv, shown_nil.
        destruct (decide (y = 24)) as [->|Hy24].
        -- repeat btrue. cbn [andb]. unfold shown. rewrite nth_overflow; [done|]. rewrite length_app, length_drop. simpl. lia.
        -- rewrite (proj2 (Z.leb_gt (24 * 80) _)), (proj2 (Z.leb_le 0 _)), (proj2 (Z.ltb_lt _ (24 * 80))) by lia. cbn [andb].
           replace (y * 80 + x + 80) with ((y + 1) * 80 + x) by lia. rewrite Hc by lia.
           replace (drop 1 (vis above) ++ [row]) with (drop 1 (vis above ++ [row])) by (by rewrite drop_app_le by lia).
           unfold shown. rewrite nth_skipn. by replace (1 + Z.to_nat y)%nat with (Z.to_nat (y + 1)) by lia.
    + intros j Hj. cbn [cells move set_cells]. rewrite clear_last_spec, scroll_rows_spec. case_if; [lia|]. case_if; [lia|done].
Qed.
Lemma shows_cursor v above row : shows v above row → shows (vga_update_cursor v) above row.
Proof. by intros [? ? ? ?]. Qed.
Lemma scroll_small v : cursor_y v < 25 → scroll v = v.
Proof. intros. unfold scroll, VGA_HEIGHT. by rewrite (proj2 (Z.leb_gt 25 _)). Qed.
Lemma shows_inside v above row : shows v above row → 0 <= cursor_x v <= 80 ∧ 0 <= cursor_y v < 25.
Proof. intros [Hl Hx Hy _]. pose proof (length_vis above). lia. Qed.
Lemma wrap_small v : cursor_x v < 80 → wrap_line v = v.
Proof. intros. unfold wrap_line, VGA_WIDTH. by rewrite (proj2 (Z.leb_gt 80 _)). Qed.
Lemma wrap_full v : cursor_x v = 80 → wrap_line v = move v 0 (cursor_y v + 1).
Proof. intros E. unfold wrap_line. by rewrite E. Qed.
Lemma same_outside_trans v v' v'' : same_outside v v' → same_outside v' v'' → same_outside v v''.
Proof. intros H1 H2 j Hj. by rewrite H2, H1. Qed.
Lemma putchar_shows v above row c : shows v above row → (length row < 80)%nat →
  let '(above', row') := type_char (above, row) c in
  shows (vga_putchar c v) above' row' ∧ (length row' < 80)%nat ∧ same_outside v (vga_putchar c v).
Proof.
  intros Hs Hl. unfold type_char, vga_putchar. destruct (Z.eqb_spec c newline) as [->|Hn]; [|destruct (Z.eqb_spec c backspace) as [->|Hb]].
  - unfold put_cell. rewrite Z.eqb_refl, wrap_small by done. destruct (shows_next v above row Hs) as [H1 H2].
    split; [by apply shows_cursor|]. split; [simpl; lia|done].
  - destruct (shows_back v above row Hs) as [H1 H2]. pose proof (shows_inside _ _ _ H1) as [Hx Hy]. pose proof (sh_x _ _ _ H1) as Ex.
    rewrite length_take in Ex. rewrite wrap_small, scroll_small by lia. split; [by apply shows_cursor|]. split; [rewrite length_take; lia|done].
  - destruct (shows_put v above row c Hs Hl Hn Hb) as [H1 H2]. pose proof (shows_inside _ _ _ H1) as [Hx Hy]. pose proof (sh_x _ _ _ H1) as Ex.
    rewrite length_app in Ex. cbn [length] in Ex. destruct (Nat.eqb_spec (length row) 79).
    + rewrite wrap_full by lia. destruct (shows_next _ _ _ H1) as [H3 H4].
      split; [by apply shows_cursor|]. split; [simpl; lia|]. by apply (same_outside_trans v (put_cell v c)).
    + rewrite wrap_small, scroll_small by lia. split; [by apply shows_cursor|]. split; [rewrite length_app; cbn [length]; lia|done].
Qed.
Lemma clear_shows v : shows (vga_clear v) [] [] ∧ same_outside v (vga_clear v).
Proof.
  assert (∀ j, cells (vga_clear v) j = if (0 <=? j) && (j <? 2000) then blank else cells v j) as Hc.
  { exact (fill_cells (cells v) 0 blank (VGA_WIDTH * VGA_HEIGHT) ltac:(done)). }
  split; [|intros j Hj; rewrite Hc; case_if; [lia|done]]. split; [simpl; lia|done|done|].
  intros y x Hy Hx. rewrite Hc. repeat btrue. cbn [andb]. unfold shown. by destruct (Z.to_nat y) as [|[|]].
Qed.
Lemma puts_shows s : ∀ v above row, shows v above row → (length row < 80)%nat →
  let '(above', row') := foldl type_char (above, row) s in
  shows (vga_puts s v) above' row' ∧ (length row' < 80)%nat ∧ same_outside v (vga_puts s v).
Proof.
  induction s as [|c s IH]; intros v above row Hs Hl; [done|]. unfold vga_puts. cbn [foldl].
  pose proof (putchar_shows v above row c Hs Hl) as Hc. destruct (type_char (above, row) c) as [a1 r1]. destruct Hc as (H1 & H2 & H3).
  specialize (IH (vga_putchar c v) a1 r1 H1 H2). destruct (foldl type_char (a1, r1) s) as [a2 r2]. destruct IH as (H4 & H5 & H6).
  split; [done|]. split; [done|]. by apply (same_outside_trans v (vga_putchar c v)).
Qed.
End screen.

(** ** Theorems *)

(** The VGA text screen refines a page of text: after clearing the screen
    and printing any characters, newlines and backspaces included, cell
    (y, x) shows the character at column x of the y-th of the last 25 rows of
    the text laid out at 80 columns, or a blank; the cursor is after the last
    character of the last row; and no cell outside the 80 by 25 screen was
    written. *)
Theorem vga_puts_refines s v : let v' := vga_puts s (vga_clear v) in let p := type_text s in
  (∀ y x, 0 <= y < 25 → 0 <= x < 80 → cells v' (y * VGA_WIDTH + x) = shown (visible p) y x) ∧
  cursor_x v' = Z.of_nat (length (snd p)) ∧ cursor_x v' < VGA_WIDTH ∧
  cursor_y v' = Z.of_nat (length (visible p)) - 1 ∧ cursor_y v' < VGA_HEIGHT ∧
  ∀ j, j < 0 ∨ VGA_WIDTH * VGA_HEIGHT <= j → cells v' j = cells v j.
Proof.
  cbv zeta. destruct (clear_shows v) as [Hc Ho]. pose proof (puts_shows s (vga_clear v) [] [] Hc ltac:(simpl; lia)) as Hp.
  unfold type_text. destruct (foldl type_char ([], []) s) as [above row]. destruct Hp as (Hs & Hl & Ho').
  pose proof (shows_inside _ _ _ Hs) as [Hx Hy]. destruct Hs as [_ Ex Ey Hcells]. rewrite visible_vis, length_app. cbn [fst snd length].
  unfold VGA_WIDTH, VGA_HEIGHT. split; [done|]. split; [done|]. split; [lia|]. split; [lia|]. split; [lia|].
  intros j Hj. by rewrite Ho', Ho.
Qed.
(** a byte from 128 on is negative as a [char] and overwrites the attribute *)
Lemma glyph_attribute c : 0 <= c < 256 → Z.shiftr (glyph c) 8 = if c <? 128 then 0x07 else 0xFF.
Proof.
  intros Hc. assert (∀ n : nat, (n < 256)%nat → Z.shiftr (glyph (Z.of_nat n)) 8 = if Z.of_nat n <? 128 then 0x07 else 0xFF) as H.
  { intros n Hn. apply Z.eqb_eq. revert n Hn.
    assert (forallb (λ n, Z.shiftr (glyph (Z.of_nat n)) 8 =? if Z.of_nat n <? 128 then 0x07 else 0xFF) (seq 0 256) = true) as Hall by reflexivity.
    intros n Hn. rewrite forallb_forall in Hall. apply Hall. apply in_seq. lia. }
  specialize (H (Z.to_nat c) ltac:(lia)). by rewrite Z2Nat.id in H by lia.
Qed.
End Vga.

Module Console.
Import Multiboot.Mb Vga.
Definition CON_FG := 0xFFE0E0E0.
Definition CON_BG := 0xFF101010.
(** the calls into kernel/drivers/graphics.c *)
Inductive draw :=
| Clear (color : Z)
| Rect (x y w h color : Z)
| ScrollUp (dy color : Z)
| Glyph (x y c color scale : Z).
(** the statics of console.c and ttfont.c, the screen and the drawing calls *)
Record con := Con {
  g_mbi_phys : Z;
  s_fb_mode : bool;
  s_vga_text : bool;
  s_vbe : vbe_mode_info;
  s_fb_phys_h : Z;
  s_fb_font_manual : Z;
  s_scale_bm : Z;
  pen_x : Z;
  pen_y : Z;
  con_vga : vga;
  drawn : list draw
}.
Definition set_scale (k : con) (s : Z) : con :=
  Con (g_mbi_phys k) (s_fb_mode k) (s_vga_text k) (s_vbe k) (s_fb_phys_h k) (s_fb_font_manual k) s (pen_x k) (pen_y k) (con_vga k) (drawn k).
Definition set_manual (k : con) (s : Z) : con :=
  Con (g_mbi_phys k) (s_fb_mode k) (s_vga_text k) (s_vbe k) (s_fb_phys_h k) s (s_scale_bm k) (pen_x k) (pen_y k) (con_vga k) (drawn k).
Definition set_pen (k : con) (x y : Z) : con :=
  Con (g_mbi_phys k) (s_fb_mode k) (s_vga_text k) (s_vbe k) (s_fb_phys_h k) (s_fb_font_manual k) (s_scale_bm k) x y (con_vga k) (drawn k).
Definition set_vga (k : con) (v : vga) : con :=
  Con (g_mbi_phys k) (s_fb_mode k) (s_vga_text k) (s_vbe k) (s_fb_phys_h k) (s_fb_font_manual k) (s_scale_bm k) (pen_x k) (pen_y k) v (drawn k).
Definition paint (k : con) (d : draw) : con :=
  Con (g_mbi_phys k) (s_fb_mode k) (s_vga_text k) (s_vbe k) (s_fb_phys_h k) (s_fb_font_manual k) (s_scale_bm k) (pen_x k) (pen_y k) (con_vga k) (drawn k ++ [d]).

(** ** Font metrics (ttfont.c, bitmap font) *)
Definition ttfont_reset (k : con) : con := set_scale k 1.
Definition ttfont_set_bitmap_scale (k : con) (scale : Z) : con :=
  let scale := if scale <? 1 then 1 else scale in
  set_scale k (if 10 <? scale then 10 else scale).
Definition ttfont_get_bitmap_scale (k : con) : Z := s_scale_bm k.
Definition ttfont_init_for_height (k : con) (screen_height : Z) : con :=
  let s := Z.quot screen_height 36 in
  let s := if s <? 1 then 1 else s in
  set_scale k (if 6 <? s then 6 else s).
Definition ttfont_init_stb : Z := -1.
Definition ttfont_is_vector : bool := false.
(** the line height and the cell width *)
Definition ttfont_line_metrics (k : con) : Z * Z := (16 * s_scale_bm k, 8 * s_scale_bm k).
Definition ttfont_draw_glyph (k : con) (x y c fg : Z) : con :=
  if c <? 128 then paint k (Glyph x y c fg (s_scale_bm k)) else k.
Definition graphics_get_width (k : con) : Z := vbe_width (s_vbe k).
Definition graphics_get_height (k : con) : Z := vbe_height (s_vbe k).

(** ** console.c *)
Definition usable (v : vbe_mode_info) : bool :=
  negb (vbe_framebuffer v =? 0) && (0 <? vbe_width v) && (0 <? vbe_height v) && (24 <=? vbe_bpp v).
Definition console_init (fuel : nat) (m : mem) (mbi_phys : Z) (k : con) : outcome con :=
  let k := Con mbi_phys false false (s_vbe k) (s_fb_phys_h k) (s_fb_font_manual k) (s_scale_bm k) (pen_x k) (pen_y k) (con_vga k) (drawn k) in
  vbe ← multiboot_fill_vbe fuel m mbi_phys;
  match (v ← vbe; if usable v then Some v else None) with
  | Some v =>
    let k := Con mbi_phys true false v (vbe_height v) 0 (s_scale_bm k) (pen_x k) (pen_y k) (con_vga k) (drawn k) in
    let k := ttfont_init_for_height (ttfont_reset k) (s_fb_phys_h k) in
    (* the modules are looked up, but [ttfont_init_stb] refuses them *)
    _ ← multiboot_find_module_suffix fuel m mbi_phys (str "font.ttf");
    _ ← multiboot_find_module_suffix fuel m mbi_phys (str "font.otf");
    Ret (set_pen (paint k (Clear CON_BG)) 8 8)
  | None =>
    let k := ttfont_reset k in
    efi ← multiboot_has_efi_handoff fuel m mbi_phys;
    Ret (if efi : bool then k else
      Con mbi_phys false true (s_vbe k) (s_fb_phys_h k) (s_fb_font_manual k) (s_scale_bm k) (pen_x k) (pen_y k) (vga_init (con_vga k)) (drawn k))
  end.
Definition console_is_framebuffer (k : con) : bool := s_fb_mode k.
Definition console_fb_dims (k : con) : Z * Z :=
  if negb (s_fb_mode k) then (0, 0) else (graphics_get_width k, graphics_get_height k).
Definition console_get_mbi_phys (k : con) : Z := g_mbi_phys k.
(** the description of the bitmap font *)
Definition console_font_desc (k : con) : list Z :=
  let cw := snd (ttfont_line_metrics k) in
  let scale := Z.quot cw 8 in
  let scale := if scale <? 1 then 1 else scale in
  str "Bitmap 8x16 scaled x" ++ (if 10 <=? scale then [48 + Z.quot scale 10] else []) ++ [48 + Z.rem scale 10].
Definition console_clear (k : con) : con :=
  if s_fb_mode k then set_pen (paint k (Clear CON_BG)) 8 8
  else if negb (s_vga_text k) then k
  else set_vga k (vga_clear (con_vga k)).
(** the next line, scrolling when it would leave the screen *)
Definition next_line (k : con) : con :=
  let lh := fst (ttfont_line_metrics k) in
  let max_y := graphics_get_height k - 8 in
  let k := set_pen k 8 (pen_y k + lh) in
  if max_y <? pen_y k + lh then
    let k := paint k (ScrollUp lh CON_BG) in
    let k := set_pen k (pen_x k) (pen_y k - lh) in
    if pen_y k <? 8 then set_pen k (pen_x k) 8 else k
  else k.
Definition console_putchar (c : Z) (k : con) : con :=
  if negb (s_fb_mode k) then
    if negb (s_vga_text k) then k else set_vga k (vga_putchar c (con_vga k))
  else
    let '(lh, cw) := ttfont_line_metrics k in
    let max_x := graphics_get_width k - 8 in
    if c =? newline then next_line k
    else if c =? backspace then
      if 8 <? pen_x k then
        let k := set_pen k (pen_x k - cw) (pen_y k) in
        paint k (Rect (pen_x k) (pen_y k) cw lh CON_BG)
      else k
    else if (c <? 32) || (127 <=? c) then k
    else
      let k := if max_x <? pen_x k + cw then next_line k else k in
      let k := ttfont_draw_glyph k (pen_x k) (pen_y k) c CON_FG in
      set_pen k (pen_x k + cw) (pen_y k).
Definition console_puts (s : list Z) (k : con) : con := foldl (λ k c, console_putchar c k) k s.
Definition console_set_fb_font_scale (step : Z) (k : con) : con :=
  if negb (s_fb_mode k) then k
  else if (step <? 0) || (10 <? step) then k
  else
    let k := ttfont_init_for_height (set_manual k step) (s_fb_phys_h k) in
    let k := if (1 <=? step) && (step <=? 10) && negb ttfont_is_vector then ttfont_set_bitmap_scale k step else k in
    set_pen (paint k (Clear CON_BG)) 8 8.
Definition console_get_fb_font_scale (k : con) : Z :=
  if negb (s_fb_mode k) then 0
  else if (1 <=? s_fb_font_manual k) && (s_fb_font_manual k <=? 10) then s_fb_font_manual k
  else ttfont_get_bitmap_scale k.

(** ** The framebuffer console stays inside its margins *)
Definition inside (k : con) (d : draw) : Prop :=
  match d with
  | Glyph x y _ _ scale => 8 <= x ∧ x + 8 * scale <= graphics_get_width k - 8 ∧ 8 <= y ∧ y + 16 * scale <= graphics_get_height k - 8
  | Rect x y w h _ => 8 <= x ∧ x + w <= graphics_get_width k - 8 ∧ 8 <= y ∧ y + h <= graphics_get_height k - 8
  | _ => True
  end.
(** a framebuffer large enough for one character, the pen on the grid *)
Record fb_ok (k : con) : Prop := {
  fb_mode : s_fb_mode k = true;
  fb_scale : 1 <= s_scale_bm k <= 10;
  fb_w : 16 + 8 * s_scale_bm k <= graphics_get_width k;
  fb_h : 16 + 16 * s_scale_bm k <= graphics_get_height k;
  fb_x : ∃ i, 0 <= i ∧ pen_x k = 8 + 8 * s_scale_bm k * i ∧ pen_x k <= graphics_get_width k - 8;
  fb_y : 8 <= pen_y k ∧ pen_y k + 16 * s_scale_bm k <= graphics_get_height k - 8
}.
(** same screen and font, the calls [ds] added *)
Definition drew (k k' : con) (ds : list draw) : Prop :=
  s_vbe k' = s_vbe k ∧ s_scale_bm k' = s_scale_bm k ∧ drawn k' = drawn k ++ ds.
Ltac con_simpl :=
  unfold inside, drew in *; unfold graphics_get_width, graphics_get_height in *;
  cbn [s_fb_mode s_scale_bm s_vbe pen_x pen_y drawn set_pen paint set_scale] in *.
Section framebuffer.
Implicit Types (k : con).
Lemma next_line_ok k : fb_ok k → ∃ ds, fb_ok (next_line k) ∧ drew k (next_line k) ds ∧ Forall (inside k) ds ∧ pen_x (next_line k) = 8.
Proof.
  intros [Hm Hs Hw Hh Hx [Hy1 Hy2]]. unfold next_line. cbn [fst ttfont_line_metrics pen_y set_pen].
  assert (∃ i, 0 <= i ∧ 8 = 8 + 8 * s_scale_bm k * i ∧ 8 <= graphics_get_width k - 8) as H8 by (exists 0; lia).
  case_if.
  - exists [ScrollUp (16 * s_scale_bm k) CON_BG]. cbn [pen_x pen_y set_pen paint].
    rewrite (proj2 (Z.ltb_ge _ 8)) by lia. split; [|split; [done|split; [by apply Forall_singleton|done]]].
    split; con_simpl; [done..|lia].
  - exists []. split; [|split; [by unfold drew; rewrite app_nil_r|split; [done|done]]]. split; con_simpl; [done..|lia].
Qed.
Lemma putchar_fb k c : fb_ok k → ∃ ds, fb_ok (console_putchar c k) ∧ drew k (console_putchar c k) ds ∧ Forall (inside k) ds.
Proof.
  intros Hk. pose proof Hk as [Hm Hs Hw Hh (i & Hi & Ex & Hx) [Hy1 Hy2]].
  assert (drew k k []) as Hrefl by (split; [done|split; [done|by rewrite app_nil_r]]).
  unfold console_putchar. rewrite Hm. cbn [negb ttfont_line_metrics].
  destruct (Z.eqb_spec c newline); [destruct (next_line_ok k Hk) as (ds & ? & ? & ? & _); by exists ds|].
  destruct (Z.eqb_spec c backspace).
  { destruct (Z.ltb_spec 8 (pen_x k)) as [H8|H8]; [|by exists []].
    assert (1 <= i) as Hi1 by nia. eexists [_]. split; [|split; [done|]].
    - split; con_simpl; [done..| |done]. exists (i - 1). split; [lia|]. split; [lia|nia].
    - apply Forall_singleton. con_simpl. nia. }
  destruct ((c <? 32) || (127 <=? c)) eqn:Ec; [by exists []|]. apply orb_false_iff in Ec as [_ Ec%Z.leb_gt].
  set (k1 := if graphics_get_width k - 8 <? pen_x k + 8 * s_scale_bm k then next_line k else k).
  assert (∃ ds, fb_ok k1 ∧ drew k k1 ds ∧ Forall (inside k) ds ∧ pen_x k1 + 8 * s_scale_bm k <= graphics_get_width k - 8) as (ds & Hk1 & Hd1 & Hin & Hfit).
  { unfold k1. case_if; [|by exists []]. destruct (next_line_ok k Hk) as (ds & ? & ? & ? & E8). exists ds. rewrite E8. split; [done|]. split; [done|]. split; [done|lia]. }
  destruct Hd1 as (D1 & D2 & D3). pose proof Hk1 as [Hm1 Hs1 Hw1 Hh1 (j & Hj & Ex1 & Hx1) [Hy3 Hy4]].
  unfold graphics_get_width, graphics_get_height in *. rewrite D1, D2 in *.
  unfold ttfont_draw_glyph. rewrite (proj2 (Z.ltb_lt c 128)), D2 by lia.
  exists (ds ++ [Glyph (pen_x k1) (pen_y k1) c CON_FG (s_scale_bm k)]). split; [|split].
  - split; con_simpl; rewrite ?D1, ?D2; [done..| |done]. exists (j + 1). split; [lia|]. split; [lia|lia].
  - split; [done|]. split; [done|]. cbn [drawn set_pen paint]. by rewrite D3, <-app_assoc.
  - apply Forall_app. split; [done|]. apply Forall_singleton. con_simpl. lia.
Qed.
End framebuffer.

(** The framebuffer console draws inside its margins: on a framebuffer
    that has room for one character, printing any text keeps the pen on the
    character grid, and every glyph drawn and every cell erased lies at least
    8 pixels inside the screen on all four sides. *)
Theorem console_puts_inside s k : fb_ok k →
  ∃ ds, drawn (console_puts s k) = drawn k ++ ds ∧ Forall (inside k) ds ∧ fb_ok (console_puts s k).
Proof.
  revert k. induction s as [|c s IH]; intros k Hk; [exists []; by rewrite app_nil_r|].
  destruct (putchar_fb k c Hk) as (ds & Hk1 & (D1 & D2 & D3) & Hin). destruct (IH _ Hk1) as (ds' & E & Hin' & Hk2).
  exists (ds ++ ds'). unfold console_puts in *. cbn [foldl]. rewrite E, D3, <-app_assoc. split; [done|]. split; [|done].
  apply Forall_app. split; [done|]. eapply Forall_impl; [exact Hin'|]. intros [] Hd; con_simpl; by rewrite ?D1 in Hd.
Qed.
Definition demo_con : con :=
  Con 0 true false (Vbe 800 600 3200 32 0xFD000000) 600 0 6 8 8 (VgaSt (λ _, 0) 0 0 (λ _, 0)) [].
Lemma console_puts_inside_witness : fb_ok (console_puts (str "hello") demo_con) ∧ length (drawn (console_puts (str "hello") demo_con)) = 5%nat.
Proof.
  split; [|reflexivity]. destruct (console_puts_inside (str "hello") demo_con) as (ds & _ & _ & Hk); [|exact Hk].
  split; [done|vm_compute; split; discriminate|vm_compute; discriminate..|exists 0; vm_compute; repeat split; discriminate|vm_compute; split; discriminate].
Defined.
End Console.

(** ** Numbers (kernel/main.c) *)
Module Print.
Definition hex_digit (d : Z) : Z := nth (Z.to_nat d) (str "0123456789ABCDEF") 0.
Definition hex_text (n : Z) : list Z :=
  str "0x" ++ ((λ i, hex_digit (Z.land (Z.shiftr n (60 - 4 * i)) 0xF)) <$> seqZ 0 16).
(** [while (n > 0) buf[i++] = ...] into [char buf[20]] *)
Fixpoint dec_loop (fuel : nat) (n : Z) (buf : list Z) : outcome (list Z) :=
  if 0 <? n
  then match fuel with
       | O => Loop
       | S fuel => if (length buf <? 20)%nat then dec_loop fuel (n / 10) (buf ++ [u8 (n mod 10 + 48)]) else Undef
       end
  else Ret buf.
Definition dec_text (n : Z) : outcome (list Z) :=
  if n =? 0 then Ret [48]
  else buf ← dec_loop 64 n []; Ret (rev buf).

(** what a list of decimal digits means *)
Definition dec_value (ds : list Z) : Z := foldl (λ v d, v * 10 + (d - 48)) 0 ds.
Definition is_digit (d : Z) : Prop := 48 <= d <= 57.
Lemma dec_value_app ds d : dec_value (ds ++ [d]) = dec_value ds * 10 + (d - 48).
Proof. unfold dec_value. by rewrite foldl_app. Qed.
Lemma dec_value_high d ds : dec_value (d :: ds) = (d - 48) * 10 ^ Z.of_nat (length ds) + dec_value ds.
Proof.
  induction ds as [|x ds IH] using rev_ind; [unfold dec_value; simpl; lia|].
  change (d :: ds ++ [x]) with ((d :: ds) ++ [x]). rewrite !dec_value_app, IH, length_app. cbn [length].
  replace (Z.of_nat (length ds + 1)) with (Z.of_nat (length ds) + 1) by lia. rewrite Z.pow_add_r by lia. lia.
Qed.
Lemma dec_loop_0 fuel buf : dec_loop fuel 0 buf = Ret buf.
Proof. by destruct fuel. Qed.
(** [k] more digits hold a number below [10 ^ k] *)
Lemma dec_loop_spec k : ∀ n buf fuel, 0 <= n < 10 ^ Z.of_nat k → (k <= fuel)%nat → (length buf + k <= 20)%nat → Forall is_digit buf →
  ∃ ds, dec_loop fuel n buf = Ret (buf ++ ds) ∧ Forall is_digit (buf ++ ds) ∧ (length ds <= k)%nat ∧
    dec_value (rev (buf ++ ds)) = n * 10 ^ Z.of_nat (length buf) + dec_value (rev buf) ∧ (0 < n → last (buf ++ ds) ≠ Some 48).
Proof.
  induction k as [|k IH]; intros n buf fuel Hn Hf Hl Hd.
  { assert (n = 0) as -> by (simpl in Hn; lia). exists []. rewrite app_nil_r. destruct fuel; split; try done; split; try done; (split; [simpl; lia|split; [lia|lia]]). }
  destruct fuel as [|fuel]; [lia|]. cbn [dec_loop]. destruct (Z.ltb_spec 0 n) as [Hpos|Hz].
  2: { exists []. rewrite app_nil_r. assert (n = 0) as -> by lia. split; [done|]. split; [done|]. split; [simpl; lia|]. split; [lia|lia]. }
  rewrite (proj2 (Nat.ltb_lt _ _)), u8_small by (lia || zdm). set (d := n mod 10 + 48).
  assert (is_digit d) as Hdd by (unfold is_digit, d; zdm).
  destruct (IH (n / 10) (buf ++ [d]) fuel) as (ds & E & Hf' & Hl' & Hv & Hlast).
  { rewrite Nat2Z.inj_succ, Z.pow_succ_r in Hn by lia. split; [zdm|]. apply Z.div_lt_upper_bound; lia. }
  { lia. } { rewrite length_app. simpl. lia. } { apply Forall_app. by split; [|apply Forall_singleton]. }
  exists (d :: ds). replace (buf ++ d :: ds) with ((buf ++ [d]) ++ ds) by (by rewrite <-app_assoc). rewrite E. split; [done|].
  split; [done|]. split; [simpl; lia|]. split.
  - rewrite Hv, rev_app_distr. cbn [rev app]. rewrite dec_value_high, length_rev, length_app. cbn [length].
    replace (Z.of_nat (length buf + 1)) with (Z.of_nat (length buf) + 1) by lia. rewrite Z.pow_add_r by lia.
    unfold d. pose proof (Z.div_mod n 10). nia.
  - intros _. destruct (decide (0 < n / 10)) as [H1|H1]; [by apply Hlast|].
    assert (ds = []) as ->.
    { assert (n / 10 = 0) as Hz by zdm. rewrite Hz, dec_loop_0 in E. injection E as E. apply (f_equal length) in E.
      rewrite !length_app in E. destruct ds; [done|simpl in E; lia]. }
    rewrite app_nil_r, last_app. cbn. intros [= E0]. unfold d in E0. zdm.
Qed.
(** for every 64-bit number [puts_dec] stays inside its 20-byte buffer and
    prints its decimal digits, without a leading zero *)
Lemma dec_text_spec n : 0 <= n < 2 ^ 64 →
  ∃ ds, dec_text n = Ret ds ∧ Forall is_digit ds ∧ (1 <= length ds <= 20)%nat ∧ dec_value ds = n ∧ (n ≠ 0 → head ds ≠ Some 48).
Proof.
  intros Hn. unfold dec_text. destruct (Z.eqb_spec n 0) as [->|Hnz].
  { exists [48]. split; [done|]. split; [repeat constructor; unfold is_digit; lia|]. split; [simpl; lia|]. done. }
  destruct (dec_loop_spec 20 n [] 64) as (ds & E & Hd & Hl & Hv & Hlast); [change (10 ^ Z.of_nat 20) with 100000000000000000000; lia|lia|simpl; lia|done|].
  rewrite E. exists (rev ds). cbn [app] in *. split; [done|]. split; [by apply Forall_rev|]. rewrite length_rev. split.
  - split; [|done]. destruct ds; [|simpl; lia]. unfold dec_value in Hv. simpl in Hv. lia.
  - split; [rewrite Hv; cbn; lia|]. intros _. specialize (Hlast ltac:(lia)). destruct ds as [|d ds _] using rev_ind; [done|].
    rewrite rev_app_distr. by rewrite last_snoc in Hlast.
Qed.
End Print.
