(* ===== verification/Font.v ===== *)
(** The bitmap font (kernel/drivers/font.c): sixteen rows of eight pixels for
    each of the characters 0 to 127, the leftmost pixel in the highest bit. *)
From stdpp Require Import base numbers list.
From S2P Require Import Prelude.
Open Scope Z_scope.

(** the sixteen bytes of a glyph, written as one number from the top row down *)
Definition glyph_rows (bits : Z) : list Z := (λ j, Z.land (Z.shiftr bits (8 * (15 - j))) 0xFF) <$> seqZ 0 16.
Definition font8x16 : list (list Z) := glyph_rows <$> [
  0x00000000000000000000000000000000; 0x00007E81A58181BD9981817E00000000; 0x00007EFFDBFFFFC3E7FFFF7E00000000; 0x000000006CFEFEFEFE7C381000000000;
  0x0000000010387CFE7C38100000000000; 0x000000183C3CE7E7E718183C00000000; 0x000000183C7EFFFF7E18183C00000000; 0x000000000000183C3C18000000000000;
  0xFFFFFFFFFFFFE7C3C3E7FFFFFFFFFFFF; 0x00000000003C664242663C0000000000; 0xFFFFFFFFFFC399BDBD99C3FFFFFFFFFF; 0x00001E0E1A3278CCCCCCCC7800000000;
  0x00003C666666663C187E181800000000; 0x00003F333F3030303070F0E000000000; 0x00007F637F6363636367E7E6C0000000; 0x0000001818DB3CE73CDB181800000000;
  0x0080C0E0F0F8FEF8F0E0C08000000000; 0x0002060E1E3EFE3E1E0E060200000000; 0x0000183C7E1818187E3C180000000000; 0x00006666666666666600666600000000;
  0x00007FDBDBDB7B1B1B1B1B1B00000000; 0x007CC660386CC6C66C380CC67C000000; 0x0000000000000000FEFEFEFE00000000; 0x0000183C7E1818187E3C187E00000000;
  0x0000183C7E1818181818181800000000; 0x0000181818181818187E3C1800000000; 0x0000000000180CFE0C18000000000000; 0x00000000003060FE6030000000000000;
  0x000000000000C0C0C0FE000000000000; 0x0000000000286CFE6C28000000000000; 0x000000001038387C7CFEFE0000000000; 0x00000000FEFE7C7C3838100000000000;
  0x00000000000000000000000000000000; 0x0000183C3C3C18181800181800000000; 0x00666666240000000000000000000000; 0x0000006C6CFE6C6C6CFE6C6C00000000;
  0x18187CC6C2C07C060686C67C18180000; 0x00000000C2C60C183060C68600000000; 0x0000386C6C3876DCCCCCCC7600000000; 0x00303030600000000000000000000000;
  0x00000C18303030303030180C00000000; 0x000030180C0C0C0C0C0C183000000000; 0x0000000000663CFF3C66000000000000; 0x000000000018187E1818000000000000;
  0x00000000000000000018181830000000; 0x00000000000000FE0000000000000000; 0x00000000000000000000181800000000; 0x0000000002060C183060C08000000000;
  0x0000386CC6C6D6D6C6C66C3800000000; 0x00001838781818181818187E00000000; 0x00007CC6060C183060C0C6FE00000000; 0x00007CC606063C060606C67C00000000;
  0x00000C1C3C6CCCFE0C0C0C1E00000000; 0x0000FEC0C0C0FC060606C67C00000000; 0x00003860C0C0FCC6C6C6C67C00000000; 0x0000FEC606060C183030303000000000;
  0x00007CC6C6C67CC6C6C6C67C00000000; 0x00007CC6C6C67E0606060C7800000000; 0x00000000181800000018180000000000; 0x00000000181800000018183000000000;
  0x000000060C18306030180C0600000000; 0x00000000007E00007E00000000000000; 0x0000006030180C060C18306000000000; 0x00007CC6C60C18181800181800000000;
  0x0000007CC6C6DEDEDEDCC07C00000000; 0x000010386CC6C6FEC6C6C6C600000000; 0x0000FC6666667C66666666FC00000000; 0x00003C66C2C0C0C0C0C2663C00000000;
  0x0000F86C6666666666666CF800000000; 0x0000FE6662687868606266FE00000000; 0x0000FE6662687868606060F000000000; 0x00003C66C2C0C0DEC6C6663A00000000;
  0x0000C6C6C6C6FEC6C6C6C6C600000000; 0x00003C18181818181818183C00000000; 0x00001E0C0C0C0C0CCCCCCC7800000000; 0x0000E666666C78786C6666E600000000;
  0x0000F06060606060606266FE00000000; 0x0000C6EEFEFED6C6C6C6C6C600000000; 0x0000C6E6F6FEDECEC6C6C6C600000000; 0x00007CC6C6C6C6C6C6C6C67C00000000;
  0x0000FC6666667C60606060F000000000; 0x00007CC6C6C6C6C6C6D6DE7C0C0E0000; 0x0000FC6666667C6C666666E600000000; 0x00007CC6C660380C06C6C67C00000000;
  0x00007E7E5A1818181818183C00000000; 0x0000C6C6C6C6C6C6C6C6C67C00000000; 0x0000C6C6C6C6C6C6C66C381000000000; 0x0000C6C6C6C6D6D6D6FEEE6C00000000;
  0x0000C6C66C7C38387C6CC6C600000000; 0x0000666666663C181818183C00000000; 0x0000FEC6860C183060C2C6FE00000000; 0x00003C30303030303030303C00000000;
  0x00000080C0E070381C0E060200000000; 0x00003C0C0C0C0C0C0C0C0C3C00000000; 0x10386CC6000000000000000000000000; 0x00000000000000000000000000FF0000;
  0x0030180C000000000000000000000000; 0x0000000000780C7CCCCCCC7600000000; 0x0000E06060786C666666667C00000000; 0x00000000007CC6C0C0C0C67C00000000;
  0x00001C0C0C3C6CCCCCCCCC7600000000; 0x00000000007CC6FEC0C0C67C00000000; 0x00001C36323078303030307800000000; 0x000000000076CCCCCCCCCC7C0CCC7800;
  0x0000E060606C7666666666E600000000; 0x00001818003818181818183C00000000; 0x00000606000E06060606060666663C00; 0x0000E06060666C78786C66E600000000;
  0x00003818181818181818183C00000000; 0x0000000000ECFED6D6D6D6C600000000; 0x0000000000DC66666666666600000000; 0x00000000007CC6C6C6C6C67C00000000;
  0x0000000000DC66666666667C6060F000; 0x000000000076CCCCCCCCCC7C0C0C1E00; 0x0000000000DC7666606060F000000000; 0x00000000007CC660380CC67C00000000;
  0x0000103030FC30303030361C00000000; 0x0000000000CCCCCCCCCCCC7600000000; 0x0000000000C6C6C6C6C66C3800000000; 0x0000000000C6C6D6D6D6FE6C00000000;
  0x0000000000C66C3838386CC600000000; 0x0000000000C6C6C6C6C6C67E060CF800; 0x0000000000FECC183060C6FE00000000; 0x00000E18181870181818180E00000000;
  0x00001818181818181818181800000000; 0x0000701818180E181818187000000000; 0x0076DC00000000000000000000000000; 0x0000000010386CC6C6C6FE0000000000].
