(* ===== verification/Graphics.v ===== *)
(** The framebuffer (kernel/drivers/graphics.c) in physical memory.  A screen
    of 24 to 32 bits per pixel refines a canvas, a colour for every point; the
    drawing operations that the console uses ([Console.draw]) change the
    canvas as they should and write nothing outside the framebuffer. *)
From stdpp Require Import base numbers list sets.
From S2P Require Import Prelude Memory Multiboot Console Font.
Open Scope Z_scope.

Module Graphics.
Import Multiboot.Mb Console.Console.
(** [mode_info] and [lfb_base] *)
Record gfx := Gfx { mode_info : option vbe_mode_info; lfb_base : Z }.
Definition graphics_init (vbe : vbe_mode_info) : gfx := Gfx (Some vbe) (vbe_framebuffer vbe).
Definition bpp_bytes (g : gfx) : Z :=
  match mode_info g with
  | None => 4
  | Some v => if vbe_bpp v <=? 0 then 4 else (vbe_bpp v + 7) / 8
  end.
(** the bytes stored for a pixel *)
Definition pixel_bytes (bpp bp color : Z) : list Z :=
  let r := u8 (Z.land (Z.shiftr color 16) 0xFF) in
  let g := u8 (Z.land (Z.shiftr color 8) 0xFF) in
  let b := u8 (Z.land color 0xFF) in
  let a := u8 (Z.land (Z.shiftr color 24) 0xFF) in
  if bpp =? 32 then le_of 4 color
  else if 24 <=? bpp then [b; g; r] ++ (if 4 <=? bp then [a] else [])
  else if 16 <=? bpp then
    le_of 2 (u16 (Z.lor (Z.lor (Z.shiftl (Z.land r 0xF8) 8) (Z.shiftl (Z.land g 0xFC) 3)) (Z.shiftr b 3)))
  else [u8 ((r + g + b) / 3)].
Definition graphics_draw_pixel (g : gfx) (x y color : Z) (m : mem) : mem :=
  match mode_info g with
  | None => m
  | Some v =>
    if lfb_base g =? 0 then m
    else if (x <? 0) || (vbe_width v <=? x) || (y <? 0) || (vbe_height v <=? y) then m
    else mwrite m (u64 (u64 (lfb_base g + u64 (y * vbe_pitch v)) + u64 (x * bpp_bytes g))) (pixel_bytes (vbe_bpp v) (bpp_bytes g) color)
  end.
Definition graphics_draw_rect (g : gfx) (x y w h color : Z) (m : mem) : mem :=
  foldl (λ m j, foldl (λ m i, graphics_draw_pixel g (x + i) (y + j) color m) m (seqZ 0 w)) m (seqZ 0 h).
Definition graphics_clear (g : gfx) (color : Z) (m : mem) : mem :=
  match mode_info g with
  | None => m
  | Some v => if lfb_base g =? 0 then m else graphics_draw_rect g 0 0 (vbe_width v) (vbe_height v) color m
  end.
(** a row of bytes, from the row [dy] lines below *)
Definition copy_row (base pitch dy row : Z) (m : mem) : mem :=
  foldl (λ m i, mwrite m (u64 (base + row * pitch + i)) [m (u64 (base + (row + dy) * pitch + i))]) m (seqZ 0 pitch).
Definition graphics_scroll_up_pixels (g : gfx) (dy fill_color : Z) (m : mem) : mem :=
  match mode_info g with
  | None => m
  | Some v =>
    if (lfb_base g =? 0) || (dy <=? 0) then m
    else if vbe_height v <=? dy then graphics_clear g fill_color m
    else
      let m := foldl (λ m row, copy_row (lfb_base g) (vbe_pitch v) dy row m) m (seqZ 0 (vbe_height v - dy)) in
      graphics_draw_rect g 0 (vbe_height v - dy) (vbe_width v) dy fill_color m
  end.
Definition font_row (c j : Z) : Z := nth (Z.to_nat j) (nth (Z.to_nat c) font8x16 []) 0.
Definition graphics_draw_char_scaled (g : gfx) (x y c color scale : Z) (m : mem) : mem :=
  match mode_info g with
  | None => m
  | Some v =>
    if (lfb_base g =? 0) || (scale <? 1) then m
    else if 127 <? c then m
    else
      foldl (λ m j, foldl (λ m i,
        if has (font_row c j) (Z.shiftl 1 (7 - i)) then
          foldl (λ m sy, foldl (λ m sx, graphics_draw_pixel g (x + i * scale + sx) (y + j * scale + sy) color m) m (seqZ 0 scale)) m (seqZ 0 scale)
        else m) m (seqZ 0 8)) m (seqZ 0 16)
  end.
Definition graphics_draw_char (g : gfx) (x y c color : Z) (m : mem) : mem := graphics_draw_char_scaled g x y c color 1 m.
Fixpoint draw_string (g : gfx) (x cur_x y : Z) (s : list Z) (color : Z) (m : mem) : mem :=
  match s with
  | [] => m
  | c :: s =>
    if c =? 10 then draw_string g x x (y + 16) s color m
    else draw_string g x (cur_x + 8) y s color (graphics_draw_char g cur_x y c color m)
  end.
Definition graphics_draw_string (g : gfx) (x y : Z) (s : list Z) (color : Z) (m : mem) : mem := draw_string g x x y s color m.
Definition graphics_get_pitch (g : gfx) : Z := match mode_info g with Some v => vbe_pitch v | None => 0 end.
Definition graphics_get_lfb (g : gfx) : Z := lfb_base g.
(** the console's drawing calls *)
Definition render (g : gfx) (m : mem) (d : draw) : mem :=
  match d with
  | Clear c => graphics_clear g c m
  | Rect x y w h c => graphics_draw_rect g x y w h c m
  | ScrollUp dy c => graphics_scroll_up_pixels g dy c m
  | Glyph x y ch c scale => graphics_draw_char_scaled g x y ch c scale m
  end.

(** ** The canvas *)
Definition canvas : Type := Z → Z → Z.
Definition fill (cv : canvas) (P : Z → Z → bool) (c : Z) : canvas := λ x y, if P x y then c else cv x y.
Definition glyph_bit (ch i j : Z) : bool := (0 <=? i) && (i <? 8) && (0 <=? j) && (j <? 16) && Z.testbit (font_row ch j) (7 - i).
Definition draw_on (v : vbe_mode_info) (cv : canvas) (d : draw) : canvas :=
  match d with
  | Clear c => fill cv (λ _ _, true) c
  | Rect x y w h c => fill cv (λ px py, (x <=? px) && (px <? x + w) && (y <=? py) && (py <? y + h)) c
  | ScrollUp dy c =>
    if dy <=? 0 then cv else fill (λ px py, cv px (py + dy)) (λ px py, vbe_height v - dy <=? py) c
  | Glyph x y ch c scale =>
    if (scale <? 1) || (127 <? ch) then cv else fill cv (λ px py, glyph_bit ch ((px - x) / scale) ((py - y) / scale)) c
  end.

(** ** Geometry *)
Record fb_ok (v : vbe_mode_info) : Prop := {
  fb_size : 0 < vbe_width v ∧ 0 < vbe_height v;
  fb_depth : 24 <= vbe_bpp v <= 32;
  fb_pitch : vbe_width v * ((vbe_bpp v + 7) / 8) <= vbe_pitch v;
  fb_base : 0 < vbe_framebuffer v;
  fb_end : vbe_framebuffer v + vbe_height v * vbe_pitch v <= 2 ^ 64
}.
Section screen.
Context (v : vbe_mode_info) (Hv : fb_ok v).
Notation g := (graphics_init v).
Definition bytes_pp : Z := (vbe_bpp v + 7) / 8.
Definition addr (x y : Z) : Z := vbe_framebuffer v + y * vbe_pitch v + x * bytes_pp.
Definition on_screen (x y : Z) : Prop := 0 <= x < vbe_width v ∧ 0 <= y < vbe_height v.
Definition in_fb (a : Z) : Prop := vbe_framebuffer v <= a < vbe_framebuffer v + vbe_height v * vbe_pitch v.
(** the framebuffer shows the canvas *)
Definition shows (m : mem) (cv : canvas) : Prop := ∀ x y, on_screen x y → mread m (addr x y) (Z.to_nat bytes_pp) = le_of (Z.to_nat bytes_pp) (cv x y).
(** nothing outside the framebuffer changes *)
Definition framed (m m' : mem) : Prop := ∀ a, ¬ in_fb a → m' a = m a.
Lemma bytes_pp_range : bytes_pp = 3 ∨ bytes_pp = 4.
Proof. destruct Hv as [_ Hd _ _ _]. unfold bytes_pp. assert (31 <= vbe_bpp v + 7 <= 39) as H by lia. revert H. generalize (vbe_bpp v + 7). intros z Hz. zdm. Qed.
Lemma framed_refl m : framed m m.
Proof. done. Qed.
Lemma framed_trans m1 m2 m3 : framed m1 m2 → framed m2 m3 → framed m1 m3.
Proof. intros H1 H2 a Ha. by rewrite H2, H1. Qed.
Lemma shows_ext m cv cv' : shows m cv → (∀ x y, on_screen x y → cv x y = cv' x y) → shows m cv'.
Proof. intros Hs He x y Hxy. by rewrite <-He, Hs. Qed.
(** pixels are disjoint and inside *)
Lemma addr_row x y : on_screen x y → vbe_framebuffer v + y * vbe_pitch v <= addr x y ∧ addr x y + bytes_pp <= vbe_framebuffer v + (y + 1) * vbe_pitch v.
Proof.
  intros [Hx Hy]. destruct Hv as [_ _ Hp _ _]. fold bytes_pp in Hp. pose proof bytes_pp_range. unfold addr. nia.
Qed.
Lemma addr_in x y : on_screen x y → vbe_framebuffer v <= addr x y ∧ addr x y + bytes_pp <= vbe_framebuffer v + vbe_height v * vbe_pitch v.
Proof.
  intros Hxy. pose proof (addr_row x y Hxy) as [H1 H2]. destruct Hxy as [Hx Hy]. destruct Hv as [_ _ Hp _ _]. fold bytes_pp in Hp. pose proof bytes_pp_range.
  assert (0 <= vbe_pitch v) by nia. nia.
Qed.
Lemma addr_disjoint x y x' y' : on_screen x y → on_screen x' y' → (x, y) ≠ (x', y') → addr x y + bytes_pp <= addr x' y' ∨ addr x' y' + bytes_pp <= addr x y.
Proof.
  intros H1 H2 Hne. pose proof (addr_row x y H1). pose proof (addr_row x' y' H2). destruct Hv as [_ _ Hp _ _]. fold bytes_pp in Hp. pose proof bytes_pp_range.
  destruct H1 as [Hx Hy], H2 as [Hx' Hy']. assert (0 <= vbe_pitch v) by nia.
  destruct (Z.lt_trichotomy y y') as [Hlt|[->|Hgt]]; [left; nia| |right; nia].
  assert (x ≠ x') as Hnx by (intros ->; done). unfold addr. destruct (Z.lt_trichotomy x x') as [Hlt|[->|Hgt]]; [left; nia|done|right; nia].
Qed.
Lemma bpp_bytes_pp : bpp_bytes g = bytes_pp.
Proof. unfold bpp_bytes. cbn [mode_info graphics_init]. destruct Hv as [_ Hd _ _ _]. by rewrite (proj2 (Z.leb_gt _ 0)) by lia. Qed.
Lemma pixel_bytes_le c : pixel_bytes (vbe_bpp v) bytes_pp c = le_of (Z.to_nat bytes_pp) c.
Proof.
  destruct Hv as [_ Hd _ _ _]. unfold pixel_bytes. cbv zeta. change 0xFF with (Z.ones 8). rewrite !Z.land_ones, !Z.shiftr_div_pow2 by lia.
  unfold u8. change (2 ^ 8) with 256. rewrite !Z.mod_mod by lia. change (2 ^ 16) with (256 * 256). change (2 ^ 24) with (256 * 256 * 256). rewrite <-!Z.div_div by lia.
  destruct (Z.eqb_spec (vbe_bpp v) 32) as [E|E].
  - unfold bytes_pp. by rewrite E.
  - rewrite (proj2 (Z.leb_le 24 _)) by lia. destruct bytes_pp_range as [-> | ->]; reflexivity.
Qed.
Lemma draw_pixel_eq x y c m : graphics_draw_pixel g x y c m = m ∧ ¬ on_screen x y ∨
  on_screen x y ∧ graphics_draw_pixel g x y c m = mwrite m (addr x y) (le_of (Z.to_nat bytes_pp) c).
Proof.
  unfold graphics_draw_pixel. cbn [mode_info lfb_base graphics_init]. pose proof Hv as [Hs Hd Hp Hb He]. rewrite (proj2 (Z.eqb_neq _ 0)) by lia.
  destruct (Z.ltb_spec x 0); [left; split; [done|unfold on_screen; lia]|]. destruct (Z.leb_spec (vbe_width v) x); [left; split; [done|unfold on_screen; lia]|].
  destruct (Z.ltb_spec y 0); [left; split; [done|unfold on_screen; lia]|]. destruct (Z.leb_spec (vbe_height v) y); [left; split; [done|unfold on_screen; lia]|].
  right. assert (on_screen x y) as Hxy by (split; lia). split; [done|]. cbn [orb]. pose proof (addr_in x y Hxy) as [A1 A2]. pose proof bytes_pp_range as Hbp.
  rewrite bpp_bytes_pp, pixel_bytes_le. fold bytes_pp in Hp. f_equal. unfold addr in *.
  assert (0 <= vbe_pitch v) by nia. assert (0 <= y * vbe_pitch v) by nia. assert (0 <= x * bytes_pp) by nia.
  rewrite !(u64_small (y * _)), !(u64_small (x * _)), (u64_small (vbe_framebuffer v + _)), u64_small by lia. lia.
Qed.
(** one pixel *)
Lemma draw_pixel_spec x y c m cv : shows m cv →
  shows (graphics_draw_pixel g x y c m) (fill cv (λ px py, (px =? x) && (py =? y)) c) ∧ framed m (graphics_draw_pixel g x y c m).
Proof.
  intros Hs. pose proof bytes_pp_range as Hbp. destruct (draw_pixel_eq x y c m) as [[-> Hoff]|[Hon ->]].
  - split; [|apply framed_refl]. eapply shows_ext; [exact Hs|]. intros px py Hp. unfold fill.
    destruct (Z.eqb_spec px x), (Z.eqb_spec py y); subst; done.
  - assert (length (le_of (Z.to_nat bytes_pp) c) = Z.to_nat bytes_pp) as Hl by apply length_le_of. split.
    + intros px py Hp. unfold fill. destruct (decide ((px, py) = (x, y))) as [E|Hne].
      * injection E as -> ->. rewrite !Z.eqb_refl. cbn [andb]. pose proof (mread_mwrite_same m (addr x y) (le_of (Z.to_nat bytes_pp) c)) as E. rewrite Hl in E. exact E.
      * assert ((px =? x) && (py =? y) = false) as -> by (destruct (Z.eqb_spec px x), (Z.eqb_spec py y); subst; done).
        rewrite mread_mwrite_disj; [by apply Hs|]. rewrite Hl. pose proof (addr_disjoint px py x y Hp Hon Hne). lia.
    + intros a Ha. apply mwrite_out. rewrite Hl. pose proof (addr_in x y Hon). unfold in_fb in Ha. lia.
Qed.
(** points in any order *)
Definition draw_points (ps : list (Z * Z)) (c : Z) (m : mem) : mem := foldl (λ m p, graphics_draw_pixel g (fst p) (snd p) c m) m ps.
Lemma draw_points_spec ps c : ∀ m cv, shows m cv →
  shows (draw_points ps c m) (fill cv (λ px py, bool_decide ((px, py) ∈ ps)) c) ∧ framed m (draw_points ps c m).
Proof.
  induction ps as [|[x y] ps IH]; intros m cv Hs.
  - split; [|apply framed_refl]. eapply shows_ext; [exact Hs|]. intros px py _. unfold fill. rewrite bool_decide_eq_false_2 by apply not_elem_of_nil. done.
  - destruct (draw_pixel_spec x y c m cv Hs) as [H1 F1]. destruct (IH _ _ H1) as [H2 F2]. split; [|by eapply framed_trans].
    eapply shows_ext; [exact H2|]. intros px py _. unfold fill. destruct (decide ((px, py) ∈ ps)) as [Hin|Hin].
    + rewrite !bool_decide_eq_true_2 by (done || by apply elem_of_cons; right). done.
    + rewrite bool_decide_eq_false_2 by done. destruct (decide ((px, py) = (x, y))) as [E|E].
      * injection E as -> ->. rewrite !Z.eqb_refl, bool_decide_eq_true_2 by (apply elem_of_cons; by left). done.
      * rewrite bool_decide_eq_false_2 by (rewrite elem_of_cons; intros [?|?]; done).
        assert ((px =? x) && (py =? y) = false) as -> by (destruct (Z.eqb_spec px x), (Z.eqb_spec py y); subst; done). done.
Qed.
Lemma foldl_points {A} (h : A → list (Z * Z)) c (l : list A) : ∀ m,
  foldl (λ m x, draw_points (h x) c m) m l = draw_points (concat (h <$> l)) c m.
Proof. induction l as [|x l IH]; intros m; [done|]. cbn [foldl fmap list_fmap concat]. rewrite IH. unfold draw_points. by rewrite foldl_app. Qed.
Lemma draw_row_points (x y : Z → Z) c (l : list Z) m :
  foldl (λ m i, graphics_draw_pixel g (x i) (y i) c m) m l = draw_points ((λ i, (x i, y i)) <$> l) c m.
Proof. revert m. induction l as [|i l IH]; intros m; [done|]. cbn [foldl fmap list_fmap draw_points fst snd]. by rewrite IH. Qed.
Definition rect_points (x y w h : Z) : list (Z * Z) := concat ((λ j, (λ i, (x + i, y + j)) <$> seqZ 0 w) <$> seqZ 0 h).
Lemma foldl_ext_fun {A B} (f h : B → A → B) (l : list A) : (∀ b a, f b a = h b a) → ∀ b, foldl f b l = foldl h b l.
Proof. intros E. induction l as [|a l IH]; intros b; [done|]. cbn [foldl]. by rewrite E, IH. Qed.
Lemma draw_rect_points x y w h c m : graphics_draw_rect g x y w h c m = draw_points (rect_points x y w h) c m.
Proof.
  unfold graphics_draw_rect, rect_points. rewrite <-foldl_points. apply foldl_ext_fun. intros b j. apply (draw_row_points (λ i, x + i) (λ _, y + j)).
Qed.
Lemma elem_rect px py x y w h : (px, py) ∈ rect_points x y w h ↔ x <= px < x + w ∧ y <= py < y + h.
Proof.
  unfold rect_points. rewrite list_elem_of_In, in_concat. split.
  - intros (l & Hl & Hin). apply list_elem_of_In, list_elem_of_fmap in Hl as (j & -> & Hj). apply list_elem_of_In, list_elem_of_fmap in Hin as (i & E & Hi).
    apply elem_of_seqZ in Hi, Hj. injection E as -> ->. lia.
  - intros [Hx Hy]. exists ((λ i, (x + i, y + (py - y))) <$> seqZ 0 w). split; apply list_elem_of_In, list_elem_of_fmap.
    + exists (py - y). split; [done|]. apply elem_of_seqZ. lia.
    + exists (px - x). split; [f_equal; lia|]. apply elem_of_seqZ. lia.
Qed.
Lemma draw_rect_spec x y w h c m cv : shows m cv →
  shows (graphics_draw_rect g x y w h c m) (draw_on v cv (Rect x y w h c)) ∧ framed m (graphics_draw_rect g x y w h c m).
Proof.
  intros Hs. rewrite draw_rect_points. destruct (draw_points_spec (rect_points x y w h) c m cv Hs) as [H1 F1]. split; [|done].
  eapply shows_ext; [exact H1|]. intros px py _. cbn [draw_on]. unfold fill.
  assert (bool_decide ((px, py) ∈ rect_points x y w h) = (x <=? px) && (px <? x + w) && (y <=? py) && (py <? y + h)) as ->; [|done].
  apply eq_true_iff_eq. rewrite bool_decide_eq_true, elem_rect, !andb_true_iff, !Z.leb_le, !Z.ltb_lt. lia.
Qed.
Lemma has_shift_bit a k : 0 <= k → has a (Z.shiftl 1 k) = Z.testbit a k.
Proof.
  intros Hk. unfold has. rewrite Z.shiftl_1_l. apply eq_true_iff_eq. rewrite negb_true_iff, Z.eqb_neq. split.
  - intros Hne. destruct (Z.testbit a k) eqn:E; [done|]. exfalso. apply Hne. apply Z.bits_inj'. intros n Hn. rewrite Z.land_spec, Z.bits_0, Z.pow2_bits_eqb by done.
    destruct (Z.eqb_spec k n) as [->|]; [by rewrite E|by rewrite andb_false_r].
  - intros E Hz. assert (Z.testbit (Z.land a (2 ^ k)) k = true) as H by (rewrite Z.land_spec, E, Z.pow2_bits_true by done; done). by rewrite Hz, Z.bits_0 in H.
Qed.
Definition cell_points (x y ch scale i j : Z) : list (Z * Z) :=
  if has (font_row ch j) (Z.shiftl 1 (7 - i)) then rect_points (x + i * scale) (y + j * scale) scale scale else [].
Definition glyph_points (x y ch scale : Z) : list (Z * Z) := concat ((λ j, concat ((λ i, cell_points x y ch scale i j) <$> seqZ 0 8)) <$> seqZ 0 16).
Lemma elem_glyph px py x y ch scale : 1 <= scale → (px, py) ∈ glyph_points x y ch scale ↔ glyph_bit ch ((px - x) / scale) ((py - y) / scale) = true.
Proof.
  intros Hs. unfold glyph_points, glyph_bit. rewrite !andb_true_iff, !Z.leb_le, !Z.ltb_lt, list_elem_of_In, in_concat. split.
  - intros (l & Hl & Hin). apply list_elem_of_In, list_elem_of_fmap in Hl as (j & -> & Hj). apply in_concat in Hin as (l & Hl & Hin).
    apply list_elem_of_In, list_elem_of_fmap in Hl as (i & -> & Hi). apply elem_of_seqZ in Hi, Hj. unfold cell_points in Hin.
    rewrite has_shift_bit in Hin by lia. destruct (Z.testbit (font_row ch j) (7 - i)) eqn:E; [|done]. apply list_elem_of_In, elem_rect in Hin.
    assert ((px - x) / scale = i) as -> by (symmetry; apply (Z.div_unique_pos _ _ _ (px - x - i * scale)); lia).
    assert ((py - y) / scale = j) as -> by (symmetry; apply (Z.div_unique_pos _ _ _ (py - y - j * scale)); lia). rewrite E. lia.
  - set (i := (px - x) / scale). set (j := (py - y) / scale). intros [[[[Hi0 Hi8] Hj0] Hj16] E].
    exists (concat ((λ i, cell_points x y ch scale i j) <$> seqZ 0 8)). split.
    + apply list_elem_of_In, list_elem_of_fmap. exists j. split; [done|]. apply elem_of_seqZ. lia.
    + apply in_concat. exists (cell_points x y ch scale i j). split.
      * apply list_elem_of_In, list_elem_of_fmap. exists i. split; [done|]. apply elem_of_seqZ. lia.
      * unfold cell_points. rewrite has_shift_bit, E by lia. apply list_elem_of_In, elem_rect.
        pose proof (Z.div_mod (px - x) scale ltac:(lia)). pose proof (Z.mod_pos_bound (px - x) scale ltac:(lia)).
        pose proof (Z.div_mod (py - y) scale ltac:(lia)). pose proof (Z.mod_pos_bound (py - y) scale ltac:(lia)). unfold i, j. lia.
Qed.
Lemma draw_char_spec x y ch c scale m cv : shows m cv →
  shows (graphics_draw_char_scaled g x y ch c scale m) (draw_on v cv (Glyph x y ch c scale)) ∧ framed m (graphics_draw_char_scaled g x y ch c scale m).
Proof.
  intros Hs. unfold graphics_draw_char_scaled. cbn [mode_info lfb_base graphics_init draw_on]. rewrite (proj2 (Z.eqb_neq _ 0)) by (pose proof (fb_base _ Hv); lia). cbn [orb].
  destruct (Z.ltb_spec scale 1) as [Hsc|Hsc]; [done|]. destruct (Z.ltb_spec 127 ch); [done|]. cbn [orb].
  assert (∀ m, foldl (λ m j, foldl (λ m i, if has (font_row ch j) (Z.shiftl 1 (7 - i)) then
    foldl (λ m sy, foldl (λ m sx, graphics_draw_pixel g (x + i * scale + sx) (y + j * scale + sy) c m) m (seqZ 0 scale)) m (seqZ 0 scale) else m) m (seqZ 0 8)) m (seqZ 0 16)
    = draw_points (glyph_points x y ch scale) c m) as ->.
  { intros m0. unfold glyph_points. rewrite <-foldl_points. apply foldl_ext_fun. intros b j. rewrite <-foldl_points. apply foldl_ext_fun. intros b' i.
    unfold cell_points. destruct (has _ _); [|done]. rewrite <-draw_rect_points. done. }
  destruct (draw_points_spec (glyph_points x y ch scale) c m cv Hs) as [H1 F1]. split; [|done].
  eapply shows_ext; [exact H1|]. intros px py _. unfold fill.
  assert (bool_decide ((px, py) ∈ glyph_points x y ch scale) = glyph_bit ch ((px - x) / scale) ((py - y) / scale)) as ->; [|done].
  apply eq_true_iff_eq. rewrite bool_decide_eq_true. by apply elem_glyph.
Qed.
Lemma clear_spec c m cv : shows m cv → shows (graphics_clear g c m) (draw_on v cv (Clear c)) ∧ framed m (graphics_clear g c m).
Proof.
  intros Hs. unfold graphics_clear. cbn [mode_info lfb_base graphics_init]. rewrite (proj2 (Z.eqb_neq _ 0)) by (pose proof (fb_base _ Hv); lia).
  destruct (draw_rect_spec 0 0 (vbe_width v) (vbe_height v) c m cv Hs) as [H1 F1]. split; [|done].
  eapply shows_ext; [exact H1|]. intros px py [Hx Hy]. cbn [draw_on]. unfold fill.
  rewrite !(proj2 (Z.leb_le _ _)), !(proj2 (Z.ltb_lt _ _)) by lia. done.
Qed.
(** one row, and all rows, as a shift of memory *)
Lemma copy_row_spec dy row m a : 0 < dy → 0 <= row → row + dy < vbe_height v →
  copy_row (vbe_framebuffer v) (vbe_pitch v) dy row m a =
  if (vbe_framebuffer v + row * vbe_pitch v <=? a) && (a <? vbe_framebuffer v + (row + 1) * vbe_pitch v) then m (a + dy * vbe_pitch v) else m a.
Proof.
  intros Hdy Hrow Hh. pose proof Hv as [Hs Hd Hp Hb He]. fold bytes_pp in Hp. pose proof bytes_pp_range as Hbp. assert (0 <= vbe_pitch v) as Hpp by nia.
  set (base := vbe_framebuffer v) in *. set (pitch := vbe_pitch v) in *. unfold copy_row.
  assert (base + (row + dy + 1) * pitch <= 2 ^ 64) as Hend by nia.
  replace ((row + 1) * pitch) with (row * pitch + pitch) by lia.
  revert a. apply (foldl_seqZ_ind (λ i m', ∀ a, m' a = if (base + row * pitch <=? a) && (a <? base + (row * pitch + i)) then m (a + dy * pitch) else m a)
    (λ m0 i, mwrite m0 (u64 (base + row * pitch + i)) [m0 (u64 (base + (row + dy) * pitch + i))])); [lia| |].
  - intros a. rewrite Z.add_0_r. destruct (Z.leb_spec (base + row * pitch) a), (Z.ltb_spec a (base + row * pitch)); try lia; done.
  - intros i m' Hi IH a. assert (0 <= row * pitch) by nia. assert ((row + dy) * pitch = row * pitch + dy * pitch) as -> by lia. assert (pitch <= dy * pitch) by nia.
    rewrite !u64_small by lia. rewrite (IH (base + (row * pitch + dy * pitch) + i)).
    rewrite (proj2 (Z.ltb_ge (base + (row * pitch + dy * pitch) + i) _)), andb_false_r by lia.
    destruct (decide (a = base + row * pitch + i)) as [->|Hne].
    + rewrite mwrite_in by (simpl; lia). rewrite Z.sub_diag. cbn [Z.to_nat nth]. rewrite (proj2 (Z.leb_le _ _)), (proj2 (Z.ltb_lt _ _)) by lia. cbn [andb]. f_equal. lia.
    + rewrite mwrite_out by (simpl; lia). rewrite IH.
      destruct (Z.leb_spec (base + row * pitch) a), (Z.ltb_spec a (base + (row * pitch + i))), (Z.ltb_spec a (base + (row * pitch + (i + 1)))); try lia; done.
Qed.
Lemma copy_rows_spec dy m a : 0 < dy < vbe_height v →
  foldl (λ m row, copy_row (vbe_framebuffer v) (vbe_pitch v) dy row m) m (seqZ 0 (vbe_height v - dy)) a =
  if (vbe_framebuffer v <=? a) && (a <? vbe_framebuffer v + (vbe_height v - dy) * vbe_pitch v) then m (a + dy * vbe_pitch v) else m a.
Proof.
  intros Hdy. pose proof Hv as [_ _ Hp _ _]. fold bytes_pp in Hp. pose proof bytes_pp_range as Hbp. assert (0 <= vbe_pitch v) as Hpp by (destruct Hv; nia).
  set (base := vbe_framebuffer v) in *. set (pitch := vbe_pitch v) in *. revert a.
  apply (foldl_seqZ_ind (λ r m', r <= vbe_height v - dy → ∀ a, m' a = if (base <=? a) && (a <? base + r * pitch) then m (a + dy * pitch) else m a)
    (λ m0 row, copy_row base pitch dy row m0)); [lia| | |lia].
  - intros _ a. rewrite Z.mul_0_l, Z.add_0_r. destruct (Z.leb_spec base a), (Z.ltb_spec a base); try lia; done.
  - intros r m' Hr IH Hr1 a. pose proof (copy_row_spec dy r m' a ltac:(lia) ltac:(lia) ltac:(lia)) as E. fold base pitch in E. rewrite E, !IH by lia. clear E.
    assert ((r + 1) * pitch = r * pitch + pitch) as -> by lia. assert (0 <= r * pitch) by nia. assert (pitch <= dy * pitch) by nia.
    destruct (Z.leb_spec (base + r * pitch) a), (Z.ltb_spec a (base + (r * pitch + pitch))), (Z.leb_spec base a), (Z.ltb_spec a (base + r * pitch)),
      (Z.ltb_spec (a + dy * pitch) (base + r * pitch)); try lia; cbn [andb]; rewrite ?andb_false_r; try done.
Qed.
Lemma scroll_spec dy c m cv : shows m cv →
  shows (graphics_scroll_up_pixels g dy c m) (draw_on v cv (ScrollUp dy c)) ∧ framed m (graphics_scroll_up_pixels g dy c m).
Proof.
  intros Hs. unfold graphics_scroll_up_pixels. cbn [mode_info lfb_base graphics_init]. rewrite (proj2 (Z.eqb_neq _ 0)) by (pose proof (fb_base _ Hv); lia).
  cbn [orb draw_on]. destruct (Z.leb_spec dy 0) as [|Hdy]; [done|]. destruct (Z.leb_spec (vbe_height v) dy) as [Hall|Hpart].
  - destruct (clear_spec c m cv Hs) as [H1 F1]. split; [|done]. eapply shows_ext; [exact H1|]. intros px py [_ Hy]. cbn [draw_on]. unfold fill.
    by rewrite (proj2 (Z.leb_le _ py)) by lia.
  - set (m1 := foldl _ m _). pose proof (λ a, copy_rows_spec dy m a (conj Hdy Hpart)) as Hm1. fold m1 in Hm1.
    assert (0 <= vbe_pitch v) as Hpp by (pose proof bytes_pp_range; destruct Hv; unfold bytes_pp in *; nia).
    assert (shows m1 (λ px py, if py <? vbe_height v - dy then cv px (py + dy) else cv px py)) as Hs1.
    { intros px py Hp. pose proof (addr_row px py Hp) as [A1 A2]. destruct Hp as [Hx Hy]. pose proof bytes_pp_range.
      destruct (Z.ltb_spec py (vbe_height v - dy)).
      - rewrite <-(Hs px (py + dy)) by (split; lia). apply list_eq. intros i. destruct (decide (i < Z.to_nat bytes_pp)%nat) as [Hi|Hi].
        + rewrite !lookup_mread, Hm1 by done. rewrite (proj2 (Z.leb_le _ _)), (proj2 (Z.ltb_lt _ _)) by nia. cbn [andb]. f_equal. f_equal. unfold addr. lia.
        + rewrite !lookup_ge_None_2 by (rewrite length_mread; lia). done.
      - rewrite <-(Hs px py) by (split; lia). apply mread_ext. intros a Ha. rewrite Hm1. rewrite (proj2 (Z.ltb_ge a _)), andb_false_r by nia. done. }
    destruct (draw_rect_spec 0 (vbe_height v - dy) (vbe_width v) dy c m1 _ Hs1) as [H2 F2]. split.
    + eapply shows_ext; [exact H2|]. intros px py [Hx Hy]. cbn [draw_on]. unfold fill. rewrite (proj2 (Z.leb_le 0 px)), (proj2 (Z.ltb_lt px _)), (proj2 (Z.ltb_lt py (_ + dy))) by lia.
      cbn [andb]. rewrite andb_true_r. destruct (Z.leb_spec (vbe_height v - dy) py), (Z.ltb_spec py (vbe_height v - dy)); try lia; done.
    + eapply framed_trans; [|exact F2]. intros a Ha. rewrite Hm1. unfold in_fb in Ha.
      destruct (Z.leb_spec (vbe_framebuffer v) a), (Z.ltb_spec a (vbe_framebuffer v + (vbe_height v - dy) * vbe_pitch v)); cbn [andb]; try done. exfalso. nia.
Qed.
Lemma render_spec d m cv : shows m cv → shows (render g m d) (draw_on v cv d) ∧ framed m (render g m d).
Proof. intros Hs. destruct d; [by apply clear_spec|by apply draw_rect_spec|by apply scroll_spec|by apply draw_char_spec]. Qed.
Lemma render_list_spec ds : ∀ m cv, shows m cv → shows (foldl (render g) m ds) (foldl (draw_on v) cv ds) ∧ framed m (foldl (render g) m ds).
Proof.
  induction ds as [|d ds IH]; intros m cv Hs; [done|]. destruct (render_spec d m cv Hs) as [H1 F1]. destruct (IH _ _ H1) as [H2 F2].
  split; [done|by eapply framed_trans].
Qed.
(** every memory shows some canvas *)
Lemma shows_some m : mem_bytes m → ∃ cv, shows m cv.
Proof.
  intros Hm. exists (λ x y, le_to (mread m (addr x y) (Z.to_nat bytes_pp))). intros x y _. symmetry.
  pose proof (le_of_to _ (bytes_mread m (addr x y) (Z.to_nat bytes_pp) Hm)) as E. by rewrite length_mread in E.
Qed.
End screen.

(** The framebuffer refines the canvas: on a screen of 24 to 32 bits per
    pixel whose rows fit the pitch, any sequence of the console's drawing
    calls (clearing, rectangles, scrolling, scaled glyphs, also partly or
    wholly off the screen) leaves in every pixel the colour of the abstract
    canvas on which the same calls were made, and changes no byte of memory
    outside the framebuffer. *)
Theorem framebuffer_refines v ds : ∀ m cv, fb_ok v → shows v m cv →
  shows v (foldl (render (graphics_init v)) m ds) (foldl (draw_on v) cv ds) ∧
  ∀ a, a < vbe_framebuffer v ∨ vbe_framebuffer v + vbe_height v * vbe_pitch v <= a → foldl (render (graphics_init v)) m ds a = m a.
Proof.
  intros m cv Hv Hs. destruct (render_list_spec v Hv ds m cv Hs) as [H1 F1]. split; [done|]. intros a Ha. apply F1. unfold in_fb. lia.
Qed.
Definition demo_vbe : vbe_mode_info := Vbe 16 24 48 24 0xFD000000.
Lemma framebuffer_refines_witness :
  mread (foldl (render (graphics_init demo_vbe)) (λ _, 0) [Clear 0x102030; Glyph 0 0 65 0xFFE0E0E0 1]) (addr demo_vbe 3 2) 3 = le_of 3 0xFFE0E0E0.
Proof.
  destruct (framebuffer_refines demo_vbe [Clear 0x102030; Glyph 0 0 65 0xFFE0E0E0 1] (λ _, 0) (λ _ _, 0)) as [Hs _].
  - split; [cbn; lia|cbn; lia|vm_compute; discriminate|cbn; lia|vm_compute; discriminate].
  - intros x y Hxy. reflexivity.
  - exact (Hs 3 2 ltac:(split; cbn; lia)).
Defined.
End Graphics.
