(* ===== verification/FbText.v ===== *)
(** The framebuffer console at the level of pixels: the layout of
    kernel/console.c, the glyphs of kernel/drivers/ttfont.c and font.c, and
    the framebuffer of kernel/drivers/graphics.c together.  [text_canvas] is
    what a page of text looks like; the theorem says that after clearing the
    screen and printing a text the memory of the framebuffer shows the last
    rows of the text.  The top margin is left out: scrolling moves the lowest
    pixels of the row that leaves the screen into it. *)
From stdpp Require Import base numbers list sets strings.
From S2P Require Import Prelude Memory Multiboot Console Font Graphics.
Open Scope Z_scope.

Module FbText.
Import Multiboot.Mb Console.Vga Console.Console Graphics.Graphics.
(** ** Layout *)
(** [cols] characters in a row; the rows above the current one, and it *)
Definition lay_char (cols : nat) (p : page) (c : Z) : page :=
  let '(above, row) := p in
  if c =? newline then (above ++ [row], [])
  else if c =? backspace then (above, take (length row - 1) row)
  else if (c <? 32) || (127 <=? c) then p
  else if (length row =? cols)%nat then (above ++ [row], [c]) else (above, row ++ [c]).
Definition lay_text (cols : nat) (s : list Z) : page := foldl (lay_char cols) ([], []) s.
(** the last [rows] rows *)
Definition last_rows (rows : nat) (p : page) : list (list Z) := drop (length (fst p) + 1 - rows) (fst p) ++ [snd p].
(** the picture of some rows at scale [s] *)
Definition text_canvas (s : Z) (rows : list (list Z)) : canvas := λ px py,
  if px <? 8 then CON_BG
  else match nth (Z.to_nat ((py - 8) / (16 * s))) rows [] !! Z.to_nat ((px - 8) / (8 * s)) with
       | Some c => if glyph_bit c ((px - 8) mod (8 * s) / s) ((py - 8) mod (16 * s) / s) then CON_FG else CON_BG
       | None => CON_BG
       end.
Definition cols_of (k : con) : nat := Z.to_nat ((graphics_get_width k - 16) / (8 * s_scale_bm k)).
Definition rows_of (k : con) : nat := Z.to_nat ((graphics_get_height k - 16) / (16 * s_scale_bm k)).

(** ** Cells *)
Section cells.
(** the cell of a coordinate [a] from the margin: [n] points of size [s] *)
Lemma cell_same n s a : 0 < n → 0 < s → 0 <= a → (a - n * s * (a / (n * s))) / s = a mod (n * s) / s ∧ 0 <= a mod (n * s) / s < n.
Proof.
  intros Hn Hs Ha. rewrite Z.mod_eq by nia. split; [done|]. rewrite <-Z.mod_eq by nia. pose proof (Z.mod_pos_bound a (n * s) ltac:(nia)).
  split; [apply Z.div_pos; lia|]. apply Z.div_lt_upper_bound; [done|]. nia.
Qed.
Lemma cell_other n s a c : 0 < n → 0 < s → c ≠ a / (n * s) → ¬ (0 <= (a - n * s * c) / s < n).
Proof.
  intros Hn Hs Hc [H1 H2]. apply Hc. apply (Z.div_unique_pos a (n * s) c (a - n * s * c)); [|lia].
  pose proof (Z.div_mod (a - n * s * c) s ltac:(lia)). pose proof (Z.mod_pos_bound (a - n * s * c) s ltac:(lia)). split; nia.
Qed.
Lemma glyph_bit_out c i j : ¬ (0 <= i < 8) ∨ ¬ (0 <= j < 16) → glyph_bit c i j = false.
Proof. intros H. unfold glyph_bit. destruct (Z.leb_spec 0 i), (Z.ltb_spec i 8), (Z.leb_spec 0 j), (Z.ltb_spec j 16); try done; lia. Qed.
(** a glyph drawn in the cell of column [c] and row [r] *)
Lemma glyph_in_cell s ch c r px py : 0 < s → 8 <= px → 8 <= py →
  glyph_bit ch ((px - (8 + 8 * s * c)) / s) ((py - (8 + 16 * s * r)) / s) =
  bool_decide (c = (px - 8) / (8 * s) ∧ r = (py - 8) / (16 * s)) && glyph_bit ch ((px - 8) mod (8 * s) / s) ((py - 8) mod (16 * s) / s).
Proof.
  intros Hs Hx Hy. replace (px - (8 + 8 * s * c)) with (px - 8 - 8 * s * c) by lia. replace (py - (8 + 16 * s * r)) with (py - 8 - 16 * s * r) by lia.
  destruct (decide (c = (px - 8) / (8 * s))) as [->|Hc].
  - destruct (decide (r = (py - 8) / (16 * s))) as [->|Hr].
    + rewrite bool_decide_eq_true_2 by done. cbn [andb]. by rewrite (proj1 (cell_same 8 s (px - 8) ltac:(lia) Hs ltac:(lia))), (proj1 (cell_same 16 s (py - 8) ltac:(lia) Hs ltac:(lia))).
    + rewrite bool_decide_eq_false_2 by tauto. cbn [andb]. apply glyph_bit_out. right. by apply cell_other.
  - rewrite bool_decide_eq_false_2 by tauto. cbn [andb]. apply glyph_bit_out. left. by apply cell_other.
Qed.
Lemma rect_in_cell s c r px py : 0 < s → 8 <= px → 8 <= py →
  (8 + 8 * s * c <=? px) && (px <? 8 + 8 * s * c + 8 * s) && (8 + 16 * s * r <=? py) && (py <? 8 + 16 * s * r + 16 * s) =
  bool_decide (c = (px - 8) / (8 * s) ∧ r = (py - 8) / (16 * s)).
Proof.
  intros Hs Hx Hy. apply eq_true_iff_eq. rewrite bool_decide_eq_true, !andb_true_iff, !Z.leb_le, !Z.ltb_lt. split.
  - intros [[[H1 H2] H3] H4]. split; [apply (Z.div_unique_pos _ _ _ (px - 8 - 8 * s * c))|apply (Z.div_unique_pos _ _ _ (py - 8 - 16 * s * r))]; lia.
  - intros [-> ->]. pose proof (Z.div_mod (px - 8) (8 * s) ltac:(lia)). pose proof (Z.mod_pos_bound (px - 8) (8 * s) ltac:(lia)).
    pose proof (Z.div_mod (py - 8) (16 * s) ltac:(lia)). pose proof (Z.mod_pos_bound (py - 8) (16 * s) ltac:(lia)). lia.
Qed.
End cells.

(** ** Rows *)
Section rows.
Implicit Types (vs : list (list Z)) (row : list Z).
Lemma last_rows_split rows above row : ∃ vs, last_rows rows (above, row) = vs ++ [row] ∧ length vs = (length above `min` (rows - 1))%nat ∧
  (∀ row', last_rows rows (above, row') = vs ++ [row']) ∧
  ((1 <= rows)%nat → last_rows rows (above ++ [row], []) = (if (length vs + 1 <? rows)%nat then vs ++ [row] else drop 1 (vs ++ [row])) ++ [[]]).
Proof.
  exists (drop (length above + 1 - rows) above). unfold last_rows. cbn [fst snd]. split; [done|]. split; [rewrite length_drop; lia|]. split; [done|].
  intros Hr. f_equal. rewrite length_app, length_drop. cbn [length]. destruct (Nat.ltb_spec (length above - (length above + 1 - rows) + 1) rows).
  - replace (length above + 1 + 1 - rows)%nat with 0%nat by lia. by replace (length above + 1 - rows)%nat with 0%nat by lia.
  - replace (drop (length above + 1 - rows) above ++ [row]) with (drop (length above + 1 - rows) (above ++ [row])) by (by rewrite drop_app_le by lia).
    rewrite drop_drop. f_equal. lia.
Qed.
(** an empty row at the end shows nothing *)
Lemma text_canvas_nil s vs px py : text_canvas s (vs ++ [[]]) px py = text_canvas s vs px py.
Proof.
  unfold text_canvas. case_if; [done|]. set (n := Z.to_nat ((py - 8) / (16 * s))). destruct (decide (n < length vs)%nat) as [Hn|Hn].
  - by rewrite app_nth1.
  - rewrite app_nth2, (nth_overflow vs) by lia. by destruct (n - length vs)%nat as [|[|]].
Qed.
Lemma text_canvas_drop s vs px py : 0 < s → 8 <= py → text_canvas s (drop 1 vs) px py = text_canvas s vs px (py + 16 * s).
Proof.
  intros Hs Hy. unfold text_canvas. case_if; [done|]. rewrite nth_skipn. replace (py + 16 * s - 8) with (py - 8 + 1 * (16 * s)) by lia.
  rewrite Z.div_add, Z.mod_add by lia. assert (0 <= (py - 8) / (16 * s)) by (apply Z.div_pos; lia).
  by replace (1 + Z.to_nat ((py - 8) / (16 * s)))%nat with (Z.to_nat ((py - 8) / (16 * s) + 1)) by lia.
Qed.
Lemma text_canvas_below s vs px py : 0 < s → Z.of_nat (length vs) <= (py - 8) / (16 * s) → text_canvas s vs px py = CON_BG.
Proof. intros Hs Hl. unfold text_canvas. case_if; [done|]. rewrite nth_overflow by lia. done. Qed.
(** the last row changes in one column *)
Lemma text_canvas_last s vs row row' i px py : 0 < s → 8 <= py →
  (∀ x, x ≠ i → row' !! x = row !! x) → ¬ (8 <= px ∧ Z.of_nat i = (px - 8) / (8 * s) ∧ Z.of_nat (length vs) = (py - 8) / (16 * s)) →
  text_canvas s (vs ++ [row']) px py = text_canvas s (vs ++ [row]) px py.
Proof.
  intros Hs Hy Hrow Hout. unfold text_canvas. destruct (Z.ltb_spec px 8) as [|Hx]; [done|].
  assert (0 <= (py - 8) / (16 * s)) by (apply Z.div_pos; lia). assert (0 <= (px - 8) / (8 * s)) by (apply Z.div_pos; lia).
  set (n := Z.to_nat ((py - 8) / (16 * s))). destruct (decide (n < length vs)%nat) as [Hn|Hn]; [by rewrite !app_nth1|].
  rewrite !app_nth2 by lia. destruct (n - length vs)%nat as [|j] eqn:Ej; [|by destruct j].
  cbn [nth]. rewrite Hrow; [done|]. intros E. apply Hout. unfold n in *. lia.
Qed.
Lemma text_canvas_at s vs row i px py : 0 < s → 8 <= px → 8 <= py → Z.of_nat i = (px - 8) / (8 * s) → Z.of_nat (length vs) = (py - 8) / (16 * s) →
  text_canvas s (vs ++ [row]) px py =
  match row !! i with
  | Some c => if glyph_bit c ((px - 8) mod (8 * s) / s) ((py - 8) mod (16 * s) / s) then CON_FG else CON_BG
  | None => CON_BG
  end.
Proof.
  intros Hs Hx Hy Ei El. unfold text_canvas. rewrite (proj2 (Z.ltb_ge px 8)) by done. rewrite <-Ei, <-El, !Nat2Z.id.
  rewrite app_nth2, Nat.sub_diag by lia. done.
Qed.
End rows.

(** ** The invariant *)
Section text.
Context (v : vbe_mode_info) (s : Z) (cols rows : nat).
Context (Hs : 0 < s) (Hcols : (1 <= cols)%nat) (Hrows : (1 <= rows)%nat).
Context (Hw : 8 * s * Z.of_nat cols <= vbe_width v - 16 < 8 * s * (Z.of_nat cols + 1)).
Context (Hh : 16 * s * Z.of_nat rows <= vbe_height v - 16 < 16 * s * (Z.of_nat rows + 1)).
(** the pen is after the last character, the canvas shows the last rows *)
Record text_ok (k : con) (p : page) (cv : canvas) : Prop := {
  t_mode : s_fb_mode k = true;
  t_vbe : s_vbe k = v;
  t_scale : s_scale_bm k = s;
  t_len : (length (snd p) <= cols)%nat;
  t_x : pen_x k = 8 + 8 * s * Z.of_nat (length (snd p));
  t_y : pen_y k = 8 + 16 * s * (Z.of_nat (length (last_rows rows p)) - 1);
  t_cv : ∀ px py, 0 <= px < vbe_width v → 8 <= py < vbe_height v → cv px py = text_canvas s (last_rows rows p) px py
}.
(** [k'] is [k] after the drawing calls [ds] *)
Definition steps (k k' : con) (p : page) (cv : canvas) : Prop :=
  ∃ ds, drawn k' = drawn k ++ ds ∧ text_ok k' p (foldl (draw_on v) cv ds).
Lemma steps_refl k p cv : text_ok k p cv → steps k k p cv.
Proof. intros H. exists []. by rewrite app_nil_r. Qed.
Lemma steps_trans k1 k2 k3 p1 p2 cv : steps k1 k2 p1 cv → (∀ cv', text_ok k2 p1 cv' → steps k2 k3 p2 cv') → steps k1 k3 p2 cv.
Proof.
  intros (ds & E & H) Hnext. destruct (Hnext _ H) as (ds' & E' & H'). exists (ds ++ ds'). rewrite E', E, foldl_app, <-app_assoc. done.
Qed.
Lemma next_line_text k above row cv : text_ok k (above, row) cv →
  steps k (next_line k) (above ++ [row], []) cv.
Proof.
  intros [Hm Hv Hsc Hl Hx Hy Hc]. destruct (last_rows_split rows above row) as (vs & Evs & Hlen & _ & Hnext). specialize (Hnext Hrows).
  rewrite Evs, length_app in Hy. cbn [length fst snd] in *. unfold next_line. unfold graphics_get_height. cbn [fst ttfont_line_metrics pen_y pen_x set_pen paint].
  rewrite Hsc, Hv. destruct (Nat.ltb_spec (length vs + 1) rows) as [Hlt|Hge].
  - rewrite (proj2 (Z.ltb_ge _ _)) by nia. exists []. rewrite app_nil_r. split; [done|].
    split; cbn [s_fb_mode s_vbe s_scale_bm pen_x pen_y set_pen snd length]; [done|done|done|lia|lia| |].
    + rewrite Hnext, !length_app. cbn [length]. lia.
    + intros px py Hpx Hpy. rewrite Hnext, text_canvas_nil, <-Evs. by apply Hc.
  - assert (length vs + 1 = rows)%nat as Er by lia. rewrite (proj2 (Z.ltb_lt _ _)) by nia. rewrite (proj2 (Z.ltb_ge _ 8)) by nia.
    exists [ScrollUp (16 * s) CON_BG]. split; [done|].
    split; cbn [s_fb_mode s_vbe s_scale_bm pen_x pen_y set_pen paint snd length]; [done|done|done|lia|lia| |].
    + rewrite Hnext, !length_app, length_drop, length_app. cbn [length]. lia.
    + intros px py Hpx Hpy. rewrite Hnext, text_canvas_nil. cbn [foldl draw_on]. rewrite (proj2 (Z.leb_gt _ 0)) by lia. unfold fill.
      destruct (Z.leb_spec (vbe_height v - 16 * s) py) as [Hb|Hb].
      * symmetry. apply text_canvas_below; [done|]. rewrite length_drop, length_app. cbn [length]. apply Z.div_le_lower_bound; [lia|]. nia.
      * rewrite text_canvas_drop by lia. rewrite <-Evs. apply Hc; lia.
Qed.
(** one column of the last row is drawn *)
Lemma cell_text k above row row' i cv cv' k' : text_ok k (above, row) cv →
  s_fb_mode k' = true → s_vbe k' = v → s_scale_bm k' = s → (length row' <= cols)%nat → pen_x k' = 8 + 8 * s * Z.of_nat (length row') → pen_y k' = pen_y k →
  (∀ x, x ≠ i → row' !! x = row !! x) →
  (∀ px py, 0 <= px < vbe_width v → 8 <= py < vbe_height v → cv' px py =
    if bool_decide (8 <= px ∧ Z.of_nat i = (px - 8) / (8 * s) ∧ pen_y k = 8 + 16 * s * ((py - 8) / (16 * s)))
    then match row' !! i with
         | Some c => if glyph_bit c ((px - 8) mod (8 * s) / s) ((py - 8) mod (16 * s) / s) then CON_FG else CON_BG
         | None => CON_BG
         end
    else cv px py) →
  text_ok k' (above, row') cv'.
Proof.
  intros [Hm Hv Hsc Hl Hx Hy Hc] Hm' Hv' Hsc' Hl' Hx' Hy' Hrow Hcv. destruct (last_rows_split rows above row) as (vs & Evs & Hlen & Hother & _).
  rewrite Evs in Hy, Hc. rewrite length_app in Hy. cbn [length] in Hy.
  split; [done|done|done|done|done| |].
  - rewrite Hother, length_app. cbn [length]. lia.
  - intros px py Hpx Hpy. rewrite Hother, Hcv by done. destruct (bool_decide _) eqn:E.
    + apply bool_decide_eq_true in E as (E1 & E2 & E3). symmetry. apply text_canvas_at; [done|done|lia|done|nia].
    + apply bool_decide_eq_false in E. rewrite Hc by done. symmetry. apply (text_canvas_last _ _ _ _ i); [done|lia|done|].
      intros (E1 & E2 & E3). apply E. split; [done|]. split; [done|]. nia.
Qed.
(** the row of the pen *)
Lemma pen_row k p cv : text_ok k p cv → ∃ r, pen_y k = 8 + 16 * s * r ∧ ∀ y, pen_y k = 8 + 16 * s * y ↔ r = y.
Proof. intros Ht. exists (Z.of_nat (length (last_rows rows p)) - 1). pose proof (t_y _ _ _ Ht) as ->. split; [done|]. intros y. split; nia. Qed.
Lemma glyph_text k above row c cv : text_ok k (above, row) cv → (length row < cols)%nat → 32 <= c < 127 →
  let k1 := ttfont_draw_glyph k (pen_x k) (pen_y k) c CON_FG in
  steps k (set_pen k1 (pen_x k1 + 8 * s) (pen_y k1)) (above, row ++ [c]) cv.
Proof.
  intros Ht Hlt Hc. pose proof Ht as [Hm Hv Hsc Hl Hx Hy Hcv]. cbv zeta. unfold ttfont_draw_glyph. rewrite (proj2 (Z.ltb_lt c 128)), Hsc by lia.
  exists [Glyph (pen_x k) (pen_y k) c CON_FG s]. split; [done|]. cbn [snd] in *.
  apply (cell_text k above row (row ++ [c]) (length row) cv); cbn [s_fb_mode s_vbe s_scale_bm pen_x pen_y set_pen paint];
    [done|done|done|done|rewrite length_app; cbn [length]; lia|rewrite length_app; cbn [length]; lia|done| |].
  - intros x Hne. destruct (decide (x < length row)%nat); [by rewrite lookup_app_l|]. rewrite !lookup_ge_None_2; [done|lia|rewrite length_app; cbn [length]; lia].
  - intros px py Hpx Hpy. rewrite lookup_app_r, Nat.sub_diag by lia. cbn [foldl draw_on]. rewrite (proj2 (Z.ltb_ge s 1)), (proj2 (Z.ltb_ge 127 c)) by lia. cbn [orb]. unfold fill.
    destruct (pen_row _ _ _ Ht) as (r & Er & Hr). rewrite Hx. destruct (Z.ltb_spec px 8) as [Hm8|Hm8].
    + rewrite bool_decide_eq_false_2 by lia. rewrite glyph_bit_out; [done|]. left. pose proof (Z.div_lt_upper_bound (px - (8 + 8 * s * Z.of_nat (length row))) s 0 ltac:(lia) ltac:(nia)). lia.
    + rewrite Er, glyph_in_cell, <-Er by lia. destruct (decide (Z.of_nat (length row) = (px - 8) / (8 * s) ∧ r = (py - 8) / (16 * s))) as [[E1 E2]|E].
      * rewrite (bool_decide_eq_true_2 _ (conj E1 E2)), bool_decide_eq_true_2 by (split; [lia|]; split; [done|by apply Hr]). cbn [andb]. change ([c] !! 0%nat) with (Some c). cbn iota.
        rewrite Hcv by done. destruct (glyph_bit _ _ _); [done|].
        destruct (last_rows_split rows above row) as (vs & Evs & _ & _ & _). rewrite Evs, length_app in *. cbn [length] in *.
        rewrite (text_canvas_at s vs row (length row)); [by rewrite lookup_ge_None_2|done|lia|lia|done|nia].
      * rewrite (bool_decide_eq_false_2 _ E). cbn [andb]. rewrite bool_decide_eq_false_2; [done|]. intros (_ & E1 & E2). apply E. split; [done|by apply Hr].
Qed.
Lemma back_text k above row cv : text_ok k (above, row) cv →
  steps k (console_putchar backspace k) (above, take (length row - 1) row) cv.
Proof.
  intros Ht. pose proof Ht as [Hm Hv Hsc Hl Hx Hy Hcv]. cbn [snd] in *. unfold console_putchar. rewrite Hm. cbn [negb ttfont_line_metrics].
  change (backspace =? newline) with false. rewrite Z.eqb_refl, Hsc. destruct (Z.ltb_spec 8 (pen_x k)) as [Hpos|Hz].
  2: { replace row with (@nil Z) in * by (destruct row; [done|cbn [length] in Hx; nia]). by apply steps_refl. }
  assert (1 <= length row)%nat as Hr1 by (destruct row; cbn [length] in *; lia). cbn [pen_x pen_y set_pen].
  exists [Rect (pen_x k - 8 * s) (pen_y k) (8 * s) (16 * s) CON_BG]. split; [done|].
  apply (cell_text k above row (take (length row - 1) row) (length row - 1) cv); cbn [s_fb_mode s_vbe s_scale_bm pen_x pen_y set_pen paint];
    [done|done|done|done|rewrite length_take; lia|rewrite length_take; nia|done| |].
  - intros x Hne. destruct (decide (x < length row - 1)%nat); [by rewrite lookup_take_lt|]. rewrite !lookup_ge_None_2; [done|lia|rewrite length_take; lia].
  - intros px py Hpx Hpy. rewrite lookup_ge_None_2 by (rewrite length_take; lia). cbn [foldl draw_on]. unfold fill.
    destruct (pen_row _ _ _ Ht) as (r & Er & Hr). replace (pen_x k - 8 * s) with (8 + 8 * s * Z.of_nat (length row - 1)) by nia.
    destruct (Z.ltb_spec px 8) as [Hm8|Hm8].
    + rewrite bool_decide_eq_false_2 by lia. rewrite (proj2 (Z.leb_gt _ px)) by nia. done.
    + rewrite Er, rect_in_cell, <-Er by lia. erewrite bool_decide_ext; [done|]. rewrite (Hr ((py - 8) / (16 * s))). intuition lia.
Qed.
Lemma putchar_text k p c cv : text_ok k p cv → steps k (console_putchar c k) (lay_char cols p c) cv.
Proof.
  destruct p as [above row]. intros Ht. pose proof Ht as [Hm Hv Hsc Hl Hx Hy Hcv]. cbn [snd] in *. unfold lay_char.
  destruct (Z.eqb_spec c newline) as [->|Hn].
  { unfold console_putchar. rewrite Hm. by apply next_line_text. }
  destruct (Z.eqb_spec c backspace) as [->|Hb]; [by apply back_text|].
  unfold console_putchar. rewrite Hm. cbn [negb ttfont_line_metrics]. rewrite (proj2 (Z.eqb_neq c newline)), (proj2 (Z.eqb_neq c backspace)) by done.
  destruct ((c <? 32) || (127 <=? c)) eqn:Ec; [by apply steps_refl|]. apply orb_false_iff in Ec as [E1%Z.ltb_ge E2%Z.leb_gt].
  unfold graphics_get_width. rewrite Hv, Hsc, Hx. destruct (Nat.eqb_spec (length row) cols) as [El|El].
  - rewrite (proj2 (Z.ltb_lt _ _)) by nia. eapply steps_trans; [by apply next_line_text|]. intros cv' Ht'. apply (glyph_text _ _ []); [done|cbn [length]; lia|lia].
  - rewrite (proj2 (Z.ltb_ge _ _)) by nia. apply glyph_text; [done|lia|lia].
Qed.
Lemma puts_text t : ∀ k p cv, text_ok k p cv → steps k (console_puts t k) (foldl (lay_char cols) p t) cv.
Proof.
  induction t as [|c t IH]; intros k p cv Ht; [by apply steps_refl|]. unfold console_puts. cbn [foldl].
  eapply steps_trans; [by apply putchar_text|]. intros cv' Ht'. by apply IH.
Qed.
Lemma clear_text k cv : s_fb_mode k = true → s_vbe k = v → s_scale_bm k = s → steps k (console_clear k) ([], []) cv.
Proof.
  intros Hm Hv Hsc. unfold console_clear. rewrite Hm. exists [Clear CON_BG]. split; [done|].
  assert (last_rows rows ([], []) = [[]]) as El by (unfold last_rows; cbn [fst snd]; by rewrite drop_nil).
  split; cbn [s_fb_mode s_vbe s_scale_bm pen_x pen_y set_pen paint snd length]; [done|done|done|lia|lia|rewrite El; cbn [length]; lia|].
  intros px py _ _. rewrite El. cbn [foldl draw_on]. unfold fill, text_canvas. case_if; [done|]. by destruct (Z.to_nat ((py - 8) / (16 * s))) as [|[|]].
Qed.
End text.
Lemma room n m : 0 < n → n <= m → (1 <= Z.to_nat (m / n))%nat ∧ n * Z.of_nat (Z.to_nat (m / n)) <= m < n * (Z.of_nat (Z.to_nat (m / n)) + 1).
Proof.
  intros Hn Hm. assert (1 <= m / n) by (apply Z.div_le_lower_bound; lia). rewrite Z2Nat.id by lia. split; [lia|].
  pose proof (Z.div_mod m n ltac:(lia)). pose proof (Z.mod_pos_bound m n ltac:(lia)). lia.
Qed.

(** ** Theorems *)

(** C8. The framebuffer console shows what was printed, pixel by pixel: on a
    screen of 24 to 32 bits per pixel with room for one character, after
    clearing the screen and printing any text, carrying out the drawing calls
    in memory leaves, in every pixel below the top margin, the picture of the
    last rows of the text laid out on the character grid: the bits of the
    font of the characters that are still visible in the foreground colour
    and the background everywhere else, whatever wrapped, was erased or
    scrolled away before.  No byte outside the framebuffer changes. *)
Theorem framebuffer_shows_text t k m : mem_bytes m → Console.Console.fb_ok k → Graphics.Graphics.fb_ok (s_vbe k) →
  let k' := console_puts t (console_clear k) in
  let m' := foldl (render (graphics_init (s_vbe k))) m (drop (length (drawn k)) (drawn k')) in
  (∀ px py, 0 <= px < graphics_get_width k → 8 <= py < graphics_get_height k →
     mread m' (addr (s_vbe k) px py) (Z.to_nat (bytes_pp (s_vbe k))) =
     le_of (Z.to_nat (bytes_pp (s_vbe k))) (text_canvas (s_scale_bm k) (last_rows (rows_of k) (lay_text (cols_of k) t)) px py)) ∧
  ∀ a, a < vbe_framebuffer (s_vbe k) ∨ vbe_framebuffer (s_vbe k) + vbe_height (s_vbe k) * vbe_pitch (s_vbe k) <= a → m' a = m a.
Proof.
  intros Hmem [Hm Hs Hw Hh _ _] Hv. cbv zeta. set (v := s_vbe k) in *. set (s := s_scale_bm k) in *. unfold graphics_get_width, graphics_get_height in *. fold v in Hw, Hh |- *.
  destruct (room (8 * s) (vbe_width v - 16) ltac:(lia) ltac:(lia)) as [Hc Hc']. destruct (room (16 * s) (vbe_height v - 16) ltac:(lia) ltac:(lia)) as [Hr Hr'].
  change (Z.to_nat ((vbe_width v - 16) / (8 * s))) with (cols_of k) in Hc, Hc'. change (Z.to_nat ((vbe_height v - 16) / (16 * s))) with (rows_of k) in Hr, Hr'.
  destruct (shows_some v m Hmem) as [cv0 Hcv0].
  destruct (steps_trans v s (cols_of k) (rows_of k) k (console_clear k) (console_puts t (console_clear k)) ([], []) (lay_text (cols_of k) t) cv0) as (ds & E & Ht).
  { by apply clear_text. }
  { intros cv Ht. apply puts_text; [lia|done|done|done|done|done]. }
  rewrite E, drop_app_length. destruct (render_list_spec v Hv ds m cv0 Hcv0) as [H1 F1]. split.
  - intros px py Hx Hy. rewrite H1 by (split; lia). f_equal. by apply (t_cv _ _ _ _ _ _ _ Ht).
  - intros a Ha. apply F1. unfold in_fb. lia.
Qed.
(** three columns and two rows: the text wraps, scrolls and is erased *)
Definition small_con : con :=
  Con 0 true false (Vbe 40 56 120 24 0xFD000000) 56 0 1 8 8 (VgaSt (λ _, 0) 0 0 (λ _, 0)) [].
Lemma framebuffer_shows_text_witness :
  let t := str "abcd" ++ [newline] ++ str "AX" ++ [backspace] in
  let ds := drop (length (drawn small_con)) (drawn (console_puts t (console_clear small_con))) in
  last_rows 2 (lay_text 3 t) = [str "d"; str "A"] ∧
  mread (foldl (render (graphics_init (s_vbe small_con))) (λ _, 0) ds) (addr (s_vbe small_con) 11 26) (Z.to_nat (bytes_pp (s_vbe small_con)))
  = le_of (Z.to_nat (bytes_pp (s_vbe small_con))) CON_FG.
Proof.
  cbv zeta. split; [reflexivity|].
  destruct (framebuffer_shows_text (str "abcd" ++ [newline] ++ str "AX" ++ [backspace]) small_con (λ _, 0)) as [Hs _].
  - intros a. unfold is_byte. lia.
  - split; [done|vm_compute; split; discriminate|vm_compute; discriminate..|exists 0; vm_compute; repeat split; discriminate|vm_compute; split; discriminate].
  - split; [cbn; lia|cbn; lia|vm_compute; discriminate|cbn; lia|vm_compute; discriminate].
  - rewrite (Hs 11 26) by (vm_compute; split; congruence). apply (f_equal (le_of _)). vm_compute. reflexivity.
Defined.
(** scrolling moves the lower half of the row that leaves the text area into
    the top margin, where it stays *)
Lemma scroll_leaves_margin :
  let cv := foldl (draw_on (s_vbe small_con)) (λ _ _, 0) (drawn (console_puts (str "A" ++ [newline; newline]) (console_clear small_con))) in
  last_rows 2 (lay_text 3 (str "A" ++ [newline; newline])) = [[]; []] ∧ cv 8 2 = CON_FG.
Proof. split; vm_compute; reflexivity. Qed.
End FbText.
