(* ===== verification/Sheet.v ===== *)
(** Overlapping windows (kernel/drivers/sheet.c): a pool of 256 sheets, each a
    rectangle of pixels at a position, and the shown ones in an order from
    bottom to top.  For every point of the screen [map] keeps the sheet that
    is visible there, and the video memory its colour.

    The specification is a list of sheets and the topmost opaque one at a
    point ([top_at]); the theorems say that every operation returns, changes
    the list as it should, and leaves the screen showing that sheet. *)
From stdpp Require Import base numbers list sets.
From S2P Require Import Prelude Memory.
Open Scope Z_scope.

Module Sheet.
Definition MAX_SHEETS := 256.
Definition SHEET_USE := 1.
(** the fields of [struct SHEET]; there is one controller, so [ctl] is left out *)
Record SHEET := Sht {
  buf : Z;
  bxsize : Z;
  bysize : Z;
  vx0 : Z;
  vy0 : Z;
  col_inv : Z;
  height : Z;
  flags : Z
}.
(** [struct SHTCTL]; a pointer to a sheet is its index in [sheets0] *)
Record SHTCTL := Ctl {
  vram : Z;
  map : Z;
  xsize : Z;
  ysize : Z;
  pitch : Z;
  top : Z;
  sheets : list (option nat);
  sheets0 : list SHEET
}.
Definition set_height (h : Z) (s : SHEET) : SHEET := Sht (buf s) (bxsize s) (bysize s) (vx0 s) (vy0 s) (col_inv s) h (flags s).
Definition set_flags (f : Z) (s : SHEET) : SHEET := Sht (buf s) (bxsize s) (bysize s) (vx0 s) (vy0 s) (col_inv s) (height s) f.
Definition set_pos (x y : Z) (s : SHEET) : SHEET := Sht (buf s) (bxsize s) (bysize s) x y (col_inv s) (height s) (flags s).
Definition set_top (t : Z) (c : SHTCTL) : SHTCTL := Ctl (vram c) (map c) (xsize c) (ysize c) (pitch c) t (sheets c) (sheets0 c).
Definition set_sheets (l : list (option nat)) (c : SHTCTL) : SHTCTL := Ctl (vram c) (map c) (xsize c) (ysize c) (pitch c) (top c) l (sheets0 c).
Definition set_pool (l : list SHEET) (c : SHTCTL) : SHTCTL := Ctl (vram c) (map c) (xsize c) (ysize c) (pitch c) (top c) (sheets c) l.
(** an update of the sheet that a pointer leads to *)
Definition upd (i : nat) (f : SHEET → SHEET) (c : SHTCTL) : SHTCTL := set_pool (alter f i (sheets0 c)) c.

Fixpoint each {A S} (f : A → S → outcome S) (l : list A) (s : S) : outcome S :=
  match l with
  | [] => Ret s
  | x :: l => s ← f x s; each f l s
  end.

(** ** The operations *)
Definition shtctl_init (vram xsize ysize pitch : Z) (c : SHTCTL) : SHTCTL :=
  Ctl vram 0x3000000 xsize ysize pitch (-1) (sheets c) (set_flags 0 <$> sheets0 c).
Definition sheet_alloc (c : SHTCTL) : option nat * SHTCTL :=
  match list_find (λ s, flags s = 0) (sheets0 c) with
  | Some (i, _) => (Some i, upd i (λ s, set_height (-1) (set_flags SHEET_USE s)) c)
  | None => (None, c)
  end.
Definition sheet_setbuf (i : nat) (b w h inv : Z) (c : SHTCTL) : SHTCTL :=
  upd i (λ s, Sht b w h (vx0 s) (vy0 s) inv (height s) (flags s)) c.
(** [ctl->sheets[h]], followed *)
Definition at_height (c : SHTCTL) (h : Z) : outcome (nat * SHEET) :=
  p ← aget (sheets c) h;
  match p with
  | Some i => match sheets0 c !! i with Some s => Ret (i, s) | None => Undef end
  | None => Undef
  end.
(** the part of a rectangle of the screen that is on a sheet, in its coordinates *)
Definition clip (c : SHTCTL) (s : SHEET) (x0 y0 x1 y1 : Z) : Z * Z * Z * Z :=
  let x0 := if x0 <? 0 then 0 else x0 in
  let y0 := if y0 <? 0 then 0 else y0 in
  let x1 := if xsize c <? x1 then xsize c else x1 in
  let y1 := if ysize c <? y1 then ysize c else y1 in
  let bx0 := x0 - vx0 s in
  let by0 := y0 - vy0 s in
  let bx1 := x1 - vx0 s in
  let by1 := y1 - vy0 s in
  (if bx0 <? 0 then 0 else bx0, if by0 <? 0 then 0 else by0,
   if bxsize s <? bx1 then bxsize s else bx1, if bysize s <? by1 then bysize s else by1).
(** [for (by = by0; by < by1; by++) for (bx = bx0; bx < bx1; bx++)] *)
Definition for_box (b : Z * Z * Z * Z) (f : Z → Z → mem → mem) (m : mem) : mem :=
  let '(bx0, by0, bx1, by1) := b in
  foldl (λ m y, foldl (λ m x, f x y m) m (seqZ bx0 (bx1 - bx0))) m (seqZ by0 (by1 - by0)).
(** [buf[by * sht->bxsize + bx]] *)
Definition pixel (m : mem) (s : SHEET) (bx by_ : Z) : Z := ld32 m (buf s + 4 * (by_ * bxsize s + bx)).
Definition map_sheet (c : SHTCTL) (i : nat) (s : SHEET) (bx by_ : Z) (m : mem) : mem :=
  let vy := vy0 s + by_ in
  let vx := vx0 s + bx in
  if (col_inv s =? -1) || negb (pixel m s bx by_ =? u32 (col_inv s)) then st8 m (map c + (vy * xsize c + vx)) (u8 (Z.of_nat i)) else m.
Definition sheet_refreshmap (c : SHTCTL) (x0 y0 x1 y1 h0 : Z) : mem → outcome mem :=
  each (λ h m, '(i, s) ← at_height c h; Ret (for_box (clip c s x0 y0 x1 y1) (map_sheet c i s) m)) (seqZ h0 (top c + 1 - h0)).
Definition draw_sheet (c : SHTCTL) (i : nat) (s : SHEET) (bx by_ : Z) (m : mem) : mem :=
  let vy := vy0 s + by_ in
  let vx := vx0 s + bx in
  if ld8 m (map c + (vy * xsize c + vx)) =? u8 (Z.of_nat i) then st32 m (vram c + vy * pitch c + vx * 4) (pixel m s bx by_) else m.
Definition sheet_refreshsub (c : SHTCTL) (x0 y0 x1 y1 h0 h1 : Z) : mem → outcome mem :=
  each (λ h m, '(i, s) ← at_height c h; Ret (for_box (clip c s x0 y0 x1 y1) (draw_sheet c i s) m)) (seqZ h0 (h1 + 1 - h0)).
(** [ctl->sheets[d] = ctl->sheets[h]; ctl->sheets[d]->height = d] *)
Definition move_sheet (d h : Z) (c : SHTCTL) : outcome SHTCTL :=
  p ← aget (sheets c) h;
  l ← aset (sheets c) d p;
  match p with
  | Some i => if (i <? length (sheets0 c))%nat then Ret (upd i (set_height d) (set_sheets l c)) else Undef
  | None => Undef
  end.
Definition put_sheet (h : Z) (i : nat) (c : SHTCTL) : outcome SHTCTL :=
  l ← aset (sheets c) h (Some i); Ret (set_sheets l c).
Definition sheet_updown (i : nat) (h : Z) (c : SHTCTL) (m : mem) : outcome (SHTCTL * mem) :=
  match sheets0 c !! i with
  | None => Undef
  | Some s =>
    let old := height s in
    let h := if top c + 1 <? h then top c + 1 else h in
    let h := if h <? -1 then -1 else h in
    let c := upd i (set_height h) c in
    let x1 := vx0 s + bxsize s in
    let y1 := vy0 s + bysize s in
    if h <? old then
      if 0 <=? h then
        c ← each (λ k, move_sheet k (k - 1)) (rev (seqZ (h + 1) (old - h))) c;
        c ← put_sheet h i c;
        m ← sheet_refreshmap c (vx0 s) (vy0 s) x1 y1 h m;
        m ← sheet_refreshsub c (vx0 s) (vy0 s) x1 y1 (h + 1) old m;
        Ret (c, m)
      else
        c ← (if old <? top c then each (λ k, move_sheet k (k + 1)) (seqZ old (top c - old)) c else Ret c);
        let c := set_top (top c - 1) c in
        m ← sheet_refreshmap c (vx0 s) (vy0 s) x1 y1 0 m;
        m ← sheet_refreshsub c (vx0 s) (vy0 s) x1 y1 0 (top c) m;
        Ret (c, m)
    else if old <? h then
      c ← (if 0 <=? old then
             c ← each (λ k, move_sheet k (k + 1)) (seqZ old (h - old)) c;
             put_sheet h i c
           else
             c ← each (λ k, move_sheet (k + 1) k) (rev (seqZ h (top c + 1 - h))) c;
             c ← put_sheet h i c;
             Ret (set_top (top c + 1) c));
      m ← sheet_refreshmap c (vx0 s) (vy0 s) x1 y1 h m;
      m ← sheet_refreshsub c (vx0 s) (vy0 s) x1 y1 h h m;
      Ret (c, m)
    else Ret (c, m)
  end.
Definition sheet_refresh (i : nat) (bx0 by0 bx1 by1 : Z) (c : SHTCTL) (m : mem) : outcome mem :=
  match sheets0 c !! i with
  | None => Undef
  | Some s =>
    if 0 <=? height s then sheet_refreshsub c (vx0 s + bx0) (vy0 s + by0) (vx0 s + bx1) (vy0 s + by1) (height s) (height s) m
    else Ret m
  end.
Definition sheet_slide (i : nat) (x y : Z) (c : SHTCTL) (m : mem) : outcome (SHTCTL * mem) :=
  match sheets0 c !! i with
  | None => Undef
  | Some s =>
    let c := upd i (set_pos x y) c in
    if 0 <=? height s then
      m ← sheet_refreshmap c (vx0 s) (vy0 s) (vx0 s + bxsize s) (vy0 s + bysize s) 0 m;
      m ← sheet_refreshmap c x y (x + bxsize s) (y + bysize s) (height s) m;
      m ← sheet_refreshsub c (vx0 s) (vy0 s) (vx0 s + bxsize s) (vy0 s + bysize s) 0 (height s - 1) m;
      m ← sheet_refreshsub c x y (x + bxsize s) (y + bysize s) (height s) (height s) m;
      Ret (c, m)
    else Ret (c, m)
  end.
Definition sheet_free (i : nat) (c : SHTCTL) (m : mem) : outcome (SHTCTL * mem) :=
  match sheets0 c !! i with
  | None => Undef
  | Some s =>
    '(c, m) ← (if 0 <=? height s then sheet_updown i (-1) c m else Ret (c, m));
    Ret (upd i (set_flags 0) c, m)
  end.

(** ** What a screen should show *)
Definition no_sheet : SHEET := Sht 0 0 0 0 0 0 0 0.
Definition sh (c : SHTCTL) (i : nat) : SHEET := nth i (sheets0 c) no_sheet.
Definition covers (s : SHEET) (x y : Z) : bool := (vx0 s <=? x) && (x <? vx0 s + bxsize s) && (vy0 s <=? y) && (y <? vy0 s + bysize s).
(** the colour of a sheet at a point of the screen *)
Definition colour (m : mem) (s : SHEET) (x y : Z) : Z := pixel m s (x - vx0 s) (y - vy0 s).
Definition opaque (m : mem) (s : SHEET) (x y : Z) : bool := (col_inv s =? -1) || negb (colour m s x y =? u32 (col_inv s)).
Definition seen (m : mem) (s : SHEET) (x y : Z) : bool := covers s x y && opaque m s x y.
(** the topmost sheet of a list, from bottom to top, that is seen at a point *)
Fixpoint top_at (m : mem) (pool : nat → SHEET) (zs : list nat) (x y : Z) : option nat :=
  match zs with
  | [] => None
  | i :: zs => match top_at m pool zs x y with
               | Some j => Some j
               | None => if seen m (pool i) x y then Some i else None
               end
  end.
Definition on_screen (c : SHTCTL) (x y : Z) : Prop := 0 <= x < xsize c ∧ 0 <= y < ysize c.
Definition map_at (c : SHTCTL) (x y : Z) : Z := map c + (y * xsize c + x).
Definition vram_at (c : SHTCTL) (x y : Z) : Z := vram c + y * pitch c + x * 4.
(** the screen shows the sheets [zs]: wherever one is seen, [map] names the
    topmost and the video memory has its colour *)
Definition shows (c : SHTCTL) (zs : list nat) (m : mem) : Prop := ∀ x y i, on_screen c x y → top_at m (sh c) zs x y = Some i →
  m (map_at c x y) = Z.of_nat i ∧ ld32 m (vram_at c x y) = colour m (sh c i) x y.
(** consecutive heights *)
Fixpoint heights_from (c : SHTCTL) (n : nat) (zs : list nat) : Prop :=
  match zs with
  | [] => True
  | i :: zs => height (sh c i) = Z.of_nat n ∧ heights_from c (S n) zs
  end.
(** the shown sheets are [zs] *)
Record ordered (c : SHTCTL) (zs : list nat) : Prop := {
  o_sheets : length (sheets c) = 256%nat;
  o_pool : length (sheets0 c) = 256%nat;
  o_top : top c = Z.of_nat (length zs) - 1;
  o_nodup : NoDup zs;
  o_range : ∀ i, i ∈ zs → (i < 256)%nat;
  o_at : ∃ l, sheets c = (Some <$> zs) ++ l;
  o_height : heights_from c 0 zs;
  o_hidden : ∀ i, (i < 256)%nat → flags (sh c i) ≠ 0 → i ∉ zs → height (sh c i) = -1;
  o_used : ∀ i, i ∈ zs → flags (sh c i) ≠ 0
}.
Definition in_map (c : SHTCTL) (a : Z) : Prop := map c <= a < map c + ysize c * xsize c.
Definition in_vram (c : SHTCTL) (a : Z) : Prop := vram c <= a < vram c + ysize c * pitch c.
(** a sheet's buffer is apart from the map and the video memory *)
Definition buf_ok (c : SHTCTL) (s : SHEET) : Prop :=
  0 <= bxsize s ∧ 0 <= bysize s ∧ ∀ a, buf s <= a < buf s + 4 * (bysize s * bxsize s) → ¬ in_map c a ∧ ¬ in_vram c a.
Record laid (c : SHTCTL) : Prop := {
  l_size : 0 <= xsize c ∧ 0 <= ysize c;
  l_pitch : xsize c * 4 <= pitch c;
  l_apart : ∀ a, in_map c a → ¬ in_vram c a
}.

(** ** Points *)
Section points.
Definition box_points (b : Z * Z * Z * Z) : list (Z * Z) :=
  let '(x0, y0, x1, y1) := b in concat ((λ y, (λ x, (x, y)) <$> seqZ x0 (x1 - x0)) <$> seqZ y0 (y1 - y0)).
Lemma elem_box x y x0 y0 x1 y1 : (x, y) ∈ box_points (x0, y0, x1, y1) ↔ x0 <= x < x1 ∧ y0 <= y < y1.
Proof.
  unfold box_points. rewrite list_elem_of_In, in_concat. split.
  - intros (l & Hl & Hin). apply list_elem_of_In, list_elem_of_fmap in Hl as (j & -> & Hj). apply list_elem_of_In, list_elem_of_fmap in Hin as (i & E & Hi).
    apply elem_of_seqZ in Hi, Hj. injection E as -> ->. lia.
  - intros [Hx Hy]. exists ((λ x, (x, y)) <$> seqZ x0 (x1 - x0)). split; apply list_elem_of_In, list_elem_of_fmap.
    + exists y. split; [done|]. apply elem_of_seqZ. lia.
    + exists x. split; [done|]. apply elem_of_seqZ. lia.
Qed.
Lemma for_box_points b f m : for_box b f m = foldl (λ m p, f (fst p) (snd p) m) m (box_points b).
Proof.
  destruct b as [[[x0 y0] x1] y1]. unfold for_box, box_points. revert m. induction (seqZ y0 (y1 - y0)) as [|y l IH]; intros m; [done|].
  cbn [foldl fmap list_fmap concat]. rewrite foldl_app, IH. f_equal. clear. revert m. induction (seqZ x0 (x1 - x0)) as [|x l IH]; intros m; [done|].
  cbn [foldl fmap list_fmap fst snd]. by rewrite IH.
Qed.
Definition in_rect (x0 y0 x1 y1 x y : Z) : bool := (x0 <=? x) && (x <? x1) && (y0 <=? y) && (y <? y1).
Lemma elem_clip c s x0 y0 x1 y1 x y :
  (x - vx0 s, y - vy0 s) ∈ box_points (clip c s x0 y0 x1 y1) ↔ on_screen c x y ∧ in_rect x0 y0 x1 y1 x y = true ∧ covers s x y = true.
Proof.
  unfold clip, on_screen, in_rect, covers. rewrite elem_box, !andb_true_iff, !Z.leb_le, !Z.ltb_lt.
  destruct (Z.ltb_spec x0 0), (Z.ltb_spec y0 0), (Z.ltb_spec (xsize c) x1), (Z.ltb_spec (ysize c) y1);
    repeat match goal with |- context [?a <? ?b] => destruct (Z.ltb_spec a b) end; lia.
Qed.
End points.

(** ** Painting *)
Section paint.
Context (c : SHTCTL) (Hl : laid c).
(** memory outside the map and the video memory stays *)
Definition kept (m m' : mem) : Prop := ∀ a, ¬ in_map c a → ¬ in_vram c a → m' a = m a.
Lemma kept_trans m1 m2 m3 : kept m1 m2 → kept m2 m3 → kept m1 m3.
Proof. intros H1 H2 a Ha Hb. by rewrite H2, H1. Qed.
Lemma map_at_in x y : on_screen c x y → in_map c (map_at c x y).
Proof. intros [Hx Hy]. destruct Hl as [[Hw Hh] _ _]. unfold in_map, map_at. nia. Qed.
Lemma map_at_inj x y x' y' : on_screen c x y → on_screen c x' y' → map_at c x y = map_at c x' y' → x = x' ∧ y = y'.
Proof.
  intros [Hx Hy] [Hx' Hy'] E. unfold map_at in E. assert (y = y') as -> by (destruct (Z.lt_trichotomy y y') as [|[|]]; [nia|done|nia]). lia.
Qed.
Lemma vram_at_in x y : on_screen c x y → vram c <= vram_at c x y ∧ vram_at c x y + 4 <= vram c + ysize c * pitch c.
Proof. intros [Hx Hy]. destruct Hl as [[Hw Hh] Hp _]. unfold vram_at. nia. Qed.
Lemma vram_at_disj x y x' y' : on_screen c x y → on_screen c x' y' → (x, y) ≠ (x', y') → vram_at c x y + 4 <= vram_at c x' y' ∨ vram_at c x' y' + 4 <= vram_at c x y.
Proof.
  intros [Hx Hy] [Hx' Hy'] Hne. destruct Hl as [[Hw Hh] Hp _]. unfold vram_at.
  destruct (Z.lt_trichotomy y y') as [|[->|]]; [left; nia| |right; nia]. assert (x ≠ x') by (intros ->; done). lia.
Qed.
Lemma colour_kept m m' s x y : buf_ok c s → covers s x y = true → kept m m' → colour m' s x y = colour m s x y.
Proof.
  intros (Hw & Hh & Hb) Hc Hk. unfold covers in Hc. rewrite !andb_true_iff, !Z.leb_le, !Z.ltb_lt in Hc. unfold colour, pixel, ld32. f_equal. apply mread_ext.
  intros a Ha. apply Hk; apply Hb; nia.
Qed.
Lemma seen_kept m m' s x y : buf_ok c s → kept m m' → seen m' s x y = seen m s x y.
Proof. intros Hb Hk. unfold seen, opaque. destruct (covers s x y) eqn:E; [|done]. by rewrite (colour_kept m m'). Qed.
Lemma top_at_kept m m' pool zs x y : (∀ i, i ∈ zs → buf_ok c (pool i)) → kept m m' → top_at m' pool zs x y = top_at m pool zs x y.
Proof.
  intros Hb Hk. induction zs as [|i zs IH]; [done|]. cbn [top_at]. rewrite IH by (intros j Hj; apply Hb; by apply elem_of_cons; right).
  by rewrite (seen_kept m m') by (done || (apply Hb; by apply elem_of_cons; left)).
Qed.
(** points of the screen that are on the sheet *)
Definition points_ok (s : SHEET) (ps : list (Z * Z)) : Prop :=
  ∀ x y, (x - vx0 s, y - vy0 s) ∈ ps → on_screen c x y ∧ covers s x y = true.
Lemma points_cons s bx by_ ps : points_ok s ((bx, by_) :: ps) → (on_screen c (vx0 s + bx) (vy0 s + by_) ∧ covers s (vx0 s + bx) (vy0 s + by_) = true) ∧ points_ok s ps.
Proof.
  intros H. split; [apply H|intros x y Hin; apply H; by apply elem_of_cons; right].
  apply elem_of_cons. left. f_equal; lia.
Qed.
Lemma point_eq s x y bx by_ : (x - vx0 s, y - vy0 s) = (bx, by_) ↔ (x, y) = (vx0 s + bx, vy0 s + by_).
Proof. split; intros [= E1 E2]; f_equal; lia. Qed.
Lemma map_points_spec i s : buf_ok c s → (i < 256)%nat → ∀ ps m, points_ok s ps →
  let m' := foldl (λ m p, map_sheet c i s (fst p) (snd p) m) m ps in
  (∀ x y, on_screen c x y → m' (map_at c x y) = if bool_decide ((x - vx0 s, y - vy0 s) ∈ ps) && opaque m s x y then Z.of_nat i else m (map_at c x y)) ∧
  (∀ a, ¬ in_map c a → m' a = m a) ∧ (mem_bytes m → mem_bytes m').
Proof.
  intros Hb Hi. induction ps as [|[bx by_] ps IH]; intros m Hps; cbn [foldl fst snd].
  { split; [|done]. intros x y _. by rewrite bool_decide_eq_false_2 by apply not_elem_of_nil. }
  apply points_cons in Hps as [[Hon Hcov] Hps]. set (m1 := map_sheet c i s bx by_ m). destruct (IH m1 Hps) as (H1 & H2 & H3).
  set (px := vx0 s + bx) in *. set (py := vy0 s + by_) in *.
  assert (m1 = if opaque m s px py then st8 m (map_at c px py) (Z.of_nat i) else m) as E1.
  { unfold m1, map_sheet, opaque, colour. fold px py. rewrite u8_small by lia. by replace (px - vx0 s) with bx by lia; replace (py - vy0 s) with by_ by lia. }
  assert (∀ a, ¬ in_map c a → m1 a = m a) as Hk1.
  { intros a Ha. rewrite E1. case_if; [|done]. unfold st8. apply mwrite_out. pose proof (map_at_in px py Hon). cbn [length]. destruct (decide (a = map_at c px py)) as [->|]; [done|lia]. }
  assert (∀ x y, on_screen c x y → m1 (map_at c x y) = if bool_decide ((x, y) = (px, py)) && opaque m s x y then Z.of_nat i else m (map_at c x y)) as Hv1.
  { intros x y Hxy. rewrite E1. destruct (decide ((x, y) = (px, py))) as [E|E].
    - rewrite bool_decide_eq_true_2 by done. injection E as -> ->. cbn [andb]. case_if; [|done]. unfold st8. rewrite mwrite_in by (cbn [length]; lia). by rewrite Z.sub_diag.
    - rewrite bool_decide_eq_false_2 by done. cbn [andb]. case_if; [|done]. unfold st8. apply mwrite_out. cbn [length].
      destruct (decide (map_at c x y = map_at c px py)) as [Ea|]; [|lia]. apply map_at_inj in Ea as [-> ->]; done. }
  split; [|split].
  - intros x y Hxy. rewrite H1, Hv1 by done. unfold opaque. destruct (decide ((x - vx0 s, y - vy0 s) ∈ ps)) as [Hin|Hin].
    + rewrite (bool_decide_eq_true_2 _ Hin), (bool_decide_eq_true_2 (_ ∈ _ :: ps)) by (apply elem_of_cons; by right). cbn [andb].
      rewrite (colour_kept m m1) by (done || (by apply Hps) || (intros a Ha _; by apply Hk1)). fold (opaque m s x y).
      destruct (opaque m s x y); [done|]. by rewrite andb_false_r.
    + rewrite (bool_decide_eq_false_2 _ Hin). cbn [andb]. fold (opaque m s x y).
      erewrite bool_decide_ext; [done|]. rewrite elem_of_cons, point_eq. intuition.
  - intros a Ha. by rewrite H2, Hk1.
  - intros Hm. apply H3. rewrite E1. case_if; [|done]. apply mem_bytes_mwrite; [done|]. apply Forall_singleton. unfold is_byte. lia.
Qed.
Lemma ld32_st32 m a v : 0 <= v < 2 ^ 32 → ld32 (st32 m a v) a = v.
Proof.
  intros Hv. unfold ld32, st32. pose proof (mread_mwrite_same m a (le_of 4 v)) as E. rewrite length_le_of in E. rewrite E. apply le_to_of. exact Hv.
Qed.
Lemma ld32_st32_disj m a b v : b + 4 <= a ∨ a + 4 <= b → ld32 (st32 m a v) b = ld32 m b.
Proof. intros H. unfold ld32, st32. f_equal. apply mread_mwrite_disj. rewrite length_le_of. lia. Qed.
Lemma draw_sheet_points i s : buf_ok c s → (i < 256)%nat → ∀ ps m, mem_bytes m → points_ok s ps →
  let m' := foldl (λ m p, draw_sheet c i s (fst p) (snd p) m) m ps in
  (∀ x y, on_screen c x y → ld32 m' (vram_at c x y) =
     if bool_decide ((x - vx0 s, y - vy0 s) ∈ ps) && (m (map_at c x y) =? Z.of_nat i) then colour m s x y else ld32 m (vram_at c x y)) ∧
  (∀ a, ¬ in_vram c a → m' a = m a) ∧ mem_bytes m'.
Proof.
  intros Hb Hi. induction ps as [|[bx by_] ps IH]; intros m Hm Hps; cbn [foldl fst snd].
  { split; [|done]. intros x y _. by rewrite bool_decide_eq_false_2 by apply not_elem_of_nil. }
  apply points_cons in Hps as [[Hon Hcov] Hps]. set (m1 := draw_sheet c i s bx by_ m).
  set (px := vx0 s + bx) in *. set (py := vy0 s + by_) in *. pose proof (vram_at_in px py Hon) as [V1 V2].
  assert (m1 = if m (map_at c px py) =? Z.of_nat i then st32 m (vram_at c px py) (colour m s px py) else m) as E1.
  { unfold m1, draw_sheet, colour. fold px py. rewrite u8_small by lia. by replace (px - vx0 s) with bx by lia; replace (py - vy0 s) with by_ by lia. }
  assert (mem_bytes m1) as Hm1 by (rewrite E1; case_if; [apply mem_bytes_mwrite; [done|apply bytes_le_of]|done]).
  destruct (IH m1 Hm1 Hps) as (H1 & H2 & H3).
  assert (∀ a, ¬ in_vram c a → m1 a = m a) as Hk1.
  { intros a Ha. rewrite E1. case_if; [|done]. unfold st32. apply mwrite_out. rewrite length_le_of. unfold in_vram in Ha. lia. }
  assert (∀ x y, on_screen c x y → m1 (map_at c x y) = m (map_at c x y)) as Hmap.
  { intros x y Hxy. apply Hk1. apply (l_apart c Hl). by apply map_at_in. }
  assert (∀ x y, on_screen c x y → ld32 m1 (vram_at c x y) = if bool_decide ((x, y) = (px, py)) && (m (map_at c x y) =? Z.of_nat i) then colour m s x y else ld32 m (vram_at c x y)) as Hv1.
  { intros x y Hxy. rewrite E1. destruct (decide ((x, y) = (px, py))) as [E|E].
    - rewrite bool_decide_eq_true_2 by done. injection E as -> ->. cbn [andb]. case_if; [|done]. apply ld32_st32. unfold colour, pixel. by apply ld32_range.
    - rewrite bool_decide_eq_false_2 by done. cbn [andb]. case_if; [|done]. apply ld32_st32_disj. pose proof (vram_at_disj x y px py Hxy Hon E). lia. }
  split; [|split; [|done]].
  - intros x y Hxy. rewrite H1, Hv1, Hmap by done. destruct (decide ((x - vx0 s, y - vy0 s) ∈ ps)) as [Hin|Hin].
    + rewrite (bool_decide_eq_true_2 _ Hin), (bool_decide_eq_true_2 (_ ∈ _ :: ps)) by (apply elem_of_cons; by right). cbn [andb].
      rewrite (colour_kept m m1) by (done || (by apply Hps) || (intros a _ Ha; by apply Hk1)).
      destruct (m (map_at c x y) =? Z.of_nat i); [done|]. by rewrite andb_false_r.
    + rewrite (bool_decide_eq_false_2 _ Hin). cbn [andb]. erewrite bool_decide_ext; [done|]. rewrite elem_of_cons, point_eq. intuition.
  - intros a Ha. by rewrite H2, Hk1.
Qed.
Lemma clip_ok s x0 y0 x1 y1 : points_ok s (box_points (clip c s x0 y0 x1 y1)).
Proof. intros x y Hin. apply elem_clip in Hin. tauto. Qed.
Lemma clip_decide s x0 y0 x1 y1 x y : on_screen c x y →
  bool_decide ((x - vx0 s, y - vy0 s) ∈ box_points (clip c s x0 y0 x1 y1)) = in_rect x0 y0 x1 y1 x y && covers s x y.
Proof. intros Hxy. apply eq_true_iff_eq. rewrite bool_decide_eq_true, elem_clip, andb_true_iff. tauto. Qed.
(** several sheets, from bottom to top *)
Section layers.
Context (pool : nat → SHEET) (x0 y0 x1 y1 : Z).
Notation rect := (in_rect x0 y0 x1 y1).
Definition map_layers (zs : list nat) (m : mem) : mem := foldl (λ m i, for_box (clip c (pool i) x0 y0 x1 y1) (map_sheet c i (pool i)) m) m zs.
Definition draw_layers (zs : list nat) (m : mem) : mem := foldl (λ m i, for_box (clip c (pool i) x0 y0 x1 y1) (draw_sheet c i (pool i)) m) m zs.
Lemma map_layers_spec zs : ∀ m, (∀ i, i ∈ zs → buf_ok c (pool i) ∧ (i < 256)%nat) →
  (∀ x y, on_screen c x y → map_layers zs m (map_at c x y) =
    match top_at m pool zs x y with Some i => if rect x y then Z.of_nat i else m (map_at c x y) | None => m (map_at c x y) end) ∧
  (∀ a, ¬ in_map c a → map_layers zs m a = m a) ∧ (mem_bytes m → mem_bytes (map_layers zs m)).
Proof.
  induction zs as [|i zs IH]; intros m Hzs; [done|]. change (map_layers (i :: zs) m) with (map_layers zs (for_box (clip c (pool i) x0 y0 x1 y1) (map_sheet c i (pool i)) m)).
  destruct (Hzs i ltac:(by apply elem_of_cons; left)) as [Hb Hi]. rewrite for_box_points.
  destruct (map_points_spec i (pool i) Hb Hi _ m (clip_ok (pool i) x0 y0 x1 y1)) as (M1 & M2 & M3). set (m1 := foldl _ m _) in *.
  assert (∀ j, j ∈ zs → buf_ok c (pool j) ∧ (j < 256)%nat) as Hzs' by (intros j Hj; apply Hzs; by apply elem_of_cons; right).
  destruct (IH m1 Hzs') as (H1 & H2 & H3). split; [|split].
  - intros x y Hxy. rewrite H1 by done. cbn [top_at]. rewrite (top_at_kept m m1) by ((intros j Hj; by apply Hzs') || (intros a Ha _; by apply M2)).
    rewrite M1, clip_decide by done. unfold seen. destruct (top_at m pool zs x y); destruct (rect x y); cbn [andb]; [done| |by destruct (covers _ _ _ && opaque _ _ _ _)|by destruct (covers _ _ _ && opaque _ _ _ _)]. done.
  - intros a Ha. by rewrite H2, M2.
  - auto.
Qed.
Lemma draw_layers_spec zs : ∀ m, NoDup zs → (∀ i, i ∈ zs → buf_ok c (pool i) ∧ (i < 256)%nat) → mem_bytes m →
  (∀ x y i, on_screen c x y → i ∈ zs → m (map_at c x y) = Z.of_nat i → rect x y = true → covers (pool i) x y = true →
     ld32 (draw_layers zs m) (vram_at c x y) = colour m (pool i) x y) ∧
  (∀ x y, on_screen c x y → (∀ i, i ∈ zs → m (map_at c x y) = Z.of_nat i → rect x y && covers (pool i) x y = false) →
     ld32 (draw_layers zs m) (vram_at c x y) = ld32 m (vram_at c x y)) ∧
  (∀ a, ¬ in_vram c a → draw_layers zs m a = m a) ∧ mem_bytes (draw_layers zs m).
Proof.
  induction zs as [|i zs IH]; intros m Hnd Hzs Hm; [split; [by intros x y i _ ?%not_elem_of_nil|done]|]. change (draw_layers (i :: zs) m) with (draw_layers zs (for_box (clip c (pool i) x0 y0 x1 y1) (draw_sheet c i (pool i)) m)).
  apply NoDup_cons in Hnd as [Hnin Hnd]. destruct (Hzs i ltac:(by apply elem_of_cons; left)) as [Hb Hi]. rewrite for_box_points.
  destruct (draw_sheet_points i (pool i) Hb Hi _ m Hm (clip_ok (pool i) x0 y0 x1 y1)) as (M1 & M2 & M3). set (m1 := foldl _ m _) in *.
  assert (∀ j, j ∈ zs → buf_ok c (pool j) ∧ (j < 256)%nat) as Hzs' by (intros j Hj; apply Hzs; by apply elem_of_cons; right).
  destruct (IH m1 Hnd Hzs' M3) as (H1 & H2 & H3 & H4).
  assert (∀ x y, on_screen c x y → m1 (map_at c x y) = m (map_at c x y)) as Hmap by (intros x y Hxy; apply M2, (l_apart c Hl), map_at_in; done).
  split; [|split; [|split; [|done]]].
  - intros x y j Hxy Hj Ej Hr Hcov. apply elem_of_cons in Hj as [->|Hj].
    + rewrite H2, M1, clip_decide, Hr, Hcov, Ej, Z.eqb_refl by (done || (rewrite Hmap, Ej by done; intros k Hk Ek; apply Nat2Z.inj in Ek; by subst)). done.
    + rewrite (H1 x y j) by (done || by rewrite Hmap). apply colour_kept; [by apply Hzs'|done|]. intros a _ Ha. by apply M2.
  - intros x y Hxy Hno. rewrite H2, M1, clip_decide by (done || (rewrite Hmap by done; intros k Hk Ek; apply Hno; [by apply elem_of_cons; right|done])).
    destruct (Z.eqb_spec (m (map_at c x y)) (Z.of_nat i)) as [E|E]; [|by rewrite andb_false_r]. by rewrite (Hno i ltac:(by apply elem_of_cons; left) E).
  - intros a Ha. by rewrite H3, M2.
Qed.
End layers.
End paint.

(** ** The order *)
Section order.
Implicit Types (c : SHTCTL) (zs A B C : list nat).
(** the same sheets up to their heights, on the same screen *)
Definition same_screen c c' : Prop :=
  vram c' = vram c ∧ map c' = map c ∧ xsize c' = xsize c ∧ ysize c' = ysize c ∧ pitch c' = pitch c.
Definition alike c c' : Prop := same_screen c c' ∧ length (sheets c') = length (sheets c) ∧ length (sheets0 c') = length (sheets0 c) ∧
  ∀ j, sh c' j = set_height (height (sh c' j)) (sh c j).
Lemma set_height_id s : set_height (height s) s = s.
Proof. by destruct s. Qed.
Lemma alike_refl c : alike c c.
Proof. repeat split. intros j. by rewrite set_height_id. Qed.
Lemma alike_trans c1 c2 c3 : alike c1 c2 → alike c2 c3 → alike c1 c3.
Proof.
  intros (Hs1 & Hl1 & Hp1 & Hh1) (Hs2 & Hl2 & Hp2 & Hh2). split; [|split; [congruence|split; [congruence|]]].
  - unfold same_screen in *. intuition congruence.
  - intros j. rewrite Hh2, Hh1. done.
Qed.
Lemma sh_upd c i f j : (i < length (sheets0 c))%nat → sh (upd i f c) j = if decide (j = i) then f (sh c i) else sh c j.
Proof.
  intros Hi. unfold sh, upd. cbn [sheets0 set_pool]. destruct (lookup_lt_is_Some_2 _ _ Hi) as [s Hs]. rewrite !nth_lookup. destruct (decide (j = i)) as [->|Hne].
  - by rewrite list_lookup_alter_eq, Hs.
  - by rewrite list_lookup_alter_ne.
Qed.
Lemma alike_upd c i h : (i < length (sheets0 c))%nat → alike c (upd i (set_height h) c).
Proof.
  intros Hi. split; [done|]. split; [done|]. split; [apply length_alter|]. intros j. rewrite sh_upd by done. case_decide; subst; [done|by rewrite set_height_id].
Qed.
Lemma heights_app c n A B : heights_from c n (A ++ B) ↔ heights_from c n A ∧ heights_from c (n + length A) B.
Proof.
  revert n. induction A as [|a A IH]; intros n; cbn [app heights_from length]; [rewrite Nat.add_0_r; tauto|].
  rewrite IH, Nat.add_succ_l, Nat.add_succ_r. tauto.
Qed.
Lemma heights_ext c c' n zs : (∀ i, i ∈ zs → sh c' i = sh c i) → heights_from c n zs → heights_from c' n zs.
Proof.
  revert n. induction zs as [|z zs IH]; intros n He; [done|]. cbn [heights_from]. rewrite (He z) by (by apply elem_of_cons; left).
  intros [-> H]. split; [done|]. apply IH; [|done]. intros i Hi. apply He. by apply elem_of_cons; right.
Qed.
Lemma heights_lookup c n zs h i : heights_from c n zs → zs !! h = Some i → height (sh c i) = Z.of_nat (n + h).
Proof.
  revert n h. induction zs as [|z zs IH]; intros n h; [done|]. cbn [heights_from]. intros [E H] Hl. destruct h as [|h].
  - injection Hl as ->. by rewrite Nat.add_0_r.
  - rewrite (IH (S n) h H Hl). lia.
Qed.
(** moving a run of pointers down or up by one *)
Lemma aget_app {T} (P : list T) x R : aget (P ++ x :: R) (Z.of_nat (length P)) = Ret x.
Proof. unfold aget. rewrite (proj2 (Z.leb_le 0 _)), Nat2Z.id by lia. by rewrite lookup_app_r, Nat.sub_diag by lia. Qed.
Lemma aset_app {T} (P : list T) x y R : aset (P ++ x :: R) (Z.of_nat (length P)) y = Ret (P ++ y :: R).
Proof.
  unfold aset. rewrite length_app. cbn [length]. rewrite (proj2 (Z.leb_le 0 _)), (proj2 (Z.ltb_lt _ _)) by lia. cbn [andb]. rewrite Nat2Z.id.
  rewrite insert_app_r_alt, Nat.sub_diag by lia. done.
Qed.
Definition moved c c' n B : Prop := alike c c' ∧ top c' = top c ∧ heights_from c' n B ∧ ∀ j, j ∉ B → sh c' j = sh c j.
Lemma moves_down B : ∀ c P x R, sheets c = P ++ x :: (Some <$> B) ++ R → NoDup B → (∀ i, i ∈ B → (i < length (sheets0 c))%nat) →
  ∃ c' y, each (λ k, move_sheet k (k + 1)) (seqZ (Z.of_nat (length P)) (Z.of_nat (length B))) c = Ret c' ∧
    sheets c' = P ++ (Some <$> B) ++ y :: R ∧ moved c c' (length P) B.
Proof.
  induction B as [|b B IH]; intros c P x R Es Hnd Hr.
  { exists c, x. split; [done|]. split; [done|]. split; [apply alike_refl|done]. }
  apply NoDup_cons in Hnd as [Hb Hnd]. cbn [length fmap list_fmap] in *. rewrite seqZ_cons by lia. cbn [each].
  assert (b < length (sheets0 c))%nat as Hbl by (apply Hr; by apply elem_of_cons; left).
  set (c1 := upd b (set_height (Z.of_nat (length P))) (set_sheets (P ++ Some b :: Some b :: (Some <$> B) ++ R) c)).
  assert (move_sheet (Z.of_nat (length P)) (Z.of_nat (length P) + 1) c = Ret c1) as ->.
  { unfold move_sheet. rewrite Es. pose proof (aget_app (P ++ [x]) (Some b) ((Some <$> B) ++ R)) as Eg. rewrite length_app, <-app_assoc in Eg. cbn [length app] in *.
    replace (Z.of_nat (length P + 1)) with (Z.of_nat (length P) + 1) in Eg by lia. rewrite Eg. ostep. rewrite aset_app. ostep.
    by rewrite (proj2 (Nat.ltb_lt _ _)) by done. }
  ostep. destruct (IH c1 (P ++ [Some b]) (Some b) R) as (c' & y & E & Es' & Ha & Ht & Hh & Ho).
  { cbn [sheets c1 upd set_pool set_sheets]. by rewrite <-app_assoc. } { done. }
  { intros i Hi. cbn [sheets0 c1 upd set_pool set_sheets]. rewrite length_alter. apply Hr. by apply elem_of_cons; right. }
  rewrite length_app in E, Hh. cbn [length] in E, Hh. exists c', y.
  replace (Z.succ (Z.of_nat (length P))) with (Z.of_nat (length P + 1)) by lia. replace (Z.pred (Z.of_nat (S (length B)))) with (Z.of_nat (length B)) by lia.
  split; [exact E|]. split; [rewrite Es', <-app_assoc; done|].
  assert (∀ j, sh c1 j = if decide (j = b) then set_height (Z.of_nat (length P)) (sh c b) else sh c j) as H1 by (intros j; by apply (sh_upd (set_sheets _ c))).
  split; [|split; [done|split]].
  - eapply alike_trans; [|exact Ha]. split; [done|]. split; [cbn [sheets c1 upd set_pool set_sheets]; rewrite Es, !length_app; cbn [length app]; rewrite !length_app; done|].
    split; [apply length_alter|]. intros j. rewrite H1. case_decide; subst; [done|by rewrite set_height_id].
  - cbn [heights_from]. split; [by rewrite Ho, H1, decide_True by done|]. by rewrite Nat.add_1_r in Hh.
  - intros j [Hj1 Hj2]%not_elem_of_cons. by rewrite Ho, H1, decide_False by done.
Qed.
Lemma each_app {T S} (f : T → S → outcome S) l1 l2 s : each f (l1 ++ l2) s = s ← each f l1 s; each f l2 s.
Proof. revert s. induction l1 as [|x l1 IH]; intros s; [done|]. cbn [app each]. destruct (f x s); ostep; [apply IH|done..]. Qed.
Lemma each_fmap {T U S} (g : U → T) (f : T → S → outcome S) l s : each f (g <$> l) s = each (λ x, f (g x)) l s.
Proof. revert s. induction l as [|x l IH]; intros s; [done|]. cbn [fmap list_fmap each]. destruct (f (g x) s); ostep; [apply IH|done..]. Qed.
Lemma moves_up B : ∀ c P x R, sheets c = P ++ (Some <$> B) ++ x :: R → NoDup B → (∀ i, i ∈ B → (i < length (sheets0 c))%nat) →
  ∃ c' y, each (λ k, move_sheet (k + 1) k) (rev (seqZ (Z.of_nat (length P)) (Z.of_nat (length B)))) c = Ret c' ∧
    sheets c' = P ++ y :: (Some <$> B) ++ R ∧ moved c c' (length P + 1) B.
Proof.
  induction B as [|b B IH] using rev_ind; intros c P x R Es Hnd Hr.
  { exists c, x. split; [done|]. split; [done|]. split; [apply alike_refl|done]. }
  apply NoDup_app in Hnd as (Hnd & Hb & _). assert (b ∉ B) as Hb' by (intros Hin; apply (Hb b Hin); by apply list_elem_of_singleton).
  rewrite fmap_app, <-app_assoc in Es. cbn [fmap list_fmap app] in Es.
  rewrite length_app. cbn [length]. rewrite Nat2Z.inj_add, seqZ_app, rev_app_distr by lia. change (Z.of_nat 1) with 1. rewrite seqZ_cons, each_app by lia. rewrite (seqZ_nil _ (Z.pred 1)) by lia. cbn [rev app each].
  assert (b < length (sheets0 c))%nat as Hbl by (apply Hr; apply elem_of_app; right; by apply list_elem_of_singleton).
  set (n := (length P + length B)%nat). replace (Z.of_nat (length P) + Z.of_nat (length B)) with (Z.of_nat n) by lia.
  set (c1 := upd b (set_height (Z.of_nat n + 1)) (set_sheets (P ++ (Some <$> B) ++ Some b :: Some b :: R) c)).
  assert (move_sheet (Z.of_nat n + 1) (Z.of_nat n) c = Ret c1) as ->.
  { unfold move_sheet. rewrite Es. pose proof (aget_app (P ++ (Some <$> B)) (Some b) (x :: R)) as Eg. rewrite length_app, length_fmap, <-app_assoc in Eg. fold n in Eg. rewrite Eg. ostep.
    pose proof (aset_app (P ++ (Some <$> B) ++ [Some b]) x (Some b) R) as Ea. rewrite !length_app, length_fmap, <-!app_assoc in Ea. cbn [length app] in Ea.
    replace (Z.of_nat n + 1) with (Z.of_nat (length P + (length B + 1))) by lia. rewrite Ea. ostep. rewrite (proj2 (Nat.ltb_lt _ _)) by done. unfold c1.
    by replace (Z.of_nat n + 1) with (Z.of_nat (length P + (length B + 1))) by lia. }
  ostep.
  destruct (IH c1 P (Some b) (Some b :: R)) as (c' & y & E & Es' & Ha & Ht & Hh & Ho).
  { done. } { done. }
  { intros i Hi. cbn [sheets0 c1 upd set_pool set_sheets]. rewrite length_alter. apply Hr. apply elem_of_app. by left. }
  exists c', y. split; [exact E|]. split; [rewrite Es', fmap_app, <-app_assoc; done|].
  assert (∀ j, sh c1 j = if decide (j = b) then set_height (Z.of_nat n + 1) (sh c b) else sh c j) as H1 by (intros j; by apply (sh_upd (set_sheets _ c))).
  split; [|split; [done|split]].
  - eapply alike_trans; [|exact Ha]. split; [done|]. split; [cbn [sheets c1 upd set_pool set_sheets]; rewrite Es, !length_app; cbn [length app]; done|].
    split; [apply length_alter|]. intros j. rewrite H1. case_decide; subst; [done|by rewrite set_height_id].
  - rewrite heights_app. split; [done|]. cbn [heights_from]. split; [|done]. rewrite Ho, H1, decide_True by done. cbn [height set_height]. lia.
  - intros j [Hj1 Hj2]%not_elem_of_app. rewrite Ho, H1, decide_False by (done || (intros ->; apply Hj2; by apply list_elem_of_singleton)). done.
Qed.
(** the refresh functions visit the sheets in order *)
Lemma ordered_at c zs h i : ordered c zs → zs !! h = Some i → at_height c (Z.of_nat h) = Ret (i, sh c i).
Proof.
  intros Ho Hi. destruct (o_at _ _ Ho) as [l El]. unfold at_height, aget. rewrite (proj2 (Z.leb_le 0 _)), Nat2Z.id, El by lia.
  rewrite lookup_app_l by (rewrite length_fmap; by eapply lookup_lt_Some). rewrite list_lookup_fmap, Hi. cbn [fmap option_fmap option_map]. ostep.
  assert (i < length (sheets0 c))%nat as Hl by (rewrite (o_pool _ _ Ho); apply (o_range _ _ Ho); by eapply list_elem_of_lookup_2).
  destruct (lookup_lt_is_Some_2 _ _ Hl) as [s Hs]. rewrite Hs. unfold sh. by rewrite nth_lookup, Hs.
Qed.
Lemma each_layers (F : nat → SHEET → mem → mem) c zs n : ordered c zs → ∀ h m, (h + n <= length zs)%nat →
  each (λ h m, '(i, s) ← at_height c h; Ret (F i s m)) (seqZ (Z.of_nat h) (Z.of_nat n)) m = Ret (foldl (λ m i, F i (sh c i) m) m (take n (drop h zs))).
Proof.
  intros Ho. induction n as [|n IH]; intros h m Hn; [done|]. rewrite seqZ_cons by lia. cbn [each].
  destruct (lookup_lt_is_Some_2 zs h ltac:(lia)) as [i Hi]. rewrite (ordered_at c zs h i Ho Hi). ostep.
  rewrite (drop_S _ _ _ Hi). cbn [take foldl]. rewrite <-(IH (S h)) by lia. f_equal. f_equal; lia.
Qed.
Lemma refreshmap_layers c zs x0 y0 x1 y1 h m : ordered c zs → (h <= length zs)%nat →
  sheet_refreshmap c x0 y0 x1 y1 (Z.of_nat h) m = Ret (map_layers c (sh c) x0 y0 x1 y1 (drop h zs) m).
Proof.
  intros Ho Hh. unfold sheet_refreshmap. rewrite (o_top _ _ Ho). replace (Z.of_nat (length zs) - 1 + 1 - Z.of_nat h) with (Z.of_nat (length zs - h)) by lia.
  rewrite (each_layers (λ i s, for_box (clip c s x0 y0 x1 y1) (map_sheet c i s)) c zs) by (done || lia). rewrite take_ge by (rewrite length_drop; lia). done.
Qed.
Lemma refreshsub_layers c zs x0 y0 x1 y1 h n m : ordered c zs → (h + n <= length zs)%nat →
  sheet_refreshsub c x0 y0 x1 y1 (Z.of_nat h) (Z.of_nat h + Z.of_nat n - 1) m = Ret (draw_layers c (sh c) x0 y0 x1 y1 (take n (drop h zs)) m).
Proof.
  intros Ho Hh. unfold sheet_refreshsub. replace (Z.of_nat h + Z.of_nat n - 1 + 1 - Z.of_nat h) with (Z.of_nat n) by lia.
  by rewrite (each_layers (λ i s, for_box (clip c s x0 y0 x1 y1) (draw_sheet c i s)) c zs) by (done || lia).
Qed.
End order.

(** ** The topmost sheet *)
Section tops.
Context (m : mem) (pool : nat → SHEET) (x y : Z).
Implicit Types (zs A B : list nat).
Lemma top_at_app A B : top_at m pool (A ++ B) x y = match top_at m pool B x y with Some j => Some j | None => top_at m pool A x y end.
Proof. induction A as [|a A IH]; cbn [app top_at]; [by destruct (top_at _ _ B _ _)|]. rewrite IH. by destruct (top_at _ _ B _ _). Qed.
Lemma top_at_Some zs j : top_at m pool zs x y = Some j → j ∈ zs ∧ seen m (pool j) x y = true.
Proof.
  induction zs as [|z zs IH]; cbn [top_at]; [done|]. destruct (top_at _ _ zs _ _) as [k|] eqn:E.
  - intros [= ->]. destruct (IH eq_refl). split; [by apply elem_of_cons; right|done].
  - destruct (seen m (pool z) x y) eqn:Es; [|done]. intros [= ->]. split; [by apply elem_of_cons; left|done].
Qed.
Lemma top_at_ext m' pool' zs : (∀ i, i ∈ zs → seen m' (pool' i) x y = seen m (pool i) x y) → top_at m' pool' zs x y = top_at m pool zs x y.
Proof.
  induction zs as [|z zs IH]; intros He; [done|]. cbn [top_at]. rewrite IH by (intros i Hi; apply He; apply elem_of_cons; by right).
  rewrite He; [done|]. apply elem_of_cons. by left.
Qed.
End tops.

(** ** Repainting *)
Record ready (c : SHTCTL) (zs : list nat) (m : mem) : Prop := {
  r_laid : laid c;
  r_order : ordered c zs;
  r_bufs : ∀ i, i ∈ zs → buf_ok c (sh c i);
  r_bytes : mem_bytes m
}.
Section repaint.
Context (c : SHTCTL) (zs : list nat) (m : mem) (Hr : ready c zs m).
Context (x0 y0 x1 y1 : Z).
Notation rect := (in_rect x0 y0 x1 y1).
Notation T m zs := (top_at m (sh c) zs).
Lemma ready_layers (seg : list nat) : (∀ i, i ∈ seg → i ∈ zs) → ∀ i, i ∈ seg → buf_ok c (sh c i) ∧ (i < 256)%nat.
Proof. intros Hs i Hi. split; [by apply (r_bufs _ _ _ Hr), Hs|]. by apply (o_range _ _ (r_order _ _ _ Hr)), Hs. Qed.
Lemma ready_kept m' : kept c m m' → mem_bytes m' → ready c zs m'.
Proof. intros _ Hm. by destruct Hr. Qed.
Lemma map_phase h : let m1 := map_layers c (sh c) x0 y0 x1 y1 (drop h zs) m in
  (∀ x y j, on_screen c x y → T m zs x y = Some j →
     m1 (map_at c x y) = if rect x y && bool_decide (T m (drop h zs) x y ≠ None) then Z.of_nat j else m (map_at c x y)) ∧
  (∀ a, ¬ in_map c a → m1 a = m a) ∧ mem_bytes m1.
Proof.
  cbv zeta. destruct (map_layers_spec c (r_laid _ _ _ Hr) (sh c) x0 y0 x1 y1 (drop h zs) m) as (H1 & H2 & H3).
  { apply ready_layers. intros i Hi. rewrite <-(take_drop h zs). apply elem_of_app. by right. }
  split; [|split; [done|apply H3; apply Hr]]. intros x y j Hxy Hj. rewrite H1 by done. rewrite <-(take_drop h zs), top_at_app in Hj.
  destruct (T m (drop h zs) x y) as [k|]; [injection Hj as ->; rewrite bool_decide_eq_true_2 by done; by destruct (rect x y)|].
  rewrite bool_decide_eq_false_2 by (intros Hn; by apply Hn). by rewrite andb_false_r.
Qed.
Lemma draw_phase (seg : list nat) : NoDup seg → (∀ i, i ∈ seg → i ∈ zs) → (∀ x y j, on_screen c x y → T m zs x y = Some j → m (map_at c x y) = Z.of_nat j) →
  let m2 := draw_layers c (sh c) x0 y0 x1 y1 seg m in
  (∀ x y j, on_screen c x y → T m zs x y = Some j →
     ld32 m2 (vram_at c x y) = if rect x y && bool_decide (j ∈ seg) then colour m (sh c j) x y else ld32 m (vram_at c x y)) ∧
  (∀ a, ¬ in_vram c a → m2 a = m a) ∧ mem_bytes m2.
Proof.
  intros Hnd Hs Hmap. cbv zeta. destruct (draw_layers_spec c (r_laid _ _ _ Hr) (sh c) x0 y0 x1 y1 seg m Hnd (ready_layers seg Hs) (r_bytes _ _ _ Hr)) as (H1 & H2 & H3 & H4).
  split; [|done]. intros x y j Hxy Hj. pose proof (Hmap _ _ _ Hxy Hj) as Ej. apply top_at_Some in Hj as [_ Hj]. unfold seen in Hj. apply andb_true_iff in Hj as [Hc _].
  destruct (rect x y && bool_decide (j ∈ seg)) eqn:E.
  - apply andb_true_iff in E as [Er Ein%bool_decide_eq_true]. by apply H1.
  - apply H2; [done|]. intros i Hi Ei. rewrite Ej in Ei. apply Nat2Z.inj in Ei as ->. by rewrite bool_decide_eq_true_2, andb_true_r in E by done; rewrite E.
Qed.
End repaint.
(** rectangles of which the map is made again from some height on, then
    rectangles in which some sheets are drawn *)
Definition box : Type := Z * Z * Z * Z.
Definition in_box (b : box) (x y : Z) : bool := let '(x0, y0, x1, y1) := b in in_rect x0 y0 x1 y1 x y.
Definition remap (c : SHTCTL) (zs : list nat) (m : mem) (p : box * nat) : mem :=
  let '(x0, y0, x1, y1, h) := p in map_layers c (sh c) x0 y0 x1 y1 (drop h zs) m.
Definition redraw (c : SHTCTL) (m : mem) (p : box * list nat) : mem :=
  let '(x0, y0, x1, y1, seg) := p in draw_layers c (sh c) x0 y0 x1 y1 seg m.
Section phases.
Context (c : SHTCTL) (zs : list nat) (Hl : laid c).
Implicit Types (m : mem).
Notation T m := (top_at m (sh c)).
Lemma remaps_ok ms : ∀ m, ready c zs m → let m1 := foldl (remap c zs) m ms in ready c zs m1 ∧ (∀ a, ¬ in_map c a → m1 a = m a) ∧
  ∀ x y j, on_screen c x y → T m zs x y = Some j →
    m (map_at c x y) = Z.of_nat j ∨ Exists (λ p, in_box (fst p) x y = true ∧ T m (drop (snd p) zs) x y ≠ None) ms → m1 (map_at c x y) = Z.of_nat j.
Proof.
  induction ms as [|[[[[x0 y0] x1] y1] h] ms IH]; intros m Hr; cbn [foldl remap].
  { split; [done|]. split; [done|]. intros x y j _ _ [?|H%Exists_nil]; done. }
  destruct (map_phase c zs m Hr x0 y0 x1 y1 h) as (M1 & M2 & M3). set (m1 := map_layers _ _ _ _ _ _ _ m) in *.
  assert (kept c m m1) as K1 by (intros a Ha _; by apply M2). pose proof (ready_kept c zs m Hr m1 K1 M3) as Hr1.
  destruct (IH m1 Hr1) as (R1 & R2 & R3). split; [done|]. split; [intros a Ha; by rewrite R2, M2|]. intros x y j Hxy Hj Hor.
  assert (∀ l, (∀ k, k ∈ l → k ∈ zs) → T m1 l x y = T m l x y) as ET by (intros l Hs; apply (top_at_kept c); [intros k Hk; by apply (r_bufs _ _ _ Hr), Hs|done]).
  apply (R3 x y j Hxy); [by rewrite ET|]. rewrite (M1 x y j Hxy Hj). destruct Hor as [E|[[H1 H2]|He]%Exists_cons]; cbn [fst snd in_box] in *.
  - left. by case_if.
  - left. by rewrite H1, bool_decide_eq_true_2.
  - destruct (in_rect _ _ _ _ _ _ && _); [by left|]. right. eapply Exists_impl; [exact He|]. intros [b k] [Hb Hk]. split; [done|]. cbn [snd] in *. rewrite ET; [done|].
    intros z Hz. rewrite <-(take_drop k zs). apply elem_of_app. by right.
Qed.
Lemma redraws_ok ds : ∀ m, ready c zs m → (∀ x y j, on_screen c x y → T m zs x y = Some j → m (map_at c x y) = Z.of_nat j) →
  Forall (λ p : box * list nat, NoDup (snd p) ∧ ∀ k, k ∈ snd p → k ∈ zs) ds → let m2 := foldl (redraw c) m ds in
  mem_bytes m2 ∧ (∀ a, ¬ in_vram c a → m2 a = m a) ∧
  ∀ x y j, on_screen c x y → T m zs x y = Some j →
    ld32 m (vram_at c x y) = colour m (sh c j) x y ∨ Exists (λ p, in_box (fst p) x y = true ∧ j ∈ snd p) ds → ld32 m2 (vram_at c x y) = colour m (sh c j) x y.
Proof.
  induction ds as [|[[[[x0 y0] x1] y1] seg] ds IH]; intros m Hr Hmap Hds; cbn [foldl redraw].
  { split; [apply Hr|]. split; [done|]. intros x y j _ _ [?|H%Exists_nil]; done. }
  apply Forall_cons in Hds as [[Hnd Hs] Hds]. destruct (draw_phase c zs m Hr x0 y0 x1 y1 seg Hnd Hs Hmap) as (D1 & D2 & D3). set (m1 := draw_layers _ _ _ _ _ _ _ m) in *.
  assert (kept c m m1) as K1 by (intros a _ Ha; by apply D2). pose proof (ready_kept c zs m Hr m1 K1 D3) as Hr1.
  assert (∀ x y, T m1 zs x y = T m zs x y) as ET by (intros x y; apply (top_at_kept c); [apply Hr|done]).
  assert (∀ x y j, on_screen c x y → T m1 zs x y = Some j → m1 (map_at c x y) = Z.of_nat j) as Hmap1.
  { intros x y j Hxy Hj. rewrite ET in Hj. rewrite D2 by (apply (l_apart c Hl), map_at_in; done). by apply Hmap. }
  destruct (IH m1 Hr1 Hmap1 Hds) as (R1 & R2 & R3). split; [done|]. split; [intros a Ha; by rewrite R2, D2|]. intros x y j Hxy Hj Hor.
  pose proof (top_at_Some _ _ _ _ _ _ Hj) as [Hin Hseen]. unfold seen in Hseen. apply andb_true_iff in Hseen as [Hc _].
  assert (colour m1 (sh c j) x y = colour m (sh c j) x y) as Ec by (apply (colour_kept c); [by apply (r_bufs _ _ _ Hr)|done|done]). rewrite <-Ec.
  apply (R3 x y j Hxy); [by rewrite ET|]. rewrite Ec, (D1 x y j Hxy Hj). destruct Hor as [E|[[H1 H2]|He]%Exists_cons]; cbn [fst snd in_box] in *.
  - left. by case_if.
  - left. by rewrite H1, bool_decide_eq_true_2.
  - destruct (in_rect _ _ _ _ _ _ && _); [by left|by right].
Qed.
(** all phases together *)
Lemma repaint m ms ds : ready c zs m → Forall (λ p : box * list nat, NoDup (snd p) ∧ ∀ k, k ∈ snd p → k ∈ zs) ds →
  (∀ x y j, on_screen c x y → T m zs x y = Some j →
     (m (map_at c x y) = Z.of_nat j ∨ Exists (λ p, in_box (fst p) x y = true ∧ T m (drop (snd p) zs) x y ≠ None) ms) ∧
     (ld32 m (vram_at c x y) = colour m (sh c j) x y ∨ Exists (λ p, in_box (fst p) x y = true ∧ j ∈ snd p) ds)) →
  let m2 := foldl (redraw c) (foldl (remap c zs) m ms) ds in shows c zs m2 ∧ kept c m m2 ∧ mem_bytes m2.
Proof.
  intros Hr Hds Hpt. cbv zeta. destruct (remaps_ok ms m Hr) as (Hr1 & M2 & M3). set (m1 := foldl _ m ms) in *.
  assert (kept c m m1) as K1 by (intros a Ha _; by apply M2).
  assert (∀ x y, T m1 zs x y = T m zs x y) as ET by (intros x y; apply (top_at_kept c); [apply Hr|done]).
  assert (∀ x y j, on_screen c x y → T m1 zs x y = Some j → m1 (map_at c x y) = Z.of_nat j) as Hmap.
  { intros x y j Hxy Hj. rewrite ET in Hj. apply (M3 x y j Hxy Hj). by apply Hpt. }
  destruct (redraws_ok ds m1 Hr1 Hmap Hds) as (D1 & D2 & D3). set (m2 := foldl _ m1 ds) in *.
  assert (kept c m m2) as K by (eapply kept_trans; [exact K1|intros a _ Ha; by apply D2]).
  split; [|done]. intros x y j Hxy Hj. rewrite (top_at_kept c m m2) in Hj by (done || apply Hr).
  assert (T m1 zs x y = Some j) as Hj1 by (by rewrite ET). pose proof (top_at_Some _ _ _ _ _ _ Hj) as [Hin Hseen]. unfold seen in Hseen. apply andb_true_iff in Hseen as [Hc _].
  pose proof (r_bufs _ _ _ Hr j Hin) as Hb. rewrite (colour_kept c m m2) by done. split.
  - rewrite D2 by (apply (l_apart c Hl), map_at_in; done). by apply Hmap.
  - rewrite <-(colour_kept c m m1) by done. apply (D3 x y j Hxy Hj1). rewrite (colour_kept c m m1) by done.
    assert (ld32 m1 (vram_at c x y) = ld32 m (vram_at c x y)) as ->; [|by apply Hpt].
    unfold ld32. f_equal. apply mread_ext. intros a Ha. apply M2. intros Hm. apply (l_apart c Hl a Hm). pose proof (vram_at_in c Hl x y Hxy). unfold in_vram. lia.
Qed.
End phases.

(** ** Points that change their topmost sheet *)
Section changes.
Context (m : mem) (pool : nat → SHEET) (x y : Z) (i : nat).
Implicit Types (A B C : list nat).
Notation T zs := (top_at m pool zs x y).
Notation S := (seen m (pool i) x y).
(** what repainting needs: the new order, its part from the lowest changed
    height on, the sheets drawn, the old order *)
Definition covered (new from seg old : list nat) : Prop := ∀ j, T new = Some j →
  (S = true ∧ T from ≠ None ∨ T old = Some j) ∧ (S = true ∧ j ∈ seg ∨ T old = Some j).
Ltac tops := unfold covered; intros j; rewrite ?top_at_app; cbn [top_at]; rewrite ?top_at_app;
  repeat match goal with |- context [T ?A] => let E := fresh "E" in destruct (T A) eqn:E; try apply top_at_Some in E as [E _] end;
  destruct S; intros Hj; simplify_eq; try (split; auto); set_solver.
Lemma lower_covered A B C : covered (A ++ i :: B ++ C) (i :: B ++ C) B (A ++ B ++ i :: C).
Proof. tops. Qed.
Lemma raise_covered A B C : covered (A ++ B ++ i :: C) (i :: C) [i] (A ++ i :: B ++ C).
Proof. tops. Qed.
Lemma show_covered A C : covered (A ++ i :: C) (i :: C) [i] (A ++ C).
Proof. tops. Qed.
Lemma hide_covered A C : covered (A ++ C) (A ++ C) (A ++ C) (A ++ i :: C).
Proof. tops. Qed.
End changes.

(** ** Changing the order *)
Section updown.
Implicit Types (c : SHTCTL) (zs A B C : list nat).
Lemma alike_seen c c' m j x y : alike c c' → seen m (sh c' j) x y = seen m (sh c j) x y ∧ colour m (sh c' j) x y = colour m (sh c j) x y.
Proof. intros (_ & _ & _ & H). by rewrite (H j). Qed.
Lemma alike_buf c c' j : alike c c' → buf_ok c (sh c j) → buf_ok c' (sh c' j).
Proof. intros ((E1 & E2 & E3 & E4 & E5) & _ & _ & H). rewrite (H j). unfold buf_ok, in_map, in_vram. by rewrite E1, E2, E3, E4, E5. Qed.
Lemma alike_laid c c' : alike c c' → laid c → laid c'.
Proof. intros ((E1 & E2 & E3 & E4 & E5) & _) [? ? ?]. unfold in_map, in_vram in *. split; unfold in_map, in_vram; by rewrite ?E1, ?E2, ?E3, ?E4, ?E5. Qed.
Lemma paint_ok c zs c' zs' m i h h1 n : ready c zs m → shows c zs m → alike c c' → ordered c' zs' → (∀ j, j ∈ zs' → buf_ok c (sh c j)) →
  (h <= length zs')%nat → (h1 + n <= length zs')%nat → (∀ x y, covered m (sh c) x y i zs' (drop h zs') (take n (drop h1 zs')) zs) →
  let s := sh c i in
  ∃ m', (m ← sheet_refreshmap c' (vx0 s) (vy0 s) (vx0 s + bxsize s) (vy0 s + bysize s) (Z.of_nat h) m;
         m ← sheet_refreshsub c' (vx0 s) (vy0 s) (vx0 s + bxsize s) (vy0 s + bysize s) (Z.of_nat h1) (Z.of_nat h1 + Z.of_nat n - 1) m;
         Ret (c', m)) = Ret (c', m') ∧ shows c' zs' m' ∧ kept c m m' ∧ mem_bytes m'.
Proof.
  intros Hr Hsh Ha Ho Hb Hh Hn Hcov. cbv zeta. rewrite (refreshmap_layers c' zs') by done. ostep. rewrite (refreshsub_layers c' zs') by done. ostep.
  eexists. split; [done|]. pose proof Ha as ((E1 & E2 & E3 & E4 & E5) & _).
  assert (∀ a b, kept c' a b → kept c a b) as Hk by (intros a b Hk z Hz1 Hz2; apply Hk; unfold in_map, in_vram in *; by rewrite ?E1, ?E2, ?E3, ?E4, ?E5).
  set (b := (vx0 (sh c i), vy0 (sh c i), vx0 (sh c i) + bxsize (sh c i), vy0 (sh c i) + bysize (sh c i))).
  assert (take n (drop h1 zs') `sublist_of` zs') as Hsub by (etrans; [apply sublist_take|apply sublist_drop]).
  destruct (repaint c' zs' (alike_laid c c' Ha (r_laid _ _ _ Hr)) m [(b, h)] [(b, take n (drop h1 zs'))]) as (R1 & R2 & R3).
  - split; [apply (alike_laid c); [done|apply Hr]|done| |apply Hr]. intros j Hj. apply (alike_buf c); [done|by apply Hb].
  - apply Forall_singleton. cbn [snd]. split; [by eapply sublist_NoDup; [apply (o_nodup _ _ Ho)|]|]. intros k Hin. by eapply elem_of_sublist.
  - intros x y j Hxy Hj. assert (∀ l, top_at m (sh c') l x y = top_at m (sh c) l x y) as ET by (intros l; apply top_at_ext; intros k _; by apply alike_seen).
    rewrite !ET in *. destruct (Hcov x y j Hj) as [H1 H2].
    assert (seen m (sh c i) x y = true → in_rect (vx0 (sh c i)) (vy0 (sh c i)) (vx0 (sh c i) + bxsize (sh c i)) (vy0 (sh c i) + bysize (sh c i)) x y = true) as Hin.
    { unfold seen. rewrite andb_true_iff. intros [Hc _]. exact Hc. }
    assert (top_at m (sh c) zs x y = Some j → m (map_at c' x y) = Z.of_nat j ∧ ld32 m (vram_at c' x y) = colour m (sh c' j) x y) as Hold.
    { intros E. destruct (Hsh x y j) as [S1 S2]; [|done|]; [unfold on_screen in *; by rewrite <-E3, <-E4|]. rewrite (proj2 (alike_seen c c' m j x y Ha)).
      unfold map_at, vram_at in *. by rewrite E1, E2, E3, E5. }
    rewrite !Exists_cons, !Exists_nil. cbn [fst snd in_box b]. rewrite ET. naive_solver.
  - split; [done|]. split; [by apply Hk|done].
Qed.
Lemma ordered_from c zs c' zs' : ordered c zs → alike c c' → top c' = Z.of_nat (length zs') - 1 → NoDup zs' →
  (∀ j, j ∈ zs' → (j < 256)%nat ∧ flags (sh c j) ≠ 0) → (∃ l, sheets c' = (Some <$> zs') ++ l) → heights_from c' 0 zs' →
  (∀ j, (j < 256)%nat → flags (sh c j) ≠ 0 → j ∉ zs' → height (sh c' j) = -1) → ordered c' zs'.
Proof.
  intros Ho (_ & Hl1 & Hl2 & Hf) Ht Hnd Hin Hs Hh Hhid. assert (∀ j, flags (sh c' j) = flags (sh c j)) as Ef by (intros j; by rewrite Hf).
  split; [rewrite Hl1; apply Ho|rewrite Hl2; apply Ho|done|done|intros j Hj; by apply Hin|done|done| |].
  - intros j Hj Hfj. rewrite Ef in Hfj. by apply Hhid.
  - intros j Hj. rewrite Ef. by apply Hin.
Qed.
Lemma ordered_in c zs j : ordered c zs → j ∈ zs → (j < 256)%nat ∧ flags (sh c j) ≠ 0.
Proof. intros Ho Hj. split; [by apply (o_range _ _ Ho)|by apply (o_used _ _ Ho)]. Qed.
(** the moves, after the height of sheet [i] was set *)
Lemma moved_alike c i h c1 n B : (i < length (sheets0 c))%nat → moved (upd i (set_height h) c) c1 n B →
  alike c c1 ∧ top c1 = top c ∧ heights_from c1 n B ∧ (i ∉ B → height (sh c1 i) = h) ∧ ∀ j, j ∉ B → j ≠ i → sh c1 j = sh c j.
Proof.
  intros Hi (Ha & Ht & Hh & Ho). split; [eapply alike_trans; [by apply alike_upd|exact Ha]|]. split; [done|]. split; [done|]. split.
  - intros Hn. by rewrite Ho, sh_upd, decide_True by done.
  - intros j Hj Hne. by rewrite Ho, sh_upd, decide_False by done.
Qed.
Lemma put_sheet_app c P y R i : sheets c = P ++ y :: R → put_sheet (Z.of_nat (length P)) i c = Ret (set_sheets (P ++ Some i :: R) c).
Proof. intros E. unfold put_sheet. rewrite E, aset_app. done. Qed.
Lemma alike_set_sheets c c1 l t : alike c c1 → length l = length (sheets c1) → alike c (set_top t (set_sheets l c1)).
Proof. intros (Hs & Hl & Hp & Hf) E. split; [done|]. split; [cbn; congruence|]. by split. Qed.
Lemma sh_set_sheets c l t : sh (set_top t (set_sheets l c)) = sh c.
Proof. done. Qed.
Lemma each_shift a n c : each (λ k, move_sheet k (k - 1)) (rev (seqZ (a + 1) n)) c = each (λ k, move_sheet (k + 1) k) (rev (seqZ a n)) c.
Proof.
  assert (rev (seqZ (a + 1) n) = Z.add 1 <$> rev (seqZ a n)) as ->.
  { replace (a + 1) with (1 + a) by lia. rewrite <-fmap_add_seqZ. symmetry. apply map_rev. }
  rewrite each_fmap. generalize (rev (seqZ a n)). intros l. revert c. induction l as [|k l IH]; intros c; [done|]. cbn [each].
  replace (1 + k) with (k + 1) by lia. replace (k + 1 - 1) with k by lia. destruct (move_sheet (k + 1) k c); ostep; [apply IH|done..].
Qed.
Ltac nodup H := rewrite ?NoDup_app, ?NoDup_cons, ?NoDup_app in H; set_solver.
Lemma lower_order c A B C i : ordered c (A ++ B ++ i :: C) → ∃ c1 c2,
  each (λ k, move_sheet k (k - 1)) (rev (seqZ (Z.of_nat (length A) + 1) (Z.of_nat (length B)))) (upd i (set_height (Z.of_nat (length A))) c) = Ret c1 ∧
  put_sheet (Z.of_nat (length A)) i c1 = Ret c2 ∧ alike c c2 ∧ ordered c2 (A ++ i :: B ++ C).
Proof.
  intros Ho. pose proof (o_nodup _ _ Ho) as Hnd. destruct (o_at _ _ Ho) as [l El]. rewrite !fmap_app, <-!app_assoc in El. cbn [fmap list_fmap app] in El.
  assert (∀ j, j ∈ A ++ B ++ i :: C → (j < length (sheets0 c))%nat) as Hlt by (intros j Hj; rewrite (o_pool _ _ Ho); by apply (o_range _ _ Ho)).
  destruct (moves_up B (upd i (set_height (Z.of_nat (length A))) c) (Some <$> A) (Some i) ((Some <$> C) ++ l) El) as (c1 & y & E & Es & Hm).
  { nodup Hnd. } { intros j Hj. cbn [sheets0 upd set_pool]. rewrite length_alter. apply Hlt. set_solver. }
  rewrite length_fmap in E, Hm. apply moved_alike in Hm as (Ha & Ht & Hh & Hhi & Hoth); [|apply Hlt; set_solver].
  exists c1, (set_sheets ((Some <$> A) ++ Some i :: (Some <$> B) ++ (Some <$> C) ++ l) c1).
  split; [|split].
  - by rewrite each_shift.
  - rewrite <-(length_fmap Some A). by apply put_sheet_app with (y := y).
  - assert (alike c (set_sheets ((Some <$> A) ++ Some i :: (Some <$> B) ++ (Some <$> C) ++ l) c1)) as Ha2.
    { apply (alike_set_sheets c c1 _ (top c1)); [done|]. rewrite Es, !length_app. cbn [length]. done. }
    split; [done|]. pose proof (o_height _ _ Ho) as Hhs. rewrite !heights_app in Hhs. cbn [heights_from] in Hhs. destruct Hhs as (HA & HB & _ & HC).
    apply (ordered_from c _ _ _ Ho Ha2); [cbn [top set_sheets]; rewrite Ht, (o_top _ _ Ho), !length_app; cbn [length]; rewrite !length_app; lia|by rewrite Permutation_middle| | | |].
    + intros j Hj. apply (ordered_in _ _ _ Ho). set_solver.
    + exists l. cbn [sheets set_sheets]. rewrite fmap_app, fmap_cons, fmap_app, <-app_assoc. cbn [app]. by rewrite <-app_assoc.
    + rewrite heights_app. split; [apply (heights_ext c); [|done]; intros j Hj; apply Hoth; nodup Hnd|]. cbn [heights_from].
      change (0 + length A)%nat with (length A) in *. split; [apply Hhi; nodup Hnd|]. rewrite heights_app. split; [apply (heights_ext c1); [done|]; by rewrite Nat.add_1_r in Hh|].
      apply (heights_ext c); [intros j Hj; apply Hoth; nodup Hnd|]. by rewrite Nat.add_succ_l.
    + intros j Hj Hf Hn. rewrite <-(o_hidden _ _ Ho j) by (done || set_solver). f_equal. apply Hoth; set_solver.
Qed.
Lemma raise_order c A B C i : ordered c (A ++ i :: B ++ C) → let h := Z.of_nat (length A + length B) in ∃ c1 c2,
  each (λ k, move_sheet k (k + 1)) (seqZ (Z.of_nat (length A)) (Z.of_nat (length B))) (upd i (set_height h) c) = Ret c1 ∧
  put_sheet h i c1 = Ret c2 ∧ alike c c2 ∧ ordered c2 (A ++ B ++ i :: C).
Proof.
  intros Ho. cbv zeta. pose proof (o_nodup _ _ Ho) as Hnd. destruct (o_at _ _ Ho) as [l El]. rewrite fmap_app, fmap_cons, fmap_app, <-app_assoc in El. cbn [app] in El. rewrite <-app_assoc in El.
  assert (∀ j, j ∈ A ++ i :: B ++ C → (j < length (sheets0 c))%nat) as Hlt by (intros j Hj; rewrite (o_pool _ _ Ho); by apply (o_range _ _ Ho)).
  destruct (moves_down B (upd i (set_height (Z.of_nat (length A + length B))) c) (Some <$> A) (Some i) ((Some <$> C) ++ l) El) as (c1 & y & E & Es & Hm).
  { nodup Hnd. } { intros j Hj. cbn [sheets0 upd set_pool]. rewrite length_alter. apply Hlt. set_solver. }
  rewrite length_fmap in E, Hm. apply moved_alike in Hm as (Ha & Ht & Hh & Hhi & Hoth); [|apply Hlt; set_solver].
  rewrite app_assoc in Es. exists c1, (set_sheets (((Some <$> A) ++ (Some <$> B)) ++ Some i :: (Some <$> C) ++ l) c1). split; [done|]. split.
  { replace (length A + length B)%nat with (length ((Some <$> A) ++ (Some <$> B))) by (by rewrite length_app, !length_fmap). by apply put_sheet_app with (y := y). }
  assert (alike c (set_sheets (((Some <$> A) ++ (Some <$> B)) ++ Some i :: (Some <$> C) ++ l) c1)) as Ha2.
  { apply (alike_set_sheets c c1 _ (top c1)); [done|]. rewrite Es, !length_app. cbn [length]. done. }
  split; [done|]. pose proof (o_height _ _ Ho) as Hhs. rewrite heights_app in Hhs. cbn [heights_from] in Hhs. rewrite heights_app in Hhs. destruct Hhs as (HA & _ & HB & HC).
  apply (ordered_from c _ _ _ Ho Ha2); [cbn [top set_sheets]; rewrite Ht, (o_top _ _ Ho), !length_app; cbn [length]; rewrite !length_app; cbn [length]; lia|by rewrite <-Permutation_middle| | | |].
  - intros j Hj. apply (ordered_in _ _ _ Ho). set_solver.
  - exists l. cbn [sheets set_sheets]. by rewrite !fmap_app, fmap_cons, <-!app_assoc.
  - rewrite !heights_app. change (0 + length A)%nat with (length A) in *. split; [apply (heights_ext c); [|done]; intros j Hj; apply Hoth; nodup Hnd|].
    split; [by apply (heights_ext c1)|]. cbn [heights_from]. split; [apply Hhi; nodup Hnd|].
    apply (heights_ext c); [intros j Hj; apply Hoth; nodup Hnd|]. by rewrite Nat.add_succ_l in HC.
  - intros j Hj Hf Hn. rewrite <-(o_hidden _ _ Ho j) by (done || set_solver). f_equal. apply Hoth; set_solver.
Qed.
Lemma hide_order c A C i : ordered c (A ++ i :: C) → ∃ c1,
  each (λ k, move_sheet k (k + 1)) (seqZ (Z.of_nat (length A)) (Z.of_nat (length C))) (upd i (set_height (-1)) c) = Ret c1 ∧
  top c1 = top c ∧ alike c (set_top (top c1 - 1) c1) ∧ ordered (set_top (top c1 - 1) c1) (A ++ C).
Proof.
  intros Ho. pose proof (o_nodup _ _ Ho) as Hnd. destruct (o_at _ _ Ho) as [l El]. rewrite fmap_app, fmap_cons, <-app_assoc in El. cbn [app] in El.
  assert (∀ j, j ∈ A ++ i :: C → (j < length (sheets0 c))%nat) as Hlt by (intros j Hj; rewrite (o_pool _ _ Ho); by apply (o_range _ _ Ho)).
  destruct (moves_down C (upd i (set_height (-1)) c) (Some <$> A) (Some i) l El) as (c1 & y & E & Es & Hm).
  { nodup Hnd. } { intros j Hj. cbn [sheets0 upd set_pool]. rewrite length_alter. apply Hlt. set_solver. }
  rewrite length_fmap in E, Hm. apply moved_alike in Hm as (Ha & Ht & Hh & Hhi & Hoth); [|apply Hlt; set_solver].
  exists c1. split; [done|]. split; [done|].
  assert (alike c (set_top (top c1 - 1) c1)) as Ha2 by (apply (alike_set_sheets c c1 (sheets c1)); done).
  split; [done|]. pose proof (o_height _ _ Ho) as Hhs. rewrite heights_app in Hhs. cbn [heights_from] in Hhs. destruct Hhs as (HA & _ & HC).
  apply (ordered_from c _ _ _ Ho Ha2); [cbn [top set_top]; rewrite Ht, (o_top _ _ Ho), !length_app; cbn [length]; lia|nodup Hnd || by eapply NoDup_cons_1_2; rewrite Permutation_middle| | | |].
  - intros j Hj. apply (ordered_in _ _ _ Ho). set_solver.
  - exists (y :: l). cbn [sheets set_top]. by rewrite Es, fmap_app, <-app_assoc.
  - rewrite heights_app. change (0 + length A)%nat with (length A) in *. split; [apply (heights_ext c); [|done]; intros j Hj; apply Hoth; nodup Hnd|]. by apply (heights_ext c1).
  - intros j Hj Hf Hn. destruct (decide (j = i)) as [->|Hne]; [apply Hhi; nodup Hnd|].
    rewrite <-(o_hidden _ _ Ho j) by (done || set_solver). f_equal. apply Hoth; set_solver.
Qed.
(** there is room for a sheet that is not shown *)
Lemma hidden_room (zs : list nat) i : NoDup zs → (∀ j, j ∈ zs → (j < 256)%nat) → (i < 256)%nat → i ∉ zs → (length zs < 256)%nat.
Proof.
  intros Hnd Hr Hi Hn. assert (i :: zs ⊆+ seq 0 256) as Hs.
  { apply NoDup_submseteq; [by apply NoDup_cons|]. intros j [->|Hj]%elem_of_cons; apply elem_of_seq; [lia|]. specialize (Hr j Hj). lia. }
  apply submseteq_length in Hs. rewrite length_seq in Hs. cbn [length] in Hs. lia.
Qed.
Lemma show_order c A C i : ordered c (A ++ C) → i ∉ A ++ C → (i < 256)%nat → flags (sh c i) ≠ 0 → ∃ c1 c2,
  each (λ k, move_sheet (k + 1) k) (rev (seqZ (Z.of_nat (length A)) (Z.of_nat (length C)))) (upd i (set_height (Z.of_nat (length A))) c) = Ret c1 ∧
  put_sheet (Z.of_nat (length A)) i c1 = Ret c2 ∧ alike c (set_top (top c2 + 1) c2) ∧ ordered (set_top (top c2 + 1) c2) (A ++ i :: C).
Proof.
  intros Ho Hni Hi Hfl. pose proof (o_nodup _ _ Ho) as Hnd. destruct (o_at _ _ Ho) as [l El]. rewrite fmap_app, <-app_assoc in El.
  pose proof (hidden_room _ i Hnd (o_range _ _ Ho) Hi Hni) as Hroom.
  destruct l as [|x l]. { pose proof (o_sheets _ _ Ho) as Hl. rewrite El, !length_app, !length_fmap in Hl. rewrite length_app in Hroom. cbn [length] in Hl. lia. }
  assert (∀ j, j ∈ A ++ C → (j < length (sheets0 c))%nat) as Hlt by (intros j Hj; rewrite (o_pool _ _ Ho); by apply (o_range _ _ Ho)).
  destruct (moves_up C (upd i (set_height (Z.of_nat (length A))) c) (Some <$> A) x l El) as (c1 & y & E & Es & Hm).
  { nodup Hnd. } { intros j Hj. cbn [sheets0 upd set_pool]. rewrite length_alter. apply Hlt. set_solver. }
  rewrite length_fmap in E, Hm. apply moved_alike in Hm as (Ha & Ht & Hh & Hhi & Hoth); [|rewrite (o_pool _ _ Ho); done].
  exists c1, (set_sheets ((Some <$> A) ++ Some i :: (Some <$> C) ++ l) c1). split; [done|]. split.
  { rewrite <-(length_fmap Some A). by apply put_sheet_app with (y := y). }
  set (c2 := set_sheets _ c1). assert (alike c (set_top (top c2 + 1) c2)) as Ha2.
  { apply (alike_set_sheets c c1); [done|]. rewrite Es, !length_app. cbn [length]. done. }
  split; [done|]. pose proof (o_height _ _ Ho) as Hhs. rewrite heights_app in Hhs. destruct Hhs as (HA & HC).
  apply (ordered_from c _ _ _ Ho Ha2); [cbn [top set_top c2 set_sheets]; rewrite Ht, (o_top _ _ Ho), !length_app; cbn [length]; lia|rewrite <-Permutation_middle; by apply NoDup_cons| | | |].
  - intros j Hj. destruct (decide (j = i)) as [->|]; [done|]. apply (ordered_in _ _ _ Ho). set_solver.
  - exists l. cbn [sheets set_top c2 set_sheets]. by rewrite fmap_app, fmap_cons, <-app_assoc.
  - rewrite heights_app. change (0 + length A)%nat with (length A) in *. split; [apply (heights_ext c); [|done]; intros j Hj; apply Hoth; nodup Hnd|].
    cbn [heights_from]. split; [apply Hhi; set_solver|]. apply (heights_ext c1); [done|]. by rewrite Nat.add_1_r in Hh.
  - intros j Hj Hf Hn. rewrite <-(o_hidden _ _ Ho j) by (done || set_solver). f_equal. apply Hoth; set_solver.
Qed.
(** the order after sheet [i] is put at height [h], or hidden *)
Definition reorder (i : nat) (h : Z) (zs : list nat) : list nat :=
  let rest := filter (λ j, j ≠ i) zs in
  if h <? 0 then rest else take (Z.to_nat h) rest ++ i :: drop (Z.to_nat h) rest.
Lemma filter_absent (i : nat) zs : i ∉ zs → filter (λ j, j ≠ i) zs = zs.
Proof. induction zs as [|z zs IH]; [done|]. intros [H1 H2]%not_elem_of_cons. rewrite filter_cons_True by done. by rewrite IH. Qed.
Lemma upd_same c i s : sheets0 c !! i = Some s → upd i (set_height (height s)) c = c.
Proof.
  intros Hs. unfold upd. assert (alter (set_height (height s)) i (sheets0 c) = sheets0 c) as ->; [|by destruct c].
  apply list_eq. intros j. destruct (decide (j = i)) as [->|Hne]; [|by rewrite list_lookup_alter_ne]. rewrite list_lookup_alter_eq, Hs. cbn. by rewrite set_height_id.
Qed.
Lemma sh_lookup c zs i : ordered c zs → (i < 256)%nat → sheets0 c !! i = Some (sh c i).
Proof. intros Ho Hi. destruct (lookup_lt_is_Some_2 (sheets0 c) i) as [s Hs]; [by rewrite (o_pool _ _ Ho)|]. unfold sh. by rewrite nth_lookup, Hs. Qed.
(** what an operation achieves *)
Definition achieves (c : SHTCTL) (m : mem) (r : outcome (SHTCTL * mem)) (zs : list nat) : Prop :=
  ∃ c' m', r = Ret (c', m') ∧ alike c c' ∧ ordered c' zs ∧ shows c' zs m' ∧ kept c m m' ∧ mem_bytes m'.
Section cases.
Context (c : SHTCTL) (m : mem) (i : nat).
Lemma hide_case A C : ready c (A ++ i :: C) m → shows c (A ++ i :: C) m → (i < 256)%nat → buf_ok c (sh c i) →
  achieves c m (sheet_updown i (-1) c m) (A ++ C).
Proof.
  intros Hr Hs Hi Hb. pose proof (r_order _ _ _ Hr) as Ho. unfold sheet_updown. rewrite (sh_lookup c _ i Ho Hi).
  assert (height (sh c i) = Z.of_nat (length A)) as Eh by (apply (heights_lookup c 0 (A ++ i :: C) (length A)); [apply Ho|by rewrite lookup_app_r, Nat.sub_diag by lia]).
  cbv zeta. rewrite (proj2 (Z.ltb_ge (top c + 1) (-1))) by (rewrite (o_top _ _ Ho); lia). change (-1 <? -1) with false. cbn iota. rewrite Eh, (proj2 (Z.ltb_lt (-1) _)) by lia.
  change (0 <=? -1) with false. cbn iota. destruct (hide_order c A C i Ho) as (c1 & E & Et & Ha & Ho').
  assert ((if Z.of_nat (length A) <? top (upd i (set_height (-1)) c) then each (λ k, move_sheet k (k + 1)) (seqZ (Z.of_nat (length A)) (top (upd i (set_height (-1)) c) - Z.of_nat (length A))) (upd i (set_height (-1)) c) else Ret (upd i (set_height (-1)) c)) = Ret c1) as ->.
  { cbn [top upd set_pool]. rewrite (o_top _ _ Ho), length_app. cbn [length]. replace (Z.of_nat (length A + S (length C)) - 1 - Z.of_nat (length A)) with (Z.of_nat (length C)) by lia.
    case_if; [done|]. assert (length C = 0%nat) as Hz by lia. rewrite Hz in E. done. }
  ostep. set (c2 := set_top (top c1 - 1) c1) in *.
  destruct (paint_ok c (A ++ i :: C) c2 (A ++ C) m i 0 0 (length (A ++ C)) Hr Hs Ha Ho') as (m' & E' & H1 & H2 & H3); [|lia|lia| |].
  - intros j Hj. apply (r_bufs _ _ _ Hr). set_solver.
  - intros x y. rewrite drop_0, take_ge by done. apply hide_covered.
  - exists c2, m'. split; [|done]. rewrite <-E'. rewrite (o_top _ _ Ho'). done.
Qed.
Lemma updown_clamp h : -1 <= top c → sheet_updown i h c m = sheet_updown i (Z.max (-1) (Z.min h (top c + 1))) c m.
Proof.
  intros Ht. unfold sheet_updown. destruct (sheets0 c !! i) as [s|]; [|done]. cbv zeta.
  assert (∀ a, (if (if top c + 1 <? a then top c + 1 else a) <? -1 then -1 else if top c + 1 <? a then top c + 1 else a) = Z.max (-1) (Z.min a (top c + 1))) as Hc.
  { intros a. destruct (Z.ltb_spec (top c + 1) a), (Z.ltb_spec a (-1)), (Z.ltb_spec (top c + 1) (-1)); lia. }
  rewrite !Hc. by replace (Z.max (-1) (Z.min (Z.max (-1) (Z.min h (top c + 1))) (top c + 1))) with (Z.max (-1) (Z.min h (top c + 1))) by lia.
Qed.
(** the start of [sheet_updown] at a height that needs no clamping *)
Ltac updown_start Ho Hi n :=
  unfold sheet_updown; rewrite (sh_lookup c _ i Ho Hi); cbv zeta;
  rewrite (proj2 (Z.ltb_ge (top c + 1) n)) by (rewrite (o_top _ _ Ho), ?length_app; cbn [length]; rewrite ?length_app; lia); rewrite (proj2 (Z.ltb_ge n (-1))) by lia; cbn iota.
Lemma height_at A C : ordered c (A ++ i :: C) → height (sh c i) = Z.of_nat (length A).
Proof. intros Ho. apply (heights_lookup c 0 (A ++ i :: C) (length A)); [apply Ho|by rewrite lookup_app_r, Nat.sub_diag by lia]. Qed.
Lemma lower_case A B C : ready c (A ++ B ++ i :: C) m → shows c (A ++ B ++ i :: C) m → B ≠ [] → (i < 256)%nat →
  achieves c m (sheet_updown i (Z.of_nat (length A)) c m) (A ++ i :: B ++ C).
Proof.
  intros Hr Hs HB Hi. pose proof (r_order _ _ _ Hr) as Ho. assert (0 < length B)%nat by (destruct B; [done|cbn [length]; lia]).
  updown_start Ho Hi (Z.of_nat (length A)). pose proof Ho as Ho1. rewrite app_assoc in Ho1. rewrite (height_at (A ++ B) C Ho1), length_app, (proj2 (Z.ltb_lt _ _)), (proj2 (Z.leb_le 0 _)) by lia.
  destruct (lower_order c A B C i Ho) as (c1 & c2 & E1 & E2 & Ha & Ho').
  replace (Z.of_nat (length A + length B) - Z.of_nat (length A)) with (Z.of_nat (length B)) by lia. rewrite E1. ostep. rewrite E2. ostep.
  destruct (paint_ok c (A ++ B ++ i :: C) c2 (A ++ i :: B ++ C) m i (length A) (length A + 1) (length B) Hr Hs Ha Ho') as (m' & E' & H1 & H2 & H3).
  - intros j Hj. apply (r_bufs _ _ _ Hr). set_solver.
  - rewrite length_app. lia.
  - rewrite length_app. cbn [length]. rewrite length_app. lia.
  - intros x y. rewrite drop_app_length, drop_app_add. change (drop 1 (i :: B ++ C)) with (B ++ C). rewrite take_app_length. apply lower_covered.
  - exists c2, m'. split; [|done]. rewrite <-E'. replace (Z.of_nat (length A) + 1) with (Z.of_nat (length A + 1)) by lia.
    by replace (Z.of_nat (length A + length B)) with (Z.of_nat (length A + 1) + Z.of_nat (length B) - 1) by lia.
Qed.
Lemma raise_case A B C : ready c (A ++ i :: B ++ C) m → shows c (A ++ i :: B ++ C) m → B ≠ [] → (i < 256)%nat →
  achieves c m (sheet_updown i (Z.of_nat (length A + length B)) c m) (A ++ B ++ i :: C).
Proof.
  intros Hr Hs HB Hi. pose proof (r_order _ _ _ Hr) as Ho. assert (0 < length B)%nat by (destruct B; [done|cbn [length]; lia]).
  updown_start Ho Hi (Z.of_nat (length A + length B)). rewrite (height_at A (B ++ C) Ho), (proj2 (Z.ltb_ge _ (Z.of_nat (length A)))), (proj2 (Z.ltb_lt (Z.of_nat (length A)) _)), (proj2 (Z.leb_le 0 (Z.of_nat (length A)))) by lia.
  destruct (raise_order c A B C i Ho) as (c1 & c2 & E1 & E2 & Ha & Ho').
  replace (Z.of_nat (length A + length B) - Z.of_nat (length A)) with (Z.of_nat (length B)) by lia. rewrite E1. ostep. rewrite E2. ostep.
  destruct (paint_ok c (A ++ i :: B ++ C) c2 (A ++ B ++ i :: C) m i (length A + length B) (length A + length B) 1 Hr Hs Ha Ho') as (m' & E' & H1 & H2 & H3).
  - intros j Hj. apply (r_bufs _ _ _ Hr). set_solver.
  - rewrite !length_app. lia.
  - rewrite !length_app. cbn [length]. lia.
  - intros x y. rewrite app_assoc, <-length_app, drop_app_length, <-app_assoc. apply raise_covered.
  - exists c2, m'. split; [|done]. rewrite <-E'. by replace (Z.of_nat (length A + length B) + Z.of_nat 1 - 1) with (Z.of_nat (length A + length B)) by lia.
Qed.
Lemma show_case A C : ready c (A ++ C) m → shows c (A ++ C) m → i ∉ A ++ C → (i < 256)%nat → flags (sh c i) ≠ 0 → buf_ok c (sh c i) →
  achieves c m (sheet_updown i (Z.of_nat (length A)) c m) (A ++ i :: C).
Proof.
  intros Hr Hs Hn Hi Hfl Hb. pose proof (r_order _ _ _ Hr) as Ho. updown_start Ho Hi (Z.of_nat (length A)).
  rewrite (o_hidden _ _ Ho i Hi Hfl Hn), (proj2 (Z.ltb_ge _ (-1))), (proj2 (Z.ltb_lt (-1) _)) by lia. change (0 <=? -1) with false. cbn iota.
  destruct (show_order c A C i Ho Hn Hi Hfl) as (c1 & c2 & E1 & E2 & Ha & Ho'). cbn [top upd set_pool].
  replace (top c + 1 - Z.of_nat (length A)) with (Z.of_nat (length C)) by (rewrite (o_top _ _ Ho), length_app; lia). rewrite E1. ostep. rewrite E2. ostep.
  destruct (paint_ok c (A ++ C) (set_top (top c2 + 1) c2) (A ++ i :: C) m i (length A) (length A) 1 Hr Hs Ha Ho') as (m' & E' & H1 & H2 & H3).
  - intros j Hj. destruct (decide (j = i)) as [->|]; [done|]. apply (r_bufs _ _ _ Hr). set_solver.
  - rewrite length_app. lia.
  - rewrite length_app. cbn [length]. lia.
  - intros x y. rewrite drop_app_length. apply show_covered.
  - eexists _, m'. split; [|done]. rewrite <-E'. by replace (Z.of_nat (length A) + Z.of_nat 1 - 1) with (Z.of_nat (length A)) by lia.
Qed.
Lemma same_case zs : ready c zs m → shows c zs m → (i < 256)%nat → height (sh c i) <= top c → -1 <= height (sh c i) →
  achieves c m (sheet_updown i (height (sh c i)) c m) zs.
Proof.
  intros Hr Hs Hi Ht Hh. pose proof (r_order _ _ _ Hr) as Ho. unfold sheet_updown. rewrite (sh_lookup c _ i Ho Hi). cbv zeta.
  rewrite (proj2 (Z.ltb_ge (top c + 1) (height (sh c i)))) by lia. rewrite (proj2 (Z.ltb_ge (height (sh c i)) (-1))) by lia. rewrite !Z.ltb_irrefl.
  rewrite upd_same by (by apply (sh_lookup c zs)). exists c, m. split; [done|]. split; [apply alike_refl|]. split; [done|]. split; [done|]. split; [done|apply Hr].
Qed.
End cases.
Lemma updown_spec c zs m i h : ready c zs m → shows c zs m → (i < 256)%nat → flags (sh c i) ≠ 0 → buf_ok c (sh c i) → (i ∈ zs → h <= top c) →
  achieves c m (sheet_updown i h c m) (reorder i h zs).
Proof.
  intros Hr Hs Hi Hfl Hb Hh. pose proof (r_order _ _ _ Hr) as Ho. pose proof (o_top _ _ Ho) as Et. rewrite updown_clamp by lia. unfold reorder.
  destruct (decide (i ∈ zs)) as [Hin|Hin].
  - specialize (Hh Hin). destruct (list_elem_of_split _ _ Hin) as (A & C & ->). pose proof (o_nodup _ _ Ho) as Hnd.
    assert (i ∉ A ∧ i ∉ C) as [HA HC] by (split; nodup Hnd). rewrite filter_app, filter_cons_False, !filter_absent by (done || tauto).
    rewrite length_app in Et. cbn [length] in Et. destruct (Z.ltb_spec h 0) as [Hneg|Hpos].
    { rewrite Z.max_l by lia. by apply hide_case. }
    rewrite Z.max_r, Z.min_l by lia. destruct (Z.lt_trichotomy h (Z.of_nat (length A))) as [Hlt|[->|Hgt]].
    + rewrite <-(take_drop (Z.to_nat h) A) in Hr, Hs |- *. set (A1 := take _ A) in *. set (B := drop _ A) in *.
      assert (length A1 = Z.to_nat h) as El by (unfold A1; rewrite length_take; lia). assert (0 < length B)%nat by (unfold B; rewrite length_drop; lia).
      rewrite <-!app_assoc in *. rewrite <-El, take_app_length, drop_app_length. replace h with (Z.of_nat (length A1)) by lia.
      apply lower_case; [done|done|by destruct B; cbn [length] in *; [lia|]|done].
    + rewrite Nat2Z.id, take_app_length, drop_app_length. rewrite <-(height_at c i A C Ho). apply same_case; [done|done|done|rewrite (height_at c i A C Ho); lia|rewrite (height_at c i A C Ho); lia].
    + rewrite <-(take_drop (Z.to_nat h - length A) C) in Hr, Hs |- *. set (B := take _ C) in *. set (C1 := drop _ C) in *.
      assert (length B = (Z.to_nat h - length A)%nat) as El by (unfold B; rewrite length_take; lia).
      replace (Z.to_nat h) with (length (A ++ B)) by (rewrite length_app; lia). rewrite app_assoc, take_app_length, drop_app_length, <-app_assoc.
      replace h with (Z.of_nat (length A + length B)) by lia. apply raise_case; [done|done|by destruct B; cbn [length] in *; [lia|]|done].
  - rewrite filter_absent by done. destruct (Z.ltb_spec h 0) as [Hneg|Hpos].
    + rewrite Z.max_l by lia. rewrite <-(o_hidden _ _ Ho i Hi Hfl Hin). apply same_case; [done|done|done|rewrite (o_hidden _ _ Ho i Hi Hfl Hin); lia|rewrite (o_hidden _ _ Ho i Hi Hfl Hin); lia].
    + rewrite Z.max_r by lia. assert (Z.min h (top c + 1) = Z.of_nat (length (take (Z.to_nat h) zs))) as -> by (rewrite length_take; lia).
      apply show_case; rewrite ?take_drop; done.
Qed.
End updown.

(** ** Moving a sheet *)
Section slide.
Implicit Types (c : SHTCTL) (zs A C : list nat).
Lemma slide_pool c zs i x y : ordered c zs → (i < 256)%nat → ∀ j, sh (upd i (set_pos x y) c) j = if decide (j = i) then set_pos x y (sh c i) else sh c j.
Proof. intros Ho Hi j. apply sh_upd. by rewrite (o_pool _ _ Ho). Qed.
Lemma slide_ordered c zs i x y : ordered c zs → (i < 256)%nat → ordered (upd i (set_pos x y) c) zs.
Proof.
  intros Ho Hi. pose proof (slide_pool c zs i x y Ho Hi) as Hp.
  assert (∀ j, height (sh (upd i (set_pos x y) c) j) = height (sh c j) ∧ flags (sh (upd i (set_pos x y) c) j) = flags (sh c j)) as Hhf by (intros j; rewrite Hp; case_decide; by subst).
  assert (∀ l n, heights_from c n l → heights_from (upd i (set_pos x y) c) n l) as Hh.
  { intros l. induction l as [|z l IH]; intros n; [done|]. cbn [heights_from]. rewrite (proj1 (Hhf z)). intros [? ?]. split; [done|by apply IH]. }
  destruct Ho as [H1 H2 H3 H4 H5 H6 H7 H8 H9]. split; [done|cbn [sheets0 upd set_pool]; by rewrite length_alter|done|done|done|done|by apply Hh| |].
  - intros j Hj. rewrite (proj1 (Hhf j)), (proj2 (Hhf j)). by apply H8.
  - intros j Hj. rewrite (proj2 (Hhf j)). by apply H9.
Qed.
Lemma slide_ready c zs m i x y : ready c zs m → (i < 256)%nat → ready (upd i (set_pos x y) c) zs m.
Proof.
  intros [Hl Ho Hb Hm] Hi. split; [by destruct Hl|by apply slide_ordered| |done]. intros j Hj. rewrite (slide_pool c zs i x y Ho Hi). case_decide; [subst|]; by apply Hb.
Qed.
(** the topmost sheet before and after sheet [i] of [A ++ i :: C] was replaced *)
Lemma slide_tops m pool pool' A C i x y j : i ∉ A → i ∉ C → (∀ k, k ≠ i → pool' k = pool k) → top_at m pool' (A ++ i :: C) x y = Some j →
  (seen m (pool i) x y = true ∨ seen m (pool' i) x y = true ∧ top_at m pool' (i :: C) x y ≠ None ∨ top_at m pool (A ++ i :: C) x y = Some j) ∧
  (seen m (pool i) x y = true ∧ j ∈ A ∨ seen m (pool' i) x y = true ∧ j = i ∨ top_at m pool (A ++ i :: C) x y = Some j ∧ j ≠ i).
Proof.
  intros HA HC Hp. assert (∀ l, i ∉ l → top_at m pool' l x y = top_at m pool l x y) as He by (intros l Hl; apply top_at_ext; intros k Hk; rewrite Hp; [done|by intros ->]).
  rewrite !top_at_app. cbn [top_at]. rewrite !He by done.
  destruct (top_at m pool C x y) as [k|] eqn:EC.
  { apply top_at_Some in EC as [EC _]. intros [= ->]. split; [by right; right|]. right. right. split; [done|by intros ->]. }
  destruct (seen m (pool' i) x y); [intros [= ->]; split; [right; left; done|right; left; done]|]. intros EA. rewrite EA. apply top_at_Some in EA as [EA _].
  destruct (seen m (pool i) x y); [split; [by left|by left]|]. split; [by right; right|]. right. right. split; [done|by intros ->].
Qed.
Lemma slide_spec c zs m i x y : ready c zs m → shows c zs m → (i < 256)%nat → flags (sh c i) ≠ 0 → let c' := upd i (set_pos x y) c in
  ∃ m', sheet_slide i x y c m = Ret (c', m') ∧ ordered c' zs ∧ shows c' zs m' ∧ kept c m m' ∧ mem_bytes m'.
Proof.
  intros Hr Hs Hi Hfl. cbv zeta. pose proof (r_order _ _ _ Hr) as Ho. pose proof (slide_ready c zs m i x y Hr Hi) as Hr'. pose proof (slide_pool c zs i x y Ho Hi) as Hp.
  unfold sheet_slide. rewrite (sh_lookup c zs i Ho Hi). set (c' := upd i (set_pos x y) c) in *. pose proof (r_order _ _ _ Hr') as Ho'. pose proof (r_laid _ _ _ Hr') as Hl'.
  destruct (decide (i ∈ zs)) as [Hin|Hin].
  2: { rewrite (o_hidden _ _ Ho i Hi Hfl Hin). exists m. split; [done|]. split; [done|]. split; [|split; [done|apply Hr]].
    intros px py j Hxy Hj. rewrite (top_at_ext m (sh c)) in Hj by (intros k Hk; rewrite Hp, decide_False; [done|by intros ->]).
    rewrite Hp, decide_False; [by apply Hs|]. apply top_at_Some in Hj as [Hj _]. by intros ->. }
  destruct (list_elem_of_split _ _ Hin) as (A & C & ->). pose proof (o_nodup _ _ Ho) as Hnd. assert (i ∉ A ∧ i ∉ C) as [HA HC] by (rewrite NoDup_app, NoDup_cons in Hnd; set_solver).
  rewrite (height_at c i A C Ho), (proj2 (Z.leb_le 0 _)) by lia. set (s := sh c i). set (zs := A ++ i :: C) in *.
  assert (length zs = length A + S (length C))%nat as Hlen by (unfold zs; by rewrite length_app).
  change 0 with (Z.of_nat 0) at 1 2. replace (Z.of_nat (length A) - 1) with (Z.of_nat 0 + Z.of_nat (length A) - 1) by lia.
  rewrite (refreshmap_layers c' zs) by (done || lia). ostep. rewrite (refreshmap_layers c' zs) by (done || lia). ostep. rewrite (refreshsub_layers c' zs) by (done || lia). ostep.
  replace (sheet_refreshsub c' x y (x + bxsize s) (y + bysize s) (Z.of_nat (length A)) (Z.of_nat (length A)))
    with (sheet_refreshsub c' x y (x + bxsize s) (y + bysize s) (Z.of_nat (length A)) (Z.of_nat (length A) + Z.of_nat 1 - 1)) by (f_equal; lia).
  rewrite (refreshsub_layers c' zs) by (done || lia). ostep. eexists. split; [done|]. split; [done|].
  set (b0 := (vx0 s, vy0 s, vx0 s + bxsize s, vy0 s + bysize s)). set (b1 := (x, y, x + bxsize s, y + bysize s)).
  assert (drop (length A) zs = i :: C) as Ed by (unfold zs; by rewrite drop_app_length). assert (take (length A) (drop 0 zs) = A) as Et by (unfold zs; rewrite drop_0; by rewrite take_app_length).
  apply (repaint c' zs Hl' m [(b0, 0%nat); (b1, length A)] [(b0, take (length A) (drop 0 zs)); (b1, take 1 (drop (length A) zs))] Hr').
  - rewrite Et, Ed. apply Forall_cons. split; [|apply Forall_singleton]; cbn [snd].
    + split; [by apply NoDup_app in Hnd as [? _]|]. intros k Hk. apply elem_of_app. by left.
    + split; [apply NoDup_singleton|]. intros k ->%list_elem_of_singleton. exact Hin.
  - intros px py j Hxy Hj. rewrite Et. rewrite !Exists_cons, !Exists_nil. cbn [fst snd]. rewrite drop_0, Ed. change (take 1 (i :: C)) with [i].
    assert (∀ k, k ≠ i → sh c' k = sh c k) as Hother by (intros k Hk; by rewrite Hp, decide_False).
    destruct (slide_tops m (sh c) (sh c') A C i px py j HA HC Hother Hj) as [H1 H2]. fold zs in H1, H2.
    assert (seen m (sh c i) px py = true → in_box b0 px py = true) as Hb0 by (unfold seen; rewrite andb_true_iff; intros [Hc _]; exact Hc).
    assert (seen m (sh c' i) px py = true → in_box b1 px py = true) as Hb1 by (rewrite Hp, decide_True by done; unfold seen; rewrite andb_true_iff; intros [Hc _]; exact Hc).
    assert (top_at m (sh c) zs px py = Some j → m (map_at c' px py) = Z.of_nat j ∧ ld32 m (vram_at c' px py) = colour m (sh c j) px py) as Hold by (intros E; by apply (Hs px py j)).
    assert (top_at m (sh c') zs px py ≠ None) as Hne by (by rewrite Hj). split; [naive_solver|].
    destruct H2 as [[H2 HjA]|[[H2 ->]|[H2 Hji]]]; [naive_solver|set_solver|]. left. rewrite Hother by done. by apply Hold.
Qed.
End slide.

(** ** The other operations *)
Section other.
Implicit Types (c : SHTCTL) (zs A C : list nat) (m : mem).
(** [sheet_refresh] after drawing in the buffer of a shown sheet *)
Lemma refresh_spec c zs m i bx0 by0 bx1 by1 : ready c zs m → i ∈ zs →
  (∀ x y j, on_screen c x y → top_at m (sh c) zs x y = Some j → m (map_at c x y) = Z.of_nat j ∧
     (ld32 m (vram_at c x y) = colour m (sh c j) x y ∨ j = i ∧ in_rect bx0 by0 bx1 by1 (x - vx0 (sh c i)) (y - vy0 (sh c i)) = true)) →
  ∃ m', sheet_refresh i bx0 by0 bx1 by1 c m = Ret m' ∧ shows c zs m' ∧ kept c m m' ∧ mem_bytes m'.
Proof.
  intros Hr Hin Hpt. pose proof (r_order _ _ _ Hr) as Ho. pose proof (o_range _ _ Ho i Hin) as Hi. unfold sheet_refresh. rewrite (sh_lookup c zs i Ho Hi).
  destruct (list_elem_of_split _ _ Hin) as (A & C & ->). rewrite (height_at c i A C Ho), (proj2 (Z.leb_le 0 _)) by lia. set (s := sh c i) in *. set (zs := A ++ i :: C) in *.
  pose proof (refreshsub_layers c zs (vx0 s + bx0) (vy0 s + by0) (vx0 s + bx1) (vy0 s + by1) (length A) 1 m Ho) as E.
  replace (Z.of_nat (length A) + Z.of_nat 1 - 1) with (Z.of_nat (length A)) in E by lia. rewrite E by (unfold zs; rewrite length_app; cbn [length]; lia). eexists. split; [done|].
  assert (take 1 (drop (length A) zs) = [i]) as Es by (unfold zs; by rewrite drop_app_length). rewrite Es.
  apply (repaint c zs (r_laid _ _ _ Hr) m [] [((vx0 s + bx0, vy0 s + by0, vx0 s + bx1, vy0 s + by1), [i])] Hr).
  - apply Forall_singleton. cbn [snd]. split; [apply NoDup_singleton|]. by intros k ->%list_elem_of_singleton.
  - intros x y j Hxy Hj. destruct (Hpt x y j Hxy Hj) as [H1 H2]. split; [by left|]. destruct H2 as [H2|[-> H2]]; [by left|]. right. apply Exists_cons. left.
    cbn [fst snd in_box]. split; [|by apply list_elem_of_singleton]. unfold in_rect in *. rewrite !andb_true_iff, !Z.leb_le, !Z.ltb_lt in *. lia.
Qed.
(** an update of a sheet that is not shown *)
Lemma upd_hidden c zs i f : ordered c zs → (i < 256)%nat → i ∉ zs → (flags (f (sh c i)) ≠ 0 → height (f (sh c i)) = -1) → ordered (upd i f c) zs.
Proof.
  intros Ho Hi Hn Hf. assert (∀ j, sh (upd i f c) j = if decide (j = i) then f (sh c i) else sh c j) as Hp by (intros j; apply sh_upd; by rewrite (o_pool _ _ Ho)).
  assert (∀ j, j ∈ zs → sh (upd i f c) j = sh c j) as Hz by (intros j Hj; rewrite Hp, decide_False; [done|by intros ->]).
  destruct Ho as [H1 H2 H3 H4 H5 H6 H7 H8 H9]. split; [done|cbn [sheets0 upd set_pool]; by rewrite length_alter|done|done|done|done|by apply (heights_ext c)| |].
  - intros j Hj Hfj Hjn. rewrite Hp in Hfj |- *. case_decide; [by apply Hf|by apply H8].
  - intros j Hj. rewrite Hz by done. by apply H9.
Qed.
Lemma shows_hidden c zs m i f : (i < length (sheets0 c))%nat → i ∉ zs → shows c zs m → shows (upd i f c) zs m.
Proof.
  intros Hi Hn Hs x y j Hxy Hj. assert (∀ k, k ∈ zs → sh (upd i f c) k = sh c k) as Hp by (intros k Hk; rewrite sh_upd, decide_False by (done || by intros ->); done).
  rewrite (top_at_ext m (sh c)) in Hj by (intros k Hk; by rewrite Hp). pose proof (top_at_Some _ _ _ _ _ _ Hj) as [Hin _]. rewrite Hp by done. by apply Hs.
Qed.
Lemma ready_hidden c zs m i f : ready c zs m → (i < 256)%nat → i ∉ zs → (flags (f (sh c i)) ≠ 0 → height (f (sh c i)) = -1) → ready (upd i f c) zs m.
Proof.
  intros [Hl Ho Hb Hm] Hi Hn Hf. split; [by destruct Hl|by apply upd_hidden| |done]. intros j Hj. rewrite sh_upd, decide_False by (by intros -> || by rewrite (o_pool _ _ Ho)). by apply Hb.
Qed.
Lemma alloc_spec c zs i c' : ordered c zs → sheet_alloc c = (Some i, c') → (i < 256)%nat ∧ i ∉ zs ∧ c' = upd i (λ s, set_height (-1) (set_flags SHEET_USE s)) c.
Proof.
  intros Ho. unfold sheet_alloc. destruct (list_find _ _) as [[k s]|] eqn:E; [|done]. intros [= <- <-]. apply list_find_Some in E as (Hk & Hf & _).
  pose proof (lookup_lt_Some _ _ _ Hk) as Hlt. rewrite (o_pool _ _ Ho) in Hlt. split; [done|]. split; [|done]. intros Hin. apply (o_used _ _ Ho k Hin). unfold sh. by rewrite nth_lookup, Hk.
Qed.
Lemma free_spec c zs m i : ready c zs m → shows c zs m → (i < 256)%nat → flags (sh c i) ≠ 0 → buf_ok c (sh c i) →
  ∃ c' m', sheet_free i c m = Ret (c', m') ∧ ready c' (reorder i (-1) zs) m' ∧ shows c' (reorder i (-1) zs) m' ∧ flags (sh c' i) = 0 ∧ kept c m m'.
Proof.
  intros Hr Hs Hi Hfl Hb. pose proof (r_order _ _ _ Hr) as Ho. unfold sheet_free. rewrite (sh_lookup c zs i Ho Hi).
  assert (∃ c1 m1, (if 0 <=? height (sh c i) then sheet_updown i (-1) c m else Ret (c, m)) = Ret (c1, m1) ∧ alike c c1 ∧ ordered c1 (reorder i (-1) zs) ∧
    shows c1 (reorder i (-1) zs) m1 ∧ kept c m m1 ∧ mem_bytes m1) as (c1 & m1 & -> & Ha & Ho1 & Hs1 & Hk & Hm1).
  { destruct (decide (i ∈ zs)) as [Hin|Hin].
    - destruct (list_elem_of_split _ _ Hin) as (A & C & E). pose proof Ho as Ho2. rewrite E in Ho2. rewrite (height_at c i A C Ho2), (proj2 (Z.leb_le 0 _)) by lia.
      apply updown_spec; try done. intros _. rewrite (o_top _ _ Ho). lia.
    - rewrite (o_hidden _ _ Ho i Hi Hfl Hin). exists c, m. split; [done|]. unfold reorder. cbn [Z.ltb Z.compare]. rewrite filter_absent by done.
      split; [apply alike_refl|]. split; [done|]. split; [done|]. split; [done|apply Hr]. }
  ostep. assert (i ∉ reorder i (-1) zs) as Hn by (unfold reorder; cbn [Z.ltb Z.compare]; rewrite list_elem_of_filter; tauto).
  assert (ready c1 (reorder i (-1) zs) m1) as Hr1.
  { split; [apply (alike_laid c); [done|apply Hr]|done| |done]. intros j Hj. apply (alike_buf c); [done|]. apply (r_bufs _ _ _ Hr).
    unfold reorder in Hj. cbn [Z.ltb Z.compare] in Hj. by apply list_elem_of_filter in Hj as [_ Hj]. }
  eexists _, m1. split; [done|]. split; [by apply ready_hidden|]. split; [apply shows_hidden; [by rewrite (o_pool _ _ Ho1)|done|done]|]. split; [|done].
  rewrite sh_upd, decide_True by (done || by rewrite (o_pool _ _ Ho1)). done.
Qed.
End other.
End Sheet.
