(* ===== verification/Windows.v ===== *)
(** The window system as a whole (kernel/drivers/sheet.c): every state that
    its operations reach shows the sheets in their order, and what each
    operation does to that order. *)
From stdpp Require Import base numbers list sets.
From S2P Require Import Prelude Memory Sheet.
Open Scope Z_scope.

Module Windows.
Import Sheet.Sheet.
(** the static controller before [shtctl_init] *)
Definition ctl_instance : SHTCTL := Ctl 0 0 0 0 0 0 (replicate 256 None) (replicate 256 no_sheet).
(** [m'] differs from [m] only outside the map, the video memory and the
    buffers of the sheets [zs] *)
Definition client_write (c : SHTCTL) (zs : list nat) (m m' : mem) : Prop :=
  mem_bytes m' ∧ (∀ a, in_map c a ∨ in_vram c a → m' a = m a) ∧
  ∀ i x y, i ∈ zs → covers (sh c i) x y = true → colour m' (sh c i) x y = colour m (sh c i) x y.
(** ** Reachable states: the controller, the shown sheets and the memory *)
Inductive windows : SHTCTL → list nat → mem → Prop :=
| W_init v w h p m : laid (shtctl_init v w h p ctl_instance) → mem_bytes m → windows (shtctl_init v w h p ctl_instance) [] m
| W_alloc c zs m i c' : windows c zs m → sheet_alloc c = (Some i, c') → windows c' zs m
| W_setbuf c zs m i b w h inv : windows c zs m → (i < 256)%nat → i ∉ zs → windows (sheet_setbuf i b w h inv c) zs m
| W_write c zs m m' : windows c zs m → client_write c zs m m' → windows c zs m'
| W_updown c zs m i h c' m' : windows c zs m → (i < 256)%nat → flags (sh c i) ≠ 0 → buf_ok c (sh c i) → (i ∈ zs → h <= top c) →
    sheet_updown i h c m = Ret (c', m') → windows c' (reorder i h zs) m'
| W_slide c zs m i x y c' m' : windows c zs m → (i < 256)%nat → flags (sh c i) ≠ 0 → sheet_slide i x y c m = Ret (c', m') → windows c' zs m'
| W_free c zs m i c' m' : windows c zs m → (i < 256)%nat → flags (sh c i) ≠ 0 → buf_ok c (sh c i) → sheet_free i c m = Ret (c', m') → windows c' (reorder i (-1) zs) m'
| W_redraw c zs m i m1 bx0 by0 bx1 by1 m2 : windows c zs m → i ∈ zs → client_write c (filter (λ j, j ≠ i) zs) m m1 →
    (∀ x y, covers (sh c i) x y = true → opaque m1 (sh c i) x y = opaque m (sh c i) x y ∧
       (in_rect bx0 by0 bx1 by1 (x - vx0 (sh c i)) (y - vy0 (sh c i)) = true ∨ colour m1 (sh c i) x y = colour m (sh c i) x y)) →
    sheet_refresh i bx0 by0 bx1 by1 c m1 = Ret m2 → windows c zs m2.

Section invariant.
Implicit Types (c : SHTCTL) (zs : list nat) (m : mem).
Definition fine c zs m : Prop := ready c zs m ∧ shows c zs m.
Lemma init_fine v w h p m : laid (shtctl_init v w h p ctl_instance) → mem_bytes m → fine (shtctl_init v w h p ctl_instance) [] m.
Proof.
  intros Hl Hm. split; [split; [done| |by intros i ?%not_elem_of_nil|done]|done].
  assert (∀ i, flags (sh (shtctl_init v w h p ctl_instance) i) = 0) as Hf.
  { intros i. unfold sh. cbn [sheets0 shtctl_init ctl_instance]. rewrite nth_lookup, list_lookup_fmap. destruct (replicate 256 no_sheet !! i) as [s|]; done. }
  split; [done|done|done|apply NoDup_nil_2|by intros i ?%not_elem_of_nil|by eexists|done| |by intros i ?%not_elem_of_nil].
  intros i _ Hi. by rewrite Hf in Hi.
Qed.
Lemma achieves_fine c zs m r zs' c' m' : ready c zs m → (∀ j, j ∈ zs' → buf_ok c (sh c j)) → achieves c m r zs' → r = Ret (c', m') → fine c' zs' m'.
Proof.
  intros Hr Hb (c1 & m1 & E & Ha & Ho & Hs & Hk & Hm) Er. rewrite E in Er. injection Er as <- <-. split; [|done].
  split; [apply (alike_laid c); [done|apply Hr]|done| |done]. intros j Hj. apply (alike_buf c); [done|by apply Hb].
Qed.
Lemma elem_reorder i h zs j : j ∈ reorder i h zs → j = i ∨ j ∈ zs.
Proof.
  unfold reorder. case_if; [rewrite list_elem_of_filter; tauto|]. rewrite elem_of_app, elem_of_cons.
  assert (∀ k l, j ∈ take k l ∨ j ∈ drop k l → j ∈ l) as Htd by (intros k l H; rewrite <-(take_drop k l); by apply elem_of_app).
  intros [H|[H|H]]; [|by left|]; right; [assert (j ∈ filter (λ j, j ≠ i) zs) as Hf by (eapply Htd; by left)|assert (j ∈ filter (λ j, j ≠ i) zs) as Hf by (eapply Htd; by right)];
    by apply list_elem_of_filter in Hf as [_ Hf].
Qed.
(** memory that agrees on what is shown *)
Lemma tops_agree c zs m m' x y : (∀ i, i ∈ zs → covers (sh c i) x y = true → opaque m' (sh c i) x y = opaque m (sh c i) x y) →
  top_at m' (sh c) zs x y = top_at m (sh c) zs x y.
Proof. intros H. apply top_at_ext. intros i Hi. unfold seen. destruct (covers (sh c i) x y) eqn:E; [|done]. by rewrite (H i). Qed.
Lemma screen_agree c m m' x y : laid c → on_screen c x y → (∀ a, in_map c a ∨ in_vram c a → m' a = m a) →
  m' (map_at c x y) = m (map_at c x y) ∧ ld32 m' (vram_at c x y) = ld32 m (vram_at c x y).
Proof.
  intros Hl Hxy Ha. split; [apply Ha; left; by apply map_at_in|]. unfold ld32. f_equal. apply mread_ext. intros a Hr. apply Ha. right.
  pose proof (vram_at_in c Hl x y Hxy). unfold in_vram. lia.
Qed.
Lemma write_fine c zs m m' : fine c zs m → client_write c zs m m' → fine c zs m'.
Proof.
  intros [Hr Hs] (Hm & Ha & Hc). split; [by destruct Hr|]. intros x y j Hxy Hj.
  rewrite (tops_agree c zs m m') in Hj by (intros i Hi Hcov; unfold opaque; by rewrite Hc).
  destruct (screen_agree c m m' x y (r_laid _ _ _ Hr) Hxy Ha) as [-> ->]. pose proof (top_at_Some _ _ _ _ _ _ Hj) as [Hin Hseen].
  unfold seen in Hseen. apply andb_true_iff in Hseen as [Hcov _]. rewrite Hc by done. by apply Hs.
Qed.
Lemma redraw_fine c zs m i m1 bx0 by0 bx1 by1 : fine c zs m → i ∈ zs → client_write c (filter (λ j, j ≠ i) zs) m m1 →
  (∀ x y, covers (sh c i) x y = true → opaque m1 (sh c i) x y = opaque m (sh c i) x y ∧
     (in_rect bx0 by0 bx1 by1 (x - vx0 (sh c i)) (y - vy0 (sh c i)) = true ∨ colour m1 (sh c i) x y = colour m (sh c i) x y)) →
  ∃ m2, sheet_refresh i bx0 by0 bx1 by1 c m1 = Ret m2 ∧ fine c zs m2.
Proof.
  intros [Hr Hs] Hi (Hm & Ha & Hc) Hd. assert (ready c zs m1) as Hr1 by (by destruct Hr).
  destruct (refresh_spec c zs m1 i bx0 by0 bx1 by1 Hr1 Hi) as (m2 & E & Hs2 & Hk & Hm2); [|exists m2; split; [done|]; split; [by destruct Hr|done]].
  intros x y j Hxy Hj. rewrite (tops_agree c zs m m1) in Hj.
  2: { intros k Hk Hcov. destruct (decide (k = i)) as [->|Hne]; [by apply Hd|]. unfold opaque. rewrite Hc by (done || by apply list_elem_of_filter). done. }
  destruct (screen_agree c m m1 x y (r_laid _ _ _ Hr) Hxy Ha) as [-> ->]. destruct (Hs x y j Hxy Hj) as [-> ->]. split; [done|].
  pose proof (top_at_Some _ _ _ _ _ _ Hj) as [Hin Hseen]. unfold seen in Hseen. apply andb_true_iff in Hseen as [Hcov _].
  destruct (decide (j = i)) as [->|Hne]; [destruct (Hd x y Hcov) as [_ [H| ->]]; [by right|by left]|]. left. symmetry. apply Hc; [by apply list_elem_of_filter|done].
Qed.
Lemma windows_fine c zs m : windows c zs m → fine c zs m.
Proof.
  induction 1 as [v w h p m Hl Hm|c zs m i c' _ [Hr Hs] E|c zs m i b w h inv _ [Hr Hs] Hi Hn|c zs m m' _ IH Hw|c zs m i h c' m' _ [Hr Hs] Hi Hfl Hb Hh E
    |c zs m i x y c' m' _ [Hr Hs] Hi Hfl E|c zs m i c' m' _ [Hr Hs] Hi Hfl Hb E|c zs m i m1 bx0 by0 bx1 by1 m2 _ IH Hi Hw Hd E].
  - by apply init_fine.
  - destruct (alloc_spec c zs i c' (r_order _ _ _ Hr) E) as (Hi & Hn & ->). split; [by apply ready_hidden|]. apply shows_hidden; [by rewrite (o_pool _ _ (r_order _ _ _ Hr))|done|done].
  - split; [apply ready_hidden; [done|done|done|]|apply shows_hidden; [by rewrite (o_pool _ _ (r_order _ _ _ Hr))|done|done]].
    cbn [flags height]. intros Hf. by apply (o_hidden _ _ (r_order _ _ _ Hr)).
  - by eapply write_fine.
  - eapply achieves_fine; [exact Hr| |by apply updown_spec|exact E]. intros j [->|Hj]%elem_reorder; [done|by apply (r_bufs _ _ _ Hr)].
  - destruct (slide_spec c zs m i x y Hr Hs Hi Hfl) as (m1 & E' & Ho & Hs' & Hk & Hm). rewrite E in E'. injection E' as -> ->. split; [|done].
    destruct (slide_ready c zs m i x y Hr Hi) as [H1 H2 H3 H4]. by split.
  - destruct (free_spec c zs m i Hr Hs Hi Hfl Hb) as (c1 & m1 & E' & Hr' & Hs' & _). rewrite E in E'. injection E' as -> ->. by split.
  - destruct (redraw_fine c zs m i m1 bx0 by0 bx1 by1 IH Hi Hw Hd) as (m3 & E' & Hf). rewrite E in E'. by injection E' as ->.
Qed.
End invariant.

(** ** Theorems *)

(** C10. Every reachable state of the window system is right: the shown sheets
    are distinct, [sheets] lists them from bottom to top, [height] is the
    place of each and [top] the last; and at every point of the screen where
    some shown sheet is opaque, the map names the topmost such sheet and the
    video memory has its colour, whatever was allocated, shown, hidden, raised,
    lowered, moved, redrawn or freed before. *)
Theorem windows_shown c zs m : windows c zs m →
  NoDup zs ∧ top c = Z.of_nat (length zs) - 1 ∧
  (∀ h i, zs !! h = Some i → sheets c !! h = Some (Some i) ∧ height (sh c i) = Z.of_nat h) ∧
  ∀ x y i, on_screen c x y → top_at m (sh c) zs x y = Some i → m (map_at c x y) = Z.of_nat i ∧ ld32 m (vram_at c x y) = colour m (sh c i) x y.
Proof.
  intros H%windows_fine. destruct H as [[_ Ho _ _] Hs]. split; [apply Ho|]. split; [apply Ho|]. split; [|exact Hs]. intros h i Hi. split.
  - destruct (o_at _ _ Ho) as [l ->]. rewrite lookup_app_l by (rewrite length_fmap; by eapply lookup_lt_Some). by rewrite list_lookup_fmap, Hi.
  - apply (heights_lookup c 0 zs h i); [apply Ho|done].
Qed.
(** C11. [sheet_updown] refines moving an element of a list: on a sheet in use,
    with a height that is at most [top] if the sheet is already shown, it
    returns, the order becomes the old one with the sheet taken out and put
    in at that height (or left out below 0), the window system stays in a
    reachable, hence correct, state, and no byte outside the map and the video
    memory changes. *)
Theorem sheet_updown_refines c zs m i h : windows c zs m → (i < 256)%nat → flags (sh c i) ≠ 0 → buf_ok c (sh c i) → (i ∈ zs → h <= top c) →
  ∃ c' m', sheet_updown i h c m = Ret (c', m') ∧ windows c' (reorder i h zs) m' ∧
    (∀ j, sh c' j = set_height (height (sh c' j)) (sh c j)) ∧ ∀ a, ¬ in_map c a → ¬ in_vram c a → m' a = m a.
Proof.
  intros Hw Hi Hfl Hb Hh. pose proof (windows_fine _ _ _ Hw) as [Hr Hs]. destruct (updown_spec c zs m i h Hr Hs Hi Hfl Hb Hh) as (c' & m' & E & (_ & _ & _ & Ha) & _ & _ & Hk & _).
  exists c', m'. split; [done|]. split; [by eapply W_updown|done].
Qed.
(** [sheet_slide] and [sheet_free] return on every sheet in use, and leave
    the window system in a reachable, hence correct, state: sliding moves
    only that sheet, freeing takes it out of the order and out of use. *)
Theorem sheet_slide_free_correct c zs m i : windows c zs m → (i < 256)%nat → flags (sh c i) ≠ 0 →
  (∀ x y, ∃ m', sheet_slide i x y c m = Ret (upd i (set_pos x y) c, m') ∧ windows (upd i (set_pos x y) c) zs m') ∧
  (buf_ok c (sh c i) → ∃ c' m', sheet_free i c m = Ret (c', m') ∧ windows c' (reorder i (-1) zs) m' ∧ flags (sh c' i) = 0).
Proof.
  intros Hw Hi Hfl. pose proof (windows_fine _ _ _ Hw) as [Hr Hs]. split.
  - intros x y. destruct (slide_spec c zs m i x y Hr Hs Hi Hfl) as (m' & E & _). exists m'. split; [done|by eapply W_slide].
  - intros Hb. destruct (free_spec c zs m i Hr Hs Hi Hfl Hb) as (c' & m' & E & _ & _ & Hf & _). exists c', m'. split; [done|]. split; [by eapply W_free|done].
Qed.
(** C31. [sheet_updown] lets a sheet that is already shown be raised to
    [top + 1], one above the highest place: it then follows [sheets[top + 1]],
    which is null when no more sheets were ever shown, and the behaviour is
    undefined. *)
Theorem sheet_updown_past_top c A i C m h : ordered c (A ++ i :: C) → top c < h → sheets c !! length (A ++ i :: C) = Some None →
  sheet_updown i h c m = Undef.
Proof.
  intros Ho Hh Hnull. assert (i < 256)%nat as Hi by (apply (o_range _ _ Ho); set_solver). pose proof (o_top _ _ Ho) as Et. rewrite length_app in Et, Hnull. cbn [length] in *.
  unfold sheet_updown. rewrite (sh_lookup c _ i Ho Hi). cbv zeta. rewrite (height_at c i A C Ho).
  assert ((if top c + 1 <? h then top c + 1 else h) = Z.of_nat (length A + length C) + 1) as -> by (destruct (Z.ltb_spec (top c + 1) h); lia).
  rewrite (proj2 (Z.ltb_ge _ (-1))) by lia. set (h' := Z.of_nat (length A + length C) + 1).
  rewrite (proj2 (Z.ltb_ge h' (Z.of_nat (length A)))), (proj2 (Z.ltb_lt (Z.of_nat (length A)) h')), (proj2 (Z.leb_le 0 (Z.of_nat (length A)))) by lia.
  destruct (o_at _ _ Ho) as [l El]. rewrite fmap_app, fmap_cons, <-app_assoc in El. cbn [app] in El.
  destruct l as [|o l]; [exfalso; rewrite El, app_nil_r in Hnull; apply lookup_lt_Some in Hnull; rewrite length_app in Hnull; cbn [length] in Hnull; rewrite !length_fmap in Hnull; lia|].
  assert (o = None) as ->.
  { rewrite El, lookup_app_r in Hnull by (rewrite length_fmap; lia). rewrite length_fmap in Hnull. replace (length A + S (length C) - length A)%nat with (S (length C)) in Hnull by lia.
    change (((Some <$> C) ++ o :: l) !! length C = Some None) in Hnull. rewrite lookup_app_r, length_fmap, Nat.sub_diag in Hnull by (rewrite length_fmap; lia). by injection Hnull. }
  destruct (moves_down C (upd i (set_height h') c) (Some <$> A) (Some i) (None :: l) El) as (c1 & y & E & Es & _).
  { pose proof (o_nodup _ _ Ho) as Hnd. by apply NoDup_app in Hnd as (_ & _ & [_ ?]%NoDup_cons). }
  { intros j Hj. cbn [sheets0 upd set_pool]. rewrite length_alter, (o_pool _ _ Ho). apply (o_range _ _ Ho). set_solver. }
  replace (h' - Z.of_nat (length A)) with (Z.of_nat (length C) + 1) by lia. rewrite seqZ_app, each_app by lia. rewrite length_fmap in E. rewrite E. ostep.
  rewrite seqZ_cons by lia. cbn [each]. unfold move_sheet. rewrite Es. set (k := Z.of_nat (length A) + Z.of_nat (length C)).
  pose proof (aget_app ((Some <$> A) ++ (Some <$> C) ++ [y]) None l) as Eg. rewrite <-!app_assoc, !length_app, !length_fmap in Eg. cbn [length app] in Eg.
  replace (Z.of_nat (length A + (length C + 1))) with (k + 1) in Eg by lia. rewrite Eg. ostep.
  destruct (aset _ _ _) as [l'| |] eqn:Ea; [done|done|]. unfold aset in Ea. by destruct (_ && _).
Qed.

(** two windows on a screen of two points *)
Definition demo_mem : mem := mwrite (mwrite (λ _, 0) 0x1000 (replicate 8 7)) 0x2000 [9].
Definition demo0 : SHTCTL := shtctl_init 0x4000 2 1 8 ctl_instance.
Definition demo1 : SHTCTL := sheet_setbuf 0 0x1000 2 1 (-1) (snd (sheet_alloc demo0)).
Definition demo2 : SHTCTL := sheet_setbuf 1 0x2000 1 1 99 (snd (sheet_alloc demo1)).
Lemma demo_laid : laid demo0.
Proof. split; [cbn; lia|cbn; lia|]. unfold in_map, in_vram. cbn. lia. Qed.
Lemma demo_bytes : mem_bytes demo_mem.
Proof.
  apply mem_bytes_mwrite; [apply mem_bytes_mwrite; [intros a; unfold is_byte; lia|apply Forall_replicate; unfold is_byte; lia]|].
  repeat constructor; unfold is_byte; lia.
Qed.
Lemma demo_windows : windows demo2 [] demo_mem.
Proof.
  apply W_setbuf; [|lia|by intros ?%not_elem_of_nil]. apply (W_alloc demo1 [] demo_mem 1); [|vm_compute; reflexivity].
  apply W_setbuf; [|lia|by intros ?%not_elem_of_nil]. apply (W_alloc demo0 [] demo_mem 0); [|vm_compute; reflexivity]. apply W_init; [apply demo_laid|apply demo_bytes].
Qed.
Lemma demo_bufs : flags (sh demo2 0) ≠ 0 ∧ flags (sh demo2 1) ≠ 0 ∧ buf_ok demo2 (sh demo2 0) ∧ buf_ok demo2 (sh demo2 1).
Proof.
  assert (sh demo2 0 = Sht 0x1000 2 1 0 0 (-1) (-1) 1) as -> by reflexivity. assert (sh demo2 1 = Sht 0x2000 1 1 0 0 99 (-1) 1) as -> by reflexivity.
  split; [done|]. split; [done|]. unfold buf_ok, in_map, in_vram. change (map demo2) with 0x3000000. change (vram demo2) with 0x4000.
  change (xsize demo2) with 2. change (ysize demo2) with 1. change (pitch demo2) with 8. cbn [buf bxsize bysize]. split; (split; [lia|split; [lia|intros a Ha; lia]]).
Qed.
Lemma sheet_updown_refines_witness : ∃ c m, sheet_updown 0 0 demo2 demo_mem = Ret (c, m) ∧ windows c [0%nat] m.
Proof.
  destruct (sheet_updown_refines demo2 [] demo_mem 0 0) as (c & m & E & Hw & _); [apply demo_windows|lia|apply demo_bufs|apply demo_bufs|by intros ?%not_elem_of_nil|].
  exists c, m. split; [exact E|exact Hw].
Defined.
Lemma sheet_slide_free_correct_witness : ∃ m, sheet_slide 1 1 0 demo2 demo_mem = Ret (upd 1 (set_pos 1 0) demo2, m) ∧ windows (upd 1 (set_pos 1 0) demo2) [] m.
Proof.
  destruct (sheet_slide_free_correct demo2 [] demo_mem 1) as [Hs _]; [apply demo_windows|lia|apply demo_bufs|]. destruct (Hs 1 0) as (m & E & Hw). exists m. split; [exact E|exact Hw].
Defined.
Definition demo_run : outcome (SHTCTL * mem) := '(c, m) ← sheet_updown 0 0 demo2 demo_mem; sheet_updown 1 1 c m.
Lemma demo_shown : ∃ c m, demo_run = Ret (c, m) ∧ windows c [0%nat; 1%nat] m ∧ alike demo2 c ∧ kept demo2 demo_mem m.
Proof.
  unfold demo_run. destruct (windows_fine _ _ _ demo_windows) as [Hr Hs]. destruct demo_bufs as (F0 & F1 & B0 & B1).
  destruct (updown_spec demo2 [] demo_mem 0 0 Hr Hs) as (c1 & m1 & E & Ha & Ho & _ & Hk & _); [lia|exact F0|exact B0|by intros ?%not_elem_of_nil|].
  rewrite E. cbn [mbind outcome_mbind]. pose proof (W_updown demo2 [] demo_mem 0 0 c1 m1 demo_windows ltac:(lia) F0 B0 ltac:(by intros ?%not_elem_of_nil) E) as Hw.
  pose proof (windows_fine _ _ _ Hw) as [Hr1 Hs1]. assert (flags (sh c1 1) ≠ 0) as F1' by (destruct Ha as (_ & _ & _ & Hf); by rewrite Hf).
  assert (buf_ok c1 (sh c1 1)) as B1' by (by apply (alike_buf demo2)). assert (1%nat ∉ [0%nat]) as Hn by (by intros ?%list_elem_of_singleton).
  destruct (updown_spec c1 [0%nat] m1 1 1 Hr1 Hs1) as (c & m & E2 & Ha2 & _ & _ & Hk2 & _); [lia|done|done|done|].
  exists c, m. split; [done|]. split; [by apply (W_updown c1 [0%nat] m1 1 1 c m Hw); [lia|..]|]. split; [by eapply alike_trans|].
  intros a Ha1 Ha3. rewrite Hk2, Hk; [done|done|done|..]; destruct Ha as ((E1 & E3 & E4 & E5 & E6) & _); unfold in_map, in_vram in *; by rewrite ?E1, ?E3, ?E4, ?E5, ?E6.
Qed.
Lemma windows_shown_witness : ∃ c m, demo_run = Ret (c, m) ∧ windows c [0%nat; 1%nat] m ∧ m (map_at c 0 0) = 1.
Proof.
  destruct demo_shown as (c & m & E & Hw & Ha & Hk). exists c, m. split; [exact E|]. split; [exact Hw|].
  destruct (windows_shown c _ m Hw) as (_ & _ & _ & Hp). apply (Hp 0 0 1%nat); [destruct Ha as ((_ & _ & E3 & E4 & _) & _); unfold on_screen; rewrite E3, E4; vm_compute; split; split; congruence|].
  rewrite (top_at_ext m (sh demo2)) by (intros k _; by apply alike_seen).
  rewrite (top_at_kept demo2 demo_mem m); [vm_compute; reflexivity| |exact Hk].
  intros k [->|Hk1]%elem_of_cons; [apply demo_bufs|]. apply list_elem_of_singleton in Hk1 as ->. apply demo_bufs.
Defined.
Lemma sheet_updown_past_top_witness : ∃ c m, sheet_updown 0 0 demo2 demo_mem = Ret (c, m) ∧ sheet_updown 0 5 c m = Undef.
Proof.
  destruct (windows_fine _ _ _ demo_windows) as [Hr Hs]. destruct demo_bufs as (F0 & _ & B0 & _).
  destruct (updown_spec demo2 [] demo_mem 0 0 Hr Hs) as (c & m & E & Ha & Ho & _); [lia|exact F0|exact B0|by intros ?%not_elem_of_nil|]. exists c, m. split; [exact E|]. change (reorder 0 0 []) with [0%nat] in Ho.
  apply (sheet_updown_past_top c [] 0 [] m 5); [exact Ho|rewrite (o_top _ _ Ho); cbn; lia|].
  pose proof (eq_refl : match sheet_updown 0 0 demo2 demo_mem with Ret (c, _) => match sheets c !! 1%nat with Some None => true | _ => false end | _ => false end = true) as Hn.
  rewrite E in Hn. cbn [length app]. destruct (sheets c !! 1%nat) as [[|]|]; [discriminate|reflexivity|discriminate].
Defined.
End Windows.
