(* ===== verification/Gui.v ===== *)
(** The desktop (kernel/drivers/gui.c) and the PS/2 mouse (kernel/drivers/
    mouse.c) over the window system: drawing in the buffers of the sheets,
    start-up, the decoder of mouse packets, and the pointer.  The theorems say
    that start-up shows the desktop, the window and the pointer in that order,
    that the decoder recovers the packets that were sent, and that a session of
    mouse interrupts moves the pointer and keeps the screen right. *)
From stdpp Require Import base numbers list sets strings.
From S2P Require Import Prelude Memory Io Multiboot Font Graphics Sheet Windows.
Open Scope Z_scope.

Module Gui.
Import Multiboot.Mb Sheet.Sheet.
Definition COLOR_DESKTOP := 0x008080.
Definition COLOR_TASKBAR := 0xC0C0C0.
Definition COLOR_BTN_FACE := 0xD4D0C8.
Definition COLOR_WINDOW_TITLE := 0x000080.
Definition COLOR_WHITE := 0xFFFFFF.
Definition COLOR_BLACK := 0x000000.
Definition COLOR_DARK_GRAY := 0x808080.
Definition mouse_cursor_map : list (list Z) := [
  str "**************..";
  str "*OOOOOOOOOOO*...";
  str "*OOOOOOOOOO*....";
  str "*OOOOOOOOO*.....";
  str "*OOOOOOOO*......";
  str "*OOOOOOO*.......";
  str "*OOOOOOO*.......";
  str "*OOOOOOOO*......";
  str "*OOOO**OOO*.....";
  str "*OOO*..*OOO*....";
  str "*OO*....*OOO*...";
  str "*O*......*OOO*..";
  str "**........*OOO*.";
  str "..........*OOO*.";
  str "...........***..";
  str "................"].
(** the statics; a pointer to a sheet is its index *)
Record gui := GuiSt {
  shtctl : SHTCTL;
  sht_back : option nat;
  sht_win : option nat;
  sht_mouse : option nat
}.
(** [buf[y * bxsize + x] = color] *)
Definition put (b bxs x y color : Z) (m : mem) : mem := st32 m (b + 4 * (y * bxs + x)) color.
Definition draw_rect_buf (b bxs x y w h color : Z) (m : mem) : mem :=
  foldl (λ m j, foldl (λ m i, put b bxs (x + i) (y + j) color m) m (seqZ 0 w)) m (seqZ 0 h).
Definition draw_char_buf (b bxs x y c color : Z) (m : mem) : mem :=
  if 127 <? c then m
  else foldl (λ m j, foldl (λ m i,
    if has (Graphics.font_row c j) (Z.shiftl 1 (7 - i)) then put b bxs (x + i) (y + j) color m else m) m (seqZ 0 8)) m (seqZ 0 16).
Fixpoint draw_string_buf (b bxs x y : Z) (s : list Z) (color : Z) (m : mem) : mem :=
  match s with
  | [] => m
  | c :: s => draw_string_buf b bxs (x + 8) y s color (draw_char_buf b bxs x y c color m)
  end.
Definition gui_draw_button (b bxs x y w h : Z) (text : list Z) (m : mem) : mem :=
  let m := draw_rect_buf b bxs x y w h COLOR_BTN_FACE m in
  let m := foldl (λ m i, put b bxs (x + i) (y + h - 1) COLOR_BLACK (put b bxs (x + i) y COLOR_WHITE m)) m (seqZ 0 w) in
  let m := foldl (λ m j, put b bxs (x + w - 1) (y + j) COLOR_BLACK (put b bxs x (y + j) COLOR_WHITE m)) m (seqZ 0 h) in
  let len := Z.of_nat (length text) in
  draw_string_buf b bxs (x + Z.quot (w - len * 8) 2) (y + Z.quot (h - 16) 2) text COLOR_BLACK m.
Definition gui_draw_window (b bxs w h : Z) (title : list Z) (m : mem) : mem :=
  let m := draw_rect_buf b bxs 0 0 w h COLOR_BTN_FACE m in
  let m := foldl (λ m i, put b bxs i (h - 2) COLOR_DARK_GRAY (put b bxs i (h - 1) COLOR_BLACK (put b bxs i 1 COLOR_WHITE (put b bxs i 0 COLOR_WHITE m)))) m (seqZ 0 w) in
  let m := foldl (λ m j, put b bxs (w - 2) j COLOR_DARK_GRAY (put b bxs (w - 1) j COLOR_BLACK (put b bxs 1 j COLOR_WHITE (put b bxs 0 j COLOR_WHITE m)))) m (seqZ 0 h) in
  let m := draw_rect_buf b bxs 3 3 (w - 6) 18 COLOR_WINDOW_TITLE m in
  let m := draw_string_buf b bxs 10 4 title COLOR_WHITE m in
  gui_draw_button b bxs (w - 21) 5 16 14 (str "X") m.
(** the screen's size, of graphics.c *)
Definition screen_width (g : Graphics.gfx) : Z := match Graphics.mode_info g with Some v => vbe_width v | None => 0 end.
Definition screen_height (g : Graphics.gfx) : Z := match Graphics.mode_info g with Some v => vbe_height v | None => 0 end.
Definition buf_back := 0x2000000.
Definition buf_win := 0x2400000.
Definition buf_mouse := 0x2600000.
Definition draw_desktop (w h : Z) (m : mem) : mem :=
  let m := draw_rect_buf buf_back w 0 0 w (h - 28) COLOR_DESKTOP m in
  let m := draw_rect_buf buf_back w 0 (h - 28) w 28 COLOR_TASKBAR m in
  let m := foldl (λ m i, put buf_back w i (h - 28) COLOR_WHITE m) m (seqZ 0 w) in
  gui_draw_button buf_back w 2 (h - 26) 60 24 (str "Start") m.
Definition draw_console_window (m : mem) : mem :=
  let m := gui_draw_window buf_win 400 400 300 (str "System Console") m in
  let m := draw_string_buf buf_win 400 10 30 (str "Welcome to ChaserOS 64-bit!") COLOR_BLACK m in
  let m := draw_string_buf buf_win 400 10 50 (str "Microkernel architecture") COLOR_BLACK m in
  draw_string_buf buf_win 400 10 70 (str "Windows-like UI") COLOR_BLACK m.
Definition cursor_colour (x y : Z) : Z :=
  let c := nth (Z.to_nat x) (nth (Z.to_nat y) mouse_cursor_map []) 0 in
  if c =? 42 then COLOR_BLACK else if c =? 79 then COLOR_WHITE else 99.
Definition draw_cursor (m : mem) : mem :=
  foldl (λ m y, foldl (λ m x, put buf_mouse 16 x y (cursor_colour x y) m) m (seqZ 0 16)) m (seqZ 0 16).
(** [sheet_alloc] followed by [sheet_setbuf] on its result *)
Definition alloc_with (b w h inv : Z) (c : SHTCTL) : outcome (nat * SHTCTL) :=
  match sheet_alloc c with
  | (Some i, c) => Ret (i, sheet_setbuf i b w h inv c)
  | (None, _) => Undef
  end.
Definition gui_init (g : Graphics.gfx) (c : SHTCTL) (m : mem) : outcome (gui * mem) :=
  let w := screen_width g in
  let h := screen_height g in
  let c := shtctl_init (Graphics.graphics_get_lfb g) w h (Graphics.graphics_get_pitch g) c in
  '(back, c) ← alloc_with buf_back w h (-1) c;
  let m := draw_desktop w h m in
  '(win, c) ← alloc_with buf_win 400 300 (-1) c;
  let m := draw_console_window m in
  '(mouse, c) ← alloc_with buf_mouse 16 16 99 c;
  let m := draw_cursor m in
  '(c, m) ← sheet_slide back 0 0 c m;
  '(c, m) ← sheet_slide win (Z.quot (w - 400) 2) (Z.quot (h - 300) 2) c m;
  '(c, m) ← sheet_slide mouse (Z.quot w 2) (Z.quot h 2) c m;
  '(c, m) ← sheet_updown back 0 c m;
  '(c, m) ← sheet_updown win 1 c m;
  '(c, m) ← sheet_updown mouse 2 c m;
  Ret (GuiSt c (Some back) (Some win) (Some mouse), m).
Definition gui_handle_mouse (dx dy btn : Z) (g : gui) (m : mem) : outcome (gui * mem) :=
  match sht_mouse g with
  | None => Ret (g, m)
  | Some i =>
    match sheets0 (shtctl g) !! i with
    | None => Undef
    | Some s =>
      let mx := vx0 s + dx in
      let my := vy0 s + dy in
      let mx := if mx <? 0 then 0 else mx in
      let mx := if xsize (shtctl g) - 1 <? mx then xsize (shtctl g) - 1 else mx in
      let my := if my <? 0 then 0 else my in
      let my := if ysize (shtctl g) - 1 <? my then ysize (shtctl g) - 1 else my in
      '(c, m) ← sheet_slide i mx my (shtctl g) m;
      Ret (GuiSt c (sht_back g) (sht_win g) (sht_mouse g), m)
    end
  end.

(** ** Drawing stays in the buffer *)
Section within.
Context (lo n : Z).
Definition within (m m' : mem) : Prop := (∀ a, a < lo ∨ lo + n <= a → m' a = m a) ∧ (mem_bytes m → mem_bytes m').
Lemma within_refl m : within m m.
Proof. done. Qed.
Lemma within_trans m1 m2 m3 : within m1 m2 → within m2 m3 → within m1 m3.
Proof. intros [H1 B1] [H2 B2]. split; [|auto]. intros a Ha. by rewrite H2, H1. Qed.
Lemma within_fold (f : mem → Z → mem) a k : (∀ m i, a <= i < a + k → within m (f m i)) → ∀ m, within m (foldl f m (seqZ a k)).
Proof.
  intros Hf. assert (∀ l, (∀ i, i ∈ l → a <= i < a + k) → ∀ m, within m (foldl f m l)) as Hl.
  { induction l as [|i l IH]; intros Hin m; [apply within_refl|]. cbn [foldl]. eapply within_trans; [apply Hf, Hin; apply elem_of_cons; by left|].
    apply IH. intros j Hj. apply Hin. apply elem_of_cons. by right. }
  intros m. apply Hl. intros i Hi. by apply elem_of_seqZ in Hi.
Qed.
End within.
Section buffer.
Context (b bxs bys : Z).
Notation wi := (within b (4 * (bys * bxs))).
Lemma put_within x y c m : 0 <= x < bxs → 0 <= y < bys → wi m (put b bxs x y c m).
Proof.
  intros Hx Hy. split.
  - intros a Ha. unfold put, st32. apply mwrite_out. rewrite length_le_of. nia.
  - intros Hm. apply mem_bytes_mwrite; [done|apply bytes_le_of].
Qed.
Lemma rect_within x y w h c m : 0 <= x → x + w <= bxs → 0 <= y → y + h <= bys → wi m (draw_rect_buf b bxs x y w h c m).
Proof. intros. apply within_fold. intros m1 j Hj. apply within_fold. intros m2 i Hi. apply put_within; lia. Qed.
Lemma char_within x y ch c m : 0 <= x → x + 8 <= bxs → 0 <= y → y + 16 <= bys → wi m (draw_char_buf b bxs x y ch c m).
Proof.
  intros. unfold draw_char_buf. case_if; [apply within_refl|]. apply within_fold. intros m1 j Hj. apply within_fold. intros m2 i Hi.
  case_if; [apply put_within; lia|apply within_refl].
Qed.
Lemma string_within y s c : ∀ x m, 0 <= x → x + 8 * Z.of_nat (length s) <= bxs → 0 <= y → y + 16 <= bys → wi m (draw_string_buf b bxs x y s c m).
Proof.
  induction s as [|ch s IH]; intros x m Hx Hl Hy Hh; [apply within_refl|]. cbn [draw_string_buf length] in *.
  eapply within_trans; [|apply IH; lia]. apply char_within; lia.
Qed.
Lemma button_within x y w h text m : 0 <= x → x + w <= bxs → 0 <= y → y + h <= bys → 0 < w → 0 < h → 8 * Z.of_nat (length text) <= w →
  0 <= y + Z.quot (h - 16) 2 → y + Z.quot (h - 16) 2 + 16 <= bys → wi m (gui_draw_button b bxs x y w h text m).
Proof.
  intros Hx Hw Hy Hh Hw0 Hh0 Ht Ht1 Ht2. unfold gui_draw_button. cbv zeta. rewrite (Z.quot_div_nonneg (w - _) 2) by lia.
  eapply within_trans; [|apply string_within; [zdm|zdm|done|done]].
  eapply within_trans; [|apply within_fold; intros m1 j Hj; eapply within_trans; [|apply put_within; lia]; apply put_within; lia].
  eapply within_trans; [|apply within_fold; intros m1 i Hi; eapply within_trans; [|apply put_within; lia]; apply put_within; lia]. apply rect_within; lia.
Qed.
(** what a buffer holds after some points were drawn *)
Lemma put_points (f : Z → Z → Z) : (∀ x y, 0 <= f x y < 2 ^ 32) → ∀ ps m, (∀ x y, (x, y) ∈ ps → 0 <= x < bxs ∧ 0 <= y < bys) → ∀ x y, 0 <= x < bxs → 0 <= y < bys →
  ld32 (foldl (λ m p, put b bxs (fst p) (snd p) (f (fst p) (snd p)) m) m ps) (b + 4 * (y * bxs + x)) =
  if decide ((x, y) ∈ ps) then f x y else ld32 m (b + 4 * (y * bxs + x)).
Proof.
  intros Hf. induction ps as [|[px py] ps IH]; intros m Hps x y Hx Hy; [by rewrite decide_False by apply not_elem_of_nil|]. cbn [foldl fst snd].
  rewrite IH by (done || (intros; apply Hps; apply elem_of_cons; by right)). destruct (Hps px py) as [Hpx Hpy]; [apply elem_of_cons; by left|].
  destruct (decide ((x, y) ∈ ps)) as [Hin|Hin]; [by rewrite decide_True by (apply elem_of_cons; by right)|]. unfold put.
  destruct (decide ((x, y) = (px, py))) as [E|E].
  - injection E as -> ->. rewrite decide_True by (apply elem_of_cons; by left). by apply ld32_st32.
  - rewrite decide_False by (rewrite elem_of_cons; tauto). apply ld32_st32_disj. destruct (decide (y = py)) as [->|]; [assert (x ≠ px) by (intros ->; done); lia|nia].
Qed.
End buffer.
Lemma window_within m : within buf_win (4 * (300 * 400)) m (draw_console_window m).
Proof.
  unfold draw_console_window, gui_draw_window. cbv zeta. do 3 (eapply within_trans; [|apply (string_within buf_win 400 300); vm_compute; congruence]).
  eapply within_trans; [|apply (button_within buf_win 400 300); vm_compute; congruence]. eapply within_trans; [|apply (string_within buf_win 400 300); vm_compute; congruence].
  eapply within_trans; [|apply (rect_within buf_win 400 300); lia].
  do 2 (eapply within_trans; [|apply within_fold; intros m1 i Hi; do 4 (eapply within_trans; [|apply (put_within buf_win 400 300); lia]); apply within_refl]).
  apply (rect_within buf_win 400 300); lia.
Qed.
Lemma desktop_within w h m : 62 <= w → 28 <= h → within buf_back (4 * (h * w)) m (draw_desktop w h m).
Proof.
  intros Hw Hh. unfold draw_desktop. cbv zeta. eapply within_trans; [|apply (button_within buf_back w h); change (length (str "Start")) with 5%nat; change (Z.quot (24 - 16) 2) with 4; lia].
  eapply within_trans; [|apply within_fold; intros m1 i Hi; apply (put_within buf_back w h); lia].
  eapply within_trans; [|apply (rect_within buf_back w h); lia]. apply (rect_within buf_back w h); lia.
Qed.
Lemma cursor_points m : draw_cursor m = foldl (λ m p, put buf_mouse 16 (fst p) (snd p) (cursor_colour (fst p) (snd p)) m) m (box_points (0, 0, 16, 16)).
Proof. apply (for_box_points (0, 0, 16, 16) (λ x y, put buf_mouse 16 x y (cursor_colour x y))). Qed.
Lemma cursor_colour_range x y : 0 <= cursor_colour x y < 2 ^ 32.
Proof. unfold cursor_colour. cbv zeta. case_if; [done|]. by case_if. Qed.
Lemma cursor_drawn m x y : 0 <= x < 16 → 0 <= y < 16 → ld32 (draw_cursor m) (buf_mouse + 4 * (y * 16 + x)) = cursor_colour x y.
Proof.
  intros Hx Hy. rewrite cursor_points, (put_points buf_mouse 16 16 cursor_colour cursor_colour_range) by (done || (intros ? ?; by rewrite elem_box)).
  by rewrite decide_True by (by rewrite elem_box).
Qed.
Lemma cursor_within m : within buf_mouse (4 * (16 * 16)) m (draw_cursor m).
Proof. apply within_fold. intros m1 y Hy. apply within_fold. intros m2 x Hx. apply (put_within buf_mouse 16 16); lia. Qed.

(** ** The desktop *)
(** a screen of 32-bit pixels for which the fixed addresses of the buffers and
    of the map do not overlap each other or the video memory *)
Record fits (v : vbe_mode_info) : Prop := {
  fit_size : 62 <= vbe_width v ∧ 28 <= vbe_height v;
  fit_back : 4 * (vbe_height v * vbe_width v) <= buf_win - buf_back;
  fit_pitch : vbe_width v * 4 <= vbe_pitch v;
  fit_vram : vbe_framebuffer v + vbe_height v * vbe_pitch v <= buf_back ∨ 0x3000000 + vbe_height v * vbe_width v <= vbe_framebuffer v
}.
(** the pointer at [(x, y)] over the window over the desktop *)
Record desktop (v : vbe_mode_info) (g : gui) (m : mem) (x y : Z) : Prop := {
  d_sheets : sht_back g = Some 0%nat ∧ sht_win g = Some 1%nat ∧ sht_mouse g = Some 2%nat;
  d_windows : Windows.windows (shtctl g) [0%nat; 1%nat; 2%nat] m;
  d_screen : vram (shtctl g) = vbe_framebuffer v ∧ map (shtctl g) = 0x3000000 ∧ xsize (shtctl g) = vbe_width v ∧ ysize (shtctl g) = vbe_height v ∧ pitch (shtctl g) = vbe_pitch v;
  d_back : sh (shtctl g) 0 = Sht buf_back (vbe_width v) (vbe_height v) 0 0 (-1) 0 SHEET_USE;
  d_win : sh (shtctl g) 1 = Sht buf_win 400 300 (Z.quot (vbe_width v - 400) 2) (Z.quot (vbe_height v - 300) 2) (-1) 1 SHEET_USE;
  d_mouse : sh (shtctl g) 2 = Sht buf_mouse 16 16 x y 99 2 SHEET_USE;
  d_cursor : ∀ bx by_, 0 <= bx < 16 → 0 <= by_ < 16 → ld32 m (buf_mouse + 4 * (by_ * 16 + bx)) = cursor_colour bx by_
}.
Section init.
Context (v : vbe_mode_info) (Hv : fits v).
Notation W := (vbe_width v).
Notation H := (vbe_height v).
(** the controller after the three sheets were set up and placed *)
Definition ctl0 : SHTCTL := shtctl_init (vbe_framebuffer v) W H (vbe_pitch v) Windows.ctl_instance.
Definition new_sheet (i : nat) (b w h inv : Z) (c : SHTCTL) : SHTCTL := sheet_setbuf i b w h inv (upd i (λ s, set_height (-1) (set_flags SHEET_USE s)) c).
Definition ctl1 : SHTCTL := new_sheet 0 buf_back W H (-1) ctl0.
Definition ctl2 : SHTCTL := new_sheet 1 buf_win 400 300 (-1) ctl1.
Definition ctl3 : SHTCTL := new_sheet 2 buf_mouse 16 16 99 ctl2.
Definition ctl4 : SHTCTL := upd 0 (set_pos 0 0) ctl3.
Definition ctl5 : SHTCTL := upd 1 (set_pos (Z.quot (W - 400) 2) (Z.quot (H - 300) 2)) ctl4.
Definition ctl6 : SHTCTL := upd 2 (set_pos (Z.quot W 2) (Z.quot H 2)) ctl5.
Lemma ctl6_sheets : sh ctl6 0 = Sht buf_back W H 0 0 (-1) (-1) SHEET_USE ∧
  sh ctl6 1 = Sht buf_win 400 300 (Z.quot (W - 400) 2) (Z.quot (H - 300) 2) (-1) (-1) SHEET_USE ∧
  sh ctl6 2 = Sht buf_mouse 16 16 (Z.quot W 2) (Z.quot H 2) 99 (-1) SHEET_USE.
Proof. split; [reflexivity|]. split; reflexivity. Qed.
(** writing a buffer is no change of the screen *)
Lemma write_buf c b w h m m' : same_screen ctl0 c → within b (4 * (h * w)) m m' → mem_bytes m → buf_back <= b → b + 4 * (h * w) <= 0x3000000 → Windows.client_write c [] m m'.
Proof.
  intros (E1 & E2 & E3 & E4 & E5) [Hw Hb] Hm H1 H2. split; [by apply Hb|]. split; [|by intros i x y ?%not_elem_of_nil].
  intros a Ha. apply Hw. destruct Hv as [[Hs1 Hs2] Hbk Hp Hvr]. unfold in_map, in_vram in Ha. rewrite E1, E2, E3, E4, E5 in Ha. cbn [map vram xsize ysize pitch ctl0 shtctl_init] in Ha. unfold buf_back in *. lia.
Qed.
Lemma ctl_laid : laid ctl0.
Proof.
  destruct Hv as [[Hs1 Hs2] Hbk Hp Hvr]. split; unfold in_map, in_vram; cbn [map vram xsize ysize pitch ctl0 shtctl_init]; [lia|lia|]. intros a Ha. unfold buf_back in *. nia.
Qed.
Lemma ctl_bufs c : same_screen ctl0 c → (∀ i : nat, (i < 3)%nat → buf (sh c i) = buf (sh ctl6 i) ∧ bxsize (sh c i) = bxsize (sh ctl6 i) ∧ bysize (sh c i) = bysize (sh ctl6 i)) →
  ∀ i : nat, (i < 3)%nat → buf_ok c (sh c i).
Proof.
  intros (E1 & E2 & E3 & E4 & E5) Hsh i Hi. destruct (Hsh i Hi) as (Eb & Ew & Eh). destruct Hv as [[Hs1 Hs2] Hbk Hp Hvr]. unfold buf_ok, in_map, in_vram.
  rewrite E1, E2, E3, E4, E5, Eb, Ew, Eh. cbn [map vram xsize ysize pitch ctl0 shtctl_init]. destruct ctl6_sheets as (S0 & S1 & S2). unfold buf_back, buf_win, buf_mouse in *.
  assert (0 <= H * W) by nia.
  destruct i as [|[|[|i]]]; [rewrite S0|rewrite S1|rewrite S2|lia]; cbn [buf bxsize bysize]; (split; [lia|split; [lia|intros a Ha; lia]]).
Qed.
Lemma slide_hidden c i x y l : sheets0 c !! i = Some (sh c i) → height (sh c i) = -1 → sheet_slide i x y c l = Ret (upd i (set_pos x y) c, l).
Proof. intros Hs Hh. unfold sheet_slide. by rewrite Hs, Hh. Qed.
Lemma init_windows m : mem_bytes m → Windows.windows ctl6 [] (draw_cursor (draw_console_window (draw_desktop W H m))).
Proof.
  intros Hm. pose proof Hv as [[Hs1 Hs2] Hbk Hp Hvr]. unfold buf_win, buf_back in Hbk.
  pose proof (desktop_within W H m Hs1 Hs2) as D1. pose proof (window_within (draw_desktop W H m)) as D2. pose proof (cursor_within (draw_console_window (draw_desktop W H m))) as D3.
  set (m1 := draw_desktop W H m) in *. set (m2 := draw_console_window m1) in *. set (m3 := draw_cursor m2) in *.
  assert (mem_bytes m1) as B1 by (by apply D1). assert (mem_bytes m2) as B2 by (by apply D2).
  assert (∀ c i b w h inv l, Windows.windows c [] l → sheet_alloc c = (Some i, upd i (λ s, set_height (-1) (set_flags SHEET_USE s)) c) → (i < 256)%nat → Windows.windows (new_sheet i b w h inv c) [] l) as Hnew.
  { intros c i b w h inv l Hw E Hi. apply Windows.W_setbuf; [by eapply Windows.W_alloc|done|by intros ?%not_elem_of_nil]. }
  assert (∀ c i x y l, Windows.windows c [] l → (i < 256)%nat → flags (sh c i) ≠ 0 → sheets0 c !! i = Some (sh c i) → height (sh c i) = -1 → Windows.windows (upd i (set_pos x y) c) [] l) as Hmove.
  { intros c i x y l Hw Hi Hf Hs Hh. eapply Windows.W_slide; [exact Hw|exact Hi|exact Hf|]. by apply slide_hidden. }
  assert (Windows.windows ctl3 [] m3) as H3.
  { apply Hnew; [|reflexivity|lia]. apply Hnew; [|reflexivity|lia]. apply Hnew; [|reflexivity|lia].
    eapply Windows.W_write; [|apply (write_buf ctl0 buf_mouse 16 16 m2 m3); [repeat split|exact D3|exact B2|vm_compute; discriminate|vm_compute; discriminate]].
    eapply Windows.W_write; [|apply (write_buf ctl0 buf_win 400 300 m1 m2); [repeat split|exact D2|exact B1|vm_compute; discriminate|vm_compute; discriminate]].
    eapply Windows.W_write; [|apply (write_buf ctl0 buf_back W H m m1); [repeat split|exact D1|exact Hm|lia|unfold buf_back; lia]].
    apply Windows.W_init; [apply ctl_laid|exact Hm]. }
  unfold ctl6, ctl5, ctl4. do 3 (apply Hmove; [|lia|discriminate|reflexivity|reflexivity]). exact H3.
Qed.
Lemma kept_same c c' m m' : same_screen c c' → kept c' m m' → kept c m m'.
Proof. intros (E1 & E2 & E3 & E4 & E5) Hk a Ha Hb. apply Hk; unfold in_map, in_vram in *; by rewrite ?E1, ?E2, ?E3, ?E4, ?E5. Qed.
(** showing a sheet on top of the others *)
Lemma show_top c zs m i : Windows.windows c zs m → (i < 256)%nat → i ∉ zs → flags (sh c i) ≠ 0 → buf_ok c (sh c i) →
  ∃ c' m', sheet_updown i (Z.of_nat (length zs)) c m = Ret (c', m') ∧ Windows.windows c' (zs ++ [i]) m' ∧ alike c c' ∧ kept c m m'.
Proof.
  intros Hw Hi Hn Hf Hb. pose proof (Windows.windows_fine _ _ _ Hw) as [Hr Hs]. assert (i ∈ zs → Z.of_nat (length zs) <= top c) as Hh by done.
  destruct (updown_spec c zs m i (Z.of_nat (length zs)) Hr Hs Hi Hf Hb Hh) as (c' & m' & E & Ha & _ & _ & Hk & _). exists c', m'. split; [done|]. split; [|done].
  pose proof (Windows.W_updown c zs m i (Z.of_nat (length zs)) c' m' Hw Hi Hf Hb Hh E) as Hw'. unfold reorder in Hw'. rewrite filter_absent in Hw' by done.
  rewrite (proj2 (Z.ltb_ge _ 0)), Nat2Z.id, take_ge, drop_ge in Hw' by lia. done.
Qed.
Lemma alike_sheet c c' i : alike c c' → flags (sh c i) ≠ 0 → buf_ok c (sh c i) → flags (sh c' i) ≠ 0 ∧ buf_ok c' (sh c' i).
Proof. intros Ha Hf Hb. split; [|by apply (alike_buf c)]. destruct Ha as (_ & _ & _ & Hsh). by rewrite Hsh. Qed.
Lemma show_three m : Windows.windows ctl6 [] m → ∃ c1 c2 c3 m1 m2 m3, sheet_updown 0 0 ctl6 m = Ret (c1, m1) ∧ sheet_updown 1 1 c1 m1 = Ret (c2, m2) ∧
  sheet_updown 2 2 c2 m2 = Ret (c3, m3) ∧ Windows.windows c3 [0%nat; 1%nat; 2%nat] m3 ∧ alike ctl6 c3 ∧ kept ctl6 m m3.
Proof.
  intros Hw. pose proof (ctl_bufs ctl6 ltac:(repeat split) ltac:(done)) as Hb. assert (∀ i : nat, (i < 3)%nat → flags (sh ctl6 i) ≠ 0) as Hf by (intros [|[|[|]]] ?; [discriminate..|lia]).
  destruct (show_top ctl6 [] m 0 Hw) as (c1 & m1 & E1 & W1 & A1 & K1); [lia|by intros ?%not_elem_of_nil|apply Hf; lia|apply Hb; lia|].
  destruct (alike_sheet ctl6 c1 1 A1 (Hf 1%nat ltac:(lia)) (Hb 1%nat ltac:(lia))) as [F1 B1].
  destruct (show_top c1 [0%nat] m1 1 W1) as (c2 & m2 & E2 & W2 & A2 & K2); [lia|by intros ?%list_elem_of_singleton|exact F1|exact B1|].
  pose proof (alike_trans _ _ _ A1 A2) as A12. destruct (alike_sheet ctl6 c2 2 A12 (Hf 2%nat ltac:(lia)) (Hb 2%nat ltac:(lia))) as [F2 B2].
  destruct (show_top c2 [0%nat; 1%nat] m2 2 W2) as (c3 & m3 & E3 & W3 & A3 & K3); [lia|rewrite elem_of_cons, list_elem_of_singleton; lia|exact F2|exact B2|].
  exists c1, c2, c3, m1, m2, m3. split; [exact E1|]. split; [exact E2|]. split; [exact E3|]. split; [exact W3|]. split; [by eapply alike_trans|].
  eapply kept_trans; [exact K1|]. apply (kept_same ctl6 c1); [apply A1|]. eapply kept_trans; [exact K2|]. apply (kept_same c1 c2); [apply A2|done].
Qed.
(** the cursor's bytes are neither in the map nor in the video memory *)
Lemma cursor_kept c m m' x y : same_screen ctl0 c → kept c m m' → 0 <= x < 16 → 0 <= y < 16 → ld32 m' (buf_mouse + 4 * (y * 16 + x)) = ld32 m (buf_mouse + 4 * (y * 16 + x)).
Proof.
  intros Hc Hk Hx Hy. unfold ld32. f_equal. apply mread_ext. intros a Ha. apply (kept_same _ _ _ _ Hc) in Hk. pose proof Hv as [[Hs1 Hs2] Hbk Hp Hvr].
  unfold buf_mouse, buf_back in *. assert (0 <= H * W) by nia. apply Hk; unfold in_map, in_vram; cbn [map vram xsize ysize pitch ctl0 shtctl_init]; lia.
Qed.
(** the calls of [gui_init] in a row *)
Lemma gui_init_calls g c w h k1 k2 k3 k4 k5 k6 k7 k8 k9 m m1 m2 m3 : screen_width g = w → screen_height g = h →
  alloc_with buf_back w h (-1) (shtctl_init (Graphics.graphics_get_lfb g) w h (Graphics.graphics_get_pitch g) c) = Ret (0%nat, k1) →
  alloc_with buf_win 400 300 (-1) k1 = Ret (1%nat, k2) → alloc_with buf_mouse 16 16 99 k2 = Ret (2%nat, k3) →
  (∀ l, sheet_slide 0 0 0 k3 l = Ret (k4, l)) → (∀ l, sheet_slide 1 (Z.quot (w - 400) 2) (Z.quot (h - 300) 2) k4 l = Ret (k5, l)) →
  (∀ l, sheet_slide 2 (Z.quot w 2) (Z.quot h 2) k5 l = Ret (k6, l)) →
  sheet_updown 0 0 k6 (draw_cursor (draw_console_window (draw_desktop w h m))) = Ret (k7, m1) → sheet_updown 1 1 k7 m1 = Ret (k8, m2) → sheet_updown 2 2 k8 m2 = Ret (k9, m3) →
  gui_init g c m = Ret (GuiSt k9 (Some 0%nat) (Some 1%nat) (Some 2%nat), m3).
Proof.
  intros Ew Eh A1 A2 A3 S1 S2 S3 U1 U2 U3. unfold gui_init. rewrite Ew, Eh. cbv zeta. rewrite A1. ostep. rewrite A2. ostep. rewrite A3. ostep.
  rewrite S1. ostep. rewrite S2. ostep. rewrite S3. ostep. rewrite U1. ostep. rewrite U2. ostep. rewrite U3. ostep. done.
Qed.
Lemma init_allocs : alloc_with buf_back W H (-1) (shtctl_init (Graphics.graphics_get_lfb (Graphics.graphics_init v)) W H (Graphics.graphics_get_pitch (Graphics.graphics_init v)) Windows.ctl_instance) = Ret (0%nat, ctl1) ∧
  alloc_with buf_win 400 300 (-1) ctl1 = Ret (1%nat, ctl2) ∧ alloc_with buf_mouse 16 16 99 ctl2 = Ret (2%nat, ctl3).
Proof. split; [reflexivity|]. split; reflexivity. Qed.
Lemma init_slides l : sheet_slide 0 0 0 ctl3 l = Ret (ctl4, l) ∧ sheet_slide 1 (Z.quot (W - 400) 2) (Z.quot (H - 300) 2) ctl4 l = Ret (ctl5, l) ∧
  sheet_slide 2 (Z.quot W 2) (Z.quot H 2) ctl5 l = Ret (ctl6, l).
Proof. split; [|split]; apply slide_hidden; reflexivity. Qed.
Lemma init_shown c3 m0 m3 : (∀ x y, 0 <= x < 16 → 0 <= y < 16 → ld32 m0 (buf_mouse + 4 * (y * 16 + x)) = cursor_colour x y) →
  Windows.windows c3 [0%nat; 1%nat; 2%nat] m3 → alike ctl6 c3 → kept ctl6 m0 m3 → desktop v (GuiSt c3 (Some 0%nat) (Some 1%nat) (Some 2%nat)) m3 (Z.quot W 2) (Z.quot H 2).
Proof.
  intros Hc W3 A3 K3. destruct (Windows.windows_fine _ _ _ W3) as [[_ Ho _ _] _]. pose proof (o_height _ _ Ho) as (H0 & H1 & H2 & _). pose proof A3 as (Hscr & _ & _ & Hsh).
  destruct ctl6_sheets as (S0 & S1 & S2). split; cbn [shtctl sht_back sht_win sht_mouse]; [done|done|exact Hscr| | | |].
  - by rewrite Hsh, H0, S0.
  - by rewrite Hsh, H1, S1.
  - by rewrite Hsh, H2, S2.
  - intros bx by_ Hx Hy. rewrite (cursor_kept ctl6 m0 m3); [by apply Hc|repeat split|exact K3|exact Hx|exact Hy].
Qed.
Lemma init_run m : mem_bytes m → ∃ g m', gui_init (Graphics.graphics_init v) Windows.ctl_instance m = Ret (g, m') ∧ desktop v g m' (Z.quot W 2) (Z.quot H 2).
Proof.
  intros Hm. pose proof (init_windows m Hm) as Hw. pose proof (cursor_drawn (draw_console_window (draw_desktop W H m))) as Hc.
  pose proof (λ c1 c2 c3, gui_init_calls (Graphics.graphics_init v) Windows.ctl_instance W H ctl1 ctl2 ctl3 ctl4 ctl5 ctl6 c1 c2 c3 m) as Hrun.
  generalize dependent (draw_cursor (draw_console_window (draw_desktop W H m))). intros m0 Hw Hc Hrun.
  destruct (show_three m0 Hw) as (c1 & c2 & c3 & m1 & m2 & m3 & E1 & E2 & E3 & W3 & A3 & K3).
  exists (GuiSt c3 (Some 0%nat) (Some 1%nat) (Some 2%nat)), m3. split; [|by apply (init_shown c3 m0 m3)].
  destruct init_allocs as (L1 & L2 & L3).
  apply (Hrun c1 c2 c3 m1 m2 m3 eq_refl eq_refl L1 L2 L3 (λ l, proj1 (init_slides l)) (λ l, proj1 (proj2 (init_slides l))) (λ l, proj2 (proj2 (init_slides l))) E1 E2 E3).
Qed.
(** ** The pointer *)
Definition clamp (n a : Z) : Z := Z.min (n - 1) (Z.max 0 a).
Lemma handle_mouse_spec g m x y dx dy btn : desktop v g m x y →
  ∃ g' m', gui_handle_mouse dx dy btn g m = Ret (g', m') ∧ desktop v g' m' (clamp W (x + dx)) (clamp H (y + dy)).
Proof.
  intros [(Eb & Ew & Em) Hw Hscr Hback Hwin Hmouse Hcur]. pose proof Hv as [[Hs1 Hs2] _ _ _]. destruct (Windows.windows_fine _ _ _ Hw) as [Hr Hs]. pose proof (r_order _ _ _ Hr) as Ho.
  unfold gui_handle_mouse. rewrite Em, (sh_lookup _ _ 2 Ho) by lia. rewrite Hmouse. cbn [vx0 vy0]. pose proof Hscr as (_ & _ & Ex & Ey & _). rewrite Ex, Ey.
  assert (∀ n a, 0 < n → (if n - 1 <? (if a <? 0 then 0 else a) then n - 1 else (if a <? 0 then 0 else a)) = clamp n a) as Hcl.
  { intros n a Hn. unfold clamp. destruct (Z.ltb_spec a 0), (Z.ltb_spec (n - 1) 0), (Z.ltb_spec (n - 1) a); lia. }
  rewrite !Hcl by lia. set (x' := clamp W (x + dx)). set (y' := clamp H (y + dy)).
  assert (flags (sh (shtctl g) 2) ≠ 0) as Hf by (by rewrite Hmouse).
  destruct (slide_spec (shtctl g) _ m 2 x' y' Hr Hs ltac:(lia) Hf) as (m' & E & _ & _ & Hk & _). rewrite E. ostep.
  eexists _, m'. split; [done|]. split; cbn [shtctl sht_back sht_win sht_mouse]; [done| |exact Hscr| | | |].
  - apply (Windows.W_slide (shtctl g) _ m 2 x' y'); [exact Hw|lia|exact Hf|exact E].
  - rewrite (slide_pool _ _ 2 x' y' Ho), decide_False by lia. done.
  - rewrite (slide_pool _ _ 2 x' y' Ho), decide_False by lia. done.
  - rewrite (slide_pool _ _ 2 x' y' Ho), decide_True by lia. by rewrite Hmouse.
  - intros bx by_ Hx Hy. rewrite (cursor_kept (shtctl g) m m'); [by apply Hcur|exact Hscr|exact Hk|exact Hx|exact Hy].
Qed.
(** the pointer is drawn over everything else *)
Lemma cursor_shown g m x y bx by_ : desktop v g m x y → 0 <= bx < 16 → 0 <= by_ < 16 → 0 <= x + bx < W → 0 <= y + by_ < H → cursor_colour bx by_ ≠ 99 →
  ld32 m (vbe_framebuffer v + (y + by_) * vbe_pitch v + (x + bx) * 4) = cursor_colour bx by_.
Proof.
  intros [_ Hw (E1 & E2 & E3 & E4 & E5) _ _ Hmouse Hcur] Hbx Hby Hx Hy Hne. destruct (Windows.windows_fine _ _ _ Hw) as [_ Hs].
  assert (colour m (sh (shtctl g) 2) (x + bx) (y + by_) = cursor_colour bx by_) as Ec.
  { rewrite Hmouse. unfold colour, pixel. cbn [vx0 vy0 buf bxsize]. rewrite <-Hcur by done. f_equal. lia. }
  destruct (Hs (x + bx) (y + by_) 2%nat) as [_ Hp].
  - unfold on_screen. by rewrite E3, E4.
  - cbn [top_at]. assert (seen m (sh (shtctl g) 2) (x + bx) (y + by_) = true) as ->; [|done]. unfold seen, opaque. rewrite Ec, Hmouse. unfold covers. cbn [vx0 vy0 bxsize bysize col_inv].
    rewrite !(proj2 (Z.leb_le _ _)), !(proj2 (Z.ltb_lt _ _)) by lia. change (u32 99) with 99. rewrite (proj2 (Z.eqb_neq _ 99)) by done. done.
  - rewrite <-Ec, <-Hp. unfold vram_at. by rewrite E1, E5.
Qed.
End init.
End Gui.

Module Mouse.
Import Multiboot.Mb Gui Io.
Record mouse_dec_t := Dec { buf0 : Z; buf1 : Z; buf2 : Z; phase : Z; dec_x : Z; dec_y : Z; dec_btn : Z }.
Definition set_phase (p : Z) (d : mouse_dec_t) : mouse_dec_t := Dec (buf0 d) (buf1 d) (buf2 d) p (dec_x d) (dec_y d) (dec_btn d).
Definition mouse_decode (d : mouse_dec_t) (dat : Z) : Z * mouse_dec_t :=
  if phase d =? 0 then (0, if dat =? 0xfa then set_phase 1 d else d)
  else if phase d =? 1 then
    (0, if Z.land dat 0xc8 =? 0x08 then Dec dat (buf1 d) (buf2 d) 2 (dec_x d) (dec_y d) (dec_btn d) else d)
  else if phase d =? 2 then (0, Dec (buf0 d) dat (buf2 d) 3 (dec_x d) (dec_y d) (dec_btn d))
  else if phase d =? 3 then (1, Dec (buf0 d) (buf1 d) dat 1 (i8 (buf1 d)) (i8 dat) (Z.land (buf0 d) 0x07))
  else (-1, d).
Section ports.
Context {D : Type} `{Ports D}.
Fixpoint wait_kbc_sendready (fuel : nat) : est D unit :=
  st ← in_b 0x64;
  if has st 0x02 then match fuel with O => est_lift Loop | S fuel => wait_kbc_sendready fuel end else mret tt.
Definition send_ready (fuel : nat) (port v : Z) : est D unit := _ ← wait_kbc_sendready fuel; out_b port v.
Definition mouse_init (fuel : nat) (mdec : mouse_dec_t) : est D mouse_dec_t :=
  _ ← send_ready fuel 0x64 0x60;
  _ ← send_ready fuel 0x60 0x47;
  _ ← send_ready fuel 0x64 0xd4;
  _ ← send_ready fuel 0x60 0xf4;
  mret (set_phase 0 mdec).
(** the machine, the decoder and the desktop *)
Record desk := Desk { dev : D; mdec : mouse_dec_t; screen : gui; dmem : mem }.
Definition mouse_handler (k : desk) : outcome desk :=
  let '(dat, d) := inb 0x60 (dev k) in
  let '(r, md) := mouse_decode (mdec k) dat in
  if 0 <? r then '(g, m) ← gui_handle_mouse (dec_x md) (- dec_y md) (dec_btn md) (screen k) (dmem k); Ret (Desk d md g m)
  else Ret (Desk d md (screen k) (dmem k)).
End ports.

(** ** Packets *)
(** A report of a PS/2 mouse: the movement since the last one, two 9-bit
    two's complement numbers, and the buttons.  On the wire it is a header
    byte (buttons in bits 0 to 2, bit 3 set, the signs of the movements in
    bits 4 and 5, the overflow flags in bits 6 and 7) and the low 8 bits of
    each movement. *)
Record packet := Packet { p_dx : Z; p_dy : Z; p_btn : Z }.
Definition sign_bit (v mask : Z) : Z := if v <? 0 then mask else 0.
Definition packet_head (p : packet) : Z :=
  Z.lor (Z.lor (Z.lor (p_btn p) 0x08) (sign_bit (p_dx p) 0x10)) (sign_bit (p_dy p) 0x20).
Definition packet_bytes (p : packet) : list Z := [packet_head p; u8 (p_dx p); u8 (p_dy p)].
(** a report that the protocol can express without overflow *)
Definition packet_wire (p : packet) : Prop := 0 <= p_btn p < 8 ∧ -256 <= p_dx p < 256 ∧ -256 <= p_dy p < 256.
(** one whose movements also fit in 8 bits, the only ones decoded rightly *)
Definition packet_ok (p : packet) : Prop := 0 <= p_btn p < 8 ∧ -128 <= p_dx p < 128 ∧ -128 <= p_dy p < 128.
(** a byte that cannot start a packet *)
Definition noise (b : Z) : Prop := Z.land b 0xc8 ≠ 0x08.
(** the movements that are reported *)
Definition event : Type := Z * Z * Z.
Definition packet_event (p : packet) : event := (p_dx p, p_dy p, p_btn p).
Fixpoint decode_all (bs : list Z) (d : mouse_dec_t) : list event * mouse_dec_t :=
  match bs with
  | [] => ([], d)
  | b :: bs =>
    let '(r, d) := mouse_decode d b in
    let '(es, d') := decode_all bs d in
    ((if 0 <? r then [(dec_x d, dec_y d, dec_btn d)] else []) ++ es, d')
  end.
Section decode.
Implicit Types (d : mouse_dec_t).
Lemma decode_app bs1 : ∀ bs2 d, decode_all (bs1 ++ bs2) d =
  (fst (decode_all bs1 d) ++ fst (decode_all bs2 (snd (decode_all bs1 d))), snd (decode_all bs2 (snd (decode_all bs1 d)))).
Proof.
  induction bs1 as [|b bs1 IH]; intros bs2 d; [by cbn [decode_all app fst snd]; destruct (decode_all bs2 d)|]. cbn [app decode_all].
  destruct (mouse_decode d b) as [r d1]. rewrite IH. destruct (decode_all bs1 d1) as [es d2]. cbn [fst snd]. by rewrite app_assoc.
Qed.
Lemma decode_ack d : phase d = 0 → mouse_decode d 0xfa = (0, set_phase 1 d).
Proof. intros Hp. unfold mouse_decode. by rewrite Hp. Qed.
Lemma decode_noise bs : ∀ d, phase d = 1 → Forall noise bs → decode_all bs d = ([], d).
Proof.
  induction bs as [|b bs IH]; intros d Hp Hn; [done|]. apply Forall_cons in Hn as [Hb Hn]. cbn [decode_all]. unfold mouse_decode. rewrite Hp.
  change (1 =? 0) with false. change (1 =? 1) with true. cbn iota. rewrite (proj2 (Z.eqb_neq _ _) Hb). rewrite IH by done. done.
Qed.
Lemma head_fields p : 0 <= p_btn p < 8 → Z.land (packet_head p) 0xc8 = 0x08 ∧ Z.land (packet_head p) 0x07 = p_btn p.
Proof.
  destruct p as [dx dy b]. unfold packet_head, sign_bit. cbn [p_dx p_dy p_btn]. intros Hb.
  assert (b = 0 ∨ b = 1 ∨ b = 2 ∨ b = 3 ∨ b = 4 ∨ b = 5 ∨ b = 6 ∨ b = 7) as Hc by lia.
  destruct (dx <? 0), (dy <? 0); by repeat destruct Hc as [->|Hc]; [..|subst b].
Qed.
(** the sign bits of the header are not looked at: the movements are reported
    modulo 256 *)
Lemma decode_wire p d : phase d = 1 → packet_wire p → decode_all (packet_bytes p) d =
  ([(i8 (p_dx p), i8 (p_dy p), p_btn p)],
   Dec (packet_head p) (u8 (p_dx p)) (u8 (p_dy p)) 1 (i8 (u8 (p_dx p))) (i8 (u8 (p_dy p))) (Z.land (packet_head p) 0x07)).
Proof.
  intros Hp [Hb _]. destruct (head_fields p Hb) as [Hh Hbtn]. unfold packet_bytes. cbn [decode_all]. unfold mouse_decode at 1. rewrite Hp.
  change (1 =? 0) with false. change (1 =? 1) with true. cbn iota. rewrite (proj2 (Z.eqb_eq _ _) Hh).
  assert (∀ x, i8 (u8 x) = i8 x) as Hi by (intros x; unfold i8, swrap, u8; by rewrite Z.mod_mod by lia).
  replace (i8 (p_dx p), i8 (p_dy p), p_btn p)
    with (i8 (u8 (p_dx p)), i8 (u8 (p_dy p)), Z.land (packet_head p) 0x07) by (by rewrite !Hi, Hbtn). done.
Qed.
Lemma decode_packet p d : phase d = 1 → packet_ok p → decode_all (packet_bytes p) d =
  ([packet_event p],
   Dec (packet_head p) (u8 (p_dx p)) (u8 (p_dy p)) 1 (i8 (u8 (p_dx p))) (i8 (u8 (p_dy p))) (Z.land (packet_head p) 0x07)).
Proof.
  intros Hp (Hb & Hx & Hy). assert (∀ x, -128 <= x < 128 → i8 x = x) as Hi by (intros x Hr; unfold i8, swrap; case_if; zdm).
  rewrite decode_wire by (done || (unfold packet_wire; lia)). by rewrite !Hi by done.
Qed.
(** a movement of 200 to the right is reported as one of 56 to the left *)
Lemma wide_movement_wrong : packet_wire (Packet 200 0 0) ∧ ∀ d, phase d = 1 → fst (decode_all (packet_bytes (Packet 200 0 0)) d) = [(-56, 0, 0)].
Proof.
  assert (packet_wire (Packet 200 0 0)) as Hw by (unfold packet_wire; cbn; lia). split; [exact Hw|]. intros d Hp. by rewrite (decode_wire _ d Hp Hw).
Qed.
(** noise and packets in turn *)
Lemma decode_stream (l : list (list Z * packet)) : ∀ d, phase d = 1 → Forall (λ q, Forall noise (fst q) ∧ packet_ok (snd q)) l →
  let bs := concat ((λ q, fst q ++ packet_bytes (snd q)) <$> l) in fst (decode_all bs d) = (packet_event ∘ snd) <$> l ∧ phase (snd (decode_all bs d)) = 1.
Proof.
  induction l as [|[ns p] l IH]; intros d Hp Hl; [done|]. apply Forall_cons in Hl as [[Hn Hok] Hl]. cbn [fst snd] in *.
  cbn [fmap list_fmap concat fst snd]. rewrite decode_app. cbn [fst snd].
  assert (∃ d1, decode_all (ns ++ packet_bytes p) d = ([packet_event p], d1) ∧ phase d1 = 1) as (d1 & -> & Hd1).
  { rewrite decode_app, (decode_noise ns d Hp Hn). cbn [fst snd]. rewrite (decode_packet p d Hp Hok). by eexists. }
  cbn [fst snd]. destruct (IH d1 Hd1 Hl) as [E1 E2]. split; [|exact E2]. cbn [app]. f_equal. exact E1.
Qed.
End decode.

(** ** The hardware *)
(** a keyboard controller that is busy for a bounded number of polls after
    each byte it is sent, with bytes of the mouse to be read *)
Class MouseHw (D : Type) `{Ports D} := {
  mh_rep : D → list (Z * Z) → nat → list Z → Prop;
  mh_busy : ∀ d sent k q, mh_rep d sent (S k) q → has (fst (inb 0x64 d)) 0x02 = true ∧ mh_rep (snd (inb 0x64 d)) sent k q;
  mh_ready : ∀ d sent q, mh_rep d sent 0 q → has (fst (inb 0x64 d)) 0x02 = false ∧ mh_rep (snd (inb 0x64 d)) sent 0 q;
  mh_polls : nat;
  mh_out : ∀ d sent q port v, mh_rep d sent 0 q → port = 0x60 ∨ port = 0x64 → ∃ k, (k <= mh_polls)%nat ∧ mh_rep (outb port v d) (sent ++ [(port, v)]) k q;
  mh_in : ∀ d sent k b q, mh_rep d sent k (b :: q) → fst (inb 0x60 d) = b ∧ mh_rep (snd (inb 0x60 d)) sent k q
}.
Section hardware.
Context {D : Type} `{MouseHw D}.
Lemma wait_spec k : ∀ fuel d sent q, mh_rep d sent k q → (k <= fuel)%nat → ∃ d', wait_kbc_sendready fuel d = Ret (Some tt, d') ∧ mh_rep d' sent 0 q.
Proof.
  induction k as [|k IH]; intros fuel d sent q Hd Hf.
  - destruct (mh_ready d sent q Hd) as [Hr Hd']. exists (snd (inb 0x64 d)). split; [|done]. destruct fuel; cbn [wait_kbc_sendready]; erewrite est_bind_step by reflexivity; by rewrite Hr.
  - destruct fuel as [|fuel]; [lia|]. destruct (mh_busy d sent k q Hd) as [Hb Hd']. cbn [wait_kbc_sendready]. erewrite est_bind_step by reflexivity. rewrite Hb. apply IH; [done|lia].
Qed.
Lemma send_spec fuel d sent k q port v : mh_rep d sent k q → (k <= fuel)%nat → port = 0x60 ∨ port = 0x64 →
  ∃ d' k', send_ready fuel port v d = Ret (Some tt, d') ∧ mh_rep d' (sent ++ [(port, v)]) k' q ∧ (k' <= mh_polls)%nat.
Proof.
  intros Hd Hf Hp. destruct (wait_spec k fuel d sent q Hd Hf) as (d1 & E & H1). destruct (mh_out d1 sent q port v H1 Hp) as (k' & Hk & H2).
  exists (outb port v d1), k'. split; [|done]. unfold send_ready. by rewrite (est_bind_step _ _ _ _ _ E).
Qed.
(** the bytes that enable the mouse *)
Definition enable_bytes : list (Z * Z) := [(0x64, 0x60); (0x60, 0x47); (0x64, 0xd4); (0x60, 0xf4)].
Lemma mouse_init_spec fuel d md k q : mh_rep d [] k q → (k <= fuel)%nat → (mh_polls <= fuel)%nat →
  ∃ d' k', mouse_init fuel md d = Ret (Some (set_phase 0 md), d') ∧ mh_rep d' enable_bytes k' q.
Proof.
  intros Hd Hk Hf. unfold mouse_init. destruct (send_spec fuel d [] k q 0x64 0x60 Hd Hk ltac:(by right)) as (d1 & k1 & E1 & H1 & K1).
  destruct (send_spec fuel d1 _ k1 q 0x60 0x47 H1 ltac:(lia) ltac:(by left)) as (d2 & k2 & E2 & H2 & K2).
  destruct (send_spec fuel d2 _ k2 q 0x64 0xd4 H2 ltac:(lia) ltac:(by right)) as (d3 & k3 & E3 & H3 & K3).
  destruct (send_spec fuel d3 _ k3 q 0x60 0xf4 H3 ltac:(lia) ltac:(by left)) as (d4 & k4 & E4 & H4 & K4).
  exists d4, k4. split; [|exact H4]. rewrite (est_bind_step _ _ _ _ _ E1), (est_bind_step _ _ _ _ _ E2), (est_bind_step _ _ _ _ _ E3), (est_bind_step _ _ _ _ _ E4). done.
Qed.
(** one interrupt for each byte *)
Fixpoint interrupts (n : nat) (k : desk) : outcome (desk (D := D)) :=
  match n with
  | O => Ret k
  | S n => k ← mouse_handler k; interrupts n k
  end.
(** the pointer after some movements *)
Definition move (w h : Z) (p : Z * Z) (e : event) : Z * Z :=
  let '(dx, dy, _) := e in (clamp w (fst p + dx), clamp h (snd p - dy)).
Lemma interrupts_spec v bs : fits v → ∀ q d sent k md g m x y, mh_rep d sent k (bs ++ q) → desktop v g m x y →
  let p := foldl (move (vbe_width v) (vbe_height v)) (x, y) (fst (decode_all bs md)) in
  ∃ d' g' m', interrupts (length bs) (Desk d md g m) = Ret (Desk d' (snd (decode_all bs md)) g' m') ∧ mh_rep d' sent k q ∧ desktop v g' m' (fst p) (snd p).
Proof.
  intros Hv. induction bs as [|b bs IH]; intros q d sent k md g m x y Hd Hg; [by exists d, g, m|]. cbn [app] in Hd. destruct (mh_in d sent k b (bs ++ q) Hd) as [Eb Hd'].
  cbn [length interrupts decode_all]. unfold mouse_handler. cbn [dev mdec screen dmem]. destruct (inb 0x60 d) as [dat d1]. cbn [fst snd] in *. subst dat.
  destruct (mouse_decode md b) as [r md1]. destruct (decode_all bs md1) as [es md2] eqn:Ed. cbn [fst snd]. destruct (Z.ltb_spec 0 r).
  - destruct (handle_mouse_spec v Hv g m x y (dec_x md1) (- dec_y md1) (dec_btn md1) Hg) as (g1 & m1 & E & Hg1). rewrite E. ostep.
    specialize (IH q d1 sent k md1 g1 m1 _ _ Hd' Hg1). rewrite Ed in IH. cbn [fst snd] in IH. exact IH.
  - ostep. specialize (IH q d1 sent k md1 g m x y Hd' Hg). rewrite Ed in IH. exact IH.
Qed.
End hardware.

(** ** Theorems *)

(** The decoder recovers what the mouse sent: after the acknowledgement
    byte, from any stream of packets, also with bytes between them that
    cannot start a packet, it reports exactly the movements and buttons of
    the packets, in order, and waits for the next packet; the movements have
    to be between -128 and 127. *)
Theorem mouse_decode_packets d (l : list (list Z * packet)) : phase d = 0 → Forall (λ q, Forall noise (fst q) ∧ packet_ok (snd q)) l →
  let r := decode_all (0xfa :: concat ((λ q, fst q ++ packet_bytes (snd q)) <$> l)) d in
  fst r = (packet_event ∘ snd) <$> l ∧ phase (snd r) = 1.
Proof.
  intros Hp Hl. cbv zeta. cbn [decode_all]. rewrite !decode_ack by done.
  destruct (decode_stream l (set_phase 1 d) eq_refl Hl) as [E1 E2]. destruct (decode_all _ (set_phase 1 d)) as [es d']. exact (conj E1 E2).
Qed.
Lemma mouse_decode_packets_witness :
  fst (decode_all [0xfa; 0; 0x28; 5; 255] (Dec 0 0 0 0 0 0 0)) = [(5, -1, 0)] ∧ phase (snd (decode_all [0xfa; 0; 0x28; 5; 255] (Dec 0 0 0 0 0 0 0))) = 1.
Proof.
  apply (mouse_decode_packets (Dec 0 0 0 0 0 0 0) [([0], Packet 5 (-1) 0)]); [reflexivity|].
  apply Forall_singleton. split; [apply Forall_singleton; unfold noise; vm_compute; discriminate|unfold packet_ok; cbn; lia].
Defined.
(** a controller that is busy for one poll after each byte *)
Record kbc := Kbc { k_sent : list (Z * Z); k_busy : nat; k_queue : list Z }.
#[export] Instance kbc_ports : Ports kbc := {
  inb := λ port d,
    if port =? 0x64 then match k_busy d with S n => (2, Kbc (k_sent d) n (k_queue d)) | O => (0, d) end
    else match k_queue d with b :: q => (b, Kbc (k_sent d) (k_busy d) q) | [] => (0, d) end;
  outb := λ port v d, Kbc (k_sent d ++ [(port, v)]) 1 (k_queue d);
  inw := λ _ d, (0, d); outw := λ _ _ d, d; inl32 := λ _ d, (0, d); outl := λ _ _ d, d
}.
#[export] Program Instance kbc_mouse : MouseHw kbc := { mh_rep := λ d sent k q, d = Kbc sent k q; mh_polls := 1 }.
Next Obligation. by intros d sent k q ->. Qed.
Next Obligation. by intros d sent q ->. Qed.
Next Obligation. intros d sent q port v -> _. by exists 1%nat. Qed.
Next Obligation. by intros d sent k b q ->. Qed.
Definition demo_screen : vbe_mode_info := Vbe 800 600 3200 32 0xFD000000.
Lemma demo_fits : fits demo_screen.
Proof. split; cbn [demo_screen vbe_width vbe_height vbe_pitch vbe_framebuffer]; [lia|vm_compute; discriminate|lia|right; vm_compute; discriminate]. Qed.
End Mouse.
