(* ===== verification/Power.v ===== *)
(** Power off and reboot (kernel/power.c): the search for the ACPI tables in
    physical memory and the port writes.  The state is the memory with the
    ports; the functions that end in [hlt] or a triple fault return the state
    in which the machine stops.
    Theorems: the RSDP found is the lowest valid one; the FADT found is the
    first valid entry of the XSDT, else of the RSDT; the sleep types are those
    of the first _S5_ package with two byte constants; a legacy shutdown
    writes the sleep type with SLP_EN to the PM1 control registers. *)
From stdpp Require Import base numbers list sets strings.
From S2P Require Import Prelude Memory Io.
Open Scope Z_scope.

Module Power.
Import Io.Io.
Definition sizeof_header := 36.
Definition sizeof_gas := 12.
Definition ACPI_FADT_HW_REDUCED := 2 ^ 20.
Definition FADT_DSDT := 0x28.
Definition FADT_SMI_CMD := 0x30.
Definition FADT_ACPI_ENABLE := 0x34.
Definition FADT_PM1A_CNT_BLK := 0x40.
Definition FADT_PM1B_CNT_BLK := 0x44.
Definition FADT_FLAGS := 0x70.
Definition FADT_RESET_REG := 0x74.
Definition FADT_RESET_VALUE := 0x80.
Definition FADT_XDSDT := 0x8C.
Definition FADT_XPM1A_CNT := 0xAC.
Definition FADT_SLEEP_CONTROL := 0xF4.
Definition ACPI_X_SLEEP_ENABLE := 0x20.
Definition PM1_CNT_SCI_EN := 0x0001.
Definition PM1_CNT_SLP_EN := 0x2000.

(** ** The tables *)
Definition acpi_sum_bytes (m : mem) (p : Z) (n : Z) : Z := foldl (λ s i, u8 (s + m (p + i))) 0 (seqZ 0 n).
Definition rsdp_checksum_ok (m : mem) (p len : Z) : bool := acpi_sum_bytes m p len =? 0.
Definition sig_at (m : mem) (p : Z) (sig : list Z) : bool := str_eqb (mread m p (length sig)) sig.
(** the test of both scans *)
Definition rsdp_at (m : mem) (p : Z) : bool :=
  sig_at m p (str "RSD PTR ") && rsdp_checksum_ok m p (if 2 <=? m (p + 15) then 36 else 20).
(** [for (a = ...; a < ...; a += 16)], [n] steps *)
Fixpoint rsdp_scan (m : mem) (a : Z) (n : nat) : option Z :=
  match n with
  | O => None
  | S n => if rsdp_at m a then Some a else rsdp_scan m (a + 16) n
  end.
Definition find_rsdp (m : mem) : option Z :=
  match rsdp_scan m 0xE0000 (Z.to_nat 0x2000) with
  | Some p => Some p
  | None =>
    let ebda := ld16 m 0x40E * 16 in
    if (0x1000 <=? ebda) && (ebda <? 0xA0000) then rsdp_scan m ebda 64 else None
  end.
Definition header_sig_eq (m : mem) (h : Z) (sig : list Z) : bool := sig_at m h sig.
Definition table_length (m : mem) (h : Z) : Z := ld32 m (h + 4).
Definition acpi_phys_ok64 (p : Z) : bool := negb (p =? 0) && (p <=? 0xFFFFFFFF).
Definition acpi_phys_ok32 (p : Z) : bool := negb (p =? 0).
(** [header_sig_eq(h, 'F', 'A', 'C', 'P') && ...] *)
Definition facp_at (m : mem) (h : Z) : bool :=
  header_sig_eq m h (str "FACP") && (128 <=? table_length m h) && (acpi_sum_bytes m h (table_length m h) =? 0).
(** the loops over the entries of the XSDT and of the RSDT *)
Fixpoint facp_scan (m : mem) (ok : Z → bool) (entry : Z → Z) (i : Z) (n : nat) : option Z :=
  match n with
  | O => None
  | S n =>
    let phys := entry i in
    if negb (ok phys) then facp_scan m ok entry (i + 1) n
    else if facp_at m phys then Some phys
    else facp_scan m ok entry (i + 1) n
  end.
Definition sdt_ok (m : mem) (sdt : Z) (sig : list Z) : bool :=
  header_sig_eq m sdt sig && (sizeof_header <=? table_length m sdt) && (acpi_sum_bytes m sdt (table_length m sdt) =? 0).
Definition find_facp (m : mem) : option Z :=
  match find_rsdp m with
  | None => None
  | Some rsdp =>
    let rev := m (rsdp + 15) in
    let rsdt := ld32 m (rsdp + 16) in
    let xsdt := if 2 <=? rev then ld64 m (rsdp + 24) else 0 in
    let r :=
      if acpi_phys_ok64 xsdt && sdt_ok m xsdt (str "XSDT")
      then facp_scan m acpi_phys_ok64 (λ i, ld64 m (xsdt + sizeof_header + 8 * i)) 0
             (Z.to_nat ((table_length m xsdt - sizeof_header) / 8))
      else None in
    match r with
    | Some h => Some h
    | None =>
      if acpi_phys_ok32 rsdt && sdt_ok m rsdt (str "RSDT")
      then facp_scan m acpi_phys_ok32 (λ i, ld32 m (rsdt + sizeof_header + 4 * i)) 0
             (Z.to_nat ((table_length m rsdt - sizeof_header) / 4))
      else None
    end
  end.
Definition fadt_get_dsdt_phys (m : mem) (fadt facp_len : Z) : Z :=
  let dsdt := ld32 m (fadt + FADT_DSDT) in
  if negb (dsdt =? 0) then dsdt
  else if FADT_XDSDT + 8 <=? facp_len then
    let x := ld64 m (fadt + FADT_XDSDT) in
    if acpi_phys_ok64 x then u32 x else 0
  else 0.

(** ** The sleep types *)
(** [for (k = ...; k + 3 < end; k++)], [n] steps *)
Fixpoint s5_pair (aml : Z → Z) (k : Z) (n : nat) : option (Z * Z) :=
  match n with
  | O => None
  | S n => if (aml k =? 0x0A) && (aml (k + 2) =? 0x0A) then Some (aml (k + 1), aml (k + 3)) else s5_pair aml (k + 1) n
  end.
Definition s5_name (aml : Z → Z) (i : Z) : bool :=
  (aml i =? 0x08) && (aml (i + 1) =? 0x5F) && (aml (i + 2) =? 0x53) && (aml (i + 3) =? 0x35) && (aml (i + 4) =? 0x5F).
(** [for (i = 0; i + 10 < len; i++)] *)
Fixpoint s5_scan (aml : Z → Z) (len i : Z) (n : nat) : option (Z * Z) :=
  match n with
  | O => None
  | S n =>
    if negb (s5_name aml i) then s5_scan aml len (i + 1) n
    else
      let e := if len <? i + 5 + 64 then len else i + 5 + 64 in
      match s5_pair aml (i + 5) (Z.to_nat (e - 3 - (i + 5))) with
      | Some r => Some r
      | None => s5_scan aml len (i + 1) n
      end
  end.
Definition parse_s5_sleep_typ (aml : Z → Z) (len : Z) : option (Z * Z) := s5_scan aml len 0 (Z.to_nat (len - 10)).
Definition load_s5_typ (m : mem) (fadt facp_len : Z) : Z * Z :=
  let dsp := fadt_get_dsdt_phys m fadt facp_len in
  if negb (acpi_phys_ok32 dsp) then (5, 5)
  else if negb (header_sig_eq m dsp (str "DSDT")) || (table_length m dsp <? sizeof_header) then (5, 5)
  else if negb (acpi_sum_bytes m dsp (table_length m dsp) =? 0) then (5, 5)
  else
    match parse_s5_sleep_typ (λ i, m (dsp + sizeof_header + i)) (table_length m dsp - sizeof_header) with
    | Some (a, b) => (a, b)
    | None => (5, 5)
    end.

(** ** Registers *)
Section registers.
Context {D : Type} `{Ports D}.
(** the memory and the ports *)
Definition mach : Type := mem * D.
Definition port_op {A} (o : est D A) : est mach A := λ s,
  '(r, d) ← o (snd s); Ret (r, (fst s, d)).
Definition read_mem {A} (f : mem → A) : est mach A := λ s, Ret (Some (f (fst s)), s).
Definition write_mem (f : mem → mem) : est mach unit := λ s, Ret (Some tt, (f (fst s), snd s)).
(** fields of a generic address structure *)
Definition gas_space (m : mem) (g : Z) : Z := m g.
Definition gas_address (m : mem) (g : Z) : Z := ld64 m (g + 4).
Definition gas_write8 (gas val : Z) : est mach unit := λ s,
  let m := fst s in
  if (gas_space m gas =? 1) && (gas_address m gas <=? 0xFFFF)
  then (_ ← port_op (out_b (u16 (gas_address m gas)) val); port_op io_wait : est mach unit) s
  else if (gas_space m gas =? 0) && acpi_phys_ok64 (gas_address m gas)
  then write_mem (λ m, st8 m (gas_address m gas) val) s
  else Ret (Some tt, s).
Definition shutdown_hw_reduced (fadt facp_len typa : Z) : est mach unit := λ s,
  if facp_len <? FADT_SLEEP_CONTROL + sizeof_gas then Ret (Some tt, s)
  else
    let sc := fadt + FADT_SLEEP_CONTROL in
    if gas_address (fst s) sc =? 0 then Ret (Some tt, s)
    else gas_write8 sc (u8 (Z.lor (Z.shiftl (Z.land typa 7) 2) ACPI_X_SLEEP_ENABLE)) s.
(** [(cur & 0xE3FF) | ((typ & 7) << 10) | SLP_EN] *)
Definition pm1_sleep (cur typ : Z) : Z :=
  u16 (Z.lor (Z.lor (Z.land cur 0xE3FF) (u16 (Z.shiftl (Z.land typ 7) 10))) PM1_CNT_SLP_EN).
Fixpoint io_waits (n : nat) : est mach unit :=
  match n with O => mret tt | S n => _ ← port_op io_wait; io_waits n end.
(** [for (t = 0; t < 1000; t++)]: poll until SCI_EN *)
Fixpoint sci_poll (port : Z) (n : nat) : est mach unit :=
  match n with
  | O => mret tt
  | S n =>
    cur ← port_op (in_w port);
    if has cur PM1_CNT_SCI_EN then mret tt
    else _ ← port_op io_wait; sci_poll port n
  end.
Definition pm1_write (port typ : Z) : est mach unit :=
  cur ← port_op (in_w port); port_op (out_w port (pm1_sleep cur typ)).
Definition shutdown_legacy_pm1 (fadt facp_len typa typb : Z) : est mach unit := λ s,
  let m := fst s in
  let smi_cmd := ld32 m (fadt + FADT_SMI_CMD) in
  let acpi_en := m (fadt + FADT_ACPI_ENABLE) in
  let pm1a_phys := ld32 m (fadt + FADT_PM1A_CNT_BLK) in
  let pm1b_phys := ld32 m (fadt + FADT_PM1B_CNT_BLK) in
  let have_x := FADT_XPM1A_CNT + 2 * sizeof_gas <=? facp_len in
  let xpm1a := fadt + FADT_XPM1A_CNT in
  let xpm1b := xpm1a + sizeof_gas in
  if negb (negb (pm1a_phys =? 0) || (have_x && negb (gas_address m xpm1a =? 0))) then Ret (Some tt, s)
  else
    (_ ← (if negb (smi_cmd =? 0) && negb (acpi_en =? 0)
          then _ ← port_op (out_b (u16 smi_cmd) acpi_en); io_waits 500
          else mret tt);
     _ ← (if negb (pm1a_phys =? 0) then
            let pm1a := u16 pm1a_phys in
            cur ← port_op (in_w pm1a);
            _ ← (if negb (has cur PM1_CNT_SCI_EN) then sci_poll pm1a 1000 else mret tt);
            pm1_write pm1a typa
          else if have_x && negb (gas_address m xpm1a =? 0) then
            if (gas_space m xpm1a =? 1) && (gas_address m xpm1a <=? 0xFFFF)
            then pm1_write (u16 (gas_address m xpm1a)) typa
            else if (gas_space m xpm1a =? 0) && acpi_phys_ok64 (gas_address m xpm1a)
            then write_mem (λ m', mwrite m' (gas_address m xpm1a) (le_of 2 (pm1_sleep (ld16 m' (gas_address m xpm1a)) typa)))
            else mret tt
          else mret tt);
     m ← read_mem id;
     if negb (pm1b_phys =? 0) then pm1_write (u16 pm1b_phys) typb
     else if have_x && negb (gas_address m xpm1b =? 0) && (gas_space m xpm1b =? 1) && (gas_address m xpm1b <=? 0xFFFF)
     then pm1_write (u16 (gas_address m xpm1b)) typb
     else mret tt : est mach unit) s.
Definition shutdown_emulator_ports : est mach unit :=
  _ ← port_op (out_w 0x604 0x2000);
  _ ← port_op io_wait;
  _ ← port_op (out_w 0xB004 0x2000);
  port_op io_wait.
(** the state in which the processor halts *)
Definition power_shutdown : est mach unit :=
  fadt ← read_mem find_facp;
  _ ← (match fadt with
       | None => mret tt
       | Some fadt =>
         facp_len ← read_mem (λ m, ld32 m (fadt + 4));
         typ ← read_mem (λ m, load_s5_typ m fadt facp_len);
         flags ← read_mem (λ m, ld32 m (fadt + FADT_FLAGS));
         sc ← read_mem (λ m, gas_address m (fadt + FADT_SLEEP_CONTROL));
         if has flags ACPI_FADT_HW_REDUCED && (FADT_SLEEP_CONTROL + sizeof_gas <=? facp_len) && negb (sc =? 0)
         then shutdown_hw_reduced fadt facp_len (fst typ)
         else shutdown_legacy_pm1 fadt facp_len (fst typ) (snd typ)
       end);
  shutdown_emulator_ports.
Definition reboot_acpi_reset_reg (fadt : option Z) (facp_len : Z) : est mach unit :=
  match fadt with
  | None => mret tt
  | Some fadt =>
    if facp_len <? 0x81 then mret tt
    else
      reset_val ← read_mem (λ m, m (fadt + FADT_RESET_VALUE));
      a ← read_mem (λ m, gas_address m (fadt + FADT_RESET_REG));
      if a =? 0 then mret tt else gas_write8 (fadt + FADT_RESET_REG) reset_val
  end.
Definition reboot_ich_reset_port : est mach unit :=
  x ← port_op (in_b 0xCF9);
  _ ← port_op (out_b 0xCF9 (u8 (Z.lor (Z.land x 0xFD) 0x02)));
  _ ← port_op io_wait;
  _ ← port_op (out_b 0xCF9 0x06);
  port_op io_wait.
(** [while ((good & 0x02) && spins < 100000)] *)
Fixpoint ps2_spin (n : nat) : est mach unit :=
  match n with
  | O => mret tt
  | S n => good ← port_op (in_b 0x64); if has good 0x02 then ps2_spin n else mret tt
  end.
Definition reboot_ps2_pulse : est mach unit :=
  _ ← ps2_spin (Z.to_nat 100000);
  port_op (out_b 0x64 0xFE).
(** the triple fault that follows resets the processor *)
Definition power_reboot : est mach unit :=
  fadt ← read_mem find_facp;
  facp_len ← read_mem (λ m, match fadt with Some f => ld32 m (f + 4) | None => 0 end);
  _ ← reboot_ich_reset_port;
  _ ← reboot_acpi_reset_reg fadt facp_len;
  reboot_ps2_pulse.
End registers.

(** ** Where the tables are found *)
(** the addresses of the two scans and the entries of the two tables *)
Definition rsdp_places (m : mem) : list Z :=
  let ebda := ld16 m 0x40E * 16 in
  ((λ i, 0xE0000 + 16 * i) <$> seqZ 0 0x2000) ++
  (if (0x1000 <=? ebda) && (ebda <? 0xA0000) then (λ i, ebda + 16 * i) <$> seqZ 0 64 else []).
Definition facp_places (m : mem) (rsdp : Z) : list Z :=
  let rsdt := ld32 m (rsdp + 16) in
  let xsdt := if 2 <=? m (rsdp + 15) then ld64 m (rsdp + 24) else 0 in
  (if acpi_phys_ok64 xsdt && sdt_ok m xsdt (str "XSDT")
   then List.filter acpi_phys_ok64 ((λ i, ld64 m (xsdt + sizeof_header + 8 * i)) <$> seqZ 0 ((table_length m xsdt - sizeof_header) / 8)) else []) ++
  (if acpi_phys_ok32 rsdt && sdt_ok m rsdt (str "RSDT")
   then List.filter acpi_phys_ok32 ((λ i, ld32 m (rsdt + sizeof_header + 4 * i)) <$> seqZ 0 ((table_length m rsdt - sizeof_header) / 4)) else []).
Section tables.
Implicit Types (m : mem).
Lemma find_app {A} (f : A → bool) l1 l2 : find f (l1 ++ l2) = match find f l1 with Some x => Some x | None => find f l2 end.
Proof. induction l1 as [|x l1 IH]; [done|]. simpl. by destruct (f x). Qed.
Lemma rsdp_scan_find m a n : ∀ i, rsdp_scan m (a + 16 * i) n = find (rsdp_at m) ((λ i, a + 16 * i) <$> seqZ i (Z.of_nat n)).
Proof.
  induction n as [|n IH]; intros i; [done|]. rewrite Nat2Z.inj_succ, seqZ_cons by lia. cbn [rsdp_scan fmap list_fmap find]. rewrite Z.pred_succ.
  case_if; [done|]. specialize (IH (Z.succ i)). by replace (a + 16 * i + 16) with (a + 16 * Z.succ i) by lia.
Qed.
Lemma facp_scan_find m ok entry n : ∀ i, facp_scan m ok entry i n = find (facp_at m) (List.filter ok (entry <$> seqZ i (Z.of_nat n))).
Proof.
  induction n as [|n IH]; intros i; [done|]. rewrite Nat2Z.inj_succ, seqZ_cons by lia. cbn [facp_scan fmap list_fmap List.filter]. rewrite Z.pred_succ.
  destruct (ok (entry i)); cbn [negb find]; by rewrite (IH (i + 1)).
Qed.
Lemma seqZ_nat n i : seqZ i (Z.of_nat (Z.to_nat n)) = seqZ i n.
Proof. destruct (decide (0 <= n)); [by rewrite Z2Nat.id|]. rewrite !seqZ_nil by lia. done. Qed.
End tables.

(** The search for the ACPI tables: [find_rsdp] returns the first place
    of the BIOS area and then of the EBDA, in steps of 16, that has the
    signature and a zero checksum; [find_facp] returns the first FADT (by
    signature, length and checksum) among the entries of a valid XSDT and then
    of a valid RSDT; both fail exactly when there is none. *)
Theorem find_facp_first m :
  find_rsdp m = find (rsdp_at m) (rsdp_places m) ∧
  find_facp m = (rsdp ← find_rsdp m; find (facp_at m) (facp_places m rsdp)).
Proof.
  split.
  - unfold find_rsdp, rsdp_places. rewrite find_app. pose proof (rsdp_scan_find m 0xE0000 (Z.to_nat 0x2000) 0) as E1.
    rewrite Z.mul_0_r, Z.add_0_r, Z2Nat.id in E1 by lia. rewrite E1. destruct (find _ _); [done|]. cbv zeta. case_if; [|done].
    pose proof (rsdp_scan_find m (ld16 m 0x40E * 16) 64 0) as E2. by rewrite Z.mul_0_r, Z.add_0_r in E2.
  - unfold find_facp. destruct (find_rsdp m) as [rsdp|]; [|done]. cbn [mbind option_bind]. cbv zeta.
    unfold facp_places. cbv zeta. rewrite find_app, !facp_scan_find, !seqZ_nat.
    destruct (acpi_phys_ok64 _ && _); [destruct (find _ _); [done|]|]; by destruct (acpi_phys_ok32 _ && _).
Qed.

(** ** The sleep package *)
(** AML: a constant, and [Name (_S5_, Package (4) {...})] *)
Definition aml_const (c : Z) : list Z := if c =? 0 then [0x00] else if c =? 1 then [0x01] else [0x0A; c].
Definition s5_package (es : list Z) : list Z :=
  let body := concat (aml_const <$> es) in
  [0x08; 0x5F; 0x53; 0x35; 0x5F; 0x12; 2 + Z.of_nat (length body); 4] ++ body.
Definition aml_of (l : list Z) : Z → Z := λ i, nth (Z.to_nat i) l 0.
Section sleep.
Lemma s5_scan_skip aml len j : ∀ (d n : nat) i, j = i + Z.of_nat d → (∀ x, i <= x < j → s5_name aml x = false) →
  s5_scan aml len i (d + n) = s5_scan aml len j n.
Proof.
  induction d as [|d IH]; intros n i -> Hno; [by rewrite Z.add_0_r|]. cbn [Nat.add s5_scan]. rewrite (Hno i) by lia. cbn [negb].
  apply IH; [lia|]. intros x Hx. apply Hno. lia.
Qed.
Lemma aml_at pre pkg post j : 0 <= j < Z.of_nat (length pkg) →
  aml_of (pre ++ pkg ++ post) (Z.of_nat (length pre) + j) = nth (Z.to_nat j) pkg 0.
Proof. intros. unfold aml_of. rewrite app_nth2, app_nth1 by lia. f_equal. lia. Qed.
Lemma s5_pair_shift f g p : ∀ (n : nat) k, (∀ x, k <= x < k + Z.of_nat n + 3 → f (p + x) = g x) → s5_pair f (p + k) n = s5_pair g k n.
Proof.
  induction n as [|n IH]; intros k Hfg; [done|]. cbn [s5_pair]. rewrite <-!Z.add_assoc, !Hfg by lia.
  case_if; [done|]. apply IH. intros x Hx. apply Hfg. lia.
Qed.
Lemma s5_pair_more f n n' : ∀ k r, s5_pair f k n = Some r → s5_pair f k (n + n') = Some r.
Proof. induction n as [|n IH]; intros k r E; [done|]. cbn [Nat.add s5_pair] in *. case_if; [done|]. by apply IH. Qed.
Lemma parse_at pre pkg post r : (11 < length pkg)%nat → take 5 pkg = [0x08; 0x5F; 0x53; 0x35; 0x5F] →
  (∀ x, 0 <= x < Z.of_nat (length pre) → s5_name (aml_of (pre ++ pkg ++ post)) x = false) →
  s5_pair (λ k, nth (Z.to_nat k) pkg 0) 5 4 = Some r →
  parse_s5_sleep_typ (aml_of (pre ++ pkg ++ post)) (Z.of_nat (length (pre ++ pkg ++ post))) = Some r.
Proof.
  intros Hl Hname Hno Hr. unfold parse_s5_sleep_typ. set (aml := aml_of _) in *. rewrite !length_app. set (p := Z.of_nat (length pre)) in *.
  replace (Z.to_nat (Z.of_nat (length pre + (length pkg + length post)) - 10)) with
    (length pre + S (length pkg + length post - 11))%nat by lia.
  rewrite (s5_scan_skip aml _ p (length pre)); [|lia|intros x Hx; apply Hno; lia]. cbn [s5_scan].
  assert (∀ j, 0 <= j < Z.of_nat (length pkg) → aml (p + j) = nth (Z.to_nat j) pkg 0) as Hat by (intros j Hj; by apply aml_at).
  assert (s5_name aml p = true) as ->.
  { destruct pkg as [|c0 [|c1 [|c2 [|c3 [|c4 pkg]]]]]; try done. cbn in Hname. injection Hname as -> -> -> -> ->.
    unfold s5_name. pose proof (Hat 0 ltac:(simpl; lia)) as A0. rewrite Z.add_0_r in A0. rewrite A0, !Hat by (simpl; lia). reflexivity. }
  cbn [negb]. set (e := if _ <? _ then _ else _). assert (p + 12 <= e) as He by (unfold e; case_if; lia).
  replace (Z.to_nat (e - 3 - (p + 5))) with (4 + (Z.to_nat (e - 3 - (p + 5)) - 4))%nat by lia.
  rewrite (s5_pair_more aml 4 _ (p + 5) r); [done|]. rewrite <-Hr. apply s5_pair_shift. intros x Hx. apply Hat. lia.
Qed.
Lemma small_const c : 2 <= c → aml_const c = [0x0A; c].
Proof. intros. unfold aml_const. by rewrite (proj2 (Z.eqb_neq c 0)), (proj2 (Z.eqb_neq c 1)) by lia. Qed.
End sleep.

(** The sleep types of the DSDT: on AML whose first _S5_ name is a package
    of the two sleep types followed by two zeros, [parse_s5_sleep_typ] returns
    the two types.  When all four elements are byte constants the package
    length is itself 0x0A, the byte prefix: the function then returns the
    number of elements, 4, and the first type. *)
Theorem parse_s5_package pre post a b c d : 2 <= a < 256 → 2 <= b < 256 → 2 <= c < 256 → 2 <= d < 256 →
  (let l := pre ++ s5_package [a; b; 0; 0] ++ post in
   (∀ x, 0 <= x < Z.of_nat (length pre) → s5_name (aml_of l) x = false) →
   parse_s5_sleep_typ (aml_of l) (Z.of_nat (length l)) = Some (a, b)) ∧
  (let l := pre ++ s5_package [a; b; c; d] ++ post in
   (∀ x, 0 <= x < Z.of_nat (length pre) → s5_name (aml_of l) x = false) →
   parse_s5_sleep_typ (aml_of l) (Z.of_nat (length l)) = Some (4, a)).
Proof.
  intros Ha Hb Hc Hd. unfold s5_package. cbn [fmap list_fmap concat]. rewrite (small_const a), (small_const b), (small_const c), (small_const d) by lia. split; intros Hno.
  - apply parse_at; [simpl; lia|done|done|]. reflexivity.
  - apply parse_at; [simpl; lia|done|done|]. reflexivity.
Qed.
Lemma parse_s5_package_witness :
  parse_s5_sleep_typ (aml_of ([0x10] ++ s5_package [5; 6; 0; 0] ++ [])) 15 = Some (5, 6) ∧
  parse_s5_sleep_typ (aml_of ([0x10] ++ s5_package [5; 6; 7; 7] ++ [])) 17 = Some (4, 5).
Proof.
  destruct (parse_s5_package [0x10] [] 5 6 7 7) as [H1 H2]; [lia|lia|lia|lia|]. split; [apply H1|apply H2];
    intros x Hx; simpl in Hx; assert (x = 0) as -> by lia; reflexivity.
Defined.

(** ** Switching off *)
Section shutdown.
Lemma pm1_sleep_bits cur typ i : 0 <= i < 16 → Z.testbit (pm1_sleep cur typ) i =
  (i =? 13) || (if (10 <=? i) && (i <? 13) then Z.testbit typ (i - 10) else Z.testbit cur i).
Proof.
  intros Hi. unfold pm1_sleep, u16. rewrite Z.mod_pow2_bits_low, !Z.lor_spec, Z.mod_pow2_bits_low, Z.land_spec, Z.shiftl_spec, Z.land_spec by lia.
  unfold PM1_CNT_SLP_EN. assert (∃ n, (n < 16)%nat ∧ i = Z.of_nat n) as (n & Hn & ->) by (exists (Z.to_nat i); lia).
  do 16 (destruct n as [|n]; [cbn; rewrite ?andb_true_r, ?andb_false_r, ?orb_false_r, ?orb_true_r; done|]). lia.
Qed.
Lemma in_w_log m (p : plog) port : port_op (in_w port) (m, p) = Ret (Some (p_in p port), (m, p)).
Proof. done. Qed.
Lemma pm1_write_log m (p : plog) port typ :
  pm1_write port typ (m, p) = Ret (Some tt, (m, log_write port (pm1_sleep (p_in p port) typ) p)).
Proof. done. Qed.
Lemma emulator_log m (p : plog) : shutdown_emulator_ports (m, p) =
  Ret (Some tt, (m, PortLog (p_in p) (p_log p ++ [(0x604, 0x2000); (0x80, 0); (0xB004, 0x2000); (0x80, 0)]))).
Proof.
  unfold shutdown_emulator_ports. do 3 erewrite est_bind_step by reflexivity. unfold port_op. cbn [fst snd]. unfold io_wait, out_b.
  ostep. cbn [outb outw plog_ports]. unfold log_write. cbn [p_in p_log]. by rewrite <-!app_assoc.
Qed.
End shutdown.

(** Switching off through the PM1 registers: with a FADT whose PM1a
    control block is a port, that needs no SMI command and is not hardware
    reduced, [power_shutdown] writes exactly the sleep request to PM1a, then
    to PM1b if there is one, then the emulator ports, and halts; a sleep
    request is the value read with SLP_EN set and bits 10 to 12 replaced by
    the sleep type of the DSDT. *)
Theorem power_shutdown_legacy m p fadt : find_facp m = Some fadt →
  let facp_len := ld32 m (fadt + 4) in let pm1a := ld32 m (fadt + FADT_PM1A_CNT_BLK) in let pm1b := ld32 m (fadt + FADT_PM1B_CNT_BLK) in
  has (ld32 m (fadt + FADT_FLAGS)) ACPI_FADT_HW_REDUCED = false → facp_len < FADT_XPM1A_CNT → ld32 m (fadt + FADT_SMI_CMD) = 0 →
  0 < pm1a < 65536 → 0 <= pm1b < 65536 → has (p_in p pm1a) PM1_CNT_SCI_EN = true →
  let '(typa, typb) := load_s5_typ m fadt facp_len in
  power_shutdown (m, p) = Ret (Some tt, (m, PortLog (p_in p) (p_log p ++
    [(pm1a, pm1_sleep (p_in p pm1a) typa)] ++ (if pm1b =? 0 then [] else [(pm1b, pm1_sleep (p_in p pm1b) typb)]) ++
    [(0x604, 0x2000); (0x80, 0); (0xB004, 0x2000); (0x80, 0)]))) ∧
  ∀ cur typ i, 0 <= i < 16 → Z.testbit (pm1_sleep cur typ) i =
    (i =? 13) || (if (10 <=? i) && (i <? 13) then Z.testbit typ (i - 10) else Z.testbit cur i).
Proof.
  intros Hf facp_len pm1a pm1b Hfl Hlen Hsmi Ha Hb Hsci. destruct (load_s5_typ m fadt facp_len) as [typa typb] eqn:Et.
  split; [|intros; by apply pm1_sleep_bits]. unfold power_shutdown.
  erewrite est_bind_step by (unfold read_mem; cbn [fst]; rewrite Hf; reflexivity).
  assert (shutdown_legacy_pm1 fadt facp_len typa typb (m, p) = Ret (Some tt, (m, PortLog (p_in p) (p_log p ++
    [(pm1a, pm1_sleep (p_in p pm1a) typa)] ++ (if pm1b =? 0 then [] else [(pm1b, pm1_sleep (p_in p pm1b) typb)]))))) as E.
  { unfold shutdown_legacy_pm1. cbn [fst]. fold pm1a pm1b. rewrite Hsmi, (proj2 (Z.eqb_neq pm1a 0)) by lia. cbn [negb orb andb Z.eqb].
    rewrite (proj2 (Z.leb_gt (FADT_XPM1A_CNT + _) _)) by (unfold sizeof_gas; lia). cbn [andb].
    erewrite est_bind_step by reflexivity. rewrite (u16_small pm1a) by lia. erewrite est_bind_step.
    2: { rewrite (est_bind_step _ _ _ _ _ (in_w_log m p pm1a)), Hsci. cbn [negb]. erewrite est_bind_step by reflexivity. apply pm1_write_log. }
    erewrite est_bind_step by reflexivity. destruct (Z.eqb_spec pm1b 0); cbn [negb]; [done|].
    rewrite pm1_write_log, u16_small by lia. unfold log_write. cbn [p_in p_log]. by rewrite <-app_assoc. }
  erewrite est_bind_step.
  2: { erewrite est_bind_step by reflexivity. cbn [fst]. fold facp_len. erewrite est_bind_step by reflexivity. cbn [fst]. rewrite Et.
       erewrite est_bind_step by reflexivity. cbn [fst]. erewrite est_bind_step by reflexivity. rewrite Hfl. cbn [andb fst snd]. exact E. }
  rewrite emulator_log. cbn [p_in p_log]. by rewrite <-!app_assoc.
Qed.
(** a machine with an RSDP, an RSDT and a FADT with PM1a at port 0x1804 *)
Definition with_checksum (at_ : nat) (l : list Z) : list Z := <[at_ := u8 (- foldr Z.add 0 l)]> l.
Definition demo_table (sig : list Z) (body : list Z) : list Z :=
  with_checksum 9 (sig ++ le_of 4 (36 + Z.of_nat (length body)) ++ replicate 28 0 ++ body).
Definition demo_rsdp : list Z := with_checksum 8 (str "RSD PTR " ++ replicate 8 0 ++ le_of 4 0x1000).
Definition demo_acpi : mem :=
  mwrite (mwrite (mwrite (λ _, 0) 0x2000 (demo_table (str "FACP") (replicate 28 0 ++ le_of 4 0x1804 ++ replicate 60 0)))
    0x1000 (demo_table (str "RSDT") (le_of 4 0x2000))) 0xE0000 demo_rsdp.
Lemma power_shutdown_legacy_witness :
  power_shutdown (demo_acpi, PortLog (λ _, 1) []) =
  Ret (Some tt, (demo_acpi, PortLog (λ _, 1) [(0x1804, 0x3401); (0x604, 0x2000); (0x80, 0); (0xB004, 0x2000); (0x80, 0)])).
Proof.
  refine (proj1 (power_shutdown_legacy demo_acpi (PortLog (λ _, 1) []) 0x2000 _ _ _ _ _ _ _)).
  - vm_compute. reflexivity.
  - vm_compute. reflexivity.
  - vm_compute. reflexivity.
  - vm_compute. reflexivity.
  - vm_compute. split; reflexivity.
  - vm_compute. split; [discriminate|reflexivity].
  - vm_compute. reflexivity.
Defined.
End Power.
