(* ===== verification/Pci.v ===== *)
(** The PCI configuration space (kernel/drivers/pci.c) over the ports of Io.
    [pci_list_devices] returns the text it prints.  Theorem: on ports that
    address configuration space through 0xCF8 and 0xCFC, reading and writing
    reach the register of exactly that function, and the listing has one line
    for each function that is present, in order. *)
From stdpp Require Import base numbers list sets strings.
From S2P Require Import Prelude Memory Io Console.
Open Scope Z_scope.

Module Pci.
Import Io.Io Console.Print.
Definition PCI_CONFIG_ADDR := 0xCF8.
Definition PCI_CONFIG_DATA := 0xCFC.
Definition pci_address (bus device function offset : Z) : Z :=
  Z.lor (Z.lor (Z.lor (Z.lor 0x80000000 (Z.shiftl bus 16)) (Z.shiftl device 11)) (Z.shiftl function 8)) (Z.land offset 0xFC).
Section pci.
Context {D : Type} `{Ports D}.
Definition pci_read_config (bus device function offset : Z) : est D Z :=
  _ ← out_l PCI_CONFIG_ADDR (pci_address bus device function offset); in_l PCI_CONFIG_DATA.
Definition pci_write_config (bus device function offset value : Z) : est D unit :=
  _ ← out_l PCI_CONFIG_ADDR (pci_address bus device function offset); out_l PCI_CONFIG_DATA value.
Definition pci_init : est D unit := mret tt.
Definition pci_header : list Z :=
  str "PCI Devices List:" ++ [10] ++ str "Bus | Dev | Func | Vendor | Device" ++ [10] ++ str "----|-----|------|--------|--------" ++ [10].
Definition pci_line (bus dev func data : Z) : list Z :=
  let sep := str " | " in
  hex_text bus ++ sep ++ hex_text dev ++ sep ++ hex_text func ++ sep ++ hex_text (Z.land data 0xFFFF) ++ sep ++
  hex_text (Z.land (Z.shiftr data 16) 0xFFFF) ++ [10].
(** the body of the three loops *)
Definition pci_probe (bus dev func : Z) : est D (list Z) :=
  data ← pci_read_config bus dev func 0;
  mret (if Z.land data 0xFFFF =? 0xFFFF then [] else pci_line bus dev func data).
Fixpoint pci_probes (l : list (Z * Z * Z)) : est D (list Z) :=
  match l with
  | [] => mret []
  | (b, d, f) :: l => t ← pci_probe b d f; ts ← pci_probes l; mret (t ++ ts)
  end.
(** bus, device and function in the order of the loops *)
Definition pci_functions : list (Z * Z * Z) :=
  b ← seqZ 0 256; d ← seqZ 0 32; f ← seqZ 0 8; [(b, d, f)].
Definition pci_list_devices : est D (list Z) := t ← pci_probes pci_functions; mret (pci_header ++ t).
End pci.

(** ** Configuration space *)
(** [cfg]: the 32-bit registers by bus, device, function and offset; the
    address register selects one *)
Definition cfg_space : Type := Z → Z → Z → Z → Z.
Definition cfg_sel (c : cfg_space) (a : Z) : Z :=
  c (Z.land (Z.shiftr a 16) 0xFF) (Z.land (Z.shiftr a 11) 0x1F) (Z.land (Z.shiftr a 8) 7) (Z.land a 0xFC).
Definition cfg_put (c : cfg_space) (b d f o v : Z) : cfg_space :=
  λ b' d' f' o', if (b' =? b) && (d' =? d) && (f' =? f) && (o' =? o) then v else c b' d' f' o'.
Class PciLaws (D : Type) `{Ports D} := {
  pci_rep : D → Z → cfg_space → Prop;
  pci_select : ∀ x a c a', pci_rep x a c → 0 <= a' < 2 ^ 32 → pci_rep (outl PCI_CONFIG_ADDR a' x) a' c;
  pci_data_in : ∀ x a c, pci_rep x a c → fst (inl32 PCI_CONFIG_DATA x) = cfg_sel c a ∧ pci_rep (snd (inl32 PCI_CONFIG_DATA x)) a c;
  pci_data_out : ∀ x a c v, pci_rep x a c → 0 <= v < 2 ^ 32 →
    pci_rep (outl PCI_CONFIG_DATA v x) a (cfg_put c (Z.land (Z.shiftr a 16) 0xFF) (Z.land (Z.shiftr a 11) 0x1F) (Z.land (Z.shiftr a 8) 7) (Z.land a 0xFC) v)
}.
Definition fn_ok (b d f o : Z) : Prop := 0 <= b < 256 ∧ 0 <= d < 32 ∧ 0 <= f < 8 ∧ 0 <= o < 256.
Section address.
Lemma low_bits o : 0 <= Z.land o 0xFC < 2 ^ 8.
Proof. replace (Z.land o 0xFC) with (Z.land (Z.land o 0xFC) 0xFF) by (by rewrite <-Z.land_assoc). by apply land_ones_range. Qed.
Lemma pci_address_sum b d f o : fn_ok b d f o →
  pci_address b d f o = Z.land o 0xFC + 2 ^ 8 * (f + 2 ^ 3 * (d + 2 ^ 5 * (b + 2 ^ 8 * 2 ^ 7))).
Proof.
  intros (Hb & Hd & Hf & Ho). pose proof (low_bits o) as Hl. unfold pci_address.
  rewrite <-!lor_shiftl by lia. rewrite !Z.shiftl_lor, !Z.shiftl_shiftl by lia.
  change (Z.shiftl (2 ^ 7) (8 + 5 + 3 + 8)) with 0x80000000. change (5 + 3 + 8) with 16. change (3 + 8) with 11.
  rewrite (Z.lor_comm _ (Z.land o 0xFC)), (Z.lor_comm _ (Z.shiftl f 8)), (Z.lor_comm _ (Z.shiftl d 11)), (Z.lor_comm 0x80000000). done.
Qed.
(** the fields of the address are its arguments *)
Lemma pci_address_fields b d f o : fn_ok b d f o → let a := pci_address b d f o in 0 <= a < 2 ^ 32 ∧
  Z.land (Z.shiftr a 16) 0xFF = b ∧ Z.land (Z.shiftr a 11) 0x1F = d ∧ Z.land (Z.shiftr a 8) 7 = f ∧ Z.land a 0xFC = Z.land o 0xFC.
Proof.
  intros Hok a. pose proof (pci_address_sum b d f o Hok) as E. fold a in E. destruct Hok as (Hb & Hd & Hf & Ho). pose proof (low_bits o) as Hl.
  split; [lia|]. change 0xFF with (Z.ones 8). change 0x1F with (Z.ones 5). change 7 with (Z.ones 3).
  rewrite !Z.land_ones, !Z.shiftr_div_pow2 by lia. rewrite E. split; [zdm|]. split; [zdm|]. split; [zdm|].
  rewrite <-lor_shiftl by lia. rewrite Z.land_lor_distr_l, <-Z.land_assoc. change (Z.land 0xFC 0xFC) with 0xFC.
  assert (∀ x, Z.land (Z.shiftl x 8) 0xFC = 0) as ->; [|by rewrite Z.lor_0_r].
  intros x. apply Z.bits_inj'. intros n Hn. rewrite Z.land_spec, Z.bits_0. destruct (Z.lt_ge_cases n 8); [by rewrite Z.shiftl_spec_low|].
  rewrite (Z.bits_above_log2 0xFC), andb_false_r by (done || change (Z.log2 0xFC) with 7; lia). done.
Qed.
End address.
Section space.
Context {D : Type} `{PciLaws D}.
Lemma pci_read_spec x a c b d f o : pci_rep x a c → fn_ok b d f o →
  ∃ x' a', pci_read_config b d f o x = Ret (Some (c b d f (Z.land o 0xFC)), x') ∧ pci_rep x' a' c.
Proof.
  intros Hx Hok. destruct (pci_address_fields b d f o Hok) as (Ha & E1 & E2 & E3 & E4). unfold pci_read_config.
  pose proof (pci_select x a c (pci_address b d f o) Hx Ha) as H1. erewrite est_bind_step by reflexivity.
  destruct (pci_data_in _ _ _ H1) as [Ed H2]. unfold in_l. rewrite Ed. unfold cfg_sel. rewrite E1, E2, E3, E4. eauto.
Qed.
Lemma pci_write_spec x a c b d f o v : pci_rep x a c → fn_ok b d f o → 0 <= v < 2 ^ 32 →
  ∃ x' a', pci_write_config b d f o v x = Ret (Some tt, x') ∧ pci_rep x' a' (cfg_put c b d f (Z.land o 0xFC) v).
Proof.
  intros Hx Hok Hv. destruct (pci_address_fields b d f o Hok) as (Ha & E1 & E2 & E3 & E4). unfold pci_write_config.
  pose proof (pci_select x a c (pci_address b d f o) Hx Ha) as H1. erewrite est_bind_step by reflexivity.
  pose proof (pci_data_out _ _ _ v H1 Hv) as H2. rewrite E1, E2, E3, E4 in H2. unfold out_l. eauto.
Qed.
Definition present (c : cfg_space) (t : Z * Z * Z) : list Z :=
  let '(b, d, f) := t in if Z.land (c b d f 0) 0xFFFF =? 0xFFFF then [] else pci_line b d f (c b d f 0).
Lemma pci_probes_spec c l : Forall (λ t : Z * Z * Z, let '(b, d, f) := t in fn_ok b d f 0) l → ∀ x a, pci_rep x a c →
  ∃ x' a', pci_probes l x = Ret (Some (concat (present c <$> l)), x') ∧ pci_rep x' a' c.
Proof.
  induction 1 as [|[[b d] f] l Hok Hl IH]; intros x a Hx; [by exists x, a|]. cbn [pci_probes]. unfold pci_probe.
  destruct (pci_read_spec x a c b d f 0 Hx Hok) as (x1 & a1 & E & H1). change (Z.land 0 0xFC) with 0 in E.
  destruct (IH x1 a1 H1) as (x2 & a2 & E2 & H2). exists x2, a2. split; [|done].
  erewrite est_bind_step; [|rewrite (est_bind_step _ _ _ _ _ E); reflexivity]. by rewrite (est_bind_step _ _ _ _ _ E2).
Qed.
Lemma pci_functions_ok : Forall (λ t : Z * Z * Z, let '(b, d, f) := t in fn_ok b d f 0) pci_functions.
Proof.
  apply Forall_forall. intros [[b d] f] Hin. unfold pci_functions in Hin.
  apply list_elem_of_bind in Hin as (b' & Hin & Hb). apply list_elem_of_bind in Hin as (d' & Hin & Hd). apply list_elem_of_bind in Hin as (f' & Hin & Hf).
  apply list_elem_of_singleton in Hin. injection Hin as -> -> ->. apply elem_of_seqZ in Hb, Hd, Hf. unfold fn_ok. lia.
Qed.
End space.

(** Configuration space: on ports that select a register through 0xCF8
    and transfer it through 0xCFC, a value written to a register of a function
    is read back, no other register changes, and [pci_list_devices] prints one
    line for each function whose vendor is not 0xFFFF, in the order of bus,
    device and function. *)
Theorem pci_config_correct {D} `{PciLaws D} x a c b d f o v : pci_rep x a c → fn_ok b d f o → 0 <= v < 2 ^ 32 →
  (∃ x1 a1 x2 a2, pci_write_config b d f o v x = Ret (Some tt, x1) ∧ pci_rep x1 a1 (cfg_put c b d f (Z.land o 0xFC) v) ∧
     pci_read_config b d f o x1 = Ret (Some v, x2) ∧ pci_rep x2 a2 (cfg_put c b d f (Z.land o 0xFC) v)) ∧
  (∃ x' a', pci_list_devices x = Ret (Some (pci_header ++ concat (present c <$> pci_functions)), x') ∧ pci_rep x' a' c).
Proof.
  intros Hx Hok Hv. split.
  - destruct (pci_write_spec x a c b d f o v Hx Hok Hv) as (x1 & a1 & E1 & H1). destruct (pci_read_spec x1 a1 _ b d f o H1 Hok) as (x2 & a2 & E2 & H2).
    exists x1, a1, x2, a2. split; [done|]. split; [done|]. split; [|done]. rewrite E2. unfold cfg_put. by rewrite !Z.eqb_refl.
  - destruct (pci_probes_spec c pci_functions pci_functions_ok x a Hx) as (x' & a' & E & H'). exists x', a'. split; [|done].
    unfold pci_list_devices. by rewrite (est_bind_step _ _ _ _ _ E).
Qed.
(** a simulated configuration space *)
Definition sim_pci : Type := Z * cfg_space.
#[export] Instance sim_pci_ports : Ports sim_pci := {
  inb := λ _ x, (0, x); outb := λ _ _ x, x; inw := λ _ x, (0, x); outw := λ _ _ x, x;
  inl32 := λ _ x, (cfg_sel (snd x) (fst x), x);
  outl := λ port v x, if port =? PCI_CONFIG_ADDR then (v, snd x)
    else (fst x, cfg_put (snd x) (Z.land (Z.shiftr (fst x) 16) 0xFF) (Z.land (Z.shiftr (fst x) 11) 0x1F) (Z.land (Z.shiftr (fst x) 8) 7) (Z.land (fst x) 0xFC) v)
}.
#[export] Program Instance sim_pci_laws : PciLaws sim_pci := { pci_rep := λ x a c, x = (a, c) }.
Next Obligation. by intros x a c a' -> _. Qed.
Next Obligation. by intros x a c ->. Qed.
Next Obligation. by intros x a c v -> _. Qed.
Lemma pci_config_correct_witness : ∃ x1 x2 : sim_pci,
  pci_write_config 0 3 1 4 7 (0, λ _ _ _ _, 0xFFFFFFFF) = Ret (Some tt, x1) ∧ pci_read_config 0 3 1 4 x1 = Ret (Some 7, x2).
Proof.
  destruct (pci_config_correct (D := sim_pci) (0, λ _ _ _ _, 0xFFFFFFFF) 0 (λ _ _ _ _, 0xFFFFFFFF) 0 3 1 4 7)
    as [(x1 & a1 & x2 & a2 & E1 & _ & E2 & _) _].
  - reflexivity.
  - unfold fn_ok. lia.
  - lia.
  - exists x1, x2. split; [exact E1|exact E2].
Defined.
End Pci.
