(* ===== verification/Ahci.v ===== *)
(** The search for an AHCI controller (kernel/drivers/ahci_pci.c) over the PCI
    configuration space of Pci.v.  The two functions of the Rust driver that
    the probe calls are parameters.  Theorem: the search finds the first AHCI
    function with a memory address, enables exactly that function, and fails
    exactly when there is none. *)
From stdpp Require Import base numbers list sets strings.
From S2P Require Import Prelude Memory Io Console Pci.
Open Scope Z_scope.

Module Ahci.
Import Io.Io Console.Print Pci.Pci.
Section ahci.
Context {D : Type} `{Ports D}.
(** the address in the registers [bar5] and [hi] *)
Definition abar_of (bar5 hi : Z) : Z :=
  if negb (Z.land bar5 1 =? 0) then Z.land bar5 0xFFFFFFFC
  else if Z.land bar5 6 =? 4 then Z.lor (Z.shiftl hi 32) (Z.land bar5 0xFFFFFFF0)
  else Z.land bar5 0xFFFFFFF0.
Definition wide_bar (bar5 : Z) : bool := (Z.land bar5 1 =? 0) && (Z.land bar5 6 =? 4).
(** the body of the three loops: [Some] address when it returns *)
Definition try_function (bus dev func : Z) : est D (option Z) :=
  id ← pci_read_config bus dev func 0;
  if Z.land id 0xFFFF =? 0xFFFF then mret None
  else
    cls ← pci_read_config bus dev func 8;
    if negb (Z.land (Z.shiftr cls 8) 0xFFFFFF =? 0x010601) then mret None
    else
      bar5 ← pci_read_config bus dev func 0x24;
      hi ← (if wide_bar bar5 then pci_read_config bus dev func 0x28 else mret 0);
      let abar_phys := abar_of bar5 hi in
      if abar_phys =? 0 then mret None
      else
        cmd ← pci_read_config bus dev func 4;
        _ ← pci_write_config bus dev func 4 (Z.lor cmd 7);
        mret (Some abar_phys).
Fixpoint find_from (l : list (Z * Z * Z)) : est D (option Z) :=
  match l with
  | [] => mret None
  | (b, d, f) :: l => r ← try_function b d f; match r with Some a => mret (Some a) | None => find_from l end
  end.
Definition find_ahci_bar5 : est D (option Z) := find_from pci_functions.
Context (rust_init : Z → D → Z * D) (rust_identify : Z → Z → D → Z * D).
(** the part of the probe that calls the driver at [abar] *)
Definition start_driver (abar : Z) : est D (list Z * option Z) := λ x,
  let '(pi, x) := rust_init abar x in
  let '(e, x) := rust_identify abar 0 x in
  let text := str "[AHCI] ABAR=" ++ hex_text abar ++ str " PI=" ++ hex_text pi ++ [10] ++
    (if e =? 0 then str "[AHCI] port0 IDENTIFY DMA ok (toy driver)" else str "[AHCI] port0 IDENTIFY failed (expected if no disk on AHCI)") ++ [10] in
  Ret (Some (text, Some abar), x).
(** what is printed, and [g_ahci_abar_mmio] *)
Definition chaseros_ahci_pci_probe : est D (list Z * option Z) :=
  r ← find_ahci_bar5;
  match r with
  | None => mret (str "[AHCI] no SATA AHCI controller (PCI class 01:06:01)" ++ [10], None)
  | Some abar => start_driver abar
  end.
Definition chaseros_ahci_get_abar_mmio (g : option Z) : Z := match g with Some a => a | None => 0 end.
End ahci.

(** ** Specification *)
(** the address of the AHCI controller that a function is, if it is one *)
Definition ahci_at (c : cfg_space) (t : Z * Z * Z) : option Z :=
  let '(b, d, f) := t in
  if Z.land (c b d f 0) 0xFFFF =? 0xFFFF then None
  else if negb (Z.land (Z.shiftr (c b d f 8) 8) 0xFFFFFF =? 0x010601) then None
  else let a := abar_of (c b d f 0x24) (c b d f 0x28) in if a =? 0 then None else Some a.
(** the first of some functions that is one, and its address *)
Fixpoint first_ahci (c : cfg_space) (l : list (Z * Z * Z)) : option (Z * Z * Z * Z) :=
  match l with
  | [] => None
  | t :: l => match ahci_at c t with Some a => Some (t, a) | None => first_ahci c l end
  end.
Definition enabled (c : cfg_space) (t : Z * Z * Z) : cfg_space := let '(b, d, f) := t in cfg_put c b d f 4 (Z.lor (c b d f 4) 7).
Section spec.
Context {D : Type} `{PciLaws D}.
Lemma lor7_range a : 0 <= a < 2 ^ 32 → 0 <= Z.lor a 7 < 2 ^ 32.
Proof.
  intros Ha. assert (0 <= Z.lor a 7) by (apply Z.lor_nonneg; lia). split; [done|]. destruct (decide (Z.lor a 7 = 0)) as [->|]; [done|]. apply Z.log2_lt_pow2; [lia|].
  rewrite Z.log2_lor by lia. apply Z.max_lub_lt; [|done]. destruct (decide (a = 0)) as [->|]; [done|]. apply Z.log2_lt_pow2; lia.
Qed.
Lemma abar_narrow bar5 hi hi' : wide_bar bar5 = false → abar_of bar5 hi = abar_of bar5 hi'.
Proof. unfold wide_bar, abar_of. destruct (Z.land bar5 1 =? 0); [|done]. cbn [andb negb]. by intros ->. Qed.
Lemma try_function_spec x a c b d f : pci_rep x a c → fn_ok b d f 0 → (∀ b d f o, 0 <= c b d f o < 2 ^ 32) →
  ∃ x' a', try_function b d f x = Ret (Some (ahci_at c (b, d, f)), x') ∧
    pci_rep x' a' (match ahci_at c (b, d, f) with Some _ => enabled c (b, d, f) | None => c end).
Proof.
  intros Hx (Hb & Hd & Hf & _) Hc. assert (∀ o, 0 <= o < 256 → fn_ok b d f o) as Hok by done. unfold try_function, ahci_at.
  destruct (pci_read_spec x a c b d f 0 Hx (Hok 0 ltac:(lia))) as (x1 & a1 & E1 & H1). change (Z.land 0 0xFC) with 0 in E1. rewrite (est_bind_step _ _ _ _ _ E1).
  case_if; [by exists x1, a1|].
  destruct (pci_read_spec x1 a1 c b d f 8 H1 (Hok 8 ltac:(lia))) as (x2 & a2 & E2 & H2). change (Z.land 8 0xFC) with 8 in E2. rewrite (est_bind_step _ _ _ _ _ E2).
  destruct (negb _); [by exists x2, a2|].
  destruct (pci_read_spec x2 a2 c b d f 0x24 H2 (Hok 0x24 ltac:(lia))) as (x3 & a3 & E3 & H3). change (Z.land 0x24 0xFC) with 0x24 in E3. rewrite (est_bind_step _ _ _ _ _ E3).
  assert (∃ x4 a4 hi, (if wide_bar (c b d f 36) then pci_read_config b d f 0x28 else mret 0) x3 = Ret (Some hi, x4) ∧ pci_rep x4 a4 c ∧ abar_of (c b d f 36) hi = abar_of (c b d f 36) (c b d f 40)) as (x4 & a4 & hi & E4 & H4 & Eh).
  { destruct (wide_bar (c b d f 36)) eqn:Ew.
    - destruct (pci_read_spec x3 a3 c b d f 0x28 H3 (Hok 0x28 ltac:(lia))) as (x4 & a4 & E4 & H4). by exists x4, a4, (c b d f 40).
    - exists x3, a3, 0. split; [done|]. split; [done|]. by apply abar_narrow. }
  rewrite (est_bind_step _ _ _ _ _ E4), Eh. case_if; [by exists x4, a4|].
  destruct (pci_read_spec x4 a4 c b d f 4 H4 (Hok 4 ltac:(lia))) as (x5 & a5 & E5 & H5). change (Z.land 4 0xFC) with 4 in E5. rewrite (est_bind_step _ _ _ _ _ E5).
  destruct (pci_write_spec x5 a5 c b d f 4 (Z.lor (c b d f 4) 7) H5 (Hok 4 ltac:(lia))) as (x6 & a6 & E6 & H6).
  { by apply lor7_range. }
  rewrite (est_bind_step _ _ _ _ _ E6). by exists x6, a6.
Qed.
Lemma find_ahci_from c l : (∀ b d f o, 0 <= c b d f o < 2 ^ 32) → Forall (λ t : Z * Z * Z, let '(b, d, f) := t in fn_ok b d f 0) l → ∀ x a, pci_rep x a c →
  ∃ x' a', find_from l x = Ret (Some (snd <$> first_ahci c l), x') ∧ pci_rep x' a' (match first_ahci c l with Some (t, _) => enabled c t | None => c end).
Proof.
  intros Hc. induction 1 as [|[[b d] f] l Hok Hl IH]; intros x a Hx; [by exists x, a|]. cbn [find_from first_ahci].
  destruct (try_function_spec x a c b d f Hx Hok Hc) as (x1 & a1 & E & H1). rewrite (est_bind_step _ _ _ _ _ E). destruct (ahci_at c (b, d, f)); [by exists x1, a1|]. by apply (IH x1 a1).
Qed.
End spec.

(** The AHCI search: on ports that reach configuration space, and for any
    driver behind it, the probe stores the address of the first AHCI
    function, in the order of bus, device and function, that has one, sets the
    I/O, memory and bus-master bits of exactly that function's command
    register before the driver is started on that address, and prints its
    report; without such a function it says so, stores nothing and changes no
    register. *)
Theorem ahci_probe_correct {D} `{PciLaws D} rust_init rust_identify x a c : pci_rep x a c → (∀ b d f o, 0 <= c b d f o < 2 ^ 32) →
  match first_ahci c pci_functions with
  | Some (t, abar) => ∃ x' a', pci_rep x' a' (enabled c t) ∧ ahci_at c t = Some abar ∧
      chaseros_ahci_pci_probe rust_init rust_identify x = start_driver rust_init rust_identify abar x' ∧
      ∃ text x'', chaseros_ahci_pci_probe rust_init rust_identify x = Ret (Some (text, Some abar), x'')
  | None => ∃ text x' a', chaseros_ahci_pci_probe rust_init rust_identify x = Ret (Some (text, None), x') ∧ pci_rep x' a' c
  end.
Proof.
  intros Hx Hc. destruct (find_ahci_from c pci_functions Hc pci_functions_ok x a Hx) as (x' & a' & E & Hx'). unfold chaseros_ahci_pci_probe, find_ahci_bar5.
  rewrite (est_bind_step _ _ _ _ _ E). destruct (first_ahci c pci_functions) as [[t abar]|] eqn:Ef; cbn [fmap option_fmap option_map snd].
  - exists x', a'. split; [done|]. split; [|split; [done|]].
    + clear -Ef. induction pci_functions as [|t' l IH]; [done|]. cbn [first_ahci] in Ef. destruct (ahci_at c t') as [a1|] eqn:E1; [by injection Ef as -> ->|by apply IH].
    + unfold start_driver. destruct (rust_init abar x') as [pi x1]. destruct (rust_identify abar 0 x1) as [e x2]. by eexists _, x2.
  - by eexists _, x', a'.
Qed.
(** a controller at 0:1:2 *)
Definition demo_cfg : cfg_space := λ b d f o,
  if (b =? 0) && (d =? 1) && (f =? 2) then (if o =? 8 then 0x01060100 else if o =? 0x24 then 0xFEBF0000 else if o =? 4 then 0 else 0x29228086) else 0xFFFFFFFF.
Lemma ahci_probe_correct_witness : first_ahci demo_cfg pci_functions = Some (0, 1, 2, 0xFEBF0000) ∧
  ∃ text x'', chaseros_ahci_pci_probe (D := sim_pci) (λ _ y, (1, y)) (λ _ _ y, (0, y)) (0, demo_cfg) = Ret (Some (text, Some 0xFEBF0000), x'').
Proof.
  assert (first_ahci demo_cfg pci_functions = Some (0, 1, 2, 0xFEBF0000)) as E by (vm_compute; reflexivity). split; [exact E|].
  pose proof (ahci_probe_correct (D := sim_pci) (λ _ y, (1, y)) (λ _ _ y, (0, y)) (0, demo_cfg) 0 demo_cfg) as H. rewrite E in H.
  destruct H as (x' & a' & _ & _ & _ & Ht); [reflexivity| |exact Ht].
  intros b d f o. unfold demo_cfg. destruct (_ && _), (o =? 8), (o =? 0x24), (o =? 4); vm_compute; split; congruence.
Defined.
End Ahci.
