(* ===== verification/FsIo.v ===== *)
(** The glue for libext2fs (kernel/fs/chaseros/chaseros_alloc.c and
    chaseros_io.c): the allocator of the reserved area and the RAM disk as an
    I/O channel.  A channel is the record of its fields; its block and the
    blocks of its name and private data are only allocated.  Theorems: blocks
    are aligned, inside the reserve and disjoint; blocks of the disk survive a
    round trip, and the channel's errors. *)
From Stdlib Require Import Sorted.
From stdpp Require Import base numbers list sets strings.
From S2P Require Import Prelude Memory.
Open Scope Z_scope.

Module FsIo.
Definition EXT2_ET_MAGIC_IO_CHANNEL := 2133571333.
Definition EXT2_ET_SHORT_READ := 2133571364.
Definition EXT2_ET_SHORT_WRITE := 2133571365.
Definition EXT2_ET_NO_MEMORY := 2133571398.
Definition EXT2_ET_INVALID_ARGUMENT := 2133571399.
(** ** The allocator *)
Section alloc.
(** [_fs_reserve_start] and [_fs_reserve_end] of the linker script *)
Context (fs_reserve_start fs_reserve_end : Z).
(** the size that is reserved; [~7u] is a 32-bit number *)
Definition rounded (n : Z) : Z :=
  let n := if n =? 0 then 1 else n in
  Z.land (u64 (n + 7)) 0xFFFFFFF8.
(** [bump] is passed along; [None] is the null pointer *)
Definition chaseros_malloc (n : Z) (bump : Z) : option Z * Z :=
  let n := rounded n in
  let base := u64 (fs_reserve_start + bump) in
  let end_ := u64 (base + n) in
  if fs_reserve_end <? end_ then (None, bump) else (Some base, u64 (bump + n)).
Definition chaseros_free (p : Z) (bump : Z) : Z := bump.
(** ** The RAM disk as an I/O channel *)
Record io_channel := Chan { magic : Z; block_size : Z; private_data : option (Z * Z) }.
Record fsio := FsSt { bump : Z; g_ramdisk_base : Z; g_ramdisk_len : Z; fmem : mem }.
Definition chaseros_memcpy (dst src n : Z) (m : mem) : mem := foldl (λ m i, mwrite m (dst + i) [m (src + i)]) m (seqZ 0 n).
Definition chaseros_memset (dst c n : Z) (m : mem) : mem := foldl (λ m i, mwrite m (dst + i) [u8 c]) m (seqZ 0 n).
Definition chaseros_ramdisk_attach (base nbytes : Z) (s : fsio) : fsio := FsSt (bump s) base nbytes (fmem s).
Definition set_fmem (m : mem) (s : fsio) : fsio := FsSt (bump s) (g_ramdisk_base s) (g_ramdisk_len s) m.
Definition alloc (n : Z) (s : fsio) : option Z * fsio :=
  let '(p, b) := chaseros_malloc n (bump s) in (p, FsSt b (g_ramdisk_base s) (g_ramdisk_len s) (fmem s)).
Definition chaseros_close (ch : option io_channel) : Z * option io_channel :=
  match ch with
  | None => (EXT2_ET_MAGIC_IO_CHANNEL, None)
  | Some c => if magic c =? EXT2_ET_MAGIC_IO_CHANNEL then (0, Some (Chan 0 (block_size c) None)) else (EXT2_ET_MAGIC_IO_CHANNEL, Some c)
  end.
Definition chaseros_set_blksize (c : io_channel) (blksize : Z) : Z * io_channel :=
  if (blksize <=? 0) || negb (Z.land blksize (blksize - 1) =? 0) then (EXT2_ET_INVALID_ARGUMENT, c)
  else (0, Chan (magic c) blksize (private_data c)).
(** the checks that reading and writing share: the offset and the length *)
Definition blk_range (c : io_channel) (block count data : Z) (short : Z) : Z + (Z * Z * Z) :=
  let bs := u32 (block_size c) in
  match private_data c with
  | None => inl EXT2_ET_INVALID_ARGUMENT
  | Some (base, nbytes) =>
    if (data =? 0) || (count <=? 0) || (bs =? 0) then inl EXT2_ET_INVALID_ARGUMENT
    else
      let off := u64 (block * bs) in
      let need := u64 (u32 count * bs) in
      if nbytes <? u64 (off + need) then inl short else inr (base, off, need)
  end.
Definition chaseros_read_blk (c : io_channel) (block count data : Z) (s : fsio) : Z * fsio :=
  match blk_range c block count data EXT2_ET_SHORT_READ with
  | inl e => (e, s)
  | inr (base, off, need) => (0, set_fmem (chaseros_memcpy data (base + off) need (fmem s)) s)
  end.
Definition chaseros_write_blk (c : io_channel) (block count data : Z) (s : fsio) : Z * fsio :=
  match blk_range c block count data EXT2_ET_SHORT_WRITE with
  | inl e => (e, s)
  | inr (base, off, need) => (0, set_fmem (chaseros_memcpy (base + off) data need (fmem s)) s)
  end.
Definition chaseros_flush (c : io_channel) : Z := 0.
(** [sizeof(struct struct_io_channel)] and of the private data *)
Definition channel_size := 192.
Definition chaseros_open (name : list Z) (s : fsio) : Z * option io_channel * fsio :=
  if (g_ramdisk_len s =? 0) || (g_ramdisk_base s =? 0) then (EXT2_ET_INVALID_ARGUMENT, None, s)
  else
    let '(io, s) := alloc channel_size s in
    match io with
    | None => (EXT2_ET_NO_MEMORY, None, s)
    | Some _ =>
      let '(nm, s) := alloc (Z.of_nat (length name) + 1) s in
      match nm with
      | None => (EXT2_ET_NO_MEMORY, None, s)
      | Some _ =>
        let '(pd, s) := alloc 16 s in
        match pd with
        | None => (EXT2_ET_NO_MEMORY, None, s)
        | Some _ => (0, Some (Chan EXT2_ET_MAGIC_IO_CHANNEL 1024 (Some (g_ramdisk_base s, g_ramdisk_len s))), s)
        end
      end
    end.
(** the static [buf] and the local [out] are at the given addresses *)
Definition chaseros_io_selftest (buf out : Z) (s : fsio) : Z * fsio :=
  let m := chaseros_memset buf 0xCD 4096 (fmem s) in
  let m := mwrite (mwrite m buf [0x11]) (buf + 1) [0x22] in
  let s := chaseros_ramdisk_attach buf 4096 (set_fmem m s) in
  match chaseros_open (str "chaseros_selftest") s with
  | (e, None, s) => (e, s)
  | (e, Some ch, s) =>
    if negb (e =? 0) then (e, s)
    else
      let '(e, ch) := chaseros_set_blksize ch 1024 in
      if negb (e =? 0) then (e, s)
      else
        let '(e, s) := chaseros_read_blk ch 0 1 out s in
        if negb (e =? 0) then (e, s)
        else if negb (fmem s out =? 0x11) || negb (fmem s (out + 1) =? 0x22) then (EXT2_ET_SHORT_READ, s)
        else (fst (chaseros_close (Some ch)), s)
  end.
End alloc.

(** ** The allocator *)
Section blocks.
Context (rs re : Z) (Hrs : 0 <= rs <= re) (Hre : re < 2 ^ 62) (Hal : rs mod 8 = 0).
Lemma land_round x : 0 <= x < 2 ^ 32 → Z.land x 0xFFFFFFF8 = x - x mod 8.
Proof.
  intros Hx. change 0xFFFFFFF8 with (Z.shiftl (Z.ones 29) 3).
  assert (x = x mod 8 + 8 * (x / 8)) as E by zdm.
  assert (Z.land x (Z.shiftl (Z.ones 29) 3) = Z.shiftl (Z.land (Z.shiftr x 3) (Z.ones 29)) 3) as ->.
  { apply Z.bits_inj'. intros n Hn. rewrite Z.land_spec. destruct (Z.lt_ge_cases n 3); [rewrite !Z.shiftl_spec_low, andb_false_r by done; done|].
    rewrite !Z.shiftl_spec, Z.land_spec, Z.shiftr_spec by lia. by replace (n - 3 + 3) with n by lia. }
  rewrite Z.land_ones, Z.shiftl_mul_pow2, Z.shiftr_div_pow2 by lia. change (2 ^ 3) with 8. rewrite Z.mod_small by zdm. lia.
Qed.
Lemma rounded_spec n : 0 <= n <= 2 ^ 32 - 8 → let r := rounded n in n <= r ∧ 0 < r < n + 9 ∧ r mod 8 = 0.
Proof.
  intros Hn. unfold rounded. cbv zeta. rewrite u64_small by (case_if; lia). rewrite land_round by (case_if; lia). case_if; [subst; done|]. zdm.
Qed.
(** the blocks that a list of requests is given *)
Fixpoint mallocs (ns : list Z) (bump : Z) : list (Z * Z) * Z :=
  match ns with
  | [] => ([], bump)
  | n :: ns =>
    let '(p, bump) := chaseros_malloc rs re n bump in
    let '(bs, bump) := mallocs ns bump in
    (match p with Some a => (a, n) :: bs | None => bs end, bump)
  end.
Lemma malloc_step n b : 0 <= n <= 2 ^ 32 - 8 → 0 <= b <= re - rs → b mod 8 = 0 →
  chaseros_malloc rs re n b = (if rs + b + rounded n <=? re then (Some (rs + b), b + rounded n) else (None, b)).
Proof.
  intros Hn Hb Hm. pose proof (rounded_spec n Hn) as (R1 & R2 & R3). unfold chaseros_malloc. cbv zeta. rewrite (u64_small (rs + b)), (u64_small (rs + b + _)), (u64_small (b + _)) by lia.
  destruct (Z.ltb_spec re (rs + b + rounded n)), (Z.leb_spec (rs + b + rounded n) re); try lia; done.
Qed.
Lemma mallocs_spec ns : Forall (λ n, 0 <= n <= 2 ^ 32 - 8) ns → ∀ b, 0 <= b <= re - rs → b mod 8 = 0 →
  Forall (λ p, rs + b <= fst p ∧ fst p + snd p <= re ∧ fst p mod 8 = 0) (fst (mallocs ns b)) ∧
  StronglySorted (λ p q, fst p + snd p <= fst q ∧ fst p < fst q) (fst (mallocs ns b)).
Proof.
  induction 1 as [|n ns Hn Hns IH]; intros b Hb Hm; [split; constructor|]. cbn [mallocs]. rewrite malloc_step by done. pose proof (rounded_spec n Hn) as (R1 & R2 & R3).
  destruct (Z.leb_spec (rs + b + rounded n) re) as [Hle|Hgt].
  - destruct (IH (b + rounded n) ltac:(lia) ltac:(rewrite Z.add_mod, Hm, R3 by lia; done)) as [H1 H2]. destruct (mallocs ns (b + rounded n)) as [bs b']. cbn [fst] in *. split.
    + constructor; [cbn [fst snd]; split; [lia|]; split; [lia|]; rewrite Z.add_mod, Hal, Hm by lia; done|]. eapply Forall_impl; [exact H1|]. intros p Hp. cbn beta in *. lia.
    + constructor; [done|]. eapply Forall_impl; [exact H1|]. intros p Hp. cbn [fst snd] in *. lia.
  - specialize (IH b Hb Hm). destruct (mallocs ns b) as [bs b']. exact IH.
Qed.
End blocks.

(** ** Copying *)
Definition apart (a n b k : Z) : Prop := a + n <= b ∨ b + k <= a.
Lemma memcpy_spec d s n m : 0 <= n → apart d n s n → ∀ a, chaseros_memcpy d s n m a = if (d <=? a) && (a <? d + n) then m (s + (a - d)) else m a.
Proof.
  intros Hn Ha. unfold chaseros_memcpy.
  apply (foldl_seqZ_ind (λ i m', i <= n → ∀ a, m' a = if (d <=? a) && (a <? d + i) then m (s + (a - d)) else m a) (λ m i, mwrite m (d + i) [m (s + i)])); [done| | |done].
  - intros _ a. destruct (Z.leb_spec d a), (Z.ltb_spec a (d + 0)); try lia; done.
  - intros i m' Hi IH Hin a. rewrite (IH ltac:(lia) (s + i)). unfold apart in Ha.
    assert ((d <=? s + i) && (s + i <? d + i) = false) as -> by (destruct (Z.leb_spec d (s + i)), (Z.ltb_spec (s + i) (d + i)); try done; lia).
    destruct (decide (a = d + i)) as [->|Hne].
    + rewrite mwrite_in by (cbn [length]; lia). rewrite Z.sub_diag. cbn [Z.to_nat nth]. rewrite (proj2 (Z.leb_le _ _)), (proj2 (Z.ltb_lt _ _)) by lia. cbn [andb]. f_equal. lia.
    + rewrite mwrite_out by (cbn [length]; lia). rewrite (IH ltac:(lia)). destruct (Z.leb_spec d a), (Z.ltb_spec a (d + i)), (Z.ltb_spec a (d + (i + 1))); try lia; done.
Qed.
Section channel.
Context (c : io_channel) (base nbytes block count : Z).
Context (Hp : private_data c = Some (base, nbytes)) (Hbs : 0 < block_size c < 2 ^ 31) (Hc : 0 < count < 2 ^ 31) (Hb : 0 <= block).
Notation bs := (block_size c).
Lemma blk_range_spec data short : data ≠ 0 → block * bs + count * bs < 2 ^ 64 →
  blk_range c block count data short = if nbytes <? block * bs + count * bs then inl short else inr (base, block * bs, count * bs).
Proof.
  intros Hd Hn. unfold blk_range. rewrite Hp. cbv zeta. rewrite (proj2 (Z.eqb_neq data 0)), (proj2 (Z.leb_gt count 0)) by lia. rewrite (u32_small bs), (u32_small count) by lia.
  rewrite (proj2 (Z.eqb_neq bs 0)) by lia. cbn [orb]. rewrite (u64_small (block * bs)), (u64_small (count * bs)), u64_small by nia. done.
Qed.
End channel.

(** ** Theorems *)

(** C30. The allocator of the reserved area: any sequence of requests of at
    most 2^32 - 8 bytes is given blocks that start at multiples of 8, lie inside
    the reserve, follow each other without overlapping and are large enough.
    Larger requests go wrong because the mask [~7u] is only 32 bits wide: one of
    the seven sizes from 2^32 - 7 to 2^32 - 1 is given a block of no bytes at
    all, which the next block overlaps, and a request of 4 GiB more than a size
    is given the block of that size. *)
Theorem chaseros_malloc_disjoint rs re ns : 0 <= rs <= re → re < 2 ^ 62 → rs mod 8 = 0 → Forall (λ n, 0 <= n <= 2 ^ 32 - 8) ns →
  (Forall (λ p, rs <= fst p ∧ fst p + snd p <= re ∧ fst p mod 8 = 0) (fst (mallocs rs re ns 0)) ∧
   StronglySorted (λ p q, fst p + snd p <= fst q ∧ fst p < fst q) (fst (mallocs rs re ns 0))) ∧
  (∀ n bump, 2 ^ 32 - 8 < n < 2 ^ 32 → 0 <= bump → rs + bump <= re → chaseros_malloc rs re n bump = (Some (rs + bump), bump)) ∧
  ∀ n bump, 0 < n < 2 ^ 32 → chaseros_malloc rs re (n + 2 ^ 32) bump = chaseros_malloc rs re n bump.
Proof.
  intros Hrs Hre Hal Hns. destruct (mallocs_spec rs re Hrs Hre Hal ns Hns 0 ltac:(lia) ltac:(done)) as [H1 H2]. split; [split; [|exact H2]|split].
  - eapply Forall_impl; [exact H1|]. intros p Hp. cbn beta in *. rewrite Z.add_0_r in Hp. exact Hp.
  - intros n b Hn Hb Hle. assert (rounded n = 0) as E by (assert (n = 2 ^ 32 - 7 ∨ n = 2 ^ 32 - 6 ∨ n = 2 ^ 32 - 5 ∨ n = 2 ^ 32 - 4 ∨ n = 2 ^ 32 - 3 ∨ n = 2 ^ 32 - 2 ∨ n = 2 ^ 32 - 1) as Hc by lia; by destruct_or! Hc; subst n).
    unfold chaseros_malloc. rewrite E. cbv zeta. rewrite (u64_small (rs + b)), !u64_small by (rewrite ?u64_small; lia). rewrite !Z.add_0_r. by rewrite (proj2 (Z.ltb_ge re (rs + b))) by lia.
  - intros n b Hn. assert (rounded (n + 2 ^ 32) = rounded n) as E; [|unfold chaseros_malloc; by rewrite E].
    unfold rounded. cbv zeta. rewrite (proj2 (Z.eqb_neq (n + 2 ^ 32) 0)), (proj2 (Z.eqb_neq n 0)), !u64_small by lia.
    assert (∀ x, Z.land x 0xFFFFFFF8 = Z.land (x mod 2 ^ 32) 0xFFFFFFF8) as Hm.
    { intros x. rewrite <-Z.land_ones by lia. rewrite <-Z.land_assoc. done. }
    rewrite Hm, (Hm (n + 7)). f_equal. replace (n + 2 ^ 32 + 7) with (n + 7 + 1 * 2 ^ 32) by lia. by rewrite Z.mod_add by lia.
Qed.
Lemma chaseros_malloc_disjoint_witness : mallocs 4096 69632 [192; 18; 16] 0 = ([(4096, 192); (4288, 18); (4312, 16)], 232) ∧
  Forall (λ p, 4096 <= fst p ∧ fst p + snd p <= 69632 ∧ fst p mod 8 = 0) (fst (mallocs 4096 69632 [192; 18; 16] 0)).
Proof.
  split; [reflexivity|]. destruct (chaseros_malloc_disjoint 4096 69632 [192; 18; 16]) as [[H _] _]; [lia|vm_compute; reflexivity|reflexivity| |exact H].
  repeat constructor; vm_compute; congruence.
Defined.
(** Blocks of the RAM disk survive a round trip through the channel: for
    a range inside the disk, writing blocks from one buffer and reading them
    into another succeeds and copies the bytes, and no byte outside the
    blocks and the second buffer changes; a range that ends beyond the disk is
    refused with the short-write and short-read errors and nothing changes. *)
Theorem ramdisk_roundtrip c base nbytes block count d1 d2 s : private_data c = Some (base, nbytes) → 0 < block_size c < 2 ^ 31 → 0 < count < 2 ^ 31 → 0 <= block →
  d1 ≠ 0 → d2 ≠ 0 → let off := block * block_size c in let n := count * block_size c in off + n < 2 ^ 64 →
  (off + n <= nbytes → apart (base + off) n d1 n → apart (base + off) n d2 n →
     ∃ s1 s2, chaseros_write_blk c block count d1 s = (0, s1) ∧ chaseros_read_blk c block count d2 s1 = (0, s2) ∧
       (∀ i, 0 <= i < n → fmem s2 (d2 + i) = fmem s (d1 + i)) ∧
       ∀ a, a < base + off ∨ base + off + n <= a → a < d2 ∨ d2 + n <= a → fmem s2 a = fmem s a) ∧
  (nbytes < off + n → chaseros_write_blk c block count d1 s = (EXT2_ET_SHORT_WRITE, s) ∧ chaseros_read_blk c block count d2 s = (EXT2_ET_SHORT_READ, s)).
Proof.
  intros Hp Hbs Hc Hb Hd1 Hd2. cbv zeta. intros H64. unfold chaseros_write_blk, chaseros_read_blk. rewrite !(blk_range_spec c base nbytes block count Hp Hbs Hc Hb) by done.
  set (off := block * block_size c) in *. set (n := count * block_size c) in *. assert (0 <= n) by (unfold n; nia). split.
  - intros Hin A1 A2. rewrite (proj2 (Z.ltb_ge _ _)) by done. eexists _, _. split; [done|]. split; [done|]. cbn [fmem set_fmem].
    assert (apart d2 n (base + off) n) as A2' by (unfold apart in *; lia). split.
    + intros i Hi. rewrite memcpy_spec by done. rewrite (proj2 (Z.leb_le _ _)), (proj2 (Z.ltb_lt _ _)) by lia. cbn [andb]. rewrite memcpy_spec by done.
      rewrite (proj2 (Z.leb_le _ _)), (proj2 (Z.ltb_lt _ _)) by lia. cbn [andb]. f_equal. lia.
    + intros a H1 H2. rewrite !memcpy_spec by done. destruct (Z.leb_spec d2 a), (Z.ltb_spec a (d2 + n)), (Z.leb_spec (base + off) a), (Z.ltb_spec a (base + off + n)); try lia; done.
  - intros Hout. by rewrite (proj2 (Z.ltb_lt _ _)) by done.
Qed.
Lemma ramdisk_roundtrip_witness : let s := FsSt 0 0x1000 4096 (λ a, a mod 256) in let c := Chan EXT2_ET_MAGIC_IO_CHANNEL 1024 (Some (0x1000, 4096)) in
  (∃ s1 s2, chaseros_write_blk c 3 1 0x8000 s = (0, s1) ∧ chaseros_read_blk c 3 1 0x9000 s1 = (0, s2)) ∧ chaseros_read_blk c 4 1 0x9000 s = (EXT2_ET_SHORT_READ, s).
Proof.
  cbv zeta. split.
  - destruct (ramdisk_roundtrip (Chan EXT2_ET_MAGIC_IO_CHANNEL 1024 (Some (0x1000, 4096))) 0x1000 4096 3 1 0x8000 0x9000 (FsSt 0 0x1000 4096 (λ a, a mod 256))) as [H _];
      [reflexivity|cbn; lia|lia|lia|lia|lia|vm_compute; reflexivity|].
    destruct H as (s1 & s2 & E1 & E2 & _); [vm_compute; discriminate|left; vm_compute; discriminate|left; vm_compute; discriminate|]. exists s1, s2. split; [exact E1|exact E2].
  - destruct (ramdisk_roundtrip (Chan EXT2_ET_MAGIC_IO_CHANNEL 1024 (Some (0x1000, 4096))) 0x1000 4096 4 1 0x8000 0x9000 (FsSt 0 0x1000 4096 (λ a, a mod 256))) as [_ H];
      [reflexivity|cbn; lia|lia|lia|lia|lia|vm_compute; reflexivity|]. destruct H as [_ E]; [vm_compute; reflexivity|exact E].
Defined.
(** the offset of a block is computed modulo [2 ^ 64] before it is checked *)
Lemma ramdisk_block_wraps c block count data s : block_size c = 1024 → chaseros_read_blk c (block + 2 ^ 54) count data s = chaseros_read_blk c block count data s.
Proof.
  intros Hb. unfold chaseros_read_blk, blk_range. rewrite Hb. change (u32 1024) with 1024. cbv zeta.
  assert (u64 ((block + 2 ^ 54) * 1024) = u64 (block * 1024)) as ->; [|done]. unfold u64. replace ((block + 2 ^ 54) * 1024) with (block * 1024 + 1 * 2 ^ 64) by lia. by rewrite Z.mod_add by lia.
Qed.
(** the self test succeeds as long as the reserve has room for one channel *)
Lemma selftest_ok rs re s buf out : 0 <= rs <= re → re < 2 ^ 62 → 0 <= bump s → rs + bump s + 232 <= re → bump s mod 8 = 0 → buf ≠ 0 → out ≠ 0 → apart out 1024 buf 1024 →
  fst (chaseros_io_selftest rs re buf out s) = 0.
Proof.
  intros Hrs Hre Hb Hroom Hm Hbuf Hout Ha. unfold chaseros_io_selftest, chaseros_open. cbv zeta. unfold chaseros_ramdisk_attach, set_fmem at 1. cbn [g_ramdisk_len g_ramdisk_base chaseros_ramdisk_attach set_fmem bump fmem].
  change (4096 =? 0) with false. rewrite (proj2 (Z.eqb_neq buf 0)) by done. cbn [orb]. unfold alloc. cbn [bump g_ramdisk_base g_ramdisk_len fmem chaseros_ramdisk_attach set_fmem].
  change (Z.of_nat (length (str "chaseros_selftest")) + 1) with 18. unfold channel_size.
  rewrite (malloc_step rs re Hrs Hre 192) by (done || lia). change (rounded 192) with 192. rewrite (proj2 (Z.leb_le (rs + bump s + 192) re)) by lia. cbn [bump g_ramdisk_base g_ramdisk_len fmem].
  rewrite (malloc_step rs re Hrs Hre 18) by (lia || (rewrite Z.add_mod, Hm by lia; done)). change (rounded 18) with 24. rewrite (proj2 (Z.leb_le (rs + (bump s + 192) + 24) re)) by lia. cbn [bump g_ramdisk_base g_ramdisk_len fmem].
  rewrite (malloc_step rs re Hrs Hre 16) by (lia || (rewrite <-Z.add_assoc, Z.add_mod, Hm by lia; done)). change (rounded 16) with 16. rewrite (proj2 (Z.leb_le (rs + (bump s + 192 + 24) + 16) re)) by lia. cbn [bump g_ramdisk_base g_ramdisk_len fmem].
  change (negb (0 =? 0)) with false. cbn iota.
  set (ch := Chan EXT2_ET_MAGIC_IO_CHANNEL 1024 (Some (buf, 4096))). change (chaseros_set_blksize ch 1024) with (0, ch). change (negb (0 =? 0)) with false. cbn iota.
  set (m := mwrite (mwrite _ buf [17]) (buf + 1) [34]). unfold chaseros_read_blk. rewrite (blk_range_spec ch buf 4096 0 1) by (done || cbn; lia).
  change (4096 <? 0 * block_size ch + 1 * block_size ch) with false. cbn iota. change (0 * block_size ch) with 0. change (1 * block_size ch) with 1024. cbn [fmem set_fmem].
  change (negb (0 =? 0)) with false. cbn iota. rewrite Z.add_0_r, !memcpy_spec by (done || lia).
  rewrite !(proj2 (Z.leb_le out _)), !(proj2 (Z.ltb_lt _ (out + 1024))) by lia. cbn [andb].
  assert (m (buf + (out - out)) = 17) as ->. { unfold m. rewrite mwrite_out by (cbn [length]; lia). rewrite mwrite_in by (cbn [length]; lia). by replace (buf + (out - out) - buf) with 0 by lia. }
  assert (m (buf + (out + 1 - out)) = 34) as ->. { unfold m. rewrite mwrite_in by (cbn [length]; lia). by replace (buf + (out + 1 - out) - (buf + 1)) with 0 by lia. }
  reflexivity.
Qed.
End FsIo.
