(* ===== verification/Vol.v ===== *)
(** The current volume (the [chaseros_vol_*] and [vol_*] functions of
    kernel/fs/chaseros/chaseros_ext2_vol.c) and the interface it offers to the
    file system.  The volume is a RAM disk in physical memory or an IDE disk;
    the class [IdeOps] stands for the driver's three entry points.  [Blocks]
    is the interface the file system is written against, [BlocksLaws] what it
    promises: the volume is an array of 1024-byte blocks.  The RAM volume is
    proved to keep that promise. *)
From stdpp Require Import base numbers list.
From S2P Require Import Prelude Memory Pmm Vmm.
Open Scope Z_scope.

Module Vol.
Import Pmm.Pmm Vmm.Vmm.
Definition CHASEROS_BLK := 1024.

Inductive chaseros_vol_type_t := CHASEROS_VOL_NONE | CHASEROS_VOL_RAM | CHASEROS_VOL_IDE.
Record chaseros_vol_t := CVol {
  vtype : chaseros_vol_type_t;
  ram_base : Z;
  size_bytes : Z;
  ide_drive : Z
}.
(** the IDE driver: capacity in sectors, read and write of [n] sectors *)
Class IdeOps (D : Type) := {
  ide_capacity_sectors : Z → est D Z;
  ide_read_sectors : Z → Z → Z → est D (list Z);
  ide_write_sectors : Z → Z → Z → list Z → est D unit
}.
(** what the file system needs of a volume *)
Class Blocks (S : Type) := {
  vol_attached : S → bool;
  vol_check : S → bool;
  vol_bytes : S → Z;
  vol_clear_ram : S → S;
  vol_read_blk : Z → est S (list Z);
  vol_write_blk : Z → list Z → est S unit
}.

Section volume.
Context {D : Type} `{IdeOps D}.
(** the statics of the file, the machine's memory and the disk *)
Record vst := Vst { g_vol : chaseros_vol_t; g_ram_alloc : Z; g_ram_npages : Z; v_vm : vm; v_dev : D }.
Definition set_gvol (s : vst) (v : chaseros_vol_t) : vst := Vst v (g_ram_alloc s) (g_ram_npages s) (v_vm s) (v_dev s).
Definition set_ram (s : vst) (a n : Z) : vst := Vst (g_vol s) a n (v_vm s) (v_dev s).
Definition set_vvm (s : vst) (v : vm) : vst := Vst (g_vol s) (g_ram_alloc s) (g_ram_npages s) v (v_dev s).
Definition set_dev (s : vst) (d : D) : vst := Vst (g_vol s) (g_ram_alloc s) (g_ram_npages s) (v_vm s) d.
Definition is_type (s : vst) (t : chaseros_vol_type_t) : bool :=
  match vtype (g_vol s), t with
  | CHASEROS_VOL_NONE, CHASEROS_VOL_NONE | CHASEROS_VOL_RAM, CHASEROS_VOL_RAM
  | CHASEROS_VOL_IDE, CHASEROS_VOL_IDE => true
  | _, _ => false
  end.
(** run the IDE driver on the device *)
Definition on_dev {A} (m : est D A) : est vst A := λ s,
  '(r, d) ← m (v_dev s); Ret (r, set_dev s d).

Definition chaseros_vol_init (s : vst) : vst := set_ram (set_gvol s (CVol CHASEROS_VOL_NONE 0 0 0)) 0 0.
Definition chaseros_vol_current (s : vst) : option chaseros_vol_t :=
  if is_type s CHASEROS_VOL_NONE then None else Some (g_vol s).
Definition chaseros_vol_detach_ram (s : vst) : outcome vst :=
  s ← (if negb (g_ram_alloc s =? 0) && negb (g_ram_npages s =? 0)
       then p ← pmm_free_contiguous (vm_pmm (v_vm s)) (g_ram_alloc s) (g_ram_npages s);
            Ret (set_vvm s (set_pmm (v_vm s) p))
       else Ret s);
  let s := set_ram s 0 0 in
  Ret (if is_type s CHASEROS_VOL_RAM
       then set_gvol s (CVol CHASEROS_VOL_NONE 0 0 (ide_drive (g_vol s))) else s).
Definition chaseros_vol_detach_all (s : vst) : outcome vst :=
  s ← chaseros_vol_detach_ram s;
  Ret (set_gvol s (CVol CHASEROS_VOL_NONE 0 0 (ide_drive (g_vol s)))).
Definition chaseros_vol_attach_ram (base size : Z) : est vst unit := λ s,
  if (base =? 0) || (size <? 256 * 1024) || negb (size mod CHASEROS_BLK =? 0) then Ret (None, s)
  else
    let nblk := u32 (size / CHASEROS_BLK) in
    if (nblk <? 256) || (8192 <? nblk) then Ret (None, s)
    else
      s ← chaseros_vol_detach_all s;
      let s := set_gvol s (CVol CHASEROS_VOL_RAM base size (ide_drive (g_vol s))) in
      Ret (Some tt, set_ram s base (u64 (size + PAGE_SIZE - 1) / PAGE_SIZE)).
Definition chaseros_vol_attach_ide (drive : Z) : est vst unit :=
  sec ← on_dev (ide_capacity_sectors drive);
  if sec <? 512 then est_fail
  else
    let bytes := Z.land (sec * 512) (Z.lnot 1023) in
    if bytes <? 256 * 1024 then est_fail
    else
      let max_toy := 8192 * 1024 in
      let bytes := if max_toy <? bytes then max_toy else bytes in
      λ s, s ← chaseros_vol_detach_all s;
           Ret (Some tt, set_gvol s (CVol CHASEROS_VOL_IDE 0 bytes drive)).

Definition v_check (s : vst) : bool :=
  negb (is_type s CHASEROS_VOL_NONE) &&
  negb ((size_bytes (g_vol s) <? 256 * 1024) || negb (size_bytes (g_vol s) mod CHASEROS_BLK =? 0)).
Definition v_read_blk (blk : Z) : est vst (list Z) := λ s,
  if negb (v_check s) then Ret (None, s)
  else if size_bytes (g_vol s) <? u32 (blk + 1) * CHASEROS_BLK then Ret (None, s)
  else match vtype (g_vol s) with
       | CHASEROS_VOL_RAM =>
         Ret (Some (mread (vm_mem (v_vm s)) (ram_base (g_vol s) + blk * CHASEROS_BLK) 1024), s)
       | CHASEROS_VOL_IDE => on_dev (ide_read_sectors (ide_drive (g_vol s)) (u32 (blk * 2)) 2) s
       | CHASEROS_VOL_NONE => Ret (None, s)
       end.
Definition v_write_blk (blk : Z) (buf : list Z) : est vst unit := λ s,
  if negb (v_check s) then Ret (None, s)
  else if size_bytes (g_vol s) <? u32 (blk + 1) * CHASEROS_BLK then Ret (None, s)
  else match vtype (g_vol s) with
       | CHASEROS_VOL_RAM =>
         Ret (Some tt, set_vvm s (set_mem (v_vm s)
           (mwrite (vm_mem (v_vm s)) (ram_base (g_vol s) + blk * CHASEROS_BLK) buf)))
       | CHASEROS_VOL_IDE => on_dev (ide_write_sectors (ide_drive (g_vol s)) (u32 (blk * 2)) 2 buf) s
       | CHASEROS_VOL_NONE => Ret (None, s)
       end.
(** [if (v->type == RAM) memset(v->ram_base, 0, v->size_bytes)] *)
Definition v_clear_ram (s : vst) : vst :=
  if is_type s CHASEROS_VOL_RAM
  then set_vvm s (set_mem (v_vm s) (λ a,
         if (ram_base (g_vol s) <=? a) && (a <? ram_base (g_vol s) + size_bytes (g_vol s)) then 0
         else vm_mem (v_vm s) a))
  else s.
#[export] Instance vst_blocks : Blocks vst := {
  vol_attached := λ s, bool_decide (is_Some (chaseros_vol_current s));
  vol_check := v_check;
  vol_bytes := λ s, size_bytes (g_vol s);
  vol_clear_ram := v_clear_ram;
  vol_read_blk := v_read_blk;
  vol_write_blk := v_write_blk
}.
End volume.
Arguments vst D : clear implicits.

(** ** The promise of a volume *)
(** [vol_rep s n img]: [s] is a usable volume of [n] blocks with contents
    [img]. *)
Class BlocksLaws (S : Type) `{Blocks S} := {
  vol_rep : S → Z → (Z → list Z) → Prop;
  rep_attached : ∀ s n img, vol_rep s n img → vol_attached s = true;
  rep_check : ∀ s n img, vol_rep s n img → vol_check s = true;
  rep_bytes : ∀ s n img, vol_rep s n img → vol_bytes s = n * CHASEROS_BLK;
  rep_range : ∀ s n img, vol_rep s n img → 256 <= n <= 8192;
  rep_block : ∀ s n img b, vol_rep s n img → 0 <= b < n → length (img b) = 1024%nat ∧ bytes (img b);
  rep_read : ∀ s n img b, vol_rep s n img → 0 <= b < n →
    ∃ s', vol_read_blk b s = Ret (Some (img b), s') ∧ vol_rep s' n img;
  rep_read_out : ∀ s n img b, vol_rep s n img → n <= b < 2 ^ 32 - 1 →
    ∃ s', vol_read_blk b s = Ret (None, s') ∧ vol_rep s' n img;
  rep_write : ∀ s n img b d, vol_rep s n img → 0 <= b < n → length d = 1024%nat → bytes d →
    ∃ s', vol_write_blk b d s = Ret (Some tt, s') ∧
          vol_rep s' n (λ x, if decide (x = b) then d else img x);
  rep_clear : ∀ s n img, vol_rep s n img →
    ∃ img', vol_rep (vol_clear_ram s) n img'
}.

Section ram.
Context {D : Type} `{IdeOps D}.
(** a RAM volume at [ram_base] in physical memory *)
Definition ram_rep (s : vst D) (n : Z) (img : Z → list Z) : Prop :=
  vtype (g_vol s) = CHASEROS_VOL_RAM ∧ size_bytes (g_vol s) = n * CHASEROS_BLK ∧ 256 <= n <= 8192 ∧
  mem_bytes (vm_mem (v_vm s)) ∧
  ∀ b, 0 <= b < n → img b = mread (vm_mem (v_vm s)) (ram_base (g_vol s) + b * CHASEROS_BLK) 1024.
Lemma ram_check s n img : ram_rep s n img → v_check s = true.
Proof.
  intros (Ht & Hs & Hn & _). unfold v_check, is_type. rewrite Ht, Hs. unfold CHASEROS_BLK.
  rewrite Z.mod_mul by lia. bfalse. done.
Qed.
Lemma ram_in_range b n : 0 <= b < n → n <= 8192 → (n * CHASEROS_BLK <? u32 (b + 1) * CHASEROS_BLK) = false.
Proof. intros. rewrite u32_small by lia. unfold CHASEROS_BLK. apply Z.ltb_ge. lia. Qed.
Lemma ram_attached s n img : ram_rep s n img → vol_attached s = true.
Proof.
  intros (Ht & _). apply bool_decide_eq_true. unfold chaseros_vol_current, is_type. rewrite Ht. by eexists.
Qed.
Lemma ram_block s n img b : ram_rep s n img → 0 <= b < n → length (img b) = 1024%nat ∧ bytes (img b).
Proof. intros (_ & _ & _ & Hm & Hi) Hb. rewrite Hi by done. by rewrite length_mread; auto with chaser. Qed.
Lemma ram_read s n img b : ram_rep s n img → 0 <= b < n → v_read_blk b s = Ret (Some (img b), s).
Proof.
  intros Hr Hb. pose proof Hr as (Ht & Hs & Hn & Hm & Hi).
  unfold v_read_blk. rewrite (ram_check _ _ _ Hr), Hs, ram_in_range, Ht, Hi by lia. done.
Qed.
Lemma ram_read_out s n img b : ram_rep s n img → n <= b < 2 ^ 32 - 1 → v_read_blk b s = Ret (None, s).
Proof.
  intros Hr Hb. pose proof Hr as (Ht & Hs & Hn & Hm & Hi).
  unfold v_read_blk. rewrite (ram_check _ _ _ Hr), Hs, u32_small by lia. cbn [negb].
  rewrite (proj2 (Z.ltb_lt _ _)); [done|]. unfold CHASEROS_BLK. lia.
Qed.
(** the memory after writing a block *)
Definition ram_put (s : vst D) (b : Z) (d : list Z) : vst D :=
  set_vvm s (set_mem (v_vm s) (mwrite (vm_mem (v_vm s)) (ram_base (g_vol s) + b * CHASEROS_BLK) d)).
Lemma ram_write s n img b d : ram_rep s n img → 0 <= b < n → length d = 1024%nat → bytes d →
  v_write_blk b d s = Ret (Some tt, ram_put s b d) ∧ ram_rep (ram_put s b d) n (λ x, if decide (x = b) then d else img x).
Proof.
  intros Hr Hb Hd Hby. pose proof Hr as (Ht & Hs & Hn & Hm & Hi). unfold v_write_blk.
  rewrite (ram_check _ _ _ Hr), Hs, ram_in_range, Ht by lia. cbn [negb]. split; [done|].
  split; [done|]. split; [done|]. split; [done|]. simpl. split; [by apply mem_bytes_mwrite|].
  intros x Hx. case_decide as Hxb; [subst x|].
  - rewrite <-Hd. by rewrite mread_mwrite_same.
  - rewrite mread_mwrite_disj by (rewrite Hd; unfold CHASEROS_BLK; lia). by apply Hi.
Qed.
Lemma ram_clear s n img : ram_rep s n img → ∃ img', ram_rep (v_clear_ram s) n img'.
Proof.
  intros (Ht & Hs & Hn & Hm & Hi). unfold v_clear_ram, is_type. rewrite Ht.
  eexists (λ b, mread _ _ _). split; [done|]. split; [done|]. split; [done|]. split; [|done].
  intros a. simpl. case_if; [unfold is_byte; lia|apply Hm].
Qed.
#[export] Program Instance ram_laws : BlocksLaws (vst D) := { vol_rep := ram_rep }.
Next Obligation. intros. by eapply ram_attached. Qed.
Next Obligation. intros. by eapply ram_check. Qed.
Next Obligation. by intros s n img (_ & Hs & _). Qed.
Next Obligation. by intros s n img (_ & _ & Hn & _). Qed.
Next Obligation. intros. by eapply ram_block. Qed.
Next Obligation. intros s n img b Hr Hb. exists s. split; [by apply (ram_read s n)|done]. Qed.
Next Obligation. intros s n img b Hr Hb. exists s. split; [by apply (ram_read_out s n img)|done]. Qed.
Next Obligation. intros s n img b d Hr Hb Hd Hby. exists (ram_put s b d). by apply ram_write. Qed.
Next Obligation. intros s n img. apply ram_clear. Qed.
End ram.
End Vol.
