(* ===== verification/Ide.v ===== *)
(** The IDE disk driver (kernel/drivers/ide.c): polled ATA transfers in
    28-bit addressing, identification, capacity, and ATAPI packets, over the
    ports of Io.v.  [AtaLaws] states what an ATA disk does at those ports:
    commands read or write the addressed sector through the data register,
    the status register shows when it is busy.  The driver's sector operations
    form the class [IdeOps] that volumes are built on.
    Theorems: reading and writing sectors read and write the disk; a disk that
    is attached as a volume keeps the promise [BlocksLaws], so that everything
    shown of files holds on IDE disks too. *)
From stdpp Require Import base numbers list.
From S2P Require Import Prelude Memory Pmm Vmm Io Vol.
Open Scope Z_scope.

Module Ide.
Import Io.Io.
Definition IDE_PRIMARY_IO := 0x1F0.
Definition IDE_PRIMARY_CTRL := 0x3F6.
Definition ATA_REG_DATA := 0.
Definition ATA_REG_FEATURES := 1.
Definition ATA_REG_SECCOUNT0 := 2.
Definition ATA_REG_LBA0 := 3.
Definition ATA_REG_LBA1 := 4.
Definition ATA_REG_LBA2 := 5.
Definition ATA_REG_DRIVE := 6.
Definition ATA_REG_STATUS := 7.
Definition ATA_REG_COMMAND := 7.
Definition ATA_CMD_READ_PIO := 0x20.
Definition ATA_CMD_WRITE_PIO := 0x30.
Definition ATA_CMD_IDENTIFY := 0xEC.
Definition ATA_CMD_IDENTIFY_PACKET := 0xA1.
Definition ATA_CMD_PACKET := 0xA0.
Definition ATA_STS_ERR := 0x01.
Definition ATA_STS_DRQ := 0x08.
Definition ATA_STS_BSY := 0x80.
Inductive ide_class := IDE_CLASS_NONE | IDE_CLASS_ATA | IDE_CLASS_ATAPI.

Section driver.
Context {D : Type} `{Ports D}.
Definition ide_base : Z := IDE_PRIMARY_IO.
Definition ide_ctrl : Z := IDE_PRIMARY_CTRL.
Definition ide_delay : est D unit := _ ← in_b ide_ctrl; mret tt.
(** the bound of the polling loops *)
Definition ide_tries : nat := Z.to_nat 100000.
Fixpoint not_busy_loop (n : nat) : est D Z :=
  match n with
  | O => mret (-1)
  | S n =>
    st ← in_b (ide_base + ATA_REG_STATUS);
    if negb (has st ATA_STS_BSY) then mret st
    else _ ← ide_delay; not_busy_loop n
  end.
Definition ide_wait_not_busy : est D Z := not_busy_loop ide_tries.
Fixpoint drq_loop (n : nat) : est D Z :=
  match n with
  | O => mret (-1)
  | S n =>
    st ← in_b (ide_base + ATA_REG_STATUS);
    if has st ATA_STS_ERR then mret (-1)
    else if has st ATA_STS_DRQ then mret 0
    else if negb (has st ATA_STS_BSY) && negb (has st ATA_STS_DRQ) then mret (-1)
    else _ ← ide_delay; drq_loop n
  end.
Definition ide_wait_drq : est D Z := drq_loop ide_tries.
Definition ide_init : est D unit :=
  _ ← out_b ide_ctrl 0x04;
  _ ← ide_delay;
  _ ← out_b ide_ctrl 0x00;
  _ ← ide_delay;
  _ ← ide_wait_not_busy;
  mret tt.
Definition ide_select (drive lba_hi4 : Z) : est D unit :=
  if 1 <? drive then est_fail
  else
    let dh := u8 (Z.lor (Z.lor 0xE0 (Z.shiftl (Z.land drive 1) 4)) (Z.land lba_hi4 0x0F)) in
    _ ← out_b (ide_base + ATA_REG_DRIVE) dh;
    ide_delay.
(** [n] words from the data register *)
Fixpoint read_words (n : nat) : est D (list Z) :=
  match n with
  | O => mret []
  | S n => w ← in_w (ide_base + ATA_REG_DATA); ws ← read_words n; mret (w :: ws)
  end.
Definition ide_read_identify_words_cmd (drive cmd : Z) : est D (list Z) :=
  _ ← ide_init;
  _ ← ide_select drive 0;
  _ ← out_b (ide_base + ATA_REG_SECCOUNT0) 0;
  _ ← out_b (ide_base + ATA_REG_LBA0) 0;
  _ ← out_b (ide_base + ATA_REG_LBA1) 0;
  _ ← out_b (ide_base + ATA_REG_LBA2) 0;
  _ ← out_b (ide_base + ATA_REG_COMMAND) cmd;
  _ ← ide_delay;
  r ← ide_wait_not_busy;
  let st := u8 r in
  if st =? 0xFF then est_fail
  else if has st ATA_STS_ERR then est_fail
  else
    r ← ide_wait_drq;
    if negb (r =? 0) then est_fail else read_words 256.
(** words 27 to 46, high byte first *)
Definition model_string (buf : list Z) : list Z :=
  concat ((λ i, let v := nth (27 + i) buf 0 in [u8 (Z.shiftr v 8); u8 (Z.land v 0xFF)]) <$> seq 0 20).
Definition ide_identify_packet (drive : Z) : est D (list Z) :=
  buf ← ide_read_identify_words_cmd drive ATA_CMD_IDENTIFY_PACKET; mret (model_string buf).
Definition ide_identify (drive : Z) : est D (list Z) :=
  buf ← ide_read_identify_words_cmd drive ATA_CMD_IDENTIFY; mret (model_string buf).
(** the class and the model; [IDE_CLASS_NONE] goes with -1 *)
Definition ide_probe_type (drive : Z) : est D (ide_class * list Z) :=
  r ← attempt (ide_identify drive);
  match r with
  | Some model => mret (IDE_CLASS_ATA, model)
  | None =>
    r ← attempt (ide_identify_packet drive);
    mret (match r with Some model => (IDE_CLASS_ATAPI, model) | None => (IDE_CLASS_NONE, []) end)
  end.

(** [bytes_of_words]: what the read loop stores; [words_of_bytes]: what the
    write loop sends *)
Definition bytes_of_words (ws : list Z) : list Z := concat ((λ v, [u8 v; u8 (Z.shiftr v 8)]) <$> ws).
Fixpoint words_of_bytes (b : list Z) : list Z :=
  match b with
  | b0 :: b1 :: b => Z.lor b0 (u16 (Z.shiftl b1 8)) :: words_of_bytes b
  | _ => []
  end.
Fixpoint write_words (ws : list Z) : est D unit :=
  match ws with
  | [] => mret tt
  | w :: ws => _ ← out_w (ide_base + ATA_REG_DATA) w; write_words ws
  end.
(** address sector [cur], issue [cmd] and wait *)
Definition begin_sector (drive cur cmd : Z) : est D Z :=
  let lba7 := u8 (Z.land (Z.shiftr cur 24) 0x0F) in
  _ ← ide_select drive lba7;
  _ ← out_b (ide_base + ATA_REG_SECCOUNT0) 1;
  _ ← out_b (ide_base + ATA_REG_LBA0) (u8 (Z.land cur 0xFF));
  _ ← out_b (ide_base + ATA_REG_LBA1) (u8 (Z.land (Z.shiftr cur 8) 0xFF));
  _ ← out_b (ide_base + ATA_REG_LBA2) (u8 (Z.land (Z.shiftr cur 16) 0xFF));
  _ ← out_b (ide_base + ATA_REG_COMMAND) cmd;
  _ ← ide_delay;
  ide_wait_not_busy.
(** sectors [n], [n + 1], ... ([k] of them) of the transfer: [b] is the
    buffer to write, the result what was read *)
Fixpoint rw_loop (drive lba : Z) (writing : bool) (b : list Z) (n k : nat) : est D (list Z) :=
  match k with
  | O => mret []
  | S k =>
    let cur := u32 (lba + Z.of_nat n) in
    r ← begin_sector drive cur (if writing then ATA_CMD_WRITE_PIO else ATA_CMD_READ_PIO);
    if r <? 0 then est_fail
    else
      out ← (if writing
             then
               r ← ide_wait_drq;
               if negb (r =? 0) then est_fail
               else
                 sec ← est_lift (if (512 * n + 512 <=? length b)%nat then Ret (slice b (512 * n) 512) else Undef);
                 _ ← write_words (words_of_bytes sec);
                 r ← ide_wait_not_busy;
                 if r <? 0 then est_fail else mret []
             else
               r ← ide_wait_drq;
               if negb (r =? 0) then est_fail
               else ws ← read_words 256; mret (bytes_of_words ws));
      st ← in_b (ide_base + ATA_REG_STATUS);
      if has st ATA_STS_ERR then est_fail
      else rest ← rw_loop drive lba writing b (n + 1) k; mret (out ++ rest)
  end.
Definition ide_do_rw (drive lba count : Z) (b : list Z) (writing : bool) : est D (list Z) :=
  if (count =? 0) || (256 <? count) then est_fail
  else if 0x0FFFFFFF <? lba then est_fail
  else rw_loop drive lba writing b 0 (Z.to_nat count).
Definition ide_read_sectors (drive lba count : Z) : est D (list Z) := ide_do_rw drive lba count [] false.
Definition ide_write_sectors (drive lba count : Z) (buf : list Z) : est D unit :=
  _ ← ide_do_rw drive lba count buf true; mret tt.

(** the number of sectors in the identification words, 0 when unknown *)
Definition ident_sectors (buf : list Z) : Z :=
  let w i := nth i buf 0 in
  let n28 := Z.lor (w 60%nat) (Z.shiftl (w 61%nat) 16) in
  let n48 := Z.lor (Z.lor (Z.lor (w 100%nat) (Z.shiftl (w 101%nat) 16)) (Z.shiftl (w 102%nat) 32)) (u64 (Z.shiftl (w 103%nat) 48)) in
  let n48 := Z.land n48 0xFFFFFFFFFFFF in
  let lba48 := has (w 83%nat) 0x0400 && has (w 86%nat) 0x0400 in
  if lba48 && (0 <? n48) then n48
  else if (0 <? n28) && (n28 <=? 0x0FFFFFFF) then n28
  else if 0 <? n48 then n48
  else if 0 <? n28 then Z.land n28 0x0FFFFFFF
  else 0.
Definition ide_capacity_sectors (drive : Z) : est D Z :=
  r ← attempt (ide_read_identify_words_cmd drive ATA_CMD_IDENTIFY);
  let total := match r with Some buf => ident_sectors buf | None => 0 end in
  total ← (if total =? 0 then _ ← ide_read_sectors drive 0 1; mret 16384 else mret total);
  mret (if 0xFFFFFFFF <? total then 0xFFFFFFFF else u32 total).

(** ** ATAPI *)
(** the wait of a command without data *)
Fixpoint done_loop (n : nat) : est D unit :=
  match n with
  | O => est_fail
  | S n =>
    st ← in_b (ide_base + ATA_REG_STATUS);
    if has st ATA_STS_ERR then est_fail
    else if negb (has st ATA_STS_BSY) then mret tt
    else _ ← ide_delay; done_loop n
  end.
(** [while (left > 0)]: the bytes received; a word past the end of the buffer
    of [buf_sz] bytes is undefined behaviour *)
Fixpoint packet_loop (fuel : nat) (buf_sz left : Z) (got : list Z) : est D (list Z) :=
  if 0 <? left
  then match fuel with
       | O => λ _, Loop
       | S fuel =>
         r ← ide_wait_drq;
         if negb (r =? 0)
         then
           st ← in_b (ide_base + ATA_REG_STATUS);
           if negb (has st ATA_STS_BSY) && negb (has st ATA_STS_DRQ) then mret got else est_fail
         else
           let chunk := if 2048 <? left then 2048 else left in
           let words := Z.to_nat ((chunk + 1) / 2) in
           ws ← read_words words;
           got ← est_lift (if Z.of_nat (length got) + 2 * Z.of_nat words <=? buf_sz
                           then Ret (got ++ bytes_of_words ws) else Undef);
           packet_loop fuel buf_sz (left - chunk) got
       end
  else mret got.
(** the data received and its length; [data_in] with a buffer of [buf_sz] bytes *)
Definition ide_atapi_packet (drive : Z) (cdb : list Z) (data_in : bool) (buf_sz : Z) : est D (list Z) :=
  if 1 <? drive then est_fail
  else
    let byte_count := if buf_sz =? 0 then 8 else if 0xFFFE <? buf_sz then 0xFFFE else u16 buf_sz in
    _ ← ide_init;
    _ ← ide_select drive 0;
    _ ← out_b (ide_base + ATA_REG_FEATURES) 0;
    _ ← out_b (ide_base + ATA_REG_SECCOUNT0) 0;
    _ ← out_b (ide_base + ATA_REG_LBA0) 0;
    _ ← out_b (ide_base + ATA_REG_LBA1) (u8 (Z.land byte_count 0xFF));
    _ ← out_b (ide_base + ATA_REG_LBA2) (u8 (Z.shiftr byte_count 8));
    _ ← out_b (ide_base + ATA_REG_DRIVE) (u8 (Z.lor 0xE0 (Z.shiftl (Z.land drive 1) 4)));
    _ ← ide_delay;
    _ ← out_b (ide_base + ATA_REG_COMMAND) ATA_CMD_PACKET;
    _ ← ide_delay;
    r ← ide_wait_drq;
    if negb (r =? 0) then est_fail
    else
      _ ← write_words (words_of_bytes (take 12 cdb));
      if negb data_in || (buf_sz =? 0) then _ ← done_loop (Z.to_nat 500000); mret []
      else
        got ← packet_loop (Z.to_nat (buf_sz / 2048 + 1)) buf_sz buf_sz [];
        _ ← ide_wait_not_busy;
        st ← in_b (ide_base + ATA_REG_STATUS);
        if has st ATA_STS_ERR then est_fail else mret got.
Definition ide_atapi_inquiry (drive buf_sz : Z) : est D (list Z) :=
  if buf_sz <? 36 then est_fail
  else
    let cdb := [0x12; 0; 0; 0; u8 (if 255 <? buf_sz then 255 else buf_sz)] ++ replicate 7 0 in
    ide_atapi_packet drive cdb true buf_sz.
Definition ide_atapi_read2048 (drive lba_blk : Z) : est D (list Z) :=
  let cdb := [0x28; 0; u8 (Z.land (Z.shiftr lba_blk 24) 0xFF); u8 (Z.land (Z.shiftr lba_blk 16) 0xFF);
              u8 (Z.land (Z.shiftr lba_blk 8) 0xFF); u8 (Z.land lba_blk 0xFF); 0; 0; 1; 0; 0; 0] in
  got ← ide_atapi_packet drive cdb true 2048;
  if negb (Z.of_nat (length got) =? 2048) then est_fail else mret got.
(** the sector operations that volumes use *)
#[export] Instance ide_ops : Vol.Vol.IdeOps D := {
  Vol.Vol.ide_capacity_sectors := ide_capacity_sectors;
  Vol.Vol.ide_read_sectors := ide_read_sectors;
  Vol.Vol.ide_write_sectors := ide_write_sectors
}.
End driver.

(** ** What an ATA disk does *)
Inductive ata_phase :=
| Idle
| DataIn (ws : list Z)
| DataOut (drive lba : Z) (ws : list Z).
(** the task file registers by number, the transfer under way, how many polls
    the disk stays busy, and for each of the two drives its size, its sectors
    and its identification words *)
Record ata := Ata {
  a_reg : Z → Z;
  a_phase : ata_phase;
  a_busy : nat;
  a_size : Z → Z;
  a_disk : Z → Z → list Z;
  a_ident : Z → list Z
}.
Definition with_reg (a : ata) (r v : Z) : ata :=
  Ata (λ x, if x =? r then v else a_reg a x) (a_phase a) (a_busy a) (a_size a) (a_disk a) (a_ident a).
Definition with_phase (a : ata) (p : ata_phase) (k : nat) : ata :=
  Ata (a_reg a) p k (a_size a) (a_disk a) (a_ident a).
Definition with_sector (a : ata) (drive lba : Z) (sec : list Z) : ata :=
  Ata (a_reg a) (a_phase a) (a_busy a) (a_size a)
    (λ dr l, if (dr =? drive) && (l =? lba) then sec else a_disk a dr l) (a_ident a).
(** the drive and the sector that the registers address *)
Definition sel_drive (a : ata) : Z := Z.land (Z.shiftr (a_reg a ATA_REG_DRIVE) 4) 1.
Definition sel_lba (a : ata) : Z :=
  a_reg a ATA_REG_LBA0 + 2 ^ 8 * a_reg a ATA_REG_LBA1 + 2 ^ 16 * a_reg a ATA_REG_LBA2 +
  2 ^ 24 * Z.land (a_reg a ATA_REG_DRIVE) 0x0F.
Definition in_data (a : ata) : bool := match a_phase a with Idle => false | _ => true end.
(** the transfer that a command starts *)
Definition starts (a : ata) (cmd : Z) (p : ata_phase) : Prop :=
  (cmd = ATA_CMD_READ_PIO ∧ a_reg a ATA_REG_SECCOUNT0 = 1 ∧ 0 <= sel_lba a < a_size a (sel_drive a) ∧
     p = DataIn (words_of_bytes (a_disk a (sel_drive a) (sel_lba a)))) ∨
  (cmd = ATA_CMD_WRITE_PIO ∧ a_reg a ATA_REG_SECCOUNT0 = 1 ∧ 0 <= sel_lba a < a_size a (sel_drive a) ∧
     p = DataOut (sel_drive a) (sel_lba a) []) ∨
  (cmd = ATA_CMD_IDENTIFY ∧ 0 < a_size a (sel_drive a) ∧ p = DataIn (a_ident a (sel_drive a))).
Definition polls (k : nat) : Prop := Z.of_nat k < 100000.
(** the ports [D] are those of an ATA disk *)
Class AtaLaws (D : Type) `{Ports D} := {
  ata_rep : D → ata → Prop;
  (** the alternate status register has no side effect *)
  ata_alt : ∀ d a, ata_rep d a → ata_rep (snd (inb IDE_PRIMARY_CTRL d)) a;
  (** a reset ends a transfer and may keep the disk busy *)
  ata_reset : ∀ d a v, ata_rep d a → ∃ k, polls k ∧ ata_rep (outb IDE_PRIMARY_CTRL v d) (with_phase a Idle k);
  ata_reg : ∀ d a r v, ata_rep d a → a_phase a = Idle → a_busy a = 0%nat → 2 <= r <= 6 → 0 <= v < 256 →
    ata_rep (outb (IDE_PRIMARY_IO + r) v d) (with_reg a r v);
  ata_command : ∀ d a cmd p, ata_rep d a → a_phase a = Idle → a_busy a = 0%nat → starts a cmd p →
    ∃ k, polls k ∧ ata_rep (outb (IDE_PRIMARY_IO + ATA_REG_COMMAND) cmd d) (with_phase a p k);
  (** the status register: busy, or ready with DRQ for a transfer *)
  ata_status_busy : ∀ d a k, ata_rep d a → a_busy a = S k →
    has (fst (inb (IDE_PRIMARY_IO + ATA_REG_STATUS) d)) ATA_STS_BSY = true ∧
    ata_rep (snd (inb (IDE_PRIMARY_IO + ATA_REG_STATUS) d)) (with_phase a (a_phase a) k);
  ata_status_ready : ∀ d a, ata_rep d a → a_busy a = 0%nat →
    let st := fst (inb (IDE_PRIMARY_IO + ATA_REG_STATUS) d) in
    0 <= st < 255 ∧ has st ATA_STS_BSY = false ∧ has st ATA_STS_ERR = false ∧ has st ATA_STS_DRQ = in_data a ∧
    ata_rep (snd (inb (IDE_PRIMARY_IO + ATA_REG_STATUS) d)) a;
  ata_data_in : ∀ d a w ws, ata_rep d a → a_phase a = DataIn (w :: ws) → a_busy a = 0%nat →
    fst (inw (IDE_PRIMARY_IO + ATA_REG_DATA) d) = w ∧
    ata_rep (snd (inw (IDE_PRIMARY_IO + ATA_REG_DATA) d)) (with_phase a (match ws with [] => Idle | _ => DataIn ws end) 0);
  (** the 256th word completes the sector *)
  ata_data_out : ∀ d a drive lba ws w, ata_rep d a → a_phase a = DataOut drive lba ws → a_busy a = 0%nat → 0 <= w < 65536 →
    ((length ws < 255)%nat → ata_rep (outw (IDE_PRIMARY_IO + ATA_REG_DATA) w d) (with_phase a (DataOut drive lba (ws ++ [w])) 0)) ∧
    (length ws = 255%nat → ∃ k, polls k ∧ ata_rep (outw (IDE_PRIMARY_IO + ATA_REG_DATA) w d)
       (with_phase (with_sector a drive lba (bytes_of_words (ws ++ [w]))) Idle k))
}.

(** ** Words and bytes *)
Section words.
Lemma word_bytes b0 b1 : is_byte b0 → is_byte b1 →
  Z.lor b0 (u16 (Z.shiftl b1 8)) = b0 + 256 * b1 ∧ u8 (b0 + 256 * b1) = b0 ∧ u8 (Z.shiftr (b0 + 256 * b1) 8) = b1.
Proof.
  unfold is_byte, u8, u16. intros H0 H1. rewrite Z.shiftl_mul_pow2, Z.shiftr_div_pow2 by lia.
  rewrite (Z.mod_small (b1 * 2 ^ 8)) by lia. split; [|split; zdm].
  rewrite <-Z.shiftl_mul_pow2, lor_shiftl by lia. done.
Qed.
Lemma words_bytes_id n : ∀ b, bytes b → length b = (2 * n)%nat →
  bytes_of_words (words_of_bytes b) = b ∧ length (words_of_bytes b) = n ∧ Forall (λ w, 0 <= w < 65536) (words_of_bytes b).
Proof.
  induction n as [|n IH]; intros b Hb Hl.
  { by destruct b. }
  destruct b as [|b0 [|b1 b]]; simpl in Hl; try lia. apply Forall_cons in Hb as [H0 Hb]. apply Forall_cons in Hb as [H1 Hb].
  destruct (IH b Hb ltac:(lia)) as (E & El & Hw). destruct (word_bytes b0 b1 H0 H1) as (E1 & E2 & E3).
  cbn [words_of_bytes]. rewrite E1. split; [|split].
  - unfold bytes_of_words in *. cbn [fmap list_fmap concat]. by rewrite E2, E3, E.
  - simpl. by rewrite El.
  - constructor; [unfold is_byte in *; lia|done].
Qed.
End words.

(** ** The driver on an ATA disk *)
Section ata.
Context {D : Type} `{AtaLaws D}.
Definition ata_ready (d : D) (a : ata) : Prop := ata_rep d a ∧ a_phase a = Idle ∧ a_busy a = 0%nat.
Definition same_disk (a a' : ata) : Prop := a_size a' = a_size a ∧ a_disk a' = a_disk a ∧ a_ident a' = a_ident a.
(** sectors of 512 bytes *)
Definition disk_ok (a : ata) : Prop := ∀ dr l, 0 <= l < a_size a dr → length (a_disk a dr l) = 512%nat ∧ bytes (a_disk a dr l).
Lemma delay_step d a : ata_rep d a → ∃ d', ide_delay d = Ret (Some tt, d') ∧ ata_rep d' a.
Proof. intros Ha. eexists. split; [reflexivity|]. by apply ata_alt. Qed.
Lemma not_busy_spec n : ∀ d a, ata_rep d a → (a_busy a < n)%nat →
  ∃ st d', not_busy_loop n d = Ret (Some st, d') ∧ 0 <= st < 255 ∧ has st ATA_STS_ERR = false ∧ ata_rep d' (with_phase a (a_phase a) 0).
Proof.
  induction n as [|n IH]; intros d a Ha Hn; [lia|]. cbn [not_busy_loop]. erewrite est_bind_step by reflexivity.
  destruct (a_busy a) as [|k] eqn:Eb.
  - destruct (ata_status_ready d a Ha Eb) as (Hst & Hb & He & _ & Hd). unfold ide_base. rewrite Hb. cbn [negb].
    eexists _, _. split; [reflexivity|]. split; [done|]. split; [done|]. destruct a; simpl in *. by subst.
  - destruct (ata_status_busy d a k Ha Eb) as [Hb Hd]. unfold ide_base. rewrite Hb. cbn [negb].
    destruct (delay_step _ _ Hd) as (d1 & E1 & H1). rewrite (est_bind_step _ _ _ _ _ E1).
    destruct (IH d1 _ H1) as (st & d' & E & Hst); [simpl; lia|]. exists st, d'. split; [exact E|exact Hst].
Qed.
Lemma wait_not_busy_spec d a : ata_rep d a → polls (a_busy a) →
  ∃ st d', ide_wait_not_busy d = Ret (Some st, d') ∧ 0 <= st < 255 ∧ has st ATA_STS_ERR = false ∧ ata_rep d' (with_phase a (a_phase a) 0).
Proof. intros Ha Hp. apply not_busy_spec; [done|]. unfold polls in Hp. unfold ide_tries. lia. Qed.
(** a reset leaves the disk idle *)
Lemma ide_init_spec d a : ata_rep d a → ∃ d' a', ide_init d = Ret (Some tt, d') ∧ ata_ready d' a' ∧ same_disk a a'.
Proof.
  intros Ha. unfold ide_init. destruct (ata_reset d a 0x04 Ha) as (k1 & _ & H1). erewrite est_bind_step by reflexivity.
  destruct (delay_step _ _ H1) as (d2 & E2 & H2). rewrite (est_bind_step _ _ _ _ _ E2). destruct (ata_reset d2 _ 0x00 H2) as (k3 & P3 & H3).
  erewrite est_bind_step by reflexivity. destruct (delay_step _ _ H3) as (d4 & E4 & H4). rewrite (est_bind_step _ _ _ _ _ E4).
  destruct (wait_not_busy_spec d4 _ H4 P3) as (st & d5 & E5 & _ & _ & H5). rewrite (est_bind_step _ _ _ _ _ E5). eexists _, _. split; [reflexivity|]. by split.
Qed.
Lemma wait_drq_spec d a : ata_rep d a → a_busy a = 0%nat → in_data a = true →
  ∃ d', ide_wait_drq d = Ret (Some 0, d') ∧ ata_rep d' a.
Proof.
  intros Ha Hb Hd. unfold ide_wait_drq. assert (∃ n, ide_tries = S n) as [n ->] by (exists (Nat.pred ide_tries); unfold ide_tries; lia).
  cbn [drq_loop]. erewrite est_bind_step by reflexivity. destruct (ata_status_ready d a Ha Hb) as (_ & _ & He & Hq & Hr).
  unfold ide_base. rewrite He, Hq, Hd. by eexists.
Qed.
Lemma out_reg d a r v : ata_rep d a → a_phase a = Idle → a_busy a = 0%nat → 2 <= r <= 6 → 0 <= v < 256 →
  ∃ d', out_b (ide_base + r) v d = Ret (Some tt, d') ∧ ata_rep d' (with_reg a r v).
Proof. intros. eexists. split; [reflexivity|]. by apply ata_reg. Qed.
(** the byte that selects the drive *)
Lemma select_byte drive hi : 0 <= drive <= 1 → 0 <= hi < 16 →
  let dh := u8 (Z.lor (Z.lor 0xE0 (Z.shiftl (Z.land drive 1) 4)) (Z.land hi 0x0F)) in
  0 <= dh < 256 ∧ Z.land (Z.shiftr dh 4) 1 = drive ∧ Z.land dh 0x0F = hi.
Proof.
  intros Hd Hh. assert (drive = 0 ∨ drive = 1) as [-> | ->] by lia;
    (assert (hi ∈ seqZ 0 16) as Hin by (apply elem_of_seqZ; lia)); vm_compute in Hin;
    repeat (apply elem_of_cons in Hin as [-> |Hin]; [vm_compute; split; [split; [discriminate|reflexivity]|split; reflexivity]|]);
    by apply not_elem_of_nil in Hin.
Qed.
Lemma select_spec d a drive hi : ata_rep d a → a_phase a = Idle → a_busy a = 0%nat → 0 <= drive <= 1 → 0 <= hi < 16 →
  ∃ d' dh, ide_select drive hi d = Ret (Some tt, d') ∧ ata_rep d' (with_reg a ATA_REG_DRIVE dh) ∧
    Z.land (Z.shiftr dh 4) 1 = drive ∧ Z.land dh 0x0F = hi.
Proof.
  intros Ha Hp Hb Hd Hh. destruct (select_byte drive hi Hd Hh) as (B & E1 & E2). unfold ide_select.
  rewrite (proj2 (Z.ltb_ge 1 drive)) by lia. set (dh := u8 _) in *.
  destruct (out_reg d a ATA_REG_DRIVE dh Ha Hp Hb ltac:(unfold ATA_REG_DRIVE; lia) B) as (d1 & E & H1).
  rewrite (est_bind_step _ _ _ _ _ E). destruct (delay_step _ _ H1) as (d2 & E' & H2). exists d2, dh. done.
Qed.
Lemma lba_parts cur : 0 <= cur < 2 ^ 28 →
  u8 (Z.land cur 0xFF) = cur mod 256 ∧ u8 (Z.land (Z.shiftr cur 8) 0xFF) = cur / 256 mod 256 ∧
  u8 (Z.land (Z.shiftr cur 16) 0xFF) = cur / 65536 mod 256 ∧ u8 (Z.land (Z.shiftr cur 24) 0x0F) = cur / 2 ^ 24.
Proof.
  intros Hc. change 0xFF with (Z.ones 8). change 0x0F with (Z.ones 4). rewrite !Z.land_ones, !Z.shiftr_div_pow2 by lia. unfold u8.
  rewrite !Z.mod_mod by lia. split; [done|]. split; [done|]. split; [done|]. zdm.
Qed.
(** the registers of a sector, and the command *)
Lemma begin_sector_spec d a drive cur cmd p : ata_ready d a → 0 <= drive <= 1 → 0 <= cur < 2 ^ 28 →
  (∀ a', a_size a' = a_size a → a_disk a' = a_disk a → a_reg a' ATA_REG_SECCOUNT0 = 1 → sel_drive a' = drive → sel_lba a' = cur → starts a' cmd p) →
  ∃ st d' a', begin_sector drive cur cmd d = Ret (Some st, d') ∧ 0 <= st ∧ ata_rep d' (with_phase a' p 0) ∧ same_disk a a'.
Proof.
  intros (Ha & Hp & Hb) Hd Hc Hst. destruct (lba_parts cur Hc) as (P0 & P1 & P2 & P3). unfold begin_sector. rewrite P0, P1, P2, P3.
  destruct (select_spec d a drive (cur / 2 ^ 24) Ha Hp Hb Hd ltac:(zdm)) as (d1 & dh & E1 & H1 & S1 & S2). rewrite (est_bind_step _ _ _ _ _ E1).
  destruct (out_reg d1 _ ATA_REG_SECCOUNT0 1 H1 Hp Hb) as (d2 & E2 & H2); [unfold ATA_REG_SECCOUNT0; lia|lia|]. rewrite (est_bind_step _ _ _ _ _ E2).
  destruct (out_reg d2 _ ATA_REG_LBA0 (cur mod 256) H2 Hp Hb) as (d3 & E3 & H3); [unfold ATA_REG_LBA0; lia|zdm|]. rewrite (est_bind_step _ _ _ _ _ E3).
  destruct (out_reg d3 _ ATA_REG_LBA1 (cur / 256 mod 256) H3 Hp Hb) as (d4 & E4 & H4); [unfold ATA_REG_LBA1; lia|zdm|]. rewrite (est_bind_step _ _ _ _ _ E4).
  destruct (out_reg d4 _ ATA_REG_LBA2 (cur / 65536 mod 256) H4 Hp Hb) as (d5 & E5 & H5); [unfold ATA_REG_LBA2; lia|zdm|]. rewrite (est_bind_step _ _ _ _ _ E5).
  set (a5 := with_reg _ _ _) in H5. destruct (ata_command d5 a5 cmd p H5 Hp Hb) as (k & Hk & H6).
  { apply Hst; [done|done|done|exact S1|]. unfold sel_lba. simpl. rewrite S2. zdm. }
  erewrite est_bind_step by reflexivity. destruct (delay_step _ _ H6) as (d7 & E7 & H7). rewrite (est_bind_step _ _ _ _ _ E7).
  destruct (wait_not_busy_spec d7 _ H7 Hk) as (st & d8 & E8 & Hs8 & _ & H8). exists st, d8, a5. split; [exact E8|]. split; [lia|]. by split.
Qed.
Lemma read_words_spec n : ∀ d a ws, ata_rep d a → a_phase a = DataIn ws → a_busy a = 0%nat → length ws = S n →
  ∃ d', read_words (S n) d = Ret (Some ws, d') ∧ ata_rep d' (with_phase a Idle 0).
Proof.
  induction n as [|n IH]; intros d a ws Ha Hp Hb Hl; (destruct ws as [|w ws]; [done|]); destruct (ata_data_in d a w ws Ha Hp Hb) as [Ew Hd];
    cbn [read_words]; erewrite est_bind_step by reflexivity; unfold ide_base; rewrite Ew.
  - destruct ws; [|done]. eexists. split; [reflexivity|exact Hd].
  - destruct ws as [|w' ws]; [done|]. destruct (IH _ _ (w' :: ws) Hd) as (d' & E & H'); [done|done|simpl in *; lia|].
    cbn [read_words] in E. rewrite (est_bind_step _ _ _ _ _ E). eexists. split; [reflexivity|exact H'].
Qed.
Lemma write_words_spec drive lba ws : ∀ d a acc, ata_rep d a → a_phase a = DataOut drive lba acc → a_busy a = 0%nat → ws ≠ [] →
  (length acc + length ws = 256)%nat → Forall (λ w, 0 <= w < 65536) ws →
  ∃ k d', polls k ∧ write_words ws d = Ret (Some tt, d') ∧ ata_rep d' (with_phase (with_sector a drive lba (bytes_of_words (acc ++ ws))) Idle k).
Proof.
  induction ws as [|w ws IH]; intros d a acc Ha Hp Hb Hne Hl Hf; [done|]. apply Forall_cons in Hf as [Hw Hf].
  destruct (ata_data_out d a drive lba acc w Ha Hp Hb Hw) as [Hmore Hlast]. cbn [write_words]. erewrite est_bind_step by reflexivity.
  simpl in Hl. destruct ws as [|w' ws].
  - destruct Hlast as (k & Hk & Hd); [simpl in Hl; lia|]. by exists k, (outw (IDE_PRIMARY_IO + ATA_REG_DATA) w d).
  - specialize (Hmore ltac:(simpl in Hl; lia)). destruct (IH _ _ (acc ++ [w]) Hmore) as (k & d' & Hk & E & Hd'); [done|done|done| |done|].
    { rewrite length_app. simpl in *. lia. }
    exists k, d'. split; [done|]. split; [exact E|]. rewrite <-app_assoc in Hd'. exact Hd'.
Qed.
(** the status after a transfer *)
Lemma final_status d a : ata_rep d a → a_busy a = 0%nat →
  ∃ st d', in_b (ide_base + ATA_REG_STATUS) d = Ret (Some st, d') ∧ has st ATA_STS_ERR = false ∧ ata_rep d' a.
Proof.
  intros Ha Hb. destruct (ata_status_ready d a Ha Hb) as (_ & _ & He & _ & Hd). eexists _, _. split; [reflexivity|]. done.
Qed.
Lemma read_sector_loop drive lba b k : 0 <= drive <= 1 → 0 <= lba → ∀ n d a, ata_ready d a → disk_ok a →
  lba + Z.of_nat (n + k) <= a_size a drive → a_size a drive <= 2 ^ 28 →
  ∃ d' a', rw_loop drive lba false b n k d = Ret (Some (concat (a_disk a drive <$> seqZ (lba + Z.of_nat n) (Z.of_nat k))), d') ∧
    ata_ready d' a' ∧ same_disk a a'.
Proof.
  intros Hd Hlba. induction k as [|k IH]; intros n d a Ha Hok Hin Hsz; cbn [rw_loop]; [by exists d, a|].
  rewrite (u32_small (lba + Z.of_nat n)) by lia. set (cur := lba + Z.of_nat n).
  destruct (Hok drive cur) as [Hlen Hby]; [lia|]. set (sec := a_disk a drive cur) in *.
  destruct (words_bytes_id 256 sec Hby Hlen) as (Ebw & Ewl & _).
  destruct (begin_sector_spec d a drive cur ATA_CMD_READ_PIO (DataIn (words_of_bytes sec)) Ha Hd ltac:(lia)) as (st & d1 & a1 & E1 & Hst & H1 & (Z1 & K1 & I1)).
  { intros a' Hs Hk Hc Hdr Hl. left. rewrite Hdr, Hl, Hs, Hk. split; [done|]. split; [done|]. split; [lia|done]. }
  rewrite (est_bind_step _ _ _ _ _ E1), (proj2 (Z.ltb_ge st 0)) by lia.
  destruct (wait_drq_spec d1 _ H1 eq_refl eq_refl) as (d2 & E2 & H2).
  destruct (read_words_spec 255 d2 _ (words_of_bytes sec) H2 eq_refl eq_refl Ewl) as (d3 & E3 & H3).
  erewrite est_bind_step.
  2: { rewrite (est_bind_step _ _ _ _ _ E2). cbn [Z.eqb negb]. rewrite (est_bind_step _ _ _ _ _ E3). rewrite Ebw. reflexivity. }
  destruct (final_status d3 _ H3 eq_refl) as (st' & d4 & E4 & He & H4). rewrite (est_bind_step _ _ _ _ _ E4), He.
  destruct (IH (n + 1)%nat d4 (with_phase a1 Idle 0)) as (d' & a' & E & Hr & (Z2 & K2 & I2));
    [by split|intros dr l; simpl; rewrite Z1, K1; apply Hok|simpl; rewrite Z1; lia|simpl; rewrite Z1; lia|].
  rewrite (est_bind_step _ _ _ _ _ E). exists d', a'. simpl in Z2, K2, I2. split; [|split; [done|split; [by rewrite Z2|split; [by rewrite K2|by rewrite I2]]]].
  rewrite Nat2Z.inj_succ, (seqZ_cons cur) by lia. cbn [fmap list_fmap concat]. rewrite Z.pred_succ. simpl. rewrite K1.
  replace (lba + Z.of_nat (n + 1)) with (Z.succ cur) by lia. reflexivity.
Qed.
(** the disk after writing the sectors from [lba + n] on *)
Definition written (a a' : ata) (drive lba : Z) (b : list Z) (n k : nat) : Prop :=
  a_size a' = a_size a ∧ a_ident a' = a_ident a ∧
  ∀ dr l, a_disk a' dr l = if (dr =? drive) && (lba + Z.of_nat n <=? l) && (l <? lba + Z.of_nat (n + k))
                           then slice b (512 * Z.to_nat (l - lba)) 512 else a_disk a dr l.
Lemma write_sector_loop drive lba b k : 0 <= drive <= 1 → 0 <= lba → bytes b → ∀ n d a, ata_ready d a →
  lba + Z.of_nat (n + k) <= a_size a drive → a_size a drive <= 2 ^ 28 → (512 * (n + k) <= length b)%nat →
  ∃ d' a', rw_loop drive lba true b n k d = Ret (Some [], d') ∧ ata_ready d' a' ∧ written a a' drive lba b n k.
Proof.
  intros Hd Hlba Hby. induction k as [|k IH]; intros n d a Ha Hin Hsz Hl; cbn [rw_loop].
  { exists d, a. split; [done|]. split; [done|]. split; [done|]. split; [done|]. intros dr l. case_if; [lia|done]. }
  rewrite (u32_small (lba + Z.of_nat n)) by lia. set (cur := lba + Z.of_nat n).
  set (sec := slice b (512 * n) 512). assert (length sec = 512%nat) as Hlen by (apply length_slice; lia).
  destruct (words_bytes_id 256 sec (bytes_slice _ _ _ Hby) Hlen) as (Ebw & Ewl & Hf).
  destruct (begin_sector_spec d a drive cur ATA_CMD_WRITE_PIO (DataOut drive cur []) Ha Hd ltac:(lia)) as (st & d1 & a1 & E1 & Hst & H1 & (Z1 & K1 & I1)).
  { intros a' Hs Hk Hc Hdr Hl'. right. left. rewrite Hdr, Hl', Hs. split; [done|]. split; [done|]. split; [lia|done]. }
  rewrite (est_bind_step _ _ _ _ _ E1), (proj2 (Z.ltb_ge st 0)) by lia.
  destruct (wait_drq_spec d1 _ H1 eq_refl eq_refl) as (d2 & E2 & H2).
  destruct (write_words_spec drive cur (words_of_bytes sec) d2 _ [] H2 eq_refl eq_refl) as (kb & d3 & Hkb & E3 & H3);
    [intros E; by rewrite E in Ewl|simpl; lia|done|].
  cbn [app] in H3. rewrite Ebw in H3. destruct (wait_not_busy_spec d3 _ H3 Hkb) as (st3 & d4 & E4 & Hst3 & _ & H4).
  erewrite est_bind_step.
  2: { rewrite (est_bind_step _ _ _ _ _ E2). cbn [Z.eqb negb]. rewrite (proj2 (Nat.leb_le _ _)) by lia.
       erewrite est_bind_step by reflexivity. fold sec. rewrite (est_bind_step _ _ _ _ _ E3), (est_bind_step _ _ _ _ _ E4).
       rewrite (proj2 (Z.ltb_ge st3 0)) by lia. reflexivity. }
  destruct (final_status d4 _ H4 eq_refl) as (st' & d5 & E5 & He & H5). rewrite (est_bind_step _ _ _ _ _ E5), He.
  set (a2 := with_phase (with_sector a1 drive cur sec) Idle 0) in *.
  destruct (IH (n + 1)%nat d5 a2) as (d' & a' & E & Hr & (Z2 & I2 & K2)); [by split|simpl; rewrite Z1; lia|simpl; rewrite Z1; lia|lia|].
  rewrite (est_bind_step _ _ _ _ _ E). exists d', a'. split; [done|]. split; [done|]. split; [by rewrite Z2|]. split; [by rewrite I2|].
  intros dr l. rewrite K2. unfold a2. cbn [a_disk with_phase with_sector]. rewrite K1. unfold cur. destruct (Z.eqb_spec dr drive) as [-> |]; cbn [andb]; [|done].
  destruct (Z.eqb_spec l (lba + Z.of_nat n)) as [-> |Hne].
  - rewrite (proj2 (Z.leb_gt (lba + Z.of_nat (n + 1)) _)), (proj2 (Z.leb_le _ _)) by lia.
    rewrite (proj2 (Z.ltb_lt (lba + Z.of_nat n) (lba + Z.of_nat (n + S k)))) by lia. cbn [andb]. unfold sec. replace (Z.to_nat (lba + Z.of_nat n - lba)) with n by lia. done.
  - replace (lba + Z.of_nat (n + 1) <=? l) with (lba + Z.of_nat n <=? l) by (apply eq_iff_eq_true; rewrite !Z.leb_le; lia).
    by replace (n + 1 + k)%nat with (n + S k)%nat by lia.
Qed.
Lemma read_sectors_spec d a drive lba count : ata_ready d a → disk_ok a → 0 <= drive <= 1 → 0 <= lba → 1 <= count <= 256 →
  lba + count <= a_size a drive <= 2 ^ 28 →
  ∃ d' a', ide_read_sectors drive lba count d = Ret (Some (concat (a_disk a drive <$> seqZ lba count)), d') ∧ ata_ready d' a' ∧ same_disk a a'.
Proof.
  intros Ha Hok Hd Hl Hc Hin. unfold ide_read_sectors, ide_do_rw.
  rewrite (proj2 (Z.eqb_neq count 0)), (proj2 (Z.ltb_ge 256 count)), (proj2 (Z.ltb_ge 0x0FFFFFFF lba)) by lia. cbn [orb].
  destruct (read_sector_loop drive lba [] (Z.to_nat count) Hd Hl 0 d a Ha Hok) as (d' & a' & E & Hr); [lia|lia|].
  rewrite Z2Nat.id, Z.add_0_r in E by lia. by exists d', a'.
Qed.
Lemma write_sectors_spec d a drive lba count b : ata_ready d a → 0 <= drive <= 1 → 0 <= lba → 1 <= count <= 256 →
  lba + count <= a_size a drive <= 2 ^ 28 → bytes b → Z.of_nat (length b) = 512 * count →
  ∃ d' a', ide_write_sectors drive lba count b d = Ret (Some tt, d') ∧ ata_ready d' a' ∧ written a a' drive lba b 0 (Z.to_nat count).
Proof.
  intros Ha Hd Hl Hc Hin Hby Hlen. unfold ide_write_sectors, ide_do_rw.
  rewrite (proj2 (Z.eqb_neq count 0)), (proj2 (Z.ltb_ge 256 count)), (proj2 (Z.ltb_ge 0x0FFFFFFF lba)) by lia. cbn [orb].
  destruct (write_sector_loop drive lba b (Z.to_nat count) Hd Hl Hby 0 d a Ha) as (d' & a' & E & Hr); [lia|lia|lia|].
  rewrite (est_bind_step _ _ _ _ _ E). by exists d', a'.
Qed.
(** *** Identification *)
Lemma init_spec d a : ata_rep d a → ∃ d', ide_init d = Ret (Some tt, d') ∧ ata_ready d' (with_phase a Idle 0).
Proof.
  intros Ha. unfold ide_init. destruct (ata_reset d a 0x04 Ha) as (k1 & _ & R1). erewrite est_bind_step by reflexivity.
  destruct (delay_step _ _ R1) as (d2 & E2 & R2). rewrite (est_bind_step _ _ _ _ _ E2).
  destruct (ata_reset d2 _ 0x00 R2) as (k2 & Hk2 & R3). erewrite est_bind_step by reflexivity.
  destruct (delay_step _ _ R3) as (d4 & E4 & R4). rewrite (est_bind_step _ _ _ _ _ E4).
  destruct (wait_not_busy_spec d4 _ R4 Hk2) as (st & d5 & E5 & _ & _ & R5). rewrite (est_bind_step _ _ _ _ _ E5).
  eexists. split; [reflexivity|]. by split.
Qed.
Lemma identify_words_spec d a drive : ata_rep d a → 0 <= drive <= 1 → 0 < a_size a drive → length (a_ident a drive) = 256%nat →
  ∃ d' a', ide_read_identify_words_cmd drive ATA_CMD_IDENTIFY d = Ret (Some (a_ident a drive), d') ∧ ata_ready d' a' ∧ same_disk a a'.
Proof.
  intros Ha Hd Hsz Hl. unfold ide_read_identify_words_cmd.
  destruct (init_spec d a Ha) as (d0 & E0 & (R0 & _)). rewrite (est_bind_step _ _ _ _ _ E0).
  destruct (select_spec d0 _ drive 0 R0 eq_refl eq_refl Hd ltac:(lia)) as (d1 & dh & E1 & R1 & S1 & _). rewrite (est_bind_step _ _ _ _ _ E1).
  destruct (out_reg d1 _ ATA_REG_SECCOUNT0 0 R1 eq_refl eq_refl) as (d2 & E2 & R2); [unfold ATA_REG_SECCOUNT0; lia|lia|]. rewrite (est_bind_step _ _ _ _ _ E2).
  destruct (out_reg d2 _ ATA_REG_LBA0 0 R2 eq_refl eq_refl) as (d3 & E3 & R3); [unfold ATA_REG_LBA0; lia|lia|]. rewrite (est_bind_step _ _ _ _ _ E3).
  destruct (out_reg d3 _ ATA_REG_LBA1 0 R3 eq_refl eq_refl) as (d4 & E4 & R4); [unfold ATA_REG_LBA1; lia|lia|]. rewrite (est_bind_step _ _ _ _ _ E4).
  destruct (out_reg d4 _ ATA_REG_LBA2 0 R4 eq_refl eq_refl) as (d5 & E5 & R5); [unfold ATA_REG_LBA2; lia|lia|]. rewrite (est_bind_step _ _ _ _ _ E5).
  set (a5 := with_reg _ _ _) in R5. assert (sel_drive a5 = drive) as Hsel by exact S1.
  destruct (ata_command d5 a5 ATA_CMD_IDENTIFY (DataIn (a_ident a drive)) R5 eq_refl eq_refl) as (k & Hk & R6).
  { right. right. rewrite Hsel. done. }
  erewrite est_bind_step by reflexivity. destruct (delay_step _ _ R6) as (d7 & E7 & R7). rewrite (est_bind_step _ _ _ _ _ E7).
  destruct (wait_not_busy_spec d7 _ R7 Hk) as (st & d8 & E8 & Hst & He & R8). rewrite (est_bind_step _ _ _ _ _ E8).
  rewrite u8_small by lia. rewrite (proj2 (Z.eqb_neq st 0xFF)), He by lia.
  destruct (wait_drq_spec d8 _ R8 eq_refl eq_refl) as (d9 & E9 & R9). rewrite (est_bind_step _ _ _ _ _ E9). cbn [Z.eqb negb].
  destruct (read_words_spec 255 d9 _ (a_ident a drive) R9 eq_refl eq_refl Hl) as (d' & E & R').
  exists d', (with_phase a5 Idle 0). split; [exact E|]. by split.
Qed.
Lemma capacity_spec d a drive : ata_rep d a → 0 <= drive <= 1 → 0 < a_size a drive <= 2 ^ 28 → length (a_ident a drive) = 256%nat →
  ident_sectors (a_ident a drive) = a_size a drive →
  ∃ d' a', ide_capacity_sectors drive d = Ret (Some (a_size a drive), d') ∧ ata_ready d' a' ∧ same_disk a a'.
Proof.
  intros Ha Hd Hsz Hl Hid. destruct (identify_words_spec d a drive Ha Hd ltac:(lia) Hl) as (d' & a' & E & Hr & Hsame).
  exists d', a'. split; [|done]. unfold ide_capacity_sectors.
  assert (attempt (ide_read_identify_words_cmd drive ATA_CMD_IDENTIFY) d = Ret (Some (Some (a_ident a drive)), d')) as E' by (unfold attempt; by rewrite E).
  rewrite (est_bind_step _ _ _ _ _ E'), Hid, (proj2 (Z.eqb_neq _ 0)) by lia. erewrite est_bind_step by reflexivity.
  rewrite (proj2 (Z.ltb_ge 0xFFFFFFFF _)), u32_small by lia. done.
Qed.
End ata.

(** ** The sector operations *)
Lemma concat_slices (b : list Z) lba k : ∀ n, length b = (512 * (n + k))%nat →
  concat ((λ l, slice b (512 * Z.to_nat (l - lba)) 512) <$> seqZ (lba + Z.of_nat n) (Z.of_nat k)) = drop (512 * n) b.
Proof.
  induction k as [|k IH]; intros n Hl.
  { simpl. rewrite drop_ge by lia. done. }
  rewrite Nat2Z.inj_succ, seqZ_cons by lia. cbn [fmap list_fmap concat]. rewrite Z.pred_succ.
  replace (Z.succ (lba + Z.of_nat n)) with (lba + Z.of_nat (n + 1)) by lia. setoid_rewrite IH; [|lia].
  replace (Z.to_nat (lba + Z.of_nat n - lba)) with n by lia. unfold slice.
  replace (512 * (n + 1))%nat with (512 * n + 512)%nat by lia. by rewrite <-drop_drop, take_drop.
Qed.
Lemma written_contents a a' drive lba b count : 0 <= lba → 0 <= count → written a a' drive lba b 0 (Z.to_nat count) →
  Z.of_nat (length b) = 512 * count → concat (a_disk a' drive <$> seqZ lba count) = b.
Proof.
  intros Hl Hc (_ & _ & K) Hlen. pose proof (concat_slices b lba (Z.to_nat count) 0) as Hcat.
  rewrite Z2Nat.id, Z.add_0_r in Hcat by lia. rewrite drop_0 in Hcat. transitivity (concat ((λ l, slice b (512 * Z.to_nat (l - lba)) 512) <$> seqZ lba count)); [|apply Hcat; lia]. f_equal. apply list_fmap_ext.
  intros i x Hx%lookup_seqZ. rewrite K, Z.eqb_refl, (proj2 (Z.leb_le _ _)), (proj2 (Z.ltb_lt _ _)) by lia. done.
Qed.
Lemma written_ok a a' drive lba b count : disk_ok a → 0 <= count → written a a' drive lba b 0 (Z.to_nat count) →
  bytes b → Z.of_nat (length b) = 512 * count → disk_ok a'.
Proof.
  intros Hok Hc (Z1 & _ & K) Hby Hlen dr l Hl. rewrite Z1 in Hl. rewrite K. case_if; [|by apply Hok].
  split; [apply length_slice; lia|by apply bytes_slice].
Qed.
(** C6. On an ATA disk that obeys the protocol (it may stay busy for up to
    100000 polls after every command), writing up to 256 sectors stores exactly
    the buffer at that range of that drive and no other sector of either drive
    changes, and reading the range afterwards returns the buffer. *)
Theorem ide_sectors_roundtrip {D} `{AtaLaws D} d a drive lba count b : ata_ready d a → disk_ok a → 0 <= drive <= 1 → 0 <= lba →
  1 <= count <= 256 → lba + count <= a_size a drive <= 2 ^ 28 → bytes b → Z.of_nat (length b) = 512 * count →
  ∃ d1 a1 d2 a2, ide_write_sectors drive lba count b d = Ret (Some tt, d1) ∧ ata_ready d1 a1 ∧
    (∀ dr l, dr ≠ drive ∨ l < lba ∨ lba + count <= l → a_disk a1 dr l = a_disk a dr l) ∧
    ide_read_sectors drive lba count d1 = Ret (Some b, d2) ∧ ata_ready d2 a2 ∧ same_disk a1 a2.
Proof.
  intros Ha Hok Hd Hl Hc Hin Hby Hlen.
  destruct (write_sectors_spec d a drive lba count b Ha Hd Hl Hc Hin Hby Hlen) as (d1 & a1 & E1 & Ha1 & Hw).
  pose proof (written_contents a a1 drive lba b count Hl ltac:(lia) Hw Hlen) as Hcat.
  pose proof (written_ok a a1 drive lba b count Hok ltac:(lia) Hw Hby Hlen) as Hok1. destruct Hw as (Z1 & _ & K1).
  destruct (read_sectors_spec d1 a1 drive lba count Ha1 Hok1 Hd Hl Hc ltac:(rewrite Z1; lia)) as (d2 & a2 & E2 & Ha2 & Hs2).
  rewrite Hcat in E2. exists d1, a1, d2, a2. split; [done|]. split; [done|]. split; [|done].
  intros dr l Ho. rewrite K1. destruct (Z.eqb_spec dr drive); cbn [andb]; [|done]. case_if; [lia|done].
Qed.

(** ** An IDE disk as a volume *)
Import Vol.Vol.
Section volume.
Context {D : Type} `{AtaLaws D}.
(** the first [n] blocks of the drive are the volume *)
Definition ide_rep (s : vst D) (n : Z) (img : Z → list Z) : Prop :=
  vtype (g_vol s) = CHASEROS_VOL_IDE ∧ size_bytes (g_vol s) = n * CHASEROS_BLK ∧ 256 <= n <= 8192 ∧ 0 <= ide_drive (g_vol s) <= 1 ∧
  ∃ a, ata_ready (v_dev s) a ∧ disk_ok a ∧ 2 * n <= a_size a (ide_drive (g_vol s)) <= 2 ^ 28 ∧
    ∀ b, 0 <= b < n → img b = a_disk a (ide_drive (g_vol s)) (2 * b) ++ a_disk a (ide_drive (g_vol s)) (2 * b + 1).
Lemma ide_check s n img : ide_rep s n img → v_check s = true.
Proof.
  intros (Ht & Hs & Hn & _). unfold v_check, is_type. rewrite Ht, Hs. unfold CHASEROS_BLK. rewrite Z.mod_mul by lia. bfalse. done.
Qed.
Lemma ide_block s n img b : ide_rep s n img → 0 <= b < n → length (img b) = 1024%nat ∧ bytes (img b).
Proof.
  intros (_ & _ & _ & _ & a & _ & Hok & Hsz & Hi) Hb. rewrite Hi by done.
  destruct (Hok (ide_drive (g_vol s)) (2 * b)) as [L1 B1]; [lia|]. destruct (Hok (ide_drive (g_vol s)) (2 * b + 1)) as [L2 B2]; [lia|].
  rewrite length_app, L1, L2. split; [done|]. by apply Forall_app.
Qed.
Lemma ide_rep_dev s n img d' a a' : ide_rep s n img → ata_ready d' a' → disk_ok a' → same_disk a a' →
  (∀ b, 0 <= b < n → img b = a_disk a (ide_drive (g_vol s)) (2 * b) ++ a_disk a (ide_drive (g_vol s)) (2 * b + 1)) →
  2 * n <= a_size a (ide_drive (g_vol s)) <= 2 ^ 28 → ide_rep (set_dev s d') n img.
Proof.
  intros (Ht & Hs & Hn & Hd & _) Hr Hok (Z1 & K1 & _) Hi Hsz. split; [done|]. split; [done|]. split; [done|]. split; [done|].
  exists a'. simpl. rewrite Z1, K1. done.
Qed.
Lemma ide_read s n img b : ide_rep s n img → 0 <= b < n → ∃ s', v_read_blk b s = Ret (Some (img b), s') ∧ v_vm s' = v_vm s ∧ ide_rep s' n img.
Proof.
  intros Hr Hb. pose proof Hr as (Ht & Hs & Hn & Hd & a & Ha & Hok & Hsz & Hi). unfold v_read_blk.
  rewrite (ide_check _ _ _ Hr), Hs, ram_in_range, Ht, u32_small by lia. cbn [negb].
  destruct (read_sectors_spec (v_dev s) a (ide_drive (g_vol s)) (b * 2) 2 Ha Hok Hd) as (d' & a' & E & Ha' & Hsame); [lia|lia|lia|].
  unfold on_dev. rewrite (E : ide_read_sectors (IdeOps := ide_ops) (ide_drive (g_vol s)) (b * 2) 2 (v_dev s) = _). ostep. eexists. split.
  - rewrite Hi by done. replace (seqZ (b * 2) 2) with [2 * b; 2 * b + 1] by (rewrite seqZ_cons, seqZ_cons, seqZ_nil by lia; f_equal; [lia|f_equal; lia]). cbn [fmap list_fmap concat]. by rewrite app_nil_r.
  - split; [done|]. apply (ide_rep_dev s n img d' a a'); [done|done| |done|done|done]. destruct Hsame as (Z1 & K1 & _). intros dr l. rewrite Z1, K1. apply Hok.
Qed.
Lemma ide_read_out s n img b : ide_rep s n img → n <= b < 2 ^ 32 - 1 → v_read_blk b s = Ret (None, s).
Proof.
  intros Hr Hb. pose proof Hr as (Ht & Hs & Hn & _). unfold v_read_blk. rewrite (ide_check _ _ _ Hr), Hs, u32_small by lia. cbn [negb].
  rewrite (proj2 (Z.ltb_lt _ _)); [done|]. unfold CHASEROS_BLK. lia.
Qed.
Lemma ide_write s n img b d : ide_rep s n img → 0 <= b < n → length d = 1024%nat → bytes d →
  ∃ s', v_write_blk b d s = Ret (Some tt, s') ∧ v_vm s' = v_vm s ∧ ide_rep s' n (λ x, if decide (x = b) then d else img x).
Proof.
  intros Hr Hb Hl Hby. pose proof Hr as (Ht & Hs & Hn & Hd & a & Ha & Hok & Hsz & Hi). unfold v_write_blk.
  rewrite (ide_check _ _ _ Hr), Hs, ram_in_range, Ht, u32_small by lia. cbn [negb].
  destruct (write_sectors_spec (v_dev s) a (ide_drive (g_vol s)) (b * 2) 2 d Ha Hd) as (d' & a' & E & Ha' & (Z1 & _ & K1)); [lia|lia|lia|done|lia|].
  unfold on_dev. rewrite (E : ide_write_sectors (IdeOps := ide_ops) (ide_drive (g_vol s)) (b * 2) 2 d (v_dev s) = _). ostep. eexists. split; [reflexivity|]. split; [done|]. split; [done|]. split; [done|]. split; [done|]. split; [done|].
  assert (∀ l, b * 2 <= l < b * 2 + 2 → a_disk a' (ide_drive (g_vol s)) l = slice d (512 * Z.to_nat (l - b * 2)) 512) as Kin.
  { intros l Hl'. rewrite K1, Z.eqb_refl, (proj2 (Z.leb_le _ _)), (proj2 (Z.ltb_lt _ _)) by lia. done. }
  assert (∀ dr l, dr ≠ ide_drive (g_vol s) ∨ l < b * 2 ∨ b * 2 + 2 <= l → a_disk a' dr l = a_disk a dr l) as Kout.
  { intros dr l Ho. rewrite K1. destruct (Z.eqb_spec dr (ide_drive (g_vol s))); cbn [andb]; [|done]. case_if; [lia|done]. }
  exists a'. simpl. split; [done|]. split; [|split; [by rewrite Z1|]].
  - intros dr l Hdl. rewrite Z1 in Hdl. destruct (decide (dr = ide_drive (g_vol s) ∧ b * 2 <= l < b * 2 + 2)) as [[-> Hin]|Hout].
    + rewrite Kin by done. split; [apply length_slice; lia|by apply bytes_slice].
    + rewrite Kout; [by apply Hok|]. destruct (decide (dr = ide_drive (g_vol s))); [right; lia|by left].
  - intros x Hx. case_decide as Hxb; [subst x|].
    + rewrite !Kin by lia. replace (2 * b - b * 2) with 0 by lia. replace (2 * b + 1 - b * 2) with 1 by lia.
      change (512 * Z.to_nat 0)%nat with 0%nat. change (512 * Z.to_nat 1)%nat with 512%nat. symmetry.
      pose proof (slice_split d 0 512 512) as Hsp. rewrite Nat.add_0_l in Hsp. rewrite <-Hsp. unfold slice. rewrite drop_0. apply take_ge. lia.
    + rewrite !Kout by (right; lia). by apply Hi.
Qed.
Program Definition ide_laws : BlocksLaws (vst D) := {| vol_rep := ide_rep |}.
Next Obligation. intros s n img (Ht & _). apply bool_decide_eq_true. unfold chaseros_vol_current, is_type. rewrite Ht. by eexists. Qed.
Next Obligation. intros. by eapply ide_check. Qed.
Next Obligation. by intros s n img (_ & Hs & _). Qed.
Next Obligation. by intros s n img (_ & _ & Hn & _). Qed.
Next Obligation. intros. by eapply ide_block. Qed.
Next Obligation. intros s n img b Hr Hb. destruct (ide_read s n img b Hr Hb) as (s' & E & _ & Hr'). by exists s'. Qed.
Next Obligation. intros s n img b Hr Hb. exists s. split; [by apply (ide_read_out s n img)|done]. Qed.
Next Obligation. intros s n img b d Hr Hb Hl Hby. destruct (ide_write s n img b d Hr Hb Hl Hby) as (s' & E & _ & Hr'). by exists s'. Qed.
Next Obligation. intros s n img Hr. exists img. change (vol_clear_ram s) with (v_clear_ram s). unfold v_clear_ram, is_type. pose proof Hr as (Ht & _). by rewrite Ht. Qed.
(** attaching a drive *)
Lemma attach_ide_spec s a drive : ata_rep (v_dev s) a → disk_ok a → 0 <= drive <= 1 → 512 <= a_size a drive <= 2 ^ 28 →
  length (a_ident a drive) = 256%nat → ident_sectors (a_ident a drive) = a_size a drive → g_ram_npages s = 0 →
  ∃ s', chaseros_vol_attach_ide drive s = Ret (Some tt, s') ∧
    ide_rep s' (Z.min 8192 (a_size a drive / 2)) (λ b, a_disk a drive (2 * b) ++ a_disk a drive (2 * b + 1)) ∧ v_vm s' = v_vm s.
Proof.
  intros Ha Hok Hd Hsz Hl Hid Hram. destruct (capacity_spec (v_dev s) a drive Ha Hd ltac:(lia) Hl Hid) as (d' & a' & E & Hr & (Z1 & K1 & _)).
  unfold chaseros_vol_attach_ide. erewrite est_bind_step.
  2: { unfold on_dev. rewrite (E : ide_capacity_sectors (IdeOps := ide_ops) drive (v_dev s) = _). reflexivity. }
  rewrite (proj2 (Z.ltb_ge _ 512)) by lia.
  assert (Z.land (a_size a drive * 512) (Z.lnot 1023) = 1024 * (a_size a drive / 2)) as ->.
  { rewrite (land_lnot_ones _ 10 1023) by (done || lia). zdm. }
  rewrite (proj2 (Z.ltb_ge _ (256 * 1024))) by zdm. unfold chaseros_vol_detach_all, chaseros_vol_detach_ram. cbn [g_ram_npages set_dev].
  rewrite Hram, andb_false_r. ostep. eexists. split; [reflexivity|].
  set (s1 := set_ram (set_dev s d') 0 0). assert (∀ b : bool, v_dev (if b then set_gvol s1 (CVol CHASEROS_VOL_NONE 0 0 (ide_drive (g_vol s1))) else s1) = d' ∧
    v_vm (if b then set_gvol s1 (CVol CHASEROS_VOL_NONE 0 0 (ide_drive (g_vol s1))) else s1) = v_vm s) as Hb by (by intros []).
  destruct (Hb (is_type s1 CHASEROS_VOL_RAM)) as [Hdev Hvm]. split; [|exact Hvm].
  split; [done|]. cbn [g_vol set_gvol size_bytes ide_drive]. split; [unfold CHASEROS_BLK; case_if; zdm|]. split; [zdm|]. split; [done|].
  exists a'. rewrite Z1, K1. split; [exact (eq_rect_r (λ x, ata_ready x a') Hr Hdev)|]. split; [|split; [zdm|done]]. intros dr l. rewrite Z1, K1. apply Hok.
Qed.
End volume.

(** ** A simulated disk *)
(** the disk of the specification as a machine: every command takes three polls *)
Definition sim_start (a : ata) (cmd : Z) : ata :=
  if cmd =? ATA_CMD_READ_PIO then with_phase a (DataIn (words_of_bytes (a_disk a (sel_drive a) (sel_lba a)))) 3
  else if cmd =? ATA_CMD_WRITE_PIO then with_phase a (DataOut (sel_drive a) (sel_lba a) []) 3
  else if cmd =? ATA_CMD_IDENTIFY then with_phase a (DataIn (a_ident a (sel_drive a))) 3
  else a.
Definition sim_inb (port : Z) (a : ata) : Z * ata :=
  if port =? IDE_PRIMARY_IO + ATA_REG_STATUS then
    match a_busy a with
    | S k => (ATA_STS_BSY, with_phase a (a_phase a) k)
    | O => (if in_data a then ATA_STS_DRQ else 0x40, a)
    end
  else (0, a).
Definition sim_outb (port v : Z) (a : ata) : ata :=
  if port =? IDE_PRIMARY_CTRL then with_phase a Idle 3
  else if port =? IDE_PRIMARY_IO + ATA_REG_COMMAND then sim_start a v
  else if (IDE_PRIMARY_IO <=? port) && (port <? IDE_PRIMARY_IO + 8) then with_reg a (port - IDE_PRIMARY_IO) v
  else a.
Definition sim_inw (port : Z) (a : ata) : Z * ata :=
  match a_phase a with
  | DataIn (w :: ws) => (w, with_phase a (match ws with [] => Idle | _ => DataIn ws end) 0)
  | _ => (0, a)
  end.
Definition sim_outw (port w : Z) (a : ata) : ata :=
  match a_phase a with
  | DataOut drive lba ws =>
    if (length ws <? 255)%nat then with_phase a (DataOut drive lba (ws ++ [w])) 0
    else with_phase (with_sector a drive lba (bytes_of_words (ws ++ [w]))) Idle 3
  | _ => a
  end.
#[export] Instance sim_ports : Ports ata := {
  inb := sim_inb; outb := sim_outb; inw := sim_inw; outw := sim_outw; inl32 := λ _ a, (0, a); outl := λ _ _ a, a
}.
Lemma polls_3 : polls 3.
Proof. unfold polls. lia. Qed.
#[export] Program Instance sim_laws : AtaLaws ata := { ata_rep := λ d a, d = a }.
Next Obligation. done. Qed.
Next Obligation. intros d a v ->. exists 3%nat. by split; [apply polls_3|]. Qed.
Next Obligation.
  intros d a r v -> _ _ Hr Hv. cbn [outb sim_ports]. unfold sim_outb, IDE_PRIMARY_CTRL, IDE_PRIMARY_IO, ATA_REG_COMMAND.
  rewrite !(proj2 (Z.eqb_neq _ _)), (proj2 (Z.leb_le _ _)), (proj2 (Z.ltb_lt _ _)) by lia. cbn [andb]. f_equal. lia.
Qed.
Next Obligation.
  intros d a cmd p -> _ _ Hs. exists 3%nat. split; [apply polls_3|]. by destruct Hs as [(-> & _ & _ & ->)|[(-> & _ & _ & ->)|(-> & _ & ->)]].
Qed.
Next Obligation. intros d a k -> Hk. cbn [inb sim_ports]. unfold sim_inb. rewrite Z.eqb_refl, Hk. done. Qed.
Next Obligation.
  intros d a -> Hk. cbn [inb sim_ports]. unfold sim_inb. rewrite Z.eqb_refl, Hk. cbn [fst snd]. by destruct (in_data a); vm_compute.
Qed.
Next Obligation. intros d a w ws -> Hp Hk. cbn [inw sim_ports]. unfold sim_inw. by rewrite Hp. Qed.
Next Obligation.
  intros d a drive lba ws w -> Hp Hk Hw. cbn [outw sim_ports]. unfold sim_outw. rewrite Hp. split; intros Hl.
  - by rewrite (proj2 (Nat.ltb_lt _ _) Hl).
  - exists 3%nat. split; [apply polls_3|]. by rewrite Hl.
Qed.
(** one drive of 600 zeroed sectors *)
Definition sim_disk : ata :=
  Ata (λ _, 0) Idle 0 (λ dr, if dr =? 0 then 600 else 0) (λ _ _, replicate 512 0)
    (λ _, replicate 60 0 ++ [600] ++ replicate 195 0).
Lemma sim_disk_ok : disk_ok sim_disk.
Proof. intros dr l _. split; [done|]. apply Forall_replicate. unfold is_byte. lia. Qed.
Lemma ide_sectors_roundtrip_witness : ∃ d1 d2, Ide.ide_write_sectors 0 599 1 (replicate 512 7) sim_disk = Ret (Some tt, d1) ∧
  Ide.ide_read_sectors 0 599 1 d1 = Ret (Some (replicate 512 7), d2).
Proof.
  destruct (ide_sectors_roundtrip sim_disk sim_disk 0 599 1 (replicate 512 7)) as (d1 & a1 & d2 & a2 & E1 & _ & _ & E2 & _).
  - done.
  - apply sim_disk_ok.
  - lia.
  - lia.
  - lia.
  - cbn. lia.
  - apply Forall_replicate. unfold is_byte. lia.
  - done.
  - exists d1, d2. split; [exact E1|exact E2].
Defined.
End Ide.
