(* ===== verification/Ext2.v ===== *)
(** The single-group ext2 volume (kernel/fs/chaseros/chaseros_ext2_vol.c),
    written against the [Blocks] interface.  The on-disk structures of
    ext2_fs.h are kept as byte arrays (super block 1024, group descriptor 32,
    inode 128) with accessors at their offsets; a function that returns -1 is
    [None] of the [est] monad, and an access outside a 1024-byte block buffer
    is [Undef]. *)
From stdpp Require Import base numbers list strings.
From S2P Require Import Prelude Bitmap Memory Path Vol.
Open Scope Z_scope.

Module Ext2.
Import Path.Path Vol.Vol.
Definition INODE_TBL_BLOCKS := 16.
Definition FIRST_DATA_BLOCK := 21.
Definition EXT2_SUPER_MAGIC := 0xEF53.

(** ** Structures *)
Definition get16 (l : list Z) (off : nat) : Z := le_to (slice l off 2).
Definition get32 (l : list Z) (off : nat) : Z := le_to (slice l off 4).
Definition set16 (l : list Z) (off : nat) (v : Z) : list Z := splice l off (le_of 2 v).
Definition set32 (l : list Z) (off : nat) (v : Z) : list Z := splice l off (le_of 4 v).
Definition zeros (n : nat) : list Z := replicate n 0.

Definition s_free_blocks_count (sb : list Z) : Z := get32 sb 12.
Definition s_free_inodes_count (sb : list Z) : Z := get32 sb 16.
Definition s_magic (sb : list Z) : Z := get16 sb 56.
Definition add_free_blocks (sb : list Z) (k : Z) : list Z := set32 sb 12 (s_free_blocks_count sb + k).
Definition add_free_inodes (sb : list Z) (k : Z) : list Z := set32 sb 16 (s_free_inodes_count sb + k).
Definition gd_add_free_blocks (gd : list Z) (k : Z) : list Z := set16 gd 12 (get16 gd 12 + k).
Definition gd_add_free_inodes (gd : list Z) (k : Z) : list Z := set16 gd 14 (get16 gd 14 + k).
Definition gd_add_used_dirs (gd : list Z) (k : Z) : list Z := set16 gd 16 (get16 gd 16 + k).
Definition i_mode (i : list Z) : Z := get16 i 0.
Definition i_size (i : list Z) : Z := get32 i 4.
Definition i_links_count (i : list Z) : Z := get16 i 26.
Definition i_blocks (i : list Z) : Z := get32 i 28.
Definition i_block (i : list Z) (k : nat) : Z := get32 i (40 + 4 * k).
Definition set_i_block (i : list Z) (k : nat) (v : Z) : list Z := set32 i (40 + 4 * k) v.
Definition is_dir_mode (i : list Z) : bool := Z.land (i_mode i) 0xF000 =? 0x4000.
Definition is_reg_mode (i : list Z) : bool := Z.land (i_mode i) 0xF000 =? 0x8000.

(** ** Directory blocks *)
(** a copy into a buffer *)
Definition bput (l : list Z) (off : nat) (d : list Z) : outcome (list Z) :=
  if (off + length d <=? length l)%nat then Ret (splice l off d) else Undef.
Definition bget (l : list Z) (off n : nat) : outcome (list Z) :=
  if (off + n <=? length l)%nat then Ret (slice l off n) else Undef.
Definition rec_len (nl : Z) : Z := u16 (Z.land (u16 (8 + nl) + 3) (Z.lnot 3)).
Definition dirent_put (base : list Z) (off : nat) (ino : Z) (name : list Z) : outcome (list Z * nat) :=
  let name_len := u16 (Z.of_nat (length name)) in
  let rec := rec_len name_len in
  base ← bput base off (le_of 4 ino);
  base ← bput base (off + 4) (le_of 2 rec);
  base ← bput base (off + 6) (le_of 2 name_len);
  base ← bput base (off + 8) name;
  Ret (base, (off + Z.to_nat rec)%nat).
(** the inode of the first entry called [name] *)
Fixpoint find_from (fuel : nat) (blk : list Z) (name : list Z) (pos : nat) : outcome (option Z) :=
  if (pos + 8 <=? 1024)%nat
  then match fuel with
       | O => Loop
       | S fuel =>
         let ino := get32 blk pos in
         let rec := get16 blk (pos + 4) in
         let nl := Z.land (get16 blk (pos + 6)) 0xFF in
         if rec <? 8 then Ret None
         else
           nm ← bget blk (pos + 8) (Z.to_nat nl);
           if str_eqb (cstr nm) name then Ret (Some ino)
           else find_from fuel blk name (pos + Z.to_nat rec)
       end
  else Ret None.
(** every entry is at least 8 bytes: 128 of them leave the block *)
Definition find_in_root (blk : list Z) (name : list Z) : outcome (option Z) := find_from 129 blk name 0.
(** [while (pos + 8u <= CHASEROS_BLK)] to the end of the entries *)
Fixpoint end_from (fuel : nat) (blk : list Z) (pos : nat) : outcome nat :=
  if (pos + 8 <=? 1024)%nat
  then match fuel with
       | O => Loop
       | S fuel =>
         let rec := get16 blk (pos + 4) in
         if rec <? 8 then Ret pos else end_from fuel blk (pos + Z.to_nat rec)
       end
  else Ret pos.
Definition dir_end (blk : list Z) : outcome nat := end_from 129 blk 0.
(** the lines that [ls] prints: name and inode of each entry *)
Fixpoint list_from (fuel : nat) (blk : list Z) (pos : nat) : outcome (list (list Z * Z)) :=
  if (pos + 8 <=? 1024)%nat
  then match fuel with
       | O => Loop
       | S fuel =>
         let ino := get32 blk pos in
         let rec := get16 blk (pos + 4) in
         let nl := Z.land (get16 blk (pos + 6)) 0xFF in
         if rec <? 8 then Ret []
         else
           nm ← bget blk (pos + 8) (Z.to_nat nl);
           l ← list_from fuel blk (pos + Z.to_nat rec);
           Ret ((cstr nm, ino) :: l)
       end
  else Ret [].

(** ** Bitmaps *)
Definition bm_set (bm : list Z) (b : Z) : outcome (list Z) := bm_put1 bm b.
Definition bm_clr (bm : list Z) (b : Z) : outcome (list Z) := bm_put0 bm b.
Definition bm_get (bm : list Z) (b : Z) : outcome Z := bm_test bm b.
Fixpoint set_bits (bm : list Z) (b : Z) (n : nat) : outcome (list Z) :=
  match n with
  | O => Ret bm
  | S n => bm ← bm_set bm b; set_bits bm (b + 1) n
  end.
(** the first clear bit of the [n] bits from [b], set; [None] when none is *)
Fixpoint alloc_bit (bm : list Z) (b : Z) (n : nat) : outcome (option (Z * list Z)) :=
  match n with
  | O => Ret None
  | S n =>
    t ← bm_get bm b;
    if t =? 0 then bm ← bm_set bm b; Ret (Some (b, bm)) else alloc_bit bm (b + 1) n
  end.
Definition alloc_block (bb : list Z) (tb : Z) : outcome (option (Z * list Z)) :=
  alloc_bit bb (FIRST_DATA_BLOCK + 2) (Z.to_nat (tb - (FIRST_DATA_BLOCK + 2))).
Definition alloc_inode (ib : list Z) : outcome (option (Z * list Z)) :=
  r ← alloc_bit ib 11 117;
  Ret (match r with Some (b, ib) => Some (b + 1, ib) | None => None end).
Fixpoint free_blocks_loop (sb gd bb fi : list Z) (i n : nat) : outcome (list Z * list Z * list Z * list Z) :=
  match n with
  | O => Ret (sb, gd, bb, fi)
  | S n =>
    let bn := i_block fi i in
    '(sb, gd, bb) ← (if negb (bn =? 0)
                     then bb ← bm_clr bb bn; Ret (add_free_blocks sb 1, gd_add_free_blocks gd 1, bb)
                     else Ret (sb, gd, bb));
    free_blocks_loop sb gd bb (set_i_block fi i 0) (S i) n
  end.
Definition nblocks_of (size : Z) : Z := u32 (size + CHASEROS_BLK - 1) / CHASEROS_BLK.
Definition free_inode_blocks (sb gd bb fi : list Z) : outcome (list Z * list Z * list Z * list Z) :=
  let nblk := nblocks_of (i_size fi) in
  let nblk := if 12 <? nblk then 12 else nblk in
  '(sb, gd, bb, fi) ← free_blocks_loop sb gd bb fi 0 (Z.to_nat nblk);
  Ret (sb, gd, bb, set32 (set32 fi 4 0) 28 0).

(** ** Operations on a volume *)
Section ops.
Context {S : Type} `{Blocks S}.
Definition total_blocks_from_vol (s : S) : Z := u32 (vol_bytes s / CHASEROS_BLK).

Definition read_super : est S (list Z) :=
  blk ← vol_read_blk 1;
  if s_magic blk =? EXT2_SUPER_MAGIC then mret blk else est_fail.
Definition write_super (sb : list Z) : est S unit := vol_write_blk 1 sb.
Definition read_gd : est S (list Z) := blk ← vol_read_blk 2; mret (take 32 blk).
Definition write_gd (gd : list Z) : est S unit := vol_write_blk 2 (gd ++ zeros (1024 - 32)).
Definition inode_blk (ino : Z) : Z := 5 + u32 (u32 (ino - 1) * 128) / CHASEROS_BLK.
Definition inode_off (ino : Z) : nat := Z.to_nat (u32 (u32 (ino - 1) * 128) mod CHASEROS_BLK).
Definition read_inode (ino : Z) : est S (list Z) :=
  if ino =? 0 then est_fail
  else b ← vol_read_blk (inode_blk ino); mret (slice b (inode_off ino) 128).
Definition write_inode (ino : Z) (i : list Z) : est S unit :=
  b ← vol_read_blk (inode_blk ino);
  vol_write_blk (inode_blk ino) (splice b (inode_off ino) i).

(** [while ( *p )]: one component per round; every round consumes a byte *)
Fixpoint skip_slashes (p : list Z) : list Z :=
  match p with c :: p' => if c =? slash then skip_slashes p' else p | [] => [] end.
Fixpoint lookup_loop (fuel : nat) (cur : Z) (p : list Z) : est S Z :=
  match p with
  | [] => mret cur
  | _ =>
    match fuel with
    | O => est_lift Loop
    | Datatypes.S fuel =>
      let '(comp, p) := seg_take 127 p in
      let p := skip_slashes p in
      dir_in ← read_inode cur;
      if negb (is_dir_mode dir_in) then est_fail
      else
        dblk ← vol_read_blk (i_block dir_in 0);
        r ← est_lift (find_in_root dblk comp);
        match r with
        | Some next_ino => if next_ino =? 0 then est_fail else lookup_loop fuel next_ino p
        | None => est_fail
        end
    end
  end.
Definition lookup_final (norm : list Z) : est S (Z * list Z) :=
  if str_eqb norm [slash] then i ← read_inode 2; mret (2, i)
  else
    cur ← lookup_loop (length norm) 2 (tail norm);
    i ← read_inode cur;
    mret (cur, i).
Definition normalize (name : list Z) : est S (list Z) :=
  r ← est_lift (chaseros_path_normalize name CHASEROS_PATH_MAX); est_opt r.

Definition chaseros_ext2_path_is_dir (norm_path : list Z) : st S bool := λ s,
  '(r, s) ← lookup_final norm_path s;
  Ret (match r with Some (_, i) => is_dir_mode i | None => false end, s).

(** *** Formatting *)
Definition fmt_super (tb : Z) : list Z :=
  let sb := zeros 1024 in
  let sb := set32 sb 0 128 in
  let sb := set32 sb 4 tb in
  let sb := set32 sb 8 8 in
  let sb := set32 sb 12 (tb - (FIRST_DATA_BLOCK + 2)) in
  let sb := set32 sb 16 (128 - 11) in
  let sb := set32 sb 20 1 in
  let sb := set32 sb 24 0 in
  let sb := set32 sb 28 0 in
  let sb := set32 sb 32 tb in
  let sb := set32 sb 36 tb in
  let sb := set32 sb 40 128 in
  let sb := set16 sb 56 EXT2_SUPER_MAGIC in
  let sb := set16 sb 58 1 in
  let sb := set16 sb 60 1 in
  let sb := set32 sb 76 0 in
  set32 sb 72 0.
Definition clamp16 (v : Z) : Z := if 0xFFFF <? v then 0xFFFF else v.
Definition fmt_gd (sb : list Z) : list Z :=
  let gd := zeros 32 in
  let gd := set32 gd 0 3 in
  let gd := set32 gd 4 4 in
  let gd := set32 gd 8 5 in
  let gd := set16 gd 12 (clamp16 (s_free_blocks_count sb)) in
  let gd := set16 gd 14 (clamp16 (s_free_inodes_count sb)) in
  set16 gd 16 2.
(** a directory inode: mode 040755, one block *)
Definition dir_inode (links blk : Z) : list Z :=
  let i := zeros 128 in
  let i := set16 i 0 (Z.lor 0x4000 493) in
  let i := set32 i 4 CHASEROS_BLK in
  let i := set16 i 26 links in
  let i := set32 i 28 2 in
  set_i_block i 0 blk.
Definition new_dir_block (self parent : Z) : outcome (list Z * nat) :=
  '(d, off) ← dirent_put (zeros 1024) 0 self (str ".");
  dirent_put d off parent (str "..").
Fixpoint clear_inode_blocks (iblk : Z) (n : nat) : est S unit :=
  match n with
  | O => mret tt
  | Datatypes.S n => _ ← vol_write_blk iblk (zeros 1024); clear_inode_blocks (iblk + 1) n
  end.
Definition chaseros_ext2_format : est S unit :=
  s ← est_get;
  if negb (vol_check s) then est_fail
  else
    let tb := total_blocks_from_vol s in
    if (tb <? 256) || (8192 <? tb) || (tb <? FIRST_DATA_BLOCK + 2) then est_fail
    else
      _ ← est_modify vol_clear_ram;
      let root_data := FIRST_DATA_BLOCK in
      let lf_data := FIRST_DATA_BLOCK + 1 in
      let sb := fmt_super tb in
      let gd := fmt_gd sb in
      bb ← est_lift (set_bits (zeros 1024) 0 (Z.to_nat (FIRST_DATA_BLOCK + 2)));
      ib ← est_lift (set_bits (zeros 1024) 0 11);
      let in_root := dir_inode 3 root_data in
      let in_lf := dir_inode 2 lf_data in
      '(droot, doff) ← est_lift (new_dir_block 2 2);
      '(droot, _) ← est_lift (dirent_put droot doff 11 (str "lost+found"));
      '(dlf, _) ← est_lift (new_dir_block 11 2);
      _ ← write_super sb;
      _ ← write_gd gd;
      _ ← vol_write_blk 3 bb;
      _ ← vol_write_blk 4 ib;
      _ ← clear_inode_blocks 5 (Z.to_nat INODE_TBL_BLOCKS);
      _ ← write_inode 2 in_root;
      _ ← write_inode 11 in_lf;
      _ ← vol_write_blk root_data droot;
      vol_write_blk lf_data dlf.

(** *** Reading *)
Definition chaseros_ext2_stat_file (name : list Z) : est S Z :=
  norm ← normalize name;
  _ ← read_super;
  '(_, fi) ← lookup_final norm;
  if negb (is_reg_mode fi) then est_fail else mret (i_size fi).
(** [for (j = 0; j < blk_len && copied < maxcopy; j++)], [k] rounds left *)
Fixpoint copy_loop (tmp : list Z) (j k : nat) (file_cursor offset maxcopy : Z) (bout : list Z) : list Z :=
  match k with
  | O => bout
  | Datatypes.S k =>
    if Z.of_nat (length bout) <? maxcopy
    then if file_cursor + Z.of_nat j <? offset
         then copy_loop tmp (j + 1) k file_cursor offset maxcopy bout
         else copy_loop tmp (j + 1) k file_cursor offset maxcopy (bout ++ [nth j tmp 0])
    else bout
  end.
Fixpoint read_blocks (fi : list Z) (i k : nat) (file_cursor offset maxcopy : Z) (bout : list Z) : est S (list Z) :=
  match k with
  | O => mret bout
  | Datatypes.S k =>
    if (file_cursor <? i_size fi) && (Z.of_nat (length bout) <? maxcopy)
    then
      let bn := i_block fi i in
      if bn =? 0 then mret bout
      else
        tmp ← vol_read_blk bn;
        let blk_len := if i_size fi <? file_cursor + CHASEROS_BLK then i_size fi - file_cursor else CHASEROS_BLK in
        let bout := copy_loop tmp 0 (Z.to_nat blk_len) file_cursor offset maxcopy bout in
        read_blocks fi (i + 1) k (file_cursor + blk_len) offset maxcopy bout
    else mret bout
  end.
Definition chaseros_ext2_read_file_range (name : list Z) (offset buf_sz : Z) : est S (list Z) :=
  if buf_sz =? 0 then est_fail
  else
    norm ← normalize name;
    _ ← read_super;
    '(_, fi) ← lookup_final norm;
    if negb (is_reg_mode fi) then est_fail
    else
      let isize := i_size fi in
      if isize <=? offset then mret []
      else
        let maxcopy := isize - offset in
        let maxcopy := if buf_sz <? maxcopy then u32 buf_sz else maxcopy in
        let nblk := nblocks_of (i_size fi) in
        if 12 <? nblk then est_fail
        else read_blocks fi 0 (Z.to_nat nblk) 0 offset maxcopy [].
Definition chaseros_ext2_read_file (name : list Z) (buf_sz : Z) : est S (list Z) :=
  chaseros_ext2_read_file_range name 0 buf_sz.
(** the entries that [ls] prints, in order *)
Definition chaseros_ext2_ls_at (path_raw : list Z) : est S (list (list Z * Z)) :=
  norm ← normalize path_raw;
  _ ← read_super;
  '(_, ir) ← lookup_final norm;
  if negb (is_dir_mode ir) then est_fail
  else
    blk ← vol_read_blk (i_block ir 0);
    est_lift (list_from 129 blk 0).
Definition chaseros_ext2_ls : est S (list (list Z * Z)) := chaseros_ext2_ls_at [slash].

(** *** Writing *)
(** the super block, group descriptor and bitmaps that the writers carry *)
Record meta := Meta { m_sb : list Z; m_gd : list Z; m_bb : list Z; m_ib : list Z }.
Definition read_meta : est S meta :=
  sb ← read_super;
  gd ← read_gd;
  bb ← vol_read_blk 3;
  ib ← vol_read_blk 4;
  mret (Meta sb gd bb ib).
Definition write_meta (m : meta) : est S unit :=
  _ ← write_super (m_sb m);
  _ ← write_gd (m_gd m);
  _ ← vol_write_blk 3 (m_bb m);
  vol_write_blk 4 (m_ib m).
(** append an entry to the directory block [dblk] of [dir], or fail *)
Definition add_entry (dir dblk : list Z) (ino : Z) (base : list Z) : est S unit :=
  pos ← est_lift (dir_end dblk);
  let nl := u16 (Z.of_nat (length base)) in
  let need := u16 (Z.land (8 + nl + 3) (Z.lnot 3)) in
  if 1024 <? Z.of_nat pos + need then est_fail
  else
    '(dblk, _) ← est_lift (dirent_put dblk pos ino base);
    vol_write_blk (i_block dir 0) dblk.
(** the data blocks, [data] from byte [1024 * bi] on *)
Fixpoint write_blocks (m : meta) (fi data : list Z) (tb : Z) (bi n : nat) : est S (meta * list Z) :=
  match n with
  | O => mret (m, fi)
  | Datatypes.S n =>
    r ← est_lift (alloc_block (m_bb m) tb);
    match r with
    | None => est_fail
    | Some (bn, bb) =>
      let m := Meta (add_free_blocks (m_sb m) (-1)) (gd_add_free_blocks (m_gd m) (-1)) bb (m_ib m) in
      let fi := set_i_block fi bi bn in
      let chunk := slice data (1024 * bi) 1024 in
      _ ← vol_write_blk bn (chunk ++ zeros (1024 - length chunk));
      write_blocks m fi data tb (bi + 1) n
    end
  end.
(** the inode to write to: the existing one with its blocks released, or a
    new one entered in the directory *)
Definition open_existing (m : meta) (ino : Z) : est S (meta * Z * list Z) :=
  fi ← read_inode ino;
  '(sb, gd, bb, fi) ← est_lift (free_inode_blocks (m_sb m) (m_gd m) (m_bb m) fi);
  _ ← vol_write_blk 3 bb;
  mret (Meta sb gd bb (m_ib m), ino, fi).
Definition create_new (m : meta) (dir droot base : list Z) : est S (meta * Z * list Z) :=
  r ← est_lift (alloc_inode (m_ib m));
  match r with
  | None => est_fail
  | Some (ino, ib) =>
    let m := Meta (add_free_inodes (m_sb m) (-1)) (gd_add_free_inodes (m_gd m) (-1)) (m_bb m) ib in
    _ ← add_entry dir droot ino base;
    mret (m, ino, zeros 128)
  end.
(** mode 0100644, one link, the size and the 512-byte sector count *)
Definition file_inode (fi : list Z) (len : Z) : list Z :=
  let fi := set16 fi 0 (Z.lor 0x8000 420) in
  let fi := set32 fi 4 len in
  let fi := set16 fi 26 1 in
  let sectors := u32 ((len + 511) / 512) in
  set32 fi 28 (if (sectors =? 0) && (0 <? len) then 1 else sectors).
Definition chaseros_ext2_write_file (name data : list Z) : est S unit :=
  let len := Z.of_nat (length data) in
  if 12 * CHASEROS_BLK <? len then est_fail
  else
    norm ← normalize name;
    '(parent, base) ← est_opt (path_split_parent norm CHASEROS_PATH_MAX 128);
    m ← read_meta;
    s ← est_get;
    let tb := total_blocks_from_vol s in
    '(_, parent_ino) ← lookup_final parent;
    if negb (is_dir_mode parent_ino) then est_fail
    else
      droot ← vol_read_blk (i_block parent_ino 0);
      r ← est_lift (find_in_root droot base);
      let nblk := (len + CHASEROS_BLK - 1) / CHASEROS_BLK in
      if 12 <? nblk then est_fail
      else
        '(m, ino, fi) ← match r with
                        | Some e => if e =? 0 then create_new m parent_ino droot base
                                    else open_existing m e
                        | None => create_new m parent_ino droot base
                        end;
        '(m, fi) ← write_blocks m (file_inode fi len) data tb 0 (Z.to_nat nblk);
        _ ← write_meta m;
        write_inode ino fi.

Definition chaseros_ext2_mkdir (path_raw : list Z) : est S unit :=
  norm ← normalize path_raw;
  '(parent, base) ← est_opt (path_split_parent norm CHASEROS_PATH_MAX 128);
  m ← read_meta;
  s ← est_get;
  let tb := total_blocks_from_vol s in
  '(pinum, parent_ino) ← lookup_final parent;
  if negb (is_dir_mode parent_ino) then est_fail
  else
    dparent ← vol_read_blk (i_block parent_ino 0);
    r ← est_lift (find_in_root dparent base);
    if match r with Some e => negb (e =? 0) | None => false end then est_fail
    else
      r ← est_lift (alloc_inode (m_ib m));
      match r with
      | None => est_fail
      | Some (new_ino, ib) =>
        r ← est_lift (alloc_block (m_bb m) tb);
        match r with
        | None => est_fail
        | Some (new_blk, bb) =>
          let m := Meta (add_free_blocks (add_free_inodes (m_sb m) (-1)) (-1))
                        (gd_add_free_blocks (gd_add_free_inodes (m_gd m) (-1)) (-1)) bb ib in
          '(dnew, _) ← est_lift (new_dir_block new_ino pinum);
          _ ← vol_write_blk new_blk dnew;
          _ ← add_entry parent_ino dparent new_ino base;
          let parent_ino := set16 parent_ino 26 (i_links_count parent_ino + 1) in
          let m := Meta (m_sb m) (gd_add_used_dirs (m_gd m) 1) (m_bb m) (m_ib m) in
          _ ← write_meta m;
          _ ← write_inode pinum parent_ino;
          write_inode new_ino (dir_inode 2 new_blk)
        end
      end.
End ops.
End Ext2.
