(* ===== verification/Ext2Dir.v ===== *)
(** Directory blocks and byte-array structures of the ext2 volume: the proofs
    that the C loops over a directory block refine a list of entries.
    [dir_rep blk es] says that the block holds the entries [es] followed by
    zeros; searching, listing and appending are then the list operations. *)
From stdpp Require Import base numbers list strings.
From S2P Require Import Prelude Bitmap Memory Path Vol Ext2.
Open Scope Z_scope.

Module Ext2Dir.
Import Path.Path Vol.Vol Ext2.Ext2.

(** ** Fields of byte arrays *)
Section fields.
Implicit Types (l : list Z) (off : nat).
Lemma length_set16 l off v : (off + 2 <= length l)%nat → length (set16 l off v) = length l.
Proof. intros. apply length_splice. by rewrite length_le_of. Qed.
Lemma length_set32 l off v : (off + 4 <= length l)%nat → length (set32 l off v) = length l.
Proof. intros. apply length_splice. by rewrite length_le_of. Qed.
Lemma bytes_set16 l off v : bytes l → bytes (set16 l off v).
Proof. intros. by apply bytes_splice; auto with chaser. Qed.
Lemma bytes_set32 l off v : bytes l → bytes (set32 l off v).
Proof. intros. by apply bytes_splice; auto with chaser. Qed.
Lemma le_to_mod n : ∀ v, le_to (le_of n v) = v mod 256 ^ Z.of_nat n.
Proof.
  induction n as [|n IH]; intros v; cbn [le_of le_to]; [by rewrite Z.mod_1_r|].
  rewrite IH, Nat2Z.inj_succ, Z.pow_succ_r by lia. rewrite Z.rem_mul_r by lia. done.
Qed.
Lemma get32_set32 l off v : (off + 4 <= length l)%nat → get32 (set32 l off v) off = u32 v.
Proof.
  intros. unfold get32, set32. change 4%nat with (length (le_of 4 v)) at 2.
  rewrite slice_splice_same by (by rewrite length_le_of). apply le_to_mod.
Qed.
Lemma get16_set16 l off v : (off + 2 <= length l)%nat → get16 (set16 l off v) off = u16 v.
Proof.
  intros. unfold get16, set16. change 2%nat with (length (le_of 2 v)) at 2.
  rewrite slice_splice_same by (by rewrite length_le_of). apply le_to_mod.
Qed.
Lemma get32_set32_ne l off off' v : (off + 4 <= length l)%nat → (off' + 4 <= off ∨ off + 4 <= off')%nat →
  get32 (set32 l off v) off' = get32 l off'.
Proof. intros. unfold get32, set32. by rewrite slice_splice_disjoint by (rewrite length_le_of; lia). Qed.
Lemma get32_set16_ne l off off' v : (off + 2 <= length l)%nat → (off' + 4 <= off ∨ off + 2 <= off')%nat →
  get32 (set16 l off v) off' = get32 l off'.
Proof. intros. unfold get32, set16. by rewrite slice_splice_disjoint by (rewrite length_le_of; lia). Qed.
Lemma get16_set32_ne l off off' v : (off + 4 <= length l)%nat → (off' + 2 <= off ∨ off + 4 <= off')%nat →
  get16 (set32 l off v) off' = get16 l off'.
Proof. intros. unfold get16, set32. by rewrite slice_splice_disjoint by (rewrite length_le_of; lia). Qed.
Lemma get16_set16_ne l off off' v : (off + 2 <= length l)%nat → (off' + 2 <= off ∨ off + 2 <= off')%nat →
  get16 (set16 l off v) off' = get16 l off'.
Proof. intros. unfold get16, set16. by rewrite slice_splice_disjoint by (rewrite length_le_of; lia). Qed.
Lemma get32_range l off : bytes l → 0 <= get32 l off < 2 ^ 32.
Proof.
  intros Hl. unfold get32. pose proof (le_to_bound _ (bytes_slice l off 4 Hl)) as Hb. unfold slice in Hb |- *.
  assert (256 ^ Z.of_nat (length (take 4 (drop off l))) <= 256 ^ 4).
  { apply Z.pow_le_mono_r; [lia|]. rewrite length_take. lia. }
  change (2 ^ 32) with (256 ^ 4). lia.
Qed.
Lemma bytes_zeros n : bytes (zeros n).
Proof. apply Forall_replicate. unfold is_byte. lia. Qed.
Lemma length_zeros n : length (zeros n) = n.
Proof. apply length_replicate. Qed.
Lemma slice_app_here (l r : list Z) n : length l = n → slice (l ++ r) 0 n = l.
Proof. intros <-. unfold slice. rewrite drop_0. apply take_app_length. Qed.
Lemma slice_shift (p l : list Z) off n : slice (p ++ l) (length p + off) n = slice l off n.
Proof. unfold slice. by rewrite drop_app_add. Qed.
Lemma slice_shift' (p l : list Z) k off n : length p = k → slice (p ++ l) (k + off) n = slice l off n.
Proof. intros <-. apply slice_shift. Qed.
Lemma splice_shift (p l d : list Z) off : splice (p ++ l) (length p + off) d = p ++ splice l off d.
Proof.
  unfold splice. rewrite take_app_add, <-app_assoc. f_equal. f_equal. f_equal.
  by rewrite <-Nat.add_assoc, drop_app_add.
Qed.
End fields.
#[export] Hint Resolve bytes_set16 bytes_set32 bytes_zeros : chaser.

(** ** Entries *)
Definition ent : Type := Z * list Z.
Definition ent_ok (e : ent) : Prop :=
  0 < fst e < 2 ^ 32 ∧ is_cstr (snd e) ∧ (0 < length (snd e) <= 127)%nat.
Definition pad (nl : nat) : nat := Z.to_nat (rec_len (Z.of_nat nl)) - 8 - nl.
Definition enc (e : ent) : list Z :=
  le_of 4 (fst e) ++ le_of 2 (rec_len (Z.of_nat (length (snd e)))) ++ le_of 2 (Z.of_nat (length (snd e))) ++
  snd e ++ zeros (pad (length (snd e))).
Definition encs (es : list ent) : list Z := concat (enc <$> es).
Definition dir_rep (blk : list Z) (es : list ent) : Prop :=
  Forall ent_ok es ∧ (length (encs es) <= 1024)%nat ∧ blk = encs es ++ zeros (1024 - length (encs es)).
(** the inode of the first entry with the name *)
Fixpoint assoc (es : list ent) (name : list Z) : option Z :=
  match es with
  | [] => None
  | (i, n) :: es => if str_eqb n name then Some i else assoc es name
  end.

Section entries.
Implicit Types (e : ent) (es : list ent).
Lemma rec_len_spec nl : (nl <= 127)%nat →
  rec_len (Z.of_nat nl) = 4 * ((Z.of_nat nl + 11) / 4) ∧ Z.of_nat nl + 8 <= rec_len (Z.of_nat nl) <= Z.of_nat nl + 11.
Proof.
  intros Hn. assert (rec_len (Z.of_nat nl) = 4 * ((Z.of_nat nl + 11) / 4)) as ->.
  { unfold rec_len. rewrite (land_lnot_ones _ 2) by done. rewrite (u16_small (8 + _)) by lia.
    change (2 ^ 2) with 4. rewrite u16_small by zdm. f_equal. f_equal. lia. }
  split; [done|zdm].
Qed.
Lemma length_enc e : ent_ok e → Z.of_nat (length (enc e)) = rec_len (Z.of_nat (length (snd e))).
Proof.
  intros (_ & _ & Hl). destruct (rec_len_spec (length (snd e))) as [_ Hr]; [lia|].
  unfold enc, pad. rewrite !length_app, !length_le_of, length_zeros. lia.
Qed.
Lemma length_enc_ge e : ent_ok e → (8 + length (snd e) <= length (enc e) <= 138)%nat.
Proof.
  intros He. pose proof (length_enc e He). destruct He as (_ & _ & Hl).
  destruct (rec_len_spec (length (snd e))) as [_ Hr]; [lia|]. lia.
Qed.
Lemma encs_app a b : encs (a ++ b) = encs a ++ encs b.
Proof. unfold encs. by rewrite fmap_app, concat_app. Qed.
Lemma encs_cons e es : encs (e :: es) = enc e ++ encs es.
Proof. done. Qed.
Lemma encs_snoc es e : encs (es ++ [e]) = encs es ++ enc e.
Proof. rewrite encs_app. unfold encs at 2. simpl. by rewrite app_nil_r. Qed.
Lemma bytes_encs es : Forall ent_ok es → bytes (encs es).
Proof.
  induction 1 as [|e es (H1 & H2 & H3) _ IH]; [constructor|]. rewrite encs_cons.
  unfold bytes, enc in *. rewrite !Forall_app. split; [|done]. split_and!; try apply bytes_le_of; [|apply bytes_zeros].
  eapply Forall_impl; [exact H2|]. unfold is_byte. lia.
Qed.
Lemma dir_rep_length blk es : dir_rep blk es → length blk = 1024%nat ∧ bytes blk.
Proof.
  intros (Hok & Hl & ->). rewrite length_app, length_zeros. split; [lia|].
  apply Forall_app. split; [by apply bytes_encs|apply bytes_zeros].
Qed.
(** the fields of the entry at the start of [r] *)
Lemma enc_fields e r : ent_ok e →
  get32 (enc e ++ r) 0 = fst e ∧ get16 (enc e ++ r) 4 = rec_len (Z.of_nat (length (snd e))) ∧
  Z.land (get16 (enc e ++ r) 6) 0xFF = Z.of_nat (length (snd e)) ∧
  slice (enc e ++ r) 8 (length (snd e)) = snd e.
Proof.
  intros (Hi & Hc & Hl). destruct (rec_len_spec (length (snd e))) as [_ Hr]; [lia|].
  unfold enc. rewrite <-!app_assoc. unfold get32, get16. split_and!.
  - rewrite slice_app_here by apply length_le_of. rewrite le_to_of; [done|]. change (256 ^ Z.of_nat 4) with (2 ^ 32). lia.
  - rewrite (slice_shift' (le_of 4 _) _ 4 0), slice_app_here by apply length_le_of.
    rewrite le_to_of; [done|]. change (256 ^ Z.of_nat 2) with 65536. lia.
  - rewrite (slice_shift' (le_of 4 _) _ 4 2), (slice_shift' (le_of 2 _) _ 2 0), slice_app_here by apply length_le_of.
    rewrite le_to_of by (change (256 ^ Z.of_nat 2) with 65536; lia).
    change 0xFF with (Z.ones 8). rewrite Z.land_ones by lia. apply Z.mod_small. lia.
  - rewrite (slice_shift' (le_of 4 _) _ 4 4), (slice_shift' (le_of 2 _) _ 2 2), (slice_shift' (le_of 2 _) _ 2 0)
      by apply length_le_of. by apply slice_app_here.
Qed.
(** an access at the position [length p] of [p ++ l] *)
Lemma get32_at (p l : list Z) off : get32 (p ++ l) (length p + off) = get32 l off.
Proof. unfold get32. by rewrite slice_shift. Qed.
Lemma get32_at0 (p l : list Z) : get32 (p ++ l) (length p) = get32 l 0.
Proof. rewrite <-(get32_at p l 0). by rewrite Nat.add_0_r. Qed.
Lemma get16_at (p l : list Z) off : get16 (p ++ l) (length p + off) = get16 l off.
Proof. unfold get16. by rewrite slice_shift. Qed.
Lemma get16_zeros n off : get16 (zeros n) off = 0.
Proof.
  unfold get16, slice, zeros. rewrite drop_replicate, take_replicate.
  generalize (Nat.min 2 (n - off)). intros k. induction k; simpl; lia.
Qed.

(** the search loop, started after the entries [pre] *)
Lemma find_from_spec name es : ∀ pre fuel, Forall ent_ok es →
  (length (encs pre) + length (encs es) <= 1024)%nat →
  (1024 - length (encs pre) < 8 * fuel)%nat →
  find_from fuel (encs pre ++ encs es ++ zeros (1024 - length (encs pre ++ encs es))) name (length (encs pre))
  = Ret (assoc es name).
Proof.
  induction es as [|[i n] es IH]; intros pre fuel Hok Hl Hf; (destruct fuel as [|fuel]; [lia|]); cbn [find_from assoc].
  - destruct (Nat.leb_spec (length (encs pre) + 8) 1024) as [H8|H8]; [|done].
    rewrite get16_at. change (encs [] ++ ?z) with z. rewrite get16_zeros. done.
  - apply Forall_cons in Hok as [He Hok]. pose proof (length_enc_ge _ He) as Hlen. cbn [snd] in Hlen.
    rewrite encs_cons in Hl |- *. rewrite length_app in Hl.
    rewrite (proj2 (Nat.leb_le _ _)) by lia.
    set (tl := zeros _). rewrite <-app_assoc.
    destruct (enc_fields (i, n) (encs es ++ tl) He) as (F1 & F2 & F3 & F4). cbn [fst snd] in *.
    rewrite !get16_at, F2, F3, get32_at0, F1.
    destruct (rec_len_spec (length n)) as [_ Hr]; [destruct He as (_ & _ & ?); simpl in *; lia|].
    bfalse. rewrite Nat2Z.id. unfold bget.
    rewrite (proj2 (Nat.leb_le _ _)) by (rewrite !length_app; unfold tl; rewrite length_zeros, !length_app; lia).
    ostep. rewrite slice_shift, F4. rewrite cstr_id by apply He.
    destruct (str_eqb n name); [done|].
    assert (encs (pre ++ [(i, n)]) = encs pre ++ enc (i, n)) as Hs by apply encs_snoc.
    pose proof (length_enc _ He) as Hle. cbn [snd] in Hle.
    replace (length (encs pre) + Z.to_nat (rec_len (Z.of_nat (length n))))%nat with (length (encs (pre ++ [(i, n)])))
      by (rewrite Hs, length_app; lia).
    replace (encs pre ++ enc (i, n) ++ encs es ++ tl) with
      (encs (pre ++ [(i, n)]) ++ encs es ++ zeros (1024 - length (encs (pre ++ [(i, n)]) ++ encs es)))
      by (unfold tl; rewrite Hs, <-!app_assoc; done).
    apply IH; [done|rewrite Hs, length_app; lia|rewrite Hs, length_app; lia].
Qed.
Lemma find_in_root_spec blk es name : dir_rep blk es → find_in_root blk name = Ret (assoc es name).
Proof.
  intros (Hok & Hl & ->). pose proof (find_from_spec name es [] 129 Hok) as E.
  change (encs []) with (@nil Z) in E. cbn [app length] in E. apply E; lia.
Qed.

(** the loop to the end of the entries *)
Lemma end_from_spec es : ∀ pre fuel, Forall ent_ok es →
  (length (encs pre) + length (encs es) <= 1024)%nat →
  (1024 - length (encs pre) < 8 * fuel)%nat →
  end_from fuel (encs pre ++ encs es ++ zeros (1024 - length (encs pre ++ encs es))) (length (encs pre))
  = Ret (length (encs (pre ++ es))).
Proof.
  induction es as [|[i n] es IH]; intros pre fuel Hok Hl Hf; (destruct fuel as [|fuel]; [lia|]); cbn [end_from].
  - rewrite (app_nil_r pre). destruct (Nat.leb_spec (length (encs pre) + 8) 1024) as [H8|H8]; [|done].
    rewrite get16_at. change (encs [] ++ ?z) with z. rewrite get16_zeros. done.
  - apply Forall_cons in Hok as [He Hok]. pose proof (length_enc_ge _ He) as Hlen. cbn [snd] in Hlen.
    rewrite encs_cons in Hl |- *. rewrite length_app in Hl.
    rewrite (proj2 (Nat.leb_le _ _)) by lia.
    set (tl := zeros _). rewrite <-app_assoc.
    destruct (enc_fields (i, n) (encs es ++ tl) He) as (_ & F2 & _). cbn [fst snd] in *.
    rewrite !get16_at, F2.
    destruct (rec_len_spec (length n)) as [_ Hr]; [destruct He as (_ & _ & ?); simpl in *; lia|].
    bfalse. assert (encs (pre ++ [(i, n)]) = encs pre ++ enc (i, n)) as Hs by apply encs_snoc.
    pose proof (length_enc _ He) as Hle. cbn [snd] in Hle.
    replace (length (encs pre) + Z.to_nat (rec_len (Z.of_nat (length n))))%nat with (length (encs (pre ++ [(i, n)])))
      by (rewrite Hs, length_app; lia).
    replace (encs pre ++ enc (i, n) ++ encs es ++ tl) with
      (encs (pre ++ [(i, n)]) ++ encs es ++ zeros (1024 - length (encs (pre ++ [(i, n)]) ++ encs es)))
      by (unfold tl; rewrite Hs, <-!app_assoc; done).
    rewrite IH by (done || rewrite Hs, length_app; lia). by rewrite <-app_assoc.
Qed.
Lemma dir_end_spec blk es : dir_rep blk es → dir_end blk = Ret (length (encs es)).
Proof.
  intros (Hok & Hl & ->). pose proof (end_from_spec es [] 129 Hok) as E.
  change (encs []) with (@nil Z) in E. cbn [app length] in E. apply E; lia.
Qed.
Lemma list_from_spec es : ∀ pre fuel, Forall ent_ok es →
  (length (encs pre) + length (encs es) <= 1024)%nat →
  (1024 - length (encs pre) < 8 * fuel)%nat →
  list_from fuel (encs pre ++ encs es ++ zeros (1024 - length (encs pre ++ encs es))) (length (encs pre))
  = Ret ((λ e, (snd e, fst e)) <$> es).
Proof.
  induction es as [|[i n] es IH]; intros pre fuel Hok Hl Hf; (destruct fuel as [|fuel]; [lia|]); cbn [list_from].
  - destruct (Nat.leb_spec (length (encs pre) + 8) 1024) as [H8|H8]; [|done].
    rewrite get16_at. change (encs [] ++ ?z) with z. rewrite get16_zeros. done.
  - apply Forall_cons in Hok as [He Hok]. pose proof (length_enc_ge _ He) as Hlen. cbn [snd] in Hlen.
    rewrite encs_cons in Hl |- *. rewrite length_app in Hl.
    rewrite (proj2 (Nat.leb_le _ _)) by lia.
    set (tl := zeros _). rewrite <-app_assoc.
    destruct (enc_fields (i, n) (encs es ++ tl) He) as (F1 & F2 & F3 & F4). cbn [fst snd] in *.
    rewrite !get16_at, F2, F3, get32_at0, F1.
    destruct (rec_len_spec (length n)) as [_ Hr]; [destruct He as (_ & _ & ?); simpl in *; lia|].
    bfalse. rewrite Nat2Z.id. unfold bget.
    rewrite (proj2 (Nat.leb_le _ _)) by (rewrite !length_app; unfold tl; rewrite length_zeros, !length_app; lia).
    ostep. rewrite slice_shift, F4. rewrite cstr_id by apply He.
    assert (encs (pre ++ [(i, n)]) = encs pre ++ enc (i, n)) as Hs by apply encs_snoc.
    pose proof (length_enc _ He) as Hle. cbn [snd] in Hle.
    replace (length (encs pre) + Z.to_nat (rec_len (Z.of_nat (length n))))%nat with (length (encs (pre ++ [(i, n)])))
      by (rewrite Hs, length_app; lia).
    replace (encs pre ++ enc (i, n) ++ encs es ++ tl) with
      (encs (pre ++ [(i, n)]) ++ encs es ++ zeros (1024 - length (encs (pre ++ [(i, n)]) ++ encs es)))
      by (unfold tl; rewrite Hs, <-!app_assoc; done).
    rewrite IH by (done || rewrite Hs, length_app; lia). done.
Qed.
(** appending an entry *)
Lemma splice_here (l z d : list Z) k : length l = k → splice (l ++ z) k d = l ++ splice z 0 d.
Proof. intros <-. rewrite <-(splice_shift l z d 0). by rewrite Nat.add_0_r. Qed.
Lemma splice_zeros d n : (length d <= n)%nat → splice (zeros n) 0 d = d ++ zeros (n - length d).
Proof. intros. unfold splice, zeros. rewrite drop_replicate. done. Qed.
Lemma bput_step (l d : list Z) k n : length l = k → (length d <= n)%nat →
  bput (l ++ zeros n) k d = Ret ((l ++ d) ++ zeros (n - length d)).
Proof.
  intros Hk Hd. unfold bput. rewrite length_app, length_zeros, Hk. rewrite (proj2 (Nat.leb_le _ _)) by lia.
  rewrite splice_here, splice_zeros by done. by rewrite app_assoc.
Qed.
Lemma dirent_put_spec blk es ino name : dir_rep blk es → ent_ok (ino, name) →
  (length (encs es) + length (enc (ino, name)) <= 1024)%nat →
  ∃ blk', dirent_put blk (length (encs es)) ino name = Ret (blk', length (encs (es ++ [(ino, name)]))) ∧
          dir_rep blk' (es ++ [(ino, name)]).
Proof.
  intros (Hok & Hl & ->) He Hfit. pose proof He as (Hi & Hc & Hn). cbn [fst snd] in *.
  pose proof (length_enc_ge _ He) as Hlen. pose proof (length_enc _ He) as Hle. cbn [snd] in Hlen, Hle.
  unfold dirent_put. rewrite (u16_small (Z.of_nat (length name))) by lia.
  set (k := length (encs es)). set (z := (1024 - k)%nat).
  rewrite bput_step by (done || rewrite length_le_of; unfold z; lia). ostep. rewrite length_le_of.
  rewrite bput_step by (rewrite ?length_app, ?length_le_of; unfold z; lia). ostep. rewrite length_le_of.
  rewrite bput_step by (rewrite ?length_app, ?length_le_of; unfold z; lia). ostep. rewrite length_le_of.
  rewrite bput_step by (rewrite ?length_app, ?length_le_of; unfold z; lia). ostep.
  assert (encs (es ++ [(ino, name)]) = encs es ++ enc (ino, name)) as Hs by apply encs_snoc.
  eexists. split.
  - rewrite Hs, length_app. do 3 f_equal. unfold k. lia.
  - split; [by apply Forall_app; split; [|apply Forall_singleton]|]. rewrite Hs, length_app. split; [done|].
    unfold enc at 1. cbn [fst snd]. rewrite <-!app_assoc. do 5 f_equal.
    unfold zeros. rewrite <-replicate_add. f_equal. unfold z, k, pad. lia.
Qed.
Lemma assoc_app es es' name : assoc (es ++ es') name =
  match assoc es name with Some i => Some i | None => assoc es' name end.
Proof. induction es as [|[i n] es IH]; simpl; [done|]. by destruct (str_eqb n name). Qed.
Lemma assoc_None es name : name ∉ snd <$> es → assoc es name = None.
Proof.
  induction es as [|[i x] es IH]; intros Hn; [done|]. cbn [fmap list_fmap snd] in Hn. apply not_elem_of_cons in Hn as [Hx Hn].
  simpl. rewrite IH by done. by rewrite (proj2 (str_eqb_neq x name)) by done.
Qed.
Lemma assoc_elem es name i : assoc es name = Some i → (i, name) ∈ es.
Proof.
  induction es as [|[j n] es IH]; simpl; [done|]. destruct (str_eqb n name) eqn:E.
  - apply str_eqb_eq in E as ->. intros [= ->]. left.
  - intros. right. auto.
Qed.
(** a block determines its entries *)
Lemma dir_rep_inj blk es es' : dir_rep blk es → dir_rep blk es' → es = es'.
Proof.
  intros (Hok & Hl & Eb) (Hok' & Hl' & Eb').
  pose proof (list_from_spec es [] 129 Hok) as E. pose proof (list_from_spec es' [] 129 Hok') as E'.
  change (encs []) with (@nil Z) in E, E'. cbn [app length] in E, E'.
  rewrite <-Eb in E. rewrite <-Eb' in E'. rewrite E in E' by lia. specialize (E' ltac:(lia) ltac:(lia)).
  assert ((λ e : ent, (snd e, fst e)) <$> es = (λ e : ent, (snd e, fst e)) <$> es') as Hm by congruence.
  clear -Hm. revert es' Hm. induction es as [|[i a] es IH]; intros [|[i' a'] es'] Hm; try done.
  simpl in Hm. injection Hm as -> -> Hm. f_equal. auto.
Qed.
End entries.
End Ext2Dir.
