(* ===== verification/Ext2Disk.v ===== *)
(** The ext2 operations as transformations of the disk image.  [runs m img r
    img'] says that on every volume with contents [img] the operation [m]
    returns [r] and leaves the contents [img'], so that the proofs about the
    file system are about images only and hold for every volume that keeps
    the promise [BlocksLaws].  This file has the inode table, the search of a
    path, reading a file, and the allocation loop of the writer. *)
From stdpp Require Import base numbers list strings.
From S2P Require Import Prelude Bitmap Memory Path Vol Ext2 Ext2Dir.
Open Scope Z_scope.

Module Ext2Disk.
Import Path.Path Vol.Vol Ext2.Ext2 Ext2Dir.Ext2Dir.
Definition image : Type := Z → list Z.
Definition wr (img : image) (b : Z) (d : list Z) : image := λ x, if decide (x = b) then d else img x.
Definition img_ok (n : Z) (img : image) : Prop :=
  256 <= n <= 8192 ∧ ∀ b, 0 <= b < n → length (img b) = 1024%nat ∧ bytes (img b).
Lemma wr_same img b d : wr img b d b = d.
Proof. unfold wr. by rewrite decide_True. Qed.
Lemma wr_other img b d x : x ≠ b → wr img b d x = img x.
Proof. intros. unfold wr. by rewrite decide_False. Qed.
Lemma img_ok_wr n img b d : img_ok n img → length d = 1024%nat → bytes d → img_ok n (wr img b d).
Proof. intros [Hn Hi] Hd Hb. split; [done|]. intros x Hx. unfold wr. case_decide; auto. Qed.

(** ** Running on any volume with the contents *)
Section runs.
Context {S : Type} `{BlocksLaws S}.
Context (n : Z).
Implicit Types (img : image).
Definition runs {A} (m : est S A) (img : image) (r : option A) (img' : image) : Prop :=
  ∀ s, vol_rep s n img → ∃ s', m s = Ret (r, s') ∧ vol_rep s' n img'.
Lemma runs_ret {A} (a : A) img : runs (mret a) img (Some a) img.
Proof. intros s Hs. by exists s. Qed.
Lemma runs_fail {A} img : runs (est_fail (A := A)) img None img.
Proof. intros s Hs. by exists s. Qed.
Lemma runs_lift {A} (o : outcome A) a img : o = Ret a → runs (est_lift o) img (Some a) img.
Proof. intros -> s Hs. by exists s. Qed.
Lemma runs_opt {A} (o : option A) img : runs (est_opt o) img o img.
Proof. intros s Hs. by exists s. Qed.
Lemma runs_bind {A B} (m : est S A) (f : A → est S B) img a img1 r img2 :
  runs m img (Some a) img1 → runs (f a) img1 r img2 → runs (m ≫= f) img r img2.
Proof.
  intros H1 H2 s Hs. destruct (H1 s Hs) as (s1 & E1 & Hs1). destruct (H2 s1 Hs1) as (s2 & E2 & Hs2).
  exists s2. split; [|done]. by rewrite (est_bind_step _ _ _ _ _ E1).
Qed.
Lemma runs_bind_none {A B} (m : est S A) (f : A → est S B) img img1 :
  runs m img None img1 → runs (m ≫= f) img None img1.
Proof.
  intros H1 s Hs. destruct (H1 s Hs) as (s1 & E1 & Hs1). exists s1. split; [|done].
  by rewrite (est_bind_fail _ _ _ _ E1).
Qed.
Lemma runs_read img b : 0 <= b < n → runs (vol_read_blk b) img (Some (img b)) img.
Proof. intros Hb s Hs. by apply rep_read. Qed.
Lemma runs_write img b d : 0 <= b < n → length d = 1024%nat → bytes d →
  runs (vol_write_blk b d) img (Some tt) (wr img b d).
Proof. intros Hb Hd Hby s Hs. by apply rep_write. Qed.
(** reading the number of blocks from the volume *)
Lemma runs_total {B} (f : S → est S B) img r img' :
  (∀ s, total_blocks_from_vol s = n → runs (f s) img r img') → runs (est_get ≫= f) img r img'.
Proof.
  intros Hf s Hs. apply (Hf s); [|done].
  unfold total_blocks_from_vol. rewrite (rep_bytes _ _ _ Hs). pose proof (rep_range _ _ _ Hs).
  unfold CHASEROS_BLK. rewrite Z.div_mul by lia. apply u32_small. lia.
Qed.
Lemma rep_img_ok s img : vol_rep s n img → img_ok n img.
Proof. intros Hs. split; [by eapply rep_range|]. intros. by eapply rep_block. Qed.
End runs.
Arguments runs {S _ _} n {A} m img r img'.

(** ** The inode table: inode [k] is 128 bytes of blocks 5 to 20 *)
Definition ino_ok (k : Z) : Prop := 1 <= k <= 128.
Definition inode (img : image) (k : Z) : list Z := slice (img (inode_blk k)) (inode_off k) 128.
Lemma inode_pos k : ino_ok k → inode_blk k = 5 + (k - 1) / 8 ∧ inode_off k = Z.to_nat (128 * ((k - 1) mod 8)).
Proof.
  intros Hk. unfold ino_ok in Hk. unfold inode_blk, inode_off, CHASEROS_BLK.
  rewrite (u32_small (k - 1)) by lia. rewrite u32_small by lia. split; [zdm|f_equal; zdm].
Qed.
Lemma inode_range k : ino_ok k → 5 <= inode_blk k <= 20 ∧ (inode_off k + 128 <= 1024)%nat.
Proof. intros Hk. destruct (inode_pos k Hk) as [-> ->]. unfold ino_ok in Hk. split; zdm. Qed.

Section inodes.
Context {S : Type} `{BlocksLaws S}.
Context (n : Z).
Implicit Types (img : image).
Lemma inode_facts img k : img_ok n img → ino_ok k → length (inode img k) = 128%nat ∧ bytes (inode img k).
Proof.
  intros [Hn Hi] Hk. destruct (inode_range k Hk) as [Hb Ho]. destruct (Hi (inode_blk k)) as [Hl Hby]; [lia|].
  unfold inode. split; [apply length_slice; lia|by apply bytes_slice].
Qed.
Lemma runs_read_inode img k : img_ok n img → ino_ok k → runs n (read_inode k) img (Some (inode img k)) img.
Proof.
  intros [Hn Hi] Hk. unfold read_inode. unfold ino_ok in Hk. bfalse.
  destruct (inode_range k Hk) as [Hb _]. eapply runs_bind; [apply runs_read; lia|]. apply runs_ret.
Qed.
Definition put_inode img k (i : list Z) : image := wr img (inode_blk k) (splice (img (inode_blk k)) (inode_off k) i).
Lemma runs_write_inode img k i : img_ok n img → ino_ok k → length i = 128%nat → bytes i →
  runs n (write_inode k i) img (Some tt) (put_inode img k i).
Proof.
  intros [Hn Hi] Hk Hl Hby. destruct (inode_range k Hk) as [Hb Ho].
  destruct (Hi (inode_blk k)) as [Hbl Hbb]; [lia|].
  eapply runs_bind; [apply runs_read; lia|]. apply runs_write; [lia| |by apply bytes_splice].
  by rewrite length_splice by lia.
Qed.
Lemma inode_put img k i k' : img_ok n img → ino_ok k → ino_ok k' → length i = 128%nat →
  inode (put_inode img k i) k' = if decide (k' = k) then i else inode img k'.
Proof.
  intros [Hn Hi] Hk Hk' Hl. destruct (inode_range k Hk) as [Hb Ho]. destruct (Hi (inode_blk k)) as [Hbl _]; [lia|].
  unfold inode, put_inode, wr. destruct (decide (k' = k)) as [->|Hne].
  - rewrite decide_True by done. rewrite <-Hl. apply slice_splice_same. lia.
  - case_decide as Hblk; [|done]. rewrite Hblk. apply slice_splice_disjoint; [lia|].
    destruct (inode_pos k Hk) as [E1 ->]. destruct (inode_pos k' Hk') as [E1' ->]. rewrite E1, E1' in Hblk.
    rewrite Hl. unfold ino_ok in *. zdm.
Qed.
Lemma put_inode_other img k i x : ino_ok k → x < 5 ∨ 20 < x → put_inode img k i x = img x.
Proof. intros Hk Hx. destruct (inode_range k Hk). apply wr_other. lia. Qed.
Lemma img_ok_put img k i : img_ok n img → ino_ok k → length i = 128%nat → bytes i → img_ok n (put_inode img k i).
Proof.
  intros Hi Hk Hl Hb. pose proof Hi as [Hn Hi']. destruct (inode_range k Hk) as [? ?].
  destruct (Hi' (inode_blk k)); [lia|]. apply img_ok_wr; [done|rewrite length_splice; lia|by apply bytes_splice].
Qed.
(** inodes do not see the blocks outside the table *)
Lemma inode_wr img b d k : ino_ok k → b < 5 ∨ 20 < b → inode (wr img b d) k = inode img k.
Proof. intros Hk Hb. destruct (inode_range k Hk). unfold inode. rewrite wr_other by lia. done. Qed.
End inodes.

(** ** Searching a path *)
Definition dir_find (blk : list Z) (name : list Z) : option Z :=
  match find_in_root blk name with Ret r => r | _ => None end.
Lemma dir_find_spec blk es name : dir_rep blk es → dir_find blk name = assoc es name.
Proof. intros Hr. unfold dir_find. rewrite (find_in_root_spec blk es name Hr). reflexivity. Qed.
#[global] Opaque dir_find.
Fixpoint resolve (img : image) (k : Z) (comps : list (list Z)) {struct comps} : option Z :=
  match comps with
  | [] => Some k
  | c :: comps =>
    if is_dir_mode (inode img k)
    then match dir_find (img (i_block (inode img k) 0)) c with
         | Some k' => if k' =? 0 then None else resolve img k' comps
         | None => None
         end
    else None
  end.

(** ** Contents of a file *)
Definition nblk (i : list Z) : nat := Z.to_nat (nblocks_of (i_size i)).
Definition data_blocks (img : image) (i : list Z) : list Z := concat ((λ j, img (i_block i j)) <$> seq 0 (nblk i)).
Definition file_data (img : image) (i : list Z) : list Z := take (Z.to_nat (i_size i)) (data_blocks img i).

Lemma copy_loop_spec tmp k : ∀ j fc off mx bout, (j + k <= length tmp)%nat → 0 <= fc → 0 <= off → 0 <= mx →
  copy_loop tmp j k fc off mx bout =
  bout ++ take (Z.to_nat mx - length bout) (drop (Z.to_nat (off - (fc + Z.of_nat j))) (slice tmp j k)).
Proof.
  induction k as [|k IH]; intros j fc off mx bout Hl Hfc Hoff Hmx; cbn [copy_loop].
  { unfold slice. rewrite take_0, drop_nil, take_nil, app_nil_r. done. }
  assert (slice tmp j (Datatypes.S k) = nth j tmp 0 :: slice tmp (j + 1) k) as Hs.
  { unfold slice. destruct (nth_lookup_or_length tmp j 0) as [E|]; [|lia].
    rewrite (drop_S _ _ _ E). simpl. by rewrite Nat.add_1_r. }
  destruct (Z.ltb_spec (Z.of_nat (length bout)) mx) as [Hlt|Hge].
  2: { replace (Z.to_nat mx - length bout)%nat with 0%nat by lia. by rewrite take_0, app_nil_r. }
  destruct (Z.ltb_spec (fc + Z.of_nat j) off) as [Ho|Ho].
  - rewrite IH by lia. rewrite Hs. do 2 f_equal.
    replace (Z.to_nat (off - (fc + Z.of_nat j))) with (Datatypes.S (Z.to_nat (off - (fc + Z.of_nat (j + 1))))) by lia.
    done.
  - rewrite IH by lia. rewrite Hs, <-app_assoc. f_equal.
    replace (Z.to_nat (off - (fc + Z.of_nat j))) with 0%nat by lia.
    replace (Z.to_nat (off - (fc + Z.of_nat (j + 1)))) with 0%nat by lia. rewrite !drop_0.
    rewrite length_app. simpl length.
    replace (Z.to_nat mx - length bout)%nat with (Datatypes.S (Z.to_nat mx - (length bout + 1))) by lia. done.
Qed.

(** ** The walk of a normalised path is [resolve] *)
Section walk.
Context {S : Type} `{BlocksLaws S}.
Context (n : Z) (img : image) (Hi : img_ok n img).
(** inodes that can be reached, and their directory blocks *)
Context (live : Z → Prop) (Hlive : ∀ k, live k → ino_ok k).
Context (Hdir : ∀ k, live k → is_dir_mode (inode img k) = true →
  0 <= i_block (inode img k) 0 < n ∧
  ∃ es, dir_rep (img (i_block (inode img k) 0)) es ∧ ∀ i nm, (i, nm) ∈ es → live i).
Lemma dir_find_live k c k' : live k → is_dir_mode (inode img k) = true →
  dir_find (img (i_block (inode img k) 0)) c = Some k' → live k'.
Proof.
  intros Hk Hd E. destruct (Hdir k Hk Hd) as (_ & es & Hrep & Hes).
  rewrite (dir_find_spec _ es) in E by done. apply assoc_elem in E. eauto.
Qed.
Lemma resolve_live cs : ∀ k k', live k → resolve img k cs = Some k' → live k'.
Proof.
  induction cs as [|c cs IH]; intros k k' Hk E; simpl in E; [by simplify_eq|].
  destruct (is_dir_mode (inode img k)) eqn:Ed; [|done]. destruct (dir_find _ c) as [k1|] eqn:Ef; [|done].
  destruct (k1 =? 0); [done|]. eapply IH, E. by eapply dir_find_live.
Qed.
Lemma skip_slashes_comp p : hd [] (split p) ≠ [] → skip_slashes p = p.
Proof.
  destruct p as [|c p]; [done|]. cbn [split skip_slashes]. destruct (c =? slash); [done|]. done.
Qed.
Lemma lookup_loop_spec fuel : ∀ cs k p, live k → split p = cs → p ≠ [] →
  Forall (λ c, c ≠ [] ∧ (length c <= 127)%nat) cs → (length p <= fuel)%nat →
  runs n (lookup_loop fuel k p) img (resolve img k cs) img.
Proof.
  induction fuel as [|fuel IH]; intros cs k p Hk Hcs Hp Hok Hf; (destruct p as [|c p]; [done|]); [simpl in Hf; lia|].
  cbn [lookup_loop]. destruct (seg_take_split 127 (c :: p)) as (s & r & -> & Hs & Hr & Hlen).
  { rewrite Hcs. destruct cs; [simpl; lia|]. by apply Forall_cons in Hok as [[_ ?] _]. }
  rewrite Hs in Hcs. subst cs. apply Forall_cons in Hok as [[Hs0 Hs127] Hok]. cbn [resolve].
  eapply runs_bind; [apply runs_read_inode; auto|].
  destruct (is_dir_mode (inode img k)) eqn:Ed; cbn [negb]; [|apply runs_fail].
  destruct (Hdir k Hk Ed) as (Hb & es & Hrep & Hes).
  eapply runs_bind; [by apply runs_read|]. eapply runs_bind; [by apply runs_lift, find_in_root_spec|].
  rewrite (dir_find_spec _ es) by done. destruct (assoc es s) as [k1|] eqn:Ea; [|apply runs_fail].
  destruct (k1 =? 0); [apply runs_fail|]. assert (live k1) as Hk1 by (eapply Hes; by apply assoc_elem).
  destruct Hr as [->|[r' ->]].
  - cbn [skip_slashes resolve]. destruct fuel; apply runs_ret.
  - assert (hd [] (split r') ≠ []) as Hne.
    { pose proof (split_nonempty r'). destruct (split r') as [|x l]; [done|]. by apply Forall_cons in Hok as [[? _] _]. }
    cbn [skip_slashes]. rewrite Z.eqb_refl, skip_slashes_comp by done.
    assert (r' ≠ []) by (intros ->; done). apply IH; try done. simpl in Hlen, Hf. lia.
Qed.
Lemma lookup_final_spec segs : live 2 → Forall comp_ok segs →
  runs n (lookup_final (join segs)) img
    ((λ k, (k, inode img k)) <$> resolve img 2 segs) img.
Proof.
  intros H2 Hok. unfold lookup_final. destruct segs as [|c segs].
  - simpl join. rewrite str_eqb_refl. eapply runs_bind; [apply runs_read_inode; auto|]. apply runs_ret.
  - assert (Forall (λ c, slash ∉ c) (c :: segs)) as Hns
      by (eapply Forall_impl; [exact Hok|]; by intros x (_ & _ & _ & ? & _)).
    assert (c ≠ []) as Hc0 by (apply Forall_cons in Hok as [(? & _) _]; done).
    assert (tail (joined (c :: segs)) ≠ []) as Hne.
    { change (tail (joined (c :: segs))) with (c ++ joined segs). intros Happ. by apply app_eq_nil in Happ as [? _]. }
    assert (str_eqb (join (c :: segs)) [slash] = false) as ->.
    { apply str_eqb_neq. change (join (c :: segs)) with (slash :: tail (joined (c :: segs))). congruence. }
    change (tail (join (c :: segs))) with (tail (joined (c :: segs))).
    assert (runs n (lookup_loop (length (join (c :: segs))) 2 (tail (joined (c :: segs)))) img (resolve img 2 (c :: segs)) img) as Hl.
    { apply lookup_loop_spec; [done|by apply split_joined|done| |simpl; lia].
      eapply Forall_impl; [exact Hok|]. by intros x (? & _ & _ & _ & ?). }
    destruct (resolve img 2 (c :: segs)) as [k|] eqn:E; cbn [fmap option_fmap option_map].
    + eapply runs_bind; [exact Hl|]. eapply runs_bind; [apply runs_read_inode; [done|]|apply runs_ret].
      apply Hlive. by eapply resolve_live.
    + by eapply runs_bind_none.
Qed.
End walk.

(** ** Reading *)
Section reading.
Context {S : Type} `{BlocksLaws S}.
Context (n : Z) (img : image) (Hi : img_ok n img) (fi : list Z).
Context (HL : 0 <= i_size fi <= 12288).
Context (Hblk : ∀ j, (j < nblk fi)%nat → 0 < i_block fi j < n).
Notation L := (Z.to_nat (i_size fi)).
Notation C := (file_data img fi).
Lemma nblk_spec : Z.of_nat (nblk fi) = (i_size fi + 1023) / 1024 ∧ (nblk fi <= 12)%nat.
Proof. unfold nblk, nblocks_of, CHASEROS_BLK. rewrite u32_small by lia. zdm. Qed.
Lemma length_concat_blocks (f : nat → list Z) bs k : (∀ j, (j < k)%nat → length (f j) = bs) →
  length (concat (f <$> seq 0 k)) = (bs * k)%nat.
Proof.
  induction k as [|k IH]; intros Hf; [simpl; lia|]. rewrite seq_S, fmap_app, concat_app, length_app, IH by auto.
  simpl. rewrite app_nil_r, Hf by lia. lia.
Qed.
Lemma slice_concat_blocks (f : nat → list Z) k j : (∀ j, (j < k)%nat → length (f j) = 1024%nat) → (j < k)%nat →
  slice (concat (f <$> seq 0 k)) (1024 * j) 1024 = f j.
Proof.
  intros Hf Hj. replace (seq 0 k) with (seq 0 j ++ j :: seq (Datatypes.S j) (k - j - 1)).
  2: { replace k with (j + Datatypes.S (k - j - 1))%nat at 2 by lia. by rewrite seq_app. }
  rewrite fmap_app, concat_app. cbn [fmap list_fmap concat].
  rewrite <-(Nat.add_0_r (1024 * j)). rewrite slice_shift' by (apply length_concat_blocks; intros; apply Hf; lia).
  apply slice_app_here. by apply Hf.
Qed.
Lemma block_length j : (j < nblk fi)%nat → length (img (i_block fi j)) = 1024%nat.
Proof. intros Hj. destruct Hi as [_ Hi']. apply Hi'. specialize (Hblk j Hj). lia. Qed.
Lemma length_file_data : length C = L.
Proof.
  unfold file_data, data_blocks. rewrite length_take, (length_concat_blocks _ 1024) by apply block_length.
  pose proof nblk_spec as [Hn _]. zdm.
Qed.
(** the first [i + 1] blocks of the contents *)
Lemma file_data_step i : (i < nblk fi)%nat →
  take (1024 * (i + 1)) C = take (1024 * i) C ++ slice (img (i_block fi i)) 0 (Nat.min 1024 (L - 1024 * i)).
Proof.
  intros Hj. replace (1024 * (i + 1))%nat with (1024 * i + 1024)%nat by lia.
  rewrite <-(take_take_drop C (1024 * i) 1024). f_equal.
  unfold file_data at 1. rewrite <-(slice_concat_blocks (λ j, img (i_block fi j)) (nblk fi) i) by (done || apply block_length).
  fold (data_blocks img fi). unfold slice. rewrite drop_0, take_take, skipn_firstn_comm, take_take.
  f_equal. lia.
Qed.
Lemma take_drop_app (mx off : nat) (A B : list Z) : (length (take mx (drop off A)) < mx)%nat →
  take mx (drop off A) ++ take (mx - length (take mx (drop off A))) (drop (off - length A) B) =
  take mx (drop off (A ++ B)).
Proof.
  intros Hl. rewrite length_take in *. rewrite drop_app, take_app. f_equal. f_equal. lia.
Qed.
Lemma take_drop_full (mx off : nat) (A B : list Z) : (mx <= length (take mx (drop off A)))%nat →
  take mx (drop off (A ++ B)) = take mx (drop off A).
Proof.
  intros Hl. rewrite length_take in Hl. rewrite drop_app, take_app_le by lia. done.
Qed.
Lemma read_blocks_spec off mx k : 0 <= off → 0 <= mx → ∀ i, (i + k = nblk fi)%nat →
  runs n (read_blocks fi i k (Z.min (1024 * Z.of_nat i) (i_size fi)) off mx
            (take (Z.to_nat mx) (drop (Z.to_nat off) (take (1024 * i) C)))) img
    (Some (take (Z.to_nat mx) (drop (Z.to_nat off) C))) img.
Proof.
  intros Hoff Hmx. pose proof nblk_spec as [Hnb _]. pose proof length_file_data as HlC.
  induction k as [|k IH]; intros i Hik; cbn [read_blocks].
  { assert (take (1024 * i) C = C) as -> by (apply take_ge; rewrite HlC; zdm). apply runs_ret. }
  assert (1024 * Z.of_nat i < i_size fi) as Hlt by zdm.
  rewrite (Z.min_l (1024 * Z.of_nat i)) by lia. btrue. cbn [andb].
  set (A := take (1024 * i) C). set (bout := take (Z.to_nat mx) (drop (Z.to_nat off) A)).
  assert (C = A ++ drop (1024 * i) C) as HC by (symmetry; apply take_drop).
  assert (length A = (1024 * i)%nat) as HlA by (unfold A; rewrite length_take, HlC; lia).
  destruct (Z.ltb_spec (Z.of_nat (length bout)) mx) as [Hb|Hb].
  2: { replace (take (Z.to_nat mx) (drop (Z.to_nat off) C)) with bout; [apply runs_ret|].
       symmetry. rewrite HC. apply take_drop_full. fold bout. lia. }
  assert (i < nblk fi)%nat as Hin by lia. pose proof (Hblk i Hin) as Hbn.
  rewrite (proj2 (Z.eqb_neq (i_block fi i) 0)) by lia.
  eapply runs_bind; [apply runs_read; lia|].
  set (bl := if i_size fi <? 1024 * Z.of_nat i + CHASEROS_BLK then i_size fi - 1024 * Z.of_nat i else CHASEROS_BLK).
  assert (bl = Z.min 1024 (i_size fi - 1024 * Z.of_nat i)) as Hbl by (unfold bl, CHASEROS_BLK; case_if; lia).
  rewrite copy_loop_spec by (rewrite ?block_length by done; lia).
  replace (1024 * Z.of_nat i + bl) with (Z.min (1024 * Z.of_nat (i + 1)) (i_size fi)) by lia.
  replace (bout ++ take _ _) with (take (Z.to_nat mx) (drop (Z.to_nat off) (take (1024 * (i + 1)) C))); [apply IH; lia|].
  rewrite file_data_step by done. fold A. rewrite <-take_drop_app by (fold bout; lia). fold bout. f_equal. f_equal.
  rewrite HlA. replace (Z.to_nat bl) with (Nat.min 1024 (L - 1024 * i)) by lia. f_equal. lia.
Qed.
End reading.
End Ext2Disk.
