(* ===== verification/Ext2Alloc.v ===== *)
(** The allocation side of the ext2 writer: the bitmaps, releasing the blocks
    of an inode, and the loop that allocates and fills the data blocks. *)
From stdpp Require Import base numbers list sets strings.
From S2P Require Import Prelude Bitmap Memory Path Vol Ext2 Ext2Dir Ext2Disk.
Open Scope Z_scope.

Module Ext2Alloc.
Import Path.Path Vol.Vol Ext2.Ext2 Ext2Dir.Ext2Dir Ext2Disk.Ext2Disk.

Definition bm_ok (bm : list Z) : Prop := length bm = 1024%nat ∧ bytes bm.
Definition inode_ok (i : list Z) : Prop := length i = 128%nat ∧ bytes i.
(** the metadata a writer carries *)
Record meta_ok (m : meta) : Prop := {
  mo_sb : length (m_sb m) = 1024%nat ∧ bytes (m_sb m);
  mo_magic : s_magic (m_sb m) = EXT2_SUPER_MAGIC;
  mo_gd : length (m_gd m) = 32%nat ∧ bytes (m_gd m);
  mo_bb : bm_ok (m_bb m);
  mo_ib : bm_ok (m_ib m)
}.

Section bitmaps.
Implicit Types (bm : list Z).
Lemma bm_ok_range bm b : bm_ok bm → 0 <= b < 8192 → bm_range bm b.
Proof. intros [Hl _] Hb. unfold bm_range. rewrite Hl. lia. Qed.
Lemma alloc_bit_spec k : ∀ bm b, bm_ok bm → 0 <= b → b + Z.of_nat k <= 8192 →
  (alloc_bit bm b k = Ret None ∧ ∀ j, b <= j < b + Z.of_nat k → bit bm j = true) ∨
  ∃ x bm', alloc_bit bm b k = Ret (Some (x, bm')) ∧ b <= x < b + Z.of_nat k ∧ bit bm x = false ∧
    bm_ok bm' ∧ ∀ j, 0 <= j → bit bm' j = bool_decide (j = x) || bit bm j.
Proof.
  induction k as [|k IH]; intros bm b Hok Hb Hk; cbn [alloc_bit]; [left; split; [done|lia]|].
  unfold bm_get. rewrite bm_test_bit by (apply bm_ok_range; [done|lia]). ostep.
  destruct (bit bm b) eqn:E; simpl.
  - destruct (IH bm (b + 1)) as [[-> Ha]|(x & bm' & -> & Hx & H')]; [done|lia|lia| |].
    + left. split; [done|]. intros j Hj. destruct (decide (j = b)) as [->|]; [done|apply Ha; lia].
    + right. exists x, bm'. split; [done|]. split; [lia|done].
  - destruct (bm_put1_spec bm b) as (bm' & Ep & Hl & Hby & Hbit); [apply bm_ok_range; [done|lia]|apply Hok|].
    right. exists b, bm'. unfold bm_set. rewrite Ep. split; [done|]. split; [lia|]. split; [done|].
    split; [|done]. split; [rewrite Hl; apply Hok|done].
Qed.
Lemma set_bits_spec k : ∀ bm b, bm_ok bm → 0 <= b → b + Z.of_nat k <= 8192 →
  ∃ bm', set_bits bm b k = Ret bm' ∧ bm_ok bm' ∧
    ∀ j, 0 <= j → bit bm' j = ((b <=? j) && (j <? b + Z.of_nat k)) || bit bm j.
Proof.
  induction k as [|k IH]; intros bm b Hok Hb Hk; cbn [set_bits].
  { exists bm. split; [done|]. split; [done|]. intros j Hj.
    destruct (Z.leb_spec b j), (Z.ltb_spec j (b + Z.of_nat 0)); simpl; done || lia. }
  destruct (bm_put1_spec bm b) as (bm1 & Ep & Hl & Hby & Hbit); [apply bm_ok_range; [done|lia]|apply Hok|].
  unfold bm_set. rewrite Ep. ostep.
  destruct (IH bm1 (b + 1)) as (bm2 & E2 & Hok2 & Hb2); [split; [rewrite Hl; apply Hok|done]|lia|lia|].
  exists bm2. split; [done|]. split; [done|]. intros j Hj. rewrite Hb2, Hbit by done. rewrite orb_assoc. f_equal.
  apply eq_true_iff_eq. rewrite orb_true_iff, !andb_true_iff, bool_decide_eq_true, !Z.leb_le, !Z.ltb_lt. lia.
Qed.
End bitmaps.

Section structures.
Implicit Types (sb gd fi : list Z).
Lemma add_free_blocks_ok sb k : length sb = 1024%nat → bytes sb →
  length (add_free_blocks sb k) = 1024%nat ∧ bytes (add_free_blocks sb k) ∧
  s_magic (add_free_blocks sb k) = s_magic sb.
Proof.
  intros Hl Hb. unfold add_free_blocks, s_magic. rewrite length_set32, get16_set32_ne by lia.
  auto with chaser.
Qed.
Lemma add_free_inodes_ok sb k : length sb = 1024%nat → bytes sb →
  length (add_free_inodes sb k) = 1024%nat ∧ bytes (add_free_inodes sb k) ∧
  s_magic (add_free_inodes sb k) = s_magic sb.
Proof.
  intros Hl Hb. unfold add_free_inodes, s_magic. rewrite length_set32, get16_set32_ne by lia.
  auto with chaser.
Qed.
Lemma gd_set_ok gd off v : length gd = 32%nat → bytes gd → (off <= 30)%nat →
  length (set16 gd off v) = 32%nat ∧ bytes (set16 gd off v).
Proof. intros Hl Hb Ho. rewrite length_set16 by lia. auto with chaser. Qed.
Lemma i_block_set fi j j' v : inode_ok fi → (j < 12)%nat → (j' < 12)%nat → 0 <= v < 2 ^ 32 →
  i_block (set_i_block fi j v) j' = if decide (j' = j) then v else i_block fi j'.
Proof.
  intros [Hl Hb] Hj Hj' Hv. unfold i_block, set_i_block. case_decide as Hd.
  - subst. rewrite get32_set32 by lia. by apply u32_small.
  - apply get32_set32_ne; lia.
Qed.
Lemma inode_ok_set_block fi j v : inode_ok fi → (j < 12)%nat →
  inode_ok (set_i_block fi j v) ∧ i_size (set_i_block fi j v) = i_size fi ∧ i_mode (set_i_block fi j v) = i_mode fi.
Proof.
  intros [Hl Hb] Hj. unfold set_i_block, i_size, i_mode, inode_ok.
  rewrite length_set32, get32_set32_ne, get16_set32_ne by lia. auto with chaser.
Qed.
Lemma file_inode_ok fi len : inode_ok fi → 0 <= len < 2 ^ 32 →
  inode_ok (file_inode fi len) ∧ i_size (file_inode fi len) = len ∧ is_reg_mode (file_inode fi len) = true ∧
  is_dir_mode (file_inode fi len) = false.
Proof.
  intros [Hl Hb] Hlen. unfold file_inode. set (sec := if (u32 ((len + 511) / 512) =? 0) && (0 <? len) then 1 else u32 ((len + 511) / 512)).
  assert (length (set16 fi 0 (Z.lor 0x8000 420)) = 128%nat) as L1 by (rewrite length_set16; lia).
  assert (length (set32 (set16 fi 0 (Z.lor 0x8000 420)) 4 len) = 128%nat) as L2 by (rewrite length_set32; lia).
  assert (length (set16 (set32 (set16 fi 0 (Z.lor 0x8000 420)) 4 len) 26 1) = 128%nat) as L3 by (rewrite length_set16; lia).
  assert (i_mode (set32 (set16 (set32 (set16 fi 0 (Z.lor 0x8000 420)) 4 len) 26 1) 28 sec) = 33188) as Hm.
  { unfold i_mode. rewrite get16_set32_ne, get16_set16_ne, get16_set32_ne, get16_set16 by lia. done. }
  split; [split; [rewrite length_set32; lia|auto with chaser]|]. unfold is_reg_mode, is_dir_mode. rewrite Hm.
  split; [|done]. unfold i_size. rewrite get32_set32_ne, get32_set16_ne, get32_set32 by lia. by apply u32_small.
Qed.
End structures.

(** ** Releasing the blocks of an inode *)
(** block [x] is one of the blocks [i .. i + k) of the inode *)
Definition owns (fi : list Z) (i k : nat) (x : Z) : bool := existsb (λ j, i_block fi j =? x) (seq i k).
Lemma owns_true fi i k x : owns fi i k x = true ↔ ∃ j, (i <= j < i + k)%nat ∧ i_block fi j = x.
Proof.
  unfold owns. rewrite existsb_exists. setoid_rewrite in_seq. setoid_rewrite Z.eqb_eq. naive_solver.
Qed.
Section release.
Implicit Types (sb gd bb fi : list Z).
Lemma free_blocks_loop_spec k : ∀ sb gd bb fi i, length sb = 1024%nat → bytes sb → length gd = 32%nat → bytes gd →
  bm_ok bb → inode_ok fi → (i + k <= 12)%nat →
  (∀ j, (i <= j < i + k)%nat → 0 < i_block fi j < 8192) →
  ∃ sb' gd' bb' fi', free_blocks_loop sb gd bb fi i k = Ret (sb', gd', bb', fi') ∧
    length sb' = 1024%nat ∧ bytes sb' ∧ s_magic sb' = s_magic sb ∧ length gd' = 32%nat ∧ bytes gd' ∧
    bm_ok bb' ∧ inode_ok fi' ∧
    ∀ x, 0 <= x → bit bb' x = negb (owns fi i k x) && bit bb x.
Proof.
  induction k as [|k IH]; intros sb gd bb fi i Hsl Hsb Hgl Hgb Hbb Hfi Hik Hblk; cbn [free_blocks_loop].
  { exists sb, gd, bb, fi. by repeat (split; [done|]). }
  pose proof (Hblk i ltac:(lia)) as Hbn. rewrite (proj2 (Z.eqb_neq (i_block fi i) 0)) by lia. cbn [negb].
  destruct (bm_put0_spec bb (i_block fi i)) as (bb1 & Ep & Hl1 & Hb1 & Hbit); [apply bm_ok_range; [done|lia]|apply Hbb|].
  unfold bm_clr. rewrite Ep. ostep.
  destruct (add_free_blocks_ok sb 1) as (S1 & S2 & S3); [done..|].
  destruct (gd_set_ok gd 12 (get16 gd 12 + 1)) as (G1 & G2); [done..|lia|].
  destruct (inode_ok_set_block fi i 0) as (F1 & _); [done|lia|].
  destruct (IH (add_free_blocks sb 1) (gd_add_free_blocks gd 1) bb1 (set_i_block fi i 0) (Datatypes.S i))
    as (sb' & gd' & bb' & fi' & -> & A1 & A2 & A3 & A4 & A5 & A6 & A7 & A8); try done.
  - split; [rewrite Hl1; apply Hbb|done].
  - lia.
  - intros j Hj. rewrite i_block_set by (done || lia). rewrite decide_False by lia. apply Hblk. lia.
  - exists sb', gd', bb', fi'. split; [done|]. rewrite A3, S3. repeat (split; [done|]). intros x Hx.
    rewrite A8, Hbit by done. rewrite andb_assoc. f_equal. rewrite <-negb_orb. f_equal.
    apply eq_true_iff_eq. rewrite orb_true_iff, !owns_true, bool_decide_eq_true. split.
    + intros [(j & Hj & <-)| ->]; [|exists i; split; [lia|done]]. exists j. split; [lia|].
      rewrite i_block_set by (done || lia). by rewrite decide_False by lia.
    + intros (j & Hj & <-). destruct (decide (j = i)) as [->|]; [by right|]. left. exists j. split; [lia|].
      rewrite i_block_set by (done || lia). by rewrite decide_False by lia.
Qed.
Lemma free_inode_blocks_spec sb gd bb fi : length sb = 1024%nat → bytes sb → length gd = 32%nat → bytes gd →
  bm_ok bb → inode_ok fi → 0 <= i_size fi <= 12288 →
  (∀ j, (j < nblk fi)%nat → 0 < i_block fi j < 8192) →
  ∃ sb' gd' bb' fi', free_inode_blocks sb gd bb fi = Ret (sb', gd', bb', fi') ∧
    length sb' = 1024%nat ∧ bytes sb' ∧ s_magic sb' = s_magic sb ∧ length gd' = 32%nat ∧ bytes gd' ∧
    bm_ok bb' ∧ inode_ok fi' ∧ ∀ x, 0 <= x → bit bb' x = negb (owns fi 0 (nblk fi) x) && bit bb x.
Proof.
  intros Hsl Hsb Hgl Hgb Hbb Hfi Hsz Hblk. unfold free_inode_blocks. cbv zeta.
  assert ((if 12 <? nblocks_of (i_size fi) then 12 else nblocks_of (i_size fi)) = nblocks_of (i_size fi)) as ->.
  { unfold nblocks_of, CHASEROS_BLK. rewrite u32_small by lia. case_if; zdm. }
  fold (nblk fi).
  assert (nblk fi <= 12)%nat by (unfold nblk, nblocks_of, CHASEROS_BLK; rewrite u32_small by lia; zdm).
  destruct (free_blocks_loop_spec (nblk fi) sb gd bb fi 0) as (sb' & gd' & bb' & fi' & -> & A1 & A2 & A3 & A4 & A5 & A6 & A7 & A8);
    try done. { intros j Hj. apply Hblk. lia. }
  ostep. eexists sb', gd', bb', _. split; [done|]. repeat (split; [done|]). split; [|done].
  destruct A7 as [L B]. split; [|auto with chaser]. rewrite !length_set32; rewrite ?length_set32; lia.
Qed.
End release.

(** ** Allocating and filling the data blocks *)
Definition chunk (data : list Z) (j : nat) : list Z :=
  let c := slice data (1024 * j) 1024 in c ++ zeros (1024 - length c).
Lemma chunk_ok data j : bytes data → length (chunk data j) = 1024%nat ∧ bytes (chunk data j).
Proof.
  intros Hd. unfold chunk. split.
  - rewrite length_app, length_zeros. assert (length (slice data (1024 * j) 1024) <= 1024)%nat; [|lia].
    unfold slice. rewrite length_take. lia.
  - apply Forall_app. split; [by apply bytes_slice|apply bytes_zeros].
Qed.
(** the number of free data blocks of a volume of [n] blocks *)
Definition free_blocks (n : Z) (bb : list Z) : nat := length (filter (λ b, bit bb b = false) (seqZ 23 (n - 23))).
Lemma free_blocks_none n bb : (∀ j, 23 <= j < n → bit bb j = true) → free_blocks n bb = 0%nat.
Proof.
  intros Hall. unfold free_blocks. apply length_zero_iff_nil, elem_of_nil_inv. intros x Hx.
  apply list_elem_of_filter in Hx as [Hx Hin]. apply elem_of_seqZ in Hin. rewrite Hall in Hx by lia. done.
Qed.
Lemma filter_length_mono (P Q : Z → Prop) `{!∀ x, Decision (P x), !∀ x, Decision (Q x)} l : (∀ x, x ∈ l → P x → Q x) →
  (length (filter P l) <= length (filter Q l))%nat.
Proof.
  induction l as [|x l IH]; intros Hpq; [done|]. rewrite !filter_cons.
  assert (length (filter P l) <= length (filter Q l))%nat by (apply IH; set_solver).
  pose proof (Hpq x ltac:(set_solver)). repeat case_decide; simpl; tauto || lia.
Qed.
Lemma free_blocks_mono n bb bb' : (∀ x, 23 <= x < n → bit bb x = false → bit bb' x = false) →
  (free_blocks n bb <= free_blocks n bb')%nat.
Proof. intros Hm. apply filter_length_mono. intros x Hx. apply elem_of_seqZ in Hx. apply Hm. lia. Qed.
Lemma free_blocks_take n bb bb' x : 23 <= x < n →
  (∀ j, 0 <= j → bit bb' j = bool_decide (j = x) || bit bb j) → (free_blocks n bb <= S (free_blocks n bb'))%nat.
Proof.
  intros Hx Hb. unfold free_blocks. replace (n - 23) with ((x - 23) + (1 + (n - x - 1))) by lia.
  rewrite seqZ_app by lia. rewrite (seqZ_cons (23 + (x - 23))) by lia. rewrite !filter_app, !length_app, !filter_cons.
  rewrite (decide_False (P := bit bb' (23 + (x - 23)) = false)).
  2: { rewrite Hb by lia. rewrite bool_decide_true by lia. done. }
  assert (∀ a k, 0 <= a → a + k <= x ∨ x < a → (length (filter (λ b, bit bb b = false) (seqZ a k)) <=
     length (filter (λ b, bit bb' b = false) (seqZ a k)))%nat) as Hm.
  { intros a k Ha Hak. apply filter_length_mono. intros j Hj E. apply elem_of_seqZ in Hj.
    rewrite Hb, E by lia. by rewrite bool_decide_false by lia. }
  pose proof (Hm 23 (x - 23) ltac:(lia) ltac:(lia)). pose proof (Hm (Z.succ (23 + (x - 23))) (Z.pred (1 + (n - x - 1))) ltac:(lia) ltac:(lia)).
  case_decide; simpl; lia.
Qed.
Section filling.
Context {S : Type} `{BlocksLaws S}.
Context (n : Z) (data : list Z) (Hdata : bytes data).
Implicit Types (m : meta) (fi : list Z) (img : image).
Lemma write_blocks_spec k : ∀ m fi img bi, meta_ok m → inode_ok fi → img_ok n img → (bi + k <= 12)%nat →
  ∃ r img', runs n (write_blocks m fi data n bi k) img r img' ∧
    match r with
    | None => (free_blocks n (m_bb m) < k)%nat
    | Some (m', fi') => ∃ bs, length bs = k ∧ NoDup bs ∧
        (∀ b, b ∈ bs → 23 <= b < n ∧ bit (m_bb m) b = false) ∧
        meta_ok m' ∧ m_ib m' = m_ib m ∧
        (∀ x, 0 <= x → bit (m_bb m') x = bool_decide (x ∈ bs) || bit (m_bb m) x) ∧
        inode_ok fi' ∧ i_size fi' = i_size fi ∧ i_mode fi' = i_mode fi ∧
        (∀ j, (j < 12)%nat → i_block fi' j = if decide (bi <= j < bi + k)%nat then nth (j - bi) bs 0 else i_block fi j) ∧
        img_ok n img' ∧
        (∀ j, (j < k)%nat → img' (nth j bs 0) = chunk data (bi + j)) ∧ (∀ x, x ∉ bs → img' x = img x)
    end.
Proof.
  induction k as [|k IH]; intros m fi img bi Hm Hfi Himg Hbk; cbn [write_blocks].
  { eexists (Some (m, fi)), img. split; [apply runs_ret|]. exists []. split; [done|]. split; [constructor|].
    split; [set_solver|]. split; [done|]. split; [done|]. split; [done|]. split; [done|]. split; [done|]. split; [done|].
    split; [intros j Hj; by rewrite decide_False by lia|]. split; [done|]. split; [lia|done]. }
  pose proof Himg as [Hn _]. pose proof Hm as [Hsb Hmg Hgd Hbb Hib].
  unfold alloc_block, FIRST_DATA_BLOCK.
  destruct (alloc_bit_spec (Z.to_nat (n - (21 + 2))) (m_bb m) (21 + 2)) as [[E Hall]|(b & bb & E & Hb & Hfree & Hok & Hbit)];
    [done|lia|lia| |].
  { exists None, img. split; [eapply runs_bind; [by apply runs_lift|]; apply runs_fail|].
    rewrite free_blocks_none; [lia|]. intros j Hj. apply Hall. lia. }
  destruct (add_free_blocks_ok (m_sb m) (-1)) as (S1 & S2 & S3); [apply Hsb..|].
  destruct (gd_set_ok (m_gd m) 12 (get16 (m_gd m) 12 + -1)) as (G1 & G2); [apply Hgd..|lia|].
  set (m1 := Meta (add_free_blocks (m_sb m) (-1)) (gd_add_free_blocks (m_gd m) (-1)) bb (m_ib m)).
  assert (meta_ok m1) as Hm1 by (split; simpl; [done|by rewrite S3|done|done|done]).
  destruct (inode_ok_set_block fi bi b) as (F1 & F2 & F3); [done|lia|].
  destruct (chunk_ok data bi Hdata) as [Hcl Hcb].
  destruct (IH m1 (set_i_block fi bi b) (wr img b (chunk data bi)) (bi + 1)%nat) as (r & img' & Hr & Hpost);
    [done|done|by apply img_ok_wr|lia|].
  exists r, img'. split.
  { eapply runs_bind; [by apply runs_lift|]. eapply runs_bind; [apply runs_write; [lia|exact Hcl|exact Hcb]|]. exact Hr. }
  destruct r as [[m' fi']|].
  2: { pose proof (free_blocks_take n (m_bb m) bb b ltac:(lia) Hbit). simpl in Hpost. lia. }
  destruct Hpost as (bs & B1 & B2 & B3 & B4 & B5 & B6 & B7 & B8 & B9 & B10 & B11 & B12 & B13).
  assert (b ∉ bs) as Hbn.
  { intros Hin. destruct (B3 b Hin) as [_ Hf]. simpl in Hf. rewrite Hbit in Hf by lia.
    by rewrite bool_decide_true in Hf. }
  exists (b :: bs). split; [simpl; lia|]. split; [by constructor|]. split.
  { intros x [->|Hx]%elem_of_cons; [split; [lia|done]|]. destruct (B3 x Hx) as [Hxr Hf]. split; [done|].
    simpl in Hf. rewrite Hbit in Hf by lia. by apply orb_false_iff in Hf as [_ ?]. }
  split; [done|]. split; [done|]. split.
  { intros x Hx. rewrite B6 by done. simpl. rewrite Hbit by done. rewrite orb_assoc. f_equal.
    apply eq_true_iff_eq. rewrite orb_true_iff, !bool_decide_eq_true, elem_of_cons. naive_solver. }
  split; [done|]. split; [congruence|]. split; [congruence|]. split.
  { intros j Hj. rewrite B10 by done. destruct (decide (j = bi)) as [->|].
    - rewrite decide_False, decide_True, Nat.sub_diag by lia. rewrite i_block_set by (done || lia). by rewrite decide_True.
    - destruct (decide (bi + 1 <= j < bi + 1 + k)%nat).
      + rewrite decide_True by lia. replace (j - bi)%nat with (Datatypes.S (j - (bi + 1))) by lia. done.
      + rewrite decide_False by lia. rewrite i_block_set by (done || lia). by rewrite decide_False. }
  split; [done|]. split.
  { intros [|j] Hj; simpl nth.
    - rewrite Nat.add_0_r, B13 by done. apply wr_same.
    - rewrite B12 by lia. f_equal. lia. }
  intros x Hx. apply not_elem_of_cons in Hx as [? ?]. rewrite B13 by done. by apply wr_other.
Qed.
End filling.
End Ext2Alloc.
