(* ===== verification/Ext2Spec.v ===== *)
(** Correctness of the ext2 volume.  [fs_wf] is the invariant of a disk image:
    every inode in use is a directory of one block of entries or a regular
    file of at most 12 blocks, its blocks are marked in the block bitmap and
    belong to no other inode, and directory entries name inodes in use.
    Theorems: formatting establishes the invariant; writing a file that
    reports success keeps it, makes the file readable with exactly the bytes
    written, from any offset, and changes no other file; searching a path in
    the image is a function of the directories. *)
From stdpp Require Import base numbers list sets strings.
From S2P Require Import Prelude Bitmap Memory Path Vol Ext2 Ext2Dir Ext2Disk Ext2Alloc.
Open Scope Z_scope.

Module Ext2Spec.
Import Path.Path Vol.Vol Ext2.Ext2 Ext2Dir.Ext2Dir Ext2Disk.Ext2Disk Ext2Alloc.Ext2Alloc.

(** an inode in use according to the inode bitmap *)
Definition in_use (ib : list Z) (k : Z) : Prop := (k = 2 ∨ 11 <= k <= 128) ∧ bit ib (k - 1) = true.
(** The invariant with the bitmaps as arguments and without the inode [X],
    which a writer is about to replace. *)
Record fs_inv (n : Z) (img : image) (bb ib : list Z) (X : option Z) : Prop := {
  fi_img : img_ok n img;
  fi_root : in_use ib 2 ∧ X ≠ Some 2 ∧ is_dir_mode (inode img 2) = true;
  fi_size : ∀ k, in_use ib k → X ≠ Some k → 0 <= i_size (inode img k) <= 12288;
  fi_kind : ∀ k, in_use ib k → X ≠ Some k →
    (is_dir_mode (inode img k) = true ∧ i_size (inode img k) = 1024) ∨ is_reg_mode (inode img k) = true;
  fi_blk : ∀ k j, in_use ib k → X ≠ Some k → (j < nblk (inode img k))%nat →
    21 <= i_block (inode img k) j < n ∧ bit bb (i_block (inode img k) j) = true;
  fi_inj : ∀ k k' j j', in_use ib k → X ≠ Some k → in_use ib k' → X ≠ Some k' →
    (j < nblk (inode img k))%nat → (j' < nblk (inode img k'))%nat →
    i_block (inode img k) j = i_block (inode img k') j' → k = k' ∧ j = j';
  fi_dir : ∀ k, in_use ib k → X ≠ Some k → is_dir_mode (inode img k) = true →
    ∃ es, dir_rep (img (i_block (inode img k) 0)) es ∧ ∀ i nm, (i, nm) ∈ es → in_use ib i
}.
Record fs_wf (n : Z) (img : image) : Prop := {
  fw_magic : s_magic (img 1) = EXT2_SUPER_MAGIC;
  fw_inv : fs_inv n img (img 3) (img 4) None
}.

Section basics.
Implicit Types (img : image) (k : Z).
Lemma in_use_ok ib k : in_use ib k → ino_ok k.
Proof. intros [H _]. unfold ino_ok. lia. Qed.
Lemma nblk_dir i : i_size i = 1024 → nblk i = 1%nat.
Proof. intros E. unfold nblk, nblocks_of, CHASEROS_BLK. rewrite E. done. Qed.
Lemma dir_not_reg i : is_dir_mode i = true → is_reg_mode i = false.
Proof. unfold is_dir_mode, is_reg_mode. intros E. breflect. rewrite E. done. Qed.
Lemma dir_block n img bb ib X k : fs_inv n img bb ib X → in_use ib k → X ≠ Some k →
  is_dir_mode (inode img k) = true →
  (0 < nblk (inode img k))%nat ∧ 21 <= i_block (inode img k) 0 < n ∧ bit bb (i_block (inode img k) 0) = true.
Proof.
  intros Hf Hk HX Hd. destruct (fi_kind _ _ _ _ _ Hf k Hk HX) as [[_ Hs]|Hr].
  - pose proof (nblk_dir _ Hs) as Hn. split; [lia|]. apply (fi_blk _ _ _ _ _ Hf); [done..|lia].
  - rewrite dir_not_reg in Hr by done. done.
Qed.
(** the premises of the path walk *)
Lemma wf_nav n img : fs_wf n img → ∀ k, in_use (img 4) k → is_dir_mode (inode img k) = true →
  0 <= i_block (inode img k) 0 < n ∧
  ∃ es, dir_rep (img (i_block (inode img k) 0)) es ∧ ∀ i nm, (i, nm) ∈ es → in_use (img 4) i.
Proof.
  intros [_ Hf] k Hk Hd. destruct (dir_block _ _ _ _ _ k Hf Hk) as (_ & Hb & _); [done|done|].
  split; [lia|]. by apply (fi_dir _ _ _ _ _ Hf).
Qed.
Lemma resolve_app img cs : ∀ k cs', resolve img k (cs ++ cs') = k' ← resolve img k cs; resolve img k' cs'.
Proof.
  induction cs as [|c cs IH]; intros k cs'; [done|]. cbn [app resolve].
  destruct (is_dir_mode (inode img k)); [|done]. destruct (dir_find _ c) as [k1|]; [|done].
  by destruct (k1 =? 0).
Qed.
(** directories that only gain entries *)
Definition dirs_grow (ib : list Z) img img' : Prop := ∀ k, in_use ib k → is_dir_mode (inode img k) = true →
  inode img' k = inode img k ∧
  ∀ c i, dir_find (img (i_block (inode img k) 0)) c = Some i →
         dir_find (img' (i_block (inode img k) 0)) c = Some i.
Lemma resolve_mono n img img' : fs_wf n img → dirs_grow (img 4) img img' → ∀ cs k t, in_use (img 4) k →
  resolve img k cs = Some t → resolve img' k cs = Some t.
Proof.
  intros Hf Hg. induction cs as [|c cs IH]; intros k t Hk E; cbn [resolve] in *; [done|].
  destruct (is_dir_mode (inode img k)) eqn:Ed; [|done]. destruct (dir_find _ c) as [k1|] eqn:Ef; [|done].
  destruct (Hg k Hk Ed) as [-> Hfind]. rewrite Ed, (Hfind _ _ Ef). destruct (k1 =? 0); [done|].
  apply IH; [|done]. by apply (dir_find_live n img (in_use (img 4)) (wf_nav n img Hf) k c).
Qed.
End basics.

(** ** The commit of a writer: data blocks, metadata, inode *)
(** the image after [write_meta] *)
Definition put_meta (img : image) (m : meta) : image :=
  wr (wr (wr (wr img 1 (m_sb m)) 2 (m_gd m ++ zeros (1024 - 32))) 3 (m_bb m)) 4 (m_ib m).
Section commit.
Context {S : Type} `{BlocksLaws S}.
Context (n : Z).
Implicit Types (img : image) (m : meta).
Lemma gd_block_ok m : meta_ok m → length (m_gd m ++ zeros (1024 - 32)) = 1024%nat ∧ bytes (m_gd m ++ zeros (1024 - 32)).
Proof.
  intros [_ _ [Hl Hb] _ _]. rewrite length_app, length_zeros, Hl. split; [done|].
  apply Forall_app. split; [done|apply bytes_zeros].
Qed.
Lemma runs_write_meta img m : 256 <= n → meta_ok m → runs n (write_meta m) img (Some tt) (put_meta img m).
Proof.
  intros Hn Hm. destruct (gd_block_ok m Hm) as [G1 G2]. destruct Hm as [[? ?] ? ? [? ?] [? ?]].
  unfold write_meta, write_super, write_gd, put_meta. repeat (eapply runs_bind; [apply runs_write; (done || lia)|]).
  apply runs_write; (done || lia).
Qed.
Lemma put_meta_ok img m : img_ok n img → meta_ok m → img_ok n (put_meta img m).
Proof.
  intros Hi Hm. destruct (gd_block_ok m Hm) as [G1 G2]. destruct Hm as [[? ?] ? ? [? ?] [? ?]].
  unfold put_meta. by repeat apply img_ok_wr.
Qed.
Lemma put_meta_other img m x : 5 <= x → put_meta img m x = img x.
Proof. intros Hx. unfold put_meta. rewrite !wr_other by lia. done. Qed.
Lemma put_meta_meta img m : put_meta img m 1 = m_sb m ∧ put_meta img m 3 = m_bb m ∧ put_meta img m 4 = m_ib m.
Proof. unfold put_meta. rewrite !wr_same, !wr_other, !wr_same by lia. done. Qed.
Lemma inode_put_meta img m k : ino_ok k → inode (put_meta img m) k = inode img k.
Proof. intros Hk. destruct (inode_range k Hk). unfold inode. by rewrite put_meta_other by lia. Qed.

(** a new contents for inode [k], whose blocks [fi] are fresh *)
Context (img1 img2 : image) (m1 m2 : meta) (k : Z) (fi : list Z) (bs : list Z).
Context (Hinv : fs_inv n img1 (m_bb m1) (m_ib m1) (Some k)) (Hk : 11 <= k <= 128) (Hkb : bit (m_ib m1) (k - 1) = true).
Context (Hm2 : meta_ok m2) (Hib : m_ib m2 = m_ib m1) (Hfi : inode_ok fi) (Himg2 : img_ok n img2).
Context (Hbs : ∀ b, b ∈ bs → 23 <= b < n ∧ bit (m_bb m1) b = false) (Hnd : NoDup bs).
Context (Hbb : ∀ x, 0 <= x → bit (m_bb m2) x = bool_decide (x ∈ bs) || bit (m_bb m1) x).
Context (Hsame : ∀ x, x ∉ bs → img2 x = img1 x).
Context (Hsize : 0 <= i_size fi <= 12288) (Hlen : length bs = nblk fi).
Context (Hblk : ∀ j, (j < nblk fi)%nat → i_block fi j = nth j bs 0).
Notation img3 := (put_inode (put_meta img2 m2) k fi).
Lemma commit_ino_ok : ino_ok k.
Proof. unfold ino_ok. lia. Qed.
Lemma commit_img : img_ok n img3.
Proof. apply img_ok_put; [by apply put_meta_ok|apply commit_ino_ok|apply Hfi|apply Hfi]. Qed.
Lemma commit_meta : img3 1 = m_sb m2 ∧ img3 3 = m_bb m2 ∧ img3 4 = m_ib m1.
Proof.
  rewrite !put_inode_other by (apply commit_ino_ok || lia). destruct (put_meta_meta img2 m2) as (-> & -> & ->). done.
Qed.
Lemma commit_data x : 21 <= x → x ∉ bs → img3 x = img1 x.
Proof. intros Hx Hb. rewrite put_inode_other by (apply commit_ino_ok || lia). rewrite put_meta_other by lia. auto. Qed.
Lemma commit_inode k' : ino_ok k' → inode img3 k' = if decide (k' = k) then fi else inode img1 k'.
Proof.
  intros Hk'. rewrite (inode_put n) by (done || apply commit_ino_ok || (by apply put_meta_ok) || apply Hfi).
  case_decide; [done|]. rewrite inode_put_meta by done. destruct (inode_range k' Hk') as [Hr _]. unfold inode.
  rewrite Hsame; [done|]. intros Hin. destruct (Hbs _ Hin). lia.
Qed.
(** a block of another inode is not one of the fresh ones *)
Lemma old_block_fresh k' j : in_use (m_ib m1) k' → k' ≠ k → (j < nblk (inode img1 k'))%nat →
  i_block (inode img1 k') j ∉ bs.
Proof.
  intros Hu Hne Hj Hin. destruct (Hbs _ Hin) as [_ Hf].
  destruct (fi_blk _ _ _ _ _ Hinv k' j Hu ltac:(congruence) Hj) as [_ Ht]. congruence.
Qed.
Lemma nth_fresh j : (j < nblk fi)%nat → nth j bs 0 ∈ bs.
Proof. intros Hj. apply list_elem_of_In, nth_In. lia. Qed.
Lemma commit_wf : is_reg_mode fi = true → fs_wf n img3.
Proof.
  intros Hreg. destruct commit_meta as (M1 & M3 & M4). split; [rewrite M1; apply Hm2|]. rewrite M3, M4.
  destruct Hinv as [I1 (I2 & I2' & I2'') I3 I4 I5 I6 I7]. pose proof (in_use_ok _ _ I2) as Hi2.
  assert (∀ k', in_use (m_ib m1) k' → ino_ok k') as Hok by apply in_use_ok.
  assert (2 ≠ k) as H2k by congruence. split.
  - apply commit_img.
  - split; [done|]. split; [done|]. rewrite commit_inode, decide_False by done. done.
  - intros k' Hu _. rewrite commit_inode by auto. case_decide; [done|]. apply I3; [done|congruence].
  - intros k' Hu _. rewrite commit_inode by auto. case_decide; [by right|]. apply I4; [done|congruence].
  - intros k' j Hu _. rewrite commit_inode by auto. case_decide as Hd.
    + intros Hj. rewrite Hblk by done. pose proof (nth_fresh j Hj) as Hin. destruct (Hbs _ Hin) as [? _].
      split; [lia|]. rewrite Hbb by lia. by rewrite bool_decide_true.
    + intros Hj. destruct (I5 k' j Hu ltac:(congruence) Hj) as [? Hb]. split; [done|].
      rewrite Hbb by lia. by rewrite Hb, orb_true_r.
  - intros k1 k2 j1 j2 Hu1 _ Hu2 _. rewrite !commit_inode by auto. repeat case_decide; subst.
    + intros Hj1 Hj2 E. split; [done|]. rewrite !Hblk in E by done. by apply (NoDup_nth bs 0) in E; [|apply NoDup_ListNoDup|lia|lia].
    + intros Hj1 Hj2 E. exfalso. apply (old_block_fresh k2 j2 Hu2 ltac:(done) Hj2). rewrite <-E, Hblk by done. by apply nth_fresh.
    + intros Hj1 Hj2 E. exfalso. apply (old_block_fresh k1 j1 Hu1 ltac:(done) Hj1). rewrite E, Hblk by done. by apply nth_fresh.
    + apply I6; congruence || done.
  - intros k' Hu _. rewrite commit_inode by auto. case_decide as Hd.
    + intros Hdir. rewrite dir_not_reg in Hreg by done. done.
    + intros Hdir. destruct (dir_block _ _ _ _ _ k' Hinv Hu ltac:(congruence) Hdir) as (Hj & Hb & _).
      rewrite commit_data; [|lia|by apply old_block_fresh]. apply I7; [done|congruence|done].
Qed.
End commit.

(** ** The first half of the writer: choosing the inode *)
Lemma concat_chunks data k : concat (chunk data <$> seq 0 k) = take (1024 * k) data ++ zeros (1024 * k - length data).
Proof.
  induction k as [|k IH].
  { rewrite Nat.mul_0_r, take_0. done. }
  rewrite seq_S, fmap_app, concat_app, IH. cbn [fmap list_fmap concat Nat.add]. rewrite app_nil_r.
  replace (1024 * Datatypes.S k)%nat with (1024 * k + 1024)%nat by lia.
  rewrite <-(take_take_drop data (1024 * k) 1024), <-!app_assoc. unfold chunk, slice. unfold zeros. f_equal.
  destruct (decide (length data <= 1024 * k)%nat) as [Hl|Hl].
  - rewrite drop_ge, !take_nil, !app_nil_l by lia. change (length (@nil Z)) with 0%nat.
    rewrite <-replicate_add. f_equal. lia.
  - replace (1024 * k - length data)%nat with 0%nat by lia. change (replicate 0 0) with (@nil Z). rewrite app_nil_l. do 2 f_equal.
    rewrite length_take, length_drop. lia.
Qed.
(** reading the metadata *)
Definition meta_of (img : image) : meta := Meta (img 1) (take 32 (img 2)) (img 3) (img 4).
Lemma meta_of_ok n img : fs_wf n img → meta_ok (meta_of img).
Proof.
  intros [Hmg Hf]. destruct (fi_img _ _ _ _ _ Hf) as [Hn Hi]. split; simpl.
  - apply Hi. lia.
  - done.
  - destruct (Hi 2) as [Hl Hb]; [lia|]. rewrite length_take, Hl. split; [done|]. by apply Forall_take.
  - split; apply Hi; lia.
  - split; apply Hi; lia.
Qed.
Lemma runs_read_meta {S} `{BlocksLaws S} n img : fs_wf n img → runs n read_meta img (Some (meta_of img)) img.
Proof.
  intros [Hmg Hf]. destruct (fi_img _ _ _ _ _ Hf) as [Hn Hi]. unfold read_meta, read_super, read_gd.
  eapply runs_bind.
  { eapply runs_bind; [apply runs_read; lia|]. rewrite Hmg. apply runs_ret. }
  eapply runs_bind.
  { eapply runs_bind; [apply runs_read; lia|]. apply runs_ret. }
  eapply runs_bind; [apply runs_read; lia|]. eapply runs_bind; [apply runs_read; lia|]. apply runs_ret.
Qed.

(** what the first half leaves: an image [img1] and metadata [m1] in which
    everything but inode [k] is as in [img], and directory [p] maps [base] to
    [k] *)
Record opened (n : Z) (img img1 : image) (m1 : meta) (k p : Z) (base : list Z) : Prop := {
  op_meta : meta_ok m1;
  op_ino : 11 <= k <= 128 ∧ bit (m_ib m1) (k - 1) = true;
  op_inv : fs_inv n img1 (m_bb m1) (m_ib m1) (Some k);
  op_not_dir : in_use (img 4) k → is_dir_mode (inode img k) = false;
  op_mono : ∀ k', in_use (img 4) k' → in_use (m_ib m1) k';
  op_inode : ∀ k', ino_ok k' → inode img1 k' = inode img k';
  op_dirs : ∀ k' c i, in_use (img 4) k' → is_dir_mode (inode img k') = true →
    dir_find (img (i_block (inode img k') 0)) c = Some i → dir_find (img1 (i_block (inode img k') 0)) c = Some i;
  op_data : ∀ k' j, in_use (img 4) k' → is_reg_mode (inode img k') = true → (j < nblk (inode img k'))%nat →
    img1 (i_block (inode img k') j) = img (i_block (inode img k') j);
  op_found : dir_find (img1 (i_block (inode img p) 0)) base = Some k;
  op_free : le (free_blocks n (img 3)) (free_blocks n (m_bb m1));
  op_only : ∀ k' c i, in_use (img 4) k' → is_dir_mode (inode img k') = true →
    dir_find (img1 (i_block (inode img k') 0)) c = Some i →
    dir_find (img (i_block (inode img k') 0)) c = Some i ∨ (k' = p ∧ c = base ∧ i = k);
  op_was : in_use (img 4) k → dir_find (img (i_block (inode img p) 0)) base = Some k
}.
(** an entry for [base] fits in the directory block, and an inode is free *)
Definition can_create (img : image) (p : Z) (base : list Z) : Prop :=
  (∃ j, 11 <= j < 128 ∧ bit (img 4) j = false) ∧
  ∃ es, dir_rep (img (i_block (inode img p) 0)) es ∧
    Z.of_nat (length (encs es)) + rec_len (Z.of_nat (length base)) <= 1024.

Section first_half.
Context {S : Type} `{BlocksLaws S}.
Context (n : Z) (img : image) (Hwf : fs_wf n img).
Context (p : Z) (base : list Z) (Hp : in_use (img 4) p) (Hpd : is_dir_mode (inode img p) = true).
Lemma wf_img : img_ok n img.
Proof. apply Hwf. Qed.
Lemma open_existing_spec k : in_use (img 4) k → is_reg_mode (inode img k) = true →
  dir_find (img (i_block (inode img p) 0)) base = Some k →
  ∃ m1 fi img1, runs n (open_existing (meta_of img) k) img (Some (m1, k, fi)) img1 ∧
    inode_ok fi ∧ opened n img img1 m1 k p base.
Proof.
  intros Hk Hreg Hfind. pose proof Hwf as [Hmg Hf]. pose proof wf_img as Himg. pose proof Himg as [Hn Hi].
  pose proof (in_use_ok _ _ Hk) as Hko. destruct (meta_of_ok n img Hwf) as [[Hs1 Hs2] Hs3 [Hg1 Hg2] Hbb Hib].
  pose proof (inode_facts n img k Himg Hko) as Hino.
  assert (k ≠ 2) as Hk2. { intros ->. destruct Hf as [_ (_ & _ & Hd) _ _ _ _ _]. rewrite dir_not_reg in Hreg by done. done. }
  destruct (free_inode_blocks_spec (img 1) (take 32 (img 2)) (img 3) (inode img k))
    as (sb' & gd' & bb' & fi' & Efree & A1 & A2 & A3 & A4 & A5 & A6 & A7 & A8); try done.
  { by apply (fi_size _ _ _ _ _ Hf). }
  { intros j Hj. destruct (fi_blk _ _ _ _ _ Hf k j Hk ltac:(done) Hj). lia. }
  exists (Meta sb' gd' bb' (img 4)), fi', (wr img 3 bb').
  assert (∀ k', ino_ok k' → inode (wr img 3 bb') k' = inode img k') as Hin by (intros; apply inode_wr; [done|lia]).
  assert (∀ k', k' ≠ k → in_use (img 4) k' → ∀ j, (j < nblk (inode img k'))%nat →
    bit bb' (i_block (inode img k') j) = true) as Hkeep.
  { intros k' Hne Hu j Hj. destruct (fi_blk _ _ _ _ _ Hf k' j Hu ltac:(done) Hj) as [Hr Hb].
    rewrite A8, Hb, andb_true_r by lia. apply negb_true_iff, not_true_iff_false. rewrite owns_true.
    intros (j' & Hj' & E). apply Hne. symmetry.
    apply (fi_inj _ _ _ _ _ Hf k k' j' j Hk ltac:(done) Hu ltac:(done)); [lia|done|done]. }
  split.
  { unfold open_existing. eapply runs_bind; [by apply runs_read_inode|]. eapply runs_bind; [by apply runs_lift|].
    cbn iota. eapply runs_bind; [apply runs_write; [lia|apply A6|apply A6]|]. apply runs_ret. }
  split; [done|]. split; simpl.
  - split; simpl; try done. by rewrite A3.
  - destruct Hk as [[?|?] ?]; [done|]. done.
  - destruct Hf as [I1 (I2 & I2' & I2'') I3 I4 I5 I6 I7]. pose proof (in_use_ok) as Hok. split.
    + by apply img_ok_wr; [|apply A6..].
    + split; [done|]. split; [congruence|]. by rewrite Hin by eauto.
    + intros k' Hu HX. rewrite Hin by eauto. auto.
    + intros k' Hu HX. rewrite Hin by eauto. auto.
    + intros k' j Hu HX. rewrite Hin by eauto. intros Hj. split; [by apply I5|]. apply Hkeep; congruence || done.
    + intros k1 k2 j1 j2 Hu1 _ Hu2 _. rewrite !Hin by eauto. by apply I6.
    + intros k' Hu HX. rewrite Hin by eauto. intros Hd.
      destruct (dir_block _ _ _ _ _ k' (fw_inv _ _ Hwf) Hu ltac:(done) Hd) as (_ & Hb & _).
      rewrite wr_other by lia. by apply I7.
  - intros _. destruct (is_dir_mode (inode img k)) eqn:Ed; [|done]. rewrite dir_not_reg in Hreg by done. done.
  - done.
  - done.
  - intros k' c i Hu Hd. destruct (dir_block _ _ _ _ _ k' Hf Hu ltac:(done) Hd) as (_ & Hb & _). by rewrite wr_other by lia.
  - intros k' j Hu _ Hj. destruct (fi_blk _ _ _ _ _ Hf k' j Hu ltac:(done) Hj). by rewrite wr_other by lia.
  - destruct (dir_block _ _ _ _ _ p Hf Hp ltac:(done) Hpd) as (_ & Hb & _). by rewrite wr_other by lia.
  - apply free_blocks_mono. intros x Hx Hb. rewrite A8, Hb, andb_false_r by lia. done.
  - intros k' c i Hu Hd. destruct (dir_block _ _ _ _ _ k' Hf Hu ltac:(done) Hd) as (_ & Hb & _).
    rewrite wr_other by lia. by left.
  - done.
Qed.

(** the entry that [add_entry] appends *)
Lemma add_entry_spec (img0 : image) es ino : img_ok n img0 → 0 <= i_block (inode img p) 0 < n →
  dir_rep (img0 (i_block (inode img p) 0)) es → ent_ok (ino, base) →
  (runs n (add_entry (inode img p) (img0 (i_block (inode img p) 0)) ino base) img0 None img0 ∧
   1024 < Z.of_nat (length (encs es)) + rec_len (Z.of_nat (length base))) ∨
  ∃ blk, runs n (add_entry (inode img p) (img0 (i_block (inode img p) 0)) ino base) img0 (Some tt)
           (wr img0 (i_block (inode img p) 0) blk) ∧ dir_rep blk (es ++ [(ino, base)]).
Proof.
  intros Hi0 Hb Hrep He. pose proof He as (_ & _ & Hl). cbn [snd] in Hl.
  destruct (rec_len_spec (length base)) as [Er Hr]; [lia|].
  unfold add_entry.
  assert (u16 (Z.land (8 + u16 (Z.of_nat (length base)) + 3) (Z.lnot 3)) = rec_len (Z.of_nat (length base))) as Eneed.
  { unfold rec_len. rewrite (u16_small (Z.of_nat (length base))), (u16_small (8 + _)) by lia. done. }
  destruct (Z.ltb_spec 1024 (Z.of_nat (length (encs es)) + rec_len (Z.of_nat (length base)))) as [Hover|Hfit].
  - left. split; [|done]. eapply runs_bind; [by apply runs_lift, dir_end_spec|]. cbv zeta. rewrite Eneed.
    rewrite (proj2 (Z.ltb_lt _ _)) by lia. apply runs_fail.
  - right. pose proof (length_enc _ He) as Hle. cbn [snd] in Hle.
    destruct (dirent_put_spec _ es ino base Hrep He) as (blk & Eput & Hrep'); [lia|].
    exists blk. split; [|done]. eapply runs_bind; [by apply runs_lift, dir_end_spec|]. cbv zeta. rewrite Eneed.
    rewrite (proj2 (Z.ltb_ge _ _)) by lia. eapply runs_bind; [by apply runs_lift|]. cbn iota.
    destruct (dir_rep_length _ _ Hrep') as [? ?]. by apply runs_write.
Qed.
(** an entry for a fresh inode [k] in directory [p] *)
Lemma opened_new k ib1 bm1 blk es : bit (img 4) (k - 1) = false → 11 <= k <= 128 →
  (∀ j, 0 <= j → bit ib1 j = bool_decide (j = k - 1) || bit (img 4) j) → meta_ok bm1 →
  m_bb bm1 = img 3 → m_ib bm1 = ib1 → dir_rep (img (i_block (inode img p) 0)) es →
  dir_rep blk (es ++ [(k, base)]) → assoc es base = None →
  opened n img (wr img (i_block (inode img p) 0) blk) bm1 k p base.
Proof.
  intros Hfree Hk Hib1 Hm1 Ebb Eib Hrep Hrep' Hnone. pose proof Hwf as [Hmg Hf]. pose proof wf_img as Himg.
  destruct (dir_block _ _ _ _ _ p Hf Hp ltac:(done) Hpd) as (Hp0 & Hpb & Hpbit).
  set (pb := i_block (inode img p) 0) in *. destruct (dir_rep_length _ _ Hrep') as [Hbl Hbb].
  assert (∀ k', ino_ok k' → inode (wr img pb blk) k' = inode img k') as Hin by (intros; apply inode_wr; [done|lia]).
  assert (∀ k', in_use ib1 k' → k' ≠ k → in_use (img 4) k') as Hold.
  { intros k' [H1 H2] Hne. split; [done|]. rewrite Hib1 in H2 by lia. by rewrite bool_decide_false in H2 by lia. }
  assert (∀ k', in_use (img 4) k' → in_use ib1 k' ∧ k' ≠ k) as Hnew.
  { intros k' [H1 H2]. split; [split; [done|]|intros ->; congruence]. rewrite Hib1 by lia. by rewrite H2, orb_true_r. }
  destruct (Hnew p Hp) as [_ Hpk].
  assert (∀ k', in_use (img 4) k' → is_dir_mode (inode img k') = true → ∃ es1, dir_rep (img (i_block (inode img k') 0)) es1 ∧
    ((k' = p ∧ es1 = es ∧ wr img pb blk (i_block (inode img k') 0) = blk) ∨
     (wr img pb blk (i_block (inode img k') 0) = img (i_block (inode img k') 0))) ∧
    ∀ i nm, (i, nm) ∈ es1 → in_use (img 4) i) as Hdirs.
  { intros k' Hu Hd. destruct (fi_dir _ _ _ _ _ Hf k' Hu ltac:(done) Hd) as (es1 & Hr1 & He1).
    destruct (decide (k' = p)) as [->|Hne].
    - destruct (fi_dir _ _ _ _ _ Hf p Hu ltac:(done) Hd) as (es2 & Hr2 & He2). exists es. split; [done|].
      split; [left; split; [done|]; split; [done|apply wr_same]|].
      assert (es = es2) as ->; [|done]. by apply (dir_rep_inj (img pb)).
    - exists es1. split; [done|]. split; [|done]. right. apply wr_other. intros E.
      destruct (dir_block _ _ _ _ _ k' Hf Hu ltac:(done) Hd) as (Hj & _ & _).
      apply Hne. eapply (fi_inj _ _ _ _ _ Hf k' p 0%nat 0%nat); done. }
  split; rewrite ?Eib, ?Ebb.
  - done.
  - split; [done|]. rewrite Hib1 by lia. by rewrite bool_decide_true.
  - destruct Hf as [I1 (I2 & I2' & I2'') I3 I4 I5 I6 I7]. pose proof in_use_ok as Hok. split.
    + by apply img_ok_wr.
    + split; [by apply Hnew|]. split; [destruct (Hnew 2 I2) as [_ ?]; congruence|]. by rewrite Hin by eauto.
    + intros k' Hu HX. assert (k' ≠ k) by congruence. rewrite Hin by eauto. apply I3; auto.
    + intros k' Hu HX. assert (k' ≠ k) by congruence. rewrite Hin by eauto. apply I4; auto.
    + intros k' j Hu HX. assert (k' ≠ k) by congruence. rewrite Hin by eauto. intros. apply I5; auto.
    + intros k1 k2 j1 j2 Hu1 HX1 Hu2 HX2. rewrite !Hin by eauto. apply I6; auto; apply Hold; congruence.
    + intros k' Hu HX. assert (k' ≠ k) by congruence. rewrite Hin by eauto. intros Hd.
      destruct (Hdirs k' (Hold _ Hu ltac:(done)) Hd) as (es1 & Hr1 & [(-> & -> & ->)| ->] & He1).
      * exists (es ++ [(k, base)]). split; [done|]. intros i nm [Hi|Hi]%elem_of_app.
        -- apply Hnew. eauto.
        -- apply list_elem_of_singleton in Hi as [= -> ->]. split; [lia|]. rewrite Hib1 by lia. by rewrite bool_decide_true.
      * exists es1. split; [done|]. intros i nm Hi. apply Hnew. eauto.
  - intros [_ Hb]. congruence.
  - intros k' Hu. by apply Hnew.
  - done.
  - intros k' c i Hu Hd Hfind. destruct (Hdirs k' Hu Hd) as (es1 & Hr1 & [(-> & -> & ->)| ->] & _); [|done].
    rewrite (dir_find_spec _ _ _ Hr1) in Hfind. rewrite (dir_find_spec _ _ _ Hrep'), assoc_app. by rewrite Hfind.
  - intros k' j Hu Hreg Hj. apply wr_other. intros E.
    destruct (fi_inj _ _ _ _ _ Hf k' p j 0%nat Hu ltac:(done) Hp ltac:(done) Hj Hp0 E) as [-> _].
    rewrite dir_not_reg in Hreg by done. done.
  - fold pb. rewrite wr_same. rewrite (dir_find_spec _ _ _ Hrep'), assoc_app, Hnone. simpl. by rewrite str_eqb_refl.
  - done.
  - intros k' c i Hu Hd. destruct (Hdirs k' Hu Hd) as (es1 & Hr1 & [(-> & -> & ->)| ->] & _); [|by left].
    rewrite (dir_find_spec _ _ _ Hrep'), assoc_app, (dir_find_spec _ _ _ Hr1).
    destruct (assoc es c); [by left|]. cbn [assoc]. destruct (str_eqb _ _) eqn:E; [|done].
    apply str_eqb_eq in E as ->. intros [= ->]. by right.
  - intros [_ Hb]. congruence.
Qed.

Lemma create_new_spec : is_cstr base → (0 < length base <= 127)%nat →
  dir_find (img (i_block (inode img p) 0)) base = None →
  ∃ r img1, runs n (create_new (meta_of img) (inode img p) (img (i_block (inode img p) 0)) base) img r img1 ∧
    match r with None => ¬ can_create img p base | Some (m1, k, fi) => inode_ok fi ∧ opened n img img1 m1 k p base end.
Proof.
  intros Hc Hl Hnone. pose proof Hwf as [Hmg Hf]. pose proof wf_img as Himg.
  destruct (meta_of_ok n img Hwf) as [[Hs1 Hs2] Hs3 [Hg1 Hg2] Hbb Hib].
  destruct (dir_block _ _ _ _ _ p Hf Hp ltac:(done) Hpd) as (_ & Hpb & _).
  destruct (fi_dir _ _ _ _ _ Hf p Hp ltac:(done) Hpd) as (es & Hrep & _).
  rewrite (dir_find_spec _ _ _ Hrep) in Hnone. unfold create_new.
  destruct (alloc_bit_spec 117 (img 4) 11) as [[E Hall]|(b & ib1 & E & Hb & Hfree & Hok & Hbit)]; [done|lia|lia| |].
  { exists None, img. split.
    - eapply runs_bind; [apply runs_lift; unfold alloc_inode; simpl m_ib; by rewrite E|]. apply runs_fail.
    - intros [(j & Hj & Hfr) _]. rewrite Hall in Hfr by lia. done. }
  destruct (add_free_inodes_ok (img 1) (-1)) as (S1 & S2 & S3); [done..|].
  destruct (gd_set_ok (take 32 (img 2)) 14 (get16 (take 32 (img 2)) 14 + -1)) as (G1 & G2); [done..|lia|].
  set (m1 := Meta (add_free_inodes (img 1) (-1)) (gd_add_free_inodes (take 32 (img 2)) (-1)) (img 3) ib1).
  assert (meta_ok m1) as Hm1 by (split; simpl; [done|by rewrite S3|done|done|done]).
  destruct (add_entry_spec img es (b + 1) Himg) as [[Hnoroom Hover]|(blk & Hadd & Hrep')]; [lia|done|split_and!; simpl; (done || lia)| |].
  - exists None, img. split; [|intros [_ (es' & Hrep' & Hfit)]; rewrite (dir_rep_inj _ _ _ Hrep Hrep') in Hover; lia].
    eapply runs_bind; [apply runs_lift; unfold alloc_inode; simpl m_ib; rewrite E; done|].
    cbn iota. by eapply runs_bind_none.
  - exists (Some (m1, b + 1, zeros 128)), (wr img (i_block (inode img p) 0) blk). split.
    + eapply runs_bind; [apply runs_lift; unfold alloc_inode; simpl m_ib; rewrite E; done|]. cbn iota.
      eapply runs_bind; [exact Hadd|]. apply runs_ret.
    + split; [split; [apply length_zeros|apply bytes_zeros]|].
      apply (opened_new (b + 1) ib1 m1 blk es); try done; try lia.
      * by replace (b + 1 - 1) with b by lia.
      * by replace (b + 1 - 1) with b by lia.
Qed.
End first_half.

(** ** The second half: blocks, metadata, inode *)
Section second_half.
Context {S : Type} `{BlocksLaws S}.
Context (n : Z) (img img1 : image) (m1 : meta) (k p : Z) (base data fi : list Z).
Context (Hwf : fs_wf n img) (Hop : opened n img img1 m1 k p base) (Hfi : inode_ok fi).
Context (Hdata : bytes data) (Hlen : Z.of_nat (length data) <= 12288).
Definition write_tail (m : meta) (ino : Z) (i : list Z) : est S unit :=
  '(m, i) ← write_blocks m (file_inode i (Z.of_nat (length data))) data n 0
              (Z.to_nat ((Z.of_nat (length data) + CHASEROS_BLK - 1) / CHASEROS_BLK));
  _ ← write_meta m;
  write_inode ino i.
(** the effect of a successful write on the image *)
Record written (img3 : image) : Prop := {
  wt_wf : fs_wf n img3;
  wt_data : is_reg_mode (inode img3 k) = true ∧ i_size (inode img3 k) = Z.of_nat (length data) ∧
    file_data img3 (inode img3 k) = data;
  wt_use : in_use (img3 4) k;
  wt_found : dir_find (img3 (i_block (inode img p) 0)) base = Some k;
  wt_grow : dirs_grow (img 4) img img3;
  wt_files : ∀ k', in_use (img 4) k' → is_reg_mode (inode img k') = true → k' ≠ k →
    inode img3 k' = inode img k' ∧ file_data img3 (inode img k') = file_data img (inode img k');
  wt_only : ∀ k' c i, in_use (img 4) k' → is_dir_mode (inode img k') = true →
    dir_find (img3 (i_block (inode img k') 0)) c = Some i →
    dir_find (img (i_block (inode img k') 0)) c = Some i ∨ (k' = p ∧ c = base ∧ i = k);
  wt_was : in_use (img 4) k → dir_find (img (i_block (inode img p) 0)) base = Some k
}.
(** the committed image is the one [written] describes *)
Lemma commit_written img2 m2 fi3 bs : meta_ok m2 → m_ib m2 = m_ib m1 → inode_ok fi3 → img_ok n img2 →
  (∀ b, b ∈ bs → 23 <= b < n ∧ bit (m_bb m1) b = false) → NoDup bs →
  (∀ x, 0 <= x → bit (m_bb m2) x = bool_decide (x ∈ bs) || bit (m_bb m1) x) →
  (∀ x, x ∉ bs → img2 x = img1 x) → i_size fi3 = Z.of_nat (length data) → length bs = nblk fi3 →
  (∀ j, (j < nblk fi3)%nat → i_block fi3 j = nth j bs 0) → is_reg_mode fi3 = true →
  (∀ j, (j < nblk fi3)%nat → img2 (nth j bs 0) = chunk data j) →
  in_use (img 4) p → is_dir_mode (inode img p) = true →
  written (put_inode (put_meta img2 m2) k fi3).
Proof.
  intros Hm2 Hib Hfi3 Himg2 Hbs Hnd Hbb Hsame Hsz Hbl Hblk Hreg Hch Hp Hpd.
  destruct Hop as [O1 [Hk Hkb] O3 O4 O5 O6 O7 O8 O9]. pose proof (fw_inv _ _ Hwf) as Hf.
  assert (Hwf3 := commit_wf n img1 img2 m1 m2 k fi3 bs O3 Hk Hm2 Hib Hfi3 Himg2 Hbs Hnd Hbb Hsame
                    ltac:(rewrite Hsz; lia) Hbl Hblk Hreg).
  assert (Hino := commit_inode n img1 img2 m1 m2 k fi3 bs Hk Hm2 Hfi3 Himg2 Hbs Hsame Hbl).
  assert (Hdat := commit_data img1 img2 m2 k fi3 bs Hk Hsame Hbl).
  destruct (commit_meta img2 m1 m2 k fi3 bs Hk Hib Hbl) as (_ & _ & M4).
  assert (Hold := old_block_fresh n img1 m1 k bs O3 Hbs).
  assert (ino_ok k) as Hko by (unfold ino_ok; lia). pose proof in_use_ok as Hok.
  assert (∀ j, (j < nblk fi3)%nat → put_inode (put_meta img2 m2) k fi3 (i_block fi3 j) = chunk data j) as Hnew.
  { intros j Hj. rewrite Hblk by done. assert (nth j bs 0 ∈ bs) as Hin by (apply list_elem_of_In, nth_In; lia).
    destruct (Hbs _ Hin). rewrite put_inode_other by (done || lia). rewrite put_meta_other by lia. by apply Hch. }
  assert (∀ k', in_use (img 4) k' → is_dir_mode (inode img k') = true → inode img1 k' = inode img k' ∧ k' ≠ k ∧
    21 <= i_block (inode img k') 0 ∧ i_block (inode img k') 0 ∉ bs) as Hdirs.
  { intros k' Hu Hd. assert (k' ≠ k) as Hne by (intros ->; rewrite O4 in Hd by done; done).
    destruct (dir_block _ _ _ _ _ k' Hf Hu ltac:(done) Hd) as (Hj & Hb & _). rewrite O6 by eauto.
    split; [done|]. split; [done|]. split; [lia|]. rewrite <-O6 by eauto. apply Hold; [by apply O5|done|]. by rewrite O6 by eauto. }
  set (img3 := put_inode (put_meta img2 m2) k fi3) in *. split.
  - done.
  - rewrite Hino, decide_True by done. split; [done|]. split; [done|]. unfold file_data, data_blocks.
    rewrite Hsz, Nat2Z.id. rewrite (list_fmap_ext _ (chunk data)).
    + rewrite concat_chunks. assert (length data <= 1024 * nblk fi3)%nat.
      { unfold nblk, nblocks_of, CHASEROS_BLK. rewrite Hsz, u32_small by lia. zdm. }
      rewrite (take_ge data) by lia. by rewrite take_app_length.
    + intros i j Hj. apply lookup_seq in Hj as [-> Hj]. rewrite Nat.add_0_l in *. by apply Hnew.
  - unfold in_use. rewrite M4. split; [lia|done].
  - destruct (Hdirs p Hp Hpd) as (_ & _ & Hb & Hn). by rewrite Hdat.
  - intros k' Hu Hd. destruct (Hdirs k' Hu Hd) as (E & Hne & Hb & Hn). rewrite Hino, decide_False, E by eauto.
    split; [done|]. intros c i Hc. rewrite Hdat by done. by apply O7.
  - intros k' Hu Hr Hne. rewrite Hino, decide_False, O6 by eauto. split; [done|]. unfold file_data, data_blocks. do 2 f_equal.
    apply list_fmap_ext. intros i j Hj. apply lookup_seq in Hj as [-> Hj]. rewrite Nat.add_0_l in *. rewrite Hdat.
    + by apply O8.
    + destruct (fi_blk _ _ _ _ _ Hf k' i Hu ltac:(done) Hj). lia.
    + rewrite <-O6 by eauto. apply Hold; [by apply O5|done|]. by rewrite O6 by eauto.
  - intros k' c i Hu Hd. destruct (Hdirs k' Hu Hd) as (_ & _ & Hb & Hn). rewrite Hdat by done.
    by apply (op_only _ _ _ _ _ _ _ Hop).
  - apply (op_was _ _ _ _ _ _ _ Hop).
Qed.
Lemma write_tail_spec : in_use (img 4) p → is_dir_mode (inode img p) = true →
  ∃ r img3, runs n (write_tail m1 k fi) img1 r img3 ∧
    match r with
    | Some _ => written img3
    | None => (free_blocks n (m_bb m1) < Z.to_nat ((Z.of_nat (length data) + CHASEROS_BLK - 1) / CHASEROS_BLK))%nat
    end.
Proof.
  intros Hp Hpd. pose proof (op_inv _ _ _ _ _ _ _ Hop) as Hinv. pose proof (fi_img _ _ _ _ _ Hinv) as Himg1.
  destruct (file_inode_ok fi (Z.of_nat (length data)) Hfi) as (F1 & F2 & F3 & F4); [lia|].
  set (fi2 := file_inode fi (Z.of_nat (length data))) in *.
  set (nb := Z.to_nat ((Z.of_nat (length data) + CHASEROS_BLK - 1) / CHASEROS_BLK)).
  assert (nb <= 12)%nat as Hnb by (unfold nb, CHASEROS_BLK; zdm).
  destruct (write_blocks_spec n data Hdata nb m1 fi2 img1 0) as (r & img2 & Hr & Hpost); [apply Hop|done|done|lia|].
  unfold write_tail. destruct r as [[m2 fi3]|]; [|exists None, img2; split; [by eapply runs_bind_none|done]].
  destruct Hpost as (bs & B1 & B2 & B3 & B4 & B5 & B6 & B7 & B8 & B9 & B10 & B11 & B12 & B13).
  assert (ino_ok k) as Hko by (destruct (op_ino _ _ _ _ _ _ _ Hop); unfold ino_ok; lia).
  exists (Some tt), (put_inode (put_meta img2 m2) k fi3). split.
  { eapply runs_bind; [exact Hr|]. cbn iota. eapply runs_bind; [apply runs_write_meta; [apply Himg1|done]|].
    apply runs_write_inode; [apply put_meta_ok; done|done|apply B7|apply B7]. }
  assert (nblk fi3 = nb) as Enb.
  { unfold nblk, nblocks_of. rewrite B8, F2. unfold nb. f_equal. unfold CHASEROS_BLK. rewrite u32_small by lia. done. }
  assert (is_reg_mode fi3 = true) as Hreg by (unfold is_reg_mode; rewrite B9; exact F3).
  apply (commit_written img2 m2 fi3 bs); try done; rewrite ?Enb; try lia.
  - intros j Hj. rewrite B10, decide_True, Nat.sub_0_r by lia. done.
  - intros j Hj. rewrite B12 by done. done.
Qed.
End second_half.

(** ** The whole writer and the reader *)
(** a write of [len] bytes to [base] in the directory at [segs] has what it
    needs *)
Definition can_write (n : Z) (img : image) (segs : list (list Z)) (base : list Z) (len : Z) : Prop :=
  ∃ p, resolve img 2 segs = Some p ∧ is_dir_mode (inode img p) = true ∧
    le (Z.to_nat ((len + CHASEROS_BLK - 1) / CHASEROS_BLK)) (free_blocks n (img 3)) ∧
    (is_Some (dir_find (img (i_block (inode img p) 0)) base) ∨ can_create img p base).
Section whole.
Context {S : Type} `{BlocksLaws S}.
Context (n : Z) (img : image) (Hwf : fs_wf n img).
Lemma wf_root : in_use (img 4) 2.
Proof. apply Hwf. Qed.
Lemma runs_lookup segs : Forall comp_ok segs →
  runs n (lookup_final (join segs)) img ((λ k, (k, inode img k)) <$> resolve img 2 segs) img.
Proof.
  intros Hok. apply (lookup_final_spec n img (wf_img n img Hwf) (in_use (img 4)));
    [apply in_use_ok|by apply wf_nav|apply wf_root|done].
Qed.
Lemma resolve_in_use segs k : resolve img 2 segs = Some k → in_use (img 4) k.
Proof. apply (resolve_live n img (in_use (img 4))); [by apply wf_nav|apply wf_root]. Qed.
Lemma resolve_last segs base p : resolve img 2 segs = Some p → is_dir_mode (inode img p) = true →
  resolve img 2 (segs ++ [base]) = dir_find (img (i_block (inode img p) 0)) base.
Proof.
  intros Hp Hd. rewrite resolve_app, Hp. cbn [mbind option_bind resolve]. rewrite Hd.
  destruct (dir_find _ base) as [k|] eqn:E; [|done].
  assert (in_use (img 4) k) as [Hk _] by (eapply (dir_find_live n img (in_use (img 4)) (wf_nav n img Hwf) p);
    [by eapply resolve_in_use|done|done]).
  by rewrite (proj2 (Z.eqb_neq k 0)) by lia.
Qed.
Lemma runs_find p base : in_use (img 4) p → is_dir_mode (inode img p) = true →
  runs n (est_lift (find_in_root (img (i_block (inode img p) 0)) base)) img
    (Some (dir_find (img (i_block (inode img p) 0)) base)) img.
Proof.
  intros Hp Hd. destruct (wf_nav n img Hwf p Hp Hd) as (_ & es & Hrep & _). apply runs_lift.
  rewrite (find_in_root_spec _ es) by done. by rewrite (dir_find_spec _ es).
Qed.
(** the writer up to the choice of the inode, and the tail after it *)
Lemma choose_inode_spec p base : in_use (img 4) p → is_dir_mode (inode img p) = true →
  is_cstr base → (0 < length base <= 127)%nat →
  (∀ k, dir_find (img (i_block (inode img p) 0)) base = Some k → is_dir_mode (inode img k) = false) →
  ∃ r img1, runs n (match dir_find (img (i_block (inode img p) 0)) base with
                    | Some e => if e =? 0 then create_new (meta_of img) (inode img p) (img (i_block (inode img p) 0)) base
                                else open_existing (meta_of img) e
                    | None => create_new (meta_of img) (inode img p) (img (i_block (inode img p) 0)) base
                    end) img r img1 ∧
    match r with
    | None => dir_find (img (i_block (inode img p) 0)) base = None ∧ ¬ can_create img p base
    | Some (m1, k, fi) => inode_ok fi ∧ opened n img img1 m1 k p base
    end.
Proof.
  intros Hp Hpd Hc Hl Hnd. destruct (dir_find _ base) as [e|] eqn:E.
  - assert (in_use (img 4) e) as He by (by apply (dir_find_live n img (in_use (img 4)) (wf_nav n img Hwf) p base)).
    assert (is_reg_mode (inode img e) = true) as Hreg.
    { destruct (fi_kind _ _ _ _ _ (fw_inv _ _ Hwf) e He) as [[Hd _]|Hr]; [done| |done]. rewrite Hnd in Hd; done. }
    rewrite (proj2 (Z.eqb_neq e 0)) by (destruct He; lia).
    destruct (open_existing_spec n img Hwf p base Hp Hpd e He Hreg E) as (m1 & fi & img1 & Hr & Hpost).
    by exists (Some (m1, e, fi)), img1.
  - destruct (create_new_spec n img Hwf p base Hp Hpd Hc Hl E) as (r & img1 & Hr & Hpost).
    exists r, img1. split; [done|]. by destruct r as [[[m1 k] fi]|].
Qed.
Lemma runs_split name segs base B (f : list Z * list Z → est S B) r img3 :
  chaseros_path_normalize name CHASEROS_PATH_MAX = Ret (Some (join (segs ++ [base]))) →
  Forall comp_ok (segs ++ [base]) → (length (join (segs ++ [base])) < 256)%nat → (length base <= 126)%nat →
  runs n (f (join segs, base)) img r img3 →
  runs n (x ← normalize name; y ← est_opt (path_split_parent x CHASEROS_PATH_MAX 128); f y) img r img3.
Proof.
  intros Hnorm Hok Hj Hb Hf. eapply runs_bind.
  - eapply runs_bind; [by apply runs_lift|]. apply runs_opt.
  - rewrite split_parent_join by (done || (unfold CHASEROS_PATH_MAX; lia)). eapply runs_bind; [apply runs_opt|]. exact Hf.
Qed.
Lemma write_file_written name segs base data :
  chaseros_path_normalize name CHASEROS_PATH_MAX = Ret (Some (join (segs ++ [base]))) →
  Forall comp_ok (segs ++ [base]) → (length (join (segs ++ [base])) < 256)%nat →
  is_cstr base → (length base <= 126)%nat → bytes data → Z.of_nat (length data) <= 12288 →
  (∀ k, resolve img 2 (segs ++ [base]) = Some k → is_dir_mode (inode img k) = false) →
  ∃ r img3, runs n (chaseros_ext2_write_file name data) img r img3 ∧
    match r with
    | None => ¬ can_write n img segs base (Z.of_nat (length data))
    | Some _ => ∃ p k, resolve img 2 segs = Some p ∧ is_dir_mode (inode img p) = true ∧
                       written n img k p base data img3
    end.
Proof.
  intros Hnorm Hok Hj Hc Hbl Hby Hlen Hnd. pose proof Hok as [Hoks Hokb]%Forall_app. apply Forall_cons in Hokb as [Hokb _].
  assert (0 < length base)%nat by (destruct Hokb as [? _]; destruct base; [done|simpl; lia]).
  unfold chaseros_ext2_write_file. rewrite (proj2 (Z.ltb_ge (12 * CHASEROS_BLK) _)) by (unfold CHASEROS_BLK; lia).
  pose proof (runs_lookup segs Hoks) as Hlook.
  destruct (resolve img 2 segs) as [p|] eqn:Ep; cbn [fmap option_fmap option_map] in Hlook.
  2: { exists None, img. split; [|intros (p & Hp & _); congruence]. apply (runs_split name segs base); [done..|]. cbn iota.
       eapply runs_bind; [by apply runs_read_meta|]. apply runs_total; intros s0 Etb; cbv zeta; rewrite ?Etb. by eapply runs_bind_none. }
  pose proof (resolve_in_use _ _ Ep) as Hp. destruct (is_dir_mode (inode img p)) eqn:Hpd.
  2: { exists None, img. split; [|intros (p' & Hp' & Hd & _); congruence]. apply (runs_split name segs base); [done..|]. cbn iota.
       eapply runs_bind; [by apply runs_read_meta|]. apply runs_total; intros s0 Etb; cbv zeta; rewrite ?Etb. eapply runs_bind; [exact Hlook|].
       cbn iota. rewrite Hpd. apply runs_fail. }
  destruct (choose_inode_spec p base Hp Hpd Hc) as (r1 & img1 & Hr1 & Hpost1); [lia| |].
  { intros k Hk. apply Hnd. by rewrite (resolve_last _ _ _ Ep Hpd). }
  destruct (wf_nav n img Hwf p Hp Hpd) as [Hpb _].
  set (nb := (Z.of_nat (length data) + CHASEROS_BLK - 1) / CHASEROS_BLK).
  assert (∀ r img3, runs n (x ← match dir_find (img (i_block (inode img p) 0)) base with
                    | Some e => if e =? 0 then create_new (meta_of img) (inode img p) (img (i_block (inode img p) 0)) base
                                else open_existing (meta_of img) e
                    | None => create_new (meta_of img) (inode img p) (img (i_block (inode img p) 0)) base
                    end; let '(m, ino, fi) := x in write_tail n data m ino fi) img r img3 →
    runs n (chaseros_ext2_write_file name data) img r img3) as Hmid.
  { intros r img3 Hr. unfold chaseros_ext2_write_file.
    rewrite (proj2 (Z.ltb_ge (12 * CHASEROS_BLK) _)) by (unfold CHASEROS_BLK; lia).
    apply (runs_split name segs base); [done..|]. cbn iota.
    eapply runs_bind; [by apply runs_read_meta|]. apply runs_total; intros s0 Etb; cbv zeta; rewrite ?Etb. eapply runs_bind; [exact Hlook|].
    cbn iota. rewrite Hpd. cbn [negb]. eapply runs_bind; [by apply runs_read|].
    eapply runs_bind; [by apply runs_find|]. cbv zeta. fold nb.
    rewrite (proj2 (Z.ltb_ge 12 nb)) by (unfold nb, CHASEROS_BLK; zdm). exact Hr. }
  unfold chaseros_ext2_write_file in Hmid. rewrite (proj2 (Z.ltb_ge (12 * CHASEROS_BLK) _)) in Hmid by (unfold CHASEROS_BLK; lia).
  destruct r1 as [[[m1 k] fi]|].
  2: { exists None, img1. split; [apply Hmid; by eapply runs_bind_none|].
       destruct Hpost1 as [E1 E2]. intros (p' & Hp' & _ & _ & Hs). simplify_eq.
       destruct Hs as [[x Hx]|?]; [congruence|done]. }
  destruct Hpost1 as [Hfi Hop].
  destruct (write_tail_spec n img img1 m1 k p base data fi Hwf Hop Hfi Hby Hlen Hp Hpd) as (r & img3 & Hr & Hpost).
  exists r, img3. split; [apply Hmid; by eapply runs_bind|]. destruct r; [by exists p, k|].
  intros (p' & _ & _ & Hfree & _). pose proof (op_free _ _ _ _ _ _ _ Hop). lia.
Qed.
(** the bytes that a read returns *)
Lemma read_range_runs name segs k off bsz :
  chaseros_path_normalize name CHASEROS_PATH_MAX = Ret (Some (join segs)) → Forall comp_ok segs →
  resolve img 2 segs = Some k → is_reg_mode (inode img k) = true → 0 <= off → 0 < bsz < 2 ^ 32 →
  runs n (chaseros_ext2_read_file_range name off bsz) img
    (Some (take (Z.to_nat bsz) (drop (Z.to_nat off) (file_data img (inode img k))))) img.
Proof.
  intros Hnorm Hok Hk Hreg Hoff Hb. pose proof (wf_img n img Hwf) as Himg. pose proof Himg as [Hn _].
  pose proof (resolve_in_use _ _ Hk) as Hu. pose proof (fw_inv _ _ Hwf) as Hf.
  pose proof (fi_size _ _ _ _ _ Hf k Hu ltac:(done)) as Hsz.
  assert (∀ j, (j < nblk (inode img k))%nat → 0 < i_block (inode img k) j < n) as Hblk.
  { intros j Hj. destruct (fi_blk _ _ _ _ _ Hf k j Hu ltac:(done) Hj). lia. }
  pose proof (length_file_data n img Himg (inode img k) Hsz Hblk) as HlC.
  destruct (nblk_spec (inode img k) Hsz) as [Hnb Hnb12].
  unfold chaseros_ext2_read_file_range. rewrite (proj2 (Z.eqb_neq bsz 0)) by lia.
  eapply runs_bind; [eapply runs_bind; [by apply runs_lift|apply runs_opt]|].
  eapply runs_bind.
  { unfold read_super. eapply runs_bind; [apply runs_read; lia|]. rewrite (fw_magic _ _ Hwf). apply runs_ret. }
  pose proof (runs_lookup segs Hok) as Hlook. rewrite Hk in Hlook. eapply runs_bind; [exact Hlook|]. cbn iota.
  rewrite Hreg. cbn [negb]. destruct (Z.leb_spec (i_size (inode img k)) off) as [Hle|Hgt].
  { rewrite drop_ge, take_nil by lia. apply runs_ret. }
  rewrite (proj2 (Z.ltb_ge 12 _)) by (unfold nblk in Hnb12; lia).
  set (mx := if bsz <? i_size (inode img k) - off then u32 bsz else i_size (inode img k) - off).
  assert (0 <= mx) as Hmx by (unfold mx; case_if; [rewrite u32_small|]; lia).
  pose proof (read_blocks_spec n img Himg (inode img k) Hsz Hblk off mx (nblk (inode img k)) Hoff Hmx 0%nat eq_refl) as Hr.
  rewrite Z.mul_0_r, Z.min_l, Nat.mul_0_r, take_0, drop_nil, take_nil in Hr by lia. unfold nblk in Hr at 1.
  replace (take (Z.to_nat bsz) (drop (Z.to_nat off) (file_data img (inode img k))))
    with (take (Z.to_nat mx) (drop (Z.to_nat off) (file_data img (inode img k)))); [exact Hr|].
  unfold mx. destruct (Z.ltb_spec bsz (i_size (inode img k) - off)); [by rewrite u32_small by lia|].
  rewrite !take_ge; [done|rewrite length_drop; lia..].
Qed.
(** the contents of the regular file at a path *)
Definition file_at (segs : list (list Z)) : option (list Z) :=
  k ← resolve img 2 segs;
  if is_reg_mode (inode img k) then Some (file_data img (inode img k)) else None.
Lemma runs_normalized {B} segs name (f : list Z → est S B) r img' :
  chaseros_path_normalize name CHASEROS_PATH_MAX = Ret (Some (join segs)) →
  runs n (f (join segs)) img r img' → runs n (norm ← normalize name; f norm) img r img'.
Proof. intros Hn Hf. eapply runs_bind; [|exact Hf]. eapply runs_bind; [by apply runs_lift|apply runs_opt]. Qed.
Lemma runs_read_super : runs n read_super img (Some (img 1)) img.
Proof.
  pose proof (wf_img n img Hwf) as [Hn _]. unfold read_super. eapply runs_bind; [apply runs_read; lia|].
  rewrite (fw_magic _ _ Hwf). apply runs_ret.
Qed.
Lemma file_at_inv segs d : file_at segs = Some d → ∃ k, resolve img 2 segs = Some k ∧ in_use (img 4) k ∧
  is_reg_mode (inode img k) = true ∧ d = file_data img (inode img k) ∧ Z.of_nat (length d) = i_size (inode img k).
Proof.
  unfold file_at. destruct (resolve img 2 segs) as [k|] eqn:Ek; [|done]. cbn [mbind option_bind].
  destruct (is_reg_mode (inode img k)) eqn:Er; [|done]. intros [= <-]. exists k. split; [done|].
  pose proof (resolve_in_use _ _ Ek) as Hu. split; [done|]. split; [done|]. split; [done|].
  pose proof (fi_size _ _ _ _ _ (fw_inv _ _ Hwf) k Hu ltac:(done)).
  rewrite (length_file_data n); [lia|by apply wf_img|done|]. intros j Hj.
  destruct (fi_blk _ _ _ _ _ (fw_inv _ _ Hwf) k j Hu ltac:(done) Hj). lia.
Qed.
(** reading and [stat] are functions of [file_at] *)
Lemma read_file_at name segs off bsz :
  chaseros_path_normalize name CHASEROS_PATH_MAX = Ret (Some (join segs)) → Forall comp_ok segs →
  0 <= off → 0 < bsz < 2 ^ 32 →
  runs n (chaseros_ext2_read_file_range name off bsz) img
    ((λ d, take (Z.to_nat bsz) (drop (Z.to_nat off) d)) <$> file_at segs) img.
Proof.
  intros Hnorm Hok Hoff Hb. destruct (file_at segs) as [d|] eqn:E.
  - destruct (file_at_inv _ _ E) as (k & Ek & _ & Er & -> & _). by apply (read_range_runs name segs k).
  - unfold chaseros_ext2_read_file_range. rewrite (proj2 (Z.eqb_neq bsz 0)) by lia.
    apply (runs_normalized segs); [done|]. eapply runs_bind; [apply runs_read_super|].
    pose proof (runs_lookup segs Hok) as Hlook. unfold file_at in E. destruct (resolve img 2 segs) as [k|]; [|by eapply runs_bind_none].
    eapply runs_bind; [exact Hlook|]. cbn [mbind option_bind] in E. cbn iota. destruct (is_reg_mode (inode img k)); [done|]. apply runs_fail.
Qed.
Lemma stat_file_at name segs :
  chaseros_path_normalize name CHASEROS_PATH_MAX = Ret (Some (join segs)) → Forall comp_ok segs →
  runs n (chaseros_ext2_stat_file name) img ((λ d, Z.of_nat (length d)) <$> file_at segs) img.
Proof.
  intros Hnorm Hok. unfold chaseros_ext2_stat_file. apply (runs_normalized segs); [done|].
  eapply runs_bind; [apply runs_read_super|]. pose proof (runs_lookup segs Hok) as Hlook.
  destruct (file_at segs) as [d|] eqn:E.
  - destruct (file_at_inv _ _ E) as (k & Ek & _ & Er & _ & Hsz). rewrite Ek in Hlook. eapply runs_bind; [exact Hlook|].
    cbn iota. rewrite Er. cbn [negb fmap option_fmap option_map]. rewrite Hsz. apply runs_ret.
  - unfold file_at in E. destruct (resolve img 2 segs) as [k|]; [|by eapply runs_bind_none].
    eapply runs_bind; [exact Hlook|]. cbn [mbind option_bind] in E. cbn iota. destruct (is_reg_mode (inode img k)); [done|]. apply runs_fail.
Qed.
End whole.
(** the effect of a write on the files *)
Lemma written_paths n img img3 segs base p k data : fs_wf n img → resolve img 2 segs = Some p →
  is_dir_mode (inode img p) = true → written n img k p base data img3 →
  (∀ cs t, resolve img 2 cs = Some t → resolve img3 2 cs = Some t) ∧ resolve img3 2 (segs ++ [base]) = Some k.
Proof.
  intros Hwf Hp Hpd [W1 _ _ W5 W6 _ _ _]. pose proof (resolve_in_use n img Hwf _ _ Hp) as Hpu.
  assert (∀ cs t, resolve img 2 cs = Some t → resolve img3 2 cs = Some t) as Hmono.
  { intros cs t. apply (resolve_mono n); [done|done|]. by apply (wf_root n). }
  split; [done|]. rewrite (resolve_last n img3 W1 segs base p (Hmono _ _ Hp)); destruct (W6 p Hpu Hpd) as [-> _]; done.
Qed.
(** a path after the write leads where it led, or is a new name of the file *)
Lemma written_resolve n img img3 base p k data : fs_wf n img → written n img k p base data img3 → ∀ cs t,
  resolve img3 2 cs = Some t →
  resolve img 2 cs = Some t ∨ (t = k ∧ ∃ ds, cs = ds ++ [base] ∧ resolve img 2 ds = Some p).
Proof.
  intros Hwf [W1 (W2 & _) _ _ W6 W7 W8 _] cs. induction cs as [|c cs IH] using rev_ind; intros t; [by left|].
  rewrite !resolve_app. destruct (resolve img3 2 cs) as [d|] eqn:E3; [|done]. cbn [mbind option_bind resolve].
  destruct (is_dir_mode (inode img3 d)) eqn:Ed3; [|done].
  assert (d ≠ k) as Hdk by (intros ->; rewrite dir_not_reg in W2; done).
  destruct (IH d eq_refl) as [Ed|[-> _]]; [|done]. pose proof (resolve_in_use n img Hwf _ _ Ed) as Hu.
  destruct (fi_kind _ _ _ _ _ (fw_inv _ _ Hwf) d Hu ltac:(done)) as [[Hd _]|Hr].
  - rewrite Ed. cbn [mbind option_bind]. rewrite Hd. destruct (W6 d Hu Hd) as [-> _].
    destruct (dir_find (img3 _) c) as [i|] eqn:Ef; [|done]. destruct (W8 d c i Hu Hd Ef) as [->|(-> & -> & ->)]; [by left|].
    destruct (k =? 0); [done|]. intros [= <-]. right. split; [done|]. by exists cs.
  - destruct (W7 d Hu Hr Hdk) as [E _]. rewrite E in Ed3. rewrite dir_not_reg in Hr; done.
Qed.
(** The paths of the file that a write of [base] in the directory at [segs]
    concerns: [base] in that directory, by whatever path to it, and the other
    names the file has already. *)
Definition names_file (img : image) (segs : list (list Z)) (base : list Z) (cs : list (list Z)) : Prop :=
  (∃ ds, cs = ds ++ [base] ∧ resolve img 2 ds = resolve img 2 segs) ∨
  (is_Some (resolve img 2 cs) ∧ resolve img 2 cs = resolve img 2 (segs ++ [base])).
Lemma names_self img segs base : names_file img segs base (segs ++ [base]).
Proof. left. by exists segs. Qed.
Lemma written_file_at n img img3 segs base p k data : fs_wf n img → resolve img 2 segs = Some p →
  is_dir_mode (inode img p) = true → written n img k p base data img3 → ∀ cs,
  (names_file img segs base cs → file_at img3 cs = Some data) ∧
  (¬ names_file img segs base cs → file_at img3 cs = file_at img cs).
Proof.
  intros Hwf Hp Hpd Hw cs. destruct (written_paths _ _ _ _ _ _ _ _ Hwf Hp Hpd Hw) as [Hmono Hk].
  pose proof (written_resolve _ _ _ _ _ _ _ Hwf Hw cs) as Hres. destruct Hw as [W1 (W2 & _ & W3) W4 W5 W6 W7 _ W9]. split.
  - intros Hn. assert (resolve img3 2 cs = Some k) as Ek.
    { destruct Hn as [(ds & -> & Hds)|[[t Ht] Hst]].
      - rewrite Hp in Hds. rewrite resolve_app, (Hmono _ _ Hds). rewrite resolve_app, (Hmono _ _ Hp) in Hk. done.
      - rewrite Ht in Hst. symmetry in Hst. apply Hmono in Hst. rewrite Hk in Hst. rewrite (Hmono _ _ Ht). done. }
    unfold file_at. rewrite Ek. cbn [mbind option_bind]. by rewrite W2, W3.
  - intros Hn. unfold file_at. destruct (resolve img3 2 cs) as [t|] eqn:Et.
    + destruct (Hres t eq_refl) as [Eo|[-> (ds & -> & Hds)]]; [|destruct Hn; left; exists ds; by rewrite Hp].
      pose proof (resolve_in_use n img Hwf _ _ Eo) as Hu. rewrite Eo. cbn [mbind option_bind].
      destruct (decide (t = k)) as [->|Hne].
      { destruct Hn. right. split; [by eexists|]. by rewrite Eo, (resolve_last n img Hwf segs base p), W9. }
      destruct (fi_kind _ _ _ _ _ (fw_inv _ _ Hwf) t Hu ltac:(done)) as [[Hd _]|Hr].
      * destruct (W6 t Hu Hd) as [-> _]. by rewrite dir_not_reg.
      * destruct (W7 t Hu Hr Hne) as [-> ->]. done.
    + destruct (resolve img 2 cs) as [t|] eqn:Eo; [|done]. by rewrite (Hmono _ _ Eo) in Et.
Qed.

(** ** Theorems *)

(** C2. Writing a file is correct on every volume with a well-formed file
    system: for a path that normalises to the directory [segs] and the name
    [base], at most 12 KiB of data and a target that is not a directory,
    [chaseros_ext2_write_file] terminates without undefined behaviour; it
    succeeds whenever the directory exists, the data blocks are free and the
    name exists or can be created; and when it reports success the file
    system is well formed again, the path leads to a regular file with exactly
    the bytes written, every path that led somewhere still leads there, and
    every other regular file keeps its contents. *)
Theorem chaseros_ext2_write_file_correct {S} `{BlocksLaws S} n img name segs base data : fs_wf n img →
  chaseros_path_normalize name CHASEROS_PATH_MAX = Ret (Some (join (segs ++ [base]))) →
  Forall comp_ok (segs ++ [base]) → (length (join (segs ++ [base])) < 256)%nat →
  is_cstr base → (length base <= 126)%nat → bytes data → Z.of_nat (length data) <= 12288 →
  (∀ k, resolve img 2 (segs ++ [base]) = Some k → is_dir_mode (inode img k) = false) →
  ∃ r img', runs n (chaseros_ext2_write_file name data) img r img' ∧
    (can_write n img segs base (Z.of_nat (length data)) → r = Some tt) ∧
    (r = Some tt → fs_wf n img' ∧
      ∃ k, resolve img' 2 (segs ++ [base]) = Some k ∧ is_reg_mode (inode img' k) = true ∧
        file_data img' (inode img' k) = data ∧
        ∀ cs k', resolve img 2 cs = Some k' → resolve img' 2 cs = Some k' ∧
          (k' ≠ k → is_reg_mode (inode img k') = true →
           file_data img' (inode img' k') = file_data img (inode img k'))).
Proof.
  intros Hwf Hnorm Hok Hj Hc Hb Hby Hlen Hnd.
  destruct (write_file_written n img Hwf name segs base data) as (r & img3 & Hr & Hpost); [done..|].
  exists r, img3. split; [exact Hr|]. destruct r as [[]|]; [|done]. split; [done|]. intros _.
  destruct Hpost as (p & k & Hp & Hpd & Hw). destruct (written_paths _ _ _ _ _ _ _ _ Hwf Hp Hpd Hw) as [Hmono Hk].
  destruct Hw as [W1 (W2 & _ & W3) W4 W5 W6 W7 _ _]. split; [done|]. exists k. split; [done|].
  split; [done|]. split; [done|]. intros cs k' Hk'. split; [by apply Hmono|]. intros Hne Hreg.
  destruct (W7 k' (resolve_in_use n img Hwf _ _ Hk') Hreg Hne) as [-> ->]. done.
Qed.

(** C14. Reading a file from any offset: on a well-formed file system, reading
    at most [bsz] bytes from offset [off] of a path that leads to a regular
    file returns exactly the bytes [off], [off + 1], ... of its contents, as
    many as there are up to [bsz], and changes nothing. *)
Theorem chaseros_ext2_read_file_range_correct {S} `{BlocksLaws S} n img name segs k off bsz : fs_wf n img →
  chaseros_path_normalize name CHASEROS_PATH_MAX = Ret (Some (join segs)) → Forall comp_ok segs →
  resolve img 2 segs = Some k → is_reg_mode (inode img k) = true → 0 <= off → 0 < bsz < 2 ^ 32 →
  runs n (chaseros_ext2_read_file_range name off bsz) img
    (Some (take (Z.to_nat bsz) (drop (Z.to_nat off) (file_data img (inode img k))))) img.
Proof. intros Hwf. by apply read_range_runs. Qed.
End Ext2Spec.
