(* ===== verification/Ext2Format.v ===== *)
(** Formatting a volume establishes the invariant of Ext2Spec, and concrete
    instances of the ext2 theorems: a file is written to a freshly formatted
    RAM volume and read back. *)
From stdpp Require Import base numbers list sets strings.
From S2P Require Import Prelude Bitmap Memory Path Vol Ext2 Ext2Dir Ext2Disk Ext2Alloc Ext2Spec.
Open Scope Z_scope.

Module Ext2Format.
Import Path.Path Vol.Vol Ext2.Ext2 Ext2Dir.Ext2Dir Ext2Disk.Ext2Disk Ext2Alloc.Ext2Alloc Ext2Spec.Ext2Spec.

Section blocks.
(** the length of a block that is filled in field by field *)
Lemma set32_len l off v k : length l = k → (off + 4 <= k)%nat → length (set32 l off v) = k.
Proof. intros <- ?. by apply length_set32. Qed.
Lemma set16_len l off v k : length l = k → (off + 2 <= k)%nat → length (set16 l off v) = k.
Proof. intros <- ?. by apply length_set16. Qed.
Ltac setlen := repeat first [apply set32_len; [|cbn; lia] | apply set16_len; [|cbn; lia] | apply length_zeros].
Lemma fmt_super_ok tb : length (fmt_super tb) = 1024%nat ∧ bytes (fmt_super tb) ∧ s_magic (fmt_super tb) = EXT2_SUPER_MAGIC.
Proof.
  unfold fmt_super, s_magic. split; [setlen|]. split; [auto 30 with chaser|].
  rewrite get16_set32_ne, get16_set32_ne, get16_set16_ne, get16_set16_ne, get16_set16; [done|..];
    try lia; erewrite (_ : length _ = 1024%nat); try lia; setlen.
  Unshelve. all: setlen.
Qed.
Lemma fmt_gd_ok sb : length (fmt_gd sb) = 32%nat ∧ bytes (fmt_gd sb).
Proof. unfold fmt_gd. split; [setlen|auto 30 with chaser]. Qed.
Lemma dir_inode_ok links blk : 0 <= blk < 2 ^ 32 → let i := dir_inode links blk in
  inode_ok i ∧ is_dir_mode i = true ∧ i_size i = 1024 ∧ i_block i 0 = blk ∧ nblk i = 1%nat.
Proof.
  intros Hb i. assert (inode_ok i) as Hi.
  { unfold i, dir_inode, inode_ok, set_i_block. split; [setlen|auto 30 with chaser]. }
  split; [done|]. assert (i_size i = 1024 ∧ i_mode i = Z.lor 0x4000 493 ∧ i_block i 0 = blk) as (Hs & Hm & Hk).
  { unfold i, dir_inode, i_size, i_mode, i_block, set_i_block. cbn [Nat.mul Nat.add].
    set (z := zeros 128). assert (length z = 128%nat) by apply length_zeros. clearbody z.
    assert (length (set16 z 0 (Z.lor 0x4000 493)) = 128%nat) as L1 by (rewrite length_set16; lia).
    assert (length (set32 (set16 z 0 (Z.lor 0x4000 493)) 4 CHASEROS_BLK) = 128%nat) as L2 by (rewrite length_set32; lia).
    assert (length (set16 (set32 (set16 z 0 (Z.lor 0x4000 493)) 4 CHASEROS_BLK) 26 links) = 128%nat) as L3 by (rewrite length_set16; lia).
    assert (length (set32 (set16 (set32 (set16 z 0 (Z.lor 0x4000 493)) 4 CHASEROS_BLK) 26 links) 28 2) = 128%nat) as L4 by (rewrite length_set32; lia).
    split; [|split].
    - rewrite get32_set32_ne, get32_set32_ne, get32_set16_ne, get32_set32 by lia. done.
    - rewrite get16_set32_ne, get16_set32_ne, get16_set16_ne, get16_set32_ne, get16_set16 by lia. done.
    - rewrite get32_set32 by lia. by apply u32_small. }
  unfold is_dir_mode. rewrite Hm. split; [done|]. split; [done|]. split; [done|]. by apply nblk_dir.
Qed.
Lemma bit_zeros k x : bit (zeros k) x = false.
Proof.
  unfold bit. destruct (zeros k !! _) as [b|] eqn:E; [|done]. apply lookup_replicate in E as [-> _].
  by rewrite Z.testbit_0_l.
Qed.
Lemma dir_rep_nil : dir_rep (zeros 1024) [].
Proof. split; [constructor|]. split; [simpl; lia|]. done. Qed.
Definition dots (self parent : Z) : list ent := [(self, str "."); (parent, str "..")].
Lemma new_dir_block_spec self parent : 0 < self < 2 ^ 32 → 0 < parent < 2 ^ 32 →
  ∃ blk, new_dir_block self parent = Ret (blk, length (encs (dots self parent))) ∧ dir_rep blk (dots self parent).
Proof.
  intros Hs Hp. assert (ent_ok (self, str ".")) as E1 by (split; [done|]; split; [by vm_compute; repeat constructor|simpl; lia]).
  assert (ent_ok (parent, str "..")) as E2 by (split; [done|]; split; [by vm_compute; repeat constructor|simpl; lia]).
  destruct (dirent_put_spec _ [] self (str ".") dir_rep_nil E1) as (b1 & P1 & R1).
  { pose proof (length_enc_ge _ E1). simpl length at 1. lia. }
  destruct (dirent_put_spec _ _ parent (str "..") R1 E2) as (b2 & P2 & R2).
  { pose proof (length_enc_ge _ E1). pose proof (length_enc_ge _ E2). rewrite app_nil_l, encs_cons, length_app.
    change (length (encs [])) with 0%nat. lia. }
  exists b2. unfold new_dir_block. change (length (encs [])) with 0%nat in P1. rewrite P1. ostep. by rewrite P2.
Qed.
End blocks.

Section format.
Context {S : Type} `{BlocksLaws S}.
Context (n : Z) (Hn : 256 <= n <= 8192).
Definition fmt_root_entries : list ent := dots 2 2 ++ [(11, str "lost+found")].
(** what formatting leaves: the two directories and nothing else *)
Record formatted (img : image) : Prop := {
  fd_wf : fs_wf n img;
  fd_root : dir_rep (img (i_block (inode img 2) 0)) fmt_root_entries;
  fd_lf : is_dir_mode (inode img 11) = true ∧ dir_rep (img (i_block (inode img 11) 0)) (dots 11 2);
  fd_bb : ∀ x, 0 <= x → bit (img 3) x = (x <? 23);
  fd_ib : ∀ x, 0 <= x → bit (img 4) x = (x <? 11)
}.
Lemma runs_clear_inodes k : ∀ b img, 0 <= b → b + Z.of_nat k <= n →
  ∃ img', runs n (clear_inode_blocks b k) img (Some tt) img' ∧
    (img_ok n img → img_ok n img') ∧ ∀ x, x < b ∨ b + Z.of_nat k <= x → img' x = img x.
Proof.
  induction k as [|k IH]; intros b img Hb Hk; cbn [clear_inode_blocks]; [exists img; split; [apply runs_ret|done]|].
  destruct (IH (b + 1) (wr img b (zeros 1024))) as (img' & Hr & Hok & Hx); [lia|lia|].
  exists img'. split; [|split].
  - eapply runs_bind; [apply runs_write; [lia|apply length_zeros|apply bytes_zeros]|exact Hr].
  - intros Hi. apply Hok, img_ok_wr; [done|apply length_zeros|apply bytes_zeros].
  - intros x Hx'. rewrite Hx by lia. apply wr_other. lia.
Qed.
(** the image of a formatted volume satisfies the invariant *)
Lemma formatted_intro img bb ib droot dlf l1 l2 : img_ok n img → s_magic (img 1) = EXT2_SUPER_MAGIC →
  img 3 = bb → img 4 = ib → (∀ x, 0 <= x → bit bb x = (x <? 23)) → (∀ x, 0 <= x → bit ib x = (x <? 11)) →
  inode img 2 = dir_inode l1 21 → inode img 11 = dir_inode l2 22 → img 21 = droot → img 22 = dlf →
  dir_rep droot fmt_root_entries → dir_rep dlf (dots 11 2) → formatted img.
Proof.
  intros Hi Hm <- <- Hbb Hib E2 E11 <- <- Hroot Hlf.
  destruct (dir_inode_ok l1 21) as (R1 & R2 & R3 & R4 & R5); [lia|].
  destruct (dir_inode_ok l2 22) as (L1 & L2 & L3 & L4 & L5); [lia|].
  rewrite <-E2 in *. rewrite <-E11 in *. clear E2 E11.
  assert (∀ k, in_use (img 4) k → k = 2 ∨ k = 11) as Huse.
  { intros k [Hk Hb]. rewrite Hib in Hb by lia. breflect. lia. }
  assert (in_use (img 4) 2 ∧ in_use (img 4) 11) as [U2 U11] by (split; (split; [lia|rewrite Hib by lia; done])).
  assert (∀ i nm, (i, nm) ∈ fmt_root_entries → in_use (img 4) i) as Hre.
  { intros i nm Hin. unfold fmt_root_entries, dots in Hin. set_solver. }
  assert (∀ i nm, (i, nm) ∈ dots 11 2 → in_use (img 4) i) as Hle by (intros i nm Hin; unfold dots in Hin; set_solver).
  split; [split; [done|split]|by rewrite R4|by rewrite L4|done|done].
  - done.
  - done.
  - intros k [-> | ->]%Huse _; lia.
  - intros k [-> | ->]%Huse _; by left.
  - intros k j [-> | ->]%Huse _; rewrite ?R5, ?L5; intros Hj; replace j with 0%nat by lia; rewrite ?R4, ?L4, Hbb by lia; split; done || lia.
  - intros k k' j j' [-> | ->]%Huse _ [-> | ->]%Huse _; rewrite ?R5, ?L5; intros Hj Hj';
      replace j with 0%nat by lia; replace j' with 0%nat by lia; rewrite ?R4, ?L4; done.
  - intros k [-> | ->]%Huse _ _; rewrite ?R4, ?L4; eauto.
Qed.
(** the nine writes *)
Lemma fmt_writes img sb gd bb ib i2 i11 droot dlf : img_ok n img → length sb = 1024%nat → bytes sb →
  length gd = 32%nat → bytes gd → bm_ok bb → bm_ok ib → inode_ok i2 → inode_ok i11 →
  length droot = 1024%nat → bytes droot → length dlf = 1024%nat → bytes dlf →
  ∃ img', runs n (_ ← write_super sb; _ ← write_gd gd; _ ← vol_write_blk 3 bb; _ ← vol_write_blk 4 ib;
      _ ← clear_inode_blocks 5 (Z.to_nat INODE_TBL_BLOCKS); _ ← write_inode 2 i2; _ ← write_inode 11 i11;
      _ ← vol_write_blk FIRST_DATA_BLOCK droot; vol_write_blk (FIRST_DATA_BLOCK + 1) dlf) img (Some tt) img' ∧
    img_ok n img' ∧ img' 1 = sb ∧ img' 2 = gd ++ zeros (1024 - 32) ∧ img' 3 = bb ∧ img' 4 = ib ∧ inode img' 2 = i2 ∧ inode img' 11 = i11 ∧
    img' 21 = droot ∧ img' 22 = dlf.
Proof.
  intros Hi Hs1 Hs2 Hg1 Hg2 [Hb1 Hb2] [Hc1 Hc2] [Hd1 Hd2] [He1 He2] Hf1 Hf2 Hh1 Hh2.
  assert (length (gd ++ zeros (1024 - 32)) = 1024%nat) as G1 by (rewrite length_app, length_zeros; lia).
  assert (bytes (gd ++ zeros (1024 - 32))) as G2 by (apply Forall_app; split; [done|apply bytes_zeros]).
  set (img0 := wr (wr (wr (wr img 1 sb) 2 (gd ++ zeros (1024 - 32))) 3 bb) 4 ib).
  assert (img_ok n img0) as Hi0 by (unfold img0; by repeat apply img_ok_wr).
  destruct (runs_clear_inodes 16 5 img0) as (img1 & Hr & Hok & Hx); [lia|lia|]. specialize (Hok Hi0).
  assert (ino_ok 2 ∧ ino_ok 11) as [I2 I11] by (unfold ino_ok; lia).
  assert (img_ok n (put_inode img1 2 i2)) as Hok2 by (by apply img_ok_put).
  assert (img_ok n (put_inode (put_inode img1 2 i2) 11 i11)) as Hok3 by (by apply img_ok_put).
  exists (wr (wr (put_inode (put_inode img1 2 i2) 11 i11) 21 droot) 22 dlf). unfold write_super, write_gd, FIRST_DATA_BLOCK. split.
  { do 4 (eapply runs_bind; [apply runs_write; (done || lia)|]). eapply runs_bind; [exact Hr|].
    eapply runs_bind; [by apply runs_write_inode|]. eapply runs_bind; [by apply runs_write_inode|].
    eapply runs_bind; [apply runs_write; (done || lia)|]. apply runs_write; (done || lia). }
  split; [by do 2 (apply img_ok_wr; [|done..])|].
  assert (∀ x, 0 <= x < 5 → wr (wr (put_inode (put_inode img1 2 i2) 11 i11) 21 droot) 22 dlf x = img0 x) as Hlow.
  { intros x Hx'. rewrite !wr_other by lia. rewrite !put_inode_other by (done || lia). apply Hx. lia. }
  rewrite !Hlow by lia. unfold img0. rewrite !wr_same. rewrite !(inode_wr _ 22), !(inode_wr _ 21) by (done || lia).
  rewrite !(inode_put n) by done. rewrite decide_False by lia. rewrite !decide_True by done.
  rewrite !wr_other, !wr_same by lia. done.
Qed.
Lemma format_full s img : vol_rep s n img →
  ∃ s' img', chaseros_ext2_format s = Ret (Some tt, s') ∧ vol_rep s' n img' ∧ formatted img' ∧ img' 1 = fmt_super n ∧ img' 2 = fmt_gd (fmt_super n) ++ zeros (1024 - 32).
Proof.
  intros Hs. destruct (rep_clear _ _ _ Hs) as [img1 Hs1]. pose proof (rep_img_ok n _ _ Hs1) as Hi1.
  destruct (fmt_super_ok n) as (S1 & S2 & S3). destruct (fmt_gd_ok (fmt_super n)) as [G1 G2].
  destruct (set_bits_spec 23 (zeros 1024) 0) as (bb & Ebb & Obb & Bbb); [split; [apply length_zeros|apply bytes_zeros]|lia|lia|].
  destruct (set_bits_spec 11 (zeros 1024) 0) as (ib & Eib & Oib & Bib); [split; [apply length_zeros|apply bytes_zeros]|lia|lia|].
  destruct (new_dir_block_spec 2 2) as (d0 & Ed0 & Rd0); [lia|lia|].
  assert (ent_ok (11, str "lost+found")) as Elf by (split; [simpl; lia|]; split; [by vm_compute; repeat constructor|simpl; lia]).
  destruct (dirent_put_spec d0 _ 11 (str "lost+found") Rd0 Elf) as (droot & Edr & Rdr).
  { pose proof (length_enc_ge _ Elf). change (length (encs (dots 2 2))) with 24%nat. lia. }
  destruct (new_dir_block_spec 11 2) as (dlf & Edl & Rdl); [lia|lia|].
  destruct (dir_inode_ok 3 21) as (I2 & _); [lia|]. destruct (dir_inode_ok 2 22) as (I11 & _); [lia|].
  destruct (dir_rep_length _ _ Rdr). destruct (dir_rep_length _ _ Rdl).
  destruct (fmt_writes img1 (fmt_super n) (fmt_gd (fmt_super n)) bb ib (dir_inode 3 21) (dir_inode 2 22) droot dlf
    Hi1 S1 S2 G1 G2 Obb Oib I2 I11 ltac:(assumption) ltac:(assumption) ltac:(assumption) ltac:(assumption))
    as (img' & Hr & A1 & A2 & A0 & A3 & A4 & A5 & A6 & A7 & A8).
  assert (runs n (bb ← est_lift (set_bits (zeros 1024) 0 (Z.to_nat (FIRST_DATA_BLOCK + 2)));
      ib ← est_lift (set_bits (zeros 1024) 0 11);
      '(droot, doff) ← est_lift (new_dir_block 2 2);
      '(droot, _) ← est_lift (dirent_put droot doff 11 (str "lost+found"));
      '(dlf, _) ← est_lift (new_dir_block 11 2);
      _ ← write_super (fmt_super n); _ ← write_gd (fmt_gd (fmt_super n)); _ ← vol_write_blk 3 bb; _ ← vol_write_blk 4 ib;
      _ ← clear_inode_blocks 5 (Z.to_nat INODE_TBL_BLOCKS); _ ← write_inode 2 (dir_inode 3 FIRST_DATA_BLOCK);
      _ ← write_inode 11 (dir_inode 2 (FIRST_DATA_BLOCK + 1));
      _ ← vol_write_blk FIRST_DATA_BLOCK droot; vol_write_blk (FIRST_DATA_BLOCK + 1) dlf) img1 (Some tt) img') as Hrun.
  { do 5 (eapply runs_bind; [by apply runs_lift|]; cbn iota). exact Hr. }
  destruct (Hrun _ Hs1) as (s' & Es' & Hs'). exists s', img'. split; [|split; [done|split; [|done]]].
  - assert (total_blocks_from_vol s = n) as Et.
    { unfold total_blocks_from_vol. rewrite (rep_bytes _ _ _ Hs). unfold CHASEROS_BLK. rewrite Z.div_mul by lia.
      apply u32_small. lia. }
    unfold chaseros_ext2_format. erewrite est_bind_step by reflexivity. rewrite (rep_check _ _ _ Hs). cbn [negb]. cbv zeta.
    rewrite Et, (proj2 (Z.ltb_ge n 256)), (proj2 (Z.ltb_ge 8192 n)), (proj2 (Z.ltb_ge n (FIRST_DATA_BLOCK + 2)))
      by (unfold FIRST_DATA_BLOCK; lia). cbn [orb].
    erewrite est_bind_step by reflexivity. exact Es'.
  - apply (formatted_intro img' bb ib droot dlf 3 2); [exact A1|by rewrite A2|exact A3|exact A4| | |exact A5|exact A6|exact A7|exact A8|exact Rdr|exact Rdl].
    + intros x Hx. rewrite Bbb, bit_zeros, orb_false_r, (proj2 (Z.leb_le 0 x)) by lia. done.
    + intros x Hx. rewrite Bib, bit_zeros, orb_false_r, (proj2 (Z.leb_le 0 x)) by lia. done.
Qed.
Lemma format_spec s img : vol_rep s n img →
  ∃ s' img', chaseros_ext2_format s = Ret (Some tt, s') ∧ vol_rep s' n img' ∧ formatted img'.
Proof. intros Hs. destruct (format_full s img Hs) as (s' & img' & E & Hr & Hf & _). by exists s', img'. Qed.
End format.

(** ** Superblock and group descriptor *)
(** the number of clear bits among the first [k] *)
Definition zero_bits (bm : list Z) (k : Z) : Z := popcount (λ x, negb (bit bm x)) (Z.to_nat k).
Lemma popcount_zero f d : (∀ x, 0 <= x < Z.of_nat d → f x = false) → popcount f d = 0.
Proof. induction d as [|d IH]; intros H; [done|]. cbn [popcount]. rewrite IH by (intros; apply H; lia). by rewrite H by lia. Qed.
Lemma zero_bits_from bm k : 0 <= k → (∀ x, 0 <= x → bit bm x = (x <? k)) → ∀ d, zero_bits bm (k + Z.of_nat d) = Z.of_nat d.
Proof.
  intros Hk Hb. unfold zero_bits. induction d as [|d IH].
  - rewrite Z.add_0_r. apply popcount_zero. intros x Hx. rewrite Hb by lia. by rewrite (proj2 (Z.ltb_lt _ _)) by lia.
  - replace (Z.to_nat (k + Z.of_nat (S d))) with (S (Z.to_nat (k + Z.of_nat d))) by lia. cbn [popcount]. rewrite IH, Hb by lia. rewrite (proj2 (Z.ltb_ge _ _)) by lia. cbn. lia.
Qed.
(** the summary of the file system: sizes, free counts, the places of the
    bitmaps and of the inode table *)
Record summary_ok (n : Z) (img : image) : Prop := {
  sm_inodes : get32 (img 1) 0 = 128;
  sm_blocks : get32 (img 1) 4 = n;
  sm_free_blocks : s_free_blocks_count (img 1) = zero_bits (img 3) n;
  sm_free_inodes : s_free_inodes_count (img 1) = zero_bits (img 4) 128;
  sm_first : get32 (img 1) 20 = 1;
  sm_block_size : Z.shiftl 1024 (get32 (img 1) 24) = CHASEROS_BLK;
  sm_blocks_per_group : get32 (img 1) 32 = n;
  sm_inodes_per_group : get32 (img 1) 40 = 128;
  sm_magic : s_magic (img 1) = EXT2_SUPER_MAGIC;
  sm_places : get32 (img 2) 0 = 3 ∧ get32 (img 2) 4 = 4 ∧ get32 (img 2) 8 = 5;
  sm_gd_blocks : get16 (img 2) 12 = s_free_blocks_count (img 1);
  sm_gd_inodes : get16 (img 2) 14 = s_free_inodes_count (img 1);
  sm_gd_dirs : get16 (img 2) 16 = 2
}.

Lemma fmt_summary n img : 256 <= n <= 8192 → img 1 = fmt_super n → img 2 = fmt_gd (fmt_super n) ++ zeros (1024 - 32) → (∀ x, 0 <= x → bit (img 3) x = (x <? 23)) → (∀ x, 0 <= x → bit (img 4) x = (x <? 11)) → summary_ok n img.
Proof.
  intros Hn E1 E2 Hbb Hib. assert (∀ off v, slice (fmt_super n) off 4 = le_of 4 v → 0 <= v < 2 ^ 32 → get32 (img 1) off = v) as H4 by (intros off v Es Hv; unfold get32; rewrite E1, Es; apply le_to_of; done).
  assert (s_free_blocks_count (img 1) = n - 23) as F1 by (apply H4; [vm_compute; reflexivity|lia]). assert (s_free_inodes_count (img 1) = 117) as F2 by (apply H4; [vm_compute; reflexivity|lia]).
  assert (zero_bits (img 3) n = n - 23) as Z1 by (pose proof (zero_bits_from (img 3) 23 ltac:(lia) Hbb (Z.to_nat (n - 23))) as Hz; replace (23 + Z.of_nat (Z.to_nat (n - 23))) with n in Hz by lia; lia). assert (zero_bits (img 4) 128 = 117) as Z2 by exact (zero_bits_from (img 4) 11 ltac:(lia) Hib 117).
  assert (clamp16 (s_free_blocks_count (fmt_super n)) = n - 23) as C1 by (rewrite <-E1, F1; unfold clamp16; rewrite (proj2 (Z.ltb_ge _ _)) by lia; done). 
  assert (∀ off v, slice (img 2) off 2 = le_of 2 v → 0 <= v < 2 ^ 16 → get16 (img 2) off = v) as H2 by (intros off v Es Hv; unfold get16; rewrite Es; apply le_to_of; done). rewrite E2 in H2. unfold fmt_gd in E2, H2. rewrite C1 in E2, H2.
  split.
  - apply H4; [vm_compute; reflexivity|lia].
  - apply H4; [vm_compute; reflexivity|lia].
  - congruence.
  - congruence.
  - apply H4; [vm_compute; reflexivity|lia].
  - by rewrite (H4 24%nat 0 ltac:(vm_compute; reflexivity) ltac:(lia)).
  - apply H4; [vm_compute; reflexivity|lia].
  - apply H4; [vm_compute; reflexivity|lia].
  - rewrite E1. apply fmt_super_ok.
  - rewrite E2. split_and!; vm_compute; reflexivity.
  - rewrite E2, F1. apply H2; [vm_compute; reflexivity|lia].
  - rewrite E2, F2. apply H2; [vm_compute; reflexivity|lia].
  - rewrite E2. apply H2; [vm_compute; reflexivity|lia].
Qed.

(** ** Theorems *)

(** C15. Formatting establishes the file system: on every usable volume of 256
    to 8192 blocks [chaseros_ext2_format] succeeds, and afterwards the volume
    holds a well-formed file system whose root directory has exactly the
    entries ".", ".." and "lost+found", which is an empty directory at inode
    11; the data blocks from 23 on and the inodes from 12 on are free.  The
    superblock has the sizes of the volume and, like the group descriptor, the
    numbers of free blocks and inodes of the bitmaps; the descriptor names the
    blocks of the bitmaps and the inode table and counts the two directories. *)
Theorem chaseros_ext2_format_correct {S} `{BlocksLaws S} n s img : vol_rep s n img →
  ∃ s' img', chaseros_ext2_format s = Ret (Some tt, s') ∧ vol_rep s' n img' ∧ fs_wf n img' ∧
    (∀ c, resolve img' 2 [c] = assoc fmt_root_entries c) ∧
    (∀ c, resolve img' 2 [str "lost+found"; c] = assoc (dots 11 2) c) ∧
    (∀ x, 0 <= x → bit (img' 3) x = (x <? 23)) ∧ (∀ x, 0 <= x → bit (img' 4) x = (x <? 11)) ∧ summary_ok n img'.
Proof.
  intros Hs. pose proof (rep_range _ _ _ Hs) as Hn.
  destruct (format_full n Hn s img Hs) as (s' & img' & E & Hs' & [Hwf Hroot [Hlf Hlfd] Hbb Hib] & E1 & E2).
  exists s', img'. split; [done|]. split; [done|]. split; [done|].
  pose proof (fi_root _ _ _ _ _ (fw_inv _ _ Hwf)) as (_ & _ & Hd2).
  assert (∀ c, resolve img' 2 [c] = assoc fmt_root_entries c) as Hr.
  { intros c. pose proof (resolve_last n img' Hwf [] c 2 eq_refl Hd2) as El. cbn [app] in El. rewrite El. by apply dir_find_spec. }
  split; [done|]. split; [|split; [done|split; [done|by apply fmt_summary]]].
  intros c. pose proof (resolve_last n img' Hwf [str "lost+found"] c 11 (Hr _) Hlf) as El. cbn [app] in El.
  rewrite El. by apply dir_find_spec.
Qed.

(** ** Witnesses: a RAM disk of 256 KiB *)
#[local] Instance no_ide : IdeOps unit := {
  ide_capacity_sectors _ := est_fail;
  ide_read_sectors _ _ _ := est_fail;
  ide_write_sectors _ _ _ _ := est_fail
}.
Definition ram_disk : vst unit :=
  Vst (CVol CHASEROS_VOL_RAM 0x200000 (256 * 1024) 0) 0x200000 64
      (Vmm.Vmm.Vm (λ _, 0) (Pmm.Pmm.Pmm [] 0 0 0) 0) tt.
Definition ram_image : image := λ _, mread (λ _, 0) 0 1024.
Lemma ram_disk_rep : vol_rep ram_disk 256 ram_image.
Proof.
  split; [done|]. split; [done|]. split; [lia|]. split; [intros a; unfold is_byte; simpl; lia|]. intros b Hb. done.
Qed.
Lemma chaseros_ext2_format_correct_witness : ∃ s' img', chaseros_ext2_format ram_disk = Ret (Some tt, s') ∧
  vol_rep s' 256 img' ∧ fs_wf 256 img' ∧ resolve img' 2 [str "lost+found"] = Some 11.
Proof.
  destruct (chaseros_ext2_format_correct 256 ram_disk ram_image ram_disk_rep) as (s' & img' & E & Hs' & Hwf & Hroot & _).
  exists s', img'. split; [exact E|]. split; [exact Hs'|]. split; [exact Hwf|]. rewrite Hroot. reflexivity.
Defined.
Lemma filter_all (P : Z → Prop) `{!∀ x, Decision (P x)} (l : list Z) : (∀ x, x ∈ l → P x) → filter P l = l.
Proof.
  induction l as [|x l IH]; intros Hp; [done|]. rewrite filter_cons_True by (apply Hp; set_solver). f_equal.
  apply IH. set_solver.
Qed.
(** a formatted volume has room for a file in the root directory *)
Lemma formatted_can_write n img base len : 256 <= n → formatted n img → (0 < length base <= 126)%nat → 0 <= len <= 12288 →
  can_write n img [] base len.
Proof.
  intros Hn [Hwf Hroot _ Hbb Hib] Hb Hlen. exists 2. split; [done|]. split; [apply Hwf|]. split.
  - assert (free_blocks n (img 3) = Z.to_nat (n - 23)) as ->.
    { unfold free_blocks. rewrite filter_all; [apply length_seqZ|]. intros x Hx. apply elem_of_seqZ in Hx.
      rewrite Hbb by lia. apply Z.ltb_ge. lia. }
    unfold CHASEROS_BLK. zdm.
  - right. split; [exists 11; split; [lia|]; by rewrite Hib by lia|]. exists fmt_root_entries. split; [done|].
    destruct (rec_len_spec (length base)) as [_ Hr]; [lia|]. change (length (encs fmt_root_entries)) with 44%nat. lia.
Qed.
Lemma demo_name_ok : chaseros_path_normalize (str "/a.txt") CHASEROS_PATH_MAX = Ret (Some (join [str "a.txt"])) ∧
  Forall comp_ok [str "a.txt"] ∧ is_cstr (str "a.txt").
Proof.
  split; [reflexivity|]. split; [|by vm_compute; repeat constructor].
  apply Forall_singleton. split; [done|]. split; [done|]. split; [done|]. split; [|simpl; lia].
  vm_compute. intros Hin. repeat (apply elem_of_cons in Hin as [?|Hin]; [done|]). by apply not_elem_of_nil in Hin.
Qed.
Lemma formatted_absent n img base : formatted n img → base ∉ snd <$> fmt_root_entries → resolve img 2 [base] = None.
Proof.
  intros Hf Hb. pose proof (fd_wf _ _ Hf) as Hwf. pose proof (resolve_last n img Hwf [] base 2 eq_refl ltac:(apply Hwf)) as El.
  cbn [app] in El. rewrite El, (dir_find_spec _ _ _ (fd_root _ _ Hf)). by apply assoc_None.
Qed.
Lemma demo_absent_b img : formatted 256 img → resolve img 2 [str "b.txt"] = None.
Proof.
  intros Hf. pose proof (fd_wf _ _ Hf) as Hwf. pose proof (resolve_last 256 img Hwf [] (str "b.txt") 2 eq_refl ltac:(apply Hwf)) as El.
  cbn [app] in El. by rewrite El, (dir_find_spec _ _ _ (fd_root _ _ Hf)).
Qed.
Lemma demo_absent img : formatted 256 img → resolve img 2 [str "a.txt"] = None.
Proof.
  intros Hf. pose proof (fd_wf _ _ Hf) as Hwf. pose proof (resolve_last 256 img Hwf [] (str "a.txt") 2 eq_refl ltac:(apply Hwf)) as El.
  cbn [app] in El. by rewrite El, (dir_find_spec _ _ _ (fd_root _ _ Hf)).
Qed.
Lemma ext2_write_witness : ∃ img img', fs_wf 256 img ∧
  runs (S := vst unit) 256 (chaseros_ext2_write_file (str "/a.txt") [104; 105]) img (Some tt) img' ∧ fs_wf 256 img' ∧
  ∃ k, resolve img' 2 [str "a.txt"] = Some k ∧ file_data img' (inode img' k) = [104; 105].
Proof.
  destruct (format_spec 256 ltac:(lia) ram_disk ram_image ram_disk_rep) as (s' & img & _ & _ & Hf).
  destruct demo_name_ok as (N1 & N2 & N3). pose proof (fd_wf _ _ Hf) as Hwf.
  destruct (chaseros_ext2_write_file_correct (S := vst unit) 256 img (str "/a.txt") [] (str "a.txt") [104; 105] Hwf N1 N2)
    as (r & img' & Hr & Hok & Hpost).
  - simpl; lia.
  - exact N3.
  - simpl; lia.
  - repeat constructor; unfold is_byte; lia.
  - simpl; lia.
  - intros k Hk. exfalso. cbn [app] in Hk. rewrite (demo_absent img Hf) in Hk. discriminate Hk.
  - exists img, img'. assert (r = Some tt) as ->.
    { apply Hok. apply formatted_can_write; [lia|exact Hf|simpl; lia|simpl; lia]. }
    split; [exact Hwf|]. split; [exact Hr|]. destruct (Hpost eq_refl) as (Hwf' & k & H1 & _ & H2 & _).
    split; [exact Hwf'|]. exists k. split; [exact H1|exact H2].
Defined.
Lemma demo_written : ∃ img k, fs_wf 256 img ∧ resolve img 2 [str "a.txt"] = Some k ∧ is_reg_mode (inode img k) = true ∧
  file_data img (inode img k) = [104; 105].
Proof.
  destruct (format_spec 256 ltac:(lia) ram_disk ram_image ram_disk_rep) as (s' & img & _ & _ & Hf).
  destruct demo_name_ok as (N1 & N2 & N3). pose proof (fd_wf _ _ Hf) as Hwf.
  destruct (write_file_written (S := vst unit) 256 img Hwf (str "/a.txt") [] (str "a.txt") [104; 105]) as (r & img' & _ & Hpost);
    [done|done|simpl; lia|done|simpl; lia|repeat constructor; unfold is_byte; lia|simpl; lia| |].
  { cbn [app]. rewrite (demo_absent img Hf). done. }
  destruct r as [u|]; [|exfalso; apply Hpost; apply formatted_can_write; [lia|done|simpl; lia|simpl; lia]].
  destruct Hpost as (p & k & Hp & Hpd & [W1 (W2 & _ & W3) W4 W5 W6 W7 _ _]). exists img', k. split; [done|]. split; [|done].
  injection Hp as <-. destruct (W6 2 (wf_root 256 img Hwf) Hpd) as [E _].
  pose proof (resolve_last 256 img' W1 [] (str "a.txt") 2 eq_refl ltac:(by rewrite E)) as El. cbn [app] in El.
  by rewrite El, E.
Qed.
Lemma ext2_read_witness : ∃ img, fs_wf 256 img ∧
  runs (S := vst unit) 256 (chaseros_ext2_read_file_range (str "/a.txt") 1 16) img (Some [105]) img.
Proof.
  destruct demo_written as (img & k & Hwf & Hk & Hr & Hd). destruct demo_name_ok as (N1 & N2 & _).
  exists img. split; [exact Hwf|].
  pose proof (chaseros_ext2_read_file_range_correct (S := vst unit) 256 img (str "/a.txt") [str "a.txt"] k 1 16
    Hwf N1 N2 Hk Hr ltac:(lia) ltac:(lia)) as Hread.
  rewrite Hd in Hread. exact Hread.
Defined.
End Ext2Format.
