(* ===== verification/Vfs.v ===== *)
(** The virtual file system (kernel/fs/vfs.c), its pseudo devices
    (kernel/fs/vfs_devfs.c), and the tables that unmounting resets: the user
    descriptors of kernel/user_fd.c and the user working directory of
    kernel/user.c.  The block volume is any [S] with [Blocks S].  A path is a
    C string without its NUL.  Each operation returns [inl] of the VFS error
    code or [inr] of its result; [vfs_ls] returns the entries it prints.
    Theorems: paths below /dev never reach the volume; on a mounted,
    well-formed volume a written file is read back through the VFS, and the
    files of the other paths are kept. *)
From stdpp Require Import base numbers list sets strings.
From S2P Require Import Prelude Bitmap Memory Path Vol Ext2 Ext2Dir Ext2Disk Ext2Alloc Ext2Spec Ext2Format.
Open Scope Z_scope.

Module Vfs.
Import Path.Path Vol.Vol Ext2.Ext2.
Definition VFS_ERR_NONE := 0.
Definition VFS_ERR_NOENT := -1.
Definition VFS_ERR_NOTMOUNTED := -3.
Definition VFS_ERR_IO := -4.
Record vfs_stat_t := VfsStat { st_ino : Z; st_size : Z }.
Inductive vfs_fstype_t := VFS_FS_NONE | VFS_FS_EXT2 | VFS_FS_DEV.

(** ** /dev *)
Definition is_under_dev (norm : list Z) : bool :=
  (nth 0 norm 0 =? slash) && (nth 1 norm 0 =? 100) && (nth 2 norm 0 =? 101) && (nth 3 norm 0 =? 118) &&
  ((nth 4 norm 0 =? 0) || (nth 4 norm 0 =? slash)).
Definition vfs_devfs_handles (norm : list Z) : bool := is_under_dev norm.
Definition vfs_devfs_is_directory (norm : list Z) : bool := str_eqb norm (str "/dev").
Definition vfs_devfs_stat (norm : list Z) : Z + vfs_stat_t :=
  if str_eqb norm (str "/dev") then inr (VfsStat 1 0)
  else if str_eqb norm (str "/dev/null") then inr (VfsStat 2 0)
  else if str_eqb norm (str "/dev/zero") then inr (VfsStat 3 0xFFFFFFFF)
  else inl VFS_ERR_NOENT.
Definition vfs_devfs_ls (norm : list Z) : Z + list (list Z * Z) :=
  if negb (str_eqb norm (str "/dev")) then inl VFS_ERR_IO
  else inr [(str "null", 2); (str "zero", 3)].
Definition vfs_devfs_read_range (norm : list Z) (offset buf_sz : Z) : Z + list Z :=
  if str_eqb norm (str "/dev/null") then inr []
  else if str_eqb norm (str "/dev/zero") then inr (replicate (Z.to_nat buf_sz) 0)
  else inl VFS_ERR_NOENT.
Definition vfs_devfs_write_file (norm data : list Z) : Z + unit :=
  if str_eqb norm (str "/dev/null") then inr tt
  else if str_eqb norm (str "/dev/zero") then inl VFS_ERR_IO
  else inl VFS_ERR_NOENT.
Definition vfs_devfs_mkdir (norm : list Z) : Z + unit := inl VFS_ERR_IO.

(** ** The state *)
Record user_fd_slot_t := UserFdSlot { fd_valid : bool; fd_path : list Z; fd_offset : Z; fd_size : Z }.
Definition CHASEROS_USER_FD_NUM : nat := 8.
Section vfs.
Context {S : Type} `{Blocks S}.
(** [g_root], the current volume, [g_ufd] and [g_user_cwd] *)
Record fsys := Fsys {
  g_mounted : bool;
  g_fstype : vfs_fstype_t;
  f_vol : S;
  g_ufd : list user_fd_slot_t;
  g_user_cwd : list Z
}.
Definition set_root (f : fsys) (m : bool) (t : vfs_fstype_t) : fsys := Fsys m t (f_vol f) (g_ufd f) (g_user_cwd f).
Definition set_fvol (f : fsys) (v : S) : fsys := Fsys (g_mounted f) (g_fstype f) v (g_ufd f) (g_user_cwd f).
Definition set_ufd (f : fsys) (l : list user_fd_slot_t) : fsys := Fsys (g_mounted f) (g_fstype f) (f_vol f) l (g_user_cwd f).
Definition set_cwd (f : fsys) (c : list Z) : fsys := Fsys (g_mounted f) (g_fstype f) (f_vol f) (g_ufd f) c.

(** *** Descriptors and working directory (kernel/user_fd.c, kernel/user.c) *)
Definition user_fd_reset (f : fsys) : fsys :=
  set_ufd f ((λ d, UserFdSlot false (fd_path d) (fd_offset d) (fd_size d)) <$> g_ufd f).
Definition chaseros_user_cwd_reset (f : fsys) : fsys := set_cwd f [slash].
Definition chaseros_user_set_cwd (f : fsys) (abs_norm_path : option (list Z)) : fsys :=
  match abs_norm_path with
  | None => chaseros_user_cwd_reset f
  | Some p => set_cwd f (take 255 p)
  end.
Definition user_fd_umount_close_all (f : fsys) : fsys := chaseros_user_cwd_reset (user_fd_reset f).

(** *** Mounting *)
Definition vfs_active_vol (f : fsys) : bool := g_mounted f && vol_attached (f_vol f).
Definition vfs_init (f : fsys) : fsys := set_root f false VFS_FS_NONE.
Definition vfs_mount_root (f : fsys) : Z * fsys :=
  if negb (vol_attached (f_vol f)) then (VFS_ERR_NOENT, f)
  else (VFS_ERR_NONE, set_root f true VFS_FS_EXT2).
Definition vfs_umount_root (f : fsys) : Z * fsys :=
  (VFS_ERR_NONE, set_root (user_fd_umount_close_all f) false VFS_FS_NONE).
Definition vfs_is_mounted (f : fsys) : bool := g_mounted f && vol_attached (f_vol f).
Definition vfs_root_fstype (f : fsys) : vfs_fstype_t := g_fstype f.
(** an operation of the volume, its failure reported as [err] *)
Definition on_vol {A} (m : est S A) (err : Z) (f : fsys) : outcome ((Z + A) * fsys) :=
  '(r, v) ← m (f_vol f);
  Ret (match r with Some a => inr a | None => inl err end, set_fvol f v).
Definition vfs_format (f : fsys) : outcome ((Z + unit) * fsys) :=
  if negb (vol_attached (f_vol f)) then Ret (inl VFS_ERR_NOENT, f)
  else on_vol chaseros_ext2_format VFS_ERR_IO f.

(** *** Files.  Every operation normalises its path and dispatches to /dev
    or to the volume. *)
Definition vfs_dispatch {A} (path : list Z) (dev : list Z → Z + A) (m : list Z → est S A) (err : Z)
    (f : fsys) : outcome ((Z + A) * fsys) :=
  if negb (vfs_active_vol f) then Ret (inl VFS_ERR_NOTMOUNTED, f)
  else
    r ← chaseros_path_normalize path 256;
    match r with
    | None => Ret (inl VFS_ERR_IO, f)
    | Some norm => if vfs_devfs_handles norm then Ret (dev norm, f) else on_vol (m norm) err f
    end.
Definition vfs_ls (path : option (list Z)) (f : fsys) : outcome ((Z + list (list Z * Z)) * fsys) :=
  let p := match path with None | Some [] => [slash] | Some p => p end in
  vfs_dispatch p vfs_devfs_ls chaseros_ext2_ls_at VFS_ERR_IO f.
Definition vfs_mkdir (path : list Z) : fsys → outcome ((Z + unit) * fsys) :=
  vfs_dispatch path vfs_devfs_mkdir chaseros_ext2_mkdir VFS_ERR_IO.
Definition vfs_is_directory (path : list Z) (f : fsys) : outcome (bool * fsys) :=
  if negb (vfs_active_vol f) then Ret (false, f)
  else
    r ← chaseros_path_normalize path 256;
    match r with
    | None => Ret (false, f)
    | Some norm =>
      if vfs_devfs_handles norm then Ret (vfs_devfs_is_directory norm, f)
      else '(b, v) ← chaseros_ext2_path_is_dir norm (f_vol f); Ret (b, set_fvol f v)
    end.
Definition vfs_read_file_range (name : list Z) (offset buf_sz : Z) : fsys → outcome ((Z + list Z) * fsys) :=
  vfs_dispatch name (λ norm, vfs_devfs_read_range norm offset buf_sz)
    (λ norm, chaseros_ext2_read_file_range norm offset buf_sz) VFS_ERR_IO.
Definition vfs_read_file (name : list Z) (buf_sz : Z) : fsys → outcome ((Z + list Z) * fsys) :=
  vfs_read_file_range name 0 buf_sz.
Definition vfs_write_file (name data : list Z) : fsys → outcome ((Z + unit) * fsys) :=
  vfs_dispatch name (λ norm, vfs_devfs_write_file norm data) (λ norm, chaseros_ext2_write_file norm data) VFS_ERR_IO.
Definition vfs_stat (path : list Z) : fsys → outcome ((Z + vfs_stat_t) * fsys) :=
  vfs_dispatch path vfs_devfs_stat (λ norm, sz ← chaseros_ext2_stat_file norm; mret (VfsStat 0 sz)) VFS_ERR_NOENT.
End vfs.
Arguments fsys S : clear implicits.

(** ** The VFS over a well-formed volume *)
Import Ext2Disk.Ext2Disk Ext2Spec.Ext2Spec Ext2Format.Ext2Format.
(** a path of components, none of which reaches /dev *)
Record vpath (segs : list (list Z)) : Prop := {
  vp_ok : Forall comp_ok segs;
  vp_cstr : Forall is_cstr segs;
  vp_num : (length segs <= CHASEROS_SEG_MAX)%nat;
  vp_len : (length (join segs) < 256)%nat;
  vp_dev : hd [] segs ≠ str "dev"
}.
Section on_volume.
Context {S : Type} `{BlocksLaws S}.
(** mounted on a well-formed file system with contents [img] *)
Record fs_on (f : fsys S) (n : Z) (img : image) : Prop := {
  fo_mounted : g_mounted f = true;
  fo_rep : vol_rep (f_vol f) n img;
  fo_wf : fs_wf n img
}.
Lemma fs_on_active f n img : fs_on f n img → vfs_active_vol f = true.
Proof. intros [Hm Hr _]. unfold vfs_active_vol. by rewrite Hm, (rep_attached _ _ _ Hr). Qed.
Lemma not_under_dev segs : vpath segs → is_under_dev (join segs) = false.
Proof.
  intros [Hok Hc _ _ Hd]. destruct segs as [|c segs]; [done|]. apply Forall_cons in Hok as [(Hne & _ & _ & Hs & _) _].
  apply Forall_cons in Hc as [Hc _]. change (join (c :: segs)) with (slash :: c ++ joined segs). simpl in Hd.
  unfold is_under_dev. apply not_true_iff_false. intros Hall. breflect.
  destruct c as [|c0 [|c1 [|c2 [|c3 c]]]]; [done|..]; cbn [app nth] in *.
  - destruct segs; simpl in *; unfold slash in *; lia.
  - destruct segs; simpl in *; unfold slash in *; lia.
  - apply Hd. assert (c0 = 100 ∧ c1 = 101 ∧ c2 = 118) as (-> & -> & ->) by lia. done.
  - apply Forall_cons in Hc as [_ Hc]. apply Forall_cons in Hc as [_ Hc]. apply Forall_cons in Hc as [_ Hc].
    apply Forall_cons in Hc as [Hc3 _]. destruct (decide (c3 = slash)) as [->|]; [set_solver|lia].
Qed.
Lemma norm_vpath segs : vpath segs → chaseros_path_normalize (join segs) 256 = Ret (Some (join segs)).
Proof. intros [Hok _ Hn Hl _]. by apply normalize_join. Qed.
Lemma vfs_dispatch_runs {A} f n img segs dev (m : list Z → est S A) err r img' : fs_on f n img → vpath segs →
  runs n (m (join segs)) img r img' →
  ∃ v', vfs_dispatch (join segs) dev m err f = Ret (match r with Some a => inr a | None => inl err end, set_fvol f v') ∧
        vol_rep v' n img'.
Proof.
  intros Hf Hp Hr. destruct (Hr _ (fo_rep _ _ _ Hf)) as (v' & E & Hv'). exists v'. split; [|done].
  unfold vfs_dispatch. rewrite (fs_on_active _ _ _ Hf), norm_vpath by done. ostep. cbn [negb].
  unfold vfs_devfs_handles. rewrite not_under_dev by done. unfold on_vol. by rewrite E.
Qed.
Lemma fs_on_vol f n img v img' : fs_on f n img → vol_rep v n img' → fs_wf n img' → fs_on (set_fvol f v) n img'.
Proof. intros [Hm _ _] Hv Hw. by split. Qed.
Lemma vpath_last segs base : vpath (segs ++ [base]) → is_cstr base.
Proof. intros [_ Hc _ _ _]. by apply Forall_app in Hc as [_ [? _]%Forall_cons]. Qed.
Lemma vfs_read_spec f n img cs off bsz : fs_on f n img → vpath cs → 0 <= off → 0 < bsz < 2 ^ 32 →
  ∃ v, vfs_read_file_range (join cs) off bsz f =
       Ret (match file_at img cs with
            | Some d => inr (take (Z.to_nat bsz) (drop (Z.to_nat off) d))
            | None => inl VFS_ERR_IO
            end, set_fvol f v) ∧ fs_on (set_fvol f v) n img.
Proof.
  intros Hf Hp Hoff Hb. pose proof (fo_wf _ _ _ Hf) as Hw.
  destruct (vfs_dispatch_runs f n img cs (λ norm, vfs_devfs_read_range norm off bsz)
    (λ norm, chaseros_ext2_read_file_range norm off bsz) VFS_ERR_IO _ img Hf Hp
    (read_file_at n img Hw (join cs) cs off bsz (norm_vpath cs Hp) (vp_ok _ Hp) Hoff Hb)) as (v & E & Hv).
  exists v. split; [|by apply (fs_on_vol f n img)]. unfold vfs_read_file_range. rewrite E. by destruct (file_at img cs).
Qed.
Lemma vfs_stat_spec f n img cs : fs_on f n img → vpath cs →
  ∃ v, vfs_stat (join cs) f =
       Ret (match file_at img cs with
            | Some d => inr (VfsStat 0 (Z.of_nat (length d)))
            | None => inl VFS_ERR_NOENT
            end, set_fvol f v) ∧ fs_on (set_fvol f v) n img.
Proof.
  intros Hf Hp. pose proof (fo_wf _ _ _ Hf) as Hw.
  pose proof (stat_file_at n img Hw (join cs) cs (norm_vpath cs Hp) (vp_ok _ Hp)) as Hst.
  assert (runs n (sz ← chaseros_ext2_stat_file (join cs); mret (VfsStat 0 sz)) img
    ((λ d, VfsStat 0 (Z.of_nat (length d))) <$> file_at img cs) img) as Hrun.
  { destruct (file_at img cs); [eapply runs_bind; [exact Hst|apply runs_ret]|by eapply runs_bind_none]. }
  destruct (vfs_dispatch_runs f n img cs vfs_devfs_stat (λ norm, sz ← chaseros_ext2_stat_file norm; mret (VfsStat 0 sz))
    VFS_ERR_NOENT _ img Hf Hp Hrun) as (v & E & Hv).
  exists v. split; [|by apply (fs_on_vol f n img)]. unfold vfs_stat. rewrite E. by destruct (file_at img cs).
Qed.
Lemma vfs_write_spec f n img segs base data : fs_on f n img →
  vpath (segs ++ [base]) → (length base <= 126)%nat → bytes data → Z.of_nat (length data) <= 12288 →
  (∀ k, resolve img 2 (segs ++ [base]) = Some k → is_dir_mode (inode img k) = false) →
  can_write n img segs base (Z.of_nat (length data)) →
  ∃ f' img', vfs_write_file (join (segs ++ [base])) data f = Ret (inr tt, f') ∧ fs_on f' n img' ∧
    file_at img' (segs ++ [base]) = Some data ∧
    ∀ cs, (names_file img segs base cs → file_at img' cs = Some data) ∧
          (¬ names_file img segs base cs → file_at img' cs = file_at img cs).
Proof.
  intros Hf Hp Hl Hby Hlen Hnd Hcan. pose proof (fo_wf _ _ _ Hf) as Hw.
  destruct (write_file_written n img Hw (join (segs ++ [base])) segs base data) as (r & img' & Hr & Hpost);
    [by apply norm_vpath|apply Hp|apply Hp|by eapply vpath_last|done|done|done|done|].
  destruct r as [[]|]; [|done]. destruct Hpost as (p & k & Hpp & Hpd & Hwr).
  destruct (vfs_dispatch_runs f n img (segs ++ [base]) (λ norm, vfs_devfs_write_file norm data)
    (λ norm, chaseros_ext2_write_file norm data) VFS_ERR_IO _ img' Hf Hp Hr) as (v & E & Hv).
  exists (set_fvol f v), img'. split; [exact E|]. split; [apply (fs_on_vol f n img); [done|done|apply Hwr]|].
  pose proof (written_file_at n img img' segs base p k data Hw Hpp Hpd Hwr) as Hat. split; [|done].
  apply Hat, names_self.
Qed.
Lemma vfs_write_too_long f n img cs data : fs_on f n img → vpath cs → 12288 < Z.of_nat (length data) →
  ∃ f', vfs_write_file (join cs) data f = Ret (inl VFS_ERR_IO, f') ∧ fs_on f' n img.
Proof.
  intros Hf Hp Hlen.
  assert (runs n (chaseros_ext2_write_file (join cs) data) img None img) as Hr.
  { unfold chaseros_ext2_write_file. rewrite (proj2 (Z.ltb_lt (12 * CHASEROS_BLK) _)) by (unfold CHASEROS_BLK; lia).
    apply runs_fail. }
  destruct (vfs_dispatch_runs f n img cs (λ norm, vfs_devfs_write_file norm data)
    (λ norm, chaseros_ext2_write_file norm data) VFS_ERR_IO _ img Hf Hp Hr) as (v & E & Hv).
  exists (set_fvol f v). split; [exact E|]. apply (fs_on_vol f n img); [done|done|apply Hf].
Qed.
Lemma vfs_format_spec f n img : vol_rep (f_vol f) n img →
  ∃ v img', vfs_format f = Ret (inr tt, set_fvol f v) ∧ vol_rep v n img' ∧ formatted n img'.
Proof.
  intros Hr. destruct (format_spec n (rep_range _ _ _ Hr) (f_vol f) img Hr) as (v & img' & E & Hv & Hf).
  exists v, img'. split; [|done]. unfold vfs_format. rewrite (rep_attached _ _ _ Hr). unfold on_vol. by rewrite E.
Qed.
End on_volume.

(** ** Theorems *)

(** C3. The VFS refines a map from paths to contents, writing: on a mounted
    well-formed volume and a path outside /dev that is not a directory, data
    of more than 12 KiB gives the I/O error and changes nothing; up to 12 KiB
    are written when the directory exists and has room: the call returns
    success, the volume is still mounted and well formed, and the map from
    paths to contents is the old one updated at the file and nowhere else.
    The paths updated are given by the old image: the name in that directory,
    and the other names that the file had already ([names_file]).  Every other
    path has exactly what it had: a path without a file is still without. *)
Theorem vfs_write_file_refines {S} `{BlocksLaws S} (f : fsys S) n img segs base data : fs_on f n img →
  vpath (segs ++ [base]) → (length base <= 126)%nat → bytes data →
  (∀ k, resolve img 2 (segs ++ [base]) = Some k → is_dir_mode (inode img k) = false) →
  (12288 < Z.of_nat (length data) →
   ∃ f', vfs_write_file (join (segs ++ [base])) data f = Ret (inl VFS_ERR_IO, f') ∧ fs_on f' n img) ∧
  (Z.of_nat (length data) <= 12288 → can_write n img segs base (Z.of_nat (length data)) →
   ∃ f' img', vfs_write_file (join (segs ++ [base])) data f = Ret (inr tt, f') ∧ fs_on f' n img' ∧
    file_at img' (segs ++ [base]) = Some data ∧
    ∀ cs, (names_file img segs base cs → file_at img' cs = Some data) ∧
          (¬ names_file img segs base cs → file_at img' cs = file_at img cs)).
Proof.
  intros Hf Hp Hb Hby Hnd. split; [by apply vfs_write_too_long|]. intros Hl Hc. by apply vfs_write_spec.
Qed.

(** C5. The VFS refines a map from paths to contents, reading: on a mounted
    well-formed volume [vfs_read_file_range] of a path outside /dev returns
    the bytes of the file from the offset, as many as there are up to the
    buffer size, and the I/O error exactly when the path leads to no regular
    file; [vfs_stat] returns its length, and "no entry" in the same case.
    Neither changes the volume. *)
Theorem vfs_read_refines {S} `{BlocksLaws S} (f : fsys S) n img cs off bsz : fs_on f n img → vpath cs →
  0 <= off → 0 < bsz < 2 ^ 32 →
  (∃ f', vfs_read_file_range (join cs) off bsz f =
         Ret (match file_at img cs with
              | Some d => inr (take (Z.to_nat bsz) (drop (Z.to_nat off) d))
              | None => inl VFS_ERR_IO
              end, f') ∧ fs_on f' n img) ∧
  (∃ f', vfs_stat (join cs) f =
         Ret (match file_at img cs with
              | Some d => inr (VfsStat 0 (Z.of_nat (length d)))
              | None => inl VFS_ERR_NOENT
              end, f') ∧ fs_on f' n img).
Proof.
  intros Hf Hp Hoff Hb. destruct (vfs_read_spec f n img cs off bsz) as (v & E & Hv); [done..|].
  destruct (vfs_stat_spec f n img cs) as (v' & E' & Hv'); [done..|]. split; eauto.
Qed.

(** ** Witnesses *)
#[local] Existing Instance no_ide.
Lemma demo_vpath : vpath [str "a.txt"].
Proof.
  destruct demo_name_ok as (_ & H2 & H3). split; [done|by apply Forall_singleton|unfold CHASEROS_SEG_MAX; simpl; lia|simpl; lia|].
  vm_compute. discriminate.
Qed.
Lemma demo_mounted : ∃ (f : fsys (vst unit)) img, fs_on f 256 img ∧ formatted 256 img.
Proof.
  destruct (format_spec 256 ltac:(lia) ram_disk ram_image ram_disk_rep) as (s' & img & _ & Hs & Hf).
  exists (Fsys true VFS_FS_EXT2 s' [] [slash]), img. split; [|done]. split; [done|done|apply Hf].
Qed.
Lemma vfs_write_file_refines_witness : ∃ (f f' : fsys (vst unit)) img',
  vfs_write_file (str "/a.txt") [104; 105] f = Ret (inr tt, f') ∧ fs_on f' 256 img' ∧
  file_at img' [str "a.txt"] = Some [104; 105] ∧ file_at img' [str "b.txt"] = None.
Proof.
  destruct demo_mounted as (f & img & Hf & Hfmt).
  destruct (vfs_write_file_refines f 256 img [] (str "a.txt") [104; 105] Hf demo_vpath) as [_ Hw].
  - simpl; lia.
  - repeat constructor; unfold is_byte; lia.
  - intros k Hk. cbn [app] in Hk. rewrite (demo_absent img Hfmt) in Hk. discriminate Hk.
  - destruct Hw as (f' & img' & E & Hf' & Hd & Hall); [simpl; lia|apply formatted_can_write; [lia|exact Hfmt|simpl; lia|simpl; lia]|].
    exists f, f', img'. split; [exact E|]. split; [exact Hf'|]. split; [exact Hd|].
    assert (resolve img 2 [str "b.txt"] = None) as Hnone by apply (demo_absent_b img Hfmt).
    rewrite (proj2 (Hall [str "b.txt"])); [unfold file_at; rewrite Hnone; reflexivity|].
    intros [(ds & Eds & _)|[[t Ht] _]]; [|rewrite Hnone in Ht; discriminate Ht].
    apply (app_inj_tail [] ds (str "b.txt") (str "a.txt")) in Eds as [_ Eds]. discriminate Eds.
Defined.
(** formatting any volume of 256 blocks and writing a file to it *)
Lemma demo_file_data {S} `{BlocksLaws S} data s img0 : bytes data → Z.of_nat (length data) <= 12288 → vol_rep s 256 img0 →
  ∃ s' img, vol_rep s' 256 img ∧ fs_wf 256 img ∧ file_at img [str "a.txt"] = Some data.
Proof.
  intros Hb Hl Hs. destruct (format_spec 256 ltac:(lia) s img0 Hs) as (s1 & img & _ & Hs1 & Hfmt).
  pose proof (fd_wf _ _ Hfmt) as Hw. destruct demo_name_ok as (N1 & N2 & N3).
  destruct (write_file_written 256 img Hw (str "/a.txt") [] (str "a.txt") data) as (r & img' & Hr & Hpost);
    [done|done|simpl; lia|done|simpl; lia|done|done| |].
  { cbn [app]. rewrite (demo_absent img Hfmt). done. }
  destruct r as [u|]; [|exfalso; apply Hpost; apply formatted_can_write; [lia|done|simpl; lia|lia]].
  destruct Hpost as (p & k & Hp & Hpd & Hwr). destruct (Hr _ Hs1) as (v & _ & Hv).
  exists v, img'. split; [done|]. split; [apply Hwr|]. eapply (written_file_at 256 img img' [] (str "a.txt") p k); [done..|]. apply (names_self img [] (str "a.txt")).
Qed.
Lemma demo_file {S} `{BlocksLaws S} s img0 : vol_rep s 256 img0 →
  ∃ s' img, vol_rep s' 256 img ∧ fs_wf 256 img ∧ file_at img [str "a.txt"] = Some [104; 105].
Proof. apply demo_file_data; [repeat constructor; unfold is_byte; lia|simpl; lia]. Qed.
Lemma demo_mounted_file : ∃ (f : fsys (vst unit)) img, fs_on f 256 img ∧ file_at img [str "a.txt"] = Some [104; 105].
Proof.
  destruct (demo_file ram_disk ram_image ram_disk_rep) as (s & img & Hs & Hw & Hd).
  exists (Fsys true VFS_FS_EXT2 s [] [slash]), img. by split.
Qed.
Lemma vfs_read_refines_witness : ∃ (f f' : fsys (vst unit)),
  vfs_read_file_range (str "/a.txt") 1 16 f = Ret (inr [105], f').
Proof.
  destruct demo_mounted_file as (f & img & Hf & Hd).
  destruct (vfs_read_refines f 256 img [str "a.txt"] 1 16 Hf demo_vpath ltac:(lia) ltac:(lia)) as [(f' & E & _) _].
  exists f, f'. rewrite Hd in E. exact E.
Defined.
End Vfs.
