(* ===== verification/Disks.v ===== *)
(** A file system on an IDE disk: the driver of kernel/drivers/ide.c, the
    volume and ext2 of kernel/fs/chaseros/chaseros_ext2_vol.c and the VFS of
    kernel/fs/vfs.c together.  The theorem runs the sequence the shell's
    commands run (attach the drive, format, mount, write, read) on any ports
    that keep the promise [AtaLaws] of an ATA disk. *)
From stdpp Require Import base numbers list sets strings.
From S2P Require Import Prelude Bitmap Memory Path Io Vol Ide Ext2 Ext2Dir Ext2Disk Ext2Alloc Ext2Spec Ext2Format Vfs.
Open Scope Z_scope.

Module Disks.
Import Path.Path Vol.Vol Ext2.Ext2 Ext2Disk.Ext2Disk Ext2Spec.Ext2Spec Ext2Format.Ext2Format Vfs.Vfs Ide.Ide.
(** a drive that identifies itself with its size *)
Record drive_ok (a : ata) (drive : Z) : Prop := {
  dk_drive : 0 <= drive <= 1;
  dk_size : 512 <= a_size a drive <= 2 ^ 28;
  dk_ident : length (a_ident a drive) = 256%nat;
  dk_sectors : ident_sectors (a_ident a drive) = a_size a drive
}.
Lemma fmt_root_names base : comp_ok base → base ≠ str "lost+found" → base ∉ snd <$> fmt_root_entries.
Proof.
  intros (_ & H1 & H2 & _) Hl Hin. vm_compute in Hin. repeat (apply elem_of_cons in Hin as [?|Hin]; [done|]). by apply not_elem_of_nil in Hin.
Qed.

(** End to end on a disk: attaching an IDE drive whose ports behave as an
    ATA disk of at least 256 KiB, formatting it, mounting it, writing up to
    12 KiB to a new file of the root directory and reading the file back all
    succeed, and the read returns exactly the bytes written. *)
Theorem ide_file_roundtrip {D} `{AtaLaws D} (f : fsys (vst D)) a drive base data bsz :
  ata_rep (v_dev (f_vol f)) a → disk_ok a → drive_ok a drive → g_ram_npages (f_vol f) = 0 →
  vpath [base] → base ≠ str "lost+found" → (length base <= 126)%nat → bytes data → Z.of_nat (length data) <= 12288 →
  Z.of_nat (length data) <= bsz < 2 ^ 32 → 0 < bsz →
  ∃ v f1 f2 f3 f4, chaseros_vol_attach_ide drive (f_vol f) = Ret (Some tt, v) ∧
    vfs_format (set_fvol f v) = Ret (inr tt, f1) ∧
    vfs_mount_root f1 = (VFS_ERR_NONE, f2) ∧
    vfs_write_file (join [base]) data f2 = Ret (inr tt, f3) ∧
    vfs_read_file (join [base]) bsz f3 = Ret (inr data, f4).
Proof.
  intros Ha Hok [Hd Hsz Hl Hid] Hram Hp Hlf Hb Hby Hlen Hbsz Hpos. pose (L := ide_laws (D := D)).
  destruct (attach_ide_spec (f_vol f) a drive Ha Hok Hd Hsz Hl Hid Hram) as (v & E & Hv & _).
  destruct (vfs_format_spec (H0 := L) (set_fvol f v) _ _ Hv) as (v1 & img & E1 & Hv1 & Hfmt).
  set (n := Z.min 8192 (a_size a drive / 2)) in *.
  assert (comp_ok base) as Hco by (by apply Forall_singleton, (vp_ok _ Hp)).
  set (f2 := set_root (set_fvol (set_fvol f v) v1) true VFS_FS_EXT2).
  assert (fs_on (H0 := L) f2 n img) as Hf2 by (split; [done|done|apply Hfmt]).
  destruct (vfs_write_spec (H0 := L) f2 n img [] base data Hf2 Hp Hb Hby Hlen) as (f3 & img3 & E3 & Hf3 & Hd3 & _).
  { intros k Hk. cbn [app] in Hk. by rewrite (formatted_absent n img base Hfmt) in Hk by (by apply fmt_root_names). }
  { apply formatted_can_write; [apply (rep_range (BlocksLaws := L) _ _ _ Hv1)|done| |lia]. destruct Hco. destruct base; simpl in *; [done|lia]. }
  destruct (vfs_read_spec (H0 := L) f3 n img3 [base] 0 bsz Hf3 Hp ltac:(lia) ltac:(lia)) as (v4 & E4 & _).
  exists v, (set_fvol (set_fvol f v) v1), f2, f3, (set_fvol f3 v4). split; [exact E|]. split; [exact E1|]. split; [|split; [exact E3|]].
  - unfold vfs_mount_root. by rewrite (rep_attached (BlocksLaws := L) (f_vol (set_fvol (set_fvol f v) v1)) n img Hv1).
  - unfold vfs_read_file. rewrite E4. cbn [app] in Hd3. rewrite Hd3, drop_0, take_ge by lia. done.
Qed.
Definition sim_fsys : fsys (vst ata) :=
  Fsys false VFS_FS_NONE (Vst (CVol CHASEROS_VOL_NONE 0 0 0) 0 0 (v_vm ram_disk) sim_disk) [] [slash].
Lemma ide_file_roundtrip_witness : ∃ v f1 f2 f3 f4, chaseros_vol_attach_ide 0 (f_vol sim_fsys) = Ret (Some tt, v) ∧
  vfs_format (set_fvol sim_fsys v) = Ret (inr tt, f1) ∧ vfs_mount_root f1 = (VFS_ERR_NONE, f2) ∧
  vfs_write_file (join [str "a.txt"]) [104; 105] f2 = Ret (inr tt, f3) ∧
  vfs_read_file (join [str "a.txt"]) 16 f3 = Ret (inr [104; 105], f4).
Proof.
  apply (ide_file_roundtrip sim_fsys sim_disk 0 (str "a.txt") [104; 105] 16).
  - done.
  - apply sim_disk_ok.
  - split; [lia|cbn; lia|done|done].
  - done.
  - apply demo_vpath.
  - done.
  - simpl; lia.
  - repeat constructor; unfold is_byte; lia.
  - simpl; lia.
  - simpl; lia.
  - lia.
Defined.
End Disks.
