(* ===== verification/UserFd.v ===== *)
(** User file descriptors (kernel/user_fd.c): a table of eight slots with a
    path, a size and a read cursor, over the VFS.  User memory is reached
    through the kernel's identity mapping, after the range checks of Vmm.
    [UserMemLaws] is what the descriptor layer needs to know of the volume:
    user memory outside it is unaffected by file operations, and writing
    there (or replacing the machine by one that differs only there) does not
    disturb the volume; a RAM volume satisfies it.
    Theorems: [open] takes the lowest free slot and records the size;
    [read] copies exactly the next bytes of the file to the user's buffer,
    advances the cursor and touches nothing else. *)
From stdpp Require Import base numbers list sets strings.
From S2P Require Import Prelude Bitmap Memory Pmm Vmm Path Vol Ext2 Ext2Disk Ext2Alloc Ext2Spec Ext2Format Vfs.
Open Scope Z_scope.

Module UserFd.
Import Path.Path Vol.Vol Vfs.Vfs.
Definition EIO := 5.
Definition ENOENT := 2.
Definition EBADF := 9.
Definition EMFILE := 24.
Definition EINVAL := 22.
Definition EFAULT := 14.
Definition CHASEROS_USER_FD_MIN := 3.
Definition CHASEROS_SYSCALL_MAX_IO_BYTES := 1024 * 1024.
(** enough page steps for a range of [CHASEROS_SYSCALL_MAX_IO_BYTES] *)
Definition range_fuel : nat := 300.

(** the machine inside the volume's state *)
Class UserMem (S : Type) := { s_vm : S → Vmm.Vmm.vm; s_set_vm : S → Vmm.Vmm.vm → S }.

Section user_fd.
Context {S : Type} `{Blocks S, UserMem S}.
Definition f_vm (f : fsys S) : Vmm.Vmm.vm := s_vm (f_vol f).
Definition f_write (f : fsys S) (a : Z) (l : list Z) : fsys S :=
  set_fvol f (s_set_vm (f_vol f) (Vmm.Vmm.set_mem (f_vm f) (mwrite (Vmm.Vmm.vm_mem (f_vm f)) a l))).

(** [copy_user_path]: up to [dst_sz - 1] bytes, the NUL among them *)
Fixpoint copy_loop (f : fsys S) (ua : Z) (n : nat) (dst : list Z) : outcome (Z + list Z) :=
  match n with
  | O => Ret (inl (- EINVAL))
  | Datatypes.S n =>
    ok ← Vmm.Vmm.vmm_user_range_readable range_fuel (f_vm f) ua 1;
    if negb ok then Ret (inl (- EFAULT))
    else
      let c := Vmm.Vmm.vm_mem (f_vm f) ua in
      if c =? 0 then Ret (inr dst) else copy_loop f (u64 (ua + 1)) n (dst ++ [c])
  end.
Definition copy_user_path (f : fsys S) (dst_sz : nat) (ua : Z) : outcome (Z + list Z) :=
  copy_loop f ua (dst_sz - 1) [].

(** the first slot that is not valid *)
Fixpoint free_slot (l : list user_fd_slot_t) (i : nat) : option nat :=
  match l with
  | [] => None
  | d :: l => if negb (fd_valid d) then Some i else free_slot l (i + 1)
  end.
Definition user_fd_open_kpath (path : list Z) (flags : Z) (f : fsys S) : outcome (Z * fsys S) :=
  if negb (vfs_is_mounted f) then Ret (- EINVAL, f)
  else
    '(vs, f) ← vfs_stat path f;
    match vs with
    | inl e => Ret (if e =? VFS_ERR_NOTMOUNTED then - EINVAL else - ENOENT, f)
    | inr st =>
      match free_slot (g_ufd f) 0 with
      | None => Ret (- EMFILE, f)
      | Some idx =>
        let sz := if 0xFFFFFFFF <? st_size st then 0xFFFFFFFF else u32 (st_size st) in
        Ret (CHASEROS_USER_FD_MIN + Z.of_nat idx,
             set_ufd f (<[idx := UserFdSlot true (take 127 path) 0 sz]> (g_ufd f)))
      end
    end.
(** [open] is the call after the [#ifdef]: the IPC service, which works on a
    larger state [F] with the file system [fs], or [user_fd_open_kpath] *)
Definition user_fd_sys_open {F} (fs : F → fsys S) (open : list Z → Z → F → outcome (Z * F)) (path_ptr flags : Z) (f : F)
    : outcome (Z * F) :=
  if negb (vfs_is_mounted (fs f)) then Ret (- EINVAL, f)
  else
    r ← copy_user_path (fs f) 128 path_ptr;
    match r with
    | inl e => Ret (e, f)
    | inr path =>
      r ← vfs_resolve_path (g_user_cwd (fs f)) path 256;
      match r with
      | None => Ret (- EINVAL, f)
      | Some resolved => open resolved flags f
      end
    end.
Definition bad_fd (fd : Z) : bool :=
  (fd <? CHASEROS_USER_FD_MIN) || (CHASEROS_USER_FD_MIN + Z.of_nat CHASEROS_USER_FD_NUM <=? fd).
Definition user_fd_sys_close (fd : Z) (f : fsys S) : outcome (Z * fsys S) :=
  if bad_fd fd then Ret (- EBADF, f)
  else
    let idx := fd - CHASEROS_USER_FD_MIN in
    d ← aget (g_ufd f) idx;
    if negb (fd_valid d) then Ret (- EBADF, f)
    else Ret (0, set_ufd f (<[Z.to_nat idx := UserFdSlot false (fd_path d) (fd_offset d) (fd_size d)]> (g_ufd f))).

(** [while (total < len)]: [inl] is an early return *)
Fixpoint read_loop (fuel : nat) (path : list Z) (off ua len total : Z) (f : fsys S) : outcome ((Z + Z) * fsys S) :=
  if total <? len
  then match fuel with
       | O => Loop
       | Datatypes.S fuel =>
         let chunk := if 2048 <? len - total then 2048 else len - total in
         '(vr, f) ← vfs_read_file_range path (u32 (off + u32 total)) chunk f;
         match vr with
         | inl _ => Ret (inl (- EIO), f)
         | inr kchunk =>
           let got := Z.of_nat (length kchunk) in
           if got =? 0 then Ret (inr total, f)
           else
             let f := f_write f (u64 (ua + total)) kchunk in
             if got <? chunk then Ret (inr (total + got), f)
             else read_loop fuel path off ua len (total + got) f
         end
       end
  else Ret (inr total, f).
Definition read_fuel (len : Z) : nat := Z.to_nat (len / 2048 + 2).
Definition user_fd_sys_read (fd ua len : Z) (f : fsys S) : outcome (Z * fsys S) :=
  if bad_fd fd then Ret (- EBADF, f)
  else
    let idx := fd - CHASEROS_USER_FD_MIN in
    d ← aget (g_ufd f) idx;
    if negb (fd_valid d) then Ret (- EBADF, f)
    else if CHASEROS_SYSCALL_MAX_IO_BYTES <? len then Ret (- EINVAL, f)
    else if len =? 0 then Ret (0, f)
    else
      ok ← Vmm.Vmm.vmm_user_range_writable range_fuel (f_vm f) ua len;
      if negb ok then Ret (- EFAULT, f)
      else
        let off := fd_offset d in
        let sz := fd_size d in
        if sz <=? off then Ret (0, f)
        else
          let remain := sz - off in
          let len := if remain <? len then remain else len in
          '(r, f) ← read_loop (read_fuel len) (fd_path d) off ua len 0 f;
          match r with
          | inl e => Ret (e, f)
          | inr total =>
            Ret (total, set_ufd f (<[Z.to_nat idx := UserFdSlot true (fd_path d) (u32 (off + u32 total)) sz]> (g_ufd f)))
          end.
End user_fd.

(** ** What the layer needs of user memory *)
Import Ext2Disk.Ext2Disk Ext2Spec.Ext2Spec Ext2Format.Ext2Format.
(** [um_laws m]: the volume's promise, with user memory as in [m] *)
Class UserMemLaws (S : Type) `{Blocks S, UserMem S} := {
  um_out : Z → Prop;
  um_laws : mem → BlocksLaws S;
  um_agree : ∀ m s n img a, vol_rep (BlocksLaws := um_laws m) s n img → um_out a →
    Vmm.Vmm.vm_mem (s_vm s) a = m a;
  um_write : ∀ m s n img a l, vol_rep (BlocksLaws := um_laws m) s n img →
    (∀ x, a <= x < a + Z.of_nat (length l) → um_out x) → bytes l →
    vol_rep (BlocksLaws := um_laws (mwrite m a l))
      (s_set_vm s (Vmm.Vmm.set_mem (s_vm s) (mwrite (Vmm.Vmm.vm_mem (s_vm s)) a l))) n img;
  um_root : Z;
  um_cr3 : ∀ m s n img, vol_rep (BlocksLaws := um_laws m) s n img → Vmm.Vmm.vm_cr3 (s_vm s) = um_root;
  um_pmm : Pmm.Pmm.pmm;
  um_frames : ∀ m s n img, vol_rep (BlocksLaws := um_laws m) s n img → Vmm.Vmm.vm_pmm (s_vm s) = um_pmm;
  um_bytes : ∀ m s n img, vol_rep (BlocksLaws := um_laws m) s n img → mem_bytes (Vmm.Vmm.vm_mem (s_vm s));
  um_vm : ∀ m m' s n img v, vol_rep (BlocksLaws := um_laws m) s n img → Vmm.Vmm.vm_cr3 v = um_root →
    Vmm.Vmm.vm_pmm v = um_pmm → mem_bytes (Vmm.Vmm.vm_mem v) → (∀ a, um_out a → Vmm.Vmm.vm_mem v a = m' a) →
    (∀ a, ¬ um_out a → Vmm.Vmm.vm_mem v a = Vmm.Vmm.vm_mem (s_vm s) a) →
    vol_rep (BlocksLaws := um_laws m') (s_set_vm s v) n img
}.

Section laws.
Context {S : Type} `{UserMemLaws S}.
(** mounted on contents [img], with user memory [m] *)
Definition fs_mem (f : fsys S) (n : Z) (img : image) (m : mem) : Prop := fs_on (H0 := um_laws m) f n img.
Lemma bytes_file_at n img cs d : fs_wf n img → file_at img cs = Some d → bytes d.
Proof.
  intros Hw E. destruct (file_at_inv n img Hw cs d E) as (k & _ & Hu & _ & -> & _).
  unfold file_data, data_blocks. apply Forall_take, Forall_concat, Forall_fmap, Forall_forall. intros j Hj.
  apply elem_of_seq in Hj. destruct (fi_blk _ _ _ _ _ (fw_inv _ _ Hw) k j Hu ltac:(done) ltac:(lia)) as [Hb _].
  apply (wf_img n img Hw). lia.
Qed.
Lemma fs_mem_write f n img m a l : fs_mem f n img m → (∀ x, a <= x < a + Z.of_nat (length l) → um_out x) → bytes l →
  fs_mem (f_write f a l) n img (mwrite m a l).
Proof. intros [Hm Hr Hw] Ho Hb. split; [done| |done]. by apply um_write. Qed.
(** the copy loop delivers the bytes [off + total ... off + len) *)
Lemma read_loop_spec n img cs d off ua len fuel : vpath cs → file_at img cs = Some d → 0 <= off →
  off + len <= Z.of_nat (length d) → Z.of_nat (length d) < 2 ^ 32 → 0 <= ua → ua + len <= 2 ^ 64 →
  (∀ x, ua <= x < ua + len → um_out x) →
  ∀ total f m, fs_mem f n img m → 0 <= total <= len → (Z.to_nat ((len - total + 2047) / 2048) <= fuel)%nat →
  ∃ f' m', read_loop fuel (join cs) off ua len total f = Ret (inr len, f') ∧ fs_mem f' n img m' ∧
    (∀ x, m' x = mwrite m (ua + total) (slice d (Z.to_nat (off + total)) (Z.to_nat (len - total))) x) ∧
    g_ufd f' = g_ufd f ∧ g_user_cwd f' = g_user_cwd f.
Proof.
  intros Hp Hd Hoff Hlen H32 Hua Huaw Hout. 
  induction fuel as [|fuel IH]; intros total f m Hf Ht Hfuel; cbn [read_loop]; destruct (Z.ltb_spec total len) as [Hlt|Hge].
  1: { exfalso. revert Hfuel. zdm. }
  1, 3: exists f, m; assert (total = len) as -> by lia; split; [done|]; split; [done|]; split; [|done];
       intros x; rewrite Z.sub_diag; unfold slice; rewrite take_0; unfold mwrite; simpl; case_if; [lia|done].
  set (chunk := if 2048 <? len - total then 2048 else len - total).
  assert (chunk = Z.min 2048 (len - total)) as Hch by (unfold chunk; case_if; lia).
  rewrite (u32_small total), (u32_small (off + total)) by lia.
  destruct (vfs_read_spec (H0 := um_laws m) f n img cs (off + total) chunk Hf Hp) as (v & E & Hv); [lia|lia|].
  rewrite E, Hd. ostep. set (kc := take (Z.to_nat chunk) (drop (Z.to_nat (off + total)) d)).
  assert (Z.of_nat (length kc) = chunk) as Hk by (unfold kc; rewrite length_take, length_drop; lia).
  rewrite Hk, (proj2 (Z.eqb_neq chunk 0)), (proj2 (Z.ltb_ge chunk chunk)) by lia.
  rewrite (u64_small (ua + total)) by lia.
  assert (bytes kc) as Hkb.
  { unfold kc. apply Forall_take, Forall_drop. by apply (bytes_file_at n img cs d); [apply Hf|]. }
  destruct (IH (total + chunk) (f_write (set_fvol f v) (ua + total) kc) (mwrite m (ua + total) kc))
    as (f' & m' & E' & Hf' & Hm' & Hu & Hc).
  - apply fs_mem_write; [exact Hv|intros x Hx; apply Hout; lia|done].
  - lia.
  - destruct (decide (len - total <= 2048)).
    + replace (len - (total + chunk) + 2047) with 2047 by lia. change (2047 / 2048) with 0. lia.
    + replace (len - (total + chunk) + 2047) with (len - total + 2047 + (-1) * 2048) by lia. rewrite Z.div_add by lia. lia.
  - exists f', m'. split; [exact E'|]. split; [done|]. split; [|done]. intros x. rewrite Hm'.
    replace (ua + (total + chunk)) with (ua + total + Z.of_nat (length kc)) by lia. rewrite mwrite_app. f_equal.
    replace (Z.to_nat (len - total)) with (Z.to_nat chunk + Z.to_nat (len - (total + chunk)))%nat by lia.
    rewrite slice_split. f_equal. f_equal. lia.
Qed.
Lemma file_size_bound n img cs d : fs_wf n img → file_at img cs = Some d → Z.of_nat (length d) <= 12288.
Proof.
  intros Hw E. destruct (file_at_inv n img Hw cs d E) as (k & _ & Hu & _ & _ & ->).
  by destruct (fi_size _ _ _ _ _ (fw_inv _ _ Hw) k Hu ltac:(done)).
Qed.
End laws.
Lemma free_slot_spec l : ∀ i, match free_slot l i with
  | Some x => ∃ k d, x = (i + k)%nat ∧ l !! k = Some d ∧ fd_valid d = false ∧
      ∀ j d', (j < k)%nat → l !! j = Some d' → fd_valid d' = true
  | None => ∀ j d', l !! j = Some d' → fd_valid d' = true
  end.
Proof.
  induction l as [|d l IH]; intros i; cbn [free_slot]; [intros j d' Hj; by rewrite lookup_nil in Hj|].
  destruct (fd_valid d) eqn:E; cbn [negb].
  - specialize (IH (i + 1)%nat). destruct (free_slot l (i + 1)) as [x|].
    + destruct IH as (k & d1 & -> & Hk & Hv & Hlt). exists (Datatypes.S k), d1. split; [lia|]. split; [done|]. split; [done|].
      intros [|j] d' Hj Hl; simpl in Hl; [by simplify_eq|]. eapply Hlt; [|done]. lia.
    + intros [|j] d' Hl; simpl in Hl; [by simplify_eq|]. by eapply IH.
  - exists 0%nat, d. split; [lia|]. split; [done|]. split; [done|]. lia.
Qed.

(** ** Theorems *)

(** Reading a descriptor: for an open descriptor whose slot holds the path
    of a file with contents [d] and cursor [off], a buffer that the range
    check accepts and that lies outside the volume, and a length up to 1 MiB,
    [user_fd_sys_read] terminates and returns the number of bytes from the
    cursor up to the length or the end of the file; exactly those bytes of
    the file are in the buffer, no other user memory changes, the cursor has
    advanced by their number, and the file system is unchanged. *)
Theorem user_fd_sys_read_correct {S} `{UserMemLaws S} (f : fsys S) n img m fd ua len cs off d :
  fs_mem f n img m → 3 <= fd < 11 → g_ufd f !! Z.to_nat (fd - 3) = Some (UserFdSlot true (join cs) off (Z.of_nat (length d))) →
  vpath cs → file_at img cs = Some d → 0 <= off <= Z.of_nat (length d) → 0 < len <= 1024 * 1024 →
  0 <= ua → ua + len <= 2 ^ 64 → Vmm.Vmm.vmm_user_range_writable range_fuel (f_vm f) ua len = Ret true →
  (∀ x, ua <= x < ua + len → um_out x) →
  let k := Z.min len (Z.of_nat (length d) - off) in
  ∃ f' m', user_fd_sys_read fd ua len f = Ret (k, f') ∧ fs_mem f' n img m' ∧
    (∀ x, m' x = mwrite m ua (slice d (Z.to_nat off) (Z.to_nat k)) x) ∧
    g_ufd f' = <[Z.to_nat (fd - 3) := UserFdSlot true (join cs) (off + k) (Z.of_nat (length d))]> (g_ufd f).
Proof.
  intros Hf Hfd Hslot Hp Hd Hoff Hlen Hua Hw Hrange Hout k.
  pose proof (file_size_bound n img cs d (fo_wf _ _ _ Hf) Hd) as Hsz.
  unfold user_fd_sys_read, bad_fd, CHASEROS_USER_FD_MIN, CHASEROS_USER_FD_NUM, CHASEROS_SYSCALL_MAX_IO_BYTES.
  rewrite (proj2 (Z.ltb_ge fd 3)), (proj2 (Z.leb_gt _ fd)) by lia. cbn [orb].
  unfold aget. rewrite (proj2 (Z.leb_le 0 (fd - 3))), Hslot by lia. ostep. cbn [fd_valid fd_offset fd_size fd_path negb].
  rewrite (proj2 (Z.ltb_ge _ len)), (proj2 (Z.eqb_neq len 0)), Hrange by lia. ostep. cbn [negb].
  destruct (Z.leb_spec (Z.of_nat (length d)) off) as [Hend|Hmore].
  - assert (k = 0) as -> by lia. exists f, m. split; [done|]. split; [done|]. split.
    + intros x. unfold slice. rewrite take_0. unfold mwrite. simpl. case_if; [lia|done].
    + rewrite Z.add_0_r. symmetry. by apply list_insert_id.
  - replace (if Z.of_nat (length d) - off <? len then Z.of_nat (length d) - off else len) with k by (unfold k; case_if; lia).
    destruct (read_loop_spec n img cs d off ua k (read_fuel k) Hp Hd) with (total := 0) (f := f) (m := m)
      as (f' & m' & E & Hf' & Hm' & Hu & _); [lia|lia|lia|done|lia|intros x Hx; apply Hout; lia|done|lia| |].
    { unfold read_fuel. rewrite Z.sub_0_r. zdm. }
    rewrite E. ostep. eexists _, m'. split; [done|]. split; [by split; apply Hf'|]. split.
    + intros x. rewrite Hm'. by rewrite !Z.add_0_r, Z.sub_0_r.
    + simpl. rewrite Hu, (u32_small k), (u32_small (off + k)) by lia. done.
Qed.

(** Opening a path: on a mounted well-formed volume,
    [user_fd_open_kpath] of a path of at most 127 bytes outside /dev returns
    "no entry" when it leads to no regular file; otherwise it takes the first
    slot that is not in use, which then holds the path, the cursor 0 and the
    size of the file, and returns 3 plus its index; with all eight slots in
    use it returns "too many files" and changes nothing. *)
Theorem user_fd_open_kpath_correct {S} `{BlocksLaws S} (f : fsys S) n img cs flags : fs_on f n img → vpath cs →
  (length (join cs) <= 127)%nat →
  ∃ r f', user_fd_open_kpath (join cs) flags f = Ret (r, f') ∧ fs_on f' n img ∧
    match file_at img cs with
    | None => r = - ENOENT ∧ g_ufd f' = g_ufd f
    | Some d =>
      (∃ idx e, g_ufd f !! idx = Some e ∧ fd_valid e = false ∧ (∀ j e', (j < idx)%nat → g_ufd f !! j = Some e' → fd_valid e' = true) ∧
         r = 3 + Z.of_nat idx ∧ g_ufd f' = <[idx := UserFdSlot true (join cs) 0 (Z.of_nat (length d))]> (g_ufd f)) ∨
      ((∀ j e', g_ufd f !! j = Some e' → fd_valid e' = true) ∧ r = - EMFILE ∧ g_ufd f' = g_ufd f)
    end.
Proof.
  intros Hf Hp Hl. destruct (vfs_stat_spec f n img cs Hf Hp) as (v & E & Hv). unfold user_fd_open_kpath.
  assert (vfs_is_mounted f = true) as -> by (by apply (fs_on_active f n img)). cbn [negb]. rewrite E. ostep.
  destruct (file_at img cs) as [d|] eqn:Hd.
  - pose proof (file_size_bound n img cs d (fo_wf _ _ _ Hf) Hd) as Hsz. pose proof (free_slot_spec (g_ufd f) 0) as Hfree.
    change (g_ufd (set_fvol f v)) with (g_ufd f). destruct (free_slot (g_ufd f) 0) as [x|].
    + destruct Hfree as (k & e & -> & Hk & He & Hlt). rewrite Nat.add_0_l. eexists _, _. split; [done|].
      split; [by split; apply Hv|]. left. exists k, e. split; [done|]. split; [done|]. split; [done|]. split; [done|].
      cbn [st_size g_ufd set_ufd]. rewrite (proj2 (Z.ltb_ge 0xFFFFFFFF _)), u32_small, take_ge by lia. done.
    + eexists _, _. split; [done|]. split; [done|]. by right.
  - eexists _, _. split; [done|]. split; [done|]. done.
Qed.

(** ** A RAM volume keeps its hands off user memory *)
Section ram_user.
Context {D : Type} `{IdeOps D}.
#[export] Instance vst_user_mem : UserMem (vst D) := { s_vm := v_vm; s_set_vm := set_vvm }.
(** the volume lies in the 8 MiB from [b0] on; the page tables are at [c0]
    and [p0] is the frame allocator *)
Context (b0 c0 : Z) (p0 : Pmm.Pmm.pmm).
Definition outside (a : Z) : Prop := a < b0 ∨ b0 + 8192 * CHASEROS_BLK <= a.
Definition framed (m : mem) (s : vst D) (n : Z) (img : image) : Prop :=
  ram_rep s n img ∧ (ram_base (g_vol s) = b0 ∧ Vmm.Vmm.vm_cr3 (v_vm s) = c0 ∧ Vmm.Vmm.vm_pmm (v_vm s) = p0) ∧ ∀ a, outside a → Vmm.Vmm.vm_mem (v_vm s) a = m a.
Program Definition framed_laws (m : mem) : BlocksLaws (vst D) := {| vol_rep := framed m |}.
Next Obligation. intros m s n img [Hr _]. by eapply ram_attached. Qed.
Next Obligation. intros m s n img [Hr _]. by eapply ram_check. Qed.
Next Obligation. by intros m s n img [(_ & Hs & _) _]. Qed.
Next Obligation. by intros m s n img [(_ & _ & Hn & _) _]. Qed.
Next Obligation. intros m s n img b [Hr _]. by apply (ram_block s). Qed.
Next Obligation. intros m s n img b Hf Hb. exists s. split; [|done]. destruct Hf as [Hr _]. by apply (ram_read s n). Qed.
Next Obligation. intros m s n img b Hf Hb. exists s. split; [|done]. destruct Hf as [Hr _]. by apply (ram_read_out s n img). Qed.
Next Obligation.
  intros m s n img b d (Hr & (Hb0 & Hc0 & Hp0) & Hm) Hb Hd Hby. exists (ram_put s b d). destruct (ram_write s n img b d Hr Hb Hd Hby) as [E Hr'].
  split; [done|]. split; [done|]. split; [done|]. intros a Ha. rewrite <-Hm by done. simpl.
  destruct Hr as (_ & _ & Hn & _). unfold mwrite. rewrite Hb0, Hd. unfold outside, CHASEROS_BLK in *. case_if; [lia|done].
Qed.
Next Obligation.
  intros m s n img (Hr & (Hb0 & Hc0 & Hp0) & Hm). destruct (ram_clear s n img Hr) as [img' Hr']. exists img'. split; [done|].
  destruct Hr as (Ht & Hs & Hn & _). change (vol_clear_ram s) with (v_clear_ram s). unfold v_clear_ram, is_type in *. rewrite Ht in *.
  split; [done|]. intros a Ha. rewrite <-Hm by done. simpl. rewrite Hb0, Hs. unfold outside, CHASEROS_BLK in *. case_if; [lia|done].
Qed.
Program Definition ram_user_laws : UserMemLaws (vst D) := {| um_out := outside; um_laws := framed_laws; um_root := c0; um_pmm := p0 |}.
Next Obligation. intros m s n img a (_ & _ & Hm). apply Hm. Qed.
Next Obligation.
  intros m s n img a l (Hr & (Hb0 & Hc0 & Hp0) & Hm) Ho Hby. pose proof Hr as (Ht & Hs & Hn & Hmb & Hi). split; [|split; [done|]].
  - split; [done|]. split; [done|]. split; [done|]. split; [by apply mem_bytes_mwrite|].
    intros b Hb. rewrite Hi by done. symmetry. apply mread_ext. intros x Hx. simpl. unfold mwrite. case_if; [|done].
    exfalso. specialize (Ho x ltac:(lia)). unfold outside, CHASEROS_BLK in *. simpl in Hx. lia.
  - intros x Hx. simpl. unfold mwrite. case_if; [done|by apply Hm].
Qed.
Next Obligation. by intros m s n img (_ & (_ & Hc & _) & _). Qed.
Next Obligation. by intros m s n img (_ & (_ & _ & Hc) & _). Qed.
Next Obligation. by intros m s n img ((_ & _ & _ & Hb & _) & _). Qed.
Next Obligation.
  intros m m' s n img v (Hr & (Hb0 & Hc0 & Hp0) & Hm) Hc Hpm Hby Ho Hi. pose proof Hr as (Ht & Hs & Hn & Hmb & Him). split; [|split; [done|exact Ho]].
  split; [done|]. split; [done|]. split; [done|]. split; [done|].
  intros b Hb. rewrite Him by done. symmetry. apply mread_ext. intros x Hx. simpl in *. apply Hi.
  unfold outside, CHASEROS_BLK in *. lia.
Qed.
End ram_user.

(** ** Witnesses: a RAM disk at 8 MiB and a user page at 4 MiB *)
#[local] Existing Instance no_ide.
Definition user_mem : mem := mwrite (Vmm.Vmm.boot_tables 0x87) 0x400020 (str "/a.txt").
Definition demo_frames : Pmm.Pmm.pmm := Vmm.Vmm.vm_pmm (Vmm.Vmm.boot_vm 0x87).
Definition user_vm : Vmm.Vmm.vm := Vmm.Vmm.Vm user_mem demo_frames 0x1000.
#[local] Instance demo_laws : UserMemLaws (vst unit) := ram_user_laws 0x800000 0x1000 demo_frames.
Definition user_disk : vst unit :=
  Vst (CVol CHASEROS_VOL_RAM 0x800000 (256 * 1024) 0) 0x800000 64 user_vm tt.
Lemma user_disk_framed : framed 0x800000 0x1000 demo_frames user_mem user_disk 256 (λ b, mread user_mem (0x800000 + b * CHASEROS_BLK) 1024).
Proof.
  split; [|done]. split; [done|]. split; [done|]. split; [lia|]. split; [apply mem_bytes_mwrite; [apply Vmm.Vmm.boot_bytes|repeat constructor; unfold is_byte; lia]|]. done.
Qed.
(** any address space with these tables *)
Lemma user_page_flags (v : Vmm.Vmm.vm) need : Vmm.Vmm.vm_cr3 v = 0x1000 → (∀ a, a < 0x400000 → Vmm.Vmm.vm_mem v a = user_mem a) →
  need = 0 ∨ need = Vmm.Vmm.PAGE_WRITE → Vmm.Vmm.vmm_page_has_flags v 0x400000 need = true.
Proof.
  intros Hc Hm Hneed.
  assert (∀ t i, 0 <= t + 8 * i <= 0x4000 → Vmm.Vmm.entry (Vmm.Vmm.vm_mem v) t i = Vmm.Vmm.entry user_mem t i) as He.
  { intros t i Hti. unfold Vmm.Vmm.entry, ld64. f_equal. apply mread_ext. intros x Hx. apply Hm. lia. }
  unfold Vmm.Vmm.vmm_page_has_flags, Vmm.Vmm.vmm_get_current_pml4. rewrite Hc.
  rewrite He by (vm_compute; split; discriminate).
  replace (Vmm.Vmm.entry user_mem 0x1000 (Vmm.Vmm.PML4_INDEX 0x400000)) with 0x2003 by reflexivity.
  change (Vmm.Vmm.table_of 0x2003) with 0x2000. rewrite He by (vm_compute; split; discriminate).
  replace (Vmm.Vmm.entry user_mem 0x2000 (Vmm.Vmm.PDPT_INDEX 0x400000)) with 0x3003 by reflexivity.
  change (Vmm.Vmm.table_of 0x3003) with 0x3000. rewrite He by (vm_compute; split; discriminate).
  replace (Vmm.Vmm.entry user_mem 0x3000 (Vmm.Vmm.PD_INDEX 0x400000)) with 0x87 by reflexivity. by destruct Hneed as [-> | ->].
Qed.
Lemma framed_flags (s : vst unit) n img need : framed 0x800000 0x1000 demo_frames user_mem s n img → need = 0 ∨ need = Vmm.Vmm.PAGE_WRITE →
  Vmm.Vmm.vmm_page_has_flags (v_vm s) 0x400000 need = true.
Proof. intros (_ & (_ & Hc & _) & Hm). apply user_page_flags; [exact Hc|]. intros a Ha. apply Hm. left. lia. Qed.
(** a range inside the page *)
Lemma framed_range ok a len : ok 0x400000 = true → 0 < len → 0x400000 <= a → a + len <= 0x401000 →
  Vmm.Vmm.range_check range_fuel ok a len = Ret true.
Proof.
  intros Hok Hl Ha Hal. unfold Vmm.Vmm.range_check. rewrite (proj2 (Z.eqb_neq len 0)) by lia.
  rewrite (u64_small (a + len)), (proj2 (Z.ltb_ge (a + len) a)), (u64_small (a + len - 1)) by lia.
  assert (∀ x, 0x400000 <= x < 0x401000 → Z.land x (Z.lnot (Pmm.Pmm.PAGE_SIZE - 1)) = 0x400000) as Hp.
  { intros x Hx. rewrite (land_lnot_ones x 12 (Pmm.Pmm.PAGE_SIZE - 1)) by (done || lia). zdm. }
  rewrite !Hp by lia. cbn [Vmm.Vmm.range_loop range_fuel]. unfold range_fuel. cbn [Vmm.Vmm.range_loop]. rewrite Hok. reflexivity.
Qed.
Lemma framed_page (s : vst unit) n img : framed 0x800000 0x1000 demo_frames user_mem s n img →
  Vmm.Vmm.vmm_user_range_writable range_fuel (v_vm s) 0x400010 4 = Ret true.
Proof. intros Hf. apply framed_range; [by eapply framed_flags; [|right]|lia..]. Qed.
Definition demo_slots : list user_fd_slot_t := UserFdSlot true (str "/a.txt") 1 2 :: replicate 7 (UserFdSlot false [] 0 0).
Lemma demo_user_data data : bytes data → Z.of_nat (length data) <= 12288 →
  ∃ (s : vst unit) img, framed 0x800000 0x1000 demo_frames user_mem s 256 img ∧ fs_wf 256 img ∧ file_at img [str "a.txt"] = Some data.
Proof. intros Hb Hl. apply (demo_file_data (H0 := framed_laws 0x800000 0x1000 demo_frames user_mem) data user_disk _ Hb Hl user_disk_framed). Qed.
Lemma demo_user : ∃ (s : vst unit) img, framed 0x800000 0x1000 demo_frames user_mem s 256 img ∧ fs_wf 256 img ∧
  file_at img [str "a.txt"] = Some [104; 105].
Proof. apply (demo_file (H0 := framed_laws 0x800000 0x1000 demo_frames user_mem) user_disk _ user_disk_framed). Qed.
Lemma user_fd_sys_read_correct_witness : ∃ (f f' : fsys (vst unit)) m',
  user_fd_sys_read 3 0x400010 4 f = Ret (1, f') ∧ mread m' 0x400010 1 = [105].
Proof.
  destruct demo_user as (s & img & Hs & Hw & Hd).
  pose (f := Fsys true VFS_FS_EXT2 s demo_slots [slash]).
  destruct (user_fd_sys_read_correct f 256 img user_mem 3 0x400010 4 [str "a.txt"] 1 [104; 105]) as (f' & m' & E & _ & Hm & _).
  - split; [reflexivity|exact Hs|exact Hw].
  - lia.
  - reflexivity.
  - exact demo_vpath.
  - exact Hd.
  - simpl; lia.
  - lia.
  - lia.
  - lia.
  - exact (framed_page s 256 img Hs).
  - intros x Hx. left. lia.
  - exists f, f', m'. split; [exact E|]. unfold mread. cbn [seq fmap list_fmap]. rewrite Hm. reflexivity.
Defined.
Lemma user_fd_open_kpath_correct_witness : ∃ (f f' : fsys (vst unit)) r,
  user_fd_open_kpath (str "/a.txt") 0 f = Ret (r, f') ∧ r = 4.
Proof.
  destruct (demo_file ram_disk ram_image ram_disk_rep) as (s & img & Hs & Hw & Hd).
  pose (f := Fsys true VFS_FS_EXT2 s demo_slots [slash]).
  destruct (user_fd_open_kpath_correct f 256 img [str "a.txt"] 0) as (r & f' & E & _ & Hr).
  - split; [reflexivity|exact Hs|exact Hw].
  - exact demo_vpath.
  - simpl; lia.
  - exists f, f', r. split; [exact E|]. rewrite Hd in Hr. destruct Hr as [(idx & e & He & Hv & Hlt & Hr & _)|(Hall & _)].
    + destruct idx as [|[|idx]]; [simpl in He; injection He as <-; discriminate Hv|exact Hr|].
      exfalso. specialize (Hlt 1%nat _ ltac:(lia) eq_refl). discriminate Hlt.
    + exfalso. specialize (Hall 1%nat _ eq_refl). discriminate Hall.
Defined.
End UserFd.
