(* ===== verification/HybridIpc.v ===== *)
(** The hybrid kernel's file service (kernel/hybrid_ipc.c): opening a file is
    a message to the task with pid 3, whose loop answers with the descriptor.
    The service's [user_fd_open_kpath] is the parameter [open] on a state
    [F].  Theorems: the descriptor survives its encoding in the reply; a call
    to the receiving service returns what [open] returns for the first 47
    bytes of the path, which is all that fits in a message. *)
From stdpp Require Import base numbers list strings.
From S2P Require Import Prelude Memory Pmm Vmm Process Ipc.
Open Scope Z_scope.

Module HybridIpc.
Import Pmm.Pmm Vmm.Vmm Process.Process Ipc.Ipc.
Definition CHASEROS_HYBRID_SERVICE_PID := 3.
Definition CHASEROS_MSG_NOP := 0.
Definition CHASEROS_MSG_PING := 1.
Definition CHASEROS_MSG_PONG := 2.
Definition CHASEROS_MSG_FS_OPEN := 10.
Definition CHASEROS_MSG_FS_REPLY := 11.
Definition EIO := 5.

(** [v |= (uint64_t)p[i] << (i * 8)] for [i] from 0 to 7 *)
Definition unpack_i64 (p : list Z) : Z :=
  i64 (foldl (λ v i, Z.lor v (Z.shiftl (nth i p 0) (8 * Z.of_nat i))) 0 (seq 0 8)).
Definition pack_i64 (v : Z) : list Z :=
  let u := u64 v in (λ i, u8 (Z.land (Z.shiftr u (8 * Z.of_nat i)) 0xFF)) <$> seq 0 8.

(** the request: up to 47 bytes of the path, then zeros *)
Definition fs_open_request (path : list Z) : message_t :=
  let p := take (MAX_MSG_PAYLOAD - 1) path in
  Msg 0 CHASEROS_MSG_FS_OPEN (p ++ replicate (MAX_MSG_PAYLOAD - length p) 0).
(** wait for the reply and decode it *)
Definition open_reply {K} `{Kern K} (irq : K → outcome K) (fuel : nat) (s : K) : outcome (Z * K) :=
  let cur := process_current_task_for_ipc (kget s) in
  s ← ipc_wait_until_pending irq fuel s cur;
  let '(rep, k) := ipc_consume_pending_message (kget s) cur in
  let s := kput s k in
  if negb (mtype rep =? CHASEROS_MSG_FS_REPLY) then Ret (- EIO, s)
  else Ret (unpack_i64 (payload rep), s).
Definition hybrid_user_fd_open_via_ipc {K} `{Kern K} (irq : K → outcome K) (fuel : nat) (s : K) (path : list Z) (flags : Z)
    : outcome (Z * K) :=
  '(r, k) ← ipc_send fuel (kget s) CHASEROS_HYBRID_SERVICE_PID (Some (fs_open_request path));
  let s := kput s k in
  if negb (r =? IPC_OK) then Ret (- EIO, s) else open_reply irq fuel s.

(** the path in a request: up to the first NUL of 47 bytes *)
Definition request_path (payload : list Z) : list Z := cstr (take (MAX_MSG_PAYLOAD - 1) payload).
Definition fs_reply (fd : Z) : message_t :=
  Msg CHASEROS_HYBRID_SERVICE_PID CHASEROS_MSG_FS_REPLY (pack_i64 fd ++ replicate (MAX_MSG_PAYLOAD - 8) 0).
Definition echo_reply (m : message_t) : message_t :=
  Msg CHASEROS_HYBRID_SERVICE_PID (if mtype m =? CHASEROS_MSG_PING then CHASEROS_MSG_PONG else CHASEROS_MSG_NOP) (payload m).
(** one round of the service loop *)
Definition service_round {F} (open : list Z → Z → F → outcome (Z * F)) (irq : kst → outcome kst) (fuel : nat)
    (s : kst) (f : F) : outcome (kst * F) :=
  '(m, s) ← ipc_receive irq fuel s 0;
  if mtype m =? CHASEROS_MSG_FS_OPEN
  then
    '(fd, f) ← open (request_path (payload m)) 0 f;
    Ret (snd (ipc_reply s (sender m) (Some (fs_reply fd))), f)
  else Ret (snd (ipc_reply s (sender m) (Some (echo_reply m))), f).
Definition chaseros_hybrid_ipc_service_spawn (s : kst) (loop_addr : Z) : outcome kst :=
  '(_, s) ← process_spawn_kernel_at_pid s CHASEROS_HYBRID_SERVICE_PID loop_addr; Ret s.

(** ** The encoding of the descriptor *)
Section encoding.
Lemma byte_bit u k n : 0 <= k → 0 <= n →
  Z.testbit (Z.shiftl (u8 (Z.land (Z.shiftr u (8 * k)) 0xFF)) (8 * k)) n = (8 * k <=? n) && (n <? 8 * k + 8) && Z.testbit u n.
Proof.
  intros Hk Hn. rewrite Z.shiftl_spec by done. unfold u8.
  destruct (Z.leb_spec (8 * k) n); cbn [andb]; [|by apply Z.testbit_neg_r; lia].
  change 0xFF with (Z.ones 8). rewrite Z.land_ones, Z.mod_mod by lia.
  destruct (Z.ltb_spec n (8 * k + 8)); cbn [andb].
  - rewrite Z.mod_pow2_bits_low, Z.shiftr_spec by lia. f_equal. lia.
  - by rewrite Z.mod_pow2_bits_high by lia.
Qed.
Lemma foldl_lor_bits (g : nat → Z) n l : ∀ v, Z.testbit (foldl (λ v i, Z.lor v (g i)) v l) n =
  Z.testbit v n || existsb (λ i, Z.testbit (g i) n) l.
Proof.
  induction l as [|i l IH]; intros v; cbn [foldl existsb]; [by rewrite orb_false_r|].
  by rewrite IH, Z.lor_spec, orb_assoc.
Qed.
Lemma unpack_pack v r : - 2 ^ 63 <= v < 2 ^ 63 → unpack_i64 (pack_i64 v ++ r) = v.
Proof.
  intros Hv. unfold unpack_i64.
  assert (foldl (λ w i, Z.lor w (Z.shiftl (nth i (pack_i64 v ++ r) 0) (8 * Z.of_nat i))) 0 (seq 0 8) = u64 v) as ->.
  2: { unfold i64, swrap, u64. rewrite Z.mod_mod by lia. case_if; zdm. }
  apply Z.bits_inj'. intros n Hn. rewrite foldl_lor_bits, Z.testbit_0_l. cbn [orb].
  transitivity (existsb (λ i, (8 * Z.of_nat i <=? n) && (n <? 8 * Z.of_nat i + 8) && Z.testbit (u64 v) n) (seq 0 8)).
  - unfold pack_i64. cbn [seq fmap list_fmap existsb app nth]. rewrite !byte_bit by lia. done.
  - destruct (Z.testbit (u64 v) n) eqn:E.
    + assert (n < 64) by (apply Z.nle_gt; intros ?; unfold u64 in E; by rewrite Z.mod_pow2_bits_high in E by lia).
      apply existsb_exists. exists (Z.to_nat (n / 8)). split; [apply in_seq; zdm|]. rewrite andb_true_r, Z2Nat.id by zdm.
      apply andb_true_iff. split; [apply Z.leb_le|apply Z.ltb_lt]; zdm.
    + apply not_true_iff_false. intros [i [_ Hi]]%existsb_exists. by rewrite andb_false_r in Hi.
Qed.
Lemma cstr_take_zeros k path : is_cstr path → cstr (take 47 (take 47 path ++ replicate k 0)) = take 47 path.
Proof.
  intros Hc. assert (is_cstr (take 47 path)) as Ht by (by apply Forall_take).
  rewrite take_app, take_take, Nat.min_id. destruct (47 - length (take 47 path))%nat as [|j] eqn:E.
  - rewrite take_0, app_nil_r. by apply cstr_id.
  - rewrite take_replicate. destruct (Nat.min (S j) k) eqn:E2; [rewrite app_nil_r; by apply cstr_id|].
    simpl replicate. by apply cstr_app_nul.
Qed.
Lemma request_roundtrip path : is_cstr path → request_path (payload (fs_open_request path)) = take 47 path.
Proof. intros Hc. unfold request_path, fs_open_request. cbn [payload]. by apply cstr_take_zeros. Qed.
End encoding.

(** ** Theorems *)

(** A remote open returns what the service's [open] returns for the first
    47 bytes of the path: with the service RECEIVING, the caller's send of
    the request succeeds; once the scheduler runs the service, its round
    calls [open] on that prefix and replies; and the caller's wait then ends
    at once and returns the same 64-bit result. *)
Theorem hybrid_open_via_ipc_correct {F} (open : list Z → Z → F → outcome (Z * F)) irq fuel s s1' path f fd f' :
  kwf s → state (task s 3) = PROC_STATE_RECEIVING → process_current_task_for_ipc s ≠ 3%nat → process_current_task_for_ipc s ≠ 0%nat →
  state (task s (process_current_task_for_ipc s)) = PROC_STATE_USER_SLOT → is_cstr path →
  active_user_pid s = Z.of_nat (process_current_task_for_ipc s) →
  open (take 47 path) 0 f = Ret (fd, f') → - 2 ^ 63 <= fd < 2 ^ 63 →
  let c := process_current_task_for_ipc s in
  ∃ s1, ipc_send fuel s CHASEROS_HYBRID_SERVICE_PID (Some (fs_open_request path)) = Ret (IPC_OK, s1) ∧
    (kwf s1' → current_task_idx s1' = 3%nat → task s1' 3 = set_state PROC_STATE_RUNNING (task s1 3) →
     task s1' c = task s1 c → active_user_pid s1' = active_user_pid s1 →
     ∃ s2, service_round open irq fuel s1' f = Ret (s2, f') ∧ ∃ s3, open_reply irq fuel s2 = Ret (fd, s3)).
Proof.
  intros Hs Hst Hne Hn0 Hcs Hc Hact Hopen Hfd c. pose proof (current_for_ipc_lt s Hs) as Hcl. fold c in Hcl, Hcs, Hne, Hn0, Hact.
  pose proof (request_roundtrip path Hc) as Erq. assert (mtype (fs_open_request path) = CHASEROS_MSG_FS_OPEN) as Emt by done.
  revert Erq Emt. generalize (fs_open_request path). intros rq Erq Emt.
  destruct (send_receiving fuel s 3 rq Hs ltac:(unfold MAX_TASKS; lia) Hst ltac:(fold c; lia))
    as (s1 & E1 & _ & Ha & Td & Tc). fold c in Td, Tc.
  exists s1. split; [exact E1|]. intros H1 Hcur Td1 Tc1 Hact1. rewrite Td in Td1. rewrite Tc in Tc1.
  assert (pid (task s c) = Z.of_nat c) as Hpc by (apply Hs; [done|by rewrite Hcs]).
  pose proof (receive_pending irq fuel s1' 0 H1) as E2. rewrite Hcur, Td1 in E2. cbn in E2.
  rewrite Hpc in E2. specialize (E2 ltac:(lia) ltac:(by left) ltac:(done)).
  set (s2 := upd s1' 3 (set_msg_pending 0)) in *.
  assert (kwf s2) as H2 by (apply set_pending_wf; [done|unfold MAX_TASKS; lia]).
  assert (task s2 c = task s1' c) as T2c by (apply task_upd_other; lia).
  destruct (reply_waiting s2 c (fs_reply fd) H2 Hcl) as (s3 & E3 & T3 & Ha3); [by rewrite T2c, Tc1|].
  exists s3. split.
  { unfold service_round. rewrite E2. ostep. cbn [mtype payload sender]. rewrite Emt, Erq, Hopen. ostep. by rewrite E3. }
  assert (kwf s3) as H3.
  { replace s3 with (snd (ipc_reply s2 (Z.of_nat c) (Some (fs_reply fd)))) by (by rewrite E3). apply ipc_reply_wf; [done|].
    intros x [= <-]. done. }
  change (active_user_pid s2) with (active_user_pid s1') in *. rewrite Hact1, Ha, Hact in Ha3.
  rewrite T2c, Tc1 in T3. unfold wake_state in T3. cbn [pid set_state] in T3.
  change (active_user_pid s2) with (active_user_pid s1') in T3. rewrite Hact1, Ha, Hact, Hpc, Z.eqb_refl in T3. cbn [andb] in T3.
  rewrite (proj2 (Z.eqb_neq (Z.of_nat c) 0)) in T3 by lia. cbn [negb] in T3.
  assert (process_current_task_for_ipc s3 = c) as Ecur.
  { unfold process_current_task_for_ipc. rewrite Ha3.
    assert (process_find_by_pid s3 (Z.of_nat c) = Some c) as -> by (apply find_by_pid_Some; [done|]; by rewrite T3).
    rewrite (proj2 (Z.eqb_neq (Z.of_nat c) 0)) by lia. rewrite (proj2 (is_state_true PROC_STATE_USER_SLOT _)) by (by rewrite T3). done. }
  unfold open_reply. cbn [kget kput kst_kern]. rewrite Ecur.
  assert (ipc_wait_until_pending irq fuel s3 c = Ret s3) as ->.
  { destruct fuel; cbn [ipc_wait_until_pending kget kst_kern]; rewrite T3; done. }
  ostep. unfold ipc_consume_pending_message, msg_copy_out. rewrite T3. cbn [msg_buffer set_state set_msg_pending set_msg_buffer mtype payload].
  change (mtype (fs_reply fd) =? CHASEROS_MSG_FS_REPLY) with true. cbn [negb]. eexists. f_equal. f_equal.
  unfold fs_reply. cbn [payload]. by apply unpack_pack.
Qed.

(** ** Witness: the service receives, the user task is in slot 2 *)
Lemma hybrid_open_via_ipc_correct_witness : ∃ s1,
  ipc_send 0 ipc_demo CHASEROS_HYBRID_SERVICE_PID (Some (fs_open_request (str "/a.txt"))) = Ret (IPC_OK, s1).
Proof.
  destruct (hybrid_open_via_ipc_correct (F := unit) (λ _ _ f, Ret (3, f)) (λ s, Ret s) 0 ipc_demo ipc_demo (str "/a.txt") tt 3 tt)
    as (s1 & E & _).
  - exact ipc_demo_wf.
  - reflexivity.
  - discriminate.
  - discriminate.
  - reflexivity.
  - repeat constructor; lia.
  - reflexivity.
  - reflexivity.
  - lia.
  - exists s1. exact E.
Defined.
End HybridIpc.
