(* ===== verification/Loader.v ===== *)
(** The program loaders (kernel/elf_load.c and kernel/fs/cnaf/cnab_load.c).
    An image is a list of bytes; loading writes the segments to physical
    memory.  The streaming loaders fetch the image through [read_fn], which
    returns the bytes it read and whether it succeeded, on a state [F] that
    holds the memory; [store] writes there.
    Reading outside the image is undefined behaviour.  Theorems: a flat load
    of an image whose headers are in range copies every segment to its
    address, clears the rest of it and writes nothing else, and the streaming
    loaders compute the same memory and entry point as the flat ones. *)
From stdpp Require Import base numbers list sets strings.
From S2P Require Import Prelude Memory.
Open Scope Z_scope.

Module Loader.
(** fields of a structure at the start of [l] *)
Definition f16 (l : list Z) (off : nat) : Z := le_to (slice l off 2).
Definition f32 (l : list Z) (off : nat) : Z := le_to (slice l off 4).
Definition f64 (l : list Z) (off : nat) : Z := le_to (slice l off 8).
(** [n] bytes at [off] of an object *)
Definition rd (l : list Z) (off n : Z) : outcome (list Z) :=
  if (0 <=? off) && (0 <=? n) && (off + n <=? Z.of_nat (length l))
  then Ret (slice l (Z.to_nat off) (Z.to_nat n)) else Undef.
Definition mem_zero (m : mem) (d n : Z) : mem := λ x, if (d <=? x) && (x <? d + n) then 0 else m x.

(** ** ELF64 *)
Definition ET_EXEC := 2.
Definition EM_X86_64 := 62.
Definition PT_LOAD := 1.
Definition sizeof_ehdr := 64.
Definition sizeof_phdr := 56.
Definition e_type (h : list Z) : Z := f16 h 16.
Definition e_machine (h : list Z) : Z := f16 h 18.
Definition e_entry (h : list Z) : Z := f64 h 24.
Definition e_phoff (h : list Z) : Z := f64 h 32.
Definition e_phentsize (h : list Z) : Z := f16 h 54.
Definition e_phnum (h : list Z) : Z := f16 h 56.
Definition p_type (h : list Z) : Z := f32 h 0.
Definition p_offset (h : list Z) : Z := f64 h 8.
Definition p_vaddr (h : list Z) : Z := f64 h 16.
Definition p_filesz (h : list Z) : Z := f64 h 32.
Definition p_memsz (h : list Z) : Z := f64 h 40.
(** the checks of both loaders *)
Definition elf_header_ok (eh : list Z) (elf_size : Z) : bool :=
  (nth 0 eh 0 =? 0x7f) && (nth 1 eh 0 =? 69) && (nth 2 eh 0 =? 76) && (nth 3 eh 0 =? 70) &&
  (nth 4 eh 0 =? 2) && (nth 5 eh 0 =? 1) && (e_type eh =? ET_EXEC) && (e_machine eh =? EM_X86_64) &&
  negb (elf_size <? u64 (e_phoff eh + e_phnum eh * e_phentsize eh)).
(** position of program header [i] *)
Definition ph_pos (eh : list Z) (i : nat) : Z := u64 (e_phoff eh + Z.of_nat i * e_phentsize eh).

(** [return -1] is [None]; the memory is returned in every case *)
Fixpoint elf_segments (p eh : list Z) (i k : nat) (m : mem) : outcome (option unit * mem) :=
  match k with
  | O => Ret (Some tt, m)
  | S k =>
    ph ← rd p (ph_pos eh i) sizeof_phdr;
    if negb (p_type ph =? PT_LOAD) then elf_segments p eh (i + 1) k m
    else if Z.of_nat (length p) <? u64 (p_offset ph + p_filesz ph) then Ret (None, m)
    else
      d ← rd p (p_offset ph) (p_filesz ph);
      let m := mwrite m (p_vaddr ph) d in
      let m := if p_filesz ph <? p_memsz ph
               then mem_zero m (p_vaddr ph + p_filesz ph) (p_memsz ph - p_filesz ph) else m in
      elf_segments p eh (i + 1) k m
  end.
Definition elf_load_flat (p : list Z) (m : mem) : outcome (option Z * mem) :=
  if Z.of_nat (length p) <? sizeof_ehdr then Ret (None, m)
  else
    let eh := slice p 0 64 in
    if negb (elf_header_ok eh (Z.of_nat (length p))) then Ret (None, m)
    else
      '(r, m) ← elf_segments p eh 0 (Z.to_nat (e_phnum eh)) m;
      Ret (match r with Some _ => Some (e_entry eh) | None => None end, m).

(** ** CNIM *)
Definition CNIM_MAGIC_U32 := 0x4D494E43.
Definition CNIM_RELOC_RELATIVE64 := 1.
Definition sizeof_cnim_header := 64.
Definition sizeof_cnim_segment := 40.
Definition sizeof_cnim_rela := 24.
Definition c_entry_rva (h : list Z) : Z := f64 h 16.
Definition c_image_base (h : list Z) : Z := f64 h 24.
Definition c_segment_count (h : list Z) : Z := f32 h 32.
Definition c_rela_count (h : list Z) : Z := f32 h 36.
Definition c_segment_table_offset (h : list Z) : Z := f64 h 40.
Definition c_rela_table_offset (h : list Z) : Z := f64 h 48.
Definition s_file_offset (sg : list Z) : Z := f64 sg 0.
Definition s_virt_addr (sg : list Z) : Z := f64 sg 8.
Definition s_file_size (sg : list Z) : Z := f64 sg 16.
Definition s_mem_size (sg : list Z) : Z := f64 sg 24.
Definition cnim_header_ok (h : list Z) (image_size : Z) : bool :=
  (f32 h 0 =? CNIM_MAGIC_U32) && (f16 h 4 =? 1) && negb (0 <? f16 h 6) && (f32 h 8 =? 64) &&
  negb (image_size <? u64 (c_segment_table_offset h + c_segment_count h * sizeof_cnim_segment)).
Fixpoint cnim_segments (p h : list Z) (i k : nat) (m : mem) : outcome (option unit * mem) :=
  match k with
  | O => Ret (Some tt, m)
  | S k =>
    sg ← rd p (c_segment_table_offset h + sizeof_cnim_segment * Z.of_nat i) sizeof_cnim_segment;
    if (Z.of_nat (length p) <? u64 (s_file_offset sg + s_file_size sg)) || (s_mem_size sg <? s_file_size sg) then Ret (None, m)
    else
      d ← rd p (s_file_offset sg) (s_file_size sg);
      let m := mwrite m (s_virt_addr sg) d in
      let m := mem_zero m (s_virt_addr sg + s_file_size sg) (s_mem_size sg - s_file_size sg) in
      cnim_segments p h (i + 1) k m
  end.
Fixpoint rela_loop (p h : list Z) (i k : nat) (m : mem) : outcome (option unit * mem) :=
  match k with
  | O => Ret (Some tt, m)
  | S k =>
    r ← rd p (c_rela_table_offset h + sizeof_cnim_rela * Z.of_nat i) sizeof_cnim_rela;
    if negb (f32 r 16 =? CNIM_RELOC_RELATIVE64) then Ret (None, m)
    else rela_loop p h (i + 1) k (st64 m (u64 (c_image_base h + f64 r 0)) (u64 (c_image_base h + f64 r 8)))
  end.
Definition cnim_apply_rela (h p : list Z) (m : mem) : outcome (option unit * mem) :=
  if c_rela_count h =? 0 then Ret (Some tt, m)
  else if Z.of_nat (length p) <? u64 (c_rela_table_offset h + c_rela_count h * sizeof_cnim_rela) then Ret (None, m)
  else rela_loop p h 0 (Z.to_nat (c_rela_count h)) m.
Definition cnim_load_flat (p : list Z) (m : mem) : outcome (option Z * mem) :=
  if Z.of_nat (length p) <? sizeof_cnim_header then Ret (None, m)
  else
    let h := slice p 0 64 in
    if negb (cnim_header_ok h (Z.of_nat (length p))) then Ret (None, m)
    else
      '(r, m) ← cnim_segments p h 0 (Z.to_nat (c_segment_count h)) m;
      match r with
      | None => Ret (None, m)
      | Some _ =>
        '(r, m) ← cnim_apply_rela h p m;
        Ret (match r with Some _ => Some (u64 (c_image_base h + c_entry_rva h)) | None => None end, m)
      end.

Section streaming.
(** [store f a l]: the state after writing the bytes [l] at [a] *)
Context {F : Type} (read_fn : Z → Z → F → outcome (list Z * bool * F)) (store : F → Z → list Z → F).
Definition store_zero (f : F) (d n : Z) : F := store f d (replicate (Z.to_nat n) 0).
(** copy [remain] bytes from offset [fo] of the image to [dest], 2048 at a time *)
Fixpoint stream_copy (fuel : nat) (fo dest remain : Z) (f : F) : outcome (option unit * F) :=
  if 0 <? remain
  then match fuel with
       | O => Loop
       | S fuel =>
         let chunk := if 2048 <? remain then 2048 else remain in
         '(d, ok, f) ← read_fn fo chunk f;
         let f := store f dest d in
         if negb ok then Ret (None, f)
         else stream_copy fuel (u64 (fo + chunk)) (dest + chunk) (remain - chunk) f
       end
  else Ret (Some tt, f).
Definition copy_fuel (remain : Z) : nat := Z.to_nat (remain / 2048 + 1).

Fixpoint elf_stream_segments (eh : list Z) (elf_size : Z) (i k : nat) (f : F) : outcome (option unit * F) :=
  match k with
  | O => Ret (Some tt, f)
  | S k =>
    let po := ph_pos eh i in
    if elf_size <? u64 (po + e_phentsize eh) then Ret (None, f)
    else
      '(phs, ok, f) ← read_fn po (e_phentsize eh) f;
      if negb ok then Ret (None, f)
      else
        let ph := slice phs 0 56 in
        if negb (p_type ph =? PT_LOAD) then elf_stream_segments eh elf_size (i + 1) k f
        else if elf_size <? u64 (p_offset ph + p_filesz ph) then Ret (None, f)
        else
          '(r, f) ← stream_copy (copy_fuel (p_filesz ph)) (p_offset ph) (p_vaddr ph) (p_filesz ph) f;
          match r with
          | None => Ret (None, f)
          | Some _ =>
            let f := if p_filesz ph <? p_memsz ph
                     then store_zero f (p_vaddr ph + p_filesz ph) (p_memsz ph - p_filesz ph) else f in
            elf_stream_segments eh elf_size (i + 1) k f
          end
  end.
Definition elf_load_flat_streaming (elf_size : Z) (f : F) : outcome (option Z * F) :=
  if elf_size <? sizeof_ehdr then Ret (None, f)
  else
    '(eh, ok, f) ← read_fn 0 sizeof_ehdr f;
    if negb ok then Ret (None, f)
    else if negb (elf_header_ok eh elf_size) then Ret (None, f)
    else if e_phentsize eh <? sizeof_phdr then Ret (None, f)
    else if 128 <? e_phentsize eh then Ret (None, f)
    else
      '(r, f) ← elf_stream_segments eh elf_size 0 (Z.to_nat (e_phnum eh)) f;
      Ret (match r with Some _ => Some (e_entry eh) | None => None end, f).

(** *** CNIM, streaming *)
Fixpoint cnim_stream_segments (segs : list Z) (image_size : Z) (i k : nat) (f : F) : outcome (option unit * F) :=
  match k with
  | O => Ret (Some tt, f)
  | S k =>
    let sg := slice segs (40 * i) 40 in
    if (image_size <? u64 (s_file_offset sg + s_file_size sg)) || (s_mem_size sg <? s_file_size sg) then Ret (None, f)
    else
      '(r, f) ← stream_copy (copy_fuel (s_file_size sg)) (s_file_offset sg) (s_virt_addr sg) (s_file_size sg) f;
      match r with
      | None => Ret (None, f)
      | Some _ =>
        let f := store_zero f (s_virt_addr sg + s_file_size sg) (s_mem_size sg - s_file_size sg) in
        cnim_stream_segments segs image_size (i + 1) k f
      end
  end.
Definition cnim_load_streaming (image_size : Z) (f : F) : outcome (option Z * F) :=
  if image_size <? sizeof_cnim_header then Ret (None, f)
  else
    '(h, ok, f) ← read_fn 0 sizeof_cnim_header f;
    if negb ok then Ret (None, f)
    else if negb (cnim_header_ok h image_size) then Ret (None, f)
    else if 16 <? c_segment_count h then Ret (None, f)
    else
      '(segs, ok, f) ← read_fn (c_segment_table_offset h) (c_segment_count h * sizeof_cnim_segment) f;
      if negb ok then Ret (None, f)
      else
        '(r, f) ← cnim_stream_segments segs image_size 0 (Z.to_nat (c_segment_count h)) f;
        match r with
        | None => Ret (None, f)
        | Some _ =>
          if negb (c_rela_count h =? 0) then Ret (None, f)
          else Ret (Some (u64 (c_image_base h + c_entry_rva h)), f)
        end.
End streaming.

(** ** Streaming is loading *)
(** Addresses [ok] hold loaded code; [agree] is equality there. *)
Definition agree (ok : Z → Prop) (m m' : mem) : Prop := ∀ x, ok x → m x = m' x.
(** [read_fn] reads the image [p] and leaves loadable memory alone, and
    [store] writes there without disturbing the image *)
Record streams {F} (read_fn : Z → Z → F → outcome (list Z * bool * F)) (store : F → Z → list Z → F)
    (p : list Z) (mem_of : F → mem) (Inv : F → Prop) (ok : Z → Prop) : Prop := {
  st_read : ∀ off n f, Inv f → 0 <= off → 0 < n <= 2 ^ 20 → off + n <= Z.of_nat (length p) →
    ∃ f', read_fn off n f = Ret (slice p (Z.to_nat off) (Z.to_nat n), true, f') ∧ Inv f' ∧ agree ok (mem_of f') (mem_of f);
  st_store : ∀ f a l, Inv f → bytes l → (∀ x, a <= x < a + Z.of_nat (length l) → ok x) →
    Inv (store f a l) ∧ agree ok (mem_of (store f a l)) (mwrite (mem_of f) a l)
}.

Lemma rd_in p off n : 0 <= off → 0 <= n → off + n <= Z.of_nat (length p) →
  rd p off n = Ret (slice p (Z.to_nat off) (Z.to_nat n)).
Proof. intros. unfold rd. rewrite !(proj2 (Z.leb_le _ _)) by lia. done. Qed.
Lemma field_bound l off n : bytes l → 0 <= le_to (slice l off n) < 256 ^ Z.of_nat n.
Proof.
  intros Hb. pose proof (le_to_bound (slice l off n) (bytes_slice _ _ _ Hb)) as [H1 H2]. split; [done|].
  eapply Z.lt_le_trans; [exact H2|]. apply Z.pow_le_mono_r; [lia|]. unfold slice. rewrite length_take. lia.
Qed.
Lemma f64_bound l off : bytes l → 0 <= f64 l off < 2 ^ 64.
Proof. intros Hb. pose proof (field_bound l off 8 Hb). by change (256 ^ Z.of_nat 8) with (2 ^ 64) in *. Qed.
Lemma f32_bound l off : bytes l → 0 <= f32 l off < 2 ^ 32.
Proof. intros Hb. pose proof (field_bound l off 4 Hb). by change (256 ^ Z.of_nat 4) with (2 ^ 32) in *. Qed.
Lemma f16_bound l off : bytes l → 0 <= f16 l off < 2 ^ 16.
Proof. intros Hb. pose proof (field_bound l off 2 Hb). by change (256 ^ Z.of_nat 2) with (2 ^ 16) in *. Qed.
Lemma slice_slice l a n b k : (b + k <= n)%nat → slice (slice l a n) b k = slice l (a + b) k.
Proof.
  intros Hb. unfold slice. rewrite skipn_firstn_comm, take_take, drop_drop, Nat.min_l by lia. done.
Qed.

Section streams.
Context {F : Type} (read_fn : Z → Z → F → outcome (list Z * bool * F)) (store : F → Z → list Z → F).
Context (p : list Z) (mem_of : F → mem) (Inv : F → Prop) (ok : Z → Prop).
Context (Hst : streams read_fn store p mem_of Inv ok) (Hbytes : bytes p) (Hsize : Z.of_nat (length p) < 2 ^ 63).
Lemma agree_mwrite m m' a l : agree ok m m' → agree ok (mwrite m a l) (mwrite m' a l).
Proof. intros Hm x Hx. unfold mwrite. by rewrite (Hm x Hx). Qed.
Lemma agree_trans m1 m2 m3 : agree ok m1 m2 → agree ok m2 m3 → agree ok m1 m3.
Proof. intros H1 H2 x Hx. by rewrite (H1 x Hx), (H2 x Hx). Qed.
Lemma mem_zero_mwrite m d n x : 0 <= n → mem_zero m d n x = mwrite m d (replicate (Z.to_nat n) 0) x.
Proof.
  intros Hn. unfold mem_zero, mwrite. rewrite length_replicate, Z2Nat.id by done. case_if; [|done].
  by rewrite nth_replicate.
Qed.
Lemma stream_copy_spec fuel : ∀ fo dest remain f m, Inv f → agree ok (mem_of f) m → 0 <= fo → 0 <= remain →
  fo + remain <= Z.of_nat (length p) → (∀ x, dest <= x < dest + remain → ok x) →
  (Z.to_nat ((remain + 2047) / 2048) <= fuel)%nat →
  ∃ f', stream_copy read_fn store fuel fo dest remain f = Ret (Some tt, f') ∧ Inv f' ∧
    agree ok (mem_of f') (mwrite m dest (slice p (Z.to_nat fo) (Z.to_nat remain))).
Proof.
  induction fuel as [|fuel IH]; intros fo dest remain f m Hf Hm Hfo Hr Hin Hok Hfu; cbn [stream_copy];
    destruct (Z.ltb_spec 0 remain) as [Hpos|Hz].
  1: { exfalso. revert Hfu. zdm. }
  1, 3: exists f; split; [done|]; split; [done|]; assert (remain = 0) as -> by lia; intros x Hx; rewrite (Hm x Hx);
    unfold slice; rewrite take_0; unfold mwrite; simpl; case_if; [lia|done].
  set (chunk := if 2048 <? remain then 2048 else remain).
  assert (chunk = Z.min 2048 remain) as Hc by (unfold chunk; case_if; lia).
  destruct (st_read _ _ _ _ _ _ Hst fo chunk f Hf) as (f1 & E1 & Hf1 & Hm1); [lia|lia|lia|]. rewrite E1. ostep. cbn [negb].
  rewrite (u64_small (fo + chunk)) by lia. set (d := slice p (Z.to_nat fo) (Z.to_nat chunk)).
  assert (Z.of_nat (length d) = chunk) as Hl by (unfold d, slice; rewrite length_take, length_drop; lia).
  destruct (st_store _ _ _ _ _ _ Hst f1 dest d Hf1) as [Hf2 Hm2]; [by apply bytes_slice|intros x Hx; apply Hok; lia|].
  destruct (IH (fo + chunk) (dest + chunk) (remain - chunk) (store f1 dest d) (mwrite m dest d))
    as (f' & E & Hf' & Hm'); [done| |lia|lia|lia|intros x Hx; apply Hok; lia| |].
  { eapply agree_trans; [exact Hm2|]. apply agree_mwrite. by eapply agree_trans. }
  { destruct (decide (remain <= 2048)).
    - replace (remain - chunk + 2047) with 2047 by lia. change (2047 / 2048) with 0. lia.
    - replace (remain - chunk + 2047) with (remain + 2047 + (-1) * 2048) by lia. rewrite Z.div_add by lia. lia. }
  exists f'. split; [exact E|]. split; [done|]. intros x Hx. rewrite (Hm' x Hx).
  replace (dest + chunk) with (dest + Z.of_nat (length d)) by lia. rewrite mwrite_app. f_equal. unfold d.
  replace (Z.to_nat remain) with (Z.to_nat chunk + Z.to_nat (remain - chunk))%nat by lia.
  rewrite slice_split. f_equal. f_equal. lia.
Qed.
(** the file part and the cleared part of a segment *)
Lemma stream_segment_spec off v fsz msz f m1 : Inv f → agree ok (mem_of f) m1 → 0 <= off → 0 <= fsz →
  off + fsz <= Z.of_nat (length p) → (∀ x, v <= x < v + fsz + Z.max 0 msz → ok x) →
  ∃ f', stream_copy read_fn store (copy_fuel fsz) off v fsz f = Ret (Some tt, f') ∧
    rd p off fsz = Ret (slice p (Z.to_nat off) (Z.to_nat fsz)) ∧
    Inv f' ∧ agree ok (mem_of f') (mwrite m1 v (slice p (Z.to_nat off) (Z.to_nat fsz))) ∧
    (0 <= msz → Inv (store_zero store f' (v + fsz) msz) ∧ agree ok (mem_of (store_zero store f' (v + fsz) msz))
       (mem_zero (mwrite m1 v (slice p (Z.to_nat off) (Z.to_nat fsz))) (v + fsz) msz)).
Proof.
  intros Hf Hm Ho Hfs Hin Hok.
  destruct (stream_copy_spec (copy_fuel fsz) off v fsz f m1) as (f' & E & Hf' & Hm');
    [done|done|done|done|done|intros x Hx; apply Hok; lia|unfold copy_fuel; zdm|].
  exists f'. split; [done|]. split; [by apply rd_in|]. split; [done|]. split; [done|]. intros Hmsz. unfold store_zero.
  destruct (st_store _ _ _ _ _ _ Hst f' (v + fsz) (replicate (Z.to_nat msz) 0) Hf') as [Hi Ha].
  { apply Forall_replicate. unfold is_byte. lia. }
  { intros x Hx. rewrite length_replicate in Hx. apply Hok. lia. }
  split; [done|]. intros x Hx. rewrite (Ha x Hx), mem_zero_mwrite by done. unfold mwrite at 1 2. by rewrite (Hm' x Hx).
Qed.

(** *** ELF *)
Definition phdr (eh : list Z) (i : nat) : list Z := slice p (Z.to_nat (ph_pos eh i)) 56.
Lemma elf_segments_equiv eh elf_n k : bytes eh → 56 <= e_phentsize eh <= 128 →
  (∀ i, (i < elf_n)%nat → 0 <= e_phoff eh + Z.of_nat i * e_phentsize eh ∧
     e_phoff eh + Z.of_nat i * e_phentsize eh + e_phentsize eh <= Z.of_nat (length p) ∧
     (p_type (phdr eh i) = PT_LOAD → p_offset (phdr eh i) + p_filesz (phdr eh i) < 2 ^ 64 ∧
       ∀ x, p_vaddr (phdr eh i) <= x < p_vaddr (phdr eh i) + Z.max (p_filesz (phdr eh i)) (p_memsz (phdr eh i)) → ok x)) →
  ∀ i f m1, (i + k = elf_n)%nat → Inv f → agree ok (mem_of f) m1 →
  ∃ r f' m1', elf_stream_segments read_fn store eh (Z.of_nat (length p)) i k f = Ret (r, f') ∧ Inv f' ∧
    elf_segments p eh i k m1 = Ret (r, m1') ∧ agree ok (mem_of f') m1'.
Proof.
  intros Hbe Hent Hph. induction k as [|k IH]; intros i f m1 Hi Hf Hm; cbn [elf_stream_segments elf_segments].
  { by exists (Some tt), f, m1. }
  destruct (Hph i) as (H0 & H1 & H2); [lia|]. pose proof (f64_bound eh 32 Hbe).
  assert (ph_pos eh i = e_phoff eh + Z.of_nat i * e_phentsize eh) as Epos by (unfold ph_pos; apply u64_small; lia).
  rewrite (u64_small (ph_pos eh i + e_phentsize eh)), (proj2 (Z.ltb_ge (Z.of_nat (length p)) _)) by lia.
  destruct (st_read _ _ _ _ _ _ Hst (ph_pos eh i) (e_phentsize eh) f Hf) as (f1 & E1 & Hf1 & Hm1); [lia|lia|lia|].
  rewrite E1. ostep. cbn [negb]. assert (agree ok (mem_of f1) m1) as Hm1' by (by eapply agree_trans).
  rewrite (rd_in p (ph_pos eh i) sizeof_phdr) by (unfold sizeof_phdr; lia). ostep.
  change (slice p (Z.to_nat (ph_pos eh i)) (Z.to_nat sizeof_phdr)) with (phdr eh i).
  rewrite slice_slice, Nat.add_0_r by lia. fold (phdr eh i).
  assert (bytes (phdr eh i)) as Hbp by (by apply bytes_slice).
  pose proof (f64_bound (phdr eh i) 8 Hbp) as Bo. pose proof (f64_bound (phdr eh i) 32 Hbp) as Bf.
  fold (p_offset (phdr eh i)) in Bo. fold (p_filesz (phdr eh i)) in Bf.
  destruct (Z.eqb_spec (p_type (phdr eh i)) PT_LOAD) as [Hload|Hload]; cbn [negb]; [|apply IH; [lia|done|done]].
  destruct (H2 Hload) as [Hnw Hok]. rewrite (u64_small (p_offset (phdr eh i) + _)) by lia.
  destruct (Z.ltb_spec (Z.of_nat (length p)) (p_offset (phdr eh i) + p_filesz (phdr eh i))) as [Hover|Hin].
  { by exists None, f1, m1. }
  destruct (stream_segment_spec (p_offset (phdr eh i)) (p_vaddr (phdr eh i)) (p_filesz (phdr eh i))
    (p_memsz (phdr eh i) - p_filesz (phdr eh i)) f1 m1) as (f' & E & Er & Hf' & Hw & Hz);
    [done|done|lia|lia|lia|intros x Hx; apply Hok; lia|].
  rewrite E, Er. ostep. destruct (Z.ltb_spec (p_filesz (phdr eh i)) (p_memsz (phdr eh i))).
  - destruct Hz as [Hz1 Hz2]; [lia|]. apply IH; [lia|done|done].
  - apply IH; [lia|done|done].
Qed.

(** *** CNIM *)
Definition csegs (h : list Z) (i : nat) : list Z := slice p (Z.to_nat (c_segment_table_offset h + 40 * Z.of_nat i)) 40.
Lemma cnim_segments_equiv h segs n k : bytes h →
  c_segment_table_offset h + 40 * Z.of_nat n <= Z.of_nat (length p) →
  segs = slice p (Z.to_nat (c_segment_table_offset h)) (40 * n) →
  (∀ i, (i < n)%nat → s_file_offset (csegs h i) + s_file_size (csegs h i) < 2 ^ 64 ∧
     ∀ x, s_virt_addr (csegs h i) <= x < s_virt_addr (csegs h i) + s_mem_size (csegs h i) → ok x) →
  ∀ i f m1, (i + k = n)%nat → Inv f → agree ok (mem_of f) m1 →
  ∃ r f' m1', cnim_stream_segments read_fn store segs (Z.of_nat (length p)) i k f = Ret (r, f') ∧ Inv f' ∧
    cnim_segments p h i k m1 = Ret (r, m1') ∧ agree ok (mem_of f') m1'.
Proof.
  intros Hbh Htab -> Hnw. induction k as [|k IH]; intros i f m1 Hi Hf Hm; cbn [cnim_stream_segments cnim_segments].
  { by exists (Some tt), f, m1. }
  pose proof (f64_bound h 40 Hbh) as Bt. fold (c_segment_table_offset h) in Bt.
  rewrite (rd_in p (c_segment_table_offset h + _) sizeof_cnim_segment) by (unfold sizeof_cnim_segment; lia). ostep.
  change (slice p (Z.to_nat (c_segment_table_offset h + sizeof_cnim_segment * Z.of_nat i)) (Z.to_nat sizeof_cnim_segment)) with (csegs h i).
  assert (slice (slice p (Z.to_nat (c_segment_table_offset h)) (40 * n)) (40 * i) 40 = csegs h i) as ->.
  { rewrite slice_slice by lia. unfold csegs. f_equal. lia. }
  assert (bytes (csegs h i)) as Hbp by (by apply bytes_slice). destruct (Hnw i) as [Hn1 Hok]; [lia|].
  pose proof (f64_bound (csegs h i) 0 Hbp) as Bo. pose proof (f64_bound (csegs h i) 16 Hbp) as Bf.
  fold (s_file_offset (csegs h i)) in Bo. fold (s_file_size (csegs h i)) in Bf.
  rewrite (u64_small (s_file_offset (csegs h i) + _)) by lia.
  destruct (Z.ltb_spec (Z.of_nat (length p)) (s_file_offset (csegs h i) + s_file_size (csegs h i))) as [Hover|Hin].
  { by exists None, f, m1. }
  cbn [orb]. destruct (Z.ltb_spec (s_mem_size (csegs h i)) (s_file_size (csegs h i))); [by exists None, f, m1|].
  destruct (stream_segment_spec (s_file_offset (csegs h i)) (s_virt_addr (csegs h i)) (s_file_size (csegs h i))
    (s_mem_size (csegs h i) - s_file_size (csegs h i)) f m1) as (f' & E & Er & Hf' & Hw & Hz);
    [done|done|lia|lia|lia|intros x Hx; apply Hok; lia|].
  rewrite E, Er. ostep. destruct Hz as [Hz1 Hz2]; [lia|]. apply IH; [lia|done|done].
Qed.
End streams.

(** ** What a flat load leaves in memory *)
Section placing.
Context (p : list Z) (Hbytes : bytes p) (Hsize : Z.of_nat (length p) < 2 ^ 63).
Definition in_seg (ph : list Z) (x : Z) : Prop := p_vaddr ph <= x < p_vaddr ph + p_memsz ph.
(** the byte of a segment at address [x]: from the file, then zero *)
Definition seg_byte (ph : list Z) (x : Z) : Z :=
  if x - p_vaddr ph <? p_filesz ph then nth (Z.to_nat (p_offset ph + (x - p_vaddr ph))) p 0 else 0.
(** program headers of a loadable image *)
Record elf_image (eh : list Z) : Prop := {
  ei_table : e_phoff eh + e_phnum eh * e_phentsize eh <= Z.of_nat (length p);
  ei_ent : 56 <= e_phentsize eh <= 128;
  ei_seg : ∀ i, (i < Z.to_nat (e_phnum eh))%nat → p_type (phdr p eh i) = PT_LOAD →
    p_offset (phdr p eh i) + p_filesz (phdr p eh i) <= Z.of_nat (length p) ∧ p_filesz (phdr p eh i) <= p_memsz (phdr p eh i);
  ei_disj : ∀ i j x, (i < j < Z.to_nat (e_phnum eh))%nat → p_type (phdr p eh i) = PT_LOAD → p_type (phdr p eh j) = PT_LOAD →
    in_seg (phdr p eh i) x → in_seg (phdr p eh j) x → False
}.
Lemma ei_pos eh i : bytes eh → elf_image eh → (i < Z.to_nat (e_phnum eh))%nat →
  0 <= e_phoff eh + Z.of_nat i * e_phentsize eh ∧
  e_phoff eh + Z.of_nat i * e_phentsize eh + e_phentsize eh <= Z.of_nat (length p).
Proof.
  intros Hb [Ht He _ _] Hi. pose proof (f64_bound eh 32 Hb). pose proof (f16_bound eh 56 Hb).
  fold (e_phoff eh) in *. fold (e_phnum eh) in *. nia.
Qed.
Lemma seg_placed m ph x : bytes ph → p_offset ph + p_filesz ph <= Z.of_nat (length p) → p_filesz ph <= p_memsz ph →
  let d := slice p (Z.to_nat (p_offset ph)) (Z.to_nat (p_filesz ph)) in
  let m1 := mwrite m (p_vaddr ph) d in
  let m2 := if p_filesz ph <? p_memsz ph then mem_zero m1 (p_vaddr ph + p_filesz ph) (p_memsz ph - p_filesz ph) else m1 in
  (in_seg ph x → m2 x = seg_byte ph x) ∧ (¬ in_seg ph x → m2 x = m x).
Proof.
  intros Hb Hin Hms d m1 m2. pose proof (f64_bound ph 8 Hb). pose proof (f64_bound ph 32 Hb).
  fold (p_offset ph) in *. fold (p_filesz ph) in *.
  assert (Z.of_nat (length d) = p_filesz ph) as Hl by (unfold d, slice; rewrite length_take, length_drop; lia).
  assert (m2 x = if (p_vaddr ph + p_filesz ph <=? x) && (x <? p_vaddr ph + p_memsz ph) then 0 else m1 x) as ->.
  { unfold m2. destruct (Z.ltb_spec (p_filesz ph) (p_memsz ph)).
    - unfold mem_zero. by replace (p_vaddr ph + p_filesz ph + (p_memsz ph - p_filesz ph)) with (p_vaddr ph + p_memsz ph) by lia.
    - destruct (Z.leb_spec (p_vaddr ph + p_filesz ph) x); cbn [andb]; [|done]. by rewrite (proj2 (Z.ltb_ge x (p_vaddr ph + p_memsz ph))) by lia. }
  unfold m1, mwrite, seg_byte, in_seg. rewrite Hl. split; intros Hx.
  - destruct (Z.leb_spec (p_vaddr ph + p_filesz ph) x).
    + rewrite (proj2 (Z.ltb_lt x (p_vaddr ph + p_memsz ph))), (proj2 (Z.ltb_ge (x - p_vaddr ph) _)) by lia. done.
    + cbn [andb]. rewrite (proj2 (Z.leb_le (p_vaddr ph) x)), (proj2 (Z.ltb_lt x _)), (proj2 (Z.ltb_lt (x - p_vaddr ph) _)) by lia.
      cbn [andb]. unfold d, slice. rewrite nth_firstn, (proj2 (Nat.ltb_lt _ _)) by lia. rewrite nth_skipn. f_equal. lia.
  - destruct (Z.leb_spec (p_vaddr ph + p_filesz ph) x), (Z.ltb_spec x (p_vaddr ph + p_memsz ph)),
      (Z.leb_spec (p_vaddr ph) x), (Z.ltb_spec x (p_vaddr ph + p_filesz ph)); cbn [andb]; try done; lia.
Qed.
Lemma elf_segments_place eh k : bytes eh → elf_image eh → ∀ i m, (i + k = Z.to_nat (e_phnum eh))%nat →
  ∃ m', elf_segments p eh i k m = Ret (Some tt, m') ∧
    (∀ x, (∀ j, (i <= j < i + k)%nat → p_type (phdr p eh j) = PT_LOAD → ¬ in_seg (phdr p eh j) x) → m' x = m x) ∧
    (∀ j x, (i <= j < i + k)%nat → p_type (phdr p eh j) = PT_LOAD → in_seg (phdr p eh j) x → m' x = seg_byte (phdr p eh j) x).
Proof.
  intros Hbe Himg. induction k as [|k IH]; intros i m Hi; cbn [elf_segments].
  { exists m. split; [done|]. split; [done|]. lia. }
  destruct (ei_pos eh i Hbe Himg) as [H0 H1]; [lia|]. pose proof (ei_ent _ Himg).
  assert (ph_pos eh i = e_phoff eh + Z.of_nat i * e_phentsize eh) as Epos by (unfold ph_pos; apply u64_small; lia).
  rewrite (rd_in p (ph_pos eh i) sizeof_phdr) by (unfold sizeof_phdr; lia). ostep.
  change (slice p (Z.to_nat (ph_pos eh i)) (Z.to_nat sizeof_phdr)) with (phdr p eh i).
  assert (bytes (phdr p eh i)) as Hbp by (by apply bytes_slice).
  destruct (Z.eqb_spec (p_type (phdr p eh i)) PT_LOAD) as [Hload|Hload]; cbn [negb].
  - destruct (ei_seg _ Himg i ltac:(lia) Hload) as [Hin Hms].
    pose proof (f64_bound (phdr p eh i) 8 Hbp) as Bo. pose proof (f64_bound (phdr p eh i) 32 Hbp) as Bf.
    fold (p_offset (phdr p eh i)) in Bo. fold (p_filesz (phdr p eh i)) in Bf.
    rewrite (u64_small (p_offset (phdr p eh i) + _)), (proj2 (Z.ltb_ge (Z.of_nat (length p)) _)) by lia.
    rewrite rd_in by lia. ostep. cbv zeta.
    match goal with |- context [elf_segments p eh (i + 1) k ?mm] => set (m2 := mm) end.
    assert (∀ x, (in_seg (phdr p eh i) x → m2 x = seg_byte (phdr p eh i) x) ∧ (¬ in_seg (phdr p eh i) x → m2 x = m x)) as Hm2
      by (intros x; by apply (seg_placed m (phdr p eh i) x)).
    destruct (IH (i + 1)%nat m2 ltac:(lia)) as (m' & E & Hout & Hseg). exists m'. split; [done|]. split.
    + intros x Hx. rewrite Hout by (intros j Hj; apply Hx; lia). apply Hm2. apply Hx; [lia|done].
    + intros j x Hj Hl Hxj. destruct (decide (j = i)) as [->|Hne]; [|apply Hseg; (done || lia)].
      rewrite Hout; [by apply Hm2|]. intros j Hj' Hl' Hx'. by apply (ei_disj _ Himg i j x ltac:(lia) Hload Hl').
  - destruct (IH (i + 1)%nat m ltac:(lia)) as (m' & E & Hout & Hseg). exists m'. split; [done|]. split.
    + intros x Hx. apply Hout. intros j Hj. apply Hx. lia.
    + intros j x Hj Hl Hxj. destruct (decide (j = i)) as [->|Hne]; [done|]. apply Hseg; (done || lia).
Qed.
End placing.

(** an image of 1 to 16 segments in loadable memory, without relocations and
    without offsets that wrap around *)
Record cnim_streamable (p : list Z) (ok : Z → Prop) : Prop := {
  cs_count : 1 <= c_segment_count (slice p 0 64) <= 16;
  cs_rela : c_rela_count (slice p 0 64) = 0;
  cs_table : c_segment_table_offset (slice p 0 64) < 2 ^ 63;
  cs_segs : ∀ i, (i < Z.to_nat (c_segment_count (slice p 0 64)))%nat →
    s_file_offset (csegs p (slice p 0 64) i) + s_file_size (csegs p (slice p 0 64) i) < 2 ^ 64 ∧
    ∀ x, s_virt_addr (csegs p (slice p 0 64) i) <= x <
         s_virt_addr (csegs p (slice p 0 64) i) + s_mem_size (csegs p (slice p 0 64) i) → ok x
}.
(** the two CNIM loaders *)
Lemma cnim_load_equiv {F} read_fn store p (mem_of : F → mem) Inv ok f : streams read_fn store p mem_of Inv ok → bytes p →
  Inv f → Z.of_nat (length p) < 2 ^ 63 → cnim_streamable p ok →
  ∃ r f' m', cnim_load_streaming read_fn store (Z.of_nat (length p)) f = Ret (r, f') ∧ Inv f' ∧
    cnim_load_flat p (mem_of f) = Ret (r, m') ∧ agree ok (mem_of f') m'.
Proof.
  intros Hst Hb Hf Hl [Hcnt Hrel Htab Hseg]. set (h := slice p 0 64) in *. assert (bytes h) as Hbh by (by apply bytes_slice).
  unfold cnim_load_streaming, cnim_load_flat. fold h.
  destruct (Z.ltb_spec (Z.of_nat (length p)) sizeof_cnim_header) as [Hs|Hs]; [by exists None, f, (mem_of f)|].
  destruct (st_read _ _ _ _ _ _ Hst 0 sizeof_cnim_header f Hf) as (f1 & E1 & Hf1 & Hm1); [lia|unfold sizeof_cnim_header; lia|lia|].
  rewrite E1. ostep. cbn [negb]. change (slice p (Z.to_nat 0) (Z.to_nat sizeof_cnim_header)) with h.
  destruct (cnim_header_ok h (Z.of_nat (length p))) eqn:Hok; cbn [negb]; [|by exists None, f1, (mem_of f)].
  rewrite (proj2 (Z.ltb_ge 16 (c_segment_count h))) by lia.
  pose proof (f64_bound h 40 Hbh) as B1. fold (c_segment_table_offset h) in B1.
  assert (c_segment_table_offset h + c_segment_count h * 40 <= Z.of_nat (length p)) as Hin.
  { unfold cnim_header_ok in Hok. apply andb_true_iff in Hok as [_ Hok]. unfold sizeof_cnim_segment in Hok.
    rewrite u64_small in Hok by lia. breflect. lia. }
  destruct (st_read _ _ _ _ _ _ Hst (c_segment_table_offset h) (c_segment_count h * sizeof_cnim_segment) f1 Hf1)
    as (f2 & E2 & Hf2 & Hm2); [lia|unfold sizeof_cnim_segment; lia|unfold sizeof_cnim_segment; lia|]. rewrite E2. ostep. cbn [negb].
  replace (Z.to_nat (c_segment_count h * sizeof_cnim_segment)) with (40 * Z.to_nat (c_segment_count h))%nat
    by (unfold sizeof_cnim_segment; lia).
  destruct (cnim_segments_equiv read_fn store p mem_of Inv ok Hst Hb Hl h _ (Z.to_nat (c_segment_count h))
    (Z.to_nat (c_segment_count h)) Hbh ltac:(lia) eq_refl Hseg) with (i := 0%nat) (f := f2) (m1 := mem_of f)
    as (r & f' & m1 & E & Hf' & E' & Hm); [lia|done|by eapply agree_trans|].
  rewrite E, E'. ostep. unfold cnim_apply_rela. rewrite Hrel. destruct r; [|by exists None, f', m1].
  ostep. by eexists _, f', m1.
Qed.

(** ** Theorems *)

(** Loading an ELF image puts it in memory: for an image with a valid
    header, program headers inside it, loadable segments whose file part is
    inside the image and no larger than the segment, and that do not overlap
    in memory, [elf_load_flat] succeeds with the image's entry point; every
    address of a loadable segment then holds its byte of the file, or zero
    past the file part, and no other address has changed. *)
Theorem elf_load_flat_places p m : bytes p → 64 <= Z.of_nat (length p) < 2 ^ 63 →
  elf_header_ok (slice p 0 64) (Z.of_nat (length p)) = true → elf_image p (slice p 0 64) →
  ∃ m', elf_load_flat p m = Ret (Some (e_entry (slice p 0 64)), m') ∧
    (∀ j x, (j < Z.to_nat (e_phnum (slice p 0 64)))%nat → p_type (phdr p (slice p 0 64) j) = PT_LOAD →
       in_seg (phdr p (slice p 0 64) j) x → m' x = seg_byte p (phdr p (slice p 0 64) j) x) ∧
    (∀ x, (∀ j, (j < Z.to_nat (e_phnum (slice p 0 64)))%nat → p_type (phdr p (slice p 0 64) j) = PT_LOAD →
       ¬ in_seg (phdr p (slice p 0 64) j) x) → m' x = m x).
Proof.
  intros Hb Hl Hok Himg. set (eh := slice p 0 64) in *. assert (bytes eh) as Hbe by (by apply bytes_slice).
  destruct (elf_segments_place p Hb ltac:(lia) eh (Z.to_nat (e_phnum eh)) Hbe Himg 0 m) as (m' & E & Hout & Hseg); [lia|].
  exists m'. unfold elf_load_flat. rewrite (proj2 (Z.ltb_ge _ _)) by (unfold sizeof_ehdr; lia). fold eh. rewrite Hok. cbn [negb].
  rewrite E. ostep. split; [done|]. split.
  - intros j x Hj. apply Hseg. lia.
  - intros x Hx. apply Hout. intros j Hj. apply Hx. lia.
Qed.

(** C27. Streaming an ELF image is loading it: through a [read_fn] that reads
    the image, with program headers of 56 to 128 bytes inside the image,
    segment ends that do not wrap around and segments in the loadable
    memory, [elf_load_flat_streaming] returns the same result as
    [elf_load_flat] (failure included) and leaves the same loadable memory. *)
Theorem elf_streaming_equiv {F} read_fn store p (mem_of : F → mem) Inv ok f : streams read_fn store p mem_of Inv ok → bytes p →
  Inv f → Z.of_nat (length p) < 2 ^ 63 → 56 <= e_phentsize (slice p 0 64) <= 128 →
  e_phoff (slice p 0 64) + e_phnum (slice p 0 64) * e_phentsize (slice p 0 64) < 2 ^ 64 →
  (∀ i, (i < Z.to_nat (e_phnum (slice p 0 64)))%nat → p_type (phdr p (slice p 0 64) i) = PT_LOAD →
     p_offset (phdr p (slice p 0 64) i) + p_filesz (phdr p (slice p 0 64) i) < 2 ^ 64 ∧
     ∀ x, p_vaddr (phdr p (slice p 0 64) i) <= x <
          p_vaddr (phdr p (slice p 0 64) i) + Z.max (p_filesz (phdr p (slice p 0 64) i)) (p_memsz (phdr p (slice p 0 64) i)) → ok x) →
  ∃ r f' m', elf_load_flat_streaming read_fn store (Z.of_nat (length p)) f = Ret (r, f') ∧
    elf_load_flat p (mem_of f) = Ret (r, m') ∧ agree ok (mem_of f') m'.
Proof.
  intros Hst Hb Hf Hl Hent Htab Hseg. set (eh := slice p 0 64) in *. assert (bytes eh) as Hbe by (by apply bytes_slice).
  unfold elf_load_flat_streaming, elf_load_flat. fold eh.
  destruct (Z.ltb_spec (Z.of_nat (length p)) sizeof_ehdr) as [Hs|Hs]; [by exists None, f, (mem_of f)|].
  destruct (st_read _ _ _ _ _ _ Hst 0 sizeof_ehdr f Hf) as (f1 & E1 & Hf1 & Hm1); [lia|unfold sizeof_ehdr; lia|lia|].
  rewrite E1. ostep. cbn [negb]. change (slice p (Z.to_nat 0) (Z.to_nat sizeof_ehdr)) with eh.
  destruct (elf_header_ok eh (Z.of_nat (length p))) eqn:Hok; cbn [negb]; [|by exists None, f1, (mem_of f)].
  rewrite (proj2 (Z.ltb_ge (e_phentsize eh) sizeof_phdr)), (proj2 (Z.ltb_ge 128 (e_phentsize eh))) by (unfold sizeof_phdr; lia).
  pose proof (f64_bound eh 32 Hbe) as B1. pose proof (f16_bound eh 56 Hbe) as B2. fold (e_phoff eh) in B1. fold (e_phnum eh) in B2.
  assert (e_phoff eh + e_phnum eh * e_phentsize eh <= Z.of_nat (length p)) as Hin.
  { unfold elf_header_ok in Hok. apply andb_true_iff in Hok as [_ Hok]. rewrite u64_small in Hok by nia. breflect. lia. }
  destruct (elf_segments_equiv read_fn store p mem_of Inv ok Hst Hb Hl eh (Z.to_nat (e_phnum eh)) (Z.to_nat (e_phnum eh)) Hbe Hent)
    with (i := 0%nat) (f := f1) (m1 := mem_of f) as (r & f' & m1 & E & Hf' & E' & Hm); [|lia|done|done|].
  { intros i Hi. split; [nia|]. split; [nia|]. by apply Hseg. }
  rewrite E, E'. ostep. by eexists _, f', m1.
Qed.

(** Streaming a CNIM image is loading it: through a [read_fn] that reads
    the image, for an image of 1 to 16 segments in the loadable memory,
    without relocations and without offsets that wrap around,
    [cnim_load_streaming] returns the same result as [cnim_load_flat]
    (failure included) and leaves the same loadable memory. *)
Theorem cnim_streaming_equiv {F} read_fn store p (mem_of : F → mem) Inv ok f : streams read_fn store p mem_of Inv ok → bytes p →
  Inv f → Z.of_nat (length p) < 2 ^ 63 → cnim_streamable p ok →
  ∃ r f' m', cnim_load_streaming read_fn store (Z.of_nat (length p)) f = Ret (r, f') ∧
    cnim_load_flat p (mem_of f) = Ret (r, m') ∧ agree ok (mem_of f') m'.
Proof.
  intros Hst Hb Hf Hl Hs. destruct (cnim_load_equiv read_fn store p mem_of Inv ok f Hst Hb Hf Hl Hs) as (r & f' & m' & E & _ & ?).
  by exists r, f', m'.
Qed.

(** ** Witnesses: images of one segment *)
Definition blob_read (p : list Z) (off n : Z) (m : mem) : outcome (list Z * bool * mem) :=
  Ret (slice p (Z.to_nat off) (Z.to_nat n), true, m).
Lemma blob_streams p : streams (blob_read p) mwrite p id (λ _, True) (λ _, True).
Proof. split; [intros off n m _ _ _ _; by exists m|done]. Qed.
(** four bytes at 0x400000, then four zeros; entry 0x400001 *)
Definition demo_elf : list Z :=
  [0x7f; 69; 76; 70; 2; 1] ++ replicate 10 0 ++ le_of 2 2 ++ le_of 2 62 ++ le_of 4 1 ++ le_of 8 0x400001 ++ le_of 8 64 ++
  replicate 14 0 ++ le_of 2 56 ++ le_of 2 1 ++ replicate 6 0 ++
  le_of 4 1 ++ le_of 4 5 ++ le_of 8 120 ++ le_of 8 0x400000 ++ le_of 8 0 ++ le_of 8 4 ++ le_of 8 8 ++ le_of 8 0 ++ [1; 2; 3; 4].
Definition demo_cnim : list Z :=
  le_of 4 CNIM_MAGIC_U32 ++ le_of 2 1 ++ le_of 2 0 ++ le_of 4 64 ++ le_of 4 0 ++ le_of 8 2 ++ le_of 8 0x400000 ++ le_of 4 1 ++ le_of 4 0 ++
  le_of 8 64 ++ le_of 8 0 ++ le_of 8 0 ++ le_of 8 104 ++ le_of 8 0x400000 ++ le_of 8 3 ++ le_of 8 4 ++ le_of 4 0 ++ le_of 4 0 ++ [7; 8; 9].
Lemma demo_elf_bytes : bytes demo_elf.
Proof. apply Forall_forall. intros x Hx. unfold is_byte. vm_compute in Hx. set_unfold in Hx. lia. Qed.
Lemma demo_cnim_bytes : bytes demo_cnim.
Proof. apply Forall_forall. intros x Hx. unfold is_byte. vm_compute in Hx. set_unfold in Hx. lia. Qed.
Lemma demo_elf_image : elf_image demo_elf (slice demo_elf 0 64).
Proof.
  split.
  - vm_compute. discriminate.
  - vm_compute. split; discriminate.
  - intros i Hi. change (Z.to_nat (e_phnum (slice demo_elf 0 64))) with 1%nat in Hi. replace i with 0%nat by lia.
    intros _. vm_compute. split; discriminate.
  - intros i j x Hij. change (Z.to_nat (e_phnum (slice demo_elf 0 64))) with 1%nat in Hij. lia.
Qed.
Lemma elf_load_flat_places_witness : ∃ m', elf_load_flat demo_elf (λ _, 9) = Ret (Some 0x400001, m') ∧ m' 0x400001 = 2 ∧ m' 0x400005 = 0.
Proof.
  destruct (elf_load_flat_places demo_elf (λ _, 9) demo_elf_bytes) as (m' & E & Hseg & _).
  - vm_compute. split; [discriminate|reflexivity].
  - reflexivity.
  - exact demo_elf_image.
  - exists m'. split; [exact E|]. split.
    + rewrite (Hseg 0%nat 0x400001); [reflexivity|vm_compute; lia|reflexivity|]. unfold in_seg. vm_compute. split; [discriminate|reflexivity].
    + rewrite (Hseg 0%nat 0x400005); [reflexivity|vm_compute; lia|reflexivity|]. unfold in_seg. vm_compute. split; [discriminate|reflexivity].
Defined.
Lemma elf_streaming_equiv_witness : ∃ r m' m1,
  elf_load_flat_streaming (blob_read demo_elf) mwrite 124 (λ _, 9) = Ret (r, m') ∧
  elf_load_flat demo_elf (λ _, 9) = Ret (r, m1) ∧ agree (λ _, True) m' m1.
Proof.
  apply (elf_streaming_equiv (blob_read demo_elf) mwrite demo_elf id _ _ (λ _, 9) (blob_streams demo_elf) demo_elf_bytes I).
  - vm_compute. reflexivity.
  - vm_compute. split; discriminate.
  - vm_compute. reflexivity.
  - intros i Hi. change (Z.to_nat (e_phnum (slice demo_elf 0 64))) with 1%nat in Hi. replace i with 0%nat by lia.
    intros _. split; [vm_compute; reflexivity|]. intros x _. exact I.
Defined.
Lemma demo_cnim_streamable (ok : Z → Prop) : (∀ x, 0x400000 <= x < 0x400004 → ok x) → cnim_streamable demo_cnim ok.
Proof.
  intros Hok. split.
  - vm_compute. split; discriminate.
  - reflexivity.
  - vm_compute. reflexivity.
  - intros i Hi. change (Z.to_nat (c_segment_count (slice demo_cnim 0 64))) with 1%nat in Hi. replace i with 0%nat by lia.
    split; [vm_compute; reflexivity|]. exact Hok.
Qed.
Lemma cnim_streaming_equiv_witness : ∃ r m' m1,
  cnim_load_streaming (blob_read demo_cnim) mwrite 107 (λ _, 9) = Ret (r, m') ∧
  cnim_load_flat demo_cnim (λ _, 9) = Ret (r, m1) ∧ agree (λ _, True) m' m1.
Proof.
  apply (cnim_streaming_equiv (blob_read demo_cnim) mwrite demo_cnim id _ _ (λ _, 9) (blob_streams demo_cnim) demo_cnim_bytes I).
  - vm_compute. reflexivity.
  - exact (demo_cnim_streamable (λ _, True) (λ _ _, I)).
Defined.
End Loader.
