(* ===== verification/Package.v ===== *)
(** The CNPK/CNLK package format (kernel/fs/cnaf/cnaf_validate.c and
    kernel/fs/cnaf/cnaf_image.c): the file header, the section table and the
    key-value manifest.  Theorems: a section is located exactly when the
    header is valid and the first table entry of its type lies inside the
    file; looking a key up in a printed manifest returns its value. *)
From stdpp Require Import base numbers list sets strings.
From S2P Require Import Prelude Memory Loader.
Open Scope Z_scope.

Module Package.
Import Loader.Loader.
Definition CNPKG_MAGIC_CNPK := 0x4B504E43.
Definition CNPKG_MAGIC_CNLK := 0x4B4C4E43.
Definition CNPKG_KIND_PROGRAM := 1.
Definition CNPKG_KIND_LIBRARY := 2.
Definition CNPKG_SECTION_MANIFEST := 1.
Definition CNPKG_SECTION_IMAGE := 2.
Inductive cnpkg_err_t :=
| CNPKG_ERR_MAGIC | CNPKG_ERR_VERSION | CNPKG_ERR_TRUNCATED | CNPKG_ERR_KIND | CNPKG_ERR_SECTION | CNPKG_ERR_MANIFEST.
(** the fields of [cnpkg_file_header_t], 40 bytes *)
Record cnpkg_file_header_t := PkgHeader {
  h_magic : Z; h_major : Z; h_minor : Z; pkg_kind : Z; header_bytes : Z; h_flags : Z; section_count : Z
}.
Definition header_of (l : list Z) : cnpkg_file_header_t :=
  PkgHeader (f32 l 0) (f16 l 4) (f16 l 6) (f32 l 8) (f32 l 12) (f32 l 16) (f32 l 20).
(** the checks that both header functions start with *)
Definition header_errors (h : cnpkg_file_header_t) : option cnpkg_err_t :=
  if negb (h_magic h =? CNPKG_MAGIC_CNPK) && negb (h_magic h =? CNPKG_MAGIC_CNLK) then Some CNPKG_ERR_MAGIC
  else if negb (h_major h =? 1) then Some CNPKG_ERR_VERSION
  else if 0 <? h_minor h then Some CNPKG_ERR_VERSION
  else if negb (pkg_kind h =? CNPKG_KIND_PROGRAM) && negb (pkg_kind h =? CNPKG_KIND_LIBRARY) then Some CNPKG_ERR_KIND
  else if header_bytes h <? 40 then Some CNPKG_ERR_TRUNCATED
  else None.
Definition cnpkg_probe_header (data : list Z) (len : Z) : outcome (cnpkg_err_t + cnpkg_file_header_t) :=
  if len <? 40 then Ret (inl CNPKG_ERR_TRUNCATED)
  else
    b ← rd data 0 40;
    let h := header_of b in
    match header_errors h with
    | Some e => Ret (inl e)
    | None =>
      if len <? header_bytes h then Ret (inl CNPKG_ERR_TRUNCATED)
      else if has (header_bytes h) 7 then Ret (inl CNPKG_ERR_SECTION)
      else if 256 <? section_count h then Ret (inl CNPKG_ERR_SECTION)
      else Ret (inr h)
    end.
Definition cnpkg_parse_header_prefix (data : list Z) (len : Z) : outcome (cnpkg_err_t + cnpkg_file_header_t) :=
  if len <? 40 then Ret (inl CNPKG_ERR_TRUNCATED)
  else
    b ← rd data 0 40;
    let h := header_of b in
    match header_errors h with Some e => Ret (inl e) | None => Ret (inr h) end.

(** ** Sections *)
Definition rd_u32_le (l : list Z) (off : Z) : outcome Z := b ← rd l off 4; Ret (le_to b).
Definition rd_u64_le (l : list Z) (off : Z) : outcome Z :=
  lo ← rd_u32_le l off; hi ← rd_u32_le l (off + 4); Ret (Z.lor lo (Z.shiftl hi 32)).
Fixpoint locate_loop (prefix : list Z) (prefix_len file_total type : Z) (i k : nat) : outcome (cnpkg_err_t + (Z * Z)) :=
  match k with
  | O => Ret (inl CNPKG_ERR_SECTION)
  | S k =>
    let eoff := 40 + Z.of_nat i * 24 in
    if prefix_len <? eoff + 24 then Ret (inl CNPKG_ERR_SECTION)
    else
      cur_type ← rd_u32_le prefix eoff;
      if negb (cur_type =? type) then locate_loop prefix prefix_len file_total type (i + 1) k
      else
        off ← rd_u64_le prefix (eoff + 8);
        sz ← rd_u64_le prefix (eoff + 16);
        if (file_total <? u64 (off + sz)) || (u64 (off + sz) <? off) then Ret (inl CNPKG_ERR_SECTION)
        else Ret (inr (off, sz))
  end.
Definition cnpkg_locate_section (prefix : list Z) (prefix_len file_total type : Z) : outcome (cnpkg_err_t + (Z * Z)) :=
  pr ← cnpkg_probe_header prefix prefix_len;
  match pr with
  | inl e => Ret (inl e)
  | inr h =>
    if prefix_len <? header_bytes h then Ret (inl CNPKG_ERR_TRUNCATED)
    else if file_total <? header_bytes h then Ret (inl CNPKG_ERR_TRUNCATED)
    else locate_loop prefix prefix_len file_total type 0 (Z.to_nat (section_count h))
  end.
(** the section's bytes *)
Definition cnpkg_extract_section (data : list Z) (type : Z) : outcome (cnpkg_err_t + list Z) :=
  let len := Z.of_nat (length data) in
  r ← cnpkg_locate_section data len len type;
  match r with
  | inl e => Ret (inl e)
  | inr (off, sz) =>
    if (len <? u64 (off + sz)) || (u64 (off + sz) <? off) then Ret (inl CNPKG_ERR_SECTION)
    else b ← rd data off sz; Ret (inr b)
  end.
Definition cnpkg_locate_image (prefix : list Z) (prefix_len file_total : Z) : outcome (cnpkg_err_t + (Z * Z)) :=
  cnpkg_locate_section prefix prefix_len file_total CNPKG_SECTION_IMAGE.
Definition cnpkg_extract_image (data : list Z) : outcome (cnpkg_err_t + list Z) := cnpkg_extract_section data CNPKG_SECTION_IMAGE.

(** ** The manifest *)
Definition newline := 10.
Definition equals := 61.
Definition is_ws (c : Z) : bool := (c =? 32) || (c =? 9) || (c =? 13).
(** bytes up to the first [c], and what follows from it on *)
Fixpoint span_to (c : Z) (l : list Z) : list Z * list Z :=
  match l with
  | [] => ([], [])
  | x :: l => if x =? c then ([], x :: l) else let '(a, b) := span_to c l in (x :: a, b)
  end.
Fixpoint trim_left (l : list Z) : list Z :=
  match l with x :: l' => if is_ws x then trim_left l' else l | [] => [] end.
Definition trim_right (l : list Z) : list Z := reverse (trim_left (reverse l)).
Definition key_match (a b : list Z) : bool := str_eqb a b.
(** the value that a line gives to [key] *)
Definition line_value (line key : list Z) : option (list Z) :=
  match trim_left line with
  | [] => None
  | c :: _ =>
    if c =? 35 then None
    else match span_to equals (trim_left line) with
         | (_, []) => None
         | (k, _ :: v) => if key_match (trim_right k) key then Some (trim_right (trim_left v)) else None
         end
  end.
Fixpoint manifest_loop (fuel : nat) (m key : list Z) (out_cap : nat) : outcome (option (list Z)) :=
  match m with
  | [] => Ret None
  | _ =>
    match fuel with
    | O => Loop
    | S fuel =>
      let '(line, rest) := span_to newline m in
      match line_value line key with
      | None => manifest_loop fuel (tail rest) key out_cap
      | Some v => Ret (if (out_cap <? length v + 1)%nat then None else Some v)
      end
    end
  end.
Definition cnpkg_manifest_get_value (manifest key : list Z) (out_cap : nat) : outcome (option (list Z)) :=
  if (out_cap =? 0)%nat then Ret None else manifest_loop (length manifest) manifest key out_cap.

(** ** Locating a section *)
Section locate.
Context (p : list Z) (Hb : bytes p).
Definition sec_type (i : nat) : Z := f32 p (40 + 24 * i).
Definition sec_off (i : nat) : Z := f64 p (40 + 24 * i + 8).
Definition sec_size (i : nat) : Z := f64 p (40 + 24 * i + 16).
(** entry [i] is the first of the type *)
Definition first_of (type : Z) (i : nat) : Prop := sec_type i = type ∧ ∀ j, (j < i)%nat → sec_type j ≠ type.
Lemma rd_u32_in off : (off + 4 <= length p)%nat → rd_u32_le p (Z.of_nat off) = Ret (f32 p off).
Proof. intros Hl. unfold rd_u32_le. rewrite rd_in, Nat2Z.id by lia. done. Qed.
Lemma lor_hi lo hi : 0 <= lo < 2 ^ 32 → 0 <= hi → Z.lor lo (Z.shiftl hi 32) = lo + 2 ^ 32 * hi.
Proof. intros. by apply lor_shiftl. Qed.
Lemma rd_u64_in off : (off + 8 <= length p)%nat → rd_u64_le p (Z.of_nat off) = Ret (f64 p off).
Proof.
  intros Hl. unfold rd_u64_le. rewrite rd_u32_in by lia. ostep.
  replace (Z.of_nat off + 4) with (Z.of_nat (off + 4)) by lia. rewrite rd_u32_in by lia. ostep.
  rewrite lor_hi by (apply f32_bound; done). f_equal. unfold f64, f32.
  change 8%nat with (4 + 4)%nat. rewrite slice_split. rewrite le_to_app.
  assert (length (slice p off 4) = 4%nat) as -> by (unfold slice; rewrite length_take, length_drop; lia). done.
Qed.
(** the loop from entry [i] on finds the first entry of the type *)
Lemma locate_loop_spec plen total type k : plen = Z.of_nat (length p) → 0 <= total < 2 ^ 64 → ∀ i,
  (∀ j, (j < i)%nat → sec_type j ≠ type) →
  ∃ r, locate_loop p plen total type i k = Ret r ∧
    ∀ off sz, r = inr (off, sz) ↔ ∃ j, (i <= j < i + k)%nat ∧ (40 + 24 * (j + 1) <= length p)%nat ∧ first_of type j ∧
      off = sec_off j ∧ sz = sec_size j ∧ off + sz <= total.
Proof.
  intros -> Ht. induction k as [|k IH]; intros i Hlt; cbn [locate_loop].
  { eexists. split; [done|]. intros off sz. split; [done|]. intros (j & Hj & _). lia. }
  destruct (Z.ltb_spec (Z.of_nat (length p)) (40 + Z.of_nat i * 24 + 24)) as [Hout|Hin].
  { eexists. split; [done|]. intros off sz. split; [done|]. intros (j & Hj & Hjl & _). lia. }
  replace (40 + Z.of_nat i * 24) with (Z.of_nat (40 + 24 * i)) by lia. rewrite rd_u32_in by lia. ostep. fold (sec_type i).
  destruct (Z.eqb_spec (sec_type i) type) as [Hty|Hty]; cbn [negb].
  - replace (Z.of_nat (40 + 24 * i) + 8) with (Z.of_nat (40 + 24 * i + 8)) by lia.
    replace (Z.of_nat (40 + 24 * i) + 16) with (Z.of_nat (40 + 24 * i + 16)) by lia.
    rewrite !rd_u64_in by lia. ostep. ostep. fold (sec_off i) (sec_size i).
    pose proof (f64_bound p (40 + 24 * i + 8) Hb) as B1. pose proof (f64_bound p (40 + 24 * i + 16) Hb) as B2.
    fold (sec_off i) in B1. fold (sec_size i) in B2.
    assert (((total <? u64 (sec_off i + sec_size i)) || (u64 (sec_off i + sec_size i) <? sec_off i)) =
      negb (sec_off i + sec_size i <=? total)) as ->.
    { unfold u64. destruct (Z.lt_ge_cases (sec_off i + sec_size i) (2 ^ 64)).
      - rewrite Z.mod_small by lia. rewrite (proj2 (Z.ltb_ge _ (sec_off i))) by lia. rewrite orb_false_r. lia.
      - replace ((sec_off i + sec_size i) mod 2 ^ 64) with (sec_off i + sec_size i - 2 ^ 64) by zdm.
        rewrite (proj2 (Z.ltb_lt _ (sec_off i))), orb_true_r by lia. lia. }
    destruct (Z.leb_spec (sec_off i + sec_size i) total) as [Hfit|Hfit]; cbn [negb]; eexists; (split; [done|]); intros off sz; split.
    + intros [= <- <-]. exists i. split; [lia|]. split; [lia|]. done.
    + intros (j & Hj & _ & [Hj1 Hj2] & -> & -> & _). assert (j = i) as ->; [|done].
      destruct (decide (i < j)%nat); [|lia]. exfalso. by apply (Hj2 i).
    + done.
    + intros (j & Hj & _ & [Hj1 Hj2] & -> & -> & Hle). assert (j = i) as ->; [|lia].
      destruct (decide (i < j)%nat); [|lia]. exfalso. by apply (Hj2 i).
  - destruct (IH (i + 1)%nat) as (r & E & Hr).
    { intros j Hj. destruct (decide (j = i)) as [->|]; [done|apply Hlt; lia]. }
    exists r. split; [done|]. intros off sz. rewrite Hr. split; intros (j & Hj & Hrest); exists j; (split; [|done]); [lia|].
    destruct (decide (j = i)) as [->|]; [|lia]. destruct Hrest as (_ & [? _] & _). done.
Qed.
End locate.
(** a header that [cnpkg_probe_header] accepts *)
Definition header_valid (p : list Z) : Prop :=
  (40 <= length p)%nat ∧ header_errors (header_of (slice p 0 40)) = None ∧
  header_bytes (header_of (slice p 0 40)) <= Z.of_nat (length p) ∧
  has (header_bytes (header_of (slice p 0 40))) 7 = false ∧ section_count (header_of (slice p 0 40)) <= 256.
Lemma probe_spec p : ∃ r, cnpkg_probe_header p (Z.of_nat (length p)) = Ret r ∧
  ∀ h, r = inr h ↔ header_valid p ∧ h = header_of (slice p 0 40).
Proof.
  unfold cnpkg_probe_header, header_valid. destruct (Z.ltb_spec (Z.of_nat (length p)) 40).
  { eexists. split; [done|]. intros h. split; [done|]. intros [[? _] _]. lia. }
  rewrite rd_in by lia. ostep. change (slice p (Z.to_nat 0) (Z.to_nat 40)) with (slice p 0 40). set (h0 := header_of (slice p 0 40)).
  destruct (header_errors h0) as [e|].
  { eexists. split; [done|]. intros h. split; [done|]. by intros [(_ & ? & _) _]. }
  destruct (Z.ltb_spec (Z.of_nat (length p)) (header_bytes h0)).
  { eexists. split; [done|]. intros h. split; [done|]. intros [(_ & _ & ? & _) _]. lia. }
  destruct (has (header_bytes h0) 7).
  { eexists. split; [done|]. intros h. split; [done|]. by intros [(_ & _ & _ & ? & _) _]. }
  destruct (Z.ltb_spec 256 (section_count h0)).
  { eexists. split; [done|]. intros h. split; [done|]. intros [(_ & _ & _ & _ & ?) _]. lia. }
  eexists. split; [done|]. intros h. split; [|by intros [_ ->]]. intros [= <-]. split; [|done]. split; [lia|]. done.
Qed.

(** ** Theorems *)

(** Locating a section: on any bytes, [cnpkg_locate_section] stays inside
    the prefix and returns a position and size exactly when the package
    header is valid and fits the file, and they are those of the first entry
    of the requested type, whose table entry lies in the prefix and whose
    section lies inside the file (no wrap-around gets past the check). *)
Theorem cnpkg_locate_section_correct p total type : bytes p → 0 <= total < 2 ^ 64 →
  ∃ r, cnpkg_locate_section p (Z.of_nat (length p)) total type = Ret r ∧
    ∀ off sz, r = inr (off, sz) ↔
      header_valid p ∧ header_bytes (header_of (slice p 0 40)) <= total ∧
      ∃ j, (j < Z.to_nat (section_count (header_of (slice p 0 40))))%nat ∧ (40 + 24 * (j + 1) <= length p)%nat ∧
        first_of p type j ∧ off = sec_off p j ∧ sz = sec_size p j ∧ off + sz <= total.
Proof.
  intros Hb Ht. unfold cnpkg_locate_section. destruct (probe_spec p) as (pr & -> & Hpr). ostep. destruct pr as [e|h].
  { eexists. split; [done|]. intros off sz. split; [done|]. intros [Hv _]. pose proof (proj2 (Hpr _) (conj Hv eq_refl)). done. }
  destruct (proj1 (Hpr h) eq_refl) as [Hv ->]. set (h0 := header_of (slice p 0 40)) in *.
  assert (header_bytes h0 <= Z.of_nat (length p)) as Hh by (destruct Hv as (_ & _ & ? & _); done).
  rewrite (proj2 (Z.ltb_ge (Z.of_nat (length p)) _)) by done. destruct (Z.ltb_spec total (header_bytes h0)).
  { eexists. split; [done|]. intros off sz. split; [done|]. intros (_ & ? & _). lia. }
  destruct (locate_loop_spec p Hb (Z.of_nat (length p)) total type (Z.to_nat (section_count h0)) eq_refl Ht 0) as (r & E & Hr); [lia|].
  exists r. split; [done|]. intros off sz. rewrite Hr. split.
  - intros (j & Hj & Hrest). split; [done|]. split; [done|]. exists j. split; [lia|done].
  - intros (_ & _ & j & Hj & Hrest). exists j. split; [lia|done].
Qed.

(** ** Manifests *)
(** a printed entry *)
Definition entry_line (kv : list Z * list Z) : list Z := fst kv ++ str " = " ++ snd kv ++ [newline].
(** keys and values without line breaks and surrounding blanks *)
Definition trimmed (l : list Z) : Prop := trim_left l = l ∧ trim_right l = l.
Definition key_ok (k : list Z) : Prop := k ≠ [] ∧ trimmed k ∧ newline ∉ k ∧ equals ∉ k ∧ hd 0 k ≠ 35.
Definition value_ok (v : list Z) : Prop := trimmed v ∧ newline ∉ v.
Fixpoint lookup_key (kvs : list (list Z * list Z)) (key : list Z) : option (list Z) :=
  match kvs with
  | [] => None
  | (k, v) :: kvs => if str_eqb k key then Some v else lookup_key kvs key
  end.
Section manifest.
Lemma span_to_app c a b : c ∉ a → span_to c (a ++ c :: b) = (a, c :: b).
Proof.
  induction a as [|x a IH]; intros Hc; cbn [app span_to]; [by rewrite Z.eqb_refl|].
  apply not_elem_of_cons in Hc as [Hx Ha]. rewrite (proj2 (Z.eqb_neq x c)), IH by done. done.
Qed.
Lemma trim_left_app a b : trim_left a = a → a ≠ [] → trim_left (a ++ b) = a ++ b.
Proof.
  destruct a as [|x a]; [done|]. intros Ht _. cbn [app trim_left] in *. destruct (is_ws x) eqn:E; [|done].
  exfalso. assert (length (trim_left a) <= length a)%nat as Hl.
  { clear. induction a as [|y a IH]; [done|]. cbn [trim_left]. case_if; simpl; lia. }
  rewrite Ht in Hl. simpl in Hl. lia.
Qed.
Lemma trim_right_blank l : trim_right l = l → trim_right (l ++ [32]) = l.
Proof. unfold trim_right. rewrite reverse_app. simpl. done. Qed.
Lemma line_value_entry k v key : key_ok k → value_ok v →
  line_value (k ++ str " = " ++ v) key = if str_eqb k key then Some v else None.
Proof.
  intros (Hne & [Hl Hr] & _ & Heq & Hh) [[Hvl Hvr] _]. unfold line_value. rewrite trim_left_app by done.
  destruct k as [|c k]; [done|]. cbn [app]. rewrite (proj2 (Z.eqb_neq c 35)) by (simpl in Hh; lia).
  change (c :: k ++ str " = " ++ v) with ((c :: k) ++ str " = " ++ v).
  replace ((c :: k) ++ str " = " ++ v) with (((c :: k) ++ [32]) ++ equals :: 32 :: v) by (by rewrite <-app_assoc).
  rewrite span_to_app.
  2: { rewrite elem_of_app, list_elem_of_singleton. intros [?|?]; [done|]. done. }
  unfold key_match. rewrite trim_right_blank by done. cbn [trim_left]. change (is_ws 32) with true. cbn iota.
  by rewrite Hvl, Hvr.
Qed.
Lemma manifest_loop_spec kvs key cap fuel : Forall (λ kv, key_ok (fst kv) ∧ value_ok (snd kv)) kvs →
  (length (concat (entry_line <$> kvs)) <= fuel)%nat →
  manifest_loop fuel (concat (entry_line <$> kvs)) key cap =
  Ret (v ← lookup_key kvs key; if (cap <? length v + 1)%nat then None else Some v).
Proof.
  revert fuel. induction kvs as [|[k v] kvs IH]; intros fuel Hall Hf; [by destruct fuel|].
  apply Forall_cons in Hall as [[Hk Hv] Hall]. cbn [fst snd] in *.
  change (concat (entry_line <$> (k, v) :: kvs)) with (entry_line (k, v) ++ concat (entry_line <$> kvs)) in *.
  assert (entry_line (k, v) ++ concat (entry_line <$> kvs) = (k ++ str " = " ++ v) ++ newline :: concat (entry_line <$> kvs)) as E.
  { unfold entry_line. cbn [fst snd]. by rewrite <-!app_assoc. }
  rewrite E in *. assert (k ≠ []) as Hk0 by apply Hk. destruct k as [|c k]; [done|].
  destruct fuel as [|fuel]; [rewrite length_app in Hf; simpl in Hf; lia|].
  cbn [manifest_loop app]. change (c :: (k ++ str " = " ++ v) ++ newline :: concat (entry_line <$> kvs))
    with (((c :: k) ++ str " = " ++ v) ++ newline :: concat (entry_line <$> kvs)).
  rewrite span_to_app.
  2: { destruct Hk as (_ & _ & Hk & _ & _). destruct Hv as [_ Hv]. rewrite !elem_of_app. intros [?|[Hin|?]]; [done| |done].
       vm_compute in Hin. by repeat (apply elem_of_cons in Hin as [?|Hin]; [done|]); apply not_elem_of_nil in Hin. }
  rewrite line_value_entry by done. cbn [lookup_key tail]. destruct (str_eqb (c :: k) key); [done|].
  apply IH; [done|]. rewrite length_app in Hf. simpl in Hf. lia.
Qed.
End manifest.

(** C28. Manifests round-trip: in a manifest printed as "key = value" lines,
    with keys and values that have no blanks around them and no line breaks
    (keys also no "=", and not starting with a comment sign), looking up a
    key returns the value of its first line; it fails exactly when no line
    has the key or the value does not fit the buffer. *)
Theorem cnpkg_manifest_roundtrip kvs key cap : (0 < cap)%nat → Forall (λ kv, key_ok (fst kv) ∧ value_ok (snd kv)) kvs →
  cnpkg_manifest_get_value (concat (entry_line <$> kvs)) key cap =
  Ret (v ← lookup_key kvs key; if (cap <? length v + 1)%nat then None else Some v).
Proof.
  intros Hc Hall. unfold cnpkg_manifest_get_value. rewrite (proj2 (Nat.eqb_neq cap 0)) by lia. by apply manifest_loop_spec.
Qed.

(** ** Witnesses *)
Definition demo_entries : list (list Z * list Z) := [(str "name", str "My App"); (str "requires", str "cnui@1.0")].
Lemma demo_entries_ok : Forall (λ kv, key_ok (fst kv) ∧ value_ok (snd kv)) demo_entries.
Proof.
  assert (∀ (x : Z) (l : list Z), forallb (λ y, negb (y =? x)) l = true → x ∉ l) as Hnot.
  { intros x l Hl Hin. rewrite forallb_forall in Hl. specialize (Hl x (proj1 (list_elem_of_In l x) Hin)). by rewrite Z.eqb_refl in Hl. }
  repeat constructor; try (vm_compute; discriminate); apply Hnot; reflexivity.
Qed.
Lemma cnpkg_manifest_roundtrip_witness :
  cnpkg_manifest_get_value (concat (entry_line <$> demo_entries)) (str "requires") 192 = Ret (Some (str "cnui@1.0")).
Proof. rewrite (cnpkg_manifest_roundtrip demo_entries (str "requires") 192 ltac:(lia) demo_entries_ok). reflexivity. Defined.
(** a header with one section of type 2 at 64, 8 bytes long *)
Definition demo_pkg : list Z :=
  le_of 4 CNPKG_MAGIC_CNPK ++ le_of 2 1 ++ le_of 2 0 ++ le_of 4 1 ++ le_of 4 64 ++ le_of 4 0 ++ le_of 4 1 ++ replicate 16 0 ++
  le_of 4 2 ++ le_of 4 0 ++ le_of 8 64 ++ le_of 8 8.
Lemma demo_pkg_bytes : bytes demo_pkg.
Proof. apply Forall_forall. intros x Hx. unfold is_byte. vm_compute in Hx. set_unfold in Hx. lia. Qed.
Lemma cnpkg_locate_section_correct_witness : ∃ r, cnpkg_locate_section demo_pkg 64 72 2 = Ret r ∧ r = inr (64, 8).
Proof.
  destruct (cnpkg_locate_section_correct demo_pkg 72 2 demo_pkg_bytes ltac:(lia)) as (r & E & Hr).
  exists r. split; [exact E|]. apply Hr. split.
  - split; [vm_compute; lia|]. split; [reflexivity|]. split; [vm_compute; discriminate|]. split; [reflexivity|vm_compute; discriminate].
  - split; [vm_compute; discriminate|]. exists 0%nat. split; [vm_compute; lia|]. split; [vm_compute; lia|].
    split; [split; [reflexivity|lia]|]. split; [reflexivity|]. split; [reflexivity|vm_compute; discriminate].
Defined.
End Package.
