(* ===== verification/Cndyn.v ===== *)
(** The dynamic package loader (kernel/loader/cndyn_loader.c): finding a
    program package in the file system, checking the libraries it requires,
    streaming its image into user memory, and the table behind
    dlopen/dlsym/dlclose.
    A buffer that the code reads a file into is the list of the bytes read;
    pages taken for a long header are really allocated, written and freed.
    Theorems: the dependency check accepts a printed list of requirements
    exactly when every library is a file under /System/Lib; loading a package
    leaves user memory as a flat load of its image section would; the library
    table is a map from names (of up to 63 bytes) to handles. *)
From stdpp Require Import base numbers list sets strings.
From S2P Require Import Prelude Bitmap Memory Pmm Vmm Path Vol Ext2 Ext2Disk Ext2Alloc Ext2Spec Ext2Format Vfs UserFd Loader Package.
Open Scope Z_scope.

Module Cndyn.
Import Path.Path Vol.Vol Vfs.Vfs UserFd.UserFd Loader.Loader Package.Package.
Definition CNDYN_MAX_FILE_BYTES := 2 * 1024 * 1024.
Definition CNDYN_MAX_HEADER_BYTES := 65536.
Definition CNDYN_MAX_LOADED_LIBS : nat := 16.
(** [sizeof(prefix)] *)
Definition prefix_cap := 4096.
Definition USER_TEXT_BASE := 0x400000.
Definition USER_STACK_TOP := 0x801008.

Definition str_copy (cap : nat) (src : list Z) : list Z := take (cap - 1) src.

(** ** Requirements: "lib@major.minor,lib@major.minor" *)
(** characters up to the first that [stop]s, and the rest *)
Fixpoint span_until (stop : Z → bool) (l : list Z) : list Z * list Z :=
  match l with
  | [] => ([], [])
  | c :: l => if stop c then ([], c :: l) else let '(a, b) := span_until stop l in (c :: a, b)
  end.
Fixpoint skip_separators (l : list Z) : list Z :=
  match l with
  | c :: l' => if (c =? 32) || (c =? 44) then skip_separators l' else l
  | [] => []
  end.
Fixpoint parse_digits (v : Z) (s : list Z) : option Z :=
  match s with
  | [] => Some v
  | c :: s => if (c <? 48) || (57 <? c) then None else parse_digits (u32 (u32 (v * 10) + (c - 48))) s
  end.
Definition parse_u32 (s : list Z) : option Z := match s with [] => None | _ => parse_digits 0 s end.
Definition lib_path (lib : list Z) : list Z := str "/System/Lib/" ++ take 142 lib ++ str ".cnlk".

Section loader.
Context {S : Type} `{Blocks S, UserMem S}.
Definition set_fvm (f : fsys S) (v : Vmm.Vmm.vm) : fsys S := set_fvol f (s_set_vm (f_vol f) v).
Definition set_fpmm (f : fsys S) (p : Pmm.Pmm.pmm) : fsys S := set_fvm f (Vmm.Vmm.set_pmm (f_vm f) p).

Definition cndyn_stream_read (path : list Z) (image_base off len : Z) (f : fsys S) : outcome (list Z * bool * fsys S) :=
  '(vr, f) ← vfs_read_file_range path (u32 (image_base + u32 off)) len f;
  Ret (match vr with inl _ => ([], false, f) | inr d => (d, Z.of_nat (length d) =? len, f) end).

(** the bytes read, the file's size and the header *)
Definition load_prefix (abs_path : list Z) (f : fsys S) : outcome (option (list Z * Z * cnpkg_file_header_t) * fsys S) :=
  '(vs, f) ← vfs_stat abs_path f;
  match vs with
  | inl _ => Ret (None, f)
  | inr st =>
    if (st_size st =? 0) || (CNDYN_MAX_FILE_BYTES <? st_size st) then Ret (None, f)
    else
      let first_sz := if st_size st <? 4096 then st_size st else 4096 in
      '(vr, f) ← vfs_read_file_range abs_path 0 first_sz f;
      match vr with
      | inl _ => Ret (None, f)
      | inr stack_prefix =>
        if negb (Z.of_nat (length stack_prefix) =? first_sz) then Ret (None, f)
        else
          r ← cnpkg_parse_header_prefix stack_prefix first_sz;
          Ret (match r with inl _ => None | inr h => Some (stack_prefix, st_size st, h) end, f)
      end
  end.

(** the header bytes, their pages (a null pointer when they are those of
    the prefix) and the number of pages *)
Definition read_header_full (abs_path prefix : list Z) (prefix_len : Z) (h : cnpkg_file_header_t) (f : fsys S)
    : outcome (option (list Z * Z * Z) * fsys S) :=
  if (CNDYN_MAX_HEADER_BYTES <? header_bytes h) || (header_bytes h <? 40) then Ret (None, f)
  else if header_bytes h <=? prefix_len then Ret (Some (prefix, 0, 0), f)
  else
    let pages := (header_bytes h + Pmm.Pmm.PAGE_SIZE - 1) / Pmm.Pmm.PAGE_SIZE in
    '(buf, pm) ← Pmm.Pmm.pmm_alloc_contiguous_pages (Vmm.Vmm.vm_pmm (f_vm f)) pages;
    let f := set_fpmm f pm in
    if buf =? 0 then Ret (None, f)
    else
      '(vr, f) ← vfs_read_file_range abs_path 0 (header_bytes h) f;
      let got := match vr with inl _ => [] | inr d => d end in
      let f := f_write f buf got in
      if negb (Z.of_nat (length got) =? header_bytes h)
      then
        pm ← Pmm.Pmm.pmm_free_contiguous (Vmm.Vmm.vm_pmm (f_vm f)) buf pages;
        Ret (None, set_fpmm f pm)
      else Ret (Some (got, buf, pages), f).

Fixpoint requires_loop (fuel : nat) (reqs : list Z) (f : fsys S) : outcome (bool * fsys S) :=
  match reqs with
  | [] => Ret (true, f)
  | _ =>
    match fuel with
    | O => Loop
    | Datatypes.S fuel =>
      let '(name, r) := span_until (λ c, (c =? 64) || (c =? 44)) (skip_separators reqs) in
      let lib := take 47 name in
      match r with
      | [] => Ret (false, f)
      | c :: r =>
        if negb (c =? 64) then Ret (false, f)
        else
          let '(maj, r) := span_until (λ c, (c =? 46) || (c =? 44)) r in
          let majs := take 15 maj in
          let r := snd (span_until (λ c, c =? 44) r) in
          match lib, majs, parse_u32 majs with
          | _ :: _, _ :: _, Some _ =>
            '(vs, f) ← vfs_stat (lib_path lib) f;
            match vs with inl _ => Ret (false, f) | inr _ => requires_loop fuel r f end
          | _, _, _ => Ret (false, f)
          end
      end
    end
  end.
(** whether the function returns 0 *)
Definition resolve_requires (manifest : list Z) (f : fsys S) : outcome (bool * fsys S) :=
  r ← cnpkg_manifest_get_value manifest (str "requires") 192;
  match r with
  | None => Ret (true, f)
  | Some reqs => let reqs := cstr reqs in requires_loop (length reqs) reqs f
  end.

(** [if (pages) pmm_free_contiguous(hdr, pages);] *)
Definition free_header (buf pages : Z) (f : fsys S) : outcome (fsys S) :=
  if pages =? 0 then Ret f
  else pm ← Pmm.Pmm.pmm_free_contiguous (Vmm.Vmm.vm_pmm (f_vm f)) buf pages; Ret (set_fpmm f pm).
Definition grant_user_regions (v : Vmm.Vmm.vm) : Vmm.Vmm.vm :=
  let v := Vmm.Vmm.vmm_grant_user_2mb_region v USER_TEXT_BASE false in
  let v := Vmm.Vmm.vmm_grant_user_2mb_region v (USER_STACK_TOP - 4096) true in
  Vmm.Vmm.vmm_flush_tlb_all v.

(** the positions of the image and of the manifest *)
Definition locate_both (hdr : list Z) (len file_size : Z) : outcome (option ((Z * Z) * (Z * Z))) :=
  im ← cnpkg_locate_section hdr len file_size CNPKG_SECTION_IMAGE;
  match im with
  | inl _ => Ret None
  | inr image =>
    mn ← cnpkg_locate_section hdr len file_size CNPKG_SECTION_MANIFEST;
    Ret (match mn with inl _ => None | inr man => Some (image, man) end)
  end.
(** reading and checking the manifest: whether the load goes on *)
Definition check_manifest (abs_path : list Z) (man_off man_sz : Z) (f : fsys S) : outcome (bool * fsys S) :=
  if 4096 <? man_sz then Ret (false, f)
  else
    '(vr, f) ← vfs_read_file_range abs_path (u32 man_off) man_sz f;
    match vr with
    | inl _ => Ret (false, f)
    | inr manifest =>
      if negb (Z.of_nat (length manifest) =? man_sz) then Ret (false, f) else resolve_requires manifest f
    end.
(** the entry point, [None] for -1 *)
Definition cndyn_load_package_for_exec (abs_path : list Z) (f : fsys S) : outcome (option Z * fsys S) :=
  '(lp, f) ← load_prefix abs_path f;
  match lp with
  | None => Ret (None, f)
  | Some (prefix, file_size, h) =>
    if negb (pkg_kind h =? CNPKG_KIND_PROGRAM) then Ret (None, f)
    else
      '(rh, f) ← read_header_full abs_path prefix prefix_cap h f;
      match rh with
      | None => Ret (None, f)
      | Some (hdr, buf, pages) =>
        secs ← locate_both hdr (header_bytes h) file_size;
        match secs with
        | None => f ← free_header buf pages f; Ret (None, f)
        | Some ((image_off, image_sz), (man_off, man_sz)) =>
          '(ok, f) ← check_manifest abs_path man_off man_sz f;
          f ← free_header buf pages f;
          if negb ok then Ret (None, f)
          else if (0xFFFFFFFF <? image_off) || (CNDYN_MAX_FILE_BYTES <? image_sz) then Ret (None, f)
          else
            let f := set_fvm f (grant_user_regions (f_vm f)) in
            cnim_load_streaming (cndyn_stream_read (str_copy 256 abs_path) (u32 image_off)) f_write image_sz f
        end
      end
  end.
End loader.

(** ** The library table *)
Record cndyn_lib_slot_t := LibSlot { soname : list Z; abi_major : Z; abi_minor : Z; base : Z; used : bool }.
(** bytes of user memory, with no check of the range *)
Fixpoint copy_cstr (m : mem) (user_ptr : Z) (n : nat) (out : list Z) : option (list Z) :=
  match n with
  | O => None
  | S n => let c := m user_ptr in if c =? 0 then Some out else copy_cstr m (u64 (user_ptr + 1)) n (out ++ [c])
  end.
Definition user_copy_cstr (m : mem) (user_ptr : Z) (cap : nat) : option (list Z) :=
  if (cap =? 0)%nat then None else copy_cstr m user_ptr (cap - 1) [].
Fixpoint find_lib (f : cndyn_lib_slot_t → bool) (l : list cndyn_lib_slot_t) (i : nat) : option nat :=
  match l with
  | [] => None
  | d :: l => if f d then Some i else find_lib f l (S i)
  end.
Definition cndyn_dlopen (m : mem) (user_path_ptr mode : Z) (g_libs : list cndyn_lib_slot_t) : Z * list cndyn_lib_slot_t :=
  match user_copy_cstr m user_path_ptr 192 with
  | None => (-1, g_libs)
  | Some path =>
    match find_lib (λ d, used d && str_eqb (soname d) path) g_libs 0 with
    | Some i => (Z.of_nat i + 1, g_libs)
    | None =>
      match find_lib (λ d, negb (used d)) g_libs 0 with
      | Some i => (Z.of_nat i + 1, <[i := LibSlot (str_copy 64 path) 1 0 0 true]> g_libs)
      | None => (-1, g_libs)
      end
    end
  end.
Definition bad_handle (handle : Z) : bool := (handle =? 0) || (Z.of_nat CNDYN_MAX_LOADED_LIBS <? handle).
Definition cndyn_dlsym (g_libs : list cndyn_lib_slot_t) (handle user_symbol_ptr : Z) : outcome Z :=
  if bad_handle handle then Ret (-1)
  else d ← aget g_libs (handle - 1); Ret (if negb (used d) then -1 else 0).
Definition cndyn_dlclose (handle : Z) (g_libs : list cndyn_lib_slot_t) : outcome (Z * list cndyn_lib_slot_t) :=
  if bad_handle handle then Ret (-1, g_libs)
  else
    d ← aget g_libs (handle - 1);
    Ret (0, <[Z.to_nat (handle - 1) := LibSlot (soname d) (abi_major d) (abi_minor d) (base d) false]> g_libs).

(** ** The table as a map *)
(** the path at [a] in user memory *)
Definition user_string (m : mem) (a : Z) (path : list Z) : Prop :=
  is_cstr path ∧ 0 <= a ∧ a + 192 < 2 ^ 64 ∧ (length path < 191)%nat ∧ mread m a (length path) = path ∧ m (a + Z.of_nat (length path)) = 0.
(** [name] is open with handle [h] *)
Definition handle_of (l : list cndyn_lib_slot_t) (name : list Z) (h : Z) : Prop :=
  ∃ i d, h = Z.of_nat i + 1 ∧ l !! i = Some d ∧ used d = true ∧ soname d = name.
Record libs_wf (l : list cndyn_lib_slot_t) : Prop := {
  lw_len : length l = CNDYN_MAX_LOADED_LIBS;
  lw_name : ∀ i d, l !! i = Some d → (length (soname d) <= 63)%nat;
  lw_inj : ∀ name h h', handle_of l name h → handle_of l name h' → h = h'
}.
Section libs.
Implicit Types (l : list cndyn_lib_slot_t) (d : cndyn_lib_slot_t).
Lemma copy_cstr_spec m path : is_cstr path → ∀ a n out, 0 <= a → a + Z.of_nat n < 2 ^ 64 → (length path < n)%nat →
  mread m a (length path) = path → m (a + Z.of_nat (length path)) = 0 → copy_cstr m a n out = Some (out ++ path).
Proof.
  induction path as [|c path IH]; intros Hc a n out Ha Hw Hn Hm H0; (destruct n as [|n]; [simpl in Hn; lia|]); cbn [copy_cstr].
  - simpl in H0. rewrite Z.add_0_r in H0. by rewrite H0, app_nil_r.
  - apply Forall_cons in Hc as [Hc Hp]. 
    assert (∀ i, (i < length (c :: path))%nat → Some (m (a + Z.of_nat i)) = (c :: path) !! i) as Hl.
    { intros i Hi. by rewrite <-Hm, <-lookup_mread with (n := length (c :: path)). }
    pose proof (Hl 0%nat ltac:(simpl; lia)) as [= E]. rewrite Z.add_0_r in E. rewrite E, (proj2 (Z.eqb_neq c 0)) by lia.
    rewrite u64_small by lia. rewrite (IH Hp (a + 1) n (out ++ [c])); [by rewrite <-app_assoc|lia|lia|simpl in Hn; lia| |].
    + apply list_eq. intros i. destruct (decide (i < length path)%nat).
      * rewrite lookup_mread by done. specialize (Hl (S i) ltac:(simpl; lia)). simpl in Hl. rewrite <-Hl. do 2 f_equal. lia.
      * rewrite !lookup_ge_None_2; [done| |]; rewrite ?length_mread; lia.
    + rewrite <-H0. f_equal. simpl. lia.
Qed.
Lemma user_copy_spec m a path : user_string m a path → user_copy_cstr m a 192 = Some path.
Proof. intros (Hc & Ha & Hw & Hl & Hm & H0). unfold user_copy_cstr. change (192 =? 0)%nat with false. by rewrite (copy_cstr_spec m path Hc a (192 - 1) []) by (done || lia). Qed.
Lemma find_lib_spec f l : ∀ i, match find_lib f l i with
  | Some k => ∃ j d, k = (i + j)%nat ∧ l !! j = Some d ∧ f d = true
  | None => ∀ j d, l !! j = Some d → f d = false
  end.
Proof.
  induction l as [|d l IH]; intros i; cbn [find_lib]; [done|]. destruct (f d) eqn:E.
  - exists 0%nat, d. split; [lia|done].
  - specialize (IH (S i)). destruct (find_lib f l (S i)).
    + destruct IH as (j & d' & -> & Hj & Hd). exists (S j), d'. split; [lia|done].
    + intros [|j] d' Hj; simpl in Hj; [by simplify_eq|eauto].
Qed.
Lemma find_name_spec l path : match find_lib (λ d, used d && str_eqb (soname d) path) l 0 with
  | Some k => handle_of l path (Z.of_nat k + 1)
  | None => ∀ h, ¬ handle_of l path h
  end.
Proof.
  pose proof (find_lib_spec (λ d, used d && str_eqb (soname d) path) l 0) as H. destruct (find_lib _ l 0).
  - destruct H as (j & d & -> & Hj & Hf). apply andb_true_iff in Hf as [Hu Hs%str_eqb_eq]. by exists j, d.
  - intros h (i & d & _ & Hi & Hu & Hs). specialize (H i d Hi). rewrite Hu, Hs, str_eqb_refl in H. done.
Qed.
(** filling a free slot *)
Lemma handle_insert l i d0 d name h : l !! i = Some d0 → used d0 = false →
  handle_of (<[i := d]> l) name h ↔ handle_of l name h ∨ (used d = true ∧ soname d = name ∧ h = Z.of_nat i + 1).
Proof.
  intros Hi Hu. split.
  - intros (j & e & -> & Hj & He & Hs). apply list_lookup_insert_Some in Hj as [(-> & <- & _)|(Hne & Hj)]; [by right|].
    left. by exists j, e.
  - intros [(j & e & -> & Hj & He & Hs)|(He & Hs & ->)].
    + exists j, e. split; [done|]. split; [|done]. rewrite list_lookup_insert_ne; [done|]. intros ->. congruence.
    + exists i, d. split; [done|]. split; [|done]. apply list_lookup_insert_eq. by eapply lookup_lt_Some.
Qed.
Lemma dlsym_handle l name h ptr : length l = CNDYN_MAX_LOADED_LIBS → handle_of l name h → cndyn_dlsym l h ptr = Ret 0.
Proof.
  intros Hl (i & d & -> & Hi & Hu & _). pose proof (lookup_lt_Some _ _ _ Hi) as Hlt. rewrite Hl in Hlt. unfold cndyn_dlsym, bad_handle.
  unfold CNDYN_MAX_LOADED_LIBS in *. rewrite (proj2 (Z.eqb_neq (Z.of_nat i + 1) 0)), (proj2 (Z.ltb_ge _ _)) by lia. cbn [orb].
  replace (Z.of_nat i + 1 - 1) with (Z.of_nat i) by lia. rewrite (proj2 (aget_Ret l (Z.of_nat i) d)); [by ostep; rewrite Hu|].
  rewrite Nat2Z.id. by split; [lia|].
Qed.
(** closing removes exactly that handle *)
Lemma dlclose_handle l name h : libs_wf l → handle_of l name h →
  ∃ l', cndyn_dlclose h l = Ret (0, l') ∧ libs_wf l' ∧ (∀ ptr, cndyn_dlsym l' h ptr = Ret (-1)) ∧
    ∀ name' h', handle_of l' name' h' ↔ handle_of l name' h' ∧ name' ≠ name.
Proof.
  intros [Hl Hn Hinj] Hh. pose proof Hh as (i & d & -> & Hi & Hu & Hs). pose proof (lookup_lt_Some _ _ _ Hi) as Hlt.
  unfold cndyn_dlclose, bad_handle. rewrite Hl in Hlt. unfold CNDYN_MAX_LOADED_LIBS in *.
  rewrite (proj2 (Z.eqb_neq (Z.of_nat i + 1) 0)), (proj2 (Z.ltb_ge (Z.of_nat 16) _)) by lia. cbn [orb].
  replace (Z.of_nat i + 1 - 1) with (Z.of_nat i) by lia. rewrite (proj2 (aget_Ret l (Z.of_nat i) d)) by (rewrite Nat2Z.id; by split; [lia|]).
  ostep. rewrite Nat2Z.id. set (d' := LibSlot _ _ _ _ false). eexists. split; [done|].
  assert (∀ name' h', handle_of (<[i := d']> l) name' h' ↔ handle_of l name' h' ∧ name' ≠ name) as Hmap.
  { intros name' h'. split.
    - intros (j & e & -> & Hj & He & Hs'). apply list_lookup_insert_Some in Hj as [(-> & <- & _)|(Hne & Hj)]; [done|].
      split; [by exists j, e|]. intros ->. apply Hne. assert (Z.of_nat j + 1 = Z.of_nat i + 1); [|lia].
      apply (Hinj name); [by exists j, e|done].
    - intros [(j & e & -> & Hj & He & Hs') Hne]. exists j, e. split; [done|]. split; [|done].
      rewrite list_lookup_insert_ne; [done|]. intros ->. simplify_eq. }
  split; [|split; [|done]].
  - split; [by rewrite length_insert| |].
    + intros j e Hj. apply list_lookup_insert_Some in Hj as [(-> & <- & _)|(_ & Hj)]; [by eapply (Hn _ d)|by apply (Hn j e)].
    + intros name' h1 h2 [H1 _]%Hmap [H2 _]%Hmap. by apply (Hinj name').
  - intros ptr. unfold cndyn_dlsym, bad_handle. unfold CNDYN_MAX_LOADED_LIBS.
    rewrite (proj2 (Z.eqb_neq (Z.of_nat i + 1) 0)), (proj2 (Z.ltb_ge (Z.of_nat 16) _)) by lia. cbn [orb].
    replace (Z.of_nat i + 1 - 1) with (Z.of_nat i) by lia.
    rewrite (proj2 (aget_Ret _ (Z.of_nat i) d')); [done|]. rewrite Nat2Z.id. split; [lia|]. apply list_lookup_insert_eq. lia.
Qed.
Lemma dlopen_found m a mode path l h : user_string m a path → libs_wf l → handle_of l path h → cndyn_dlopen m a mode l = (h, l).
Proof.
  intros Hp [_ _ Hinj] Hh. unfold cndyn_dlopen. rewrite (user_copy_spec _ _ _ Hp). pose proof (find_name_spec l path) as Hf.
  destruct (find_lib _ l 0) as [k|]; [|by destruct (Hf h)]. by rewrite (Hinj path _ _ Hf Hh).
Qed.
End libs.

(** The library table maps names to handles: opening a name of at most 63
    bytes returns its handle, the same one on every later call; other names
    keep theirs, no two names share one, and only a full table makes it
    fail.  The handle is valid until it is closed, and closing it forgets that
    name alone. *)
Theorem cndyn_dlopen_correct m a mode path l : user_string m a path → (length path <= 63)%nat → libs_wf l →
  ∃ h l', cndyn_dlopen m a mode l = (h, l') ∧ libs_wf l' ∧
    (h = -1 ∧ l' = l ∧ (∀ h', ¬ handle_of l path h') ∧ (∀ i d, l !! i = Some d → used d = true) ∨
     handle_of l' path h ∧ (∀ mode', cndyn_dlopen m a mode' l' = (h, l')) ∧ (∀ ptr, cndyn_dlsym l' h ptr = Ret 0) ∧
     (∀ name h', name ≠ path → handle_of l' name h' ↔ handle_of l name h') ∧
     (∃ l'', cndyn_dlclose h l' = Ret (0, l'') ∧ libs_wf l'' ∧ (∀ ptr, cndyn_dlsym l'' h ptr = Ret (-1)) ∧
        ∀ name h', handle_of l'' name h' ↔ handle_of l name h' ∧ name ≠ path)).
Proof.
  intros Hp Hlen Hl.
  assert (∃ h l', cndyn_dlopen m a mode l = (h, l') ∧
    (h = -1 ∧ l' = l ∧ (∀ h', ¬ handle_of l path h') ∧ (∀ i d, l !! i = Some d → used d = true) ∨
     libs_wf l' ∧ handle_of l' path h ∧ ∀ name h', name ≠ path → handle_of l' name h' ↔ handle_of l name h'))
    as (h & l' & E & Hcase).
  { unfold cndyn_dlopen. rewrite (user_copy_spec _ _ _ Hp). pose proof (find_name_spec l path) as Hf.
    destruct (find_lib _ l 0) as [k|]; [by eexists _, _; split; [done|]; right|].
    pose proof (find_lib_spec (λ d, negb (used d)) l 0) as Hg. destruct (find_lib (λ d, negb (used d)) l 0) as [k|].
    2: { eexists _, _. split; [done|]. left. split; [done|]. split; [done|]. split; [done|]. intros i d Hi. by apply negb_false_iff, (Hg i). }
    destruct Hg as (j & d & -> & Hj & Hu%negb_true_iff). eexists _, _. split; [done|]. right. rewrite Nat.add_0_l.
    pose proof (handle_insert l j d (LibSlot (str_copy 64 path) 1 0 0 true)) as Hins.
    assert (str_copy 64 path = path) as Es by (unfold str_copy; apply take_ge; lia).
    destruct Hl as [Hl Hn Hinj]. split; [split|split].
    - by rewrite length_insert.
    - intros i e Hi. apply list_lookup_insert_Some in Hi as [(_ & <- & _)|(_ & Hi)]; [simpl; by rewrite Es|by apply (Hn i)].
    - intros name h1 h2. rewrite !(Hins _ _ Hj Hu). cbn [soname]. rewrite Es. intros [H1|(_ & <- & ->)] [H2|(_ & H2' & ->)]; try done.
      + by apply (Hinj name).
      + subst. by destruct (Hf h1).
      + by destruct (Hf h2).
    - apply (Hins _ _ Hj Hu). right. by rewrite Es.
    - intros name h' Hne. rewrite (Hins _ _ Hj Hu). cbn [soname]. rewrite Es. naive_solver. }
  exists h, l'. split; [done|]. destruct Hcase as [(-> & -> & Hno & Hall)|(Hw & Hh & Hoth)]; [by split; [|left]|].
  split; [done|]. right. split; [done|]. split; [by intros; apply (dlopen_found _ _ _ path)|]. split.
  { intros. by apply (dlsym_handle l' path); [apply Hw|]. }
  split; [done|]. destruct (dlclose_handle l' path h Hw Hh) as (l'' & E2 & Hw2 & Hs2 & Hm2).
  exists l''. split; [done|]. split; [done|]. split; [done|]. intros name h'. rewrite Hm2. split; intros [H1 H2]; split; try done; by apply Hoth.
Qed.

(** A name of more than 63 bytes is stored cut off, so it is never found
    again: every open of it takes one more slot, until the table is full and
    opening fails although the library is open. *)
Theorem cndyn_dlopen_long_name m a mode path l : user_string m a path → (63 < length path)%nat → libs_wf l →
  ∃ h l', cndyn_dlopen m a mode l = (h, l') ∧
    (h = -1 ∧ l' = l ∧ (∀ i d, l !! i = Some d → used d = true) ∨
     ∃ i, h = Z.of_nat i + 1 ∧ (∃ d, l !! i = Some d ∧ used d = false) ∧ (∃ d, l' !! i = Some d ∧ used d = true ∧ soname d = take 63 path)).
Proof.
  intros Hp Hlen [_ Hn _]. unfold cndyn_dlopen. rewrite (user_copy_spec _ _ _ Hp). pose proof (find_name_spec l path) as Hf.
  destruct (find_lib _ l 0) as [k|].
  { exfalso. destruct Hf as (i & d & _ & Hi & _ & Hs). specialize (Hn i d Hi). rewrite Hs in Hn. lia. }
  pose proof (find_lib_spec (λ d, negb (used d)) l 0) as Hg. destruct (find_lib (λ d, negb (used d)) l 0) as [k|].
  2: { eexists _, _. split; [done|]. left. split; [done|]. split; [done|]. intros i d Hi. by apply negb_false_iff, (Hg i). }
  destruct Hg as (j & d & -> & Hj & Hu%negb_true_iff). eexists _, _. split; [done|]. right. exists j. split; [done|]. split; [eauto|].
  eexists. split; [apply list_lookup_insert_eq; by eapply lookup_lt_Some|done].
Qed.

(** ** Requirements *)
Import Ext2Disk.Ext2Disk Ext2Spec.Ext2Spec Ext2Format.Ext2Format.
(** a library with the two parts of its version *)
Record requirement := Req { r_lib : list Z; r_major : list Z; r_minor : list Z }.
Definition print_req (r : requirement) : list Z := r_lib r ++ [64] ++ r_major r ++ [46] ++ r_minor r.
Fixpoint print_requires (rs : list requirement) : list Z :=
  match rs with
  | [] => []
  | [r] => print_req r
  | r :: rs => print_req r ++ [44] ++ print_requires rs
  end.
Definition lib_segs (r : requirement) : list (list Z) := [str "System"; str "Lib"; r_lib r ++ str ".cnlk"].
Record req_ok (r : requirement) : Prop := {
  rq_lib : (0 < length (r_lib r) <= 47)%nat ∧ hd 0 (r_lib r) ≠ 32 ∧ Forall (λ c, c ≠ 64 ∧ c ≠ 44) (r_lib r);
  rq_major : (0 < length (r_major r) <= 15)%nat ∧ Forall (λ c, 48 <= c <= 57) (r_major r);
  rq_minor : is_cstr (r_minor r) ∧ 44 ∉ r_minor r;
  rq_path : vpath (lib_segs r)
}.
(** whether every library is a file *)
Definition libs_present (img : image) (rs : list requirement) : bool :=
  forallb (λ r, bool_decide (is_Some (file_at img (lib_segs r)))) rs.
Section requires.
Lemma span_until_app stop a c b : Forall (λ x, stop x = false) a → stop c = true → span_until stop (a ++ c :: b) = (a, c :: b).
Proof. intros Ha Hc. induction Ha as [|x a Hx Ha IH]; cbn [app span_until]; [by rewrite Hc|]. by rewrite Hx, IH. Qed.
Lemma span_until_all stop a : Forall (λ x, stop x = false) a → span_until stop a = (a, []).
Proof. intros Ha. induction Ha as [|x a Hx Ha IH]; cbn [span_until]; [done|]. by rewrite Hx, IH. Qed.
Lemma parse_digits_some s : Forall (λ c, 48 <= c <= 57) s → ∀ v, is_Some (parse_digits v s).
Proof.
  intros Hs. induction Hs as [|c s Hc Hs IH]; intros v; cbn [parse_digits]; [eauto|].
  rewrite (proj2 (Z.ltb_ge c 48)), (proj2 (Z.ltb_ge 57 c)) by lia. apply IH.
Qed.
Lemma lib_path_join r : (length (r_lib r) <= 47)%nat → lib_path (r_lib r) = join (lib_segs r).
Proof.
  intros Hl. unfold lib_path. rewrite take_ge by lia. unfold join, lib_segs, joined. cbn [fmap list_fmap concat].
  rewrite app_nil_r. reflexivity.
Qed.
(** what is left after the first requirement *)
Definition tail_requires (rs : list requirement) : list Z := match rs with [] => [] | _ => [44] ++ print_requires rs end.
Lemma print_cons r rs : print_requires (r :: rs) = r_lib r ++ 64 :: r_major r ++ 46 :: r_minor r ++ tail_requires rs.
Proof. unfold tail_requires. destruct rs as [|r' rs]; cbn [print_requires]; unfold print_req; by rewrite <-?app_assoc, ?app_nil_r. Qed.
Lemma skip_ok r rest : req_ok r → skip_separators (r_lib r ++ rest) = r_lib r ++ rest.
Proof.
  intros [(Hl & Hh & Hf) _ _ _]. destruct (r_lib r) as [|c l]; [simpl in Hl; lia|]. cbn [app skip_separators].
  apply Forall_cons in Hf as [[_ Hc] _]. simpl in Hh. by rewrite (proj2 (Z.eqb_neq c 32)), (proj2 (Z.eqb_neq c 44)).
Qed.
Lemma minor_span r rs : req_ok r →
  snd (span_until (λ c, c =? 44) (46 :: r_minor r ++ tail_requires rs)) = tail_requires rs.
Proof.
  intros [_ _ (Hc & Hm) _].
  assert (Forall (λ x, (x =? 44) = false) (46 :: r_minor r)) as Hf.
  { constructor; [done|]. apply Forall_forall. intros x Hx. apply Z.eqb_neq. by intros ->. }
  unfold tail_requires. destruct rs as [|r' rs].
  - rewrite app_nil_r. by rewrite span_until_all.
  - change (46 :: r_minor r ++ [44] ++ print_requires (r' :: rs)) with ((46 :: r_minor r) ++ 44 :: print_requires (r' :: rs)).
    by rewrite span_until_app.
Qed.
Lemma skip_tail rs : skip_separators (tail_requires rs) = skip_separators (print_requires rs).
Proof. by destruct rs. Qed.
Context {S : Type} `{BlocksLaws S}.
(** one round of the loop *)
Lemma requires_round fuel l r rs (f : fsys S) : req_ok r → l ≠ [] → skip_separators l = print_requires (r :: rs) →
  requires_loop (Datatypes.S fuel) l f =
  '(vs, f) ← vfs_stat (join (lib_segs r)) f;
  match vs with inl _ => Ret (false, f) | inr _ => requires_loop fuel (tail_requires rs) f end.
Proof.
  intros Hr Hne El. destruct l as [|x l]; [done|]. cbn [requires_loop]. rewrite El, print_cons. pose proof Hr as [(Hl & _ & Hf) (Hml & Hmf) _ _].
  rewrite span_until_app.
  2: { eapply Forall_impl; [exact Hf|]. intros c [? ?]. simpl. by rewrite (proj2 (Z.eqb_neq c 64)), (proj2 (Z.eqb_neq c 44)). }
  2: done.
  change (negb (64 =? 64)) with false. cbn iota. rewrite span_until_app.
  2: { eapply Forall_impl; [exact Hmf|]. intros c Hc. simpl in Hc |- *. rewrite (proj2 (Z.eqb_neq c 46)), (proj2 (Z.eqb_neq c 44)) by lia. done. }
  2: done.
  rewrite minor_span by done. rewrite !take_ge by lia. rewrite lib_path_join by lia.
  destruct (r_lib r) as [|c0 lib]; [simpl in Hl; lia|]. destruct (r_major r) as [|c1 mj]; [simpl in Hml; lia|].
  unfold parse_u32. destruct (parse_digits_some (c1 :: mj) Hmf 0) as [v ->]. done.
Qed.
Lemma requires_loop_spec n img rs : Forall req_ok rs → ∀ fuel l f, (length rs <= fuel)%nat → (l = [] ↔ rs = []) →
  skip_separators l = skip_separators (print_requires rs) → fs_on f n img →
  ∃ f', requires_loop fuel l f = Ret (libs_present img rs, f') ∧ fs_on f' n img.
Proof.
  induction 1 as [|r rs Hr Hrs IH]; intros fuel l f Hfuel Hnil El Hf.
  { rewrite (proj2 Hnil eq_refl). exists f. by destruct fuel. }
  destruct fuel as [|fuel]; [simpl in Hfuel; lia|]. assert (l ≠ []) as Hne by (intros E; by apply Hnil in E).
  rewrite (requires_round fuel l r rs f Hr Hne).
  2: { rewrite El, print_cons. by apply skip_ok. }
  destruct (vfs_stat_spec f n img (lib_segs r) Hf (rq_path _ Hr)) as (v & -> & Hv). ostep. unfold libs_present. cbn [forallb].
  destruct (file_at img (lib_segs r)) as [d|].
  - rewrite bool_decide_eq_true_2 by eauto. cbn [andb]. apply IH; [simpl in Hfuel; lia| |apply skip_tail|done]. by destruct rs.
  - rewrite bool_decide_eq_false_2 by (by intros [? ?]). eauto.
Qed.
(** the manifest's requirements, if any *)
Definition requires_of (kvs : list (list Z * list Z)) (rs : list requirement) : Prop :=
  Forall (λ kv, key_ok (fst kv) ∧ value_ok (snd kv)) kvs ∧ Forall req_ok rs ∧
  (lookup_key kvs (str "requires") = Some (print_requires rs) ∧ (length (print_requires rs) <= 191)%nat ∨
   lookup_key kvs (str "requires") = None ∧ rs = []).
Lemma print_cstr rs : Forall req_ok rs → is_cstr (print_requires rs).
Proof.
  induction 1 as [|r rs Hr Hrs IH]; [constructor|]. rewrite print_cons. destruct Hr as [_ (_ & Hm) (Hc & _) Hp].
  assert (is_cstr (r_lib r)) as Hl.
  { destruct Hp as [_ Hp _ _ _]. do 2 apply Forall_cons in Hp as [_ Hp]. apply Forall_cons in Hp as [Hp _]. by apply Forall_app in Hp as [? _]. }
  unfold is_cstr in *. rewrite Forall_app, Forall_cons, Forall_app, Forall_cons, Forall_app. split_and!; try done.
  - eapply Forall_impl; [exact Hm|]. intros c Hx. simpl in Hx |- *. lia.
  - unfold tail_requires. destruct rs; [constructor|]. apply Forall_app. split; [by repeat constructor|done].
Qed.
Lemma length_requires rs : Forall req_ok rs → (length rs <= length (print_requires rs))%nat.
Proof.
  induction 1 as [|r rs Hr Hrs IH]; [simpl; lia|]. rewrite print_cons, !length_app. destruct Hr as [(Hl & _) _ _ _]. simpl. rewrite !length_app.
  simpl. rewrite length_app. unfold tail_requires. destruct rs; [simpl in *; lia|]. rewrite length_app. simpl in *. lia.
Qed.
Lemma resolve_requires_spec f n img kvs rs : fs_on f n img → requires_of kvs rs →
  ∃ f', resolve_requires (concat (entry_line <$> kvs)) f = Ret (libs_present img rs, f') ∧ fs_on f' n img.
Proof.
  intros Hf (Hkv & Hrs & Hlook). unfold resolve_requires, cnpkg_manifest_get_value. change (192 =? 0)%nat with false. cbn iota.
  rewrite manifest_loop_spec by done. destruct Hlook as [[-> Hlen]|[-> ->]]; [|by exists f].
  cbn [mbind option_bind]. rewrite (proj2 (Nat.ltb_ge 192 _)) by lia. ostep. rewrite cstr_id by (by apply print_cstr).
  apply requires_loop_spec; [done|by apply length_requires| |done|done]. split; [|by intros ->].
  intros E. pose proof (length_requires rs Hrs) as Hl. rewrite E in Hl. by destruct rs; [|simpl in Hl; lia].
Qed.
End requires.

(** ** Granting the user regions *)
Definition cell (P : Z → Prop) (a : Z) : Prop := ∀ x, a <= x < a + 8 → P x.
(** the page-table entries that a grant reads and writes *)
Definition grant_cells (v : Vmm.Vmm.vm) (virt : Z) : list Z :=
  let root := Vmm.Vmm.vm_cr3 v in
  let e4 := Vmm.Vmm.entry (Vmm.Vmm.vm_mem v) root (Vmm.Vmm.PML4_INDEX virt) in
  let m := Vmm.Vmm.set_entry (Vmm.Vmm.vm_mem v) root (Vmm.Vmm.PML4_INDEX virt) (Z.lor e4 Vmm.Vmm.PAGE_USER) in
  let e3 := Vmm.Vmm.entry m (Vmm.Vmm.table_of e4) (Vmm.Vmm.PDPT_INDEX virt) in
  [root + 8 * Vmm.Vmm.PML4_INDEX virt; Vmm.Vmm.table_of e4 + 8 * Vmm.Vmm.PDPT_INDEX virt; Vmm.Vmm.table_of e3 + 8 * Vmm.Vmm.PD_INDEX virt].
Definition region_cells (v : Vmm.Vmm.vm) : list Z :=
  grant_cells v USER_TEXT_BASE ++
  grant_cells (Vmm.Vmm.vmm_grant_user_2mb_region v USER_TEXT_BASE false) (USER_STACK_TOP - 4096).
Lemma flush_mem v : Vmm.Vmm.vm_mem (Vmm.Vmm.vmm_flush_tlb_all v) = Vmm.Vmm.vm_mem v.
Proof. done. Qed.
Lemma flush_cr3 v : Vmm.Vmm.vm_cr3 (Vmm.Vmm.vmm_flush_tlb_all v) = Vmm.Vmm.vm_cr3 v.
Proof. done. Qed.
Lemma flush_pmm v : Vmm.Vmm.vm_pmm (Vmm.Vmm.vmm_flush_tlb_all v) = Vmm.Vmm.vm_pmm v.
Proof. done. Qed.
Section grants.
Context (P : Z → Prop).
Lemma entry_agree m m' t i : agree P m m' → cell P (t + 8 * i) → Vmm.Vmm.entry m t i = Vmm.Vmm.entry m' t i.
Proof. intros Hm Hc. unfold Vmm.Vmm.entry, ld64. f_equal. apply mread_ext. intros x Hx. by apply Hm, Hc. Qed.
Lemma set_entry_agree m m' t i e : agree P m m' → agree P (Vmm.Vmm.set_entry m t i e) (Vmm.Vmm.set_entry m' t i e).
Proof. intros Hm x Hx. unfold Vmm.Vmm.set_entry, st64, mwrite. by rewrite (Hm x Hx). Qed.
(** a memory that differs from [m0] in [P] only and holds bytes *)
Definition within (m0 m : mem) : Prop := (∀ x, ¬ P x → m x = m0 x) ∧ mem_bytes m.
Lemma set_entry_within m0 m t i e : within m0 m → cell P (t + 8 * i) → within m0 (Vmm.Vmm.set_entry m t i e).
Proof.
  intros [Hm Hb] Hc. split.
  - intros x Hx. rewrite <-(Hm x Hx). unfold Vmm.Vmm.set_entry, st64, mwrite. rewrite length_le_of. case_if; [|done].
    destruct Hx. apply Hc. lia.
  - apply mem_bytes_mwrite; [done|apply bytes_le_of].
Qed.
Lemma grant_agree m0 v v' virt w : Vmm.Vmm.vm_cr3 v = Vmm.Vmm.vm_cr3 v' →
  agree P (Vmm.Vmm.vm_mem v) (Vmm.Vmm.vm_mem v') → within m0 (Vmm.Vmm.vm_mem v) → Forall (cell P) (grant_cells v' virt) →
  let g := Vmm.Vmm.vmm_grant_user_2mb_region in
  Vmm.Vmm.vm_cr3 (g v virt w) = Vmm.Vmm.vm_cr3 (g v' virt w) ∧
  agree P (Vmm.Vmm.vm_mem (g v virt w)) (Vmm.Vmm.vm_mem (g v' virt w)) ∧ within m0 (Vmm.Vmm.vm_mem (g v virt w)) ∧
  Vmm.Vmm.vm_cr3 (g v virt w) = Vmm.Vmm.vm_cr3 v ∧ Vmm.Vmm.vm_pmm (g v virt w) = Vmm.Vmm.vm_pmm v.
Proof.
  intros Hr Hm Hw Hc g. unfold grant_cells in Hc. apply Forall_cons in Hc as [C1 Hc]. apply Forall_cons in Hc as [C2 Hc].
  apply Forall_cons in Hc as [C3 _]. subst g. unfold Vmm.Vmm.vmm_grant_user_2mb_region, Vmm.Vmm.vmm_get_current_pml4.
  rewrite Hr, (entry_agree _ _ _ _ Hm C1). case_if; [done|].
  set (e4 := Vmm.Vmm.entry (Vmm.Vmm.vm_mem v') _ _) in *. set (m1 := Vmm.Vmm.set_entry (Vmm.Vmm.vm_mem v) _ _ _).
  set (m1' := Vmm.Vmm.set_entry (Vmm.Vmm.vm_mem v') _ _ _) in *.
  assert (agree P m1 m1') as Hm1 by (by apply set_entry_agree). assert (within m0 m1) as Hw1 by (by apply set_entry_within).
  rewrite (entry_agree _ _ _ _ Hm1 C2). case_if; [done|].
  set (e3 := Vmm.Vmm.entry m1' _ _) in *. set (m2 := Vmm.Vmm.set_entry m1 _ _ _). set (m2' := Vmm.Vmm.set_entry m1' _ _ _).
  assert (agree P m2 m2') as Hm2 by (by apply set_entry_agree). assert (within m0 m2) as Hw2 by (by apply set_entry_within).
  rewrite (entry_agree _ _ _ _ Hm2 C3). case_if; [|done]. split; [done|]. split; [by apply set_entry_agree|]. by split; [apply set_entry_within|].
Qed.
Lemma regions_agree v v' : Vmm.Vmm.vm_cr3 v = Vmm.Vmm.vm_cr3 v' → agree P (Vmm.Vmm.vm_mem v) (Vmm.Vmm.vm_mem v') →
  mem_bytes (Vmm.Vmm.vm_mem v) → Forall (cell P) (region_cells v') →
  agree P (Vmm.Vmm.vm_mem (grant_user_regions v)) (Vmm.Vmm.vm_mem (grant_user_regions v')) ∧
  within (Vmm.Vmm.vm_mem v) (Vmm.Vmm.vm_mem (grant_user_regions v)) ∧ Vmm.Vmm.vm_cr3 (grant_user_regions v) = Vmm.Vmm.vm_cr3 v ∧
  Vmm.Vmm.vm_pmm (grant_user_regions v) = Vmm.Vmm.vm_pmm v.
Proof.
  intros Hr Hm Hb [Hc1 Hc2]%Forall_app.
  destruct (grant_agree (Vmm.Vmm.vm_mem v) v v' USER_TEXT_BASE false) as (Hr1 & Hm1 & Hw1 & Hc & Hq); [done|done|done|done|].
  destruct (grant_agree (Vmm.Vmm.vm_mem v) (Vmm.Vmm.vmm_grant_user_2mb_region v USER_TEXT_BASE false)
    (Vmm.Vmm.vmm_grant_user_2mb_region v' USER_TEXT_BASE false) (USER_STACK_TOP - 4096) true) as (Hr2 & Hm2 & Hw2 & Hc' & Hq'); [done..|].
  unfold grant_user_regions. cbv zeta. rewrite !flush_mem, flush_cr3, flush_pmm, Hc', Hc, Hq', Hq. done.
Qed.
End grants.

(** ** The image in the file *)
(** loading depends on the loadable memory only *)
Definition same_load (P : Z → Prop) {A} (o o' : outcome (A * mem)) : Prop :=
  match o, o' with
  | Ret (r, m), Ret (r', m') => r = r' ∧ agree P m m'
  | Undef, Undef | Loop, Loop => True
  | _, _ => False
  end.
Section flat.
Context (P : Z → Prop).
Lemma segments_agree p h k : ∀ i m m', agree P m m' → same_load P (cnim_segments p h i k m) (cnim_segments p h i k m').
Proof.
  induction k as [|k IH]; intros i m m' Hm; cbn [cnim_segments]; [done|].
  destruct (rd p _ sizeof_cnim_segment) as [sg| |]; [|done..]. cbn [mbind outcome_mbind]. case_if; [done|].
  destruct (rd p _ _) as [d| |]; [|done..]. cbn [mbind outcome_mbind]. apply IH. intros x Hx. unfold mem_zero, mwrite. by rewrite (Hm x Hx).
Qed.
Lemma rela_agree p h k : ∀ i m m', agree P m m' → same_load P (rela_loop p h i k m) (rela_loop p h i k m').
Proof.
  induction k as [|k IH]; intros i m m' Hm; cbn [rela_loop]; [done|].
  destruct (rd p _ _) as [r| |]; [|done..]. cbn [mbind outcome_mbind]. case_if; [done|].
  apply IH. intros x Hx. unfold st64, mwrite. by rewrite (Hm x Hx).
Qed.
Lemma flat_agree p m m' : agree P m m' → same_load P (cnim_load_flat p m) (cnim_load_flat p m').
Proof.
  intros Hm. unfold cnim_load_flat. case_if; [done|]. case_if; [done|].
  pose proof (segments_agree p (slice p 0 64) (Z.to_nat (c_segment_count (slice p 0 64))) 0 m m' Hm) as Hs.
  destruct (cnim_segments _ _ _ _ m) as [[r1 m1]| |], (cnim_segments _ _ _ _ m') as [[r1' m1']| |]; try done.
  destruct Hs as [<- Hm1]. cbn [mbind outcome_mbind]. destruct r1 as [u|]; [|done]. unfold cnim_apply_rela.
  destruct (c_rela_count _ =? 0); [done|]. destruct (Z.of_nat (length p) <? _); [done|].
  pose proof (rela_agree p (slice p 0 64) (Z.to_nat (c_rela_count (slice p 0 64))) 0 m1 m1' Hm1) as Hs.
  destruct (rela_loop _ _ _ _ m1) as [[r2 m2]| |], (rela_loop _ _ _ _ m1') as [[r2' m2']| |]; try done.
  destruct Hs as [<- Hm2]. done.
Qed.
End flat.

Section bounds.
Lemma rd_u32_bound p off v : bytes p → rd_u32_le p off = Ret v → 0 <= v < 2 ^ 32.
Proof.
  intros Hb. unfold rd_u32_le, rd. case_if; [|done]. cbn [mbind outcome_mbind]. intros [= <-]. by apply (f32_bound p).
Qed.
Lemma rd_u64_bound p off v : bytes p → rd_u64_le p off = Ret v → 0 <= v < 2 ^ 64.
Proof.
  intros Hb. unfold rd_u64_le. destruct (rd_u32_le p off) as [lo| |] eqn:E1; [|done..].
  destruct (rd_u32_le p (off + 4)) as [hi| |] eqn:E2; [|done..]. cbn [mbind outcome_mbind]. intros [= <-].
  pose proof (rd_u32_bound _ _ _ Hb E1). pose proof (rd_u32_bound _ _ _ Hb E2). rewrite lor_hi by lia. lia.
Qed.
Lemma locate_bounds p plen total type off sz : bytes p → cnpkg_locate_section p plen total type = Ret (inr (off, sz)) →
  0 <= off ∧ 0 <= sz ∧ off + sz <= total.
Proof.
  intros Hb. unfold cnpkg_locate_section. destruct (cnpkg_probe_header p plen) as [[e|h]| |]; [done| |done..].
  cbn [mbind outcome_mbind]. case_if; [done|]. case_if; [done|]. generalize (Z.to_nat (section_count h)) as k. generalize 0%nat as i.
  intros i k. revert i. induction k as [|k IH]; intros i; cbn [locate_loop]; [done|]. case_if; [done|].
  destruct (rd_u32_le p _) as [ty| |]; [|done..]. cbn [mbind outcome_mbind]. case_if; [apply IH|].
  destruct (rd_u64_le p (_ + 8)) as [o| |] eqn:E1; [|done..]. destruct (rd_u64_le p (_ + 16)) as [z| |] eqn:E2; [|done..].
  cbn [mbind outcome_mbind]. pose proof (rd_u64_bound _ _ _ Hb E1). pose proof (rd_u64_bound _ _ _ Hb E2).
  case_if; [done|]. intros [= <- <-]. breflect. unfold u64 in *. zdm.
Qed.
End bounds.

(** ** Loading a package *)
(** the file [d] is a program: a header of at most 4096 bytes that locates
    the image and a printed manifest *)
Record program (d : list Z) (off sz : Z) (kvs : list (list Z * list Z)) : Prop := {
  pg_size : 40 <= Z.of_nat (length d) <= CNDYN_MAX_FILE_BYTES;
  pg_header : header_errors (header_of (slice d 0 40)) = None;
  pg_kind : pkg_kind (header_of (slice d 0 40)) = CNPKG_KIND_PROGRAM;
  pg_small : header_bytes (header_of (slice d 0 40)) <= 4096;
  pg_secs : ∃ moff msz, locate_both (take 4096 d) (header_bytes (header_of (slice d 0 40))) (Z.of_nat (length d)) = Ret (Some ((off, sz), (moff, msz))) ∧
    0 < msz <= 4096 ∧ slice d (Z.to_nat moff) (Z.to_nat msz) = concat (entry_line <$> kvs)
}.
Section load.
Context {S : Type} `{UserMemLaws S} (n : Z) (img : image) (cs : list (list Z)) (d : list Z).
Context (Hp : vpath cs) (Hd : file_at img cs = Some d).
Definition on_disk (f : fsys S) : Prop := ∃ m, fs_mem f n img m.
Definition ram (f : fsys S) : mem := Vmm.Vmm.vm_mem (f_vm f).
Lemma ram_agree f m : fs_mem f n img m → agree um_out (ram f) m.
Proof. intros [_ Hr _] x Hx. by apply (um_agree m (f_vol f) n img). Qed.
(** file operations leave user memory alone *)
Lemma same_user f f' m : fs_mem f n img m → fs_mem f' n img m → agree um_out (ram f') (ram f).
Proof. intros Hf Hf' x Hx. by rewrite (ram_agree _ _ Hf x Hx), (ram_agree _ _ Hf' x Hx). Qed.
Lemma file_streams off sz : 0 <= off → 0 <= sz → off + sz <= Z.of_nat (length d) → Z.of_nat (length d) <= CNDYN_MAX_FILE_BYTES →
  streams (cndyn_stream_read (join cs) off) f_write (slice d (Z.to_nat off) (Z.to_nat sz)) ram on_disk um_out.
Proof.
  unfold CNDYN_MAX_FILE_BYTES. intros Ho Hs Hin Hmax.
  assert (length (slice d (Z.to_nat off) (Z.to_nat sz)) = Z.to_nat sz) as Hl by (apply length_slice; lia). split.
  - rewrite Hl. intros o k f [m Hf] Ho' Hk Hlen. unfold cndyn_stream_read. rewrite (u32_small o), (u32_small (off + o)) by lia.
    destruct (vfs_read_spec (H0 := um_laws m) f n img cs (off + o) k Hf Hp) as (v & -> & Hv); [lia|lia|]. ostep. rewrite Hd.
    rewrite slice_slice by lia. replace (Z.to_nat off + Z.to_nat o)%nat with (Z.to_nat (off + o)) by lia. fold (slice d (Z.to_nat (off + o)) (Z.to_nat k)).
    rewrite length_slice, Z2Nat.id, Z.eqb_refl by lia. exists (set_fvol f v). split; [done|]. split; [by exists m|]. by apply (same_user _ _ m).
  - intros f a l [m Hf] Hb Hout. pose proof (fs_mem_write f n img m a l Hf Hout Hb) as Hf'. split; [by exists (mwrite m a l)|].
    intros x Hx. rewrite (ram_agree _ _ Hf' x Hx). unfold mwrite. by rewrite (ram_agree _ _ Hf x Hx).
Qed.
Lemma load_prefix_spec f m off sz kvs : fs_mem f n img m → program d off sz kvs →
  ∃ f', load_prefix (join cs) f = Ret (Some (take 4096 d, Z.of_nat (length d), header_of (slice d 0 40)), f') ∧ fs_mem f' n img m.
Proof.
  intros Hf [Hs Hh _ _ _]. unfold CNDYN_MAX_FILE_BYTES in Hs. unfold load_prefix.
  destruct (vfs_stat_spec (H0 := um_laws m) f n img cs Hf Hp) as (v & -> & Hv). ostep. rewrite Hd. cbn [st_size].
  rewrite (proj2 (Z.eqb_neq _ 0)), (proj2 (Z.ltb_ge CNDYN_MAX_FILE_BYTES _)) by (unfold CNDYN_MAX_FILE_BYTES; lia). cbn [orb].
  set (first := if Z.of_nat (length d) <? 4096 then Z.of_nat (length d) else 4096).
  assert (first = Z.min 4096 (Z.of_nat (length d))) as Ef by (unfold first; case_if; lia).
  destruct (vfs_read_spec (H0 := um_laws m) (set_fvol f v) n img cs 0 first Hv Hp) as (v' & -> & Hv'); [lia|lia|]. ostep. rewrite Hd.
  assert (take (Z.to_nat first) (drop (Z.to_nat 0) d) = take 4096 d) as ->.
  { change (drop (Z.to_nat 0) d) with d. destruct (Z.le_ge_cases 4096 (Z.of_nat (length d))); [f_equal; lia|]. rewrite !take_ge by lia. done. }
  rewrite length_take. rewrite (proj2 (Z.eqb_eq _ first)) by lia. cbn [negb]. unfold cnpkg_parse_header_prefix.
  rewrite (proj2 (Z.ltb_ge first 40)) by lia. rewrite rd_in by (rewrite ?length_take; lia). ostep.
  assert (slice (take 4096 d) (Z.to_nat 0) (Z.to_nat 40) = slice d 0 40) as ->.
  { change (slice (slice d 0 4096) 0 40 = slice d 0 40). by rewrite slice_slice by lia. }
  rewrite Hh. ostep. by eexists.
Qed.
Lemma check_manifest_spec f m off sz kvs rs : fs_mem f n img m → program d off sz kvs → requires_of kvs rs →
  ∃ f' moff msz, locate_both (take 4096 d) (header_bytes (header_of (slice d 0 40))) (Z.of_nat (length d)) = Ret (Some ((off, sz), (moff, msz))) ∧
    check_manifest (join cs) moff msz f = Ret (libs_present img rs, f') ∧ fs_mem f' n img m ∧ 0 <= off ∧ 0 <= sz ∧ off + sz <= Z.of_nat (length d).
Proof.
  intros Hf [Hs Hh Hk Hsm (moff & msz & El & Hmsz & Em)] Hr.
  assert (bytes d) as Hb by (by apply (bytes_file_at n img cs d); [apply Hf|]).
  assert (∃ f', check_manifest (join cs) moff msz f = Ret (libs_present img rs, f') ∧ fs_mem f' n img m) as (f' & Ec & Hf').
  { unfold locate_both in El. destruct (cnpkg_locate_section _ _ _ CNPKG_SECTION_IMAGE) as [[e|im]| |]; [done| |done..]. cbn [mbind outcome_mbind] in El.
    destruct (cnpkg_locate_section _ _ _ CNPKG_SECTION_MANIFEST) as [[e|mn]| |] eqn:E2; [done| |done..]. injection El as -> ->.
    apply locate_bounds in E2 as (B1 & B2 & B3); [|by apply Forall_take]. unfold CNDYN_MAX_FILE_BYTES in Hs.
    unfold check_manifest. rewrite (proj2 (Z.ltb_ge 4096 msz)), u32_small by lia.
    destruct (vfs_read_spec (H0 := um_laws m) f n img cs moff msz Hf Hp) as (v & -> & Hv); [lia|lia|]. ostep. rewrite Hd.
    fold (slice d (Z.to_nat moff) (Z.to_nat msz)). rewrite length_slice, Z2Nat.id, Z.eqb_refl by lia. cbn [negb]. rewrite Em.
    by apply (resolve_requires_spec (H0 := um_laws m)). }
  exists f', moff, msz. split; [done|]. split; [done|]. split; [done|].
  unfold locate_both in El. destruct (cnpkg_locate_section _ _ _ CNPKG_SECTION_IMAGE) as [[e|im]| |] eqn:E1; [done| |done..]. cbn [mbind outcome_mbind] in El.
  destruct (cnpkg_locate_section _ _ _ CNPKG_SECTION_MANIFEST) as [[e|mn]| |]; [done| |done..]. injection El as -> ->.
  apply locate_bounds in E1; [done|by apply Forall_take].
Qed.
(** the state in which the image is loaded *)
Lemma grants_on_disk f m : fs_mem f n img m → Forall (cell um_out) (region_cells (f_vm f)) →
  ∀ f1, fs_mem f1 n img m → on_disk (set_fvm f1 (grant_user_regions (f_vm f1))) ∧
    agree um_out (ram (set_fvm f1 (grant_user_regions (f_vm f1)))) (Vmm.Vmm.vm_mem (grant_user_regions (f_vm f))).
Proof.
  intros Hf Hc f1 Hf1. pose proof (um_cr3 m _ n img (fo_rep _ _ _ Hf)) as C. pose proof (um_cr3 m _ n img (fo_rep _ _ _ Hf1)) as C1.
  destruct (regions_agree um_out (f_vm f1) (f_vm f)) as (Ha & [Hw Hb] & Hr & Hq); [unfold f_vm; by rewrite C, C1|by apply (same_user f f1 m)| |done|].
  { by apply (um_bytes m _ n img), (fo_rep _ _ _ Hf1). }
  assert (fs_mem (set_fvm f1 (grant_user_regions (f_vm f1))) n img (Vmm.Vmm.vm_mem (grant_user_regions (f_vm f)))) as Hg.
  { destruct Hf1 as [Hm Hv Hw1]. split; [done| |done]. apply (um_vm m); [done|unfold f_vm in *; by rewrite Hr| |done|exact Ha|exact Hw].
    rewrite Hq. by apply (um_frames m _ n img). }
  split; [by eexists|]. by apply ram_agree.
Qed.
End load.

(** The dependency check: for a printed manifest whose "requires" value is
    a printed list of libraries with versions, [resolve_requires] succeeds
    exactly when /System/Lib holds a file for every library of the list (and
    always succeeds without the key), and changes no file. *)
Theorem resolve_requires_correct {S} `{BlocksLaws S} f n img kvs rs : fs_on f n img → requires_of kvs rs →
  ∃ f', resolve_requires (concat (entry_line <$> kvs)) f = Ret (libs_present img rs, f') ∧ fs_on f' n img.
Proof. apply resolve_requires_spec. Qed.

Lemma load_package_spec {S} `{UserMemLaws S} (f : fsys S) n img m cs d off sz kvs rs : fs_mem f n img m → vpath cs →
  file_at img cs = Some d → program d off sz kvs → requires_of kvs rs →
  Forall (cell um_out) (region_cells (f_vm f)) → cnim_streamable (slice d (Z.to_nat off) (Z.to_nat sz)) um_out →
  ∃ r f', cndyn_load_package_for_exec (join cs) f = Ret (r, f') ∧ on_disk n img f' ∧
    if libs_present img rs
    then ∃ m', cnim_load_flat (slice d (Z.to_nat off) (Z.to_nat sz)) (Vmm.Vmm.vm_mem (grant_user_regions (f_vm f))) = Ret (r, m') ∧
               agree um_out (ram f') m'
    else r = None ∧ agree um_out (ram f') (ram f).
Proof.
  intros Hf Hp Hd Hpg Hreq Hcells Hst. unfold cndyn_load_package_for_exec.
  destruct (load_prefix_spec n img cs d Hp Hd f m off sz kvs Hf Hpg) as (f1 & -> & Hf1). ostep.
  rewrite (pg_kind _ _ _ _ Hpg), Z.eqb_refl. cbn [negb]. unfold read_header_full, prefix_cap. pose proof Hpg as [Hs Hh _ Hsm _].
  assert (40 <= header_bytes (header_of (slice d 0 40))) as H40.
  { revert Hh. unfold header_errors. do 5 (case_if; [done|]). lia. }
  rewrite (proj2 (Z.ltb_ge CNDYN_MAX_HEADER_BYTES _)), (proj2 (Z.ltb_ge _ 40)), (proj2 (Z.leb_le _ 4096)) by (unfold CNDYN_MAX_HEADER_BYTES; lia). cbn [orb]. ostep.
  destruct (check_manifest_spec n img cs d Hp Hd f1 m off sz kvs rs Hf1 Hpg Hreq) as (f2 & moff & msz & -> & Ec & Hf2 & B1 & B2 & B3).
  ostep. rewrite Ec. ostep. unfold free_header. change (0 =? 0) with true. cbn iota. ostep.
  destruct (libs_present img rs); cbn [negb].
  2: { eexists _, f2. split; [done|]. split; [by exists m|]. split; [done|]. by apply (same_user n img f f2 m). }
  unfold CNDYN_MAX_FILE_BYTES in Hs. rewrite (proj2 (Z.ltb_ge 0xFFFFFFFF off)), (proj2 (Z.ltb_ge CNDYN_MAX_FILE_BYTES sz)) by (unfold CNDYN_MAX_FILE_BYTES; lia). cbn [orb].
  rewrite u32_small by lia. assert (str_copy 256 (join cs) = join cs) as ->.
  { unfold str_copy. pose proof (vp_len _ Hp). apply take_ge. lia. }
  destruct (grants_on_disk n img f m Hf Hcells f2 Hf2) as [Hg Ha]. set (f3 := set_fvm f2 _) in *. set (p := slice d (Z.to_nat off) (Z.to_nat sz)) in *.
  assert (bytes d) as Hb by (by apply (bytes_file_at n img cs d); [apply Hf|]).
  assert (Z.of_nat (length p) = sz) as El by (unfold p; rewrite length_slice; lia).
  destruct (cnim_load_equiv _ f_write p ram (on_disk n img) um_out f3
    (file_streams n img cs d Hp Hd off sz B1 B2 B3 ltac:(unfold CNDYN_MAX_FILE_BYTES; lia))) as (r & f' & m1 & E & Hi & Efl & Hm1);
    [by apply bytes_slice|done|lia|done|]. rewrite El in E.
  exists r, f'. split; [exact E|]. split; [done|]. pose proof (flat_agree um_out p _ _ Ha) as Hsame. rewrite Efl in Hsame. unfold same_load in Hsame.
  destruct (cnim_load_flat p (Vmm.Vmm.vm_mem (grant_user_regions (f_vm f)))) as [[r' m']| |]; [|done..]. destruct Hsame as [<- Hs'].
  exists m'. split; [done|]. by eapply agree_trans.
Qed.

(** C16. Loading a program package from the file system: when a required
    library is missing the load fails and user memory is unchanged; otherwise
    its result (the entry point, or failure for a bad image) and the user
    memory it leaves are those of opening the user regions and then loading
    the package's image section flat.  The file system is unchanged.  The image
    section is one on which the two loaders do the same ([cnim_streamable]): it
    has 1 to 16 segments, no relocations (the streaming loader refuses images
    with more segments or with relocations, which the flat loader takes), no
    file range that wraps around, and segments in the memory that the package
    is loaded to. *)
Theorem cndyn_load_package_correct {S} `{UserMemLaws S} (f : fsys S) n img m cs d off sz kvs rs : fs_mem f n img m → vpath cs →
  file_at img cs = Some d → program d off sz kvs → requires_of kvs rs →
  Forall (cell um_out) (region_cells (f_vm f)) → cnim_streamable (slice d (Z.to_nat off) (Z.to_nat sz)) um_out →
  ∃ r f', cndyn_load_package_for_exec (join cs) f = Ret (r, f') ∧ on_disk n img f' ∧
    if libs_present img rs
    then ∃ m', cnim_load_flat (slice d (Z.to_nat off) (Z.to_nat sz)) (Vmm.Vmm.vm_mem (grant_user_regions (f_vm f))) = Ret (r, m') ∧
               agree um_out (ram f') m'
    else r = None ∧ agree um_out (ram f') (ram f).
Proof. apply load_package_spec. Qed.

(** ** Witnesses *)
(** a package with a manifest of one line and the image of [demo_cnim] *)
Definition demo_kvs : list (list Z * list Z) := [(str "name", str "My App")].
Definition demo_manifest : list Z := concat (entry_line <$> demo_kvs).
Definition demo_package : list Z :=
  le_of 4 CNPKG_MAGIC_CNPK ++ le_of 2 1 ++ le_of 2 0 ++ le_of 4 CNPKG_KIND_PROGRAM ++ le_of 4 88 ++ le_of 4 0 ++ le_of 4 2 ++ replicate 16 0 ++
  le_of 4 CNPKG_SECTION_MANIFEST ++ le_of 4 0 ++ le_of 8 88 ++ le_of 8 14 ++
  le_of 4 CNPKG_SECTION_IMAGE ++ le_of 4 0 ++ le_of 8 102 ++ le_of 8 107 ++ demo_manifest ++ demo_cnim.
Lemma demo_package_bytes : bytes demo_package.
Proof.
  assert (forallb (λ x, (0 <=? x) && (x <? 256)) demo_package = true) as Hf by (vm_compute; reflexivity).
  apply Forall_forall. intros x Hx. rewrite forallb_forall in Hf. specialize (Hf x (proj1 (list_elem_of_In _ _) Hx)). breflect. by split.
Qed.
Lemma demo_program : program demo_package 102 107 demo_kvs.
Proof.
  split; [vm_compute; split; discriminate|reflexivity|reflexivity|vm_compute; discriminate|].
  exists 88, 14. split; [vm_compute; reflexivity|]. split; [lia|]. vm_compute. reflexivity.
Qed.
Lemma demo_requires : requires_of demo_kvs [].
Proof.
  split; [|split; [constructor|by right; split]]. pose proof demo_entries_ok as Hd. apply Forall_cons in Hd as [Hd _]. by apply Forall_singleton.
Qed.
Lemma cells_agree P v v' virt : Vmm.Vmm.vm_cr3 v = Vmm.Vmm.vm_cr3 v' → agree P (Vmm.Vmm.vm_mem v) (Vmm.Vmm.vm_mem v') →
  Forall (cell P) (grant_cells v' virt) → grant_cells v virt = grant_cells v' virt.
Proof.
  intros Hr Hm Hc. unfold grant_cells in Hc. apply Forall_cons in Hc as [C1 Hc]. apply Forall_cons in Hc as [C2 _].
  unfold grant_cells. cbv zeta in *. rewrite Hr, (entry_agree P _ _ _ _ Hm C1). do 2 f_equal. f_equal. f_equal.
  rewrite (entry_agree P _ _ _ _ (set_entry_agree P _ _ _ _ _ Hm) C2). done.
Qed.
Lemma demo_cells (s : vst unit) n img : framed 0x800000 0x1000 demo_frames user_mem s n img →
  Forall (cell (outside 0x800000)) (region_cells (v_vm s)).
Proof.
  intros ((_ & _ & _ & Hb & _) & (_ & Hc & _) & Hm). set (v' := user_vm).
  assert (∀ a, 0 <= a < 0x10000 → cell (outside 0x800000) a) as Hlow by (intros a Ha x Hx; left; lia).
  assert (Forall (cell (outside 0x800000)) (grant_cells v' USER_TEXT_BASE)) as C1.
  { assert (forallb (λ a, (0 <=? a) && (a <? 0x10000)) (grant_cells v' USER_TEXT_BASE) = true) as Hf by (vm_compute; reflexivity).
    apply Forall_forall. intros a Ha. rewrite forallb_forall in Hf. specialize (Hf a (proj1 (list_elem_of_In _ _) Ha)). breflect. apply Hlow. lia. }
  destruct (grant_agree (outside 0x800000) (Vmm.Vmm.vm_mem (v_vm s)) (v_vm s) v' USER_TEXT_BASE false) as (Hr1 & Hm1 & _); [done|exact Hm|done|done|].
  set (v1' := Vmm.Vmm.vmm_grant_user_2mb_region v' USER_TEXT_BASE false) in *.
  assert (Forall (cell (outside 0x800000)) (grant_cells v1' (USER_STACK_TOP - 4096))) as C2.
  { assert (forallb (λ a, (0 <=? a) && (a <? 0x10000)) (grant_cells v1' (USER_STACK_TOP - 4096)) = true) as Hf by (vm_compute; reflexivity).
    apply Forall_forall. intros a Ha. rewrite forallb_forall in Hf. specialize (Hf a (proj1 (list_elem_of_In _ _) Ha)). breflect. apply Hlow. lia. }
  unfold region_cells. rewrite (cells_agree _ (v_vm s) v' _ Hc Hm C1), (cells_agree _ _ v1' _ Hr1 Hm1 C2). apply Forall_app. split; [exact C1|exact C2].
Qed.
#[local] Existing Instance no_ide.
#[local] Instance package_laws : UserMemLaws (vst unit) := ram_user_laws 0x800000 0x1000 demo_frames.
Lemma demo_cnim_flat m : ∃ mm, cnim_load_flat demo_cnim m = Ret (Some 0x400002, mm) ∧ mm 0x400001 = 8.
Proof. eexists. split; reflexivity. Qed.
Lemma cndyn_load_package_correct_witness : ∃ (f f' : fsys (vst unit)) m',
  cndyn_load_package_for_exec (str "/a.txt") f = Ret (Some 0x400002, f') ∧ agree (outside 0x800000) (ram f') m' ∧ m' 0x400001 = 8.
Proof.
  destruct (demo_user_data demo_package demo_package_bytes ltac:(vm_compute; discriminate)) as (s & img & Hs & Hw & Hd).
  pose (f := Fsys true VFS_FS_EXT2 s demo_slots [slash]).
  destruct (cndyn_load_package_correct f 256 img user_mem [str "a.txt"] demo_package 102 107 demo_kvs []) as (r & f' & E & _ & m' & Em & Ha).
  - split; [reflexivity|exact Hs|exact Hw].
  - exact demo_vpath.
  - exact Hd.
  - exact demo_program.
  - exact demo_requires.
  - exact (demo_cells s 256 img Hs).
  - exact (demo_cnim_streamable (outside 0x800000) (λ x Hx, or_introl (Z.lt_trans _ _ _ (proj2 Hx) (eq_refl : 0x400004 < 0x800000)))).
  - change (slice demo_package (Z.to_nat 102) (Z.to_nat 107)) with demo_cnim in Em.
    destruct (demo_cnim_flat (Vmm.Vmm.vm_mem (grant_user_regions (f_vm f)))) as (mm & E' & Hmm).
    rewrite E' in Em. injection Em as <- <-. exists f, f', mm. split; [exact E|]. split; [exact Ha|exact Hmm].
Defined.
(** "requires = cnui@1.0", and no such library on the disk *)
Definition cnui : requirement := Req (str "cnui") (str "1") (str "0").
Lemma not_in (x : Z) (l : list Z) : forallb (λ y, negb (y =? x)) l = true → x ∉ l.
Proof. intros Hl Hin. rewrite forallb_forall in Hl. specialize (Hl x (proj1 (list_elem_of_In l x) Hin)). by rewrite Z.eqb_refl in Hl. Qed.
Lemma cnui_ok : req_ok cnui.
Proof.
  split; [| | |split]; unfold is_cstr, comp_ok; apply (bool_decide_unpack _); vm_compute; exact I.
Qed.
Lemma resolve_requires_correct_witness : ∃ (f f' : fsys (vst unit)) b,
  resolve_requires (concat (entry_line <$> demo_entries)) f = Ret (b, f').
Proof.
  destruct demo_mounted_file as (f & img & Hf & _).
  destruct (resolve_requires_correct f 256 img demo_entries [cnui] Hf) as (f' & E & _).
  - split; [exact demo_entries_ok|]. split; [apply Forall_singleton; exact cnui_ok|]. left. split; [vm_compute; reflexivity|vm_compute; lia].
  - exists f, f', (libs_present img [cnui]). exact E.
Defined.
Definition no_libs : list cndyn_lib_slot_t := replicate CNDYN_MAX_LOADED_LIBS (LibSlot [] 0 0 0 false).
Lemma no_libs_wf : libs_wf no_libs.
Proof.
  split; [reflexivity| |].
  - intros i d [-> _]%lookup_replicate. simpl. lia.
  - intros name h h' (i & d & _ & [-> _]%lookup_replicate & Hu & _). done.
Qed.
Definition user_text (path : list Z) : mem := mwrite (λ _, 0) 0x400000 path.
Lemma user_text_string path : is_cstr path → (length path < 191)%nat → user_string (user_text path) 0x400000 path.
Proof.
  intros Hc Hl. split; [done|]. split; [lia|]. split; [lia|]. split; [done|]. unfold user_text. split; [apply mread_mwrite_same|].
  by rewrite mwrite_out by lia.
Qed.
Lemma cndyn_dlopen_correct_witness : ∃ l', cndyn_dlopen (user_text (str "libc")) 0x400000 0 no_libs = (1, l') ∧
  cndyn_dlopen (user_text (str "libc")) 0x400000 0 l' = (1, l').
Proof.
  destruct (cndyn_dlopen_correct (user_text (str "libc")) 0x400000 0 (str "libc") no_libs) as (h & l' & E & _ & Hr).
  - apply user_text_string; [repeat constructor; lia|simpl; lia].
  - simpl; lia.
  - exact no_libs_wf.
  - assert (h = 1) as -> by (change h with (fst (h, l')); rewrite <-E; reflexivity).
    exists l'. split; [exact E|]. destruct Hr as [(Hr & _)|(_ & Hr & _)]; [discriminate Hr|apply Hr].
Defined.
Definition long_name : list Z := replicate 70 97.
Lemma cndyn_dlopen_long_name_witness : ∃ l' l'', cndyn_dlopen (user_text long_name) 0x400000 0 no_libs = (1, l') ∧
  cndyn_dlopen (user_text long_name) 0x400000 0 l' = (2, l'').
Proof.
  destruct (cndyn_dlopen_long_name (user_text long_name) 0x400000 0 long_name no_libs) as (h & l' & E & _).
  - apply user_text_string; [apply Forall_replicate; lia|unfold long_name; rewrite length_replicate; lia].
  - unfold long_name. rewrite length_replicate. lia.
  - exact no_libs_wf.
  - exists l', (snd (cndyn_dlopen (user_text long_name) 0x400000 0 l')).
    assert (h = 1) as -> by (change h with (fst (h, l')); rewrite <-E; reflexivity). split; [exact E|].
    assert (l' = snd (cndyn_dlopen (user_text long_name) 0x400000 0 no_libs)) as -> by (rewrite E; reflexivity). reflexivity.
Defined.
End Cndyn.
