(* ===== verification/UserExec.v ===== *)
(** User programs (kernel/user.c, kernel/loader/user_exec.c and the run
    functions of kernel/loader/cndyn_loader.c): launching an embedded or
    installed program and the process system calls.  The state joins the file
    system with the task table; both refer to one machine, kept in the file
    system's half.  A jump to ring 3 is the pair of its instruction and stack
    pointers; the shell's directory and the address of [userland_exit_done]
    are arguments.
    Theorems: a spawned program is recorded as an exited child that waitpid
    returns and forgets; waitpid without an exited child never returns. *)
From stdpp Require Import base numbers list sets strings.
From S2P Require Import Prelude Bitmap Memory Pmm Vmm Process Path Vol Ext2Disk Ext2Spec Ext2Format Vfs UserFd Loader Package Cndyn.
Open Scope Z_scope.

Module UserExec.
Import Vmm.Vmm Process.Process Path.Path Vol.Vol Vfs.Vfs UserFd.UserFd Loader.Loader Package.Package Cndyn.Cndyn.
Definition EAGAIN := 11.
Definition USER_EXEC_STACK_TOP := 0x801008.
(** [struct registers], the frame that the interrupt stubs push *)
Record registers := Regs {
  r_r15 : Z; r_r14 : Z; r_r13 : Z; r_r12 : Z; r_r11 : Z; r_r10 : Z; r_r9 : Z; r_r8 : Z;
  r_rdi : Z; r_rsi : Z; r_rbp : Z; r_rdx : Z; r_rcx : Z; r_rbx : Z; r_rax : Z;
  r_int_no : Z; r_err_code : Z;
  r_rip : Z; r_cs : Z; r_rflags : Z; r_rsp : Z; r_ss : Z
}.
Definition set_rax (v : Z) (r : registers) : registers :=
  Regs (r_r15 r) (r_r14 r) (r_r13 r) (r_r12 r) (r_r11 r) (r_r10 r) (r_r9 r) (r_r8 r) (r_rdi r) (r_rsi r) (r_rbp r) (r_rdx r)
    (r_rcx r) (r_rbx r) v (r_int_no r) (r_err_code r) (r_rip r) (r_cs r) (r_rflags r) (r_rsp r) (r_ss r).
(** the part that [iretq] pops *)
Definition set_iret (rip cs rflags rsp ss : Z) (r : registers) : registers :=
  Regs (r_r15 r) (r_r14 r) (r_r13 r) (r_r12 r) (r_r11 r) (r_r10 r) (r_r9 r) (r_r8 r) (r_rdi r) (r_rsi r) (r_rbp r) (r_rdx r)
    (r_rcx r) (r_rbx r) (r_rax r) (r_int_no r) (r_err_code r) rip cs rflags rsp ss.

Section user.
Context {S : Type} `{Blocks S, UserMem S}.
(** [exit_stk]: the static stack page of [user_on_syscall_exit] *)
Record usys := Usys { u_fs : fsys S; u_tasks : kst; exit_stk : Z }.
Definition set_ufs (y : usys) (f : fsys S) : usys := Usys f (u_tasks y) (exit_stk y).
(** the task table with the machine, and putting both back *)
Definition kern (y : usys) : kst := set_vm (u_tasks y) (f_vm (u_fs y)).
Definition put_kern (y : usys) (k : kst) : usys := Usys (set_fvm (u_fs y) (k_vm k)) k (exit_stk y).

(** ** user_exec.c *)
Definition copy_user_path (f : fsys S) (cap : nat) (ua : Z) : outcome (Z + list Z) :=
  if (cap =? 0)%nat then Ret (inl (- EINVAL)) else copy_loop f ua (cap - 1) [].
Definition process_current_user_or_kernel (k : kst) : nat :=
  match process_find_by_pid k (active_user_pid k) with
  | Some u => u
  | None => get_current_process k
  end.
Definition resolve_user_path (f : fsys S) (user_path_ptr : Z) (out_cap : nat) : outcome (Z + list Z) :=
  r ← copy_user_path f 160 user_path_ptr;
  match r with
  | inl e => Ret (inl e)
  | inr rel =>
    if negb (vfs_is_mounted f) then Ret (inl (- EINVAL))
    else
      r ← vfs_resolve_path (g_user_cwd f) rel out_cap;
      Ret (match r with None => inl (- EINVAL) | Some out => inr out end)
  end.
Definition user_sys_spawn (user_path_ptr : Z) (y : usys) : outcome (Z * usys) :=
  let parent := process_current_user_or_kernel (kern y) in
  rr ← resolve_user_path (u_fs y) user_path_ptr 256;
  match rr with
  | inl e => Ret (e, y)
  | inr path =>
    let '(child, k) := process_alloc_user (kern y) (pid (task (kern y) parent)) in
    let y := put_kern y k in
    match child with
    | None => Ret (- EAGAIN, y)
    | Some child =>
      '(entry, f) ← cndyn_load_package_for_exec path (u_fs y);
      let y := set_ufs y f in
      match entry with
      | None => Ret (- ENOENT, put_kern y (upd (kern y) child (set_state PROC_STATE_FREE)))
      | Some entry =>
        let k := upd (kern y) child (λ p, set_user_stack_top USER_EXEC_STACK_TOP (set_user_entry entry p)) in
        let k := process_mark_exit k (Some child) 0 in
        Ret (i64 (pid (task k child)), put_kern y k)
      end
    end
  end.
Definition user_sys_exec (user_path_ptr : Z) (regs : registers) (y : usys) : outcome (Z * registers * usys) :=
  rr ← resolve_user_path (u_fs y) user_path_ptr 256;
  match rr with
  | inl e => Ret (e, regs, y)
  | inr path =>
    '(entry, f) ← cndyn_load_package_for_exec path (u_fs y);
    let y := set_ufs y f in
    match entry with
    | None => Ret (- ENOENT, regs, y)
    | Some entry => Ret (0, set_rax 0 (set_iret entry (r_cs regs) (r_rflags regs) USER_EXEC_STACK_TOP (r_ss regs) regs), y)
    end
  end.
(** [while (cur->state == BLOCKED) sched_yield();] *)
Fixpoint wait_spin (fuel : nat) (k : kst) (cur : nat) : outcome kst :=
  if is_state PROC_STATE_BLOCKED (task k cur)
  then match fuel with
       | O => Loop
       | Datatypes.S fuel => k ← sched_yield k; wait_spin fuel k cur
       end
  else Ret k.
(** storing the status and returning the pid *)
Definition deliver_status (user_status_ptr got_pid got_status : Z) (y : usys) : outcome (Z * usys) :=
  if negb (user_status_ptr =? 0)
  then
    ok ← vmm_user_range_writable range_fuel (f_vm (u_fs y)) user_status_ptr 4;
    if negb ok then Ret (- EFAULT, y)
    else Ret (i64 got_pid, set_ufs y (f_write (u_fs y) user_status_ptr (le_of 4 (u32 got_status))))
  else Ret (i64 got_pid, y).
Definition user_sys_waitpid (fuel : nat) (target_pid user_status_ptr : Z) (y : usys) : outcome (Z * usys) :=
  let cur := process_current_user_or_kernel (kern y) in
  if target_pid <? -1 then Ret (- EINVAL, y)
  else
    let target := if target_pid <=? 0 then 0 else u64 target_pid in
    '(r, k) ← process_reap_child (kern y) (Some cur) target;
    match r with
    | Some (got_pid, got_status) => deliver_status user_status_ptr got_pid got_status (put_kern y k)
    | None =>
      let k := upd k cur (λ p, set_state PROC_STATE_BLOCKED (set_wait_target target p)) in
      k ← wait_spin fuel k cur;
      if wait_result_pid (task k cur) =? 0 then Ret (- EINVAL, put_kern y k)
      else
        let got_pid := wait_result_pid (task k cur) in
        let got_status := wait_result_status (task k cur) in
        let k := upd k cur (λ p, set_wait_result_status 0 (set_wait_result_pid 0 p)) in
        '(_, k) ← process_reap_child k (Some cur) got_pid;
        deliver_status user_status_ptr got_pid got_status (put_kern y k)
    end.
Definition user_sys_fork (regs : registers) (y : usys) : Z * usys :=
  let cur := process_current_user_or_kernel (kern y) in
  let parent := task (kern y) cur in
  match process_alloc_user (kern y) (pid parent) with
  | (None, k) => (- EAGAIN, put_kern y k)
  | (Some child, k) =>
    let k := upd k child (λ p, set_user_stack_top (r_rsp regs) (set_user_entry (r_rip regs)
               (set_vm_flags 1 (set_pml4_phys (pml4_phys (task k cur)) p)))) in
    (i64 (pid (task k child)), put_kern y k)
  end.

(** ** user.c *)
(** [exit_done]: the address of [userland_exit_done] *)
Definition user_on_syscall_exit (exit_done : Z) (regs : registers) (y : usys) : outcome (registers * usys) :=
  y ← (if exit_stk y =? 0
       then '(page, pm) ← Pmm.Pmm.pmm_alloc_page (vm_pmm (f_vm (u_fs y)));
            Ret (Usys (set_fpmm (u_fs y) pm) (u_tasks y) page)
       else Ret y);
  Ret (set_iret exit_done 0x08 0x202 (u64 (exit_stk y + 4096)) 0x10 regs, y).
Definition user_sys__exit (exit_done code : Z) (regs : registers) (y : usys) : outcome (Z * registers * usys) :=
  let cur := process_current_user_or_kernel (kern y) in
  let y := put_kern y (process_mark_exit (kern y) (Some cur) (i32 code)) in
  '(regs, y) ← user_on_syscall_exit exit_done regs y;
  Ret (0, regs, y).
(** what the launchers do before the jump *)
Definition enter_user (shell_cwd : list Z) (y : usys) : usys :=
  let y := put_kern y (process_bind_user_slot (set_active (kern y) 2) 2) in
  set_ufs y (chaseros_user_set_cwd (user_fd_reset (u_fs y)) (Some shell_cwd)).
Definition grant (y : usys) : usys := set_ufs y (set_fvm (u_fs y) (grant_user_regions (f_vm (u_fs y)))).
Definition put_mem (y : usys) (m : mem) : usys := set_ufs y (set_fvm (u_fs y) (set_mem (f_vm (u_fs y)) m)).
(** the jump, if there is one *)
Definition user_run_embedded_elf (blob shell_cwd : list Z) (y : usys) : outcome (option (Z * Z) * usys) :=
  let y := grant y in
  '(entry, m) ← elf_load_flat blob (vm_mem (f_vm (u_fs y)));
  let y := put_mem y m in
  match entry with
  | None => Ret (None, y)
  | Some entry => Ret (Some (entry, USER_STACK_TOP), enter_user shell_cwd y)
  end.
Definition cndyn_run_package_from_path (abs_path shell_cwd : list Z) (y : usys) : outcome (option (Z * Z) * usys) :=
  '(entry, f) ← cndyn_load_package_for_exec abs_path (u_fs y);
  let y := set_ufs y f in
  match entry with
  | None => Ret (None, y)
  | Some entry => Ret (Some (entry, USER_STACK_TOP), enter_user shell_cwd y)
  end.
Definition cndyn_run_embedded_package (blob shell_cwd : list Z) (y : usys) : outcome (option (Z * Z) * usys) :=
  im ← cnpkg_extract_section blob CNPKG_SECTION_IMAGE;
  match im with
  | inl _ => Ret (None, y)
  | inr img =>
    mn ← cnpkg_extract_section blob CNPKG_SECTION_MANIFEST;
    match mn with
    | inl _ => Ret (None, y)
    | inr manifest =>
      '(ok, f) ← resolve_requires manifest (u_fs y);
      let y := set_ufs y f in
      if negb ok then Ret (None, y)
      else
        let y := grant y in
        '(entry, m) ← cnim_load_flat img (vm_mem (f_vm (u_fs y)));
        let y := put_mem y m in
        match entry with
        | None => Ret (None, y)
        | Some entry => Ret (Some (entry, USER_STACK_TOP), enter_user shell_cwd y)
        end
    end
  end.
Definition user_run_cnaf_from_path_streaming (abs_path shell_cwd : list Z) (y : usys) : outcome (option (Z * Z) * usys) :=
  cndyn_run_package_from_path abs_path shell_cwd y.
Definition user_run_cnaf_from_owned_pages (blob : list Z) (blob_pages : Z) (shell_cwd : list Z) (y : usys)
    : outcome (option (Z * Z) * usys) := cndyn_run_embedded_package blob shell_cwd y.
End user.
Arguments usys S : clear implicits.

(** ** Spawning and waiting *)
Section exec.
Context {S : Type} `{Blocks S, UserMem S}.
(** the machine is a component of the volume's state *)
Context (Hget : ∀ (s : S) v, s_vm (s_set_vm s v) = v) (Hset : ∀ s : S, s_set_vm s (s_vm s) = s).
Implicit Types (y : usys S) (k : kst).
Lemma kern_put y k : kern (put_kern y k) = k.
Proof. unfold kern, put_kern, f_vm. simpl. rewrite Hget. by destruct k. Qed.
Lemma put_kern_fs y k : k_vm k = f_vm (u_fs y) → u_fs (put_kern y k) = u_fs y.
Proof. intros E. unfold put_kern, set_fvm. simpl. rewrite E. unfold f_vm. rewrite Hset. by destruct (u_fs y). Qed.
(** a child in the lowest free slot *)
Lemma alloc_user_spec k i parent : kwf k → find_task (is_state PROC_STATE_FREE) (tasks k) 0 = Some i →
  ∃ k1, process_alloc_user k parent = (Some i, k1) ∧ kwf k1 ∧ k_vm k1 = k_vm k ∧ (i < MAX_TASKS)%nat ∧ state (task k i) = PROC_STATE_FREE ∧
    active_user_pid k1 = active_user_pid k ∧ current_task_idx k1 = current_task_idx k ∧ (∀ j, j ≠ i → task k1 j = task k j) ∧
    state (task k1 i) = PROC_STATE_READY ∧ pid (task k1 i) = Z.of_nat i ∧ ppid (task k1 i) = parent.
Proof.
  intros Hk Hi. pose proof (process_alloc_user_wf k parent Hk) as Hw. destruct (find_free_lt k i Hk Hi) as [Hlt Hf].
  unfold process_alloc_user in *. rewrite Hi in *. set (u := upd k i _) in *.
  assert (∀ j, task (grow_task_count u (Z.of_nat i + 1)) j = task u j) as Hg by (intros j; unfold grow_task_count; by case_if).
  eexists. split; [done|]. split; [exact Hw|]. pose proof (kw_len _ Hk) as Hl.
  split; [unfold grow_task_count; by case_if|]. split; [done|]. split; [done|]. split; [unfold grow_task_count; by case_if|].
  split; [unfold grow_task_count; by case_if|]. split; [intros j Hj; rewrite Hg; by apply task_upd_other|].
  rewrite Hg. unfold u. rewrite task_upd_same by lia. done.
Qed.
Lemma current_user_lt k : kwf k → (process_current_user_or_kernel k < MAX_TASKS)%nat.
Proof.
  intros Hk. unfold process_current_user_or_kernel. destruct (process_find_by_pid k _) eqn:E; [|apply Hk].
  by apply find_by_pid_Some in E as [? _].
Qed.
Lemma current_user k u : kwf k → (u < MAX_TASKS)%nat → active_user_pid k = Z.of_nat u → state (task k u) ≠ PROC_STATE_FREE →
  process_current_user_or_kernel k = u.
Proof.
  intros Hk Hu Ha Hs. unfold process_current_user_or_kernel.
  assert (process_find_by_pid k (active_user_pid k) = Some u) as ->; [|done]. by apply find_by_pid_Some.
Qed.
Lemma mark_exit_active k i status : (i < length (tasks k))%nat → pid (task k i) ≠ active_user_pid k →
  active_user_pid (process_mark_exit k (Some i) status) = active_user_pid k ∧
  current_task_idx (process_mark_exit k (Some i) status) = current_task_idx k.
Proof.
  intros Hi Hne. unfold process_mark_exit. set (u := upd k i _). assert (pid (task u i) = pid (task k i)) as Ep.
  { unfold u. by rewrite task_upd_same. }
  rewrite Ep. change (active_user_pid u) with (active_user_pid k). rewrite (proj2 (Z.eqb_neq _ _)) by done.
  destruct (process_find_by_pid u _); [|done]. by case_if.
Qed.
Lemma wait_spin_loops fuel : ∀ k c, kwf k → (c < MAX_TASKS)%nat → state (task k c) = PROC_STATE_BLOCKED → wait_spin fuel k c = Loop.
Proof.
  induction fuel as [|fuel IH]; intros k c Hk Hc Hst; cbn [wait_spin]; rewrite (proj2 (is_state_true _ _)) by done; [done|].
  destruct (schedule_spec k Hk) as (k1 & E & H1 & Hcase). unfold sched_yield. rewrite E. ostep.
  apply IH; [done..|]. destruct Hcase as [(j & _ & Hr & _ & _ & _ & _ & _ & _ & Ht)|(-> & _)]; [|done].
  rewrite Ht by done. rewrite decide_False by congruence. rewrite decide_False; [done|]. intros [_ ?]. congruence.
Qed.
End exec.

(** C25. Spawning and waiting: when the caller is the active user process, a
    slot is free and the package loads, [user_sys_spawn] returns the index of
    the lowest free slot as the child's pid and records the entry point there,
    with the child already exited; [user_sys_waitpid] on that pid then returns
    it at once, whatever the bound on waiting, and frees the slot, leaving the
    caller's slot as it was and the task table well formed. *)
Theorem user_spawn_waitpid {S} `{Blocks S, UserMem S} fuel ptr path entry f' i par (y : usys S) :
  (∀ (s : S) v, s_vm (s_set_vm s v) = v) → (∀ s : S, s_set_vm s (s_vm s) = s) → kwf (kern y) →
  process_find_by_pid (kern y) (active_user_pid (kern y)) = Some par → state (task (kern y) par) ≠ PROC_STATE_BLOCKED →
  find_task (is_state PROC_STATE_FREE) (tasks (kern y)) 0 = Some i → (0 < i)%nat →
  resolve_user_path (u_fs y) ptr 256 = Ret (inr path) →
  cndyn_load_package_for_exec path (u_fs y) = Ret (Some entry, f') → Pmm.Pmm.pmm_wf (vm_pmm (f_vm f')) →
  ∃ y1, user_sys_spawn ptr y = Ret (Z.of_nat i, y1) ∧ user_entry (task (kern y1) i) = entry ∧ state (task (kern y1) i) = PROC_STATE_EXITED ∧
  ∃ y2, user_sys_waitpid fuel (Z.of_nat i) 0 y1 = Ret (Z.of_nat i, y2) ∧ kwf (kern y2) ∧
    state (task (kern y2) i) = PROC_STATE_FREE ∧ task (kern y2) par = task (kern y) par.
Proof.
  intros Hget Hset Hk Hpar Hnb Hfree Hi0 Hpath Hload Hpm. apply find_by_pid_Some in Hpar as (Hpl & Hact & Hplive); [|done].
  pose proof (current_user (kern y) par Hk Hpl Hact Hplive) as Ecur.
  destruct (alloc_user_spec (kern y) i (pid (task (kern y) par)) Hk Hfree) as (k1 & Ea & H1 & Hv & Hil & Hif & Ha1 & _ & Ho & Hst & Hpid & Hpp).
  assert (i ≠ par) as Hne by congruence.
  unfold user_sys_spawn. rewrite Ecur, Hpath. ostep. rewrite Ea. rewrite put_kern_fs by done. rewrite Hload. ostep.
  set (k2 := kern (set_ufs (put_kern y k1) f')). set (k3 := upd k2 i _).
  assert (kwf k2) as H2 by (by apply kwf_vm).
  assert (∀ j, task k2 j = task k1 j) as T2 by done. pose proof (kw_len _ H2) as Hl2.
  assert (task k3 i = set_user_stack_top USER_EXEC_STACK_TOP (set_user_entry entry (task k1 i))) as T3i.
  { unfold k3. rewrite task_upd_same by lia. by rewrite T2. }
  assert (task k3 par = task (kern y) par) as T3p by (unfold k3; rewrite task_upd_other, T2 by done; apply Ho; done).
  assert (kwf k3) as H3.
  { apply kwf_upd; [done..|]. destruct (kwf_slot k2 i H2 Hil) as [? ? ? ? ? ?]. by split. }
  assert (active_user_pid k3 = Z.of_nat par) as Ha3 by (transitivity (active_user_pid k1); [done|congruence]).
  destruct (mark_exit_effect k3 i par 0 H3 ltac:(lia) Hpl Hne) as (H4 & _ & Ti & Tp);
    [rewrite T3i; simpl; congruence|by rewrite T3p|by rewrite T3i, T3p; simpl|].
  destruct (exit_reap_spec k3 i par 0 H3 ltac:(lia) Hpl Hne) as (k5 & E5 & H5 & Hf5 & Tp5 & _);
    [rewrite T3i; simpl; congruence|by rewrite T3p|by rewrite T3i, T3p; simpl|].
  assert (waits_for k3 i par = false) as Hw.
  { unfold waits_for. rewrite T3p. by rewrite (proj2 (is_state_false PROC_STATE_BLOCKED _)) by done. }
  rewrite Hw, T3p in Tp.
  destruct (mark_exit_active k3 i 0) as [Ha4 _]; [rewrite (kw_len _ H3); lia|rewrite T3i, Ha3; simpl; rewrite Hpid; lia|].
  revert H4 Ti Tp E5 Tp5 Ha4. generalize (process_mark_exit k3 (Some i) 0). intros k4 H4 Ti Tp E5 Tp5 Ha4.
  assert (i64 (Z.of_nat i) = Z.of_nat i) as Ei.
  { unfold i64, swrap. unfold MAX_TASKS in Hil. rewrite Z.mod_small by lia. case_if; lia. }
  eexists. split; [rewrite Ti, T3i; simpl; by rewrite Hpid, Ei|]. rewrite kern_put by done. rewrite Ti, T3i. split; [done|]. split; [done|].
  assert (process_current_user_or_kernel k4 = par) as Ecur4 by (apply current_user; [done|done|congruence|by rewrite Tp]).
  unfold user_sys_waitpid. rewrite kern_put, Ecur4 by done. rewrite (proj2 (Z.ltb_ge (Z.of_nat i) (-1))) by lia.
  rewrite (proj2 (Z.leb_gt (Z.of_nat i) 0)), u64_small by (unfold MAX_TASKS in Hil; lia). rewrite E5. ostep.
  unfold deliver_status. change (negb (0 =? 0)) with false. cbn iota. rewrite Ei. eexists. split; [done|].
  rewrite kern_put by done. split; [done|]. split; [done|]. by rewrite Tp5.
Qed.

(** Waiting without an exited child never returns: no amount of
    [sched_yield] takes the caller out of BLOCKED, because yielding does not
    run any other task. *)
Theorem user_waitpid_spins {S} `{Blocks S, UserMem S} fuel target ptr (y : usys S) : kwf (kern y) → -1 <= target →
  (∀ j, (j < MAX_TASKS)%nat → exited (task (kern y) j) = 0) →
  state (task (kern y) (process_current_user_or_kernel (kern y))) ≠ PROC_STATE_FREE →
  user_sys_waitpid fuel target ptr y = Loop.
Proof.
  intros Hk Ht Hex Hlive. unfold user_sys_waitpid. rewrite (proj2 (Z.ltb_ge target (-1))) by lia.
  set (cur := process_current_user_or_kernel (kern y)) in *. pose proof (current_user_lt (kern y) Hk) as Hc. fold cur in Hc.
  unfold process_reap_child. assert (∀ tg, find_task (reapable (pid (task (kern y) cur)) tg) (tasks (kern y)) 0 = None) as E.
  { intros tg. apply find_slot_None. rewrite (kw_len _ Hk). intros j Hj. unfold reapable. by rewrite (Hex j Hj), andb_false_r. }
  rewrite E. ostep. rewrite wait_spin_loops; [done| |done|].
  - apply kwf_upd; [done..|]. destruct (kwf_slot (kern y) cur Hk Hc) as [Hp ? ? ? ? ?]. split; simpl; try done. intros _. by apply Hp.
  - by rewrite task_upd_same by (rewrite (kw_len _ Hk); lia).
Qed.

(** ** Witnesses: slot 2 is the active user process, slot 1 is free, and the
    disk holds a package as /a.txt *)
Import Ext2Format.Ext2Format.
#[local] Existing Instance no_ide.
#[local] Instance exec_laws : UserMemLaws (vst unit) := ram_user_laws 0x800000 0x1000 demo_frames.
Lemma user_path_copied {S} `{Blocks S, UserMem S} (f : fsys S) path : is_cstr path → ∀ a n dst, 0 <= a → a + Z.of_nat n < 2 ^ 64 → (length path < n)%nat →
  (∀ i, (i <= length path)%nat → vmm_user_range_readable range_fuel (f_vm f) (a + Z.of_nat i) 1 = Ret true) →
  (∀ i, (i <= length path)%nat → vm_mem (f_vm f) (a + Z.of_nat i) = nth i path 0) →
  copy_loop f a n dst = Ret (inr (dst ++ path)).
Proof.
  induction path as [|c path IH]; intros Hc a n dst Ha Hw Hn Hr Hm; (destruct n as [|n]; [simpl in Hn; lia|]); cbn [copy_loop];
    pose proof (Hr 0%nat ltac:(lia)) as R0; pose proof (Hm 0%nat ltac:(lia)) as M0; rewrite Z.add_0_r in R0, M0; rewrite R0; ostep; cbn [negb];
    rewrite M0; cbn [nth].
  - by rewrite app_nil_r.
  - apply Forall_cons in Hc as [Hc Hp]. rewrite (proj2 (Z.eqb_neq c 0)), u64_small by lia.
    rewrite (IH Hp (a + 1) n (dst ++ [c])); [by rewrite <-app_assoc|lia|lia|simpl in Hn; lia| |].
    + intros i Hi. replace (a + 1 + Z.of_nat i) with (a + Z.of_nat (Datatypes.S i)) by lia. apply Hr. simpl. lia.
    + intros i Hi. replace (a + 1 + Z.of_nat i) with (a + Z.of_nat (Datatypes.S i)) by lia. apply Hm. simpl. lia.
Qed.
Definition exec_procs : list proc_t :=
  [set_state PROC_STATE_RUNNING proc_zero; proc_zero; set_state PROC_STATE_USER_SLOT (set_pid 2 proc_zero)] ++ replicate 13 proc_zero.
Definition exec_sys (s : vst unit) : usys (vst unit) :=
  Usys (Fsys true VFS_FS_EXT2 s demo_slots [slash]) (Kst user_vm exec_procs 0 3 2 0) 0.
Lemma exec_sys_wf s : vm_pmm (v_vm s) = demo_frames → kwf (kern (exec_sys s)).
Proof.
  intros Hf. apply kwf_of_slots; [|done|unfold MAX_TASKS; simpl; lia|].
  - change (vm_pmm (k_vm (kern (exec_sys s)))) with (vm_pmm (v_vm s)). rewrite Hf. apply boot_pmm_wf.
  - intros i Hi. unfold MAX_TASKS in Hi.
    do 16 (destruct i as [|i]; [split; simpl; intros; simplify_eq; unfold MAX_TASKS; first [done|lia]|]). lia.
Qed.
Lemma exec_path s n img : framed 0x800000 0x1000 demo_frames user_mem s n img → Ext2Spec.Ext2Spec.fs_wf n img →
  resolve_user_path (u_fs (exec_sys s)) 0x400020 256 = Ret (inr (str "/a.txt")).
Proof.
  intros Hs Hw. unfold resolve_user_path, copy_user_path. change (160 =? 0)%nat with false. cbn iota.
  rewrite (user_path_copied _ (str "/a.txt")); [|repeat constructor; lia|lia|lia|vm_compute; lia| |].
  - ostep. assert (vfs_is_mounted (u_fs (exec_sys s)) = true) as ->.
    { apply (fs_on_active (H0 := framed_laws 0x800000 0x1000 demo_frames user_mem) _ n img). by split. }
    reflexivity.
  - intros i Hi. apply framed_range; [by apply (framed_flags s n img); [|left]|lia|lia|]. change (length (str "/a.txt")) with 6%nat in Hi. lia.
  - intros i Hi. change (length (str "/a.txt")) with 6%nat in Hi. destruct Hs as (_ & _ & Hm). cbn [f_vm u_fs exec_sys f_vol s_vm vst_user_mem].
    rewrite Hm by (left; lia). do 7 (destruct i as [|i]; [reflexivity|]). lia.
Qed.
Lemma user_spawn_waitpid_witness : ∃ (y y1 y2 : usys (vst unit)),
  user_sys_spawn 0x400020 y = Ret (1, y1) ∧ user_sys_waitpid 0 1 0 y1 = Ret (1, y2).
Proof.
  destruct (demo_user_data demo_package demo_package_bytes ltac:(vm_compute; discriminate)) as (s & img & Hs & Hw & Hd).
  pose proof Hs as (_ & (_ & _ & Hfr) & _).
  destruct (load_package_spec (u_fs (exec_sys s)) 256 img user_mem [str "a.txt"] demo_package 102 107 demo_kvs [])
    as (r & f' & E & [m2 Hon] & m' & Em & _);
    [split; [reflexivity|exact Hs|exact Hw]|exact demo_vpath|exact Hd|exact demo_program|exact demo_requires|exact (demo_cells s 256 img Hs)| |].
  { apply demo_cnim_streamable. intros x Hx. left. lia. }
  assert (r = Some 0x400002) as ->.
  { change (slice demo_package (Z.to_nat 102) (Z.to_nat 107)) with demo_cnim in Em.
    destruct (demo_cnim_flat (vm_mem (grant_user_regions (f_vm (u_fs (exec_sys s)))))) as (mm & E' & _). rewrite E' in Em. congruence. }
  destruct (user_spawn_waitpid 0 0x400020 (str "/a.txt") 0x400002 f' 1 2 (exec_sys s)) as (y1 & E1 & _ & _ & y2 & E2 & _).
  - reflexivity.
  - intros [? ? ? ? ?]. reflexivity.
  - exact (exec_sys_wf s Hfr).
  - reflexivity.
  - discriminate.
  - reflexivity.
  - lia.
  - exact (exec_path s 256 img Hs Hw).
  - exact E.
  - unfold f_vm. rewrite (um_frames m2 _ 256 img (fo_rep _ _ _ Hon)). exact boot_pmm_wf.
  - exists (exec_sys s), y1, y2. split; [exact E1|exact E2].
Defined.
Lemma user_waitpid_spins_witness : user_sys_waitpid 100 2 0 (exec_sys user_disk) = Loop.
Proof.
  apply (user_waitpid_spins 100 2 0 (exec_sys user_disk)).
  - exact (exec_sys_wf user_disk eq_refl).
  - lia.
  - intros j Hj. unfold MAX_TASKS in Hj. do 16 (destruct j as [|j]; [reflexivity|]). lia.
  - discriminate.
Defined.
End UserExec.
