(* ===== verification/UserDisk.v ===== *)
(** User programs and disks (kernel/user_fd.c over kernel/drivers/ide.c): an
    IDE volume leaves user memory alone, so that it keeps the promise
    [UserMemLaws] that the descriptors and the loaders are proved against; and
    a session with a file, from the kernel's [user_fd_open_kpath] to the
    closed descriptor.  The build defines CHASEROS_HYBRID_FS_VIA_IPC, so that
    [user_fd_open_kpath] is called by the file service and not by the system
    call itself (see Interplay.v for what becomes of the call).
    Theorems: a file written to a freshly formatted disk is read back into
    user memory through a descriptor, in pieces of any sizes. *)
From stdpp Require Import base numbers list sets strings.
From S2P Require Import Prelude Bitmap Memory Pmm Vmm Path Io Vol Ide Ext2 Ext2Dir Ext2Disk Ext2Alloc Ext2Spec Ext2Format Vfs Disks UserFd UserExec.
Open Scope Z_scope.

Module UserDisk.
Import Path.Path Vol.Vol Ext2Disk.Ext2Disk Ext2Spec.Ext2Spec Ext2Format.Ext2Format Vfs.Vfs Ide.Ide UserFd.UserFd Disks.Disks.
Import Vmm.Vmm (vm_mem, vm_cr3, vm_pmm, vmm_user_range_readable, vmm_user_range_writable).

(** ** An IDE volume next to user memory *)
Section ide_user.
Context {D : Type} `{AtaLaws D} (c0 : Z) (p0 : Pmm.Pmm.pmm).
Definition ide_framed (m : mem) (s : vst D) (n : Z) (img : image) : Prop :=
  ide_rep s n img ∧ (vm_cr3 (v_vm s) = c0 ∧ vm_pmm (v_vm s) = p0) ∧ mem_bytes (vm_mem (v_vm s)) ∧ ∀ a, vm_mem (v_vm s) a = m a.
Lemma ide_framed_same m s s' n img img' : ide_framed m s n img → v_vm s' = v_vm s → ide_rep s' n img' → ide_framed m s' n img'.
Proof. intros (_ & Hf) E Hr. split; [done|]. by rewrite E. Qed.
Program Definition ide_framed_laws (m : mem) : BlocksLaws (vst D) := {| vol_rep := ide_framed m |}.
Next Obligation. intros m s n img [Hr _]. exact (rep_attached (BlocksLaws := ide_laws) s n img Hr). Qed.
Next Obligation. intros m s n img [Hr _]. by eapply ide_check. Qed.
Next Obligation. by intros m s n img [(_ & Hs & _) _]. Qed.
Next Obligation. by intros m s n img [(_ & _ & Hn & _) _]. Qed.
Next Obligation. intros m s n img b [Hr _]. by apply (ide_block s). Qed.
Next Obligation.
  intros m s n img b Hf Hb. pose proof Hf as [Hr _]. destruct (ide_read s n img b Hr Hb) as (s' & E & Ev & Hr').
  exists s'. split; [done|by eapply ide_framed_same].
Qed.
Next Obligation. intros m s n img b Hf Hb. exists s. split; [|done]. destruct Hf as [Hr _]. by apply (ide_read_out s n img). Qed.
Next Obligation.
  intros m s n img b d Hf Hb Hd Hby. pose proof Hf as [Hr _]. destruct (ide_write s n img b d Hr Hb Hd Hby) as (s' & E & Ev & Hr').
  exists s'. split; [done|by eapply ide_framed_same].
Qed.
Next Obligation.
  intros m s n img Hf. exists img. change (vol_clear_ram s) with (v_clear_ram s). unfold v_clear_ram, is_type. pose proof Hf as [(Ht & _) _]. by rewrite Ht.
Qed.
Program Definition ide_user_laws : UserMemLaws (vst D) := {| um_out := λ _, True; um_laws := ide_framed_laws; um_root := c0; um_pmm := p0 |}.
Next Obligation. by intros m s n img a (_ & _ & _ & Hm) _. Qed.
Next Obligation.
  intros m s n img a l (Hr & Hc & Hb & Hm) _ Hby. split; [exact Hr|]. split; [exact Hc|]. split; [by apply mem_bytes_mwrite|].
  intros x. cbn. unfold mwrite. case_if; [done|apply Hm].
Qed.
Next Obligation. by intros m s n img (_ & (Hc & _) & _). Qed.
Next Obligation. by intros m s n img (_ & (_ & Hp) & _). Qed.
Next Obligation. by intros m s n img (_ & _ & Hb & _). Qed.
Next Obligation. intros m m' s n img v (Hr & _) Hc Hp Hb Ho _. split; [exact Hr|]. split; [done|]. split; [done|]. intros a. by apply Ho. Qed.
End ide_user.

(** ** A user program with a file *)
Section session.
Context {S : Type} `{Blocks S, UserMem S}.
(** read pieces of the given sizes into the buffer at [ua] and keep each *)
Fixpoint read_pieces (fd ua : Z) (lens : list Z) (f : fsys S) : outcome (list (list Z) * fsys S) :=
  match lens with
  | [] => Ret ([], f)
  | len :: lens =>
    '(r, f) ← user_fd_sys_read fd ua len f;
    let got := mread (vm_mem (f_vm f)) ua (Z.to_nat r) in
    '(l, f) ← read_pieces fd ua lens f;
    Ret (got :: l, f)
  end.
(** open [path] as the file service does (hybrid_ipc.c:73), read and close *)
Definition user_session (path : list Z) (ua : Z) (lens : list Z) (f : fsys S) : outcome (Z * list (list Z) * Z * fsys S) :=
  '(fd, f) ← user_fd_open_kpath path 0 f;
  '(l, f) ← read_pieces fd ua lens f;
  '(r, f) ← user_fd_sys_close fd f;
  Ret (fd, l, r, f).
End session.
(** what the pieces should be *)
Fixpoint pieces (lens : list Z) (d : list Z) : list (list Z) :=
  match lens with
  | [] => []
  | len :: lens => take (Z.to_nat len) d :: pieces lens (drop (Z.to_nat len) d)
  end.
Lemma pieces_concat lens : ∀ d, Forall (λ n, 0 <= n) lens → concat (pieces lens d) = take (Z.to_nat (foldr Z.add 0 lens)) d.
Proof.
  induction lens as [|n lens IH]; intros d Hl; [done|]. apply Forall_cons in Hl as [Hn Hl]. cbn [pieces concat foldr].
  assert (0 <= foldr Z.add 0 lens) by (clear -Hl; induction Hl; cbn; lia).
  rewrite IH, Z2Nat.inj_add by done. rewrite <-(take_drop (Z.to_nat n) (take (Z.to_nat n + _) d)), take_take, Nat.min_l by lia. f_equal. by rewrite take_drop_commute.
Qed.
(** [P] holds in the address space [v] whatever the [size] bytes at [ua] and
    the bytes that do not satisfy [out] are *)
Definition stays (out : Z → Prop) (v : Vmm.Vmm.vm) (ua size : Z) (P : Vmm.Vmm.vm → Prop) : Prop :=
  ∀ v', vm_cr3 v' = vm_cr3 v → (∀ x, out x → x < ua ∨ ua + size <= x → vm_mem v' x = vm_mem v x) → P v'.
(** a buffer that reads may use, also after its bytes have changed *)
Record buffer_ok (out : Z → Prop) (v : Vmm.Vmm.vm) (ua size : Z) : Prop := {
  bo_size : 0 < size <= 1024 * 1024;
  bo_range : 0 <= ua ∧ ua + size <= 2 ^ 64;
  bo_out : ∀ x, ua <= x < ua + size → out x;
  bo_write : ∀ len, 0 < len <= size → stays out v ua size (λ v', vmm_user_range_writable range_fuel v' ua len = Ret true)
}.
Section session_laws.
Context {S : Type} `{UserMemLaws S}.
(** the state of a session: the address space agrees with [v] outside the buffer *)
Record in_session (v : Vmm.Vmm.vm) (ua size n : Z) (img : image) (f : fsys S) : Prop := {
  is_root : vm_cr3 v = um_root;
  is_fs : ∃ m, fs_mem f n img m ∧ ∀ x, um_out x → x < ua ∨ ua + size <= x → m x = vm_mem v x
}.
Lemma session_stays v ua size n img f P : in_session v ua size n img f → stays um_out v ua size P → P (f_vm f).
Proof.
  intros [Hc (m & Hf & Hm)] HP. pose proof (fo_rep _ _ _ Hf) as Hr. apply HP; [rewrite Hc; by apply (um_cr3 m _ n img)|].
  intros x Ho Hx. unfold f_vm. rewrite (um_agree m _ n img x Hr Ho). by apply Hm.
Qed.
Lemma read_pieces_spec v ua size n img cs d fd : buffer_ok um_out v ua size → vpath cs → file_at img cs = Some d → 3 <= fd < 11 →
  ∀ lens off f, Forall (λ len, 0 < len <= size) lens → in_session v ua size n img f →
  g_ufd f !! Z.to_nat (fd - 3) = Some (UserFdSlot true (join cs) off (Z.of_nat (length d))) → 0 <= off <= Z.of_nat (length d) →
  ∃ off' f', read_pieces fd ua lens f = Ret (pieces lens (drop (Z.to_nat off) d), f') ∧ in_session v ua size n img f' ∧
    g_ufd f' = <[Z.to_nat (fd - 3) := UserFdSlot true (join cs) off' (Z.of_nat (length d))]> (g_ufd f).
Proof.
  intros [Hs [Ha1 Ha2] Ho Hw] Hp Hd Hfd. induction lens as [|len lens IH]; intros off f Hl Hf Hslot Hoff.
  { exists off, f. split; [done|]. split; [done|]. by rewrite list_insert_id. }
  apply Forall_cons in Hl as [Hlen Hl]. pose proof (session_stays _ _ _ _ _ _ _ Hf (Hw len Hlen)) as Hok. pose proof Hf as [Hc (m & Hfm & Hm)].
  destruct (user_fd_sys_read_correct f n img m fd ua len cs off d Hfm Hfd Hslot Hp Hd Hoff) as (f1 & m1 & E & Hf1 & Hm1 & Hu1); [lia|lia|lia|done|intros x Hx; apply Ho; lia|].
  cbv zeta in *. set (k := Z.min len (Z.of_nat (length d) - off)) in *.
  assert (length (slice d (Z.to_nat off) (Z.to_nat k)) = Z.to_nat k) as Hk by (apply length_slice; lia).
  assert (take (Z.to_nat len) (drop (Z.to_nat off) d) = slice d (Z.to_nat off) (Z.to_nat k)) as Hpc.
  { unfold slice. destruct (decide (len <= Z.of_nat (length d) - off)); [by replace k with len by lia|].
    rewrite !take_ge by (rewrite length_drop; lia). done. }
  assert (in_session v ua size n img f1) as Hf1'.
  { split; [done|]. exists m1. split; [done|]. intros x Hx Hout. rewrite Hm1, mwrite_out by (rewrite Hk; lia). by apply Hm. }
  destruct (IH (off + k) f1 Hl Hf1') as (off' & f2 & E2 & Hf2 & Hu2); [|lia|].
  { rewrite Hu1. apply list_lookup_insert_eq. by eapply lookup_lt_Some. }
  exists off', f2. split; [|split; [done|by rewrite Hu2, Hu1, list_insert_insert_eq]].
  cbn [read_pieces pieces]. rewrite E. ostep. rewrite E2. ostep. f_equal. f_equal. f_equal.
  - rewrite Hpc. rewrite <-(mread_mwrite_same m ua (slice d _ _)), Hk. apply mread_ext. intros x Hx. rewrite <-Hm1.
    unfold f_vm. apply (um_agree m1 _ n img); [apply Hf1|]. apply Ho. lia.
  - f_equal. rewrite drop_drop. destruct (decide (len <= Z.of_nat (length d) - off)); [f_equal; lia|]. rewrite !drop_ge by lia. done.
Qed.
Lemma in_session_any v ua size n img f : in_session v 0 0 n img f → in_session v ua size n img f.
Proof. intros [Hc (m & Hf & Hm)]. split; [done|]. exists m. split; [done|]. intros x Hx _. apply Hm; [done|lia]. Qed.
(** opening by the path *)
Lemma kpath_open_spec v n img cs d f : in_session v 0 0 n img f → vpath cs → (length (join cs) <= 127)%nat →
  file_at img cs = Some d → Exists (λ e, fd_valid e = false) (g_ufd f) →
  ∃ idx e f', user_fd_open_kpath (join cs) 0 f = Ret (3 + Z.of_nat idx, f') ∧ in_session v 0 0 n img f' ∧
    g_ufd f !! idx = Some e ∧ fd_valid e = false ∧ g_ufd f' = <[idx := UserFdSlot true (join cs) 0 (Z.of_nat (length d))]> (g_ufd f).
Proof.
  intros [Hc (m & Hfm & Hm)] Hp Hlen Hd Hex.
  destruct (user_fd_open_kpath_correct (H0 := um_laws m) f n img cs 0 Hfm Hp ltac:(lia)) as (r & f' & E & Hf' & Hcase).
  rewrite Hd in Hcase. destruct Hcase as [(idx & e & He & Hv & _ & -> & Hu)|(Hall & _)].
  - exists idx, e, f'. split; [done|]. split; [|done]. split; [done|]. by exists m.
  - exfalso. apply Exists_exists in Hex as (e & Hin & He). apply list_elem_of_lookup in Hin as [j Hj]. by rewrite (Hall j e Hj) in He.
Qed.
Lemma session_spec v ua size n img cs d lens f : in_session v 0 0 n img f → buffer_ok um_out v ua size →
  vpath cs → (length (join cs) <= 127)%nat → file_at img cs = Some d →
  (length (g_ufd f) = 8)%nat → Exists (λ e, fd_valid e = false) (g_ufd f) → Forall (λ len, 0 < len <= size) lens →
  ∃ idx e e' f', user_session (join cs) ua lens f = Ret (3 + Z.of_nat idx, pieces lens d, 0, f') ∧ in_session v ua size n img f' ∧
    g_ufd f !! idx = Some e ∧ fd_valid e = false ∧ fd_valid e' = false ∧ g_ufd f' = <[idx := e']> (g_ufd f).
Proof.
  intros Hf Hbuf Hp Hlen Hd Hl8 Hex Hlens.
  destruct (kpath_open_spec v n img cs d f Hf Hp Hlen Hd Hex) as (idx & e & f1 & E1 & Hf1 & He & Hv & Hu1).
  pose proof (lookup_lt_Some _ _ _ He) as Hi. rewrite Hl8 in Hi.
  destruct (read_pieces_spec v ua size n img cs d (3 + Z.of_nat idx) Hbuf Hp Hd ltac:(lia) lens 0 f1 Hlens) as (off' & f2 & E2 & Hf2 & Hu2).
  { by apply in_session_any. }
  { rewrite Hu1. replace (Z.to_nat (3 + Z.of_nat idx - 3)) with idx by lia. apply list_lookup_insert_eq. lia. }
  { lia. }
  replace (Z.to_nat (3 + Z.of_nat idx - 3)) with idx in Hu2 by lia. rewrite Hu1, list_insert_insert_eq in Hu2.
  set (e' := UserFdSlot false (join cs) off' (Z.of_nat (length d))). exists idx, e, e', (set_ufd f2 (<[idx := e']> (g_ufd f))). split.
  - unfold user_session. rewrite E1. ostep. rewrite E2. ostep. unfold user_fd_sys_close, bad_fd, CHASEROS_USER_FD_MIN, CHASEROS_USER_FD_NUM.
    rewrite (proj2 (Z.ltb_ge (3 + Z.of_nat idx) 3)), (proj2 (Z.leb_gt _ (3 + Z.of_nat idx))) by lia. cbn [orb].
    unfold aget. replace (3 + Z.of_nat idx - 3) with (Z.of_nat idx) by lia. rewrite (proj2 (Z.leb_le 0 (Z.of_nat idx))), Nat2Z.id by lia.
    rewrite Hu2, list_lookup_insert_eq by lia. ostep. cbn [fd_valid negb fd_path fd_offset fd_size]. rewrite list_insert_insert_eq, drop_0. done.
  - split; [|done]. destruct Hf2 as [Hc (m & Hfm & Hm)]. split; [done|]. exists m. split; [by destruct Hfm; split|done].
Qed.
End session_laws.
Lemma dispatch_ufd {S A} `{Blocks S} path dev (m : list Z → est S A) err f r f' : vfs_dispatch path dev m err f = Ret (r, f') → g_ufd f' = g_ufd f.
Proof.
  unfold vfs_dispatch, on_vol. intros E. destruct (negb _); [by simplify_eq|]. apply outcome_bind_Ret in E as ([norm|] & _ & E); [|by simplify_eq].
  destruct (vfs_devfs_handles norm); [by simplify_eq|]. apply outcome_bind_Ret in E as ([r' v] & _ & E). by simplify_eq.
Qed.

(** ** Theorems *)

(** C7. Descriptors on a disk: on any ports that behave as an ATA disk, after
    attaching the drive, formatting, mounting and writing a file, opening the
    path with [user_fd_open_kpath] (the function that the file service calls),
    reading into user memory in pieces of any sizes up to that of the buffer
    and closing give a descriptor that was free, exactly the consecutive
    pieces of the file (which together are the file up to the number of bytes
    asked for, and are empty after its end), and 0 from closing; the descriptor
    is free again, the others are as they were, and no byte of memory outside
    the buffer has changed.  The statement is about the descriptor functions;
    the path from the system call through the service is not part of it. *)
Theorem user_disk_session {D} `{AtaLaws D} (f : fsys (vst D)) a drive base data ua size lens :
  ata_rep (v_dev (f_vol f)) a → disk_ok a → drive_ok a drive → g_ram_npages (f_vol f) = 0 →
  vpath [base] → base ≠ str "lost+found" → (length base <= 126)%nat → bytes data → Z.of_nat (length data) <= 12288 →
  mem_bytes (vm_mem (f_vm f)) → buffer_ok (λ _, True) (f_vm f) ua size →
  (length (g_ufd f) = 8)%nat → Exists (λ e, fd_valid e = false) (g_ufd f) → Forall (λ len, 0 < len <= size) lens →
  ∃ v f1 f2 f3 f4 idx e e', chaseros_vol_attach_ide drive (f_vol f) = Ret (Some tt, v) ∧
    vfs_format (set_fvol f v) = Ret (inr tt, f1) ∧ vfs_mount_root f1 = (VFS_ERR_NONE, f2) ∧ vfs_write_file (join [base]) data f2 = Ret (inr tt, f3) ∧
    user_session (join [base]) ua lens f3 = Ret (3 + Z.of_nat idx, pieces lens data, 0, f4) ∧ concat (pieces lens data) = take (Z.to_nat (foldr Z.add 0 lens)) data ∧
    (g_ufd f !! idx = Some e ∧ fd_valid e = false ∧ fd_valid e' = false ∧ g_ufd f4 = <[idx := e']> (g_ufd f)) ∧
    ∀ x, x < ua ∨ ua + size <= x → vm_mem (f_vm f4) x = vm_mem (f_vm f) x.
Proof.
  intros Ha Hok [Hd Hsz Hl Hid] Hram Hp Hlf Hb Hby Hlen Hmb Hbuf Hl8 Hex Hlens. set (vm := f_vm f) in *.
  pose (U := ide_user_laws (D := D) (vm_cr3 vm) (vm_pmm vm)). set (L := um_laws (UserMemLaws := U) (vm_mem vm)).
  destruct (attach_ide_spec (f_vol f) a drive Ha Hok Hd Hsz Hl Hid Hram) as (v & E & Hv & Ev).
  set (n := Z.min 8192 (a_size a drive / 2)) in *.
  assert (vol_rep (BlocksLaws := L) v n (λ b, a_disk a drive (2 * b) ++ a_disk a drive (2 * b + 1))) as Hv'.
  { split; [exact Hv|]. rewrite Ev. done. }
  destruct (vfs_format_spec (H0 := L) (set_fvol f v) _ _ Hv') as (v1 & img & E1 & Hv1 & Hfmt).
  assert (comp_ok base) as Hco by (by apply Forall_singleton, (vp_ok _ Hp)).
  set (f2 := set_root (set_fvol (set_fvol f v) v1) true VFS_FS_EXT2).
  assert (fs_on (H0 := L) f2 n img) as Hf2 by (split; [done|done|apply Hfmt]).
  destruct (vfs_write_spec (H0 := L) f2 n img [] base data Hf2 Hp ltac:(lia) Hby Hlen) as (f3 & img3 & E3 & Hf3 & Hd3 & _).
  { intros k Hk. cbn [app] in Hk. by rewrite (formatted_absent n img base Hfmt) in Hk by (by apply fmt_root_names). }
  { apply formatted_can_write; [apply (rep_range (BlocksLaws := L) _ _ _ Hv1)|done| |lia]. destruct Hco. destruct base; simpl in *; [done|lia]. }
  cbn [app] in *. assert (g_ufd f3 = g_ufd f) as Hu3 by (by eapply (dispatch_ufd _ _ _ _ f2)).
  assert (in_session (S := vst D) vm 0 0 n img3 f3) as Hs3 by (split; [done|]; exists (vm_mem vm); by split).
  destruct (session_spec vm ua size n img3 [base] data lens f3 Hs3 Hbuf Hp) as (idx & e & e' & f4 & E4 & Hs4 & Hslot);
    [cbn; rewrite app_nil_r; lia|done|by rewrite Hu3..|done|]. rewrite Hu3 in Hslot.
  exists v, (set_fvol (set_fvol f v) v1), f2, f3, f4, idx, e, e'. split; [exact E|]. split; [exact E1|]. split; [|split; [exact E3|]].
  - unfold vfs_mount_root. by rewrite (rep_attached (BlocksLaws := L) (f_vol (set_fvol (set_fvol f v) v1)) n img Hv1).
  - split; [exact E4|]. split; [|split; [exact Hslot|]].
    + apply pieces_concat. eapply Forall_impl; [exact Hlens|]. cbn. lia.
    + destruct Hs4 as [_ (m & Hfm & Hm)]. intros x Hx. rewrite <-Hm by done. exact (um_agree (UserMemLaws := U) m _ n img3 x (fo_rep _ _ _ Hfm) I).
Qed.
(** the simulated disk, and a page at 4 MiB with a buffer *)
Definition disk_user : fsys (vst ata) := Fsys false VFS_FS_NONE (Vst (CVol CHASEROS_VOL_NONE 0 0 0) 0 0 user_vm sim_disk) demo_slots [slash].
Lemma disk_user_buffer : buffer_ok (λ _, True) (f_vm disk_user) 0x400100 4.
Proof.
  split; [lia|lia|done|]. intros len Hlen v Hc Hm. apply framed_range; [|lia..]. apply user_page_flags; [exact Hc| |by right].
  intros x Hx. apply Hm; [done|lia].
Qed.
Lemma user_disk_session_witness : ∃ f3 f4 fd,
  vfs_write_file (str "/a.txt") [104; 101; 108; 108; 111] f3 = Ret (inr tt, f4) ∧
  ∃ f5, user_session (str "/a.txt") 0x400100 [2; 4; 1] f4 = Ret (fd, [[104; 101]; [108; 108; 111]; []], 0, f5).
Proof.
  destruct (user_disk_session disk_user sim_disk 0 (str "a.txt") [104; 101; 108; 108; 111] 0x400100 4 [2; 4; 1])
    as (v & f1 & f2 & f3 & f4 & idx & e & e' & _ & _ & _ & E3 & E4 & _).
  - reflexivity.
  - exact sim_disk_ok.
  - split; [lia|cbn; lia|reflexivity|reflexivity].
  - reflexivity.
  - exact demo_vpath.
  - discriminate.
  - simpl; lia.
  - repeat constructor; unfold is_byte; lia.
  - simpl; lia.
  - apply mem_bytes_mwrite; [apply Vmm.Vmm.boot_bytes|repeat constructor; unfold is_byte; lia].
  - exact disk_user_buffer.
  - reflexivity.
  - right. left. reflexivity.
  - repeat constructor; lia.
  - exists f2, f3, (3 + Z.of_nat idx). split; [exact E3|]. exists f4. exact E4.
Defined.
End UserDisk.
