(* ===== verification/Kernel.v ===== *)
(** The kernel's state as a whole, and its console output: what
    kernel/main.c prints characters and numbers to, the task table of
    kernel/sched.c and the report of kernel/sysinfo.c.  [y_out] is every
    character given to [putchar] and [puts], which is what the serial port
    transmits; the text or framebuffer console is [y_con].  The diagnostics
    that the package loader prints are left out. *)
From stdpp Require Import base numbers list sets strings.
From S2P Require Import Prelude Bitmap Memory Multiboot Io Console Pci Power Pmm Vmm Process Ipc Path Vol Ide Vfs UserFd HybridIpc Loader Package Cndyn UserExec.
Open Scope Z_scope.

Module Kernel.
Import Console.Vga Console.Console Console.Print Vol.Vol Vfs.Vfs UserFd.UserFd Ipc.Ipc Process.Process Cndyn.Cndyn UserExec.UserExec.
(** a line of text *)
Definition line (s : string) : list Z := str s ++ [newline].

Section kernel.
Context {D : Type} `{Ports D}.
(** [y_cmd] is [cmd_buffer] up to [cmd_len], [y_cwd] the shell's [g_cwd] *)
Record ksys := Ksys {
  y_user : usys (vst D);
  y_libs : list cndyn_lib_slot_t;
  y_ticks : Z;
  y_out : list Z;
  y_con : con;
  y_cmd : list Z;
  y_cwd : list Z
}.
Definition set_user (y : ksys) (u : usys (vst D)) : ksys := Ksys u (y_libs y) (y_ticks y) (y_out y) (y_con y) (y_cmd y) (y_cwd y).
Definition set_libs (y : ksys) (l : list cndyn_lib_slot_t) : ksys := Ksys (y_user y) l (y_ticks y) (y_out y) (y_con y) (y_cmd y) (y_cwd y).
Definition set_ticks (y : ksys) (t : Z) : ksys := Ksys (y_user y) (y_libs y) t (y_out y) (y_con y) (y_cmd y) (y_cwd y).
Definition set_out (y : ksys) (o : list Z) : ksys := Ksys (y_user y) (y_libs y) (y_ticks y) o (y_con y) (y_cmd y) (y_cwd y).
Definition set_con (y : ksys) (k : con) : ksys := Ksys (y_user y) (y_libs y) (y_ticks y) (y_out y) k (y_cmd y) (y_cwd y).
Definition set_cmd (y : ksys) (c : list Z) : ksys := Ksys (y_user y) (y_libs y) (y_ticks y) (y_out y) (y_con y) c (y_cwd y).
Definition set_ycwd (y : ksys) (c : list Z) : ksys := Ksys (y_user y) (y_libs y) (y_ticks y) (y_out y) (y_con y) (y_cmd y) c.
Definition y_fs (y : ksys) : fsys (vst D) := u_fs (y_user y).
Definition set_yfs (y : ksys) (f : fsys (vst D)) : ksys := set_user y (set_ufs (y_user y) f).
#[export] Instance ksys_kern : Kern ksys := {
  kget := λ y, kern (y_user y);
  kput := λ y k, set_user y (put_kern (y_user y) k)
}.

(** ** Output *)
Definition emit (s : list Z) (y : ksys) : ksys := set_con (set_out y (y_out y ++ s)) (console_puts s (y_con y)).
Definition putchar (c : Z) : st ksys unit := st_modify (emit [c]).
Definition puts (s : list Z) : st ksys unit := st_modify (emit s).
Definition clear_screen : st ksys unit := st_modify (λ y, set_con y (console_clear (y_con y))).
Definition puts_hex (n : Z) : st ksys unit := puts (hex_text n).
Definition puts_dec (n : Z) : st ksys unit := t ← st_lift (dec_text n); puts t.

(** ** Lifting *)
(** an operation of the file system, of the volume, of the ports *)
Definition fs_op {A} (m : fsys (vst D) → outcome (A * fsys (vst D))) : st ksys A := λ y,
  '(a, f) ← m (y_fs y); Ret (a, set_yfs y f).
Definition vol_op {A} (m : est (vst D) A) : st ksys (option A) := λ y,
  '(a, v) ← m (f_vol (y_fs y)); Ret (a, set_yfs y (set_fvol (y_fs y) v)).
Definition dev_op {A} (m : est D A) : st ksys (option A) := vol_op (on_dev m).
Definition y_vm (y : ksys) : Vmm.Vmm.vm := f_vm (y_fs y).
Definition y_pmm (y : ksys) : Pmm.Pmm.pmm := Vmm.Vmm.vm_pmm (y_vm y).

(** ** The task table (sched.c) *)
Fixpoint task_lines (l : list proc_t) (i : nat) : outcome (list Z) :=
  match l with
  | [] => Ret []
  | p :: l =>
    rest ← task_lines l (i + 1);
    if is_state PROC_STATE_FREE p then Ret rest
    else
      slot ← dec_text (Z.of_nat i);
      id ← dec_text (pid p);
      Ret (slot ++ str "     " ++ id ++ str "  " ++ sched_state_name (state p) ++ str "  " ++ sched_pid_role (pid p) ++ [newline] ++ rest)
  end.
Definition sched_table_text (k : kst) : outcome (list Z) :=
  switches ← dec_text (sched_context_switches k);
  ready ← dec_text (sched_ready_kernel_threads k);
  rows ← task_lines (tasks k) 0;
  Ret (line "Hybrid scheduler (IRQ0 RR; USER_SLOT not in RR)" ++ str "  ctx_switches=" ++ switches ++
       str "  ready_kernel_threads=" ++ ready ++ [newline] ++ line "slot  pid  state        role" ++ rows).
Definition sched_print_task_table : st ksys unit := y ← st_get; t ← st_lift (sched_table_text (kget y)); puts t.

(** ** The report of sysinfo.c *)
Definition printable (c : Z) : bool := (32 <=? c) && (c <? 127).
(** one line of the list of drives *)
Definition sysinfo_drive (d : Z) : st ksys unit :=
  _ ← puts (str "    ");
  _ ← puts_dec d;
  _ ← puts (str ": ");
  r ← dev_op (Ide.Ide.ide_probe_type d);
  match r with
  | Some (cls, m) =>
    match cls with
    | Ide.Ide.IDE_CLASS_NONE => puts (line "(no device)")
    | Ide.Ide.IDE_CLASS_ATA => puts (str "[ATA HDD] " ++ List.filter printable m ++ [newline])
    | Ide.Ide.IDE_CLASS_ATAPI => puts (str "[CD-ROM ATAPI] " ++ List.filter printable m ++ [newline])
    end
  | None => puts (line "(no device)")
  end.
Definition sysinfo_print : st ksys unit :=
  y ← st_get;
  _ ← puts (line "ChaserOS System Information");
  _ ← puts (line "  Kernel: hybrid (in-kernel services + IRQ0 RR + ring3 slot)");
  _ ← puts (str "  Scheduler context switches: ");
  _ ← puts_dec (sched_context_switches (kget y));
  _ ← puts [newline];
  _ ← puts (str "  Multiboot2 MBI (phys): ");
  _ ← puts_hex (console_get_mbi_phys (y_con y));
  _ ← puts [newline];
  _ ← puts (str "  RAM total: ");
  _ ← puts_dec (Pmm.Pmm.pmm_get_total_memory (y_pmm y) / (1024 * 1024));
  _ ← puts (line " MB" ++ str "  RAM free:  ");
  _ ← puts_dec (Pmm.Pmm.pmm_get_free_memory (y_pmm y) / (1024 * 1024));
  _ ← puts (line " MB");
  _ ← (if console_is_framebuffer (y_con y) then
         let '(w, h) := console_fb_dims (y_con y) in
         _ ← puts (str "  Display: framebuffer ");
         _ ← puts_dec (u32 w);
         _ ← puts (str " x ");
         _ ← puts_dec (u32 h);
         puts [newline]
       else puts (line "  Display: VGA text 80x25"));
  _ ← puts (str "  Font (shell): ");
  _ ← puts (console_font_desc (y_con y));
  _ ← puts [newline];
  _ ← puts (line "  IDE primary channel:");
  _ ← sysinfo_drive 0;
  _ ← sysinfo_drive 1;
  puts (line "  CD-ROM: use Shell commands atapi inquiry <0|1> and atapi read <0|1> <lba> (READ(10), 2048 bytes/sector).").
End kernel.
Arguments ksys D : clear implicits.
End Kernel.
