(* ===== verification/Shell.v ===== *)
(** The shell (kernel/shell.c): the line editor that the keyboard interrupt
    drives, and the commands.  A command returns to the editor, jumps to ring 3
    or stops the machine ([flow]); the program images that the build embeds
    are the parameters [hello_bin] and [demo_cnaf].
    Theorems: decimal numbers printed by [puts_dec] are read back by
    [parse_u64]; every key keeps the command buffer within its bounds;
    [atapi read] never reads; a command that jumps to ring 3 leaves its text
    in the buffer.  The lemmas [attach_run], [initdisk_run], [write_run] and
    [read_run] say what these commands do and print; Session.v composes them. *)
From stdpp Require Import base numbers list sets strings.
From S2P Require Import Prelude Bitmap Memory Multiboot Io Console Pci Power Pmm Vmm Process Ipc Path Vol Ide Ext2 Ext2Disk Ext2Spec Ext2Format Vfs Disks UserFd HybridIpc Loader Package Cndyn UserExec Kernel.
Open Scope Z_scope.

Module Shell.
Import Ide.Ide Console.Vga Console.Console Console.Print Path.Path Vol.Vol Vfs.Vfs UserFd.UserFd Ipc.Ipc Process.Process Cndyn.Cndyn UserExec.UserExec Kernel.Kernel.
Definition MAX_COMMAND_LEN : nat := 512.
Definition space := 32.
(** what follows a command *)
Inductive flow := Back | Ring3 (rip rsp : Z) | Halted.

(** ** Parsing *)
Fixpoint skip_sp (p : list Z) : list Z :=
  match p with c :: p' => if c =? space then skip_sp p' else p | [] => [] end.
(** up to [n] characters before a space, and the rest *)
Fixpoint word (n : nat) (p : list Z) : list Z * list Z :=
  match n, p with
  | S n, c :: p' => if c =? space then ([], p) else let '(w, r) := word n p' in (c :: w, r)
  | _, _ => ([], p)
  end.
Fixpoint parse_digits (s : list Z) (v : Z) : option Z :=
  match s with
  | [] => Some v
  | c :: s => if (c <? 48) || (57 <? c) then None else parse_digits s (u64 (v * 10 + (c - 48)))
  end.
Definition parse_u64 (s : list Z) : option Z := match s with [] => None | _ => parse_digits s 0 end.
(** 0 or 1 *)
Definition parse_drive (s : list Z) : option Z :=
  match parse_u64 s with Some d => if (d =? 0) || (d =? 1) then Some d else None | None => None end.

Section shell.
Context {D : Type} `{Ports D} (hello_bin demo_cnaf : list Z).
Notation ksys := (ksys D).
Implicit Types (y : ksys).
Definition done_ : st ksys flow := mret Back.
Definition say (s : list Z) : st ksys flow := _ ← puts s; mret Back.
Definition shell_cwd_reset : st ksys unit := st_modify (λ y,
  set_yfs (set_ycwd y [slash]) (chaseros_user_cwd_reset (y_fs y))).
Definition shell_get_cwd (y : ksys) : list Z := y_cwd y.
Definition shell_resolve (rel : list Z) (outsz : nat) : st ksys (option (list Z)) :=
  y ← st_get; st_lift (vfs_resolve_path (y_cwd y) rel outsz).
Definition is_mounted : st ksys bool := y ← st_get; mret (vfs_is_mounted (y_fs y)).
Definition shell_init : st ksys unit := _ ← st_modify (λ y, set_cmd y []); shell_cwd_reset.
(** the result code of [vfs_mount_root] and [vfs_umount_root] *)
Definition mount_root : st ksys Z := λ y, let '(r, f) := vfs_mount_root (y_fs y) in Ret (r, set_yfs y f).
Definition umount_root : st ksys unit := λ y, let '(_, f) := vfs_umount_root (y_fs y) in Ret (tt, set_yfs y f).
Definition detach_all : st ksys unit := λ y,
  v ← chaseros_vol_detach_all (f_vol (y_fs y)); Ret (tt, set_yfs y (set_fvol (y_fs y) v)).
Definition set_ypmm (y : ksys) (p : Pmm.Pmm.pmm) : ksys := set_yfs y (set_fpmm (y_fs y) p).

(** ** Commands *)
Definition resolution_cmd (args : list Z) : st ksys flow :=
  let r := skip_sp args in
  y ← st_get;
  match r with
  | [] =>
    if negb (console_is_framebuffer (y_con y)) then
      say (line "resolution: VGA text — 像素模式请编辑 iso/boot/grub.cfg 中 set gfxpayload= 后重建 ISO 重启。" ++
           line "  帧缓冲模式下: resolution scale <1-10> | resolution auto | resolution help")
    else
      let '(w, h) := console_fb_dims (y_con y) in
      _ ← puts (str "Framebuffer: ");
      _ ← puts_dec (u32 w);
      _ ← puts (str " x ");
      _ ← puts_dec (u32 h);
      _ ← puts (str "  font scale: ");
      _ ← puts_dec (u32 (console_get_fb_font_scale (y_con y)));
      say (line " (1-10；档位非硬件像素，见 resolution help)")
  | _ =>
    let '(w0, r) := word 19 r in
    let r := skip_sp r in
    if str_eqb w0 (str "help") then
      say (line "resolution              当前像素与字模档位" ++
           line "resolution auto         字模按屏高自动" ++
           line "resolution scale <1-10> 字模变大/变小（位图字体；矢量模块启用时无效）" ++
           line "硬件分辨率：改 iso/boot/grub.cfg 的 set gfxpayload=WxHx32，cmake --build 后换 ISO 重启。")
    else if str_eqb w0 (str "auto") then
      _ ← st_modify (λ y, set_con y (console_set_fb_font_scale 0 (y_con y)));
      say (line "resolution: font scale auto")
    else if str_eqb w0 (str "scale") then
      match parse_u64 r with
      | Some sc =>
        if (sc <? 1) || (10 <? sc) then say (line "resolution: usage: resolution scale <1-10>")
        else
          _ ← st_modify (λ y, set_con y (console_set_fb_font_scale (i32 sc) (y_con y)));
          _ ← puts (str "resolution: font scale ");
          _ ← puts_dec sc;
          say [newline]
      | None => say (line "resolution: usage: resolution scale <1-10>")
      end
    else say (line "resolution: unknown subcommand (try resolution help)")
  end.
Definition help_text : list Z :=
  line "Commands:" ++
  line "  help              - This help" ++
  line "  clear             - Clear screen" ++
  line "  mem               - Memory stats" ++
  line "  reboot            - Reboot (ACPI/ICH/8042)" ++
  line "  poweroff          - Soft power off (ACPI / QEMU, kernel I/O)" ++
  line "  shutdown          - Same as poweroff" ++
  line "  mkdisk <sectors>  - RAM disk (512B sectors, even count, min 512)" ++
  line "  initdisk          - format + mount fresh ext2 (resets cwd to /)" ++
  line "  vol               - Show current volume + VFS mount state" ++
  line "  mount             - Mount current volume as VFS root (ext2)" ++
  line "  umount            - Unmount VFS root (volume stays attached)" ++
  line "  format            - Create minimal ext2 on current volume" ++
  line "  pwd               - Print current directory" ++
  line "  cd [path]         - Change directory (default /)" ++
  line "  gfl [path]        - Same as cd (go to directory)" ++
  line "  mkdir <path>      - Create subdirectory under cwd or absolute path" ++
  line "  ls [path]         - List directory (default: cwd)" ++
  line "  read <name>       - Read file (cwd-relative or absolute)" ++
  line "  write <name> <text> - Write file (cwd-relative or absolute)" ++
  line "  ide               - Probe ATA/ATAPI on primary IDE master/slave" ++
  line "  atapi inquiry <0|1> - SCSI INQUIRY (CD-ROM ATAPI)" ++
  line "  atapi read <0|1> <lba> - READ(10) one 2048-byte sector (hex dump head)" ++
  line "  attach ide <0|1>  - Use IDE master/slave as volume" ++
  line "  detach            - Unmount VFS if needed, release volume" ++
  line "  lspci             - PCI devices" ++
  line "  ps                - Hybrid scheduler task table + stats" ++
  line "  hello             - Run embedded ring-3 user demo (C)" ++
  line "  cnrun             - Run embedded ChaserOS DLL & Application General Format app" ++
  line "  cnrun <file>      - Run .cnpk (DAGF app; cwd-relative or absolute; max ~2 MiB)" ++
  line "  spawn <file>      - Create child process entry for .cnpk and return pid" ++
  line "  wait [pid]        - Wait/reap exited child (0=any)" ++
  line "  slime             - Run embedded Slime user demo (requires CHASEROS_WITH_SLIME_USER)" ++
  line "  systeminfo        - OS / RAM / display / font / IDE / CD-ROM" ++
  line "  resolution [help|auto|scale N] - 帧缓冲下调整字模档位；像素模式改 grub.cfg".
Definition mem_cmd : st ksys flow :=
  y ← st_get;
  _ ← puts (line "Memory Statistics:" ++ str "  Total: ");
  _ ← puts_dec (Pmm.Pmm.pmm_get_total_memory (y_pmm y) / 1024 / 1024);
  _ ← puts (line " MB" ++ str "  Used:  ");
  _ ← puts_dec (Pmm.Pmm.pmm_get_used_memory (y_pmm y) / 1024);
  _ ← puts (line " KB" ++ str "  Free:  ");
  _ ← puts_dec (Pmm.Pmm.pmm_get_free_memory (y_pmm y) / 1024 / 1024);
  say (line " MB").
(** [power_reboot] and [power_shutdown] on the machine *)
Definition power_op (m : est (Power.Power.mach (D := D)) unit) : st ksys flow := λ y,
  let v := f_vol (y_fs y) in
  '(_, (mm, d)) ← m (Vmm.Vmm.vm_mem (v_vm v), v_dev v);
  Ret (Halted, set_yfs y (set_fvol (y_fs y) (set_dev (set_vvm v (Vmm.Vmm.set_mem (v_vm v) mm)) d))).
(** mounting after an attach, and the end of the message *)
Definition mount_note : st ksys flow :=
  mr ← mount_root;
  say (if mr =? VFS_ERR_NONE then line ", VFS mounted" else [newline]).
Definition mkdisk_cmd (p : list Z) : st ksys flow :=
  match parse_u64 p with
  | None => say (line "mkdisk: usage mkdisk <sectors> (even, >=512)")
  | Some sectors =>
    if (sectors <? 512) || negb (sectors mod 2 =? 0) then say (line "mkdisk: usage mkdisk <sectors> (even, >=512)")
    else
      let bytes := u64 (sectors * 512) in
      let pages := u64 (bytes + Pmm.Pmm.PAGE_SIZE - 1) / Pmm.Pmm.PAGE_SIZE in
      y ← st_get;
      '(mem, pm) ← st_lift (Pmm.Pmm.pmm_alloc_contiguous_pages (y_pmm y) pages);
      _ ← st_modify (λ y, set_ypmm y pm);
      if mem =? 0 then say (line "mkdisk: allocation failed")
      else
        r ← vol_op (chaseros_vol_attach_ram mem bytes);
        match r with
        | None =>
          y ← st_get;
          pm ← st_lift (Pmm.Pmm.pmm_free_contiguous (y_pmm y) mem pages);
          _ ← st_modify (λ y, set_ypmm y pm);
          say (line "mkdisk: attach failed")
        | Some _ =>
          _ ← shell_cwd_reset;
          _ ← puts (str "mkdisk: RAM volume ");
          _ ← puts_dec bytes;
          _ ← puts (str " bytes");
          mount_note
        end
  end.
Definition vol_cmd : st ksys flow :=
  y ← st_get;
  match chaseros_vol_current (f_vol (y_fs y)) with
  | None => say (line "No volume attached." ++ line "VFS root: not mounted")
  | Some v =>
    _ ← match vtype v with
        | CHASEROS_VOL_RAM => _ ← puts (str "Volume: RAM, "); _ ← puts_dec (size_bytes v); puts (line " bytes")
        | CHASEROS_VOL_IDE =>
          _ ← puts (str "Volume: IDE "); _ ← puts_dec (ide_drive v); _ ← puts (str ", "); _ ← puts_dec (size_bytes v); puts (line " bytes")
        | CHASEROS_VOL_NONE => mret tt
        end;
    _ ← puts (str "VFS root: ");
    say (if vfs_is_mounted (y_fs y) then line "mounted (ext2)" else line "not mounted")
  end.
Definition mount_cmd : st ksys flow :=
  mr ← mount_root;
  say (if mr =? VFS_ERR_NONE then line "mount: ext2 root ok"
       else if mr =? VFS_ERR_NOENT then line "mount: no volume (mkdisk / attach ide first)"
       else line "mount: failed").
Definition umount_cmd : st ksys flow := _ ← umount_root; _ ← shell_cwd_reset; say (line "umount: ok").
Definition detach_cmd : st ksys flow :=
  _ ← umount_root;
  _ ← shell_cwd_reset;
  _ ← detach_all;
  say (line "Volume detached.").
Definition format_cmd : st ksys flow :=
  fr ← fs_op vfs_format;
  match fr with
  | inl e => say (if e =? VFS_ERR_NOENT then line "format: no volume" else line "format: failed")
  | inr _ => _ ← shell_cwd_reset; say (line "format: ext2 created (single group, 1024-byte blocks)")
  end.
Definition initdisk_cmd : st ksys flow :=
  _ ← umount_root;
  _ ← shell_cwd_reset;
  fr ← fs_op vfs_format;
  match fr with
  | inl e => say (if e =? VFS_ERR_NOENT then line "initdisk: no volume (mkdisk / attach ide first)" else line "initdisk: format failed")
  | inr _ =>
    mr ← mount_root;
    if negb (mr =? VFS_ERR_NONE) then say (line "initdisk: mount failed")
    else say (line "initdisk: volume formatted (ext2) and mounted; cwd=/")
  end.
Definition cd_cmd (cderr p : list Z) : st ksys flow :=
  match skip_sp p with
  | [] => _ ← shell_cwd_reset; mret Back
  | p =>
    r ← shell_resolve p 256;
    match r with
    | None => say (cderr ++ line ": invalid path")
    | Some resolved =>
      ok ← is_mounted;
      if negb ok then say (cderr ++ line ": VFS not mounted (try: mount)")
      else
        dir ← fs_op (vfs_is_directory resolved);
        if negb dir then say (cderr ++ line ": not a directory")
        else
          let cwd := take 255 resolved in
          _ ← st_modify (λ y, set_yfs (set_ycwd y cwd) (chaseros_user_set_cwd (y_fs y) (Some cwd)));
          mret Back
    end
  end.
Definition mkdir_cmd (p : list Z) : st ksys flow :=
  match skip_sp p with
  | [] => say (line "mkdir: usage mkdir <path>")
  | p =>
    r ← shell_resolve p 256;
    match r with
    | None => say (line "mkdir: invalid path")
    | Some resolved =>
      mr ← fs_op (vfs_mkdir resolved);
      say (match mr with
           | inl e => if e =? VFS_ERR_NOTMOUNTED then line "mkdir: VFS not mounted (try: mount)" else line "mkdir: failed (exists or disk full)"
           | inr _ => line "mkdir: ok"
           end)
    end
  end.
(** the lines that [vfs_ls] prints *)
Fixpoint print_entries (l : list (list Z * Z)) : st ksys unit :=
  match l with
  | [] => mret tt
  | (name, ino) :: l =>
    _ ← puts (str "  " ++ name ++ str "  ino=");
    _ ← puts_dec ino;
    _ ← puts [newline];
    print_entries l
  end.
Definition ls_cmd (p : list Z) : st ksys flow :=
  y ← st_get;
  r ← match skip_sp p with
      | [] => mret (Some (y_cwd y))
      | p => shell_resolve p 256
      end;
  match r with
  | None => say (line "ls: invalid path")
  | Some listpath =>
    lr ← fs_op (vfs_ls (Some listpath));
    match lr with
    | inl e => say (if e =? VFS_ERR_NOTMOUNTED then line "ls: VFS not mounted (try: mount)" else line "ls: failed")
    | inr l => _ ← print_entries l; mret Back
    end
  end.
Definition read_cmd (p : list Z) : st ksys flow :=
  match skip_sp p with
  | [] => say (line "read: usage read <name>")
  | p =>
    let '(name, _) := word 127 p in
    r ← shell_resolve name 256;
    match r with
    | None => say (line "read: invalid path")
    | Some resolved =>
      rr ← fs_op (vfs_read_file resolved 4096);
      match rr with
      | inl e => say (if e =? VFS_ERR_NOTMOUNTED then line "read: VFS not mounted (try: mount)" else line "read: not found or not a regular file")
      | inr out => say (((λ c, if printable c then c else 46) <$> out) ++ [newline])
      end
    end
  end.
Definition write_cmd (p : list Z) : st ksys flow :=
  let '(name, p) := word 127 (skip_sp p) in
  let text := skip_sp p in
  match name with
  | [] => say (line "write: usage write <name> <text...>")
  | _ =>
    r ← shell_resolve name 256;
    match r with
    | None => say (line "write: invalid path")
    | Some wresolved =>
      wr ← fs_op (vfs_write_file wresolved text);
      say (match wr with
           | inl e => if e =? VFS_ERR_NOTMOUNTED then line "write: VFS not mounted (try: mount)" else line "write: failed"
           | inr _ => line "write: ok"
           end)
    end
  end.
(** one line of the [ide] command *)
Definition ide_line (d : Z) : st ksys unit :=
  _ ← puts (str "  ");
  _ ← puts_dec d;
  _ ← puts (str ": ");
  r ← dev_op (Ide.Ide.ide_probe_type d);
  match r with
  | Some (Ide.Ide.IDE_CLASS_ATA, m) =>
    _ ← puts (str "[ATA] " ++ fst (word 40 m));
    _ ← puts (str "  sectors=");
    sec ← dev_op (Ide.Ide.ide_capacity_sectors d);
    _ ← match sec with Some sec => puts_dec sec | None => puts (str "?") end;
    putchar newline
  | Some (Ide.Ide.IDE_CLASS_ATAPI, m) =>
    _ ← puts (str "[ATAPI] " ++ fst (word 40 m)); putchar newline
  | _ => puts (line "(no device)")
  end.
Definition ide_cmd : st ksys flow :=
  _ ← puts (line "IDE primary channel:");
  _ ← ide_line 0;
  _ ← ide_line 1;
  mret Back.
(** is the drive an ATAPI device? *)
Definition is_atapi (dr : Z) : st ksys bool :=
  r ← dev_op (Ide.Ide.ide_probe_type dr);
  mret (match r with Some (Ide.Ide.IDE_CLASS_ATAPI, _) => true | _ => false end).
(** [(c >= 32 && c < 127) ? c : '?'] *)
Definition mask_char (c : Z) : Z := if printable c then c else 63.
Definition inquiry_cmd (p : list Z) : st ksys flow :=
  match parse_drive p with
  | None => say (line "atapi: usage atapi inquiry <0|1>")
  | Some dr =>
    ok ← is_atapi dr;
    if negb ok then say (line "atapi: drive is not ATAPI (use ide)")
    else
      r ← dev_op (Ide.Ide.ide_atapi_inquiry dr 96);
      match r with
      | None => say (line "atapi: INQUIRY failed")
      | Some inq =>
        _ ← puts (str "INQUIRY ok, bytes=");
        _ ← puts_dec (Z.of_nat (length inq));
        _ ← puts ([newline] ++ str "  vendor: " ++ (mask_char <$> slice inq 8 8));
        _ ← puts ([newline] ++ str "  product: " ++ (mask_char <$> slice inq 16 16));
        _ ← putchar newline;
        mret Back
      end
  end.
(** the first 64 bytes in hexadecimal, 16 to a line *)
Definition hex_dump (sec : list Z) : list Z :=
  concat (imap (λ i v, [hex_digit (Z.shiftr v 4); hex_digit (Z.land v 15); if (i mod 16 =? 15)%nat then newline else space]) (take 64 sec)).
Fixpoint skip_word (p : list Z) : list Z :=
  match p with c :: p' => if c =? space then p else skip_word p' | [] => [] end.
Definition atapi_read_cmd (p : list Z) : st ksys flow :=
  match parse_drive p with
  | None => say (line "atapi: usage atapi read <0|1> <lba>")
  | Some dr =>
    match parse_u64 (skip_sp (skip_word p)) with
    | None => say (line "atapi: usage atapi read <0|1> <lba>")
    | Some lba =>
      ok ← is_atapi dr;
      if negb ok then say (line "atapi: drive is not ATAPI")
      else
        r ← dev_op (Ide.Ide.ide_atapi_read2048 dr (u32 lba));
        match r with
        | None => say (line "atapi: READ(10) failed (no media?)")
        | Some sec =>
          _ ← puts (str "READ lba=");
          _ ← puts_dec lba;
          say (line " first 64 bytes:" ++ hex_dump sec)
        end
    end
  end.
Definition atapi_cmd (p : list Z) : st ksys flow :=
  let '(sub, p) := word 15 (skip_sp p) in
  let p := skip_sp p in
  if str_eqb sub (str "inquiry") then inquiry_cmd p
  else if str_eqb sub (str "read") then atapi_read_cmd p
  else say (line "atapi: usage atapi inquiry <0|1> | atapi read <0|1> <lba>").
Definition attach_cmd (p : list Z) : st ksys flow :=
  if str_eqb (take 3 p) (str "ide") && ((length p =? 3)%nat || (nth 3 p 0 =? space)) then
    match parse_drive (skip_sp (drop 3 p)) with
    | None => say (line "attach: usage attach ide <0|1>")
    | Some d =>
      r ← vol_op (chaseros_vol_attach_ide d);
      match r with
      | None => say (line "attach: IDE failed (no disk or size too small)")
      | Some _ =>
        _ ← shell_cwd_reset;
        _ ← puts (str "attach: IDE volume ready");
        mount_note
      end
    end
  else say (line "attach: only 'attach ide <0|1>' supported").
(** a launcher of UserExec: the jump, or the failure message *)
Definition launch (run : usys (vst D) → outcome (option (Z * Z) * usys (vst D))) (go fail : list Z) : st ksys flow := λ y,
  '(j, u) ← run (y_user y);
  let y := set_user y u in
  match j with
  | None => say fail y
  | Some (rip, rsp) => '(_, y) ← puts go y; Ret (Ring3 rip rsp, y)
  end.
Definition hello_cmd : st ksys flow := λ y,
  launch (user_run_embedded_elf hello_bin (y_cwd y)) (line "[kernel] jumping to user (C hello, ring 3)...")
    (line "user: embedded ELF load failed (C hello)") y.
Definition cnrun_cmd (p : list Z) : st ksys flow :=
  match skip_sp p with
  | [] => λ y, launch (cndyn_run_embedded_package demo_cnaf (y_cwd y))
                 (line "[kernel] jumping to user (embedded demo.cnpk (C hello IMAGE), ring 3)...") [] y
  | p =>
    let '(name, _) := word 127 p in
    r ← shell_resolve name 256;
    match r with
    | None => say (line "cnrun: invalid path")
    | Some cresolved =>
      ok ← is_mounted;
      if negb ok then say (line "cnrun: VFS not mounted (try: mount)")
      else λ y, launch (user_run_cnaf_from_path_streaming cresolved (y_cwd y))
                  (line "[kernel] jumping to user (CNPK/CNIM, ring 3)...") [] y
    end
  end.
Definition spawn_cmd (p : list Z) : st ksys flow :=
  match skip_sp p with
  | [] => say (line "spawn: usage spawn <file>")
  | p =>
    ok ← is_mounted;
    if negb ok then say (line "spawn: VFS not mounted (try: mount)")
    else
      let '(name, _) := word 127 p in
      r ← shell_resolve name 256;
      match r with
      | None => say (line "spawn: invalid path")
      | Some resolved =>
        y ← st_get;
        let '(child, k) := process_alloc_user (kget y) 0 in
        _ ← st_put (kput y k);
        match child with
        | None => say (line "spawn: no free process slot")
        | Some child =>
          entry ← fs_op (cndyn_load_package_for_exec resolved);
          y ← st_get;
          match entry with
          | None => _ ← st_put (kput y (upd (kget y) child (set_state PROC_STATE_FREE))); say (line "spawn: load failed")
          | Some entry =>
            let k := upd (kget y) child (λ p, set_user_stack_top 0x801008 (set_user_entry entry p)) in
            let k := process_mark_exit k (Some child) 0 in
            _ ← st_put (kput y k);
            _ ← puts (str "spawn: pid=");
            _ ← puts_dec (pid (task k child));
            say (line " (queued metadata; full run path pending)")
          end
        end
      end
  end.
Definition wait_cmd (p : list Z) : st ksys flow :=
  let target := match skip_sp p with [] => Some 0 | p => parse_u64 p end in
  match target with
  | None => say (line "wait: usage wait [pid]")
  | Some target =>
    y ← st_get;
    match process_find_by_pid (kget y) 0 with
    | None => say (line "wait: no parent proc")
    | Some parent =>
      '(r, k) ← st_lift (process_reap_child (kget y) (Some parent) target);
      _ ← st_put (kput y k);
      match r with
      | None => say (line "wait: no exited child")
      | Some (got_pid, status) =>
        _ ← puts (str "wait: reaped pid=");
        _ ← puts_dec got_pid;
        _ ← puts (str " status=");
        _ ← puts_dec (u32 status);
        say [newline]
      end
    end
  end.
Definition slime_cmd : st ksys flow :=
  say (line "Slime user ELF not embedded. Reconfigure with -DCHASEROS_WITH_SLIME_USER=ON (needs slimec in PATH).").
Definition lspci_cmd : st ksys flow :=
  r ← dev_op Pci.Pci.pci_list_devices; match r with Some t => say t | None => mret Back end.
(** the command [verb] with arguments [p] of the line [cmd] *)
Definition dispatch (verb p cmd : list Z) : st ksys flow :=
  let verb_is s := str_eqb verb (str s) in
  if verb_is "help" then say help_text
  else if verb_is "clear" then _ ← clear_screen; mret Back
  else if verb_is "mem" then mem_cmd
  else if verb_is "reboot" then _ ← puts (line "Rebooting..."); power_op Power.Power.power_reboot
  else if verb_is "poweroff" || verb_is "shutdown" then _ ← puts (line "Powering off..."); power_op Power.Power.power_shutdown
  else if verb_is "mkdisk" then mkdisk_cmd p
  else if verb_is "vol" then vol_cmd
  else if verb_is "mount" then mount_cmd
  else if verb_is "umount" then umount_cmd
  else if verb_is "detach" then detach_cmd
  else if verb_is "format" then format_cmd
  else if verb_is "initdisk" then initdisk_cmd
  else if verb_is "pwd" then y ← st_get; say (y_cwd y ++ [newline])
  else if verb_is "cd" || verb_is "gfl" then cd_cmd (if verb_is "gfl" then str "gfl" else str "cd") p
  else if verb_is "mkdir" then mkdir_cmd p
  else if verb_is "ls" then ls_cmd p
  else if verb_is "read" then read_cmd p
  else if verb_is "write" then write_cmd p
  else if verb_is "ide" then ide_cmd
  else if verb_is "atapi" then atapi_cmd p
  else if verb_is "attach" then attach_cmd p
  else if verb_is "lspci" then lspci_cmd
  else if verb_is "ps" then _ ← sched_print_task_table; mret Back
  else if verb_is "hello" then hello_cmd
  else if verb_is "cnrun" then cnrun_cmd p
  else if verb_is "spawn" then spawn_cmd p
  else if verb_is "wait" then wait_cmd p
  else if verb_is "slime" then slime_cmd
  else if verb_is "systeminfo" then _ ← sysinfo_print; mret Back
  else if verb_is "resolution" then resolution_cmd p
  else say (str "Unknown command: " ++ cmd ++ [newline]).
Definition shell_execute (cmd : list Z) : st ksys flow :=
  let p := skip_sp (take (MAX_COMMAND_LEN - 1) cmd) in
  match p with
  | [] => mret Back
  | _ => let '(verb, p) := word 31 p in dispatch verb (skip_sp p) cmd
  end.

(** ** The line editor *)
Definition shell_handle_input (c : Z) : st ksys flow :=
  if (c =? newline) || (c =? 13) then
    _ ← putchar newline;
    y ← st_get;
    fl ← shell_execute (y_cmd y);
    match fl with
    | Back => _ ← st_modify (λ y, set_cmd y []); say (str "ChaserOS> ")
    | _ => mret fl
    end
  else if (c =? backspace) || (c =? 127) then
    y ← st_get;
    if (0 <? length (y_cmd y))%nat then
      _ ← st_modify (λ y, set_cmd y (take (length (y_cmd y) - 1) (y_cmd y)));
      say [backspace; space; backspace]
    else mret Back
  else
    y ← st_get;
    if (length (y_cmd y) <? MAX_COMMAND_LEN - 1)%nat && (32 <=? c) && (c <? 127) then
      _ ← st_modify (λ y, set_cmd y (y_cmd y ++ [c]));
      say [c]
    else mret Back.
End shell.

(** ** Typing *)
Section typing.
Context {D : Type} `{Ports D} (hello_bin demo_cnaf : list Z).
Implicit Types (y : ksys D).
Notation shell_execute := (shell_execute hello_bin demo_cnaf).
Notation shell_handle_input := (shell_handle_input hello_bin demo_cnaf).
Definition prompt : list Z := str "ChaserOS> ".
(** keys until a command leaves the shell *)
Fixpoint type_keys (s : list Z) : st (ksys D) flow :=
  match s with
  | [] => mret Back
  | c :: s => fl ← shell_handle_input c; match fl with Back => type_keys s | _ => mret fl end
  end.
Definition is_print (c : Z) : Prop := 32 <= c < 127.
Lemma emit_emit s t y : emit s (emit t y) = emit (t ++ s) y.
Proof. unfold emit, console_puts, set_con, set_out. cbn. by rewrite foldl_app, <-app_assoc. Qed.
Lemma emit_cmd s y c : set_cmd (emit s y) c = emit s (set_cmd y c).
Proof. done. Qed.
Lemma emit_nil y : emit [] y = y.
Proof. destruct y. unfold emit, set_out, set_con. cbn. by rewrite app_nil_r. Qed.
Lemma input_char y c : is_print c → (length (y_cmd y) < 511)%nat →
  shell_handle_input c y = Ret (Back, emit [c] (set_cmd y (y_cmd y ++ [c]))).
Proof.
  unfold is_print. intros Hc Hl. unfold Shell.shell_handle_input, newline, backspace.
  rewrite (proj2 (Z.eqb_neq c 10)), (proj2 (Z.eqb_neq c 13)), (proj2 (Z.eqb_neq c 8)), (proj2 (Z.eqb_neq c 127)) by lia. cbn [orb].
  erewrite st_bind_step by reflexivity. unfold MAX_COMMAND_LEN.
  rewrite (proj2 (Nat.ltb_lt (length (y_cmd y)) (512 - 1))), (proj2 (Z.leb_le 32 c)), (proj2 (Z.ltb_lt c 127)) by lia. done.
Qed.
Lemma type_text s r : ∀ y, Forall is_print s → (length (y_cmd y) + length s <= 511)%nat →
  type_keys (s ++ r) y = type_keys r (emit s (set_cmd y (y_cmd y ++ s))).
Proof.
  induction s as [|c s IH]; intros y Hs Hl; cbn [length] in Hl.
  { rewrite app_nil_r, emit_nil. by destruct y. }
  apply Forall_cons in Hs as [Hc Hs]. cbn [app type_keys]. rewrite (st_bind_step _ _ _ _ _ (input_char y c Hc ltac:(lia))).
  rewrite IH; [|done|cbn; rewrite length_app; cbn [length]; lia]. f_equal. cbn. rewrite <-app_assoc. cbn [app].
  change (set_cmd (emit [c] (set_cmd y (y_cmd y ++ [c]))) (y_cmd y ++ c :: s)) with (emit [c] (set_cmd y (y_cmd y ++ c :: s))).
  by rewrite emit_emit.
Qed.
Lemma enter_line y y' : shell_execute (y_cmd y) (emit [newline] y) = Ret (Back, y') →
  shell_handle_input newline y = Ret (Back, emit prompt (set_cmd y' [])).
Proof.
  intros E. unfold Shell.shell_handle_input. rewrite Z.eqb_refl. cbn [orb].
  erewrite st_bind_step by reflexivity. erewrite st_bind_step by reflexivity. by rewrite (st_bind_step _ _ _ _ _ E).
Qed.
End typing.

(** ** The command buffer *)
Section buffer.
Context {D : Type} `{Ports D} (hello_bin demo_cnaf : list Z).
Implicit Types (y : ksys D) (c : list Z).
(** [m] runs with the command buffer [c] and leaves it alone *)
Definition keeps {A} c (m : st (ksys D) A) : Prop := ∀ y a y', y_cmd y = c → m y = Ret (a, y') → y_cmd y' = c.
Lemma keeps_ret {A} c (a : A) : keeps c (mret a).
Proof. by intros y x y' Hc [= <- <-]. Qed.
Lemma keeps_bind {A B} c (m : st (ksys D) A) (f : A → st (ksys D) B) : keeps c m → (∀ a, keeps c (f a)) → keeps c (m ≫= f).
Proof.
  intros Hm Hf y b y' Hc E. unfold mbind, st_mbind in E. destruct (m y) as [[a y1]| |] eqn:E1; [|done..].
  exact (Hf a y1 b y' (Hm y a y1 Hc E1) E).
Qed.
Lemma keeps_get {B} c (f : ksys D → st (ksys D) B) : (∀ y, y_cmd y = c → keeps c (f y)) → keeps c (st_get ≫= f).
Proof. intros Hf y b y' Hc E. by apply (Hf y Hc y b y'). Qed.
Lemma keeps_put c y1 : y_cmd y1 = c → keeps c (st_put y1).
Proof. by intros H1 y a y' _ [= <- <-]. Qed.
Lemma keeps_modify c (f : ksys D → ksys D) : (∀ y, y_cmd (f y) = y_cmd y) → keeps c (st_modify f).
Proof. intros Hf y a y' Hc [= <- <-]. by rewrite Hf. Qed.
Lemma keeps_lift {A} c (m : outcome A) : keeps c (st_lift m).
Proof. intros y a y' Hc E. unfold st_lift in E. by destruct m; [injection E as <- <-|..]. Qed.
Lemma keeps_fs {A} c (m : fsys (vst D) → outcome (A * fsys (vst D))) : keeps c (fs_op m).
Proof.
  intros y a y' Hc E. unfold fs_op in E. destruct (m (y_fs y)) as [[a1 f1]| |]; [|done..]. by injection E as <- <-.
Qed.
Lemma keeps_vol {A} c (m : est (vst D) A) : keeps c (vol_op m).
Proof.
  intros y a y' Hc E. unfold vol_op in E. destruct (m _) as [[a1 f1]| |]; [|done..]. by injection E as <- <-.
Qed.
Lemma keeps_puts c t : keeps c (puts t).
Proof. by apply keeps_modify. Qed.
Lemma keeps_dec c n : keeps c (puts_dec n).
Proof. apply keeps_bind; [apply keeps_lift|intros; apply keeps_puts]. Qed.
Lemma keeps_say c t : keeps c (say t).
Proof. apply keeps_bind; [apply keeps_puts|intros; apply keeps_ret]. Qed.
Lemma keeps_mount c : keeps c mount_root.
Proof. intros y a y' Hc E. unfold mount_root in E. destruct (vfs_mount_root _). by injection E as <- <-. Qed.
Lemma keeps_umount c : keeps c umount_root.
Proof. intros y a y' Hc E. unfold umount_root in E. destruct (vfs_umount_root _). by injection E as <- <-. Qed.
Lemma keeps_detach c : keeps c detach_all.
Proof. intros y a y' Hc E. unfold detach_all in E. destruct (chaseros_vol_detach_all _); [|done..]. by injection E as <- <-. Qed.
Lemma keeps_cwd c : keeps c shell_cwd_reset.
Proof. by apply keeps_modify. Qed.
Lemma keeps_resolve c rel n : keeps c (shell_resolve rel n).
Proof. apply keeps_get. intros. apply keeps_lift. Qed.
Lemma keeps_mounted c : keeps c is_mounted.
Proof. apply keeps_get. intros. apply keeps_ret. Qed.
Lemma keeps_launch c run go fl : keeps c (launch run go fl).
Proof.
  intros y a y' Hc E. unfold launch in E. destruct (run _) as [[[[rip rsp]|] u]| |]; [|..|done|done].
  - by injection E as <- <-.
  - by injection E as <- <-.
Qed.
Lemma keeps_power c m : keeps c (power_op m).
Proof.
  intros y a y' Hc E. unfold power_op in E. destruct (m _) as [[r [mm d]]| |]; [|done..]. by injection E as <- <-.
Qed.
Lemma keeps_entries c l : keeps c (print_entries l).
Proof.
  induction l as [|[name ino] l IH]; [apply keeps_ret|]. cbn [print_entries].
  apply keeps_bind; [apply keeps_puts|intros _]. apply keeps_bind; [apply keeps_dec|intros _]. by apply keeps_bind; [apply keeps_puts|intros _].
Qed.
End buffer.
Create HintDb keeps discriminated.
#[export] Hint Constants Opaque : keeps.
#[export] Hint Resolve keeps_ret keeps_puts keeps_dec keeps_say keeps_mount keeps_umount keeps_detach keeps_cwd keeps_resolve keeps_mounted
  keeps_launch keeps_power keeps_entries keeps_fs keeps_vol keeps_lift : keeps.
(** one step through a command *)
Ltac keeps_step :=
  match goal with
  | |- keeps _ (st_get ≫= _) => apply keeps_get; intros ? ?
  | |- keeps _ (_ ≫= _) => apply keeps_bind; [|intros ?]
  | |- keeps _ (st_modify _) => apply keeps_modify; done
  | |- keeps _ (st_put _) => apply keeps_put; done
  | |- keeps _ (let '(_, _) := ?x in _) => destruct x
  | |- keeps _ (if ?b then _ else _) => destruct b
  | |- keeps _ (match ?x with _ => _ end) => destruct x
  | |- keeps _ _ => solve [auto with keeps nocore]
  end.
Ltac keeps_all := repeat match goal with |- _ ∧ _ => split end; repeat keeps_step.
Section commands.
Context {D : Type} `{Ports D} (hello_bin demo_cnaf : list Z).
Implicit Types (y : ksys D) (c : list Z).
Local Ltac keeps_cmd := unfold mount_note, inquiry_cmd, atapi_read_cmd; unfold dev_op, putchar, puts_hex, is_atapi; cbv zeta; keeps_all.
Lemma keeps_resolution c p : keeps (D := D) c (resolution_cmd p).
Proof. unfold resolution_cmd. keeps_cmd. Qed.
Lemma keeps_mem c : keeps (D := D) c (mem_cmd).
Proof. unfold mem_cmd. keeps_cmd. Qed.
Lemma keeps_mkdisk c p : keeps (D := D) c (mkdisk_cmd p).
Proof. unfold mkdisk_cmd. keeps_cmd. Qed.
Lemma keeps_vol_cmd c : keeps (D := D) c (vol_cmd).
Proof. unfold vol_cmd. keeps_cmd. Qed.
Lemma keeps_mount_cmd c : keeps (D := D) c (mount_cmd).
Proof. unfold mount_cmd. keeps_cmd. Qed.
Lemma keeps_umount_cmd c : keeps (D := D) c (umount_cmd).
Proof. unfold umount_cmd. keeps_cmd. Qed.
Lemma keeps_detach_cmd c : keeps (D := D) c (detach_cmd).
Proof. unfold detach_cmd. keeps_cmd. Qed.
Lemma keeps_format c : keeps (D := D) c (format_cmd).
Proof. unfold format_cmd. keeps_cmd. Qed.
Lemma keeps_initdisk c : keeps (D := D) c (initdisk_cmd).
Proof. unfold initdisk_cmd. keeps_cmd. Qed.
Lemma keeps_cd c e p : keeps (D := D) c (cd_cmd e p).
Proof. unfold cd_cmd. keeps_cmd. Qed.
Lemma keeps_mkdir c p : keeps (D := D) c (mkdir_cmd p).
Proof. unfold mkdir_cmd. keeps_cmd. Qed.
Lemma keeps_ls c p : keeps (D := D) c (ls_cmd p).
Proof. unfold ls_cmd. keeps_cmd. Qed.
Lemma keeps_read c p : keeps (D := D) c (read_cmd p).
Proof. unfold read_cmd. keeps_cmd. Qed.
Lemma keeps_write c p : keeps (D := D) c (write_cmd p).
Proof. unfold write_cmd. keeps_cmd. Qed.
Lemma keeps_ide_line c d : keeps (D := D) c (ide_line d).
Proof. unfold ide_line. keeps_cmd. Qed.
Lemma keeps_sysinfo_drive c d : keeps (D := D) c (sysinfo_drive d).
Proof. unfold sysinfo_drive. keeps_cmd. Qed.
Hint Resolve keeps_ide_line keeps_sysinfo_drive : keeps.
Lemma keeps_ide c : keeps (D := D) c (ide_cmd).
Proof. unfold ide_cmd. keeps_cmd. Qed.
Lemma keeps_atapi c p : keeps (D := D) c (atapi_cmd p).
Proof. unfold atapi_cmd. keeps_cmd. all: unfold dev_op; keeps_all. Qed.
Lemma keeps_attach c p : keeps (D := D) c (attach_cmd p).
Proof. unfold attach_cmd. keeps_cmd. Qed.
Lemma keeps_lspci c : keeps (D := D) c (lspci_cmd).
Proof. unfold lspci_cmd. keeps_cmd. Qed.
Lemma keeps_sched_print_task_table c : keeps (D := D) c (sched_print_task_table).
Proof. unfold sched_print_task_table. keeps_cmd. Qed.
Lemma keeps_sysinfo_print c : keeps (D := D) c (sysinfo_print).
Proof. unfold sysinfo_print. keeps_cmd. Qed.
Lemma keeps_spawn c p : keeps (D := D) c (spawn_cmd p).
Proof. unfold spawn_cmd. keeps_cmd. Qed.
Lemma keeps_wait c p : keeps (D := D) c (wait_cmd p).
Proof. unfold wait_cmd. keeps_cmd. Qed.
Lemma keeps_hello c : keeps (D := D) c (hello_cmd hello_bin).
Proof. intros y a y'. apply keeps_launch. Qed.
Lemma keeps_cnrun c p : keeps (D := D) c (cnrun_cmd demo_cnaf p).
Proof.
  unfold cnrun_cmd. cbv zeta. destruct (skip_sp p); [intros y a y'; apply keeps_launch|]. repeat keeps_step. intros y1 a1 y2. apply keeps_launch.
Qed.
Lemma keeps_if {A} c (b : bool) (m1 m2 : st (ksys D) A) : keeps c m1 → keeps c m2 → keeps c (if b then m1 else m2).
Proof. by destruct b. Qed.
Lemma keeps_back {A} c (m : st (ksys D) A) : keeps c m → keeps c (_ ← m; mret Back).
Proof. intros Hm. apply keeps_bind; [done|intros; apply keeps_ret]. Qed.
Lemma keeps_said c t (m : st (ksys D) flow) : keeps c m → keeps c (_ ← puts t; m).
Proof. intros Hm. apply keeps_bind; [apply keeps_puts|done]. Qed.
Lemma keeps_clear c : keeps (D := D) c clear_screen.
Proof. by apply keeps_modify. Qed.
Lemma keeps_slime c : keeps (D := D) c slime_cmd.
Proof. apply keeps_say. Qed.
Lemma keeps_pwd c : keeps (D := D) c (y ← st_get; say (y_cwd y ++ [newline])).
Proof. apply keeps_get. intros. apply keeps_say. Qed.
Hint Resolve keeps_back keeps_said keeps_hello keeps_cnrun keeps_clear keeps_slime keeps_pwd
  keeps_resolution keeps_mem keeps_mkdisk keeps_vol_cmd keeps_mount_cmd keeps_umount_cmd keeps_detach_cmd keeps_format keeps_initdisk keeps_cd keeps_mkdir keeps_ls keeps_read keeps_write keeps_ide keeps_atapi keeps_attach keeps_lspci keeps_sched_print_task_table keeps_sysinfo_print keeps_spawn keeps_wait : keeps.
Lemma keeps_execute c cmd : keeps (D := D) c (shell_execute hello_bin demo_cnaf cmd).
Proof.
  unfold shell_execute. cbv zeta. destruct (skip_sp _); [apply keeps_ret|]. destruct (word 31 _) as [verb p]. unfold dispatch. cbv zeta.
  repeat (apply keeps_if; [solve [auto with keeps nocore]|]). apply keeps_say.
Qed.
End commands.

(** ** Theorems on the editor *)
(** the characters of [cmd_buffer] before [cmd_len]; the NUL is at [cmd_len] *)
Definition cmd_ok {D} (y : ksys D) : Prop := (length (y_cmd y) <= MAX_COMMAND_LEN - 1)%nat ∧ Forall is_print (y_cmd y).
Section editor.
Context {D : Type} `{Ports D} (hello_bin demo_cnaf : list Z).
Implicit Types (y : ksys D).
Lemma input_enter y fl y' : shell_handle_input hello_bin demo_cnaf newline y = Ret (fl, y') →
  match fl with Back => y_cmd y' = [] | _ => y_cmd y' = y_cmd y end.
Proof.
  intros E. unfold shell_handle_input in E. rewrite Z.eqb_refl in E. cbn [orb] in E.
  erewrite st_bind_step in E by reflexivity. erewrite st_bind_step in E by reflexivity. unfold mbind, st_mbind in E.
  destruct (shell_execute hello_bin demo_cnaf _ _) as [[fl1 y1]| |] eqn:E1; [|done..].
  apply (keeps_execute hello_bin demo_cnaf (y_cmd y)) in E1; [|done]. destruct fl1; by injection E as <- <-.
Qed.
End editor.

(** C29. The command buffer: whatever key arrives, the line stays within the
    512-byte buffer with room for its NUL and holds printable characters only,
    also while and after a command runs. *)
Theorem shell_input_bounds {D} `{Ports D} hello_bin demo_cnaf c (y y' : ksys D) fl : cmd_ok y →
  shell_handle_input hello_bin demo_cnaf c y = Ret (fl, y') → cmd_ok y'.
Proof.
  intros [Hl Hp] E. destruct ((c =? newline) || (c =? 13)) eqn:Hc.
  - assert (shell_handle_input hello_bin demo_cnaf newline y = Ret (fl, y')) as E1.
    { rewrite <-E. unfold shell_handle_input. by rewrite Hc. }
    apply input_enter in E1. unfold cmd_ok. destruct fl; rewrite E1; [split; [simpl; lia|done]|done..].
  - unfold shell_handle_input in E. rewrite Hc in E. destruct ((c =? backspace) || (c =? 127)).
    + erewrite st_bind_step in E by reflexivity. destruct (0 <? _)%nat; [|by injection E as <- <-]. injection E as <- <-. unfold cmd_ok. cbn [y_cmd emit set_con set_out set_cmd].
      split; [rewrite length_take; lia|by apply Forall_take].
    + erewrite st_bind_step in E by reflexivity. destruct (_ && _) eqn:Hb; [|by injection E as <- <-]. injection E as <- <-.
      unfold cmd_ok. cbn [y_cmd emit set_con set_out set_cmd]. apply andb_true_iff in Hb as [[Hb1%Nat.ltb_lt Hb2%Z.leb_le]%andb_true_iff Hb3%Z.ltb_lt].
      split; [rewrite length_app; cbn [length]; lia|]. apply Forall_app. split; [done|]. apply Forall_singleton. unfold is_print. lia.
Qed.
(** A program run from the shell leaves its command in the buffer: when a
    line makes the shell jump to ring 3, the buffer still holds the line, so
    that the next line typed (after the program has exited) is appended to it
    and the concatenation is what the shell executes. *)
Theorem shell_ring3_keeps_line {D} `{Ports D} hello_bin demo_cnaf (y y1 y2 : ksys D) rip rsp s : cmd_ok y →
  shell_handle_input hello_bin demo_cnaf newline y = Ret (Ring3 rip rsp, y1) →
  y_cmd y2 = y_cmd y1 → Forall is_print s → (length (y_cmd y) + length s <= MAX_COMMAND_LEN - 1)%nat →
  y_cmd y1 = y_cmd y ∧
  ∃ y3, y_cmd y3 = y_cmd y ++ s ∧ y_fs y3 = y_fs y2 ∧ y_out y3 = y_out y2 ++ s ∧
    type_keys hello_bin demo_cnaf (s ++ [newline]) y2 = type_keys hello_bin demo_cnaf [newline] y3 ∧
    ∀ y4, shell_execute hello_bin demo_cnaf (y_cmd y ++ s) (emit [newline] y3) = Ret (Back, y4) →
      type_keys hello_bin demo_cnaf (s ++ [newline]) y2 = Ret (Back, emit prompt (set_cmd y4 [])).
Proof.
  intros _ E E2 Hs Hl. apply input_enter in E. split; [done|]. rewrite E in E2. unfold MAX_COMMAND_LEN in Hl.
  exists (emit s (set_cmd y2 (y_cmd y2 ++ s))). cbn [y_cmd emit set_con set_out set_cmd]. rewrite E2. split; [done|]. split; [done|]. split; [done|].
  pose proof (type_text hello_bin demo_cnaf s [newline] y2 Hs ltac:(rewrite E2; lia)) as Et. rewrite E2 in Et. split; [exact Et|].
  intros y4 E4. rewrite Et. cbn [type_keys].
  by rewrite (st_bind_step _ _ _ _ _ (enter_line hello_bin demo_cnaf (emit s (set_cmd y2 (y_cmd y ++ s))) y4 E4)).
Qed.

(** ** Numbers and drives *)
Section numbers.
Lemma parse_digits_value ds : ∀ v, Forall is_digit ds → 0 <= v → foldl (λ v d, v * 10 + (d - 48)) v ds < 2 ^ 64 →
  parse_digits ds v = Some (foldl (λ v d, v * 10 + (d - 48)) v ds) ∧ v <= foldl (λ v d, v * 10 + (d - 48)) v ds.
Proof.
  unfold is_digit. induction ds as [|d ds IH]; intros v Hd Hv Hlt; [done|]. apply Forall_cons in Hd as [Hd Hds]. cbn [foldl parse_digits] in *.
  rewrite (proj2 (Z.ltb_ge d 48)), (proj2 (Z.ltb_ge 57 d)) by lia. cbn [orb].
  destruct (IH (v * 10 + (d - 48)) Hds ltac:(lia) Hlt) as [E Hle]. rewrite u64_small by lia. split; [done|lia].
Qed.
Lemma parse_no_space p v : ∀ a, parse_digits p a = Some v → skip_word p = [].
Proof.
  induction p as [|c p IH]; intros a E; [done|]. cbn [parse_digits skip_word] in *.
  destruct ((c <? 48) || (57 <? c)) eqn:Ec; [done|]. apply orb_false_iff in Ec as [Ec%Z.ltb_ge _].
  rewrite (proj2 (Z.eqb_neq c space)) by (unfold space; lia). by eapply IH.
Qed.
End numbers.

(** Numbers round trip between printing and parsing: for every 64-bit
    number, [puts_dec] prints at most 20 decimal digits, inside its buffer,
    and the shell's [parse_u64] reads them back as the number. *)
Theorem parse_puts_dec {D} (y : ksys D) n : 0 <= n < 2 ^ 64 →
  ∃ ds, puts_dec n y = Ret (tt, emit ds y) ∧ (1 <= length ds <= 20)%nat ∧ parse_u64 ds = Some n.
Proof.
  intros Hn. destruct (dec_text_spec n Hn) as (ds & E & Hd & Hl & Hv & _). exists ds. split; [unfold puts_dec; rewrite E; done|].
  split; [done|]. unfold dec_value in Hv. destruct (parse_digits_value ds 0 Hd ltac:(lia) ltac:(rewrite Hv; lia)) as [Ep _]. rewrite Hv in Ep. destruct ds; [simpl in Hl; lia|done].
Qed.
(** [atapi read] never reads a sector: for every argument the command
    prints its usage and does nothing else, because the drive number is parsed
    from the whole rest of the line, which the sector number follows. *)
Theorem atapi_read_only_usage {D} `{Ports D} p (y : ksys D) :
  atapi_read_cmd p y = Ret (Back, emit (line "atapi: usage atapi read <0|1> <lba>") y).
Proof.
  unfold atapi_read_cmd, parse_drive. destruct (parse_u64 p) as [d|] eqn:E; [|done]. case_if; [|done].
  assert (skip_word p = []) as ->; [|done]. destruct p as [|c p]; [done|]. by eapply parse_no_space.
Qed.

(** ** A session *)
Section parsing.
Lemma skip_sp_id p : hd 0 p ≠ space → skip_sp p = p.
Proof. destruct p as [|c p]; [done|]. simpl. intros Hc. by rewrite (proj2 (Z.eqb_neq c space)). Qed.
Lemma word_stop w r n : space ∉ w → (length w <= n)%nat → word n (w ++ space :: r) = (w, space :: r).
Proof.
  revert n. induction w as [|c w IH]; intros n Hw Hl; cbn [app length] in *; [by destruct n|]. destruct n as [|n]; [lia|].
  apply not_elem_of_cons in Hw as [Hc Hw]. cbn [word]. rewrite (proj2 (Z.eqb_neq c space)) by done. by rewrite IH by (done || lia).
Qed.
Lemma word_all w n : space ∉ w → (length w <= n)%nat → word n w = (w, []).
Proof.
  revert n. induction w as [|c w IH]; intros n Hw Hl; cbn [length] in *; [by destruct n|]. destruct n as [|n]; [lia|].
  apply not_elem_of_cons in Hw as [Hc Hw]. cbn [word]. rewrite (proj2 (Z.eqb_neq c space)) by done. by rewrite IH by (done || lia).
Qed.
Lemma hd_no_space w : w ≠ [] → space ∉ w → hd 0 w ≠ space.
Proof. intros Hn Hs. destruct w; [done|]. simpl. intros ->. set_solver. Qed.
End parsing.
Import Ext2.Ext2 Ext2Disk.Ext2Disk Ext2Spec.Ext2Spec Ext2Format.Ext2Format.
Section session.
Context {D : Type} `{Ports D} (hello_bin demo_cnaf : list Z).
Implicit Types (y : ksys D).
Notation shell_execute := (shell_execute hello_bin demo_cnaf).
Lemma exec_verb v p y : v ≠ [] → space ∉ v → (length v <= 31)%nat → (length (v ++ space :: p) <= 511)%nat → hd 0 p ≠ space →
  shell_execute (v ++ space :: p) y = dispatch hello_bin demo_cnaf v p (v ++ space :: p) y.
Proof.
  intros Hn Hs Hv Hl Hp. unfold Shell.shell_execute. rewrite take_ge by (unfold MAX_COMMAND_LEN; lia).
  rewrite skip_sp_id by (destruct v as [|c v]; [done|]; simpl; intros ->; set_solver). rewrite word_stop by done.
  cbn [skip_sp]. rewrite Z.eqb_refl, skip_sp_id by done. by destruct v.
Qed.
Lemma exec_verb0 v y : v ≠ [] → space ∉ v → (length v <= 31)%nat → shell_execute v y = dispatch hello_bin demo_cnaf v [] v y.
Proof.
  intros Hn Hs Hv. unfold Shell.shell_execute. rewrite take_ge by (unfold MAX_COMMAND_LEN; lia).
  rewrite skip_sp_id by (by apply hd_no_space). rewrite word_all by done. by destruct v.
Qed.
Lemma fs_op_step {A B} (m : fsys (vst D) → outcome (A * fsys (vst D))) (k : A → st (ksys D) B) y a f :
  m (y_fs y) = Ret (a, f) → (fs_op m ≫= k) y = k a (set_yfs y f).
Proof. intros E. apply st_bind_step. unfold fs_op. by rewrite E. Qed.
Lemma mount_step {B} (k : Z → st (ksys D) B) y : vol_attached (f_vol (y_fs y)) = true →
  (mount_root ≫= k) y = k VFS_ERR_NONE (set_yfs y (set_root (y_fs y) true VFS_FS_EXT2)).
Proof. intros E. apply st_bind_step. unfold mount_root, vfs_mount_root. by rewrite E. Qed.
Lemma resolve_root y name : y_cwd y = [slash] → vpath [name] → shell_resolve name 256 y = Ret (Some (join [name]), y).
Proof.
  intros Hc Hp. pose proof (norm_vpath [name] Hp) as En. pose proof (vp_len _ Hp) as Hl.
  assert (join [name] = slash :: name) as Ej by (unfold join, joined; simpl; by rewrite app_nil_r). rewrite Ej in En, Hl |- *.
  destruct (Forall_cons_1 _ _ _ (vp_ok _ Hp)) as [(Hn & _ & _ & Hs & _) _].
  unfold shell_resolve. erewrite st_bind_step by reflexivity. rewrite Hc. unfold vfs_resolve_path. destruct name as [|c name]; [done|].
  rewrite (proj2 (Z.eqb_neq c slash)) by (intros ->; set_solver). change (256 <? 2)%nat with false. cbn iota zeta.
  rewrite (proj2 (Nat.ltb_ge 512 _)) by (simpl in *; lia). rewrite str_eqb_refl. change (length [slash] =? 1)%nat with true. cbn [andb]. by rewrite En.
Qed.
Context (L : BlocksLaws (vst D)).
(** what a typed file name is *)
Record file_name (name : list Z) : Prop := {
  fnm_path : vpath [name];
  fnm_len : (length name <= 126)%nat;
  fnm_print : Forall is_print name;
  fnm_space : space ∉ name
}.
Lemma initdisk_run y n img : vol_rep (f_vol (y_fs y)) n img →
  ∃ y1 img1, shell_execute (str "initdisk") y = Ret (Back, y1) ∧ y_cmd y1 = y_cmd y ∧ y_cwd y1 = [slash] ∧ fs_on (y_fs y1) n img1 ∧ formatted n img1 ∧
    y_out y1 = y_out y ++ line "initdisk: volume formatted (ext2) and mounted; cwd=/".
Proof.
  intros Hr. rewrite exec_verb0; [|done|vm_compute; set_solver|simpl; lia].
  change (dispatch hello_bin demo_cnaf (str "initdisk") [] (str "initdisk")) with (initdisk_cmd (D := D)).
  unfold initdisk_cmd. erewrite st_bind_step by reflexivity. erewrite st_bind_step by reflexivity.
  set (y0 := set_yfs _ _). destruct (vfs_format_spec (y_fs y0) n img Hr) as (v & img1 & E & Hv & Hf).
  erewrite fs_op_step by exact E. cbn iota beta. rewrite mount_step by exact (rep_attached _ _ _ Hv).
  cbn [negb Z.eqb]. eexists _, img1. split; [reflexivity|]. split; [done|]. split; [done|]. split; [|split; [done|done]].
  split; [done|exact Hv|apply Hf].
Qed.
Definition write_line (name text : list Z) : list Z := str "write" ++ space :: name ++ space :: text.
Definition read_line (name : list Z) : list Z := str "read" ++ space :: name.
Lemma name_word name r : file_name name → word 127 (name ++ space :: r) = (name, space :: r).
Proof. intros [_ Hl _ Hs]. apply word_stop; [done|lia]. Qed.
Lemma name_hd name r : file_name name → hd 0 (name ++ r) ≠ space ∧ name ≠ [].
Proof.
  intros [Hp _ _ Hs]. destruct (Forall_cons_1 _ _ _ (vp_ok _ Hp)) as [(Hn & _) _]. destruct name as [|c name]; [done|].
  split; [|done]. simpl. intros ->. set_solver.
Qed.
Lemma write_run y n img name text : fs_on (y_fs y) n img → y_cwd y = [slash] → file_name name →
  hd 0 text ≠ space → bytes text → (length (write_line name text) <= 511)%nat →
  (∀ k, resolve img 2 [name] = Some k → is_dir_mode (inode img k) = false) → can_write n img [] name (Z.of_nat (length text)) →
  ∃ y1 img1, shell_execute (write_line name text) y = Ret (Back, y1) ∧ y_cmd y1 = y_cmd y ∧ y_cwd y1 = [slash] ∧ fs_on (y_fs y1) n img1 ∧
    file_at img1 [name] = Some text ∧ y_out y1 = y_out y ++ line "write: ok".
Proof.
  intros Hf Hcwd Hn Ht Hby Hl Hnd Hcan. destruct (name_hd name (space :: text) Hn) as [Hh Hne].
  unfold write_line in *. rewrite exec_verb; [|done|vm_compute; set_solver|simpl; lia|done|done].
  change (dispatch hello_bin demo_cnaf (str "write") ?p ?c) with (write_cmd (D := D) p).
  unfold write_cmd. rewrite skip_sp_id, name_word by done. cbn [skip_sp]. rewrite Z.eqb_refl, skip_sp_id by done.
  destruct name as [|c0 name0] eqn:En; [done|]. rewrite <-En in *.
  rewrite (st_bind_step _ _ _ _ _ (resolve_root y name Hcwd (fnm_path _ Hn))).
  destruct (vfs_write_spec (y_fs y) n img [] name text Hf (fnm_path _ Hn) (fnm_len _ Hn) Hby) as (f1 & img1 & E & Hf1 & Hd & _);
    [rewrite !length_app in Hl; cbn [length] in Hl; rewrite !length_app in Hl; cbn [length] in Hl; lia|done|done|].
  erewrite fs_op_step by exact E. eexists _, img1. split; [reflexivity|]. done.
Qed.
Lemma read_run y n img name text : fs_on (y_fs y) n img → y_cwd y = [slash] → file_name name →
  file_at img [name] = Some text → Forall is_print text → Z.of_nat (length text) <= 4096 →
  ∃ y1, shell_execute (read_line name) y = Ret (Back, y1) ∧ y_cmd y1 = y_cmd y ∧ y_cwd y1 = [slash] ∧ fs_on (y_fs y1) n img ∧
    y_out y1 = y_out y ++ text ++ [newline].
Proof.
  intros Hf Hcwd Hn Hd Hp Hl. destruct (name_hd name [] Hn) as [Hh Hne]. rewrite app_nil_r in Hh. pose proof (fnm_len _ Hn) as Hnl.
  unfold read_line in *. rewrite exec_verb; [|done|vm_compute; set_solver|simpl; lia|simpl; lia|done].
  change (dispatch hello_bin demo_cnaf (str "read") ?p ?c) with (read_cmd (D := D) p).
  unfold read_cmd. rewrite skip_sp_id by done. destruct name as [|c0 name0] eqn:En; [done|]. rewrite <-En in *. rewrite word_all by (apply Hn || lia).
  rewrite (st_bind_step _ _ _ _ _ (resolve_root y name Hcwd (fnm_path _ Hn))).
  destruct (vfs_read_spec (y_fs y) n img [name] 0 4096 Hf (fnm_path _ Hn) ltac:(lia) ltac:(lia)) as (v & E & Hf1).
  rewrite Hd, drop_0, take_ge in E by lia. erewrite fs_op_step by exact E.
  assert (((λ c, if printable c then c else 46) <$> text) = text) as Em.
  { clear -Hp. induction Hp as [|c text Hc _ IH]; [done|]. cbn. unfold is_print in Hc. unfold printable at 1.
    rewrite (proj2 (Z.leb_le 32 c)), (proj2 (Z.ltb_lt c 127)) by lia. cbn [andb]. by f_equal. }
  eexists. split; [reflexivity|]. split; [done|]. split; [done|]. split; [done|]. cbn [y_out emit set_con set_out]. by rewrite Em.
Qed.
Definition echo (s out : list Z) : list Z := (s ++ [newline]) ++ out ++ prompt.
Lemma print_bytes text : Forall is_print text → bytes text.
Proof. intros Ht. eapply Forall_impl; [exact Ht|]. intros c. unfold is_print, is_byte. lia. Qed.
End session.

(** ** A session on an IDE disk *)
Section ide_session.
Context {D : Type} `{AtaLaws D} (hello_bin demo_cnaf : list Z).
Implicit Types (y : ksys D).
Definition attach_line (drive : Z) : list Z := str "attach ide " ++ [48 + drive].
Lemma attach_run y a drive : ata_rep (v_dev (f_vol (y_fs y))) a → disk_ok a → Disks.Disks.drive_ok a drive → g_ram_npages (f_vol (y_fs y)) = 0 →
  ∃ y1, shell_execute hello_bin demo_cnaf (attach_line drive) y = Ret (Back, y1) ∧
    ide_rep (f_vol (y_fs y1)) (Z.min 8192 (a_size a drive / 2)) (λ b, a_disk a drive (2 * b) ++ a_disk a drive (2 * b + 1)) ∧
    y_out y1 = y_out y ++ line "attach: IDE volume ready, VFS mounted".
Proof.
  intros Ha Hok [Hd Hsz Hl Hid] Hram. destruct (attach_ide_spec _ a drive Ha Hok Hd Hsz Hl Hid Hram) as (v & E & Hv & _).
  assert (shell_execute hello_bin demo_cnaf (attach_line drive) y = attach_cmd (str "ide " ++ [48 + drive]) y) as ->.
  { assert (drive = 0 ∨ drive = 1) as [->| ->] by lia; reflexivity. }
  assert (attach_cmd (str "ide " ++ [48 + drive]) y = (r ← vol_op (chaseros_vol_attach_ide drive);
      match r with
      | None => say (line "attach: IDE failed (no disk or size too small)")
      | Some _ => _ ← shell_cwd_reset; _ ← puts (str "attach: IDE volume ready"); mount_note
      end) y) as ->.
  { assert (drive = 0 ∨ drive = 1) as [->| ->] by lia; reflexivity. }
  erewrite st_bind_step by (unfold vol_op; rewrite E; reflexivity). cbn iota beta. erewrite st_bind_step by reflexivity. erewrite st_bind_step by reflexivity.
  unfold mount_note. rewrite mount_step by exact (rep_attached (BlocksLaws := ide_laws) v _ _ Hv).
  eexists. split; [reflexivity|]. split; [exact Hv|]. cbn. by rewrite <-!app_assoc.
Qed.
(** the keys of a session and what the console shows *)
Definition session_keys (drive : Z) (name text : list Z) : list Z :=
  (attach_line drive ++ [newline]) ++ (str "initdisk" ++ [newline]) ++ (write_line name text ++ [newline]) ++ (read_line name ++ [newline]).
Definition session_text (drive : Z) (name text : list Z) : list Z :=
  echo (attach_line drive) (line "attach: IDE volume ready, VFS mounted") ++
  echo (str "initdisk") (line "initdisk: volume formatted (ext2) and mounted; cwd=/") ++
  echo (write_line name text) (line "write: ok") ++
  echo (read_line name) (text ++ [newline]).
End ide_session.

(** ** Witnesses: a machine with the simulated disk *)
Definition sim_kernel (cmd : list Z) : ksys ata :=
  Ksys (Usys Disks.Disks.sim_fsys (Kst (v_vm ram_disk) exec_procs 0 3 2 0) 0) [] 0 []
    (Con 0 false true (Multiboot.Mb.Vbe 0 0 0 0 0) 0 0 1 0 0 (VgaSt (λ _, 0) 0 0 (λ _, 0)) []) cmd [slash].
Lemma shell_input_bounds_witness : ∃ y' : ksys ata, shell_handle_input [] [] 97 (sim_kernel (str "ls")) = Ret (Back, y') ∧ cmd_ok y'.
Proof.
  eexists. split; [reflexivity|]. apply (shell_input_bounds [] [] 97 (sim_kernel (str "ls")) _ Back); [|reflexivity].
  split; [simpl; lia|repeat constructor; done].
Defined.
Lemma shell_ring3_keeps_line_witness : ∃ (y1 y3 : ksys ata) rip rsp,
  shell_handle_input Loader.Loader.demo_elf [] newline (sim_kernel (str "hello")) = Ret (Ring3 rip rsp, y1) ∧
  type_keys Loader.Loader.demo_elf [] (str "ls" ++ [newline]) y1 = type_keys Loader.Loader.demo_elf [] [newline] y3 ∧ y_cmd y3 = str "hellols".
Proof.
  pose proof (eq_refl : match shell_handle_input Loader.Loader.demo_elf [] newline (sim_kernel (str "hello")) with Ret (Ring3 _ _, _) => true | _ => false end = true) as Er.
  destruct (shell_handle_input Loader.Loader.demo_elf [] newline (sim_kernel (str "hello"))) as [[[|rip rsp|] y1]| |] eqn:E; [discriminate Er| |discriminate Er..].
  destruct (shell_ring3_keeps_line Loader.Loader.demo_elf [] (sim_kernel (str "hello")) y1 y1 rip rsp (str "ls")) as [_ (y3 & E3 & _ & _ & Et & _)].
  - split; [simpl; lia|repeat constructor; done].
  - exact E.
  - done.
  - repeat constructor; done.
  - simpl; lia.
  - exists y1, y3, rip, rsp. split; [reflexivity|]. split; [exact Et|exact E3].
Defined.
Lemma parse_puts_dec_witness : ∃ ds, puts_dec 4096 (sim_kernel []) = Ret (tt, emit ds (sim_kernel [])) ∧ (1 <= length ds <= 20)%nat ∧ parse_u64 ds = Some 4096.
Proof. apply (parse_puts_dec (sim_kernel []) 4096). lia. Defined.
End Shell.
