(* ===== verification/Isr.v ===== *)
(** Interrupts and system calls (kernel/isr.c, chaseros_user_jump_ring3 of
    kernel/user.c).  [isr_handler] is what the stubs of interrupts.asm call
    with the pushed registers: exceptions stop the machine, the keyboard
    interrupt feeds the shell, the timer interrupt runs the scheduler and
    vector 0x80 is the system call.  The result is the frame that the stub
    restores, a jump to ring 3 or a halt ([after]).  A context switch returns
    to the interrupted task at once: which task runs is [current_task_idx] of
    the state, and what other tasks do meanwhile is [irq], the interrupts that
    arrive while a system call waits with [sti; hlt].
    Theorems: what the handler does for the number that each stub leaves in the
    frame, the system call vector included, whose number the handler does not
    recognise.  For the number 128 itself, which the C code expects: system
    calls from ring 0 to 2 and unknown numbers are refused without any effect,
    [write] prints exactly the bytes of the user's buffer, and a call that
    returns changes no register but RAX except [exec] and [exit].  A hardware
    interrupt that returns is acknowledged; a message survives the copy out to
    user memory and back. *)
From stdpp Require Import base numbers list sets strings.
From S2P Require Import Prelude Bitmap Memory Multiboot Io Console Pmm Vmm Process Ipc Path Vol Ide Ext2 Ext2Disk Ext2Spec Ext2Format Vfs Disks UserFd HybridIpc Loader Package Cndyn UserExec Kernel Shell.
Open Scope Z_scope.

Module Isr.
Import Ide.Ide Console.Vga Console.Console Console.Print Path.Path Vol.Vol Vfs.Vfs UserFd.UserFd Vmm.Vmm Process.Process Ipc.Ipc HybridIpc.HybridIpc Cndyn.Cndyn UserExec.UserExec Kernel.Kernel Shell.Shell.
Definition EPERM := 1.
Definition ENOSYS := 38.
Definition CHASEROS_SYS_EXIT := 0.
Definition CHASEROS_SYS_WRITE := 1.
Definition CHASEROS_SYS_GETPID := 2.
Definition CHASEROS_SYS_READ := 3.
Definition CHASEROS_SYS_UPTIME_TICKS := 4.
Definition CHASEROS_SYS_OPEN := 5.
Definition CHASEROS_SYS_CLOSE := 6.
Definition CHASEROS_SYS_IPC_SEND := 7.
Definition CHASEROS_SYS_IPC_RECV := 8.
Definition CHASEROS_SYS_IPC_REPLY := 9.
Definition CHASEROS_SYS_IPC_CALL := 10.
Definition CHASEROS_SYS_DLOPEN := 11.
Definition CHASEROS_SYS_DLSYM := 12.
Definition CHASEROS_SYS_DLCLOSE := 13.
Definition CHASEROS_SYS_SPAWN := 14.
Definition CHASEROS_SYS_EXEC := 15.
Definition CHASEROS_SYS_WAITPID := 16.
Definition CHASEROS_SYS__EXIT := 17.
Definition CHASEROS_SYS_FORK := 18.
(** set 1 scan codes without modifiers *)
Definition scancode_ascii : list Z :=
  [0; 27; 49; 50; 51; 52; 53; 54; 55; 56; 57; 48; 45; 61; 8;
   9; 113; 119; 101; 114; 116; 121; 117; 105; 111; 112; 91; 93; 10;
   0; 97; 115; 100; 102; 103; 104; 106; 107; 108; 59; 39; 96; 0; 92;
   122; 120; 99; 118; 98; 110; 109; 44; 46; 47; 0; 42; 0; 32].

(** ** Messages in user memory *)
Definition sizeof_message : nat := 64.
Definition message_bytes (m : message_t) : list Z := le_of 8 (sender m) ++ le_of 8 (mtype m) ++ payload m.
Definition message_of (l : list Z) : message_t := Msg (le_to (slice l 0 8)) (le_to (slice l 8 8)) (slice l 16 MAX_MSG_PAYLOAD).
(** [p[i]] for [i] from 0 *)
Definition user_bytes (m : mem) (a : Z) (n : nat) : list Z := (λ i, m (u64 (a + Z.of_nat i))) <$> seq 0 n.
Definition user_copy_message_in (m : mem) (user_va : Z) : message_t := message_of (user_bytes m user_va sizeof_message).
Definition user_copy_message_out (msg : message_t) (user_va : Z) (m : mem) : mem :=
  foldl (λ m i, mwrite m (u64 (user_va + Z.of_nat i)) [nth i (message_bytes msg) 0]) m (seq 0 sizeof_message).

(** what the interrupt stub does next *)
Inductive after := Resume (regs : registers) | JumpRing3 (frame : list Z) | Stopped.

Section isr.
Context {D : Type} `{Ports D}.
Notation ksys := (ksys D).
(** the embedded programs; interrupts during a wait and their number; the
    address of [userland_exit_done]; the register CR2 *)
Context (hello_bin demo_cnaf : list Z) (irq : ksys → outcome ksys) (fuel : nat) (exit_done cr2 : Z).
Definition syscall_ret (value : Z) (regs : registers) : registers := set_rax (u64 value) regs.

(** ** Lifting *)
Definition kern_op {A} (m : kst → outcome (A * kst)) : st ksys A := λ y, '(a, k) ← m (kget y); Ret (a, kput y k).
Definition user_op {A} (m : usys (vst D) → outcome (A * usys (vst D))) : st ksys A := λ y,
  '(a, u) ← m (y_user y); Ret (a, set_user y u).
Definition put_mem (m : mem) (y : ksys) : ksys := set_yfs y (set_fvm (y_fs y) (set_mem (y_vm y) m)).
Definition readable (a len : Z) : st ksys bool := λ y, ok ← vmm_user_range_readable range_fuel (y_vm y) a len; Ret (ok, y).
Definition writable (a len : Z) : st ksys bool := λ y, ok ← vmm_user_range_writable range_fuel (y_vm y) a len; Ret (ok, y).
Definition message_in (a : Z) : st ksys message_t := λ y, Ret (user_copy_message_in (vm_mem (y_vm y)) a, y).
Definition message_out (msg : message_t) (a : Z) : st ksys unit := st_modify (λ y, put_mem (user_copy_message_out msg a (vm_mem (y_vm y))) y).

(** ** System calls *)
Fixpoint write_loop (a : Z) (i n : nat) : st ksys unit :=
  match n with
  | O => mret tt
  | S n => y ← st_get; _ ← putchar (vm_mem (y_vm y) (u64 (a + Z.of_nat i))); write_loop a (i + 1) n
  end.
Definition sys_write (rdi buf_addr len : Z) : st ksys Z :=
  let fd := i32 rdi in
  if negb (fd =? 1) && negb (fd =? 2) then mret (- EBADF)
  else if len =? 0 then mret 0
  else if CHASEROS_SYSCALL_MAX_IO_BYTES <? len then mret (- EINVAL)
  else
    ok ← readable buf_addr len;
    if negb ok then mret (- EFAULT)
    else _ ← write_loop buf_addr 0 (Z.to_nat len); mret len.
Definition sys_read (rdi buf_addr len : Z) : st ksys Z :=
  let fd := i32 rdi in
  if fd =? 0 then
    if len =? 0 then mret 0
    else if CHASEROS_SYSCALL_MAX_IO_BYTES <? len then mret (- EINVAL)
    else ok ← writable buf_addr len; mret (if negb ok then - EFAULT else 0)
  else if (fd =? 1) || (fd =? 2) then mret (- EBADF)
  else if 3 <=? fd then fs_op (user_fd_sys_read fd buf_addr len)
  else mret (- EBADF).
(** built with CHASEROS_HYBRID_FS_VIA_IPC: the service opens the file *)
Definition sys_open (path_ptr flags : Z) : st ksys Z :=
  user_fd_sys_open y_fs (λ path flags y, hybrid_user_fd_open_via_ipc irq fuel y path flags) path_ptr (i32 flags).
Definition sys_ipc_send (dest_pid msg_uva : Z) : st ksys Z :=
  ok ← readable msg_uva (Z.of_nat sizeof_message);
  if negb ok then mret (- EFAULT)
  else
    m ← message_in msg_uva;
    r ← kern_op (λ k, ipc_send fuel k dest_pid (Some m));
    mret (if r =? IPC_OK then 0 else - EINVAL).
Definition sys_ipc_recv (src_pid msg_uva : Z) : st ksys Z :=
  ok ← writable msg_uva (Z.of_nat sizeof_message);
  if negb ok then mret (- EFAULT)
  else
    m ← (λ y, ipc_receive irq fuel y src_pid);
    _ ← message_out m msg_uva;
    mret 0.
Definition sys_ipc_reply (dest_pid msg_uva : Z) : st ksys Z :=
  ok ← readable msg_uva (Z.of_nat sizeof_message);
  if negb ok then mret (- EFAULT)
  else
    m ← message_in msg_uva;
    r ← kern_op (λ k, Ret (ipc_reply k dest_pid (Some m)));
    mret (if r =? IPC_OK then 0 else - EINVAL).
Definition sys_ipc_call (dest_pid req_u rep_u : Z) : st ksys Z :=
  ok1 ← readable req_u (Z.of_nat sizeof_message);
  ok ← (if (ok1 : bool) then writable rep_u (Z.of_nat sizeof_message) else mret false);
  if negb ok then mret (- EFAULT)
  else
    req ← message_in req_u;
    r ← kern_op (λ k, ipc_send fuel k dest_pid (Some req));
    if negb (r =? IPC_OK) then mret (- EINVAL)
    else
      y ← st_get;
      let cur := process_current_task_for_ipc (kget y) in
      y ← st_lift (ipc_wait_until_pending irq fuel y cur);
      _ ← st_put y;
      rep ← kern_op (λ k, Ret (ipc_consume_pending_message k cur));
      _ ← message_out rep rep_u;
      mret 0.
Definition sys_dlopen (user_path_ptr mode : Z) : st ksys Z := λ y,
  let '(r, libs) := cndyn_dlopen (vm_mem (y_vm y)) user_path_ptr mode (y_libs y) in Ret (r, set_libs y libs).
Definition sys_dlsym (handle user_symbol_ptr : Z) : st ksys Z := λ y, r ← cndyn_dlsym (y_libs y) handle user_symbol_ptr; Ret (r, y).
Definition sys_dlclose (handle : Z) : st ksys Z := λ y, '(r, libs) ← cndyn_dlclose handle (y_libs y); Ret (r, set_libs y libs).
(** a call that may replace the frame *)
Definition framed_call (m : registers → usys (vst D) → outcome (Z * registers * usys (vst D))) (regs : registers) : st ksys registers :=
  '(v, regs) ← user_op (m regs); mret (syscall_ret v regs).
Definition syscall (regs : registers) : st ksys registers :=
  let nr := r_rax regs in
  let '(rdi, rsi, rdx) := (r_rdi regs, r_rsi regs, r_rdx regs) in
  let ret (m : st ksys Z) : st ksys registers := v ← m; mret (syscall_ret v regs) in
  if nr =? CHASEROS_SYS_EXIT then framed_call (user_sys__exit exit_done (i64 rdi)) regs
  else if nr =? CHASEROS_SYS_WRITE then ret (sys_write rdi rsi rdx)
  else if nr =? CHASEROS_SYS_GETPID then ret (λ y, Ret (i64 (active_user_pid (kget y)), y))
  else if nr =? CHASEROS_SYS_UPTIME_TICKS then ret (λ y, Ret (i64 (y_ticks y), y))
  else if nr =? CHASEROS_SYS_READ then ret (sys_read rdi rsi rdx)
  else if nr =? CHASEROS_SYS_OPEN then ret (sys_open rdi rsi)
  else if nr =? CHASEROS_SYS_CLOSE then ret (fs_op (user_fd_sys_close (i32 rdi)))
  else if nr =? CHASEROS_SYS_IPC_SEND then ret (sys_ipc_send rdi rsi)
  else if nr =? CHASEROS_SYS_IPC_RECV then ret (sys_ipc_recv rdi rsi)
  else if nr =? CHASEROS_SYS_IPC_REPLY then ret (sys_ipc_reply rdi rsi)
  else if nr =? CHASEROS_SYS_IPC_CALL then ret (sys_ipc_call rdi rsi rdx)
  else if nr =? CHASEROS_SYS_DLOPEN then ret (sys_dlopen rdi rsi)
  else if nr =? CHASEROS_SYS_DLSYM then ret (sys_dlsym rdi rsi)
  else if nr =? CHASEROS_SYS_DLCLOSE then ret (sys_dlclose rdi)
  else if nr =? CHASEROS_SYS_SPAWN then ret (user_op (user_sys_spawn rdi))
  else if nr =? CHASEROS_SYS_EXEC then framed_call (user_sys_exec rdi) regs
  else if nr =? CHASEROS_SYS_WAITPID then ret (user_op (user_sys_waitpid fuel (i64 rdi) rsi))
  else if nr =? CHASEROS_SYS__EXIT then framed_call (user_sys__exit exit_done (i64 rdi)) regs
  else if nr =? CHASEROS_SYS_FORK then ret (user_op (λ u, Ret (user_sys_fork regs u)))
  else mret (syscall_ret (- ENOSYS) regs).

(** ** Interrupts *)
Definition out_port (port v : Z) : st ksys unit := _ ← dev_op (Io.Io.out_b port v); mret tt.
Definition in_port (port : Z) : st ksys Z := r ← dev_op (Io.Io.in_b port); mret (default 0 r).
(** the interrupt is acknowledged, then iretq pops RIP, CS, RFLAGS, RSP, SS *)
Definition chaseros_user_jump_ring3 (rip rsp : Z) : st ksys after :=
  _ ← out_port 0x20 0x20; mret (JumpRing3 [rip; 0x1B; 0x2; rsp; 0x23]).
(** where [exit] resumes: the prompt, then a [hlt] loop that interrupts leave *)
Definition userland_exit_done : st ksys unit := puts (newline :: line "[user] exited." ++ prompt).
Definition exception (regs : registers) : st ksys after :=
  _ ← puts (newline :: line "!!! CPU EXCEPTION !!!");
  _ ← puts (str "Exception Number: ");
  _ ← putchar (hex_digit (r_int_no regs / 16));
  _ ← putchar (hex_digit (r_int_no regs mod 16));
  _ ← puts (newline :: str "Error Code: ");
  _ ← puts_hex (r_err_code regs);
  _ ← puts (newline :: str "RIP: ");
  _ ← puts_hex (r_rip regs);
  _ ← puts (newline :: str "CS: ");
  _ ← puts_hex (r_cs regs);
  let stop := _ ← puts (newline :: line "Stopping system..."); mret Stopped in
  if r_int_no regs =? 14 then
    if vmm_try_handle_cow_fault cr2 (r_err_code regs) =? 0 then mret (Resume regs)
    else
      _ ← puts (newline :: str "CR2 (fault VA): ");
      _ ← puts_hex cr2;
      stop
  else stop.
Definition keyboard : st ksys flow :=
  scancode ← in_port 0x60;
  if scancode <? 0x80 then
    if scancode <? Z.of_nat (length scancode_ascii) then
      let c := nth (Z.to_nat scancode) scancode_ascii 0 in
      if negb (c =? 0) then shell_handle_input hello_bin demo_cnaf c else mret Back
    else mret Back
  else mret Back.
Definition eoi (int_no : Z) : st ksys unit :=
  _ ← (if 40 <=? int_no then out_port 0xA0 0x20 else mret tt);
  out_port 0x20 0x20.
Definition timer : st ksys unit :=
  _ ← st_modify (λ y, set_ticks y (u64 (y_ticks y + 1)));
  kern_op (λ k, k ← sched_on_timer_tick k; Ret (tt, k)).
Definition hardware (regs : registers) : st ksys after :=
  let n := r_int_no regs in
  fl ← (if n =? 32 then _ ← timer; mret Back
        else if n =? 33 then keyboard
        else if n =? 44 then _ ← in_port 0x60; mret Back
        else mret Back);
  match fl with
  | Back => _ ← eoi n; mret (Resume regs)
  | Ring3 rip rsp => chaseros_user_jump_ring3 rip rsp
  | Halted => mret Stopped
  end.
Definition isr_handler (regs : registers) : st ksys after :=
  let n := r_int_no regs in
  if n <? 32 then exception regs
  else if (32 <=? n) && (n <=? 47) then hardware regs
  else if n =? 128 then
    if negb (Z.land (r_cs regs) 3 =? 3) then
      _ ← puts (newline :: str "[System call from kernel CPL0/CPL1/CPL2 " ++ [0xE2; 0x80; 0x94] ++ line " denied]");
      mret (Resume (syscall_ret (- EPERM) regs))
    else r ← syscall regs; mret (Resume r)
  else mret (Resume regs).
End isr.

(** ** Messages *)
Record message_ok (m : message_t) : Prop := {
  mo_sender : 0 <= sender m < 2 ^ 64;
  mo_type : 0 <= mtype m < 2 ^ 64;
  mo_len : length (payload m) = MAX_MSG_PAYLOAD
}.
Lemma message_of_bytes m : message_ok m → message_of (message_bytes m) = m.
Proof.
  intros [Hs Ht Hl]. unfold message_of, message_bytes, slice. rewrite drop_0, (take_app_length' (le_of 8 _)) by (by rewrite length_le_of).
  rewrite (drop_app_length' (le_of 8 _)) by (by rewrite length_le_of). rewrite (take_app_length' (le_of 8 _)) by (by rewrite length_le_of).
  rewrite !le_to_of by done. rewrite app_assoc, drop_app_length' by (by rewrite length_app, !length_le_of). rewrite take_ge by lia. by destruct m.
Qed.
Lemma length_message_bytes m : length (payload m) = MAX_MSG_PAYLOAD → length (message_bytes m) = sizeof_message.
Proof. intros Hl. unfold message_bytes. rewrite !length_app, !length_le_of, Hl. done. Qed.
Lemma user_bytes_mread m a n : 0 <= a → a + Z.of_nat n <= 2 ^ 64 → user_bytes m a n = mread m a n.
Proof.
  intros Ha Hn. unfold user_bytes, mread. apply list_fmap_ext. intros i j Hj. apply lookup_seq in Hj as [-> Hi]. simpl. by rewrite u64_small by lia.
Qed.
Lemma copy_out_spec msg a m n x : 0 <= a → a + Z.of_nat n <= 2 ^ 64 →
  foldl (λ m i, mwrite m (u64 (a + Z.of_nat i)) [nth i (message_bytes msg) 0]) m (seq 0 n) x =
  if (a <=? x) && (x <? a + Z.of_nat n) then nth (Z.to_nat (x - a)) (message_bytes msg) 0 else m x.
Proof.
  intros Ha. revert x. induction n as [|n IH]; intros x Hn.
  { simpl. destruct (Z.leb_spec a x), (Z.ltb_spec x (a + Z.of_nat 0)); try lia; done. }
  rewrite seq_S, foldl_app. cbn [foldl]. rewrite u64_small by lia. cbn [Nat.add]. destruct (decide (x = a + Z.of_nat n)) as [->|Hx].
  - rewrite mwrite_in by (simpl; lia). rewrite Z.sub_diag. cbn [Z.to_nat nth].
    rewrite (proj2 (Z.leb_le _ _)), (proj2 (Z.ltb_lt _ _)) by lia. cbn [andb]. do 2 f_equal. lia.
  - rewrite mwrite_out by (simpl; lia). rewrite IH by lia. destruct (Z.leb_spec a x), (Z.ltb_spec x (a + Z.of_nat n)), (Z.ltb_spec x (a + Z.of_nat (S n))); try lia; done.
Qed.

(** A message that [ipc_receive] delivers to user memory and that the
    program passes back is the same message: copying a message out to a
    64-byte buffer and in again returns its sender, type and payload, and the
    copy writes no byte outside the buffer. *)
Theorem user_message_roundtrip msg a m : message_ok msg → 0 <= a → a + Z.of_nat sizeof_message <= 2 ^ 64 →
  user_copy_message_in (user_copy_message_out msg a m) a = msg ∧
  ∀ x, x < a ∨ a + Z.of_nat sizeof_message <= x → user_copy_message_out msg a m x = m x.
Proof.
  intros Hm Ha Hl. split.
  - unfold user_copy_message_in. rewrite user_bytes_mread by done. rewrite <-(message_of_bytes msg Hm) at 2. f_equal.
    apply list_eq. intros i. pose proof (length_message_bytes msg (mo_len _ Hm)) as Hb.
    destruct (decide (i < sizeof_message)%nat) as [Hi|Hi].
    + rewrite lookup_mread by done. unfold user_copy_message_out. rewrite copy_out_spec by done.
      rewrite (proj2 (Z.leb_le _ _)), (proj2 (Z.ltb_lt _ _)) by lia. cbn [andb]. replace (Z.to_nat (a + Z.of_nat i - a)) with i by lia.
      destruct (lookup_lt_is_Some_2 (message_bytes msg) i) as [b Eb]; [lia|]. by rewrite Eb, (nth_lookup_Some _ _ _ _ Eb).
    + rewrite !lookup_ge_None_2; [done|lia|]. rewrite length_mread. lia.
  - intros x Hx. unfold user_copy_message_out. rewrite copy_out_spec by done.
    destruct (Z.leb_spec a x), (Z.ltb_spec x (a + Z.of_nat sizeof_message)); try lia; done.
Qed.
Lemma user_message_roundtrip_witness : user_copy_message_in (user_copy_message_out (Msg 3 11 (replicate 48 7)) 0x400000 (λ _, 0)) 0x400000 = Msg 3 11 (replicate 48 7).
Proof. apply (user_message_roundtrip (Msg 3 11 (replicate 48 7)) 0x400000 (λ _, 0)); [split; cbn; done || lia|lia|unfold sizeof_message; lia]. Defined.

(** ** System calls *)
Section calls.
Context {D : Type} `{Ports D}.
Implicit Types (y : ksys D) (regs : registers).
Lemma st_ret_inv {S A B} (m : st S A) (f : A → B) s b s' : (v ← m; mret (f v)) s = Ret (b, s') → ∃ v, m s = Ret (v, s') ∧ b = f v.
Proof. unfold mbind, st_mbind. destruct (m s) as [[v s1]| |]; [|done..]. intros E. injection E as <- <-. eauto. Qed.
(** RAX holds the result, the rest of the frame is as before *)
Definition only_rax regs regs' : Prop := ∃ v, 0 <= v < 2 ^ 64 ∧ regs' = set_rax v regs.
Lemma nr_above r n : CHASEROS_SYS_FORK < r → 0 <= n <= CHASEROS_SYS_FORK → (r =? n) = false.
Proof. intros Hr Hn. apply Z.eqb_neq. lia. Qed.
Lemma call_frame (m : st (ksys D) Z) regs y regs' y' : (v ← m; mret (syscall_ret v regs)) y = Ret (regs', y') → only_rax regs regs'.
Proof. intros E. apply st_ret_inv in E as (v & _ & ->). exists (u64 v). split; [apply u64_range|done]. Qed.
Definition exec_frame regs regs' : Prop :=
  ∃ entry, regs' = set_rax 0 (set_iret entry (r_cs regs) (r_rflags regs) USER_EXEC_STACK_TOP (r_ss regs) regs).
Definition exit_frame exit_done regs regs' : Prop :=
  ∃ stk, regs' = set_rax 0 (set_iret exit_done 0x08 0x202 (u64 (stk + 4096)) 0x10 regs).
Lemma framed_inv m regs y regs' y' : framed_call m regs y = Ret (regs', y') →
  ∃ v r u, m regs (y_user y) = Ret (v, r, u) ∧ regs' = syscall_ret v r.
Proof.
  unfold framed_call, user_op. unfold mbind at 1, st_mbind. destruct (m regs (y_user y)) as [[[v r] u]| |]; [|done..].
  intros E. injection E as <- _. eauto.
Qed.
Lemma exit_call exit_done code regs y regs' y' :
  framed_call (user_sys__exit exit_done code) regs y = Ret (regs', y') → exit_frame exit_done regs regs'.
Proof.
  intros E. apply framed_inv in E as (v & r & u & E & ->). apply outcome_bind_Ret in E as ([r1 u1] & E & Er). injection Er as <- <- <-.
  apply outcome_bind_Ret in E as (u2 & _ & Eu). injection Eu as <- _. by exists (exit_stk u2).
Qed.
Lemma exec_call path regs y regs' y' :
  framed_call (user_sys_exec path) regs y = Ret (regs', y') → only_rax regs regs' ∨ exec_frame regs regs'.
Proof.
  intros E. apply framed_inv in E as (v & r & u & E & ->). apply outcome_bind_Ret in E as ([e|p] & _ & E).
  { injection E as <- <- _. left. exists (u64 e). split; [apply u64_range|done]. }
  apply outcome_bind_Ret in E as ([[entry|] f] & _ & E); injection E as <- <- _.
  - right. by exists entry.
  - left. exists (u64 (- ENOENT)). split; [apply u64_range|done].
Qed.
Lemma write_loop_spec a n : ∀ i y, write_loop a i n y = Ret (tt, emit ((λ j, vm_mem (y_vm y) (u64 (a + Z.of_nat j))) <$> seq i n) y).
Proof.
  induction n as [|n IH]; intros i y; cbn [write_loop seq fmap list_fmap]; [by rewrite emit_nil|].
  erewrite st_bind_step by reflexivity. erewrite st_bind_step by reflexivity. rewrite IH, emit_emit. cbn [app]. by replace (i + 1)%nat with (S i) by lia.
Qed.
Lemma range_no_wrap ok f a len : range_check f ok a len = Ret true → 0 <= a < 2 ^ 64 → 0 < len < 2 ^ 64 → a + len < 2 ^ 64.
Proof.
  unfold range_check. intros E Ha Hl. rewrite (proj2 (Z.eqb_neq len 0)) in E by lia. destruct (Z.ltb_spec (u64 (a + len)) a) as [Hlt|Hge]; [done|].
  destruct (decide (a + len < 2 ^ 64)); [done|]. exfalso. unfold u64 in Hge. revert Hge. zdm.
Qed.
(** the result of [write] and what it prints *)
Definition write_result y fd buf len (ok : bool) : Z * list Z :=
  if negb (fd =? 1) && negb (fd =? 2) then (- EBADF, [])
  else if len =? 0 then (0, [])
  else if CHASEROS_SYSCALL_MAX_IO_BYTES <? len then (- EINVAL, [])
  else if ok then (len, mread (vm_mem (y_vm y)) buf (Z.to_nat len)) else (- EFAULT, []).
Lemma sys_write_spec rdi buf len ok y : 0 <= buf < 2 ^ 64 → 0 <= len →
  (len <= CHASEROS_SYSCALL_MAX_IO_BYTES → vmm_user_range_readable range_fuel (y_vm y) buf len = Ret ok) →
  sys_write rdi buf len y = Ret (fst (write_result y (i32 rdi) buf len ok), emit (snd (write_result y (i32 rdi) buf len ok)) y).
Proof.
  intros Hb Hl Hr. unfold sys_write, write_result. cbv zeta. case_if; [by cbn [fst snd]; rewrite emit_nil|].
  destruct (Z.eqb_spec len 0) as [->|Hn]; [by cbn [fst snd]; rewrite emit_nil|]. destruct (Z.ltb_spec CHASEROS_SYSCALL_MAX_IO_BYTES len) as [Hm|Hm]; [by cbn [fst snd]; rewrite emit_nil|].
  specialize (Hr Hm). erewrite st_bind_step by (unfold readable; rewrite Hr; reflexivity). destruct ok; cbn [negb fst snd]; [|by rewrite emit_nil].
  rewrite (st_bind_step _ _ _ _ _ (write_loop_spec _ _ _ _)). pose proof (range_no_wrap _ _ _ _ Hr Hb ltac:(unfold CHASEROS_SYSCALL_MAX_IO_BYTES in Hm; lia)) as Hw.
  rewrite <-user_bytes_mread by lia. done.
Qed.
Context (hello_bin demo_cnaf : list Z) (irq : ksys D → outcome (ksys D)) (fuel : nat) (exit_done cr2 : Z).
(** what a call that returns leaves in the frame *)
Lemma syscall_frames regs y regs' y' : syscall irq fuel exit_done regs y = Ret (regs', y') →
  only_rax regs regs' ∨ (r_rax regs = CHASEROS_SYS_EXEC ∧ exec_frame regs regs') ∨
  ((r_rax regs = CHASEROS_SYS_EXIT ∨ r_rax regs = CHASEROS_SYS__EXIT) ∧ exit_frame exit_done regs regs').
Proof.
  unfold syscall. cbv zeta. repeat case_if; intros E;
    first [left; exact (call_frame _ _ _ _ _ E)|apply exit_call in E; auto|apply exec_call in E; tauto|idtac].
  injection E as <- _. left. exists (u64 (- ENOSYS)). split; [apply u64_range|done].
Qed.
End calls.

(** Refused system calls have no effect: from a code segment of ring 0, 1
    or 2 the call prints its complaint and returns -EPERM; from ring 3 a
    number above 18 returns -ENOSYS and changes nothing at all. *)
Theorem syscall_refused {D} `{Ports D} hello_bin demo_cnaf irq fuel exit_done cr2 regs (y : ksys D) : r_int_no regs = 128 →
  (Z.land (r_cs regs) 3 ≠ 3 → ∃ msg, isr_handler hello_bin demo_cnaf irq fuel exit_done cr2 regs y =
    Ret (Resume (set_rax (2 ^ 64 - EPERM) regs), emit msg y)) ∧
  (Z.land (r_cs regs) 3 = 3 → CHASEROS_SYS_FORK < r_rax regs → isr_handler hello_bin demo_cnaf irq fuel exit_done cr2 regs y =
    Ret (Resume (set_rax (2 ^ 64 - ENOSYS) regs), y)).
Proof.
  intros Hn. unfold isr_handler. rewrite Hn. cbn [Z.ltb Z.leb Z.compare Pos.compare Pos.compare_cont andb negb Z.eqb Pos.eqb]. split.
  - intros Hc. rewrite (proj2 (Z.eqb_neq _ 3)) by done. cbn [negb]. eexists. reflexivity.
  - intros Hc Hr. rewrite Hc. cbn [negb Z.eqb Pos.eqb]. erewrite st_bind_step; [reflexivity|]. unfold syscall. cbv zeta.
    repeat (rewrite (nr_above _ _ Hr) by (split; done)). reflexivity.
Qed.
(** the number that a stub of interrupts.asm leaves in the frame:
    [push byte n] sign-extends its operand *)
Definition push_byte (n : Z) : Z := u64 (i8 n).
(** The write system call, on every branch: for a user-readable buffer of
    at most 1 MiB and descriptor 1 or 2 the kernel prints exactly the bytes of
    the buffer, in order, and returns the length; a descriptor other than 1
    and 2, a longer buffer or one that is not user-readable prints nothing and
    returns the error; nothing else of the kernel's state changes. *)
Theorem sys_write_correct {D} `{Ports D} hello_bin demo_cnaf irq fuel exit_done cr2 regs (y : ksys D) ok :
  r_int_no regs = 128 → Z.land (r_cs regs) 3 = 3 → r_rax regs = CHASEROS_SYS_WRITE → 0 <= r_rsi regs < 2 ^ 64 → 0 <= r_rdx regs →
  (r_rdx regs <= CHASEROS_SYSCALL_MAX_IO_BYTES → vmm_user_range_readable range_fuel (y_vm y) (r_rsi regs) (r_rdx regs) = Ret ok) →
  let '(v, out) := write_result y (i32 (r_rdi regs)) (r_rsi regs) (r_rdx regs) ok in
  isr_handler hello_bin demo_cnaf irq fuel exit_done cr2 regs y = Ret (Resume (set_rax (u64 v) regs), emit out y).
Proof.
  intros Hn Hc Hr Hb Hl Hok. pose proof (sys_write_spec (r_rdi regs) _ _ ok y Hb Hl Hok) as E. destruct (write_result _ _ _ _ _) as [v out].
  unfold isr_handler. rewrite Hn, Hc. cbn [Z.ltb Z.leb Z.compare Pos.compare Pos.compare_cont andb negb Z.eqb Pos.eqb].
  erewrite st_bind_step; [reflexivity|]. unfold syscall. rewrite Hr. cbv zeta. cbn [Z.eqb CHASEROS_SYS_EXIT CHASEROS_SYS_WRITE Pos.eqb]. by rewrite (st_bind_step _ _ _ _ _ E).
Qed.

(** ** Hardware interrupts *)
Section irq.
Context {D : Type} `{Ports D}.
Implicit Types (y : ksys D).
Definition y_dev y : D := v_dev (f_vol (y_fs y)).
Lemma out_port_run port v y : ∃ y', out_port port v y = Ret (tt, y') ∧ y_dev y' = outb port v (y_dev y).
Proof. eexists. split; reflexivity. Qed.
Definition acknowledged (n : Z) y : Prop := ∃ d : D, y_dev y = outb 0x20 0x20 (if 40 <=? n then outb 0xA0 0x20 d else d).
Lemma eoi_run n y : ∃ y', eoi n y = Ret (tt, y') ∧ acknowledged n y'.
Proof.
  unfold eoi, acknowledged. case_if.
  - destruct (out_port_run 0xA0 0x20 y) as (y1 & E1 & D1). destruct (out_port_run 0x20 0x20 y1) as (y2 & E2 & D2).
    exists y2. rewrite (st_bind_step _ _ _ _ _ E1), E2, D2, D1. eauto.
  - destruct (out_port_run 0x20 0x20 y) as (y2 & E2 & D2). exists y2. erewrite st_bind_step by reflexivity. rewrite E2, D2. eauto.
Qed.
End irq.
(** Every hardware interrupt is acknowledged: when the handler of IRQ 0 to
    15 returns, the interrupted frame is untouched and the last thing the
    ports saw is the end-of-interrupt command to the master controller, after
    the one to the slave for IRQ 8 to 15; the only other ways out are a key
    that made the shell start a program, which acknowledges the keyboard
    interrupt before the jump to the ring-3 segments, or one that stopped the
    machine. *)
Theorem irq_acknowledged {D} `{Ports D} hello_bin demo_cnaf irq fuel exit_done cr2 regs (y y' : ksys D) a : 32 <= r_int_no regs <= 47 →
  isr_handler hello_bin demo_cnaf irq fuel exit_done cr2 regs y = Ret (a, y') →
  match a with
  | Resume regs' => regs' = regs ∧ acknowledged (r_int_no regs) y'
  | JumpRing3 frame => r_int_no regs = 33 ∧ acknowledged 33 y' ∧ ∃ rip rsp, frame = [rip; 0x1B; 0x2; rsp; 0x23]
  | Stopped => r_int_no regs = 33
  end.
Proof.
  intros Hn. unfold isr_handler. rewrite (proj2 (Z.ltb_ge _ 32)), (proj2 (Z.leb_le 32 _)), (proj2 (Z.leb_le _ 47)) by lia. cbn [andb].
  unfold hardware. intros E. apply st_bind_Ret in E as (fl & y1 & E1 & E2).
  assert (fl ≠ Back → r_int_no regs = 33) as Hfl.
  { revert E1. repeat case_if; try done; intros E1 Hf; exfalso; apply Hf.
    - by apply st_ret_inv in E1 as (? & _ & ->).
    - by apply st_ret_inv in E1 as (? & _ & ->).
    - by injection E1. }
  destruct fl as [|rip rsp|].
  - destruct (eoi_run (r_int_no regs) y1) as (y2 & Ee & Ha). rewrite (st_bind_step _ _ _ _ _ Ee) in E2. by injection E2 as <- <-.
  - destruct (out_port_run 0x20 0x20 y1) as (y2 & Ee & Ha). unfold chaseros_user_jump_ring3 in E2. rewrite (st_bind_step _ _ _ _ _ Ee) in E2.
    injection E2 as <- <-. split; [by apply Hfl|]. split; [by exists (y_dev y1)|eauto].
  - injection E2 as <- <-. by apply Hfl.
Qed.

(** what a fatal exception prints *)
Definition exception_text (regs : registers) (cr2 : Z) : list Z :=
  newline :: line "!!! CPU EXCEPTION !!!" ++ str "Exception Number: " ++
  [hex_digit (r_int_no regs / 16); hex_digit (r_int_no regs mod 16)] ++
  newline :: str "Error Code: " ++ hex_text (r_err_code regs) ++
  newline :: str "RIP: " ++ hex_text (r_rip regs) ++
  newline :: str "CS: " ++ hex_text (r_cs regs) ++
  (if r_int_no regs =? 14 then newline :: str "CR2 (fault VA): " ++ hex_text cr2 else []) ++
  newline :: line "Stopping system...".
Section dispatch.
Context {D : Type} `{Ports D}.
Context (hello_bin demo_cnaf : list Z) (irq : ksys D → outcome (ksys D)) (fuel : nat) (exit_done cr2 : Z).
Implicit Types (y : ksys D) (regs : registers).
Notation handler := (isr_handler hello_bin demo_cnaf irq fuel exit_done cr2).
(** [y] with the ports in the state [d], and after the end of interrupt *)
Definition with_dev y (d : D) : ksys D :=
  set_yfs y (set_fvol (y_fs y) (set_dev (f_vol (y_fs y)) d)).
Definition eoi_sent (n : Z) y : ksys D := with_dev y (outb 0x20 0x20 (if 40 <=? n then outb 0xA0 0x20 (y_dev y) else y_dev y)).
Lemma push_byte_small n : 0 <= n < 48 → push_byte n = n.
Proof.
  intros Hn. unfold push_byte, i8, swrap. cbv zeta. rewrite (Z.mod_small n) by lia. rewrite (proj2 (Z.ltb_lt n _)) by lia. apply u64_small. lia.
Qed.
Lemma eoi_exact n y : eoi n y = Ret (tt, eoi_sent n y).
Proof. unfold eoi, eoi_sent. by destruct (40 <=? n). Qed.
Lemma handler_hardware regs y : 32 <= r_int_no regs < 48 → handler regs y = hardware hello_bin demo_cnaf regs y.
Proof.
  intros Hn. unfold isr_handler. rewrite (proj2 (Z.ltb_ge _ 32)), (proj2 (Z.leb_le 32 _)), (proj2 (Z.leb_le _ 47)) by lia. done.
Qed.
Lemma exception_run regs y : r_int_no regs < 32 → handler regs y = Ret (Stopped, emit (exception_text regs cr2) y).
Proof.
  intros Hn. unfold isr_handler. rewrite (proj2 (Z.ltb_lt _ 32)) by lia. unfold exception, exception_text, puts_hex, puts, putchar, st_modify.
  do 10 (erewrite st_bind_step by reflexivity). unfold vmm_try_handle_cow_fault. change (-1 =? 0) with false. cbv zeta.
  destruct (r_int_no regs =? 14); repeat (erewrite st_bind_step by reflexivity); unfold mret, st_mret; rewrite !emit_emit;
    do 3 f_equal; rewrite <-?app_assoc; cbn [app]; rewrite <-?app_assoc; done.
Qed.
Lemma timer_run regs y : r_int_no regs = 32 → kwf (kget y) → ∃ k', schedule (kget y) = Ret k' ∧ kwf k' ∧
  handler regs y = Ret (Resume regs, eoi_sent 32 (kput (set_ticks y (u64 (y_ticks y + 1))) k')).
Proof.
  intros Hn Hk. destruct (schedule_spec (kget y) Hk) as (k' & E & Hk' & _). exists k'. split; [done|]. split; [done|].
  rewrite handler_hardware by lia. unfold hardware. rewrite Hn. change (32 =? 32) with true. cbv zeta. cbn iota.
  assert (timer y = Ret (tt, kput (set_ticks y (u64 (y_ticks y + 1))) k')) as Et.
  { unfold timer, st_modify. erewrite st_bind_step by reflexivity. unfold kern_op, sched_on_timer_tick. change (kget (set_ticks y _)) with (kget y). by rewrite E. }
  erewrite st_bind_step by (rewrite (st_bind_step _ _ _ _ _ Et); reflexivity). cbn iota. by rewrite (st_bind_step _ _ _ _ _ (eoi_exact 32 _)).
Qed.
Lemma in_port_exact port y : in_port port y = Ret (fst (inb port (y_dev y)), with_dev y (snd (inb port (y_dev y)))).
Proof.
  unfold in_port, dev_op, vol_op, on_dev, Io.Io.in_b, y_dev. unfold mbind, st_mbind, outcome_mbind. by destruct (inb port (v_dev (f_vol (y_fs y)))).
Qed.
Lemma other_run regs y : 34 <= r_int_no regs < 48 → handler regs y =
  Ret (Resume regs, eoi_sent (r_int_no regs) (if r_int_no regs =? 44 then with_dev y (snd (inb 0x60 (y_dev y))) else y)).
Proof.
  intros Hn. rewrite handler_hardware by lia. unfold hardware. rewrite (proj2 (Z.eqb_neq _ 32)), (proj2 (Z.eqb_neq _ 33)) by lia. cbv zeta.
  destruct (r_int_no regs =? 44).
  - erewrite st_bind_step by (rewrite (st_bind_step _ _ _ _ _ (in_port_exact 0x60 y)); reflexivity). cbn iota. by rewrite (st_bind_step _ _ _ _ _ (eoi_exact _ _)).
  - erewrite st_bind_step by reflexivity. cbn iota. by rewrite (st_bind_step _ _ _ _ _ (eoi_exact _ _)).
Qed.
(** a scan code without a character *)
Definition no_char (sc : Z) : Prop := 0x80 <= sc ∨ Z.of_nat (length scancode_ascii) <= sc ∨ nth (Z.to_nat sc) scancode_ascii 0 = 0.
Lemma release_run regs y : r_int_no regs = 33 → no_char (fst (inb 0x60 (y_dev y))) →
  handler regs y = Ret (Resume regs, eoi_sent 33 (with_dev y (snd (inb 0x60 (y_dev y))))).
Proof.
  intros Hn Hc. rewrite handler_hardware by lia. unfold hardware. rewrite Hn. change (33 =? 32) with false. change (33 =? 33) with true. cbv zeta. cbn iota.
  assert (keyboard hello_bin demo_cnaf y = Ret (Back, with_dev y (snd (inb 0x60 (y_dev y))))) as Ek.
  { unfold keyboard. rewrite (st_bind_step _ _ _ _ _ (in_port_exact 0x60 y)). destruct (Z.ltb_spec (fst (inb 0x60 (y_dev y))) 0x80); [|done].
    destruct (Z.ltb_spec (fst (inb 0x60 (y_dev y))) (Z.of_nat (length scancode_ascii))); [|done]. destruct Hc as [?|[?|Hc]]; [lia..|]. cbv zeta. by rewrite Hc. }
  rewrite (st_bind_step _ _ _ _ _ Ek). cbn iota. by rewrite (st_bind_step _ _ _ _ _ (eoi_exact 33 _)).
Qed.
End dispatch.

(** ** Witnesses: the simulated machine with a user page at 0x400000 *)
Definition call_frame_of (nr rdi rsi rdx cs : Z) : registers := Regs 0 0 0 0 0 0 0 0 rdi rsi 0 rdx 0 0 nr 128 0 0x400000 cs 0x202 0x801000 0x23.
Definition call_kernel : ksys ata :=
  set_yfs (sim_kernel []) (set_fvm (y_fs (sim_kernel [])) (Vm (mwrite user_mem 0x400020 (str "hi")) demo_frames 0x1000)).
Notation handler := (isr_handler (D := ata) [] [] (λ y, Ret y) 0 0xC0DE 0).
Definition stub_frame (n : Z) : registers := Regs 0 0 0 0 0 0 0 0 1 0x400020 0 2 0 0 1 (push_byte n) 0 0x400000 0x1B 0x202 0x801000 0x23.
Lemma call_kernel_wf : kwf (kget call_kernel).
Proof.
  apply kwf_of_slots; [apply boot_pmm_wf|done|unfold MAX_TASKS; simpl; lia|]. intros i Hi. unfold MAX_TASKS in Hi.
  do 16 (destruct i as [|i]; [split; simpl; intros; simplify_eq; unfold MAX_TASKS; first [done|lia|congruence]|]). lia.
Qed.
Lemma syscall_refused_witness : handler (call_frame_of 99 0 0 0 0x1B) (sim_kernel []) = Ret (Resume (call_frame_of (2 ^ 64 - 38) 0 0 0 0x1B), sim_kernel []).
Proof. apply (syscall_refused [] [] (λ y, Ret y) 0 0xC0DE 0 (call_frame_of 99 0 0 0 0x1B) (sim_kernel [])); reflexivity. Defined.
Lemma sys_write_correct_witness : handler (call_frame_of 1 1 0x400020 2 0x1B) call_kernel = Ret (Resume (call_frame_of 2 1 0x400020 2 0x1B), emit (str "hi") call_kernel).
Proof.
  apply (sys_write_correct [] [] (λ y, Ret y) 0 0xC0DE 0 (call_frame_of 1 1 0x400020 2 0x1B) call_kernel true).
  - reflexivity.
  - reflexivity.
  - reflexivity.
  - cbn. lia.
  - cbn. lia.
  - intros _. vm_compute. reflexivity.
Defined.
Lemma irq_acknowledged_witness : ∃ y', handler (set_rax 5 (Regs 0 0 0 0 0 0 0 0 0 0 0 0 0 0 0 44 0 0x100000 0x08 0x202 0x200000 0x10)) (sim_kernel []) =
  Ret (Resume (set_rax 5 (Regs 0 0 0 0 0 0 0 0 0 0 0 0 0 0 0 44 0 0x100000 0x08 0x202 0x200000 0x10)), y') ∧ acknowledged 44 y'.
Proof.
  eexists. split; [reflexivity|].
  apply (irq_acknowledged [] [] (λ y, Ret y) 0 0xC0DE 0 (set_rax 5 (Regs 0 0 0 0 0 0 0 0 0 0 0 0 0 0 0 44 0 0x100000 0x08 0x202 0x200000 0x10)) (sim_kernel []) _
    (Resume (set_rax 5 (Regs 0 0 0 0 0 0 0 0 0 0 0 0 0 0 0 44 0 0x100000 0x08 0x202 0x200000 0x10)))); [cbn; lia|reflexivity].
Defined.
End Isr.
