(* ===== verification/Hello.v ===== *)
(** A user program (user/include/chaseros_user.h, user/hello.c and
    toolchains/gcc-for-chaseros/runtime/chaseros_user_runtime.c): the library
    that wraps the system calls and the program that prints its greeting, a
    ping to the service task and the results of some calls.  A program is a
    function on the state of the kernel: its instructions change user memory,
    [int 0x80] runs [isr_handler] with the registers that the wrapper loads.
    [vec] is the number that the interrupt stub leaves in the frame and
    [regs] the program's other registers.  String literals and the variables
    whose address is taken are at the addresses of a [layout]; other variables
    are Rocq variables.
    Theorems: with the number that the stub of vector 0x80 really leaves the
    program prints nothing and runs past its end; with the number 128 that the
    handler expects, what it prints on every kernel that keeps the promise
    [hello_env]. *)
From stdpp Require Import base numbers list sets strings.
From S2P Require Import Prelude Bitmap Memory Multiboot Io Console Pmm Vmm Process Ipc Path Vol Ide Ext2 Ext2Disk Ext2Spec Ext2Format Vfs Disks UserFd HybridIpc Loader Package Cndyn UserExec UserDisk Kernel Shell Isr.
Open Scope Z_scope.

Module Hello.
Import Ide.Ide Console.Vga Console.Console Console.Print Path.Path Vol.Vol Vfs.Vfs UserFd.UserFd Vmm.Vmm Process.Process Ipc.Ipc HybridIpc.HybridIpc Cndyn.Cndyn UserExec.UserExec UserDisk.UserDisk Kernel.Kernel Shell.Shell Isr.Isr.
(** the literal [s], the variable [c] of [write_u64_dec] and those of [_start] *)
Record layout := Layout { lit : list Z → Z; a_c : Z; a_req : Z; a_rep : Z; a_scratch : Z; a_zbuf : Z }.
Section program.
Context {D : Type} `{Ports D}.
Notation ksys := (ksys D).
Context (hello_bin demo_cnaf : list Z) (irq : ksys → outcome ksys) (fuel : nat) (exit_done cr2 : Z) (vec : Z) (regs : registers) (lay : layout).
(** ** User memory *)
Definition store (a : Z) (l : list Z) : st ksys unit := st_modify (λ y, put_mem (mwrite (vm_mem (y_vm y)) a l) y).
Definition load (a : Z) : st ksys Z := λ y, Ret (vm_mem (y_vm y) a, y).
(** ** chaseros_user.h *)
Definition call_regs (n nr rdi rsi rdx : Z) : registers :=
  Regs (r_r15 regs) (r_r14 regs) (r_r13 regs) (r_r12 regs) (r_r11 regs) (r_r10 regs) (r_r9 regs) (r_r8 regs) rdi rsi (r_rbp regs) rdx
    (r_rcx regs) (r_rbx regs) nr n 0 (r_rip regs) (r_cs regs) (r_rflags regs) (r_rsp regs) (r_ss regs).
Definition int80 (nr rdi rsi rdx : Z) : st ksys after := isr_handler hello_bin demo_cnaf irq fuel exit_done cr2 (call_regs vec nr rdi rsi rdx).
(** the frame leads back to the instruction after [int 0x80] *)
Definition comes_back (r : registers) : bool := (r_rip r =? r_rip regs) && (r_cs r =? r_cs regs).
(** [inr] is a frame that leads elsewhere *)
Definition syscall_any (nr rdi rsi rdx : Z) : st ksys (Z + after) :=
  a ← int80 nr rdi rsi rdx;
  mret match a with
  | Resume r => if comes_back r then inl (i64 (r_rax r)) else inr a
  | _ => inr a
  end.
Definition syscall3 (nr rdi rsi rdx : Z) : st ksys Z :=
  a ← int80 nr rdi rsi rdx;
  match a with Resume r => mret (i64 (r_rax r)) | _ => st_lift Undef end.
Definition chaseros_syscall_write (fd buf len : Z) : st ksys Z := syscall3 CHASEROS_SYS_WRITE (u64 fd) buf len.
Definition chaseros_syscall_read (fd buf len : Z) : st ksys Z := syscall3 CHASEROS_SYS_READ (u64 fd) buf len.
Definition chaseros_syscall_getpid : st ksys Z := syscall3 CHASEROS_SYS_GETPID (r_rdi regs) (r_rsi regs) (r_rdx regs).
Definition chaseros_syscall_uptime_ticks : st ksys Z := syscall3 CHASEROS_SYS_UPTIME_TICKS (r_rdi regs) (r_rsi regs) (r_rdx regs).
Definition chaseros_syscall_open (path flags : Z) : st ksys Z := syscall3 CHASEROS_SYS_OPEN path (u64 flags) (r_rdx regs).
Definition chaseros_syscall_close (fd : Z) : st ksys Z := syscall3 CHASEROS_SYS_CLOSE (u64 fd) (r_rsi regs) (r_rdx regs).
Definition chaseros_syscall_ipc_send (dest_pid msg : Z) : st ksys Z := syscall3 CHASEROS_SYS_IPC_SEND dest_pid msg (r_rdx regs).
Definition chaseros_syscall_ipc_recv (src_pid msg : Z) : st ksys Z := syscall3 CHASEROS_SYS_IPC_RECV src_pid msg (r_rdx regs).
Definition chaseros_syscall_ipc_reply (dest_pid msg : Z) : st ksys Z := syscall3 CHASEROS_SYS_IPC_REPLY dest_pid msg (r_rdx regs).
Definition chaseros_syscall_ipc_call (dest_pid req rep : Z) : st ksys Z := syscall3 CHASEROS_SYS_IPC_CALL dest_pid req rep.
(** a call that comes back reaches [__builtin_unreachable] *)
Definition chaseros_syscall_exit (code : Z) : st ksys after :=
  r ← syscall_any CHASEROS_SYS_EXIT (u64 code) (r_rsi regs) (r_rdx regs);
  match r with inl _ => st_lift Undef | inr a => mret a end.
Definition chaseros_syscall_spawn (path : Z) : st ksys Z := syscall3 CHASEROS_SYS_SPAWN path (r_rsi regs) (r_rdx regs).
Definition chaseros_syscall_exec (path : Z) : st ksys (Z + after) := syscall_any CHASEROS_SYS_EXEC path (r_rsi regs) (r_rdx regs).
Definition chaseros_syscall_waitpid (pid status : Z) : st ksys Z := syscall3 CHASEROS_SYS_WAITPID (u64 pid) status (r_rdx regs).
Definition chaseros_syscall_fork : st ksys Z := syscall3 CHASEROS_SYS_FORK (r_rdi regs) (r_rsi regs) (r_rdx regs).
(** ** chaseros_user_runtime.c *)
Definition chaseros_write (fd buf len : Z) : st ksys Z := syscall3 CHASEROS_SYS_WRITE (u64 fd) buf len.
Definition chaseros_read (fd buf len : Z) : st ksys Z := syscall3 CHASEROS_SYS_READ (u64 fd) buf len.
Definition chaseros_getpid : st ksys Z := syscall3 CHASEROS_SYS_GETPID 0 0 0.
(** a call that comes back reaches [hlt], which in ring 3 is exception 13 *)
Definition chaseros_exit (code : Z) : st ksys after :=
  r ← syscall_any CHASEROS_SYS_EXIT (u64 code) 0 0;
  match r with
  | inl _ => isr_handler hello_bin demo_cnaf irq fuel exit_done cr2 (call_regs 13 (r_rax regs) (u64 code) 0 0)
  | inr a => mret a
  end.
(** ** hello.c *)
(** [while (s[n]) n++] *)
Fixpoint strlen_loop (k : nat) (s n : Z) : st ksys Z :=
  c ← load (s + n);
  if c =? 0 then mret n else match k with O => st_lift Loop | S k => strlen_loop k s (n + 1) end.
(** no literal has more characters *)
Definition strlen_fuel : nat := 64.
Definition write_cstr (fd s : Z) : st ksys unit :=
  n ← strlen_loop strlen_fuel s 0;
  _ ← chaseros_syscall_write fd s n;
  mret tt.
(** the digits in [buf], lowest first *)
Fixpoint digit_loop (k : nat) (v : Z) (buf : list Z) : outcome (list Z) :=
  if (0 <? v) && (length buf <? 24)%nat
  then match k with O => Loop | S k => digit_loop k (v / 10) (buf ++ [u8 (48 + v mod 10)]) end
  else Ret buf.
Fixpoint write_digits (fd : Z) (l : list Z) : st ksys unit :=
  match l with
  | [] => mret tt
  | c :: l =>
    _ ← store (a_c lay) [c];
    _ ← chaseros_syscall_write fd (a_c lay) 1;
    write_digits fd l
  end.
Definition write_u64_dec (fd v : Z) : st ksys unit :=
  if v =? 0 then _ ← chaseros_syscall_write fd (lit lay (str "0")) 1; mret tt
  else buf ← st_lift (digit_loop 24 v []); write_digits fd (rev buf).
Definition write_s64_dec (fd v : Z) : st ksys unit :=
  if v <? 0 then _ ← chaseros_syscall_write fd (lit lay (str "-")) 1; write_u64_dec fd (u64 (- u64 v))
  else write_u64_dec fd (u64 v).
Definition say (s : list Z) : st ksys unit := write_cstr 1 (lit lay s).
Definition greet : st ksys unit :=
  _ ← say (line "Hello from user mode (ring 3)");
  _ ← say (str "pid=");
  pid ← chaseros_syscall_getpid;
  _ ← write_u64_dec 1 (u64 pid);
  _ ← say (str " uptime_ticks=");
  t ← chaseros_syscall_uptime_ticks;
  _ ← write_u64_dec 1 (u64 t);
  say [newline].
Definition load64 (a : Z) : st ksys Z := λ y, Ret (ld64 (vm_mem (y_vm y)) a, y).
(** the request: sender 0, a ping, and a payload of zeros with an x in front *)
Definition ping_request : st ksys unit :=
  _ ← store (a_req lay) (le_of 8 0);
  _ ← store (a_req lay + 8) (le_of 8 CHASEROS_MSG_PING);
  _ ← st_modify (λ y, foldl (λ y i, put_mem (mwrite (vm_mem (y_vm y)) (a_req lay + 16 + i) [0]) y) y (seqZ 0 48));
  store (a_req lay + 16) [120].
Definition ping : st ksys unit :=
  _ ← ping_request;
  cr ← chaseros_syscall_ipc_call CHASEROS_HYBRID_SERVICE_PID (a_req lay) (a_rep lay);
  _ ← say (str "ipc_call(ping)=");
  _ ← write_s64_dec 1 cr;
  _ ← say (str " pong_type=");
  t ← load64 (a_rep lay + 8);
  _ ← write_u64_dec 1 t;
  say [newline].
Definition read_stdin : st ksys unit :=
  n ← chaseros_syscall_read 0 (a_scratch lay) 8;
  _ ← say (str "read(stdin) returned ");
  _ ← (if 0 <=? n then write_u64_dec 1 (u64 n) else _ ← say (str "errno="); write_u64_dec 1 (u64 (- n)));
  say [newline].
Definition read_zero : st ksys unit :=
  zfd ← chaseros_syscall_open (lit lay (str "/dev/zero")) 0;
  zn ← chaseros_syscall_read (i32 zfd) (a_zbuf lay) 4;
  _ ← say (str "open(/dev/zero) read=");
  _ ← write_s64_dec 1 zn;
  _ ← say [newline];
  _ ← chaseros_syscall_close (i32 zfd);
  mret tt.
Definition open_bogus : st ksys unit :=
  fd ← chaseros_syscall_open (lit lay (str "__chaseros_no_such_file__")) 0;
  _ ← say (str "open(bogus)=");
  _ ← write_s64_dec 1 fd;
  say [newline].
Definition start_body : st ksys unit :=
  _ ← greet;
  _ ← ping;
  _ ← read_stdin;
  _ ← read_zero;
  open_bogus.
Definition _start : st ksys after := _ ← start_body; chaseros_syscall_exit 0.
End program.

(** ** What is printed *)
Definition dec (v : Z) : list Z := match dec_text v with Ret l => l | _ => [] end.
Definition sdec (v : Z) : list Z := if v <? 0 then 45 :: dec (- v) else dec v.
Lemma dec_text_dec v : 0 <= v < 2 ^ 64 → dec_text v = Ret (dec v) ∧ (length (dec v) <= 20)%nat.
Proof. intros Hv. destruct (dec_text_spec v Hv) as (ds & E & _ & Hl & _). unfold dec. rewrite E. split; [done|lia]. Qed.
(** the program's loop computes the digits of the kernel's *)
Lemma digit_dec k : ∀ j v buf r, dec_loop k v buf = Ret r → (length r <= length buf + j)%nat → digit_loop j v buf = Ret r.
Proof.
  assert (∀ k v buf r, dec_loop k v buf = Ret r → (length buf <= length r)%nat) as Hmono.
  { clear. induction k as [|k IH]; intros v buf r E; cbn [dec_loop] in E; (destruct (0 <? v); [|by injection E as <-]); [done|]. case_match; [|done].
    apply IH in E. rewrite length_app in E. cbn [length] in E. lia. }
  induction k as [|k IH]; intros j v buf r E Hj; cbn [dec_loop] in E; destruct (0 <? v) eqn:Ev; try done;
    try (injection E as <-; destruct j; cbn [digit_loop]; by rewrite Ev).
  destruct (Nat.ltb_spec (length buf) 20) as [Hl|]; [|done]. pose proof (Hmono _ _ _ _ E) as Hm. rewrite length_app in Hm. cbn [length] in Hm.
  destruct j as [|j]; [lia|]. cbn [digit_loop]. rewrite Ev, (proj2 (Nat.ltb_lt (length buf) 24)) by lia. cbn [andb]. rewrite (Z.add_comm 48). apply IH; [done|].
  rewrite length_app. cbn [length]. lia.
Qed.
Lemma digit_loop_dec v : 0 < v < 2 ^ 64 → ∃ buf, digit_loop 24 v [] = Ret buf ∧ rev buf = dec v.
Proof.
  intros Hv. destruct (dec_text_dec v ltac:(lia)) as [E Hl]. unfold dec_text in E. rewrite (proj2 (Z.eqb_neq v 0)) in E by lia.
  apply outcome_bind_Ret in E as (buf & E & Er). injection Er as Er. exists buf. split; [|done]. apply (digit_dec 64); [done|]. cbn [length].
  rewrite <-Er, length_rev in Hl. lia.
Qed.

(** the literals of the program *)
Definition literals : list (list Z) :=
  [line "Hello from user mode (ring 3)"; str "pid="; str " uptime_ticks="; [newline]; str "ipc_call(ping)="; str " pong_type=";
   str "read(stdin) returned "; str "errno="; str "open(/dev/zero) read="; str "open(bogus)="; str "0"; str "-"].
Ltac in_literals := unfold literals; set_solver.
Definition paths : list (list Z) := [str "/dev/zero"; str "__chaseros_no_such_file__"].
Lemma literals_ok s : s ∈ literals → is_cstr s ∧ (0 < length s <= strlen_fuel)%nat.
Proof.
  intros Hs. unfold is_cstr, strlen_fuel. assert (forallb (λ s, forallb (λ c, (0 <? c) && (c <? 256)) s && (0 <? length s)%nat && (length s <=? 64)%nat) literals = true) as Hall by reflexivity.
  rewrite forallb_forall in Hall. specialize (Hall s (proj1 (list_elem_of_In _ _) Hs)). rewrite !andb_true_iff in Hall. destruct Hall as [[H1 H2] H3].
  apply Nat.ltb_lt in H2. apply Nat.leb_le in H3. split; [|lia]. rewrite forallb_forall in H1. apply Forall_forall. intros c Hc%list_elem_of_In. specialize (H1 c Hc).
  apply andb_true_iff in H1 as [?%Z.ltb_lt ?%Z.ltb_lt]. done.
Qed.
(** what [_start] prints; the results of the calls are arguments *)
Definition transcript (pid ticks cr pong zn fd : Z) : list Z :=
  line "Hello from user mode (ring 3)" ++ str "pid=" ++ dec pid ++ str " uptime_ticks=" ++ dec ticks ++ [newline] ++
  str "ipc_call(ping)=" ++ sdec cr ++ str " pong_type=" ++ dec pong ++ [newline] ++
  str "read(stdin) returned " ++ dec 0 ++ [newline] ++
  str "open(/dev/zero) read=" ++ sdec zn ++ [newline] ++
  str "open(bogus)=" ++ sdec fd ++ [newline].
Definition long (v : Z) : Prop := - 2 ^ 63 <= v < 2 ^ 63.

Section run.
Context {D : Type} `{Ports D}.
Context (hello_bin demo_cnaf : list Z) (irq : ksys D → outcome (ksys D)) (fuel : nat) (exit_done cr2 : Z) (regs : registers) (lay : layout).
Implicit Types (y : ksys D).
(** the length of a literal *)
Lemma strlen_run s y : is_cstr s → (∀ i : nat, (i <= length s)%nat → vm_mem (y_vm y) (lit lay s + Z.of_nat i) = nth i s 0) → (length s <= strlen_fuel)%nat →
  strlen_loop strlen_fuel (lit lay s) 0 y = Ret (Z.of_nat (length s), y).
Proof.
  intros Hc Hb Hl. assert (∀ k n, (n + k = length s)%nat → ∀ j, (k <= j)%nat → strlen_loop j (lit lay s) (Z.of_nat n) y = Ret (Z.of_nat (length s), y)) as Hk.
  { induction k as [|k IH]; intros n Hn j Hj.
    - assert (vm_mem (y_vm y) (lit lay s + Z.of_nat n) = 0) as E0 by (rewrite Hb, nth_overflow by lia; done).
      replace (length s) with n by lia. destruct j; cbn [strlen_loop]; (erewrite st_bind_step by reflexivity); by rewrite E0.
    - destruct j as [|j]; [lia|]. cbn [strlen_loop]. erewrite st_bind_step by reflexivity. rewrite Hb by lia.
      destruct (lookup_lt_is_Some_2 s n) as [c Ec]; [lia|]. rewrite (nth_lookup_Some _ _ _ _ Ec). pose proof (Forall_lookup_1 _ _ _ _ Hc Ec) as Hcc. cbn beta in Hcc.
      rewrite (proj2 (Z.eqb_neq c 0)) by lia. replace (Z.of_nat n + 1) with (Z.of_nat (S n)) by lia. apply IH; lia. }
  apply (Hk (length s) 0%nat); lia.
Qed.
(** a literal in memory, which the program may pass to [write] *)
Record literal_at (y : ksys D) (s : list Z) : Prop := {
  la_range : 0 <= lit lay s < 2 ^ 64;
  la_bytes : ∀ i : nat, (i <= length s)%nat → vm_mem (y_vm y) (lit lay s + Z.of_nat i) = nth i s 0;
  la_read : vmm_user_range_readable range_fuel (y_vm y) (lit lay s) (Z.of_nat (length s)) = Ret true
}.
(** what printing needs, as an invariant [P] of the run: the program's text
    and variables stay in place *)
Record text_env (P : ksys D → Prop) : Prop := {
  te_emit : ∀ y s, P y → P (emit s y);
  te_store : ∀ y a l, P y → bytes l → (a = a_c lay ∧ length l = 1%nat) ∨ (a_req lay <= a ∧ a + Z.of_nat (length l) <= a_req lay + 64) →
    P (put_mem (mwrite (vm_mem (y_vm y)) a l) y);
  te_lit : ∀ y s, P y → s ∈ literals → literal_at y s;
  te_char : ∀ y, P y → 0 <= a_c lay < 2 ^ 64 ∧ vmm_user_range_readable range_fuel (y_vm y) (a_c lay) 1 = Ret true
}.
(** what the program needs of the kernel: also, the calls that depend on other
    tasks and on files return and print nothing *)
Record hello_env (P : ksys D → Prop) : Prop := {
  he_text : text_env P;
  he_bytes : ∀ y, P y → mem_bytes (vm_mem (y_vm y));
  he_scratch : ∀ y, P y → vmm_user_range_writable range_fuel (y_vm y) (a_scratch lay) 8 = Ret true;
  he_call : ∀ y, P y → ∃ r y', sys_ipc_call irq fuel CHASEROS_HYBRID_SERVICE_PID (a_req lay) (a_rep lay) y = Ret (r, y') ∧ long r ∧ P y' ∧ y_out y' = y_out y;
  he_open : ∀ y s, P y → s ∈ paths → ∃ r y', sys_open irq fuel (lit lay s) (u64 0) y = Ret (r, y') ∧ long r ∧ P y' ∧ y_out y' = y_out y;
  he_read : ∀ y fd, P y → ∃ r y', sys_read (u64 (i32 fd)) (a_zbuf lay) 4 y = Ret (r, y') ∧ long r ∧ P y' ∧ y_out y' = y_out y;
  he_close : ∀ y fd, P y → ∃ r y', fs_op (user_fd_sys_close (i32 (u64 (i32 fd)))) y = Ret (r, y') ∧ long r ∧ P y' ∧ y_out y' = y_out y;
  he_exit : ∀ y r, P y → ∃ r' y', framed_call (user_sys__exit exit_done (i64 (u64 0))) r y = Ret (r', y')
}.
Context (P : ksys D → Prop) (Htext : text_env P) (Hcs : Z.land (r_cs regs) 3 = 3).
Notation syscall3 := (syscall3 hello_bin demo_cnaf irq fuel exit_done cr2 128 regs).
(** the clock and the active process are as before *)
Definition steady (y y' : ksys D) : Prop := y_ticks y' = y_ticks y ∧ active_user_pid (kget y') = active_user_pid (kget y).
Definition anyhow (y y' : ksys D) : Prop := True.
#[local] Instance steady_trans : Transitive steady.
Proof. intros y1 y2 y3 [A1 A2] [B1 B2]. split; congruence. Qed.
#[local] Instance anyhow_trans : Transitive anyhow.
Proof. done. Qed.
(** [m] prints [text] and returns [a], and the state has changed as [R] says *)
Definition prints {A} (R : relation (ksys D)) (m : st (ksys D) A) (y : ksys D) (a : A) (text : list Z) : Prop :=
  ∃ y', m y = Ret (a, y') ∧ (P y' ∧ y_out y' = y_out y ++ text) ∧ R y y'.
Lemma prints_bind {A B} R `{Transitive _ R} (m : st (ksys D) A) (f : A → st (ksys D) B) y a b t1 t2 :
  prints R m y a t1 → (∀ y', P y' → R y y' → prints R (f a) y' b t2) → prints R (m ≫= f) y b (t1 ++ t2).
Proof.
  intros (y1 & E & (Hp & Ho) & HR) Hf. destruct (Hf y1 Hp HR) as (y2 & E2 & (Hp2 & Ho2) & HR2). exists y2. split; [by rewrite (st_bind_step _ _ _ _ _ E)|].
  split; [|by etrans]. split; [done|]. by rewrite Ho2, Ho, app_assoc.
Qed.
Lemma prints_ret {A} (a : A) y : P y → prints steady (mret a) y a [].
Proof. intros Hp. exists y. split; [done|]. split; [|done]. split; [done|]. by rewrite app_nil_r. Qed.
Lemma prints_any {A} (m : st (ksys D) A) y a t : prints steady m y a t → prints anyhow m y a t.
Proof. intros (y' & E & Hp & _). by exists y'. Qed.
(** a command whose result is ignored *)
Lemma prints_void {A} R `{Transitive _ R} (m : st (ksys D) A) y a t : prints R m y a t → (∀ y', P y' → R y' y') → prints R (_ ← m; mret tt) y tt t.
Proof.
  intros Hm Hr. rewrite <-(app_nil_r t). eapply prints_bind; [done|exact Hm|]. intros y' Hp _. exists y'. split; [done|]. split; [|by apply Hr].
  split; [done|]. by rewrite app_nil_r.
Qed.
(** a call that returns a value comes back with it *)
Lemma call_returns nr rdi rsi rdx (m : st (ksys D) Z) y r y' :
  syscall irq fuel exit_done (call_regs regs 128 nr rdi rsi rdx) y = (v ← m; mret (syscall_ret v (call_regs regs 128 nr rdi rsi rdx))) y →
  m y = Ret (r, y') → long r → syscall3 nr rdi rsi rdx y = Ret (r, y').
Proof.
  intros Es Em Hr. unfold syscall3. erewrite st_bind_step; [|unfold int80, isr_handler].
  2: { cbn [r_int_no r_cs call_regs Z.ltb Z.leb Z.compare Pos.compare Pos.compare_cont andb]. rewrite Hcs.
       cbn [Z.eqb Pos.eqb negb]. erewrite st_bind_step; [reflexivity|]. rewrite Es. rewrite (st_bind_step _ _ _ _ _ Em). reflexivity. }
  cbn. unfold mret, st_mret. do 2 f_equal. by apply i64_u64.
Qed.
Lemma user_write_run buf len y : P y → 0 <= buf < 2 ^ 64 → 0 < len <= CHASEROS_SYSCALL_MAX_IO_BYTES →
  vmm_user_range_readable range_fuel (y_vm y) buf len = Ret true →
  prints steady (chaseros_syscall_write hello_bin demo_cnaf irq fuel exit_done cr2 128 regs 1 buf len) y len (mread (vm_mem (y_vm y)) buf (Z.to_nat len)).
Proof.
  intros Hp Hb Hl Hr. unfold CHASEROS_SYSCALL_MAX_IO_BYTES in Hl. exists (emit (mread (vm_mem (y_vm y)) buf (Z.to_nat len)) y). split.
  - pose proof (sys_write_spec (u64 1) buf len true y Hb ltac:(lia) ltac:(done)) as E. unfold write_result in E. change (i32 (u64 1)) with 1 in E.
    rewrite (proj2 (Z.eqb_neq len 0)), (proj2 (Z.ltb_ge CHASEROS_SYSCALL_MAX_IO_BYTES len)) in E by (unfold CHASEROS_SYSCALL_MAX_IO_BYTES; lia). cbn [negb andb Z.eqb Pos.eqb fst snd] in E.
    eapply call_returns; [reflexivity|exact E|unfold long; lia].
  - split; [|done]. split; [by apply Htext|done].
Qed.
Lemma store_run a l y : P y → bytes l → (a = a_c lay ∧ length l = 1%nat) ∨ (a_req lay <= a ∧ a + Z.of_nat (length l) <= a_req lay + 64) →
  ∃ y', store a l y = Ret (tt, y') ∧ (P y' ∧ y_out y' = y_out y) ∧ steady y y' ∧ vm_mem (y_vm y') = mwrite (vm_mem (y_vm y)) a l.
Proof. intros Hp Hb Ha. eexists. split; [reflexivity|]. split; [|done]. split; [|done]. by apply (te_store P Htext). Qed.
Lemma mread_literal y s : literal_at y s → mread (vm_mem (y_vm y)) (lit lay s) (length s) = s.
Proof.
  intros [_ Hb _]. apply list_eq. intros i. destruct (decide (i < length s)%nat) as [Hi|Hi].
  - rewrite lookup_mread, Hb by lia. destruct (lookup_lt_is_Some_2 s i Hi) as [c Ec]. by rewrite Ec, (nth_lookup_Some _ _ _ _ Ec).
  - rewrite !lookup_ge_None_2; [done|lia|rewrite length_mread; lia].
Qed.
Lemma write_literal s y : P y → s ∈ literals →
  prints steady (chaseros_syscall_write hello_bin demo_cnaf irq fuel exit_done cr2 128 regs 1 (lit lay s) (Z.of_nat (length s))) y (Z.of_nat (length s)) s.
Proof.
  intros Hp Hs. pose proof (te_lit P Htext y s Hp Hs) as Hl. destruct (literals_ok s Hs) as [_ Hn]. unfold strlen_fuel in Hn. pose proof Hl as [Hr _ Hrd].
  pose proof (user_write_run (lit lay s) (Z.of_nat (length s)) y Hp Hr ltac:(unfold CHASEROS_SYSCALL_MAX_IO_BYTES; lia) Hrd) as Hw. rewrite Nat2Z.id, (mread_literal y s Hl) in Hw. exact Hw.
Qed.
Notation say := (say hello_bin demo_cnaf irq fuel exit_done cr2 128 regs lay).
Notation write_u64_dec := (write_u64_dec hello_bin demo_cnaf irq fuel exit_done cr2 128 regs lay).
Notation write_s64_dec := (write_s64_dec hello_bin demo_cnaf irq fuel exit_done cr2 128 regs lay).
Lemma say_run s y : P y → s ∈ literals → prints steady (say s) y tt s.
Proof.
  intros Hp Hs. destruct (literals_ok s Hs) as [Hc Hn]. unfold Hello.say, write_cstr.
  destruct (prints_void steady _ y _ _ (write_literal s y Hp Hs)) as (y' & E & Hy); [done|]. exists y'. split; [|exact Hy].
  erewrite st_bind_step by (apply strlen_run; [done|apply (te_lit P Htext y s Hp Hs)|lia]). exact E.
Qed.
Lemma digits_run l : ∀ y, P y → bytes l → prints steady (write_digits hello_bin demo_cnaf irq fuel exit_done cr2 128 regs lay 1 l) y tt l.
Proof.
  induction l as [|c l IH]; intros y Hp Hb; cbn [write_digits]; [by apply prints_ret|]. apply Forall_cons in Hb as [Hc Hb].
  destruct (store_run (a_c lay) [c] y Hp) as (y1 & E1 & (Hp1 & Ho1) & Hs1 & Hm1); [by apply Forall_singleton|by left|].
  destruct (te_char P Htext y1 Hp1) as [Ha Hr].
  pose proof (user_write_run (a_c lay) 1 y1 Hp1 Ha ltac:(unfold CHASEROS_SYSCALL_MAX_IO_BYTES; lia) Hr) as Hw.
  change (Z.to_nat 1) with (length [c]) in Hw. rewrite Hm1, mread_mwrite_same in Hw.
  destruct (prints_bind steady _ (λ _, write_digits hello_bin demo_cnaf irq fuel exit_done cr2 128 regs lay 1 l) y1 1 tt [c] l Hw) as (y2 & E2 & (Hp2 & Ho2) & Hs2); [intros y' Hy' _; by apply IH|].
  exists y2. split; [by rewrite (st_bind_step _ _ _ _ _ E1)|]. split; [|by etrans]. split; [done|]. by rewrite Ho2, Ho1.
Qed.
Lemma bytes_dec v : 0 <= v < 2 ^ 64 → bytes (dec v).
Proof.
  intros Hv. destruct (dec_text_spec v Hv) as (ds & E & Hd & _). unfold dec. rewrite E. eapply Forall_impl; [exact Hd|]. unfold is_digit, is_byte. lia.
Qed.
Lemma u64_dec_run v y : P y → 0 <= v < 2 ^ 64 → prints steady (write_u64_dec 1 v) y tt (dec v).
Proof.
  intros Hp Hv. unfold Hello.write_u64_dec. destruct (Z.eqb_spec v 0) as [->|Hn].
  - apply prints_void with (a := 1); [apply steady_trans| |done]. apply (write_literal (str "0")); [done|]. unfold literals. set_solver.
  - destruct (digit_loop_dec v ltac:(lia)) as (buf & E & Er). destruct (digits_run (dec v) y Hp (bytes_dec v Hv)) as (y' & E' & Hy). exists y'. split; [|exact Hy].
    unfold st_lift. erewrite st_bind_step by (rewrite E; reflexivity). by rewrite Er.
Qed.
Lemma s64_dec_run v y : P y → long v → prints steady (write_s64_dec 1 v) y tt (sdec v).
Proof.
  intros Hp Hv. unfold long in Hv. unfold Hello.write_s64_dec, sdec. destruct (Z.ltb_spec v 0) as [Hn|Hn].
  - assert (u64 (- u64 v) = - v) as -> by (unfold u64; zdm). change (45 :: dec (- v)) with (str "-" ++ dec (- v)).
    eapply prints_bind; [apply steady_trans| |intros y' Hp' _; apply u64_dec_run; [done|lia]]. apply (write_literal (str "-")); [done|]. unfold literals. set_solver.
  - rewrite u64_small by lia. apply u64_dec_run; [done|lia].
Qed.
Lemma getpid_run y : P y → 0 <= active_user_pid (kget y) < 2 ^ 63 →
  chaseros_syscall_getpid hello_bin demo_cnaf irq fuel exit_done cr2 128 regs y = Ret (active_user_pid (kget y), y).
Proof.
  intros Hp Hr. eapply call_returns; [reflexivity| |unfold long; lia]. cbv beta. do 2 f_equal. rewrite <-(u64_small (active_user_pid (kget y))) at 1 by lia. apply i64_u64. lia.
Qed.
Lemma ticks_run y : P y → 0 <= y_ticks y < 2 ^ 63 →
  chaseros_syscall_uptime_ticks hello_bin demo_cnaf irq fuel exit_done cr2 128 regs y = Ret (y_ticks y, y).
Proof.
  intros Hp Hr. eapply call_returns; [reflexivity| |unfold long; lia]. cbv beta. do 2 f_equal. rewrite <-(u64_small (y_ticks y)) at 1 by lia. apply i64_u64. lia.
Qed.
(** a pure step in front *)
Lemma prints_step {A B} R (m : st (ksys D) A) (f : A → st (ksys D) B) y a b t : m y = Ret (a, y) → prints R (f a) y b t → prints R (m ≫= f) y b t.
Proof. intros E (y' & E' & Hy). exists y'. split; [|exact Hy]. by rewrite (st_bind_step _ _ _ _ _ E). Qed.
(** a call of the kernel that prints nothing *)
Lemma prints_call {A B} (m : st (ksys D) A) (f : A → st (ksys D) B) y a y1 b t :
  m y = Ret (a, y1) → y_out y1 = y_out y → prints anyhow (f a) y1 b t → prints anyhow (m ≫= f) y b t.
Proof. intros E Ho (y' & E' & (Hp & Ho') & _). exists y'. split; [by rewrite (st_bind_step _ _ _ _ _ E)|]. split; [|done]. split; [done|]. by rewrite Ho', Ho. Qed.
Lemma greet_run y : P y → 0 <= active_user_pid (kget y) < 2 ^ 63 → 0 <= y_ticks y < 2 ^ 63 →
  prints steady (greet hello_bin demo_cnaf irq fuel exit_done cr2 128 regs lay) y tt
    (line "Hello from user mode (ring 3)" ++ str "pid=" ++ dec (active_user_pid (kget y)) ++ str " uptime_ticks=" ++ dec (y_ticks y) ++ [newline]).
Proof.
  intros Hp Hpid Ht. unfold greet. eapply prints_bind; [apply steady_trans|apply say_run; [done|in_literals]|]. intros y1 P1 [T1 A1].
  eapply prints_bind; [apply steady_trans|apply say_run; [done|in_literals]|]. intros y2 P2 [T2 A2].
  assert (active_user_pid (kget y2) = active_user_pid (kget y)) as Ea by congruence.
  eapply prints_step; [apply getpid_run; [done|by rewrite Ea]|]. rewrite Ea, u64_small by lia.
  eapply prints_bind; [apply steady_trans|apply u64_dec_run; [done|lia]|]. intros y3 P3 [T3 A3].
  eapply prints_bind; [apply steady_trans|apply say_run; [done|in_literals]|]. intros y4 P4 [T4 A4].
  assert (y_ticks y4 = y_ticks y) as Et by congruence.
  eapply prints_step; [apply ticks_run; [done|by rewrite Et]|]. rewrite Et, u64_small by lia.
  eapply prints_bind; [apply steady_trans|apply u64_dec_run; [done|lia]|]. intros y5 P5 _. apply say_run; [done|in_literals].
Qed.
Lemma request_run y : P y → prints steady (ping_request lay) y tt [].
Proof.
  intros Hp. unfold ping_request, prints.
  destruct (store_run (a_req lay) (le_of 8 0) y Hp (bytes_le_of _ _)) as (y1 & E1 & (P1 & O1) & S1 & _); [rewrite length_le_of; right; lia|]. rewrite (st_bind_step _ _ _ _ _ E1).
  destruct (store_run (a_req lay + 8) (le_of 8 CHASEROS_MSG_PING) y1 P1 (bytes_le_of _ _)) as (y2 & E2 & (P2 & O2) & S2 & _); [rewrite length_le_of; right; lia|]. rewrite (st_bind_step _ _ _ _ _ E2).
  erewrite st_bind_step by reflexivity. set (y3 := foldl _ y2 (seqZ 0 48)).
  assert ((P y3 ∧ y_out y3 = y_out y2) ∧ steady y2 y3) as ((P3 & O3) & S3).
  { unfold y3. generalize y2 P2. assert (∀ i, i ∈ seqZ 0 48 → 0 <= i < 48) as Hi by (intros i; rewrite elem_of_seqZ; lia).
    induction (seqZ 0 48) as [|i l IH]; intros z Pz; cbn [foldl]; [done|].
    destruct (store_run (a_req lay + 16 + i) [0] z Pz) as (z' & Ez & (Pz' & Oz) & Sz & _); [by apply Forall_singleton|right; specialize (Hi i ltac:(set_solver)); cbn [length]; lia|].
    injection Ez as Ez. rewrite Ez. destruct (IH (λ j Hj, Hi j (list_elem_of_further _ _ _ Hj)) z' Pz') as ((P' & O') & S'). split; [|by etrans]. split; [done|congruence]. }
  destruct (store_run (a_req lay + 16) [120] y3 P3) as (y4 & E4 & (P4 & O4) & S4 & _); [by apply Forall_singleton|right; cbn [length]; lia|].
  exists y4. split; [exact E4|]. split; [split; [done|]; rewrite app_nil_r; congruence|]. etrans; [exact S1|]. etrans; [exact S2|]. by etrans.
Qed.
Context (Henv : hello_env P).
Lemma ping_run y : P y → ∃ cr pong, long cr ∧ 0 <= pong < 2 ^ 64 ∧ prints anyhow (ping hello_bin demo_cnaf irq fuel exit_done cr2 128 regs lay) y tt
  (str "ipc_call(ping)=" ++ sdec cr ++ str " pong_type=" ++ dec pong ++ [newline]).
Proof.
  intros Hp. destruct (request_run y Hp) as (y0 & E0 & (P0 & O0) & _). destruct (he_call P Henv y0 P0) as (cr & y1 & E1 & Hcr & P1 & O1).
  destruct (say_run (str "ipc_call(ping)=") y1 P1 ltac:(in_literals)) as (y2 & E2 & (P2 & O2) & _). destruct (s64_dec_run cr y2 P2 Hcr) as (y3 & E3 & (P3 & O3) & _).
  destruct (say_run (str " pong_type=") y3 P3 ltac:(in_literals)) as (y4 & E4 & (P4 & O4) & _).
  set (pong := ld64 (vm_mem (y_vm y4)) (a_rep lay + 8)). assert (0 <= pong < 2 ^ 64) as Hpong by (apply ld64_range; by apply (he_bytes P Henv)).
  destruct (u64_dec_run pong y4 P4 Hpong) as (y5 & E5 & (P5 & O5) & _). destruct (say_run [newline] y5 P5 ltac:(in_literals)) as (y6 & E6 & (P6 & O6) & _).
  exists cr, pong. split; [done|]. split; [done|]. exists y6. split; [|split; [|done]; split; [done|]; rewrite O6, O5, O4, O3, O2, O1, O0, app_nil_r; by rewrite <-!app_assoc].
  unfold ping. rewrite (st_bind_step _ _ _ _ _ E0). rewrite (st_bind_step _ _ y0 cr y1) by (eapply call_returns; [reflexivity|exact E1|exact Hcr]).
  rewrite (st_bind_step _ _ _ _ _ E2), (st_bind_step _ _ _ _ _ E3), (st_bind_step _ _ _ _ _ E4). erewrite st_bind_step by reflexivity.
  by rewrite (st_bind_step _ _ _ _ _ E5).
Qed.
Lemma stdin_run y : P y → prints anyhow (read_stdin hello_bin demo_cnaf irq fuel exit_done cr2 128 regs lay) y tt (str "read(stdin) returned " ++ dec 0 ++ [newline]).
Proof.
  intros Hp. unfold read_stdin. apply prints_any. apply prints_step with (a := 0).
  { eapply call_returns; [reflexivity| |unfold long; lia]. cbn [r_rdi r_rsi r_rdx call_regs]. unfold sys_read. change (i32 (u64 0)) with 0. cbv zeta. change (0 =? 0) with true. change (8 =? 0) with false.
    change (CHASEROS_SYSCALL_MAX_IO_BYTES <? 8) with false. cbn iota. unfold writable, mbind, st_mbind. by rewrite (he_scratch P Henv y Hp). }
  eapply prints_bind; [apply steady_trans|apply say_run; [done|in_literals]|]. intros y1 P1 _. change (0 <=? 0) with true. cbn iota. change (u64 0) with 0.
  eapply prints_bind; [apply steady_trans|apply u64_dec_run; [done|lia]|]. intros y2 P2 _. apply say_run; [done|in_literals].
Qed.
Lemma zero_run y : P y → ∃ zn, long zn ∧ prints anyhow (read_zero hello_bin demo_cnaf irq fuel exit_done cr2 128 regs lay) y tt (str "open(/dev/zero) read=" ++ sdec zn ++ [newline]).
Proof.
  intros Hp. destruct (he_open P Henv y (str "/dev/zero") Hp) as (zfd & y1 & E1 & H1 & P1 & O1); [unfold paths; set_solver|].
  destruct (he_read P Henv y1 zfd P1) as (zn & y2 & E2 & H2 & P2 & O2). exists zn. split; [done|]. unfold read_zero.
  eapply prints_call; [eapply call_returns; [reflexivity|exact E1|exact H1]|done|]. eapply prints_call; [eapply call_returns; [reflexivity|exact E2|exact H2]|done|].
  eapply prints_bind; [apply anyhow_trans|apply prints_any, say_run; [done|in_literals]|]. intros y3 P3 _.
  eapply prints_bind; [apply anyhow_trans|apply prints_any, s64_dec_run; done|]. intros y4 P4 _. rewrite <-(app_nil_r [newline]).
  eapply prints_bind; [apply anyhow_trans|apply prints_any, say_run; [done|in_literals]|]. intros y5 P5 _.
  destruct (he_close P Henv y5 zfd P5) as (r & y6 & E6 & H6 & P6 & O6).
  eapply prints_call; [eapply call_returns; [reflexivity|exact E6|exact H6]|done|]. by apply prints_any, prints_ret.
Qed.
Lemma bogus_run y : P y → ∃ fd, long fd ∧ prints anyhow (open_bogus hello_bin demo_cnaf irq fuel exit_done cr2 128 regs lay) y tt (str "open(bogus)=" ++ sdec fd ++ [newline]).
Proof.
  intros Hp. destruct (he_open P Henv y (str "__chaseros_no_such_file__") Hp) as (fd & y1 & E1 & H1 & P1 & O1); [unfold paths; set_solver|].
  exists fd. split; [done|]. unfold open_bogus. eapply prints_call; [eapply call_returns; [reflexivity|exact E1|exact H1]|done|].
  eapply prints_bind; [apply anyhow_trans|apply prints_any, say_run; [done|in_literals]|]. intros y3 P3 _.
  eapply prints_bind; [apply anyhow_trans|apply prints_any, s64_dec_run; done|]. intros y4 P4 _. apply prints_any, say_run; [done|in_literals].
Qed.
(** leaving the program *)
Lemma exit_run y : P y → r_rip regs ≠ exit_done →
  ∃ r y', chaseros_syscall_exit hello_bin demo_cnaf irq fuel exit_done cr2 128 regs 0 y = Ret (Resume r, y') ∧ y_out y' = y_out y ∧
    exit_frame exit_done (call_regs regs 128 CHASEROS_SYS_EXIT 0 (r_rsi regs) (r_rdx regs)) r.
Proof.
  intros Hp Hne. set (r0 := call_regs regs 128 CHASEROS_SYS_EXIT 0 (r_rsi regs) (r_rdx regs)). destruct (he_exit P Henv y r0 Hp) as (r & y' & E).
  pose proof (exit_call _ _ _ _ _ _ E) as Hf. assert (y_out y' = y_out y) as Ho.
  { unfold framed_call, user_op in E. apply st_bind_Ret in E as ([w r1] & y1 & E1 & E2). injection E2 as _ <-.
    apply outcome_bind_Ret in E1 as ([[w' r1'] u] & _ & E1). by injection E1 as _ _ <-. }
  exists r, y'. split; [|done]. unfold chaseros_syscall_exit, syscall_any. change (u64 0) with 0. fold r0.
  assert (int80 hello_bin demo_cnaf irq fuel exit_done cr2 128 regs CHASEROS_SYS_EXIT 0 (r_rsi regs) (r_rdx regs) y = Ret (Resume r, y')) as Ei.
  { unfold int80, isr_handler. fold r0. assert (Z.land (r_cs r0) 3 = 3) as -> by exact Hcs.
    change (r_int_no r0) with 128. cbn [Z.ltb Z.leb Z.compare Pos.compare Pos.compare_cont andb Z.eqb Pos.eqb negb]. erewrite st_bind_step; [reflexivity|exact E]. }
  assert (comes_back regs r = false) as Hb.
  { destruct Hf as (stk & ->). unfold comes_back. cbn [r_rip set_rax set_iret]. apply andb_false_iff. left. by apply Z.eqb_neq. }
  erewrite st_bind_step by (rewrite (st_bind_step _ _ _ _ _ Ei), Hb; reflexivity). done.
Qed.
Lemma body_run y : P y → 0 <= active_user_pid (kget y) < 2 ^ 63 → 0 <= y_ticks y < 2 ^ 63 → ∃ cr pong zn fd,
  prints anyhow (start_body hello_bin demo_cnaf irq fuel exit_done cr2 128 regs lay) y tt (transcript (active_user_pid (kget y)) (y_ticks y) cr pong zn fd).
Proof.
  intros Hp Hpid Ht. destruct (greet_run y Hp Hpid Ht) as (y1 & E1 & (P1 & O1) & _). destruct (ping_run y1 P1) as (cr & pong & _ & _ & y2 & E2 & (P2 & O2) & _).
  destruct (stdin_run y2 P2) as (y3 & E3 & (P3 & O3) & _). destruct (zero_run y3 P3) as (zn & _ & y4 & E4 & (P4 & O4) & _). destruct (bogus_run y4 P4) as (fd & _ & y5 & E5 & (P5 & O5) & _).
  exists cr, pong, zn, fd, y5. split; [|split; [|done]; split; [done|]; rewrite O5, O4, O3, O2, O1; unfold transcript; by rewrite <-!app_assoc].
  unfold start_body. by rewrite (st_bind_step _ _ _ _ _ E1), (st_bind_step _ _ _ _ _ E2), (st_bind_step _ _ _ _ _ E3), (st_bind_step _ _ _ _ _ E4).
Qed.
End run.

(** ** The program with the frame that the stub really leaves *)
Section stub.
Context {D : Type} `{Ports D}.
Context (hello_bin demo_cnaf : list Z) (irq : ksys D → outcome (ksys D)) (fuel : nat) (exit_done cr2 : Z) (regs : registers) (lay : layout).
(** the literals, away from the variables *)
Definition texts (y : ksys D) : Prop := ∀ s i, s ∈ literals → (i <= length s)%nat → vm_mem (y_vm y) (lit lay s + Z.of_nat i) = nth i s 0.
Definition apart_texts : Prop := ∀ s i, s ∈ literals → (i <= length s)%nat →
  let x := lit lay s + Z.of_nat i in x ≠ a_c lay ∧ (x < a_req lay ∨ a_req lay + 64 <= x).
Context (Hap : apart_texts).
Notation vec := (push_byte 128).
Definition quiet {A} (m : st (ksys D) A) : Prop := ∀ y, texts y → ∃ a y', m y = Ret (a, y') ∧ texts y' ∧ y_out y' = y_out y.
Lemma quiet_bind {A B} (m : st (ksys D) A) (f : A → st (ksys D) B) : quiet m → (∀ a, quiet (f a)) → quiet (m ≫= f).
Proof.
  intros Hm Hf y Hy. destruct (Hm y Hy) as (a & y1 & E1 & T1 & O1). destruct (Hf a y1 T1) as (b & y2 & E2 & T2 & O2).
  exists b, y2. split; [by rewrite (st_bind_step _ _ _ _ _ E1)|]. split; [done|congruence].
Qed.
Lemma quiet_ret {A} (a : A) : quiet (mret a).
Proof. intros y Hy. by exists a, y. Qed.
Lemma quiet_int nr rdi rsi rdx y : int80 hello_bin demo_cnaf irq fuel exit_done cr2 vec regs nr rdi rsi rdx y = Ret (Resume (call_regs regs vec nr rdi rsi rdx), y).
Proof. reflexivity. Qed.
Lemma quiet_call nr rdi rsi rdx : quiet (syscall3 hello_bin demo_cnaf irq fuel exit_done cr2 vec regs nr rdi rsi rdx).
Proof. intros y Hy. eexists _, y. split; [|done]. unfold syscall3. by rewrite (st_bind_step _ _ _ _ _ (quiet_int nr rdi rsi rdx y)). Qed.
Lemma quiet_store a l : (a = a_c lay ∧ length l = 1%nat) ∨ (a_req lay <= a ∧ a + Z.of_nat (length l) <= a_req lay + 64) → quiet (store a l).
Proof.
  intros Ha y Hy. eexists tt, _. split; [reflexivity|]. split; [|done]. intros s i Hs Hi. destruct (Hap s i Hs Hi) as [N1 N2].
  change (mwrite (vm_mem (y_vm y)) a l (lit lay s + Z.of_nat i) = nth i s 0). rewrite mwrite_out by lia. by apply Hy.
Qed.
Lemma quiet_say s : s ∈ literals → quiet (say hello_bin demo_cnaf irq fuel exit_done cr2 vec regs lay s).
Proof.
  intros Hs y Hy. destruct (literals_ok s Hs) as [Hc Hl]. unfold say, write_cstr.
  rewrite (st_bind_step _ _ _ _ _ (strlen_run lay s y Hc (λ i, Hy s i Hs) ltac:(lia))).
  apply (quiet_bind _ _ (quiet_call _ _ _ _) (λ _, quiet_ret tt) y Hy).
Qed.
Lemma digit_loop_ends k : ∀ v buf, (24 <= length buf + k)%nat → ∃ r, digit_loop k v buf = Ret r.
Proof.
  induction k as [|k IH]; intros v buf Hk; cbn [digit_loop]; (destruct (0 <? v); [|by eexists]); cbn [andb].
  - rewrite (proj2 (Nat.ltb_ge _ 24)) by lia. by eexists.
  - case_match; [|by eexists]. apply IH. rewrite length_app. cbn [length]. lia.
Qed.
Lemma quiet_dec v : quiet (write_u64_dec hello_bin demo_cnaf irq fuel exit_done cr2 vec regs lay 1 v).
Proof.
  unfold write_u64_dec. case_if; [apply quiet_bind; [apply quiet_call|intros; apply quiet_ret]|]. intros y Hy. destruct (digit_loop_ends 24 v [] ltac:(cbn; lia)) as [buf E].
  unfold st_lift. erewrite st_bind_step by (rewrite E; reflexivity). revert y Hy. change (quiet (write_digits hello_bin demo_cnaf irq fuel exit_done cr2 vec regs lay 1 (rev buf))).
  induction (rev buf) as [|c l IH]; cbn [write_digits]; [apply quiet_ret|]. apply quiet_bind; [apply quiet_store; by left|]. intros _. apply quiet_bind; [apply quiet_call|done].
Qed.
Lemma quiet_sdec v : quiet (write_s64_dec hello_bin demo_cnaf irq fuel exit_done cr2 vec regs lay 1 v).
Proof. unfold write_s64_dec. case_if; [|apply quiet_dec]. apply quiet_bind; [apply quiet_call|intros _; apply quiet_dec]. Qed.
Lemma quiet_request : quiet (ping_request lay).
Proof.
  unfold ping_request. apply quiet_bind; [apply quiet_store; rewrite length_le_of; right; lia|intros _]. apply quiet_bind; [apply quiet_store; rewrite length_le_of; right; lia|intros _].
  apply quiet_bind; [|intros _; apply quiet_store; right; cbn [length]; lia]. intros y Hy. eexists tt, _. split; [reflexivity|].
  assert (∀ i, i ∈ seqZ 0 48 → 0 <= i < 48) as Hi by (intros i; rewrite elem_of_seqZ; lia). revert y Hy Hi. induction (seqZ 0 48) as [|i l IH]; intros y Hy Hi; cbn [foldl]; [done|].
  destruct (quiet_store (a_req lay + 16 + i) [0]) with (y := y) as ([] & y' & E & T & O); [right; specialize (Hi i ltac:(set_solver)); cbn [length]; lia|done|].
  injection E as E. rewrite E, <-O. apply IH; [done|]. intros j Hj. apply Hi. by right.
Qed.
Lemma quiet_load a : quiet (load64 a).
Proof. intros y Hy. by eexists _, y. Qed.
Ltac quiet_step :=
  lazymatch goal with
  | |- quiet (_ ≫= _) => apply quiet_bind; [|intros ?]
  | |- quiet (say _ _ _ _ _ _ _ _ _ _) => apply quiet_say; in_literals
  | |- quiet (write_u64_dec _ _ _ _ _ _ _ _ _ _ _) => apply quiet_dec
  | |- quiet (write_s64_dec _ _ _ _ _ _ _ _ _ _ _) => apply quiet_sdec
  | |- quiet (ping_request _) => apply quiet_request
  | |- quiet (load64 _) => apply quiet_load
  | |- quiet (mret _) => apply quiet_ret
  | |- quiet (if _ then _ else _) => case_if
  | |- _ => apply quiet_call
  end.
Lemma quiet_body : quiet (start_body hello_bin demo_cnaf irq fuel exit_done cr2 vec regs lay).
Proof. unfold start_body, greet, ping, read_stdin, read_zero, open_bogus. repeat quiet_step. Qed.
End stub.

(** ** Theorems *)

(** What the program would print if the stub left 128 in the frame: for every kernel that keeps its text and variables in place and whose
    waiting calls return, [_start] ends with the frame that resumes the kernel
    at [userland_exit_done], and has printed exactly the transcript: the
    greeting, the process number and the clock at the start, then the results
    of the calls in decimal, negative ones with a sign. *)
Theorem hello_transcript {D} `{Ports D} hello_bin demo_cnaf irq fuel exit_done cr2 regs lay P (y : ksys D) :
  hello_env irq fuel exit_done lay P → Z.land (r_cs regs) 3 = 3 → r_rip regs ≠ exit_done → P y →
  0 <= active_user_pid (kget y) < 2 ^ 63 → 0 <= y_ticks y < 2 ^ 63 →
  ∃ cr pong zn fd r y', _start hello_bin demo_cnaf irq fuel exit_done cr2 128 regs lay y = Ret (Resume r, y') ∧
    y_out y' = y_out y ++ transcript (active_user_pid (kget y)) (y_ticks y) cr pong zn fd ∧
    exit_frame exit_done (call_regs regs 128 CHASEROS_SYS_EXIT 0 (r_rsi regs) (r_rdx regs)) r.
Proof.
  intros Henv Hcs Hne Hp Hpid Ht.
  destruct (body_run hello_bin demo_cnaf irq fuel exit_done cr2 regs lay P (he_text _ _ _ _ _ Henv) Hcs Henv y Hp Hpid Ht) as (cr & pong & zn & fd & y1 & E1 & (P1 & O1) & _).
  destruct (exit_run hello_bin demo_cnaf irq fuel exit_done cr2 regs lay P Hcs Henv y1 P1 Hne) as (r & y2 & E2 & O2 & Hf).
  exists cr, pong, zn, fd, r, y2. split; [|split; [by rewrite O2|done]]. unfold _start. by rewrite (st_bind_step _ _ _ _ _ E1).
Qed.

(** ** Witnesses: a kernel with nothing mounted and without the service task *)
Definition pool : list Z := concat ((λ s, s ++ [0]) <$> literals ++ paths).
Fixpoint place (l : list (list Z)) (a : Z) (s : list Z) : Z :=
  match l with
  | [] => a
  | t :: l => if str_eqb t s then a else place l (a + Z.of_nat (length t) + 1) s
  end.
Definition demo_layout : layout := Layout (place (literals ++ paths) 0x400000) 0x400400 0x400500 0x400600 0x400700 0x400780.
Definition hello_mem : mem := mwrite (boot_tables 0x87) 0x400000 pool.
Definition hello_kernel : ksys ata :=
  Ksys (Usys (Fsys false VFS_FS_NONE (Vst (CVol CHASEROS_VOL_NONE 0 0 0) 0 0 (Vm hello_mem demo_frames 0x1000) sim_disk) (replicate 8 (UserFdSlot false [] 0 0)) [slash])
    (Kst (Vm hello_mem demo_frames 0x1000) exec_procs 0 3 2 0) 0x5000) [] 7 [] (y_con (sim_kernel [])) [] [slash].
Record quiet_kernel (y : ksys ata) : Prop := {
  qk_cr3 : vm_cr3 (y_vm y) = 0x1000;
  qk_mem : ∀ x, x < 0x400400 → vm_mem (y_vm y) x = hello_mem x;
  qk_bytes : mem_bytes (vm_mem (y_vm y));
  qk_mounted : g_mounted (y_fs y) = false;
  qk_ufd : g_ufd (y_fs y) = replicate 8 (UserFdSlot false [] 0 0);
  qk_tasks : tasks (u_tasks (y_user y)) = exec_procs;
  qk_stk : exit_stk (y_user y) = 0x5000
}.
Lemma pool_bytes : bytes pool.
Proof.
  assert (forallb (λ c, (0 <=? c) && (c <? 256)) pool = true) as E by reflexivity. rewrite forallb_forall in E. apply Forall_forall. intros c Hc%list_elem_of_In.
  specialize (E c Hc). apply andb_true_iff in E as [?%Z.leb_le ?%Z.ltb_lt]. done.
Qed.
Lemma pool_literal s i : s ∈ literals → (i <= length s)%nat → hello_mem (lit demo_layout s + Z.of_nat i) = nth i s 0 ∧
  0x400000 <= lit demo_layout s ∧ lit demo_layout s + Z.of_nat (length s) < 0x400400.
Proof.
  intros Hs Hi. assert (forallb (λ s, forallb (λ i, nth (Z.to_nat (lit demo_layout s - 0x400000) + i) pool 0 =? nth i s 0) (seq 0 (S (length s))) &&
    (0x400000 <=? lit demo_layout s) && (lit demo_layout s + Z.of_nat (length s) <? 0x400000 + Z.of_nat (length pool))) literals = true) as E by reflexivity.
  rewrite forallb_forall in E. specialize (E s (proj1 (list_elem_of_In _ _) Hs)). rewrite !andb_true_iff in E. destruct E as [[E1 E2%Z.leb_le] E3%Z.ltb_lt].
  rewrite forallb_forall in E1. specialize (E1 i ltac:(apply in_seq; lia)). apply Z.eqb_eq in E1.
  assert (Z.of_nat (length pool) < 0x400) as El by reflexivity. split; [|lia]. unfold hello_mem. rewrite mwrite_in by lia. rewrite <-E1. f_equal. lia.
Qed.
Lemma quiet_flags y need : quiet_kernel y → need = 0 ∨ need = PAGE_WRITE → vmm_page_has_flags (y_vm y) 0x400000 need = true.
Proof.
  intros Hy. apply user_page_flags; [apply Hy|]. intros a Ha. rewrite (qk_mem y Hy) by lia. unfold hello_mem, user_mem. rewrite !mwrite_out by lia. done.
Qed.
Lemma quiet_readable y a len : quiet_kernel y → 0 < len → 0x400000 <= a → a + len <= 0x401000 → vmm_user_range_readable range_fuel (y_vm y) a len = Ret true.
Proof. intros Hy ? ? ?. apply framed_range; [by apply quiet_flags; [|left]|done..]. Qed.
Lemma quiet_writable y a len : quiet_kernel y → 0 < len → 0x400000 <= a → a + len <= 0x401000 → vmm_user_range_writable range_fuel (y_vm y) a len = Ret true.
Proof. intros Hy ? ? ?. apply framed_range; [by apply quiet_flags; [|right]|done..]. Qed.
Lemma quiet_hello_kernel : quiet_kernel hello_kernel.
Proof. split; try done. apply mem_bytes_mwrite; [apply boot_bytes|apply pool_bytes]. Qed.
Lemma quiet_fd y fd ua len : quiet_kernel y → user_fd_sys_read fd ua len (y_fs y) = Ret (- EBADF, y_fs y) ∧ user_fd_sys_close fd (y_fs y) = Ret (- EBADF, y_fs y).
Proof.
  intros Hy. unfold user_fd_sys_read, user_fd_sys_close. destruct (bad_fd fd) eqn:Eb; [done|]. unfold bad_fd in Eb. apply orb_false_iff in Eb as [E1%Z.ltb_ge E2%Z.leb_gt].
  unfold CHASEROS_USER_FD_MIN, CHASEROS_USER_FD_NUM in *. unfold aget. rewrite (proj2 (Z.leb_le 0 (fd - 3))), (qk_ufd y Hy), lookup_replicate_2 by lia. done.
Qed.
Lemma quiet_set_fs y : quiet_kernel y → quiet_kernel (set_yfs y (y_fs y)).
Proof. intros Hy. destruct y as [[? ? ?] ? ? ? ? ? ?]. exact Hy. Qed.
Lemma hello_kernel_text : text_env demo_layout quiet_kernel.
Proof.
  split.
  - intros y s Hy. split; apply Hy.
  - intros y a l Hy Hb Ha. cbn [a_c a_req demo_layout] in Ha. split; try apply Hy.
    + intros x Hx. change (mwrite (vm_mem (y_vm y)) a l x = hello_mem x). rewrite mwrite_out by lia. by apply Hy.
    + apply mem_bytes_mwrite; [apply Hy|done].
  - intros y s Hy Hs. destruct (literals_ok s Hs) as [_ Hl]. destruct (pool_literal s 0 Hs ltac:(lia)) as (_ & H1 & H2). split; [lia| |].
    + intros i Hi. destruct (pool_literal s i Hs Hi) as (E & _). rewrite (qk_mem y Hy); [done|lia].
    + apply quiet_readable; [done|lia..].
  - intros y Hy. split; [cbn; lia|]. apply quiet_readable; [done|cbn; lia..].
Qed.
Lemma hello_kernel_env : hello_env (λ y, Ret y) 0 0xC0DE demo_layout quiet_kernel.
Proof.
  split.
  - exact hello_kernel_text.
  - intros y Hy. apply Hy.
  - intros y Hy. apply quiet_writable; [done|cbn; lia..].
  - intros y Hy. exists (- EINVAL), (kput y (kget y)). split; [|split; [unfold long, EINVAL; lia|split; [|done]]].
    + unfold sys_ipc_call. rewrite (st_bind_step _ _ y true y) by (unfold readable; by rewrite (quiet_readable y) by (done || cbn; lia)).
      rewrite (st_bind_step _ _ y true y) by (cbn iota; unfold writable; by rewrite (quiet_writable y) by (done || cbn; lia)). cbn [negb]. erewrite st_bind_step by reflexivity.
      rewrite (st_bind_step _ _ y IPC_ERROR (kput y (kget y))); [reflexivity|]. unfold kern_op, ipc_send, process_find_by_pid. cbv zeta.
      change (tasks (kget y)) with (tasks (u_tasks (y_user y))). rewrite (qk_tasks y Hy). reflexivity.
    + split; try apply Hy.
  - intros y s Hy _. exists (- EINVAL), y. split; [|done]. unfold sys_open, user_fd_sys_open, vfs_is_mounted. by rewrite (qk_mounted y Hy).
  - intros y fd Hy. unfold sys_read. cbv zeta. set (n := i32 _). case_if.
    + exists 0, y. split; [|done]. change (4 =? 0) with false. change (CHASEROS_SYSCALL_MAX_IO_BYTES <? 4) with false. cbn iota. unfold writable, mbind, st_mbind.
      by rewrite (quiet_writable y) by (done || cbn; lia).
    + case_if; [by exists (- EBADF), y|]. case_if; [|by exists (- EBADF), y]. exists (- EBADF), (set_yfs y (y_fs y)). split; [|split; [done|split; [by apply quiet_set_fs|done]]].
      unfold fs_op. by rewrite (proj1 (quiet_fd y n _ _ Hy)).
  - intros y fd Hy. exists (- EBADF), (set_yfs y (y_fs y)). split; [|split; [done|split; [by apply quiet_set_fs|done]]]. unfold fs_op. by rewrite (proj2 (quiet_fd y _ 0 0 Hy)).
  - intros y r Hy. unfold framed_call, user_op, user_sys__exit, user_on_syscall_exit, mbind, st_mbind. cbv zeta. cbn [exit_stk put_kern]. rewrite (qk_stk y Hy). cbn. eexists _, _. reflexivity.
Qed.
Definition hello_regs : registers := call_frame_of 0 0 0 0 0x1B.
Lemma hello_transcript_witness : ∃ cr pong zn fd r y', _start [] [] (λ y, Ret y) 0 0xC0DE 0 128 hello_regs demo_layout hello_kernel = Ret (Resume r, y') ∧
  y_out y' = transcript 2 7 cr pong zn fd.
Proof.
  destruct (hello_transcript [] [] (λ y, Ret y) 0 0xC0DE 0 hello_regs demo_layout quiet_kernel hello_kernel) as (cr & pong & zn & fd & r & y' & E & Ho & _).
  - exact hello_kernel_env.
  - reflexivity.
  - discriminate.
  - exact quiet_hello_kernel.
  - cbn. lia.
  - cbn. lia.
  - exists cr, pong, zn, fd, r, y'. split; [exact E|exact Ho].
Defined.
End Hello.
