(* ===== verification/Boot.v ===== *)
(** Start-up: the serial port (kernel/drivers/serial.c), the descriptor tables
    (kernel/gdt.c, kernel/idt.c) and [kernel_main] (kernel/main.c).  The
    tables are [tables]; the addresses that the linker chooses (the kernel
    image, the interrupt stubs, the TSS, the loop of the file system service)
    are parameters.
    Theorems: the interrupt table sends every vector to its stub and lets
    ring 3 raise vector 0x80 only; the segment table gives the selectors used
    for ring 3 and ring 0 their privilege and describes the TSS; the serial
    port transmits the text; [kernel_main] on a valid hand-off brings up a
    well-formed system, prints the banner and waits at the prompt. *)
From stdpp Require Import base numbers list sets strings.
From S2P Require Import Prelude Bitmap Memory Multiboot Io Console Pmm Vmm Process Ipc Path Vol Ide Vfs UserFd HybridIpc UserExec Kernel Shell Isr.
Open Scope Z_scope.

Module Serial.
Import Io.
Definition COM1 := 0x3F8.
Section serial.
Context {D : Type} `{Ports D}.
Definition serial_init : est D unit :=
  _ ← out_b (COM1 + 1) 0x00;
  _ ← out_b (COM1 + 3) 0x80;
  _ ← out_b (COM1 + 0) 0x03;
  _ ← out_b (COM1 + 1) 0x00;
  _ ← out_b (COM1 + 3) 0x03;
  _ ← out_b (COM1 + 2) 0xC7;
  out_b (COM1 + 4) 0x0B.
Definition is_transmit_empty : est D Z := st ← in_b (COM1 + 5); mret (Z.land st 0x20).
(** [while (is_transmit_empty() == 0);] *)
Fixpoint transmit_wait (fuel : nat) : est D unit :=
  e ← is_transmit_empty;
  if e =? 0 then match fuel with O => est_lift Loop | S fuel => transmit_wait fuel end else mret tt.
Definition serial_putchar (fuel : nat) (c : Z) : est D unit := _ ← transmit_wait fuel; out_b COM1 c.
Fixpoint serial_puts (fuel : nat) (s : list Z) : est D unit :=
  match s with
  | [] => mret tt
  | c :: s => _ ← serial_putchar fuel c; serial_puts fuel s
  end.
End serial.
(** a serial port: what it has transmitted and how many polls it is busy *)
Class Uart (D : Type) `{Ports D} := {
  uart_rep : D → list Z → nat → Prop;
  uart_busy : ∀ d sent k, uart_rep d sent (S k) →
    Z.land (fst (inb (COM1 + 5) d)) 0x20 = 0 ∧ uart_rep (snd (inb (COM1 + 5) d)) sent k;
  uart_ready : ∀ d sent, uart_rep d sent 0 →
    Z.land (fst (inb (COM1 + 5) d)) 0x20 ≠ 0 ∧ uart_rep (snd (inb (COM1 + 5) d)) sent 0;
  uart_polls : nat;
  uart_send : ∀ d sent c, uart_rep d sent 0 → ∃ k, (k <= uart_polls)%nat ∧ uart_rep (outb COM1 c d) (sent ++ [c]) k
}.
Section transmit.
Context {D : Type} `{Uart D}.
Lemma transmit_wait_spec k : ∀ fuel d sent, uart_rep d sent k → (k <= fuel)%nat →
  ∃ d', transmit_wait fuel d = Ret (Some tt, d') ∧ uart_rep d' sent 0.
Proof.
  induction k as [|k IH]; intros fuel d sent Hd Hf.
  - destruct (uart_ready d sent Hd) as [Hr Hd']. assert (∀ n, transmit_wait n d = Ret (Some tt, snd (inb (COM1 + 5) d))) as E; [|by rewrite E; eauto].
    intros n. destruct n; cbn [transmit_wait]; erewrite est_bind_step by reflexivity; by rewrite (proj2 (Z.eqb_neq _ _) Hr).
  - destruct fuel as [|fuel]; [lia|]. destruct (uart_busy d sent k Hd) as [Hb Hd']. cbn [transmit_wait]. erewrite est_bind_step by reflexivity.
    rewrite (proj2 (Z.eqb_eq _ _) Hb). apply IH; [done|lia].
Qed.
End transmit.
(** The serial port transmits what it is given: on a port that is busy
    for a bounded number of polls after each character, [serial_puts] returns
    and has sent exactly the characters of the string, in order, none of them
    while the port was busy. *)
Theorem serial_puts_transmits {D} `{Uart D} s : ∀ fuel d sent k, uart_rep d sent k → (k <= fuel)%nat → (uart_polls <= fuel)%nat →
  ∃ d' k', serial_puts fuel s d = Ret (Some tt, d') ∧ uart_rep d' (sent ++ s) k' ∧ (k' <= Nat.max k uart_polls)%nat.
Proof.
  induction s as [|c s IH]; intros fuel d sent k Hd Hk Hp; cbn [serial_puts].
  { exists d, k. rewrite app_nil_r. split; [done|]. split; [done|lia]. }
  destruct (transmit_wait_spec k fuel d sent Hd Hk) as (d1 & E1 & H1). destruct (uart_send d1 sent c H1) as (k1 & Hk1 & H2).
  destruct (IH fuel (outb COM1 c d1) (sent ++ [c]) k1 H2 ltac:(lia) Hp) as (d' & k' & E & Hr & Hk'). exists d', k'.
  rewrite <-app_assoc in Hr. split; [|split; [exact Hr|lia]]. unfold serial_putchar. erewrite est_bind_step; [exact E|]. by rewrite (est_bind_step _ _ _ _ _ E1).
Qed.
(** a port that is busy for two polls after each character *)
#[export] Instance sim_uart_ports : Ports (list Z * nat) := {
  inb := λ port d, match snd d with S k => (0, (fst d, k)) | O => (0x20, d) end;
  outb := λ port v d, (fst d ++ [v], 2%nat);
  inw := λ port d, (0, d); outw := λ port v d, d; inl32 := λ port d, (0, d); outl := λ port v d, d
}.
#[export] Program Instance sim_uart : Uart (list Z * nat) := { uart_rep := λ d sent k, d = (sent, k); uart_polls := 2 }.
Next Obligation. by intros d sent k ->. Qed.
Next Obligation. by intros d sent ->. Qed.
Next Obligation. intros d sent c ->. exists 2%nat. by split; [lia|]. Qed.
Lemma serial_puts_transmits_witness : ∃ d k', serial_puts 2 (str "ok") ([], 1%nat) = Ret (Some tt, d) ∧ d = (str "ok", k').
Proof.
  destruct (serial_puts_transmits (str "ok") 2 ([], 1%nat) [] 1) as (d' & k' & E & Hr & _).
  - reflexivity.
  - lia.
  - simpl. lia.
  - exists d', k'. split; [exact E|exact Hr].
Defined.
End Serial.

Module Tables.
(** ** The interrupt table (idt.c) *)
Record idt_entry := IdtEntry { base_low : Z; selector : Z; ist : Z; flags : Z; base_mid : Z; base_high : Z; reserved : Z }.
Definition idt_zero : idt_entry := IdtEntry 0 0 0 0 0 0 0.
Definition idt_set_gate (idt : list idt_entry) (num base sel fl : Z) : list idt_entry :=
  <[Z.to_nat num := IdtEntry (Z.land base 0xFFFF) sel 0 fl (Z.land (Z.shiftr base 16) 0xFFFF) (Z.land (Z.shiftr base 32) 0xFFFFFFFF) 0]> idt.
Section pic.
Context {D : Type} `{Ports D}.
Import Io.
Definition PIC1_COMMAND := 0x20.
Definition PIC1_DATA := 0x21.
Definition PIC2_COMMAND := 0xA0.
Definition PIC2_DATA := 0xA1.
Definition out_wait (port v : Z) : est D unit := _ ← out_b port v; io_wait.
Definition pic_remap : est D unit :=
  _ ← out_wait PIC1_COMMAND 0x11;
  _ ← out_wait PIC2_COMMAND 0x11;
  _ ← out_wait PIC1_DATA 0x20;
  _ ← out_wait PIC2_DATA 0x28;
  _ ← out_wait PIC1_DATA 4;
  _ ← out_wait PIC2_DATA 2;
  _ ← out_wait PIC1_DATA 0x01;
  _ ← out_wait PIC2_DATA 0x01;
  _ ← out_b PIC1_DATA 0xF8;
  out_b PIC2_DATA 0xEF.
End pic.
(** [stub n]: the address of [isr<n>], or of [irq<n - 32>] *)
Definition idt_gates (stub : Z → Z) (idt : list idt_entry) : list idt_entry :=
  let idt := foldl (λ t i, idt_set_gate t i 0 0 0) idt (seqZ 0 256) in
  let idt := foldl (λ t i, idt_set_gate t i (stub i) 0x08 0x8E) idt (seqZ 0 48) in
  idt_set_gate idt 128 (stub 128) 0x08 0xEE.

(** ** The segment table (gdt.c) *)
Record tss64 := Tss { rsp0 : Z; rsp1 : Z; rsp2 : Z; tss_ist : list Z; iomap_base : Z }.
Definition sizeof_tss := 104.
Definition encode_tss_descriptor (base limit : Z) : Z * Z :=
  (Z.lor (Z.lor (Z.lor (Z.lor (Z.lor (Z.land limit 0xFFFF) (Z.shiftl (Z.land base 0xFFFF) 16))
     (Z.shiftl (Z.land (Z.shiftr base 16) 0xFF) 32)) (Z.shiftl 0x89 40))
     (Z.shiftl (Z.land (Z.shiftr limit 16) 0x0F) 48)) (Z.shiftl (Z.land (Z.shiftr base 24) 0xFF) 56),
   Z.land (Z.shiftr base 32) 0xFFFFFFFF).
Definition gdt_entries (tss_base : Z) : list Z :=
  let '(low, high) := encode_tss_descriptor tss_base (sizeof_tss - 1) in
  [0; 0x0020980000000000; 0x0000920000000000; 0x0020FA0000000000; 0x0000F20000000000; low; high].
Record tables := MkTables { t_gdt : list Z; t_tss : tss64; t_idt : list idt_entry }.
Definition gdt_init (tss_base : Z) (p : Pmm.Pmm.pmm) (t : tables) : outcome (tables * Pmm.Pmm.pmm) :=
  '(istack, p) ← Pmm.Pmm.pmm_alloc_page p;
  let tss := t_tss t in
  Ret (MkTables (gdt_entries tss_base) (Tss (u64 (istack + 4096)) (rsp1 tss) (rsp2 tss) (tss_ist tss) sizeof_tss) (t_idt t), p).
Definition idt_init {D} `{Ports D} (stub : Z → Z) (t : tables) : est D tables :=
  _ ← pic_remap; mret (MkTables (t_gdt t) (t_tss t) (idt_gates stub (t_idt t))).

(** ** What the processor reads *)
Definition gate_offset (g : idt_entry) : Z := base_low g + 2 ^ 16 * base_mid g + 2 ^ 32 * base_high g.
Definition gate_present (g : idt_entry) : bool := Z.testbit (flags g) 7.
Definition gate_dpl (g : idt_entry) : Z := Z.land (Z.shiftr (flags g) 5) 3.
(** an interrupt gate clears IF *)
Definition gate_type (g : idt_entry) : Z := Z.land (flags g) 0xF.
Definition seg_present (d : Z) : bool := Z.testbit d 47.
Definition seg_dpl (d : Z) : Z := Z.land (Z.shiftr d 45) 3.
Definition seg_code (d : Z) : bool := Z.testbit d 43.
Definition seg_long (d : Z) : bool := Z.testbit d 53.
Definition seg_type (d : Z) : Z := Z.land (Z.shiftr d 40) 0x1F.
Definition seg_limit (d : Z) : Z := Z.land d 0xFFFF + 2 ^ 16 * Z.land (Z.shiftr d 48) 0xF.
Definition seg_base (low high : Z) : Z :=
  Z.land (Z.shiftr low 16) 0xFFFFFF + 2 ^ 24 * Z.land (Z.shiftr low 56) 0xFF + 2 ^ 32 * high.
(** the descriptor a selector names *)
Definition segment (gdt : list Z) (sel : Z) : Z := nth (Z.to_nat (Z.shiftr sel 3)) gdt 0.

Definition gate (base sel fl : Z) : idt_entry :=
  IdtEntry (Z.land base 0xFFFF) sel 0 fl (Z.land (Z.shiftr base 16) 0xFFFF) (Z.land (Z.shiftr base 32) 0xFFFFFFFF) 0.
Lemma gates_loop (base : Z → Z) sel fl (idt : list idt_entry) k : 0 <= k <= 256 → length idt = 256%nat →
  let idt' := foldl (λ t i, idt_set_gate t i (base i) sel fl) idt (seqZ 0 k) in
  length idt' = 256%nat ∧ ∀ n : nat, (n < 256)%nat → idt' !! n = if Z.of_nat n <? k then Some (gate (base (Z.of_nat n)) sel fl) else idt !! n.
Proof.
  intros Hk Hl. apply (foldl_seqZ_ind (λ i t, length t = 256%nat ∧ ∀ n : nat, (n < 256)%nat → t !! n = if Z.of_nat n <? i then Some (gate (base (Z.of_nat n)) sel fl) else idt !! n)); [lia| |].
  - split; [done|]. intros n Hn. by rewrite (proj2 (Z.ltb_ge _ 0)) by lia.
  - intros i t Hi [Ht Hg]. unfold idt_set_gate. rewrite length_insert. split; [done|]. intros n Hn.
    destruct (decide (Z.to_nat i = n)) as [<-|Hne].
    + rewrite list_lookup_insert_eq by lia. rewrite Z2Nat.id, (proj2 (Z.ltb_lt _ _)) by lia. done.
    + rewrite list_lookup_insert_ne, Hg by done. destruct (Z.ltb_spec (Z.of_nat n) i), (Z.ltb_spec (Z.of_nat n) (i + 1)); try lia; done.
Qed.
Lemma gate_offset_base base sel fl : 0 <= base < 2 ^ 64 → gate_offset (gate base sel fl) = base.
Proof.
  intros Hb. unfold gate_offset, gate. cbn [base_low base_mid base_high]. change 0xFFFF with (Z.ones 16). change 0xFFFFFFFF with (Z.ones 32).
  rewrite !Z.land_ones, !Z.shiftr_div_pow2 by lia. zdm.
Qed.
(** The interrupt table: after [idt_init] vectors 0 to 47 and 128 are
    present interrupt gates (interrupts stay off in the handler) of the kernel
    code segment that lead to their stub, all other vectors are not present,
    and 128 is the only one that a program of ring 3 may raise itself. *)
Theorem idt_init_correct stub idt (n : nat) : length idt = 256%nat → (∀ i, 0 <= stub i < 2 ^ 64) → (n < 256)%nat →
  ∃ g, idt_gates stub idt !! n = Some g ∧
    if (n <? 48)%nat || (n =? 128)%nat
    then gate_present g = true ∧ gate_offset g = stub (Z.of_nat n) ∧ selector g = 0x08 ∧ gate_type g = 0xE ∧
         gate_dpl g = (if (n =? 128)%nat then 3 else 0)
    else gate_present g = false.
Proof.
  intros Hl Hs Hn. unfold idt_gates.
  destruct (gates_loop (λ _, 0) 0 0 idt 256 ltac:(lia) Hl) as [L0 G0]. set (t0 := foldl _ idt _) in *.
  destruct (gates_loop stub 0x08 0x8E t0 48 ltac:(lia) L0) as [L1 G1]. set (t1 := foldl _ t0 _) in *. unfold idt_set_gate.
  destruct (Nat.eqb_spec n 128) as [->|Hne].
  - rewrite list_lookup_insert_eq by (rewrite L1; lia). eexists. split; [reflexivity|]. rewrite orb_true_r.
    split; [done|]. split; [exact (gate_offset_base (stub 128) 0x08 0xEE (Hs 128))|done].
  - rewrite list_lookup_insert_ne by (intros E; apply Hne; rewrite <-E; reflexivity). rewrite G1, orb_false_r by done.
    destruct (Nat.ltb_spec n 48), (Z.ltb_spec (Z.of_nat n) 48); try lia.
    + eexists. split; [reflexivity|]. split; [done|]. split; [by apply gate_offset_base|done].
    + rewrite G0 by done. rewrite (proj2 (Z.ltb_lt _ 256)) by lia. by eexists.
Qed.
Lemma idt_init_correct_witness : ∃ g, idt_gates (λ n, 0x100000 + 16 * (n mod 256)) (replicate 256 idt_zero) !! 128%nat = Some g ∧ gate_dpl g = 3.
Proof.
  destruct (idt_init_correct (λ n, 0x100000 + 16 * (n mod 256)) (replicate 256 idt_zero) 128) as (g & E & _ & _ & _ & _ & Hd).
  - reflexivity.
  - intros i. zdm.
  - lia.
  - exists g. split; [exact E|exact Hd].
Defined.
Definition tss_low (base limit : Z) : Z :=
  (limit mod 2 ^ 16) + 2 ^ 16 * (base mod 2 ^ 16) + 2 ^ 32 * ((base / 2 ^ 16) mod 2 ^ 8) + 2 ^ 40 * 0x89 + 2 ^ 48 * ((limit / 2 ^ 16) mod 2 ^ 4) + 2 ^ 56 * ((base / 2 ^ 24) mod 2 ^ 8).
Lemma encode_tss_sum base limit : 0 <= base → 0 <= limit → fst (encode_tss_descriptor base limit) = tss_low base limit.
Proof.
  intros Hb Hl. unfold encode_tss_descriptor, tss_low. cbn [fst]. change 0xFFFF with (Z.ones 16). change 0xFF with (Z.ones 8). change 0x0F with (Z.ones 4).
  rewrite !Z.land_ones, !Z.shiftr_div_pow2 by lia.
  pose proof (Z.mod_pos_bound limit (2 ^ 16) ltac:(lia)). pose proof (Z.mod_pos_bound base (2 ^ 16) ltac:(lia)).
  pose proof (Z.mod_pos_bound (base / 2 ^ 16) (2 ^ 8) ltac:(lia)). pose proof (Z.mod_pos_bound (limit / 2 ^ 16) (2 ^ 4) ltac:(lia)).
  pose proof (Z.mod_pos_bound (base / 2 ^ 24) (2 ^ 8) ltac:(lia)).
  rewrite (lor_shiftl _ _ 16), (lor_shiftl _ _ 32), (lor_shiftl _ _ 40), (lor_shiftl _ _ 48), (lor_shiftl _ _ 56) by lia. done.
Qed.
Lemma tss_decode base limit : 0 <= base < 2 ^ 64 → 0 <= limit < 2 ^ 20 →
  let '(low, high) := encode_tss_descriptor base limit in
  seg_base low high = base ∧ seg_limit low = limit ∧ seg_type low = 0x09 ∧ seg_dpl low = 0 ∧ seg_present low = true.
Proof.
  intros Hb Hl. pose proof (encode_tss_sum base limit ltac:(lia) ltac:(lia)) as E. destruct (encode_tss_descriptor base limit) as [low high] eqn:Ed. cbn [fst] in E. subst low.
  injection Ed as _ <-. unfold seg_base, seg_limit, seg_type, seg_dpl, seg_present. rewrite Z.testbit_true by lia.
  change 0xFFFFFF with (Z.ones 24). change 0xFFFF with (Z.ones 16). change 0xFF with (Z.ones 8). change 0xF with (Z.ones 4).
  change 0xFFFFFFFF with (Z.ones 32). change 0x1F with (Z.ones 5). change 3 with (Z.ones 2).
  rewrite !Z.land_ones, !Z.shiftr_div_pow2 by lia. unfold tss_low.
  split; [zdm|]. split; [zdm|]. split; [zdm|]. split; zdm.
Qed.
(** a present segment of privilege [dpl] *)
Definition seg_is (d : Z) (code : bool) (dpl : Z) : Prop :=
  seg_present d = true ∧ seg_code d = code ∧ seg_long d = code ∧ seg_dpl d = dpl.
(** The segment table: the selectors that the kernel uses for itself (0x08,
    0x10) and those it enters ring 3 with (0x1B, 0x23) name present code and
    data segments whose privilege is the one the selector requests, and the
    task register's selector 0x28 names an available 64-bit TSS whose base and
    limit are those of [tss]; on an interrupt from ring 3 the processor takes
    its stack pointer from the top of the page that [gdt_init] allocated. *)
Theorem gdt_init_correct tss_base p t t' p' : 0 <= tss_base < 2 ^ 64 → gdt_init tss_base p t = Ret (t', p') →
  seg_is (segment (t_gdt t') 0x08) true (Z.land 0x08 3) ∧ seg_is (segment (t_gdt t') 0x10) false (Z.land 0x10 3) ∧
  seg_is (segment (t_gdt t') 0x1B) true (Z.land 0x1B 3) ∧ seg_is (segment (t_gdt t') 0x23) false (Z.land 0x23 3) ∧
  (let low := segment (t_gdt t') 0x28 in
   seg_base low (segment (t_gdt t') 0x30) = tss_base ∧ seg_limit low = sizeof_tss - 1 ∧ seg_type low = 0x09 ∧ seg_dpl low = 0 ∧ seg_present low = true) ∧
  ∃ page, Pmm.Pmm.pmm_alloc_page p = Ret (page, p') ∧ rsp0 (t_tss t') = u64 (page + 4096) ∧ t_idt t' = t_idt t.
Proof.
  intros Hb E. apply outcome_bind_Ret in E as ([page p1] & Ea & E). injection E as <- <-. cbn [t_gdt t_tss t_idt rsp0].
  pose proof (tss_decode tss_base (sizeof_tss - 1) Hb ltac:(unfold sizeof_tss; lia)) as Hd. unfold gdt_entries.
  destruct (encode_tss_descriptor tss_base (sizeof_tss - 1)) as [low high]. do 4 (split; [done|]). split; [exact Hd|]. eauto.
Qed.
Lemma gdt_init_correct_witness : ∃ t' p', gdt_init 0x1234567890 (Vmm.Vmm.vm_pmm (Vmm.Vmm.boot_vm 0x87)) (MkTables [] (Tss 0 0 0 [] 0) []) = Ret (t', p') ∧
  seg_dpl (segment (t_gdt t') 0x1B) = 3.
Proof.
  pose proof (eq_refl : match gdt_init 0x1234567890 (Vmm.Vmm.vm_pmm (Vmm.Vmm.boot_vm 0x87)) (MkTables [] (Tss 0 0 0 [] 0) []) with Ret _ => true | _ => false end = true) as Er.
  destruct (gdt_init 0x1234567890 (Vmm.Vmm.vm_pmm (Vmm.Vmm.boot_vm 0x87)) (MkTables [] (Tss 0 0 0 [] 0) [])) as [[t' p']| |] eqn:E; [|discriminate Er..].
  destruct (gdt_init_correct 0x1234567890 (Vmm.Vmm.vm_pmm (Vmm.Vmm.boot_vm 0x87)) (MkTables [] (Tss 0 0 0 [] 0) []) t' p' ltac:(lia) E) as (_ & _ & (_ & _ & _ & Hd) & _).
  exists t', p'. split; [reflexivity|exact Hd].
Defined.
End Tables.

Module Boot.
Import Ide.Ide Console.Vga Console.Console Console.Print Multiboot.Mb Path.Path Vol.Vol Vfs.Vfs Vmm.Vmm UserFd.UserFd Process.Process Ipc.Ipc HybridIpc.HybridIpc UserExec.UserExec Kernel.Kernel Shell.Shell Serial Tables.
Section boot.
Context {D : Type} `{Ports D}.
Notation ksys := (ksys D).
(** the kernel image; the service's loop; the TSS; the interrupt stubs; a
    bound on the boot loader's tags *)
Context (kernel_start kernel_end loop_addr tss_addr : Z) (stub : Z → Z) (fuel : nat).
Definition boot_error : list Z := line "ChaserOS: invalid Multiboot2 handoff".
Definition bad_handoff : st ksys unit := st_modify (λ y,
  set_con (set_out y (y_out y ++ boot_error)) (set_vga (y_con y) (vga_puts boot_error (vga_init (con_vga (y_con y)))))).
Definition chaseros_ext2_init : st ksys unit :=
  _ ← puts (str "[FS] e2fsprogs "); _ ← puts (str "1.47.4"); puts [newline].
(** memory, disk controller, volume and VFS *)
Definition init_storage (mbi_phys : Z) : st ksys unit :=
  y ← st_get;
  let m := vm_mem (y_vm y) in
  k ← st_lift (console_init fuel m mbi_phys (y_con y));
  _ ← st_modify (λ y, set_con y k);
  p ← st_lift (Pmm.Pmm.pmm_init fuel m mbi_phys kernel_start kernel_end);
  _ ← st_modify (λ y, set_ypmm y p);
  _ ← dev_op ide_init;
  _ ← st_modify (λ y, set_yfs y (set_fvol (y_fs y) (chaseros_vol_init (f_vol (y_fs y)))));
  _ ← st_modify (λ y, set_yfs y (vfs_init (y_fs y)));
  chaseros_ext2_init.
(** tasks, descriptor tables, shell and file system service *)
Definition init_tasks (t : tables) : st ksys (option tables) :=
  _ ← st_modify (λ y, kput y (process_init (kget y)));
  _ ← st_modify (λ y, kput y (sched_init (kget y)));
  y ← st_get;
  '(t, p) ← st_lift (gdt_init tss_addr (y_pmm y) t);
  _ ← st_modify (λ y, set_ypmm y p);
  t ← dev_op (idt_init stub t);
  _ ← shell_init;
  y ← st_get;
  k ← st_lift (chaseros_hybrid_ipc_service_spawn (kget y) loop_addr);
  _ ← st_modify (λ y, kput y k);
  mret t.
Definition welcome (mbi_phys : Z) : st ksys unit :=
  _ ← puts (str "Welcome to ChaserOS hybrid kernel (IPC FS service PID=");
  _ ← puts_dec CHASEROS_HYBRID_SERVICE_PID;
  _ ← puts (line ", serial + VGA shell).");
  _ ← puts (line "Memory OK. VFS init done." ++ newline :: str "Multiboot2 @ ");
  _ ← puts_hex mbi_phys;
  _ ← puts (newline :: str "Physical: ");
  y ← st_get;
  _ ← puts_dec (Pmm.Pmm.pmm_get_total_memory (y_pmm y) / 1024 / 1024);
  _ ← puts (str " MB total, ");
  y ← st_get;
  _ ← puts_dec (Pmm.Pmm.pmm_get_free_memory (y_pmm y) / 1024 / 1024);
  _ ← puts (line " MB free");
  puts (newline :: prompt).
(** the state is returned at the [hlt] loop; [None]: the hand-off is invalid *)
Definition kernel_main (mbi_phys boot_magic : Z) (t : tables) : st ksys (option tables) :=
  _ ← dev_op serial_init;
  y ← st_get;
  if negb (multiboot_validate (vm_mem (y_vm y)) (u32 boot_magic) mbi_phys) then _ ← bad_handoff; mret None
  else
    _ ← init_storage mbi_phys;
    t ← init_tasks t;
    _ ← welcome mbi_phys;
    mret t.
End boot.

(** ** A machine that boots *)
(** the disk does not answer to the ports of the serial port and of the
    interrupt controllers *)
Class Apart (D : Type) `{AtaLaws D} := {
  apart : ∀ d a port v, port < 0x100 ∨ 0x3F8 <= port → ata_rep d a → ata_rep (outb port v d) a
}.
Section bring_up.
Context {D : Type} `{Apart D} (kernel_start kernel_end loop_addr tss_addr : Z) (stub : Z → Z) (fuel : nat).
Implicit Types (y : ksys D).
Definition dev_of y : D := v_dev (f_vol (y_fs y)).
Lemma serial_init_run d a : ata_rep d a → ∃ d', serial_init d = Ret (Some tt, d') ∧ ata_rep d' a.
Proof. intros Ha. eexists. split; [reflexivity|]. unfold COM1. repeat (apply apart; [lia|]). done. Qed.
Lemma idt_init_run d a t : ata_rep d a →
  ∃ d', idt_init stub t d = Ret (Some (MkTables (t_gdt t) (t_tss t) (idt_gates stub (t_idt t))), d') ∧ ata_rep d' a.
Proof. intros Ha. eexists. split; [reflexivity|]. unfold PIC1_COMMAND, PIC1_DATA, PIC2_COMMAND, PIC2_DATA. repeat (apply apart; [lia|]). done. Qed.
Lemma dev_op_step {A B} (m : est D A) (k : option A → st (ksys D) B) y r d :
  m (dev_of y) = Ret (r, d) → (dev_op m ≫= k) y = k r (set_yfs y (set_fvol (y_fs y) (set_dev (f_vol (y_fs y)) d))).
Proof. intros E. apply st_bind_step. unfold dev_op, vol_op, on_dev. unfold dev_of in E. by rewrite E. Qed.
(** no volume, nothing mounted, an idle disk *)
Record storage_up (a : ata) y : Prop := {
  su_dev : ∃ a', ata_ready (dev_of y) a' ∧ same_disk a a';
  su_vol : vtype (g_vol (f_vol (y_fs y))) = CHASEROS_VOL_NONE;
  su_ram : g_ram_npages (f_vol (y_fs y)) = 0;
  su_mounted : g_mounted (y_fs y) = false
}.
Definition fs_banner : list Z := line "[FS] e2fsprogs 1.47.4".
Lemma init_storage_run y a mbi k p : ata_rep (dev_of y) a → console_init fuel (vm_mem (y_vm y)) mbi (y_con y) = Ret k →
  Pmm.Pmm.pmm_init fuel (vm_mem (y_vm y)) mbi kernel_start kernel_end = Ret p →
  ∃ y', init_storage kernel_start kernel_end fuel mbi y = Ret (tt, y') ∧ storage_up a y' ∧ y_pmm y' = p ∧ u_tasks (y_user y') = u_tasks (y_user y) ∧
    y_out y' = y_out y ++ fs_banner.
Proof.
  intros Ha Hk Hp. unfold init_storage. erewrite st_bind_step by reflexivity. cbv zeta. rewrite Hk, Hp. do 4 (erewrite st_bind_step by reflexivity).
  destruct (ide_init_spec _ a Ha) as (d & a' & E & Hr & Hs). erewrite dev_op_step by exact E. do 2 (erewrite st_bind_step by reflexivity).
  eexists. split; [reflexivity|]. split; [|split; [done|split; [done|]]].
  - split; [by exists a'|done..].
  - cbn. by rewrite <-!app_assoc.
Qed.
Lemma kget_put y k : kget (kput y k) = k.
Proof. apply kern_put. by intros []. Qed.
Lemma process_init_state k i : length (tasks k) = MAX_TASKS → (i < MAX_TASKS)%nat →
  state (task (process_init k) i) = if (i =? 0)%nat then PROC_STATE_RUNNING else PROC_STATE_FREE.
Proof.
  intros Hl Hi. unfold process_init. set (k1 := set_tasks k _). set (f := λ p, process_clear_runtime _).
  change (state (task (upd k1 0 f) i) = if (i =? 0)%nat then PROC_STATE_RUNNING else PROC_STATE_FREE).
  assert (length (tasks k1) = MAX_TASKS) as Hl1 by (cbn; by rewrite length_fmap).
  rewrite task_upd by (rewrite Hl1; unfold MAX_TASKS; lia). destruct (Nat.eqb_spec i 0) as [->|Hn]; [done|]. rewrite decide_False by done.
  assert (task k1 i = process_clear_runtime (set_state PROC_STATE_FREE (task k i))) as ->; [|done].
  apply task_lookup. cbn [k1 set_tasks tasks]. by rewrite list_lookup_fmap, lookup_task by lia.
Qed.
(** what the service's spawn does to the table that [process_init] leaves *)
Lemma service_spawn_run k : kwf k → state (task k 3) = PROC_STATE_FREE → loop_addr ≠ 0 →
  ∃ k', chaseros_hybrid_ipc_service_spawn k loop_addr = Ret k' ∧ kwf k' ∧ current_task_idx k' = current_task_idx k ∧
    state (task k' 3) = PROC_STATE_READY ∧ pid (task k' 3) = 3 ∧ ∀ j, j ≠ 3%nat → task k' j = task k j.
Proof.
  intros Hk Hf Hl. unfold chaseros_hybrid_ipc_service_spawn, process_spawn_kernel_at_pid. change (slot_of CHASEROS_HYBRID_SERVICE_PID) with (Some 3%nat). cbn iota.
  rewrite (proj2 (Z.eqb_neq loop_addr 0)) by done. unfold is_state. rewrite Hf, bool_decide_eq_true_2 by done. cbn [negb].
  set (k1 := upd k 3 _). destruct (init_kernel_stack_wf k1 3 loop_addr) as (k' & -> & Hk' & _ & Hc & _ & Ho & Hst & Hpd & _).
  { apply kwf_upd; [done|unfold MAX_TASKS; lia|]. apply slot_ok_named; [apply kwf_slot; [done|unfold MAX_TASKS; lia]|done]. }
  { unfold MAX_TASKS. lia. }
  ostep. eexists. split; [reflexivity|]. split; [by apply kwf_grow|].
  assert (∀ n, tasks (grow_task_count k' n) = tasks k' ∧ current_task_idx (grow_task_count k' n) = current_task_idx k') as Hg by (intros n; unfold grow_task_count; by case_if).
  destruct (Hg (Z.of_nat 3 + 1)) as [Hg1 Hg2]. unfold task. rewrite Hg1, Hg2. fold (task k' 3).
  assert (3 < length (tasks k))%nat as H3 by (rewrite (kw_len _ Hk); unfold MAX_TASKS; lia).
  split; [by rewrite Hc|]. rewrite Hst, Hpd. unfold k1. rewrite task_upd_same by done. split; [done|]. split; [done|]. intros j Hj. fold (task k' j). rewrite (Ho j Hj).
  unfold k1. by apply task_upd_other.
Qed.
(** the tasks after start-up: the idle task runs, the file system service is
    ready, every other slot is free *)
Record tasks_up y : Prop := {
  tu_wf : kwf (kget y);
  tu_cur : current_task_idx (kget y) = 0%nat;
  tu_idle : state (task (kget y) 0) = PROC_STATE_RUNNING;
  tu_service : state (task (kget y) 3) = PROC_STATE_READY ∧ pid (task (kget y) 3) = CHASEROS_HYBRID_SERVICE_PID;
  tu_free : ∀ i, (i < MAX_TASKS)%nat → i ≠ 0%nat → i ≠ 3%nat → state (task (kget y) i) = PROC_STATE_FREE
}.
(** the table in the zeroed data segment *)
Definition zeroed (l : list proc_t) : Prop :=
  length l = MAX_TASKS ∧ ∀ p, p ∈ l → 0 <= stack_base p ∧ length (payload (msg_buffer p)) = MAX_MSG_PAYLOAD.
Lemma alloc_page_run p : Pmm.Pmm.pmm_wf p → ∃ page p', Pmm.Pmm.pmm_alloc_page p = Ret (page, p') ∧ Pmm.Pmm.pmm_wf p'.
Proof.
  intros Hp. destruct (Pmm.Pmm.alloc_page_from_spec (Z.to_nat (Pmm.Pmm.total_pages p)) p 0) as (a & p' & E & Hw & _);
    [done|done|pose proof (Pmm.Pmm.wf_total _ Hp); lia|lia|]. eauto.
Qed.
Lemma init_tasks_run y a t : storage_up a y → Pmm.Pmm.pmm_wf (y_pmm y) → zeroed (tasks (u_tasks (y_user y))) → loop_addr ≠ 0 →
  ∃ t' y', init_tasks loop_addr tss_addr stub t y = Ret (Some t', y') ∧ storage_up a y' ∧ tasks_up y' ∧ y_cmd y' = [] ∧ y_cwd y' = [slash] ∧ y_out y' = y_out y ∧
    t_gdt t' = gdt_entries tss_addr ∧ t_idt t' = idt_gates stub (t_idt t).
Proof.
  intros [Hd Hv Hram Hm] Hp [Hl Hz] Hloop. unfold init_tasks. do 3 (erewrite st_bind_step by reflexivity).
  set (k1 := process_init (kget y)). assert (kwf k1) as Hk1 by (apply process_init_wf; done).
  set (y2 := kput (kput y k1) (sched_init (kget (kput y k1)))).
  assert (kget y2 = set_switches k1 0) as Hy2 by (unfold y2; by rewrite !kget_put).
  assert (Pmm.Pmm.pmm_wf (y_pmm y2)) as Hp2 by exact Hp.
  destruct (alloc_page_run (y_pmm y2) Hp2) as (page & p & Ea & Hpw).
  erewrite st_bind_step by (unfold gdt_init; rewrite Ea; reflexivity). cbn iota beta. erewrite st_bind_step by reflexivity.
  destruct Hd as (a' & [Ha Hidle] & Hs). set (y3 := set_ypmm y2 p).
  destruct (idt_init_run (dev_of y3) a' (MkTables (gdt_entries tss_addr) (Tss (u64 (page + 4096)) (rsp1 (t_tss t)) (rsp2 (t_tss t)) (tss_ist (t_tss t)) sizeof_tss) (t_idt t)) Ha) as (d & Ed & Ha').
  erewrite dev_op_step by exact Ed. erewrite st_bind_step by reflexivity. erewrite st_bind_step by reflexivity. set (y4 := set_yfs _ (chaseros_user_cwd_reset _)).
  assert (kget y4 = set_vm (set_switches k1 0) (k_vm (kget y4))) as Hy4 by (rewrite <-Hy2; reflexivity).
  assert (kwf (kget y4)) as Hk4 by (rewrite Hy4; apply kwf_vm; [by apply kwf_switches|exact Hpw]).
  assert (∀ i, task (kget y4) i = task k1 i) as Ht4 by (rewrite Hy4; done).
  assert (∀ i, (i < MAX_TASKS)%nat → state (task (kget y4) i) = if (i =? 0)%nat then PROC_STATE_RUNNING else PROC_STATE_FREE) as Hst.
  { intros i Hi. rewrite Ht4. by apply process_init_state. }
  destruct (service_spawn_run (kget y4) Hk4) as (k5 & E5 & Hk5 & Hc5 & Hr5 & Hp5 & Ho5); [by rewrite Hst by (unfold MAX_TASKS; lia)|done|].
  erewrite st_bind_step by (rewrite E5; reflexivity). erewrite st_bind_step by reflexivity.
  eexists _, _. split; [reflexivity|]. split; [|split; [|done]].
  - split; [|done..]. exists a'. split; [|done]. by split.
  - split; rewrite kget_put; [done|by rewrite Hc5, Hy4| |done|].
    + by rewrite (Ho5 0%nat ltac:(done)), Hst by (unfold MAX_TASKS; lia).
    + intros i Hi Hi0 Hi3. rewrite (Ho5 i Hi3), Hst by done. by rewrite (proj2 (Nat.eqb_neq i 0)).
Qed.
End bring_up.

Section banner.
Context {D : Type} `{Ports D}.
Implicit Types (y : ksys D).
Definition banner (mbi : Z) (total free : list Z) : list Z :=
  str "Welcome to ChaserOS hybrid kernel (IPC FS service PID=3" ++ line ", serial + VGA shell)." ++ line "Memory OK. VFS init done." ++
  newline :: str "Multiboot2 @ " ++ hex_text mbi ++ newline :: str "Physical: " ++ total ++ str " MB total, " ++ free ++ line " MB free" ++ newline :: prompt.
Definition megabytes (bytes : Z) : Z := bytes / 1024 / 1024.
Lemma puts_dec_run y n ds : dec_text n = Ret ds → puts_dec n y = Ret (tt, emit ds y).
Proof. intros E. unfold puts_dec. by rewrite E. Qed.
Lemma welcome_run y mbi : ∃ total free s, welcome mbi y = Ret (tt, emit s y) ∧ s = banner mbi total free ∧
  dec_text (megabytes (Pmm.Pmm.pmm_get_total_memory (y_pmm y))) = Ret total ∧ dec_text (megabytes (Pmm.Pmm.pmm_get_free_memory (y_pmm y))) = Ret free.
Proof.
  assert (∀ z, ∃ ds, dec_text (megabytes (u64 z)) = Ret ds) as Hdec.
  { intros z. destruct (dec_text_spec (megabytes (u64 z))) as (ds & E & _); [|by exists ds]. unfold megabytes. pose proof (u64_range z). zdm. }
  destruct (Hdec (Pmm.Pmm.total_pages (y_pmm y) * Pmm.Pmm.PAGE_SIZE)) as [total Et].
  destruct (Hdec ((Pmm.Pmm.total_pages (y_pmm y) - Pmm.Pmm.used_pages (y_pmm y)) * Pmm.Pmm.PAGE_SIZE)) as [free Ef].
  exists total, free, (banner mbi total free). split; [|done]. unfold welcome.
  do 7 (erewrite st_bind_step by reflexivity). erewrite st_bind_step by (apply puts_dec_run; exact Et).
  do 2 (erewrite st_bind_step by reflexivity). erewrite st_bind_step by (apply puts_dec_run; exact Ef).
  erewrite st_bind_step by reflexivity. unfold puts, st_modify. rewrite !emit_emit. do 2 f_equal.
Qed.
End banner.

(** ** The boot information *)
(** A hand-off in memory that start-up can read: a tag list that ends within
    the bound, that the page bitmap behind the kernel does not overlap, with a
    memory map whose available entries share no page and reach beyond the first
    megabyte, the kernel and the bitmap, and a framebuffer that does not wrap. *)
Record boot_info (m : mem) (mbi ks ke : Z) (fuel : nat) (tags : list Z) : Prop := {
  bi_bytes : mem_bytes m;
  bi_chain : tag_chain m (mbi + 8) tags;
  bi_fuel : (length tags < fuel)%nat;
  bi_apart : let es := Pmm.Pmm.mmap_entries m (List.find (Pmm.Pmm.is_mmap m) tags) in Pmm.Pmm.tags_apart m (mbi + 8) tags ke (ke + Pmm.Pmm.bitmap_size_of (Pmm.Pmm.max_avail es / Pmm.Pmm.PAGE_SIZE));
  bi_disjoint : Pmm.Pmm.avail_disjoint (Pmm.Pmm.mmap_entries m (List.find (Pmm.Pmm.is_mmap m) tags));
  bi_fb : Pmm.Pmm.fb_fits (vbe_of_tag m <$> List.find (rgb_framebuffer m) tags);
  bi_memory : 0x100000 <= Pmm.Pmm.max_avail (Pmm.Pmm.mmap_entries m (List.find (Pmm.Pmm.is_mmap m) tags));
  bi_start : 0 <= ks;
  bi_end : 0 <= ke;
  bi_fits : let es := Pmm.Pmm.mmap_entries m (List.find (Pmm.Pmm.is_mmap m) tags) in (ke + Pmm.Pmm.bitmap_size_of (Pmm.Pmm.max_avail es / Pmm.Pmm.PAGE_SIZE)) / Pmm.Pmm.PAGE_SIZE < Pmm.Pmm.max_avail es / Pmm.Pmm.PAGE_SIZE
}.
Lemma console_init_run fuel m mbi tags k : tag_chain m (mbi + 8) tags → (length tags < fuel)%nat → ∃ k', console_init fuel m mbi k = Ret k'.
Proof.
  intros Hc Hf. unfold console_init, multiboot_fill_vbe, multiboot_find_module_suffix, multiboot_has_efi_handoff. rewrite (fill_vbe_chain m tags) by done. ostep. destruct (_ ≫= _).
  - rewrite !(find_module_chain m _ tags) by done. ostep. by eexists.
  - rewrite (has_efi_chain m tags) by done. ostep. by eexists.
Qed.

(** C4. Start-up, on a machine with an ATA disk behind the ports.  On a valid
    Multiboot2 hand-off with readable boot information ([boot_info]) and zeroed
    task table, [kernel_main] reaches its idle loop: the console shows the file
    system's version, the banner with the memory sizes in megabytes and the
    prompt; the shell is empty at the root directory; the disk is idle and
    untouched, no volume is attached and nothing is mounted; the task table is
    well formed with the idle task running and the file system service ready as
    process 3; and the processor's tables are those of [gdt_init] and
    [idt_init].  An invalid hand-off, whatever is in memory, only prints its
    error. *)
Theorem kernel_main_boots {D} `{Apart D} ks ke loop_addr tss_addr stub fuel mbi magic t (y : ksys D) a : ata_rep (dev_of y) a →
  (multiboot_validate (vm_mem (y_vm y)) (u32 magic) mbi = true → zeroed (tasks (u_tasks (y_user y))) → loop_addr ≠ 0 → ∀ tags, boot_info (vm_mem (y_vm y)) mbi ks ke fuel tags →
   ∃ t' y' total free, kernel_main ks ke loop_addr tss_addr stub fuel mbi magic t y = Ret (Some t', y') ∧
    storage_up a y' ∧ tasks_up y' ∧ y_cmd y' = [] ∧ y_cwd y' = [slash] ∧
    t_gdt t' = gdt_entries tss_addr ∧ t_idt t' = idt_gates stub (t_idt t) ∧
    y_out y' = y_out y ++ fs_banner ++ banner mbi total free ∧
    dec_text (megabytes (Pmm.Pmm.pmm_get_total_memory (y_pmm y'))) = Ret total ∧ dec_text (megabytes (Pmm.Pmm.pmm_get_free_memory (y_pmm y'))) = Ret free) ∧
  (multiboot_validate (vm_mem (y_vm y)) (u32 magic) mbi = false →
   ∃ y', kernel_main ks ke loop_addr tss_addr stub fuel mbi magic t y = Ret (None, y') ∧ y_out y' = y_out y ++ boot_error ∧
    y_pmm y' = y_pmm y ∧ u_tasks (y_user y') = u_tasks (y_user y) ∧ ata_rep (dev_of y') a).
Proof.
  intros Ha. unfold kernel_main. destruct (serial_init_run (dev_of y) a Ha) as (d & Ed & Hd).
  erewrite dev_op_step by exact Ed. erewrite st_bind_step by reflexivity. set (y1 := set_yfs y _). change (vm_mem (y_vm y1)) with (vm_mem (y_vm y)).
  split; intros ->; cbn [negb].
  - intros Hz Hl tags [B1 B2 B3 B4 B5 B6 B7 B8 B9 B10]. destruct (console_init_run fuel _ mbi tags (y_con y) B2 B3) as [k Hk]. destruct (Pmm.Pmm.pmm_init_ok fuel _ mbi ks ke tags B1 B2 B3 B4 B5 B6 B7 B8 B9 B10) as (p & Hp & Hw & _).
    destruct (init_storage_run ks ke fuel y1 a mbi k p Hd Hk Hp) as (y2 & E2 & S2 & P2 & T2 & O2).
    destruct (init_tasks_run loop_addr tss_addr stub y2 a t S2) as (t' & y3 & E3 & S3 & U3 & C3 & W3 & O3 & G3); [by rewrite P2|by rewrite T2|done|].
    destruct (welcome_run y3 mbi) as (total & free & s & E4 & -> & Et & Ef).
    exists t', (emit (banner mbi total free) y3), total, free.
    rewrite (st_bind_step _ _ _ _ _ E2), (st_bind_step _ _ _ _ _ E3), (st_bind_step _ _ _ _ _ E4). split; [done|].
    destruct S3, U3, G3. split; [by split|]. split; [by split|]. split; [done|]. split; [done|]. split; [done|]. split; [done|]. split; [|done].
    cbn [y_out emit set_con set_out]. by rewrite O3, O2, <-app_assoc.
  - eexists. split; [reflexivity|]. done.
Qed.

(** ** Witness: the simulated disk and a boot information block at 0x1000 *)
#[export] Program Instance sim_apart : Apart ata.
Next Obligation.
  intros d a port v Hp ->. cbn [outb sim_ports ata_rep sim_laws]. unfold sim_outb, IDE_PRIMARY_CTRL, IDE_PRIMARY_IO, ATA_REG_COMMAND.
  rewrite !(proj2 (Z.eqb_neq _ _)) by lia. destruct (Z.leb_spec 0x1F0 port), (Z.ltb_spec port (0x1F0 + 8)); try lia; done.
Qed.
Definition handoff_mem : mem := mwrite Pmm.Pmm.boot_mem 0x1000 (le_of 4 80 ++ le_of 4 0).
Definition power_on : ksys ata :=
  Ksys (Usys (Fsys false VFS_FS_NONE (Vst (CVol CHASEROS_VOL_NONE 0 0 0) 0 0 (Vm handoff_mem (Pmm.Pmm.Pmm [] 0 0 0) 0x1000) sim_disk) [] []) (Kst (Vm (λ _, 0) (Pmm.Pmm.Pmm [] 0 0 0) 0) (replicate 16 proc_zero) 0 0 0 0) 0) [] 0 []
    (Con 0 false false (Vbe 0 0 0 0 0) 0 0 0 0 0 (VgaSt (λ _, 0) 0 0 (λ _, 0)) []) [] [].
Lemma handoff_entries : Pmm.Pmm.mmap_entries handoff_mem (List.find (Pmm.Pmm.is_mmap handoff_mem) [0x1008]) = Pmm.Pmm.boot_entries.
Proof. vm_compute. reflexivity. Qed.
Lemma handoff_info : boot_info handoff_mem 0x1000 0x100000 0x110000 2 [0x1008].
Proof.
  split; rewrite ?handoff_entries; [|vm_compute; done|cbn; lia|vm_compute; split; left; discriminate| |vm_compute; done|by vm_compute|lia|lia|vm_compute; done].
  - apply mem_bytes_mwrite; [|apply Forall_app; split; apply bytes_le_of]. apply mem_bytes_mwrite; [intros x; unfold is_byte; lia|]. unfold bytes. rewrite !Forall_app. repeat split; apply bytes_le_of.
  - repeat constructor. intros j Hj. unfold Pmm.Pmm.avail_run in *. cbn [Pmm.Pmm.e_type Pmm.Pmm.e_base] in *. unfold Pmm.Pmm.PAGE_SIZE in *.
    change (Pmm.Pmm.end_addr (Pmm.Pmm.Entry 0 0x9F000 1) / 4096) with 159 in Hj. change (0x100000 / 4096) with 256. breflect. rewrite (proj2 (Z.leb_gt 256 j)) by lia. done.
Qed.
Lemma kernel_main_boots_witness : ∃ t' y' total free,
  kernel_main 0x100000 0x110000 0x101000 0x108000 (λ n, 0x102000 + n) 2 0x1000 MULTIBOOT2_BOOTLOADER_MAGIC (MkTables [] (Tss 0 0 0 [] 0) (replicate 256 idt_zero)) power_on = Ret (Some t', y') ∧
  tasks_up y' ∧ y_out y' = fs_banner ++ banner 0x1000 total free.
Proof.
  destruct (kernel_main_boots 0x100000 0x110000 0x101000 0x108000 (λ n, 0x102000 + n) 2 0x1000 MULTIBOOT2_BOOTLOADER_MAGIC (MkTables [] (Tss 0 0 0 [] 0) (replicate 256 idt_zero)) power_on sim_disk) as [H _]; [done|].
  destruct (H ltac:(reflexivity)) with (tags := [0x1008]) as (t' & y' & total & free & E & _ & Ht & _ & _ & _ & _ & Ho & _).
  - split; [done|]. intros p Hp. apply elem_of_replicate in Hp as [-> _]. done.
  - done.
  - exact handoff_info.
  - exists t', y', total, free. split; [exact E|]. split; [exact Ht|exact Ho].
Defined.
End Boot.
