(* ===== verification/Interplay.v ===== *)
(** The booted kernel, the timer and a user program together (kernel/main.c,
    process.c, sched.c, isr.c, user.c, ipc.c, hybrid_ipc.c and user/hello.c).
    [sstep] is a part of what can happen while the service task has not been
    reached: the hardware interrupts other than the keyboard's, the system calls
    write, getpid, uptime_ticks, close and those with an unknown number, and
    stores of the program.  The frames have the number 128 that the handler
    expects, which the stub does not produce (see Isr.v).  [schedule] moves the RUNNING mark from task to task but
    no stack is switched, so the service's loop never runs and its task never
    waits for a message.
    Theorems: after start-up and any of these steps before and after a program
    is launched, sending to the service and opening a file
    never return; and the program hello prints its greeting and then hangs in
    its first message. *)
From stdpp Require Import base numbers list relations sets strings.
From S2P Require Import Prelude Bitmap Memory Multiboot Io Console Pmm Vmm Process Ipc Path Vol Ide Ext2 Ext2Disk Ext2Spec Ext2Format Vfs Disks UserFd HybridIpc Loader Package Cndyn UserExec UserDisk Kernel Shell Isr Hello Boot.
Open Scope Z_scope.

Module Interplay.
Import Ide.Ide Console.Vga Console.Console Path.Path Vol.Vol Vfs.Vfs UserFd.UserFd Vmm.Vmm Process.Process Ipc.Ipc HybridIpc.HybridIpc UserExec.UserExec Kernel.Kernel Shell.Shell Isr.Isr Boot.Boot Hello.Hello.
(** the service task is live and not receiving *)
Definition unreached (k : kst) : Prop := state (task k 3) = PROC_STATE_READY ∨ state (task k 3) = PROC_STATE_RUNNING.
Record waiting (k : kst) : Prop := { wt_wf : kwf k; wt_service : unreached k; wt_slot : state (task k 2) = PROC_STATE_FREE }.
Record launched (k : kst) : Prop := { la_wf : kwf k; la_service : unreached k; la_slot : state (task k 2) = PROC_STATE_USER_SLOT; la_active : active_user_pid k = 2 }.
(** a change of the table that the scheduler makes *)
Lemma schedule_keeps k : kwf k → unreached k → ∃ k', schedule k = Ret k' ∧ kwf k' ∧ unreached k' ∧ active_user_pid k' = active_user_pid k ∧
  (state (task k 2) ≠ PROC_STATE_READY → state (task k 2) ≠ PROC_STATE_RUNNING → state (task k' 2) = state (task k 2)).
Proof.
  intros Hk Hu. destruct (schedule_spec k Hk) as (k' & E & Hk' & Hcase). exists k'. split; [done|]. split; [done|].
  destruct Hcase as [(j & _ & Hr & _ & _ & _ & _ & Ha & _ & Ht)|[-> _]]; [|done]. set (n := Process.Process.after (current_task_idx k) j) in *.
  split; [|split; [done|]].
  - unfold unreached. rewrite (Ht 3%nat) by (unfold MAX_TASKS; lia). case_decide; [by right|]. case_decide; [by left|done].
  - intros N1 N2. rewrite (Ht 2%nat) by (unfold MAX_TASKS; lia). rewrite decide_False by congruence. rewrite decide_False; [done|]. by intros [_ ?].
Qed.
Section machine.
Context {D : Type} `{Ports D}.
Context (hello_bin demo_cnaf : list Z) (irq : ksys D → outcome (ksys D)) (fuel : nat) (exit_done cr2 : Z).
Notation handler := (isr_handler hello_bin demo_cnaf irq fuel exit_done cr2).
Implicit Types (y : ksys D).
(** the system calls that do not touch the task table *)
Definition plain_call (nr : Z) : Prop := nr = CHASEROS_SYS_WRITE ∨ nr = CHASEROS_SYS_GETPID ∨ nr = CHASEROS_SYS_UPTIME_TICKS ∨ nr = CHASEROS_SYS_CLOSE ∨ CHASEROS_SYS_FORK < nr.
Inductive sstep : ksys D → ksys D → Prop :=
| S_irq regs a y y' : r_int_no regs = 32 ∨ 34 <= r_int_no regs <= 47 → handler regs y = Ret (a, y') → sstep y y'
| S_call regs a y y' : r_int_no regs = 128 → Z.land (r_cs regs) 3 = 3 → plain_call (r_rax regs) → handler regs y = Ret (a, y') → sstep y y'
| S_store a l y : sstep y (put_mem (mwrite (vm_mem (y_vm y)) a l) y).
(** what a step does to the task table: nothing, or one turn of the scheduler *)
Lemma out_port_kget port v y y' u : out_port port v y = Ret (u, y') → kget y' = kget y.
Proof. intros E. by injection E as <- <-. Qed.
Lemma in_port_kget port v y y' : in_port port y = Ret (v, y') → kget y' = kget y.
Proof. unfold in_port, dev_op, vol_op, on_dev, Io.Io.in_b. unfold mbind, st_mbind, outcome_mbind. destruct (inb port (v_dev (f_vol (y_fs y)))) as [b d]. intros E'. by injection E' as <- <-. Qed.
Lemma eoi_kget n y y' u : eoi n y = Ret (u, y') → kget y' = kget y.
Proof.
  unfold eoi. intros E. apply st_bind_Ret in E as (u1 & y1 & E1 & E2). apply out_port_kget in E2. rewrite E2. clear E2.
  destruct (40 <=? n); [by apply out_port_kget in E1|by injection E1 as _ <-].
Qed.
(** one turn of the scheduler, or the same table *)
Definition turn (k k' : kst) : Prop := k' = k ∨ schedule k = Ret k' ∨ k' = set_vm k (k_vm k') ∧ vm_pmm (k_vm k') = vm_pmm (k_vm k).
Lemma irq_turn regs a y y' : r_int_no regs = 32 ∨ 34 <= r_int_no regs <= 47 → handler regs y = Ret (a, y') → turn (kget y) (kget y').
Proof.
  intros Hn. unfold isr_handler. rewrite (proj2 (Z.ltb_ge _ 32)), (proj2 (Z.leb_le 32 _)), (proj2 (Z.leb_le _ 47)) by lia. cbn [andb].
  unfold hardware. intros E. apply st_bind_Ret in E as (fl & y1 & E1 & E2). assert (fl = Back ∧ turn (kget y) (kget y1)) as [-> Ht].
  { destruct (Z.eqb_spec (r_int_no regs) 32) as [E32|E32].
    - apply st_bind_Ret in E1 as (u & y2 & E3 & E4). injection E4 as <- <-. split; [done|]. right. left.
      unfold timer in E3. apply st_bind_Ret in E3 as (u1 & y3 & E5 & E6). injection E5 as _ <-. unfold kern_op in E6.
      apply outcome_bind_Ret in E6 as ([u2 k] & E7 & E8). injection E8 as _ <-. assert (kget (set_user (set_ticks y (u64 (y_ticks y + 1))) (put_kern (y_user y) k)) = k) as -> by apply (kget_put (set_ticks y (u64 (y_ticks y + 1)))). apply outcome_bind_Ret in E7 as (k2 & E9 & E10). by injection E10 as _ <-.
    - rewrite (proj2 (Z.eqb_neq (r_int_no regs) 33)) in E1 by lia. destruct (r_int_no regs =? 44).
      + apply st_bind_Ret in E1 as (u & y2 & E3 & E4). injection E4 as <- <-. split; [done|]. left. by apply in_port_kget in E3.
      + injection E1 as <- <-. split; [done|]. by left. }
  apply st_bind_Ret in E2 as (u & y2 & E3 & E4). injection E4 as _ <-. apply eoi_kget in E3. by rewrite E3.
Qed.
Lemma call_turn regs a y y' : r_int_no regs = 128 → Z.land (r_cs regs) 3 = 3 → plain_call (r_rax regs) → handler regs y = Ret (a, y') → kget y' = kget y.
Proof.
  intros Hn Hc Hp. unfold isr_handler. rewrite Hn, Hc. cbn [Z.ltb Z.leb Z.compare Pos.compare Pos.compare_cont andb negb Z.eqb Pos.eqb].
  intros E. apply st_ret_inv in E as (r & E & _). unfold syscall in E. cbv zeta in E. destruct Hp as [Hp|[Hp|[Hp|[Hp|Hp]]]].
  - rewrite Hp in E. apply st_ret_inv in E as (v & E & _). revert E. unfold sys_write. cbv zeta. repeat case_if; intros E; try (by injection E as _ <-).
    apply st_bind_Ret in E as (ok & y1 & E1 & E2). apply outcome_bind_Ret in E1 as (o & _ & E1). injection E1 as <- <-. destruct o; cbn [negb] in E2; [|by injection E2 as _ <-].
    apply st_bind_Ret in E2 as (u & y2 & E3 & E4). injection E4 as _ <-. rewrite write_loop_spec in E3. by injection E3 as _ <-.
  - rewrite Hp in E. apply st_ret_inv in E as (v & E & _). by injection E as _ <-.
  - rewrite Hp in E. apply st_ret_inv in E as (v & E & _). by injection E as _ <-.
  - rewrite Hp in E. apply st_ret_inv in E as (v & E & _). unfold fs_op in E. apply outcome_bind_Ret in E as ([r' f] & E1 & E2). injection E2 as _ <-.
    revert E1. unfold user_fd_sys_close. case_if; intros E1; [injection E1 as _ <-; by destruct y as [[? ? ?] ? ? ? ? ? ?]|].
    apply outcome_bind_Ret in E1 as (d & _ & E1). revert E1. case_if; intros E1; injection E1 as _ <-; [by destruct y as [[? ? ?] ? ? ? ? ? ?]|done].
  - repeat (rewrite (nr_above _ _ Hp) in E by (split; done)). by injection E as _ <-.
Qed.
Lemma step_turn y y' : sstep y y' → turn (kget y) (kget y').
Proof.
  intros [regs a z z' Hn E|regs a z z' Hn Hc Hp E|a l z].
  - by eapply irq_turn.
  - left. by eapply call_turn.
  - right. right. by destruct z as [[? ? ?] ? ? ? ? ? ?].
Qed.
(** both phases are kept by every step *)
Lemma turn_keeps k k' : kwf k → unreached k → turn k k' → kwf k' ∧ unreached k' ∧ active_user_pid k' = active_user_pid k ∧
  (state (task k 2) ≠ PROC_STATE_READY → state (task k 2) ≠ PROC_STATE_RUNNING → state (task k' 2) = state (task k 2)).
Proof.
  intros Hk Hu [->|[E|[E Ep]]]; [done| |].
  - destruct (schedule_keeps k Hk Hu) as (k1 & E1 & H1). rewrite E in E1. injection E1 as ->. exact H1.
  - rewrite E. split; [|done]. apply kwf_vm; [done|]. by rewrite Ep; apply Hk.
Qed.
Lemma waiting_step y y' : sstep y y' → waiting (kget y) → waiting (kget y').
Proof.
  intros Hs [Hk Hu H2]. destruct (turn_keeps _ _ Hk Hu (step_turn _ _ Hs)) as (Hk' & Hu' & _ & H2'). split; [done|done|]. rewrite H2'; by rewrite H2.
Qed.
Lemma launched_step y y' : sstep y y' → launched (kget y) → launched (kget y').
Proof.
  intros Hs [Hk Hu H2 Ha]. destruct (turn_keeps _ _ Hk Hu (step_turn _ _ Hs)) as (Hk' & Hu' & Ha' & H2'). split; [done|done| |congruence]. rewrite H2'; by rewrite H2.
Qed.
Lemma steps_keep (Q : kst → Prop) : (∀ y y', sstep y y' → Q (kget y) → Q (kget y')) → ∀ y y', rtc sstep y y' → Q (kget y) → Q (kget y').
Proof. intros Hst y y' Hr. induction Hr as [|y y1 y2 H1 _ IH]; [done|]. intros Hq. apply IH. by eapply Hst. Qed.
(** the launch of a program by the shell *)
Definition launch (cwd : list Z) (y : ksys D) : ksys D := set_user y (enter_user cwd (y_user y)).
Lemma launch_kget cwd y : kget (launch cwd y) = process_bind_user_slot (set_active (kget y) 2) 2.
Proof.
  unfold launch, enter_user. cbn [kget ksys_kern y_user set_user]. set (k := process_bind_user_slot _ _). unfold kern at 1. cbn [u_tasks u_fs set_ufs put_kern].
  change (set_vm k (k_vm k) = k). by destruct k.
Qed.
Lemma launch_ok cwd y : waiting (kget y) → launched (kget (launch cwd y)).
Proof.
  intros [Hk Hu H2]. rewrite launch_kget. set (k := set_active (kget y) 2). assert (kwf k) as Hk1 by (by apply kwf_active).
  assert (kwf (process_bind_user_slot k 2)) as Hk2 by (apply process_bind_wf; [done|lia]). pose proof (kw_len _ Hk1) as Hl. unfold MAX_TASKS in Hl.
  assert (∀ s n, tasks (grow_task_count s n) = tasks s ∧ active_user_pid (grow_task_count s n) = active_user_pid s) as Hg by (intros s n; unfold grow_task_count; by case_if).
  assert (is_state PROC_STATE_FREE (task k 2) = true) as Hf by (by apply is_state_true).
  unfold process_bind_user_slot, process_bind_user_slot_ex in *. change (slot_of 2) with (Some 2%nat) in *. cbn iota zeta in *. rewrite Hf in *. cbn [negb andb] in *.
  set (k1 := upd (upd k 2 _) 2 _) in *. destruct (Hg k1 (Z.of_nat 2 + 1)) as [G1 G2]. split; [done| | |by rewrite G2].
  - unfold unreached, task. rewrite G1. fold (task k1 3). unfold k1. rewrite !task_upd_other by lia. exact Hu.
  - unfold task. rewrite G1. fold (task k1 2). unfold k1. rewrite task_upd_same by (rewrite length_upd; lia). done.
Qed.
(** a message to the service is queued and its sender spins *)
Lemma launched_current k : launched k → process_current_task_for_ipc k = 2%nat.
Proof.
  intros [Hk _ H2 Ha]. unfold process_current_task_for_ipc. rewrite Ha.
  assert (process_find_by_pid k 2 = Some 2%nat) as -> by (apply (find_by_pid_Some k 2 2); [done|]; split; [unfold MAX_TASKS; lia|]; split; [done|]; by rewrite H2).
  change (2 =? 0) with false. rewrite (proj2 (is_state_true PROC_STATE_USER_SLOT _)) by done. done.
Qed.
Lemma send_loops k msg : launched k → length (payload msg) = MAX_MSG_PAYLOAD → ipc_send fuel k CHASEROS_HYBRID_SERVICE_PID (Some msg) = Loop.
Proof.
  intros Hl Hm. pose proof (launched_current k Hl) as Hc. destruct Hl as [Hk Hu H2 _].
  apply (ipc_send_queued_spins fuel k 3 msg); [done|unfold MAX_TASKS; lia| | |by rewrite Hc|by rewrite Hc, H2|done]; destruct Hu as [-> | ->]; done.
Qed.
Lemma message_in_len m a : length (payload (user_copy_message_in m a)) = MAX_MSG_PAYLOAD.
Proof. unfold user_copy_message_in, message_of. cbn [payload]. apply length_slice. unfold user_bytes. by rewrite length_fmap, length_seq. Qed.
Lemma ipc_calls_loop req rep y : launched (kget y) → vmm_user_range_readable range_fuel (y_vm y) req 64 = Ret true →
  sys_ipc_send fuel CHASEROS_HYBRID_SERVICE_PID req y = Loop ∧
  (vmm_user_range_writable range_fuel (y_vm y) rep 64 = Ret true → sys_ipc_call irq fuel CHASEROS_HYBRID_SERVICE_PID req rep y = Loop).
Proof.
  intros Hl Hr. pose proof (message_in_len (vm_mem (y_vm y)) req) as Hm. split.
  - unfold sys_ipc_send. change (Z.of_nat sizeof_message) with 64. rewrite (st_bind_step _ _ y true y) by (unfold readable; by rewrite Hr). cbn [negb]. erewrite st_bind_step by reflexivity.
    unfold mbind, st_mbind, kern_op. by rewrite send_loops.
  - intros Hw. unfold sys_ipc_call. change (Z.of_nat sizeof_message) with 64. rewrite (st_bind_step _ _ y true y) by (unfold readable; by rewrite Hr).
    rewrite (st_bind_step _ _ y true y) by (cbn iota; unfold writable; by rewrite Hw). cbn [negb]. erewrite st_bind_step by reflexivity.
    unfold mbind, st_mbind, kern_op. by rewrite send_loops.
Qed.
Lemma open_loops ptr flags path resolved y : launched (kget y) → vfs_is_mounted (y_fs y) = true → UserFd.UserFd.copy_user_path (y_fs y) 128 ptr = Ret (inr path) →
  vfs_resolve_path (g_user_cwd (y_fs y)) path 256 = Ret (Some resolved) → sys_open irq fuel ptr flags y = Loop.
Proof.
  intros Hl Hm Hc Hr. unfold sys_open, user_fd_sys_open. rewrite Hm, Hc. ostep. cbn [negb]. rewrite Hr. ostep. unfold hybrid_user_fd_open_via_ipc.
  rewrite send_loops; [done|done|]. unfold fs_open_request. cbn [payload]. rewrite length_app, length_replicate, length_take. unfold MAX_MSG_PAYLOAD. lia.
Qed.
Lemma call_loops regs (m : st (ksys D) Z) y : r_int_no regs = 128 → Z.land (r_cs regs) 3 = 3 →
  syscall irq fuel exit_done regs y = (v ← m; mret (syscall_ret v regs)) y → m y = Loop → handler regs y = Loop.
Proof.
  intros Hn Hc Es Em. unfold isr_handler. rewrite Hn, Hc. cbn [Z.ltb Z.leb Z.compare Pos.compare Pos.compare_cont andb negb Z.eqb Pos.eqb].
  unfold mbind at 1, st_mbind at 1. rewrite Es. unfold mbind, st_mbind. by rewrite Em.
Qed.
End machine.

(** ** Theorems *)

(** The file service of the booted kernel does not answer: after start-up,
    any steps of [sstep], the launch of a program and any more of them, a send or call to the service from a readable (and writable)
    buffer and the opening of any resolvable path on a mounted volume never
    return, however long they run: the scheduler marks the service's task as
    running but does not run it, so it never waits for a message. *)
Theorem service_never_answers {D} `{Ports D} hello_bin demo_cnaf irq fuel exit_done cr2 cwd (y0 y1 y2 : ksys D) :
  tasks_up y0 → rtc (sstep hello_bin demo_cnaf irq fuel exit_done cr2) y0 y1 → rtc (sstep hello_bin demo_cnaf irq fuel exit_done cr2) (launch cwd y1) y2 →
  ∀ regs, r_int_no regs = 128 → Z.land (r_cs regs) 3 = 3 →
  (r_rdi regs = CHASEROS_HYBRID_SERVICE_PID → vmm_user_range_readable range_fuel (y_vm y2) (r_rsi regs) 64 = Ret true →
    r_rax regs = CHASEROS_SYS_IPC_SEND ∨ (r_rax regs = CHASEROS_SYS_IPC_CALL ∧ vmm_user_range_writable range_fuel (y_vm y2) (r_rdx regs) 64 = Ret true) →
    isr_handler hello_bin demo_cnaf irq fuel exit_done cr2 regs y2 = Loop) ∧
  (∀ path resolved, r_rax regs = CHASEROS_SYS_OPEN → vfs_is_mounted (y_fs y2) = true →
    UserFd.UserFd.copy_user_path (y_fs y2) 128 (r_rdi regs) = Ret (inr path) → vfs_resolve_path (g_user_cwd (y_fs y2)) path 256 = Ret (Some resolved) →
    isr_handler hello_bin demo_cnaf irq fuel exit_done cr2 regs y2 = Loop).
Proof.
  intros [Hw _ _ [Hsv _] Hfree] H01 H12 regs Hn Hc.
  assert (waiting (kget y0)) as W0 by (split; [done|by left|apply Hfree; [unfold MAX_TASKS; lia|done|done]]).
  pose proof (steps_keep _ _ _ _ _ _ _ (waiting_step _ _ _ _ _ _) _ _ H01 W0) as W1.
  pose proof (steps_keep _ _ _ _ _ _ _ (launched_step _ _ _ _ _ _) _ _ H12 (launch_ok cwd y1 W1)) as L2. split.
  - intros Hd Hr Hor. destruct (ipc_calls_loop irq fuel (r_rsi regs) (r_rdx regs) y2 L2 Hr) as [E1 E2]. rewrite <-Hd in E1, E2. destruct Hor as [Ha|[Ha Hwr]].
    + apply (call_loops _ _ _ _ _ _ regs (sys_ipc_send fuel (r_rdi regs) (r_rsi regs)) y2 Hn Hc); [unfold syscall; by rewrite Ha|exact E1].
    + apply (call_loops _ _ _ _ _ _ regs (sys_ipc_call irq fuel (r_rdi regs) (r_rsi regs) (r_rdx regs)) y2 Hn Hc); [unfold syscall; by rewrite Ha|exact (E2 Hwr)].
  - intros path resolved Ha Hm Hcp Hrs. pose proof (open_loops irq fuel (r_rdi regs) (r_rsi regs) path resolved y2 L2 Hm Hcp Hrs) as E.
    apply (call_loops _ _ _ _ _ _ regs (sys_open irq fuel (r_rdi regs) (r_rsi regs)) y2 Hn Hc); [unfold syscall; by rewrite Ha|exact E].
Qed.
(** The program hello on that kernel: it prints its greeting, with the
    process number 2 and the clock, and its first message then never returns,
    so that neither does the program. *)
Theorem hello_hangs {D} `{Ports D} hello_bin demo_cnaf irq fuel exit_done cr2 regs lay P (y : ksys D) : text_env lay P →
  (∀ z, P z → launched (kget z) ∧ vmm_user_range_readable range_fuel (y_vm z) (a_req lay) 64 = Ret true ∧
    vmm_user_range_writable range_fuel (y_vm z) (a_rep lay) 64 = Ret true) →
  Z.land (r_cs regs) 3 = 3 → P y → 0 <= y_ticks y < 2 ^ 63 →
  ∃ y1, greet hello_bin demo_cnaf irq fuel exit_done cr2 128 regs lay y = Ret (tt, y1) ∧
    y_out y1 = y_out y ++ line "Hello from user mode (ring 3)" ++ str "pid=" ++ dec 2 ++ str " uptime_ticks=" ++ dec (y_ticks y) ++ [newline] ∧
    ping hello_bin demo_cnaf irq fuel exit_done cr2 128 regs lay y1 = Loop ∧ _start hello_bin demo_cnaf irq fuel exit_done cr2 128 regs lay y = Loop.
Proof.
  intros Ht Hl Hcs Hp Htk. destruct (Hl y Hp) as ([_ _ _ Ha] & _ & _).
  destruct (greet_run hello_bin demo_cnaf irq fuel exit_done cr2 regs lay P Ht Hcs y Hp ltac:(rewrite Ha; lia) Htk) as (y1 & E1 & (P1 & O1) & _). rewrite Ha in O1.
  exists y1. split; [exact E1|]. split; [exact O1|].
  assert (ping hello_bin demo_cnaf irq fuel exit_done cr2 128 regs lay y1 = Loop) as Eping.
  { destruct (request_run irq regs lay P Ht Hcs y1 P1) as (y2 & E2 & (P2 & _) & _). unfold ping. rewrite (st_bind_step _ _ _ _ _ E2).
    destruct (Hl y2 P2) as (L2 & R2 & W2). destruct (ipc_calls_loop irq fuel (a_req lay) (a_rep lay) y2 L2 R2) as [_ Ec]. specialize (Ec W2).
    set (r := call_regs regs 128 CHASEROS_SYS_IPC_CALL CHASEROS_HYBRID_SERVICE_PID (a_req lay) (a_rep lay)).
    assert (isr_handler hello_bin demo_cnaf irq fuel exit_done cr2 r y2 = Loop) as Eh.
    { apply (call_loops hello_bin demo_cnaf irq fuel exit_done cr2 r (sys_ipc_call irq fuel CHASEROS_HYBRID_SERVICE_PID (a_req lay) (a_rep lay)) y2 eq_refl Hcs); [reflexivity|exact Ec]. }
    unfold chaseros_syscall_ipc_call, syscall3, int80. fold r. unfold mbind, st_mbind. by rewrite Eh. }
  split; [exact Eping|]. unfold _start, start_body. unfold mbind at 1, st_mbind at 1. rewrite (st_bind_step _ _ _ _ _ E1). unfold mbind at 1, st_mbind at 1. by rewrite Eping.
Qed.

(** ** Witnesses: hello's kernel with the service task in slot 3 *)
Definition service_procs : list proc_t :=
  [set_state PROC_STATE_RUNNING proc_zero; proc_zero; proc_zero; set_state PROC_STATE_READY (set_pid 3 proc_zero)] ++ replicate 12 proc_zero.
Definition service_kernel : ksys ata :=
  Ksys (Usys (y_fs hello_kernel) (Kst (Vm hello_mem demo_frames 0x1000) service_procs 0 4 0 0) 0x5000) [] 7 [] (y_con hello_kernel) [] [slash].
Lemma service_procs_wf k : tasks k = service_procs → current_task_idx k = 0%nat → vm_pmm (k_vm k) = demo_frames → kwf k.
Proof.
  intros Ht Hc Hp. apply kwf_of_slots; [rewrite Hp; apply boot_pmm_wf|by rewrite Ht|rewrite Hc; unfold MAX_TASKS; lia|].
  intros i Hi. unfold MAX_TASKS in Hi. unfold task. rewrite Ht.
  do 16 (destruct i as [|i]; [split; simpl; intros; simplify_eq; unfold MAX_TASKS; first [done|lia|congruence]|]). lia.
Qed.
Lemma service_up : tasks_up service_kernel.
Proof.
  split; [by apply service_procs_wf|done|done|done|]. intros i Hi H0 H3. unfold MAX_TASKS in Hi.
  do 16 (destruct i as [|i]; [done|]). lia.
Qed.
(** [quiet_kernel] of Hello.v with the service task *)
Definition service_run (y : ksys ata) : Prop := launched (kget y) ∧ vm_cr3 (y_vm y) = 0x1000 ∧ mem_bytes (vm_mem (y_vm y)) ∧
  (∀ x, x < 0x400400 → vm_mem (y_vm y) x = hello_mem x).
Lemma service_flags y need : service_run y → need = 0 ∨ need = PAGE_WRITE → vmm_page_has_flags (y_vm y) 0x400000 need = true.
Proof.
  intros (_ & Hc & _ & Hm). apply user_page_flags; [done|]. intros a Ha. rewrite Hm by lia. unfold hello_mem, user_mem. rewrite !mwrite_out by lia. done.
Qed.
Lemma service_readable y a len : service_run y → 0 < len → 0x400000 <= a → a + len <= 0x401000 → vmm_user_range_readable range_fuel (y_vm y) a len = Ret true.
Proof. intros Hy ? ? ?. apply framed_range; [by apply service_flags; [|left]|done..]. Qed.
Lemma service_text : text_env demo_layout service_run.
Proof.
  split.
  - intros y s Hy. exact Hy.
  - intros y a l (Hl & Hc & Hb & Hm) Hby Ha. cbn [a_c a_req demo_layout] in Ha. split; [|split; [exact Hc|split]].
    + apply (launched_step [] [] (λ y, Ret y) 0 0 0 y); [apply S_store|exact Hl].
    + by apply mem_bytes_mwrite.
    + intros x Hx. change (mwrite (vm_mem (y_vm y)) a l x = hello_mem x). rewrite mwrite_out by lia. by apply Hm.
  - intros y s Hy Hs. destruct (literals_ok s Hs) as [_ Hl]. destruct (pool_literal s 0 Hs ltac:(lia)) as (_ & H1 & H2). split; [lia| |].
    + intros i Hi. destruct (pool_literal s i Hs Hi) as (E & _). destruct Hy as (_ & _ & _ & Hm). rewrite Hm; [done|lia].
    + apply service_readable; [done|lia..].
  - intros y Hy. split; [cbn; lia|]. apply service_readable; [done|cbn; lia..].
Qed.
Lemma service_launched : service_run (launch [slash] service_kernel).
Proof.
  split; [|split; [done|split; [|done]]].
  - apply launch_ok. split; [by apply service_procs_wf|by left|done].
  - apply mem_bytes_mwrite; [apply boot_bytes|apply pool_bytes].
Qed.
Lemma service_buffers z : service_run z → launched (kget z) ∧ vmm_user_range_readable range_fuel (y_vm z) 0x400500 64 = Ret true ∧ vmm_user_range_writable range_fuel (y_vm z) 0x400600 64 = Ret true.
Proof. intros Hz. split; [apply Hz|]. split; [by apply service_readable|]. apply framed_range; [by apply service_flags; [|right]|lia..]. Qed.
Lemma service_never_answers_witness : isr_handler [] [] (λ y, Ret y) 1000 0xC0DE 0 (call_frame_of CHASEROS_SYS_IPC_CALL 3 0x400500 0x400600 0x1B) (launch [slash] service_kernel) = Loop.
Proof.
  destruct (service_never_answers [] [] (λ y, Ret y) 1000 0xC0DE 0 [slash] service_kernel service_kernel (launch [slash] service_kernel) service_up (rtc_refl _ _) (rtc_refl _ _)
    (call_frame_of CHASEROS_SYS_IPC_CALL 3 0x400500 0x400600 0x1B) eq_refl eq_refl) as [Hipc _].
  apply Hipc; [reflexivity|exact (proj1 (proj2 (service_buffers _ service_launched)))|].
  right. split; [reflexivity|exact (proj2 (proj2 (service_buffers _ service_launched)))].
Defined.
Lemma hello_hangs_witness : _start [] [] (λ y, Ret y) 1000 0xC0DE 0 128 hello_regs demo_layout (launch [slash] service_kernel) = Loop.
Proof.
  destruct (hello_hangs [] [] (λ y, Ret y) 1000 0xC0DE 0 hello_regs demo_layout service_run (launch [slash] service_kernel) service_text service_buffers eq_refl service_launched) as (y1 & _ & _ & _ & E); [cbn; lia|exact E].
Defined.
End Interplay.
