(* ===== verification/Session.v ===== *)
(** Keyboard to disk: the keyboard interrupts of kernel/isr.c, the line editor
    and the commands of kernel/shell.c, the VFS and ext2 and the IDE driver
    together.  The machine is any ports with an ATA disk and a keyboard
    controller that delivers a queue of scan codes ([KeyDisk]).  The theorem
    runs one interrupt per key press and per key release. *)
From stdpp Require Import base numbers list sets strings.
From S2P Require Import Prelude Bitmap Memory Io Console Vmm Process Path Vol Ide Ext2 Ext2Disk Ext2Spec Ext2Format Vfs Disks UserFd UserExec Kernel Shell Isr.
Open Scope Z_scope.

Module Session.
Import Ide.Ide Console.Vga Console.Console Process.Process Path.Path Vol.Vol Ext2.Ext2 Ext2Disk.Ext2Disk Ext2Spec.Ext2Spec Ext2Format.Ext2Format Vfs.Vfs UserExec.UserExec Kernel.Kernel Shell.Shell Isr.Isr.
(** ** Keys *)
(** the first scan code of a character; a key is pressed, then released *)
Definition scan (c : Z) : Z := match list_find (c =.) scancode_ascii with Some (i, _) => Z.of_nat i | None => 0 end.
Definition stroke (c : Z) : list Z := [scan c; 0x80 + scan c].
Definition strokes (s : list Z) : list Z := concat (stroke <$> s).
Definition typeable (c : Z) : Prop := c ∈ scancode_ascii ∧ is_print c.
Lemma scan_spec c : c ∈ scancode_ascii → 0 <= scan c < Z.of_nat (length scancode_ascii) ∧ nth (Z.to_nat (scan c)) scancode_ascii 0 = c.
Proof.
  intros Hc. unfold scan. destruct (list_find_elem_of (c =.) scancode_ascii c Hc eq_refl) as [[i x] E]. rewrite E.
  apply list_find_Some in E as (E & -> & _). split; [apply lookup_lt_Some in E; lia|]. rewrite Nat2Z.id. by apply nth_lookup_Some.
Qed.
Lemma strokes_cons c s : strokes (c :: s) = scan c :: (0x80 + scan c) :: strokes s.
Proof. done. Qed.
Lemma strokes_app s t : strokes (s ++ t) = strokes s ++ strokes t.
Proof. unfold strokes. by rewrite fmap_app, concat_app. Qed.

(** an ATA disk and a keyboard; [kd_ata q]: the disk's promise while the scan
    codes [q] are still to be read.  Reading the keyboard's data port takes
    the next one, and neither that nor the interrupt controller's command
    port disturbs the disk *)
Class KeyDisk (D : Type) `{Ports D} := {
  kd_ata : list Z → AtaLaws D;
  kd_key : ∀ c q d a, ata_rep (AtaLaws := kd_ata (c :: q)) d a →
    fst (inb 0x60 d) = c ∧ ata_rep (AtaLaws := kd_ata q) (snd (inb 0x60 d)) a;
  kd_eoi : ∀ q d a, ata_rep (AtaLaws := kd_ata q) d a → ata_rep (AtaLaws := kd_ata q) (outb 0x20 0x20 d) a
}.

(** ** One interrupt per scan code *)
Section keys.
Context {D : Type} `{Ports D} (hello_bin demo_cnaf : list Z) (irq : ksys D → outcome (ksys D)) (fuel : nat) (exit_done cr2 : Z).
Implicit Types (y : ksys D) (f : fsys (vst D)).
Notation isr_handler := (isr_handler hello_bin demo_cnaf irq fuel exit_done cr2).
Context (regs : registers) (Hregs : r_int_no regs = 33).
(** [n] interrupts with the frame [regs], until one does not resume it *)
Fixpoint interrupts (n : nat) : st (ksys D) after :=
  match n with
  | O => mret (Resume regs)
  | S n => a ← isr_handler regs; match a with Resume _ => interrupts n | _ => mret a end
  end.
Lemma interrupts_app n k y y1 : interrupts n y = Ret (Resume regs, y1) → interrupts (n + k) y = interrupts k y1.
Proof.
  revert y. induction n as [|n IH]; intros y E; [by injection E as <-|]. cbn [interrupts Nat.add] in *.
  apply st_bind_Ret in E as (a & y2 & E & E2). rewrite (st_bind_step _ _ _ _ _ E). destruct a as [r| |]; [|done..]. by apply IH.
Qed.
Definition fs_dev f (d : D) : fsys (vst D) := set_fvol f (set_dev (f_vol f) d).
Definition with_dev y (d : D) : ksys D := set_yfs y (fs_dev (y_fs y) d).
Lemma key_irq c y y1 : c ∈ scancode_ascii → c ≠ 0 → fst (inb 0x60 (y_dev y)) = scan c →
  shell_handle_input hello_bin demo_cnaf c (with_dev y (snd (inb 0x60 (y_dev y)))) = Ret (Back, y1) →
  isr_handler regs y = Ret (Resume regs, with_dev y1 (outb 0x20 0x20 (y_dev y1))).
Proof.
  intros Hc Hz Hin E. destruct (scan_spec c Hc) as [Hr Hn]. unfold Isr.isr_handler, hardware. rewrite Hregs. cbn [Z.ltb Z.leb Z.compare Pos.compare Pos.compare_cont andb negb Z.eqb Pos.eqb].
  rewrite (st_bind_step _ _ _ Back y1); [reflexivity|]. unfold keyboard. erewrite st_bind_step by reflexivity. cbn [default id from_option]. unfold y_dev in Hin. rewrite Hin.
  change (length scancode_ascii) with 58%nat in *. rewrite (proj2 (Z.ltb_lt _ 0x80)), (proj2 (Z.ltb_lt _ (Z.of_nat 58))), Hn, (proj2 (Z.eqb_neq c 0)) by lia. exact E.
Qed.
Lemma release_irq c y : c ∈ scancode_ascii → fst (inb 0x60 (y_dev y)) = 0x80 + scan c →
  let y1 := with_dev y (snd (inb 0x60 (y_dev y))) in isr_handler regs y = Ret (Resume regs, with_dev y1 (outb 0x20 0x20 (y_dev y1))).
Proof.
  intros Hc Hin. destruct (scan_spec c Hc) as [Hr _]. cbv zeta. unfold Isr.isr_handler, hardware. rewrite Hregs. cbn [Z.ltb Z.leb Z.compare Pos.compare Pos.compare_cont andb negb Z.eqb Pos.eqb].
  rewrite (st_bind_step _ _ _ Back (with_dev y (snd (inb 0x60 (y_dev y))))); [reflexivity|]. unfold keyboard. erewrite st_bind_step by reflexivity. cbn [default id from_option]. unfold y_dev in Hin. rewrite Hin.
  by rewrite (proj2 (Z.ltb_ge _ 0x80)) by lia.
Qed.
(** a property of the file system and the shell's directory, given the scan
    codes to come, that reading one and acknowledging preserve *)
Record steady (R : list Z → fsys (vst D) → list Z → Prop) : Prop := {
  sd_key : ∀ c q f w, R (c :: q) f w → fst (inb 0x60 (v_dev (f_vol f))) = c ∧ R q (fs_dev f (snd (inb 0x60 (v_dev (f_vol f))))) w;
  sd_eoi : ∀ q f w, R q f w → R q (fs_dev f (outb 0x20 0x20 (v_dev (f_vol f)))) w
}.
Definition holds (R : list Z → fsys (vst D) → list Z → Prop) (q : list Z) y : Prop := R q (y_fs y) (y_cwd y).
Context (R : list Z → fsys (vst D) → list Z → Prop) (HR : steady R).
(** press and release of a key whose handling keeps [R'] *)
Lemma stroke_irqs (R' : list Z → fsys (vst D) → list Z → Prop) (HR' : steady R') c q y : c ∈ scancode_ascii → c ≠ 0 → holds R (stroke c ++ q) y →
  (∀ y0, holds R (0x80 + scan c :: q) y0 → y_cmd y0 = y_cmd y → y_out y0 = y_out y →
    ∃ y1, shell_handle_input hello_bin demo_cnaf c y0 = Ret (Back, y1) ∧ holds R' (0x80 + scan c :: q) y1) →
  ∃ y0 y1 y2, holds R (0x80 + scan c :: q) y0 ∧ y_cmd y0 = y_cmd y ∧ y_out y0 = y_out y ∧
    shell_handle_input hello_bin demo_cnaf c y0 = Ret (Back, y1) ∧
    interrupts 2 y = Ret (Resume regs, y2) ∧ holds R' q y2 ∧ y_cmd y2 = y_cmd y1 ∧ y_out y2 = y_out y1.
Proof.
  intros Hc Hz Hq Hrun. destruct (sd_key _ HR _ _ _ _ Hq) as [Hin H0].
  set (y0 := with_dev y (snd (inb 0x60 (y_dev y)))). destruct (Hrun y0 H0 eq_refl eq_refl) as (y1 & E & H1).
  pose proof (key_irq c y y1 Hc Hz Hin E) as E1. apply (sd_eoi _ HR') in H1. destruct (sd_key _ HR' _ _ _ _ H1) as [Hin1 H2].
  set (yr := with_dev y1 (outb 0x20 0x20 (y_dev y1))) in *. pose proof (release_irq c yr Hc Hin1) as E2. cbv zeta in E2. apply (sd_eoi _ HR') in H2.
  set (yi := with_dev yr (snd (inb 0x60 (y_dev yr)))) in *. exists y0, y1, (with_dev yi (outb 0x20 0x20 (y_dev yi))).
  do 4 (split; [done|]). split; [|split; [exact H2|done]].
  cbn [interrupts]. rewrite (st_bind_step _ _ _ _ _ E1). by rewrite (st_bind_step _ _ _ _ _ E2).
Qed.
Lemma text_irqs s q : ∀ y, Forall typeable s → (length (y_cmd y) + length s <= 511)%nat → holds R (strokes s ++ q) y →
  ∃ y', interrupts (2 * length s) y = Ret (Resume regs, y') ∧ holds R q y' ∧ y_cmd y' = y_cmd y ++ s ∧ y_out y' = y_out y ++ s.
Proof.
  induction s as [|c s IH]; intros y Hs Hl Hq; cbn [length] in Hl.
  { exists y. by rewrite !app_nil_r. }
  apply Forall_cons in Hs as [[Hc Hp] Hs]. rewrite strokes_cons in Hq.
  destruct (stroke_irqs R HR c (strokes s ++ q) y Hc) as (y0 & y1 & y2 & H0 & C0 & O0 & E & Ei & H2 & C2 & O2); [unfold is_print in Hp; lia|exact Hq| |].
  { intros y0 H0 C0 O0. rewrite (input_char hello_bin demo_cnaf y0 c Hp) by (rewrite C0; lia). eexists. split; [reflexivity|exact H0]. }
  rewrite (input_char hello_bin demo_cnaf y0 c Hp) in E by (rewrite C0; lia). injection E as <-. cbn in C2, O2. rewrite C0 in C2. rewrite O0 in O2.
  destruct (IH y2 Hs ltac:(rewrite C2, length_app; simpl; lia) H2) as (y3 & E3 & H3 & C3 & O3). exists y3.
  replace (2 * length (c :: s))%nat with (2 + 2 * length s)%nat by (simpl; lia). rewrite (interrupts_app _ _ _ _ Ei), E3, C3, O3, C2, O2, <-!app_assoc. done.
Qed.
(** a line and the Enter key, when the command returns *)
Lemma line_irqs (R' : list Z → fsys (vst D) → list Z → Prop) (HR' : steady R') s out q y : Forall typeable s → (length s <= 511)%nat → y_cmd y = [] →
  holds R (strokes (s ++ [newline]) ++ q) y →
  (∀ q0 y0, holds R q0 y0 → ∃ y1, shell_execute hello_bin demo_cnaf s y0 = Ret (Back, y1) ∧ holds R' q0 y1 ∧ y_out y1 = y_out y0 ++ out) →
  ∃ y', interrupts (2 * (length s + 1)) y = Ret (Resume regs, y') ∧ holds R' q y' ∧ y_cmd y' = [] ∧ y_out y' = y_out y ++ echo s out.
Proof.
  intros Hs Hl Hc Hq Hrun. rewrite strokes_app, <-app_assoc in Hq. destruct (text_irqs s _ y Hs ltac:(rewrite Hc; simpl; lia) Hq) as (y1 & E1 & H1 & C1 & O1).
  rewrite Hc in C1. cbn [app] in C1.
  assert (∀ y0, holds R (0x80 + scan newline :: q) y0 → y_cmd y0 = y_cmd y1 → y_out y0 = y_out y1 →
    ∃ y4, shell_handle_input hello_bin demo_cnaf newline y0 = Ret (Back, y4) ∧ (holds R' (0x80 + scan newline :: q) y4 ∧ y_cmd y4 = [] ∧ y_out y4 = y_out y ++ echo s out)) as Henter.
  { intros y0 H0 C0 O0. destruct (Hrun _ (emit [newline] y0) H0) as (y4 & E4 & H4 & O4). rewrite C1 in C0. rewrite <-C0 in E4.
    eexists. split; [exact (enter_line hello_bin demo_cnaf y0 y4 E4)|]. split; [exact H4|]. split; [done|].
    unfold emit at 1. cbn [y_out set_con set_out set_cmd]. rewrite O4. cbn [y_out emit set_con set_out]. rewrite O0, O1. unfold echo. by rewrite <-!app_assoc. }
  destruct (stroke_irqs R' HR' newline q y1) as (y0 & y4 & y5 & H0 & C0 & O0 & E & Ei & H5 & C5 & O5); [vm_compute; set_solver|done|exact H1| |].
  { intros y0 H0 C0 O0. destruct (Henter y0 H0 C0 O0) as (y4 & E4 & H4 & _). eauto. }
  destruct (Henter y0 H0 C0 O0) as (y4' & E4 & _ & C4 & O4). rewrite E4 in E. injection E as ->. exists y5.
  replace (2 * (length s + 1))%nat with (2 * length s + 2)%nat by lia. rewrite (interrupts_app _ _ _ _ E1). rewrite C5, O5. done.
Qed.
End keys.

(** ** The session *)
Section session.
Context {D : Type} `{KeyDisk D} (hello_bin demo_cnaf : list Z).
Implicit Types (y : ksys D) (f : fsys (vst D)) (w q : list Z).
Notation irep q := (ide_rep (H0 := kd_ata q)).
Definition at_boot (a : ata) q f w : Prop := ata_rep (AtaLaws := kd_ata q) (v_dev (f_vol f)) a ∧ g_ram_npages (f_vol f) = 0.
Definition attached n img q f w : Prop := irep q (f_vol f) n img.
Definition mounted n (P : image → Prop) q f w : Prop :=
  w = [slash] ∧ ∃ img, fs_on (H0 := ide_laws (H0 := kd_ata q)) f n img ∧ P img.
Lemma steady_boot a : steady (at_boot a).
Proof.
  split.
  - intros c q f w [Ha Hr]. destruct (kd_key _ _ _ _ Ha) as [Hc Ha']. split; [exact Hc|]. split; [exact Ha'|exact Hr].
  - intros q f w [Ha Hr]. split; [exact (kd_eoi _ _ _ Ha)|exact Hr].
Qed.
Lemma irep_key c q s n img : irep (c :: q) s n img → fst (inb 0x60 (v_dev s)) = c ∧ irep q (set_dev s (snd (inb 0x60 (v_dev s)))) n img.
Proof.
  intros (Ht & Hs & Hn & Hd & a & [Ha Hi] & Hrest). destruct (kd_key _ _ _ _ Ha) as [Hc Ha']. split; [exact Hc|].
  do 4 (split; [done|]). exists a. split; [|exact Hrest]. by split.
Qed.
Lemma irep_eoi q s n img : irep q s n img → irep q (set_dev s (outb 0x20 0x20 (v_dev s))) n img.
Proof.
  intros (Ht & Hs & Hn & Hd & a & [Ha Hi] & Hrest). do 4 (split; [done|]). exists a. split; [|exact Hrest]. split; [exact (kd_eoi _ _ _ Ha)|done].
Qed.
Lemma steady_attached n img : steady (attached n img).
Proof. split; [intros c q f w; apply irep_key|intros q f w; apply irep_eoi]. Qed.
Lemma steady_mounted n P : steady (mounted n P).
Proof.
  split.
  - intros c q f w (Hw & img & [Hm Hr Hf] & HP). destruct (irep_key _ _ _ _ _ Hr) as [Hc Hr']. split; [exact Hc|]. split; [done|]. exists img. by split.
  - intros q f w (Hw & img & [Hm Hr Hf] & HP). split; [done|]. exists img. split; [|done]. split; [done|exact (irep_eoi _ _ _ _ Hr)|done].
Qed.
Definition typeableb (c : Z) : bool := bool_decide (c ∈ scancode_ascii) && (32 <=? c) && (c <? 127).
Lemma typeable_all s : forallb typeableb s = true → Forall typeable s.
Proof.
  intros E. apply Forall_forall. intros c Hc. apply list_elem_of_In in Hc. rewrite forallb_forall in E. specialize (E c Hc).
  unfold typeableb in E. rewrite !andb_true_iff, bool_decide_eq_true, Z.leb_le, Z.ltb_lt in E. unfold typeable, is_print. tauto.
Qed.
Lemma typeable_print s : Forall typeable s → Forall is_print s.
Proof. intros Hs. eapply Forall_impl; [exact Hs|]. by intros c []. Qed.
(** the plus sign has no key *)
Lemma typeable_not_lost s : Forall typeable s → s ≠ str "lost+found".
Proof.
  intros Hs ->. rewrite Forall_forall in Hs. destruct (Hs 43) as [Hin _]; [vm_compute; set_solver|].
  assert (bool_decide (43 ∈ scancode_ascii) = false) as E by (vm_compute; reflexivity). by apply bool_decide_eq_false in E.
Qed.
Lemma typeable_write name text : Forall typeable name → Forall typeable text → Forall typeable (write_line name text).
Proof.
  intros Hn Ht. unfold write_line. apply Forall_app. split; [by apply typeable_all|]. constructor; [|apply Forall_app; split; [done|constructor; [|done]]];
    apply Forall_singleton, typeable_all; reflexivity.
Qed.
Lemma typeable_read name : Forall typeable name → Forall typeable (read_line name).
Proof.
  intros Hn. unfold read_line. apply Forall_app. split; [by apply typeable_all|]. constructor; [|done]. apply Forall_singleton, typeable_all; reflexivity.
Qed.
Context (irq : ksys D → outcome (ksys D)) (fuel : nat) (exit_done cr2 : Z) (regs : registers) (Hregs : r_int_no regs = 33).
Notation interrupts := (interrupts hello_bin demo_cnaf irq fuel exit_done cr2 regs).
Lemma irqs_attach a drive q y : disk_ok a → Disks.Disks.drive_ok a drive → y_cmd y = [] → holds (at_boot a) (strokes (attach_line drive ++ [newline]) ++ q) y →
  ∃ y', interrupts (2 * (length (attach_line drive) + 1)) y = Ret (Resume regs, y') ∧
    holds (attached (Z.min 8192 (a_size a drive / 2)) (λ b, a_disk a drive (2 * b) ++ a_disk a drive (2 * b + 1))) q y' ∧ y_cmd y' = [] ∧
    y_out y' = y_out y ++ echo (attach_line drive) (line "attach: IDE volume ready, VFS mounted").
Proof.
  intros Hok Hdr Hc Hq. apply (line_irqs hello_bin demo_cnaf irq fuel exit_done cr2 regs Hregs (at_boot a) (steady_boot a)); [apply steady_attached| |simpl; lia|done|done|].
  - destruct Hdr as [Hd _ _ _]. assert (drive = 0 ∨ drive = 1) as [->| ->] by lia; by apply typeable_all.
  - intros q0 y0 [Ha Hr]. exact (attach_run (H0 := kd_ata q0) hello_bin demo_cnaf y0 a drive Ha Hok Hdr Hr).
Qed.
Lemma irqs_initdisk n img q y : y_cmd y = [] → holds (attached n img) (strokes (str "initdisk" ++ [newline]) ++ q) y →
  ∃ y', interrupts (2 * (length (str "initdisk") + 1)) y = Ret (Resume regs, y') ∧ holds (mounted n (formatted n)) q y' ∧ y_cmd y' = [] ∧
    y_out y' = y_out y ++ echo (str "initdisk") (line "initdisk: volume formatted (ext2) and mounted; cwd=/").
Proof.
  intros Hc Hq. apply (line_irqs hello_bin demo_cnaf irq fuel exit_done cr2 regs Hregs (attached n img) (steady_attached n img)); [apply steady_mounted|by apply typeable_all|simpl; lia|done|done|].
  intros q0 y0 Hr. destruct (initdisk_run hello_bin demo_cnaf (ide_laws (H0 := kd_ata q0)) y0 n img Hr) as (y1 & img1 & E & _ & Hw & Hs & Hf & Ho).
  exists y1. split; [done|]. split; [|done]. split; [done|]. by exists img1.
Qed.
Lemma irqs_write n name text q y : 256 <= n → file_name name → Forall typeable name → Forall typeable text → hd 0 text ≠ space →
  (length (write_line name text) <= 511)%nat → y_cmd y = [] → holds (mounted n (formatted n)) (strokes (write_line name text ++ [newline]) ++ q) y →
  ∃ y', interrupts (2 * (length (write_line name text) + 1)) y = Ret (Resume regs, y') ∧ holds (mounted n (λ img, file_at img [name] = Some text)) q y' ∧ y_cmd y' = [] ∧
    y_out y' = y_out y ++ echo (write_line name text) (line "write: ok").
Proof.
  intros Hn Hf Hnm Ht Hsp Hl Hc Hq.
  apply (line_irqs hello_bin demo_cnaf irq fuel exit_done cr2 regs Hregs _ (steady_mounted n (formatted n))); [apply steady_mounted|by apply typeable_write|done|done|done|].
  intros q0 y0 (Hw & img & Hs & Hfm). pose proof (fnm_len _ Hf) as Hfl. assert (comp_ok name) as Hco by (by apply Forall_singleton, (vp_ok _ (fnm_path _ Hf))).
  assert (length text <= 511)%nat as Hlt.
  { unfold write_line in Hl. rewrite length_app in Hl. cbn [length] in Hl. rewrite length_app in Hl. cbn [length] in Hl. lia. }
  destruct (write_run hello_bin demo_cnaf (ide_laws (H0 := kd_ata q0)) y0 n img name text Hs Hw Hf Hsp (print_bytes _ (typeable_print _ Ht)) Hl) as (y1 & img1 & E & _ & Hw1 & Hs1 & Hd & Ho).
  { intros k Hk. by rewrite (formatted_absent _ img name Hfm) in Hk by (apply Disks.Disks.fmt_root_names; [done|by apply typeable_not_lost]). }
  { apply formatted_can_write; [done|done| |lia]. destruct Hco. destruct name; simpl in *; [done|lia]. }
  exists y1. split; [done|]. split; [|done]. split; [done|]. by exists img1.
Qed.
Lemma irqs_read n name text q y : file_name name → Forall typeable name → Forall typeable text → Z.of_nat (length text) <= 4096 → y_cmd y = [] →
  holds (mounted n (λ img, file_at img [name] = Some text)) (strokes (read_line name ++ [newline]) ++ q) y →
  ∃ y', interrupts (2 * (length (read_line name) + 1)) y = Ret (Resume regs, y') ∧ holds (mounted n (λ img, file_at img [name] = Some text)) q y' ∧ y_cmd y' = [] ∧
    y_out y' = y_out y ++ echo (read_line name) (text ++ [newline]).
Proof.
  intros Hf Hnm Ht Hl Hc Hq. pose proof (fnm_len _ Hf) as Hfl.
  apply (line_irqs hello_bin demo_cnaf irq fuel exit_done cr2 regs Hregs _ (steady_mounted n (λ img, file_at img [name] = Some text))); [apply steady_mounted|by apply typeable_read|simpl; lia|done|done|].
  intros q0 y0 (Hw & img & Hs & Hd). destruct (read_run hello_bin demo_cnaf (ide_laws (H0 := kd_ata q0)) y0 n img name text Hs Hw Hf Hd (typeable_print _ Ht) Hl)
    as (y1 & E & _ & Hw1 & Hs1 & Ho).
  exists y1. split; [done|]. split; [|done]. split; [done|]. by exists img.
Qed.
End session.

(** C1. From the keys to the disk: on a machine whose ports are an ATA disk of
    at least 256 KiB and a keyboard whose queue holds the scan codes (press
    and release) of the lines [attach ide d], [initdisk], [write name text]
    and [read name], one keyboard interrupt per scan code runs the four
    commands: every interrupt resumes the interrupted program, the console
    shows exactly the echoed lines, the messages, the prompts and finally the
    text, the command buffer is empty again, the scan codes typed later are
    still queued, and the file system on the disk holds [text] as [/name]. *)
Theorem keyboard_ide_session {D} `{KeyDisk D} hello_bin demo_cnaf irq fuel exit_done cr2 regs (y : ksys D) a drive name text q :
  r_int_no regs = 33 → ata_rep (AtaLaws := kd_ata (strokes (session_keys drive name text) ++ q)) (v_dev (f_vol (y_fs y))) a →
  disk_ok a → Disks.Disks.drive_ok a drive → g_ram_npages (f_vol (y_fs y)) = 0 → y_cmd y = [] →
  file_name name → Forall typeable name → Forall typeable text → hd 0 text ≠ space → (length (write_line name text) <= 511)%nat →
  ∃ y' n img, interrupts hello_bin demo_cnaf irq fuel exit_done cr2 regs (2 * length (session_keys drive name text)) y = Ret (Resume regs, y') ∧
    y_cmd y' = [] ∧ y_out y' = y_out y ++ session_text drive name text ∧
    fs_on (H0 := ide_laws (H0 := kd_ata q)) (y_fs y') n img ∧ file_at img [name] = Some text.
Proof.
  intros Hregs Ha Hok Hdr Hram Hc Hn Hnt Ht Hsp Hl. unfold session_keys in *. 
  rewrite (strokes_app (attach_line drive ++ [newline])), (strokes_app (str "initdisk" ++ [newline])), (strokes_app (write_line name text ++ [newline])), <-!app_assoc in Ha.
  assert (length text <= 511)%nat as Hlt.
  { unfold write_line in Hl. rewrite length_app in Hl. cbn [length] in Hl. rewrite length_app in Hl. cbn [length] in Hl. lia. }
  assert (256 <= Z.min 8192 (a_size a drive / 2)) as Hsz by (pose proof (Disks.Disks.dk_size _ _ Hdr); zdm).
  destruct (irqs_attach hello_bin demo_cnaf irq fuel exit_done cr2 regs Hregs a drive _ y Hok Hdr Hc (conj Ha Hram)) as (y1 & E1 & H1 & B1 & O1).
  destruct (irqs_initdisk hello_bin demo_cnaf irq fuel exit_done cr2 regs Hregs _ _ _ y1 B1 H1) as (y2 & E2 & H2 & B2 & O2).
  destruct (irqs_write hello_bin demo_cnaf irq fuel exit_done cr2 regs Hregs _ name text _ y2 Hsz Hn Hnt Ht Hsp Hl B2 H2) as (y3 & E3 & H3 & B3 & O3).
  destruct (irqs_read hello_bin demo_cnaf irq fuel exit_done cr2 regs Hregs _ name text q y3 Hn Hnt Ht ltac:(lia) B3 H3) as (y4 & E4 & H4 & B4 & O4).
  destruct H4 as (_ & img & Hs & Hd). exists y4, (Z.min 8192 (a_size a drive / 2)), img. split; [|split; [exact B4|split; [|by split]]].
  - replace (2 * length _)%nat with (2 * (length (attach_line drive) + 1) + (2 * (length (str "initdisk") + 1) +
      (2 * (length (write_line name text) + 1) + 2 * (length (read_line name) + 1))))%nat by (rewrite !length_app; change (length [newline]) with 1%nat; lia).
    rewrite (interrupts_app _ _ _ _ _ _ _ _ _ _ _ E1), (interrupts_app _ _ _ _ _ _ _ _ _ _ _ E2), (interrupts_app _ _ _ _ _ _ _ _ _ _ _ E3). exact E4.
  - unfold session_text. by rewrite O4, O3, O2, O1, <-!app_assoc.
Qed.

(** ** Witness: the simulated disk with a queue of scan codes *)
Definition machine : Type := ata * list Z.
#[export] Instance machine_ports : Ports machine := {
  inb := λ port d, if port =? 0x60 then (hd 0 (snd d), (fst d, tail (snd d))) else (fst (sim_inb port (fst d)), (snd (sim_inb port (fst d)), snd d));
  outb := λ port v d, if port =? 0x20 then d else (sim_outb port v (fst d), snd d);
  inw := λ port d, (fst (sim_inw port (fst d)), (snd (sim_inw port (fst d)), snd d));
  outw := λ port v d, (sim_outw port v (fst d), snd d);
  inl32 := λ port d, (0, d);
  outl := λ port v d, d
}.
Program Definition machine_ata (q : list Z) : AtaLaws machine := {| ata_rep := λ d a, d = (a, q) |}.
Next Obligation. by intros q d a ->. Qed.
Next Obligation. intros q d a v ->. exists 3%nat. split; [apply polls_3|done]. Qed.
Next Obligation.
  intros q d a r v -> Hp Hb Hr Hv. cbn [outb machine_ports]. unfold IDE_PRIMARY_IO. rewrite (proj2 (Z.eqb_neq _ 0x20)) by lia. cbn [fst snd].
  f_equal. exact (ata_reg (AtaLaws := sim_laws) a a r v eq_refl Hp Hb Hr Hv).
Qed.
Next Obligation.
  intros q d a cmd p -> Hp Hb Hs. destruct (ata_command (AtaLaws := sim_laws) a a cmd p eq_refl Hp Hb Hs) as (k & Hk & E). exists k. split; [done|].
  change ((sim_outb (IDE_PRIMARY_IO + ATA_REG_COMMAND) cmd a, q) = (with_phase a p k, q)). f_equal. exact E.
Qed.
Next Obligation.
  intros q d a k -> Hk. destruct (ata_status_busy (AtaLaws := sim_laws) a a k eq_refl Hk) as [E1 E2]. split; [exact E1|].
  change ((snd (sim_inb (IDE_PRIMARY_IO + ATA_REG_STATUS) a), q) = (with_phase a (a_phase a) k, q)). f_equal. exact E2.
Qed.
Next Obligation.
  intros q d a -> Hk. destruct (ata_status_ready (AtaLaws := sim_laws) a a eq_refl Hk) as (E1 & E2 & E3 & E4 & E5). do 4 (split; [done|]).
  change ((snd (sim_inb (IDE_PRIMARY_IO + ATA_REG_STATUS) a), q) = (a, q)). f_equal. exact E5.
Qed.
Next Obligation.
  intros q d a w ws -> Hp Hk. destruct (ata_data_in (AtaLaws := sim_laws) a a w ws eq_refl Hp Hk) as [E1 E2]. split; [exact E1|].
  cbn [inw machine_ports fst snd]. f_equal. exact E2.
Qed.
Next Obligation.
  intros q d a drive lba ws w -> Hp Hk Hw. destruct (ata_data_out (AtaLaws := sim_laws) a a drive lba ws w eq_refl Hp Hk Hw) as [E1 E2]. cbn [outw machine_ports fst snd]. split.
  - intros Hl. f_equal. exact (E1 Hl).
  - intros Hl. destruct (E2 Hl) as (k & Hp' & E). exists k. split; [done|]. f_equal. exact E.
Qed.
#[export] Program Instance machine_key_disk : KeyDisk machine := { kd_ata := machine_ata }.
Next Obligation. by intros c q d a ->. Qed.
Next Obligation. by intros q d a ->. Qed.
Definition machine_kernel (q : list Z) : ksys machine :=
  Ksys (Usys (Fsys false VFS_FS_NONE (Vst (CVol CHASEROS_VOL_NONE 0 0 0) 0 0 (v_vm ram_disk) (sim_disk, q)) [] [slash]) (Kst (v_vm ram_disk) exec_procs 0 3 2 0) 0) [] 0 []
    (Con 0 false true (Multiboot.Mb.Vbe 0 0 0 0 0) 0 0 1 0 0 (VgaSt (λ _, 0) 0 0 (λ _, 0)) []) [] [slash].
Definition key_frame (n : Z) : registers := Regs 0 0 0 0 0 0 0 0 0 0 0 0 0 0 0 n 0 0x100000 0x08 0x202 0x200000 0x10.
Lemma keyboard_ide_session_witness : ∃ y' : ksys machine,
  interrupts [] [] (λ y, Ret y) 0 0 0 (key_frame 33) 108 (machine_kernel (strokes (session_keys 0 (str "a.txt") (str "hi there")))) = Ret (Resume (key_frame 33), y') ∧
  y_out y' = session_text 0 (str "a.txt") (str "hi there").
Proof.
  destruct (keyboard_ide_session (D := machine) [] [] (λ y, Ret y) 0 0 0 (key_frame 33) (machine_kernel (strokes (session_keys 0 (str "a.txt") (str "hi there"))))
    sim_disk 0 (str "a.txt") (str "hi there") []) as (y' & n & img & E & _ & Ho & _).
  - done.
  - done.
  - apply sim_disk_ok.
  - split; [lia|cbn; lia|done|done].
  - done.
  - done.
  - split; [apply demo_vpath|simpl; lia|repeat constructor; done|vm_compute; set_solver].
  - by apply typeable_all.
  - by apply typeable_all.
  - done.
  - vm_compute. lia.
  - exists y'. split; [exact E|exact Ho].
Defined.
End Session.
