(* ===== verification/Crc.v ===== *)
(** Cyclic redundancy checks of the vendored e2fsprogs library
    (kernel/fs/lib/ext2fs): crc16.c, crc32c.c and the generator of its tables,
    gen_crc32ctable.c.  The bitwise loops that crc32c.c compiles for
    CRC_LE_BITS == 1 and CRC_BE_BITS == 1 are the reference; the table of
    crc16.c and the slicing-by-8 loop that is compiled by default
    (CRC_LE_BITS = CRC_BE_BITS = 64, little-endian host) are equal to them on
    every buffer, at every alignment.  A change within four consecutive bytes
    always changes the checksum. *)
From stdpp Require Import base numbers list.
From S2P Require Import Prelude.
Open Scope Z_scope.

Module Crc.
(** ** The bitwise loops *)
Definition CRC32C_POLY_LE : Z := 0x82F63B78.
Definition CRCPOLY_BE : Z := 0x04c11db7.
(** [crc = (crc >> 1) ^ ((crc & 1) ? polynomial : 0)] *)
Definition shift_le (polynomial crc : Z) : Z := Z.lxor (Z.shiftr crc 1) (if has crc 1 then polynomial else 0).
(** [crc = (crc << 1) ^ ((crc & 0x80000000) ? polynomial : 0)] *)
Definition shift_be (polynomial crc : Z) : Z := Z.lxor (u32 (Z.shiftl crc 1)) (if has crc 0x80000000 then polynomial else 0).
(** crc32_le_generic with CRC_LE_BITS == 1 *)
Definition byte_le (polynomial crc : Z) : Z := Nat.iter 8 (shift_le polynomial) crc.
Definition crc_le_bitwise (polynomial crc : Z) (p : list Z) : Z := foldl (λ crc b, byte_le polynomial (Z.lxor crc b)) crc p.
(** crc32_be_generic with CRC_BE_BITS == 1 *)
Definition byte_be (polynomial crc : Z) : Z := Nat.iter 8 (shift_be polynomial) crc.
Definition crc_be_bitwise (polynomial crc : Z) (p : list Z) : Z := foldl (λ crc b, byte_be polynomial (Z.lxor crc (Z.shiftl b 24))) crc p.

(** ** crc16.c *)
Definition crc16_table : list Z := [
   0x0000; 0xC0C1; 0xC181; 0x0140; 0xC301; 0x03C0; 0x0280; 0xC241; 0xC601; 0x06C0; 0x0780; 0xC741; 0x0500; 0xC5C1; 0xC481; 0x0440;
   0xCC01; 0x0CC0; 0x0D80; 0xCD41; 0x0F00; 0xCFC1; 0xCE81; 0x0E40; 0x0A00; 0xCAC1; 0xCB81; 0x0B40; 0xC901; 0x09C0; 0x0880; 0xC841;
   0xD801; 0x18C0; 0x1980; 0xD941; 0x1B00; 0xDBC1; 0xDA81; 0x1A40; 0x1E00; 0xDEC1; 0xDF81; 0x1F40; 0xDD01; 0x1DC0; 0x1C80; 0xDC41;
   0x1400; 0xD4C1; 0xD581; 0x1540; 0xD701; 0x17C0; 0x1680; 0xD641; 0xD201; 0x12C0; 0x1380; 0xD341; 0x1100; 0xD1C1; 0xD081; 0x1040;
   0xF001; 0x30C0; 0x3180; 0xF141; 0x3300; 0xF3C1; 0xF281; 0x3240; 0x3600; 0xF6C1; 0xF781; 0x3740; 0xF501; 0x35C0; 0x3480; 0xF441;
   0x3C00; 0xFCC1; 0xFD81; 0x3D40; 0xFF01; 0x3FC0; 0x3E80; 0xFE41; 0xFA01; 0x3AC0; 0x3B80; 0xFB41; 0x3900; 0xF9C1; 0xF881; 0x3840;
   0x2800; 0xE8C1; 0xE981; 0x2940; 0xEB01; 0x2BC0; 0x2A80; 0xEA41; 0xEE01; 0x2EC0; 0x2F80; 0xEF41; 0x2D00; 0xEDC1; 0xEC81; 0x2C40;
   0xE401; 0x24C0; 0x2580; 0xE541; 0x2700; 0xE7C1; 0xE681; 0x2640; 0x2200; 0xE2C1; 0xE381; 0x2340; 0xE101; 0x21C0; 0x2080; 0xE041;
   0xA001; 0x60C0; 0x6180; 0xA141; 0x6300; 0xA3C1; 0xA281; 0x6240; 0x6600; 0xA6C1; 0xA781; 0x6740; 0xA501; 0x65C0; 0x6480; 0xA441;
   0x6C00; 0xACC1; 0xAD81; 0x6D40; 0xAF01; 0x6FC0; 0x6E80; 0xAE41; 0xAA01; 0x6AC0; 0x6B80; 0xAB41; 0x6900; 0xA9C1; 0xA881; 0x6840;
   0x7800; 0xB8C1; 0xB981; 0x7940; 0xBB01; 0x7BC0; 0x7A80; 0xBA41; 0xBE01; 0x7EC0; 0x7F80; 0xBF41; 0x7D00; 0xBDC1; 0xBC81; 0x7C40;
   0xB401; 0x74C0; 0x7580; 0xB541; 0x7700; 0xB7C1; 0xB681; 0x7640; 0x7200; 0xB2C1; 0xB381; 0x7340; 0xB101; 0x71C0; 0x7080; 0xB041;
   0x5000; 0x90C1; 0x9181; 0x5140; 0x9301; 0x53C0; 0x5280; 0x9241; 0x9601; 0x56C0; 0x5780; 0x9741; 0x5500; 0x95C1; 0x9481; 0x5440;
   0x9C01; 0x5CC0; 0x5D80; 0x9D41; 0x5F00; 0x9FC1; 0x9E81; 0x5E40; 0x5A00; 0x9AC1; 0x9B81; 0x5B40; 0x9901; 0x59C0; 0x5880; 0x9841;
   0x8801; 0x48C0; 0x4980; 0x8941; 0x4B00; 0x8BC1; 0x8A81; 0x4A40; 0x4E00; 0x8EC1; 0x8F81; 0x4F40; 0x8D01; 0x4DC0; 0x4C80; 0x8C41;
   0x4400; 0x84C1; 0x8581; 0x4540; 0x8701; 0x47C0; 0x4680; 0x8641; 0x8201; 0x42C0; 0x4380; 0x8341; 0x4100; 0x81C1; 0x8081; 0x4040].
Definition ext2fs_crc16 (crc : Z) (buffer : list Z) : Z :=
  foldl (λ crc b, Z.land (Z.lxor (Z.land (Z.shiftr crc 8) 0xff) (nth (Z.to_nat (Z.land (Z.lxor crc b) 0xff)) crc16_table 0)) 0xffff) crc buffer.

(** ** gen_crc32ctable.c: eight rows of 256 words, zero at the start *)
Definition table : Type := list (list Z).
Definition TABLE_ROWS : nat := 8.
Definition TABLE_SIZE : Z := 256.
Definition tget (tab : table) (row : nat) (i : Z) : Z := nth (Z.to_nat i) (nth row tab []) 0.
Definition tset (tab : table) (row : nat) (i v : Z) : table := <[row := <[Z.to_nat i := v]> (nth row tab [])]> tab.
Definition table0 : table := replicate TABLE_ROWS (replicate (Z.to_nat TABLE_SIZE) 0).
(** [for (j = 1; j < LE_TABLE_ROWS; j++)]: the rows 1 .. 7 of column [i] *)
Definition fill_le_rows (tab : table) (i : Z) : table :=
  (foldl (λ '(crc, tab) j, let crc := Z.lxor (tget tab 0 (Z.land crc 0xff)) (Z.shiftr crc 8) in (crc, tset tab j i crc))
    (tget tab 0 i, tab) (seq 1 (TABLE_ROWS - 1))).2.
Fixpoint fill_le (fuel : nat) (i crc : Z) (tab : table) : table :=
  match fuel with
  | O => tab
  | S fuel =>
    if i =? 0 then tab else
    let crc := shift_le CRC32C_POLY_LE crc in
    let tab := foldl (λ tab j, tset tab 0 (i + j) (Z.lxor crc (tget tab 0 j))) tab ((λ k, 2 * i * k) <$> seqZ 0 (TABLE_SIZE / (2 * i))) in
    fill_le fuel (Z.shiftr i 1) crc tab
  end.
Definition crc32cinit_le : table :=
  let tab := tset table0 0 0 0 in
  let tab := fill_le 9 (Z.shiftr TABLE_SIZE 1) 1 tab in
  foldl fill_le_rows tab (seqZ 0 TABLE_SIZE).
Definition fill_be_rows (tab : table) (i : Z) : table :=
  (foldl (λ '(crc, tab) j, let crc := Z.lxor (tget tab 0 (Z.land (Z.shiftr crc 24) 0xff)) (u32 (Z.shiftl crc 8)) in (crc, tset tab j i crc))
    (tget tab 0 i, tab) (seq 1 (TABLE_ROWS - 1))).2.
Fixpoint fill_be (fuel : nat) (i crc : Z) (tab : table) : table :=
  match fuel with
  | O => tab
  | S fuel =>
    if TABLE_SIZE <=? i then tab else
    let crc := shift_be CRCPOLY_BE crc in
    let tab := foldl (λ tab j, tset tab 0 (i + j) (Z.lxor crc (tget tab 0 j))) tab (seqZ 0 i) in
    fill_be fuel (Z.shiftl i 1) crc tab
  end.
Definition crc32init_be : table :=
  let tab := tset table0 0 0 0 in
  let tab := fill_be 9 1 0x80000000 tab in
  foldl fill_be_rows tab (seqZ 0 TABLE_SIZE).

(** ** crc32c.c *)
Definition swab32 (x : Z) : Z :=
  Z.lor (Z.lor (Z.lor (Z.shiftl (Z.land x 0x000000ff) 24) (Z.shiftl (Z.land x 0x0000ff00) 8)) (Z.shiftr (Z.land x 0x00ff0000) 8)) (Z.shiftr (Z.land x 0xff000000) 24).
(** the header crc32c_table.h that the generator prints, with [tole] and
    [tobe] on a little-endian host *)
Definition crc32ctable_le : table := crc32cinit_le.
Definition crc32table_be : table := fmap (M := list) swab32 <$> crc32init_be.
Section body.
Context (tab : table).
Definition DO_CRC (crc x : Z) : Z := Z.lxor (tget tab 0 (Z.land (Z.lxor crc x) 255)) (Z.shiftr crc 8).
Definition DO_CRC4 (q : Z) : Z :=
  Z.lxor (Z.lxor (Z.lxor (tget tab 3 (Z.land q 255)) (tget tab 2 (Z.land (Z.shiftr q 8) 255))) (tget tab 1 (Z.land (Z.shiftr q 16) 255))) (tget tab 0 (Z.land (Z.shiftr q 24) 255)).
Definition DO_CRC8 (q : Z) : Z :=
  Z.lxor (Z.lxor (Z.lxor (tget tab 7 (Z.land q 255)) (tget tab 6 (Z.land (Z.shiftr q 8) 255))) (tget tab 5 (Z.land (Z.shiftr q 16) 255))) (tget tab 4 (Z.land (Z.shiftr q 24) 255)).
(** [do { DO_CRC( *buf++ ); } while ((--len) && ((uintptr_t)buf)&3)] for a
    buffer at address [addr] *)
Fixpoint align_loop (addr crc : Z) (buf : list Z) : Z * list Z :=
  match buf with
  | [] => (crc, [])
  | b :: buf =>
    let crc := DO_CRC crc b in
    if has (addr + 1) 3 then align_loop (addr + 1) crc buf else (crc, buf)
  end.
(** [for (--b; len; --len)], two words per round *)
Fixpoint word_loop (len : nat) (crc : Z) (buf : list Z) : Z * list Z :=
  match len with
  | O => (crc, buf)
  | S len =>
    let q := Z.lxor crc (le_to (take 4 buf)) in
    let crc := DO_CRC8 q in
    let q := le_to (take 4 (drop 4 buf)) in
    let crc := Z.lxor crc (DO_CRC4 q) in
    word_loop len crc (drop 8 buf)
  end.
Definition crc32_body (addr crc : Z) (buf : list Z) : Z :=
  let '(crc, buf) := if has addr 3 && negb (Z.of_nat (length buf) =? 0) then align_loop addr crc buf else (crc, buf) in
  let len := Z.of_nat (length buf) in
  let rem_len := Z.land len 7 in
  let '(crc, buf) := word_loop (Z.to_nat (Z.shiftr len 3)) crc buf in
  foldl DO_CRC crc (take (Z.to_nat rem_len) buf).
End body.
Definition ext2fs_crc32c_le (addr crc : Z) (p : list Z) : Z := crc32_body crc32ctable_le addr crc p.
Definition ext2fs_crc32_be (addr crc : Z) (p : list Z) : Z := swab32 (crc32_body crc32table_be addr (swab32 crc) p).

(** ** Exclusive or *)
Definition linear (f : Z → Z) : Prop := ∀ a b, f (Z.lxor a b) = Z.lxor (f a) (f b).
Definition keeps (w : Z) (f : Z → Z) : Prop := ∀ c, 0 <= c < 2 ^ w → 0 <= f c < 2 ^ w.
Lemma lxor_range w a b : 0 <= w → 0 <= a < 2 ^ w → 0 <= b < 2 ^ w → 0 <= Z.lxor a b < 2 ^ w.
Proof.
  intros Hw Ha Hb. assert (0 <= Z.lxor a b) as Hn by (apply Z.lxor_nonneg; lia). split; [done|].
  apply Z.bounded_iff_bits_nonneg; [done|done|]. intros l Hl. rewrite Z.lxor_spec.
  rewrite (proj1 (Z.bounded_iff_bits_nonneg w a Hw ltac:(lia)) ltac:(lia) l Hl). by rewrite (proj1 (Z.bounded_iff_bits_nonneg w b Hw ltac:(lia)) ltac:(lia) l Hl).
Qed.
Lemma linear_0 f : linear f → f 0 = 0.
Proof. intros Hf. specialize (Hf 0 0). by rewrite Z.lxor_0_l, Z.lxor_nilpotent in Hf. Qed.
Lemma iter_linear f n : linear f → linear (Nat.iter n f).
Proof. intros Hf. induction n as [|n IH]; intros a b; [done|]. simpl. by rewrite IH, Hf. Qed.
Lemma iter_keeps w f n : keeps w f → keeps w (Nat.iter n f).
Proof. intros Hf. induction n as [|n IH]; intros c Hc; [done|]. simpl. auto. Qed.
Lemma iter_S_r f n (x : Z) : Nat.iter (S n) f x = Nat.iter n f (f x).
Proof. exact (Nat.iter_succ_r n f x). Qed.
Lemma has_odd x : has x 1 = Z.odd x.
Proof.
  unfold has. change 1 with (Z.ones 1) at 1. rewrite Z.land_ones by lia. change (2 ^ 1) with 2. rewrite Zmod_odd. by destruct (Z.odd x).
Qed.
(** a word is its low byte and the rest *)
Lemma low_byte x : x = Z.lxor (Z.land x 255) (Z.shiftl (Z.shiftr x 8) 8).
Proof.
  apply Z.bits_inj'. intros n Hn. rewrite Z.lxor_spec, Z.land_spec, Z.shiftl_spec by lia. change 255 with (Z.ones 8).
  destruct (decide (n < 8)).
  - rewrite Z.ones_spec_low, (Z.testbit_neg_r _ (n - 8)) by lia. by destruct (Z.testbit x n).
  - rewrite Z.ones_spec_high, Z.shiftr_spec by lia. replace (n - 8 + 8) with n by lia. by destruct (Z.testbit x n).
Qed.
Lemma land_byte x : 0 <= x < 256 → Z.land x 255 = x.
Proof. intros. change 255 with (Z.ones 8). rewrite Z.land_ones by lia. by apply Z.mod_small. Qed.
Lemma byte_land x : 0 <= Z.land x 255 < 256.
Proof. by apply (land_ones_range x 8). Qed.
Lemma shiftr_range x k w : 0 <= k <= w → 0 <= x < 2 ^ w → 0 <= Z.shiftr x k < 2 ^ (w - k).
Proof.
  intros Hk Hx. rewrite Z.shiftr_div_pow2 by lia. split; [apply Z.div_pos; lia|]. apply Z.div_lt_upper_bound; [lia|]. rewrite <-Z.pow_add_r by lia. replace (k + (w - k)) with w by lia. lia.
Qed.
Lemma lxor_shl8 b y : 0 <= b < 256 → Z.lxor b (Z.shiftl y 8) = b + 256 * y.
Proof.
  intros Hb. rewrite <-Z.add_nocarry_lxor.
  - rewrite Z.shiftl_mul_pow2 by lia. lia.
  - apply Z.bits_inj'. intros n Hn. rewrite Z.land_spec, Z.shiftl_spec, Z.bits_0 by lia. destruct (decide (n < 8)).
    + rewrite (Z.testbit_neg_r _ (n - 8)) by lia. apply andb_false_r.
    + rewrite (proj1 (Z.bounded_iff_bits_nonneg 8 b ltac:(lia) ltac:(lia)) ltac:(lia) n ltac:(lia)). done.
Qed.

(** ** The shift register *)
Lemma shift_le_linear p : linear (shift_le p).
Proof.
  intros a b. unfold shift_le. rewrite !has_odd, Z.shiftr_lxor. rewrite <-!Z.bit0_odd, Z.lxor_spec. apply Z.bits_inj'. intros n Hn. rewrite !Z.lxor_spec.
  destruct (Z.testbit a 0), (Z.testbit b 0); simpl; rewrite ?Z.bits_0; repeat match goal with |- context [Z.testbit ?x n] => destruct (Z.testbit x n) end; done.
Qed.
Lemma shift_le_even p x : shift_le p (Z.shiftl x 1) = x.
Proof.
  unfold shift_le. rewrite has_odd, <-Z.bit0_odd, Z.shiftl_spec_low by lia. rewrite Z.shiftr_shiftl_l by lia. rewrite Z.lxor_0_r. by rewrite Z.sub_diag, Z.shiftl_0_r.
Qed.
Lemma byte_le_shift p x : byte_le p (Z.shiftl x 8) = x.
Proof.
  unfold byte_le. replace (Z.shiftl x 8) with (Nat.iter 8 (λ x, Z.shiftl x 1) x) by (simpl; by rewrite !Z.shiftl_shiftl by lia).
  simpl. by rewrite !shift_le_even.
Qed.
Lemma byte_le_linear p : linear (byte_le p).
Proof. apply iter_linear, shift_le_linear. Qed.
Section register.
Context (w p : Z) (Hw : 8 < w) (Hp : 2 ^ (w - 1) <= p < 2 ^ w).
Lemma shift_le_keeps : keeps w (shift_le p).
Proof.
  intros c Hc. unfold shift_le. apply lxor_range; [lia| |destruct (has c 1); lia].
  pose proof (shiftr_range c 1 w ltac:(lia) Hc). assert (2 ^ (w - 1) < 2 ^ w) by (apply Z.pow_lt_mono_r; lia). lia.
Qed.
Lemma shift_le_zero x : 0 <= x < 2 ^ w → shift_le p x = 0 → x = 0.
Proof.
  intros Hx. unfold shift_le. rewrite has_odd. destruct (Z.odd x) eqn:E.
  - intros H%Z.lxor_eq. pose proof (shiftr_range x 1 w ltac:(lia) Hx). lia.
  - rewrite Z.lxor_0_r. intros H. rewrite Z.shiftr_div_pow2 in H by lia. pose proof (Zmod_odd x) as Hm. rewrite E in Hm. change (2 ^ 1) with 2 in H. zdm.
Qed.
Lemma byte_le_keeps : keeps w (byte_le p).
Proof. apply iter_keeps, shift_le_keeps. Qed.
Lemma byte_le_zero x : 0 <= x < 2 ^ w → byte_le p x = 0 → x = 0.
Proof.
  unfold byte_le. revert x. generalize 8%nat as n. intros n. induction n as [|n IH]; intros x Hx; [done|]. rewrite iter_S_r. intros H.
  apply shift_le_zero; [done|]. apply IH; [by apply shift_le_keeps|done].
Qed.
End register.

(** ** Slicing: eight tables of powers of a linear byte step *)
Section slicing.
Context (F : Z → Z) (tab : table) (HF : linear F) (HK : keeps 32 F) (HS : ∀ x, 0 <= x < 2 ^ 24 → F (Z.shiftl x 8) = x).
Context (Htab : ∀ j b, (j < 8)%nat → 0 <= b < 256 → tget tab j b = Nat.iter (S j) F b).
Notation bytewise := (foldl (λ c b, F (Z.lxor c b))).
Lemma byte_word b : is_byte b → 0 <= b < 2 ^ 32.
Proof. unfold is_byte. lia. Qed.
Lemma bytewise_keeps c l : 0 <= c < 2 ^ 32 → bytes l → 0 <= bytewise c l < 2 ^ 32.
Proof.
  intros Hc Hl. revert c Hc. induction Hl as [|b l Hb _ IH]; intros c Hc; [done|]. simpl. apply IH, HK, lxor_range; [lia|done|by apply byte_word].
Qed.
Lemma iter_split k x : 0 <= x < 2 ^ 32 → Nat.iter (S k) F x = Z.lxor (Nat.iter (S k) F (Z.land x 255)) (Nat.iter k F (Z.shiftr x 8)).
Proof.
  intros Hx. rewrite (low_byte x) at 1. rewrite (iter_linear F (S k) HF). f_equal. rewrite iter_S_r, HS; [done|]. apply (shiftr_range x 8 32); [lia|done].
Qed.
Lemma do_crc_step c b : 0 <= c < 2 ^ 32 → is_byte b → DO_CRC tab c b = F (Z.lxor c b).
Proof.
  intros Hc Hb. unfold DO_CRC. rewrite Htab by (first [lia|apply byte_land]).
  assert (0 <= Z.lxor c b < 2 ^ 32) as Hx by (apply lxor_range; [lia|done|by apply byte_word]). pose proof (iter_split 0 _ Hx) as E. simpl in E. rewrite E.
  rewrite Z.shiftr_lxor, (Z.shiftr_eq_0 b 8), Z.lxor_0_r; [done|destruct Hb; lia|]. destruct (decide (b = 0)) as [->|]; [done|]. destruct Hb. apply Z.log2_lt_pow2; lia.
Qed.
Lemma do_crc_all c l : 0 <= c < 2 ^ 32 → bytes l → foldl (DO_CRC tab) c l = bytewise c l.
Proof.
  intros Hc Hl. revert c Hc. induction Hl as [|b l Hb _ IH]; intros c Hc; [done|]. simpl. rewrite do_crc_step by done.
  apply IH, HK, lxor_range; [lia|done|by apply byte_word].
Qed.
(** four bytes at once *)
Lemma slice4 k q : 0 <= q < 2 ^ 32 → Nat.iter (4 + k) F q =
  Z.lxor (Z.lxor (Z.lxor (Nat.iter (4 + k) F (Z.land q 255)) (Nat.iter (3 + k) F (Z.land (Z.shiftr q 8) 255))) (Nat.iter (2 + k) F (Z.land (Z.shiftr q 16) 255))) (Nat.iter (1 + k) F (Z.land (Z.shiftr q 24) 255)).
Proof.
  intros Hq. pose proof (shiftr_range q 8 32 ltac:(lia) Hq) as H1. pose proof (shiftr_range q 16 32 ltac:(lia) Hq) as H2. pose proof (shiftr_range q 24 32 ltac:(lia) Hq) as H3.
  cbn [Z.sub Z.add Z.opp Z.pos_sub Pos.sub_mask Pos.sub] in H1, H2, H3.
  change (4 + k)%nat with (S (3 + k)). rewrite (iter_split (3 + k) q Hq). change (3 + k)%nat with (S (2 + k)) at 2. rewrite (iter_split (2 + k) (Z.shiftr q 8)) by lia.
  change (2 + k)%nat with (S (1 + k)) at 2. rewrite Z.shiftr_shiftr by lia. change (8 + 8) with 16. rewrite (iter_split (1 + k) (Z.shiftr q 16)) by lia.
  rewrite Z.shiftr_shiftr by lia. change (16 + 8) with 24. rewrite (land_byte (Z.shiftr q 24)) by lia. by rewrite !Z.lxor_assoc.
Qed.
Lemma do_crc4 q : 0 <= q < 2 ^ 32 → DO_CRC4 tab q = Nat.iter 4 F q.
Proof. intros Hq. unfold DO_CRC4. rewrite !Htab by (first [lia|apply byte_land]). exact (eq_sym (slice4 0 q Hq)). Qed.
Lemma do_crc8 q : 0 <= q < 2 ^ 32 → DO_CRC8 tab q = Nat.iter 8 F q.
Proof. intros Hq. unfold DO_CRC8. rewrite !Htab by (first [lia|apply byte_land]). exact (eq_sym (slice4 4 q Hq)). Qed.
Lemma le_to_range n l : length l = n → bytes l → 0 <= le_to l < 2 ^ (8 * Z.of_nat n).
Proof. intros <- Hl. pose proof (le_to_bound l Hl) as H. change 256 with (2 ^ 8) in H. by rewrite <-Z.pow_mul_r in H by lia. Qed.
Lemma bytewise_word c l : (length l ≤ 4)%nat → bytes l → bytewise c l = Nat.iter (length l) F (Z.lxor c (le_to l)).
Proof.
  intros Hn Hl. revert c Hn. induction Hl as [|b l Hb Hl IH]; intros c Hn; simpl in Hn.
  - simpl. by rewrite Z.lxor_0_r.
  - cbn [foldl length le_to]. rewrite IH by lia. rewrite iter_S_r. f_equal. rewrite <-lxor_shl8 by done. rewrite <-Z.lxor_assoc, (HF (Z.lxor c b)). f_equal. rewrite HS; [done|].
    pose proof (le_to_range _ l eq_refl Hl). assert (2 ^ (8 * Z.of_nat (length l)) <= 2 ^ 24) by (apply Z.pow_le_mono_r; lia). lia.
Qed.
Lemma two_words c l : length l = 8%nat → bytes l → 0 <= c < 2 ^ 32 →
  Z.lxor (DO_CRC8 tab (Z.lxor c (le_to (take 4 l)))) (DO_CRC4 tab (le_to (take 4 (drop 4 l)))) = bytewise c l.
Proof.
  intros Hn Hl Hc. assert (bytes (take 4 l)) as B1 by (by apply Forall_take). assert (bytes (drop 4 l)) as B2 by (by apply Forall_drop).
  assert (length (take 4 l) = 4%nat) as L1 by (rewrite length_take; lia). assert (length (drop 4 l) = 4%nat) as L2 by (rewrite length_drop; lia).
  rewrite (take_ge (drop 4 l)) by lia. pose proof (le_to_range 4 _ L1 B1) as R1. pose proof (le_to_range 4 _ L2 B2) as R2. change (8 * Z.of_nat 4) with 32 in *.
  rewrite do_crc8 by (by apply lxor_range; [lia|..]). rewrite do_crc4 by done. rewrite <-(take_drop 4 l) at 3. rewrite foldl_app.
  rewrite (bytewise_word _ (drop 4 l)), (bytewise_word _ (take 4 l)) by (done || lia). rewrite L1, L2. by rewrite (iter_linear F 4 HF).
Qed.
Lemma align_loop_bytewise addr c l : 0 <= c < 2 ^ 32 → bytes l → ∃ l1 l2, l = l1 ++ l2 ∧ align_loop tab addr c l = (bytewise c l1, l2).
Proof.
  intros Hc Hl. revert addr c Hc. induction Hl as [|b l Hb Hl IH]; intros addr c Hc; [by exists [], []|]. cbn [align_loop]. rewrite do_crc_step by done.
  assert (0 <= F (Z.lxor c b) < 2 ^ 32) as Hc' by (apply HK, lxor_range; [lia|done|by apply byte_word]). destruct (has (addr + 1) 3).
  - destruct (IH (addr + 1) _ Hc') as (l1 & l2 & -> & E). exists (b :: l1), l2. by rewrite E.
  - by exists [b], l.
Qed.
Lemma word_loop_bytewise n c l : (8 * n ≤ length l)%nat → bytes l → 0 <= c < 2 ^ 32 → word_loop tab n c l = (bytewise c (take (8 * n) l), drop (8 * n) l).
Proof.
  revert c l. induction n as [|n IH]; intros c l Hn Hl Hc; [done|]. assert (bytes (take 8 l)) as B1 by (by apply Forall_take). assert (bytes (drop 8 l)) as B2 by (by apply Forall_drop).
  cbn [word_loop]. cbv zeta. assert (length (take 8 l) = 8%nat) as L1 by (rewrite length_take; lia).
  assert (take 4 l = take 4 (take 8 l)) as -> by (by rewrite take_take). assert (take 4 (drop 4 l) = take 4 (drop 4 (take 8 l))) as -> by (by rewrite skipn_firstn_comm, take_take).
  rewrite two_words by done. rewrite IH by (first [rewrite length_drop; lia|done|by apply bytewise_keeps]). rewrite <-foldl_app, drop_drop.
  replace (8 * S n)%nat with (8 + 8 * n)%nat by lia. f_equal. f_equal. exact (eq_sym (slice_split l 0 8 (8 * n))).
Qed.
(** the loop of crc32_body is the byte loop *)
Lemma crc32_body_bytewise addr c l : 0 <= c < 2 ^ 32 → bytes l → crc32_body tab addr c l = bytewise c l.
Proof.
  intros Hc Hl. unfold crc32_body. set (a := if has addr 3 && negb (Z.of_nat (length l) =? 0) then align_loop tab addr c l else (c, l)).
  assert (∃ l1 l2, l = l1 ++ l2 ∧ a = (bytewise c l1, l2)) as (l1 & l2 & -> & ->) by (unfold a; case_if; [by apply align_loop_bytewise|by exists [], l]).
  apply Forall_app in Hl as [H1 H2]. pose proof (bytewise_keeps c l1 Hc H1) as Hc1. cbv zeta beta iota.
  assert (Z.shiftr (Z.of_nat (length l2)) 3 = Z.of_nat (length l2) / 8) as -> by (by rewrite Z.shiftr_div_pow2).
  assert (Z.land (Z.of_nat (length l2)) 7 = Z.of_nat (length l2) mod 8) as -> by (change 7 with (Z.ones 3); by rewrite Z.land_ones).
  rewrite word_loop_bytewise by (done || zdm). rewrite (take_ge (drop _ l2)) by (rewrite length_drop; zdm). rewrite do_crc_all by (first [by apply Forall_drop|apply bytewise_keeps; [done|by apply Forall_take]]).
  by rewrite <-foldl_app, take_drop, <-foldl_app.
Qed.
End slicing.

(** ** The tables *)
Definition rows_ok (F : Z → Z) (tab : table) : bool :=
  forallb (λ b, (tget tab 0 b =? F b) && forallb (λ j, tget tab (S j) b =? F (tget tab j b)) (seq 0 7)) (seqZ 0 256).
Lemma rows_ok_iter F tab : rows_ok F tab = true → ∀ j b, (j < 8)%nat → 0 <= b < 256 → tget tab j b = Nat.iter (S j) F b.
Proof.
  intros H j b Hj Hb. unfold rows_ok in H. rewrite forallb_forall in H. specialize (H b ltac:(apply list_elem_of_In, elem_of_seqZ; lia)).
  apply andb_true_iff in H as [H0 HS]. rewrite forallb_forall in HS. induction j as [|j IH]; [by apply Z.eqb_eq|].
  specialize (HS j ltac:(apply list_elem_of_In, elem_of_seq; lia)). apply Z.eqb_eq in HS. rewrite HS, IH by lia. done.
Qed.
Definition be_step (c : Z) : Z := swab32 (byte_be CRCPOLY_BE (swab32 c)).
Lemma le_rows : rows_ok (byte_le CRC32C_POLY_LE) crc32ctable_le = true.
Proof. vm_compute. reflexivity. Qed.
Lemma be_rows : rows_ok be_step crc32table_be = true.
Proof. vm_compute. reflexivity. Qed.
Lemma crc16_rows : forallb (λ b, nth (Z.to_nat b) crc16_table 0 =? byte_le 0xA001 b) (seqZ 0 256) = true.
Proof. vm_compute. reflexivity. Qed.

(** ** Bytes in the other order *)
Lemma mask_bits k n : 0 <= k → 0 <= n → Z.testbit (Z.shiftl 255 k) n = bool_decide (k <= n < k + 8).
Proof.
  intros Hk Hn. rewrite Z.shiftl_spec by done. change 255 with (Z.ones 8). case_bool_decide.
  - apply Z.ones_spec_low. lia.
  - destruct (decide (n < k)); [apply Z.testbit_neg_r; lia|apply Z.ones_spec_high; lia].
Qed.
Lemma swab32_bits x n : 0 <= n → Z.testbit (swab32 x) n =
  if decide (n < 8) then Z.testbit x (n + 24) else if decide (n < 16) then Z.testbit x (n + 8) else
  if decide (n < 24) then Z.testbit x (n - 8) else if decide (n < 32) then Z.testbit x (n - 24) else false.
Proof.
  intros Hn. unfold swab32. change 0x000000ff with (Z.shiftl 255 0). change 0x0000ff00 with (Z.shiftl 255 8). change 0x00ff0000 with (Z.shiftl 255 16). change 0xff000000 with (Z.shiftl 255 24).
  assert (∀ k m, 0 <= k → Z.testbit (Z.land x (Z.shiftl 255 k)) m = bool_decide (k <= m < k + 8) && Z.testbit x m) as Hm.
  { intros k m Hk. rewrite Z.land_spec. destruct (decide (0 <= m)); [rewrite mask_bits by done; apply andb_comm|]. rewrite !Z.testbit_neg_r by lia. by rewrite !andb_false_r. }
  rewrite !Z.lor_spec, !Z.shiftl_spec, !Z.shiftr_spec, !Hm by lia. 
  destruct (decide (n < 8)), (decide (n < 16)), (decide (n < 24)), (decide (n < 32)); try lia;
    repeat first [rewrite bool_decide_true by lia|rewrite bool_decide_false by lia]; simpl; by rewrite ?orb_false_r.
Qed.
Lemma swab32_linear : linear swab32.
Proof. intros a b. apply Z.bits_inj'. intros n Hn. rewrite Z.lxor_spec, !swab32_bits, !Z.lxor_spec by done. by repeat case_decide. Qed.
Lemma swab32_keeps x : 0 <= x → 0 <= swab32 x < 2 ^ 32.
Proof.
  intros Hx. assert (0 <= swab32 x) as H.
  { unfold swab32. rewrite !Z.lor_nonneg, !Z.shiftl_nonneg, !Z.shiftr_nonneg, !Z.land_nonneg. lia. }
  split; [done|]. apply Z.bounded_iff_bits_nonneg; [lia|done|]. intros l Hl. rewrite swab32_bits by lia. by repeat (case_decide; [lia|]).
Qed.
Lemma high_bits w x n : 0 <= w → 0 <= x < 2 ^ w → w <= n → Z.testbit x n = false.
Proof. intros Hw Hx. apply Z.bounded_iff_bits_nonneg; lia. Qed.
Lemma swab32_swab32 x : 0 <= x < 2 ^ 32 → swab32 (swab32 x) = x.
Proof.
  intros Hx. apply Z.bits_inj'. intros n Hn. rewrite swab32_bits by done.
  repeat (case_decide; [rewrite swab32_bits by lia; repeat (case_decide; try lia); f_equal; lia|]). symmetry. apply (high_bits 32); lia.
Qed.
Lemma swab32_top b : is_byte b → swab32 (Z.shiftl b 24) = b.
Proof.
  intros [Hb1 Hb2]. apply Z.bits_inj'. intros n Hn. rewrite swab32_bits by done.
  repeat case_decide; rewrite ?Z.shiftl_spec by lia; try (f_equal; lia); rewrite (high_bits 8 b n) by lia; try done; apply Z.testbit_neg_r; lia.
Qed.
(** the most significant bit first *)
Lemma has_msb x : has x 0x80000000 = Z.testbit x 31.
Proof.
  unfold has. change 0x80000000 with (2 ^ 31). destruct (Z.testbit x 31) eqn:E.
  - destruct (Z.eqb_spec (Z.land x (2 ^ 31)) 0) as [H|]; [|done]. apply (f_equal (λ z, Z.testbit z 31)) in H. by rewrite Z.land_spec, E, Z.pow2_bits_true in H.
  - assert (Z.land x (2 ^ 31) = 0) as ->; [|done]. apply Z.bits_inj'. intros n Hn. rewrite Z.land_spec, Z.bits_0. destruct (decide (n = 31)) as [->|]; [by rewrite E|].
    rewrite Z.pow2_bits_false by lia. apply andb_false_r.
Qed.
Lemma shift_be_linear p : linear (shift_be p).
Proof.
  intros a b. unfold shift_be. rewrite !has_msb, Z.shiftl_lxor, Z.lxor_spec. unfold u32. rewrite <-!Z.land_ones by lia. apply Z.bits_inj'. intros n Hn. rewrite !Z.lxor_spec, !Z.land_spec, !Z.lxor_spec.
  destruct (Z.testbit a 31), (Z.testbit b 31); simpl; rewrite ?Z.bits_0; repeat match goal with |- context [Z.testbit ?x n] => destruct (Z.testbit x n) end; done.
Qed.
Lemma shift_be_small p x : 0 <= x < 2 ^ 31 → shift_be p x = 2 * x.
Proof.
  intros Hx. unfold shift_be. rewrite has_msb, (high_bits 31 x 31) by lia. rewrite Z.lxor_0_r, Z.shiftl_mul_pow2 by lia. rewrite u32_small; lia.
Qed.
Lemma byte_be_small p x : 0 <= x < 2 ^ 24 → byte_be p x = Z.shiftl x 8.
Proof.
  intros Hx. assert (∀ n, (n ≤ 8)%nat → Nat.iter n (shift_be p) x = 2 ^ Z.of_nat n * x) as H.
  { induction n as [|n IH]; intros Hn; [change (x = 2 ^ 0 * x); lia|]. change (Nat.iter (S n) (shift_be p) x) with (shift_be p (Nat.iter n (shift_be p) x)). assert (2 ^ Z.of_nat n <= 2 ^ 7) by (apply Z.pow_le_mono_r; lia).
    rewrite IH, shift_be_small by nia. rewrite Nat2Z.inj_succ, Z.pow_succ_r by lia. lia. }
  unfold byte_be. rewrite H, Z.shiftl_mul_pow2 by lia. change (Z.of_nat 8) with 8. lia.
Qed.
Lemma byte_be_keeps : keeps 32 (byte_be CRCPOLY_BE).
Proof.
  apply iter_keeps. intros c Hc. unfold shift_be. apply lxor_range; [lia|apply u32_range|]. unfold CRCPOLY_BE. destruct (has c _); lia.
Qed.
Lemma be_step_linear : linear be_step.
Proof.
  intros a b. unfold be_step. assert (linear (byte_be CRCPOLY_BE)) as Hb by apply iter_linear, shift_be_linear. by rewrite swab32_linear, Hb, swab32_linear.
Qed.
Lemma be_step_keeps : keeps 32 be_step.
Proof. intros c Hc. apply swab32_keeps, byte_be_keeps, swab32_keeps. lia. Qed.
Lemma be_step_shift x : 0 <= x < 2 ^ 24 → be_step (Z.shiftl x 8) = x.
Proof.
  intros Hx. unfold be_step. assert (0 <= swab32 (Z.shiftl x 8) < 2 ^ 24) as Hr.
  { assert (0 <= swab32 (Z.shiftl x 8)) as H0 by (apply swab32_keeps, Z.shiftl_nonneg; lia). split; [done|]. apply Z.bounded_iff_bits_nonneg; [lia|done|]. intros l Hl.
    rewrite swab32_bits by lia. repeat (case_decide; try lia). rewrite Z.shiftl_spec by lia. apply Z.testbit_neg_r. lia. }
  rewrite byte_be_small by done. apply Z.bits_inj'. intros n Hn. rewrite swab32_bits by done. destruct (decide (24 <= n)).
  - rewrite (high_bits 24 x n) by lia. repeat (case_decide; try lia). rewrite Z.shiftl_spec by lia. apply Z.testbit_neg_r. lia.
  - repeat (case_decide; try lia); rewrite Z.shiftl_spec by lia; rewrite swab32_bits by lia; repeat (case_decide; try lia); rewrite Z.shiftl_spec by lia; f_equal; lia.
Qed.
Lemma be_bitwise_swapped c l : 0 <= c < 2 ^ 32 → bytes l → crc_be_bitwise CRCPOLY_BE c l = swab32 (foldl (λ c b, be_step (Z.lxor c b)) (swab32 c) l).
Proof.
  intros Hc Hl. revert c Hc. unfold crc_be_bitwise. induction Hl as [|b l Hb _ IH]; intros c Hc; [symmetry; by apply swab32_swab32|]. cbn [foldl].
  assert (0 <= Z.lxor c (Z.shiftl b 24) < 2 ^ 32) as Hx by (apply lxor_range; [lia|done|]; destruct Hb; rewrite Z.shiftl_mul_pow2 by lia; lia).
  assert (swab32 (byte_be CRCPOLY_BE (Z.lxor c (Z.shiftl b 24))) = be_step (Z.lxor (swab32 c) b)) as E.
  { unfold be_step. rewrite <-(swab32_top b Hb) at 2. by rewrite <-swab32_linear, swab32_swab32. }
  rewrite IH by (by apply byte_be_keeps). by rewrite E.
Qed.

Lemma poly_range : 2 ^ (32 - 1) <= CRC32C_POLY_LE < 2 ^ 32.
Proof. unfold CRC32C_POLY_LE. lia. Qed.
Lemma poly_keeps : keeps 32 (byte_le CRC32C_POLY_LE).
Proof. apply byte_le_keeps; [lia|apply poly_range]. Qed.
Lemma crc32c_le_bitwise addr crc p : 0 <= crc < 2 ^ 32 → bytes p → ext2fs_crc32c_le addr crc p = crc_le_bitwise CRC32C_POLY_LE crc p.
Proof.
  apply (crc32_body_bytewise (byte_le CRC32C_POLY_LE)).
  - apply byte_le_linear.
  - apply poly_keeps.
  - intros. apply byte_le_shift.
  - apply rows_ok_iter, le_rows.
Qed.

(** crc16.c: one table, and only the low 16 bits of the seed count *)
Lemma crc16_step c b : 0 <= c → is_byte b →
  Z.land (Z.lxor (Z.land (Z.shiftr c 8) 0xff) (nth (Z.to_nat (Z.land (Z.lxor c b) 0xff)) crc16_table 0)) 0xffff = byte_le 0xA001 (Z.lxor (Z.land c 0xffff) b).
Proof.
  intros Hc Hb. set (c' := Z.land c 0xffff). assert (0 <= c' < 2 ^ 16) as Hc' by (by apply (land_ones_range c 16)). assert (0 <= b < 2 ^ 16) as Hb' by (destruct Hb; lia).
  assert (Z.land (Z.shiftr c 8) 0xff = Z.shiftr c' 8) as ->. { unfold c'. by rewrite Z.shiftr_land. }
  assert (Z.land (Z.lxor c b) 0xff = Z.land (Z.lxor c' b) 0xff) as ->.
  { apply Z.bits_inj'. intros n Hn. unfold c'. rewrite !Z.land_spec, !Z.lxor_spec, Z.land_spec. change 0xff with (Z.ones 8). change 0xffff with (Z.ones 16).
    destruct (decide (n < 8)); [rewrite !Z.ones_spec_low by lia; by rewrite !andb_true_r|]. rewrite !(Z.ones_spec_high 8) by lia. by rewrite !andb_false_r. }
  pose proof (proj1 (forallb_forall _ _) crc16_rows (Z.land (Z.lxor c' b) 0xff) ltac:(apply list_elem_of_In, elem_of_seqZ; pose proof (byte_land (Z.lxor c' b)); lia)) as E. apply Z.eqb_eq in E. rewrite E.
  assert (0 <= Z.lxor c' b < 2 ^ 16) as Hx by (by apply lxor_range; [lia|..]).
  assert (byte_le 0xA001 (Z.lxor c' b) = Z.lxor (Z.shiftr c' 8) (byte_le 0xA001 (Z.land (Z.lxor c' b) 0xff))) as <-.
  { rewrite (low_byte (Z.lxor c' b)) at 1. rewrite byte_le_linear, byte_le_shift, Z.lxor_comm. f_equal. rewrite Z.shiftr_lxor, (Z.shiftr_eq_0 b 8), Z.lxor_0_r; [done|lia|].
    destruct (decide (b = 0)) as [->|]; [done|]. destruct Hb. apply Z.log2_lt_pow2; lia. }
  change 0xffff with (Z.ones 16). rewrite Z.land_ones by lia. apply Z.mod_small. apply byte_le_keeps; lia.
Qed.
Lemma crc16_bitwise c l : 0 <= c → bytes l →
  Z.land (ext2fs_crc16 c l) 0xffff = crc_le_bitwise 0xA001 (Z.land c 0xffff) l ∧ (l ≠ [] → 0 <= ext2fs_crc16 c l < 2 ^ 16).
Proof.
  intros Hc Hl. revert c Hc. induction Hl as [|b l Hb Hl IH]; intros c Hc; [done|]. unfold ext2fs_crc16, crc_le_bitwise. cbn [foldl]. rewrite crc16_step by done.
  assert (0 <= byte_le 0xA001 (Z.lxor (Z.land c 0xffff) b) < 2 ^ 16) as Hx.
  { apply byte_le_keeps; [lia|lia|]. apply lxor_range; [lia|by apply (land_ones_range c 16)|destruct Hb; lia]. }
  set (x := byte_le _ _) in *. destruct (IH x ltac:(lia)) as [E1 E2]. assert (Z.land x 0xffff = x) as Ex by (change 0xffff with (Z.ones 16); rewrite Z.land_ones by lia; by apply Z.mod_small).
  rewrite Ex in E1. split; [exact E1|]. intros _. destruct l as [|b' l]; [exact Hx|]. by apply E2.
Qed.

(** ** Theorems *)

(** C38. The fast CRCs compute the bitwise ones on every buffer, at every
    address and for every seed: the slicing-by-8 CRC-32C of crc32c.c, with the
    tables that gen_crc32ctable.c generates, that of the polynomial 0x82F63B78;
    ext2fs_crc32_be the big-endian one of 0x04C11DB7; and crc16.c, with its
    table, that of 0xA001 (0x8005 reflected) from the low 16 bits of the seed. *)
Theorem crc_tables_bitwise addr crc p : 0 <= crc < 2 ^ 32 → bytes p →
  ext2fs_crc32c_le addr crc p = crc_le_bitwise CRC32C_POLY_LE crc p ∧
  ext2fs_crc32_be addr crc p = crc_be_bitwise CRCPOLY_BE crc p ∧
  Z.land (ext2fs_crc16 crc p) 0xffff = crc_le_bitwise 0xA001 (Z.land crc 0xffff) p ∧ (p ≠ [] → 0 <= ext2fs_crc16 crc p < 2 ^ 16).
Proof.
  intros Hc Hp. split; [by apply crc32c_le_bitwise|]. split; [|apply crc16_bitwise; [lia|done]].
  rewrite be_bitwise_swapped by done. unfold ext2fs_crc32_be. f_equal. apply (crc32_body_bytewise be_step).
  - apply be_step_linear.
  - apply be_step_keeps.
  - apply be_step_shift.
  - apply rows_ok_iter, be_rows.
  - apply swab32_keeps. lia.
  - done.
Qed.
Lemma byte_le_inj w p a b : 8 < w → 2 ^ (w - 1) <= p < 2 ^ w → 0 <= a < 2 ^ w → 0 <= b < 2 ^ w → byte_le p a = byte_le p b → a = b.
Proof.
  intros Hw Hp Ha Hb E. apply Z.lxor_eq, (byte_le_zero w p Hw Hp); [by apply lxor_range; [lia|..]|]. rewrite byte_le_linear, E. apply Z.lxor_nilpotent.
Qed.
Lemma bitwise_keeps c l : 0 <= c < 2 ^ 32 → bytes l → 0 <= crc_le_bitwise CRC32C_POLY_LE c l < 2 ^ 32.
Proof. apply bytewise_keeps, poly_keeps. Qed.
Lemma bitwise_inj c c' l : 0 <= c < 2 ^ 32 → 0 <= c' < 2 ^ 32 → bytes l → crc_le_bitwise CRC32C_POLY_LE c l = crc_le_bitwise CRC32C_POLY_LE c' l → c = c'.
Proof.
  intros Hc Hc' Hl. revert c c' Hc Hc'. pose proof poly_keeps as K.
  induction Hl as [|b l Hb Hl IH]; intros c c' Hc Hc' E; [done|]. pose proof (byte_word b Hb) as Hw. assert (∀ z, 0 <= z < 2 ^ 32 → 0 <= Z.lxor z b < 2 ^ 32) as Hx by (intros; by apply lxor_range; [lia|..]).
  apply IH in E; [|by apply K, Hx..]. apply (byte_le_inj 32) in E; [|lia|apply poly_range|by apply Hx..].
  apply (f_equal (λ z, Z.lxor z b)) in E. by rewrite !Z.lxor_assoc, !Z.lxor_nilpotent, !Z.lxor_0_r in E.
Qed.
Lemma iter_byte_inj n a b : 0 <= a < 2 ^ 32 → 0 <= b < 2 ^ 32 → Nat.iter n (byte_le CRC32C_POLY_LE) a = Nat.iter n (byte_le CRC32C_POLY_LE) b → a = b.
Proof.
  revert a b. induction n as [|n IH]; intros a b Ha Hb; [done|]. rewrite !iter_S_r. pose proof poly_keeps as K.
  intros E%IH; [|by apply K..]. by apply (byte_le_inj 32) in E; [|lia|apply poly_range|..].
Qed.
(** CRC-32C detects every change within four consecutive bytes: two
    buffers that differ there and nowhere else have different checksums, from
    any seed and at any addresses. *)
Theorem crc32c_detects_burst addr addr' crc pre old new post : 0 <= crc < 2 ^ 32 → bytes pre → bytes old → bytes new → bytes post →
  length old = length new → (length old <= 4)%nat → old ≠ new →
  ext2fs_crc32c_le addr crc (pre ++ old ++ post) ≠ ext2fs_crc32c_le addr' crc (pre ++ new ++ post).
Proof.
  intros Hc Hpre Hold Hnew Hpost Hlen H4 Hne E. apply Hne.
  assert (∀ a m, bytes m → ext2fs_crc32c_le a crc m = crc_le_bitwise CRC32C_POLY_LE crc m) as Hb by (intros; by apply crc32c_le_bitwise).
  rewrite !Hb in E by (repeat apply Forall_app_2; done). unfold crc_le_bitwise in E. rewrite !foldl_app in E. pose proof (bitwise_keeps crc pre Hc Hpre) as Hc1. unfold crc_le_bitwise in Hc1.
  set (c1 := foldl _ crc pre) in *. apply bitwise_inj in E; [|by apply bitwise_keeps..|done].
  assert (∀ m, bytes m → (length m ≤ 4)%nat → foldl (λ crc b, byte_le CRC32C_POLY_LE (Z.lxor crc b)) c1 m = Nat.iter (length m) (byte_le CRC32C_POLY_LE) (Z.lxor c1 (le_to m))) as Hm.
  { intros m Bm Lm. apply bytewise_word; [apply byte_le_linear|intros; apply byte_le_shift|done|done]. }
  rewrite !Hm in E by (done || lia). rewrite <-Hlen in E.
  assert (∀ m, bytes m → length m = length old → 0 <= le_to m < 2 ^ 32) as Hr.
  { intros m Bm Lm. pose proof (le_to_range _ m Lm Bm). assert (2 ^ (8 * Z.of_nat (length old)) <= 2 ^ 32) by (apply Z.pow_le_mono_r; lia). lia. }
  apply iter_byte_inj in E; [|apply lxor_range; [lia|done|by apply Hr]..].
  apply (f_equal (Z.lxor c1)) in E. rewrite <-!Z.lxor_assoc, !Z.lxor_nilpotent, !Z.lxor_0_l in E. rewrite <-(le_of_to old Hold), <-(le_of_to new Hnew). by rewrite E, Hlen.
Qed.

(** ** Witnesses: the check values of the string "123456789" *)
Definition digits9 : list Z := [49; 50; 51; 52; 53; 54; 55; 56; 57].
Lemma digits9_bytes : bytes digits9.
Proof. repeat constructor; done. Qed.
Lemma crc_tables_bitwise_witness :
  ext2fs_crc32c_le 0x1002 0xffffffff digits9 = 0xffffffff - 0xE3069283 ∧ ext2fs_crc32_be 0x1002 0xffffffff digits9 = 0x0376E6E7 ∧ Z.land (ext2fs_crc16 0xffffffff digits9) 0xffff = 0x4B37.
Proof. destruct (crc_tables_bitwise 0x1002 0xffffffff digits9 ltac:(lia) digits9_bytes) as (-> & -> & -> & _). repeat split; vm_compute; reflexivity. Defined.
Lemma crc32c_detects_burst_witness : ext2fs_crc32c_le 0 0 ([1; 2] ++ [3; 4; 5; 6] ++ [7]) ≠ ext2fs_crc32c_le 0 0 ([1; 2] ++ [3; 4; 5; 7] ++ [7]).
Proof. apply crc32c_detects_burst; [lia|repeat constructor; done..|done|done|discriminate]. Defined.
End Crc.
