(* ===== verification/Blknum.v ===== *)
(** Superblock and group descriptor fields of the vendored e2fsprogs library
    (kernel/fs/lib/ext2fs/blknum.c): an [ext2_filsys] with its superblock and
    group descriptor table as the bytes they are on a little-endian host.  Block
    numbers and counts are split over a low and a high field; the high one
    exists with the 64bit feature only.  Setting a field is read back, and
    touches no other field and no other group. *)
From stdpp Require Import base numbers list.
From S2P Require Import Prelude.
Open Scope Z_scope.

Module Blknum.
(** ** Fields of byte buffers *)
Definition ld (n : nat) (b : list Z) (o : Z) : Z := le_to (slice b (Z.to_nat o) n).
Definition st (n : nat) (b : list Z) (o v : Z) : list Z := splice b (Z.to_nat o) (le_of n v).
(** ** struct_ext2_filsys: the fields used here *)
Record filsys := Filsys {
  super : list Z;
  flags : Z;
  csum_seed : Z;
  blocksize : Z;
  group_desc_count : Z;
  group_desc : list Z;
  desc_blocks : Z;
  inode_blocks_per_group : Z;
  cluster_ratio_bits : Z
}.
Definition set_super (fs : filsys) (s : list Z) : filsys := Filsys s (flags fs) (csum_seed fs) (blocksize fs) (group_desc_count fs) (group_desc fs) (desc_blocks fs) (inode_blocks_per_group fs) (cluster_ratio_bits fs).
Definition set_gdt (fs : filsys) (g : list Z) : filsys := Filsys (super fs) (flags fs) (csum_seed fs) (blocksize fs) (group_desc_count fs) g (desc_blocks fs) (inode_blocks_per_group fs) (cluster_ratio_bits fs).
Definition set_flags (fs : filsys) (f : Z) : filsys := Filsys (super fs) f (csum_seed fs) (blocksize fs) (group_desc_count fs) (group_desc fs) (desc_blocks fs) (inode_blocks_per_group fs) (cluster_ratio_bits fs).
Definition set_seed (fs : filsys) (c : Z) : filsys := Filsys (super fs) (flags fs) c (blocksize fs) (group_desc_count fs) (group_desc fs) (desc_blocks fs) (inode_blocks_per_group fs) (cluster_ratio_bits fs).

(** the superblock has to be written *)
Definition ext2fs_mark_super_dirty (fs : filsys) : filsys := set_flags fs (Z.lor (flags fs) 0x06).

(** ** Superblock fields and features *)
Definition s_first_data_block (s : list Z) : Z := ld 4 s 0x14.
Definition s_blocks_per_group (s : list Z) : Z := ld 4 s 0x20.
Definition s_inodes_per_group (s : list Z) : Z := ld 4 s 0x28.
Definition s_rev_level (s : list Z) : Z := ld 4 s 0x4C.
Definition s_inode_size (s : list Z) : Z := ld 2 s 0x58.
Definition s_feature_incompat (s : list Z) : Z := ld 4 s 0x60.
Definition s_feature_ro_compat (s : list Z) : Z := ld 4 s 0x64.
Definition s_uuid (s : list Z) : list Z := slice s 0x68 16.
Definition s_desc_size (s : list Z) : Z := ld 2 s 0xFE.
Definition ext2fs_has_feature_64bit (s : list Z) : bool := has (s_feature_incompat s) 0x80.
Definition ext2fs_has_feature_ea_inode (s : list Z) : bool := has (s_feature_incompat s) 0x400.
Definition ext2fs_has_feature_csum_seed (s : list Z) : bool := has (s_feature_incompat s) 0x2000.
Definition ext2fs_has_feature_gdt_csum (s : list Z) : bool := has (s_feature_ro_compat s) 0x10.
Definition ext2fs_has_feature_metadata_csum (s : list Z) : bool := has (s_feature_ro_compat s) 0x400.
Definition EXT2_GOOD_OLD_INODE_SIZE : Z := 128.
Definition EXT2_INODE_SIZE (s : list Z) : Z := if s_rev_level s =? 0 then EXT2_GOOD_OLD_INODE_SIZE else s_inode_size s.
Definition EXT2_MIN_DESC_SIZE : Z := 32.
Definition EXT2_DESC_SIZE (s : list Z) : Z := if ext2fs_has_feature_64bit s then s_desc_size s else EXT2_MIN_DESC_SIZE.

(** a 64-bit number in two words of the superblock *)
Definition super_get (s : list Z) (lo hi : Z) : Z := Z.lor (ld 4 s lo) (if ext2fs_has_feature_64bit s then Z.shiftl (ld 4 s hi) 32 else 0).
Definition super_set (s : list Z) (lo hi blk : Z) : list Z :=
  let s := st 4 s lo (u32 blk) in
  if ext2fs_has_feature_64bit s then st 4 s hi (Z.shiftr blk 32) else s.
Definition ext2fs_blocks_count (s : list Z) : Z := super_get s 0x04 0x150.
Definition ext2fs_blocks_count_set (s : list Z) (blk : Z) : list Z := super_set s 0x04 0x150 blk.
Definition ext2fs_blocks_count_add (s : list Z) (blk : Z) : list Z := ext2fs_blocks_count_set s (u64 (ext2fs_blocks_count s + blk)).
Definition ext2fs_r_blocks_count (s : list Z) : Z := super_get s 0x08 0x154.
Definition ext2fs_r_blocks_count_set (s : list Z) (blk : Z) : list Z := super_set s 0x08 0x154 blk.
Definition ext2fs_r_blocks_count_add (s : list Z) (blk : Z) : list Z := ext2fs_r_blocks_count_set s (u64 (ext2fs_r_blocks_count s + blk)).
Definition ext2fs_free_blocks_count (s : list Z) : Z := super_get s 0x0C 0x158.
Definition ext2fs_free_blocks_count_set (s : list Z) (blk : Z) : list Z := super_set s 0x0C 0x158 blk.
Definition ext2fs_free_blocks_count_add (s : list Z) (blk : Z) : list Z := ext2fs_free_blocks_count_set s (u64 (ext2fs_free_blocks_count s + blk)).

(** ** Group descriptors
    The offset of a descriptor in the table; the C function returns a pointer
    there, or a null pointer for a group beyond the table.  The table is in
    memory (a file system opened without it reads blocks on demand).  A null pointer and
    an access outside the table are undefined behaviour. *)
Definition desc_stride (s : list Z) : Z := Z.land (EXT2_DESC_SIZE s) (Z.lnot 7).
Definition ext2fs_group_desc (fs : filsys) (group : Z) : option Z :=
  if group_desc_count fs <? group then None else Some (u32 (group * desc_stride (super fs))).
Definition desc_at (n : nat) (fs : filsys) (group off : Z) : outcome Z :=
  match ext2fs_group_desc fs group with
  | Some o => if (0 <=? o + off) && (o + off + Z.of_nat n <=? Z.of_nat (length (group_desc fs))) then Ret (o + off) else Undef
  | None => Undef
  end.
Definition desc_ld (n : nat) (fs : filsys) (group off : Z) : outcome Z :=
  o ← desc_at n fs group off; Ret (ld n (group_desc fs) o).
Definition desc_st (n : nat) (fs : filsys) (group off v : Z) : outcome filsys :=
  o ← desc_at n fs group off; Ret (set_gdt fs (st n (group_desc fs) o v)).
(** [n] bytes at [lo] and, with the 64bit feature, [n] more at [hi] *)
Definition desc_get (n : nat) (fs : filsys) (group lo hi : Z) : outcome Z :=
  l ← desc_ld n fs group lo;
  if ext2fs_has_feature_64bit (super fs) then h ← desc_ld n fs group hi; Ret (Z.lor l (Z.shiftl h (8 * Z.of_nat n))) else Ret l.
Definition desc_set (n : nat) (fs : filsys) (group lo hi v : Z) : outcome filsys :=
  fs ← desc_st n fs group lo v;
  if ext2fs_has_feature_64bit (super fs) then desc_st n fs group hi (Z.shiftr v (8 * Z.of_nat n)) else Ret fs.
Definition ext2fs_block_bitmap_loc (fs : filsys) (group : Z) : outcome Z := desc_get 4 fs group 0 32.
Definition ext2fs_block_bitmap_loc_set (fs : filsys) (group blk : Z) : outcome filsys := desc_set 4 fs group 0 32 blk.
Definition ext2fs_inode_bitmap_loc (fs : filsys) (group : Z) : outcome Z := desc_get 4 fs group 4 36.
Definition ext2fs_inode_bitmap_loc_set (fs : filsys) (group blk : Z) : outcome filsys := desc_set 4 fs group 4 36 blk.
Definition ext2fs_inode_table_loc (fs : filsys) (group : Z) : outcome Z := desc_get 4 fs group 8 40.
Definition ext2fs_inode_table_loc_set (fs : filsys) (group blk : Z) : outcome filsys := desc_set 4 fs group 8 40 blk.
Definition ext2fs_bg_free_blocks_count (fs : filsys) (group : Z) : outcome Z := desc_get 2 fs group 12 44.
Definition ext2fs_bg_free_blocks_count_set (fs : filsys) (group n : Z) : outcome filsys := desc_set 2 fs group 12 44 n.
Definition ext2fs_bg_free_inodes_count (fs : filsys) (group : Z) : outcome Z := desc_get 2 fs group 14 46.
Definition ext2fs_bg_free_inodes_count_set (fs : filsys) (group n : Z) : outcome filsys := desc_set 2 fs group 14 46 n.
Definition ext2fs_bg_used_dirs_count (fs : filsys) (group : Z) : outcome Z := desc_get 2 fs group 16 48.
Definition ext2fs_bg_used_dirs_count_set (fs : filsys) (group n : Z) : outcome filsys := desc_set 2 fs group 16 48 n.
Definition ext2fs_bg_itable_unused (fs : filsys) (group : Z) : outcome Z := desc_get 2 fs group 28 50.
Definition ext2fs_bg_itable_unused_set (fs : filsys) (group n : Z) : outcome filsys := desc_set 2 fs group 28 50 n.
Definition ext2fs_bg_flags (fs : filsys) (group : Z) : outcome Z := desc_ld 2 fs group 18.
Definition ext2fs_bg_flags_zap (fs : filsys) (group : Z) : outcome filsys := desc_st 2 fs group 18 0.
Definition ext2fs_bg_flags_test (fs : filsys) (group bg_flag : Z) : outcome Z := f ← desc_ld 2 fs group 18; Ret (Z.land f bg_flag).
Definition ext2fs_bg_flags_set (fs : filsys) (group bg_flags : Z) : outcome filsys := f ← desc_ld 2 fs group 18; desc_st 2 fs group 18 (Z.lor f bg_flags).
Definition ext2fs_bg_flags_clear (fs : filsys) (group bg_flags : Z) : outcome filsys := f ← desc_ld 2 fs group 18; desc_st 2 fs group 18 (Z.land f (Z.lnot bg_flags)).
Definition ext2fs_bg_checksum (fs : filsys) (group : Z) : outcome Z := desc_ld 2 fs group 30.
Definition ext2fs_bg_checksum_set (fs : filsys) (group checksum : Z) : outcome filsys := desc_st 2 fs group 30 checksum.
(** the checksums of the bitmaps: the high half has its own condition *)
Definition EXT4_BG_INODE_BITMAP_CSUM_HI_END : Z := 60.
Definition EXT4_BG_BLOCK_BITMAP_CSUM_HI_LOCATION : Z := 58.
Definition ext2fs_block_bitmap_checksum (fs : filsys) (group : Z) : outcome Z :=
  csum ← desc_ld 2 fs group 24;
  if EXT4_BG_BLOCK_BITMAP_CSUM_HI_LOCATION <=? EXT2_DESC_SIZE (super fs) then h ← desc_ld 2 fs group 56; Ret (Z.lor csum (Z.shiftl h 16)) else Ret csum.
Definition ext2fs_inode_bitmap_checksum (fs : filsys) (group : Z) : outcome Z :=
  csum ← desc_ld 2 fs group 26;
  if EXT4_BG_INODE_BITMAP_CSUM_HI_END <=? EXT2_DESC_SIZE (super fs) then h ← desc_ld 2 fs group 58; Ret (Z.lor csum (Z.shiftl h 16)) else Ret csum.

(** ** Loads and stores *)
Lemma st_splice n b o v : st n b o v = splice b (Z.to_nat o) (le_of n v).
Proof. done. Qed.
Lemma length_st n b o v : 0 <= o → o + Z.of_nat n <= Z.of_nat (length b) → length (st n b o v) = length b.
Proof. intros. apply length_splice. rewrite length_le_of. lia. Qed.
Lemma bytes_st n b o v : bytes b → bytes (st n b o v).
Proof. intros. apply bytes_splice; [done|apply bytes_le_of]. Qed.
Lemma slice_st_other n b o v p k : 0 <= o → (Z.of_nat p + Z.of_nat k <= o ∨ o + Z.of_nat n <= Z.of_nat p) → o + Z.of_nat n <= Z.of_nat (length b) →
  slice (st n b o v) p k = slice b p k.
Proof. intros Ho Hd Hl. apply slice_splice_disjoint; rewrite length_le_of; lia. Qed.
Lemma ld_st_other n k b o v p : 0 <= o → 0 <= p → (p + Z.of_nat k <= o ∨ o + Z.of_nat n <= p) → o + Z.of_nat n <= Z.of_nat (length b) → ld k (st n b o v) p = ld k b p.
Proof. intros. unfold ld. rewrite slice_st_other by lia. done. Qed.
Lemma le_to_of_mod n v : le_to (le_of n v) = v mod 256 ^ Z.of_nat n.
Proof.
  revert v. induction n as [|n IH]; intros v; [simpl; by rewrite Z.mod_1_r|]. cbn [le_of le_to]. rewrite IH, Nat2Z.inj_succ, Z.pow_succ_r by lia.
  rewrite (Z.rem_mul_r v 256 (256 ^ Z.of_nat n)) by (try apply Z.pow_pos_nonneg; lia). done.
Qed.
Lemma ld_st_same n b o v : 0 <= o → o + Z.of_nat n <= Z.of_nat (length b) → ld n (st n b o v) o = v mod 256 ^ Z.of_nat n.
Proof.
  intros Ho Hl. unfold ld, st. pose proof (slice_splice_same b (Z.to_nat o) (le_of n v)) as H. rewrite length_le_of in H. rewrite H by lia. apply le_to_of_mod.
Qed.
Lemma ld_range n b o : bytes b → 0 <= o → o + Z.of_nat n <= Z.of_nat (length b) → 0 <= ld n b o < 256 ^ Z.of_nat n.
Proof.
  intros Hb Ho Hl. unfold ld. pose proof (le_to_bound _ (bytes_slice b (Z.to_nat o) n Hb)) as H. rewrite length_slice in H by lia. done.
Qed.

(** ** Well-formed descriptor tables *)
Record gdt_ok (fs : filsys) : Prop := {
  gk_count : 0 <= group_desc_count fs;
  gk_aligned : EXT2_DESC_SIZE (super fs) mod 8 = 0;
  gk_size : (if ext2fs_has_feature_64bit (super fs) then 64 else 32) <= EXT2_DESC_SIZE (super fs);
  gk_table : group_desc_count fs * EXT2_DESC_SIZE (super fs) <= Z.of_nat (length (group_desc fs));
  gk_memory : Z.of_nat (length (group_desc fs)) < 2 ^ 32;
  gk_bytes : bytes (group_desc fs)
}.
Lemma stride_size fs : gdt_ok fs → desc_stride (super fs) = EXT2_DESC_SIZE (super fs).
Proof.
  intros Hf. unfold desc_stride. rewrite (land_lnot_ones _ 3) by done. change (2 ^ 3) with 8. pose proof (gk_aligned _ Hf). zdm.
Qed.
Section table.
Context (fs : filsys) (Hf : gdt_ok fs).
Notation size := (EXT2_DESC_SIZE (super fs)).
Lemma size_32 : 32 <= size.
Proof. pose proof (gk_size _ Hf). destruct (ext2fs_has_feature_64bit _); lia. Qed.
(** a field of a descriptor lies in the table *)
Lemma desc_in g off n : 0 <= g < group_desc_count fs → 0 <= off → off + n <= size → 0 <= g * size + off ∧ g * size + off + n <= Z.of_nat (length (group_desc fs)).
Proof. intros Hg Ho Hn. pose proof (gk_table _ Hf). pose proof size_32. nia. Qed.
Lemma desc_at_Ret n g off : 0 <= g < group_desc_count fs → 0 <= off → off + Z.of_nat n <= size → desc_at n fs g off = Ret (g * size + off).
Proof.
  intros Hg Ho Hn. destruct (desc_in g off (Z.of_nat n) Hg Ho Hn). unfold desc_at, ext2fs_group_desc. rewrite stride_size by done. bfalse. cbn iota.
  rewrite u32_small by (pose proof (gk_memory _ Hf); pose proof size_32; nia). by do 2 btrue.
Qed.
Lemma desc_ld_Ret n g off : 0 <= g < group_desc_count fs → 0 <= off → off + Z.of_nat n <= size → desc_ld n fs g off = Ret (ld n (group_desc fs) (g * size + off)).
Proof. intros. unfold desc_ld. by rewrite desc_at_Ret. Qed.
Lemma desc_st_Ret n g off v : 0 <= g < group_desc_count fs → 0 <= off → off + Z.of_nat n <= size →
  desc_st n fs g off v = Ret (set_gdt fs (st n (group_desc fs) (g * size + off) v)).
Proof. intros. unfold desc_st. by rewrite desc_at_Ret. Qed.
Lemma gdt_ok_st n o v : 0 <= o → o + Z.of_nat n <= Z.of_nat (length (group_desc fs)) → gdt_ok (set_gdt fs (st n (group_desc fs) o v)).
Proof. intros. destruct Hf. split; cbn [group_desc super group_desc_count set_gdt]; rewrite ?length_st by done; [done..|by apply bytes_st]. Qed.
(** the fields of different descriptors are apart *)
Lemma desc_apart g g' off off' n n' : 0 <= g → 0 <= g' → 0 <= off → 0 <= off' → off + n <= size → off' + n' <= size → (g ≠ g' ∨ off' + n' <= off ∨ off + n <= off') →
  g' * size + off' + n' <= g * size + off ∨ g * size + off + n <= g' * size + off'.
Proof. intros. destruct (decide (g = g')) as [->|]; [lia|]. pose proof size_32. destruct (decide (g < g')); [right|left]; nia. Qed.
End table.

(** ** The split fields of a descriptor *)
Inductive gfield := GBlockBitmap | GInodeBitmap | GInodeTable | GFreeBlocks | GFreeInodes | GUsedDirs | GItableUnused.
#[export] Instance gfield_eq_dec : EqDecision gfield.
Proof. solve_decision. Defined.
Definition group_get (f : gfield) : filsys → Z → outcome Z :=
  match f with
  | GBlockBitmap => ext2fs_block_bitmap_loc
  | GInodeBitmap => ext2fs_inode_bitmap_loc
  | GInodeTable => ext2fs_inode_table_loc
  | GFreeBlocks => ext2fs_bg_free_blocks_count
  | GFreeInodes => ext2fs_bg_free_inodes_count
  | GUsedDirs => ext2fs_bg_used_dirs_count
  | GItableUnused => ext2fs_bg_itable_unused
  end.
Definition group_set (f : gfield) : filsys → Z → Z → outcome filsys :=
  match f with
  | GBlockBitmap => ext2fs_block_bitmap_loc_set
  | GInodeBitmap => ext2fs_inode_bitmap_loc_set
  | GInodeTable => ext2fs_inode_table_loc_set
  | GFreeBlocks => ext2fs_bg_free_blocks_count_set
  | GFreeInodes => ext2fs_bg_free_inodes_count_set
  | GUsedDirs => ext2fs_bg_used_dirs_count_set
  | GItableUnused => ext2fs_bg_itable_unused_set
  end.
(** half of the width in bytes, and the offsets of the halves *)
Definition gf_half (f : gfield) : nat := match f with GBlockBitmap | GInodeBitmap | GInodeTable => 4 | _ => 2 end.
Definition gf_lo (f : gfield) : Z := match f with GBlockBitmap => 0 | GInodeBitmap => 4 | GInodeTable => 8 | GFreeBlocks => 12 | GFreeInodes => 14 | GUsedDirs => 16 | GItableUnused => 28 end.
Definition gf_hi (f : gfield) : Z := match f with GBlockBitmap => 32 | GInodeBitmap => 36 | GInodeTable => 40 | GFreeBlocks => 44 | GFreeInodes => 46 | GUsedDirs => 48 | GItableUnused => 50 end.
Lemma group_get_eq f fs g : group_get f fs g = desc_get (gf_half f) fs g (gf_lo f) (gf_hi f).
Proof. by destruct f. Qed.
Lemma group_set_eq f fs g v : group_set f fs g v = desc_set (gf_half f) fs g (gf_lo f) (gf_hi f) v.
Proof. by destruct f. Qed.
Definition gf_val (n : nat) (fs : filsys) (g lo hi : Z) : Z :=
  let s := EXT2_DESC_SIZE (super fs) in
  if ext2fs_has_feature_64bit (super fs) then Z.lor (ld n (group_desc fs) (g * s + lo)) (Z.shiftl (ld n (group_desc fs) (g * s + hi)) (8 * Z.of_nat n)) else ld n (group_desc fs) (g * s + lo).
Lemma pow_256 n : 256 ^ Z.of_nat n = 2 ^ (8 * Z.of_nat n).
Proof. change 256 with (2 ^ 8). by rewrite <-Z.pow_mul_r by lia. Qed.
Section fields.
Context (fs : filsys) (Hf : gdt_ok fs) (g : Z) (Hg : 0 <= g < group_desc_count fs).
Notation size := (EXT2_DESC_SIZE (super fs)).
Lemma desc_get_Ret n lo hi : 0 <= lo → 0 <= hi → lo + Z.of_nat n <= 32 → hi + Z.of_nat n <= 64 → desc_get n fs g lo hi = Ret (gf_val n fs g lo hi).
Proof.
  intros. pose proof (size_32 fs Hf). pose proof (gk_size _ Hf). unfold desc_get, gf_val. rewrite (desc_ld_Ret fs Hf n g lo) by (done || lia). ostep.
  destruct (ext2fs_has_feature_64bit (super fs)) eqn:E64; [|done]. by rewrite (desc_ld_Ret fs Hf n g hi) by (done || lia).
Qed.
(** a store of both halves *)
Lemma desc_set_Ret n lo hi v : 0 <= lo → lo + Z.of_nat n <= 32 → 32 <= hi → hi + Z.of_nat n <= 64 → 0 <= v < 2 ^ (16 * Z.of_nat n) →
  ∃ gdt', desc_set n fs g lo hi v = Ret (set_gdt fs gdt') ∧ gdt_ok (set_gdt fs gdt') ∧
    gf_val n (set_gdt fs gdt') g lo hi = (if ext2fs_has_feature_64bit (super fs) then v else v mod 2 ^ (8 * Z.of_nat n)) ∧
    ∀ k g' off, 0 <= g' < group_desc_count fs → 0 <= off → off + Z.of_nat k <= size →
      (g' ≠ g ∨ (off + Z.of_nat k <= lo ∨ lo + Z.of_nat n <= off) ∧ (off + Z.of_nat k <= hi ∨ hi + Z.of_nat n <= off)) → ld k gdt' (g' * size + off) = ld k (group_desc fs) (g' * size + off).
Proof.
  intros Hlo Hlo' Hhi Hhi' Hv. pose proof (size_32 fs Hf) as H32. pose proof (gk_size _ Hf) as Hsz. destruct (desc_in fs Hf g lo (Z.of_nat n) Hg Hlo ltac:(lia)) as [A1 A2].
  set (t1 := st n (group_desc fs) (g * size + lo) v). assert (length t1 = length (group_desc fs)) as L1 by (by apply length_st).
  assert (gdt_ok (set_gdt fs t1)) as O1 by (by apply gdt_ok_st). assert (desc_st n fs g lo v = Ret (set_gdt fs t1)) as E1 by (by apply desc_st_Ret; [| |lia|lia]).
  unfold desc_set. rewrite E1. ostep. cbn [super set_gdt]. unfold gf_val. cbn [super set_gdt group_desc]. destruct (ext2fs_has_feature_64bit (super fs)) eqn:E64; cbn iota in Hsz.
  - destruct (desc_in fs Hf g hi (Z.of_nat n) Hg ltac:(lia) ltac:(lia)) as [B1 B2]. rewrite (desc_st_Ret (set_gdt fs t1) O1) by (cbn [super set_gdt group_desc_count]; done || lia).
    cbn [super set_gdt group_desc flags csum_seed blocksize group_desc_count]. set (t2 := st n t1 (g * size + hi) _). exists t2. split; [done|].
    split; [by apply (gdt_ok_st (set_gdt fs t1) O1); cbn [group_desc set_gdt]; rewrite ?L1|]. split.
    + unfold t2 at 2. rewrite ld_st_same by (rewrite ?L1; lia). unfold t2. rewrite ld_st_other by (rewrite ?L1; lia). unfold t1. rewrite ld_st_same by lia. rewrite !pow_256.
      rewrite lor_shiftl by (first [lia|apply Z.mod_pos_bound, Z.pow_pos_nonneg; lia]). rewrite Z.shiftr_div_pow2 by lia.
      rewrite (Z.mod_small (v / _)); [pose proof (Z.div_mod v (2 ^ (8 * Z.of_nat n)) ltac:(pose proof (Z.pow_pos_nonneg 2 (8 * Z.of_nat n)); lia)); lia|].
      split; [apply Z.div_pos; [lia|apply Z.pow_pos_nonneg; lia]|]. apply Z.div_lt_upper_bound; [apply Z.pow_pos_nonneg; lia|]. rewrite <-Z.pow_add_r by lia. replace (8 * Z.of_nat n + 8 * Z.of_nat n) with (16 * Z.of_nat n) by lia. lia.
    + intros k g' off Hg' Ho Hk Hd. destruct (desc_in fs Hf g' off (Z.of_nat k) Hg' Ho Hk). unfold t2.
      rewrite ld_st_other by (first [lia|rewrite L1; lia|apply desc_apart; [done|lia..]]). unfold t1. rewrite ld_st_other by (first [lia|apply desc_apart; [done|lia..]]). done.
  - exists t1. split; [done|]. split; [done|]. split; [unfold t1; rewrite ld_st_same by lia; by rewrite pow_256|].
    intros k g' off Hg' Ho Hk Hd. destruct (desc_in fs Hf g' off (Z.of_nat k) Hg' Ho Hk). unfold t1. rewrite ld_st_other by (first [lia|apply desc_apart; [done|lia..]]). done.
Qed.
End fields.

Lemma gf_bounds f : 0 <= gf_lo f ∧ gf_lo f + Z.of_nat (gf_half f) <= 32 ∧ 32 <= gf_hi f ∧ gf_hi f + Z.of_nat (gf_half f) <= 64.
Proof. destruct f; simpl; lia. Qed.
Lemma gf_apart f f' : f' ≠ f → (gf_lo f' + Z.of_nat (gf_half f') <= gf_lo f ∨ gf_lo f + Z.of_nat (gf_half f) <= gf_lo f') ∧ (gf_hi f' + Z.of_nat (gf_half f') <= gf_hi f ∨ gf_hi f + Z.of_nat (gf_half f) <= gf_hi f').
Proof. destruct f, f'; simpl; intros; try done; lia. Qed.
Lemma gf_val_ext n fs fs' g lo hi : super fs' = super fs → ld n (group_desc fs') (g * EXT2_DESC_SIZE (super fs) + lo) = ld n (group_desc fs) (g * EXT2_DESC_SIZE (super fs) + lo) →
  (ext2fs_has_feature_64bit (super fs) = true → ld n (group_desc fs') (g * EXT2_DESC_SIZE (super fs) + hi) = ld n (group_desc fs) (g * EXT2_DESC_SIZE (super fs) + hi)) → gf_val n fs' g lo hi = gf_val n fs g lo hi.
Proof. intros Es El Eh. unfold gf_val. rewrite Es, El. destruct (ext2fs_has_feature_64bit (super fs)) eqn:E; [|done]. by rewrite Eh. Qed.

(** ** Theorems *)

(** Setting a block number or count of a group descriptor succeeds and is
    read back (its low half alone without the 64bit feature); it changes
    neither another field nor the flags and checksum, of this or any group. *)
Theorem group_field_roundtrip fs f g v : gdt_ok fs → 0 <= g < group_desc_count fs → 0 <= v < 2 ^ (16 * Z.of_nat (gf_half f)) →
  ∃ fs', group_set f fs g v = Ret fs' ∧ gdt_ok fs' ∧ super fs' = super fs ∧
    group_get f fs' g = Ret (if ext2fs_has_feature_64bit (super fs) then v else v mod 2 ^ (8 * Z.of_nat (gf_half f))) ∧
    (∀ f' g', 0 <= g' < group_desc_count fs → f' ≠ f ∨ g' ≠ g → group_get f' fs' g' = group_get f' fs g') ∧
    (∀ g', 0 <= g' < group_desc_count fs → ext2fs_bg_flags fs' g' = ext2fs_bg_flags fs g' ∧ ext2fs_bg_checksum fs' g' = ext2fs_bg_checksum fs g').
Proof.
  intros Hf Hg Hv. destruct (gf_bounds f) as (B1 & B2 & B3 & B4). destruct (desc_set_Ret fs Hf g Hg (gf_half f) (gf_lo f) (gf_hi f) v B1 B2 B3 B4 Hv) as (t & E & O & V & K).
  exists (set_gdt fs t). rewrite group_set_eq. split; [done|]. split; [done|]. split; [done|]. split; [rewrite group_get_eq, desc_get_Ret by (done || lia); by rewrite V|].
  pose proof (size_32 fs Hf) as H32. pose proof (gk_size _ Hf) as Hsz. split.
  - intros f' g' Hg' Hd. destruct (gf_bounds f') as (C1 & C2 & C3 & C4). rewrite !group_get_eq, !desc_get_Ret by (done || lia). f_equal. apply gf_val_ext; [done| |].
    + apply K; [done|lia|lia|]. destruct (decide (g' = g)) as [->|]; [right|by left]. destruct (gf_apart f f' ltac:(by destruct Hd)). lia.
    + intros E64. rewrite E64 in Hsz. apply K; [done|lia|lia|]. destruct (decide (g' = g)) as [->|]; [right|by left]. destruct (gf_apart f f' ltac:(by destruct Hd)). lia.
  - intros g' Hg'. unfold ext2fs_bg_flags, ext2fs_bg_checksum. rewrite !desc_ld_Ret by (cbn [super set_gdt group_desc_count]; done || lia). cbn [super set_gdt group_desc].
    assert ((18 + 2 <= gf_lo f ∨ gf_lo f + Z.of_nat (gf_half f) <= 18) ∧ (30 + 2 <= gf_lo f ∨ gf_lo f + Z.of_nat (gf_half f) <= 30)) as [D1 D2] by (destruct f; simpl; lia).
    split; f_equal; (apply K; [done|lia|lia|right; lia]).
Qed.
(** A 64-bit count of the superblock is read back and leaves the rest alone. *)
Lemma super_set_get s lo hi blk : 0 <= lo → lo + 4 <= 0x60 → 0x150 <= hi → hi + 4 <= Z.of_nat (length s) → 0 <= blk < 2 ^ 64 →
  super_get (super_set s lo hi blk) lo hi = (if ext2fs_has_feature_64bit s then blk else blk mod 2 ^ 32) ∧
  ∀ k p, 0 <= p → (p + Z.of_nat k <= lo ∨ lo + 4 <= p) → (p + Z.of_nat k <= hi ∨ hi + 4 <= p) → ld k (super_set s lo hi blk) p = ld k s p.
Proof.
  intros Hlo Hlo' Hhi Hl Hb. unfold super_set. set (s1 := st 4 s lo (u32 blk)). assert (length s1 = length s) as L1 by (apply length_st; lia).
  assert (ext2fs_has_feature_64bit s1 = ext2fs_has_feature_64bit s) as E1 by (unfold ext2fs_has_feature_64bit, s_feature_incompat, s1; rewrite ld_st_other by lia; done).
  rewrite E1. destruct (ext2fs_has_feature_64bit s) eqn:E; [set (s2 := st 4 s1 hi _); assert (ext2fs_has_feature_64bit s2 = true) as E2 by
    (unfold ext2fs_has_feature_64bit, s_feature_incompat, s2; rewrite ld_st_other by (rewrite ?L1; lia); exact E1)|].
  - split; [|intros k p Hp D1 D2; unfold s2; rewrite ld_st_other by (rewrite ?L1; lia); unfold s1; by rewrite ld_st_other by lia].
    unfold super_get. rewrite E2. unfold s2 at 2. rewrite ld_st_same by (rewrite ?L1; lia). unfold s2. rewrite ld_st_other by (rewrite ?L1; lia). unfold s1. rewrite ld_st_same by lia.
    change (256 ^ Z.of_nat 4) with (2 ^ 32). rewrite lor_shiftl by zdm. unfold u32. rewrite Z.shiftr_div_pow2 by lia. zdm.
  - split; [|intros k p Hp D1 D2; unfold s1; by rewrite ld_st_other by lia]. unfold super_get. rewrite E1. unfold s1. rewrite ld_st_same by lia. change (256 ^ Z.of_nat 4) with (2 ^ 32).
    unfold u32. rewrite Z.mod_mod by lia. apply Z.lor_0_r.
Qed.
(** The guard of ext2fs_group_desc lets the group after the last one pass:
    its descriptor lies beyond a table of the exact size. *)
Lemma group_desc_past_end fs : gdt_ok fs → Z.of_nat (length (group_desc fs)) = group_desc_count fs * EXT2_DESC_SIZE (super fs) →
  ext2fs_group_desc fs (group_desc_count fs) ≠ None ∧ ext2fs_bg_flags fs (group_desc_count fs) = Undef.
Proof.
  intros Hf Hl. unfold ext2fs_bg_flags, desc_ld, desc_at, ext2fs_group_desc. rewrite (proj2 (Z.ltb_ge (group_desc_count fs) (group_desc_count fs))) by lia. split; [done|].
  rewrite stride_size, u32_small by (try done; pose proof (gk_memory _ Hf); pose proof (gk_count _ Hf); pose proof (size_32 fs Hf); nia). bfalse. by rewrite andb_false_r.
Qed.

(** ** Witnesses: two groups with 64-byte descriptors *)
Definition demo_super : list Z := st 2 (st 4 (replicate 1024 0) 0x60 0x80) 0xFE 64.
Definition demo_fs : filsys := Filsys demo_super 0 0 1024 2 (replicate 128 0) 1 16 0.
Lemma demo_fs_ok : gdt_ok demo_fs.
Proof. split; [done|done|vm_compute; discriminate|vm_compute; discriminate|done|apply Forall_replicate; done]. Qed.
Lemma group_field_roundtrip_witness : ∃ fs', ext2fs_inode_table_loc_set demo_fs 1 0x123456789A = Ret fs' ∧ ext2fs_inode_table_loc fs' 1 = Ret 0x123456789A.
Proof.
  destruct (group_field_roundtrip demo_fs GInodeTable 1 0x123456789A demo_fs_ok ltac:(cbn; lia) ltac:(cbn; lia)) as (fs' & E & _ & _ & G & _). exists fs'. split; [exact E|exact G].
Defined.
End Blknum.
