(* ===== verification/Csum.v ===== *)
(** Metadata checksums of the vendored e2fsprogs library
    (kernel/fs/lib/ext2fs/csum.c) over Crc.v and Blknum.v: superblock,
    multi-mount block, extended attribute block, directory blocks (leaf and
    htree), extent blocks, bitmaps, inodes and group descriptors, as the bytes
    they are on a little-endian host.  The checksums are the bitwise CRC-32C of
    the bytes that the disk format covers, from its seed; what a set function
    stores, the verify function of the same object accepts; a change of up to
    four consecutive covered bytes is refused, unless it clears the feature
    bit of the superblock.

    Buffers are lists of bytes; [place] gives the address at which a buffer
    happens to lie, which the checksum depends on only in how it is computed.
    [read_inode] stands for ext2fs_read_inode: an error or the generation
    number of the inode. *)
From stdpp Require Import base numbers list.
From S2P Require Import Prelude Crc Blknum.
Open Scope Z_scope.

Module Csum.
Import Crc Blknum.
Definition EXT2_ET_DIR_CORRUPTED : Z := 2133571363.
Definition EXT2_ET_NO_INODE_BITMAP : Z := 2133571367.
Definition EXT2_ET_DB_NOT_FOUND : Z := 2133571406.
Definition EXT2_ET_DIR_NO_SPACE_FOR_CSUM : Z := 2133571477.
Definition EXT2_FILSYS_CORRUPTED : Z := 2133571508.
Definition EXT2_FLAG_IGNORE_CSUM_ERRORS : Z := 0x200000.
Definition EXT2_FLAG_SWAP_BYTES : Z := 0x40.
Definition EXT4_FEATURE_RO_COMPAT_METADATA_CSUM : Z := 0x400.
Definition EXT2_CRC32C_CHKSUM : Z := 1.
Definition EXT2_BG_INODE_UNINIT : Z := 0x0001.
Definition EXT2_BG_BLOCK_UNINIT : Z := 0x0002.

Section checksums.
Context (place : Z → list Z → Z) (read_inode : Z → Z + Z).
Definition crc32c (crc : Z) (b : list Z) : Z := ext2fs_crc32c_le (place crc b) crc b.
Definition ext2fs_init_csum_seed (fs : filsys) : filsys :=
  if ext2fs_has_feature_csum_seed (super fs) then set_seed fs (ld 4 (super fs) 0x270)
  else if ext2fs_has_feature_metadata_csum (super fs) || ext2fs_has_feature_ea_inode (super fs)
  then set_seed fs (crc32c 0xffffffff (s_uuid (super fs))) else fs.

(** ** Multi-mount protection block: the checksum is its last word *)
Definition ext2fs_mmp_csum (fs : filsys) (mmp : list Z) : Z := crc32c (csum_seed fs) (slice mmp 0 1020).
Definition ext2fs_mmp_csum_verify (fs : filsys) (mmp : list Z) : bool :=
  if negb (ext2fs_has_feature_metadata_csum (super fs)) then true else
  let calculated := ext2fs_mmp_csum fs mmp in ld 4 mmp 1020 =? calculated.
Definition ext2fs_mmp_csum_set (fs : filsys) (mmp : list Z) : list Z :=
  if negb (ext2fs_has_feature_metadata_csum (super fs)) then mmp else
  let crc := ext2fs_mmp_csum fs mmp in st 4 mmp 1020 crc.

(** ** Superblock *)
Definition ext2fs_verify_csum_type (fs : filsys) (sb : list Z) : bool :=
  if negb (ext2fs_has_feature_metadata_csum (super fs)) then true else ld 1 sb 0x175 =? EXT2_CRC32C_CHKSUM.
Definition ext2fs_superblock_csum (sb : list Z) : Z := crc32c 0xffffffff (slice sb 0 1020).
Definition ext2fs_superblock_csum_verify (fs : filsys) (sb : list Z) : bool :=
  let flag := EXT4_FEATURE_RO_COMPAT_METADATA_CSUM in
  if negb (has (s_feature_ro_compat (super fs)) flag) then true else
  let calculated := ext2fs_superblock_csum sb in ld 4 sb 1020 =? calculated.
Definition ext2fs_superblock_csum_set (fs : filsys) (sb : list Z) : list Z :=
  let flag := EXT4_FEATURE_RO_COMPAT_METADATA_CSUM in
  if negb (has (s_feature_ro_compat (super fs)) flag) then sb else
  let crc := ext2fs_superblock_csum sb in st 4 sb 1020 crc.

(** ** Extended attribute block: the checksum field counts as zero *)
Definition ext2fs_ext_attr_block_csum (fs : filsys) (block : Z) (hdr : list Z) : Z :=
  let crc := crc32c (csum_seed fs) (le_of 8 block) in
  crc32c crc (slice (st 4 hdr 16 0) 0 (Z.to_nat (blocksize fs))).
Definition ext2fs_ext_attr_block_csum_verify (fs : filsys) (block : Z) (hdr : list Z) : bool :=
  if negb (ext2fs_has_feature_metadata_csum (super fs)) then true else
  let calculated := ext2fs_ext_attr_block_csum fs block hdr in ld 4 hdr 16 =? calculated.
Definition ext2fs_ext_attr_block_csum_set (fs : filsys) (block : Z) (hdr : list Z) : list Z :=
  if negb (ext2fs_has_feature_metadata_csum (super fs)) then hdr else
  let crc := ext2fs_ext_attr_block_csum fs block hdr in st 4 hdr 16 crc.

(** ** Directory blocks.  A leaf ends in a fake entry with the checksum; an
    htree node has a count and limit and its checksum after the entries.  An
    offset of the tail, or an error. *)
Fixpoint dirent_walk (fuel : nat) (block : list Z) (d top : Z) : outcome (Z + Z) :=
  match fuel with
  | O => Loop
  | S fuel =>
    if d <? top then
      let rec_len := ld 2 block (d + 4) in
      if (rec_len <? 8) || has rec_len 3 then Ret (inl EXT2_ET_DIR_CORRUPTED) else dirent_walk fuel block (d + rec_len) top
    else Ret (inr d)
  end.
Definition get_dirent_tail (fs : filsys) (block : list Z) : outcome (Z + Z) :=
  if blocksize fs <? 1024 then Ret (inl EXT2_FILSYS_CORRUPTED) else
  let top := blocksize fs - 12 in
  w ← dirent_walk (Z.to_nat (blocksize fs)) block 0 top;
  Ret match w with
  | inl e => inl e
  | inr d =>
    if blocksize fs <? d then inl EXT2_ET_DIR_CORRUPTED else
    if negb (d =? top) then inl EXT2_ET_DIR_NO_SPACE_FOR_CSUM else
    if negb (ld 4 block d =? 0) || negb (ld 2 block (d + 4) =? 12) || negb (ld 2 block (d + 6) =? 0xDE00) then inl EXT2_ET_DIR_NO_SPACE_FOR_CSUM else inr d
  end.
(** the offset of the count and limit of an htree node *)
Definition get_dx_countlimit (fs : filsys) (block : list Z) : Z + Z :=
  let rec_len := ld 2 block 4 in
  let found :=
    if (rec_len =? blocksize fs) && (ld 2 block 6 =? 0) then Some 8
    else if rec_len =? 12 then
      if negb (ld 2 block 16 =? blocksize fs - 12) then None
      else if negb (ld 4 block 24 =? 0) || negb (ld 1 block 29 =? 8) then None
      else Some 32
    else None in
  match found with
  | None => inl EXT2_ET_DB_NOT_FOUND
  | Some count_offset =>
    let max_sane_entries := (blocksize fs - count_offset) / 8 in
    if (max_sane_entries <? ld 2 block count_offset) || (max_sane_entries <? ld 2 block (count_offset + 2)) then inl EXT2_ET_DIR_NO_SPACE_FOR_CSUM
    else inr count_offset
  end.
(** the seed of everything that belongs to an inode *)
Definition inode_seed (fs : filsys) (inum gen : Z) : Z := crc32c (crc32c (csum_seed fs) (le_of 4 inum)) (le_of 4 gen).
Definition ext2fs_dirent_csum (fs : filsys) (inum : Z) (block : list Z) (size : Z) : Z + Z :=
  match read_inode inum with
  | inl e => inl e
  | inr gen => inr (crc32c (inode_seed fs inum gen) (slice block 0 (Z.to_nat size)))
  end.
Definition ext2fs_dirent_csum_verify (fs : filsys) (inum : Z) (block : list Z) : outcome bool :=
  r ← get_dirent_tail fs block;
  Ret match r with
  | inl _ => true
  | inr t => match ext2fs_dirent_csum fs inum block t with inl _ => false | inr calculated => ld 4 block (t + 8) =? calculated end
  end.
Definition ext2fs_dirent_csum_set (fs : filsys) (inum : Z) (block : list Z) : outcome (Z * list Z) :=
  r ← get_dirent_tail fs block;
  Ret match r with
  | inl e => (e, block)
  | inr t => match ext2fs_dirent_csum fs inum block t with inl e => (e, block) | inr crc => (0, st 4 block (t + 8) crc) end
  end.
(** the checksum of an htree node and the offset of its tail *)
Definition ext2fs_dx_csum (fs : filsys) (inum : Z) (block : list Z) : Z + (Z * Z) :=
  match get_dx_countlimit fs block with
  | inl e => inl e
  | inr count_offset =>
    let limit := ld 2 block count_offset in
    let count := ld 2 block (count_offset + 2) in
    if blocksize fs - 8 <? count_offset + limit * 8 then inl EXT2_ET_DIR_NO_SPACE_FOR_CSUM else
    let t := count_offset + limit * 8 in
    let size := count_offset + count * 8 in
    match read_inode inum with
    | inl e => inl e
    | inr gen =>
      let crc := crc32c (inode_seed fs inum gen) (slice block 0 (Z.to_nat size)) in
      let crc := crc32c crc (slice block (Z.to_nat t) 4) in
      inr (crc32c crc (le_of 4 0), t)
    end
  end.
Definition ext2fs_dx_csum_verify (fs : filsys) (inum : Z) (block : list Z) : bool :=
  match ext2fs_dx_csum fs inum block with inl _ => false | inr (calculated, t) => ld 4 block (t + 4) =? calculated end.
Definition ext2fs_dx_csum_set (fs : filsys) (inum : Z) (block : list Z) : Z * list Z :=
  match ext2fs_dx_csum fs inum block with inl e => (e, block) | inr (crc, t) => (0, st 4 block (t + 4) crc) end.
Definition is_ok {A} (r : Z + A) : bool := match r with inl _ => false | inr _ => true end.
Definition ext2fs_dir_block_csum_verify (fs : filsys) (inum : Z) (block : list Z) : outcome bool :=
  if negb (ext2fs_has_feature_metadata_csum (super fs)) then Ret true else
  r ← get_dirent_tail fs block;
  if is_ok r then ext2fs_dirent_csum_verify fs inum block else
  if is_ok (get_dx_countlimit fs block) then Ret (ext2fs_dx_csum_verify fs inum block) else Ret false.
Definition ext2fs_dir_block_csum_set (fs : filsys) (inum : Z) (block : list Z) : outcome (Z * list Z) :=
  if negb (ext2fs_has_feature_metadata_csum (super fs)) then Ret (0, block) else
  r ← get_dirent_tail fs block;
  if is_ok r then ext2fs_dirent_csum_set fs inum block else
  if is_ok (get_dx_countlimit fs block) then Ret (ext2fs_dx_csum_set fs inum block) else
  if has (flags fs) EXT2_FLAG_IGNORE_CSUM_ERRORS then Ret (0, block) else Ret (EXT2_ET_DIR_NO_SPACE_FOR_CSUM, block).

(** ** Extent blocks: the tail follows the room for [eh_max] extents, which
    may be beyond the buffer *)
Definition extent_tail_offset (eh : list Z) : Z := 12 + 12 * ld 2 eh 4.
Definition ext2fs_extent_block_csum (fs : filsys) (inum : Z) (eh : list Z) : Z + Z :=
  match read_inode inum with
  | inl e => inl e
  | inr gen => inr (crc32c (inode_seed fs inum gen) (slice eh 0 (Z.to_nat (extent_tail_offset eh))))
  end.
Definition extent_tail_in (eh : list Z) : bool := extent_tail_offset eh + 4 <=? Z.of_nat (length eh).
Definition ext2fs_extent_block_csum_verify (fs : filsys) (inum : Z) (eh : list Z) : outcome bool :=
  if negb (ext2fs_has_feature_metadata_csum (super fs)) then Ret true else
  if negb (extent_tail_in eh) then Undef else
  let provided := ld 4 eh (extent_tail_offset eh) in
  Ret match ext2fs_extent_block_csum fs inum eh with inl _ => false | inr calculated => provided =? calculated end.
Definition ext2fs_extent_block_csum_set (fs : filsys) (inum : Z) (eh : list Z) : outcome (Z * list Z) :=
  if negb (ext2fs_has_feature_metadata_csum (super fs)) then Ret (0, eh) else
  match ext2fs_extent_block_csum fs inum eh with
  | inl e => Ret (e, eh)
  | inr crc => if negb (extent_tail_in eh) then Undef else Ret (0, st 4 eh (extent_tail_offset eh) crc)
  end.

(** ** Bitmaps: the checksum is in the group descriptor, in two halves *)
Definition bitmap_csum_verify (lo hi hi_end : Z) (fs : filsys) (group : Z) (bitmap : list Z) : outcome bool :=
  if negb (ext2fs_has_feature_metadata_csum (super fs)) then Ret true else
  provided ← desc_ld 2 fs group lo;
  let calculated := crc32c (csum_seed fs) bitmap in
  if hi_end <=? EXT2_DESC_SIZE (super fs) then
    h ← desc_ld 2 fs group hi; Ret (Z.lor provided (Z.shiftl h 16) =? calculated)
  else Ret (provided =? Z.land calculated 0xFFFF).
Definition bitmap_csum_set (lo hi hi_end : Z) (fs : filsys) (group : Z) (bitmap : list Z) : outcome filsys :=
  if negb (ext2fs_has_feature_metadata_csum (super fs)) then Ret fs else
  let crc := crc32c (csum_seed fs) bitmap in
  fs ← desc_st 2 fs group lo (Z.land crc 0xFFFF);
  if hi_end <=? EXT2_DESC_SIZE (super fs) then desc_st 2 fs group hi (Z.shiftr crc 16) else Ret fs.
Definition ext2fs_inode_bitmap_csum_verify : filsys → Z → list Z → outcome bool := bitmap_csum_verify 26 58 EXT4_BG_INODE_BITMAP_CSUM_HI_END.
Definition ext2fs_inode_bitmap_csum_set : filsys → Z → list Z → outcome filsys := bitmap_csum_set 26 58 EXT4_BG_INODE_BITMAP_CSUM_HI_END.
Definition ext2fs_block_bitmap_csum_verify : filsys → Z → list Z → outcome bool := bitmap_csum_verify 24 56 EXT4_BG_BLOCK_BITMAP_CSUM_HI_LOCATION.
Definition ext2fs_block_bitmap_csum_set : filsys → Z → list Z → outcome filsys := bitmap_csum_set 24 56 EXT4_BG_BLOCK_BITMAP_CSUM_HI_LOCATION.

(** ** Inodes *)
Definition ext2fs_inode_csum (fs : filsys) (inum : Z) (inode : list Z) (has_hi : bool) : Z :=
  let inode0 := st 2 inode 0x7C 0 in
  let inode0 := if has_hi then st 2 inode0 0x82 0 else inode0 in
  let gen := ld 4 inode0 0x64 in
  crc32c (inode_seed fs inum gen) (slice inode0 0 (Z.to_nat (EXT2_INODE_SIZE (super fs)))).
Definition inode_has_hi (fs : filsys) (inode : list Z) : bool :=
  (EXT2_GOOD_OLD_INODE_SIZE <? EXT2_INODE_SIZE (super fs)) && (4 <=? ld 2 inode 0x80).
Definition ext2fs_inode_csum_verify (fs : filsys) (inum : Z) (inode : list Z) : bool :=
  if negb (ext2fs_has_feature_metadata_csum (super fs)) then true else
  let has_hi := inode_has_hi fs inode in
  let provided := ld 2 inode 0x7C in
  let calculated := ext2fs_inode_csum fs inum inode has_hi in
  let '(provided, calculated) := if has_hi then (Z.lor provided (Z.shiftl (ld 2 inode 0x82) 16), calculated) else (provided, Z.land calculated 0xFFFF) in
  if provided =? calculated then true else forallb (λ c, c =? 0) (slice inode 0 128).
Definition ext2fs_inode_csum_set (fs : filsys) (inum : Z) (inode : list Z) : list Z :=
  if negb (ext2fs_has_feature_metadata_csum (super fs)) then inode else
  let has_hi := inode_has_hi fs inode in
  let crc := ext2fs_inode_csum fs inum inode has_hi in
  let inode := st 2 inode 0x7C (Z.land crc 0xFFFF) in
  if has_hi then st 2 inode 0x82 (Z.shiftr crc 16) else inode.

(** ** Group descriptors: CRC-32C with the checksum field zero, or the older
    CRC-16 that skips it *)
Definition ext2fs_has_group_desc_csum (fs : filsys) : bool := ext2fs_has_feature_metadata_csum (super fs) || ext2fs_has_feature_gdt_csum (super fs).
Definition ext2fs_group_desc_csum (fs : filsys) (group : Z) : outcome Z :=
  let size := EXT2_DESC_SIZE (super fs) in
  o ← desc_at (Z.to_nat size) fs group 0;
  let desc := slice (group_desc fs) (Z.to_nat o) (Z.to_nat size) in
  if ext2fs_has_feature_metadata_csum (super fs) then
    let crc32 := crc32c (csum_seed fs) (le_of 4 group) in
    let crc32 := crc32c crc32 (st 2 desc 30 0) in
    Ret (Z.land crc32 0xFFFF)
  else
    let crc := u16 (ext2fs_crc16 0xffffffff (s_uuid (super fs))) in
    let crc := u16 (ext2fs_crc16 crc (le_of 4 group)) in
    let crc := u16 (ext2fs_crc16 crc (slice desc 0 30)) in
    Ret (if 32 <? size then u16 (ext2fs_crc16 crc (slice desc 32 (Z.to_nat (size - 32)))) else crc).
Definition ext2fs_group_desc_csum_verify (fs : filsys) (group : Z) : outcome bool :=
  if ext2fs_has_group_desc_csum fs then
    stored ← ext2fs_bg_checksum fs group;
    calculated ← ext2fs_group_desc_csum fs group;
    Ret (stored =? calculated)
  else Ret true.
Definition ext2fs_group_desc_csum_set (fs : filsys) (group : Z) : outcome filsys :=
  if negb (ext2fs_has_group_desc_csum fs) then Ret fs else
  crc ← ext2fs_group_desc_csum fs group;
  ext2fs_bg_checksum_set fs group crc.
(** ext2fs_set_gdt_csum: flags, unused inodes and checksum of every group, from
    the bitmap of used inodes *)
Fixpoint last_used (inode_used : Z → bool) (start_ino : Z) (k : nat) : option Z :=
  match k with
  | O => None
  | S k => if inode_used (start_ino + Z.of_nat k) then Some (Z.of_nat k + 1) else last_used inode_used start_ino k
  end.
Definition find_last_inode_ingrp (inode_used : Z → bool) (inodes_per_grp grp_no : Z) : Z :=
  let start_ino := u32 (grp_no * inodes_per_grp + 1) in
  let end_ino := u32 (start_ino + inodes_per_grp - 1) in
  default inodes_per_grp (last_used inode_used start_ino (Z.to_nat (end_ino - start_ino + 1))).
Definition gdt_group (inode_used : Z → bool) (fs : filsys) (i : Z) : outcome (filsys * bool) :=
  let sb := super fs in
  old_csum ← ext2fs_bg_checksum fs i;
  old_unused ← ext2fs_bg_itable_unused fs i;
  old_flags ← ext2fs_bg_flags fs i;
  old_free_inodes_count ← ext2fs_bg_free_inodes_count fs i;
  old_free_blocks_count ← ext2fs_bg_free_blocks_count fs i;
  fs ← (if (old_free_blocks_count =? s_blocks_per_group sb) && negb (i =? group_desc_count fs - 1) then ext2fs_bg_flags_set fs i EXT2_BG_BLOCK_UNINIT else Ret fs);
  fs ← (if old_free_inodes_count =? s_inodes_per_group sb then
          fs ← ext2fs_bg_flags_set fs i EXT2_BG_INODE_UNINIT;
          ext2fs_bg_itable_unused_set fs i (s_inodes_per_group sb)
        else
          let unused := s_inodes_per_group sb - find_last_inode_ingrp inode_used (s_inodes_per_group sb) i in
          fs ← ext2fs_bg_flags_clear fs i EXT2_BG_INODE_UNINIT;
          ext2fs_bg_itable_unused_set fs i unused);
  fs ← ext2fs_group_desc_csum_set fs i;
  new_flags ← ext2fs_bg_flags fs i;
  new_unused ← ext2fs_bg_itable_unused fs i;
  new_csum ← ext2fs_bg_checksum fs i;
  Ret (fs, negb (old_flags =? new_flags) || negb (old_unused =? new_unused) || negb (old_csum =? new_csum)).
Fixpoint gdt_groups (inode_used : Z → bool) (gs : list Z) (fs : filsys) (dirty : bool) : outcome (filsys * bool) :=
  match gs with
  | [] => Ret (fs, dirty)
  | i :: gs => gdt_group inode_used fs i ≫= λ r : filsys * bool, gdt_groups inode_used gs r.1 (dirty || r.2)
  end.
Definition ext2fs_set_gdt_csum (inode_map : option (Z → bool)) (fs : filsys) : outcome (Z * filsys) :=
  match inode_map with
  | None => Ret (EXT2_ET_NO_INODE_BITMAP, fs)
  | Some inode_used =>
    if negb (ext2fs_has_group_desc_csum fs) then Ret (0, fs) else
    gdt_groups inode_used (seqZ 0 (group_desc_count fs)) fs false ≫= λ r : filsys * bool,
    Ret (0, if r.2 then ext2fs_mark_super_dirty r.1 else r.1)
  end.
End checksums.

(** ** Checksums do not depend on addresses *)
Lemma crc32c_val place c b : 0 <= c < 2 ^ 32 → bytes b → crc32c place c b = crc_le_bitwise CRC32C_POLY_LE c b.
Proof. apply crc32c_le_bitwise. Qed.
Lemma crc32c_range place c b : 0 <= c < 2 ^ 32 → bytes b → 0 <= crc32c place c b < 2 ^ 32.
Proof. intros. rewrite crc32c_val by done. by apply bitwise_keeps. Qed.
Lemma crc32c_place place place' c c' b b' : c = c' → b = b' → 0 <= c < 2 ^ 32 → bytes b → crc32c place c b = crc32c place' c' b'.
Proof. intros <- <- Hc Hb. by rewrite !crc32c_val. Qed.
Lemma inode_seed_range place fs inum gen : 0 <= csum_seed fs < 2 ^ 32 → 0 <= inode_seed place fs inum gen < 2 ^ 32.
Proof. intros. apply crc32c_range; [|apply bytes_le_of]. by apply crc32c_range; [|apply bytes_le_of]. Qed.
Lemma inode_seed_place place place' fs inum gen : 0 <= csum_seed fs < 2 ^ 32 → inode_seed place fs inum gen = inode_seed place' fs inum gen.
Proof.
  intros. unfold inode_seed. apply crc32c_place; [|done|by apply crc32c_range; [|apply bytes_le_of]|apply bytes_le_of]. by apply crc32c_place; [| | |apply bytes_le_of].
Qed.
Lemma word_st b o v : 0 <= o → o + 4 <= Z.of_nat (length b) → 0 <= v < 2 ^ 32 → ld 4 (st 4 b o v) o = v.
Proof. intros. rewrite ld_st_same by lia. by apply Z.mod_small. Qed.
Lemma half_st b o v : 0 <= o → o + 2 <= Z.of_nat (length b) → ld 2 (st 2 b o v) o = v mod 2 ^ 16.
Proof. intros. by rewrite ld_st_same by lia. Qed.
(** the halves of a word *)
Lemma halves c : 0 <= c < 2 ^ 32 → Z.lor (Z.land c 0xFFFF mod 2 ^ 16) (Z.shiftl (Z.shiftr c 16 mod 2 ^ 16) 16) = c ∧ Z.land c 0xFFFF mod 2 ^ 16 = Z.land c 0xFFFF.
Proof.
  intros Hc. change 0xFFFF with (Z.ones 16). rewrite Z.land_ones, Z.mod_mod by lia. split; [|done]. rewrite lor_shiftl by zdm. rewrite Z.shiftr_div_pow2 by lia. zdm.
Qed.
(** a field stored twice *)
Lemma st_st n b o v w : 0 <= o → o + Z.of_nat n <= Z.of_nat (length b) → st n (st n b o v) o w = st n b o w.
Proof.
  intros Ho Hl. apply list_eq. intros i. unfold st. assert (length (splice b (Z.to_nat o) (le_of n v)) = length b) as L by (apply length_splice; rewrite length_le_of; lia).
  destruct (decide (Z.to_nat o ≤ i < Z.to_nat o + n)%nat) as [Hi|Hi].
  - rewrite !lookup_splice_in by (rewrite ?L, ?length_le_of; lia). done.
  - rewrite !lookup_splice_out by (rewrite ?L, ?length_le_of; lia). done.
Qed.
Lemma st_comm n m b o p v w : 0 <= o → 0 <= p → o + Z.of_nat n <= Z.of_nat (length b) → p + Z.of_nat m <= Z.of_nat (length b) → (o + Z.of_nat n <= p ∨ p + Z.of_nat m <= o) →
  st n (st m b p w) o v = st m (st n b o v) p w.
Proof.
  intros Ho Hp Hl Hl' Hd. apply list_eq. intros i. unfold st. assert (∀ k q x, (q + k ≤ length b)%nat → length (splice b q (le_of k x)) = length b) as L by (intros; apply length_splice; rewrite length_le_of; lia).
  destruct (decide (Z.to_nat o ≤ i < Z.to_nat o + n)%nat) as [Hi|Hi]; [|destruct (decide (Z.to_nat p ≤ i < Z.to_nat p + m)%nat) as [Hj|Hj]].
  - rewrite (lookup_splice_in _ (Z.to_nat o)), (lookup_splice_out _ (Z.to_nat p)), (lookup_splice_in _ (Z.to_nat o)) by (rewrite ?L, ?length_le_of; lia). done.
  - rewrite (lookup_splice_out _ (Z.to_nat o)), (lookup_splice_in _ (Z.to_nat p)), (lookup_splice_in _ (Z.to_nat p)) by (rewrite ?L, ?length_le_of; lia). done.
  - rewrite !lookup_splice_out by (rewrite ?L, ?length_le_of; lia). done.
Qed.

(** ** Set, then verify *)
Section verified.
Context (place place' : Z → list Z → Z) (read_inode : Z → Z + Z) (fs : filsys) (Hseed : 0 <= csum_seed fs < 2 ^ 32).
Lemma mmp_verifies mmp : length mmp = 1024%nat → bytes mmp → ext2fs_mmp_csum_verify place' fs (ext2fs_mmp_csum_set place fs mmp) = true.
Proof.
  intros Hl Hb. unfold ext2fs_mmp_csum_verify, ext2fs_mmp_csum_set. destruct (ext2fs_has_feature_metadata_csum _); [|done]. cbv zeta. cbn [negb]. apply Z.eqb_eq. unfold ext2fs_mmp_csum.
  rewrite word_st by (first [lia|apply crc32c_range; [done|by apply bytes_slice]]). rewrite slice_st_other by lia. by apply crc32c_place; [| | |apply bytes_slice].
Qed.
Lemma superblock_verifies sb : length sb = 1024%nat → bytes sb → ext2fs_superblock_csum_verify place' fs (ext2fs_superblock_csum_set place fs sb) = true.
Proof.
  intros Hl Hb. unfold ext2fs_superblock_csum_verify, ext2fs_superblock_csum_set. cbv zeta. destruct (has _ _); [|done]. cbn [negb]. apply Z.eqb_eq. unfold ext2fs_superblock_csum.
  rewrite word_st by (first [lia|apply crc32c_range; [lia|by apply bytes_slice]]). rewrite slice_st_other by lia. by apply crc32c_place; [| |lia|apply bytes_slice].
Qed.
Lemma ext_attr_verifies block hdr : Z.of_nat (length hdr) = blocksize fs → 20 <= blocksize fs → bytes hdr →
  ext2fs_ext_attr_block_csum_verify place' fs block (ext2fs_ext_attr_block_csum_set place fs block hdr) = true.
Proof.
  intros Hl H20 Hb. unfold ext2fs_ext_attr_block_csum_verify, ext2fs_ext_attr_block_csum_set. destruct (ext2fs_has_feature_metadata_csum _); [|done]. cbv zeta. cbn [negb]. apply Z.eqb_eq. unfold ext2fs_ext_attr_block_csum.
  assert (∀ pl, 0 <= crc32c pl (csum_seed fs) (le_of 8 block) < 2 ^ 32) as H1 by (intros; by apply crc32c_range; [|apply bytes_le_of]).
  assert (bytes (slice (st 4 hdr 16 0) 0 (Z.to_nat (blocksize fs)))) as H2 by (apply bytes_slice, bytes_st; done).
  rewrite word_st by (first [lia|by apply crc32c_range]). rewrite st_st by lia. apply crc32c_place; [|done|done|done]. by apply crc32c_place; [| | |apply bytes_le_of].
Qed.
Lemma extent_verifies inum eh eh' : bytes eh → ext2fs_extent_block_csum_set place read_inode fs inum eh = Ret (0, eh') → read_inode inum ≠ inl 0 →
  ext2fs_extent_block_csum_verify place' read_inode fs inum eh' = Ret true.
Proof.
  intros Hb. unfold ext2fs_extent_block_csum_verify, ext2fs_extent_block_csum_set. destruct (ext2fs_has_feature_metadata_csum _); cbn [negb]; [|done].
  unfold ext2fs_extent_block_csum. destruct (read_inode inum) as [e|gen]; [intros [= -> ->]; done|]. destruct (extent_tail_in eh) eqn:Ht; [|done]. intros [= <-] _. apply Z.leb_le in Ht.
  assert (12 <= extent_tail_offset eh) as H12. { unfold extent_tail_offset, ld. pose proof (le_to_bound _ (bytes_slice eh (Z.to_nat 4) 2 Hb)). lia. }
  set (crc := crc32c _ _ _). assert (0 <= crc < 2 ^ 32) as Hc by (apply crc32c_range; [by apply inode_seed_range|by apply bytes_slice]).
  assert (extent_tail_offset (st 4 eh (extent_tail_offset eh) crc) = extent_tail_offset eh) as E by (unfold extent_tail_offset at 1; rewrite ld_st_other by lia; done).
  unfold extent_tail_in. rewrite E, length_st by lia. btrue. cbn [negb]. cbv zeta. rewrite word_st by (done || lia). do 2 f_equal. apply Z.eqb_eq. rewrite slice_st_other by lia.
  apply crc32c_place; [by apply inode_seed_place|done|by apply inode_seed_range|by apply bytes_slice].
Qed.
Lemma inode_verifies inum inode : EXT2_INODE_SIZE (super fs) <= Z.of_nat (length inode) → 128 <= Z.of_nat (length inode) → (128 < EXT2_INODE_SIZE (super fs) → 132 <= EXT2_INODE_SIZE (super fs)) → bytes inode →
  ext2fs_inode_csum_verify place' fs inum (ext2fs_inode_csum_set place fs inum inode) = true.
Proof.
  intros Hl H128 H132 Hb. unfold ext2fs_inode_csum_verify, ext2fs_inode_csum_set. destruct (ext2fs_has_feature_metadata_csum _); [|done]. cbv zeta. cbn [negb]. destruct (inode_has_hi fs inode) eqn:Hh.
  - assert (132 <= Z.of_nat (length inode)) as L. { unfold inode_has_hi, EXT2_GOOD_OLD_INODE_SIZE in Hh. breflect. lia. }
    set (crc := ext2fs_inode_csum place fs inum inode true). set (i1 := st 2 inode 0x7C (Z.land crc 0xFFFF)). assert (length i1 = length inode) as L1 by (apply length_st; lia).
    set (i2 := st 2 i1 0x82 (Z.shiftr crc 16)). assert (inode_has_hi fs i2 = true) as ->. { rewrite <-Hh. unfold inode_has_hi, i2. rewrite ld_st_other by (rewrite ?L1; lia). unfold i1. by rewrite ld_st_other by lia. }
    assert (0 <= crc < 2 ^ 32) as Hc by (apply crc32c_range; [by apply inode_seed_range|apply bytes_slice; repeat apply bytes_st; done]).
    assert (ext2fs_inode_csum place' fs inum i2 true = crc) as ->.
    { unfold crc, ext2fs_inode_csum. cbv zeta. assert (st 2 (st 2 i2 124 0) 130 0 = st 2 (st 2 inode 124 0) 130 0) as ->.
      { unfold i2. rewrite (st_comm 2 2 i1 124 130) by (rewrite ?L1; lia). rewrite st_st by first [lia|rewrite length_st by (rewrite ?L1; lia); rewrite L1; lia]. unfold i1. by rewrite st_st by lia. }
      apply crc32c_place; [by apply inode_seed_place|done|by apply inode_seed_range|apply bytes_slice; repeat apply bytes_st; done]. }
    unfold i2 at 2. rewrite half_st by (rewrite ?L1; lia). unfold i2 at 1. rewrite ld_st_other by (rewrite ?L1; lia). unfold i1 at 1. rewrite half_st by lia. destruct (halves crc Hc) as [-> _]. by rewrite Z.eqb_refl.
  - set (crc := ext2fs_inode_csum place fs inum inode false). set (i1 := st 2 inode 0x7C (Z.land crc 0xFFFF)). assert (inode_has_hi fs i1 = false) as ->.
    { rewrite <-Hh. unfold inode_has_hi, EXT2_GOOD_OLD_INODE_SIZE, i1. destruct (Z.ltb_spec 128 (EXT2_INODE_SIZE (super fs))); [|done]. by rewrite ld_st_other by lia. }
    assert (0 <= crc < 2 ^ 32) as Hc by (apply crc32c_range; [by apply inode_seed_range|apply bytes_slice; repeat apply bytes_st; done]).
    assert (ext2fs_inode_csum place' fs inum i1 false = crc) as ->.
    { unfold crc, ext2fs_inode_csum, i1. cbv zeta. rewrite st_st by lia. apply crc32c_place; [by apply inode_seed_place|done|by apply inode_seed_range|apply bytes_slice; repeat apply bytes_st; done]. }
    unfold i1 at 1. rewrite half_st by lia. destruct (halves crc Hc) as [_ ->]. by rewrite Z.eqb_refl.
Qed.
(** leaves *)
Lemma walk_ext fuel block block' d top : (∀ p, 0 <= p → p + 2 <= top + 8 → ld 2 block' p = ld 2 block p) → 0 <= d → dirent_walk fuel block' d top = dirent_walk fuel block d top.
Proof.
  intros Hp. revert d. induction fuel as [|fuel IH]; intros d Hd; [done|]. cbn [dirent_walk]. destruct (Z.ltb_spec d top); [|done]. rewrite Hp by lia. cbv zeta. case_if; [done|].  apply IH. lia.
Qed.
Lemma walk_total fuel block d top : top - d < 8 * Z.of_nat fuel → dirent_walk (S fuel) block d top ≠ Loop.
Proof.
  revert d. induction fuel as [|fuel IH]; intros d Hd; cbn [dirent_walk]; cbv zeta.
  - rewrite (proj2 (Z.ltb_ge d top)) by lia. done.
  - destruct (Z.ltb_spec d top); [|done]. case_if; [done|].  apply IH. lia.
Qed.
(** the search for the tail of a leaf ends *)
Lemma get_dirent_tail_total block : ∃ r, get_dirent_tail fs block = Ret r.
Proof.
  unfold get_dirent_tail. destruct (Z.ltb_spec (blocksize fs) 1024); [by eexists|]. pose proof (walk_total (Z.to_nat (blocksize fs) - 1) block 0 (blocksize fs - 12)) as Ht.
  replace (S (Z.to_nat (blocksize fs) - 1)) with (Z.to_nat (blocksize fs)) in Ht by lia. destruct (dirent_walk _ _ _ _) as [w| |] eqn:E; [by eexists| |]; [|exfalso; apply Ht; [lia|done]].
  exfalso. clear Ht. revert E. generalize (Z.to_nat (blocksize fs)) as n, 0 as d. induction n as [|n IH]; intros d; cbn [dirent_walk]; [done|]. cbv zeta. repeat case_if; try done. apply IH.
Qed.
Lemma tail_offset block t : get_dirent_tail fs block = Ret (inr t) → t = blocksize fs - 12 ∧ 1024 <= blocksize fs.
Proof.
  unfold get_dirent_tail. destruct (Z.ltb_spec (blocksize fs) 1024); [done|]. destruct (dirent_walk _ _ _ _) as [[e|d]| |]; ostep; try done. repeat case_if; try done. breflect. intros [= <-]. lia.
Qed.
Lemma leaf_tail_st block t v : Z.of_nat (length block) = blocksize fs → get_dirent_tail fs block = Ret (inr t) → get_dirent_tail fs (st 4 block (t + 8) v) = Ret (inr t).
Proof.
  intros Hl Ht. destruct (tail_offset _ _ Ht) as [-> Hbs]. rewrite <-Ht. unfold get_dirent_tail. case_if; [done|]. cbv zeta. rewrite (walk_ext _ block) by (first [lia|intros; rewrite ld_st_other by lia; done]).
  destruct (dirent_walk _ _ _ _) as [[e|d]| |]; ostep; try done. do 2 f_equal. case_if; [done|]. destruct (Z.eqb_spec d (blocksize fs - 12)) as [->|]; [|done]. cbn [negb]. rewrite !ld_st_other by lia. done.
Qed.
(** htree nodes *)
Lemma walk_one fuel block d top : d < top → dirent_walk (S fuel) block d top =
  if (ld 2 block (d + 4) <? 8) || has (ld 2 block (d + 4)) 3 then Ret (inl EXT2_ET_DIR_CORRUPTED) else dirent_walk fuel block (d + ld 2 block (d + 4)) top.
Proof. intros. cbn [dirent_walk]. by rewrite (proj2 (Z.ltb_lt d top)). Qed.
Lemma node_not_leaf block co : get_dx_countlimit fs block = inr co → ∃ e, get_dirent_tail fs block = Ret (inl e).
Proof.
  unfold get_dx_countlimit, get_dirent_tail. destruct (Z.ltb_spec (blocksize fs) 1024) as [|Hbs]; [by eexists|]. cbv zeta. intros Hc.
  assert (∀ w, (∃ e, w = Ret (inl e)) ∨ w = Ret (inr (blocksize fs)) → ∃ e, (w ≫= λ w, Ret match w with inl e => inl e | inr d =>
    if blocksize fs <? d then inl EXT2_ET_DIR_CORRUPTED else if negb (d =? blocksize fs - 12) then inl EXT2_ET_DIR_NO_SPACE_FOR_CSUM else
    if negb (ld 4 block d =? 0) || negb (ld 2 block (d + 4) =? 12) || negb (ld 2 block (d + 6) =? 56832) then inl EXT2_ET_DIR_NO_SPACE_FOR_CSUM else inr d end) = Ret (inl e)) as Hend.
  { intros w [[e ->]| ->]; [by exists e|]. ostep. eexists. rewrite (proj2 (Z.ltb_ge _ _)) by lia. rewrite (proj2 (Z.eqb_neq (blocksize fs) (blocksize fs - 12))) by lia. done. }
  apply Hend. clear Hend. assert (∃ n, Z.to_nat (blocksize fs) = S (S (S n))) as [n ->] by (exists (Z.to_nat (blocksize fs) - 3)%nat; lia).
  assert (∀ d, blocksize fs - 12 <= d → dirent_walk (S n) block d (blocksize fs - 12) = Ret (inr d)) as Hstop by (intros d Hd; cbn [dirent_walk]; by rewrite (proj2 (Z.ltb_ge _ _))).
  rewrite walk_one by lia. destruct ((_ <? 8) || _) eqn:E0; [left; by eexists|]. replace (0 + 4) with 4 in * by lia. rewrite Z.add_0_l. destruct (Z.eqb_spec (ld 2 block 4) (blocksize fs)) as [Er|Hn].
  - right. rewrite Er. cbn [dirent_walk]. by rewrite (proj2 (Z.ltb_ge _ _)) by lia.
  - cbn [andb] in Hc. destruct (Z.eqb_spec (ld 2 block 4) 12) as [Er|]; [|done]. rewrite Er in *. rewrite walk_one by lia. change (12 + 4) with 16. clear E0. destruct ((_ <? 8) || _) eqn:E2; [left; by eexists|].
    destruct (Z.eqb_spec (ld 2 block 16) (blocksize fs - 12)) as [Er2|]; [|done]. rewrite Er2. replace (12 + (blocksize fs - 12)) with (blocksize fs) by lia. right. apply Hstop. lia.
Qed.
Lemma countlimit_offset block co : get_dx_countlimit fs block = inr co → co = 8 ∨ co = 32.
Proof. unfold get_dx_countlimit. cbv zeta. repeat case_if; try done; cbn iota; repeat case_if; try done; intros [= <-]; auto. Qed.
Lemma countlimit_st block co p v : get_dx_countlimit fs block = inr co → co + 4 <= p → p + 4 <= Z.of_nat (length block) → get_dx_countlimit fs (st 4 block p v) = inr co.
Proof.
  intros Hc Hp Hl. destruct (countlimit_offset _ _ Hc) as [-> | ->]; rewrite <-Hc; unfold get_dx_countlimit in *; cbv zeta in *.
  - rewrite (ld_st_other 4 2 block p v 4), (ld_st_other 4 2 block p v 6) by lia. destruct ((_ =? _) && _); [by rewrite !ld_st_other by lia|]. exfalso. repeat case_match; simplify_eq.
  - rewrite (ld_st_other 4 2 block p v 4), (ld_st_other 4 2 block p v 6), (ld_st_other 4 2 block p v 16), (ld_st_other 4 4 block p v 24), (ld_st_other 4 1 block p v 29) by lia.
    destruct ((_ =? _) && _); [exfalso; repeat case_match; simplify_eq|]. destruct (_ =? 12); [|done]. destruct (negb _); [done|]. destruct (_ || _); [done|]. by rewrite !ld_st_other by lia.
Qed.
Lemma leaf_verifies inum block block' t : Z.of_nat (length block) = blocksize fs → bytes block → get_dirent_tail fs block = Ret (inr t) → read_inode inum ≠ inl 0 →
  ext2fs_dirent_csum_set place read_inode fs inum block = Ret (0, block') → get_dirent_tail fs block' = Ret (inr t) ∧ ext2fs_dirent_csum_verify place' read_inode fs inum block' = Ret true.
Proof.
  intros Hl Hb Ht Hr. destruct (tail_offset _ _ Ht) as [Et Hbs]. unfold ext2fs_dirent_csum_set, ext2fs_dirent_csum_verify, ext2fs_dirent_csum. rewrite Ht. ostep.
  destruct (read_inode inum) as [e|gen]; [intros [= -> ->]; done|]. set (crc := crc32c _ _ _). intros [= <-]. pose proof (leaf_tail_st block t crc Hl Ht) as E. split; [done|]. rewrite E. ostep.
  do 2 f_equal. apply Z.eqb_eq. assert (0 <= crc < 2 ^ 32) by (apply crc32c_range; [by apply inode_seed_range|by apply bytes_slice]). rewrite word_st by lia. rewrite slice_st_other by lia.
  apply crc32c_place; [by apply inode_seed_place|done|by apply inode_seed_range|by apply bytes_slice].
Qed.
#[local] Opaque inode_seed.
Lemma node_verifies inum block block' co : Z.of_nat (length block) = blocksize fs → bytes block → get_dx_countlimit fs block = inr co → ld 2 block (co + 2) <= ld 2 block co → read_inode inum ≠ inl 0 →
  ext2fs_dx_csum_set place read_inode fs inum block = (0, block') → get_dx_countlimit fs block' = inr co ∧ ext2fs_dx_csum_verify place' read_inode fs inum block' = true.
Proof.
  intros Hl Hb Hc Hle Hr. pose proof (countlimit_offset _ _ Hc) as Hco. unfold ext2fs_dx_csum_set, ext2fs_dx_csum_verify, ext2fs_dx_csum. rewrite Hc. cbv zeta. case_if; [done|].
  destruct (read_inode inum) as [e|gen]; [intros [= -> ->]; done|]. cbv zeta. set (crc := crc32c _ _ _). intros [= <-]. set (limit := ld 2 block co) in *. set (t := co + limit * 8) in *.
  assert (0 <= ld 2 block (co + 2) ∧ 0 <= limit) as [Hc0 Hl0] by (split; unfold limit, ld; pose proof (le_to_bound _ (bytes_slice block (Z.to_nat co) 2 Hb)); pose proof (le_to_bound _ (bytes_slice block (Z.to_nat (co + 2)) 2 Hb)); lia).
  assert (0 <= crc < 2 ^ 32) as Hcr by (repeat (apply crc32c_range; [|first [by apply bytes_slice|apply bytes_le_of]]); by apply inode_seed_range).
  pose proof (countlimit_st block co (t + 4) crc Hc ltac:(lia) ltac:(lia)) as Hc'. split; [done|]. rewrite Hc'. rewrite (ld_st_other 4 2 block (t + 4) crc co), (ld_st_other 4 2 block (t + 4) crc (co + 2)) by lia.
  fold limit. rewrite (proj2 (Z.ltb_ge _ _)) by lia. cbv zeta. fold t. rewrite word_st by (done || lia). apply Z.eqb_eq. rewrite !slice_st_other by lia.
  assert (∀ pl, 0 <= inode_seed pl fs inum gen < 2 ^ 32) as Hs by (intros; by apply inode_seed_range).
  unfold crc. repeat apply crc32c_place; first [done|by apply inode_seed_place|by apply bytes_slice|apply bytes_le_of|apply Hs|repeat (apply crc32c_range; [|by apply bytes_slice]); apply Hs].
Qed.
Lemma dir_block_verifies inum block block' : Z.of_nat (length block) = blocksize fs → bytes block → has (flags fs) EXT2_FLAG_IGNORE_CSUM_ERRORS = false → read_inode inum ≠ inl 0 →
  (∀ co, get_dx_countlimit fs block = inr co → ld 2 block (co + 2) <= ld 2 block co) →
  ext2fs_dir_block_csum_set place read_inode fs inum block = Ret (0, block') → ext2fs_dir_block_csum_verify place' read_inode fs inum block' = Ret true.
Proof.
  intros Hl Hb Hig Hr Hle. unfold ext2fs_dir_block_csum_set, ext2fs_dir_block_csum_verify. destruct (ext2fs_has_feature_metadata_csum _); cbn [negb]; [|done].
  destruct (get_dirent_tail_total block) as [[e|t] Ht]; rewrite Ht; ostep; cbn [is_ok].
  - destruct (get_dx_countlimit fs block) as [e'|co] eqn:Hc; cbn [is_ok]; [rewrite Hig; done|]. intros [= Es]. destruct (node_verifies inum block block' co Hl Hb Hc ltac:(by apply Hle) Hr Es) as [Hc' Hv].
    destruct (node_not_leaf _ _ Hc') as [e' ->]. ostep. cbn [is_ok]. by rewrite Hc', Hv.
  - intros Es. destruct (leaf_verifies inum block block' t Hl Hb Ht Hr Es) as [Ht' Hv]. rewrite Ht'. ostep. cbn [is_ok]. exact Hv.
Qed.
End verified.

(** ** The table as a list of descriptors *)
Definition desc (fs : filsys) (g : Z) : list Z := slice (group_desc fs) (Z.to_nat (g * EXT2_DESC_SIZE (super fs))) (Z.to_nat (EXT2_DESC_SIZE (super fs))).
Lemma ld_slice n b p k off : 0 <= off → 0 <= p → off + Z.of_nat n <= Z.of_nat k → ld n (slice b (Z.to_nat p) k) off = ld n b (p + off).
Proof.
  intros. unfold ld. f_equal. apply list_eq. intros i. unfold slice. destruct (decide (i < n)%nat); [|by rewrite !lookup_take_ge by lia].
  rewrite !lookup_take_lt, !lookup_drop, lookup_take_lt, lookup_drop by lia. f_equal. lia.
Qed.
Lemma slice_st_in n b p k off v : 0 <= off → 0 <= p → off + Z.of_nat n <= Z.of_nat k → p + Z.of_nat k <= Z.of_nat (length b) →
  slice (st n b (p + off) v) (Z.to_nat p) k = st n (slice b (Z.to_nat p) k) off v.
Proof.
  intros Ho Hp Hn Hl. apply list_eq. intros i. destruct (decide (i < k)%nat) as [Hi|Hi].
  - rewrite lookup_slice by done. unfold st. destruct (decide (Z.to_nat off ≤ i < Z.to_nat off + n)%nat).
    + rewrite !lookup_splice_in by (rewrite ?length_slice, ?length_le_of by lia; lia). f_equal. lia.
    + rewrite !lookup_splice_out by (rewrite ?length_slice, ?length_le_of by lia; lia). by rewrite lookup_slice.
  - rewrite !lookup_ge_None_2; [done|rewrite length_st by (rewrite ?length_slice by lia; lia); rewrite length_slice by lia; lia|]. unfold slice. rewrite length_take. lia.
Qed.
(** [fs'] differs from [fs] in the descriptor of [g] only, which is [d] *)
Record only_group (fs fs' : filsys) (g : Z) (d : list Z) : Prop := {
  og_fs : fs' = set_gdt fs (group_desc fs');
  og_ok : gdt_ok fs';
  og_desc : desc fs' g = d;
  og_other g' : 0 <= g' < group_desc_count fs → g' ≠ g → desc fs' g' = desc fs g'
}.
Lemma only_group_refl fs g : gdt_ok fs → only_group fs fs g (desc fs g).
Proof. intros. split; [by destruct fs|done..]. Qed.
Lemma only_group_trans fs fs1 fs2 g d1 d2 : only_group fs fs1 g d1 → only_group fs1 fs2 g d2 → only_group fs fs2 g d2.
Proof.
  intros [E1 O1 D1 N1] [E2 O2 D2 N2]. split; [|done|done|].
  - rewrite E2, E1. done.
  - intros g' Hg' Hn. rewrite N2 by (try done; by rewrite E1). by apply N1.
Qed.
Section group.
Context (fs : filsys) (Hf : gdt_ok fs) (g : Z) (Hg : 0 <= g < group_desc_count fs).
Notation size := (EXT2_DESC_SIZE (super fs)).
Lemma length_desc : Z.of_nat (length (desc fs g)) = size.
Proof. pose proof (size_32 fs Hf). destruct (desc_in fs Hf g 0 size Hg ltac:(lia) ltac:(lia)). unfold desc. rewrite length_slice; lia. Qed.
Lemma bytes_desc : bytes (desc fs g).
Proof. apply bytes_slice, Hf. Qed.
Lemma desc_ld_desc n off : 0 <= off → off + Z.of_nat n <= size → desc_ld n fs g off = Ret (ld n (desc fs g) off).
Proof. intros. pose proof (size_32 fs Hf). rewrite desc_ld_Ret by done. f_equal. unfold desc. rewrite ld_slice by (try lia; nia). done. Qed.
Lemma desc_st_desc n off v : 0 <= off → off + Z.of_nat n <= size → ∃ fs', desc_st n fs g off v = Ret fs' ∧ only_group fs fs' g (st n (desc fs g) off v).
Proof.
  intros Ho Hn. pose proof (size_32 fs Hf). destruct (desc_in fs Hf g 0 size Hg ltac:(lia) ltac:(lia)). rewrite desc_st_Ret by done. eexists. split; [done|]. split.
  - done.
  - apply gdt_ok_st; [done|nia|lia].
  - unfold desc. cbn [group_desc super set_gdt]. rewrite slice_st_in by (try lia; nia). done.
  - intros g' Hg' Hne. destruct (desc_in fs Hf g' 0 size Hg' ltac:(lia) ltac:(lia)). unfold desc. cbn [group_desc super set_gdt]. apply slice_st_other; [nia| |lia].
    destruct (desc_apart fs Hf g g' off 0 (Z.of_nat n) size ltac:(lia) ltac:(lia) Ho ltac:(lia) Hn ltac:(lia) ltac:(by left)); [left|right]; lia.
Qed.
(** a split field of the descriptor *)
Definition split_ld (d : list Z) (n : nat) (lo hi : Z) : Z :=
  if ext2fs_has_feature_64bit (super fs) then Z.lor (ld n d lo) (Z.shiftl (ld n d hi) (8 * Z.of_nat n)) else ld n d lo.
Lemma desc_get_desc n lo hi : 0 <= lo → 0 <= hi → lo + Z.of_nat n <= 32 → hi + Z.of_nat n <= 64 → desc_get n fs g lo hi = Ret (split_ld (desc fs g) n lo hi).
Proof.
  intros. pose proof (size_32 fs Hf). pose proof (gk_size _ Hf) as Hsz. unfold desc_get, split_ld. rewrite (desc_ld_desc n lo) by lia. ostep. destruct (ext2fs_has_feature_64bit (super fs)); [|done].
  by rewrite (desc_ld_desc n hi) by lia.
Qed.
Lemma flags_op f : ∃ fs', (b ← desc_ld 2 fs g 18; desc_st 2 fs g 18 (f b)) = Ret fs' ∧ ∃ d, only_group fs fs' g d.
Proof.
  pose proof (size_32 fs Hf). rewrite desc_ld_desc by lia. ostep. destruct (desc_st_desc 2 18 (f (ld 2 (desc fs g) 18))) as (fs' & E & O); [lia|lia|]. exists fs'. split; [done|]. by eexists.
Qed.
End group.
Lemma og_super fs fs' g d : only_group fs fs' g d → super fs' = super fs ∧ csum_seed fs' = csum_seed fs ∧ group_desc_count fs' = group_desc_count fs.
Proof. intros [E _ _ _]. by rewrite E. Qed.
(** a count of two halves is stored *)
Lemma split_set fs g lo hi v : gdt_ok fs → 0 <= g < group_desc_count fs → 0 <= lo → lo + 2 <= 32 → 32 <= hi → hi + 2 <= 64 → 0 <= v < (if ext2fs_has_feature_64bit (super fs) then 2 ^ 32 else 2 ^ 16) →
  ∃ fs' d, desc_set 2 fs g lo hi v = Ret fs' ∧ only_group fs fs' g d ∧ split_ld fs d 2 lo hi = v.
Proof.
  intros Hf Hg Hlo Hlo' Hhi Hhi' Hv. pose proof (size_32 fs Hf). pose proof (gk_size _ Hf) as Hsz. pose proof (length_desc fs Hf g Hg) as Hl. unfold desc_set.
  destruct (desc_st_desc fs Hf g Hg 2 lo v) as (fs1 & E1 & O1); [lia|lia|]. rewrite E1. ostep. destruct (og_super _ _ _ _ O1) as (Es & _ & Ec). rewrite Es. unfold split_ld.
  destruct (ext2fs_has_feature_64bit (super fs)).
  - destruct (desc_st_desc fs1 (og_ok _ _ _ _ O1) g ltac:(by rewrite Ec) 2 hi (Z.shiftr v 16)) as (fs2 & E2 & O2); [lia|rewrite Es; lia|]. exists fs2, (st 2 (desc fs1 g) hi (Z.shiftr v 16)).
    split; [exact E2|]. split; [by eapply only_group_trans|]. rewrite (og_desc _ _ _ _ O1). rewrite half_st by (rewrite ?length_st; lia). rewrite ld_st_other by (rewrite ?length_st; lia). rewrite half_st by lia.
    change (8 * Z.of_nat 2) with 16. rewrite lor_shiftl by zdm. rewrite Z.shiftr_div_pow2 by lia. zdm.
  - exists fs1, (st 2 (desc fs g) lo v). split; [done|]. split; [done|]. rewrite half_st by lia. by apply Z.mod_small.
Qed.

(** ** Checksums of descriptors *)
Definition desc_csum (place : Z → list Z → Z) (fs : filsys) (g : Z) (d : list Z) : Z :=
  if ext2fs_has_feature_metadata_csum (super fs) then Z.land (crc32c place (crc32c place (csum_seed fs) (le_of 4 g)) (st 2 d 30 0)) 0xFFFF
  else
    let crc := u16 (ext2fs_crc16 (u16 (ext2fs_crc16 (u16 (ext2fs_crc16 0xffffffff (s_uuid (super fs)))) (le_of 4 g))) (slice d 0 30)) in
    if 32 <? EXT2_DESC_SIZE (super fs) then u16 (ext2fs_crc16 crc (slice d 32 (Z.to_nat (EXT2_DESC_SIZE (super fs) - 32)))) else crc.
Lemma group_desc_csum_desc place fs g : gdt_ok fs → 0 <= g < group_desc_count fs → ext2fs_group_desc_csum place fs g = Ret (desc_csum place fs g (desc fs g)).
Proof.
  intros Hf Hg. pose proof (size_32 fs Hf). unfold ext2fs_group_desc_csum, desc_csum. cbv zeta. rewrite desc_at_Ret by (done || lia). ostep. rewrite Z.add_0_r. fold (desc fs g). by destruct (ext2fs_has_feature_metadata_csum _).
Qed.
Lemma desc_csum_range place fs g d : 0 <= desc_csum place fs g d < 2 ^ 16.
Proof.
  unfold desc_csum. destruct (ext2fs_has_feature_metadata_csum _); [by apply (land_ones_range _ 16)|]. cbv zeta. unfold u16. destruct (32 <? _); apply Z.mod_pos_bound; lia.
Qed.
Lemma desc_csum_stored place place' fs g d v : 0 <= csum_seed fs < 2 ^ 32 → bytes d → 32 <= EXT2_DESC_SIZE (super fs) → Z.of_nat (length d) = EXT2_DESC_SIZE (super fs) →
  desc_csum place' fs g (st 2 d 30 v) = desc_csum place fs g d.
Proof.
  intros Hs Hb H32 Hl. unfold desc_csum. destruct (ext2fs_has_feature_metadata_csum _).
  - rewrite st_st by lia. f_equal. apply crc32c_place; [|done|by apply crc32c_range; [|apply bytes_le_of]|by apply bytes_st]. by apply crc32c_place; [| | |apply bytes_le_of].
  - cbv zeta. rewrite slice_st_other by lia. destruct (32 <? _); [|done]. by rewrite slice_st_other by lia.
Qed.
Lemma desc_verify place fs g : gdt_ok fs → 0 <= g < group_desc_count fs → ext2fs_has_group_desc_csum fs = true →
  ext2fs_group_desc_csum_verify place fs g = Ret (ld 2 (desc fs g) 30 =? desc_csum place fs g (desc fs g)).
Proof.
  intros Hf Hg Hh. pose proof (size_32 fs Hf). unfold ext2fs_group_desc_csum_verify, ext2fs_bg_checksum. rewrite Hh, (desc_ld_desc fs Hf g Hg) by lia. ostep. by rewrite group_desc_csum_desc.
Qed.
Lemma og_verify place fs fs' g d g' : gdt_ok fs → only_group fs fs' g d → 0 <= g' < group_desc_count fs → g' ≠ g → ext2fs_group_desc_csum_verify place fs' g' = ext2fs_group_desc_csum_verify place fs g'.
Proof.
  intros Hf O Hg' Hn. destruct (og_super _ _ _ _ O) as (Es & Esd & Ec). unfold ext2fs_group_desc_csum_verify, ext2fs_has_group_desc_csum. rewrite Es. destruct (_ || _); [|done].
  pose proof (size_32 fs Hf). unfold ext2fs_bg_checksum. rewrite (desc_ld_desc fs Hf g' Hg') by lia. rewrite (desc_ld_desc fs' (og_ok _ _ _ _ O) g') by (rewrite ?Ec, ?Es; lia). ostep.
  rewrite !group_desc_csum_desc by (first [done|apply O|by rewrite Ec]). ostep. rewrite (og_other _ _ _ _ O) by done. unfold desc_csum. by rewrite Es, Esd.
Qed.
Lemma group_csum_set_ok place place' fs g : gdt_ok fs → 0 <= g < group_desc_count fs → 0 <= csum_seed fs < 2 ^ 32 → ext2fs_has_group_desc_csum fs = true →
  ∃ fs', ext2fs_group_desc_csum_set place fs g = Ret fs' ∧ only_group fs fs' g (st 2 (desc fs g) 30 (desc_csum place fs g (desc fs g))) ∧ ext2fs_group_desc_csum_verify place' fs' g = Ret true.
Proof.
  intros Hf Hg Hs Hh. pose proof (size_32 fs Hf). pose proof (length_desc fs Hf g Hg) as Hl. unfold ext2fs_group_desc_csum_set. rewrite Hh, group_desc_csum_desc by done. ostep. cbn [negb]. set (c := desc_csum _ _ _ _).
  destruct (desc_st_desc fs Hf g Hg 2 30 c) as (fs' & E & O); [lia|lia|]. exists fs'. split; [exact E|]. split; [exact O|]. destruct (og_super _ _ _ _ O) as (Es & Esd & Ec).
  rewrite desc_verify; [|apply O|by rewrite Ec|unfold ext2fs_has_group_desc_csum in *; by rewrite Es]. do 2 f_equal. apply Z.eqb_eq. rewrite (og_desc _ _ _ _ O).
  assert (desc_csum place' fs' g (st 2 (desc fs g) 30 c) = desc_csum place' fs g (st 2 (desc fs g) 30 c)) as -> by (unfold desc_csum; by rewrite Es, Esd).
  rewrite (desc_csum_stored place) by (first [done|by apply bytes_desc]). rewrite half_st by lia. apply Z.mod_small, desc_csum_range.
Qed.

(** ** All groups *)
Lemma last_used_spec used start k : match last_used used start k with
  | Some n => 1 <= n <= Z.of_nat k ∧ used (start + n - 1) = true ∧ ∀ j, n <= j < Z.of_nat k → used (start + j) = false
  | None => ∀ j, 0 <= j < Z.of_nat k → used (start + j) = false
  end.
Proof.
  induction k as [|k IH]; [cbn; intros; lia|]. cbn [last_used]. destruct (used (start + Z.of_nat k)) eqn:E.
  - split; [lia|]. split; [rewrite <-E; f_equal; lia|]. intros j Hj. lia.
  - destruct (last_used used start k) as [n|].
    + destruct IH as (H1 & H2 & H3). split; [lia|]. split; [done|]. intros j Hj. destruct (decide (j = Z.of_nat k)) as [->|]; [done|]. apply H3. lia.
    + intros j Hj. destruct (decide (j = Z.of_nat k)) as [->|]; [done|]. apply IH. lia.
Qed.
Lemma find_last_range used ipg g : 0 <= ipg → 0 <= find_last_inode_ingrp used ipg g <= ipg.
Proof.
  intros Hi. unfold find_last_inode_ingrp. set (start := u32 _). pose proof (u32_range (g * ipg + 1)) as Hs. fold start in Hs. set (n := Z.to_nat _).
  assert (Z.of_nat n <= Z.max 0 ipg) as Hn.
  { unfold n. assert (0 <= start + ipg - 1) as Hp by (destruct (decide (ipg = 0)) as [->|]; [unfold start; rewrite Z.mul_0_r; done|lia]). assert (u32 (start + ipg - 1) <= start + ipg - 1) by (apply Z.mod_le; lia). lia. }
  pose proof (last_used_spec used start n) as H. destruct (last_used used start n); simpl; lia.
Qed.
Lemma og_csum fs fs' g d : only_group fs fs' g d → ext2fs_has_group_desc_csum fs' = ext2fs_has_group_desc_csum fs.
Proof. intros O. unfold ext2fs_has_group_desc_csum. by destruct (og_super _ _ _ _ O) as (-> & _). Qed.
Definition unused_inodes (used : Z → bool) (fs : filsys) (g : Z) : Z :=
  let ipg := s_inodes_per_group (super fs) in
  if split_ld fs (desc fs g) 2 14 46 =? ipg then ipg else ipg - find_last_inode_ingrp used ipg g.
Section groups.
Context (place place' : Z → list Z → Z) (used : Z → bool).
Lemma gdt_group_ok fs g : gdt_ok fs → 0 <= g < group_desc_count fs → 0 <= csum_seed fs < 2 ^ 32 → ext2fs_has_group_desc_csum fs = true →
  0 <= s_inodes_per_group (super fs) < (if ext2fs_has_feature_64bit (super fs) then 2 ^ 32 else 2 ^ 16) →
  ∃ fs' b d, gdt_group place used fs g = Ret (fs', b) ∧ only_group fs fs' g d ∧ ext2fs_group_desc_csum_verify place' fs' g = Ret true ∧ ext2fs_bg_itable_unused fs' g = Ret (unused_inodes used fs g).
Proof.
  intros Hf Hg Hs Hh Hi. pose proof (size_32 fs Hf) as H32. unfold gdt_group. cbv zeta. unfold ext2fs_bg_checksum, ext2fs_bg_itable_unused, ext2fs_bg_flags, ext2fs_bg_free_inodes_count, ext2fs_bg_free_blocks_count.
  rewrite (desc_ld_desc fs Hf g Hg 2 30) by lia. ostep. rewrite (desc_get_desc fs Hf g Hg 2 28 50) by lia. ostep. rewrite (desc_ld_desc fs Hf g Hg 2 18) by lia. ostep.
  rewrite (desc_get_desc fs Hf g Hg 2 14 46) by lia. ostep. rewrite (desc_get_desc fs Hf g Hg 2 12 44) by lia. ostep. set (m1 := if _ && _ then ext2fs_bg_flags_set fs g _ else Ret fs).
  assert (∃ fs1 d1, m1 = Ret fs1 ∧ only_group fs fs1 g d1) as (fs1 & d1 & -> & O1).
  { unfold m1. case_if; [|exists fs, (desc fs g); split; [done|by apply only_group_refl]]. destruct (flags_op fs Hf g Hg (λ f, Z.lor f EXT2_BG_BLOCK_UNINIT)) as (fs1 & E & d1 & O). by exists fs1, d1. }
  ostep. destruct (og_super _ _ _ _ O1) as (Es1 & Ed1 & Ec1). pose proof (og_ok _ _ _ _ O1) as Hf1. assert (0 <= g < group_desc_count fs1) as Hg1 by (by rewrite Ec1).
  set (m2 := if _ =? _ then _ else _). pose proof (find_last_range used (s_inodes_per_group (super fs)) g ltac:(lia)) as Hr.
  assert (∃ fs2 d2, m2 = Ret fs2 ∧ only_group fs fs2 g d2 ∧ split_ld fs d2 2 28 50 = unused_inodes used fs g) as (fs2 & d2 & -> & O2 & Hu).
  { assert (∀ f v, 0 <= v <= s_inodes_per_group (super fs) → ∃ fs2 d2, (fs ← (b ← desc_ld 2 fs1 g 18; desc_st 2 fs1 g 18 (f b)); ext2fs_bg_itable_unused_set fs g v) = Ret fs2 ∧ only_group fs fs2 g d2 ∧ split_ld fs d2 2 28 50 = v) as Hop.
    { intros f v Hv. destruct (flags_op fs1 Hf1 g Hg1 f) as (fs2 & E2 & d2 & O2). rewrite E2. ostep. destruct (og_super _ _ _ _ O2) as (Es2 & Ed2 & Ec2).
      destruct (split_set fs2 g 28 50 v (og_ok _ _ _ _ O2)) as (fs3 & d3 & E3 & O3 & V3); [by rewrite Ec2|lia..|rewrite Es2, Es1; lia|]. exists fs3, d3. split; [exact E3|]. split; [|by revert V3; unfold split_ld; rewrite Es2, Es1].
      eapply only_group_trans; [exact O1|]. by eapply only_group_trans. }
    unfold m2, unused_inodes. cbv zeta. destruct (_ =? _); [apply (Hop (λ f, Z.lor f EXT2_BG_INODE_UNINIT)); lia|apply (Hop (λ f, Z.land f (Z.lnot EXT2_BG_INODE_UNINIT))); lia]. }
  ostep. destruct (og_super _ _ _ _ O2) as (Es2 & Ed2 & Ec2). pose proof (og_ok _ _ _ _ O2) as Hf2. assert (0 <= g < group_desc_count fs2) as Hg2 by (by rewrite Ec2).
  destruct (group_csum_set_ok place place' fs2 g Hf2 Hg2 ltac:(by rewrite Ed2) ltac:(by rewrite (og_csum _ _ _ _ O2))) as (fs3 & E3 & O3 & V3). rewrite E3. ostep.
  destruct (og_super _ _ _ _ O3) as (Es3 & Ed3 & Ec3). pose proof (og_ok _ _ _ _ O3) as Hf3. assert (0 <= g < group_desc_count fs3) as Hg3 by (by rewrite Ec3).
  rewrite (desc_ld_desc fs3 Hf3 g Hg3 2 18) by (rewrite ?Es3, ?Es2; lia). ostep. rewrite (desc_get_desc fs3 Hf3 g Hg3 2 28 50) by lia. ostep. rewrite (desc_ld_desc fs3 Hf3 g Hg3 2 30) by (rewrite ?Es3, ?Es2; lia). ostep.
  eexists fs3, _, _. split; [done|]. split; [by eapply only_group_trans|]. split; [exact V3|]. rewrite (desc_get_desc fs3 Hf3 g Hg3 2 28 50) by lia. f_equal. rewrite <-Hu. rewrite (og_desc _ _ _ _ O3), <-(og_desc _ _ _ _ O2).
  pose proof (length_desc fs2 Hf2 g Hg2) as Hl2. pose proof (gk_size _ Hf2) as Hz. rewrite Es2 in Hl2, Hz. unfold split_ld. rewrite Es3, Es2. destruct (ext2fs_has_feature_64bit (super fs)); [|by rewrite ld_st_other by lia]. by rewrite !ld_st_other by lia.
Qed.
(** states with the same superblock agree on a group with the same descriptor *)
Definition alike (fs fs' : filsys) : Prop := gdt_ok fs' ∧ super fs' = super fs ∧ csum_seed fs' = csum_seed fs ∧ group_desc_count fs' = group_desc_count fs.
Lemma alike_group fs fs' g : gdt_ok fs → alike fs fs' → 0 <= g < group_desc_count fs → desc fs' g = desc fs g →
  ext2fs_group_desc_csum_verify place' fs' g = ext2fs_group_desc_csum_verify place' fs g ∧ ext2fs_bg_itable_unused fs' g = ext2fs_bg_itable_unused fs g ∧ unused_inodes used fs' g = unused_inodes used fs g.
Proof.
  intros Hf (Hf' & Es & Esd & Ec) Hg Ed. pose proof (size_32 fs Hf). split; [|split].
  - unfold ext2fs_group_desc_csum_verify, ext2fs_has_group_desc_csum. rewrite Es. destruct (_ || _); [|done]. unfold ext2fs_bg_checksum.
    rewrite (desc_ld_desc fs Hf g Hg) by lia. rewrite (desc_ld_desc fs' Hf' g) by (rewrite ?Ec, ?Es; lia). ostep. rewrite !group_desc_csum_desc by (first [done|by rewrite Ec]). ostep. unfold desc_csum. by rewrite Es, Esd, Ed.
  - unfold ext2fs_bg_itable_unused. rewrite (desc_get_desc fs Hf g Hg), (desc_get_desc fs' Hf' g) by (rewrite ?Ec; lia). unfold split_ld. by rewrite Es, Ed.
  - unfold unused_inodes, split_ld. by rewrite Es, Ed.
Qed.
Lemma og_alike fs fs' g d : only_group fs fs' g d → alike fs fs'.
Proof. intros O. split; [apply O|]. exact (og_super _ _ _ _ O). Qed.
Lemma gdt_groups_ok gs fs b : NoDup gs → (∀ g, g ∈ gs → 0 <= g < group_desc_count fs) → gdt_ok fs → 0 <= csum_seed fs < 2 ^ 32 → ext2fs_has_group_desc_csum fs = true →
  0 <= s_inodes_per_group (super fs) < (if ext2fs_has_feature_64bit (super fs) then 2 ^ 32 else 2 ^ 16) →
  ∃ fs' b', gdt_groups place used gs fs b = Ret (fs', b') ∧ alike fs fs' ∧
    (∀ g, g ∈ gs → ext2fs_group_desc_csum_verify place' fs' g = Ret true ∧ ext2fs_bg_itable_unused fs' g = Ret (unused_inodes used fs g)) ∧
    (∀ g, 0 <= g < group_desc_count fs → g ∉ gs → desc fs' g = desc fs g).
Proof.
  intros Hnd. revert fs b. induction Hnd as [|g gs Hg Hnd IH]; intros fs b Hin Hf Hs Hh Hi.
  - exists fs, b. split; [done|]. split; [done|]. split; [|done]. intros g Hg. by apply elem_of_nil in Hg.
  - assert (0 <= g < group_desc_count fs) as Hgr by (apply Hin; by left). destruct (gdt_group_ok fs g Hf Hgr Hs Hh Hi) as (fs1 & b1 & d & E1 & O1 & V1 & U1).
    pose proof (og_alike _ _ _ _ O1) as A1. destruct (og_super _ _ _ _ O1) as (Es & Esd & Ec).
    destruct (IH fs1 (b || b1)) as (fs2 & b2 & E2 & A2 & G2 & K2); [intros g' Hg'; rewrite Ec; apply Hin; by right|apply A1|by rewrite Esd|by rewrite (og_csum _ _ _ _ O1)|by rewrite Es|].
    exists fs2, b2. cbn [gdt_groups]. rewrite E1. ostep. cbn [fst snd]. split; [exact E2|]. split; [|split].
    + destruct A1 as (? & ? & ? & ?), A2 as (? & ? & ? & ?). split; [done|]. repeat split; congruence.
    + intros g' [->|Hg']%elem_of_cons.
      * destruct (alike_group fs1 fs2 g (og_ok _ _ _ _ O1) A2 ltac:(by rewrite Ec) ltac:(apply K2; [by rewrite Ec|done])) as (-> & -> & _). done.
      * destruct (G2 g' Hg') as [-> ->]. split; [done|]. f_equal. assert (0 <= g' < group_desc_count fs) as Hr' by (apply Hin; by right).
        apply (alike_group fs fs1 g' Hf A1 Hr'). apply (og_other _ _ _ _ O1); [done|]. intros ->. done.
    + intros g' Hr' [Hne Hg']%not_elem_of_cons. rewrite K2 by (rewrite ?Ec; done). by apply (og_other _ _ _ _ O1).
Qed.
End groups.
(** the unused inodes are the free ones at the end of the group *)
Lemma unused_inodes_free used fs g : 0 <= s_inodes_per_group (super fs) → 0 <= g → (g + 1) * s_inodes_per_group (super fs) < 2 ^ 32 →
  (split_ld fs (desc fs g) 2 14 46 = s_inodes_per_group (super fs) → ∀ k, 0 <= k < s_inodes_per_group (super fs) → used (g * s_inodes_per_group (super fs) + 1 + k) = false) →
  0 <= unused_inodes used fs g <= s_inodes_per_group (super fs) ∧
  ∀ k, s_inodes_per_group (super fs) - unused_inodes used fs g <= k < s_inodes_per_group (super fs) → used (g * s_inodes_per_group (super fs) + 1 + k) = false.
Proof.
  intros Hi Hg Hw Hfree. unfold unused_inodes. set (ipg := s_inodes_per_group (super fs)) in *. pose proof (find_last_range used ipg g Hi) as Hr. cbv zeta. destruct (Z.eqb_spec (split_ld fs (desc fs g) 2 14 46) ipg) as [E|_].
  - split; [lia|]. intros k Hk. apply Hfree; [done|lia].
  - split; [lia|]. intros k Hk. unfold find_last_inode_ingrp in *. destruct (decide (ipg = 0)) as [|Hnz]; [lia|]. rewrite (u32_small (g * ipg + 1)) in * by nia. rewrite (u32_small (g * ipg + 1 + ipg - 1)) in * by nia.
    pose proof (last_used_spec used (g * ipg + 1) (Z.to_nat (g * ipg + 1 + ipg - 1 - (g * ipg + 1) + 1))) as HL. destruct (last_used _ _ _) as [n|]; simpl in *.
    + destruct HL as (_ & _ & HL). apply HL. lia.
    + lia.
Qed.
(** bitmaps *)
Lemma bitmap_verifies place place' lo hi hi_end fs g bitmap : gdt_ok fs → 0 <= g < group_desc_count fs → 0 <= csum_seed fs < 2 ^ 32 → bytes bitmap →
  0 <= lo → lo + 2 <= 32 → 32 <= hi → hi + 2 <= hi_end → 
  ∃ fs', bitmap_csum_set place lo hi hi_end fs g bitmap = Ret fs' ∧ gdt_ok fs' ∧ bitmap_csum_verify place' lo hi hi_end fs' g bitmap = Ret true.
Proof.
  intros Hf Hg Hs Hb Hlo Hlo' Hhi Hhi'. pose proof (size_32 fs Hf) as H32. pose proof (length_desc fs Hf g Hg) as Hl. unfold bitmap_csum_set. destruct (ext2fs_has_feature_metadata_csum (super fs)) eqn:Hm; cbn [negb].
  2: { exists fs. split; [done|]. split; [done|]. unfold bitmap_csum_verify. by rewrite Hm. }
  cbv zeta. set (crc := crc32c place _ _). assert (0 <= crc < 2 ^ 32) as Hc by (by apply crc32c_range). destruct (halves crc Hc) as [H1 H2].
  destruct (desc_st_desc fs Hf g Hg 2 lo (Z.land crc 0xFFFF)) as (fs1 & E1 & O1); [lia|lia|]. rewrite E1. ostep. destruct (og_super _ _ _ _ O1) as (Es & Esd & Ec). pose proof (og_ok _ _ _ _ O1) as Hf1.
  assert (0 <= g < group_desc_count fs1) as Hg1 by (by rewrite Ec). rewrite Es. destruct (Z.leb_spec hi_end (EXT2_DESC_SIZE (super fs))) as [Hhe|Hhe].
  - destruct (desc_st_desc fs1 Hf1 g Hg1 2 hi (Z.shiftr crc 16)) as (fs2 & E2 & O2); [lia|rewrite Es; lia|]. exists fs2. split; [exact E2|]. split; [apply O2|]. destruct (og_super _ _ _ _ O2) as (Es2 & Esd2 & Ec2).
    assert (0 <= g < group_desc_count fs2) as Hg2 by (by rewrite Ec2). unfold bitmap_csum_verify. rewrite Es2, Es, Hm, Esd2, Esd. cbn [negb]. cbv zeta. rewrite (proj2 (Z.leb_le _ _)) by lia.
    rewrite (desc_ld_desc fs2 (og_ok _ _ _ _ O2) g Hg2 2 lo), (desc_ld_desc fs2 (og_ok _ _ _ _ O2) g Hg2 2 hi) by (rewrite ?Es2, ?Es; lia). ostep. do 2 f_equal. apply Z.eqb_eq.
    rewrite (og_desc _ _ _ _ O2). rewrite (og_desc _ _ _ _ O1). rewrite half_st by (rewrite ?length_st; lia). rewrite ld_st_other by (rewrite ?length_st; lia). rewrite half_st by lia. rewrite H1. by apply crc32c_place.
  - exists fs1. split; [done|]. split; [done|]. unfold bitmap_csum_verify. rewrite Es, Hm, Esd. cbn [negb]. cbv zeta. rewrite (proj2 (Z.leb_gt _ _)) by lia. rewrite (desc_ld_desc fs1 Hf1 g Hg1 2 lo) by (rewrite ?Es; lia). ostep.
    do 2 f_equal. apply Z.eqb_eq. rewrite (og_desc _ _ _ _ O1), half_st, H2 by lia. f_equal. by apply crc32c_place.
Qed.

(** ** The checksums as the disk format defines them *)
(** CRC-32C bit by bit, of one string of bytes *)
Definition crc32c_spec (seed : Z) (l : list Z) : Z := crc_le_bitwise 0x82F63B78 seed l.
(** the seed of a file system: stored, or from its UUID *)
Definition seed_spec (sb : list Z) : Z :=
  if ext2fs_has_feature_csum_seed sb then ld 4 sb 0x270 else crc32c_spec 0xffffffff (slice sb 0x68 16).
Lemma spec_range seed l : 0 <= seed < 2 ^ 32 → bytes l → 0 <= crc32c_spec seed l < 2 ^ 32.
Proof. apply bitwise_keeps. Qed.
Lemma spec_chain place c a b : 0 <= c < 2 ^ 32 → bytes a → bytes b → crc32c place (crc32c place c a) b = crc32c_spec c (a ++ b).
Proof.
  intros Hc Ha Hb. rewrite !crc32c_val; [|done..|by apply crc32c_range|done]. unfold crc32c_spec, crc_le_bitwise. by rewrite foldl_app.
Qed.
Lemma spec_inode place fs inum gen l : 0 <= csum_seed fs < 2 ^ 32 → bytes l →
  crc32c place (inode_seed place fs inum gen) l = crc32c_spec (csum_seed fs) (le_of 4 inum ++ le_of 4 gen ++ l).
Proof.
  intros Hs Hl. unfold inode_seed. rewrite spec_chain by (done || apply crc32c_range || apply bytes_le_of; done || apply bytes_le_of).
  rewrite crc32c_val by (done || apply bytes_le_of). unfold crc32c_spec, crc_le_bitwise. by rewrite !foldl_app.
Qed.
Lemma seed_spec_range sb : length sb = 1024%nat → bytes sb → 0 <= seed_spec sb < 2 ^ 32.
Proof.
  intros Hl Hb. unfold seed_spec. destruct (ext2fs_has_feature_csum_seed sb); [apply (ld_range 4 sb 0x270 Hb); lia|]. apply spec_range; [lia|by apply bytes_slice].
Qed.
Lemma init_seed_spec place fs : bytes (super fs) → ext2fs_has_feature_metadata_csum (super fs) = true →
  ext2fs_init_csum_seed place fs = set_seed fs (seed_spec (super fs)).
Proof.
  intros Hb Hm. unfold ext2fs_init_csum_seed, seed_spec. destruct (ext2fs_has_feature_csum_seed (super fs)); [done|]. rewrite Hm. cbn [orb]. f_equal.
  apply crc32c_val; [lia|by apply bytes_slice].
Qed.
Lemma gdt_ok_seed fs c : gdt_ok fs → gdt_ok (set_seed fs c).
Proof. intros []. by split. Qed.
Lemma bitmap_verify_spec place fs lo hi he g bitmap : gdt_ok fs → 0 <= g < group_desc_count fs → 0 <= csum_seed fs < 2 ^ 32 → bytes bitmap →
  ext2fs_has_feature_metadata_csum (super fs) = true → 0 <= lo → lo + 2 <= 32 → 32 <= hi → hi + 2 <= he →
  bitmap_csum_verify place lo hi he fs g bitmap = Ret (let c := crc32c_spec (csum_seed fs) bitmap in
    if he <=? EXT2_DESC_SIZE (super fs) then Z.lor (ld 2 (desc fs g) lo) (Z.shiftl (ld 2 (desc fs g) hi) 16) =? c
    else ld 2 (desc fs g) lo =? Z.land c 0xFFFF).
Proof.
  intros Hf Hg Hs Hb Hm H1 H2 H3 H4. pose proof (size_32 fs Hf). unfold bitmap_csum_verify. rewrite Hm. cbn [negb]. rewrite (desc_ld_desc fs Hf g Hg 2 lo) by lia. ostep. cbv zeta.
  rewrite crc32c_val by done. fold (crc32c_spec (csum_seed fs) bitmap). destruct (Z.leb_spec he (EXT2_DESC_SIZE (super fs))); [|done]. by rewrite (desc_ld_desc fs Hf g Hg 2 hi) by lia.
Qed.
Section formats.
Context (place : Z → list Z → Z) (read_inode : Z → Z + Z) (fs : filsys) (Hs : 0 <= csum_seed fs < 2 ^ 32).
Context (Hm : ext2fs_has_feature_metadata_csum (super fs) = true).
Lemma inode_csum_spec inum inode hi : bytes inode → (if hi : bool then 132 else 128) <= Z.of_nat (length inode) →
  ext2fs_inode_csum place fs inum inode hi = crc32c_spec (csum_seed fs) (le_of 4 inum ++ le_of 4 (ld 4 inode 0x64) ++
    slice (let i := st 2 inode 0x7C 0 in if hi then st 2 i 0x82 0 else i) 0 (Z.to_nat (EXT2_INODE_SIZE (super fs)))).
Proof.
  intros Hb Hl. unfold ext2fs_inode_csum. cbv zeta. rewrite spec_inode; [|done|apply bytes_slice; destruct hi; by repeat apply bytes_st]. do 2 f_equal. f_equal. f_equal.
  destruct hi; repeat rewrite ld_st_other by (rewrite ?length_st; lia); done.
Qed.
Lemma leaf_csum_spec inum gen block t : read_inode inum = inr gen → bytes block → get_dirent_tail fs block = Ret (inr t) →
  t = blocksize fs - 12 ∧
  ext2fs_dirent_csum place read_inode fs inum block t = inr (crc32c_spec (csum_seed fs) (le_of 4 inum ++ le_of 4 gen ++ slice block 0 (Z.to_nat (blocksize fs - 12)))).
Proof.
  intros Hr Hb Ht. destruct (tail_offset fs block t Ht) as [-> _]. split; [done|]. unfold ext2fs_dirent_csum. rewrite Hr. by rewrite spec_inode by (done || by apply bytes_slice).
Qed.
Lemma group_csum_spec g : gdt_ok fs → 0 <= g < group_desc_count fs →
  desc_csum place fs g (desc fs g) = Z.land (crc32c_spec (csum_seed fs) (le_of 4 g ++ st 2 (desc fs g) 30 0)) 0xFFFF.
Proof.
  intros Hf Hg. unfold desc_csum. rewrite Hm. f_equal. apply spec_chain; [done|apply bytes_le_of|apply bytes_st; by apply bytes_desc].
Qed.
End formats.

(** [fs] with another superblock: openfs.c passes [fs->super] itself *)
Definition with_super (fs : filsys) (sb : list Z) : filsys :=
  Filsys sb (flags fs) (csum_seed fs) (blocksize fs) (group_desc_count fs) (group_desc fs) (desc_blocks fs) (inode_blocks_per_group fs) (cluster_ratio_bits fs).

(** ** Theorems *)

(** What a set function stores, the verify function of the same object
    accepts: superblock, multi-mount block, extended attribute block, inode,
    extent block and directory block (a leaf with its tail or an htree node
    whose count is within its limit), wherever the buffers lie, whenever the
    set function reports no error. *)
Theorem csum_set_verifies place place' read_inode fs : 0 <= csum_seed fs < 2 ^ 32 →
  (∀ sb, length sb = 1024%nat → bytes sb → ext2fs_superblock_csum_verify place' fs (ext2fs_superblock_csum_set place fs sb) = true) ∧
  (∀ mmp, length mmp = 1024%nat → bytes mmp → ext2fs_mmp_csum_verify place' fs (ext2fs_mmp_csum_set place fs mmp) = true) ∧
  (∀ block hdr, Z.of_nat (length hdr) = blocksize fs → 20 <= blocksize fs → bytes hdr →
    ext2fs_ext_attr_block_csum_verify place' fs block (ext2fs_ext_attr_block_csum_set place fs block hdr) = true) ∧
  (∀ inum inode, EXT2_INODE_SIZE (super fs) <= Z.of_nat (length inode) → 128 <= Z.of_nat (length inode) → (128 < EXT2_INODE_SIZE (super fs) → 132 <= EXT2_INODE_SIZE (super fs)) → bytes inode →
    ext2fs_inode_csum_verify place' fs inum (ext2fs_inode_csum_set place fs inum inode) = true) ∧
  (∀ inum, read_inode inum ≠ inl 0 →
    (∀ eh eh', bytes eh → ext2fs_extent_block_csum_set place read_inode fs inum eh = Ret (0, eh') → ext2fs_extent_block_csum_verify place' read_inode fs inum eh' = Ret true) ∧
    (∀ block block', Z.of_nat (length block) = blocksize fs → bytes block → has (flags fs) EXT2_FLAG_IGNORE_CSUM_ERRORS = false →
      (∀ co, get_dx_countlimit fs block = inr co → ld 2 block (co + 2) <= ld 2 block co) →
      ext2fs_dir_block_csum_set place read_inode fs inum block = Ret (0, block') → ext2fs_dir_block_csum_verify place' read_inode fs inum block' = Ret true)).
Proof.
  intros Hs. split; [by intros; apply superblock_verifies|]. split; [by intros; apply mmp_verifies|]. split; [by intros; apply ext_attr_verifies|]. split; [by intros; apply inode_verifies|].
  intros inum Hr. split; [intros eh eh' Hb E; by eapply extent_verifies|]. intros block block' Hl Hb Hi Hc E. by apply (dir_block_verifies place place' read_inode fs Hs inum block block').
Qed.
(** Setting the checksums of the group descriptors succeeds; afterwards
    every group verifies, and the inodes that a group counts as unused at the
    end of its table are free in the inode bitmap (when a group that counts
    all inodes as free has none in use). *)
Theorem set_gdt_csum_correct place place' used fs : let ipg := s_inodes_per_group (super fs) in
  gdt_ok fs → 0 <= csum_seed fs < 2 ^ 32 → ext2fs_has_group_desc_csum fs = true →
  0 <= ipg < (if ext2fs_has_feature_64bit (super fs) then 2 ^ 32 else 2 ^ 16) → group_desc_count fs * ipg < 2 ^ 32 →
  (∀ g, 0 <= g < group_desc_count fs → ext2fs_bg_free_inodes_count fs g = Ret ipg → ∀ k, 0 <= k < ipg → used (g * ipg + 1 + k) = false) →
  ∃ fs', ext2fs_set_gdt_csum place (Some used) fs = Ret (0, fs') ∧ super fs' = super fs ∧
    ∀ g, 0 <= g < group_desc_count fs → ext2fs_group_desc_csum_verify place' fs' g = Ret true ∧
      ∃ u, ext2fs_bg_itable_unused fs' g = Ret u ∧ 0 <= u <= ipg ∧ ∀ k, ipg - u <= k < ipg → used (g * ipg + 1 + k) = false.
Proof.
  intros ipg Hf Hs Hh Hi Hw Hfree. destruct (gdt_groups_ok place place' used (seqZ 0 (group_desc_count fs)) fs false) as (fs1 & b & E & (Ok1 & Es & Esd & Ec) & G & _); [apply NoDup_seqZ|intros g Hg%elem_of_seqZ; lia|done..|].
  unfold ext2fs_set_gdt_csum. rewrite Hh, E. cbn [negb]. ostep. cbn [fst snd]. set (fs' := if b then ext2fs_mark_super_dirty fs1 else fs1). exists fs'. split; [done|].
  assert (fs' = set_flags fs1 (flags fs')) as Ef by (unfold fs'; destruct b; by destruct fs1). rewrite Ef. split; [exact Es|]. intros g Hg. destruct (G g ltac:(apply elem_of_seqZ; lia)) as [V U].
  split; [exact V|]. exists (unused_inodes used fs g). split; [exact U|]. apply unused_inodes_free; [lia|lia|nia|]. intros Hsp. apply Hfree; [done|].
  unfold ext2fs_bg_free_inodes_count. rewrite (desc_get_desc fs Hf g Hg) by lia. by rewrite Hsp.
Qed.
(** C36. The checksums are those that the disk format defines: on a file system
    with metadata checksums whose seed is initialised from its superblock, the
    verify functions accept exactly the metadata whose stored checksum is the
    CRC-32C (bit by bit, polynomial 0x82F63B78 reflected) of the specified
    bytes from the specified seed, and the set functions store exactly that
    and nothing else (for bitmaps: what verifies).  The bytes are: the first 1020 bytes of the superblock,
    from 0xffffffff; the first 1020 of the multi-mount block; the block number
    and the extended attribute block with its checksum field zero; for inodes,
    extent blocks and directory leaves the inode number, the generation, and
    the inode with its checksum fields zero or the block up to its tail;
    bitmaps as they are; the group number and the descriptor with its checksum
    field zero.  Small inodes and group descriptors store 16 bits, and so do
    bitmaps when the descriptor has no room; an inode of zeros is accepted as
    well.  Index nodes of directories are not part of the statement. *)
Theorem csum_is_crc32c place read_inode fs0 : length (super fs0) = 1024%nat → bytes (super fs0) → ext2fs_has_feature_metadata_csum (super fs0) = true →
  let fs := ext2fs_init_csum_seed place fs0 in let seed := seed_spec (super fs0) in
  (∀ sb, length sb = 1024%nat → bytes sb → let c := crc32c_spec 0xffffffff (take 1020 sb) in
    ext2fs_superblock_csum_verify place fs sb = (ld 4 sb 1020 =? c) ∧ ext2fs_superblock_csum_set place fs sb = st 4 sb 1020 c) ∧
  (∀ mmp, length mmp = 1024%nat → bytes mmp → let c := crc32c_spec seed (take 1020 mmp) in
    ext2fs_mmp_csum_verify place fs mmp = (ld 4 mmp 1020 =? c) ∧ ext2fs_mmp_csum_set place fs mmp = st 4 mmp 1020 c) ∧
  (∀ block hdr, Z.of_nat (length hdr) = blocksize fs → 20 <= blocksize fs → bytes hdr → let c := crc32c_spec seed (le_of 8 block ++ st 4 hdr 16 0) in
    ext2fs_ext_attr_block_csum_verify place fs block hdr = (ld 4 hdr 16 =? c) ∧ ext2fs_ext_attr_block_csum_set place fs block hdr = st 4 hdr 16 c) ∧
  (∀ inum inode, bytes inode → let hi := inode_has_hi fs inode in (if hi then 132 else 128) <= Z.of_nat (length inode) →
    let zeroed := let i := st 2 inode 0x7C 0 in if hi then st 2 i 0x82 0 else i in
    let c := crc32c_spec seed (le_of 4 inum ++ le_of 4 (ld 4 inode 0x64) ++ slice zeroed 0 (Z.to_nat (EXT2_INODE_SIZE (super fs)))) in
    ext2fs_inode_csum_verify place fs inum inode =
      ((if hi then Z.lor (ld 2 inode 0x7C) (Z.shiftl (ld 2 inode 0x82) 16) =? c else ld 2 inode 0x7C =? Z.land c 0xFFFF) || forallb (λ b, b =? 0) (slice inode 0 128)) ∧
    ext2fs_inode_csum_set place fs inum inode =
      let i := st 2 inode 0x7C (Z.land c 0xFFFF) in if hi then st 2 i 0x82 (Z.shiftr c 16) else i) ∧
  (∀ inum gen, read_inode inum = inr gen →
    (∀ eh, bytes eh → let o := 12 + 12 * ld 2 eh 4 in o + 4 <= Z.of_nat (length eh) →
      let c := crc32c_spec seed (le_of 4 inum ++ le_of 4 gen ++ slice eh 0 (Z.to_nat o)) in
      ext2fs_extent_block_csum_verify place read_inode fs inum eh = Ret (ld 4 eh o =? c) ∧ ext2fs_extent_block_csum_set place read_inode fs inum eh = Ret (0, st 4 eh o c)) ∧
    (∀ block t, bytes block → get_dirent_tail fs block = Ret (inr t) →
      let c := crc32c_spec seed (le_of 4 inum ++ le_of 4 gen ++ slice block 0 (Z.to_nat (blocksize fs - 12))) in
      ext2fs_dir_block_csum_verify place read_inode fs inum block = Ret (ld 4 block (blocksize fs - 4) =? c) ∧
      ext2fs_dir_block_csum_set place read_inode fs inum block = Ret (0, st 4 block (blocksize fs - 4) c))) ∧
  (gdt_ok fs0 → ∀ g, 0 <= g < group_desc_count fs0 → let d := desc fs g in
    (∀ bitmap, bytes bitmap → let c := crc32c_spec seed bitmap in
      ext2fs_inode_bitmap_csum_verify place fs g bitmap =
        Ret (if 60 <=? EXT2_DESC_SIZE (super fs) then Z.lor (ld 2 d 26) (Z.shiftl (ld 2 d 58) 16) =? c else ld 2 d 26 =? Z.land c 0xFFFF) ∧
      ext2fs_block_bitmap_csum_verify place fs g bitmap =
        Ret (if 58 <=? EXT2_DESC_SIZE (super fs) then Z.lor (ld 2 d 24) (Z.shiftl (ld 2 d 56) 16) =? c else ld 2 d 24 =? Z.land c 0xFFFF) ∧
      (∃ fs', ext2fs_inode_bitmap_csum_set place fs g bitmap = Ret fs' ∧ ext2fs_inode_bitmap_csum_verify place fs' g bitmap = Ret true) ∧
      (∃ fs', ext2fs_block_bitmap_csum_set place fs g bitmap = Ret fs' ∧ ext2fs_block_bitmap_csum_verify place fs' g bitmap = Ret true)) ∧
    let c := Z.land (crc32c_spec seed (le_of 4 g ++ st 2 d 30 0)) 0xFFFF in
    ext2fs_group_desc_csum_verify place fs g = Ret (ld 2 d 30 =? c) ∧
    ∃ fs', ext2fs_group_desc_csum_set place fs g = Ret fs' ∧ desc fs' g = st 2 d 30 c).
Proof.
  intros Hl0 Hb0 Hm fs seed. assert (fs = set_seed fs0 seed) as Efs by (by apply init_seed_spec). assert (0 <= seed < 2 ^ 32) as Hsd by (by apply seed_spec_range). clearbody fs seed. subst fs. set (fs := set_seed fs0 seed).
  change (ext2fs_has_feature_metadata_csum (super fs) = true) in Hm. change (0 <= csum_seed fs < 2 ^ 32) in Hsd. change seed with (csum_seed fs).
  split_and!.
  - intros sb Hl Hb c. unfold ext2fs_superblock_csum_verify, ext2fs_superblock_csum_set. cbv zeta. unfold ext2fs_has_feature_metadata_csum in Hm. unfold EXT4_FEATURE_RO_COMPAT_METADATA_CSUM. rewrite Hm. cbn [negb].
    assert (ext2fs_superblock_csum place sb = c) as -> by (apply crc32c_val; [lia|by apply bytes_slice]). done.
  - intros mmp Hl Hb c. unfold ext2fs_mmp_csum_verify, ext2fs_mmp_csum_set. cbv zeta. rewrite Hm. cbn [negb]. assert (ext2fs_mmp_csum place fs mmp = c) as -> by (apply crc32c_val; [done|by apply bytes_slice]). done.
  - intros block hdr Hl H20 Hb c. unfold ext2fs_ext_attr_block_csum_verify, ext2fs_ext_attr_block_csum_set. cbv zeta. rewrite Hm. cbn [negb]. assert (ext2fs_ext_attr_block_csum place fs block hdr = c) as ->; [|done].
    unfold ext2fs_ext_attr_block_csum. cbv zeta. assert (slice (st 4 hdr 16 0) 0 (Z.to_nat (blocksize fs)) = st 4 hdr 16 0) as -> by (unfold slice; rewrite drop_0, take_ge by (rewrite length_st; lia); done).
    apply spec_chain; [done|apply bytes_le_of|by apply bytes_st].
  - intros inum inode Hb hi Hl zeroed c. unfold ext2fs_inode_csum_verify, ext2fs_inode_csum_set. cbv zeta. rewrite Hm. cbn [negb]. fold hi.
    assert (ext2fs_inode_csum place fs inum inode hi = c) as -> by (by apply inode_csum_spec). split; [|done]. by destruct hi, (_ =? _).
  - intros inum gen Hr. split.
    + intros eh Hb o Ho c. unfold ext2fs_extent_block_csum_verify, ext2fs_extent_block_csum_set, extent_tail_in. rewrite Hm. cbn [negb]. fold (extent_tail_offset eh) in o. rewrite (proj2 (Z.leb_le _ _)) by exact Ho. cbn [negb]. cbv zeta.
      assert (ext2fs_extent_block_csum place read_inode fs inum eh = inr c) as ->; [|done]. unfold ext2fs_extent_block_csum. rewrite Hr. f_equal. apply spec_inode; [done|by apply bytes_slice].
    + intros block t Hb Ht c. destruct (leaf_csum_spec place read_inode fs Hsd inum gen block t Hr Hb Ht) as [Et Ec]. fold c in Ec. subst t.
      unfold ext2fs_dir_block_csum_verify, ext2fs_dir_block_csum_set, ext2fs_dirent_csum_verify, ext2fs_dirent_csum_set. rewrite Hm, Ht. cbn [negb is_ok mbind outcome_mbind]. rewrite Ec.
      replace (blocksize fs - 12 + 8) with (blocksize fs - 4) by lia. done.
  - intros Hf0 g Hg d. assert (gdt_ok fs) as Hf by (by apply gdt_ok_seed). split; [|split].
    + intros bitmap Hb c. split; [apply bitmap_verify_spec; done || lia|]. split; [apply bitmap_verify_spec; done || lia|].
      split; [destruct (bitmap_verifies place place 26 58 60 fs g bitmap) as (fs' & E & _ & V)|destruct (bitmap_verifies place place 24 56 58 fs g bitmap) as (fs' & E & _ & V)];
        (done || lia || by exists fs').
    + rewrite desc_verify by (done || unfold ext2fs_has_group_desc_csum; by rewrite Hm). by rewrite group_csum_spec.
    + destruct (group_csum_set_ok place place fs g Hf Hg Hsd) as (fs' & E & O & _); [unfold ext2fs_has_group_desc_csum; by rewrite Hm|]. exists fs'. split; [exact E|]. rewrite (og_desc _ _ _ _ O). fold d. by rewrite group_csum_spec.
Qed.
(** C37. A change is refused: once the checksum of the superblock is stored,
    replacing up to four consecutive bytes of the 1020 it covers makes the
    verify function fail, as long as the changed superblock still has the
    feature bit of metadata checksums; when the change clears that bit the
    superblock is accepted, because the file system that verifies it has the
    changed superblock as its own, as when it is opened.  The same change of a
    bitmap is refused when the group descriptor holds all 32 bits of the
    checksum; with 32-byte descriptors only 16 bits are compared and nothing is
    claimed. *)
Theorem csum_change_refused place place' fs pre old new post :
  bytes (pre ++ old ++ post) → bytes new → length old = length new → (length old <= 4)%nat → old ≠ new →
  (∀ sb, length sb = 1024%nat → bytes sb → ext2fs_has_feature_metadata_csum sb = true →
    ext2fs_superblock_csum_set place (with_super fs sb) sb = pre ++ old ++ post → (length pre + length old <= 1020)%nat →
    let sb' := pre ++ new ++ post in
    ext2fs_superblock_csum_verify place' (with_super fs sb') sb' = negb (ext2fs_has_feature_metadata_csum sb')) ∧
  (0 <= csum_seed fs < 2 ^ 32 → ext2fs_has_feature_metadata_csum (super fs) = true →
   ∀ g fs', gdt_ok fs → 0 <= g < group_desc_count fs → 60 <= EXT2_DESC_SIZE (super fs) →
    (ext2fs_inode_bitmap_csum_set place fs g (pre ++ old ++ post) = Ret fs' → ext2fs_inode_bitmap_csum_verify place' fs' g (pre ++ new ++ post) = Ret false) ∧
    (ext2fs_block_bitmap_csum_set place fs g (pre ++ old ++ post) = Ret fs' → ext2fs_block_bitmap_csum_verify place' fs' g (pre ++ new ++ post) = Ret false)).
Proof.
  intros Hb Hn Hlen H4 Hne. apply Forall_app in Hb as [Hpre [Hold Hpost]%Forall_app].
  assert (∀ c q, 0 <= c < 2 ^ 32 → bytes q → crc32c place' c (pre ++ new ++ q) ≠ crc32c place c (pre ++ old ++ q)) as Hd by (intros c q Hc Hq Heq; symmetry in Heq; revert Heq; by apply crc32c_detects_burst).
  split.
  - intros sb Hl Hsb Hm Eset H1020 sb'. unfold ext2fs_superblock_csum_set, ext2fs_superblock_csum_verify in *. cbn [super with_super] in *. unfold ext2fs_has_feature_metadata_csum in *. unfold EXT4_FEATURE_RO_COMPAT_METADATA_CSUM in *. rewrite Hm in *. cbn [negb] in *. cbv zeta in *.
    destruct (has (s_feature_ro_compat sb') 0x400); cbn [negb]; [|done]. unfold sb'.
    set (crc := ext2fs_superblock_csum place sb) in *. assert (length (pre ++ old ++ post) = 1024%nat) as Lall by (rewrite <-Eset, length_st by lia; done). rewrite !length_app in Lall.
    assert (∀ m, length m = length old → slice (pre ++ m ++ post) 0 1020 = pre ++ m ++ take (1020 - (length pre + length old)) post) as Hsl.
    { intros m Em. unfold slice. rewrite drop_0, take_app_ge by lia. rewrite take_app_ge by lia. do 3 f_equal. lia. }
    assert (∀ m, length m = length old → ld 4 (pre ++ m ++ post) 1020 = ld 4 (pre ++ old ++ post) 1020) as Hld.
    { intros m Em. unfold ld, slice. do 2 f_equal. change (Z.to_nat 1020) with 1020%nat. rewrite !drop_app_ge by lia. by rewrite Em. }
    rewrite (Hld new) by done. rewrite <-Eset. assert (0 <= crc < 2 ^ 32) as Hc by (apply crc32c_range; [lia|by apply bytes_slice]). rewrite word_st by lia. apply Z.eqb_neq. unfold ext2fs_superblock_csum at 1. rewrite Hsl by done. unfold crc, ext2fs_superblock_csum.
    assert (slice sb 0 1020 = pre ++ old ++ take (1020 - (length pre + length old)) post) as ->. { rewrite <-(Hsl old) by done. rewrite <-Eset. symmetry. apply slice_st_other; lia. }
    apply not_eq_sym, Hd; [lia|by apply Forall_take].
  - intros Hs Hm g fs' Hf Hg H60. assert (∀ lo hi he, 0 <= lo → lo + 2 <= 32 → 32 <= hi → hi + 2 <= he → he <= 60 → bitmap_csum_set place lo hi he fs g (pre ++ old ++ post) = Ret fs' →
      bitmap_csum_verify place' lo hi he fs' g (pre ++ new ++ post) = Ret false) as Hbm; [|split; apply Hbm; unfold EXT4_BG_INODE_BITMAP_CSUM_HI_END, EXT4_BG_BLOCK_BITMAP_CSUM_HI_LOCATION; lia].
    intros lo hi he L1 L2 L3 L4 L5 Eset. destruct (bitmap_verifies place place lo hi he fs g (pre ++ old ++ post)) as (fs2 & E2 & O2 & V2); [done|done|done|by repeat apply Forall_app_2|done|done|done|done|]. rewrite Eset in E2. injection E2 as <-.
    assert (super fs' = super fs ∧ csum_seed fs' = csum_seed fs) as [Es Esd].
    { revert Eset. unfold bitmap_csum_set. rewrite Hm. cbn [negb]. cbv zeta. intros E. apply outcome_bind_Ret in E as (fs1 & E1 & E). unfold desc_st in E1, E.
      apply outcome_bind_Ret in E1 as (o1 & _ & [= <-]). cbn [super set_gdt] in E. rewrite (proj2 (Z.leb_le _ _)) in E by lia. apply outcome_bind_Ret in E as (o2 & _ & [= <-]). done. }
    unfold bitmap_csum_verify in *. rewrite Es, Esd, Hm in *. cbn [negb] in *. cbv zeta in *. rewrite (proj2 (Z.leb_le _ _)) in * by lia. destruct (desc_ld 2 fs' g lo) as [a| |]; [|done|done]. ostep. revert V2. ostep.
    destruct (desc_ld 2 fs' g hi) as [h| |]; [|done|done]. ostep. intros [= V2%Z.eqb_eq]. rewrite V2. f_equal. apply Z.eqb_neq. apply not_eq_sym, Hd; done.
Qed.

(** ** Witnesses: the file system of Blknum.v with checksums and eight inodes
    per group *)
Definition csum_super : list Z := st 4 (st 4 demo_super 0x64 0x400) 0x28 8.
Definition csum_fs : filsys := Filsys csum_super 0 0x12345678 1024 2 (replicate 128 0) 1 16 0.
Definition anywhere : Z → list Z → Z := λ _ b, Z.of_nat (length b).
Lemma csum_fs_ok : gdt_ok csum_fs.
Proof. split; [done|done|vm_compute; discriminate|vm_compute; discriminate|done|apply Forall_replicate; done]. Qed.
Definition sb0 : list Z := replicate 1024 0.
Lemma sb0_bytes : bytes sb0.
Proof. apply Forall_replicate. done. Qed.
Lemma csum_set_verifies_witness : ext2fs_superblock_csum_verify anywhere csum_fs (ext2fs_superblock_csum_set anywhere csum_fs sb0) = true.
Proof. destruct (csum_set_verifies anywhere anywhere (λ _, inr 0) csum_fs ltac:(cbn; lia)) as [H _]. exact (H sb0 eq_refl sb0_bytes). Defined.
Lemma set_gdt_csum_correct_witness : ∃ fs', ext2fs_set_gdt_csum anywhere (Some (λ i, i =? 3)) csum_fs = Ret (0, fs') ∧ ext2fs_group_desc_csum_verify anywhere fs' 1 = Ret true.
Proof.
  destruct (set_gdt_csum_correct anywhere anywhere (λ i, i =? 3) csum_fs csum_fs_ok) as (fs' & E & _ & G); [cbn; lia|reflexivity|vm_compute; split; congruence|vm_compute; reflexivity| |].
  - intros g Hg. cbn in Hg. assert (g = 0 ∨ g = 1) as [-> | ->] by lia; vm_compute; intros; discriminate.
  - exists fs'. split; [exact E|]. apply (G 1). cbn. lia.
Defined.
Lemma csum_super_bytes : bytes csum_super.
Proof.
  assert (forallb (λ x, (0 <=? x) && (x <? 256)) csum_super = true) as Hf by (vm_compute; reflexivity).
  apply Forall_forall. intros x Hx. rewrite forallb_forall in Hf. specialize (Hf x (proj1 (list_elem_of_In _ _) Hx)). apply andb_true_iff in Hf as [?%Z.leb_le ?%Z.ltb_lt]. done.
Qed.
(** on the file system of the witnesses: the superblock, a directory leaf with
    one empty entry and its tail, and the descriptor of group 1 *)
Definition leaf0 : list Z := st 2 (st 2 (st 2 (replicate 1024 0) 4 1012) 1016 12) 1018 0xDE00.
Lemma csum_is_crc32c_witness : let fs := ext2fs_init_csum_seed anywhere csum_fs in let seed := seed_spec csum_super in
  ext2fs_superblock_csum_set anywhere fs csum_super = st 4 csum_super 1020 (crc32c_spec 0xffffffff (take 1020 csum_super)) ∧
  ext2fs_dir_block_csum_verify anywhere (λ _, inr 7) fs 2 leaf0 =
    Ret (ld 4 leaf0 1020 =? crc32c_spec seed ([2; 0; 0; 0] ++ [7; 0; 0; 0] ++ slice leaf0 0 1012)) ∧
  ext2fs_group_desc_csum_verify anywhere fs 1 =
    Ret (ld 2 (desc fs 1) 30 =? Z.land (crc32c_spec seed ([1; 0; 0; 0] ++ st 2 (desc fs 1) 30 0)) 0xFFFF).
Proof.
  destruct (csum_is_crc32c anywhere (λ _, inr 7) csum_fs eq_refl csum_super_bytes eq_refl) as (H1 & _ & _ & _ & H5 & H6).
  split; [apply (H1 csum_super eq_refl csum_super_bytes)|]. split.
  - assert (bytes leaf0) as Hb by (repeat apply bytes_st; apply Forall_replicate; done).
    exact (proj1 (proj2 (H5 2 7 eq_refl) leaf0 1012 Hb eq_refl)).
  - exact (proj1 (proj2 (H6 csum_fs_ok 1 ltac:(cbn; lia)))).
Defined.
(** a changed word is refused; a change that clears the feature bit is not *)
Lemma csum_change_refused_witness : let sb := ext2fs_superblock_csum_set anywhere (with_super csum_fs csum_super) csum_super in
  (let sb' := take 8 sb ++ [1; 2; 3; 4] ++ drop 12 sb in ext2fs_superblock_csum_verify anywhere (with_super csum_fs sb') sb' = false) ∧
  (let sb' := take 0x64 sb ++ [0; 0; 0; 0] ++ drop 0x68 sb in ext2fs_superblock_csum_verify anywhere (with_super csum_fs sb') sb' = true).
Proof.
  intros sb. assert (∀ n, sb = take n sb ++ take 4 (drop n sb) ++ drop (n + 4) sb) as E by (intros n; by rewrite <-drop_drop, !take_drop).
  assert (bytes sb) as Hb by (apply bytes_st, csum_super_bytes).
  assert (sb = take 8 sb ++ take 4 (drop 8 sb) ++ drop 12 sb) as E8 by exact (E 8%nat).
  assert (sb = take 0x64 sb ++ take 4 (drop 0x64 sb) ++ drop 0x68 sb) as E64 by exact (E 100%nat). split; intros sb'.
  - destruct (csum_change_refused anywhere anywhere csum_fs (take 8 sb) (take 4 (drop 8 sb)) [1; 2; 3; 4] (drop 12 sb)) as [H _]; [by rewrite <-E8|repeat constructor; done|reflexivity|vm_compute; lia|vm_compute; discriminate|].
    refine (eq_trans (H csum_super eq_refl csum_super_bytes eq_refl E8 _) _); [vm_compute; lia|vm_compute; reflexivity].
  - destruct (csum_change_refused anywhere anywhere csum_fs (take 0x64 sb) (take 4 (drop 0x64 sb)) [0; 0; 0; 0] (drop 0x68 sb)) as [H _]; [by rewrite <-E64|repeat constructor; done|reflexivity|vm_compute; lia|vm_compute; discriminate|].
    refine (eq_trans (H csum_super eq_refl csum_super_bytes eq_refl E64 _) _); [vm_compute; lia|vm_compute; reflexivity].
Defined.
(** An htree node whose count exceeds its limit, which is not checked: the
    checksum is stored inside the bytes it covers, and does not verify. *)
Definition over_limit : list Z := st 2 (st 2 (st 2 (replicate 1024 0) 4 1024) 8 1) 10 5.
Lemma dx_count_over_limit :
  match ext2fs_dir_block_csum_set anywhere (λ _, inr 7) csum_fs 2 over_limit with
  | Ret (0, block') => ext2fs_dir_block_csum_verify anywhere (λ _, inr 7) csum_fs 2 block' = Ret false
  | _ => False
  end.
Proof. vm_compute. reflexivity. Qed.
End Csum.
