(* ===== verification/Groups.v ===== *)
(** Block groups of the vendored e2fsprogs library (kernel/fs/lib/ext2fs):
    which blocks a group has (blknum.c), which groups hold a copy of the
    superblock and where the group descriptors are (closefs.c, openfs.c), and
    the fields of an inode that are split over two words (blknum.c).  The groups
    divide the blocks of the file system among them; the backups are in the
    powers of 3, 5 and 7; the reader of the group descriptors looks where the
    writer puts them, except with 1 KiB blocks and clusters. *)
From stdpp Require Import base numbers list.
From S2P Require Import Prelude Blknum.
Open Scope Z_scope.

Module Groups.
Import Blknum.
(** ** Fields and features *)
Definition s_log_block_size (s : list Z) : Z := ld 4 s 0x18.
Definition s_log_cluster_size (s : list Z) : Z := ld 4 s 0x1C.
Definition s_feature_compat (s : list Z) : Z := ld 4 s 0x5C.
Definition s_reserved_gdt_blocks (s : list Z) : Z := ld 2 s 0xCE.
Definition s_first_meta_bg (s : list Z) : Z := ld 4 s 0x104.
Definition s_backup_bgs (s : list Z) (i : Z) : Z := ld 4 s (0x24C + 4 * i).
Definition ext2fs_has_feature_sparse_super2 (s : list Z) : bool := has (s_feature_compat s) 0x200.
Definition ext2fs_has_feature_sparse_super (s : list Z) : bool := has (s_feature_ro_compat s) 0x1.
Definition ext2fs_has_feature_large_file (s : list Z) : bool := has (s_feature_ro_compat s) 0x2.
Definition ext2fs_has_feature_huge_file (s : list Z) : bool := has (s_feature_ro_compat s) 0x8.
Definition ext2fs_has_feature_meta_bg (s : list Z) : bool := has (s_feature_incompat s) 0x10.
Definition ext2fs_has_feature_largedir (s : list Z) : bool := has (s_feature_incompat s) 0x4000.
(** the shifts are those of a superblock that ext2fs_open2 accepts: its block
    size is at most 64 KiB *)
Definition EXT2_BLOCK_SIZE (s : list Z) : Z := Z.shiftl 1024 (s_log_block_size s).
Definition EXT2_CLUSTER_SIZE (s : list Z) : Z := Z.shiftl 1024 (s_log_cluster_size s).
Definition EXT2_DESC_PER_BLOCK (s : list Z) : outcome Z := if EXT2_DESC_SIZE s =? 0 then Undef else Ret (EXT2_BLOCK_SIZE s / EXT2_DESC_SIZE s).
Definition EXT2FS_CLUSTER_RATIO (fs : filsys) : Z := Z.shiftl 1 (cluster_ratio_bits fs).

(** ** The blocks of a group; a division by zero has no result *)
Definition ext2fs_group_of_blk2 (fs : filsys) (blk : Z) : outcome Z :=
  if s_blocks_per_group (super fs) =? 0 then Undef else Ret (u32 (u64 (blk - s_first_data_block (super fs)) / s_blocks_per_group (super fs))).
Definition ext2fs_group_first_block2 (fs : filsys) (group : Z) : Z := u64 (s_first_data_block (super fs) + u64 (s_blocks_per_group (super fs) * group)).
Definition ext2fs_group_last_block2 (fs : filsys) (group : Z) : Z :=
  if group =? u32 (group_desc_count fs - 1) then u64 (ext2fs_blocks_count (super fs) - 1)
  else u64 (ext2fs_group_first_block2 fs group + u32 (s_blocks_per_group (super fs) - 1)).
Definition ext2fs_group_blocks_count (fs : filsys) (group : Z) : outcome Z :=
  let bpg := s_blocks_per_group (super fs) in
  if group =? u32 (group_desc_count fs - 1) then
    if bpg =? 0 then Undef else
    let num_blocks := i32 (u64 (ext2fs_blocks_count (super fs) - s_first_data_block (super fs)) mod bpg) in
    Ret (if num_blocks =? 0 then i32 bpg else num_blocks)
  else Ret (i32 bpg).

(** ** Copies of the superblock (closefs.c) *)
Fixpoint test_root_loop (fuel : nat) (a b : Z) : outcome bool :=
  match fuel with
  | O => Loop
  | S fuel => if a <? b then Ret false else if a =? b then Ret true else if negb (a mod b =? 0) then Ret false else test_root_loop fuel (a / b) b
  end.
(** a 32-bit number is divided at most 32 times *)
Definition test_root (a b : Z) : outcome bool := test_root_loop 33 a b.
Definition ext2fs_bg_has_super (fs : filsys) (group : Z) : outcome bool :=
  let sb := super fs in
  if group =? 0 then Ret true else
  if ext2fs_has_feature_sparse_super2 sb then Ret ((group =? s_backup_bgs sb 0) || (group =? s_backup_bgs sb 1)) else
  if (group <=? 1) || negb (ext2fs_has_feature_sparse_super sb) then Ret true else
  if negb (has group 1) then Ret false else
  r3 ← test_root group 3;
  if r3 : bool then Ret true else
  r5 ← test_root group 5;
  if r5 : bool then Ret true else test_root group 7.
(** superblock, old and new descriptor block (0 for none), blocks used *)
Definition ext2fs_super_and_bgd_loc2 (fs : filsys) (group : Z) : outcome (Z * Z * Z * Z) :=
  let sb := super fs in
  let group_block := ext2fs_group_first_block2 fs group in
  let group_block := if (group_block =? 0) && (blocksize fs =? 1024) then 1 else group_block in
  let old_desc_blocks := if ext2fs_has_feature_meta_bg sb then s_first_meta_bg sb else u64 (desc_blocks fs + s_reserved_gdt_blocks sb) in
  has_super ← ext2fs_bg_has_super fs group;
  let super_blk := if has_super : bool then group_block else 0 in
  let numblocks := if has_super : bool then 1 else 0 in
  meta_bg_size ← EXT2_DESC_PER_BLOCK sb;
  if meta_bg_size =? 0 then Undef else
  let meta_bg := group / meta_bg_size in
  if negb (ext2fs_has_feature_meta_bg sb) || (meta_bg <? s_first_meta_bg sb) then
    if has_super : bool then Ret (super_blk, u64 (group_block + 1), 0, u32 (numblocks + old_desc_blocks)) else Ret (super_blk, 0, 0, numblocks)
  else if (group mod meta_bg_size =? 0) || (group mod meta_bg_size =? 1) || (group mod meta_bg_size =? u32 (meta_bg_size - 1)) then
    Ret (super_blk, 0, u64 (group_block + if has_super : bool then 1 else 0), numblocks + 1)
  else Ret (super_blk, 0, 0, numblocks).
(** the 32-bit version, with the meta group and the number of blocks left *)
Definition ext2fs_super_and_bgd_loc (fs : filsys) (group : Z) : outcome (Z * Z * Z * Z * Z) :=
  ext2fs_super_and_bgd_loc2 fs group ≫= λ r : Z * Z * Z * Z,
  let '(super_blk, old_desc_blk, new_desc_blk, used_blks) := r in
  numblocks ← ext2fs_group_blocks_count fs group;
  meta_bg_size ← EXT2_DESC_PER_BLOCK (super fs);
  Ret (u32 super_blk, u32 old_desc_blk, u32 new_desc_blk, group / meta_bg_size, i32 (u32 numblocks - (2 + inode_blocks_per_group fs + used_blks))).
(** openfs.c: the block with the [i]th part of the group descriptors, for the
    copy that starts at [group_block] *)
Definition ext2fs_descriptor_block_loc2 (fs : filsys) (group_block i : Z) : outcome Z :=
  let sb := super fs in
  let group_zero_adjust := if (i =? 0) && (blocksize fs =? 1024) && (1 <? EXT2FS_CLUSTER_RATIO fs) then 1 else 0 in
  if negb (ext2fs_has_feature_meta_bg sb) || (i <? s_first_meta_bg sb) then Ret (u64 (group_block + i + 1 + group_zero_adjust)) else
  per_block ← EXT2_DESC_PER_BLOCK sb;
  let bg := u32 (per_block * i) in
  has_super ← ext2fs_bg_has_super fs bg;
  let has_super := if has_super : bool then 1 else 0 in
  let ret_blk := ext2fs_group_first_block2 fs bg in
  if negb (group_block =? s_first_data_block sb) && (u64 (ret_blk + has_super + s_blocks_per_group sb) <? ext2fs_blocks_count sb) then
    next_super ← ext2fs_bg_has_super fs (u32 (bg + 1));
    let has_super := if next_super : bool then 1 else 0 in
    Ret (u64 (ret_blk + s_blocks_per_group sb + has_super + group_zero_adjust))
  else Ret (u64 (ret_blk + has_super + group_zero_adjust)).

(** ** Fields of an inode in two words *)
Definition i_mode (inode : list Z) : Z := ld 2 inode 0x00.
Definition EXT2_I_SIZE (inode : list Z) : Z := Z.lor (ld 4 inode 0x04) (Z.shiftl (ld 4 inode 0x6C) 32).
Definition i_blocks (inode : list Z) : Z := ld 4 inode 0x1C.
Definition i_flags (inode : list Z) : Z := ld 4 inode 0x20.
Definition i_file_acl (inode : list Z) : Z := ld 4 inode 0x68.
Definition l_i_blocks_hi (inode : list Z) : Z := ld 2 inode 0x74.
Definition EXT4_HUGE_FILE_FL : Z := 0x40000.
Definition ext2fs_inode_i_blocks (fs : filsys) (inode : list Z) : Z :=
  Z.lor (i_blocks inode) (if ext2fs_has_feature_huge_file (super fs) then Z.shiftl (l_i_blocks_hi inode) 32 else 0).
Definition ext2fs_inode_data_blocks2 (fs : filsys) (inode : list Z) : Z :=
  u64 (ext2fs_inode_i_blocks fs inode - if i_file_acl inode =? 0 then 0 else Z.shiftr (EXT2_CLUSTER_SIZE (super fs)) 9).
Definition ext2fs_get_stat_i_blocks (fs : filsys) (inode : list Z) : Z :=
  let ret := i_blocks inode in
  if ext2fs_has_feature_huge_file (super fs) then
    let ret := u64 (ret + Z.shiftl (l_i_blocks_hi inode) 32) in
    if has (i_flags inode) EXT4_HUGE_FILE_FL then u64 (ret * (blocksize fs / 512)) else ret
  else ret.
Definition ext2fs_file_acl_block (fs : filsys) (inode : list Z) : Z :=
  let blk := i_file_acl inode in
  if ext2fs_has_feature_64bit (super fs) then Z.lor blk (Z.shiftl (ld 2 inode 0x76) 32) else blk.
Definition ext2fs_file_acl_block_set (fs : filsys) (inode : list Z) (blk : Z) : list Z :=
  let inode := st 4 inode 0x68 (u32 blk) in
  if ext2fs_has_feature_64bit (super fs) then st 2 inode 0x76 (Z.shiftr blk 32) else inode.
(** closefs.c *)
Definition ext2fs_update_dynamic_rev (fs : filsys) : filsys :=
  if 0 <? s_rev_level (super fs) then fs else
  set_super fs (st 2 (st 4 (st 4 (super fs) 0x4C 1) 0x54 11) 0x58 EXT2_GOOD_OLD_INODE_SIZE).
Definition ext2fs_needs_large_file_feature (file_size : Z) : bool := 0x80000000 <=? file_size.
Definition ext2fs_set_feature_large_file (fs : filsys) : filsys := set_super fs (st 4 (super fs) 0x64 (Z.lor (s_feature_ro_compat (super fs)) 0x2)).
Definition ext2fs_set_feature_largedir (fs : filsys) : filsys := set_super fs (st 4 (super fs) 0x60 (Z.lor (s_feature_incompat (super fs)) 0x4000)).
Definition LINUX_S_ISREG (m : Z) : bool := Z.land m 0xF000 =? 0x8000.
Definition LINUX_S_ISDIR (m : Z) : bool := Z.land m 0xF000 =? 0x4000.
Definition EINVAL : Z := 22.
Definition EXT2_ET_FILE_TOO_BIG : Z := 2133571410.
(** the feature a large file needs, or none for other files than regular files
    and directories; the second result says whether it was missing *)
Definition large_feature (fs : filsys) (mode : Z) : option (filsys * bool) :=
  if LINUX_S_ISREG mode then Some (if ext2fs_has_feature_large_file (super fs) then (fs, false) else (ext2fs_set_feature_large_file fs, true))
  else if LINUX_S_ISDIR mode then Some (if ext2fs_has_feature_largedir (super fs) then (fs, false) else (ext2fs_set_feature_largedir fs, true))
  else None.
Definition put_size (inode : list Z) (size : Z) : list Z := st 4 (st 4 inode 0x04 (Z.land size 0xffffffff)) 0x6C (Z.shiftr size 32).
Definition ext2fs_inode_size_set (fs : filsys) (inode : list Z) (size : Z) : Z * filsys * list Z :=
  if size <? 0 then (EINVAL, fs, inode) else
  if ext2fs_needs_large_file_feature size then
    match large_feature fs (i_mode inode) with
    | None => (EXT2_ET_FILE_TOO_BIG, fs, inode)
    | Some (fs, dirty_sb) =>
      let fs := if dirty_sb : bool then ext2fs_mark_super_dirty (if s_rev_level (super fs) =? 0 then ext2fs_update_dynamic_rev fs else fs) else fs in
      (0, fs, put_size inode size)
    end
  else (0, fs, put_size inode size).

(** ** The groups divide the blocks *)
Record geom_ok (fs : filsys) : Prop := {
  geo_bpg : 0 < s_blocks_per_group (super fs) < 2 ^ 31;
  geo_first : 0 <= s_first_data_block (super fs) < ext2fs_blocks_count (super fs);
  geo_count : group_desc_count fs = (ext2fs_blocks_count (super fs) - s_first_data_block (super fs) - 1) / s_blocks_per_group (super fs) + 1;
  geo_small : group_desc_count fs < 2 ^ 32;
  geo_end : s_first_data_block (super fs) + group_desc_count fs * s_blocks_per_group (super fs) < 2 ^ 63
}.
Section geometry.
Context (fs : filsys) (Hg : geom_ok fs).
Notation first := (s_first_data_block (super fs)).
Notation bpg := (s_blocks_per_group (super fs)).
Notation blocks := (ext2fs_blocks_count (super fs)).
Notation groups := (group_desc_count fs).
Lemma groups_pos : 1 <= groups.
Proof. destruct Hg as [? ? -> _ _]. pose proof (Z.div_pos (blocks - first - 1) bpg). lia. Qed.
(** the last group is the only one that may be short *)
Lemma last_group : first + (groups - 1) * bpg < blocks <= first + groups * bpg.
Proof. destruct Hg as [? ? -> _ _]. pose proof (Z.div_mod (blocks - first - 1) bpg). pose proof (Z.mod_pos_bound (blocks - first - 1) bpg). lia. Qed.
Lemma first_block_eq g : 0 <= g <= groups → ext2fs_group_first_block2 fs g = first + g * bpg.
Proof.
  intros Hgr. pose proof groups_pos. destruct Hg. unfold ext2fs_group_first_block2. assert (0 <= g * bpg <= groups * bpg) by nia.
  rewrite (u64_small (bpg * g)) by lia. rewrite u64_small by lia. lia.
Qed.
Lemma last_block_eq g : 0 <= g < groups → ext2fs_group_last_block2 fs g = Z.min blocks (first + (g + 1) * bpg) - 1.
Proof.
  intros Hgr. pose proof groups_pos. pose proof last_group. unfold ext2fs_group_last_block2. rewrite first_block_eq by lia. destruct Hg. rewrite u32_small by lia.
  assert (g * bpg + bpg <= groups * bpg) by nia. case_if.
  - subst g. rewrite u64_small by lia. lia.
  - rewrite u32_small, u64_small by lia. assert ((g + 1) * bpg <= (groups - 1) * bpg) by nia. lia.
Qed.
Lemma group_blocks_eq g : 0 <= g < groups → ext2fs_group_blocks_count fs g = Ret (ext2fs_group_last_block2 fs g - ext2fs_group_first_block2 fs g + 1).
Proof.
  intros Hgr. pose proof groups_pos. pose proof last_group. unfold ext2fs_group_blocks_count. rewrite last_block_eq, first_block_eq by lia. destruct Hg. rewrite u32_small by lia.
  assert (bpg ≠ 0) as Hz by lia. apply Z.eqb_neq in Hz. rewrite Hz. assert (i32 bpg = bpg) as Ei by (apply i32_small; lia). rewrite !Ei. case_if; f_equal.
  - subst g. rewrite u64_small by lia. set (r := (blocks - first) mod bpg). assert (0 <= r < bpg) by (apply Z.mod_pos_bound; lia). rewrite i32_small by lia.
    assert (blocks - first = bpg * ((blocks - first) / bpg) + r) as Ed by (apply Z.div_mod; lia). set (q := (blocks - first) / bpg) in *. case_if.
    + assert (q = groups) by nia. nia.
    + assert (q = groups - 1) by nia. nia.
  - assert ((g + 1) * bpg <= (groups - 1) * bpg) by nia. lia.
Qed.
Lemma group_of_eq blk : first <= blk < blocks → ext2fs_group_of_blk2 fs blk = Ret ((blk - first) / bpg) ∧ 0 <= (blk - first) / bpg < groups.
Proof.
  intros Hb. pose proof groups_pos. pose proof last_group. destruct Hg. assert (0 <= (blk - first) / bpg < groups) as Hq.
  { split; [apply Z.div_pos; lia|]. apply Z.div_lt_upper_bound; lia. }
  split; [|done]. unfold ext2fs_group_of_blk2. bfalse. by rewrite u64_small, u32_small by lia.
Qed.
End geometry.
Lemma group_has fs blk g : geom_ok fs → s_first_data_block (super fs) <= blk < ext2fs_blocks_count (super fs) → 0 <= g < group_desc_count fs →
  ext2fs_group_first_block2 fs g <= blk <= ext2fs_group_last_block2 fs g ↔ g = (blk - s_first_data_block (super fs)) / s_blocks_per_group (super fs).
Proof.
  intros Hg Hb Hr. pose proof (last_group fs Hg). pose proof (geo_bpg _ Hg). rewrite first_block_eq, last_block_eq by (done || lia).
  set (bpg := s_blocks_per_group (super fs)) in *. set (first := s_first_data_block (super fs)) in *.
  pose proof (Z.div_mod (blk - first) bpg ltac:(lia)) as Ed. pose proof (Z.mod_pos_bound (blk - first) bpg ltac:(lia)). set (q := (blk - first) / bpg) in *. split; [nia|]. intros ->. lia.
Qed.
Lemma group_bounds fs g : geom_ok fs → 0 <= g < group_desc_count fs →
  s_first_data_block (super fs) <= ext2fs_group_first_block2 fs g <= ext2fs_group_last_block2 fs g ∧ ext2fs_group_last_block2 fs g < ext2fs_blocks_count (super fs) ∧
  ext2fs_group_last_block2 fs g - ext2fs_group_first_block2 fs g + 1 <= s_blocks_per_group (super fs).
Proof.
  intros Hg Hr. pose proof (last_group fs Hg). pose proof (geo_bpg _ Hg). pose proof (geo_first _ Hg). rewrite first_block_eq, last_block_eq by (done || lia).
  set (bpg := s_blocks_per_group (super fs)) in *. assert (g * bpg <= (group_desc_count fs - 1) * bpg) by nia. split_and!; [nia|lia|lia|lia].
Qed.
(** The groups divide the blocks of a file system among them: every block
    from the first data block on lies between the first and the last block of
    its group and of no other group, groups are not empty, and
    [ext2fs_group_blocks_count] is the number of blocks between them. *)
Theorem groups_partition fs : geom_ok fs →
  (∀ blk, s_first_data_block (super fs) <= blk < ext2fs_blocks_count (super fs) →
    ∃ g, ext2fs_group_of_blk2 fs blk = Ret g ∧ 0 <= g < group_desc_count fs ∧
      ∀ g', 0 <= g' < group_desc_count fs → (ext2fs_group_first_block2 fs g' <= blk <= ext2fs_group_last_block2 fs g' ↔ g' = g)) ∧
  ∀ g, 0 <= g < group_desc_count fs → s_first_data_block (super fs) <= ext2fs_group_first_block2 fs g <= ext2fs_group_last_block2 fs g ∧ ext2fs_group_last_block2 fs g < ext2fs_blocks_count (super fs) ∧
    ext2fs_group_blocks_count fs g = Ret (ext2fs_group_last_block2 fs g - ext2fs_group_first_block2 fs g + 1).
Proof.
  intros Hg. split.
  - intros blk Hb. destruct (group_of_eq fs Hg blk Hb) as [E Hq]. eexists. split; [exact E|]. split; [done|]. intros g' Hg'. by apply group_has.
  - intros g Hgr. rewrite (group_blocks_eq fs Hg g Hgr). destruct (group_bounds fs g Hg Hgr) as (? & ? & _). done.
Qed.

(** ** Powers *)
Lemma test_root_loop_spec b n : 1 < b → ∀ a, 0 <= a < 2 ^ Z.of_nat n →
  ∃ r, test_root_loop (S n) a b = Ret r ∧ (r = true ↔ ∃ k, 1 <= k ∧ a = b ^ k).
Proof.
  intros Hb. induction n as [|n IH]; intros a Ha.
  - assert (a = 0) as -> by (cbn in Ha; lia). exists false. cbn [test_root_loop]. btrue. split; [done|]. split; [done|]. intros (k & Hk & E). pose proof (Z.pow_pos_nonneg b k). lia.
  - set (m := S n) in *. cbn [test_root_loop]. case_if.
    { exists false. split; [done|]. split; [done|]. intros (k & Hk & E). pose proof (Z.pow_le_mono_r b 1 k). rewrite Z.pow_1_r in *. lia. }
    case_if. { exists true. split; [done|]. split; [|done]. intros _. exists 1. subst a. split; [lia|]. by rewrite Z.pow_1_r. }
    destruct (a mod b =? 0) eqn:Hm; cbn [negb]; breflect; cycle 1.
    + exists false. split; [done|]. split; [done|]. intros (k & Hk & E). exfalso. apply Hm. rewrite E. replace k with (k - 1 + 1) by lia. rewrite Z.pow_add_r, Z.pow_1_r by lia. apply Z_mod_mult.
    + pose proof (Z.div_mod a b ltac:(lia)) as Ed. rewrite Hm, Z.add_0_r in Ed. set (q := a / b) in *.
      assert (0 <= q < 2 ^ Z.of_nat n) as Hq. { unfold m in Ha. rewrite Nat2Z.inj_succ, Z.pow_succ_r in Ha by lia. nia. }
      destruct (IH q Hq) as (r & E & Hr). exists r. split; [exact E|]. rewrite Hr. split; intros (k & Hk & Ek).
      * exists (k + 1). split; [lia|]. rewrite Z.pow_add_r, Z.pow_1_r by lia. subst q. lia.
      * destruct (decide (k = 1)) as [->|]; [rewrite Z.pow_1_r in Ek; lia|]. exists (k - 1). split; [lia|]. replace k with (k - 1 + 1) in Ek by lia. rewrite Z.pow_add_r, Z.pow_1_r in Ek by lia. nia.
Qed.
Lemma test_root_spec a b : 1 < b → 0 <= a < 2 ^ 32 → ∃ r, test_root a b = Ret r ∧ (r = true ↔ ∃ k, 1 <= k ∧ a = b ^ k).
Proof. intros Hb Ha. by apply (test_root_loop_spec b 32). Qed.
Lemma odd_power b k : Z.odd b = true → 0 <= k → Z.odd (b ^ k) = true.
Proof. intros Hb Hk. destruct (decide (k = 0)) as [->|]; [done|]. by rewrite Z.odd_pow by lia. Qed.
Definition sparse_group (g : Z) : Prop := g <= 1 ∨ ∃ b k, b ∈ [3; 5; 7] ∧ 1 <= k ∧ g = b ^ k.
(** With sparse superblocks the backup copies are in group 0, group 1 and
    the groups whose number is a power of 3, 5 or 7; with the older layout in
    every group, and with the second sparse layout in group 0 and the two groups
    that the superblock names. *)
Theorem bg_has_super_spec fs group : 0 <= group < 2 ^ 32 →
  ∃ b, ext2fs_bg_has_super fs group = Ret b ∧
  (b = true ↔ if ext2fs_has_feature_sparse_super2 (super fs) then group = 0 ∨ group = s_backup_bgs (super fs) 0 ∨ group = s_backup_bgs (super fs) 1
              else if ext2fs_has_feature_sparse_super (super fs) then sparse_group group else True).
Proof.
  intros Hg. unfold ext2fs_bg_has_super. case_if.
  { exists true. split; [done|]. split; [|done]. intros _. repeat case_match; [by left|left; lia|done]. }
  destruct (ext2fs_has_feature_sparse_super2 (super fs)).
  { eexists. split; [done|]. rewrite orb_true_iff, !Z.eqb_eq. tauto. }
  destruct (ext2fs_has_feature_sparse_super (super fs)); cbn [negb]; [|rewrite orb_true_r; by exists true]. rewrite orb_false_r. case_if.
  { exists true. split; [done|]. split; [|done]. intros _. left. lia. }
  destruct (has group 1) eqn:Hodd; cbn [negb].
  - destruct (test_root_spec group 3) as (r3 & -> & H3); [lia..|]. destruct (test_root_spec group 5) as (r5 & -> & H5); [lia..|]. destruct (test_root_spec group 7) as (r7 & E7 & H7); [lia..|].
    ostep. destruct r3. { exists true. split; [done|]. split; [|done]. intros _. right. destruct (proj1 H3 eq_refl) as (k & ? & ?). exists 3, k. split; [by repeat constructor|done]. }
    ostep. destruct r5. { exists true. split; [done|]. split; [|done]. intros _. right. destruct (proj1 H5 eq_refl) as (k & ? & ?). exists 5, k. split; [by repeat constructor|done]. }
    exists r7. split; [done|]. rewrite H7. split.
    + intros (k & ? & ?). right. exists 7, k. split; [by repeat constructor|done].
    + intros [?|(b & k & Hb & Hk & ->)]; [lia|]. rewrite !elem_of_cons in Hb. destruct Hb as [->|[->|[->|Hb]]]; [|..|by apply not_elem_of_nil in Hb].
      * discriminate (proj2 H3 ltac:(eauto)).
      * discriminate (proj2 H5 ltac:(eauto)).
      * eauto.
  - exists false. split; [done|]. split; [done|]. intros [?|(b & k & Hb & Hk & ->)]; [lia|]. exfalso.
    assert (Z.odd b = true) as Ho by (rewrite !elem_of_cons in Hb; destruct Hb as [->|[->|[->|Hb]]]; [done..|by apply not_elem_of_nil in Hb]).
    pose proof (odd_power b k Ho ltac:(lia)) as Hp. unfold has in Hodd. rewrite <-Z.bit0_odd in Hp. assert (Z.testbit (Z.land (b ^ k) 1) 0 = true) as Hl by (by rewrite Z.land_spec, Hp).
    apply negb_false_iff, Z.eqb_eq in Hodd. by rewrite Hodd in Hl.
Qed.

(** ** Where the descriptors are *)
Section descriptors.
Context (fs : filsys) (Hg : geom_ok fs) (per : Z) (Hper : EXT2_DESC_PER_BLOCK (super fs) = Ret per) (Hpos : 0 < per).
Notation first := (s_first_data_block (super fs)).
(** the first block of a group that can be used *)
Definition group_block (g : Z) : Z := let b := ext2fs_group_first_block2 fs g in if (b =? 0) && (blocksize fs =? 1024) then 1 else b.
Lemma group_block_later g : 0 < g < group_desc_count fs → group_block g = ext2fs_group_first_block2 fs g.
Proof. intros Hgr. unfold group_block. rewrite first_block_eq by (done || lia). destruct Hg. assert (0 < g * s_blocks_per_group (super fs)) by nia. by bfalse. Qed.
Lemma has_super_total g : 0 <= g < 2 ^ 32 → ∃ b : bool, ext2fs_bg_has_super fs g = Ret b.
Proof. intros Hgr. destruct (bg_has_super_spec fs g Hgr) as (b & E & _). by exists b. Qed.
Lemma group_block_range g : 0 <= g < group_desc_count fs → 0 <= group_block g < 2 ^ 63.
Proof. intros Hgr. unfold group_block. rewrite first_block_eq by (done || lia). destruct Hg. case_match; nia. Qed.
(** the writer, in the two layouts *)
Lemma super_loc_old g : 0 <= g < group_desc_count fs → ext2fs_bg_has_super fs g = Ret true →
  ext2fs_has_feature_meta_bg (super fs) = false ∨ g / per < s_first_meta_bg (super fs) →
  ∃ used, ext2fs_super_and_bgd_loc2 fs g = Ret (group_block g, group_block g + 1, 0, used).
Proof.
  intros Hgr Hb Hm. unfold ext2fs_super_and_bgd_loc2. rewrite Hb. ostep. rewrite Hper. ostep. bfalse.
  replace (negb _ || _) with true by (destruct Hm as [->|Hm]; [done|]; rewrite (proj2 (Z.ltb_lt _ _) Hm), orb_true_r; done). eexists. fold (group_block g).
  pose proof (group_block_range g Hgr). by rewrite u64_small by lia.
Qed.
Lemma super_loc_meta g b : 0 <= g < group_desc_count fs → ext2fs_has_feature_meta_bg (super fs) = true → s_first_meta_bg (super fs) <= g / per →
  g mod per = 0 ∨ g mod per = 1 → ext2fs_bg_has_super fs g = Ret b → ∃ s used, ext2fs_super_and_bgd_loc2 fs g = Ret (s, 0, group_block g + (if b then 1 else 0), used).
Proof.
  intros Hgr Hm Hf Hmod Hb. unfold ext2fs_super_and_bgd_loc2. rewrite Hb, Hper. ostep. bfalse. rewrite Hm. cbn [negb orb]. bfalse.
  replace (_ || _) with true by (destruct Hmod as [->| ->]; done). fold (group_block g). pose proof (group_block_range g Hgr). rewrite u64_small by (destruct b; lia). eauto.
Qed.
Lemma meta_first i : 0 <= i → i * per < group_desc_count fs → u32 (per * i) = i * per ∧ i * per / per = i ∧ i * per mod per = 0.
Proof. intros Hi Hl. pose proof (geo_small _ Hg). rewrite u32_small by nia. rewrite Z.div_mul, Z.mod_mul by lia. lia. Qed.
(** the reader, for the first and for the backup copy of a meta group *)
Lemma descriptor_loc_meta gb i b : 0 <= i → i * per < group_desc_count fs → ext2fs_has_feature_meta_bg (super fs) = true → s_first_meta_bg (super fs) <= i →
  ext2fs_bg_has_super fs (i * per) = Ret b → gb = first →
  ext2fs_descriptor_block_loc2 fs gb i =
    Ret (ext2fs_group_first_block2 fs (i * per) + (if b then 1 else 0) + if (i =? 0) && (blocksize fs =? 1024) && (1 <? EXT2FS_CLUSTER_RATIO fs) then 1 else 0).
Proof.
  intros Hi Hl Hm Hf Hb ->. destruct (meta_first i Hi Hl) as (Eu & _ & _). unfold ext2fs_descriptor_block_loc2. rewrite Hm. cbn [negb orb]. bfalse. rewrite Hper. ostep. rewrite Eu, Hb. ostep.
  rewrite Z.eqb_refl. cbn [negb andb]. f_equal. rewrite first_block_eq by (done || nia). destruct Hg. apply u64_small. assert (i * per * s_blocks_per_group (super fs) <= group_desc_count fs * s_blocks_per_group (super fs)) by nia.
  assert (0 <= i * per * s_blocks_per_group (super fs)) by nia. destruct b; case_match; lia.
Qed.
Lemma descriptor_loc_backup gb i b : 0 <= i → i * per + 1 < group_desc_count fs → ext2fs_has_feature_meta_bg (super fs) = true → s_first_meta_bg (super fs) <= i →
  ext2fs_bg_has_super fs (i * per + 1) = Ret b → gb ≠ first → ext2fs_group_first_block2 fs (i * per + 1) + 1 < ext2fs_blocks_count (super fs) →
  ext2fs_descriptor_block_loc2 fs gb i =
    Ret (ext2fs_group_first_block2 fs (i * per + 1) + (if b then 1 else 0) + if (i =? 0) && (blocksize fs =? 1024) && (1 <? EXT2FS_CLUSTER_RATIO fs) then 1 else 0).
Proof.
  intros Hi Hl Hm Hf Hb Hgb Hroom. destruct (meta_first i Hi ltac:(lia)) as (Eu & _ & _). pose proof (geo_small _ Hg). unfold ext2fs_descriptor_block_loc2. rewrite Hm. cbn [negb orb]. bfalse. rewrite Hper. ostep. rewrite Eu. set (z := if (i =? 0) && _ && _ then 1 else 0). assert (0 <= z <= 1) by (unfold z; case_match; lia).
  destruct (has_super_total (i * per) ltac:(nia)) as (b0 & ->). ostep. bfalse. cbn [negb andb]. rewrite (u32_small (i * per + 1)), Hb by nia. rewrite !first_block_eq in * by (done || nia).
  destruct Hg as [? ? ? ? He]. set (bpg := s_blocks_per_group (super fs)) in *. assert (0 <= i * per * bpg) by nia. assert ((i * per + 1) * bpg <= group_desc_count fs * bpg) by nia.
  rewrite u64_small by (destruct b0; lia). rewrite (proj2 (Z.ltb_lt _ _)) by (destruct b0; lia). ostep. f_equal. rewrite u64_small by (destruct b; lia). lia.
Qed.
End descriptors.
(** C39. Where the reader of the group descriptors (openfs.c) looks and where
    the writer (closefs.c) puts them.  In the new layout the [i]th block is in
    the first group of meta group [i], with a copy in the second group if there
    is one with room for it; in the old layout it is [i] blocks after the first
    one, in every group with a copy of the superblock.  Reader and writer agree
    for every file system with blocks larger than 1 KiB or without clusters
    ([adjusted] is false).  With 1 KiB blocks and clusters, where block 0 is
    skipped, they agree for the first copy in the new layout, and the reader is
    off by one block elsewhere: one too far for [i = 0] of a backup copy, one
    short for every later block after group 0 in the old layout ([skew]). *)
Theorem descriptor_loc_agrees fs per i :
  geom_ok fs → EXT2_DESC_PER_BLOCK (super fs) = Ret per → 0 < per → 0 <= i → i * per < group_desc_count fs →
  (blocksize fs = 1024 → s_first_data_block (super fs) = 0 ↔ 1 < EXT2FS_CLUSTER_RATIO fs) →
  let first := s_first_data_block (super fs) in
  let adjusted := (blocksize fs =? 1024) && (1 <? EXT2FS_CLUSTER_RATIO fs) in
  let skew (own : bool) := if adjusted then (if i =? 0 then 1 else 0) - (if own then 1 else 0) else 0 in
  if ext2fs_has_feature_meta_bg (super fs) && (s_first_meta_bg (super fs) <=? i) then
    (∃ s new used, ext2fs_super_and_bgd_loc2 fs (i * per) = Ret (s, 0, new, used) ∧ ext2fs_descriptor_block_loc2 fs first i = Ret new) ∧
    ∀ backup, backup ≠ first → 2 <= per → i * per + 1 < group_desc_count fs → ext2fs_group_first_block2 fs (i * per + 1) + 1 < ext2fs_blocks_count (super fs) →
      ∃ s new used, ext2fs_super_and_bgd_loc2 fs (i * per + 1) = Ret (s, 0, new, used) ∧ ext2fs_descriptor_block_loc2 fs backup i = Ret (new + skew false)
  else ∀ g, 0 <= g < group_desc_count fs → ext2fs_bg_has_super fs g = Ret true →
      ext2fs_has_feature_meta_bg (super fs) = false ∨ g / per < s_first_meta_bg (super fs) →
      ∃ s old used, ext2fs_super_and_bgd_loc2 fs g = Ret (s, old, 0, used) ∧
        ext2fs_descriptor_block_loc2 fs (ext2fs_group_first_block2 fs g) i = Ret (old + i + skew (g =? 0)).
Proof.
  intros Hg Hper Hpos Hi Hl Had first adjusted skew. pose proof (geo_small _ Hg). pose proof (groups_pos fs Hg). destruct (meta_first fs Hg per Hpos i Hi Hl) as (Eu & Ed & Em).
  assert (ext2fs_group_first_block2 fs 0 = first) as Ef by (rewrite first_block_eq by (done || lia); subst first; lia).
  assert (group_block fs 0 = first + if adjusted then 1 else 0) as Egb.
  { unfold group_block. rewrite Ef. subst adjusted. destruct (blocksize fs =? 1024) eqn:Eb; [|rewrite andb_false_r; simpl; lia]. apply Z.eqb_eq in Eb. specialize (Had Eb). fold first in Had.
    rewrite andb_true_r. cbn [andb]. destruct (first =? 0) eqn:E0; breflect; [btrue|bfalse]; lia. }
  destruct (ext2fs_has_feature_meta_bg (super fs) && (s_first_meta_bg (super fs) <=? i)) eqn:Hmeta.
  - apply andb_true_iff in Hmeta as [Hm Hf]. apply Z.leb_le in Hf. split.
    + destruct (has_super_total fs (i * per) ltac:(nia)) as (b & Eb). destruct (super_loc_meta fs Hg per Hper Hpos (i * per) b) as (s & used & E); [nia|done|lia|by left|done|].
      exists s. eexists. exists used. split; [exact E|]. rewrite (descriptor_loc_meta fs Hg per Hper Hpos first i b) by done. f_equal. rewrite <-andb_assoc. fold adjusted.
      destruct (decide (i = 0)) as [->|]; [rewrite Z.mul_0_l, Egb, Ef; cbn [Z.eqb andb]; lia|]. rewrite (group_block_later fs Hg) by nia. bfalse. cbn [andb]. lia.
    + intros backup Hb Hp2 Hl' Hroom. destruct (has_super_total fs (i * per + 1) ltac:(nia)) as (b & Eb).
      assert ((i * per + 1) / per = i ∧ (i * per + 1) mod per = 1) as [Eq Er] by (split; [symmetry; apply (Z.div_unique _ _ i 1)|symmetry; apply (Z.mod_unique _ _ i 1)]; lia).
      destruct (super_loc_meta fs Hg per Hper Hpos (i * per + 1) b) as (s & used & E); [nia|done|lia|by right|done|]. exists s. eexists. exists used. split; [exact E|].
      rewrite (group_block_later fs Hg) by nia. rewrite (descriptor_loc_backup fs Hg per Hper Hpos backup i b) by done. f_equal. f_equal.
      rewrite <-andb_assoc. fold adjusted. subst skew. cbn beta. by destruct adjusted, (i =? 0).
  - assert (ext2fs_has_feature_meta_bg (super fs) = false ∨ i < s_first_meta_bg (super fs)) as Hm by (apply andb_false_iff in Hmeta as [?|?]; breflect; auto).
    intros g Hgr Hb Hgm. destruct (super_loc_old fs Hg per Hper Hpos g Hgr Hb Hgm) as (used & E). do 3 eexists. split; [exact E|]. unfold ext2fs_descriptor_block_loc2.
    replace (negb _ || _) with true by (destruct Hm as [->|Hm]; [done|]; rewrite (proj2 (Z.ltb_lt _ _) Hm), orb_true_r; done). rewrite <-andb_assoc. fold adjusted. f_equal.
    assert (group_block fs g = ext2fs_group_first_block2 fs g + if (g =? 0) && adjusted then 1 else 0) as ->.
    { destruct (Z.eqb_spec g 0) as [->|Hn]; [by rewrite Egb, Ef|]. rewrite (group_block_later fs Hg) by lia. cbn [andb]. lia. }
    assert (i <= i * per) by nia. assert (0 <= ext2fs_group_first_block2 fs g < 2 ^ 63) by (rewrite first_block_eq by (done || lia); destruct Hg; nia).
    rewrite u64_small by (clear skew; destruct ((i =? 0) && adjusted); lia). subst skew. cbn beta. destruct adjusted, (i =? 0), (g =? 0); cbn [andb]; lia.
Qed.

(** With 1 KiB blocks and clusters, the reader is one block short for every
    block of descriptors but the first. *)
Lemma descriptor_loc_bigalloc fs per i : geom_ok fs → EXT2_DESC_PER_BLOCK (super fs) = Ret per → 0 < per → 1 <= i → i * per < group_desc_count fs →
  ext2fs_has_feature_meta_bg (super fs) = false → blocksize fs = 1024 → 1 < EXT2FS_CLUSTER_RATIO fs → s_first_data_block (super fs) = 0 →
  ∃ s old used, ext2fs_super_and_bgd_loc2 fs 0 = Ret (s, old, 0, used) ∧ ext2fs_descriptor_block_loc2 fs (s_first_data_block (super fs)) i = Ret (old + i - 1).
Proof.
  intros Hg Hper Hpos Hi Hl Hm Hb Hc Hf. pose proof (groups_pos fs Hg). pose proof (geo_small _ Hg). destruct (super_loc_old fs Hg per Hper Hpos 0 ltac:(lia) eq_refl (or_introl Hm)) as (used & E). do 3 eexists. split; [exact E|].
  assert (group_block fs 0 = 1) as -> by (unfold group_block; rewrite first_block_eq by (done || lia); rewrite Hf, Hb, Z.mul_0_l; done).
  unfold ext2fs_descriptor_block_loc2. rewrite Hm, Hf. cbn [negb orb]. bfalse. cbn [andb]. f_equal. rewrite u64_small by nia. lia.
Qed.

(** ** Sizes and attribute blocks of inodes *)
Lemma put_size_get inode size : 112 <= Z.of_nat (length inode) → 0 <= size < 2 ^ 63 → EXT2_I_SIZE (put_size inode size) = size.
Proof.
  intros Hl Hs. unfold EXT2_I_SIZE, put_size. assert (length (st 4 inode 0x04 (Z.land size 0xffffffff)) = length inode) as L by (apply length_st; lia).
  rewrite ld_st_other, !ld_st_same by (rewrite ?L; lia). change (256 ^ Z.of_nat 4) with (2 ^ 32). change 0xffffffff with (Z.ones 32). rewrite Z.land_ones, Z.mod_mod, Z.shiftr_div_pow2 by lia.
  assert (0 <= size / 2 ^ 32 < 2 ^ 32) by (split; [apply Z.div_pos; lia|apply Z.div_lt_upper_bound; lia]). rewrite (Z.mod_small (size / 2 ^ 32)) by done.
  rewrite lor_shiftl by (try lia; apply Z.mod_pos_bound; lia). pose proof (Z.div_mod size (2 ^ 32)). lia.
Qed.
Lemma super_st4 fs o v : 0 <= o → o + 4 <= Z.of_nat (length (super fs)) → length (super (set_super fs (st 4 (super fs) o v))) = length (super fs).
Proof. intros. cbn [super set_super]. by apply length_st; lia. Qed.
Lemma lor_range x y n : 0 <= n → 0 <= x < 2 ^ n → 0 <= y < 2 ^ n → 0 <= Z.lor x y < 2 ^ n.
Proof.
  intros Hn Hx Hy. assert (0 <= Z.lor x y) by (apply Z.lor_nonneg; lia). split; [done|]. apply Z.bounded_iff_bits_nonneg; [done..|]. intros k Hk.
  rewrite Z.lor_spec. by rewrite (proj1 (Z.bounded_iff_bits_nonneg n x Hn ltac:(lia)) ltac:(lia) k Hk), (proj1 (Z.bounded_iff_bits_nonneg n y Hn ltac:(lia)) ltac:(lia) k Hk).
Qed.
Lemma has_lor x m : m ≠ 0 → has (Z.lor x m) m = true.
Proof.
  intros Hm. unfold has. apply negb_true_iff, Z.eqb_neq. rewrite Z.land_comm, Z.land_lor_distr_r, Z.land_diag. intros E. apply Z.lor_eq_0_iff in E as [_ ?]. done.
Qed.
(** a feature word keeps its bit, whatever the revision update does *)
Lemma dynamic_rev_features fs : 0x68 <= Z.of_nat (length (super fs)) →
  s_feature_ro_compat (super (ext2fs_update_dynamic_rev fs)) = s_feature_ro_compat (super fs) ∧ s_feature_incompat (super (ext2fs_update_dynamic_rev fs)) = s_feature_incompat (super fs).
Proof.
  intros Hl. unfold ext2fs_update_dynamic_rev. case_match; [done|]. cbn [super set_super]. unfold s_feature_ro_compat, s_feature_incompat.
  assert (∀ v, length (st 4 (super fs) 0x4C v) = length (super fs)) as L by (intros; apply length_st; lia). split; rewrite !ld_st_other by (rewrite ?length_st by (rewrite ?L; lia); rewrite ?L; lia); done.
Qed.
(** Setting the size of an inode: a negative size is refused, and so is a
    size from 2 GiB on for anything but a regular file or directory; otherwise
    the size is read back, and a large regular file or directory has the feature
    it needs in the superblock, which is marked dirty when it changed. *)
Theorem inode_size_set_spec fs inode size : 0x68 <= Z.of_nat (length (super fs)) → 112 <= Z.of_nat (length inode) → - 2 ^ 63 <= size < 2 ^ 63 → bytes (super fs) →
  let '(rc, fs', inode') := ext2fs_inode_size_set fs inode size in
  let large := 2 ^ 31 <= size in
  if size <? 0 then rc = EINVAL ∧ fs' = fs ∧ inode' = inode
  else if (2 ^ 31 <=? size) && negb (LINUX_S_ISREG (i_mode inode)) && negb (LINUX_S_ISDIR (i_mode inode)) then rc = EXT2_ET_FILE_TOO_BIG ∧ fs' = fs ∧ inode' = inode
  else rc = 0 ∧ EXT2_I_SIZE inode' = size ∧ i_mode inode' = i_mode inode ∧
    (large → LINUX_S_ISREG (i_mode inode) = true → ext2fs_has_feature_large_file (super fs') = true) ∧
    (large → LINUX_S_ISREG (i_mode inode) = false → ext2fs_has_feature_largedir (super fs') = true) ∧
    (fs' = fs ∨ flags fs' = Z.lor (flags fs) 0x06).
Proof.
  intros Hs Hi Hz Hb. unfold ext2fs_inode_size_set. case_if; [done|]. unfold ext2fs_needs_large_file_feature. change 0x80000000 with (2 ^ 31).
  assert (i_mode (put_size inode size) = i_mode inode) as Em.
  { unfold i_mode, put_size. assert (∀ v, length (st 4 inode 0x04 v) = length inode) as L by (intros; apply length_st; lia). rewrite !ld_st_other by (rewrite ?L; lia). done. }
  pose proof (put_size_get inode size Hi ltac:(lia)) as Eg. case_if; cbn [andb]; [|split_and!; try done; [lia|lia|by left]]. unfold large_feature.
  assert (∀ o v, o ∈ [0x60; 0x64] → let fs1 := set_super fs (st 4 (super fs) o v) in 0x68 <= Z.of_nat (length (super fs1)) ∧ flags fs1 = flags fs) as Hset.
  { intros o v Ho. rewrite !elem_of_cons in Ho. cbn zeta. rewrite super_st4; [done|..]; destruct Ho as [->|[->|Ho]]; try lia; by apply not_elem_of_nil in Ho. }
  assert (∀ fs1 : filsys, 0x68 <= Z.of_nat (length (super fs1)) → let fs2 := ext2fs_mark_super_dirty (if s_rev_level (super fs1) =? 0 then ext2fs_update_dynamic_rev fs1 else fs1) in
    s_feature_ro_compat (super fs2) = s_feature_ro_compat (super fs1) ∧ s_feature_incompat (super fs2) = s_feature_incompat (super fs1) ∧ flags fs2 = Z.lor (flags fs1) 0x06) as Hdirty.
  { intros fs1 H1. destruct (dynamic_rev_features fs1 H1) as [E1 E2]. cbn [ext2fs_mark_super_dirty super set_flags flags]. case_match; [|done]. split_and!; [done..|]. unfold ext2fs_update_dynamic_rev. by case_match. }
  destruct (LINUX_S_ISREG (i_mode inode)); [|destruct (LINUX_S_ISDIR (i_mode inode))]; cbn [negb andb]; [| |done].
  - destruct (ext2fs_has_feature_large_file (super fs)) eqn:E; [split_and!; try done; by left|]. destruct (Hset 0x64 (Z.lor (s_feature_ro_compat (super fs)) 0x2) ltac:(by repeat constructor)) as [L1 F1].
    destruct (Hdirty (ext2fs_set_feature_large_file fs) L1) as (R & _ & F). split_and!; try done; [|by right; rewrite F]. intros _ _. unfold ext2fs_has_feature_large_file. rewrite R. cbn [ext2fs_set_feature_large_file super set_super].
    unfold s_feature_ro_compat at 1. rewrite ld_st_same by lia. change (256 ^ Z.of_nat 4) with (2 ^ 32). rewrite Z.mod_small; [by apply has_lor|].
    pose proof (ld_range 4 (super fs) 0x64 Hb ltac:(lia) ltac:(lia)) as Hr. apply lor_range; [lia|exact Hr|lia].
  - destruct (ext2fs_has_feature_largedir (super fs)) eqn:E; [split_and!; try done; by left|]. destruct (Hset 0x60 (Z.lor (s_feature_incompat (super fs)) 0x4000) ltac:(by repeat constructor)) as [L1 F1].
    destruct (Hdirty (ext2fs_set_feature_largedir fs) L1) as (_ & R & F). split_and!; try done; [|by right; rewrite F]. intros _ _. unfold ext2fs_has_feature_largedir. rewrite R. cbn [ext2fs_set_feature_largedir super set_super].
    unfold s_feature_incompat at 1. rewrite ld_st_same by lia. change (256 ^ Z.of_nat 4) with (2 ^ 32). rewrite Z.mod_small; [by apply has_lor|].
    pose proof (ld_range 4 (super fs) 0x60 Hb ltac:(lia) ltac:(lia)) as Hr. apply lor_range; [lia|exact Hr|lia].
Qed.

(** ** Witnesses: 20000 blocks in three groups *)
Definition geo_super : list Z := st 4 (st 4 (st 4 (st 4 (replicate 1024 0) 0x04 20000) 0x14 1) 0x20 8192) 0x64 1.
Definition geo_fs : filsys := Filsys geo_super 0 0 1024 3 (replicate 96 0) 1 16 0.
Lemma geo_fs_ok : geom_ok geo_fs.
Proof. split; vm_compute; repeat split; discriminate. Qed.
Lemma geo_bytes : bytes geo_super.
Proof. do 4 apply bytes_st. apply Forall_replicate. done. Qed.
Lemma groups_partition_witness : ∃ g, ext2fs_group_of_blk2 geo_fs 8193 = Ret g ∧ ext2fs_group_first_block2 geo_fs g <= 8193 <= ext2fs_group_last_block2 geo_fs g.
Proof.
  destruct (groups_partition geo_fs geo_fs_ok) as [H _]. destruct (H 8193) as (g & E & Hg & Hu); [vm_compute; split; discriminate || reflexivity|]. exists g. split; [exact E|]. by apply Hu.
Defined.
(** 64 groups of 256 blocks, with all descriptors in the new layout *)
Definition meta_super : list Z := st 4 (st 4 (st 4 (st 4 (st 4 (replicate 1024 0) 0x04 16384) 0x14 1) 0x20 256) 0x64 1) 0x60 0x10.
Definition meta_fs : filsys := Filsys meta_super 0 0 1024 64 (replicate 2048 0) 2 16 0.
Lemma meta_fs_ok : geom_ok meta_fs.
Proof. split; vm_compute; repeat split; discriminate. Qed.
(** the second block of the new layout with its copy, and the only block of the
    old layout after the superblock of group 1 *)
Lemma descriptor_loc_agrees_witness :
  (∃ s new used, ext2fs_super_and_bgd_loc2 meta_fs 32 = Ret (s, 0, new, used) ∧ ext2fs_descriptor_block_loc2 meta_fs 1 1 = Ret new) ∧
  (∃ s new used, ext2fs_super_and_bgd_loc2 meta_fs 33 = Ret (s, 0, new, used) ∧ ext2fs_descriptor_block_loc2 meta_fs 257 1 = Ret (new + 0)) ∧
  ∃ s old used, ext2fs_super_and_bgd_loc2 geo_fs 1 = Ret (s, old, 0, used) ∧ ext2fs_descriptor_block_loc2 geo_fs 8193 0 = Ret (old + 0 + 0).
Proof.
  destruct (descriptor_loc_agrees meta_fs 32 1 meta_fs_ok eq_refl ltac:(lia) ltac:(lia) ltac:(reflexivity) ltac:(intros _; split; vm_compute; discriminate)) as [H1 H2].
  split; [exact H1|]. split; [exact (H2 257 ltac:(vm_compute; discriminate) ltac:(lia) ltac:(reflexivity) ltac:(vm_compute; reflexivity))|].
  pose proof (descriptor_loc_agrees geo_fs 32 0 geo_fs_ok eq_refl ltac:(lia) ltac:(lia) ltac:(reflexivity) ltac:(intros _; split; vm_compute; discriminate)) as H.
  exact (H 1 ltac:(cbn; lia) eq_refl (or_introl eq_refl)).
Defined.
Definition big_inode : list Z := st 2 (replicate 128 0) 0 0x8000.
Lemma inode_size_set_spec_witness : let '(rc, fs', inode') := ext2fs_inode_size_set geo_fs big_inode (2 ^ 33) in
  rc = 0 ∧ EXT2_I_SIZE inode' = 2 ^ 33 ∧ ext2fs_has_feature_large_file (super fs') = true.
Proof.
  pose proof (inode_size_set_spec geo_fs big_inode (2 ^ 33) ltac:(vm_compute; discriminate) ltac:(vm_compute; discriminate) ltac:(lia) geo_bytes) as H.
  destruct (ext2fs_inode_size_set geo_fs big_inode (2 ^ 33)) as [[rc fs'] inode']. destruct H as (? & ? & _ & L & _). split_and!; [done..|]. apply L; [lia|reflexivity].
Defined.
End Groups.
