(* ===== verification/U32List.v ===== *)
(** Sorted lists of block numbers in the vendored e2fsprogs library
    (kernel/fs/lib/ext2fs/badblocks.c): an array that grows by a hundred
    entries, kept in ascending order without duplicates, searched by bisection.
    Every sequence of additions and removals, with memory running out at any
    point, refines a finite set; iteration enumerates it in ascending order. *)
From stdpp Require Import base numbers list sets gmap sorting.
From S2P Require Import Prelude.
Open Scope Z_scope.

Module U32List.
Definition EXT2_ET_MAGIC_BADBLOCKS_LIST : Z := 2133571330.
Definition EXT2_ET_MAGIC_BADBLOCKS_ITERATE : Z := 2133571331.
Definition EXT2_ET_NO_MEMORY : Z := 2133571398.
Definition INT_MAX : Z := 2 ^ 31 - 1.
Record u32_list := Bb { magic : Z; num : Z; size : Z; arr : list Z; badblocks_flags : Z }.
Definition set_num (bb : u32_list) (n : Z) : u32_list := Bb (magic bb) n (size bb) (arr bb) (badblocks_flags bb).
Definition set_arr (bb : u32_list) (l : list Z) : u32_list := Bb (magic bb) (num bb) (size bb) l (badblocks_flags bb).

(** ** Memory: [ok] says whether an allocation of that many bytes succeeds,
    [junk] is the contents of fresh memory *)
Section memory.
Context (ok : Z → bool) (junk : Z → Z).
Definition ext2fs_get_array (count sz : Z) : bool :=
  if negb (count =? 0) && ((2 ^ 64 - 1) / count <? sz) then false else ok (count * sz).
Definition make_u32_list (sz n : Z) (l : option (list Z)) : Z + u32_list :=
  if negb (ok 32) then inl EXT2_ET_NO_MEMORY else
  let sz := if sz =? 0 then 10 else sz in
  if negb (ext2fs_get_array (u64 sz) 4) then inl EXT2_ET_NO_MEMORY else
  inr (Bb EXT2_ET_MAGIC_BADBLOCKS_LIST n sz (match l with Some l => take (Z.to_nat sz) l | None => replicate (Z.to_nat sz) 0 end) 0).
Definition ext2fs_u32_list_create (sz : Z) : Z + u32_list := make_u32_list sz 0 None.
Definition ext2fs_u32_copy (src : u32_list) : Z + u32_list :=
  match make_u32_list (size src) (num src) (Some (arr src)) with
  | inl e => inl e
  | inr bb => inr (Bb (magic bb) (num bb) (size bb) (arr bb) (badblocks_flags src))
  end.

(** ** Adding: the place of the new entry, or [None] when it is there *)
Fixpoint add_place (n : nat) (i : Z) (l : list Z) (blk : Z) : outcome (option Z) :=
  match n with
  | O => Ret (Some i)
  | S n => x ← aget l i; if x =? blk then Ret None else if blk <? x then Ret (Some i) else add_place n (i + 1) l blk
  end.
(** [for (i = bb->num; i > j; i--) bb->list[i] = bb->list[i-1]] *)
Fixpoint shift_up (n : nat) (i : Z) (l : list Z) : outcome (list Z) :=
  match n with
  | O => Ret l
  | S n => x ← aget l (i - 1); l ← aset l i x; shift_up n (i - 1) l
  end.
(** room for one more entry; the size is an int *)
Definition grow (bb : u32_list) : outcome (Z + u32_list) :=
  if size bb <=? num bb then
    if INT_MAX <? size bb + 100 then Undef else
    if negb (ok ((size bb + 100) * 4)) then Ret (inl EXT2_ET_NO_MEMORY) else
    Ret (inr (Bb (magic bb) (num bb) (size bb + 100) (arr bb ++ (junk <$> seqZ (size bb) 100)) (badblocks_flags bb)))
  else Ret (inr bb).
Definition add_sorted (bb : u32_list) (blk : Z) : outcome (Z * u32_list) :=
  let i := num bb - 1 in
  last ← (if num bb =? 0 then Ret 0 else aget (arr bb) i);
  if negb (num bb =? 0) && (last =? blk) then Ret (0, bb) else
  if (num bb =? 0) || (last <? blk) then l ← aset (arr bb) (num bb) blk; Ret (0, set_num (set_arr bb l) (num bb + 1)) else
  place ← add_place (Z.to_nat (num bb)) 0 (arr bb) blk;
  match place with
  | None => Ret (0, bb)
  | Some j =>
    l ← shift_up (Z.to_nat (num bb - j)) (num bb) (arr bb);
    l ← aset l j blk;
    Ret (0, set_num (set_arr bb l) (num bb + 1))
  end.
Definition ext2fs_u32_list_add (bb : u32_list) (blk : Z) : outcome (Z * u32_list) :=
  if negb (magic bb =? EXT2_ET_MAGIC_BADBLOCKS_LIST) then Ret (EXT2_ET_MAGIC_BADBLOCKS_LIST, bb) else
  r ← grow bb;
  match r with
  | inl e => Ret (e, bb)
  | inr bb => add_sorted bb blk
  end.

(** ** Searching by bisection *)
Fixpoint bisect (fuel : nat) (low high : Z) (l : list Z) (blk : Z) : outcome Z :=
  match fuel with
  | O => Loop
  | S fuel =>
    if low <? high then
      let mid := u32 (low + high) / 2 in
      if (mid =? low) || (mid =? high) then Ret (-1) else
      x ← aget l mid;
      if blk =? x then Ret mid else if blk <? x then bisect fuel low mid l blk else bisect fuel mid high l blk
    else Ret (-1)
  end.
Definition ext2fs_u32_list_find (bb : u32_list) (blk : Z) : outcome Z :=
  if negb (magic bb =? EXT2_ET_MAGIC_BADBLOCKS_LIST) then Ret (-1) else
  if num bb =? 0 then Ret (-1) else
  let high := num bb - 1 in
  x ← aget (arr bb) 0;
  if blk =? x then Ret 0 else
  y ← aget (arr bb) high;
  if blk =? y then Ret high else bisect (Z.to_nat (num bb)) 0 high (arr bb) blk.
Definition ext2fs_u32_list_test (bb : u32_list) (blk : Z) : outcome Z :=
  i ← ext2fs_u32_list_find bb blk; Ret (if i <? 0 then 0 else 1).
(** [for (i = remloc; i < bb->num - 1; i++) bb->list[i] = bb->list[i+1]] *)
Fixpoint shift_down (n : nat) (i : Z) (l : list Z) : outcome (list Z) :=
  match n with
  | O => Ret l
  | S n => x ← aget l (i + 1); l ← aset l i x; shift_down n (i + 1) l
  end.
Definition ext2fs_u32_list_del (bb : u32_list) (blk : Z) : outcome (Z * u32_list) :=
  if num bb =? 0 then Ret (-1, bb) else
  remloc ← ext2fs_u32_list_find bb blk;
  if remloc <? 0 then Ret (-1, bb) else
  l ← shift_down (Z.to_nat (num bb - 1 - remloc)) remloc (arr bb);
  Ret (0, set_num (set_arr bb l) (num bb - 1)).

(** ** Iterating and comparing *)
Record u32_iterate := Iter { it_magic : Z; it_ptr : Z }.
Definition ext2fs_u32_list_iterate_begin (bb : u32_list) : Z + u32_iterate :=
  if negb (magic bb =? EXT2_ET_MAGIC_BADBLOCKS_LIST) then inl EXT2_ET_MAGIC_BADBLOCKS_LIST else
  if negb (ok 24) then inl EXT2_ET_NO_MEMORY else inr (Iter EXT2_ET_MAGIC_BADBLOCKS_ITERATE 0).
(** the value returned, [*blk] when it is written, and the iterator *)
Definition ext2fs_u32_list_iterate (iter : u32_iterate) (bb : u32_list) : outcome (Z * option Z * u32_iterate) :=
  if negb (it_magic iter =? EXT2_ET_MAGIC_BADBLOCKS_ITERATE) then Ret (0, None, iter) else
  if negb (magic bb =? EXT2_ET_MAGIC_BADBLOCKS_LIST) then Ret (0, None, iter) else
  if it_ptr iter <? num bb then x ← aget (arr bb) (it_ptr iter); Ret (1, Some x, Iter (it_magic iter) (it_ptr iter + 1))
  else Ret (0, Some 0, iter).
Definition ext2fs_u32_list_equal (bb1 bb2 : u32_list) : Z :=
  if negb (magic bb1 =? EXT2_ET_MAGIC_BADBLOCKS_LIST) then EXT2_ET_MAGIC_BADBLOCKS_LIST else
  if negb (magic bb2 =? EXT2_ET_MAGIC_BADBLOCKS_LIST) then EXT2_ET_MAGIC_BADBLOCKS_LIST else
  if negb (num bb1 =? num bb2) then 0 else
  if str_eqb (take (Z.to_nat (num bb1)) (arr bb1)) (take (Z.to_nat (num bb1)) (arr bb2)) then 1 else 0.
Definition ext2fs_u32_list_count (bb : u32_list) : Z := num bb.
End memory.

(** ** Arrays split at an index *)
Lemma aget_mid a (x : Z) r i : i = Z.of_nat (length a) → aget (a ++ x :: r) i = Ret x.
Proof. intros ->. apply aget_Ret. split; [lia|]. rewrite Nat2Z.id. by apply list_lookup_middle. Qed.
Lemma aset_mid a (x v : Z) r i : i = Z.of_nat (length a) → aset (a ++ x :: r) i v = Ret (a ++ v :: r).
Proof.
  intros ->. unfold aset. rewrite length_app. cbn [length]. rewrite (proj2 (Z.leb_le _ _)), (proj2 (Z.ltb_lt _ _)) by lia. cbn [andb]. f_equal. rewrite Nat2Z.id, <-(Nat.add_0_r (length a)). exact (insert_app_r a (x :: r) 0 v).
Qed.
Lemma shift_up_spec b a x r i : i = Z.of_nat (length a + length b) → ∃ y, shift_up (length b) i (a ++ b ++ x :: r) = Ret (a ++ y :: b ++ r).
Proof.
  revert x r i. induction b as [|z b IH] using rev_ind; intros x r i Hi; [by exists x|]. rewrite length_app in *. cbn [length] in *. replace (length b + 1)%nat with (S (length b)) by lia. cbn [shift_up].
  replace (a ++ (b ++ [z]) ++ x :: r) with ((a ++ b) ++ z :: x :: r) by (by rewrite <-!app_assoc). rewrite aget_mid by (rewrite length_app; lia). ostep.
  replace ((a ++ b) ++ z :: x :: r) with ((a ++ b ++ [z]) ++ x :: r) by (by rewrite <-!app_assoc). rewrite aset_mid by (rewrite !length_app; simpl; lia). ostep.
  replace ((a ++ b ++ [z]) ++ z :: r) with (a ++ b ++ z :: z :: r) by (by rewrite <-!app_assoc). destruct (IH z (z :: r) (i - 1) ltac:(lia)) as [y E]. exists y. rewrite E. by rewrite <-!app_assoc.
Qed.
Lemma shift_down_spec b a y r i : i = Z.of_nat (length a) → ∃ w, shift_down (length b) i (a ++ y :: b ++ r) = Ret (a ++ b ++ w :: r).
Proof.
  revert a y i. induction b as [|z b IH]; intros a y i Hi; [by exists y|]. cbn [shift_down length app]. replace (a ++ y :: z :: b ++ r) with ((a ++ [y]) ++ z :: b ++ r) by (by rewrite <-app_assoc).
  rewrite aget_mid by (rewrite length_app; simpl; lia). ostep. rewrite <-app_assoc. cbn [app]. rewrite aset_mid by done. ostep. replace (a ++ z :: z :: b ++ r) with ((a ++ [z]) ++ z :: b ++ r) by (by rewrite <-app_assoc).
  destruct (IH (a ++ [z]) z (i + 1)) as [w E]; [rewrite length_app; simpl; lia|]. exists w. rewrite E. by rewrite <-app_assoc.
Qed.
(** ** Ascending lists *)
Notation ascending := (StronglySorted Z.lt).
Lemma ascending_app a b : ascending (a ++ b) ↔ ascending a ∧ ascending b ∧ ∀ x y, x ∈ a → y ∈ b → x < y.
Proof. rewrite StronglySorted_app. tauto. Qed.
Lemma ascending_lookup l i j x y : ascending l → l !! i = Some x → l !! j = Some y → (i < j)%nat → x < y.
Proof.
  intros Hl Hi Hj Hij. rewrite <-(take_drop j l) in Hl. apply ascending_app in Hl as (_ & _ & H). apply H.
  - apply list_elem_of_lookup. exists i. by rewrite lookup_take_lt.
  - apply list_elem_of_lookup. exists 0%nat. rewrite lookup_drop. by rewrite Nat.add_0_r.
Qed.
Lemma ascending_inj l i j x : ascending l → l !! i = Some x → l !! j = Some x → i = j.
Proof.
  intros Hl Hi Hj. destruct (decide (i < j)%nat); [pose proof (ascending_lookup l i j x x Hl Hi Hj); lia|]. destruct (decide (j < i)%nat); [pose proof (ascending_lookup l j i x x Hl Hj Hi); lia|]. lia.
Qed.
Lemma add_place_spec e2 e1 rest blk : ascending (e1 ++ e2) → Forall (λ x, x < blk) e1 →
  ∃ r, add_place (length e2) (Z.of_nat (length e1)) (e1 ++ e2 ++ rest) blk = Ret r ∧
    match r with
    | None => blk ∈ e2
    | Some j => ∃ a b, e1 ++ e2 = a ++ b ∧ Forall (λ x, x < blk) a ∧ Forall (λ x, blk < x) b ∧ j = Z.of_nat (length a)
    end.
Proof.
  revert e1. induction e2 as [|x e2 IH]; intros e1 Hs Hlt.
  - eexists. split; [done|]. exists e1, []. by rewrite app_nil_r.
  - cbn [add_place length app]. rewrite aget_mid by done. ostep. destruct (Z.eqb_spec x blk) as [->|Hne]; [exists None; split; [done|by left]|]. destruct (Z.ltb_spec blk x) as [Hl|Hg].
    + exists (Some (Z.of_nat (length e1))). split; [done|]. exists e1, (x :: e2). split; [done|]. split; [done|]. split; [|done]. apply ascending_app in Hs as (_ & [_ Hx]%StronglySorted_inv & _). constructor; [done|].
      eapply Forall_impl; [exact Hx|]. cbn. lia.
    + destruct (IH (e1 ++ [x])) as (r & E & Hr); [by rewrite <-app_assoc|apply Forall_app; split; [done|by repeat constructor; lia]|]. exists r. split.
      * rewrite length_app in E. cbn [length] in E. rewrite <-app_assoc in E. cbn [app] in E. replace (Z.of_nat (length e1) + 1) with (Z.of_nat (length e1 + 1)) by lia. exact E.
      * destruct r as [j|]; [|by right]. rewrite <-app_assoc in Hr. exact Hr.
Qed.
Lemma bisect_spec fuel low high e rest blk x y : ascending e → Z.of_nat (length e) < 2 ^ 31 → 0 <= low → low < high → high - low <= Z.of_nat fuel →
  e !! Z.to_nat low = Some x → e !! Z.to_nat high = Some y → x < blk < y →
  ∃ r, bisect fuel low high (e ++ rest) blk = Ret r ∧ ((r = -1 ∧ blk ∉ e) ∨ (0 <= r ∧ e !! Z.to_nat r = Some blk)).
Proof.
  intros He Hlen. revert low high x y. induction fuel as [|fuel IH]; intros low high x y Hlow Hlh Hfuel Hx Hy Hb; [lia|]. cbn [bisect]. rewrite (proj2 (Z.ltb_lt _ _)) by lia.
  pose proof (lookup_lt_Some _ _ _ Hy) as Hhl. rewrite u32_small by lia. cbv zeta. set (mid := (low + high) / 2). assert (low <= mid < high) as Hmid by (unfold mid; zdm). destruct ((mid =? low) || (mid =? high)) eqn:Em.
  - exists (-1). split; [done|]. left. split; [done|]. assert (high = low + 1) as Eh. { apply orb_true_iff in Em as [Em|Em]; apply Z.eqb_eq in Em; unfold mid in *; zdm. }
    intros [k Hk]%list_elem_of_lookup. destruct (decide (k ≤ Z.to_nat low)%nat) as [Hkl|Hkl].
    + destruct (decide (k = Z.to_nat low)) as [->|]; [simplify_eq; lia|]. pose proof (ascending_lookup e k (Z.to_nat low) _ _ He Hk Hx ltac:(lia)). lia.
    + destruct (decide (k = Z.to_nat high)) as [->|]; [simplify_eq; lia|]. pose proof (ascending_lookup e (Z.to_nat high) k _ _ He Hy Hk ltac:(lia)). lia.
  - apply orb_false_iff in Em as [Em1%Z.eqb_neq Em2%Z.eqb_neq]. destruct (lookup_lt_is_Some_2 e (Z.to_nat mid)) as [z Hz]; [lia|].
    assert (aget (e ++ rest) mid = Ret z) as -> by (apply aget_Ret; split; [lia|]; by apply lookup_app_l_Some). ostep. destruct (Z.eqb_spec blk z) as [->|]; [exists mid; split; [done|]; right; split; [lia|done]|].
    destruct (Z.ltb_spec blk z); [eapply (IH low mid); eauto; lia|eapply (IH mid high); eauto; lia].
Qed.

(** ** Well-formed lists and their elements *)
Definition elems (bb : u32_list) : list Z := take (Z.to_nat (num bb)) (arr bb).
Record bb_ok (bb : u32_list) : Prop := {
  bk_magic : magic bb = EXT2_ET_MAGIC_BADBLOCKS_LIST;
  bk_num : 0 <= num bb <= size bb;
  bk_size : Z.of_nat (length (arr bb)) = size bb;
  bk_int : size bb <= INT_MAX;
  bk_sorted : ascending (elems bb)
}.
Lemma arr_split bb : bb_ok bb → ∃ rest, arr bb = elems bb ++ rest ∧ Z.of_nat (length (elems bb)) = num bb ∧ Z.of_nat (length rest) = size bb - num bb.
Proof.
  intros H. exists (drop (Z.to_nat (num bb)) (arr bb)). pose proof (bk_num _ H). pose proof (bk_size _ H). unfold elems. split; [by rewrite take_drop|]. rewrite length_take, length_drop. lia.
Qed.
Lemma elems_make bb e rest n : magic bb = EXT2_ET_MAGIC_BADBLOCKS_LIST → n = Z.of_nat (length e) → Z.of_nat (length (e ++ rest)) = size bb → size bb <= INT_MAX → ascending e →
  elems (set_num (set_arr bb (e ++ rest)) n) = e ∧ bb_ok (set_num (set_arr bb (e ++ rest)) n).
Proof.
  intros Hm -> Hl Hi He. assert (elems (set_num (set_arr bb (e ++ rest)) (Z.of_nat (length e))) = e) as E by (unfold elems; cbn [num arr set_num set_arr]; rewrite Nat2Z.id; apply take_app_length).
  split; [done|]. rewrite length_app in Hl. split; cbn [magic num size arr set_num set_arr]; [done|lia|rewrite length_app; lia|done|by rewrite E].
Qed.
Section operations.
Context (ok : Z → bool) (junk : Z → Z).
Lemma insert_ok bb a b r x blk : bb_ok bb → arr bb = (a ++ b) ++ x :: r → elems bb = a ++ b → Forall (λ x, x < blk) a → Forall (λ x, blk < x) b →
  let bb' := set_num (set_arr bb (a ++ blk :: b ++ r)) (num bb + 1) in bb_ok bb' ∧ elems bb' = a ++ blk :: b.
Proof.
  intros H Ea Ee Ha Hb bb'. destruct (arr_split bb H) as (rest & _ & Hl & _). rewrite Ee in Hl. pose proof (bk_size _ H) as Hs. rewrite Ea in Hs. rewrite !length_app in Hs. rewrite length_app in Hl. cbn [length] in Hs.
  pose proof (bk_sorted _ H) as Hso. rewrite Ee in Hso. apply ascending_app in Hso as (S1 & S2 & S3). unfold bb'. replace (a ++ blk :: b ++ r) with ((a ++ blk :: b) ++ r) by (by rewrite <-app_assoc).
  destruct (elems_make bb (a ++ blk :: b) r (num bb + 1)) as [E1 E2]; [apply H|rewrite length_app; cbn [length]; lia|rewrite !length_app; cbn [length]; lia|apply H| |done].
  apply ascending_app. split; [done|]. split; [by constructor|]. rewrite Forall_forall in Ha, Hb. intros y z Hy [->|Hz]%elem_of_cons; [by apply Ha|by apply S3].
Qed.
Lemma add_sorted_ok bb blk : bb_ok bb → num bb < size bb → ∃ bb', add_sorted bb blk = Ret (0, bb') ∧ bb_ok bb' ∧ size bb' = size bb ∧ ∀ x, x ∈ elems bb' ↔ x = blk ∨ x ∈ elems bb.
Proof.
  intros H Hn. destruct (arr_split bb H) as (rest & Ea & Hl & Hr). destruct rest as [|x0 r]; [cbn in Hr; lia|]. pose proof (bk_sorted _ H) as Hso. pose proof (bk_num _ H) as Hnum.
  assert (∀ a b, elems bb = a ++ b → Forall (λ x, x < blk) a → Forall (λ x, blk < x) b → ∃ bb', bb' = set_num (set_arr bb (a ++ blk :: b ++ r)) (num bb + 1) ∧ bb_ok bb' ∧ size bb' = size bb ∧ ∀ x, x ∈ elems bb' ↔ x = blk ∨ x ∈ elems bb) as Hins.
  { intros a b E Fa Fb. rewrite E in Ea. destruct (insert_ok bb a b r x0 blk H Ea E Fa Fb) as [O El]. eexists. split; [done|]. split; [exact O|]. split; [done|]. intros x. rewrite El, E, !elem_of_app, elem_of_cons. tauto. }
  assert (∀ x y, elems bb !! (Z.to_nat (num bb) - 1)%nat = Some y → x ∈ elems bb → x <= y) as Hlast.
  { intros x y Hy [k Hk]%list_elem_of_lookup. pose proof (lookup_lt_Some _ _ _ Hk). destruct (decide (k = (Z.to_nat (num bb) - 1)%nat)) as [->|]; [simplify_eq; lia|]. pose proof (ascending_lookup _ _ _ _ _ Hso Hk Hy ltac:(lia)). lia. }
  unfold add_sorted. cbv zeta. destruct (Z.eqb_spec (num bb) 0) as [E0|Hn0].
  - ostep. cbn [negb andb orb]. assert (elems bb = []) as Ee by (apply length_zero_iff_nil; lia). destruct (Hins [] []) as (bb' & Eb & Hb); [by rewrite Ee|constructor|constructor|]. rewrite Ea, Ee. cbn [app].
    rewrite (aset_mid [] x0 blk r) by (cbn; lia). ostep. rewrite Ee in Hb. exists bb'. split; [by rewrite Eb|exact Hb].
  - destruct (lookup_lt_is_Some_2 (elems bb) (Z.to_nat (num bb) - 1)) as [y Hy]; [lia|].
    assert (aget (arr bb) (num bb - 1) = Ret y) as ->. { apply aget_Ret. split; [lia|]. rewrite Ea. apply lookup_app_l_Some. by replace (Z.to_nat (num bb - 1)) with (Z.to_nat (num bb) - 1)%nat by lia. }
    ostep. cbn [negb andb orb]. destruct (Z.eqb_spec y blk) as [->|Hne].
    + exists bb. split; [done|]. split; [done|]. split; [done|]. intros x. split; [by right|]. intros [->|Hx]; [|done]. apply list_elem_of_lookup. by eexists.
    + destruct (Z.ltb_spec y blk) as [Hlt|Hge].
      * destruct (Hins (elems bb) []) as (bb' & Eb & Hb); [by rewrite app_nil_r| |constructor|]. { apply Forall_forall. intros x Hx. pose proof (Hlast x y Hy Hx). lia. }
        rewrite Ea, aset_mid by lia. ostep. exists bb'. split; [by rewrite Eb|exact Hb].
      * destruct (add_place_spec (elems bb) [] (x0 :: r) blk Hso ltac:(constructor)) as (res & Er & Hres). cbn [length app] in Er. change (Z.of_nat 0) with 0 in Er. replace (length (elems bb)) with (Z.to_nat (num bb)) in Er by lia.
        rewrite Ea, Er. ostep. destruct res as [j|].
        -- cbn [app] in Hres. destruct Hres as (a & b & Eab & Fa & Fb & ->). destruct (Hins a b Eab Fa Fb) as (bb' & Eb & Hb). assert (Z.of_nat (length a + length b) = num bb) as Hab by (rewrite <-length_app, <-Eab; done).
           destruct (shift_up_spec b a x0 r (num bb) ltac:(lia)) as [z Es]. rewrite Eab in *. rewrite <-app_assoc. replace (Z.to_nat (num bb - Z.of_nat (length a))) with (length b) by lia. rewrite Es. ostep. rewrite aset_mid by done. ostep.
           exists bb'. split; [by rewrite Eb|exact Hb].
        -- exists bb. split; [done|]. split; [done|]. split; [done|]. intros x. split; [by right|]. by intros [->|Hx].
Qed.
Lemma u32_add_ok bb blk : bb_ok bb → size bb + 100 <= INT_MAX → ∃ rc bb', ext2fs_u32_list_add ok junk bb blk = Ret (rc, bb') ∧ bb_ok bb' ∧ size bb' <= size bb + 100 ∧
  ((rc = 0 ∧ ∀ x, x ∈ elems bb' ↔ x = blk ∨ x ∈ elems bb) ∨ (rc = EXT2_ET_NO_MEMORY ∧ bb' = bb ∧ ok ((size bb + 100) * 4) = false)).
Proof.
  intros H Hi. pose proof (bk_num _ H) as Hn. pose proof (bk_size _ H) as Hs. unfold ext2fs_u32_list_add, grow. rewrite (bk_magic _ H), Z.eqb_refl. cbn [negb]. destruct (Z.leb_spec (size bb) (num bb)) as [Hfull|Hroom].
  - rewrite (proj2 (Z.ltb_ge _ _)) by lia. destruct (ok ((size bb + 100) * 4)) eqn:Eok; cbn [negb]; ostep; [|exists EXT2_ET_NO_MEMORY, bb; split; [done|]; split; [done|]; split; [lia|right; done]].
    set (bb1 := Bb _ _ _ _ _). assert (elems bb1 = elems bb) as Ee by (unfold elems; cbn [num arr bb1]; apply take_app_le; lia).
    assert (bb_ok bb1) as H1. { split; cbn [magic num size arr bb1]; [done|lia|rewrite length_app, length_fmap, length_seqZ; lia|lia|rewrite Ee; apply H]. }
    destruct (add_sorted_ok bb1 blk H1) as (bb' & E & O & Esz & Hel); [cbn [num size bb1]; lia|]. rewrite E. exists 0, bb'. split; [done|]. split; [done|]. cbn [size bb1] in Esz. split; [lia|]. left. split; [done|]. intros x. by rewrite Hel, Ee.
  - ostep. destruct (add_sorted_ok bb blk H Hroom) as (bb' & E & O & Esz & Hel). rewrite E. exists 0, bb'. split; [done|]. split; [done|]. split; [lia|]. by left.
Qed.
End operations.
Lemma find_ok bb blk : bb_ok bb → ∃ r, ext2fs_u32_list_find bb blk = Ret r ∧ ((r = -1 ∧ blk ∉ elems bb) ∨ (0 <= r ∧ elems bb !! Z.to_nat r = Some blk)).
Proof.
  intros H. destruct (arr_split bb H) as (rest & Ea & Hl & Hr). pose proof (bk_num _ H) as Hn. pose proof (bk_int _ H) as Hi. unfold INT_MAX in Hi. unfold ext2fs_u32_list_find. rewrite (bk_magic _ H), Z.eqb_refl. cbn [negb]. cbv zeta.
  destruct (Z.eqb_spec (num bb) 0) as [E0|Hn0]. { exists (-1). split; [done|]. left. split; [done|]. assert (elems bb = []) as -> by (apply length_zero_iff_nil; lia). apply not_elem_of_nil. }
  destruct (lookup_lt_is_Some_2 (elems bb) 0) as [x Hx]; [lia|]. destruct (lookup_lt_is_Some_2 (elems bb) (Z.to_nat (num bb - 1))) as [y Hy]; [lia|].
  assert (aget (arr bb) 0 = Ret x) as -> by (apply aget_Ret; split; [lia|]; rewrite Ea; by apply lookup_app_l_Some). ostep. destruct (Z.eqb_spec blk x) as [->|Hnx]; [exists 0; split; [done|]; right; split; [lia|done]|].
  assert (aget (arr bb) (num bb - 1) = Ret y) as -> by (apply aget_Ret; split; [lia|]; rewrite Ea; by apply lookup_app_l_Some). ostep. destruct (Z.eqb_spec blk y) as [->|Hny]; [exists (num bb - 1); split; [done|]; right; split; [lia|done]|].
  assert (∀ k z, elems bb !! k = Some z → x <= z <= y) as Hrange.
  { intros k z Hk. pose proof (lookup_lt_Some _ _ _ Hk) as Hkl. pose proof (bk_sorted _ H) as Hso. split.
    - destruct (decide (k = 0%nat)) as [->|]; [simplify_eq; lia|]. pose proof (ascending_lookup _ _ _ _ _ Hso Hx Hk ltac:(lia)). lia.
    - destruct (decide (k = Z.to_nat (num bb - 1))) as [->|]; [simplify_eq; lia|]. pose proof (ascending_lookup _ _ _ _ _ Hso Hk Hy ltac:(lia)). lia. }
  destruct (decide (x < blk < y)) as [Hb|Hb].
  - rewrite Ea. apply (bisect_spec _ 0 (num bb - 1) (elems bb) rest blk x y); [apply H|lia|lia| |lia|done|done|done].
    destruct (decide (num bb = 1)) as [E1|]; [|lia]. rewrite E1 in Hy. change (Z.to_nat (1 - 1)) with 0%nat in Hy. simplify_eq. lia.
  - (* outside the range: whatever the bisection meets, the block is not there *)
    assert (blk ∉ elems bb) as Hout by (intros [k Hk]%list_elem_of_lookup; pose proof (Hrange k blk Hk); lia).
    assert (∀ fuel low high, 0 <= low → low <= high → high < num bb → high - low < Z.of_nat fuel → bisect fuel low high (arr bb) blk = Ret (-1)) as Hb'; [|rewrite Hb' by lia; exists (-1); split; [done|by left]].
    induction fuel as [|fuel IH]; intros low high H0 H1 H2 H3; [lia|]. cbn [bisect]. cbv zeta. rewrite u32_small by lia. destruct (Z.ltb_spec low high); [|done]. set (mid := (low + high) / 2). assert (low <= mid < high) by (unfold mid; zdm).
    destruct (Z.eqb_spec mid low); [done|]. destruct (Z.eqb_spec mid high); [done|]. cbn [orb]. destruct (lookup_lt_is_Some_2 (elems bb) (Z.to_nat mid)) as [z Hz]; [lia|].
    assert (aget (arr bb) mid = Ret z) as -> by (apply aget_Ret; split; [lia|]; rewrite Ea; by apply lookup_app_l_Some). ostep. destruct (Z.eqb_spec blk z) as [->|]; [exfalso; apply Hout, list_elem_of_lookup; by eexists|].
    destruct (blk <? z); apply IH; lia.
Qed.
Lemma del_ok bb blk : bb_ok bb → ∃ rc bb', ext2fs_u32_list_del bb blk = Ret (rc, bb') ∧ bb_ok bb' ∧ size bb' = size bb ∧
  ((rc = 0 ∧ blk ∈ elems bb) ∨ (rc = -1 ∧ blk ∉ elems bb)) ∧ ∀ x, x ∈ elems bb' ↔ x ≠ blk ∧ x ∈ elems bb.
Proof.
  intros H. destruct (find_ok bb blk H) as (r & Ef & Hr). destruct (arr_split bb H) as (rest & Ea & Hl & Hre). pose proof (bk_sorted _ H) as Hso. pose proof (bk_num _ H) as Hn. unfold ext2fs_u32_list_del.
  assert (blk ∉ elems bb → ∃ rc bb', Ret (-1, bb) = Ret (rc, bb') ∧ bb_ok bb' ∧ size bb' = size bb ∧ ((rc = 0 ∧ blk ∈ elems bb) ∨ (rc = -1 ∧ blk ∉ elems bb)) ∧ ∀ x, x ∈ elems bb' ↔ x ≠ blk ∧ x ∈ elems bb) as Hmiss.
  { intros Hno. exists (-1), bb. split; [done|]. split; [done|]. split; [done|]. split; [by right|]. intros x. split; [|tauto]. intros Hx. split; [|done]. by intros ->. }
  destruct (Z.eqb_spec (num bb) 0) as [E0|Hn0]. { apply Hmiss. assert (elems bb = []) as -> by (apply length_zero_iff_nil; lia). apply not_elem_of_nil. }
  rewrite Ef. ostep. destruct Hr as [[-> Hno]|[Hr0 Hat]]; [by apply Hmiss|]. rewrite (proj2 (Z.ltb_ge r 0)) by lia. pose proof (lookup_lt_Some _ _ _ Hat) as Hrl.
  apply list_elem_of_split_length in Hat as (a & b & Eab & Hra). rewrite Eab in *. assert (num bb = Z.of_nat (length a) + 1 + Z.of_nat (length b)) as Hnum by (rewrite <-Hl, length_app; cbn [length]; lia).
  destruct (shift_down_spec b a blk rest r ltac:(lia)) as [w Es]. rewrite Ea. replace (Z.to_nat (num bb - 1 - r)) with (length b) by lia. rewrite <-app_assoc. cbn [app]. rewrite Es. ostep.
  apply ascending_app in Hso as (S1 & [S2 F2]%StronglySorted_inv & S3). replace (a ++ b ++ w :: rest) with ((a ++ b) ++ w :: rest) by (by rewrite <-app_assoc).
  destruct (elems_make bb (a ++ b) (w :: rest) (num bb - 1)) as [E1 E2]; [apply H|rewrite length_app; lia|rewrite !length_app; cbn [length]; lia|apply H|apply ascending_app; split; [done|]; split; [done|]; intros x y Hx Hy; apply S3; [done|by right]|].
  exists 0, (set_num (set_arr bb ((a ++ b) ++ w :: rest)) (num bb - 1)). split; [done|]. split; [done|]. split; [done|]. split; [left; split; [done|]; apply elem_of_app; right; by left|]. intros x. rewrite E1, !elem_of_app, elem_of_cons. split.
  - intros [Hx|Hx]; (split; [|tauto]); intros ->; [pose proof (S3 blk blk Hx ltac:(by left)); lia|]. rewrite Forall_forall in F2. pose proof (F2 _ Hx). lia.
  - intros [Hne [Hx|[Hx|Hx]]]; [by left|done|by right].
Qed.

(** ** Sequences of operations, each with its own memory conditions *)
Inductive op := Add (mem : bool) (blk : Z) | Del (blk : Z).
Definition step (junk : Z → Z) (o : op) (bb : u32_list) : outcome (Z * u32_list) :=
  match o with
  | Add mem blk => ext2fs_u32_list_add (λ _, mem) junk bb blk
  | Del blk => ext2fs_u32_list_del bb blk
  end.
Fixpoint run (junk : Z → Z) (ops : list op) (bb : u32_list) : outcome (list Z * u32_list) :=
  match ops with
  | [] => Ret ([], bb)
  | o :: ops => step junk o bb ≫= λ r : Z * u32_list, run junk ops r.2 ≫= λ r2 : list Z * u32_list, Ret (r.1 :: r2.1, r2.2)
  end.
(** what the returned codes mean for the set *)
Fixpoint follows (ops : list op) (rcs : list Z) (S S' : gset Z) : Prop :=
  match ops, rcs with
  | [], [] => S' = S
  | Add mem blk :: ops, rc :: rcs => (rc = 0 ∧ follows ops rcs ({[blk]} ∪ S) S') ∨ (mem = false ∧ rc = EXT2_ET_NO_MEMORY ∧ follows ops rcs S S')
  | Del blk :: ops, rc :: rcs => rc = (if decide (blk ∈ S) then 0 else -1) ∧ follows ops rcs (S ∖ {[blk]}) S'
  | _, _ => False
  end.
(** [while (ext2fs_u32_list_iterate(iter, &blk)) ...] *)
Fixpoint iterate_all (fuel : nat) (iter : u32_iterate) (bb : u32_list) : outcome (list Z) :=
  match fuel with
  | O => Loop
  | S fuel =>
    ext2fs_u32_list_iterate iter bb ≫= λ r : Z * option Z * u32_iterate,
    if r.1.1 =? 0 then Ret [] else l ← iterate_all fuel r.2 bb; Ret (default 0 r.1.2 :: l)
  end.
Lemma u32_create_ok ok sz bb : 0 <= sz <= INT_MAX → ext2fs_u32_list_create ok sz = inr bb → bb_ok bb ∧ elems bb = [] ∧ size bb = (if sz =? 0 then 10 else sz).
Proof.
  intros Hs. unfold ext2fs_u32_list_create, make_u32_list. destruct (negb (ok 32)); [done|]. cbv zeta. set (n := if sz =? 0 then 10 else sz). destruct (negb _); [done|]. intros [= <-]. split; [|done].
  assert (0 < n <= INT_MAX) as Hn by (unfold n, INT_MAX in *; destruct (Z.eqb_spec sz 0); lia). split; cbn [magic num size arr]; [done|lia|rewrite length_replicate; lia|lia|]. constructor.
Qed.
Lemma iterate_S fuel iter bb : iterate_all (S fuel) iter bb = (ext2fs_u32_list_iterate iter bb ≫= λ r : Z * option Z * u32_iterate,
  if r.1.1 =? 0 then Ret [] else l ← iterate_all fuel r.2 bb; Ret (default 0 r.1.2 :: l)).
Proof. done. Qed.
Lemma iterate_ok bb k : bb_ok bb → (k ≤ Z.to_nat (num bb))%nat → iterate_all (S k) (Iter EXT2_ET_MAGIC_BADBLOCKS_ITERATE (num bb - Z.of_nat k)) bb = Ret (drop (Z.to_nat (num bb) - k) (elems bb)).
Proof.
  intros H. destruct (arr_split bb H) as (rest & Ea & Hl & _). pose proof (bk_num _ H). induction k as [|k IH]; intros Hk; rewrite iterate_S; unfold ext2fs_u32_list_iterate at 1; cbn [it_magic it_ptr]; rewrite (bk_magic _ H), !Z.eqb_refl; cbn [negb].
  - rewrite (proj2 (Z.ltb_ge _ _)) by lia. ostep. cbn [fst]. rewrite drop_ge by lia. done.
  - rewrite (proj2 (Z.ltb_lt _ _)) by lia. destruct (lookup_lt_is_Some_2 (elems bb) (Z.to_nat (num bb) - S k)) as [x Hx]; [lia|].
    assert (aget (arr bb) (num bb - Z.of_nat (S k)) = Ret x) as ->. { apply aget_Ret. split; [lia|]. rewrite Ea. apply lookup_app_l_Some. by replace (Z.to_nat (num bb - Z.of_nat (S k))) with (Z.to_nat (num bb) - S k)%nat by lia. }
    ostep. cbn [fst snd default]. change (1 =? 0) with false. cbn iota. replace (num bb - Z.of_nat (S k) + 1) with (num bb - Z.of_nat k) by lia. rewrite IH by lia. ostep. rewrite (drop_S _ _ _ Hx). by replace (S (Z.to_nat (num bb) - S k)) with (Z.to_nat (num bb) - k)%nat by lia.
Qed.
Lemma run_ok junk ops bb : bb_ok bb → size bb + 100 * Z.of_nat (length ops) <= INT_MAX →
  ∃ rcs bb', run junk ops bb = Ret (rcs, bb') ∧ bb_ok bb' ∧ follows ops rcs (list_to_set (elems bb)) (list_to_set (elems bb')).
Proof.
  revert bb. induction ops as [|o ops IH]; intros bb H Hs; [by exists [], bb|]. cbn [length] in Hs. cbn [run]. destruct o as [mem blk|blk]; cbn [step].
  - destruct (u32_add_ok (λ _, mem) junk bb blk H ltac:(lia)) as (rc & bb1 & E & O1 & Sz & Hrc). rewrite E. ostep. cbn [fst snd]. destruct (IH bb1 O1 ltac:(lia)) as (rcs & bb2 & E2 & O2 & F2). rewrite E2. ostep. cbn [fst snd].
    exists (rc :: rcs), bb2. split; [done|]. split; [done|]. cbn [follows]. destruct Hrc as [[-> Hel]|(-> & -> & ->)].
    + left. split; [done|]. assert (list_to_set (elems bb1) = {[blk]} ∪ list_to_set (C := gset Z) (elems bb)) as <-; [|done]. apply set_eq. intros x. rewrite elem_of_union, elem_of_singleton, !elem_of_list_to_set. apply Hel.
    + by right.
  - destruct (del_ok bb blk H) as (rc & bb1 & E & O1 & Sz & Hrc & Hel). rewrite E. ostep. cbn [fst snd]. destruct (IH bb1 O1 ltac:(lia)) as (rcs & bb2 & E2 & O2 & F2). rewrite E2. ostep. cbn [fst snd].
    exists (rc :: rcs), bb2. split; [done|]. split; [done|]. cbn [follows]. split.
    + destruct Hrc as [[-> Hin]|[-> Hin]]; [rewrite decide_True|rewrite decide_False]; rewrite ?elem_of_list_to_set; done.
    + assert (list_to_set (elems bb1) = list_to_set (C := gset Z) (elems bb) ∖ {[blk]}) as <-; [|done]. apply set_eq. intros x. rewrite elem_of_difference, elem_of_singleton, !elem_of_list_to_set, Hel. tauto.
Qed.
Lemma ascending_NoDup l : ascending l → NoDup l.
Proof.
  induction 1 as [|x l Hl IH Hx]; constructor; [|done]. intros Hin. rewrite Forall_forall in Hx. pose proof (Hx _ Hin). lia.
Qed.

(** ** Theorems *)

(** A list refines a finite set: after any sequence of additions and
    removals on a new list, with memory running out at any of them, the return
    codes say which changes were made to the set; the list is ascending, its
    count is the size of the set, the search by bisection answers membership,
    and iterating enumerates exactly the set. *)
Theorem u32_list_refines ok junk sz bb0 ops : 0 <= sz → ext2fs_u32_list_create ok sz = inr bb0 → sz + 10 + 100 * Z.of_nat (length ops) <= INT_MAX →
  ∃ rcs bb (S : gset Z), run junk ops bb0 = Ret (rcs, bb) ∧ follows ops rcs ∅ S ∧ ascending (elems bb) ∧ (∀ x, x ∈ elems bb ↔ x ∈ S) ∧
    ext2fs_u32_list_count bb = Z.of_nat (base.size S) ∧ (∀ x, ext2fs_u32_list_test bb x = Ret (if decide (x ∈ S) then 1 else 0)) ∧
    iterate_all (Datatypes.S (base.size S)) (Iter EXT2_ET_MAGIC_BADBLOCKS_ITERATE 0) bb = Ret (elems bb).
Proof.
  intros Hsz Hc Hi. destruct (u32_create_ok ok sz bb0 ltac:(lia) Hc) as (O0 & E0 & S0). destruct (run_ok junk ops bb0 O0) as (rcs & bb & E & O & F); [rewrite S0; destruct (sz =? 0); lia|].
  rewrite E0 in F. exists rcs, bb, (list_to_set (elems bb)). split; [done|]. split; [exact F|]. split; [apply O|]. split; [intros; by rewrite elem_of_list_to_set|]. destruct (arr_split bb O) as (rest & _ & Hl & _).
  assert (base.size (list_to_set (C := gset Z) (elems bb)) = length (elems bb)) as -> by (apply size_list_to_set, ascending_NoDup, O). split; [unfold ext2fs_u32_list_count; lia|]. split.
  - intros x. unfold ext2fs_u32_list_test. destruct (find_ok bb x O) as (r & -> & [[-> Hr]|[Hr0 Hr]]); ostep.
    + rewrite decide_False by (by rewrite elem_of_list_to_set). done.
    + rewrite decide_True by (rewrite elem_of_list_to_set; apply list_elem_of_lookup; by eexists). by rewrite (proj2 (Z.ltb_ge _ _)).
  - pose proof (iterate_ok bb (Z.to_nat (num bb)) O ltac:(lia)) as HI. pose proof (bk_num _ O). rewrite Z2Nat.id, Z.sub_diag, Nat.sub_diag, drop_0 in HI by lia. by replace (length (elems bb)) with (Z.to_nat (num bb)) by lia.
Qed.
(** Copies are equal lists, and equality of lists is equality of the sets. *)
Lemma copy_equal ok bb bb' : bb_ok bb → 0 < size bb → ext2fs_u32_copy ok bb = inr bb' → bb_ok bb' ∧ elems bb' = elems bb.
Proof.
  intros H Hs. unfold ext2fs_u32_copy, make_u32_list. destruct (negb (ok 32)); [done|]. rewrite (proj2 (Z.eqb_neq _ _)) by lia. destruct (negb _); [done|]. intros [= <-]. pose proof (bk_size _ H) as Hl. pose proof (bk_num _ H) as Hn.
  rewrite take_ge by lia. split; [|done]. split; cbn [magic num size arr badblocks_flags]; [done|apply H|apply H|apply H|]. apply (bk_sorted _ H).
Qed.
Lemma list_equal_spec bb1 bb2 : bb_ok bb1 → bb_ok bb2 → ext2fs_u32_list_equal bb1 bb2 = (if decide (list_to_set (C := gset Z) (elems bb1) = list_to_set (elems bb2)) then 1 else 0).
Proof.
  intros H1 H2. destruct (arr_split bb1 H1) as (r1 & _ & L1 & _), (arr_split bb2 H2) as (r2 & _ & L2 & _). unfold ext2fs_u32_list_equal. rewrite (bk_magic _ H1), (bk_magic _ H2), Z.eqb_refl. cbn [negb].
  assert (list_to_set (C := gset Z) (elems bb1) = list_to_set (elems bb2) ↔ elems bb1 = elems bb2) as Heq.
  { split; [|by intros ->]. intros Hset. assert (elems bb1 ≡ₚ elems bb2) as Hp. { apply NoDup_Permutation; [apply ascending_NoDup, H1|apply ascending_NoDup, H2|]. intros x. rewrite <-!(elem_of_list_to_set (C := gset Z)). by rewrite Hset. }
    apply (StronglySorted_unique_strong Z.lt); [|apply H1|apply H2|exact Hp]. intros; lia. }
  destruct (Z.eqb_spec (num bb1) (num bb2)) as [En|En]; cbn [negb].
  - rewrite En at 2. fold (elems bb1) (elems bb2). destruct (str_eqb (elems bb1) (elems bb2)) eqn:E.
    + apply str_eqb_eq in E. rewrite decide_True by (by apply Heq). done.
    + apply str_eqb_neq in E. rewrite decide_False by (by rewrite Heq). done.
  - rewrite decide_False; [done|]. rewrite Heq. intros E. rewrite E in L1. lia.
Qed.

(** ** Witnesses *)
Lemma u32_list_refines_witness : ∃ rcs bb (S : gset Z), run (λ _, 77) [Add true 5; Add true 3; Add false 9; Del 5; Add true 4; Del 8] (Bb EXT2_ET_MAGIC_BADBLOCKS_LIST 0 2 [0; 0] 0) = Ret (rcs, bb) ∧
  (∀ x, x ∈ elems bb ↔ x ∈ S).
Proof.
  destruct (u32_list_refines (λ _, true) (λ _, 77) 2 (Bb EXT2_ET_MAGIC_BADBLOCKS_LIST 0 2 [0; 0] 0) [Add true 5; Add true 3; Add false 9; Del 5; Add true 4; Del 8]) as (rcs & bb & S & E & _ & _ & Hel & _); [lia|reflexivity|unfold INT_MAX; cbn; lia|].
  exists rcs, bb, S. split; [exact E|exact Hel].
Defined.
Example u32_list_run : run (λ _, 77) [Add true 5; Add true 3; Add false 9; Del 5; Add true 4; Del 8] (Bb EXT2_ET_MAGIC_BADBLOCKS_LIST 0 2 [0; 0] 0) =
  Ret ([0; 0; EXT2_ET_NO_MEMORY; 0; 0; -1], Bb EXT2_ET_MAGIC_BADBLOCKS_LIST 2 2 [3; 4] 0).
Proof. reflexivity. Qed.
End U32List.
