(* ===== verification/Digest.v ===== *)
(** Digests as file names in the vendored e2fsprogs library
    (kernel/fs/lib/ext2fs/digest_encode.c): a string of bytes as the base-64
    digits of the number it spells, least significant first, over 64 characters
    that are valid in names.  Decoding inverts encoding and refuses foreign
    characters and left-over bits. *)
From stdpp Require Import base numbers list strings.
From S2P Require Import Prelude.
Open Scope Z_scope.

Module Digest.
Definition lookup_table : list Z := str "ABCDEFGHIJKLMNOPQRSTUVWXYZabcdefghijklmnopqrstuvwxyz0123456789+,".
Definition letter (d : Z) : Z := nth (Z.to_nat d) lookup_table 0.
(** [do { *cp++ = lookup_table[ac & 0x3f]; ac >>= 6; bits -= 6; } while (bits >= 6)] *)
Fixpoint emit (fuel : nat) (ac bits : Z) : outcome (list Z * Z * Z) :=
  match fuel with
  | O => Loop
  | S fuel =>
    let c := letter (Z.land ac 0x3f) in
    let ac := Z.shiftr ac 6 in
    let bits := bits - 6 in
    if 6 <=? bits then emit fuel ac bits ≫= λ r : list Z * Z * Z, Ret (c :: r.1.1, r.1.2, r.2) else Ret ([c], ac, bits)
  end.
Fixpoint encode_loop (src : list Z) (ac bits : Z) : outcome (list Z * Z * Z) :=
  match src with
  | [] => Ret ([], ac, bits)
  | b :: src =>
    let ac := ac + Z.shiftl b bits in
    let bits := bits + 8 in
    emit (Z.to_nat bits) ac bits ≫= λ r : list Z * Z * Z,
    encode_loop src r.1.2 r.2 ≫= λ r2 : list Z * Z * Z, Ret (r.1.1 ++ r2.1.1, r2.1.2, r2.2)
  end.
Definition ext2fs_digest_encode (src : list Z) : outcome (list Z) :=
  encode_loop src 0 0 ≫= λ r : list Z * Z * Z,
  Ret (if negb (r.2 =? 0) then r.1.1 ++ [letter (Z.land r.1.2 0x3f)] else r.1.1).
(** [strchr(lookup_table, c)]: the index of the character *)
Fixpoint strchr_from (l : list Z) (i c : Z) : option Z :=
  match l with
  | [] => None
  | x :: l => if x =? c then Some i else strchr_from l (i + 1) c
  end.
(** [None] is the result -1 *)
Fixpoint decode_loop (src : list Z) (ac bits : Z) : option (list Z) :=
  match src with
  | [] => if negb (ac =? 0) then None else Some []
  | c :: src =>
    if c =? 0 then None else
    d ← strchr_from lookup_table 0 c;
    let ac := ac + Z.shiftl d bits in
    let bits := bits + 6 in
    if 8 <=? bits then l ← decode_loop src (Z.shiftr ac 8) (bits - 8); Some (Z.land ac 0xff :: l)
    else decode_loop src ac bits
  end.
Definition ext2fs_digest_decode (src : list Z) : option (list Z) := decode_loop src 0 0.

(** ** The table *)
Lemma table_length : length lookup_table = 64%nat.
Proof. done. Qed.
Lemma letters_ok : forallb (λ d, (match strchr_from lookup_table 0 (letter d) with Some e => e =? d | None => false end) && negb (letter d =? 0)) (seqZ 0 64) = true.
Proof. vm_compute. reflexivity. Qed.
Lemma strchr_letter d : 0 <= d < 64 → strchr_from lookup_table 0 (letter d) = Some d ∧ letter d ≠ 0.
Proof.
  intros Hd. pose proof (proj1 (forallb_forall _ _) letters_ok d ltac:(apply list_elem_of_In, elem_of_seqZ; lia)) as H. apply andb_true_iff in H as [H1 H2]. apply negb_true_iff, Z.eqb_neq in H2.
  destruct (strchr_from lookup_table 0 (letter d)); [|done]. apply Z.eqb_eq in H1. by subst.
Qed.
Lemma strchr_from_range l i c d : strchr_from l i c = Some d → i <= d < i + Z.of_nat (length l) ∧ nth (Z.to_nat (d - i)) l 0 = c.
Proof.
  revert i. induction l as [|x l IH]; intros i; cbn [strchr_from length]; [done|]. destruct (Z.eqb_spec x c) as [->|].
  - intros [= <-]. rewrite Z.sub_diag. split; [lia|done].
  - intros H. apply IH in H as [H1 H2]. split; [lia|]. replace (Z.to_nat (d - i)) with (S (Z.to_nat (d - (i + 1)))) by lia. exact H2.
Qed.
Lemma strchr_table c d : strchr_from lookup_table 0 c = Some d → 0 <= d < 64 ∧ letter d = c.
Proof. intros H. apply strchr_from_range in H as [H1 H2]. rewrite table_length in H1. rewrite Z.sub_0_r in H2. split; [lia|exact H2]. Qed.

(** ** Numbers in base 64, least significant digit first *)
Fixpoint num64 (l : list Z) : Z := match l with [] => 0 | d :: l => d + 64 * num64 l end.
Definition digits (l : list Z) : Prop := Forall (λ d, 0 <= d < 64) l.
Lemma num64_app a b : num64 (a ++ b) = num64 a + 64 ^ Z.of_nat (length a) * num64 b.
Proof. induction a as [|x a IH]; cbn [num64 app length]; [lia|]. rewrite IH, Nat2Z.inj_succ, Z.pow_succ_r by lia. ring. Qed.
Lemma num64_range l : digits l → 0 <= num64 l < 64 ^ Z.of_nat (length l).
Proof. induction 1 as [|d l Hd Hl IH]; cbn [num64 length]; [lia|]. rewrite Nat2Z.inj_succ, Z.pow_succ_r by lia. lia. Qed.
Lemma pow64 n : 64 ^ Z.of_nat n = 2 ^ (6 * Z.of_nat n).
Proof. change 64 with (2 ^ 6). by rewrite <-Z.pow_mul_r by lia. Qed.
Lemma pow256 n : 256 ^ Z.of_nat n = 2 ^ (8 * Z.of_nat n).
Proof. change 256 with (2 ^ 8). by rewrite <-Z.pow_mul_r by lia. Qed.

(** ** Encoding writes the digits *)
Lemma emit_spec fuel ac bits : 6 <= bits → bits <= Z.of_nat fuel → 0 <= ac < 2 ^ bits →
  ∃ ds ac' bits', emit fuel ac bits = Ret (letter <$> ds, ac', bits') ∧ digits ds ∧ bits = 6 * Z.of_nat (length ds) + bits' ∧ 0 <= bits' < 6 ∧ 0 <= ac' < 2 ^ bits' ∧ ac = num64 ds + 64 ^ Z.of_nat (length ds) * ac'.
Proof.
  revert ac bits. induction fuel as [|fuel IH]; intros ac bits Hb Hf Ha; [lia|]. cbn [emit]. cbv zeta. change 0x3f with (Z.ones 6). rewrite Z.land_ones, Z.shiftr_div_pow2 by lia. change (2 ^ 6) with 64.
  assert (2 ^ bits = 64 * 2 ^ (bits - 6)) as Hp by (change 64 with (2 ^ 6); rewrite <-Z.pow_add_r by lia; f_equal; lia). assert (0 <= ac / 64 < 2 ^ (bits - 6)) as Hq by (split; [apply Z.div_pos; lia|apply Z.div_lt_upper_bound; lia]).
  assert (0 <= ac mod 64 < 64) as Hm by (apply Z.mod_pos_bound; lia). pose proof (Z.div_mod ac 64 ltac:(lia)) as Hdm. destruct (Z.leb_spec 6 (bits - 6)) as [H6|H6].
  - destruct (IH (ac / 64) (bits - 6) H6 ltac:(lia) Hq) as (ds & ac' & bits' & E & D & Eb & Rb & Ra & Ea). rewrite E. ostep. cbn [fst snd]. exists (ac mod 64 :: ds), ac', bits'. split; [done|]. split; [by constructor|].
    cbn [length num64]. rewrite Nat2Z.inj_succ, Z.pow_succ_r by lia. split; [lia|]. split; [done|]. split; [done|]. lia.
  - exists [ac mod 64], (ac / 64), (bits - 6). split; [done|]. split; [by repeat constructor; lia|]. cbn [length num64]. change (64 ^ Z.of_nat 1) with 64. split; [lia|]. split; [lia|]. split; [done|]. lia.
Qed.
Lemma encode_loop_spec src ac bits : bytes src → 0 <= bits < 6 → 0 <= ac < 2 ^ bits →
  ∃ ds ac' bits', encode_loop src ac bits = Ret (letter <$> ds, ac', bits') ∧ digits ds ∧ bits + 8 * Z.of_nat (length src) = 6 * Z.of_nat (length ds) + bits' ∧ 0 <= bits' < 6 ∧ 0 <= ac' < 2 ^ bits' ∧
    ac + 2 ^ bits * le_to src = num64 ds + 64 ^ Z.of_nat (length ds) * ac'.
Proof.
  intros Hs. revert ac bits. induction Hs as [|b src Hb Hs IH]; intros ac bits Hbi Ha.
  - exists [], ac, bits. cbn [length le_to num64 encode_loop]. split; [done|]. split; [constructor|]. split; [lia|]. split; [done|]. split; [done|]. lia.
  - cbn [encode_loop]. cbv zeta. rewrite Z.shiftl_mul_pow2 by lia. assert (0 <= ac + b * 2 ^ bits < 2 ^ (bits + 8)) as Ha1 by (rewrite Z.pow_add_r by lia; change (2 ^ 8) with 256; destruct Hb; nia).
    destruct (emit_spec (Z.to_nat (bits + 8)) (ac + b * 2 ^ bits) (bits + 8) ltac:(lia) ltac:(lia) Ha1) as (d1 & a1 & b1 & E1 & D1 & B1 & R1 & RA1 & V1). rewrite E1. ostep. cbn [fst snd].
    destruct (IH a1 b1 R1 RA1) as (d2 & a2 & b2 & E2 & D2 & B2 & R2 & RA2 & V2). rewrite E2. ostep. cbn [fst snd]. exists (d1 ++ d2), a2, b2. split; [by rewrite fmap_app|]. split; [by apply Forall_app|]. rewrite length_app. cbn [length le_to].
    split; [lia|]. split; [done|]. split; [done|]. rewrite num64_app, Nat2Z.inj_add, Z.pow_add_r by lia.
    assert (2 ^ (bits + 8) = 64 ^ Z.of_nat (length d1) * 2 ^ b1) as Hp by (rewrite pow64, <-Z.pow_add_r by lia; f_equal; lia). rewrite Z.pow_add_r in Hp by lia. change (2 ^ 8) with 256 in Hp. nia.
Qed.
Lemma encode_spec src : bytes src → ∃ ds, ext2fs_digest_encode src = Ret (letter <$> ds) ∧ digits ds ∧ num64 ds = le_to src ∧ 8 * Z.of_nat (length src) <= 6 * Z.of_nat (length ds) < 8 * Z.of_nat (length src) + 6.
Proof.
  intros Hs. destruct (encode_loop_spec src 0 0 Hs ltac:(lia) ltac:(lia)) as (ds & ac & bits & E & D & B & R & RA & V). unfold ext2fs_digest_encode. rewrite E. ostep. cbn [fst snd]. destruct (Z.eqb_spec bits 0) as [->|Hn]; cbn [negb].
  - exists ds. split; [done|]. split; [done|]. change (2 ^ 0) with 1 in *. assert (ac = 0) as -> by lia. split; lia.
  - assert (0 <= ac < 64) as Hac by (assert (2 ^ bits <= 2 ^ 5) by (apply Z.pow_le_mono_r; lia); change (2 ^ 5) with 32 in *; lia). exists (ds ++ [ac]).
    change 0x3f with (Z.ones 6). rewrite Z.land_ones by lia. rewrite Z.mod_small by (change (2 ^ 6) with 64; lia). split; [by rewrite fmap_app|]. split; [apply Forall_app; split; [done|by repeat constructor; lia]|].
    rewrite num64_app, length_app. cbn [num64 length]. change (2 ^ 0) with 1 in V. split; [lia|lia].
Qed.
(** ** Decoding reads them *)
Lemma decode_loop_spec ds ac bits : digits ds → 0 <= bits < 8 → 0 <= ac < 2 ^ bits → let k := Z.to_nat ((bits + 6 * Z.of_nat (length ds)) / 8) in
  decode_loop (letter <$> ds) ac bits = if decide (ac + 2 ^ bits * num64 ds < 256 ^ Z.of_nat k) then Some (le_of k (ac + 2 ^ bits * num64 ds)) else None.
Proof.
  intros Hd. revert ac bits. induction Hd as [|d ds Hd Hds IH]; intros ac bits Hb Ha k.
  - unfold k. cbn [length num64]. replace ((bits + 6 * Z.of_nat 0) / 8) with 0 by zdm. cbn [decode_loop fmap list_fmap]. change (256 ^ Z.of_nat (Z.to_nat 0)) with 1. cbn [le_of Z.to_nat].
    destruct (Z.eqb_spec ac 0) as [->|]; cbn [negb]; [by rewrite decide_True by lia|by rewrite decide_False by lia].
  - cbn [fmap list_fmap decode_loop]. destruct (strchr_letter d Hd) as [E En]. rewrite (proj2 (Z.eqb_neq _ _)) by done. rewrite E. cbn [mbind option_bind]. cbv zeta. rewrite Z.shiftl_mul_pow2 by lia. cbn [num64].
    set (a1 := ac + d * 2 ^ bits). assert (0 <= a1 < 2 ^ (bits + 6)) as Ha1 by (unfold a1; rewrite Z.pow_add_r by lia; change (2 ^ 6) with 64; nia). assert (2 ^ (bits + 6) = 64 * 2 ^ bits) as Hp by (rewrite Z.pow_add_r by lia; change (2 ^ 6) with 64; lia).
    pose proof (num64_range ds Hds) as [Hn0 _]. set (V := ac + 2 ^ bits * (d + 64 * num64 ds)). assert (V = a1 + 2 ^ (bits + 6) * num64 ds) as EV by (unfold V, a1; rewrite Hp; ring). unfold k. cbn [length]. destruct (Z.leb_spec 8 (bits + 6)) as [H8|H8].
    + assert (2 ^ (bits + 6) = 256 * 2 ^ (bits + 6 - 8)) as Hp8 by (change 256 with (2 ^ 8); rewrite <-Z.pow_add_r by lia; f_equal; lia). rewrite Z.shiftr_div_pow2 by lia. change (2 ^ 8) with 256.
      rewrite IH by first [lia|split; [apply Z.div_pos; lia|apply Z.div_lt_upper_bound; lia]]. set (k' := Z.to_nat ((bits + 6 - 8 + 6 * Z.of_nat (length ds)) / 8)).
      replace (Z.to_nat ((bits + 6 * Z.of_nat (S (length ds))) / 8)) with (S k') by (unfold k'; zdm). rewrite Nat2Z.inj_succ, Z.pow_succ_r by lia.
      assert (a1 / 256 + 2 ^ (bits + 6 - 8) * num64 ds = V / 256) as ->. { rewrite EV, Hp8. replace (a1 + 256 * 2 ^ (bits + 6 - 8) * num64 ds) with (a1 + (2 ^ (bits + 6 - 8) * num64 ds) * 256) by ring. rewrite Z.div_add by lia. ring. }
      assert (Z.land a1 0xff = V mod 256) as ->. { change 0xff with (Z.ones 8). rewrite Z.land_ones by lia. change (2 ^ 8) with 256. rewrite EV, Hp8. replace (a1 + 256 * 2 ^ (bits + 6 - 8) * num64 ds) with (a1 + (2 ^ (bits + 6 - 8) * num64 ds) * 256) by ring. by rewrite Z.mod_add by lia. }
      destruct (decide (V < 256 * 256 ^ Z.of_nat k')) as [Hlt|Hlt].
      * rewrite decide_True by (apply Z.div_lt_upper_bound; lia). done.
      * rewrite decide_False; [done|]. intros Hq. apply Hlt. zdm.
    + rewrite IH by lia. rewrite <-EV. by replace (bits + 6 + 6 * Z.of_nat (length ds)) with (bits + 6 * Z.of_nat (S (length ds))) by lia.
Qed.
Lemma decode_foreign src c ac bits : c ∈ src → strchr_from lookup_table 0 c = None → decode_loop src ac bits = None.
Proof.
  intros Hc Hn. revert ac bits. induction src as [|x src IH]; intros ac bits; [by apply elem_of_nil in Hc|]. cbn [decode_loop]. destruct (x =? 0); [done|]. apply elem_of_cons in Hc as [->|Hc]; [by rewrite Hn|].
  destruct (strchr_from lookup_table 0 x) as [d|]; [|done]. cbn [mbind option_bind]. cbv zeta. destruct (8 <=? bits + 6); by rewrite IH.
Qed.
Lemma read_letters src : (∀ c, c ∈ src → is_Some (strchr_from lookup_table 0 c)) → ∃ ds, digits ds ∧ src = letter <$> ds.
Proof.
  induction src as [|c src IH]; intros H; [exists []; split; [constructor|done]|]. destruct (H c ltac:(by left)) as [d Hd]. apply strchr_table in Hd as [Hd E]. destruct IH as (ds & D & ->); [intros; apply H; by right|].
  exists (d :: ds). split; [by constructor|]. by rewrite <-E.
Qed.

(** ** Theorems *)

(** Encoding a digest terminates with characters of the table, 4 for 3
    bytes rounded up, and decoding them returns the digest; decoding accepts
    exactly the strings of table characters whose left-over bits are zero, and
    refuses every other one. *)
Theorem digest_roundtrip src : bytes src →
  (∃ ds, ext2fs_digest_encode src = Ret (letter <$> ds) ∧ digits ds ∧ 8 * Z.of_nat (length src) <= 6 * Z.of_nat (length ds) < 8 * Z.of_nat (length src) + 6 ∧ ext2fs_digest_decode (letter <$> ds) = Some src) ∧
  (∀ s l, ext2fs_digest_decode s = Some l ↔
    ∃ ds, digits ds ∧ s = letter <$> ds ∧ num64 ds < 256 ^ (6 * Z.of_nat (length ds) / 8) ∧ l = le_of (Z.to_nat (6 * Z.of_nat (length ds) / 8)) (num64 ds)).
Proof.
  assert (∀ ds, digits ds → let k := 6 * Z.of_nat (length ds) / 8 in ext2fs_digest_decode (letter <$> ds) = if decide (num64 ds < 256 ^ k) then Some (le_of (Z.to_nat k) (num64 ds)) else None) as Hdec.
  { intros ds D k. unfold ext2fs_digest_decode. rewrite (decode_loop_spec ds 0 0 D) by lia. change (2 ^ 0) with 1. rewrite !Z.add_0_l, Z.mul_1_l. fold k. rewrite Z2Nat.id; [done|]. unfold k. zdm. }
  intros Hs. split.
  - destruct (encode_spec src Hs) as (ds & E & D & V & L). exists ds. split; [done|]. split; [done|]. split; [done|]. rewrite Hdec by done. replace (6 * Z.of_nat (length ds) / 8) with (Z.of_nat (length src)) by zdm.
    pose proof (le_to_bound src Hs). rewrite V, decide_True by lia. rewrite Nat2Z.id. f_equal. by apply le_of_to.
  - intros s l. split.
    + intros E. destruct (read_letters s) as (ds & D & ->). { intros c Hc. destruct (strchr_from lookup_table 0 c) eqn:Ec; [by eexists|]. unfold ext2fs_digest_decode in E. by rewrite (decode_foreign s c) in E. }
      rewrite Hdec in E by done. destruct (decide _) as [Hlt|]; [|done]. injection E as <-. by exists ds.
    + intros (ds & D & -> & Hlt & ->). rewrite Hdec by done. by rewrite decide_True.
Qed.
Lemma digest_roundtrip_witness : ext2fs_digest_encode [1; 2; 3; 4; 255] = Ret (str "BIwAE8P") ∧ ext2fs_digest_decode (str "BIwAE8P") = Some [1; 2; 3; 4; 255].
Proof.
  destruct (digest_roundtrip [1; 2; 3; 4; 255] ltac:(repeat constructor; done)) as [(ds & E & _ & _ & Dc) _]. split; [reflexivity|].
  assert (ext2fs_digest_encode [1; 2; 3; 4; 255] = Ret (str "BIwAE8P")) as E' by reflexivity. rewrite E' in E. injection E as E. rewrite <-E in Dc. exact Dc.
Defined.
(** the encoding uses a comma and no underscore *)
Example digest_alphabet : 44 ∈ lookup_table ∧ 95 ∉ lookup_table.
Proof. split; [exact (bool_decide_eq_true_1 (44 ∈ lookup_table) eq_refl)|exact (bool_decide_eq_false_1 (95 ∈ lookup_table) eq_refl)]. Qed.
End Digest.
