(* ===== verification/Hashmap.v ===== *)
(** Hash maps of the vendored e2fsprogs library (kernel/fs/lib/ext2fs/hashmap.c):
    buckets of linked entries, and all entries in a doubly linked list.  The
    entries live in a heap of numbered cells, pointers are numbers; keys are the
    bytes the key pointers refer to, which their owner leaves unchanged.  Any
    sequence of additions refines an association list: a lookup finds the latest
    entry with the key, the iteration meets the entries from the latest to the
    first, and freeing the map passes every datum to the free function once. *)
From stdpp Require Import base numbers list.
From S2P Require Import Prelude.
Open Scope Z_scope.

Module Hashmap.
Record entry := Entry { e_data : Z; e_key : list Z; e_next : option nat; e_list_next : option nat; e_list_prev : option nat }.
Definition set_list_prev (e : entry) (p : option nat) : entry := Entry (e_data e) (e_key e) (e_next e) (e_list_next e) p.
Record hashmap := Hm { h_size : Z; h_first : option nat; h_last : option nat; h_entries : list (option nat); h_heap : list entry }.

(** [hash = ((hash << 5) + hash) + c], with [c] a signed character *)
Definition ext2fs_djb2_hash (key : list Z) : Z := foldl (λ hash b, u32 (u32 (Z.shiftl hash 5) + hash + i8 b)) 5381 key.

Section map.
Context (hash : list Z → Z).
(** [calloc] succeeds or not *)
Definition ext2fs_hashmap_create (mem : bool) (size : Z) : option hashmap :=
  if negb mem then None else Some (Hm (u32 size) None None (replicate (Z.to_nat size) None) []).
(** the heap cell of a pointer *)
Definition cell (h : hashmap) (p : nat) : outcome entry := match h_heap h !! p with Some e => Ret e | None => Undef end.
(** the bucket of a key; a map of size 0 divides by zero *)
Definition bucket (h : hashmap) (key : list Z) : outcome Z := if h_size h =? 0 then Undef else Ret (u32 (hash key) mod h_size h).
Definition ext2fs_hashmap_add (mem : bool) (h : hashmap) (data : Z) (key : list Z) : outcome (Z * hashmap) :=
  b ← bucket h key;
  if negb mem then Ret (-1, h) else
  let e := length (h_heap h) in
  next ← aget (h_entries h) b;
  entries ← aset (h_entries h) b (Some e);
  let heap := h_heap h ++ [Entry data key next (h_first h) None] in
  heap ← match h_first h with
         | None => Ret heap
         | Some f => x ← cell h f; Ret (<[f := set_list_prev x (Some e)]> heap)
         end;
  Ret (0, Hm (h_size h) (Some e) (match h_last h with None => Some e | l => l end) entries heap).
(** [for (iter = h->entries[hash]; iter; iter = iter->next)] *)
Fixpoint lookup_loop (fuel : nat) (h : hashmap) (iter : option nat) (key : list Z) : outcome (option Z) :=
  match iter with
  | None => Ret None
  | Some p =>
    match fuel with
    | O => Loop
    | S fuel => e ← cell h p; if str_eqb (e_key e) key then Ret (Some (e_data e)) else lookup_loop fuel h (e_next e) key
    end
  end.
Definition ext2fs_hashmap_lookup (h : hashmap) (key : list Z) : outcome (option Z) :=
  b ← bucket h key;
  iter ← aget (h_entries h) b;
  lookup_loop (length (h_heap h)) h iter key.
(** the new iterator and the datum it is at *)
Definition ext2fs_hashmap_iter_in_order (h : hashmap) (it : option nat) : outcome (option nat * option Z) :=
  it ← match it with Some p => e ← cell h p; Ret (e_list_next e) | None => Ret (h_first h) end;
  match it with Some p => e ← cell h p; Ret (Some p, Some (e_data e)) | None => Ret (None, None) end.
(** the data handed to the free function, in order *)
Fixpoint free_bucket (fuel : nat) (h : hashmap) (it : option nat) : outcome (list Z) :=
  match it with
  | None => Ret []
  | Some p =>
    match fuel with
    | O => Loop
    | S fuel => e ← cell h p; l ← free_bucket fuel h (e_next e); Ret (e_data e :: l)
    end
  end.
Fixpoint free_buckets (h : hashmap) (its : list (option nat)) : outcome (list Z) :=
  match its with
  | [] => Ret []
  | it :: its => l ← free_bucket (length (h_heap h)) h it; r ← free_buckets h its; Ret (l ++ r)
  end.
Definition ext2fs_hashmap_free (h : hashmap) : outcome (list Z) := free_buckets h (take (Z.to_nat (h_size h)) (h_entries h)).

(** ** Chains of cells *)
Fixpoint chain (next : entry → option nat) (heap : list entry) (p : option nat) (ids : list nat) : Prop :=
  match ids with
  | [] => p = None
  | i :: ids => p = Some i ∧ ∃ e, heap !! i = Some e ∧ chain next heap (next e) ids
  end.
Lemma chain_ext next heap heap' p ids : (∀ i e, i ∈ ids → heap !! i = Some e → ∃ e', heap' !! i = Some e' ∧ next e' = next e) → chain next heap p ids → chain next heap' p ids.
Proof.
  revert p. induction ids as [|i ids IH]; intros p H; [done|]. intros (-> & e & Hi & Hc). split; [done|]. destruct (H i e ltac:(by left) Hi) as (e' & Hi' & En). exists e'. split; [done|]. rewrite En. apply IH; [|done]. intros j x Hj. apply H. by right.
Qed.
(** the association list of a chain *)
Definition assoc (heap : list entry) (ids : list nat) : list (list Z * Z) := omap (λ i, (λ e, (e_key e, e_data e)) <$> heap !! i) ids.
Definition in_bucket (sz b : Z) (kv : list Z * Z) : Prop := u32 (hash kv.1) mod sz = b.
#[export] Instance in_bucket_dec sz b kv : Decision (in_bucket sz b kv).
Proof. unfold in_bucket. apply _. Defined.
Definition id_bucket (sz b : Z) (heap : list entry) (i : nat) : Prop := match heap !! i with Some e => u32 (hash (e_key e)) mod sz = b | None => False end.
#[export] Instance id_bucket_dec sz b heap i : Decision (id_bucket sz b heap i).
Proof. unfold id_bucket. destruct (heap !! i); apply _. Defined.

(** ** The invariant: [kvs] is the association list, latest first *)
Record hm_ok (h : hashmap) (kvs : list (list Z * Z)) : Prop := {
  hk_size : 0 < h_size h;
  hk_entries : Z.of_nat (length (h_entries h)) = h_size h;
  hk_kvs : kvs = assoc (h_heap h) (reverse (seq 0 (length (h_heap h))));
  hk_list : chain e_list_next (h_heap h) (h_first h) (reverse (seq 0 (length (h_heap h))));
  hk_bucket b : 0 <= b < h_size h → ∃ p, h_entries h !! Z.to_nat b = Some p ∧
    chain e_next (h_heap h) p (filter (id_bucket (h_size h) b (h_heap h)) (reverse (seq 0 (length (h_heap h)))))
}.
(** ** Heaps that grow by a cell *)
Definition same_cell (e e' : entry) : Prop := e_data e' = e_data e ∧ e_key e' = e_key e ∧ e_next e' = e_next e ∧ e_list_next e' = e_list_next e.
Definition grown (heap heap' : list entry) (new : entry) : Prop :=
  length heap' = S (length heap) ∧ heap' !! length heap = Some new ∧ ∀ i e, heap !! i = Some e → ∃ e', heap' !! i = Some e' ∧ same_cell e e'.
Lemma ids_S n : reverse (seq 0 (S n)) = n :: reverse (seq 0 n).
Proof. by rewrite seq_S, reverse_snoc. Qed.
Lemma elem_ids n i : i ∈ reverse (seq 0 n) ↔ (i < n)%nat.
Proof. rewrite elem_of_reverse, elem_of_seq. lia. Qed.
Lemma assoc_grown heap heap' new ids : grown heap heap' new → (∀ i, i ∈ ids → (i < length heap)%nat) → assoc heap' ids = assoc heap ids.
Proof.
  intros (_ & _ & Hg) Hids. unfold assoc. induction ids as [|i ids IH]; [done|]. cbn [omap list_omap]. destruct (lookup_lt_is_Some_2 heap i) as [e He]; [apply Hids; by left|]. destruct (Hg i e He) as (e' & He' & (Ed & Ek & _)).
  rewrite He, He'. cbn [fmap option_fmap option_map]. rewrite Ed, Ek, IH; [done|]. intros j Hj. apply Hids. by right.
Qed.
Lemma bucket_grown heap heap' new sz b i : grown heap heap' new → (i < length heap)%nat → id_bucket sz b heap' i ↔ id_bucket sz b heap i.
Proof.
  intros (_ & _ & Hg) Hi. destruct (lookup_lt_is_Some_2 heap i) as [e He]; [done|]. destruct (Hg i e He) as (e' & He' & (_ & Ek & _)). unfold id_bucket. by rewrite He, He', Ek.
Qed.
Lemma filter_grown heap heap' new sz b (ids : list nat) : grown heap heap' new → (∀ i, i ∈ ids → (i < length heap)%nat) → filter (id_bucket sz b heap') ids = filter (id_bucket sz b heap) ids.
Proof.
  intros Hg Hids. induction ids as [|i ids IH]; [done|]. rewrite !filter_cons, IH by (intros; apply Hids; by right). pose proof (bucket_grown heap heap' new sz b i Hg (Hids i ltac:(by left))). by rewrite (decide_ext _ _ _ _ H).
Qed.
Lemma chain_grown next heap heap' new p ids : (next = e_next ∨ next = e_list_next) → grown heap heap' new → chain next heap p ids → chain next heap' p ids.
Proof. intros Hn (_ & _ & Hg). apply chain_ext. intros i e _ He. destruct (Hg i e He) as (e' & He' & (_ & _ & En & El)). exists e'. split; [done|]. by destruct Hn as [-> | ->]. Qed.
Lemma hashmap_add_ok h kvs data key : hm_ok h kvs → ∃ h', ext2fs_hashmap_add true h data key = Ret (0, h') ∧ hm_ok h' ((key, data) :: kvs) ∧ h_size h' = h_size h.
Proof.
  intros H. pose proof (hk_size _ _ H) as Hs. pose proof (hk_entries _ _ H) as Hl. unfold ext2fs_hashmap_add, bucket. rewrite (proj2 (Z.eqb_neq _ _)) by lia. ostep. set (b := u32 (hash key) mod h_size h).
  assert (0 <= b < h_size h) as Hb by (by apply Z.mod_pos_bound). destruct (hk_bucket _ _ H b Hb) as (p & Hp & Hc). cbn [negb]. cbv zeta. rewrite (proj2 (aget_Ret _ _ _) (conj (proj1 Hb) Hp)). ostep.
  rewrite aset_in_range by lia. ostep. set (n := length (h_heap h)). set (new := Entry data key p (h_first h) None). set (m := match h_first h with None => _ | Some f => _ end).
  assert (∃ heap', m = Ret heap' ∧ grown (h_heap h) heap' new) as (heap' & -> & Hg).
  { pose proof (hk_list _ _ H) as HL. unfold m. destruct (h_first h) as [f|] eqn:Ef.
    - fold n in HL. assert (∃ e, h_heap h !! f = Some e) as [x Hx]. { destruct (reverse (seq 0 n)); [done|]. destruct HL as ([= ->] & e & He & _). by exists e. } unfold cell. rewrite Hx. ostep. eexists. split; [done|]. pose proof (lookup_lt_Some _ _ _ Hx).
      split; [rewrite length_insert, length_app; cbn [length]; fold n; lia|]. split; [rewrite list_lookup_insert_ne by lia; by apply list_lookup_middle|]. intros i e He. pose proof (lookup_lt_Some _ _ _ He). destruct (decide (i = f)) as [->|Hne].
      + exists (set_list_prev x (Some n)). rewrite list_lookup_insert_eq by (rewrite length_app; cbn; lia). split; [done|]. by simplify_eq.
      + exists e. rewrite list_lookup_insert_ne by done. rewrite lookup_app_l by lia. done.
    - eexists. split; [done|]. split; [rewrite length_app; cbn [length]; lia|]. split; [by apply list_lookup_middle|]. intros i e He. exists e. pose proof (lookup_lt_Some _ _ _ He). rewrite lookup_app_l by lia. done. }
  ostep. eexists. split; [done|]. split; [|done]. destruct Hg as (G1 & G2 & G3). pose proof (conj G1 (conj G2 G3)) as Hg. fold n in G1, G2. assert (∀ i, i ∈ reverse (seq 0 n) → (i < length (h_heap h))%nat) as Hids by (intros i; rewrite elem_ids; done).
  split; cbn [h_size h_first h_last h_entries h_heap]; rewrite ?G1, ?ids_S.
  - done.
  - by rewrite length_insert.
  - unfold assoc. cbn [omap list_omap]. rewrite G2. cbn [fmap option_fmap option_map]. fold (assoc heap' (reverse (seq 0 n))). rewrite (assoc_grown (h_heap h) heap' new) by done. by rewrite (hk_kvs _ _ H).
  - split; [done|]. exists new. split; [done|]. apply (chain_grown _ (h_heap h) heap' new); [by right|done|apply H].
  - intros b' Hb'. rewrite filter_cons. rewrite (filter_grown (h_heap h) heap' new) by done. destruct (hk_bucket _ _ H b' Hb') as (p' & Hp' & Hc').
    assert (id_bucket (h_size h) b' heap' n ↔ b = b') as Hid by (unfold id_bucket; by rewrite G2). destruct (decide (id_bucket (h_size h) b' heap' n)) as [Hy|Hn].
    + apply Hid in Hy as <-. exists (Some n). split; [apply list_lookup_insert_eq; lia|]. split; [done|]. exists new. split; [done|]. assert (p' = p) as -> by congruence. apply (chain_grown _ (h_heap h) heap' new); [by left|done|done].
    + exists p'. split; [rewrite list_lookup_insert_ne; [done|]; intros Eb; apply Hn, Hid; lia|]. apply (chain_grown _ (h_heap h) heap' new); [by left|done|done].
Qed.
(** ** Lookup in a chain *)
Definition kv_lookup (key : list Z) (kvs : list (list Z * Z)) : option Z := snd <$> List.find (λ kv, str_eqb kv.1 key) kvs.
Lemma lookup_loop_ok fuel h p ids key : (length ids ≤ fuel)%nat → chain e_next (h_heap h) p ids → lookup_loop fuel h p key = Ret (kv_lookup key (assoc (h_heap h) ids)).
Proof.
  revert p fuel. induction ids as [|i ids IH]; intros p fuel Hf; [intros ->; by destruct fuel|]. intros (-> & e & He & Hc). cbn [length] in Hf. destruct fuel as [|fuel]; [lia|]. cbn [lookup_loop]. unfold cell. rewrite He. ostep.
  unfold assoc, kv_lookup. cbn [omap list_omap]. rewrite He. cbn [fmap option_fmap option_map List.find fst]. destruct (str_eqb (e_key e) key); [done|]. rewrite (IH _ fuel) by (done || lia). done.
Qed.
Lemma kv_lookup_bucket heap sz key (ids : list nat) : (∀ i, i ∈ ids → (i < length heap)%nat) → kv_lookup key (assoc heap (filter (id_bucket sz (u32 (hash key) mod sz) heap) ids)) = kv_lookup key (assoc heap ids).
Proof.
  intros Hids. induction ids as [|i ids IH]; [done|]. rewrite filter_cons. destruct (lookup_lt_is_Some_2 heap i) as [e He]; [apply Hids; by left|]. unfold assoc, kv_lookup in *. cbn [omap list_omap]. rewrite He. cbn [fmap option_fmap option_map List.find fst].
  destruct (str_eqb (e_key e) key) eqn:Ek.
  - apply str_eqb_eq in Ek. rewrite decide_True by (unfold id_bucket; by rewrite He, Ek). cbn [omap list_omap]. rewrite He. cbn [fmap option_fmap option_map List.find fst]. by rewrite (proj2 (str_eqb_eq _ _)).
  - rewrite <-IH by (intros; apply Hids; by right). case_decide; [|done]. cbn [omap list_omap]. rewrite He. cbn [fmap option_fmap option_map List.find fst]. by rewrite Ek.
Qed.
Lemma length_ids n : length (reverse (seq 0 n)) = n.
Proof. by rewrite length_reverse, length_seq. Qed.
Lemma lookup_ok h kvs key : hm_ok h kvs → ext2fs_hashmap_lookup h key = Ret (kv_lookup key kvs).
Proof.
  intros H. pose proof (hk_size _ _ H) as Hs. unfold ext2fs_hashmap_lookup, bucket. rewrite (proj2 (Z.eqb_neq _ _)) by lia. ostep. assert (0 <= u32 (hash key) mod h_size h < h_size h) as Hb by (by apply Z.mod_pos_bound).
  destruct (hk_bucket _ _ H _ Hb) as (p & Hp & Hc). rewrite (proj2 (aget_Ret _ _ _) (conj (proj1 Hb) Hp)). ostep. rewrite (lookup_loop_ok _ _ _ _ _ (Nat.le_trans _ _ _ (length_filter _ _) (Nat.eq_le_incl _ _ (length_ids _))) Hc).
  rewrite kv_lookup_bucket by (intros i; by rewrite elem_ids). by rewrite (hk_kvs _ _ H).
Qed.
(** ** Iteration: the loop of a client *)
Fixpoint iterate_all (fuel : nat) (h : hashmap) (it : option nat) : outcome (list Z) :=
  match fuel with
  | O => Loop
  | S fuel =>
    ext2fs_hashmap_iter_in_order h it ≫= λ r : option nat * option Z,
    match r.2 with Some d => l ← iterate_all fuel h r.1; Ret (d :: l) | None => Ret [] end
  end.
Definition succ_of (h : hashmap) (it : option nat) : option nat := match it with Some p => match h_heap h !! p with Some e => e_list_next e | None => None end | None => h_first h end.
Lemma iterate_chain h it ids : (∀ p, it = Some p → is_Some (h_heap h !! p)) → chain e_list_next (h_heap h) (succ_of h it) ids → iterate_all (S (length ids)) h it = Ret ((assoc (h_heap h) ids).*2).
Proof.
  revert it. induction ids as [|i ids IH]; intros it Hit Hc.
  - cbn [chain] in Hc. cbn [length iterate_all]. unfold ext2fs_hashmap_iter_in_order, cell. destruct it as [p|]; [|cbn [succ_of] in Hc; by rewrite Hc]. destruct (Hit p eq_refl) as [e He]. unfold succ_of in Hc. rewrite He in *. ostep. by rewrite Hc.
  - destruct Hc as (Es & e & He & Hc). cbn [length]. set (k := S (length ids)) in *. cbn [iterate_all]. assert (ext2fs_hashmap_iter_in_order h it = Ret (Some i, Some (e_data e))) as ->.
    { unfold ext2fs_hashmap_iter_in_order, cell. destruct it as [p|].
      - destruct (Hit p eq_refl) as [x Hx]. unfold succ_of in Es. rewrite Hx in *. ostep. rewrite Es. ostep. by rewrite He.
      - ostep. cbn [succ_of] in Es. rewrite Es. by rewrite He. }
    ostep. cbn [fst snd]. rewrite IH; [| |unfold succ_of; by rewrite He]. { ostep. unfold assoc. cbn [omap list_omap]. by rewrite He. } intros p [= <-]. by eexists.
Qed.
(** ** Freeing *)
Lemma free_bucket_ok fuel h p ids : (length ids ≤ fuel)%nat → chain e_next (h_heap h) p ids → free_bucket fuel h p = Ret ((assoc (h_heap h) ids).*2).
Proof.
  revert p fuel. induction ids as [|i ids IH]; intros p fuel Hf; [intros ->; by destruct fuel|]. intros (-> & e & He & Hc). cbn [length] in Hf. destruct fuel as [|fuel]; [lia|]. cbn [free_bucket]. unfold cell. rewrite He. ostep. rewrite (IH _ fuel) by (done || lia). ostep.
  unfold assoc. cbn [omap list_omap]. by rewrite He.
Qed.
Lemma one_bucket heap sz i ids (bs : list Z) b0 : (∀ b, id_bucket sz b heap i ↔ b = b0) → NoDup bs →
  mjoin ((λ b, filter (id_bucket sz b heap) (i :: ids)) <$> bs) ≡ₚ (if decide (b0 ∈ bs) then [i] else []) ++ mjoin ((λ b, filter (id_bucket sz b heap) ids) <$> bs).
Proof.
  intros Hb. induction 1 as [|b bs Hn Hnd IH]; [by rewrite decide_False by apply not_elem_of_nil|]. cbn [fmap list_fmap mjoin list_join]. rewrite filter_cons. rewrite IH. destruct (decide (id_bucket sz b heap i)) as [E|E].
  - apply Hb in E as ->. rewrite decide_False by done. rewrite decide_True by (by left). done.
  - assert (b0 ≠ b) as Hne by (intros <-; by apply E, Hb). destruct (decide (b0 ∈ bs)) as [Hin|Hin].
    + rewrite decide_True by (by right). cbn [app]. symmetry. apply Permutation_middle.
    + rewrite decide_False by (by rewrite not_elem_of_cons). done.
Qed.
Lemma buckets_perm heap sz (ids : list nat) : 0 < sz → (∀ i, i ∈ ids → (i < length heap)%nat) → mjoin ((λ b, filter (id_bucket sz b heap) ids) <$> seqZ 0 sz) ≡ₚ ids.
Proof.
  intros Hs Hids. induction ids as [|i ids IH].
  - generalize (seqZ 0 sz). intros l. induction l as [|b l IHl]; [done|]. cbn [fmap list_fmap mjoin list_join app]. done.
  - destruct (lookup_lt_is_Some_2 heap i) as [e He]; [apply Hids; by left|]. rewrite (one_bucket heap sz i ids (seqZ 0 sz) (u32 (hash (e_key e)) mod sz)); [|intros b; unfold id_bucket; rewrite He; split; congruence|apply NoDup_seqZ].
    rewrite decide_True by (apply elem_of_seqZ; pose proof (Z.mod_pos_bound (u32 (hash (e_key e))) sz Hs); lia). cbn [app]. by rewrite IH by (intros; apply Hids; by right).
Qed.
Lemma assoc_ids_app heap a b : assoc heap (a ++ b) = assoc heap a ++ assoc heap b.
Proof. unfold assoc. apply omap_app. Qed.
Lemma assoc_perm heap a b : a ≡ₚ b → (assoc heap a).*2 ≡ₚ (assoc heap b).*2.
Proof. intros E. unfold assoc. by rewrite E. Qed.
Lemma free_buckets_ok h (bs : list Z) its : length its = length bs → (∀ k b, bs !! k = Some b → ∃ p, its !! k = Some p ∧ chain e_next (h_heap h) p (filter (id_bucket (h_size h) b (h_heap h)) (reverse (seq 0 (length (h_heap h)))))) →
  free_buckets h its = Ret ((assoc (h_heap h) (mjoin ((λ b, filter (id_bucket (h_size h) b (h_heap h)) (reverse (seq 0 (length (h_heap h))))) <$> bs))).*2).
Proof.
  revert its. induction bs as [|b bs IH]; intros its Hl H; destruct its as [|it its]; try done. cbn [free_buckets]. destruct (H 0%nat b eq_refl) as (p & [= <-] & Hc).
  rewrite (free_bucket_ok _ _ _ _ (Nat.le_trans _ _ _ (length_filter _ _) (Nat.eq_le_incl _ _ (length_ids _))) Hc). ostep. rewrite IH; [|cbn in Hl; lia|intros k b' Hk; exact (H (S k) b' Hk)]. ostep. cbn [fmap list_fmap mjoin list_join]. by rewrite assoc_ids_app, fmap_app.
Qed.
Lemma length_assoc heap ids : (∀ i, i ∈ ids → (i < length heap)%nat) → length (assoc heap ids) = length ids.
Proof.
  intros H. unfold assoc. induction ids as [|i ids IH]; [done|]. cbn [omap list_omap]. destruct (lookup_lt_is_Some_2 heap i) as [e He]; [apply H; by left|]. rewrite He. cbn. by rewrite IH by (intros; apply H; by right).
Qed.
Lemma hashmap_create_ok sz h : 0 < sz < 2 ^ 32 → ext2fs_hashmap_create true sz = Some h → hm_ok h [].
Proof.
  intros Hs [= <-]. split; cbn [h_size h_first h_last h_entries h_heap]; rewrite ?u32_small by lia; [lia|rewrite length_replicate; lia|done|done|].
  intros b Hb. exists None. split; [by apply lookup_replicate_2; lia|done].
Qed.
(** additions, each with enough memory or not *)
Fixpoint adds (ops : list (bool * list Z * Z)) (h : hashmap) : outcome (list Z * hashmap) :=
  match ops with
  | [] => Ret ([], h)
  | o :: ops => ext2fs_hashmap_add o.1.1 h o.2 o.1.2 ≫= λ r : Z * hashmap, adds ops r.2 ≫= λ r2 : list Z * hashmap, Ret (r.1 :: r2.1, r2.2)
  end.
Fixpoint kept (ops : list (bool * list Z * Z)) (kvs : list (list Z * Z)) : list (list Z * Z) :=
  match ops with
  | [] => kvs
  | o :: ops => kept ops (if o.1.1 then (o.1.2, o.2) :: kvs else kvs)
  end.
Lemma adds_ok ops h kvs : hm_ok h kvs → ∃ h', adds ops h = Ret ((λ o : bool * list Z * Z, if o.1.1 then 0 else -1) <$> ops, h') ∧ hm_ok h' (kept ops kvs).
Proof.
  revert h kvs. induction ops as [|[[mem key] data] ops IH]; intros h kvs H; [by exists h|]. cbn [adds kept fst snd]. destruct mem.
  - destruct (hashmap_add_ok h kvs data key H) as (h1 & E1 & H1 & _). rewrite E1. ostep. cbn [fst snd]. destruct (IH h1 _ H1) as (h2 & E2 & H2). rewrite E2. ostep. by exists h2.
  - assert (ext2fs_hashmap_add false h data key = Ret (-1, h)) as ->. { pose proof (hk_size _ _ H). unfold ext2fs_hashmap_add, bucket. rewrite (proj2 (Z.eqb_neq _ _)) by lia. done. }
    ostep. cbn [fst snd]. destruct (IH h _ H) as (h2 & E2 & H2). rewrite E2. ostep. by exists h2.
Qed.

(** ** Theorems *)

(** A hash map refines an association list, for every hash function and
    every sequence of additions with memory running out at any of them: an
    addition fails exactly then; afterwards a lookup returns the datum of the
    latest entry with the key or nothing, the iteration meets all entries from
    the latest to the first and ends, and freeing the map frees every datum
    exactly once. *)
Theorem hashmap_refines sz h0 ops : 0 < sz < 2 ^ 32 → ext2fs_hashmap_create true sz = Some h0 → let kvs := kept ops [] in
  ∃ h, adds ops h0 = Ret ((λ o : bool * list Z * Z, if o.1.1 then 0 else -1) <$> ops, h) ∧ (∀ key, ext2fs_hashmap_lookup h key = Ret (kv_lookup key kvs)) ∧
    iterate_all (S (length kvs)) h None = Ret (kvs.*2) ∧ ∃ l, ext2fs_hashmap_free h = Ret l ∧ l ≡ₚ kvs.*2.
Proof.
  intros Hs Hc kvs. destruct (adds_ok ops h0 [] (hashmap_create_ok sz h0 Hs Hc)) as (h & E & H). fold kvs in H. exists h. split; [done|]. split; [intros key; by apply lookup_ok|]. pose proof (hk_size _ _ H) as Hsz. pose proof (hk_entries _ _ H) as Hen.
  assert (∀ i, i ∈ reverse (seq 0 (length (h_heap h))) → (i < length (h_heap h))%nat) as Hids by (intros i; by rewrite elem_ids). split.
  - rewrite (hk_kvs _ _ H). rewrite length_assoc by done. apply iterate_chain; [done|]. apply H.
  - unfold ext2fs_hashmap_free. rewrite take_ge by lia. rewrite (free_buckets_ok h (seqZ 0 (h_size h))).
    + eexists. split; [done|]. rewrite (hk_kvs _ _ H). by apply assoc_perm, buckets_perm.
    + rewrite length_seqZ. lia.
    + intros k b [Hk Hlt]%lookup_seqZ. subst b. destruct (hk_bucket _ _ H (0 + Z.of_nat k) ltac:(lia)) as (p & Hp & Hch). exists p. replace (Z.to_nat (0 + Z.of_nat k)) with k in Hp by lia. done.
Qed.
End map.

(** ** Witnesses: a map with two buckets *)
Lemma hashmap_refines_witness : ∃ h, adds ext2fs_djb2_hash [(true, [97], 1); (true, [98], 2); (false, [99], 3); (true, [97], 4)] (Hm 2 None None [None; None] []) = Ret ([0; 0; -1; 0], h) ∧
  ext2fs_hashmap_lookup ext2fs_djb2_hash h [97] = Ret (Some 4).
Proof.
  destruct (hashmap_refines ext2fs_djb2_hash 2 (Hm 2 None None [None; None] []) [(true, [97], 1); (true, [98], 2); (false, [99], 3); (true, [97], 4)]) as (h & E & L & _); [lia|reflexivity|].
  exists h. split; [exact E|]. exact (L [97]).
Defined.
End Hashmap.
