(* ===== verification/Bitops.v ===== *)
(** Bit maps of the vendored e2fsprogs library (kernel/fs/lib/ext2fs/bitops.c):
    setting, clearing and testing a bit, and counting the set bits of a buffer
    by adding fields of bytes and words in parallel.  The reference is the map
    [bit] of Bitmap.v and the plain count [popcount]. *)
From stdpp Require Import base numbers list.
From S2P Require Import Prelude Bitmap.
Open Scope Z_scope.

Module Bitops.
Definition mask (nr : Z) : Z := Z.shiftl 1 (Z.land nr 0x07).
(** the old value of the bit in its place, and the buffer *)
Definition ext2fs_set_bit (nr : Z) (buf : list Z) : outcome (Z * list Z) :=
  b ← aget buf (Z.shiftr nr 3);
  buf ← aset buf (Z.shiftr nr 3) (u8 (Z.lor b (mask nr)));
  Ret (Z.land (mask nr) b, buf).
Definition ext2fs_clear_bit (nr : Z) (buf : list Z) : outcome (Z * list Z) :=
  b ← aget buf (Z.shiftr nr 3);
  buf ← aset buf (Z.shiftr nr 3) (u8 (Z.land b (Z.lnot (mask nr))));
  Ret (Z.land (mask nr) b, buf).
Definition ext2fs_test_bit (nr : Z) (buf : list Z) : outcome Z :=
  b ← aget buf (Z.shiftr nr 3); Ret (Z.land (mask nr) b).
(** the functions for 64-bit positions have the same bodies *)
Definition ext2fs_set_bit64 := ext2fs_set_bit.
Definition ext2fs_clear_bit64 := ext2fs_clear_bit.
Definition ext2fs_test_bit64 := ext2fs_test_bit.
Definition popcount8 (w : Z) : Z :=
  let res := u32 (w - Z.land (Z.shiftr w 1) 0x55) in
  let res := u32 (Z.land res 0x33 + Z.land (Z.shiftr res 2) 0x33) in
  Z.land (u32 (res + Z.shiftr res 4)) 0x0F.
Definition popcount32 (w : Z) : Z :=
  let res := u32 (w - Z.land (Z.shiftr w 1) 0x55555555) in
  let res := u32 (Z.land res 0x33333333 + Z.land (Z.shiftr res 2) 0x33333333) in
  let res := Z.land (u32 (res + Z.shiftr res 4)) 0x0F0F0F0F in
  let res := u32 (res + Z.shiftr res 8) in
  Z.land (u32 (res + Z.shiftr res 16)) 0x000000FF.
(** bytes up to an aligned address *)
Fixpoint count_align (addr : Z) (buf : list Z) (res : Z) : Z * list Z :=
  match buf with
  | [] => (res, [])
  | b :: buf' => if has addr 3 then count_align (addr + 1) buf' (u32 (res + popcount8 b)) else (res, buf)
  end.
(** [while (nbytes > 4)], a word at a time *)
Fixpoint count_words (fuel : nat) (buf : list Z) (res : Z) : outcome (Z * list Z) :=
  match fuel with
  | O => Loop
  | S fuel =>
    if 4 <? Z.of_nat (length buf) then count_words fuel (drop 4 buf) (u32 (res + popcount32 (le_to (take 4 buf)))) else Ret (res, buf)
  end.
Definition ext2fs_bitcount (addr : Z) (buf : list Z) : outcome Z :=
  let '(res, buf) := count_align addr buf 0 in
  count_words (S (length buf)) buf res ≫= λ r : Z * list Z, Ret (foldl (λ res b, u32 (res + popcount8 b)) r.1 r.2).

(** ** Fields side by side *)
Fixpoint rep (m : Z) (n : nat) : Z := match n with O => 0 | S n => m + 256 * rep m n end.
Lemma land_digit d x m M : 0 <= d < 256 → 0 <= m < 256 → Z.land (d + 256 * x) (m + 256 * M) = Z.land d m + 256 * Z.land x M.
Proof.
  intros Hd Hm. assert (∀ a y, 0 <= a < 256 → a + 256 * y = Z.lor a (Z.shiftl y 8)) as E by (intros; rewrite lor_shiftl by lia; done).
  assert (0 <= Z.land d m < 256) as Hl.
  { assert (0 <= Z.land d m) as H0 by (apply Z.land_nonneg; lia). split; [done|]. change 256 with (2 ^ 8). apply Z.bounded_iff_bits_nonneg; [lia|done|]. intros k Hk. rewrite Z.land_spec.
    by rewrite (proj1 (Z.bounded_iff_bits_nonneg 8 d ltac:(lia) ltac:(lia)) ltac:(lia) k Hk). }
  rewrite !E by done. apply Z.bits_inj'. intros n Hn. rewrite !Z.land_spec, !Z.lor_spec, !Z.shiftl_spec, !Z.land_spec by lia. destruct (decide (n < 8)).
  - rewrite !(Z.testbit_neg_r _ (n - 8)) by lia. by rewrite !orb_false_r.
  - assert (∀ a, 0 <= a < 256 → Z.testbit a n = false) as Hz by (intros a Ha; apply (proj1 (Z.bounded_iff_bits_nonneg 8 a ltac:(lia) ltac:(lia))); lia). by rewrite !Hz.
Qed.
(** a shift within the fields, when the mask hides what comes from the next *)
Lemma shiftr_digit d x j m M : 0 <= d < 256 → 0 <= j <= 8 → 0 <= m < 2 ^ (8 - j) →
  Z.land (Z.shiftr (d + 256 * x) j) (m + 256 * M) = Z.land (Z.shiftr d j) m + 256 * Z.land (Z.shiftr x j) M.
Proof.
  intros Hd Hj Hm. assert (2 ^ (8 - j) <= 256) by (change 256 with (2 ^ 8); apply Z.pow_le_mono_r; lia). assert (2 ^ 8 = 2 ^ j * 2 ^ (8 - j)) as Hp by (rewrite <-Z.pow_add_r by lia; f_equal; lia). change (2 ^ 8) with 256 in Hp.
  pose proof (Z.pow_pos_nonneg 2 j ltac:(lia) ltac:(lia)). pose proof (Z.pow_pos_nonneg 2 (8 - j) ltac:(lia) ltac:(lia)).
  rewrite !Z.shiftr_div_pow2 by lia. assert ((d + 256 * x) / 2 ^ j = (d / 2 ^ j + 2 ^ (8 - j) * (x mod 2 ^ j)) + 256 * (x / 2 ^ j)) as ->.
  { rewrite Hp. replace (d + 2 ^ j * 2 ^ (8 - j) * x) with (d + (2 ^ (8 - j) * x) * 2 ^ j) by ring. rewrite Z.div_add by lia. pose proof (Z.div_mod x (2 ^ j) ltac:(lia)) as E. rewrite E at 1. ring. }
  assert (0 <= d / 2 ^ j < 2 ^ (8 - j)) as Hq by (split; [apply Z.div_pos; lia|apply Z.div_lt_upper_bound; lia]). pose proof (Z.mod_pos_bound x (2 ^ j) ltac:(lia)) as Hx.
  rewrite land_digit by nia. f_equal. apply Z.bits_inj'. intros n Hn. rewrite !Z.land_spec. destruct (decide (n < 8 - j)) as [Hl|Hl].
  - f_equal. rewrite (Z.mul_comm (2 ^ (8 - j))). rewrite <-(Z.mod_pow2_bits_low (_ + _) (8 - j) n) by lia. rewrite Z.mod_add by lia. by rewrite Z.mod_small.
  - rewrite (proj1 (Z.bounded_iff_bits_nonneg (8 - j) m ltac:(lia) ltac:(lia)) ltac:(lia) n ltac:(lia)). by rewrite !andb_false_r.
Qed.
(** the three steps on one byte, and on a list of bytes as one number *)
Definition f1 (b : Z) : Z := b - Z.land (Z.shiftr b 1) 0x55.
Definition f2 (b : Z) : Z := Z.land b 0x33 + Z.land (Z.shiftr b 2) 0x33.
Definition f3 (b : Z) : Z := Z.land (b + Z.shiftr b 4) 0x0F.
Lemma step1 l : bytes l → le_to l - Z.land (Z.shiftr (le_to l) 1) (rep 0x55 (length l)) = le_to (f1 <$> l).
Proof. induction 1 as [|b l Hb Hl IH]; [done|]. cbn [le_to length rep fmap list_fmap]. rewrite shiftr_digit by (try done; lia). change (list_fmap Z Z f1 l) with (f1 <$> l). rewrite <-IH. unfold f1. ring. Qed.
Lemma step2 l : bytes l → Z.land (le_to l) (rep 0x33 (length l)) + Z.land (Z.shiftr (le_to l) 2) (rep 0x33 (length l)) = le_to (f2 <$> l).
Proof.
  induction 1 as [|b l Hb Hl IH]; [done|]. cbn [le_to length rep fmap list_fmap]. rewrite shiftr_digit, land_digit by (try done; lia). change (list_fmap Z Z f2 l) with (f2 <$> l). rewrite <-IH. unfold f2. ring.
Qed.
(** fields of at most four in the halves of the bytes *)
Definition nibbles (b : Z) : Prop := 0 <= b <= 68 ∧ b mod 16 <= 4.
Lemma step3 l : Forall nibbles l → Z.land (le_to l + Z.shiftr (le_to l) 4) (rep 0x0F (length l)) = le_to (f3 <$> l) ∧ le_to l mod 16 <= 4.
Proof.
  induction 1 as [|b l [Hb1 Hb2] Hl [IH IHm]]; [done|]. cbn [le_to length rep fmap list_fmap]. change (list_fmap Z Z f3 l) with (f3 <$> l). rewrite <-IH. split; [|zdm]. set (y := le_to l) in *.
  rewrite !Z.shiftr_div_pow2 by lia. change (2 ^ 4) with 16. assert ((b + 256 * y) / 16 = b / 16 + 16 * y) as -> by zdm.
  assert (b + 256 * y + (b / 16 + 16 * y) = (b + b / 16 + 16 * (y mod 16)) + 256 * (y + y / 16)) as -> by zdm. rewrite land_digit by zdm. f_equal. unfold f3. rewrite Z.shiftr_div_pow2 by lia. change (2 ^ 4) with 16.
  change 15 with (Z.ones 4). rewrite !Z.land_ones by lia. change (2 ^ 4) with 16. zdm.
Qed.
Lemma byte_table : forallb (λ b, (0 <=? f1 b) && (f1 b <? 256) && (0 <=? f2 (f1 b)) && (f2 (f1 b) <=? 68) && (f2 (f1 b) mod 16 <=? 4) && (f3 (f2 (f1 b)) =? popcount (Z.testbit b) 8) && (popcount8 b =? popcount (Z.testbit b) 8) && (popcount (Z.testbit b) 8 <=? 8) && (0 <=? popcount (Z.testbit b) 8)) (seqZ 0 256) = true.
Proof. vm_compute. reflexivity. Qed.
Lemma byte_facts b : is_byte b → is_byte (f1 b) ∧ nibbles (f2 (f1 b)) ∧ f3 (f2 (f1 b)) = popcount (Z.testbit b) 8 ∧ popcount8 b = popcount (Z.testbit b) 8 ∧ 0 <= popcount (Z.testbit b) 8 <= 8.
Proof.
  intros [H1 H2]. pose proof (proj1 (forallb_forall _ _) byte_table b ltac:(apply list_elem_of_In, elem_of_seqZ; lia)) as H. cbv beta in H. breflect. unfold is_byte, nibbles. lia.
Qed.

(** ** Words and buffers *)
Lemma popcount32_bytes l : length l = 4%nat → bytes l → popcount32 (le_to l) = foldr (λ b n, popcount (Z.testbit b) 8 + n) 0 l.
Proof.
  intros Hl Hb. destruct l as [|w0 [|w1 [|w2 [|w3 [|]]]]]; try done. assert (is_byte w0 ∧ is_byte w1 ∧ is_byte w2 ∧ is_byte w3) as (B0 & B1 & B2 & B3).
  { unfold bytes in Hb. rewrite !Forall_cons in Hb. tauto. } set (l := [w0; w1; w2; w3]) in *.
  destruct (byte_facts _ B0) as (P0 & Q0 & R0 & _ & S0), (byte_facts _ B1) as (P1 & Q1 & R1 & _ & S1), (byte_facts _ B2) as (P2 & Q2 & R2 & _ & S2), (byte_facts _ B3) as (P3 & Q3 & R3 & _ & S3).
  assert (bytes (f1 <$> l)) as Hb1 by (unfold bytes, l; cbn [fmap list_fmap]; by rewrite !Forall_cons, Forall_nil). assert (Forall nibbles (f2 <$> (f1 <$> l))) as Hn by (unfold l; cbn [fmap list_fmap]; by rewrite !Forall_cons, Forall_nil).
  assert (bytes (f2 <$> (f1 <$> l))) as Hb2 by (eapply Forall_impl; [exact Hn|]; unfold nibbles, is_byte; lia).
  unfold popcount32. cbv zeta. change 0x55555555 with (rep 0x55 (length l)). change 0x33333333 with (rep 0x33 (length (f1 <$> l))). change 0x0F0F0F0F with (rep 0x0F (length (f2 <$> (f1 <$> l)))).
  assert (∀ m, bytes m → length m = 4%nat → u32 (le_to m) = le_to m) as Hu by (intros m Bm Lm; apply u32_small; pose proof (le_to_bound m Bm) as Hm; rewrite Lm in Hm; change (256 ^ Z.of_nat 4) with (2 ^ 32) in Hm; lia).
  rewrite step1 by done. rewrite Hu by done. rewrite step2 by done. rewrite Hu by done. destruct (step3 _ Hn) as [E3 _].
  assert (u32 (le_to (f2 <$> (f1 <$> l)) + Z.shiftr (le_to (f2 <$> (f1 <$> l))) 4) = le_to (f2 <$> (f1 <$> l)) + Z.shiftr (le_to (f2 <$> (f1 <$> l))) 4) as ->.
  { apply u32_small. rewrite Z.shiftr_div_pow2 by lia. change (2 ^ 4) with 16. cbn [le_to fmap list_fmap l]. unfold nibbles in *. zdm. }
  rewrite E3. cbn [le_to fmap list_fmap l foldr]. rewrite R0, R1, R2, R3. set (a := popcount (Z.testbit w0) 8) in *. set (b := popcount (Z.testbit w1) 8) in *. set (c := popcount (Z.testbit w2) 8) in *. set (d := popcount (Z.testbit w3) 8) in *.
  rewrite !Z.shiftr_div_pow2 by lia. change 255 with (Z.ones 8). rewrite Z.land_ones by lia. clearbody a b c d. clear - S0 S1 S2 S3. change (2 ^ 8) with 256. change (2 ^ 16) with 65536.
  assert ((a + 256 * (b + 256 * (c + 256 * (d + 256 * 0)))) / 256 = b + 256 * (c + 256 * d)) as -> by zdm. rewrite (u32_small (_ + (b + _))) by lia.
  assert ((a + 256 * (b + 256 * (c + 256 * (d + 256 * 0))) + (b + 256 * (c + 256 * d))) / 65536 = c + d + 256 * d) as -> by zdm. rewrite u32_small by lia. zdm.
Qed.
Lemma popcount_add f n m : popcount f (n + m) = popcount f n + popcount (λ i, f (Z.of_nat n + i)) m.
Proof.
  induction m as [|m IH]; [rewrite Nat.add_0_r; cbn; lia|]. rewrite Nat.add_succ_r. cbn [popcount]. rewrite IH. replace (Z.of_nat (n + m)) with (Z.of_nat n + Z.of_nat m) by lia. lia.
Qed.
(** the set bits of a buffer, byte by byte *)
Lemma popcount_buffer buf : popcount (bit buf) (8 * length buf) = foldr (λ b n, popcount (Z.testbit b) 8 + n) 0 buf.
Proof.
  induction buf as [|b buf IH]; [done|]. replace (8 * length (b :: buf))%nat with (8 + 8 * length buf)%nat by (cbn [length]; lia). rewrite popcount_add. cbn [foldr]. rewrite <-IH. f_equal. apply popcount_ext. intros i Hi. unfold bit. change (Z.of_nat 8) with 8. replace (8 + i) with (i + 1 * 8) by lia. rewrite Z.div_add, Z.mod_add by lia. assert (0 <= i / 8) by (apply Z.div_pos; lia). replace (Z.to_nat (i / 8 + 1)) with (S (Z.to_nat (i / 8))) by lia. done.
Qed.
Notation total := (foldr (λ b n, popcount (Z.testbit b) 8 + n) 0).
Lemma total_app a b : total (a ++ b) = total a + total b.
Proof. induction a as [|x a IH]; [done|]. cbn [app foldr]. rewrite IH. lia. Qed.
Lemma total_range l : bytes l → 0 <= total l <= 8 * Z.of_nat (length l).
Proof. induction 1 as [|b l Hb Hl IH]; [cbn; lia|]. cbn [foldr length]. destruct (byte_facts b Hb) as (_ & _ & _ & _ & Hp). lia. Qed.
Lemma count_bytes l res : bytes l → 0 <= res → res + 8 * Z.of_nat (length l) < 2 ^ 32 → foldl (λ res b, u32 (res + popcount8 b)) res l = res + total l.
Proof.
  intros Hl. revert res. induction Hl as [|b l Hb Hl IH]; intros res H0 Hr; [cbn; lia|]. cbn [foldl foldr length] in *. destruct (byte_facts b Hb) as (_ & _ & _ & -> & Hp). rewrite u32_small by lia. rewrite IH by lia. lia.
Qed.
Lemma count_align_ok addr l res : bytes l → 0 <= res → res + 8 * Z.of_nat (length l) < 2 ^ 32 → ∃ l1 l2, l = l1 ++ l2 ∧ count_align addr l res = (res + total l1, l2).
Proof.
  intros Hl. revert addr res. induction Hl as [|b l Hb Hl IH]; intros addr res H0 Hr; [exists [], []; split; [done|]; cbn; by rewrite Z.add_0_r|]. cbn [count_align length] in *. destruct (has addr 3); [|exists [], (b :: l); split; [done|]; cbn; by rewrite Z.add_0_r].
  destruct (byte_facts b Hb) as (_ & _ & _ & -> & Hp). rewrite u32_small by lia. destruct (IH (addr + 1) (res + popcount (Z.testbit b) 8)) as (l1 & l2 & -> & E); [lia|lia|]. exists (b :: l1), l2. split; [done|]. rewrite E. cbn [foldr]. f_equal. lia.
Qed.
Lemma count_words_ok fuel l res : bytes l → 0 <= res → res + 8 * Z.of_nat (length l) < 2 ^ 32 → (length l < fuel)%nat → ∃ l1 l2, l = l1 ++ l2 ∧ count_words fuel l res = Ret (res + total l1, l2).
Proof.
  revert l res. induction fuel as [|fuel IH]; intros l res Hl H0 Hr Hf; [lia|]. cbn [count_words]. destruct (Z.ltb_spec 4 (Z.of_nat (length l))) as [H4|H4].
  - assert (bytes (take 4 l)) as B1 by (by apply Forall_take). assert (bytes (drop 4 l)) as B2 by (by apply Forall_drop). assert (length (take 4 l) = 4%nat) as L1 by (rewrite length_take; lia). pose proof (total_range _ B1) as T1. rewrite L1 in T1.
    rewrite popcount32_bytes by done. rewrite u32_small by lia. destruct (IH (drop 4 l) (res + total (take 4 l)) B2) as (l1 & l2 & E & Ec); [lia|rewrite length_drop; lia|rewrite length_drop; lia|].
    exists (take 4 l ++ l1), l2. split; [by rewrite <-app_assoc, <-E, take_drop|]. rewrite Ec, total_app. do 2 f_equal. lia.
  - exists [], l. split; [done|]. cbn [foldr]. by rewrite Z.add_0_r.
Qed.

(** ** Single bits *)
Lemma mask_land b k : 0 <= k → Z.land (Z.shiftl 1 k) b = if Z.testbit b k then 2 ^ k else 0.
Proof.
  intros Hk. rewrite Z.shiftl_1_l. apply Z.bits_inj'. intros n Hn. rewrite Z.land_spec, Z.pow2_bits_eqb by done. destruct (Z.eqb_spec k n) as [->|Hne]; cbn [andb].
  - destruct (Z.testbit b n) eqn:E; [by rewrite Z.pow2_bits_true|by rewrite Z.bits_0].
  - destruct (Z.testbit b k); [by rewrite Z.pow2_bits_false|by rewrite Z.bits_0].
Qed.
Lemma bit_place nr : Z.shiftr nr 3 = nr / 8 ∧ Z.land nr 0x07 = nr mod 8.
Proof. split; [by rewrite Z.shiftr_div_pow2|]. change 7 with (Z.ones 3). by rewrite Z.land_ones. Qed.
(** each function returns whether the bit was set, as its value in the byte,
    and changes no other bit *)
Lemma bit_ops_spec nr buf : bm_range buf nr → bytes buf → let old := if bit buf nr then 2 ^ (nr mod 8) else 0 in
  ext2fs_test_bit nr buf = Ret old ∧
  (∃ buf', ext2fs_set_bit nr buf = Ret (old, buf') ∧ length buf' = length buf ∧ bytes buf' ∧ ∀ j, 0 <= j → bit buf' j = bool_decide (j = nr) || bit buf j) ∧
  (∃ buf', ext2fs_clear_bit nr buf = Ret (old, buf') ∧ length buf' = length buf ∧ bytes buf' ∧ ∀ j, 0 <= j → bit buf' j = negb (bool_decide (j = nr)) && bit buf j).
Proof.
  intros Hr Hb old. pose proof (bm_range_byte buf nr Hr) as [Hi Hm]. destruct (bit_place nr) as [E1 E2]. destruct (aget_in_range buf (nr / 8)) as (b & Hg & Hl); [lia|].
  assert (Z.land (mask nr) b = old) as Eo by (unfold mask, old, bit; rewrite E2, mask_land by lia; by rewrite Hl).
  destruct (bm_put1_spec buf nr Hr Hb) as (b1 & P1 & L1 & B1 & S1). destruct (bm_put0_spec buf nr Hr Hb) as (b0 & P0 & L0 & B0 & S0). unfold bm_put1, bm_put0 in P1, P0. rewrite Hg in P1, P0. revert P1 P0. ostep. intros P1 P0.
  unfold ext2fs_test_bit, ext2fs_set_bit, ext2fs_clear_bit. rewrite E1, Hg. ostep. rewrite Eo. split; [done|]. split.
  - exists b1. unfold mask. rewrite E2, P1. done.
  - exists b0. unfold mask. rewrite E2, P0. done.
Qed.

(** ** Theorems *)

(** Counting bits by bytes and words in parallel returns the number of set
    bits of the buffer, at every address, for buffers below 512 MiB. *)
Theorem bitcount_correct addr buf : bytes buf → 8 * Z.of_nat (length buf) < 2 ^ 32 → ext2fs_bitcount addr buf = Ret (popcount (bit buf) (8 * length buf)).
Proof.
  intros Hb Hl. unfold ext2fs_bitcount. destruct (count_align_ok addr buf 0 Hb ltac:(lia) ltac:(lia)) as (l1 & l2 & -> & ->). apply Forall_app in Hb as [B1 B2]. rewrite length_app in Hl. pose proof (total_range _ B1).
  destruct (count_words_ok (S (length l2)) l2 (0 + total l1) B2) as (l3 & l4 & -> & ->); [lia|lia|lia|]. apply Forall_app in B2 as [B3 B4]. rewrite length_app in Hl. pose proof (total_range _ B3). ostep. cbn [fst snd].
  rewrite count_bytes by (done || lia). rewrite popcount_buffer, !total_app. f_equal. lia.
Qed.
Lemma bitcount_correct_witness : ext2fs_bitcount 0x1001 [0xFF; 1; 2; 4; 0x80; 0; 3; 7; 0x55; 0xAA] = Ret 25.
Proof. rewrite (bitcount_correct 0x1001 [0xFF; 1; 2; 4; 0x80; 0; 3; 7; 0x55; 0xAA]); [reflexivity|repeat constructor; done|cbn; lia]. Defined.
End Bitops.
