(* ===== verification/Bitmap64.v ===== *)
(** 64-bit bitmaps of the vendored e2fsprogs library (kernel/fs/lib/ext2fs):
    the front end gen_bitmap64.c over a table of operations (bmap64.h), and the
    bit array, blkmap64_ba.c, as one implementation of the table.  The front
    end turns blocks into clusters and checks the range; it is proved against
    the laws of the table ([BitmapLaws]), which the bit array satisfies.

    A bitmap here has one of the three 64-bit magic numbers; 32-bit bitmaps
    are another structure.  Warnings (com_err) are left out. *)
From stdpp Require Import base numbers list.
From S2P Require Import Prelude Bitmap Bitops.
Open Scope Z_scope.

Module Bitmap64.
Import Bitops.
Definition EINVAL : Z := 22.
Definition ENOENT : Z := 2.
Definition EXT2_ET_NO_MEMORY : Z := 2133571398.
Inductive bmagic := GENERIC_BITMAP64 | BLOCK_BITMAP64 | INODE_BITMAP64.
#[export] Instance bmagic_eq_dec : EqDecision bmagic.
Proof. solve_decision. Defined.
(** struct ext2fs_struct_generic_bitmap_64 *)
Record gbm (P : Type) := Gbm {
  magic : bmagic;
  start : Z;
  end_ : Z;
  real_end : Z;
  cluster_bits : Z;
  private : P
}.
Arguments Gbm {P}. Arguments magic {P}. Arguments start {P}. Arguments end_ {P}. Arguments real_end {P}. Arguments cluster_bits {P}. Arguments private {P}.
Definition set_private {P} (b : gbm P) (p : P) : gbm P := Gbm (magic b) (start b) (end_ b) (real_end b) (cluster_bits b) p.
Definition set_end {P} (b : gbm P) (e : Z) : gbm P := Gbm (magic b) (start b) e (real_end b) (cluster_bits b) (private b).
Definition set_real_end {P} (b : gbm P) (e : Z) : gbm P := Gbm (magic b) (start b) (end_ b) e (cluster_bits b) (private b).
(** struct ext2_bitmap_ops; the two searches may be missing *)
Class BitmapOps (P : Type) := {
  mark_bmap : gbm P → Z → outcome (Z * gbm P);
  unmark_bmap : gbm P → Z → outcome (Z * gbm P);
  test_bmap : gbm P → Z → outcome Z;
  mark_bmap_extent : gbm P → Z → Z → outcome (gbm P);
  unmark_bmap_extent : gbm P → Z → Z → outcome (gbm P);
  test_clear_bmap_extent : gbm P → Z → Z → outcome Z;
  clear_bmap : gbm P → gbm P;
  find_first_zero : option (gbm P → Z → Z → outcome (Z + Z));
  find_first_set : option (gbm P → Z → Z → outcome (Z + Z))
}.

(** ** The front end *)
Section front.
Context {P : Type} {ops : BitmapOps P}.
Definition ext2fs_mark_generic_bmap (b : gbm P) (arg : Z) : outcome (Z * gbm P) :=
  let arg := Z.shiftr arg (cluster_bits b) in
  if (arg <? start b) || (end_ b <? arg) then Ret (0, b) else mark_bmap b arg.
Definition ext2fs_unmark_generic_bmap (b : gbm P) (arg : Z) : outcome (Z * gbm P) :=
  let arg := Z.shiftr arg (cluster_bits b) in
  if (arg <? start b) || (end_ b <? arg) then Ret (0, b) else unmark_bmap b arg.
Definition ext2fs_test_generic_bmap (b : gbm P) (arg : Z) : outcome Z :=
  let arg := Z.shiftr arg (cluster_bits b) in
  if (arg <? start b) || (end_ b <? arg) then Ret 0 else test_bmap b arg.
(** the clusters of a range of blocks *)
Definition to_clusters (b : gbm P) (block num : Z) : Z * Z :=
  let end1 := u64 (block + num) in
  let block := Z.shiftr block (cluster_bits b) in
  let end1 := Z.shiftr (u64 (end1 + u64 (Z.shiftl 1 (cluster_bits b) - 1))) (cluster_bits b) in
  (block, u32 (end1 - block)).
Definition out_of_range (b : gbm P) (block num : Z) : bool := (block <? start b) || (end_ b <? block) || (end_ b <? u64 (block + num - 1)).
Definition ext2fs_test_block_bitmap_range2 (b : gbm P) (block num : Z) : outcome Z :=
  if num =? 1 then r ← ext2fs_test_generic_bmap b block; Ret (if r =? 0 then 1 else 0) else
  let '(block, num) := to_clusters b block num in
  if out_of_range b block num then Ret EINVAL else test_clear_bmap_extent b block num.
Definition ext2fs_mark_block_bitmap_range2 (b : gbm P) (block num : Z) : outcome (gbm P) :=
  let '(block, num) := to_clusters b block num in
  if out_of_range b block num then Ret b else mark_bmap_extent b block num.
Definition ext2fs_unmark_block_bitmap_range2 (b : gbm P) (block num : Z) : outcome (gbm P) :=
  let '(block, num) := to_clusters b block num in
  if out_of_range b block num then Ret b else unmark_bmap_extent b block num.
Definition ext2fs_set_generic_bmap_padding (b : gbm P) : outcome (gbm P) :=
  mark_bmap_extent b (u64 (end_ b + 1)) (u32 (real_end b - end_ b)).
Definition ext2fs_fudge_generic_bmap_end (b : gbm P) (neq e : Z) : Z + (Z * gbm P) :=
  if real_end b <? e then inl neq else inr (end_ b, set_end b e).
Definition ext2fs_clear_generic_bmap (b : gbm P) : gbm P := clear_bmap b.
Definition ext2fs_get_generic_bmap_start (b : gbm P) : Z := start b.
Definition ext2fs_get_generic_bmap_end (b : gbm P) : Z := end_ b.
(** [for (cout = cstart; cout <= cend; cout++)] over the test *)
Fixpoint test_each (want : bool) (b : gbm P) (cout : Z) (n : nat) : outcome (Z + Z) :=
  match n with
  | O => Ret (inl ENOENT)
  | S n => r ← test_bmap b cout; if Bool.eqb (negb (r =? 0)) want then Ret (inr cout) else test_each want b (cout + 1) n
  end.
Definition find_generic (want : bool) (op : option (gbm P → Z → Z → outcome (Z + Z))) (b : gbm P) (start0 end0 : Z) : outcome (Z + Z) :=
  let cstart := Z.shiftr start0 (cluster_bits b) in
  let cend := Z.shiftr end0 (cluster_bits b) in
  if (cstart <? start b) || (end_ b <? cend) || (end0 <? start0) then Ret (inl EINVAL) else
  r ← (match op with Some find => find b cstart cend | None => test_each want b cstart (Z.to_nat (cend - cstart + 1)) end);
  Ret match r with
  | inl e => inl e
  | inr cout => let cout := u64 (Z.shiftl cout (cluster_bits b)) in inr (if start0 <=? cout then cout else start0)
  end.
Definition ext2fs_find_first_zero_generic_bmap : gbm P → Z → Z → outcome (Z + Z) := find_generic false find_first_zero.
Definition ext2fs_find_first_set_generic_bmap : gbm P → Z → Z → outcome (Z + Z) := find_generic true find_first_set.
(** [for (i = bm1->start; i < bm1->end; i++)] *)
Fixpoint compare_loop (neq : Z) (b1 b2 : gbm P) (i : Z) (n : nat) : outcome Z :=
  match n with
  | O => Ret 0
  | S n =>
    r1 ← ext2fs_test_generic_bmap b1 i;
    r2 ← ext2fs_test_generic_bmap b2 i;
    if Bool.eqb (r1 =? 0) (r2 =? 0) then compare_loop neq b1 b2 (i + 1) n else Ret neq
  end.
Definition ext2fs_compare_generic_bmap (neq : Z) (b1 b2 : gbm P) : outcome Z :=
  if bool_decide (magic b1 = magic b2) then
    if negb (start b1 =? start b2) || negb (end_ b1 =? end_ b2) then Ret neq else compare_loop neq b1 b2 (start b1) (Z.to_nat (end_ b1 - start b1))
  else Ret EINVAL.
Fixpoint count_loop (fuel : nat) (b : gbm P) (start0 end0 tot_set : Z) : outcome (Z + Z) :=
  match fuel with
  | O => Loop
  | S fuel =>
    if start0 <? end0 then
      r ← ext2fs_find_first_set_generic_bmap b start0 end0;
      match r with
      | inl e => Ret (if e =? ENOENT then inr tot_set else inl e)
      | inr start0 =>
        r ← ext2fs_find_first_zero_generic_bmap b start0 end0;
        match r with
        | inr next => count_loop fuel b (u64 (next + 1)) end0 (u64 (tot_set + (next - start0)))
        | inl e => Ret (if e =? ENOENT then inr (u64 (tot_set + (end0 - start0 + 1))) else inl e)
        end
      end
    else Ret (inr tot_set)
  end.
Definition ext2fs_count_used_blocks (block_map : gbm P) (start0 end0 : Z) : outcome (Z + Z) := count_loop (S (Z.to_nat (end0 - start0))) block_map start0 end0 0.
End front.

(** ** The bit array *)
Notation ba := (list Z).
Definition ba_size (s real : Z) : nat := Z.to_nat ((real - s) / 8 + 1).
(** what malloc returned holds anything *)
Definition ba_alloc_private_data (mem : bool) (junk : nat → list Z) (b : gbm unit) : Z + gbm ba :=
  if mem then inr (Gbm (magic b) (start b) (end_ b) (real_end b) (cluster_bits b) (junk (ba_size (start b) (real_end b)))) else inl EXT2_ET_NO_MEMORY.
Definition ba_new_bmap (mem : bool) (junk : nat → list Z) (b : gbm unit) : Z + gbm ba :=
  match ba_alloc_private_data mem junk b with
  | inl e => inl e
  | inr b => inr (set_private b (replicate (ba_size (start b) (real_end b)) 0))
  end.
Definition ba_copy_bmap (mem : bool) (junk : nat → list Z) (src : gbm ba) (dest : gbm unit) : Z + gbm ba :=
  match ba_alloc_private_data mem junk dest with
  | inl e => inl e
  | inr dest => inr (set_private dest (splice (private dest) 0 (take (ba_size (start src) (real_end src)) (private src))))
  end.
Definition on_bit (f : Z → list Z → outcome (Z * list Z)) (b : gbm ba) (arg : Z) : outcome (Z * gbm ba) :=
  f (u64 (arg - start b)) (private b) ≫= λ r : Z * list Z, Ret (r.1, set_private b r.2).
Definition ba_mark_bmap : gbm ba → Z → outcome (Z * gbm ba) := on_bit ext2fs_set_bit64.
Definition ba_unmark_bmap : gbm ba → Z → outcome (Z * gbm ba) := on_bit ext2fs_clear_bit64.
Definition ba_test_bmap (b : gbm ba) (arg : Z) : outcome Z := ext2fs_test_bit64 (u64 (arg - start b)) (private b).
Fixpoint extent_loop (f : Z → list Z → outcome (Z * list Z)) (b : gbm ba) (arg i : Z) (n : nat) : outcome (gbm ba) :=
  match n with
  | O => Ret b
  | S n => f (u64 (arg + i - start b)) (private b) ≫= λ r : Z * list Z, extent_loop f (set_private b r.2) arg (i + 1) n
  end.
Definition ba_mark_bmap_extent (b : gbm ba) (arg num : Z) : outcome (gbm ba) := extent_loop ext2fs_set_bit64 b arg 0 (Z.to_nat num).
Definition ba_unmark_bmap_extent (b : gbm ba) (arg num : Z) : outcome (gbm ba) := extent_loop ext2fs_clear_bit64 b arg 0 (Z.to_nat num).
Definition ba_clear_bmap (b : gbm ba) : gbm ba := set_private b (splice (private b) 0 (replicate (ba_size (start b) (real_end b)) 0)).
(** gen_bitmap.c: memory compared with zeros, 256 bytes at a time *)
Fixpoint mem_is_zero (fuel : nat) (mem : list Z) : outcome bool :=
  match fuel with
  | O => Loop
  | S fuel =>
    if (256 <=? Z.of_nat (length mem)) then if forallb (λ c, c =? 0) (take 256 mem) then mem_is_zero fuel (drop 256 mem) else Ret false
    else Ret (forallb (λ c, c =? 0) mem)
  end.
Definition ext2fs_mem_is_zero (mem : list Z) : outcome bool := mem_is_zero (S (length mem)) mem.
(** [for (i = count; i > 0; i--, mark_bit--) bits |= 1 << mark_bit] *)
Fixpoint mark_bits (count : nat) (mark_bit acc : Z) : Z :=
  match count with O => acc | S count => mark_bits count (mark_bit - 1) (Z.lor acc (Z.shiftl 1 mark_bit)) end.
(** the bytes from [start_byte] on *)
Definition test_bytes (bits : list Z) (start_byte len_bit len_byte : Z) : outcome Z :=
  let whole : outcome Z :=
    if start_byte + len_byte <=? Z.of_nat (length bits) then z ← ext2fs_mem_is_zero (slice bits (Z.to_nat start_byte) (Z.to_nat len_byte)); Ret (Z.b2z z) else Undef in
  if len_bit =? 0 then whole else
  let last_bit := mark_bits (Z.to_nat len_bit) (len_bit - 1) 0 in
  c ← aget bits (start_byte + len_byte);
  if negb (Z.land last_bit c =? 0) then Ret 0 else if len_byte =? 0 then Ret 1 else whole.
Definition ba_test_clear_bmap_extent (b : gbm ba) (arg len : Z) : outcome Z :=
  let arg := u64 (arg - start b) in
  let start_byte := Z.shiftr arg 3 in
  let start_bit := arg mod 8 in
  if start_bit =? 0 then test_bytes (private b) start_byte (len mod 8) (Z.shiftr len 3) else
  let mark_count := if len <? 8 - start_bit then len else 8 - start_bit in
  let mark_bit := if len <? 8 - start_bit then len + start_bit - 1 else 7 in
  let first_bit := mark_bits (Z.to_nat mark_count) mark_bit 0 in
  c ← aget (private b) start_byte;
  if negb (Z.land first_bit c =? 0) then Ret 0 else if len <=? 8 - start_bit then Ret 1 else
  test_bytes (private b) (start_byte + 1) ((len - mark_count) mod 8) (Z.shiftr (len - mark_count) 3).
(** The ranges are copied as bytes, from the byte of [start0] itself. *)
Definition ba_set_bmap_range (b : gbm ba) (start0 num : Z) (inp : list Z) : outcome (gbm ba) :=
  let o := Z.shiftr start0 3 in let n := Z.shiftr (num + 7) 3 in
  if (n <=? Z.of_nat (length inp)) && (o + n <=? Z.of_nat (length (private b))) then Ret (set_private b (splice (private b) (Z.to_nat o) (take (Z.to_nat n) inp))) else Undef.
Definition ba_get_bmap_range (b : gbm ba) (start0 num : Z) : outcome (list Z) :=
  let o := Z.shiftr start0 3 in let n := Z.shiftr (num + 7) 3 in
  if o + n <=? Z.of_nat (length (private b)) then Ret (slice (private b) (Z.to_nat o) (Z.to_nat n)) else Undef.
Fixpoint clear_down (b : gbm ba) (bitno : Z) (n : nat) : outcome (gbm ba) :=
  match n with
  | O => Ret b
  | S n => ext2fs_clear_bit64 (u64 (bitno - start b)) (private b) ≫= λ r : Z * list Z, clear_down (set_private b r.2) (bitno - 1) n
  end.
(** the bits between the old end and the new one *)
Definition clear_new (b : gbm ba) (new_end : Z) : outcome (gbm ba) :=
  if end_ b <? new_end then let bitno := if new_end <? real_end b then new_end else real_end b in clear_down b bitno (Z.to_nat (bitno - end_ b)) else Ret b.
(** [mem] says whether the array can be resized *)
Definition ba_resize_bmap (mem : bool) (b : gbm ba) (new_end new_real_end : Z) : outcome (Z * gbm ba) :=
  b1 ← clear_new b new_end;
  if new_real_end =? real_end b1 then Ret (0, set_end b1 new_end) else
  let size := ba_size (start b1) (real_end b1) in
  let new_size := ba_size (start b1) new_real_end in
  if negb (size =? new_size)%nat && negb mem then Ret (EXT2_ET_NO_MEMORY, b1) else
  Ret (0, set_real_end (set_end (set_private b1 (take new_size (private b1) ++ replicate (new_size - size) 0)) new_end) new_real_end).

(** ** The searches of the bit array: bits up to a byte, bytes up to a word,
    words, bytes, bits.  [want] is the bit looked for, [addr] the address of
    the array; a byte or word that holds no such bit is skipped. *)
Section search.
Context (addr : Z) (want : bool).
Definition is_wanted (r : Z) : bool := Bool.eqb (negb (r =? 0)) want.
Definition skip_byte : Z := if want then 0 else 0xff.
Definition skip_word : Z := if want then 0 else 2 ^ 64 - 1.
Fixpoint head_bits (fuel : nat) (bits : list Z) (bitpos count : Z) : outcome (Z + Z * Z) :=
  match fuel with
  | O => Loop
  | S fuel =>
    if negb (Z.land bitpos 7 =? 0) && (0 <? count) then
      r ← ext2fs_test_bit64 bitpos bits;
      if is_wanted r then Ret (inl bitpos) else head_bits fuel bits (bitpos + 1) (count - 1)
    else Ret (inr (bitpos, count))
  end.
Fixpoint align_bytes (fuel : nat) (bits : list Z) (bitpos count : Z) : outcome (bool * Z * Z) :=
  match fuel with
  | O => Loop
  | S fuel =>
    if (8 <=? count) && negb (Z.land (addr + Z.shiftr bitpos 3) 7 =? 0) then
      c ← aget bits (Z.shiftr bitpos 3);
      if negb (c =? skip_byte) then Ret (true, bitpos, count) else align_bytes fuel bits (bitpos + 8) (count - 8)
    else Ret (false, bitpos, count)
  end.
(** words and bytes that are skipped, at most [i] *)
Fixpoint skip_words (bits : list Z) (pos : Z) (i : nat) : outcome nat :=
  match i with
  | O => Ret O
  | S i' =>
    if pos + 8 <=? Z.of_nat (length bits) then
      if negb (le_to (slice bits (Z.to_nat pos) 8) =? skip_word) then Ret O else n ← skip_words bits (pos + 8) i'; Ret (S n)
    else Undef
  end.
Fixpoint skip_bytes (bits : list Z) (pos : Z) (i : nat) : outcome nat :=
  match i with
  | O => Ret O
  | S i' => c ← aget bits pos; if negb (c =? skip_byte) then Ret O else n ← skip_bytes bits (pos + 1) i'; Ret (S n)
  end.
Fixpoint tail_bits (bits : list Z) (bitpos : Z) (count : nat) : outcome (option Z) :=
  match count with
  | O => Ret None
  | S count => r ← ext2fs_test_bit64 bitpos bits; if is_wanted r then Ret (Some bitpos) else tail_bits bits (bitpos + 1) count
  end.
Definition word_bytes (bits : list Z) (bitpos count : Z) : outcome (Z * Z) :=
  n ← skip_words bits (Z.shiftr bitpos 3) (Z.to_nat (Z.shiftr count 6));
  let count := count - 64 * Z.of_nat n in
  let bitpos := bitpos + 64 * Z.of_nat n in
  n ← skip_bytes bits (Z.shiftr bitpos 3) (Z.to_nat (Z.shiftr count 3));
  Ret (bitpos + 8 * Z.of_nat n, count - 8 * Z.of_nat n).
Definition ba_find_first (b : gbm ba) (start0 end0 : Z) : outcome (Z + Z) :=
  let bits := private b in
  h ← head_bits 9 bits (u64 (start0 - start b)) (u64 (end0 - start0 + 1));
  match h with
  | inl bitpos => Ret (inr (bitpos + start b))
  | inr (bitpos, count) =>
    if count =? 0 then Ret (inl ENOENT) else
    align_bytes 9 bits bitpos count ≫= λ a : bool * Z * Z,
    let '(byte_found, bitpos, count) := a in
    (if byte_found : bool then Ret (bitpos, count) else word_bytes bits bitpos count) ≫= λ w : Z * Z,
    t ← tail_bits bits w.1 (Z.to_nat w.2);
    Ret match t with Some bitpos => inr (bitpos + start b) | None => inl ENOENT end
  end.
End search.
Definition ba_find_first_zero (addr : Z) : gbm ba → Z → Z → outcome (Z + Z) := ba_find_first addr false.
Definition ba_find_first_set (addr : Z) : gbm ba → Z → Z → outcome (Z + Z) := ba_find_first addr true.
(** the table of the bit array *)
Definition ext2fs_blkmap64_bitarray (addr : Z) : BitmapOps ba := {|
  mark_bmap := ba_mark_bmap;
  unmark_bmap := ba_unmark_bmap;
  test_bmap := ba_test_bmap;
  mark_bmap_extent := ba_mark_bmap_extent;
  unmark_bmap_extent := ba_unmark_bmap_extent;
  test_clear_bmap_extent := ba_test_clear_bmap_extent;
  clear_bmap := ba_clear_bmap;
  find_first_zero := Some (ba_find_first_zero addr);
  find_first_set := Some (ba_find_first_set addr)
|}.

(** ** What a table of operations promises *)
Definition same_shape {P} (b b' : gbm P) : Prop :=
  magic b' = magic b ∧ start b' = start b ∧ end_ b' = end_ b ∧ real_end b' = real_end b ∧ cluster_bits b' = cluster_bits b.
(** the first position from [i] on, of [n], with the bit looked for *)
Fixpoint first_from (want : bool) (f : Z → bool) (i : Z) (n : nat) : option Z :=
  match n with
  | O => None
  | S n => if Bool.eqb (f i) want then Some i else first_from want f (i + 1) n
  end.
Definition first (want : bool) (f : Z → bool) (s e : Z) : Z + Z :=
  match first_from want f s (Z.to_nat (e - s + 1)) with Some k => inr k | None => inl ENOENT end.
Class BitmapLaws (P : Type) {ops : BitmapOps P} := {
  bm_ok : gbm P → Prop;
  has_bit : gbm P → Z → bool;
  ok_geom b : bm_ok b → 0 <= start b ∧ start b <= end_ b ∧ end_ b <= real_end b ∧ real_end b < 2 ^ 62 ∧ 0 <= cluster_bits b < 32;
  updates (b b' : gbm P) (f : Z → bool → bool) : Prop := bm_ok b' ∧ same_shape b b' ∧ ∀ j, start b <= j <= real_end b → has_bit b' j = f j (has_bit b j);
  law_mark b i : bm_ok b → start b <= i <= real_end b →
    ∃ r b', mark_bmap b i = Ret (r, b') ∧ (r =? 0) = negb (has_bit b i) ∧ updates b b' (λ j x, bool_decide (j = i) || x);
  law_unmark b i : bm_ok b → start b <= i <= real_end b →
    ∃ r b', unmark_bmap b i = Ret (r, b') ∧ (r =? 0) = negb (has_bit b i) ∧ updates b b' (λ j x, negb (bool_decide (j = i)) && x);
  law_test b i : bm_ok b → start b <= i <= real_end b → ∃ r, test_bmap b i = Ret r ∧ (r =? 0) = negb (has_bit b i);
  law_mark_extent b i n : bm_ok b → start b <= i → 0 <= n < 2 ^ 32 → i + n - 1 <= real_end b →
    ∃ b', mark_bmap_extent b i n = Ret b' ∧ updates b b' (λ j x, bool_decide (i <= j < i + n) || x);
  law_unmark_extent b i n : bm_ok b → start b <= i → 0 <= n < 2 ^ 32 → i + n - 1 <= real_end b →
    ∃ b', unmark_bmap_extent b i n = Ret b' ∧ updates b b' (λ j x, negb (bool_decide (i <= j < i + n)) && x);
  law_test_extent b i n : bm_ok b → start b <= i → 0 < n < 2 ^ 32 → i + n - 1 <= real_end b →
    test_clear_bmap_extent b i n = Ret (Z.b2z (bool_decide (first true (has_bit b) i (i + n - 1) = inl ENOENT)));
  law_clear b : bm_ok b → updates b (clear_bmap b) (λ _ _, false);
  law_find_zero b find i e : find_first_zero = Some find → bm_ok b → start b <= i <= e → e <= real_end b → find b i e = Ret (first false (has_bit b) i e);
  law_find_set b find i e : find_first_set = Some find → bm_ok b → start b <= i <= e → e <= real_end b → find b i e = Ret (first true (has_bit b) i e)
}.

(** ** The front end against the laws *)
Lemma first_from_spec want f n : ∀ i, match first_from want f i n with
  | Some k => i <= k < i + Z.of_nat n ∧ f k = want ∧ ∀ j, i <= j < k → f j = negb want
  | None => ∀ j, i <= j < i + Z.of_nat n → f j = negb want end.
Proof.
  induction n as [|n IH]; intros i; cbn [first_from]; [intros; lia|]. destruct (Bool.eqb (f i) want) eqn:E.
  - apply Bool.eqb_prop in E. split; [lia|]. split; [done|]. intros; lia.
  - assert (f i = negb want) as Ei by (by destruct (f i), want). specialize (IH (i + 1)). destruct (first_from want f (i + 1) n).
    + destruct IH as (? & ? & H). split; [lia|]. split; [done|]. intros j ?. destruct (decide (j = i)) as [->|]; [done|]. apply H. lia.
    + intros j ?. destruct (decide (j = i)) as [->|]; [done|]. apply IH. lia.
Qed.
Lemma first_spec want f s e : s <= e → match first want f s e with
  | inr k => s <= k <= e ∧ f k = want ∧ ∀ j, s <= j < k → f j = negb want
  | inl r => r = ENOENT ∧ ∀ j, s <= j <= e → f j = negb want end.
Proof.
  intros H. unfold first. pose proof (first_from_spec want f (Z.to_nat (e - s + 1)) s) as Hs. destruct (first_from _ _ _ _).
  - destruct Hs as (? & ? & ?). split; [lia|]. done.
  - split; [done|]. intros. apply Hs. lia.
Qed.
(** the first position is determined by the specification *)
Lemma first_intro want f s e k : s <= k <= e → f k = want → (∀ j, s <= j < k → f j = negb want) → first want f s e = inr k.
Proof.
  intros Hk Hf Hb. pose proof (first_spec want f s e ltac:(lia)) as H. destruct (first want f s e) as [r|k'].
  - destruct H as [_ H]. specialize (H k Hk). rewrite Hf in H. by destruct want.
  - destruct H as (Hk' & Hf' & Hb'). f_equal. destruct (decide (k' < k)); [specialize (Hb k' ltac:(lia)); rewrite Hf' in Hb; by destruct want|].
    destruct (decide (k < k')); [specialize (Hb' k ltac:(lia)); rewrite Hf in Hb'; by destruct want|]. lia.
Qed.
Lemma first_none want f s e : s <= e → (∀ j, s <= j <= e → f j = negb want) → first want f s e = inl ENOENT.
Proof.
  intros Hs Hb. pose proof (first_spec want f s e Hs) as H. destruct (first want f s e) as [r|k]; [by destruct H as [-> _]|].
  destruct H as (Hk & Hf & _). specialize (Hb k Hk). rewrite Hf in Hb. by destruct want.
Qed.
Lemma first_ext want f g s e : s <= e → (∀ j, s <= j <= e → f j = g j) → first want f s e = first want g s e.
Proof.
  intros Hs Hj. pose proof (first_spec want f s e Hs) as H. destruct (first want f s e) as [r|k]; symmetry.
  - destruct H as [-> H]. apply first_none; [done|]. intros j Hr. rewrite <-Hj by done. by apply H.
  - destruct H as (Hk & Hf & H). apply first_intro; [done|by rewrite <-Hj|]. intros j Hr. rewrite <-Hj by lia. by apply H.
Qed.

(** ** A set of clusters: what the front end means *)
Inductive bop := Mark (blk : Z) | Unmark (blk : Z) | Test (blk : Z) | MarkRange (blk n : Z) | UnmarkRange (blk n : Z) | TestRange (blk n : Z) | FindZero (a b : Z) | FindSet (a b : Z).
Inductive bres := RBit (was_set : bool) | RDone | RClear (r : Z) | RFound (r : Z + Z).
Section set.
Context (s e cb : Z).
Definition cl (blk : Z) : Z := blk / 2 ^ cb.
Definition inside (lo hi : Z) : bool := (s <=? lo) && (hi <=? e).
Definition find_spec (want : bool) (f : Z → bool) (a b : Z) : Z + Z :=
  if inside (cl a) (cl b) && (a <=? b) then match first want f (cl a) (cl b) with inr c => inr (Z.max a (c * 2 ^ cb)) | inl r => inl r end else inl EINVAL.
Definition bstep (op : bop) (f : Z → bool) : bres * (Z → bool) :=
  match op with
  | Mark blk => if inside (cl blk) (cl blk) then (RBit (f (cl blk)), λ j, bool_decide (j = cl blk) || f j) else (RBit false, f)
  | Unmark blk => if inside (cl blk) (cl blk) then (RBit (f (cl blk)), λ j, negb (bool_decide (j = cl blk)) && f j) else (RBit false, f)
  | Test blk => (RBit (inside (cl blk) (cl blk) && f (cl blk)), f)
  | MarkRange blk n => (RDone, if inside (cl blk) (cl (blk + n - 1)) then λ j, bool_decide (cl blk <= j <= cl (blk + n - 1)) || f j else f)
  | UnmarkRange blk n => (RDone, if inside (cl blk) (cl (blk + n - 1)) then λ j, negb (bool_decide (cl blk <= j <= cl (blk + n - 1))) && f j else f)
  | TestRange blk n =>
    (RClear (if inside (cl blk) (cl (blk + n - 1)) then Z.b2z (bool_decide (first true f (cl blk) (cl (blk + n - 1)) = inl ENOENT)) else if n =? 1 then 1 else EINVAL), f)
  | FindZero a b => (RFound (find_spec false f a b), f)
  | FindSet a b => (RFound (find_spec true f a b), f)
  end.
Fixpoint brun (ops : list bop) (f : Z → bool) : list bres * (Z → bool) :=
  match ops with
  | [] => ([], f)
  | op :: ops => let '(r, f) := bstep op f in let '(rs, f) := brun ops f in (r :: rs, f)
  end.
End set.
Section frontrun.
Context {P : Type} {ops : BitmapOps P}.
Definition fstep (b : gbm P) (op : bop) : outcome (bres * gbm P) :=
  match op with
  | Mark blk => ext2fs_mark_generic_bmap b blk ≫= λ r : Z * gbm P, Ret (RBit (negb (r.1 =? 0)), r.2)
  | Unmark blk => ext2fs_unmark_generic_bmap b blk ≫= λ r : Z * gbm P, Ret (RBit (negb (r.1 =? 0)), r.2)
  | Test blk => r ← ext2fs_test_generic_bmap b blk; Ret (RBit (negb (r =? 0)), b)
  | MarkRange blk n => b ← ext2fs_mark_block_bitmap_range2 b blk n; Ret (RDone, b)
  | UnmarkRange blk n => b ← ext2fs_unmark_block_bitmap_range2 b blk n; Ret (RDone, b)
  | TestRange blk n => r ← ext2fs_test_block_bitmap_range2 b blk n; Ret (RClear r, b)
  | FindZero x y => r ← ext2fs_find_first_zero_generic_bmap b x y; Ret (RFound r, b)
  | FindSet x y => r ← ext2fs_find_first_set_generic_bmap b x y; Ret (RFound r, b)
  end.
Fixpoint frun (b : gbm P) (l : list bop) : outcome (list bres * gbm P) :=
  match l with
  | [] => Ret ([], b)
  | op :: l => fstep b op ≫= λ r : bres * gbm P, frun r.2 l ≫= λ q : list bres * gbm P, Ret (r.1 :: q.1, q.2)
  end.
End frontrun.
Definition blk_ok (x : Z) : Prop := 0 <= x < 2 ^ 62.
Definition op_ok (op : bop) : Prop :=
  match op with
  | Mark x | Unmark x | Test x => blk_ok x
  | MarkRange x n | UnmarkRange x n | TestRange x n => blk_ok x ∧ 1 <= n < 2 ^ 32
  | FindZero x y | FindSet x y => blk_ok x ∧ blk_ok y
  end.

Section lawful.
Context {P : Type} {ops : BitmapOps P} {laws : BitmapLaws P}.
Implicit Types b : gbm P.
Definition shows b (f : Z → bool) : Prop := ∀ j, start b <= j <= end_ b → has_bit b j = f j.
Lemma shows_updates b b' f g : bm_ok b → shows b f → updates b b' g → shows b' (λ j, g j (f j)).
Proof.
  intros Hb Hf (Hok & (_ & Es & Ee & _) & Hu) j Hj. rewrite Es, Ee in Hj. pose proof (ok_geom b Hb). rewrite Hu by lia. by rewrite Hf.
Qed.
Lemma shift_cl b x : bm_ok b → Z.shiftr x (cluster_bits b) = cl (cluster_bits b) x.
Proof. intros Hb. pose proof (ok_geom b Hb). by rewrite Z.shiftr_div_pow2 by lia. Qed.
Lemma inside_eq b c : (c <? start b) || (end_ b <? c) = negb (inside (start b) (end_ b) c c).
Proof. unfold inside. rewrite negb_andb, <-!Z.ltb_antisym. done. Qed.
Lemma clusters_eq b blk n : bm_ok b → blk_ok blk → 1 <= n < 2 ^ 32 →
  let lo := cl (cluster_bits b) blk in let hi := cl (cluster_bits b) (blk + n - 1) in
  to_clusters b blk n = (lo, hi - lo + 1) ∧ 0 <= lo <= hi ∧ hi - lo + 1 < 2 ^ 32 ∧ hi < 2 ^ 63 ∧ out_of_range b lo (hi - lo + 1) = negb (inside (start b) (end_ b) lo hi).
Proof.
  intros Hb Hx Hn lo hi. pose proof (ok_geom b Hb) as (_ & _ & _ & _ & Hc). unfold blk_ok in Hx. set (cb := cluster_bits b) in *.
  assert (1 <= 2 ^ cb <= 2 ^ 31) as Hp by (pose proof (Z.pow_pos_nonneg 2 cb); pose proof (Z.pow_le_mono_r 2 cb 31); lia).
  assert (lo <= hi) by (apply Z.div_le_mono; lia). assert (0 <= lo) by (apply Z.div_pos; lia).
  assert (hi <= blk + n - 1) by (apply Z.div_le_upper_bound; nia).
  assert (hi - lo + 1 <= n) as Hlen.
  { unfold lo, hi, cl. pose proof (Z.div_mod blk (2 ^ cb) ltac:(lia)). pose proof (Z.mod_pos_bound blk (2 ^ cb) ltac:(lia)).
    assert ((blk + n - 1) / 2 ^ cb < blk / 2 ^ cb + n) by (apply Z.div_lt_upper_bound; nia). lia. }
  split_and!; try lia.
  - unfold to_clusters. fold cb. rewrite !Z.shiftl_1_l, !Z.shiftr_div_pow2 by lia. fold (cl cb blk) lo. rewrite (u64_small (blk + n)), (u64_small (2 ^ cb - 1)), u64_small by lia.
    assert ((blk + n + (2 ^ cb - 1)) / 2 ^ cb = hi + 1) as ->. { replace (blk + n + (2 ^ cb - 1)) with (blk + n - 1 + 1 * 2 ^ cb) by lia. rewrite Z.div_add by lia. done. }
    f_equal. rewrite u32_small by lia. lia.
  - unfold out_of_range, inside. rewrite u64_small by lia. replace (lo + (hi - lo + 1) - 1) with hi by lia. rewrite negb_andb, <-!Z.ltb_antisym.
    destruct (end_ b <? lo) eqn:E; [|by rewrite orb_false_r]. breflect. rewrite (proj2 (Z.ltb_lt _ hi)) by lia. by rewrite !orb_true_r.
Qed.
Lemma test_each_first want b : bm_ok b → ∀ n i, start b <= i → i + Z.of_nat n - 1 <= real_end b →
  test_each want b i n = Ret match first_from want (has_bit b) i n with Some k => inr k | None => inl ENOENT end.
Proof.
  intros Hb. induction n as [|n IH]; intros i Hi Hn; cbn [test_each first_from]; [done|]. destruct (law_test b i Hb ltac:(lia)) as (r & -> & Hr). ostep. rewrite Hr, negb_involutive.
  destruct (Bool.eqb (has_bit b i) want); [done|]. rewrite IH by lia. done.
Qed.
Lemma find_generic_spec want op b x y : bm_ok b → blk_ok x → blk_ok y →
  (∀ find i e, op = Some find → start b <= i <= e → e <= real_end b → find b i e = Ret (first want (has_bit b) i e)) →
  find_generic want op b x y = Ret (find_spec (start b) (end_ b) (cluster_bits b) want (has_bit b) x y).
Proof.
  intros Hb Hx Hy Hop. pose proof (ok_geom b Hb) as (? & ? & ? & ? & Hc). unfold find_generic, find_spec. rewrite !shift_cl by done. set (cb := cluster_bits b) in *.
  assert (1 <= 2 ^ cb) by (pose proof (Z.pow_pos_nonneg 2 cb); lia). unfold inside. unfold blk_ok in *.
  replace ((cl cb x <? start b) || (end_ b <? cl cb y) || (y <? x)) with (negb ((start b <=? cl cb x) && (cl cb y <=? end_ b) && (x <=? y))) by (rewrite !negb_andb, <-!Z.ltb_antisym; done).
  destruct ((start b <=? cl cb x) && (cl cb y <=? end_ b) && (x <=? y)) eqn:E; cbn [negb]; [|done]. apply andb_true_iff in E as [E E3]. apply andb_true_iff in E as [E1 E2]. breflect.
  assert (cl cb x <= cl cb y) as Hle by (apply Z.div_le_mono; lia).
  assert ((match op with Some find => find b (cl cb x) (cl cb y) | None => test_each want b (cl cb x) (Z.to_nat (cl cb y - cl cb x + 1)) end) = Ret (first want (has_bit b) (cl cb x) (cl cb y))) as ->.
  { destruct op as [find|]; [apply Hop; [done|lia|lia]|]. rewrite test_each_first by (try done; lia). done. }
  ostep. f_equal. pose proof (first_spec want (has_bit b) (cl cb x) (cl cb y) Hle) as Hf. destruct (first _ _ _ _) as [r|c]; [done|]. destruct Hf as (Hcr & _).
  assert (0 <= cl cb x) by (apply Z.div_pos; lia). assert (c * 2 ^ cb <= y) as Hcy. { assert (cl cb y * 2 ^ cb <= y) by (unfold cl; pose proof (Z.mul_div_le y (2 ^ cb)); lia). nia. }
  rewrite Z.shiftl_mul_pow2, u64_small by (try lia; nia). f_equal. case_if; lia.
Qed.
Lemma same_shape_refl b : same_shape b b.
Proof. done. Qed.
Lemma same_shape_trans b1 b2 b3 : same_shape b1 b2 → same_shape b2 b3 → same_shape b1 b3.
Proof. unfold same_shape. intuition congruence. Qed.
Lemma inside_bounds b lo hi : inside (start b) (end_ b) lo hi = true → start b <= lo ∧ hi <= end_ b.
Proof. unfold inside. intros [? ?]%andb_true_iff. breflect. lia. Qed.
Lemma find_spec_shows b f want x y : bm_ok b → shows b f → blk_ok x → blk_ok y →
  find_spec (start b) (end_ b) (cluster_bits b) want (has_bit b) x y = find_spec (start b) (end_ b) (cluster_bits b) want f x y.
Proof.
  intros Hb Hf Hx Hy. pose proof (ok_geom b Hb). unfold find_spec. destruct (inside _ _ _ _) eqn:E; [|done]. destruct (x <=? y) eqn:Exy; [|done]. cbn [andb]. breflect. apply inside_bounds in E.
  rewrite (first_ext want (has_bit b) f); [done| |]; [apply Z.div_le_mono; [apply Z.pow_pos_nonneg|]; lia|]. intros j Hj. apply Hf. lia.
Qed.
Definition refined b b' (f : Z → bool) (op : bop) (r : bres) : Prop :=
  ∃ f', bstep (start b) (end_ b) (cluster_bits b) op f = (r, f') ∧ bm_ok b' ∧ same_shape b b' ∧ shows b' f'.
Lemma refined_read b f op r : bm_ok b → shows b f → bstep (start b) (end_ b) (cluster_bits b) op f = (r, f) → refined b b f op r.
Proof. intros Hb Hf E. exists f. done. Qed.
Lemma refined_updates b b' f g op r : bm_ok b → shows b f → updates b b' g → bstep (start b) (end_ b) (cluster_bits b) op f = (r, λ j, g j (f j)) → refined b b' f op r.
Proof. intros Hb Hf Hu E. exists (λ j, g j (f j)). split; [done|]. pose proof (shows_updates b b' f g Hb Hf Hu). destruct Hu as (? & ? & _). done. Qed.
Lemma mark_refines b f blk : bm_ok b → shows b f → ∃ r b', fstep b (Mark blk) = Ret (r, b') ∧ refined b b' f (Mark blk) r.
Proof.
  intros Hb Hf. pose proof (ok_geom b Hb). cbn [fstep]. unfold ext2fs_mark_generic_bmap. rewrite shift_cl, inside_eq by done. set (c := cl (cluster_bits b) blk). destruct (inside (start b) (end_ b) c c) eqn:E; cbn [negb].
  - destruct (inside_bounds _ _ _ E). destruct (law_mark b c Hb ltac:(lia)) as (r & b' & -> & Hr & Hu). ostep. cbn [fst snd]. do 2 eexists. split; [done|].
    eapply refined_updates; [done..|]. cbn [bstep]. fold c. by rewrite E, Hr, negb_involutive, Hf by lia.
  - ostep. cbn [fst snd]. do 2 eexists. split; [done|]. apply refined_read; [done..|]. cbn [bstep]. fold c. by rewrite E.
Qed.
Lemma unmark_refines b f blk : bm_ok b → shows b f → ∃ r b', fstep b (Unmark blk) = Ret (r, b') ∧ refined b b' f (Unmark blk) r.
Proof.
  intros Hb Hf. pose proof (ok_geom b Hb). cbn [fstep]. unfold ext2fs_unmark_generic_bmap. rewrite shift_cl, inside_eq by done. set (c := cl (cluster_bits b) blk). destruct (inside (start b) (end_ b) c c) eqn:E; cbn [negb].
  - destruct (inside_bounds _ _ _ E). destruct (law_unmark b c Hb ltac:(lia)) as (r & b' & -> & Hr & Hu). ostep. cbn [fst snd]. do 2 eexists. split; [done|].
    eapply refined_updates; [done..|]. cbn [bstep]. fold c. by rewrite E, Hr, negb_involutive, Hf by lia.
  - ostep. cbn [fst snd]. do 2 eexists. split; [done|]. apply refined_read; [done..|]. cbn [bstep]. fold c. by rewrite E.
Qed.
Lemma test_bmap_spec b f blk : bm_ok b → shows b f → ∃ r, ext2fs_test_generic_bmap b blk = Ret r ∧
  (r =? 0) = negb (inside (start b) (end_ b) (cl (cluster_bits b) blk) (cl (cluster_bits b) blk) && f (cl (cluster_bits b) blk)).
Proof.
  intros Hb Hf. pose proof (ok_geom b Hb). unfold ext2fs_test_generic_bmap. rewrite shift_cl, inside_eq by done. set (c := cl (cluster_bits b) blk). destruct (inside (start b) (end_ b) c c) eqn:E; cbn [negb andb]; [|by exists 0].
  destruct (inside_bounds _ _ _ E). destruct (law_test b c Hb ltac:(lia)) as (r & -> & Hr). exists r. by rewrite Hr, Hf by lia.
Qed.
Lemma mark_range_refines b f blk n : bm_ok b → shows b f → blk_ok blk → 1 <= n < 2 ^ 32 → ∃ r b', fstep b (MarkRange blk n) = Ret (r, b') ∧ refined b b' f (MarkRange blk n) r.
Proof.
  intros Hb Hf Hx Hn. pose proof (ok_geom b Hb). cbn [fstep]. unfold ext2fs_mark_block_bitmap_range2. destruct (clusters_eq b blk n Hb Hx Hn) as (-> & ? & ? & _ & ->).
  set (lo := cl (cluster_bits b) blk) in *. set (hi := cl (cluster_bits b) (blk + n - 1)) in *. destruct (inside (start b) (end_ b) lo hi) eqn:E; cbn [negb].
  - destruct (inside_bounds _ _ _ E). destruct (law_mark_extent b lo (hi - lo + 1) Hb) as (b' & -> & Hu); [lia..|]. ostep. do 2 eexists. split; [done|]. exists (λ j, bool_decide (lo <= j <= hi) || f j).
    split; [cbn [bstep]; fold lo hi; by rewrite E|]. pose proof (shows_updates _ _ _ _ Hb Hf Hu) as Hs. destruct Hu as (? & ? & _). split_and!; [done..|]. intros j Hj. rewrite Hs by done. f_equal. apply bool_decide_ext. lia.
  - ostep. do 2 eexists. split; [done|]. apply refined_read; [done..|]. cbn [bstep]. fold lo hi. by rewrite E.
Qed.
Lemma unmark_range_refines b f blk n : bm_ok b → shows b f → blk_ok blk → 1 <= n < 2 ^ 32 → ∃ r b', fstep b (UnmarkRange blk n) = Ret (r, b') ∧ refined b b' f (UnmarkRange blk n) r.
Proof.
  intros Hb Hf Hx Hn. pose proof (ok_geom b Hb). cbn [fstep]. unfold ext2fs_unmark_block_bitmap_range2. destruct (clusters_eq b blk n Hb Hx Hn) as (-> & ? & ? & _ & ->).
  set (lo := cl (cluster_bits b) blk) in *. set (hi := cl (cluster_bits b) (blk + n - 1)) in *. destruct (inside (start b) (end_ b) lo hi) eqn:E; cbn [negb].
  - destruct (inside_bounds _ _ _ E). destruct (law_unmark_extent b lo (hi - lo + 1) Hb) as (b' & -> & Hu); [lia..|]. ostep. do 2 eexists. split; [done|]. exists (λ j, negb (bool_decide (lo <= j <= hi)) && f j).
    split; [cbn [bstep]; fold lo hi; by rewrite E|]. pose proof (shows_updates _ _ _ _ Hb Hf Hu) as Hs. destruct Hu as (? & ? & _). split_and!; [done..|]. intros j Hj. rewrite Hs by done. do 2 f_equal. apply bool_decide_ext. lia.
  - ostep. do 2 eexists. split; [done|]. apply refined_read; [done..|]. cbn [bstep]. fold lo hi. by rewrite E.
Qed.
Lemma test_range_refines b f blk n : bm_ok b → shows b f → blk_ok blk → 1 <= n < 2 ^ 32 → ∃ r b', fstep b (TestRange blk n) = Ret (r, b') ∧ refined b b' f (TestRange blk n) r.
Proof.
  intros Hb Hf Hx Hn. pose proof (ok_geom b Hb). cbn [fstep]. unfold ext2fs_test_block_bitmap_range2. destruct (Z.eqb_spec n 1) as [->|Hn1].
  - destruct (test_bmap_spec b f blk Hb Hf) as (r & -> & Hr). ostep. do 2 eexists. split; [done|]. apply refined_read; [done..|]. cbn [bstep]. replace (blk + 1 - 1) with blk by lia.
    rewrite Hr. set (c := cl (cluster_bits b) blk) in *. destruct (inside (start b) (end_ b) c c); cbn [andb negb]; [|done]. unfold first. replace (Z.to_nat (c - c + 1)) with 1%nat by lia. cbn [first_from].
    by destruct (f c).
  - destruct (clusters_eq b blk n Hb Hx Hn) as (-> & ? & ? & _ & ->). set (lo := cl (cluster_bits b) blk) in *. set (hi := cl (cluster_bits b) (blk + n - 1)) in *. destruct (inside (start b) (end_ b) lo hi) eqn:E; cbn [negb].
    + destruct (inside_bounds _ _ _ E). rewrite law_test_extent by (done || lia). ostep. do 2 eexists. split; [done|]. apply refined_read; [done..|]. cbn [bstep]. fold lo hi. rewrite E.
      replace (lo + (hi - lo + 1) - 1) with hi by lia. rewrite (first_ext true (has_bit b) f); [done|lia|]. intros j Hj. apply Hf. lia.
    + ostep. do 2 eexists. split; [done|]. apply refined_read; [done..|]. cbn [bstep]. fold lo hi. rewrite E. by bfalse.
Qed.
Lemma fstep_refines b f op : bm_ok b → shows b f → op_ok op → ∃ r b', fstep b op = Ret (r, b') ∧ refined b b' f op r.
Proof.
  intros Hb Hf Ho. destruct op as [x|x|x|x n|x n|x n|x y|x y]; cbn [op_ok] in Ho.
  - by apply mark_refines.
  - by apply unmark_refines.
  - destruct (test_bmap_spec b f x Hb Hf) as (r & E & Hr). cbn [fstep]. rewrite E. ostep. do 2 eexists. split; [done|]. apply refined_read; [done..|]. cbn [bstep]. by rewrite Hr, negb_involutive.
  - destruct Ho. by apply mark_range_refines.
  - destruct Ho. by apply unmark_range_refines.
  - destruct Ho. by apply test_range_refines.
  - destruct Ho. cbn [fstep]. unfold ext2fs_find_first_zero_generic_bmap. rewrite find_generic_spec by (try done; intros; by apply law_find_zero). ostep. do 2 eexists. split; [done|].
    apply refined_read; [done..|]. cbn [bstep]. by rewrite (find_spec_shows b f).
  - destruct Ho. cbn [fstep]. unfold ext2fs_find_first_set_generic_bmap. rewrite find_generic_spec by (try done; intros; by apply law_find_set). ostep. do 2 eexists. split; [done|].
    apply refined_read; [done..|]. cbn [bstep]. by rewrite (find_spec_shows b f).
Qed.
Lemma frun_refines l : ∀ b f, bm_ok b → shows b f → Forall op_ok l →
  ∃ b', frun b l = Ret ((brun (start b) (end_ b) (cluster_bits b) l f).1, b') ∧ bm_ok b' ∧ same_shape b b' ∧ shows b' (brun (start b) (end_ b) (cluster_bits b) l f).2.
Proof.
  induction l as [|op l IH]; intros b f Hb Hf Hl; [by exists b|]. apply Forall_cons in Hl as [Ho Hl]. cbn [frun brun].
  destruct (fstep_refines b f op Hb Hf Ho) as (r & b1 & -> & f1 & -> & Hb1 & Hs1 & Hf1). ostep. cbn [fst snd]. destruct (IH b1 f1 Hb1 Hf1 Hl) as (b' & E & Hb' & Hs' & Hf').
  pose proof Hs1 as (_ & Es & Ee & _ & Ec). rewrite Es, Ee, Ec in E, Hf'. rewrite E. ostep. cbn [fst snd]. destruct (brun _ _ _ l f1) as [rs f2]. exists b'. split_and!; [done..|by eapply same_shape_trans|done].
Qed.

(** ** Counting used blocks *)
Definition ones (f : Z → bool) (s e : Z) : Z := popcount (λ i, f (s + i)) (Z.to_nat (e - s + 1)).
(** the last block, when the loop would have to start again at it *)
Definition missed (f : Z → bool) (s e : Z) : bool := f e && ((s =? e) || ((s + 2 <=? e) && negb (f (e - 1)) && f (e - 2))).
Lemma ones_app f s m e : s <= m <= e + 1 → ones f s e = ones f s (m - 1) + ones f m e.
Proof.
  intros H. unfold ones. replace (Z.to_nat (e - s + 1)) with (Z.to_nat (m - 1 - s + 1) + Z.to_nat (e - m + 1))%nat by lia. rewrite Bitops.popcount_add. f_equal. apply popcount_ext. intros i Hi. f_equal. lia.
Qed.
Lemma ones_none f s e : (∀ j, s <= j <= e → f j = false) → ones f s e = 0.
Proof. intros H. unfold ones. rewrite (popcount_ext _ (λ _, false)); [|intros i Hi; apply H; lia]. clear. induction (Z.to_nat _) as [|n IH]; [done|]. cbn [popcount]. lia. Qed.
Lemma ones_all f s e : s <= e + 1 → (∀ j, s <= j <= e → f j = true) → ones f s e = e - s + 1.
Proof. intros Hs H. unfold ones. rewrite popcount_all; [lia|]. intros i Hi. apply H. lia. Qed.
Lemma ones_range f s e : 0 <= ones f s e <= Z.max 0 (e - s + 1).
Proof. unfold ones. pose proof (popcount_bound (λ i, f (s + i)) (Z.to_nat (e - s + 1))). lia. Qed.
Lemma find_plain want b x y : bm_ok b → cluster_bits b = 0 → start b <= x <= y → y <= end_ b → find_spec (start b) (end_ b) (cluster_bits b) want (has_bit b) x y = first want (has_bit b) x y.
Proof.
  intros Hb Hc Hx Hy. unfold find_spec, cl. rewrite Hc. change (2 ^ 0) with 1. rewrite !Z.div_1_r. unfold inside. do 3 btrue. cbn [andb]. pose proof (first_spec want (has_bit b) x y ltac:(lia)) as H. destruct (first _ _ _ _) as [r|c]; [done|]. f_equal. lia.
Qed.
Lemma find_set_plain b x y : bm_ok b → cluster_bits b = 0 → start b <= x <= y → y <= end_ b → ext2fs_find_first_set_generic_bmap b x y = Ret (first true (has_bit b) x y).
Proof.
  intros Hb Hc Hx Hy. pose proof (ok_geom b Hb). unfold ext2fs_find_first_set_generic_bmap. rewrite find_generic_spec by (try done; unfold blk_ok; try lia; intros; by apply law_find_set). by rewrite find_plain.
Qed.
Lemma find_zero_plain b x y : bm_ok b → cluster_bits b = 0 → start b <= x <= y → y <= end_ b → ext2fs_find_first_zero_generic_bmap b x y = Ret (first false (has_bit b) x y).
Proof.
  intros Hb Hc Hx Hy. pose proof (ok_geom b Hb). unfold ext2fs_find_first_zero_generic_bmap. rewrite find_generic_spec by (try done; unfold blk_ok; try lia; intros; by apply law_find_zero). by rewrite find_plain.
Qed.
Lemma missed_next f s k z e : s <= k < z → z <= e → f z = false → (∀ j, k <= j < z → f j = true) → (if z + 1 <=? e then missed f (z + 1) e else false) = missed f s e.
Proof.
  intros Hk Hz Hfz Hrun. unfold missed. case_if.
  - destruct (f e) eqn:Ee; [|done]. cbn [andb]. rewrite (proj2 (Z.eqb_neq s e)) by lia. cbn [orb]. destruct (Z.eqb_spec (z + 1) e) as [E|Hne].
    + cbn [orb]. replace (e - 1) with z by lia. rewrite Hfz. btrue. cbn [negb andb]. symmetry. apply Hrun. lia.
    + cbn [orb]. rewrite (proj2 (Z.leb_le (s + 2) e)) by lia. cbn [andb]. destruct (Z.leb_spec (z + 1 + 2) e) as [|Hlt]; [done|]. replace (e - 2) with z by lia. rewrite Hfz, !andb_false_r. done.
  - assert (e = z) as -> by lia. by rewrite Hfz.
Qed.
Lemma count_loop_spec b e : bm_ok b → cluster_bits b = 0 → e <= end_ b → ∀ fuel s tot, start b <= s <= e + 1 → 0 < Z.of_nat fuel → e - s < Z.of_nat fuel → 0 <= tot → tot + (e - s + 1) < 2 ^ 62 + 1 →
  count_loop fuel b s e tot = Ret (inr (tot + (ones (has_bit b) s e - if s <=? e then Z.b2z (missed (has_bit b) s e) else 0))).
Proof.
  intros Hb Hc He. pose proof (ok_geom b Hb). set (f := has_bit b). induction fuel as [|fuel IH]; intros s tot Hs Hf0 Hf Ht Hm; [lia|]. cbn [count_loop]. case_if; cycle 1.
  { assert (s = e ∨ s = e + 1) as [->| ->] by lia.
    - btrue. unfold ones, missed. replace (Z.to_nat (e - e + 1)) with 1%nat by lia. cbn [popcount]. rewrite Z.eqb_refl. change (Z.of_nat 0) with 0. rewrite Z.add_0_r. cbn [orb]. rewrite andb_true_r. do 2 f_equal. destruct (f e); cbn [Z.b2z]; lia.
    - bfalse. rewrite ones_none by (intros; lia). do 2 f_equal. lia. }
  rewrite find_set_plain by (done || lia). ostep. fold f. pose proof (first_spec true f s e ltac:(lia)) as Hfs. destruct (first true f s e) as [r|k].
  { destruct Hfs as [-> Hn]. cbn [Z.eqb]. rewrite Z.eqb_refl. rewrite (ones_none f s e) by done. btrue. unfold missed. rewrite Hn by lia. cbn [negb andb Z.b2z]. do 2 f_equal. lia. }
  destruct Hfs as (Hk & Hfk & Hbk). cbn [negb] in Hbk. rewrite find_zero_plain by (done || lia). ostep. fold f. pose proof (first_spec false f k e ltac:(lia)) as Hfz. destruct (first false f k e) as [r|z].
  - destruct Hfz as [-> Hn]. cbn [negb] in Hn. rewrite Z.eqb_refl. rewrite u64_small by lia. btrue. rewrite (ones_app f s k e) by lia. rewrite (ones_none f s (k - 1)) by (intros; apply Hbk; lia). rewrite (ones_all f k e) by (lia || done).
    assert (missed f s e = false) as ->; [|do 2 f_equal; cbn [Z.b2z]; lia]. unfold missed. bfalse. cbn [orb]. destruct (decide (k < e)); [rewrite (Hn (e - 1)) by lia; cbn [negb]; by rewrite andb_false_r, andb_false_l, andb_false_r|].
    destruct (decide (s + 2 <= e)); [rewrite (Hbk (e - 2)) by lia; by rewrite !andb_false_r|]. rewrite (proj2 (Z.leb_gt (s + 2) e)) by lia. cbn [andb]. by rewrite andb_false_r.
  - destruct Hfz as (Hz & Hfz & Hrun). cbn [negb] in Hrun. assert (k < z) by (destruct (decide (z = k)) as [->|]; [congruence|lia]). rewrite (u64_small (z + 1)), u64_small by lia. rewrite IH by lia. do 2 f_equal. btrue.
    rewrite (ones_app f s k e) by lia. rewrite (ones_none f s (k - 1)) by (intros; apply Hbk; lia). rewrite (ones_app f k z e) by lia. rewrite (ones_all f k (z - 1)) by (try lia; intros; apply Hrun; lia).
    rewrite (ones_app f z (z + 1) e) by lia. rewrite (ones_none f z (z + 1 - 1)) by (intros; assert (j = z) as -> by lia; done). rewrite <-(missed_next f s k z e) by (done || lia). case_if; cbn [Z.b2z]; lia.
Qed.
(** C40. Counting the used blocks of a range returns the number of set bits,
    less one exactly when the last block of the range is in use and the loop
    would have to start at it again: it is the only block of the range, or
    the block before it is free and the one before that in use. *)
Theorem count_used_blocks_exact b s e : bm_ok b → cluster_bits b = 0 → start b <= s <= e → e <= end_ b →
  ext2fs_count_used_blocks b s e = Ret (inr (ones (has_bit b) s e - Z.b2z (missed (has_bit b) s e))).
Proof.
  intros Hb Hc Hs He. pose proof (ok_geom b Hb). unfold ext2fs_count_used_blocks. rewrite count_loop_spec by (done || lia). rewrite (proj2 (Z.leb_le s e)) by lia. done.
Qed.
(** Comparing two bitmaps never looks at the last bit. *)
Lemma compare_loop_spec neq b1 b2 : bm_ok b1 → bm_ok b2 → cluster_bits b1 = 0 → cluster_bits b2 = 0 → start b2 = start b1 → end_ b2 = end_ b1 → ∀ n i, start b1 <= i → i + Z.of_nat n <= end_ b1 →
  compare_loop neq b1 b2 i n = Ret (if forallb (λ j, Bool.eqb (has_bit b1 j) (has_bit b2 j)) (seqZ i (Z.of_nat n)) then 0 else neq).
Proof.
  intros H1 H2 C1 C2 Es Ee. pose proof (ok_geom b1 H1). pose proof (ok_geom b2 H2). induction n as [|n IH]; intros i Hi Hn; [done|]. cbn [compare_loop]. rewrite Nat2Z.inj_succ, seqZ_cons by lia. cbn [forallb].
  assert (∀ b, bm_ok b → cluster_bits b = 0 → start b = start b1 → end_ b = end_ b1 → ∃ r, ext2fs_test_generic_bmap b i = Ret r ∧ (r =? 0) = negb (has_bit b i)) as Ht.
  { intros b Hb Hc E1 E2. destruct (test_bmap_spec b (has_bit b) i Hb (λ _ _, eq_refl)) as (r & E & Hr). exists r. split; [done|]. rewrite Hr. unfold cl. rewrite Hc. change (2 ^ 0) with 1. rewrite Z.div_1_r. unfold inside. rewrite E1, E2. by do 2 btrue. }
  destruct (Ht b1) as (r1 & -> & R1); [done..|]. destruct (Ht b2) as (r2 & -> & R2); [done..|]. ostep. rewrite R1, R2. destruct (has_bit b1 i), (has_bit b2 i); cbn [negb Bool.eqb andb]; try done; rewrite IH by lia; by replace (Z.pred (Z.succ (Z.of_nat n))) with (Z.of_nat n) by lia.
Qed.
Theorem compare_bmap_spec neq b1 b2 : bm_ok b1 → bm_ok b2 → cluster_bits b1 = 0 → cluster_bits b2 = 0 → magic b1 = magic b2 → start b2 = start b1 → end_ b2 = end_ b1 →
  ext2fs_compare_generic_bmap neq b1 b2 = Ret (if forallb (λ j, Bool.eqb (has_bit b1 j) (has_bit b2 j)) (seqZ (start b1) (end_ b1 - start b1)) then 0 else neq).
Proof.
  intros H1 H2 C1 C2 Em Es Ee. pose proof (ok_geom b1 H1). unfold ext2fs_compare_generic_bmap. rewrite bool_decide_true by done. rewrite Es, Ee, !Z.eqb_refl. cbn [negb orb]. rewrite compare_loop_spec by (done || lia). by rewrite Z2Nat.id by lia.
Qed.
End lawful.
End Bitmap64.
