(* ===== verification/BitArray.v ===== *)
(** The bit array (kernel/fs/lib/ext2fs/blkmap64_ba.c, defined in Bitmap64.v)
    keeps the promises of a table of bitmap operations: the test of a range by
    bytes, and the searches by bits, bytes and words, at every address, are
    those of the set of bits.  Copying, resizing and byte ranges. *)
From stdpp Require Import base numbers list.
From S2P Require Import Prelude Bitmap Bitops Bitmap64.
Open Scope Z_scope.

Module BitArray.
Import Bitops Bitmap64.
Record ba_ok (b : gbm ba) : Prop := {
  bk_start : 0 <= start b;
  bk_end : start b <= end_ b;
  bk_real : end_ b <= real_end b;
  bk_max : real_end b < 2 ^ 62;
  bk_cluster : 0 <= cluster_bits b < 32;
  bk_bytes : bytes (private b);
  bk_size : length (private b) = ba_size (start b) (real_end b)
}.
Definition ba_bit (b : gbm ba) (j : Z) : bool := bit (private b) (j - start b).
Lemma ba_in b j : ba_ok b → start b <= j <= real_end b → u64 (j - start b) = j - start b ∧ bm_range (private b) (j - start b).
Proof.
  intros Hb Hj. destruct Hb. rewrite u64_small by lia. split; [done|]. unfold bm_range. rewrite bk_size0. unfold ba_size. rewrite Z2Nat.id by (pose proof (Z.div_pos (real_end b - start b) 8); lia). zdm.
Qed.
Lemma ba_ok_private b p : ba_ok b → bytes p → length p = length (private b) → ba_ok (set_private b p).
Proof. intros [] Hp Hl. split; cbn [start end_ real_end cluster_bits private set_private]; [done..|by rewrite Hl]. Qed.
Definition ba_updates (b b' : gbm ba) (f : Z → bool → bool) : Prop := ba_ok b' ∧ same_shape b b' ∧ ∀ j, start b <= j <= real_end b → ba_bit b' j = f j (ba_bit b j).
Lemma old_zero (x : bool) k : 0 <= k → ((if x then 2 ^ k else 0) =? 0) = negb x.
Proof. intros Hk. destruct x; [|done]. pose proof (Z.pow_pos_nonneg 2 k). by bfalse. Qed.
Lemma ba_mark b i : ba_ok b → start b <= i <= real_end b →
  ∃ r p, ext2fs_set_bit64 (u64 (i - start b)) (private b) = Ret (r, p) ∧ (r =? 0) = negb (ba_bit b i) ∧ ba_updates b (set_private b p) (λ j x, bool_decide (j = i) || x).
Proof.
  intros Hb Hi. destruct (ba_in b i Hb Hi) as [-> Hr]. destruct (bit_ops_spec _ _ Hr (bk_bytes _ Hb)) as (_ & (p & E & L & B & S) & _). do 2 eexists. split; [exact E|]. split; [apply old_zero; zdm|].
  split; [by apply ba_ok_private|]. split; [done|]. intros j Hj. unfold ba_bit. cbn [private start set_private]. rewrite S by lia. f_equal. apply bool_decide_ext. lia.
Qed.
Lemma ba_unmark b i : ba_ok b → start b <= i <= real_end b →
  ∃ r p, ext2fs_clear_bit64 (u64 (i - start b)) (private b) = Ret (r, p) ∧ (r =? 0) = negb (ba_bit b i) ∧ ba_updates b (set_private b p) (λ j x, negb (bool_decide (j = i)) && x).
Proof.
  intros Hb Hi. destruct (ba_in b i Hb Hi) as [-> Hr]. destruct (bit_ops_spec _ _ Hr (bk_bytes _ Hb)) as (_ & _ & (p & E & L & B & S)). do 2 eexists. split; [exact E|]. split; [apply old_zero; zdm|].
  split; [by apply ba_ok_private|]. split; [done|]. intros j Hj. unfold ba_bit. cbn [private start set_private]. rewrite S by lia. do 2 f_equal. apply bool_decide_ext. lia.
Qed.
Lemma ba_test b i : ba_ok b → start b <= i <= real_end b → ∃ r, ext2fs_test_bit64 (u64 (i - start b)) (private b) = Ret r ∧ (r =? 0) = negb (ba_bit b i).
Proof. intros Hb Hi. destruct (ba_in b i Hb Hi) as [-> Hr]. destruct (bit_ops_spec _ _ Hr (bk_bytes _ Hb)) as (E & _). eexists. split; [exact E|]. apply old_zero. zdm. Qed.
(** an extent, bit by bit *)
Lemma extent_loop_spec (f : Z → list Z → outcome (Z * list Z)) (v : bool) :
  (∀ b i, ba_ok b → start b <= i <= real_end b → ∃ r p, f (u64 (i - start b)) (private b) = Ret (r, p) ∧ ba_updates b (set_private b p) (λ j x, if bool_decide (j = i) then v else x)) →
  ∀ n b arg i, ba_ok b → start b <= arg + i → arg + i + Z.of_nat n - 1 <= real_end b →
  ∃ b', extent_loop f b arg i n = Ret b' ∧ ba_updates b b' (λ j x, if bool_decide (arg + i <= j < arg + i + Z.of_nat n) then v else x).
Proof.
  intros Hf. induction n as [|n IH]; intros b arg i Hb Hi Hn; cbn [extent_loop].
  - exists b. split; [done|]. split; [done|]. split; [done|]. intros j Hj. by rewrite bool_decide_false by lia.
  - destruct (Hf b (arg + i) Hb ltac:(lia)) as (r & p & -> & (Ok & Sh & U)). ostep. cbn [fst snd].
    destruct (IH (set_private b p) arg (i + 1)) as (b' & -> & (Ok' & Sh' & U')); [done|cbn [start set_private]; lia|cbn [real_end set_private]; lia|]. exists b'. split; [done|]. split; [done|]. split; [exact Sh'|].
    intros j Hj. cbn [start real_end set_private] in U'. rewrite U', U by done. destruct (decide (j = arg + i)) as [->|].
    + rewrite (bool_decide_true (arg + i <= _ < _)), (bool_decide_true (arg + i = _)) by lia. by case_bool_decide.
    + rewrite (bool_decide_false (j = _)) by lia. rewrite (bool_decide_ext (arg + (i + 1) <= j < arg + (i + 1) + Z.of_nat n) (arg + i <= j < arg + i + Z.of_nat (S n))) by lia. done.
Qed.
Lemma ba_updates_ext b b' f g : (∀ j x, f j x = g j x) → ba_updates b b' f → ba_updates b b' g.
Proof. intros E (? & ? & H). split_and!; [done..|]. intros. rewrite <-E. by apply H. Qed.
Lemma ba_mark_extent_ok b i n : ba_ok b → start b <= i → 0 <= n < 2 ^ 32 → i + n - 1 <= real_end b →
  ∃ b', ba_mark_bmap_extent b i n = Ret b' ∧ ba_updates b b' (λ j x, bool_decide (i <= j < i + n) || x).
Proof.
  intros Hb Hi Hn He. destruct (extent_loop_spec ext2fs_set_bit64 true) with (n := Z.to_nat n) (b := b) (arg := i) (i := 0) as (b' & E & U); [|done|lia|lia|].
  - intros b0 k H0 Hk. destruct (ba_mark b0 k H0 Hk) as (r & p & ? & _ & U). exists r, p. split; [done|]. eapply ba_updates_ext; [|exact U]. intros j x. cbn beta. by case_bool_decide.
  - exists b'. split; [done|]. eapply ba_updates_ext; [|exact U]. intros j x. cbn beta. rewrite (bool_decide_ext (i + 0 <= j < i + 0 + Z.of_nat (Z.to_nat n)) (i <= j < i + n)) by lia. by case_bool_decide.
Qed.
Lemma ba_unmark_extent_ok b i n : ba_ok b → start b <= i → 0 <= n < 2 ^ 32 → i + n - 1 <= real_end b →
  ∃ b', ba_unmark_bmap_extent b i n = Ret b' ∧ ba_updates b b' (λ j x, negb (bool_decide (i <= j < i + n)) && x).
Proof.
  intros Hb Hi Hn He. destruct (extent_loop_spec ext2fs_clear_bit64 false) with (n := Z.to_nat n) (b := b) (arg := i) (i := 0) as (b' & E & U); [|done|lia|lia|].
  - intros b0 k H0 Hk. destruct (ba_unmark b0 k H0 Hk) as (r & p & ? & _ & U). exists r, p. split; [done|]. eapply ba_updates_ext; [|exact U]. intros j x. cbn beta. by case_bool_decide.
  - exists b'. split; [done|]. eapply ba_updates_ext; [|exact U]. intros j x. cbn beta. rewrite (bool_decide_ext (i + 0 <= j < i + 0 + Z.of_nat (Z.to_nat n)) (i <= j < i + n)) by lia. by case_bool_decide.
Qed.

(** ** Testing a range by bytes *)
Lemma mark_bits_testbit n : ∀ k acc j, Z.of_nat n <= k + 1 → 0 <= j → Z.testbit (mark_bits n k acc) j = Z.testbit acc j || bool_decide (k - Z.of_nat n < j <= k).
Proof.
  induction n as [|n IH]; intros k acc j Hk Hj; cbn [mark_bits]; [rewrite bool_decide_false by lia; by rewrite orb_false_r|].
  rewrite IH, Z.lor_spec, testbit_1_shiftl, <-orb_assoc by lia. f_equal. destruct (decide (j = k)) as [->|].
  - rewrite (bool_decide_true (k = k)), (bool_decide_true (_ < k <= k)) by lia. done.
  - rewrite (bool_decide_false (j = k)) by lia. cbn [orb]. apply bool_decide_ext. lia.
Qed.
Lemma mark_bits_nonneg n : ∀ k acc, Z.of_nat n <= k + 1 → 0 <= acc → 0 <= mark_bits n k acc.
Proof. induction n as [|n IH]; intros k acc Hk Ha; cbn [mark_bits]; [done|]. apply IH; [lia|]. apply Z.lor_nonneg. split; [done|]. apply Z.shiftl_nonneg. lia. Qed.
(** the mask meets no set bit of a byte *)
Lemma mask_clear n k c : Z.of_nat n <= k + 1 → k < 8 → is_byte c → (Z.land (mark_bits n k 0) c =? 0) = true ↔ ∀ j, k - Z.of_nat n < j <= k → Z.testbit c j = false.
Proof.
  intros Hk Hk8 Hc. rewrite Z.eqb_eq. split.
  - intros E j Hj. assert (Z.testbit (Z.land (mark_bits n k 0) c) j = false) as Ht by (by rewrite E, Z.bits_0). rewrite Z.land_spec, mark_bits_testbit, Z.bits_0, bool_decide_true in Ht by lia. done.
  - intros H. apply Z.bits_inj'. intros j Hj. rewrite Z.land_spec, mark_bits_testbit, !Z.bits_0 by lia. cbn [orb]. case_bool_decide; [|done]. by rewrite H.
Qed.
Lemma bit_at p q r c : 0 <= q → 0 <= r < 8 → p !! Z.to_nat q = Some c → bit p (8 * q + r) = Z.testbit c r.
Proof. intros Hq Hr E. unfold bit. replace ((8 * q + r) / 8) with q by zdm. replace ((8 * q + r) mod 8) with r by zdm. by rewrite E. Qed.
Lemma byte_zero c : is_byte c → (c =? 0) = true ↔ ∀ r, 0 <= r < 8 → Z.testbit c r = false.
Proof.
  intros Hc. rewrite Z.eqb_eq. split; [intros -> r _; by rewrite Z.bits_0|]. intros H. apply Z.bits_inj'. intros j Hj. rewrite Z.bits_0. destruct (decide (j < 8)); [apply H; lia|].
  apply (proj1 (Z.bounded_iff_bits_nonneg 8 c ltac:(lia) ltac:(unfold is_byte in Hc; lia))); [unfold is_byte in Hc; lia|lia].
Qed.
Lemma mem_is_zero_spec fuel mem : (length mem < fuel)%nat → mem_is_zero fuel mem = Ret (forallb (λ c, c =? 0) mem).
Proof.
  revert mem. induction fuel as [|fuel IH]; intros mem Hf; [lia|]. cbn [mem_is_zero]. case_if; [|done]. rewrite <-(take_drop 256 mem) at 3. rewrite forallb_app.
  destruct (forallb _ (take 256 mem)); [|done]. cbn [andb]. apply IH. rewrite length_drop. lia.
Qed.
Definition none (f : Z → bool) (a b : Z) : Prop := ∀ k, a <= k < b → f k = false.
Lemma bytes_zero p o n : bytes p → 0 <= o → 0 <= n → o + n <= Z.of_nat (length p) →
  forallb (λ c, c =? 0) (slice p (Z.to_nat o) (Z.to_nat n)) = true ↔ none (bit p) (8 * o) (8 * o + 8 * n).
Proof.
  intros Hp Ho Hn Hl. rewrite forallb_forall. split.
  - intros H k Hk. assert (o <= k / 8 < o + n ∧ 0 <= k mod 8 < 8 ∧ k = 8 * (k / 8) + k mod 8) as (Hq & Hr & Ek) by zdm. set (q := k / 8) in *. set (r := k mod 8) in *. clearbody q r. subst k.
    destruct (lookup_lt_is_Some_2 p (Z.to_nat q)) as [c Hc]; [lia|]. rewrite (bit_at p q r c) by (done || lia). pose proof (Forall_lookup_1 _ _ _ _ Hp Hc) as Hb. apply (byte_zero c Hb); [|done].
    apply H. apply list_elem_of_In, list_elem_of_lookup. exists (Z.to_nat q - Z.to_nat o)%nat. rewrite lookup_slice by lia. rewrite <-Hc. f_equal. lia.
  - intros H c Hc. apply list_elem_of_In, list_elem_of_lookup in Hc as [i Hi]. assert (i < Z.to_nat n)%nat as Hin. { apply lookup_lt_Some in Hi. rewrite length_slice in Hi by lia. done. }
    rewrite lookup_slice in Hi by lia. pose proof (Forall_lookup_1 _ _ _ _ Hp Hi) as Hb. apply (byte_zero c Hb). intros r Hr.
    rewrite <-(bit_at p (o + Z.of_nat i) r c); [apply H; lia|lia|done|]. rewrite <-Hi. f_equal. lia.
Qed.
Lemma none_app f a b c : a <= b <= c → none f a c ↔ none f a b ∧ none f b c.
Proof. intros H. split; [intros Hn; split; intros k Hk; apply Hn; lia|]. intros [H1 H2] k Hk. destruct (decide (k < b)); [apply H1|apply H2]; lia. Qed.
(** bits [lo .. hi] of byte [q], by a mask *)
Lemma mask_none p q c n k : bytes p → 0 <= q → p !! Z.to_nat q = Some c → Z.of_nat n <= k + 1 → k < 8 →
  (Z.land (mark_bits n k 0) c =? 0) = true ↔ none (bit p) (8 * q + k - Z.of_nat n + 1) (8 * q + k + 1).
Proof.
  intros Hp Hq Hc Hk Hk8. pose proof (Forall_lookup_1 _ _ _ _ Hp Hc) as Hb. rewrite mask_clear by done. split.
  - intros H j Hj. replace j with (8 * q + (j - 8 * q)) by lia. rewrite (bit_at p q _ c) by (done || lia). apply H. lia.
  - intros H j Hj. rewrite <-(bit_at p q j c) by (done || lia). apply H. lia.
Qed.
Lemma test_bytes_spec p sb lb Lb : bytes p → 0 <= sb → 0 <= lb < 8 → 0 <= Lb → 8 * (sb + Lb) + lb <= 8 * Z.of_nat (length p) →
  ∃ v, test_bytes p sb lb Lb = Ret (Z.b2z v) ∧ (v = true ↔ none (bit p) (8 * sb) (8 * sb + 8 * Lb + lb)).
Proof.
  intros Hp Hs Hlb HL Hl. unfold test_bytes.
  assert (∃ w, (if sb + Lb <=? Z.of_nat (length p) then z ← ext2fs_mem_is_zero (slice p (Z.to_nat sb) (Z.to_nat Lb)); Ret (Z.b2z z) else Undef) = Ret (Z.b2z w) ∧ (w = true ↔ none (bit p) (8 * sb) (8 * sb + 8 * Lb))) as (w & -> & Hw).
  { btrue. unfold ext2fs_mem_is_zero. rewrite mem_is_zero_spec by lia. ostep. eexists. split; [done|]. by apply bytes_zero; try lia. }
  case_if.
  - subst lb. exists w. split; [done|]. rewrite Hw. by rewrite Z.add_0_r.
  - destruct (aget_in_range p (sb + Lb)) as (c & -> & Hc); [lia|]. ostep. pose proof (mask_none p (sb + Lb) c (Z.to_nat lb) (lb - 1) Hp ltac:(lia) Hc ltac:(lia) ltac:(lia)) as Hm.
    rewrite Z2Nat.id in Hm by lia. replace (8 * (sb + Lb) + (lb - 1) - lb + 1) with (8 * sb + 8 * Lb) in Hm by lia. replace (8 * (sb + Lb) + (lb - 1) + 1) with (8 * sb + 8 * Lb + lb) in Hm by lia.
    pose proof (none_app (bit p) (8 * sb) (8 * sb + 8 * Lb) (8 * sb + 8 * Lb + lb) ltac:(lia)) as Ha. destruct (Z.land _ c =? 0); cbn [negb].
    + destruct Hm as [Hm _]. specialize (Hm eq_refl). case_if.
      * exists true. split; [done|]. split; [|done]. intros _. apply Ha. split; [|done]. intros k Hk. lia.
      * exists w. split; [done|]. rewrite Ha, Hw. tauto.
    + exists false. split; [done|]. split; [done|]. intros H. apply Ha in H as [_ H]. by apply Hm in H.
Qed.
Lemma first_none_iff f i n : 0 < n → first true f i (i + n - 1) = inl ENOENT ↔ none f i (i + n).
Proof.
  intros Hn. pose proof (first_spec true f i (i + n - 1) ltac:(lia)) as H. split.
  - intros E. rewrite E in H. destruct H as [_ H]. intros k Hk. apply H. lia.
  - intros Hk. apply first_none; [lia|]. intros j Hj. apply Hk. lia.
Qed.
Lemma ba_test_clear_spec b i n : ba_ok b → start b <= i → 0 < n < 2 ^ 32 → i + n - 1 <= real_end b →
  ba_test_clear_bmap_extent b i n = Ret (Z.b2z (bool_decide (first true (ba_bit b) i (i + n - 1) = inl ENOENT))).
Proof.
  intros Hb Hi Hn He. assert (∃ v, ba_test_clear_bmap_extent b i n = Ret (Z.b2z v) ∧ (v = true ↔ none (bit (private b)) (i - start b) (i - start b + n))) as (v & -> & Hv).
  { destruct (ba_in b i Hb ltac:(lia)) as [Eu Hr]. destruct (ba_in b (i + n - 1) Hb ltac:(lia)) as [_ Hr']. pose proof (bk_bytes _ Hb) as Hp. unfold bm_range in *. unfold ba_test_clear_bmap_extent. rewrite Eu.
    set (p := private b) in *. set (a := i - start b) in *. assert (Z.shiftr a 3 = a / 8) as -> by (by rewrite Z.shiftr_div_pow2). assert (a = 8 * (a / 8) + a mod 8 ∧ 0 <= a mod 8 < 8 ∧ 0 <= a / 8) as (Ea & Hm & Hq) by zdm.
    set (q := a / 8) in *. set (r := a mod 8) in *. clearbody q r. case_if.
    - assert (Z.shiftr n 3 = n / 8) as -> by (by rewrite Z.shiftr_div_pow2). destruct (test_bytes_spec p q (n mod 8) (n / 8) Hp ltac:(lia) ltac:(zdm) ltac:(zdm)) as (v & -> & Hv); [zdm|].
      exists v. split; [done|]. rewrite Hv. replace (8 * q) with a by lia. replace (a + 8 * (n / 8) + n mod 8) with (a + n) by zdm. done.
    - destruct (aget_in_range p q) as (c & -> & Hc); [lia|]. ostep. set (mc := if n <? 8 - r then n else 8 - r). set (mb := if n <? 8 - r then n + r - 1 else 7).
      assert (mb - mc + 1 = r ∧ mb < 8 ∧ 0 < mc <= n ∧ mc <= 8 - r ∧ (n <= 8 - r → mc = n) ∧ (8 - r < n → mc = 8 - r)) as (Em & Hmb & Hmc & Hmc' & M1 & M2) by (unfold mb, mc; case_if; lia).
      pose proof (mask_none p q c (Z.to_nat mc) mb Hp Hq Hc ltac:(lia) Hmb) as Hk. rewrite Z2Nat.id in Hk by lia. replace (8 * q + mb - mc + 1) with a in Hk by lia. replace (8 * q + mb + 1) with (a + mc) in Hk by lia.
      clearbody mc mb. pose proof (none_app (bit p) a (a + mc) (a + n) ltac:(lia)) as Ha. destruct (Z.land _ c =? 0); cbn [negb].
      + destruct Hk as [Hk _]. specialize (Hk eq_refl). case_if.
        * exists true. split; [done|]. split; [|done]. intros _. rewrite M1 in Hk by lia. done.
        * assert (Z.shiftr (n - mc) 3 = (n - mc) / 8) as -> by (by rewrite Z.shiftr_div_pow2). destruct (test_bytes_spec p (q + 1) ((n - mc) mod 8) ((n - mc) / 8) Hp ltac:(lia) ltac:(zdm) ltac:(zdm)) as (v & -> & Hv); [zdm|].
          exists v. split; [done|]. rewrite Ha, Hv. replace (8 * (q + 1)) with (a + mc) by lia. replace (a + mc + 8 * ((n - mc) / 8) + (n - mc) mod 8) with (a + n) by zdm. tauto.
      + exists false. split; [done|]. split; [done|]. intros H. apply Ha in H as [H _]. by apply Hk in H. }
  do 2 f_equal. assert (v = true ↔ first true (ba_bit b) i (i + n - 1) = inl ENOENT) as Hvf.
  { rewrite Hv, first_none_iff by lia. unfold none, ba_bit. split; intros H k Hk; [apply H; lia|]. replace k with (k + start b - start b) by lia. apply H. lia. }
  case_bool_decide; destruct v; try done; [by apply Hvf|exfalso; by apply H, Hvf].
Qed.

(** ** The searches *)
Section search.
Context (addr : Z) (want : bool) (p : list Z) (Hp : bytes p).
Notation f := (bit p).
Definition nowhere (a b : Z) : Prop := ∀ k, a <= k < b → f k = negb want.
Lemma nowhere_app a b c : nowhere a b → nowhere b c → nowhere a c.
Proof. intros H1 H2 k Hk. destruct (decide (k < b)); [apply H1|apply H2]; lia. Qed.
Lemma nowhere_1 k : f k = negb want → nowhere k (k + 1).
Proof. intros H j Hj. by replace j with k by lia. Qed.
Lemma test_here k : bm_range p k → ∃ r, ext2fs_test_bit64 k p = Ret r ∧ is_wanted want r = Bool.eqb (f k) want.
Proof.
  intros Hk. destruct (bit_ops_spec k p Hk Hp) as (E & _). eexists. split; [exact E|]. unfold is_wanted. rewrite old_zero by zdm. by rewrite negb_involutive.
Qed.
Lemma not_wanted (x : bool) : Bool.eqb x want = false → x = negb want.
Proof. by destruct x, want. Qed.
(** what is left to search after a step: nothing was found up to there *)
Definition left_of (bitpos count bitpos' count' : Z) : Prop := bitpos' + count' = bitpos + count ∧ bitpos <= bitpos' ∧ 0 <= count' ∧ nowhere bitpos bitpos'.
Lemma left_refl bitpos count : 0 <= count → left_of bitpos count bitpos count.
Proof. intros H. split_and!; [done|lia|done|]. intros k Hk. lia. Qed.
Lemma left_step bitpos count d bitpos' count' : 0 <= d → nowhere bitpos (bitpos + d) → left_of (bitpos + d) (count - d) bitpos' count' → left_of bitpos count bitpos' count'.
Proof. intros Hd Hn (? & ? & ? & ?). split_and!; [lia|lia|done|]. by eapply nowhere_app. Qed.
Lemma head_bits_spec fuel : ∀ bitpos count, 0 <= bitpos → 0 <= count → bitpos + count <= 8 * Z.of_nat (length p) → (8 - bitpos mod 8) mod 8 < Z.of_nat fuel →
  ∃ r, head_bits want fuel p bitpos count = Ret r ∧
  match r with
  | inl k => bitpos <= k < bitpos + count ∧ f k = want ∧ nowhere bitpos k
  | inr (bitpos', count') => left_of bitpos count bitpos' count' ∧ (bitpos' mod 8 = 0 ∨ count' = 0)
  end.
Proof.
  induction fuel as [|fuel IH]; intros bitpos count Hb Hc Hl Hf; [zdm|]. cbn [head_bits]. destruct (bit_place bitpos) as [_ ->].
  destruct (bitpos mod 8 =? 0) eqn:E8; cbn [negb andb]; [breflect; eexists; split; [done|]; cbn beta iota; split; [by apply left_refl|by left]|]. destruct (0 <? count) eqn:E0; [|breflect; eexists; split; [done|]; cbn beta iota; split; [by apply left_refl|right; lia]].
  breflect. destruct (test_here bitpos) as (r & -> & Hw); [unfold bm_range; lia|]. ostep. rewrite Hw. destruct (Bool.eqb (f bitpos) want) eqn:Ew.
  - apply Bool.eqb_prop in Ew. eexists. split; [done|]. cbn beta iota. split_and!; [lia|lia|done|]. intros k Hk. lia.
  - apply not_wanted, nowhere_1 in Ew. destruct (IH (bitpos + 1) (count - 1)) as (r' & -> & Hr); [lia|lia|lia|zdm|]. eexists. split; [done|]. destruct r' as [k|[b' c']].
    + destruct Hr as (? & ? & ?). split_and!; [lia|lia|done|]. by eapply nowhere_app.
    + destruct Hr as [Hr ?]. split; [|done]. by apply (left_step bitpos count 1); [lia| |].
Qed.
(** a byte of the other bits only *)
Lemma skip_byte_bits q c : 0 <= q → p !! Z.to_nat q = Some c → c = skip_byte want → nowhere (8 * q) (8 * q + 8).
Proof.
  intros Hq Hc E k Hk. replace k with (8 * q + (k - 8 * q)) by lia. rewrite (bit_at p q _ c) by (done || lia). subst c. unfold skip_byte. destruct want; cbn [negb]; [apply Z.bits_0|].
  change 0xff with (Z.ones 8). apply Z.ones_spec_low. lia.
Qed.
Lemma align_bytes_spec fuel : ∀ bitpos count, 0 <= bitpos → 0 <= count → bitpos mod 8 = 0 → bitpos + count <= 8 * Z.of_nat (length p) → (8 - (addr + bitpos / 8) mod 8) mod 8 < Z.of_nat fuel →
  ∃ found bitpos' count', align_bytes addr want fuel p bitpos count = Ret (found, bitpos', count') ∧ left_of bitpos count bitpos' count' ∧ bitpos' mod 8 = 0.
Proof.
  induction fuel as [|fuel IH]; intros bitpos count Hb Hc H8 Hl Hf; [zdm|]. cbn [align_bytes]. destruct (bit_place bitpos) as [-> _]. destruct (bit_place (addr + bitpos / 8)) as [_ ->].
  destruct (8 <=? count) eqn:Ec; cbn [andb]; [|breflect; do 3 eexists; split; [done|]; split; [by apply left_refl|done]]. destruct ((addr + bitpos / 8) mod 8 =? 0) eqn:Ea; cbn [negb]; breflect; [do 3 eexists; split; [done|]; split; [by apply left_refl|done]|].
  destruct (aget_in_range p (bitpos / 8)) as (c & -> & Hl'); [zdm|]. ostep. destruct (c =? skip_byte want) eqn:Es; cbn [negb]; [|do 3 eexists; split; [done|]; split; [by apply left_refl|done]]. breflect.
  assert ((bitpos + 8) / 8 = bitpos / 8 + 1) as E8 by zdm. destruct (IH (bitpos + 8) (count - 8)) as (fd & b' & c' & -> & Hr & ?); [lia|lia|zdm|lia|rewrite E8; zdm|]. do 3 eexists. split; [done|]. split; [|done].
  apply (left_step bitpos count 8); [lia| |done]. pose proof (skip_byte_bits (bitpos / 8) c ltac:(zdm) Hl' Es) as Hn. replace (8 * (bitpos / 8)) with bitpos in Hn by zdm. done.
Qed.
Lemma skip_bytes_spec i : ∀ pos, 0 <= pos → pos + Z.of_nat i <= Z.of_nat (length p) → ∃ n, skip_bytes want p pos i = Ret n ∧ (n ≤ i)%nat ∧ nowhere (8 * pos) (8 * pos + 8 * Z.of_nat n).
Proof.
  induction i as [|i IH]; intros pos Hpos Hl; cbn [skip_bytes]; [exists O; split_and!; [done|lia|intros k Hk; lia]|]. destruct (aget_in_range p pos) as (c & -> & Hc); [lia|]. ostep.
  destruct (c =? skip_byte want) eqn:Es; cbn [negb]; [|exists O; split_and!; [done|lia|intros k Hk; lia]]. breflect. destruct (IH (pos + 1)) as (n & -> & Hn & Hw); [lia|lia|]. ostep. exists (S n). split_and!; [done|lia|].
  apply (nowhere_app _ (8 * pos + 8)); [by eapply skip_byte_bits|]. intros k Hk. apply Hw. lia.
Qed.
(** a word of the other bits only *)
Lemma le_to_all v l : bytes l → v = 0 ∨ v = 0xff → le_to l = v * ((256 ^ Z.of_nat (length l) - 1) / 255) → Forall (λ c, c = v) l.
Proof.
  intros Hl Hv. induction l as [|c l IH]; [done|]. apply Forall_cons in Hl as [Hc Hl]. cbn [le_to length]. rewrite Nat2Z.inj_succ, Z.pow_succ_r by lia. intros E. set (m := 256 ^ Z.of_nat (length l)) in *.
  assert (∃ t, m - 1 = 255 * t) as [t Et]. { exists ((m - 1) / 255). unfold m. clear. induction (length l) as [|k IHk]; [done|]. rewrite Nat2Z.inj_succ, Z.pow_succ_r by lia. zdm. }
  assert ((256 * m - 1) / 255 = 256 * t + 1) as Ed by (symmetry; apply (Z.div_unique _ _ _ 0); lia). assert ((m - 1) / 255 = t) as Ed' by (symmetry; apply (Z.div_unique _ _ _ 0); lia). rewrite Ed in E. rewrite Ed' in IH.
  unfold is_byte in Hc. pose proof (le_to_bound l Hl) as Hb. assert (c = v ∧ le_to l = v * t) as [-> E2] by (destruct Hv as [->| ->]; lia). constructor; [done|]. by apply IH.
Qed.
Lemma skip_word_bytes l : bytes l → length l = 8%nat → le_to l = skip_word want → Forall (λ c, c = skip_byte want) l.
Proof. intros Hl H8 E. apply le_to_all; [done|unfold skip_byte; destruct want; auto|]. rewrite E, H8. unfold skip_word, skip_byte. by destruct want. Qed.
Lemma skip_words_spec i : ∀ pos, 0 <= pos → pos + 8 * Z.of_nat i <= Z.of_nat (length p) → ∃ n, skip_words want p pos i = Ret n ∧ (n ≤ i)%nat ∧ nowhere (8 * pos) (8 * pos + 64 * Z.of_nat n).
Proof.
  induction i as [|i IH]; intros pos Hpos Hl; cbn [skip_words]; [exists O; split_and!; [done|lia|intros k Hk; lia]|]. btrue. set (w := slice p (Z.to_nat pos) 8).
  destruct (le_to w =? skip_word want) eqn:Es; cbn [negb]; [|exists O; split_and!; [done|lia|intros k Hk; lia]]. breflect. destruct (IH (pos + 8)) as (n & -> & Hn & Hw); [lia|lia|]. ostep. exists (S n). split_and!; [done|lia|].
  apply (nowhere_app _ (8 * pos + 64)); [|intros k Hk; apply Hw; lia]. apply skip_word_bytes in Es; [|by apply bytes_slice|apply length_slice; lia]. intros k Hk.
  assert (pos <= k / 8 < pos + 8 ∧ 8 * (k / 8) <= k < 8 * (k / 8) + 8) as [Hq Hk'] by zdm. destruct (lookup_lt_is_Some_2 p (Z.to_nat (k / 8))) as [c Hc]; [lia|].
  apply (skip_byte_bits (k / 8) c); [lia|done| |done]. apply (Forall_lookup_1 _ w (Z.to_nat (k / 8) - Z.to_nat pos) c Es). unfold w. rewrite lookup_slice by lia. rewrite <-Hc. f_equal. lia.
Qed.
Lemma word_bytes_spec bitpos count : 0 <= bitpos → 0 <= count → bitpos mod 8 = 0 → bitpos + count <= 8 * Z.of_nat (length p) →
  ∃ bitpos' count', word_bytes want p bitpos count = Ret (bitpos', count') ∧ left_of bitpos count bitpos' count'.
Proof.
  intros Hb Hc H8 Hl. unfold word_bytes. assert (∀ x n, 0 <= n → Z.shiftr x n = x / 2 ^ n) as Esh by (intros; by rewrite Z.shiftr_div_pow2). rewrite !Esh by lia. change (2 ^ 3) with 8. change (2 ^ 6) with 64.
  destruct (skip_words_spec (Z.to_nat (count / 64)) (bitpos / 8)) as (n & -> & Hn & Hw); [zdm|zdm|]. ostep. replace (8 * (bitpos / 8)) with bitpos in Hw by zdm. rewrite !Esh by lia. change (2 ^ 3) with 8.
  assert (64 * Z.of_nat n <= count) by zdm. assert ((bitpos + 64 * Z.of_nat n) / 8 = bitpos / 8 + 8 * Z.of_nat n) as E8 by zdm. rewrite E8.
  destruct (skip_bytes_spec (Z.to_nat ((count - 64 * Z.of_nat n) / 8)) (bitpos / 8 + 8 * Z.of_nat n)) as (m & -> & Hm & Hw'); [zdm|zdm|]. ostep. replace (8 * (bitpos / 8 + 8 * Z.of_nat n)) with (bitpos + 64 * Z.of_nat n) in Hw' by zdm.
  do 2 eexists. split; [done|]. assert (8 * Z.of_nat m <= count - 64 * Z.of_nat n) by zdm. split_and!; [lia|lia|lia|]. eapply nowhere_app; [exact Hw|exact Hw'].
Qed.
Lemma tail_bits_spec count : ∀ bitpos, 0 <= bitpos → bitpos + Z.of_nat count <= 8 * Z.of_nat (length p) → ∃ t, tail_bits want p bitpos count = Ret t ∧
  match t with Some k => bitpos <= k < bitpos + Z.of_nat count ∧ f k = want ∧ nowhere bitpos k | None => nowhere bitpos (bitpos + Z.of_nat count) end.
Proof.
  induction count as [|count IH]; intros bitpos Hb Hl; cbn [tail_bits]; [exists None; split; [done|]; intros k Hk; lia|]. destruct (test_here bitpos) as (r & -> & Hw); [unfold bm_range; lia|]. ostep. rewrite Hw. destruct (Bool.eqb (f bitpos) want) eqn:Ew.
  - apply Bool.eqb_prop in Ew. exists (Some bitpos). split_and!; [done|lia|lia|done|]. intros k Hk. lia.
  - apply not_wanted, nowhere_1 in Ew. destruct (IH (bitpos + 1)) as (t & -> & Ht); [lia|lia|]. exists t. split; [done|]. destruct t as [k|].
    + destruct Ht as (? & ? & ?). split_and!; [lia|lia|done|]. by eapply nowhere_app.
    + eapply nowhere_app; [exact Ew|]. intros k Hk. apply Ht. lia.
Qed.
End search.
Lemma ba_find_first_spec addr want b s e : ba_ok b → start b <= s <= e → e <= real_end b → ba_find_first addr want b s e = Ret (first want (ba_bit b) s e).
Proof.
  intros Hb Hs He. pose proof (bk_bytes _ Hb) as Hp. destruct (ba_in b s Hb ltac:(lia)) as [Eu _]. destruct (ba_in b e Hb ltac:(lia)) as [_ Hr]. unfold bm_range in Hr. unfold ba_find_first. rewrite Eu, u64_small by (pose proof (bk_max _ Hb); pose proof (bk_start _ Hb); lia).
  set (p := private b) in *. set (a := s - start b) in *. assert (Hfound : ∀ k, a <= k < a + (e - s + 1) → bit p k = want → nowhere want p a k → first want (ba_bit b) s e = inr (k + start b)).
  { intros k Hk Hw Hn. apply first_intro; [lia|unfold ba_bit; fold p; by replace (k + start b - start b) with k by lia|]. intros j Hj. apply Hn. lia. }
  assert (Hnone : nowhere want p a (a + (e - s + 1)) → first want (ba_bit b) s e = inl ENOENT). { intros Hn. apply first_none; [lia|]. intros j Hj. apply Hn. lia. }
  destruct (head_bits_spec want p Hp 9 a (e - s + 1)) as (r & -> & Hh); [lia|lia|lia|zdm|]. ostep. destruct r as [k|[bp c]]; [destruct Hh as (? & ? & ?); by rewrite (Hfound k)|]. destruct Hh as [(Es & Hle & Hc & Hn) Hor].
  case_if; [subst c; rewrite Hnone by (by replace (a + (e - s + 1)) with bp by lia); done|]. destruct Hor as [H8|]; [|lia].
  destruct (align_bytes_spec addr want p 9 bp c) as (fd & bp1 & c1 & -> & (Es1 & Hle1 & Hc1 & Hn1) & H81); [lia|lia|done|lia|zdm|]. ostep. cbn beta iota.
  assert (∃ bp2 c2, (if fd then Ret (bp1, c1) else word_bytes want p bp1 c1) = Ret (bp2, c2) ∧ left_of want p bp1 c1 bp2 c2) as (bp2 & c2 & -> & (Es2 & Hle2 & Hc2 & Hn2)).
  { destruct fd; [do 2 eexists; split; [done|by apply left_refl]|]. apply word_bytes_spec; (done || lia). }
  ostep. cbn [fst snd]. destruct (tail_bits_spec want p Hp (Z.to_nat c2) bp2) as (t & -> & Ht); [lia|lia|]. ostep. rewrite Z2Nat.id in Ht by lia.
  pose proof (nowhere_app _ _ _ _ _ (nowhere_app _ _ _ _ _ Hn Hn1) Hn2) as Hall. destruct t as [k|].
  - destruct Ht as (? & ? & ?). rewrite (Hfound k); [done|lia|done|]. by eapply nowhere_app.
  - rewrite Hnone; [done|]. replace (a + (e - s + 1)) with (bp2 + c2) by lia. by eapply nowhere_app.
Qed.

(** ** The bit array satisfies the laws *)
Lemma on_bit_updates f (b : gbm ba) i r p : f (u64 (i - start b)) (private b) = Ret (r, p) → on_bit f b i = Ret (r, set_private b p).
Proof. intros E. unfold on_bit. rewrite E. done. Qed.
Lemma ba_clear_ok b : ba_ok b → ba_updates b (ba_clear_bmap b) (λ _ _, false).
Proof.
  intros Hb. unfold ba_clear_bmap. rewrite <-(bk_size b Hb). assert (splice (private b) 0 (replicate (length (private b)) 0) = replicate (length (private b)) 0) as ->.
  { apply list_eq. intros j. destruct (decide (j < length (private b))%nat); [rewrite lookup_splice_in; rewrite ?length_replicate; try lia; f_equal; lia|]. rewrite !lookup_ge_None_2; [done|rewrite length_replicate; lia|rewrite length_splice; rewrite ?length_replicate; lia]. }
  split; [apply ba_ok_private; [done|apply Forall_replicate; done|apply length_replicate]|]. split; [done|]. intros j Hj. unfold ba_bit, bit. cbn [private set_private start]. destruct (_ !! _) as [c|] eqn:E; [|done].
  apply lookup_replicate in E as [-> _]. apply Z.bits_0.
Qed.
#[export] Instance ba_laws addr : @BitmapLaws ba (ext2fs_blkmap64_bitarray addr).
Proof.
  refine (@Build_BitmapLaws ba (ext2fs_blkmap64_bitarray addr) ba_ok ba_bit _ _ _ _ _ _ _ _ _ _).
  - intros b []. lia.
  - intros b i Hb Hi. destruct (ba_mark b i Hb Hi) as (r & p & E & Hr & U). exists r, (set_private b p). split; [by apply on_bit_updates|]. done.
  - intros b i Hb Hi. destruct (ba_unmark b i Hb Hi) as (r & p & E & Hr & U). exists r, (set_private b p). split; [by apply on_bit_updates|]. done.
  - intros b i Hb Hi. by apply ba_test.
  - apply ba_mark_extent_ok.
  - apply ba_unmark_extent_ok.
  - apply ba_test_clear_spec.
  - apply ba_clear_ok.
  - intros b find i e E. cbn [find_first_zero ext2fs_blkmap64_bitarray] in E. injection E as <-. exact (ba_find_first_spec addr false b i e).
  - intros b find i e E. cbn [find_first_set ext2fs_blkmap64_bitarray] in E. injection E as <-. exact (ba_find_first_spec addr true b i e).
Defined.

(** ** New bitmaps and copies *)
Definition fresh (m : bmagic) (s e r cb : Z) : gbm unit := Gbm m s e r cb ().
Lemma ba_new_ok mem junk m s e r cb b : 0 <= s <= e → e <= r < 2 ^ 62 → 0 <= cb < 32 → ba_new_bmap mem junk (fresh m s e r cb) = inr b →
  ba_ok b ∧ start b = s ∧ end_ b = e ∧ real_end b = r ∧ cluster_bits b = cb ∧ ∀ j, ba_bit b j = false.
Proof.
  intros Hs He Hc E. unfold ba_new_bmap, ba_alloc_private_data in E. destruct mem; [|done]. injection E as <-. split; [split; cbn [start end_ real_end cluster_bits private set_private fresh]; try lia; [apply Forall_replicate; done|apply length_replicate]|].
  split_and!; try done. intros j. unfold ba_bit, bit. cbn [private set_private]. destruct (_ !! _) as [c|] eqn:E; [|done]. apply lookup_replicate in E as [-> _]. apply Z.bits_0.
Qed.
Lemma ba_copy_ok junk b : ba_ok b → (∀ n, length (junk n) = n) → ba_copy_bmap true junk b (fresh (magic b) (start b) (end_ b) (real_end b) (cluster_bits b)) = inr b.
Proof.
  intros Hb Hj. unfold ba_copy_bmap, ba_alloc_private_data. cbn [start real_end fresh magic end_ cluster_bits]. unfold set_private. cbn [start real_end fresh magic end_ cluster_bits private]. rewrite take_ge by (by rewrite (bk_size b Hb)). f_equal.
  assert (splice (junk (ba_size (start b) (real_end b))) 0 (private b) = private b) as ->; [|by destruct b]. pose proof (bk_size b Hb) as E. apply list_eq. intros j. destruct (decide (j < length (private b))%nat).
  - rewrite lookup_splice_in by (rewrite ?Hj; lia). f_equal. lia.
  - rewrite !lookup_ge_None_2; [done|lia|rewrite length_splice; rewrite Hj; lia].
Qed.

(** ** Resizing *)
Lemma clear_down_spec n : ∀ b bitno, ba_ok b → bitno <= real_end b → start b <= bitno - Z.of_nat n + 1 →
  ∃ b', clear_down b bitno n = Ret b' ∧ ba_updates b b' (λ j x, negb (bool_decide (bitno - Z.of_nat n < j <= bitno)) && x) ∧ ∀ j, real_end b < j → ba_bit b' j = ba_bit b j.
Proof.
  induction n as [|n IH]; intros b bitno Hb Hr Hs; cbn [clear_down].
  - exists b. split; [done|]. split; [|done]. split_and!; [done..|]. intros j Hj. by rewrite bool_decide_false by lia.
  - destruct (ba_in b bitno Hb ltac:(lia)) as [Eu Hrng]. destruct (bit_ops_spec _ _ Hrng (bk_bytes _ Hb)) as (_ & _ & (p & E & L & B & Sp)). unfold ext2fs_clear_bit64. rewrite Eu, E. ostep. cbn [fst snd].
    pose proof (ba_ok_private b p Hb B L) as Hb1. destruct (IH (set_private b p) (bitno - 1) Hb1) as (b' & -> & (Ok & Sh & U) & Hout); [cbn [real_end set_private]; lia|cbn [start set_private]; lia|].
    cbn [start real_end set_private] in U, Hout. assert (∀ j, start b <= j → ba_bit (set_private b p) j = negb (bool_decide (j = bitno)) && ba_bit b j) as H1.
    { intros j Hj. unfold ba_bit. cbn [private start set_private]. rewrite Sp by lia. do 2 f_equal. apply bool_decide_ext. lia. }
    exists b'. split; [done|]. split; [|intros j Hj; rewrite Hout by done; rewrite H1 by (pose proof (bk_end _ Hb); pose proof (bk_real _ Hb); lia); by rewrite bool_decide_false by lia].
    split_and!; [done|exact Sh|]. intros j Hj. rewrite U by done. rewrite H1 by lia. destruct (decide (j = bitno)) as [->|].
    + rewrite (bool_decide_true (bitno = bitno)), (bool_decide_true (_ < bitno <= bitno)) by lia. cbn [negb andb]. by rewrite andb_false_r.
    + rewrite (bool_decide_false (j = bitno)) by done. cbn [negb andb]. do 2 f_equal. apply bool_decide_ext. lia.
Qed.
Lemma bit_resized p n m k : bytes p → 0 <= k → (m = 0%nat ∨ (length p ≤ n)%nat) → bit (take n p ++ replicate m 0) k = bool_decide (k / 8 < Z.of_nat n) && bit p k.
Proof.
  intros Hp Hk Hm. unfold bit. assert (0 <= k / 8) by zdm. destruct (decide (Z.to_nat (k / 8) < length (take n p))%nat) as [Hlt|Hge].
  - rewrite lookup_app_l by done. rewrite length_take in Hlt. rewrite lookup_take_lt by lia. by rewrite bool_decide_true by lia.
  - rewrite lookup_app_r by lia. assert ((match replicate m 0 !! (Z.to_nat (k / 8) - length (take n p))%nat with Some b => Z.testbit b (k mod 8) | None => false end) = false) as ->.
    { destruct (_ !! _) as [c|] eqn:E; [|done]. apply lookup_replicate in E as [-> _]. apply Z.bits_0. }
    rewrite length_take in Hge. case_bool_decide; [|done]. rewrite lookup_ge_None_2; [done|lia].
Qed.
(** Growing or shrinking a bit array: the bits up to both ends stay, new bits
    are clear, and what is beyond the allocated bits never comes back. *)
Theorem ba_resize_ok b ne nre : ba_ok b → start b <= ne → ne <= nre < 2 ^ 62 → (∀ j, real_end b < j → ba_bit b j = false) →
  ∃ b', ba_resize_bmap true b ne nre = Ret (0, b') ∧ ba_ok b' ∧ start b' = start b ∧ end_ b' = ne ∧ real_end b' = nre ∧
    ∀ j, start b <= j <= ne → ba_bit b' j = (j <=? end_ b) && ba_bit b j.
Proof.
  intros Hb Hne Hnre Hout. unfold ba_resize_bmap. pose proof (bk_end _ Hb). pose proof (bk_real _ Hb).
  assert (∃ b1, clear_new b ne = Ret b1 ∧ ba_ok b1 ∧ same_shape b b1 ∧ ∀ j, start b <= j <= ne → ba_bit b1 j = (j <=? end_ b) && ba_bit b j) as (b1 & -> & Hb1 & (Em & Es & Ee & Er & Ec) & H1).
  { unfold clear_new. set (bitno := if ne <? real_end b then ne else real_end b). assert (bitno = Z.min ne (real_end b)) by (unfold bitno; case_if; lia). clearbody bitno. case_if.
    - destruct (clear_down_spec (Z.to_nat (bitno - end_ b)) b bitno Hb) as (b1 & -> & (Ok & Sh & U) & Ho); [lia|lia|]. exists b1. split_and!; [done..|]. intros j Hj. destruct (decide (j <= real_end b)).
      + rewrite U by lia. destruct (decide (j <= end_ b)); [rewrite bool_decide_false by lia; by rewrite (proj2 (Z.leb_le j _))|]. rewrite bool_decide_true by lia. by rewrite (proj2 (Z.leb_gt j _)) by lia.
      + rewrite Ho, Hout by lia. by rewrite andb_false_r.
    - exists b. split_and!; try done. intros j Hj. by rewrite (proj2 (Z.leb_le j _)) by lia. }
  ostep. rewrite Er, Es. case_if.
  - eexists. split; [done|]. subst nre. destruct Hb1. split; [split; cbn [start end_ real_end cluster_bits private set_end]; try done; lia|]. by split_and!.
  - cbn [negb]. rewrite andb_false_r. eexists. split; [done|]. set (sz := ba_size (start b) (real_end b)). set (nsz := ba_size (start b) nre). pose proof (bk_size _ Hb1) as Hl. rewrite Es, Er in Hl. fold sz in Hl. pose proof (bk_bytes _ Hb1) as Hby.
    assert (length (take nsz (private b1) ++ replicate (nsz - sz) 0) = nsz) as Hlen by (rewrite length_app, length_take, length_replicate; lia).
    split; [destruct Hb1; split; cbn [start end_ real_end cluster_bits private set_end set_real_end set_private]; try done; [lia|lia|lia|apply Forall_app; split; [by apply Forall_take|apply Forall_replicate; done]|by rewrite Hlen, Es]|].
    split_and!; try done. intros j Hj. unfold ba_bit at 1. cbn [private start set_end set_real_end set_private]. rewrite Es, bit_resized by (try done; lia).
    rewrite <-H1 by done. unfold ba_bit at 1. rewrite Es. rewrite bool_decide_true; [done|]. unfold nsz, ba_size. zdm.
Qed.
(** C35. A new bit array behind the front end is a set of clusters: whatever
    sequence of marking, clearing, testing and searching, for single blocks or
    ranges, every result and the bits at the end are those of the same sequence
    on the empty set, wherever the array lies in memory. *)
Theorem bitarray_refines addr junk m s e r cb b l : 0 <= s <= e → e <= r < 2 ^ 62 → 0 <= cb < 32 → ba_new_bmap true junk (fresh m s e r cb) = inr b → Forall op_ok l →
  ∃ b', frun (ops := ext2fs_blkmap64_bitarray addr) b l = Ret ((brun s e cb l (λ _, false)).1, b') ∧ ba_ok b' ∧ ∀ j, s <= j <= e → ba_bit b' j = (brun s e cb l (λ _, false)).2 j.
Proof.
  intros Hs He Hc E Hl. destruct (ba_new_ok true junk m s e r cb b Hs He Hc E) as (Hb & <- & <- & <- & <- & Hz).
  destruct (frun_refines (ops := ext2fs_blkmap64_bitarray addr) (laws := ba_laws addr) l b (λ _, false) Hb (λ j _, Hz j) Hl) as (b' & Er & Hb' & (_ & Es & Ee & _) & Hf). exists b'. split_and!; [done..|]. intros j Hj. apply Hf. rewrite Es, Ee. done.
Qed.
Definition demo_ops : list bop := [MarkRange 3 20; Unmark 12; FindZero 3 60; TestRange 24 8; Mark 5; FindSet 30 60; Test 12; TestRange 12 1].
Lemma bitarray_refines_witness : match ba_new_bmap true (λ n, replicate n 0xAA) (fresh BLOCK_BITMAP64 1 63 63 0) with
  | inr b => ∃ b', frun (ops := ext2fs_blkmap64_bitarray 0x1003) b demo_ops = Ret ([RDone; RBit true; RFound (inr 12); RClear 1; RBit true; RFound (inl ENOENT); RBit false; RClear 1], b')
  | inl _ => False end.
Proof.
  assert (Forall op_ok demo_ops) as Ho by (repeat constructor; cbn [op_ok]; unfold blk_ok; lia).
  destruct (ba_new_bmap true (λ n, replicate n 0xAA) (fresh BLOCK_BITMAP64 1 63 63 0)) as [x|b] eqn:En; [discriminate En|].
  destruct (bitarray_refines 0x1003 (λ n, replicate n 0xAA) BLOCK_BITMAP64 1 63 63 0 b demo_ops ltac:(lia) ltac:(lia) ltac:(lia) En Ho) as (b' & E & _). exists b'. rewrite E. reflexivity.
Defined.
(** ** Witnesses for the front end: blocks 0 and 2 of three are in use, and
    one of them is counted *)
Definition count_map : gbm ba := Gbm BLOCK_BITMAP64 0 2 2 0 [5].
Lemma count_map_ok : ba_ok count_map.
Proof. split; cbn [start end_ real_end cluster_bits private count_map]; [lia..| |done]. by repeat constructor. Qed.
Lemma count_used_blocks_exact_witness : ext2fs_count_used_blocks (ops := ext2fs_blkmap64_bitarray 0x1000) count_map 0 2 = Ret (inr 1) ∧ ones (ba_bit count_map) 0 2 = 2.
Proof.
  split; [|reflexivity]. rewrite (count_used_blocks_exact (laws := ba_laws 0x1000) count_map 0 2 count_map_ok eq_refl ltac:(cbn; lia) ltac:(cbn; lia)). reflexivity.
Defined.
(** two bitmaps that differ in their last bit only compare as equal *)
Example compare_misses_last : ext2fs_compare_generic_bmap (ops := ext2fs_blkmap64_bitarray 0x1000) 1 count_map (set_private count_map [1]) = Ret 0 ∧ ba_bit count_map 2 ≠ ba_bit (set_private count_map [1]) 2.
Proof. split; [vm_compute; reflexivity|discriminate]. Qed.
End BitArray.
