(* ===== verification/Alloc.v ===== *)
(** Allocation of blocks in the vendored e2fsprogs library
    (kernel/fs/lib/ext2fs/alloc.c, alloc_stats.c): the search for a free block
    from a goal on, and the bookkeeping of blocks that come into use or are
    freed, over the group descriptors (Blknum.v), their checksums (Csum.v), the
    group geometry (Groups.v) and a block bitmap (Bitmap64.v).

    The invariant [alloc_ok] ties them together: the free counts of the groups
    and of the superblock are those of the bitmap, and every descriptor has a
    valid checksum.  The bitmap is any implementation of the bitmap operations.
    The callbacks of the caller (get_alloc_block, block_alloc_stats) are not
    set; writing the zeros of a new block is a function from the block to an
    error code. *)
From stdpp Require Import base numbers list relations.
From S2P Require Import Prelude Bitmap Bitops Blknum Csum Groups Bitmap64 BitArray.
Open Scope Z_scope.

Module Alloc.
Import Blknum Csum Groups Bitmap64.
Definition EXT2_ET_BLOCK_ALLOC_FAIL : Z := 2133571400.
(** a file system and its block bitmap *)
Record afs (P : Type) := Afs { afs_fs : filsys; block_map : gbm P }.
Arguments Afs {P}. Arguments afs_fs {P}. Arguments block_map {P}.
Definition ext2fs_mark_bb_dirty (fs : filsys) : filsys := set_flags fs (Z.lor (flags fs) 0x22).
Section alloc.
Context {P : Type} {ops : BitmapOps P} (place : Z → list Z → Z).
Definition ext2fs_clear_block_uninit (fs : filsys) (group : Z) : outcome filsys :=
  if (group_desc_count fs <=? group) || negb (ext2fs_has_group_desc_csum fs) then Ret fs else
  t ← ext2fs_bg_flags_test fs group EXT2_BG_BLOCK_UNINIT;
  if t =? 0 then Ret fs else
  fs ← ext2fs_bg_flags_clear fs group EXT2_BG_BLOCK_UNINIT;
  fs ← ext2fs_group_desc_csum_set place fs group;
  Ret (ext2fs_mark_bb_dirty (ext2fs_mark_super_dirty fs)).
Definition ext2fs_block_alloc_stats2 (a : afs P) (blk inuse : Z) : outcome (afs P) :=
  let fs := afs_fs a in
  group ← ext2fs_group_of_blk2 fs blk;
  if (blk <? s_first_data_block (super fs)) || (ext2fs_blocks_count (super fs) <=? blk) then Ret a else
  (if 0 <? inuse then ext2fs_mark_generic_bmap (block_map a) blk else ext2fs_unmark_generic_bmap (block_map a) blk) ≫= λ m : Z * gbm P,
  free ← ext2fs_bg_free_blocks_count fs group;
  fs ← ext2fs_bg_free_blocks_count_set fs group (u32 (free - inuse));
  fs ← ext2fs_bg_flags_clear fs group EXT2_BG_BLOCK_UNINIT;
  fs ← ext2fs_group_desc_csum_set place fs group;
  let fs := set_super fs (ext2fs_free_blocks_count_add (super fs) (u64 (- inuse * EXT2FS_CLUSTER_RATIO fs))) in
  Ret (Afs (ext2fs_mark_bb_dirty (ext2fs_mark_super_dirty fs)) m.2).
(** the free block and the new state, or an error *)
Definition ext2fs_new_block3 (a : afs P) (goal : Z) : outcome (Z + Z * afs P) :=
  let fs := afs_fs a in
  let goal := if (goal =? 0) || (ext2fs_blocks_count (super fs) <=? goal) then s_first_data_block (super fs) else goal in
  let goal := Z.land goal (Z.lnot (EXT2FS_CLUSTER_RATIO fs - 1)) in
  r ← ext2fs_find_first_zero_generic_bmap (block_map a) goal (u64 (ext2fs_blocks_count (super fs) - 1));
  r ← (match r with
       | inl e => if (e =? ENOENT) && negb (goal =? s_first_data_block (super fs))
                  then ext2fs_find_first_zero_generic_bmap (block_map a) (s_first_data_block (super fs)) (u64 (goal - 1)) else Ret r
       | inr _ => Ret r
       end);
  match r with
  | inl e => Ret (inl (if e =? ENOENT then EXT2_ET_BLOCK_ALLOC_FAIL else e))
  | inr b =>
    group ← ext2fs_group_of_blk2 fs b;
    fs ← ext2fs_clear_block_uninit fs group;
    Ret (inr (b, Afs fs (block_map a)))
  end.
(** [zero] writes a block of zeros *)
Definition ext2fs_alloc_block3 (zero : Z → Z) (a : afs P) (goal : Z) : outcome ((Z + Z) * afs P) :=
  r ← ext2fs_new_block3 a goal;
  match r with
  | inl e => Ret (inl e, a)
  | inr (block, a) => if zero block =? 0 then a ← ext2fs_block_alloc_stats2 a block 1; Ret (inr block, a) else Ret (inl (zero block), a)
  end.
End alloc.

(** ** A superblock whose free counts changed *)
Record same_sb (s s' : list Z) : Prop := {
  ss_length : length s' = length s;
  ss_bytes : bytes s → bytes s';
  ss_uuid : s_uuid s' = s_uuid s;
  ss_ld k p : 0 <= p → (p + Z.of_nat k <= 0x0C ∨ 0x14 <= p) → (p + Z.of_nat k <= 0x158 ∨ 0x15C <= p) → ld k s' p = ld k s p
}.
Lemma free_set_same s v : 0x15C <= Z.of_nat (length s) → 0 <= v < 2 ^ 64 → same_sb s (ext2fs_free_blocks_count_set s v) ∧
  ext2fs_free_blocks_count (ext2fs_free_blocks_count_set s v) = if ext2fs_has_feature_64bit s then v else v mod 2 ^ 32.
Proof.
  intros Hl Hv. destruct (super_set_get s 0x0C 0x158 v ltac:(lia) ltac:(lia) ltac:(lia) ltac:(lia) Hv) as [E K]. split; [|exact E]. unfold ext2fs_free_blocks_count_set. split.
  - unfold super_set. case_if; rewrite ?length_st; rewrite ?length_st; lia.
  - intros Hb. unfold super_set. case_if; repeat apply bytes_st; done.
  - unfold super_set, s_uuid. case_if; [rewrite slice_st_other by (rewrite ?length_st; lia)|]; rewrite slice_st_other by lia; done.
  - intros k p Hp D1 D2. apply K; [done|lia|lia].
Qed.
Section same.
Context (fs : filsys) (s' : list Z) (Hs : same_sb (super fs) s').
Notation fs' := (set_super fs s').
Lemma same_fields : s_feature_incompat s' = s_feature_incompat (super fs) ∧ s_feature_ro_compat s' = s_feature_ro_compat (super fs) ∧ EXT2_DESC_SIZE s' = EXT2_DESC_SIZE (super fs) ∧
  s_first_data_block s' = s_first_data_block (super fs) ∧ s_blocks_per_group s' = s_blocks_per_group (super fs) ∧ ext2fs_blocks_count s' = ext2fs_blocks_count (super fs).
Proof.
  assert (s_feature_incompat s' = s_feature_incompat (super fs)) as Ei by (apply Hs; lia). assert (ext2fs_has_feature_64bit s' = ext2fs_has_feature_64bit (super fs)) as E64 by (unfold ext2fs_has_feature_64bit; by rewrite Ei).
  split_and!; [done|apply Hs; lia| |apply Hs; lia|apply Hs; lia|].
  - unfold EXT2_DESC_SIZE, s_desc_size. rewrite E64. by rewrite (ss_ld _ _ Hs) by lia.
  - unfold ext2fs_blocks_count, super_get. rewrite E64. by rewrite !(ss_ld _ _ Hs) by lia.
Qed.
Lemma same_gdt_ok : gdt_ok fs → gdt_ok fs'.
Proof. destruct same_fields as (Ei & _ & Ed & _). intros [H1 H2 H3 H4 H5 H6]. split; cbn [super group_desc group_desc_count set_super]; rewrite ?Ed; try done. revert H3. unfold ext2fs_has_feature_64bit. by rewrite Ei. Qed.
Lemma same_geom_ok : geom_ok fs → geom_ok fs'.
Proof. destruct same_fields as (_ & _ & _ & Ef & Eb & Ec). intros [H1 H2 H3 H4 H5]. split; cbn [super group_desc_count set_super]; rewrite ?Ef, ?Eb, ?Ec; done. Qed.
Lemma same_desc g : desc fs' g = desc fs g.
Proof. destruct same_fields as (_ & _ & Ed & _). unfold desc. cbn [super group_desc set_super]. by rewrite Ed. Qed.
Lemma same_bounds g : ext2fs_group_first_block2 fs' g = ext2fs_group_first_block2 fs g ∧ ext2fs_group_last_block2 fs' g = ext2fs_group_last_block2 fs g.
Proof. destruct same_fields as (_ & _ & _ & Ef & Eb & Ec). unfold ext2fs_group_last_block2, ext2fs_group_first_block2. cbn [super group_desc_count set_super]. by rewrite Ef, Eb, Ec. Qed.
Lemma same_verify place g : gdt_ok fs → 0 <= g < group_desc_count fs → ext2fs_group_desc_csum_verify place fs' g = ext2fs_group_desc_csum_verify place fs g.
Proof.
  intros Hf Hg. destruct same_fields as (_ & Er & Ed & _). pose proof (same_gdt_ok Hf) as Hf'. pose proof (size_32 fs Hf). unfold ext2fs_group_desc_csum_verify, ext2fs_has_group_desc_csum.
  assert (∀ m, has (s_feature_ro_compat (super fs')) m = has (s_feature_ro_compat (super fs)) m) as Eh by (intros; cbn [super set_super]; by rewrite Er). unfold ext2fs_has_feature_metadata_csum, ext2fs_has_feature_gdt_csum. rewrite !Eh.
  destruct (_ || _); [|done]. unfold ext2fs_bg_checksum. rewrite (desc_ld_desc fs Hf g Hg) by lia. rewrite (desc_ld_desc fs' Hf' g Hg) by (cbn [super set_super]; rewrite ?Ed; lia). rewrite same_desc. ostep.
  rewrite !group_desc_csum_desc by done. ostep. rewrite same_desc. unfold desc_csum, ext2fs_has_feature_metadata_csum. rewrite !Eh. cbn [super set_super csum_seed]. by rewrite Ed, (ss_uuid _ _ Hs).
Qed.
Lemma same_get n lo hi g : gdt_ok fs → 0 <= g < group_desc_count fs → 0 <= lo → 0 <= hi → lo + Z.of_nat n <= 32 → hi + Z.of_nat n <= 64 → desc_get n fs' g lo hi = desc_get n fs g lo hi.
Proof.
  intros Hf Hg ? ? ? ?. rewrite (desc_get_desc fs Hf g Hg), (desc_get_desc fs' (same_gdt_ok Hf) g Hg) by lia. rewrite same_desc. unfold split_ld, ext2fs_has_feature_64bit. destruct same_fields as (Ei & _). cbn [super set_super]. by rewrite Ei.
Qed.
End same.

(** ** The descriptor of a group *)
(** a store outside a split field *)
Lemma split_st fs d lo hi off v : Z.of_nat (length d) = EXT2_DESC_SIZE (super fs) → (if ext2fs_has_feature_64bit (super fs) then 64 else 32) <= EXT2_DESC_SIZE (super fs) →
  0 <= lo → lo + 2 <= 32 → 32 <= hi → hi + 2 <= 64 → 0 <= off → off + 2 <= 32 → (lo + 2 <= off ∨ off + 2 <= lo) → split_ld fs (st 2 d off v) 2 lo hi = split_ld fs d 2 lo hi.
Proof. intros Hl Hz ? ? ? ? ? ? ?. unfold split_ld. destruct (ext2fs_has_feature_64bit _); rewrite !ld_st_other by lia; done. Qed.
Section descriptor.
Context (fs : filsys) (Hf : gdt_ok fs) (Hseed : 0 <= csum_seed fs < 2 ^ 32) (g : Z) (Hg : 0 <= g < group_desc_count fs) (place : Z → list Z → Z).
(** clearing flags, with or without checksums *)
Lemma flags_clear_ok m lo hi : 0 <= lo → lo + 2 <= 18 → 32 <= hi → hi + 2 <= 64 →
  ∃ fs' d, ext2fs_bg_flags_clear fs g m = Ret fs' ∧ only_group fs fs' g d ∧ split_ld fs d 2 lo hi = split_ld fs (desc fs g) 2 lo hi.
Proof.
  intros. pose proof (size_32 fs Hf). unfold ext2fs_bg_flags_clear. rewrite (desc_ld_desc fs Hf g Hg) by lia. ostep. destruct (desc_st_desc fs Hf g Hg 2 18 (Z.land (ld 2 (desc fs g) 18) (Z.lnot m))) as (fs' & E & O); [lia|lia|].
  do 2 eexists. split; [exact E|]. split; [exact O|]. apply split_st; try lia; [by apply length_desc|apply Hf].
Qed.
Lemma csum_set_ok lo hi : 0 <= lo → lo + 2 <= 18 → 32 <= hi → hi + 2 <= 64 →
  ∃ fs' d, ext2fs_group_desc_csum_set place fs g = Ret fs' ∧ only_group fs fs' g d ∧ split_ld fs d 2 lo hi = split_ld fs (desc fs g) 2 lo hi ∧ ∀ place', ext2fs_group_desc_csum_verify place' fs' g = Ret true.
Proof.
  intros. destruct (ext2fs_has_group_desc_csum fs) eqn:Hh.
  - destruct (group_csum_set_ok place place fs g Hf Hg Hseed Hh) as (fs' & E & O & _). do 2 eexists. split; [exact E|]. split; [exact O|]. split; [apply split_st; try lia; [by apply length_desc|apply Hf]|].
    intros place'. destruct (group_csum_set_ok place place' fs g Hf Hg Hseed Hh) as (fs2 & E2 & _ & V). congruence.
  - exists fs, (desc fs g). unfold ext2fs_group_desc_csum_set. rewrite Hh. split; [done|]. split; [by apply only_group_refl|]. split; [done|]. intros. unfold ext2fs_group_desc_csum_verify. by rewrite Hh.
Qed.
End descriptor.
Lemma split_ld_super fs fs' d n lo hi : super fs' = super fs → split_ld fs' d n lo hi = split_ld fs d n lo hi.
Proof. intros E. unfold split_ld. by rewrite E. Qed.
(** a new count, the flags and the checksum of a group *)
Lemma group_update fs g v place : gdt_ok fs → 0 <= csum_seed fs < 2 ^ 32 → 0 <= g < group_desc_count fs → 0 <= v < 2 ^ 16 →
  ∃ fs1 fs2 fs3 d, ext2fs_bg_free_blocks_count_set fs g v = Ret fs1 ∧ ext2fs_bg_flags_clear fs1 g EXT2_BG_BLOCK_UNINIT = Ret fs2 ∧ ext2fs_group_desc_csum_set place fs2 g = Ret fs3 ∧
    only_group fs fs3 g d ∧ split_ld fs d 2 12 44 = v ∧ ∀ place', ext2fs_group_desc_csum_verify place' fs3 g = Ret true.
Proof.
  intros Hf Hs Hg Hv. destruct (split_set fs g 12 44 v Hf Hg) as (fs1 & d1 & E1 & O1 & V1); [lia..|case_match; lia|]. destruct (og_super _ _ _ _ O1) as (Es1 & Ed1 & Ec1). assert (0 <= g < group_desc_count fs1) as Hg1 by lia.
  destruct (flags_clear_ok fs1 (og_ok _ _ _ _ O1) g Hg1 EXT2_BG_BLOCK_UNINIT 12 44) as (fs2 & d2 & E2 & O2 & V2); [lia..|]. destruct (og_super _ _ _ _ O2) as (Es2 & Ed2 & Ec2). assert (0 <= g < group_desc_count fs2) as Hg2 by lia.
  destruct (csum_set_ok fs2 (og_ok _ _ _ _ O2) ltac:(by rewrite Ed2, Ed1) g Hg2 place 12 44) as (fs3 & d3 & E3 & O3 & V3 & C3); [lia..|]. exists fs1, fs2, fs3, d3. split_and!; [done..| | |done].
  - eapply only_group_trans; [exact O1|]. by eapply only_group_trans.
  - rewrite <-V1. rewrite (split_ld_super fs1 fs2) in V3 by done. rewrite (split_ld_super fs fs1) in V2, V3 by done. rewrite (split_ld_super fs1 fs2), (split_ld_super fs fs1) in V3 by done.
    rewrite V3, (og_desc _ _ _ _ O2), V2, (split_ld_super fs fs1), (og_desc _ _ _ _ O1) by done. done.
Qed.

(** ** The invariant *)
Section invariant.
Context {P : Type} {ops : BitmapOps P} {laws : BitmapLaws P}.
Implicit Types a : afs P.
Definition used a (j : Z) : bool := has_bit (block_map a) j.
Definition free a (lo hi : Z) : Z := hi - lo + 1 - ones (used a) lo hi.
Record alloc_ok a : Prop := {
  ak_gdt : gdt_ok (afs_fs a);
  ak_geom : geom_ok (afs_fs a);
  ak_seed : 0 <= csum_seed (afs_fs a) < 2 ^ 32;
  ak_length : length (super (afs_fs a)) = 1024%nat;
  ak_bytes : bytes (super (afs_fs a));
  ak_bpg : s_blocks_per_group (super (afs_fs a)) < 2 ^ 16;
  ak_ratio : cluster_ratio_bits (afs_fs a) = 0;
  ak_map : bm_ok (block_map a);
  ak_plain : cluster_bits (block_map a) = 0;
  ak_start : start (block_map a) = s_first_data_block (super (afs_fs a));
  ak_end : end_ (block_map a) = ext2fs_blocks_count (super (afs_fs a)) - 1;
  ak_groups g : 0 <= g < group_desc_count (afs_fs a) →
    ext2fs_bg_free_blocks_count (afs_fs a) g = Ret (free a (ext2fs_group_first_block2 (afs_fs a) g) (ext2fs_group_last_block2 (afs_fs a) g));
  ak_total : ext2fs_free_blocks_count (super (afs_fs a)) = free a (s_first_data_block (super (afs_fs a))) (ext2fs_blocks_count (super (afs_fs a)) - 1);
  ak_csum g place : 0 <= g < group_desc_count (afs_fs a) → ext2fs_group_desc_csum_verify place (afs_fs a) g = Ret true
}.
Lemma ones_ext f f' lo hi : (∀ j, lo <= j <= hi → f j = f' j) → ones f lo hi = ones f' lo hi.
Proof. intros H. unfold ones. apply popcount_ext. intros i Hi. apply H. lia. Qed.
(** one bit changes *)
Lemma ones_put f blk v lo hi : f blk = negb v → ones (λ j, if bool_decide (j = blk) then v else f j) lo hi = ones f lo hi + (if bool_decide (lo <= blk <= hi) then if v then 1 else -1 else 0).
Proof.
  intros Hf. case_bool_decide as Hr; [|rewrite Z.add_0_r; apply ones_ext; intros j Hj; by rewrite bool_decide_false by lia]. unfold ones. destruct v; cbn [negb] in Hf.
  - apply (popcount_set _ _ _ (blk - lo)); [lia|by replace (lo + (blk - lo)) with blk by lia|]. intros j Hj. rewrite (bool_decide_ext (lo + j = blk) (j = blk - lo)) by lia. by case_bool_decide.
  - apply (popcount_clear _ _ _ (blk - lo)); [lia|by replace (lo + (blk - lo)) with blk by lia|]. intros j Hj. rewrite (bool_decide_ext (lo + j = blk) (j = blk - lo)) by lia. by case_bool_decide.
Qed.
Definition put (f : Z → bool) (blk : Z) (v : bool) (j : Z) : bool := if bool_decide (j = blk) then v else f j.
(** marking or clearing one bit of a bitmap *)
Lemma bmap_put (b : gbm P) blk inuse : bm_ok b → cluster_bits b = 0 → start b <= blk <= end_ b → inuse = 1 ∨ inuse = -1 →
  ∃ r m, (if 0 <? inuse then ext2fs_mark_generic_bmap b blk else ext2fs_unmark_generic_bmap b blk) = Ret (r, m) ∧ bm_ok m ∧ same_shape b m ∧
    ∀ j, start b <= j <= end_ b → has_bit m j = put (has_bit b) blk (0 <? inuse) j.
Proof.
  intros Hok Hp Hb Hi. pose proof (ok_geom _ Hok). unfold ext2fs_mark_generic_bmap, ext2fs_unmark_generic_bmap. rewrite Hp, Z.shiftr_0_r, inside_eq. unfold inside. do 2 btrue. cbn [andb negb].
  assert (start b <= blk <= real_end b) as Hr by lia. destruct Hi as [->| ->]; cbn [Z.ltb Z.compare].
  - destruct (law_mark _ _ Hok Hr) as (r & m & E & _ & (Hm & Sh & U)). exists r, m. split_and!; [done..|]. intros j Hj. rewrite U by lia. unfold put. by case_bool_decide.
  - destruct (law_unmark _ _ Hok Hr) as (r & m & E & _ & (Hm & Sh & U)). exists r, m. split_and!; [done..|]. intros j Hj. rewrite U by lia. unfold put. by case_bool_decide.
Qed.
Lemma map_put a blk inuse : alloc_ok a → s_first_data_block (super (afs_fs a)) <= blk < ext2fs_blocks_count (super (afs_fs a)) → inuse = 1 ∨ inuse = -1 →
  ∃ r m, (if 0 <? inuse then ext2fs_mark_generic_bmap (block_map a) blk else ext2fs_unmark_generic_bmap (block_map a) blk) = Ret (r, m) ∧ bm_ok m ∧ same_shape (block_map a) m ∧
    ∀ j, start (block_map a) <= j <= end_ (block_map a) → has_bit m j = put (used a) blk (0 <? inuse) j.
Proof. intros Ha Hb. pose proof (ak_start _ Ha). pose proof (ak_end _ Ha). apply bmap_put; [apply Ha|apply Ha|lia]. Qed.
Lemma free_range a lo hi : lo <= hi + 1 → 0 <= free a lo hi <= hi - lo + 1.
Proof. intros H. unfold free. pose proof (ones_range (used a) lo hi). lia. Qed.
Lemma blocks_max a : alloc_ok a → ext2fs_blocks_count (super (afs_fs a)) < if ext2fs_has_feature_64bit (super (afs_fs a)) then 2 ^ 63 else 2 ^ 32.
Proof.
  intros Ha. pose proof (ok_geom _ (ak_map _ Ha)). pose proof (ak_end _ Ha). pose proof (ak_length _ Ha). destruct (ext2fs_has_feature_64bit (super (afs_fs a))) eqn:E; [lia|]. unfold ext2fs_blocks_count, super_get. rewrite E, Z.lor_0_r.
  apply (ld_range 4 (super (afs_fs a)) 0x04 (ak_bytes _ Ha)); lia.
Qed.
Lemma u64_add_small t x : 0 <= t - x < 2 ^ 64 → u64 (t + u64 (- x * 1)) = t - x.
Proof. intros H. unfold u64. rewrite Zplus_mod_idemp_r. replace (t + - x * 1) with (t - x) by lia. by apply Z.mod_small. Qed.
Lemma flags_ok fs f : gdt_ok fs → geom_ok fs → gdt_ok (set_flags fs f) ∧ geom_ok (set_flags fs f).
Proof. intros [] []. split; by split. Qed.
(** a state that differs in the bit of one block, the descriptor of its group
    and the total keeps the invariant *)
Lemma alloc_ok_update a blk inuse m fs3 g d s' f : alloc_ok a → let fs := afs_fs a in
  s_first_data_block (super fs) <= blk < ext2fs_blocks_count (super fs) → inuse = 1 ∨ inuse = -1 → used a blk = negb (0 <? inuse) → 
  bm_ok m → same_shape (block_map a) m → (∀ j, start (block_map a) <= j <= end_ (block_map a) → has_bit m j = put (used a) blk (0 <? inuse) j) →
  0 <= g < group_desc_count fs → ext2fs_group_first_block2 fs g <= blk <= ext2fs_group_last_block2 fs g → only_group fs fs3 g d →
  split_ld fs d 2 12 44 = free a (ext2fs_group_first_block2 fs g) (ext2fs_group_last_block2 fs g) - inuse → (∀ place', ext2fs_group_desc_csum_verify place' fs3 g = Ret true) →
  same_sb (super fs) s' → ext2fs_free_blocks_count s' = free a (s_first_data_block (super fs)) (ext2fs_blocks_count (super fs) - 1) - inuse →
  alloc_ok (Afs (set_flags (set_super fs3 s') f) m).
Proof.
  intros Ha fs Hb Hi Hu Hm (_ & Ms & Me & _ & Mc) Hput Hgr Hin O V C Hsame Htot. pose proof (ak_geom _ Ha) as Hgeo. pose proof (ak_gdt _ Ha) as Hgdt. fold fs in Hgeo, Hgdt. destruct (og_super _ _ _ _ O) as (Es & Ed & Ec).
  assert (same_sb (super fs3) s') as Hsame3 by (by rewrite Es). destruct (same_fields fs3 s' Hsame3) as (_ & _ & _ & F1 & F2 & F3). rewrite Es in F1, F2, F3.
  assert (geom_ok fs3) as Hgeo3 by (rewrite (og_fs _ _ _ _ O); destruct Hgeo; by split). pose proof (same_gdt_ok fs3 s' Hsame3 (og_ok _ _ _ _ O)) as Hg3. pose proof (same_geom_ok fs3 s' Hsame3 Hgeo3) as Hgm3. destruct (flags_ok _ f Hg3 Hgm3) as [G1 G2].
  assert (∀ g', ext2fs_group_first_block2 (set_super fs3 s') g' = ext2fs_group_first_block2 fs g' ∧ ext2fs_group_last_block2 (set_super fs3 s') g' = ext2fs_group_last_block2 fs g') as Hbounds
    by (intros g'; destruct (same_bounds fs3 s' Hsame3 g') as [-> ->]; by rewrite (og_fs _ _ _ _ O)).
  pose proof (ak_start _ Ha) as As. pose proof (ak_end _ Ha) as Ae. fold fs in As, Ae. set (dv := if 0 <? inuse then 1 else -1). assert (dv = inuse) as Edv by (unfold dv; destruct Hi as [->| ->]; done).
  assert (∀ l h, start (block_map a) <= l → h <= end_ (block_map a) → free (Afs (set_flags (set_super fs3 s') f) m) l h = free a l h - if bool_decide (l <= blk <= h) then inuse else 0) as Hfree.
  { intros l h Hl Hh. unfold free. assert (ones (used (Afs (set_flags (set_super fs3 s') f) m)) l h = ones (used a) l h + if bool_decide (l <= blk <= h) then dv else 0) as ->; [|rewrite Edv; case_match; lia].
    unfold dv. rewrite <-(ones_put (used a) blk (0 <? inuse) l h Hu). apply ones_ext. intros j Hj. apply Hput. lia. }
  split; cbn [afs_fs block_map super set_flags set_super csum_seed cluster_ratio_bits group_desc_count]; try done.
  - rewrite Ed. apply (ak_seed _ Ha).
  - rewrite (ss_length _ _ Hsame). apply (ak_length _ Ha).
  - apply (ss_bytes _ _ Hsame), (ak_bytes _ Ha).
  - rewrite F2. apply (ak_bpg _ Ha).
  - rewrite (og_fs _ _ _ _ O). apply (ak_ratio _ Ha).
  - rewrite Mc. apply (ak_plain _ Ha).
  - rewrite Ms, F1. done.
  - rewrite Me, F3. done.
  - intros g' Hg'. rewrite Ec in Hg'. destruct (Hbounds g') as [Bf Bl]. change (ext2fs_group_first_block2 (set_flags (set_super fs3 s') f) g') with (ext2fs_group_first_block2 (set_super fs3 s') g').
    change (ext2fs_group_last_block2 (set_flags (set_super fs3 s') f) g') with (ext2fs_group_last_block2 (set_super fs3 s') g'). rewrite Bf, Bl. change (ext2fs_bg_free_blocks_count (set_flags (set_super fs3 s') f) g') with (desc_get 2 (set_super fs3 s') g' 12 44).
    destruct (group_bounds fs g' Hgeo Hg') as (? & ? & _). rewrite Hfree by lia. rewrite (same_get fs3 s' Hsame3 2 12 44 g' (og_ok _ _ _ _ O)) by lia. rewrite (desc_get_desc fs3 (og_ok _ _ _ _ O) g') by lia. rewrite (split_ld_super fs fs3) by done.
    destruct (decide (g' = g)) as [->|Hne]; [rewrite (og_desc _ _ _ _ O), V; by rewrite bool_decide_true|]. rewrite (og_other _ _ _ _ O) by done. pose proof (ak_groups _ Ha g' Hg') as Eg. fold fs in Eg. unfold ext2fs_bg_free_blocks_count in Eg.
    rewrite (desc_get_desc fs Hgdt g' Hg') in Eg by lia. rewrite Eg. f_equal. rewrite bool_decide_false; [lia|]. intros Hin'. apply Hne. rewrite (proj1 (group_has fs blk g' Hgeo Hb Hg') Hin'). symmetry. by apply (group_has fs blk g).
  - rewrite Htot, F1, F3, Hfree by lia. rewrite bool_decide_true by lia. done.
  - intros g' place' Hg'. rewrite Ec in Hg'. change (ext2fs_group_desc_csum_verify place' (set_flags (set_super fs3 s') f) g') with (ext2fs_group_desc_csum_verify place' (set_super fs3 s') g').
    rewrite (same_verify fs3 s' Hsame3) by (try apply O; lia). destruct (decide (g' = g)) as [->|Hne]; [done|]. rewrite (og_verify place' fs fs3 g d g') by done. by apply (ak_csum _ Ha).
Qed.
(** When a free block comes into use ([inuse] 1) or a used one is freed
    ([inuse] -1), the bookkeeping succeeds, changes the bit of that block and
    no other, and keeps the invariant: the free counts of every group and of the
    superblock are those of the bitmap, and every group descriptor still has a
    valid checksum. *)
Lemma block_alloc_stats_ok place a blk inuse : alloc_ok a → s_first_data_block (super (afs_fs a)) <= blk < ext2fs_blocks_count (super (afs_fs a)) →
  inuse = 1 ∧ used a blk = false ∨ inuse = -1 ∧ used a blk = true →
  ∃ a', ext2fs_block_alloc_stats2 place a blk inuse = Ret a' ∧ alloc_ok a' ∧ ext2fs_blocks_count (super (afs_fs a')) = ext2fs_blocks_count (super (afs_fs a)) ∧
    ∀ j, s_first_data_block (super (afs_fs a)) <= j < ext2fs_blocks_count (super (afs_fs a)) → used a' j = if bool_decide (j = blk) then 0 <? inuse else used a j.
Proof.
  intros Ha Hb Hi. assert (inuse = 1 ∨ inuse = -1) as Hi' by tauto. assert (used a blk = negb (0 <? inuse)) as Hu by (destruct Hi as [[-> ->]|[-> ->]]; done).
  pose proof (ak_geom _ Ha) as Hgeo. pose proof (ak_gdt _ Ha) as Hgdt. set (fs := afs_fs a) in *. destruct (map_put a blk inuse Ha Hb Hi') as (r & m & Em & Hm & Sh & Hput). fold fs in Hput.
  destruct (group_of_eq fs Hgeo blk Hb) as [Eg Hgr]. set (g := (blk - s_first_data_block (super fs)) / s_blocks_per_group (super fs)) in *.
  destruct (group_bounds fs g Hgeo Hgr) as (B1 & B2 & B3). assert (ext2fs_group_first_block2 fs g <= blk <= ext2fs_group_last_block2 fs g) as Hin by (by apply group_has).
  set (lo := ext2fs_group_first_block2 fs g) in *. set (hi := ext2fs_group_last_block2 fs g) in *. set (dv := if 0 <? inuse then 1 else -1). assert (dv = inuse) as Edv by (unfold dv; destruct Hi' as [->| ->]; done).
  assert (∀ l h, ones (put (used a) blk (0 <? inuse)) l h = ones (used a) l h + if bool_decide (l <= blk <= h) then inuse else 0) as Hones by (intros l h; unfold put; rewrite (ones_put (used a)) by done; fold dv; by rewrite Edv).
  pose proof (ones_range (put (used a) blk (0 <? inuse)) lo hi) as Rg. rewrite Hones, bool_decide_true in Rg by done. pose proof (ones_range (used a) lo hi) as Rg0. pose proof (ak_bpg _ Ha) as Hbpg. fold fs in Hbpg.
  assert (u32 (free a lo hi - inuse) = free a lo hi - inuse ∧ 0 <= free a lo hi - inuse < 2 ^ 16) as [Eu Hv]. { assert (0 <= free a lo hi - inuse < 2 ^ 16) by (unfold free; lia). split; [|done]. apply u32_small. lia. }
  destruct (group_update fs g (free a lo hi - inuse) place Hgdt (ak_seed _ Ha) Hgr Hv) as (fs1 & fs2 & fs3 & d & E1 & E2 & E3 & O & V & C).
  set (b := super fs). set (T := free a (s_first_data_block b) (ext2fs_blocks_count b - 1)). destruct (og_super _ _ _ _ O) as (Es3 & Ed3 & Ec3). pose proof (ak_length _ Ha) as Hl. fold fs b in Hl.
  assert (0 <= T - inuse < (if ext2fs_has_feature_64bit b then 2 ^ 63 else 2 ^ 32)) as HT.
  { pose proof (ones_range (put (used a) blk (0 <? inuse)) (s_first_data_block b) (ext2fs_blocks_count b - 1)) as R1. rewrite Hones, bool_decide_true in R1 by (unfold b; lia). pose proof (blocks_max a Ha) as Hmax. fold fs b in Hmax. pose proof (geo_first _ Hgeo). revert Hmax. unfold T, free. unfold b in *. case_match; intros; lia. }
  assert (ext2fs_free_blocks_count_add (super fs3) (u64 (- inuse * EXT2FS_CLUSTER_RATIO fs3)) = ext2fs_free_blocks_count_set b (T - inuse)) as Eadd.
  { rewrite Es3. fold b. unfold ext2fs_free_blocks_count_add. pose proof (ak_total _ Ha) as Et. fold fs b T in Et. rewrite Et. rewrite (og_fs _ _ _ _ O). unfold EXT2FS_CLUSTER_RATIO. cbn [cluster_ratio_bits set_gdt]. fold fs. rewrite (ak_ratio _ Ha : cluster_ratio_bits fs = 0).
    f_equal. rewrite Z.shiftl_0_r. apply u64_add_small. case_match; lia. }
  destruct (free_set_same b (T - inuse) ltac:(lia) ltac:(case_match; lia)) as [Hsame Hfree]. exists (Afs (ext2fs_mark_bb_dirty (ext2fs_mark_super_dirty (set_super fs3 (ext2fs_free_blocks_count_set b (T - inuse))))) m).
  split; [|split; [|split]].
  - unfold ext2fs_block_alloc_stats2. fold fs. rewrite Eg. ostep. do 2 bfalse. cbn [orb]. rewrite Em. ostep. pose proof (ak_groups _ Ha g Hgr) as Efree. fold fs lo hi in Efree. rewrite Efree. ostep. rewrite Eu, E1. ostep. rewrite E2. ostep. rewrite E3. ostep. by rewrite Eadd.
  - apply (alloc_ok_update a blk inuse m fs3 g d (ext2fs_free_blocks_count_set b (T - inuse)) _ Ha); try done. 
    + fold fs b. rewrite Hfree. fold T. case_match; [done|]. apply Z.mod_small. lia.
  - cbn [afs_fs ext2fs_mark_bb_dirty ext2fs_mark_super_dirty super set_flags set_super]. assert (same_sb (super fs) (ext2fs_free_blocks_count_set b (T - inuse))) as Hsame' by done. by destruct (same_fields fs _ Hsame') as (_ & _ & _ & _ & _ & ->).
  - intros j Hj. unfold used. cbn [block_map]. rewrite Hput by (rewrite (ak_start _ Ha), (ak_end _ Ha); fold fs; unfold b in Hj; lia). done.
Qed.
(** a descriptor rewritten with the same count keeps the invariant *)
Lemma alloc_ok_desc a fs3 g d f : alloc_ok a → 0 <= g < group_desc_count (afs_fs a) → only_group (afs_fs a) fs3 g d →
  split_ld (afs_fs a) d 2 12 44 = split_ld (afs_fs a) (desc (afs_fs a) g) 2 12 44 → (∀ place', ext2fs_group_desc_csum_verify place' fs3 g = Ret true) → alloc_ok (Afs (set_flags fs3 f) (block_map a)).
Proof.
  intros Ha Hg O V C. set (fs := afs_fs a) in *. destruct (og_super _ _ _ _ O) as (Es & Ed & Ec). pose proof (ak_geom _ Ha) as Hgeo. fold fs in Hgeo. assert (geom_ok fs3) as Hgeo3 by (rewrite (og_fs _ _ _ _ O); destruct Hgeo; by split).
  destruct (flags_ok _ f (og_ok _ _ _ _ O) Hgeo3) as [G1 G2]. destruct Ha as [A1 A2 A3 A4 A5 A6 A7 A8 A9 A10 A11 A12 A13 A14]. fold fs in A1, A2, A3, A4, A5, A6, A7, A10, A11, A12, A13, A14.
  split; cbn [afs_fs block_map super set_flags csum_seed cluster_ratio_bits group_desc_count]; rewrite ?Es, ?Ed, ?Ec; try done; [by rewrite (og_fs _ _ _ _ O)| |].
  - intros g' Hg'. change (ext2fs_bg_free_blocks_count (set_flags fs3 f) g') with (desc_get 2 fs3 g' 12 44). change (ext2fs_group_first_block2 (set_flags fs3 f) g') with (ext2fs_group_first_block2 fs3 g').
    change (ext2fs_group_last_block2 (set_flags fs3 f) g') with (ext2fs_group_last_block2 fs3 g'). assert (ext2fs_group_first_block2 fs3 g' = ext2fs_group_first_block2 fs g' ∧ ext2fs_group_last_block2 fs3 g' = ext2fs_group_last_block2 fs g') as [-> ->] by (by rewrite (og_fs _ _ _ _ O)).
    rewrite (desc_get_desc fs3 (og_ok _ _ _ _ O) g') by lia. rewrite (split_ld_super fs fs3) by done. specialize (A12 g' Hg'). unfold ext2fs_bg_free_blocks_count in A12. rewrite (desc_get_desc fs A1 g' Hg') in A12 by lia.
    assert (split_ld fs (desc fs3 g') 2 12 44 = split_ld fs (desc fs g') 2 12 44) as ->; [|exact A12]. destruct (decide (g' = g)) as [->|]; [by rewrite (og_desc _ _ _ _ O)|]. by rewrite (og_other _ _ _ _ O).
  - intros g' place' Hg'. change (ext2fs_group_desc_csum_verify place' (set_flags fs3 f) g') with (ext2fs_group_desc_csum_verify place' fs3 g'). destruct (decide (g' = g)) as [->|]; [done|]. rewrite (og_verify place' fs fs3 g d g') by done. by apply A14.
Qed.
Lemma clear_uninit_ok place a g : alloc_ok a → 0 <= g < group_desc_count (afs_fs a) → ∃ fs', ext2fs_clear_block_uninit place (afs_fs a) g = Ret fs' ∧ super fs' = super (afs_fs a) ∧ alloc_ok (Afs fs' (block_map a)).
Proof.
  intros Ha Hg. pose proof (ak_gdt _ Ha) as Hf. assert (alloc_ok (Afs (afs_fs a) (block_map a))) as Ha' by (by destruct a). unfold ext2fs_clear_block_uninit. bfalse. cbn [orb]. destruct (ext2fs_has_group_desc_csum (afs_fs a)); cbn [negb]; [|by exists (afs_fs a)].
  unfold ext2fs_bg_flags_test. rewrite (desc_ld_desc _ Hf g Hg) by (pose proof (size_32 _ Hf); lia). ostep. case_if; [by exists (afs_fs a)|].
  destruct (flags_clear_ok _ Hf g Hg EXT2_BG_BLOCK_UNINIT 12 44) as (fs2 & d2 & -> & O2 & V2); [lia..|]. ostep. destruct (og_super _ _ _ _ O2) as (Es2 & Ed2 & Ec2).
  destruct (csum_set_ok fs2 (og_ok _ _ _ _ O2) ltac:(rewrite Ed2; apply Ha) g ltac:(lia) place 12 44) as (fs3 & d3 & -> & O3 & V3 & C3); [lia..|]. ostep. destruct (og_super _ _ _ _ O3) as (Es3 & _). eexists. split; [done|]. split; [cbn; by rewrite Es3, Es2|].
  apply (alloc_ok_desc a fs3 g d3); [done..|by eapply only_group_trans| |done]. rewrite !(split_ld_super (afs_fs a) fs2) in V3 by done. by rewrite V3, (og_desc _ _ _ _ O2), V2.
Qed.
(** the goal that the search starts at *)
Definition from_goal a (goal : Z) : Z := if (goal =? 0) || (ext2fs_blocks_count (super (afs_fs a)) <=? goal) then s_first_data_block (super (afs_fs a)) else goal.
Definition nearest a (goal blk : Z) : Prop :=
  let first := s_first_data_block (super (afs_fs a)) in let goal := from_goal a goal in let count := ext2fs_blocks_count (super (afs_fs a)) in
  (goal <= blk ∧ ∀ j, goal <= j < blk → used a j = true) ∨ (blk < goal ∧ ∀ j, first <= j < blk ∨ goal <= j < count → used a j = true).
Definition found a (goal : Z) (blk : Z) : Prop :=
  s_first_data_block (super (afs_fs a)) <= blk < ext2fs_blocks_count (super (afs_fs a)) ∧ used a blk = false ∧ nearest a goal blk.
Lemma new_block_ok place a goal : alloc_ok a → 0 <= goal → goal = 0 ∨ s_first_data_block (super (afs_fs a)) <= goal →
  ∃ r, ext2fs_new_block3 place a goal = Ret r ∧
  match r with
  | inl e => e = EXT2_ET_BLOCK_ALLOC_FAIL ∧ ∀ j, s_first_data_block (super (afs_fs a)) <= j < ext2fs_blocks_count (super (afs_fs a)) → used a j = true
  | inr (blk, a') => found a goal blk ∧ alloc_ok a' ∧ super (afs_fs a') = super (afs_fs a) ∧ block_map a' = block_map a ∧ ∃ g, 0 <= g < group_desc_count (afs_fs a) ∧ ext2fs_clear_block_uninit place (afs_fs a) g = Ret (afs_fs a')
  end.
Proof.
  intros Ha Hg0 Hg. pose proof (ak_start _ Ha) as As. pose proof (ak_end _ Ha) as Ae. pose proof (geo_first _ (ak_geom _ Ha)) as Hf. unfold ext2fs_new_block3. fold (from_goal a goal). unfold EXT2FS_CLUSTER_RATIO. rewrite (ak_ratio _ Ha). cbn [Z.shiftl Z.sub Z.add Z.opp Z.pos_sub].
  change (Z.lnot 0) with (-1). rewrite Z.land_m1_r. set (first := s_first_data_block (super (afs_fs a))) in *. set (count := ext2fs_blocks_count (super (afs_fs a))) in *.
  assert (first <= from_goal a goal < count) as Hfg by (unfold from_goal; fold first count; destruct (goal =? 0) eqn:E1; cbn [orb]; [lia|]; destruct (count <=? goal) eqn:E2; breflect; lia).
  pose proof (blocks_max a Ha) as Hmax. fold count in Hmax. assert (count < 2 ^ 63) as Hmax' by (revert Hmax; case_match; lia). rewrite (u64_small (count - 1)) by lia.
  assert (∀ blk, first <= blk < count → used a blk = false → nearest a goal blk → ∃ r, (group ← ext2fs_group_of_blk2 (afs_fs a) blk; fs ← ext2fs_clear_block_uninit place (afs_fs a) group; Ret (inr (blk, Afs fs (block_map a)))) = Ret r ∧
    match r with inl e => e = EXT2_ET_BLOCK_ALLOC_FAIL ∧ ∀ j, first <= j < count → used a j = true | inr (blk, a') => found a goal blk ∧ alloc_ok a' ∧ super (afs_fs a') = super (afs_fs a) ∧ block_map a' = block_map a ∧ ∃ g, 0 <= g < group_desc_count (afs_fs a) ∧ ext2fs_clear_block_uninit place (afs_fs a) g = Ret (afs_fs a') end) as Hfin.
  { intros blk Hb Hu Hn. destruct (group_of_eq (afs_fs a) (ak_geom _ Ha) blk Hb) as [Eg Hgr]. rewrite Eg. ostep. destruct (clear_uninit_ok place a _ Ha Hgr) as (fs' & Ec & Es & Hok). rewrite Ec. ostep. eexists. split; [done|]. cbn beta iota. split_and!; try done. by eexists. }
  rewrite (find_zero_plain _ (from_goal a goal) (count - 1) (ak_map _ Ha) (ak_plain _ Ha)) by lia. ostep. pose proof (first_spec false (has_bit (block_map a)) (from_goal a goal) (count - 1) ltac:(lia)) as H1. destruct (Bitmap64.first false (has_bit (block_map a)) (from_goal a goal) (count - 1)) as [e|blk].
  - destruct H1 as [-> Hfull]. rewrite Z.eqb_refl. cbn [andb negb] in *. destruct (from_goal a goal =? first) eqn:Eq; cbn [negb]; breflect.
    + ostep. rewrite Z.eqb_refl. eexists. split; [done|]. split; [done|]. intros j Hj. apply Hfull. lia.
    + rewrite (u64_small (from_goal a goal - 1)) by lia. rewrite (find_zero_plain _ _ _ (ak_map _ Ha) (ak_plain _ Ha)) by lia. ostep. pose proof (first_spec false (has_bit (block_map a)) first (from_goal a goal - 1) ltac:(lia)) as H2.
      destruct (Bitmap64.first false (has_bit (block_map a)) first (from_goal a goal - 1)) as [e|blk]; cbn [negb] in H2.
      * destruct H2 as [-> Hfull2]. rewrite Z.eqb_refl. eexists. split; [done|]. split; [done|]. intros j Hj. destruct (decide (j < from_goal a goal)); [apply Hfull2; lia|apply Hfull; lia].
      * destruct H2 as (? & ? & Hbef). apply Hfin; [lia|done|]. right. split; [lia|]. intros j [Hj|Hj]; [apply Hbef; fold first in Hj; lia|apply Hfull; fold count in Hj; lia].
  - destruct H1 as (? & ? & Hbef). ostep. apply Hfin; [lia|done|]. left. split; [lia|]. exact Hbef.
Qed.
(** C32. Allocating a block: the block returned is free in the bitmap and the
    nearest free one from the goal on (from the first data block on if none
    follows the goal); it is marked, no other bit changes, and the invariant
    holds again.  The call fails exactly when every block is in use, or with the
    error of writing the zeros, and then no bit changes. *)
Theorem alloc_block_correct place zero a goal : alloc_ok a → 0 <= goal → goal = 0 ∨ s_first_data_block (super (afs_fs a)) <= goal →
  ∃ r a', ext2fs_alloc_block3 place zero a goal = Ret (r, a') ∧ alloc_ok a' ∧
  match r with
  | inr blk => found a goal blk ∧ zero blk = 0 ∧ ∀ j, s_first_data_block (super (afs_fs a)) <= j < ext2fs_blocks_count (super (afs_fs a)) → used a' j = bool_decide (j = blk) || used a j
  | inl e => (∀ j, used a' j = used a j) ∧
    (e = EXT2_ET_BLOCK_ALLOC_FAIL ∧ (∀ j, s_first_data_block (super (afs_fs a)) <= j < ext2fs_blocks_count (super (afs_fs a)) → used a j = true) ∨
     ∃ blk, found a goal blk ∧ e = zero blk ∧ zero blk ≠ 0)
  end.
Proof.
  intros Ha Hg0 Hg. destruct (new_block_ok place a goal Ha Hg0 Hg) as (r & E & Hr). unfold ext2fs_alloc_block3. rewrite E. ostep. destruct r as [e|[blk a1]].
  - exists (inl e), a. split; [done|]. split; [done|]. split; [done|]. by left.
  - destruct Hr as (Hf & Ha1 & Es & Em & _). case_if.
    + destruct (block_alloc_stats_ok place a1 blk 1 Ha1) as (a2 & -> & Ha2 & _ & Hu); [rewrite Es; apply Hf|left; split; [done|]; unfold used; rewrite Em; apply Hf|]. ostep. exists (inr blk), a2. split; [done|]. split; [done|]. split; [done|]. split; [done|].
      intros j Hj. rewrite Es in Hu. rewrite Hu by done. unfold used. rewrite Em. by case_bool_decide.
    + exists (inl (zero blk)), a1. split; [done|]. split; [done|]. split; [intros j; unfold used; by rewrite Em|]. right. by exists blk.
Qed.
(** ** Any sequence of allocations and frees *)
Inductive alloc_step (place : Z → list Z → Z) : afs P → afs P → Prop :=
| step_alloc a zero goal r a' : 0 <= goal → goal = 0 ∨ s_first_data_block (super (afs_fs a)) <= goal →
    ext2fs_alloc_block3 place zero a goal = Ret (r, a') → alloc_step place a a'
| step_free a blk a' : s_first_data_block (super (afs_fs a)) <= blk < ext2fs_blocks_count (super (afs_fs a)) → used a blk = true →
    ext2fs_block_alloc_stats2 place a blk (-1) = Ret a' → alloc_step place a a'.
Lemma alloc_step_ok place a a' : alloc_ok a → alloc_step place a a' → alloc_ok a'.
Proof.
  intros Ha Hs. destruct Hs as [a zero goal r a' Hg0 Hg E|a blk a' Hb Hu E].
  - destruct (new_block_ok place a goal Ha Hg0 Hg) as (x & En & Hx). unfold ext2fs_alloc_block3 in E. rewrite En in E. revert E. ostep. destruct x as [e|[blk a1]]; [intros [= <- <-]; done|]. destruct Hx as (Hf & Ha1 & Es & Em & _). case_if; [|intros [= <- <-]; done].
    destruct (block_alloc_stats_ok place a1 blk 1 Ha1) as (a2 & -> & Ha2 & _); [rewrite Es; apply Hf|left; split; [done|]; unfold used; rewrite Em; apply Hf|]. ostep. intros [= <- <-]. done.
  - destruct (block_alloc_stats_ok place a blk (-1) Ha Hb ltac:(by right)) as (a2 & E2 & Ha2 & _). rewrite E in E2. by injection E2 as <-.
Qed.
(** C33. In every state that allocations and frees can reach, the free counts
    of every group and of the superblock are the numbers of free blocks in the
    bitmap, and every group descriptor has a valid checksum; freeing a used
    block never fails there. *)
Theorem alloc_reachable_ok place a a' : alloc_ok a → rtc (alloc_step place) a a' →
  let fs := afs_fs a' in
  ext2fs_free_blocks_count (super fs) = free a' (s_first_data_block (super fs)) (ext2fs_blocks_count (super fs) - 1) ∧
  (∀ g, 0 <= g < group_desc_count fs → ext2fs_bg_free_blocks_count fs g = Ret (free a' (ext2fs_group_first_block2 fs g) (ext2fs_group_last_block2 fs g)) ∧ ∀ place', ext2fs_group_desc_csum_verify place' fs g = Ret true) ∧
  ∀ blk, s_first_data_block (super fs) <= blk < ext2fs_blocks_count (super fs) → used a' blk = true → ∃ a'', ext2fs_block_alloc_stats2 place a' blk (-1) = Ret a''.
Proof.
  intros Ha Hr. assert (alloc_ok a') as Ha' by (induction Hr as [|a b c Hs _ IH]; [done|]; apply IH; by eapply alloc_step_ok). cbv zeta. split; [apply Ha'|]. split; [intros g Hg; split; [by apply Ha'|intros; by apply Ha']|].
  intros blk Hb Hu. destruct (block_alloc_stats_ok place a' blk (-1) Ha' Hb ltac:(by right)) as (a'' & E & _). by exists a''.
Qed.
End invariant.

Definition anyplace : Z → list Z → Z := λ _ _, 0.
(** ** A file system of 40 blocks in three groups, the first four in use *)
Definition small_super : list Z := st 4 (st 4 (st 4 (st 4 (replicate 1024 0) 0x04 41) 0x0C 36) 0x14 1) 0x20 16.
Definition small_gdt : list Z := st 2 (st 2 (st 2 (replicate 96 0) 12 12) 44 16) 76 8.
Definition small_fs : filsys := Filsys small_super 0 0 1024 3 small_gdt 1 16 0.
Definition small_map : gbm ba := Gbm BLOCK_BITMAP64 1 40 40 0 [0x0F; 0; 0; 0; 0].
Definition small : afs ba := Afs small_fs small_map.
Notation small_ops := (ext2fs_blkmap64_bitarray 0x1000).
Lemma small_ok : alloc_ok (ops := small_ops) (laws := BitArray.ba_laws 0x1000) small.
Proof.
  assert (bytes small_super) as Hb by (repeat apply bytes_st; apply Forall_replicate; done). assert (bytes small_gdt) as Hd by (repeat apply bytes_st; apply Forall_replicate; done).
  assert (∀ g, 0 <= g < 3 → g = 0 ∨ g = 1 ∨ g = 2) as H3 by lia. split.
  - split; [done|done|vm_compute; discriminate|vm_compute; discriminate|done|done].
  - split; vm_compute; repeat split; discriminate.
  - cbn. lia.
  - done.
  - done.
  - done.
  - done.
  - change (BitArray.ba_ok small_map). split; cbn [start end_ real_end cluster_bits private small_map]; [lia..| |done]. by repeat constructor.
  - done.
  - done.
  - done.
  - intros g Hg. destruct (H3 g Hg) as [->|[->| ->]]; vm_compute; reflexivity.
  - vm_compute. reflexivity.
  - intros g place _. unfold ext2fs_group_desc_csum_verify. by replace (ext2fs_has_group_desc_csum (afs_fs small)) with false by (vm_compute; reflexivity).
Qed.
Lemma small_bounds : s_first_data_block (super (afs_fs small)) = 1 ∧ ext2fs_blocks_count (super (afs_fs small)) = 41.
Proof. split; vm_compute; reflexivity. Qed.
Lemma small_goal : from_goal small 3 = 3.
Proof. unfold from_goal. destruct small_bounds as [-> ->]. done. Qed.
(** the nearest free block from block 3 on is block 5 *)
Lemma alloc_block_correct_witness : ∃ blk a', ext2fs_alloc_block3 (ops := small_ops) anyplace (λ _, 0) small 3 = Ret (inr blk, a') ∧ blk = 5 ∧ used (laws := BitArray.ba_laws 0x1000) a' 5 = true.
Proof.
  pose proof (alloc_block_correct (ops := small_ops) (laws := BitArray.ba_laws 0x1000) anyplace (λ _, 0) small 3 small_ok ltac:(lia)) as H. unfold found, nearest in H. rewrite small_goal in H. destruct small_bounds as [E1 E2]. rewrite E1, E2 in H.
  destruct (H ltac:(right; lia)) as (r & a' & E & _ & Hr). clear H. destruct r as [e|blk].
  - exfalso. destruct Hr as [_ [[_ Hr]|(blk & _ & _ & Hr)]]; [|exact (Hr eq_refl)]. specialize (Hr 5 ltac:(lia)). discriminate Hr.
  - destruct Hr as ((Hb & Hfree & Hn) & _ & Hu). exists blk, a'. split; [exact E|]. assert (blk = 5) as ->; [|split; [done|by rewrite Hu by lia]]. destruct Hn as [[Hle Hn]|[Hlt Hn]].
    + destruct (decide (5 < blk)); [specialize (Hn 5 ltac:(lia)); discriminate Hn|]. destruct (decide (blk = 3)) as [->|]; [discriminate Hfree|]. destruct (decide (blk = 4)) as [->|]; [discriminate Hfree|]. lia.
    + specialize (Hn 5 ltac:(lia)). discriminate Hn.
Defined.
Lemma alloc_reachable_ok_witness : ∃ a', ext2fs_block_alloc_stats2 (ops := small_ops) anyplace small 2 (-1) = Ret a' ∧
  ext2fs_free_blocks_count (super (afs_fs a')) = free (laws := BitArray.ba_laws 0x1000) a' (s_first_data_block (super (afs_fs a'))) (ext2fs_blocks_count (super (afs_fs a')) - 1).
Proof.
  destruct small_bounds as [E1 E2]. destruct (alloc_reachable_ok (laws := BitArray.ba_laws 0x1000) anyplace small small small_ok (rtc_refl _ _)) as (_ & _ & Hf). rewrite E1, E2 in Hf. destruct (Hf 2 ltac:(lia) eq_refl) as (a' & E). exists a'. split; [exact E|].
  assert (alloc_step (ops := small_ops) (laws := BitArray.ba_laws 0x1000) anyplace small a') as Hs by (apply (step_free (laws := BitArray.ba_laws 0x1000) anyplace small 2 a'); [rewrite E1, E2; lia|exact eq_refl|exact E]).
  destruct (alloc_reachable_ok (laws := BitArray.ba_laws 0x1000) anyplace small a' small_ok (rtc_once _ _ Hs)) as (Ht & _). exact Ht.
Defined.
End Alloc.
