(* ===== verification/InodeAlloc.v ===== *)
(** Allocation of inodes in the vendored e2fsprogs library
    (kernel/fs/lib/ext2fs/alloc.c, alloc_stats.c): the search for a free inode
    from the group of a directory on, groups whose part of the inode bitmap is
    not initialised, and the bookkeeping of inodes that come into use or are
    freed: the counts of free inodes, of directories and of the unused end of
    the inode table.

    [inode_ok] is the invariant of the inode side, as [alloc_ok] (Alloc.v) is
    that of the block side.  The two sides share the group descriptors, their
    flags and checksums and the superblock: any sequence of operations of both
    keeps both invariants.  [dirs] is the set of inodes that are directories,
    which the file system does not keep in one place. *)
From stdpp Require Import base numbers list relations.
From S2P Require Import Prelude Bitmap Bitops Blknum Csum Groups Bitmap64 BitArray Alloc.
Open Scope Z_scope.

Module InodeAlloc.
Import Blknum Csum Groups Bitmap64 Alloc.
Definition EXT2_ET_INODE_ALLOC_FAIL : Z := 2133571401.
Definition s_inodes_count (s : list Z) : Z := ld 4 s 0x00.
Definition s_free_inodes_count (s : list Z) : Z := ld 4 s 0x10.
Definition s_first_ino (s : list Z) : Z := ld 4 s 0x54.
Definition EXT2_FIRST_INODE (s : list Z) : Z := if s_rev_level s =? 0 then 11 else s_first_ino s.
(** a file system and its inode bitmap *)
Record ifs (P : Type) := Ifs { ifs_fs : filsys; inode_map : gbm P }.
Arguments Ifs {P}. Arguments ifs_fs {P}. Arguments inode_map {P}.
Definition ext2fs_mark_ib_dirty (fs : filsys) : filsys := set_flags fs (Z.lor (flags fs) 0x12).
(** an unsigned division; by zero it is undefined *)
Definition udiv (x y : Z) : outcome Z := if y =? 0 then Undef else Ret (x / y).
Definition ext2fs_group_of_ino (fs : filsys) (ino : Z) : outcome Z := udiv (u32 (ino - 1)) (s_inodes_per_group (super fs)).
Section inode.
Context {P : Type} {ops : BitmapOps P} (place : Z → list Z → Z).
Fixpoint unmark_inodes (map : gbm P) (ino : Z) (n : nat) : outcome (gbm P) :=
  match n with
  | O => Ret map
  | S n => r ← ext2fs_unmark_generic_bmap map ino; unmark_inodes r.2 (u32 (ino + 1)) n
  end.
Definition check_inode_uninit (i : ifs P) (group : Z) : outcome (ifs P) :=
  let fs := ifs_fs i in
  if (group_desc_count fs <=? group) || negb (ext2fs_has_group_desc_csum fs) then Ret i else
  t ← ext2fs_bg_flags_test fs group EXT2_BG_INODE_UNINIT;
  if t =? 0 then Ret i else
  let ipg := s_inodes_per_group (super fs) in
  map ← unmark_inodes (inode_map i) (u32 (group * ipg + 1)) (Z.to_nat ipg);
  fs ← ext2fs_bg_flags_clear fs group EXT2_BG_INODE_UNINIT;
  fs ← ext2fs_bg_flags_clear fs group EXT2_BG_BLOCK_UNINIT;
  fs ← ext2fs_group_desc_csum_set place fs group;
  Ret (Ifs (ext2fs_mark_super_dirty (ext2fs_mark_ib_dirty fs)) map).
(** the search from inode [c] on: the inode where it stopped, or an error *)
Fixpoint new_inode_loop (fuel : nat) (i : ifs P) (start_inode c : Z) : outcome ((Z + Z) * ifs P) :=
  match fuel with
  | O => Loop
  | S fuel =>
    let sb := super (ifs_fs i) in
    let ipg := s_inodes_per_group sb in
    group ← udiv (u32 (c - 1)) ipg;
    let ino_in_group := u32 (c - 1) mod ipg in
    i ← check_inode_uninit i group;
    let upto := u32 (c + (ipg - ino_in_group)) in
    let upto := if (c <? start_inode) && (start_inode <=? upto) then u32 (start_inode - 1) else upto in
    let upto := if s_inodes_count sb <? upto then s_inodes_count sb else upto in
    r ← ext2fs_find_first_zero_generic_bmap (inode_map i) c upto;
    match r with
    | inr first_zero => Ret (inr (u32 first_zero), i)
    | inl e =>
      if negb (e =? ENOENT) then Ret (inl EXT2_ET_INODE_ALLOC_FAIL, i) else
      let c := u32 (upto + 1) in
      let c := if s_inodes_count sb <? c then EXT2_FIRST_INODE sb else c in
      if c =? start_inode then Ret (inr c, i) else new_inode_loop fuel i start_inode c
    end
  end.
Definition ext2fs_new_inode (i : ifs P) (dir : Z) : outcome ((Z + Z) * ifs P) :=
  let sb := super (ifs_fs i) in
  let ipg := s_inodes_per_group sb in
  start_inode ← (if 0 <? dir then group ← udiv (u32 (dir - 1)) ipg; Ret (u32 (group * ipg + 1)) else Ret 0);
  let start_inode := if start_inode <? EXT2_FIRST_INODE sb then EXT2_FIRST_INODE sb else start_inode in
  if s_inodes_count sb <? start_inode then Ret (inl EXT2_ET_INODE_ALLOC_FAIL, i) else
  r ← new_inode_loop (S (Z.to_nat (s_inodes_count sb))) i start_inode start_inode;
  match r with
  | (inl e, i) => Ret (inl e, i)
  | (inr c, i) => t ← ext2fs_test_generic_bmap (inode_map i) c; Ret (if t =? 0 then inr c else inl EXT2_ET_INODE_ALLOC_FAIL, i)
  end.
Definition ext2fs_inode_alloc_stats2 (i : ifs P) (ino inuse : Z) (isdir : bool) : outcome (ifs P) :=
  let fs := ifs_fs i in
  let ipg := s_inodes_per_group (super fs) in
  group ← ext2fs_group_of_ino fs ino;
  if s_inodes_count (super fs) <? ino then Ret i else
  (if 0 <? inuse then ext2fs_mark_generic_bmap (inode_map i) ino else ext2fs_unmark_generic_bmap (inode_map i) ino) ≫= λ m : Z * gbm P,
  free ← ext2fs_bg_free_inodes_count fs group;
  fs ← ext2fs_bg_free_inodes_count_set fs group (u32 (free - inuse));
  fs ← (if isdir then n ← ext2fs_bg_used_dirs_count fs group; ext2fs_bg_used_dirs_count_set fs group (u32 (n + inuse)) else Ret fs);
  fs ← ext2fs_bg_flags_clear fs group EXT2_BG_INODE_UNINIT;
  fs ← (if ext2fs_has_group_desc_csum fs then
          unused ← ext2fs_bg_itable_unused fs group;
          let first_unused_inode := u32 (ipg - unused + group * ipg + 1) in
          fs ← (if first_unused_inode <=? ino then ext2fs_bg_itable_unused_set fs group (u32 (group * ipg + ipg - ino)) else Ret fs);
          ext2fs_group_desc_csum_set place fs group
        else Ret fs);
  let fs := set_super fs (st 4 (super fs) 0x10 (u32 (s_free_inodes_count (super fs) - inuse))) in
  Ret (Ifs (ext2fs_mark_ib_dirty (ext2fs_mark_super_dirty fs)) m.2).
Definition ext2fs_inode_alloc_stats (i : ifs P) (ino inuse : Z) : outcome (ifs P) := ext2fs_inode_alloc_stats2 i ino inuse false.
End inode.

(** ** What a group descriptor shows: its fields and its flags *)
Definition upd (φ : gfield → Z) (f : gfield) (v : Z) (f' : gfield) : Z := if decide (f' = f) then v else φ f'.
Definition gview (fs : filsys) (g : Z) (φ : gfield → Z) (fl : Z) : Prop := (∀ f, group_get f fs g = Ret (φ f)) ∧ ext2fs_bg_flags fs g = Ret fl.
Definition field (fs : filsys) (d : list Z) (f : gfield) : Z := split_ld fs d (gf_half f) (gf_lo f) (gf_hi f).
Lemma gview_desc fs g : gdt_ok fs → 0 <= g < group_desc_count fs → gview fs g (field fs (desc fs g)) (ld 2 (desc fs g) 18).
Proof.
  intros Hf Hg. pose proof (size_32 fs Hf). split; [|apply desc_ld_desc; [done..|lia|lia]]. intros f. destruct (gf_bounds f) as (? & ? & ? & ?). rewrite group_get_eq. by apply desc_get_desc; [| |lia|lia|lia|lia].
Qed.
Lemma gview_eq fs g φ fl φ' fl' : gview fs g φ fl → gview fs g φ' fl' → (∀ f, φ' f = φ f) ∧ fl' = fl.
Proof. intros [H1 H2] [H3 H4]. split; [|congruence]. intros f. specialize (H1 f). specialize (H3 f). congruence. Qed.
Lemma gview_ext fs g φ φ' fl : gview fs g φ fl → (∀ f, φ' f = φ f) → gview fs g φ' fl.
Proof. intros [H1 H2] E. split; [|done]. intros f. by rewrite E. Qed.
Lemma split_st_any fs d f off v : Z.of_nat (length d) = EXT2_DESC_SIZE (super fs) → (if ext2fs_has_feature_64bit (super fs) then 64 else 32) <= EXT2_DESC_SIZE (super fs) →
  off = 18 ∨ off = 30 → field fs (st 2 d off v) f = field fs d f.
Proof.
  intros Hl Hz Ho. unfold field, split_ld. assert (32 <= Z.of_nat (length d)) by (rewrite Hl; case_match; lia). destruct (ext2fs_has_feature_64bit _); rewrite !ld_st_other; try done; destruct f, Ho as [->| ->]; cbn; lia.
Qed.
Lemma land_mod_small x y n : 0 <= n → 0 <= x < 2 ^ n → Z.land x y mod 2 ^ n = Z.land x y.
Proof. intros Hn Hx. rewrite <-Z.land_ones by done. rewrite <-Z.land_assoc, (Z.land_comm y), Z.land_assoc, Z.land_ones by done. by rewrite (Z.mod_small x). Qed.
Section views.
Context (fs : filsys) (Hf : gdt_ok fs) (g : Z) (Hg : 0 <= g < group_desc_count fs) (φ : gfield → Z) (fl : Z) (Hv : gview fs g φ fl).
Lemma view_other fs' d g' φ' fl' : only_group fs fs' g d → 0 <= g' < group_desc_count fs → g' ≠ g → gview fs g' φ' fl' → gview fs' g' φ' fl'.
Proof.
  intros O Hg' Hn V. destruct (og_super _ _ _ _ O) as (Es & _ & Ec). destruct (gview_eq _ _ _ _ _ _ V (gview_desc fs g' Hf Hg')) as [E1 <-].
  pose proof (gview_desc fs' g' (og_ok _ _ _ _ O) ltac:(by rewrite Ec)) as V'. rewrite (og_other _ _ _ _ O) in V' by done. apply (gview_ext _ _ _ _ _ V'). intros f. rewrite <-E1. unfold field. by apply split_ld_super.
Qed.
(** a store of the flags or the checksum *)
Lemma view_st fs' off v : off = 18 ∨ off = 30 → only_group fs fs' g (st 2 (desc fs g) off v) → gview fs' g φ (if off =? 18 then v mod 2 ^ 16 else fl).
Proof.
  intros Ho O. destruct (og_super _ _ _ _ O) as (Es & _ & Ec). destruct (gview_eq _ _ _ _ _ _ Hv (gview_desc fs g Hf Hg)) as [E1 <-]. pose proof (size_32 fs Hf). pose proof (length_desc fs Hf g Hg) as Hl.
  pose proof (gview_desc fs' g (og_ok _ _ _ _ O) ltac:(by rewrite Ec)) as V'. rewrite (og_desc _ _ _ _ O) in V'. assert (ld 2 (st 2 (desc fs g) off v) 18 = if off =? 18 then v mod 2 ^ 16 else ld 2 (desc fs g) 18) as E18.
  { destruct Ho as [->| ->]; cbn; [by apply ld_st_same; lia|by apply ld_st_other; lia]. }
  rewrite E18 in V'. apply (gview_ext _ _ _ _ _ V'). intros f. rewrite <-E1. unfold field. rewrite (split_ld_super fs fs') by done. symmetry. apply split_st_any; [done|apply Hf|done].
Qed.
Lemma desc_set_og n lo hi v : 0 <= lo → lo + Z.of_nat n <= 32 → 32 <= hi → hi + Z.of_nat n <= 64 → ∃ fs' d, desc_set n fs g lo hi v = Ret fs' ∧ only_group fs fs' g d.
Proof.
  intros. pose proof (size_32 fs Hf). pose proof (gk_size _ Hf) as Hz. unfold desc_set. destruct (desc_st_desc fs Hf g Hg n lo v) as (fs1 & E1 & O1); [lia..|]. rewrite E1. ostep. destruct (og_super _ _ _ _ O1) as (Es & _ & Ec). rewrite Es. case_match; [|eauto].
  destruct (desc_st_desc fs1 (og_ok _ _ _ _ O1) g ltac:(by rewrite Ec) n hi (Z.shiftr v (8 * Z.of_nat n))) as (fs2 & E2 & O2); [lia|rewrite Es; lia|]. exists fs2. eexists. split; [done|]. by eapply only_group_trans.
Qed.
(** a store of a field; without the 64bit feature the high half is lost *)
Lemma view_set_wide f v : gf_half f = 2%nat → 0 <= v < 2 ^ 32 → ∃ fs' d, group_set f fs g v = Ret fs' ∧ only_group fs fs' g d ∧ gview fs' g (upd φ f (if ext2fs_has_feature_64bit (super fs) then v else v mod 2 ^ 16)) fl.
Proof.
  intros Hh Hr. destruct (gf_bounds f) as (B1 & B2 & B3 & B4). destruct (desc_set_og (gf_half f) (gf_lo f) (gf_hi f) v) as (fs' & d & E & O); [done..|]. exists fs', d. rewrite group_set_eq. split; [done|]. split; [done|].
  destruct (group_field_roundtrip fs f g v Hf Hg) as (fs2 & E2 & _ & _ & G1 & G2 & G3); [rewrite Hh; cbn; lia|]. rewrite group_set_eq, E in E2. injection E2 as <-. destruct Hv as [V1 V2]. split; [|rewrite (proj1 (G3 g Hg)); done].
  intros f'. unfold upd. destruct (decide (f' = f)) as [->|Hn]; [|rewrite G2 by (by (done || left)); apply V1]. rewrite G1, Hh. done.
Qed.
Lemma view_set f v : gf_half f = 2%nat → 0 <= v < 2 ^ 16 → ∃ fs' d, group_set f fs g v = Ret fs' ∧ only_group fs fs' g d ∧ gview fs' g (upd φ f v) fl.
Proof. intros Hh Hr. destruct (view_set_wide f v Hh ltac:(lia)) as (fs' & d & E & O & V). exists fs', d. rewrite Z.mod_small in V by done. split; [done|]. split; [done|]. by destruct (ext2fs_has_feature_64bit _). Qed.
Lemma view_clear m : ∃ fs' d, ext2fs_bg_flags_clear fs g m = Ret fs' ∧ only_group fs fs' g d ∧ gview fs' g φ (Z.land fl (Z.lnot m)).
Proof.
  destruct Hv as [V1 V2]. pose proof (size_32 fs Hf). unfold ext2fs_bg_flags_clear. unfold ext2fs_bg_flags in V2. pose proof (desc_ld_desc fs Hf g Hg 2 18 ltac:(lia) ltac:(lia)) as El. rewrite V2 in El. injection El as El. rewrite V2. ostep.
  destruct (desc_st_desc fs Hf g Hg 2 18 (Z.land fl (Z.lnot m))) as (fs' & E & O); [lia|lia|]. exists fs', (st 2 (desc fs g) 18 (Z.land fl (Z.lnot m))). split; [done|]. split; [done|].
  assert (0 <= fl < 2 ^ 16) as Hr by (rewrite El; apply (ld_range 2); [by apply bytes_desc|lia|rewrite (length_desc fs Hf g Hg); lia]).
  pose proof (view_st fs' 18 _ ltac:(by left) O) as V. cbn [Z.eqb Pos.eqb] in V. by rewrite (land_mod_small fl) in V by lia.
Qed.
Lemma view_csum place : 0 <= csum_seed fs < 2 ^ 32 → ∃ fs' d, ext2fs_group_desc_csum_set place fs g = Ret fs' ∧ only_group fs fs' g d ∧ gview fs' g φ fl ∧ ∀ place', ext2fs_group_desc_csum_verify place' fs' g = Ret true.
Proof.
  intros Hs. destruct (ext2fs_has_group_desc_csum fs) eqn:Hh.
  - destruct (group_csum_set_ok place place fs g Hf Hg Hs Hh) as (fs' & E & O & _). exists fs'. eexists. split; [exact E|]. split; [exact O|]. split; [exact (view_st fs' 30 _ ltac:(by right) O)|].
    intros place'. destruct (group_csum_set_ok place place' fs g Hf Hg Hs Hh) as (fs2 & E2 & _ & V). congruence.
  - exists fs, (desc fs g). unfold ext2fs_group_desc_csum_set. rewrite Hh. split; [done|]. split; [by apply only_group_refl|]. split; [done|]. intros. unfold ext2fs_group_desc_csum_verify. by rewrite Hh.
Qed.
End views.

(** ** What an operation leaves alone *)
Lemma same_sb_refl s : same_sb s s.
Proof. by split. Qed.
Lemma same_sb_trans s1 s2 s3 : same_sb s1 s2 → same_sb s2 s3 → same_sb s1 s3.
Proof.
  intros [A1 A2 A3 A4] [B1 B2 B3 B4]. split; [congruence|auto|congruence|]. intros k p ? ? ?. rewrite B4 by done. by apply A4.
Qed.
(** the fields [keep], the flags in [mask] and the fixed part of the superblock *)
Record frame (keep : gfield → Prop) (mask : Z) (fs fs' : filsys) : Prop := {
  fr_gdt : gdt_ok fs';
  fr_seed : csum_seed fs' = csum_seed fs;
  fr_count : group_desc_count fs' = group_desc_count fs;
  fr_ratio : cluster_ratio_bits fs' = cluster_ratio_bits fs;
  fr_super : same_sb (super fs) (super fs');
  fr_view g φ fl : 0 <= g < group_desc_count fs → gview fs g φ fl → ∃ φ' fl', gview fs' g φ' fl' ∧ (∀ f, keep f → φ' f = φ f) ∧ Z.land fl' mask = Z.land fl mask
}.
Lemma frame_trans keep mask fs fs1 fs2 : frame keep mask fs fs1 → frame keep mask fs1 fs2 → frame keep mask fs fs2.
Proof.
  intros [A1 A2 A3 A4 A5 A6] [B1 B2 B3 B4 B5 B6]. split; [done|congruence..|by eapply same_sb_trans|]. intros g φ fl Hg V. destruct (A6 g φ fl Hg V) as (φ1 & fl1 & V1 & K1 & M1). rewrite <-A3 in Hg. destruct (B6 g φ1 fl1 Hg V1) as (φ2 & fl2 & V2 & K2 & M2).
  exists φ2, fl2. split; [done|]. split; [|congruence]. intros f Hk. rewrite K2 by done. by apply K1.
Qed.
Lemma frame_refl keep mask fs : gdt_ok fs → frame keep mask fs fs.
Proof. intros Hf. split; [done..|apply same_sb_refl|]. intros g φ fl _ V. by exists φ, fl. Qed.
Lemma frame_flags keep mask fs f : gdt_ok fs → frame keep mask fs (set_flags fs f).
Proof. intros Hf. split; [by destruct Hf; split|done..|apply same_sb_refl|]. intros g φ fl _ V. exists φ, fl. split; [|done]. destruct V as [V1 V2]. split; [|exact V2]. intros f'. rewrite <-V1. by destruct f'. Qed.
Lemma frame_set_super keep mask fs s' : gdt_ok fs → same_sb (super fs) s' → frame keep mask fs (set_super fs s').
Proof.
  intros Hf Hs. split; [by apply same_gdt_ok|done..|]. intros g φ fl Hg [V1 V2]. exists φ, fl. split; [|done]. split.
  - intros f. destruct (gf_bounds f) as (? & ? & ? & ?). rewrite <-V1, !group_get_eq. apply same_get; [done..|lia|lia|lia|lia].
  - rewrite <-V2. unfold ext2fs_bg_flags. pose proof (size_32 fs Hf). pose proof (same_gdt_ok fs s' Hs Hf) as Hf'. pose proof (size_32 _ Hf'). rewrite (desc_ld_desc fs Hf g Hg), (desc_ld_desc _ Hf' g Hg) by lia. by rewrite same_desc.
Qed.
Lemma frame_og (keep : gfield → Prop) mask fs fs' g d φ fl φ' fl' : gdt_ok fs → gview fs g φ fl → only_group fs fs' g d → gview fs' g φ' fl' →
  (∀ f, keep f → φ' f = φ f) → Z.land fl' mask = Z.land fl mask → frame keep mask fs fs'.
Proof.
  intros Hf V O V' Hk Hm. destruct (og_super _ _ _ _ O) as (Es & Ed & Ec). split; [apply O|done|done|by rewrite (og_fs _ _ _ _ O)|rewrite Es; apply same_sb_refl|].
  intros g' φ1 fl1 Hg' V1. destruct (decide (g' = g)) as [->|Hn].
  - destruct (gview_eq _ _ _ _ _ _ V V1) as [E1 ->]. exists φ', fl'. split; [done|]. split; [|done]. intros f Hf'. rewrite E1. by apply Hk.
  - exists φ1, fl1. split; [|done]. by eapply view_other.
Qed.
Definition block_field (f : gfield) : Prop := f = GFreeBlocks.
Definition inode_field (f : gfield) : Prop := f = GFreeInodes ∨ f = GUsedDirs ∨ f = GItableUnused.

(** ** The invariant of the inode side *)
(** the first and the last inode of a group *)
Definition ino_lo (fs : filsys) (g : Z) : Z := g * s_inodes_per_group (super fs) + 1.
Definition ino_hi (fs : filsys) (g : Z) : Z := g * s_inodes_per_group (super fs) + s_inodes_per_group (super fs).
Record igroup (bit dirs : Z → bool) (fs : filsys) (g : Z) (φ : gfield → Z) (fl : Z) : Prop := {
  ig_free : φ GFreeInodes = s_inodes_per_group (super fs) - ones bit (ino_lo fs g) (ino_hi fs g);
  ig_dirs : φ GUsedDirs = ones dirs (ino_lo fs g) (ino_hi fs g);
  ig_range : ext2fs_has_group_desc_csum fs = true → 0 <= φ GItableUnused <= s_inodes_per_group (super fs);
  ig_unused : ext2fs_has_group_desc_csum fs = true → ∀ j, ino_hi fs g - φ GItableUnused < j <= ino_hi fs g → bit j = false;
  ig_uninit : ext2fs_has_group_desc_csum fs = true → Z.land fl EXT2_BG_INODE_UNINIT ≠ 0 → ∀ j, ino_lo fs g <= j <= ino_hi fs g → bit j = false
}.
Section invariant.
Context {P : Type} {ops : BitmapOps P} {laws : BitmapLaws P}.
Implicit Types (i : ifs P) (dirs : Z → bool).
Definition taken i (j : Z) : bool := has_bit (inode_map i) j.
Record inode_ok dirs i : Prop := {
  ik_gdt : gdt_ok (ifs_fs i);
  ik_seed : 0 <= csum_seed (ifs_fs i) < 2 ^ 32;
  ik_length : length (super (ifs_fs i)) = 1024%nat;
  ik_bytes : bytes (super (ifs_fs i));
  ik_ipg : 0 < s_inodes_per_group (super (ifs_fs i)) < 2 ^ 16;
  ik_count : s_inodes_count (super (ifs_fs i)) = group_desc_count (ifs_fs i) * s_inodes_per_group (super (ifs_fs i));
  ik_small : s_inodes_count (super (ifs_fs i)) + s_inodes_per_group (super (ifs_fs i)) < 2 ^ 32;
  ik_first : 1 <= EXT2_FIRST_INODE (super (ifs_fs i)) <= s_inodes_count (super (ifs_fs i));
  ik_map : bm_ok (inode_map i);
  ik_plain : cluster_bits (inode_map i) = 0;
  ik_start : start (inode_map i) = 1;
  ik_end : end_ (inode_map i) = s_inodes_count (super (ifs_fs i));
  ik_groups g : 0 <= g < group_desc_count (ifs_fs i) → ∃ φ fl, gview (ifs_fs i) g φ fl ∧ igroup (taken i) dirs (ifs_fs i) g φ fl;
  ik_total : s_free_inodes_count (super (ifs_fs i)) = s_inodes_count (super (ifs_fs i)) - ones (taken i) 1 (s_inodes_count (super (ifs_fs i)));
  ik_dirs j : 1 <= j <= s_inodes_count (super (ifs_fs i)) → dirs j = true → taken i j = true;
  ik_csum g place : 0 <= g < group_desc_count (ifs_fs i) → ext2fs_group_desc_csum_verify place (ifs_fs i) g = Ret true
}.
Lemma same_inode_fields s s' : same_sb s s' → s_inodes_count s' = s_inodes_count s ∧ s_inodes_per_group s' = s_inodes_per_group s ∧ EXT2_FIRST_INODE s' = EXT2_FIRST_INODE s ∧ s_feature_ro_compat s' = s_feature_ro_compat s.
Proof. intros Hs. unfold s_inodes_count, s_inodes_per_group, EXT2_FIRST_INODE, s_rev_level, s_first_ino, s_feature_ro_compat. by rewrite !(ss_ld _ _ Hs) by lia. Qed.
Lemma igroup_ext bit bit' dirs fs fs' g φ φ' fl fl' : s_inodes_per_group (super fs') = s_inodes_per_group (super fs) → s_feature_ro_compat (super fs') = s_feature_ro_compat (super fs) → (∀ j, ino_lo fs g <= j <= ino_hi fs g → bit' j = bit j) →
  (∀ f, inode_field f → φ' f = φ f) → (Z.land fl' EXT2_BG_INODE_UNINIT ≠ 0 → Z.land fl EXT2_BG_INODE_UNINIT ≠ 0) → igroup bit dirs fs g φ fl → igroup bit' dirs fs' g φ' fl'.
Proof.
  intros Ei Er Hb Hk Hm [H1 H2 H3 H4 H5]. assert (ino_lo fs' g = ino_lo fs g) as El by (unfold ino_lo; by rewrite Ei). assert (ino_hi fs' g = ino_hi fs g) as Eh by (unfold ino_hi; by rewrite Ei).
  assert (ext2fs_has_group_desc_csum fs' = ext2fs_has_group_desc_csum fs) as Ec by (unfold ext2fs_has_group_desc_csum, ext2fs_has_feature_metadata_csum, ext2fs_has_feature_gdt_csum; by rewrite Er).
  assert (φ' GItableUnused = φ GItableUnused) as Eu by (apply Hk; unfold inode_field; tauto). split; rewrite ?El, ?Eh, ?Ei, ?Ec, ?Eu.
  - rewrite Hk, H1 by (unfold inode_field; tauto). f_equal. apply ones_ext. intros j Hj. symmetry. by apply Hb.
  - by rewrite Hk, H2 by (unfold inode_field; tauto).
  - done.
  - intros Hc j Hj. assert (ino_lo fs g <= j) by (specialize (H3 Hc); unfold ino_lo; unfold ino_hi in Hj; lia). rewrite Hb by lia. by apply H4.
  - intros Hc Hu j Hj. rewrite Hb by done. by apply H5; [|apply Hm|].
Qed.
(** operations that leave the inode side alone keep its invariant *)
Lemma inode_ok_frame dirs i i' : inode_ok dirs i → frame inode_field EXT2_BG_INODE_UNINIT (ifs_fs i) (ifs_fs i') → s_free_inodes_count (super (ifs_fs i')) = s_free_inodes_count (super (ifs_fs i)) →
  inode_map i' = inode_map i → (∀ g place, 0 <= g < group_desc_count (ifs_fs i) → ext2fs_group_desc_csum_verify place (ifs_fs i') g = Ret true) → inode_ok dirs i'.
Proof.
  intros Hi Fr Ef Em Hc. destruct (same_inode_fields _ _ (fr_super _ _ _ _ Fr)) as (E1 & E2 & E3 & E4). pose proof (fr_count _ _ _ _ Fr) as E5. assert (∀ j, taken i' j = taken i j) as Et by (intros j; unfold taken; by rewrite Em).
  split; rewrite ?E1, ?E2, ?E3, ?E5, ?Em, ?Ef; try (by apply Hi).
  - apply Fr.
  - rewrite (fr_seed _ _ _ _ Fr). apply Hi.
  - rewrite (ss_length _ _ (fr_super _ _ _ _ Fr)). apply Hi.
  - apply (ss_bytes _ _ (fr_super _ _ _ _ Fr)), Hi.
  - intros g Hg. destruct (ik_groups _ _ Hi g Hg) as (φ & fl & V & I). destruct (fr_view _ _ _ _ Fr g φ fl Hg V) as (φ' & fl' & V' & Hk & Hm). exists φ', fl'. split; [done|]. apply (igroup_ext (taken i) _ dirs (ifs_fs i) _ g φ _ fl); try done. congruence.
  - rewrite (ik_total _ _ Hi). f_equal. by apply ones_ext.
  - intros j Hj. rewrite Et. by apply Hi.
  - done.
Qed.
(** operations that leave the block side alone keep its invariant *)
Lemma view_get fs g f φ fl : gview fs g φ fl → group_get f fs g = Ret (φ f).
Proof. intros [H _]. apply H. Qed.
Lemma alloc_ok_frame {Q} {opsQ : BitmapOps Q} {lawsQ : BitmapLaws Q} (a : afs Q) fs' : alloc_ok a → frame block_field 0 (afs_fs a) fs' → ext2fs_free_blocks_count (super fs') = ext2fs_free_blocks_count (super (afs_fs a)) →
  (∀ g place, 0 <= g < group_desc_count (afs_fs a) → ext2fs_group_desc_csum_verify place fs' g = Ret true) → alloc_ok (Afs fs' (block_map a)).
Proof.
  intros Ha Fr Ef Hc. pose proof (fr_count _ _ _ _ Fr) as E5. destruct (same_fields (afs_fs a) (super fs') (fr_super _ _ _ _ Fr)) as (_ & _ & _ & E1 & E2 & E3).
  split; cbn [afs_fs block_map]; rewrite ?E1, ?E2, ?E3, ?E5, ?Ef; try (by apply Ha).
  - apply Fr.
  - destruct (ak_geom _ Ha) as [G1 G2 G3 G4 G5]. by split; rewrite ?E1, ?E2, ?E3, ?E5.
  - rewrite (fr_seed _ _ _ _ Fr). apply Ha.
  - rewrite (ss_length _ _ (fr_super _ _ _ _ Fr)). apply Ha.
  - apply (ss_bytes _ _ (fr_super _ _ _ _ Fr)), Ha.
  - rewrite (fr_ratio _ _ _ _ Fr). apply Ha.
  - intros g Hg. pose proof (gview_desc _ g (ak_gdt _ Ha) Hg) as V. destruct (fr_view _ _ _ _ Fr g _ _ Hg V) as (φ' & fl' & V' & Hk & _). pose proof (view_get _ _ GFreeBlocks _ _ V') as E'. pose proof (view_get _ _ GFreeBlocks _ _ V) as E. rewrite Hk, <-E in E' by done.
    cbn [group_get] in E'. rewrite E', (ak_groups _ Ha g Hg). unfold ext2fs_group_last_block2, ext2fs_group_first_block2. by rewrite E1, E2, E3, E5.
  - done.
Qed.
(** the block side leaves the inode side alone *)
Definition inode_frame (fs fs' : filsys) : Prop := frame inode_field EXT2_BG_INODE_UNINIT fs fs' ∧ s_free_inodes_count (super fs') = s_free_inodes_count (super fs).
Lemma land_lnot_apart x m m' : Z.land m m' = 0 → Z.land (Z.land x (Z.lnot m)) m' = Z.land x m'.
Proof.
  intros H. rewrite <-Z.land_assoc. f_equal. apply Z.bits_inj'. intros k Hk. pose proof (f_equal (λ z, Z.testbit z k) H) as E. cbn beta in E. rewrite Z.land_spec, Z.bits_0 in E. rewrite Z.land_spec, Z.lnot_spec by done. by destruct (Z.testbit m k), (Z.testbit m' k).
Qed.
Lemma clear_uninit_frame place fs g fs' : gdt_ok fs → 0 <= csum_seed fs < 2 ^ 32 → 0 <= g → ext2fs_clear_block_uninit place fs g = Ret fs' → inode_frame fs fs'.
Proof.
  intros Hf Hs Hg. pose proof (frame_refl inode_field EXT2_BG_INODE_UNINIT fs Hf) as F0. unfold ext2fs_clear_block_uninit. destruct (_ || _) eqn:Eo; [intros [= <-]; by split|]. apply orb_false_iff in Eo as [E1 _]. breflect. assert (0 <= g < group_desc_count fs) as Hr by lia.
  pose proof (gview_desc fs g Hf Hr) as V. unfold ext2fs_bg_flags_test. pose proof (proj2 V) as Efl. unfold ext2fs_bg_flags in Efl. rewrite Efl. ostep. case_if; [intros [= <-]; by split|].
  destruct (view_clear fs Hf g Hr _ _ V EXT2_BG_BLOCK_UNINIT) as (fs1 & d1 & -> & O1 & V1). ostep. destruct (og_super _ _ _ _ O1) as (Es1 & Ed1 & Ec1).
  destruct (view_csum fs1 (og_ok _ _ _ _ O1) g ltac:(lia) _ _ V1 place ltac:(by rewrite Ed1)) as (fs2 & d2 & -> & O2 & V2 & _). ostep. intros [= <-]. destruct (og_super _ _ _ _ O2) as (Es2 & _).
  split; [|cbn; by rewrite Es2, Es1]. unfold ext2fs_mark_bb_dirty, ext2fs_mark_super_dirty. cbn [flags set_flags]. eapply frame_trans; [|apply (frame_flags _ _ fs2), O2]. eapply frame_og; [done|exact V|by eapply only_group_trans|exact V2|done|]. by apply land_lnot_apart.
Qed.
Lemma block_stats_frame {Q} {opsQ : BitmapOps Q} {lawsQ : BitmapLaws Q} place (a a' : afs Q) blk inuse : alloc_ok a → s_first_data_block (super (afs_fs a)) <= blk < ext2fs_blocks_count (super (afs_fs a)) → inuse = 1 ∨ inuse = -1 →
  ext2fs_block_alloc_stats2 place a blk inuse = Ret a' → inode_frame (afs_fs a) (afs_fs a').
Proof.
  intros Ha Hb Hi. pose proof (ak_gdt _ Ha) as Hf. unfold ext2fs_block_alloc_stats2. destruct (group_of_eq _ (ak_geom _ Ha) blk Hb) as [-> Hg]. ostep. set (g := _ / _) in *. do 2 bfalse. cbn [orb]. destruct (map_put a blk inuse Ha Hb Hi) as (r & m & -> & _). ostep.
  pose proof (gview_desc _ g Hf Hg) as V. pose proof (view_get _ _ GFreeBlocks _ _ V) as E. cbn [group_get] in E. rewrite E. ostep. clear E. set (v := u32 _). pose proof (u32_range (field (afs_fs a) (desc (afs_fs a) g) GFreeBlocks - inuse)) as Hv. fold v in Hv.
  destruct (view_set_wide _ Hf g Hg _ _ V GFreeBlocks v eq_refl ltac:(lia)) as (fs1 & d1 & E1 & O1 & V1). cbn [group_set] in E1. rewrite E1. ostep. destruct (og_super _ _ _ _ O1) as (Es1 & Ed1 & Ec1).
  destruct (view_clear fs1 (og_ok _ _ _ _ O1) g ltac:(lia) _ _ V1 EXT2_BG_BLOCK_UNINIT) as (fs2 & d2 & -> & O2 & V2). ostep. destruct (og_super _ _ _ _ O2) as (Es2 & Ed2 & Ec2).
  destruct (view_csum fs2 (og_ok _ _ _ _ O2) g ltac:(lia) _ _ V2 place ltac:(rewrite Ed2, Ed1; apply Ha)) as (fs3 & d3 & -> & O3 & V3 & _). ostep. intros [= <-]. destruct (og_super _ _ _ _ O3) as (Es3 & _). cbn [afs_fs].
  unfold ext2fs_mark_bb_dirty, ext2fs_mark_super_dirty, ext2fs_free_blocks_count_add. cbn [flags set_flags set_super super]. rewrite Es3, Es2, Es1. set (w := u64 _). pose proof (ak_length _ Ha) as Hl.
  assert (0 <= w < 2 ^ 64) as Hw by (unfold w, u64; apply Z.mod_pos_bound; lia). destruct (free_set_same (super (afs_fs a)) w ltac:(lia) Hw) as [Hsame _].
  split; [|unfold s_free_inodes_count; cbn [super set_flags set_super]; by destruct (super_set_get (super (afs_fs a)) 0x0C 0x158 w ltac:(lia) ltac:(lia) ltac:(lia) ltac:(lia) Hw) as [_ K]; apply K; lia].
  eapply frame_trans; [|apply (frame_flags _ _ (set_super fs3 _))]; [|apply same_gdt_ok; [by rewrite Es3, Es2, Es1|apply O3]]. eapply frame_trans; [|apply (frame_set_super _ _ fs3); [apply O3|by rewrite Es3, Es2, Es1]].
  eapply frame_og; [done|exact V|eapply only_group_trans; [exact O1|by eapply only_group_trans]|exact V3| |by apply land_lnot_apart]. intros f [->|[->| ->]]; done.
Qed.
Lemma view_super fs g φ fl s' f : gdt_ok fs → 0 <= g < group_desc_count fs → same_sb (super fs) s' → gview fs g φ fl → gview (set_flags (set_super fs s') f) g φ fl.
Proof.
  intros Hf Hg Hs V. assert (frame (λ _, True) (-1) fs (set_flags (set_super fs s') f)) as Fr by (eapply frame_trans; [by apply (frame_set_super _ _ fs s')|by apply frame_flags, same_gdt_ok]).
  destruct (fr_view _ _ _ _ Fr g φ fl Hg V) as (φ' & fl' & V' & Hk & Hm). rewrite !Z.land_m1_r in Hm. subst fl'. apply (gview_ext _ _ _ _ _ V'). intros f'. by rewrite Hk.
Qed.
(** the inodes of a group *)
Lemma ino_group dirs i ino : inode_ok dirs i → let fs := ifs_fs i in let g := (ino - 1) / s_inodes_per_group (super fs) in 1 <= ino <= s_inodes_count (super fs) →
  ext2fs_group_of_ino fs ino = Ret g ∧ 0 <= g < group_desc_count fs ∧ ino_lo fs g <= ino <= ino_hi fs g.
Proof.
  intros Hi fs g Hr. pose proof (ik_ipg _ _ Hi) as Hp. pose proof (ik_count _ _ Hi) as Hc. pose proof (ik_small _ _ Hi) as Hm. fold fs in Hp, Hc, Hm. unfold ext2fs_group_of_ino, udiv, ino_lo, ino_hi. bfalse. rewrite u32_small by lia. fold g.
  set (ipg := s_inodes_per_group (super fs)) in *. pose proof (Z.div_mod (ino - 1) ipg ltac:(lia)) as Ed. pose proof (Z.mod_pos_bound (ino - 1) ipg ltac:(lia)). fold g in Ed. split; [done|]. split; [split; [apply Z.div_pos; lia|]; unfold g; apply Z.div_lt_upper_bound; lia|nia].
Qed.
Lemma ino_bounds dirs i g : inode_ok dirs i → let fs := ifs_fs i in 0 <= g < group_desc_count fs → 1 <= ino_lo fs g <= ino_hi fs g ∧ ino_hi fs g <= s_inodes_count (super fs) ∧ ino_hi fs g - ino_lo fs g + 1 = s_inodes_per_group (super fs).
Proof. intros Hi fs Hg. pose proof (ik_ipg _ _ Hi) as Hp. pose proof (ik_count _ _ Hi) as Hc. fold fs in Hp, Hc. unfold ino_lo, ino_hi. rewrite Hc. nia. Qed.
Lemma ino_apart fs g g' j : 0 < s_inodes_per_group (super fs) → ino_lo fs g <= j <= ino_hi fs g → ino_lo fs g' <= j <= ino_hi fs g' → g' = g.
Proof. unfold ino_lo, ino_hi. intros. destruct (decide (g' < g)); [nia|]. destruct (decide (g < g')); [nia|lia]. Qed.
(** a new descriptor of one group, new bits of its inodes and a new total *)
Lemma inode_ok_update dirs dirs' i fs3 g d φ fl s' f m : inode_ok dirs i → let fs := ifs_fs i in 0 <= g < group_desc_count fs →
  only_group fs fs3 g d → gview fs3 g φ fl → (∀ place, ext2fs_group_desc_csum_verify place fs3 g = Ret true) → same_sb (super fs) s' → bm_ok m → same_shape (inode_map i) m →
  (∀ j, 1 <= j <= s_inodes_count (super fs) → ¬ ino_lo fs g <= j <= ino_hi fs g → has_bit m j = taken i j) → (∀ j, ¬ ino_lo fs g <= j <= ino_hi fs g → dirs' j = dirs j) →
  (∀ j, ino_lo fs g <= j <= ino_hi fs g → dirs' j = true → has_bit m j = true) → igroup (has_bit m) dirs' fs g φ fl →
  s_free_inodes_count s' = s_inodes_count (super fs) - ones (has_bit m) 1 (s_inodes_count (super fs)) → inode_ok dirs' (Ifs (set_flags (set_super fs3 s') f) m).
Proof.
  intros Hi fs Hg O V C Hs Hm (_ & Ms & Me & _ & Mc) Hout Hdout Hdin Hig Htot. destruct (same_inode_fields _ _ Hs) as (E1 & E2 & E3 & E4). destruct (og_super _ _ _ _ O) as (Es & Ed & Ec). assert (same_sb (super fs3) s') as Hs3 by (by rewrite Es). pose proof (og_ok _ _ _ _ O) as Hf3.
  split; cbn [ifs_fs inode_map super set_flags set_super csum_seed group_desc_count]; unfold taken; cbn [inode_map]; rewrite ?E1, ?E2, ?E3, ?Ec, ?Ms, ?Me, ?Mc; try (by apply Hi); try done.
  - destruct (frame_flags (λ _, True) 0 _ f (same_gdt_ok fs3 s' Hs3 Hf3)). done.
  - rewrite Ed. apply Hi.
  - rewrite (ss_length _ _ Hs). apply Hi.
  - apply (ss_bytes _ _ Hs), Hi.
  - intros g' Hg'. fold fs in Hg'. destruct (decide (g' = g)) as [->|Hn].
    + exists φ, fl. split; [apply view_super; [done|lia|done..]|]. by eapply igroup_ext; [..|exact Hig].
    + destruct (ik_groups _ _ Hi g' Hg') as (φ1 & fl1 & V1 & I1). fold fs in V1, I1. exists φ1, fl1. split; [apply view_super; [done|lia|done|]; by eapply (view_other fs (ik_gdt _ _ Hi) g)|]. destruct (ino_bounds dirs i g' Hi Hg') as (B1 & B2 & _). fold fs in B1, B2. pose proof (ik_ipg _ _ Hi) as Hp. fold fs in Hp.
      assert (∀ j, ino_lo fs g' <= j <= ino_hi fs g' → ¬ ino_lo fs g <= j <= ino_hi fs g) as Ha by (intros j Hj Hj'; apply Hn; eapply (ino_apart fs g g' j); [lia|done..]).
      assert (igroup (has_bit m) dirs fs g' φ1 fl1) as I2 by (eapply igroup_ext; [..|exact I1]; try done; intros j Hj; apply Hout; [lia|by apply Ha]).
      destruct I2 as [K1 K2 K3 K4 K5]. assert (igroup (has_bit m) dirs' fs g' φ1 fl1) as I3; [split; [done| |done..]; rewrite K2; apply ones_ext; intros j Hj; symmetry; apply Hdout; by apply Ha|]. by eapply igroup_ext; [..|exact I3].
  - intros j Hj Hd. destruct (decide (ino_lo fs g <= j <= ino_hi fs g)) as [Hin|Hn]; [by apply Hdin|]. rewrite Hout by done. apply (ik_dirs _ _ Hi); [done|]. by rewrite <-Hdout.
  - intros g' place Hg'. change (ext2fs_group_desc_csum_verify place (set_super fs3 s') g' = Ret true). rewrite (same_verify fs3 s' Hs3 place g' Hf3) by (rewrite Ec; done). destruct (decide (g' = g)) as [->|Hn]; [done|]. rewrite (og_verify place fs fs3 g d g') by (done || apply Hi). by apply Hi.
Qed.
(** ** Inodes that come into use or are freed *)
Definition new_dirs dirs (ino inuse : Z) (isdir : bool) : Z → bool := if isdir then put dirs ino (0 <? inuse) else dirs.
Lemma ones_shift f ino inuse lo hi : inuse = 1 ∨ inuse = -1 → f ino = negb (0 <? inuse) → lo <= ino <= hi → ones (put f ino (0 <? inuse)) lo hi = ones f lo hi + inuse.
Proof. intros Hi Hf Hr. unfold put. rewrite (ones_put f ino (0 <? inuse) lo hi Hf). rewrite bool_decide_true by done. by destruct Hi as [->| ->]. Qed.
Lemma igroup_put bit dirs fs g φ fl φ' ino inuse isdir : igroup bit dirs fs g φ fl → ino_lo fs g <= ino <= ino_hi fs g → inuse = 1 ∨ inuse = -1 → bit ino = negb (0 <? inuse) → (isdir = true → dirs ino = negb (0 <? inuse)) →
  φ' GFreeInodes = φ GFreeInodes - inuse → φ' GUsedDirs = (if isdir then φ GUsedDirs + inuse else φ GUsedDirs) →
  (ext2fs_has_group_desc_csum fs = true → φ' GItableUnused = if ino_hi fs g - φ GItableUnused + 1 <=? ino then ino_hi fs g - ino else φ GItableUnused) →
  igroup (put bit ino (0 <? inuse)) (new_dirs dirs ino inuse isdir) fs g φ' (Z.land fl (Z.lnot EXT2_BG_INODE_UNINIT)).
Proof.
  intros [H1 H2 H3 H4 H5] Hr Hi Hb Hd E1 E2 E3. split.
  - rewrite E1, H1, ones_shift by done. lia.
  - rewrite E2, H2. unfold new_dirs. destruct isdir; [|done]. rewrite ones_shift by auto. done.
  - intros Hc. rewrite E3 by done. specialize (H3 Hc). case_if; [|done]. unfold ino_lo, ino_hi in *. lia.
  - intros Hc j Hj. rewrite E3 in Hj by done. specialize (H4 Hc j). unfold put. destruct (ino_hi fs g - φ GItableUnused + 1 <=? ino) eqn:Eu; breflect; rewrite bool_decide_false by lia; apply H4; lia.
  - intros _ Hn. exfalso. apply Hn. rewrite <-Z.land_assoc. apply Z.land_0_r.
Qed.
Lemma csum_feature fs fs' : super fs' = super fs → ext2fs_has_group_desc_csum fs' = ext2fs_has_group_desc_csum fs.
Proof. intros E. unfold ext2fs_has_group_desc_csum. by rewrite E. Qed.
(** the unused end of the inode table and the checksum *)
Lemma itable_step place fs g φ fl ino : gdt_ok fs → 0 <= csum_seed fs < 2 ^ 32 → 0 <= g < group_desc_count fs → gview fs g φ fl → let ipg := s_inodes_per_group (super fs) in
  0 < ipg < 2 ^ 16 → g * ipg + ipg + 1 < 2 ^ 32 → ino_lo fs g <= ino <= ino_hi fs g → (ext2fs_has_group_desc_csum fs = true → 0 <= φ GItableUnused <= ipg) →
  ∃ fs' d φ', (if ext2fs_has_group_desc_csum fs then unused ← ext2fs_bg_itable_unused fs g; fs1 ← (if u32 (ipg - unused + g * ipg + 1) <=? ino then ext2fs_bg_itable_unused_set fs g (u32 (g * ipg + ipg - ino)) else Ret fs); ext2fs_group_desc_csum_set place fs1 g else Ret fs) = Ret fs' ∧
    only_group fs fs' g d ∧ gview fs' g φ' fl ∧ (∀ f, f ≠ GItableUnused → φ' f = φ f) ∧ (ext2fs_has_group_desc_csum fs = true → φ' GItableUnused = if ino_hi fs g - φ GItableUnused + 1 <=? ino then ino_hi fs g - ino else φ GItableUnused) ∧
    ∀ place', ext2fs_group_desc_csum_verify place' fs' g = Ret true.
Proof.
  intros Hf Hs Hg V ipg Hp Hb Hr Hu. destruct (ext2fs_has_group_desc_csum fs) eqn:Hc.
  2: { exists fs, (desc fs g), φ. split; [done|]. split; [by apply only_group_refl|]. split_and!; [done..|]. intros. unfold ext2fs_group_desc_csum_verify. by rewrite Hc. }
  specialize (Hu eq_refl). unfold ino_lo, ino_hi in *. fold ipg in Hr |- *. pose proof (view_get _ _ GItableUnused _ _ V) as Eu. cbn [group_get] in Eu. rewrite Eu. ostep. set (U := φ GItableUnused) in *. assert (0 <= g * ipg) by nia.
  rewrite (u32_small (ipg - U + g * ipg + 1)), (u32_small (g * ipg + ipg - ino)) by lia. replace (g * ipg + ipg - U + 1) with (ipg - U + g * ipg + 1) by lia. destruct (ipg - U + g * ipg + 1 <=? ino).
  - destruct (view_set fs Hf g Hg φ fl V GItableUnused (g * ipg + ipg - ino) eq_refl ltac:(lia)) as (fs1 & d1 & E1 & O1 & V1). cbn [group_set] in E1. rewrite E1. ostep. destruct (og_super _ _ _ _ O1) as (Es1 & Ed1 & Ec1).
    destruct (view_csum fs1 (og_ok _ _ _ _ O1) g ltac:(lia) _ _ V1 place ltac:(by rewrite Ed1)) as (fs2 & d2 & -> & O2 & V2 & C2). exists fs2, d2. eexists. split; [done|]. split; [by eapply only_group_trans|]. split; [exact V2|]. split; [|done]. intros f Hn. unfold upd. by case_decide.
  - ostep. destruct (view_csum fs Hf g Hg _ _ V place Hs) as (fs2 & d2 & -> & O2 & V2 & C2). by exists fs2, d2, φ.
Qed.
(** a superblock with a new count of free inodes *)
Lemma free_inodes_same s v : length s = 1024%nat → same_sb s (st 4 s 0x10 v) ∧ s_free_inodes_count (st 4 s 0x10 v) = v mod 2 ^ 32 ∧ ext2fs_free_blocks_count (st 4 s 0x10 v) = ext2fs_free_blocks_count s.
Proof.
  intros Hl. split; [|split].
  - split; [by rewrite length_st by lia|apply bytes_st|unfold s_uuid; by rewrite slice_st_other by lia|]. intros k p ? ? ?. apply ld_st_other; lia.
  - unfold s_free_inodes_count. by rewrite ld_st_same by lia.
  - unfold ext2fs_free_blocks_count, super_get, ext2fs_has_feature_64bit, s_feature_incompat. by rewrite !ld_st_other by lia.
Qed.
(** When a free inode comes into use or a used one is freed, the bookkeeping
    succeeds, changes the bit of that inode only, and keeps the invariants of
    the inode and of the block side. *)
Lemma inode_stats_ok place dirs i ino inuse isdir : inode_ok dirs i → let fs := ifs_fs i in 1 <= ino <= s_inodes_count (super fs) →
  inuse = 1 ∧ taken i ino = false ∨ inuse = -1 ∧ taken i ino = true ∧ dirs ino = isdir →
  ∃ i', ext2fs_inode_alloc_stats2 place i ino inuse isdir = Ret i' ∧ inode_ok (new_dirs dirs ino inuse isdir) i' ∧ s_inodes_count (super (ifs_fs i')) = s_inodes_count (super fs) ∧
    (∀ j, 1 <= j <= s_inodes_count (super fs) → taken i' j = put (taken i) ino (0 <? inuse) j) ∧ frame block_field 0 fs (ifs_fs i') ∧ ext2fs_free_blocks_count (super (ifs_fs i')) = ext2fs_free_blocks_count (super fs).
Proof.
  intros Hi fs Hr Hu. assert (inuse = 1 ∨ inuse = -1) as Hs by tauto. assert (taken i ino = negb (0 <? inuse)) as Ht by (by destruct Hu as [[-> ->]|(-> & -> & _)]).
  pose proof (ik_gdt _ _ Hi) as Hf. pose proof (ik_ipg _ _ Hi) as Hp. pose proof (ik_small _ _ Hi) as Hm. pose proof (ik_start _ _ Hi) as Hst. pose proof (ik_end _ _ Hi) as Hen. pose proof (ik_length _ _ Hi) as Hl. fold fs in Hf, Hp, Hm, Hen, Hl. destruct (ino_group dirs i ino Hi Hr) as (Eg & Hg & Hin). fold fs in Eg, Hg, Hin. set (g := _ / _) in *.
  destruct (ino_bounds dirs i g Hi Hg) as (B1 & B2 & B3). fold fs in B1, B2, B3. destruct (bmap_put (inode_map i) ino inuse (ik_map _ _ Hi) (ik_plain _ _ Hi) ltac:(lia) Hs) as (r & m & Em & Hok & Sh & Hput). rewrite Hst, Hen in Hput.
  assert (isdir = true → dirs ino = negb (0 <? inuse)) as Hd.
  { intros ->. destruct Hu as [[-> Hn]|(-> & _ & ->)]; [|done]. cbn. destruct (dirs ino) eqn:E; [|done]. pose proof (ik_dirs _ _ Hi ino Hr E). congruence. }
  destruct (ik_groups _ _ Hi g Hg) as (φ & fl & V & I). fold fs in V, I. pose proof (ones_range (put (taken i) ino (0 <? inuse)) (ino_lo fs g) (ino_hi fs g)) as R1. rewrite ones_shift in R1 by done. pose proof (ig_free _ _ _ _ _ _ I) as EF.
  pose proof (ones_range (new_dirs dirs ino inuse isdir) (ino_lo fs g) (ino_hi fs g)) as R2. unfold new_dirs in R2. pose proof (ig_dirs _ _ _ _ _ _ I) as ED.
  destruct (view_set fs Hf g Hg φ fl V GFreeInodes (φ GFreeInodes - inuse) eq_refl ltac:(lia)) as (fs1 & d1 & E1 & O1 & V1). cbn [group_set] in E1. destruct (og_super _ _ _ _ O1) as (Es1 & Ed1 & Ec1). pose proof (og_ok _ _ _ _ O1) as Hf1.
  assert (∃ fs2 d2 φ2, (if isdir then n ← ext2fs_bg_used_dirs_count fs1 g; ext2fs_bg_used_dirs_count_set fs1 g (u32 (n + inuse)) else Ret fs1) = Ret fs2 ∧ only_group fs1 fs2 g d2 ∧ gview fs2 g φ2 fl ∧
    φ2 GFreeInodes = φ GFreeInodes - inuse ∧ φ2 GUsedDirs = (if isdir then φ GUsedDirs + inuse else φ GUsedDirs) ∧ φ2 GItableUnused = φ GItableUnused ∧ φ2 GFreeBlocks = φ GFreeBlocks) as (fs2 & d2 & φ2 & E2 & O2 & V2 & P1 & P2 & P3 & P4).
  { destruct isdir; [|exists fs1, (desc fs1 g), (upd φ GFreeInodes (φ GFreeInodes - inuse)); split; [done|]; split; [by apply only_group_refl|done]]. pose proof (view_get _ _ GUsedDirs _ _ V1) as En. cbn [group_get] in En. rewrite En. ostep. unfold upd at 1. cbn [decide].
    rewrite ones_shift in R2 by auto. rewrite decide_False by done. rewrite u32_small by lia. destruct (view_set fs1 Hf1 g ltac:(lia) _ _ V1 GUsedDirs (φ GUsedDirs + inuse) eq_refl ltac:(lia)) as (fs2 & d2 & E2 & O2 & V2). exists fs2, d2. eexists. split; [exact E2|]. split; [done|]. split; [exact V2|]. done. }
  destruct (og_super _ _ _ _ O2) as (Es2 & Ed2 & Ec2). pose proof (og_ok _ _ _ _ O2) as Hf2. destruct (view_clear fs2 Hf2 g ltac:(lia) _ _ V2 EXT2_BG_INODE_UNINIT) as (fs3 & d3 & E3 & O3 & V3). destruct (og_super _ _ _ _ O3) as (Es3 & Ed3 & Ec3). pose proof (og_ok _ _ _ _ O3) as Hf3.
  assert (super fs3 = super fs) as Es by congruence. pose proof (csum_feature fs fs3 Es) as Ecs. assert (g * s_inodes_per_group (super fs) + s_inodes_per_group (super fs) + 1 < 2 ^ 32) as Hb by (unfold ino_hi in B2; lia). assert (ino_lo fs3 g = ino_lo fs g ∧ ino_hi fs3 g = ino_hi fs g) as [Elo Ehi] by (unfold ino_lo, ino_hi; by rewrite Es).
  destruct (itable_step place fs3 g φ2 (Z.land fl (Z.lnot EXT2_BG_INODE_UNINIT)) ino Hf3 ltac:(rewrite Ed3, Ed2, Ed1; apply Hi) ltac:(lia) V3 ltac:(by rewrite Es) ltac:(by rewrite Es) ltac:(by rewrite Elo, Ehi)) as (fs4 & d4 & φ4 & E4 & O4 & V4 & K4 & U4 & C4).
  { rewrite Ecs, P3, Es. apply (ig_range _ _ _ _ _ _ I). }
  destruct (og_super _ _ _ _ O4) as (Es4 & Ed4 & Ec4). assert (super fs4 = super fs) as Es' by congruence. rewrite Ecs, Ehi, P3 in U4. assert (only_group fs fs4 g d4) as O by (do 3 (eapply only_group_trans; [eassumption|]); done).
  pose proof (ones_range (put (taken i) ino (0 <? inuse)) 1 (s_inodes_count (super fs))) as R3. rewrite ones_shift in R3 by (done || lia). pose proof (ik_total _ _ Hi) as ET. fold fs in ET. set (s' := st 4 (super fs) 0x10 (s_free_inodes_count (super fs) - inuse)). destruct (free_inodes_same (super fs) (s_free_inodes_count (super fs) - inuse) Hl) as (Hsame & Efi & Efb). fold s' in Hsame, Efi, Efb.
  exists (Ifs (ext2fs_mark_ib_dirty (ext2fs_mark_super_dirty (set_super fs4 s'))) m). split; [|split; [|split; [|split; [|split]]]].
  - unfold ext2fs_inode_alloc_stats2. fold fs. rewrite Eg. ostep. bfalse. rewrite Em. ostep. pose proof (view_get _ _ GFreeInodes _ _ V) as En. cbn [group_get] in En. rewrite En. ostep. rewrite (u32_small (_ - inuse)) by lia. rewrite E1. ostep. rewrite E2. ostep. rewrite E3. ostep. rewrite Es in E4. rewrite E4. ostep.
    rewrite Es'. rewrite (u32_small (_ - inuse)) by lia. done.
  - unfold ext2fs_mark_ib_dirty, ext2fs_mark_super_dirty. cbn [flags set_flags]. apply (inode_ok_update dirs _ i fs4 g d4 φ4 (Z.land fl (Z.lnot EXT2_BG_INODE_UNINIT)) s' _ m Hi Hg); try done.
    + fold fs. intros j Hj Hn. rewrite Hput by lia. unfold put. by rewrite bool_decide_false by (intros ->; done).
    + fold fs. intros j Hn. unfold new_dirs. destruct isdir; [|done]. unfold put. by rewrite bool_decide_false by (intros ->; done).
    + fold fs. intros j Hj. rewrite Hput by lia. unfold new_dirs, put. destruct isdir.
      * case_bool_decide; [done|]. intros. apply (ik_dirs _ _ Hi); [fold fs; lia|done].
      * intros Hdj. case_bool_decide as Ej; [subst j|apply (ik_dirs _ _ Hi); [fold fs; lia|done]]. destruct Hu as [[-> _]|(-> & _ & Hn)]; [done|congruence].
    + fold fs. apply (igroup_ext (put (taken i) ino (0 <? inuse)) _ _ fs fs g φ4 φ4 (Z.land fl (Z.lnot EXT2_BG_INODE_UNINIT)) (Z.land fl (Z.lnot EXT2_BG_INODE_UNINIT))); [done|done|intros j Hj; apply Hput; lia|done|done|]. apply (igroup_put _ _ _ _ φ); try done; rewrite K4 by done; done.
    + fold fs. rewrite Efi, Z.mod_small by lia. rewrite ET. rewrite (ones_ext (has_bit m) (put (taken i) ino (0 <? inuse))) by (intros j Hj; apply Hput; lia). rewrite ones_shift by (done || lia). lia.
  - cbn [ifs_fs ext2fs_mark_ib_dirty ext2fs_mark_super_dirty super set_flags set_super]. by destruct (same_inode_fields _ _ Hsame).
  - intros j Hj. unfold taken at 1. cbn [inode_map]. by apply Hput.
  - cbn [ifs_fs]. unfold ext2fs_mark_ib_dirty, ext2fs_mark_super_dirty. cbn [flags set_flags]. assert (same_sb (super fs4) s') as Hs4 by (by rewrite Es'). eapply frame_trans; [|apply (frame_flags _ _ (set_super fs4 s')), same_gdt_ok; [done|apply O]]. eapply frame_trans; [|apply (frame_set_super _ _ fs4); [apply O|done]].
    eapply frame_og; [done|exact V|exact O|exact V4| |by rewrite !Z.land_0_r]. intros f ->. by rewrite K4.
  - done.
Qed.
(** ** Groups that are not initialised *)
Lemma unmark_inodes_ok n : ∀ b ino, bm_ok b → cluster_bits b = 0 → start b <= ino → 0 <= ino → end_ b + 1 < 2 ^ 32 → ino + Z.of_nat n - 1 <= end_ b →
  ∃ m, unmark_inodes b ino n = Ret m ∧ bm_ok m ∧ same_shape b m ∧ ∀ j, start b <= j <= end_ b → has_bit m j = negb (bool_decide (ino <= j < ino + Z.of_nat n)) && has_bit b j.
Proof.
  induction n as [|n IH]; intros b ino Hb Hp Hs H0 He Hn.
  - exists b. split; [done|]. split; [done|]. split; [apply same_shape_refl|]. intros j Hj. by rewrite bool_decide_false by lia.
  - cbn [unmark_inodes]. destruct (bmap_put b ino (-1) Hb Hp ltac:(lia) ltac:(by right)) as (r & m & E & Hm & Sh & U). cbn [Z.ltb Z.compare] in E, U. rewrite E. ostep. rewrite u32_small by lia. pose proof Sh as (_ & S1 & S2 & _ & S3).
    destruct (IH m (ino + 1)) as (m' & E' & Hm' & Sh' & U'); [done|congruence|lia..|]. exists m'. split; [exact E'|]. split; [done|]. split; [by eapply same_shape_trans|]. intros j Hj. rewrite U', U by lia. unfold put.
    destruct (decide (j = ino)) as [->|Hne]; [by rewrite (bool_decide_true (ino = ino)), andb_false_r, bool_decide_true by lia|]. rewrite (bool_decide_false (j = ino)) by done. f_equal. f_equal. apply bool_decide_ext. lia.
Qed.
(** the bits that the operation clears are clear already: nothing is lost *)
Lemma check_uninit_ok place dirs i g : inode_ok dirs i → 0 <= g < group_desc_count (ifs_fs i) →
  ∃ i', check_inode_uninit place i g = Ret i' ∧ inode_ok dirs i' ∧ super (ifs_fs i') = super (ifs_fs i) ∧ (∀ j, 1 <= j <= s_inodes_count (super (ifs_fs i)) → taken i' j = taken i j) ∧ frame block_field 0 (ifs_fs i) (ifs_fs i').
Proof.
  intros Hi Hg. pose proof (ik_gdt _ _ Hi) as Hf. pose proof (frame_refl block_field 0 _ Hf) as F0. unfold check_inode_uninit. bfalse. cbn [orb]. destruct (ext2fs_has_group_desc_csum (ifs_fs i)) eqn:Hc; cbn [negb]; [|by exists i].
  destruct (ik_groups _ _ Hi g Hg) as (φ & fl & V & I). unfold ext2fs_bg_flags_test. pose proof (proj2 V) as Efl. unfold ext2fs_bg_flags in Efl. rewrite Efl. ostep. destruct (Z.land fl EXT2_BG_INODE_UNINIT =? 0) eqn:En; [by exists i|]. breflect.
  set (fs := ifs_fs i) in *. pose proof (ik_ipg _ _ Hi) as Hp. pose proof (ik_small _ _ Hi) as Hm. pose proof (ik_start _ _ Hi) as Hst. pose proof (ik_end _ _ Hi) as Hen. fold fs in Hp, Hm, Hen. destruct (ino_bounds dirs i g Hi Hg) as (B1 & B2 & B3). fold fs in B1, B2, B3. pose proof (ig_uninit _ _ _ _ _ _ I Hc En) as Hz.
  change (g * s_inodes_per_group (super fs) + 1) with (ino_lo fs g). rewrite u32_small by lia. destruct (unmark_inodes_ok (Z.to_nat (s_inodes_per_group (super fs))) (inode_map i) (ino_lo fs g)) as (m & -> & Hok & Sh & U); [apply Hi|apply Hi|lia..|]. ostep.
  assert (∀ j, 1 <= j <= s_inodes_count (super fs) → has_bit m j = taken i j) as Hsame. { intros j Hj. rewrite U by lia. case_bool_decide as B; [|done]. cbn [negb andb]. symmetry. apply Hz. lia. }
  destruct (view_clear fs Hf g Hg _ _ V EXT2_BG_INODE_UNINIT) as (fs1 & d1 & -> & O1 & V1). ostep. destruct (og_super _ _ _ _ O1) as (Es1 & Ed1 & Ec1). destruct (view_clear fs1 (og_ok _ _ _ _ O1) g ltac:(lia) _ _ V1 EXT2_BG_BLOCK_UNINIT) as (fs2 & d2 & -> & O2 & V2). ostep. destruct (og_super _ _ _ _ O2) as (Es2 & Ed2 & Ec2).
  destruct (view_csum fs2 (og_ok _ _ _ _ O2) g ltac:(lia) _ _ V2 place ltac:(rewrite Ed2, Ed1; apply Hi)) as (fs3 & d3 & -> & O3 & V3 & C3). ostep. destruct (og_super _ _ _ _ O3) as (Es3 & _). assert (super fs3 = super fs) as Es by congruence. assert (only_group fs fs3 g d3) as O by (do 2 (eapply only_group_trans; [eassumption|]); done).
  eexists. split; [done|]. unfold ext2fs_mark_super_dirty, ext2fs_mark_ib_dirty. cbn [flags set_flags ifs_fs super]. split; [|split; [done|split; [done|]]].
  - assert (fs3 = set_super fs3 (super fs)) as E3 by (rewrite <-Es; by destruct fs3). rewrite E3 at 1. apply (inode_ok_update dirs dirs i fs3 g d3 φ _ (super fs) _ m Hi Hg O V3 C3); try done.
    + fold fs. intros j Hj _. by apply Hsame.
    + fold fs. intros j Hj Hd. rewrite Hsame by lia. apply (ik_dirs _ _ Hi); [fold fs; lia|done].
    + fold fs. apply (igroup_ext (taken i) _ dirs fs fs g φ φ fl _); [done|done|intros j Hj; apply Hsame; lia|done| |done]. intros _. done.
    + fold fs. rewrite (ones_ext (has_bit m) (taken i)) by (intros j Hj; by apply Hsame). apply (ik_total _ _ Hi).
  - eapply frame_trans; [|apply (frame_flags _ _ fs3), O]. eapply frame_og; [done|exact V|exact O|exact V3|done|by rewrite !Z.land_0_r].
Qed.

(** ** The search for a free inode *)
Section search.
Context (place : Z → list Z → Z) (dirs bit : Z → bool) (sb : list Z) (start_inode : Z).
Notation count := (s_inodes_count sb).
Notation first_ino := (EXT2_FIRST_INODE sb).
(** the inodes that have been looked at before [c] *)
Definition looked (c j : Z) : Prop := if start_inode <=? c then start_inode <= j < c else start_inode <= j <= count ∨ first_ino <= j < c.
(** the number of inodes still to look at *)
Definition to_go (c : Z) : Z := if start_inode <=? c then count - c + 1 + (start_inode - first_ino) else start_inode - c.
Definition free_near (c : Z) : Prop := first_ino <= c <= count ∧ bit c = false ∧
  (start_inode <= c ∧ (∀ j, start_inode <= j < c → bit j = true) ∨ c < start_inode ∧ ∀ j, start_inode <= j <= count ∨ first_ino <= j < c → bit j = true).
Record scanning i : Prop := {
  sc_ok : inode_ok dirs i;
  sc_super : super (ifs_fs i) = sb;
  sc_bit j : 1 <= j <= count → taken i j = bit j
}.
Lemma looked_found c c' : first_ino <= start_inode <= count → first_ino <= c <= count → (∀ j, looked c j → bit j = true) → c <= c' → (start_inode <= c → c' <= count) → (c < start_inode → c' < start_inode) → bit c' = false → (∀ j, c <= j < c' → bit j = true) → free_near c'.
Proof.
  intros Hs Hc Hl Hle H1 H2 Hb Hm. unfold looked in Hl. destruct (start_inode <=? c) eqn:E; breflect.
  - split; [lia|]. split; [done|]. left. split; [lia|]. intros j Hj. destruct (decide (j < c)); [apply Hl; lia|apply Hm; lia].
  - split; [lia|]. split; [done|]. right. split; [lia|]. intros j [Hj|Hj]; [apply Hl; by left|]. destruct (decide (j < c)); [apply Hl; right; lia|apply Hm; lia].
Qed.
Lemma new_inode_loop_ok fuel : ∀ i c, scanning i → first_ino <= start_inode <= count → first_ino <= c <= count → to_go c <= Z.of_nat fuel → (∀ j, looked c j → bit j = true) →
  ∃ c' i', new_inode_loop place fuel i start_inode c = Ret (inr c', i') ∧ scanning i' ∧ frame block_field 0 (ifs_fs i) (ifs_fs i') ∧ (free_near c' ∨ c' = start_inode ∧ ∀ j, first_ino <= j <= count → bit j = true).
Proof.
  induction fuel as [|fuel IH]; intros i c [Hi Es Hbit] Hs Hc Hgo Hl.
  { exfalso. unfold to_go in Hgo. destruct (start_inode <=? c) eqn:E; breflect; lia. }
  pose proof (ik_ipg _ _ Hi) as Hp. pose proof (ik_small _ _ Hi) as Hm. pose proof (ik_first _ _ Hi) as H1. rewrite Es in Hp, Hm, H1. set (ipg := s_inodes_per_group sb) in *. pose proof (ino_group dirs i c Hi ltac:(rewrite Es; lia)) as (Eg & Hg & _). rewrite Es in Hg.
  cbn [new_inode_loop]. cbv zeta. rewrite Es. fold ipg in Hg |- *. rewrite (u32_small (c - 1)) by lia. unfold udiv. rewrite (proj2 (Z.eqb_neq ipg 0)) by lia. ostep. destruct (check_uninit_ok place dirs i ((c - 1) / ipg) Hi Hg) as (i1 & -> & Hi1 & Es1 & Hb1 & F1). rewrite Es in Es1, Hb1. ostep.
  assert (scanning i1) as Sc by (split; [done..|]; intros j Hj; rewrite Hb1 by done; by apply Hbit). pose proof (Z.mod_pos_bound (c - 1) ipg ltac:(lia)) as Hmod. rewrite (u32_small (c + _)), (u32_small (start_inode - 1)) by lia.
  set (up0 := c + (ipg - (c - 1) mod ipg)) in *. assert (c < up0) by (unfold up0; lia). set (up1 := if _ && _ then start_inode - 1 else up0). set (upto := if _ <? up1 then _ else up1).
  assert (c <= up1 ∧ (c < start_inode → up1 < start_inode)) as [Hup0 Hup1] by (unfold up1; destruct (c <? start_inode) eqn:E1, (start_inode <=? up0) eqn:E2; cbn [andb]; breflect; lia). clearbody up1.
  assert (c <= upto <= count ∧ (c < start_inode → upto < start_inode)) as [Hup Hup'] by (unfold upto; destruct (count <? up1) eqn:E3; breflect; lia). clearbody upto.
  rewrite (find_zero_plain (inode_map i1) c upto (ik_map _ _ Hi1) (ik_plain _ _ Hi1)) by (rewrite ?(ik_start _ _ Hi1), ?(ik_end _ _ Hi1), ?Es1; lia). ostep. pose proof (first_spec false (has_bit (inode_map i1)) c upto ltac:(lia)) as Hf. destruct (Bitmap64.first false (has_bit (inode_map i1)) c upto) as [e|z]; cbn [negb] in Hf.
  - destruct Hf as [-> Hfull]. rewrite Z.eqb_refl. cbn [negb]. rewrite (u32_small (upto + 1)) by lia. assert (∀ j, c <= j <= upto → bit j = true) as Hfull' by (intros j Hj; rewrite <-(sc_bit _ Sc) by lia; by apply Hfull).
    set (c1 := if count <? upto + 1 then first_ino else upto + 1). assert (first_ino <= c1 <= count) as Hc1 by (unfold c1; destruct (count <? _) eqn:E; breflect; lia).
    assert (if c1 =? start_inode then ∀ j, first_ino <= j <= count → bit j = true else (∀ j, looked c1 j → bit j = true) ∧ to_go c1 < to_go c) as Hnext.
    { unfold looked, to_go, c1 in *. destruct (start_inode <=? c) eqn:E1, (count <? upto + 1) eqn:E2; cbv zeta; destruct (_ =? start_inode) eqn:E3; breflect; try lia.
      - intros j Hj. destruct (decide (j < c)); [apply Hl; lia|apply Hfull'; lia].
      - rewrite (proj2 (Z.leb_gt start_inode first_ino)) by lia. split; [|lia]. intros j [Hj|Hj]; [|lia]. destruct (decide (j < c)); [apply Hl; lia|apply Hfull'; lia].
      - rewrite (proj2 (Z.leb_le start_inode (upto + 1))) by lia. split; [|lia]. intros j Hj. destruct (decide (j < c)); [apply Hl; lia|apply Hfull'; lia].
      - intros j Hj. destruct (decide (start_inode <= j)); [apply Hl; lia|]. destruct (decide (j < c)); [apply Hl; lia|apply Hfull'; lia].
      - rewrite (proj2 (Z.leb_gt start_inode (upto + 1))) by lia. split; [|lia]. intros j [Hj|Hj]; [apply Hl; by left|]. destruct (decide (j < c)); [apply Hl; lia|apply Hfull'; lia]. }
    destruct (c1 =? start_inode) eqn:E3; breflect.
    + exists c1, i1. split; [done|]. split; [done|]. split; [done|]. by right.
    + destruct Hnext as [Hl1 Hgo1]. destruct (IH i1 c1 Sc Hs Hc1 ltac:(lia) Hl1) as (c' & i' & E' & Sc' & F' & R). exists c', i'. split; [done|]. split; [done|]. split; [by eapply frame_trans|done].
  - destruct Hf as (Hz & Hz0 & Hbef). rewrite (u32_small z) by lia. exists z, i1. split; [done|]. split; [done|]. split; [done|]. left.
    apply (looked_found c); try done; [lia|lia|lia| |]; [rewrite <-(sc_bit _ Sc) by lia; done|]. intros j Hj. rewrite <-(sc_bit _ Sc) by lia. by apply Hbef.
Qed.
End search.
(** where the search starts: the first inode of the directory's group that is not reserved *)
Definition search_start (sb : list Z) (dir : Z) : Z := Z.max (EXT2_FIRST_INODE sb) (if 0 <? dir then (dir - 1) / s_inodes_per_group sb * s_inodes_per_group sb + 1 else 0).
Lemma new_inode_ok place dirs i dir : inode_ok dirs i → let sb := super (ifs_fs i) in 0 <= dir <= s_inodes_count sb →
  ∃ r i', ext2fs_new_inode place i dir = Ret (r, i') ∧ inode_ok dirs i' ∧ super (ifs_fs i') = sb ∧ (∀ j, 1 <= j <= s_inodes_count sb → taken i' j = taken i j) ∧ frame block_field 0 (ifs_fs i) (ifs_fs i') ∧
  match r with
  | inr ino => free_near (taken i) sb (search_start sb dir) ino
  | inl e => e = EXT2_ET_INODE_ALLOC_FAIL ∧ ∀ j, EXT2_FIRST_INODE sb <= j <= s_inodes_count sb → taken i j = true
  end.
Proof.
  intros Hi sb Hd. pose proof (ik_ipg _ _ Hi) as Hp. pose proof (ik_small _ _ Hi) as Hm. pose proof (ik_first _ _ Hi) as H1. fold sb in Hp, Hm, H1. unfold ext2fs_new_inode. cbv zeta. fold sb. set (ipg := s_inodes_per_group sb) in *. set (st0 := if 0 <? dir then (dir - 1) / ipg * ipg + 1 else 0).
  assert ((if 0 <? dir then group ← udiv (u32 (dir - 1)) ipg; Ret (u32 (group * ipg + 1)) else Ret 0) = Ret st0 ∧ 0 <= st0 <= s_inodes_count sb) as [-> Hst].
  { unfold st0. destruct (0 <? dir) eqn:E; [|split; [done|lia]]. breflect. unfold udiv. rewrite (proj2 (Z.eqb_neq ipg 0)) by lia. ostep. rewrite (u32_small (dir - 1)) by lia. pose proof (Z.div_mod (dir - 1) ipg ltac:(lia)). pose proof (Z.mod_pos_bound (dir - 1) ipg ltac:(lia)). pose proof (Z.div_pos (dir - 1) ipg ltac:(lia) ltac:(lia)).
    assert (0 <= (dir - 1) / ipg * ipg + 1 <= dir) by nia. rewrite u32_small by lia. split; [done|lia]. }
  ostep. assert (search_start sb dir = if st0 <? EXT2_FIRST_INODE sb then EXT2_FIRST_INODE sb else st0) as Ess by (unfold search_start; fold ipg st0; destruct (st0 <? _) eqn:E; breflect; lia). rewrite <-Ess. set (si := search_start sb dir) in *.
  assert (EXT2_FIRST_INODE sb <= si <= s_inodes_count sb) as Hsi by (rewrite Ess; destruct (st0 <? _) eqn:E; breflect; lia). bfalse.
  destruct (new_inode_loop_ok place dirs (taken i) sb si (S (Z.to_nat (s_inodes_count sb))) i si) as (c & i' & E & Sc & F & R); [by split|done|done|unfold to_go; btrue; lia|unfold looked; btrue; lia|]. rewrite E. ostep.
  assert (1 <= c <= s_inodes_count sb) as Hc by (destruct R as [[? _]|[-> _]]; lia). destruct (test_bmap_spec (inode_map i') (has_bit (inode_map i')) c (ik_map _ _ (sc_ok _ _ _ _ Sc)) ltac:(done)) as (t & -> & Ht). ostep.
  rewrite (ik_plain _ _ (sc_ok _ _ _ _ Sc)) in Ht. do 2 eexists. split; [done|]. split; [apply Sc|]. split; [apply Sc|]. split; [apply Sc|]. split; [done|].
  unfold cl in Ht. rewrite Z.pow_0_r, Z.div_1_r in Ht. unfold inside in Ht. rewrite (ik_start _ _ (sc_ok _ _ _ _ Sc)), (ik_end _ _ (sc_ok _ _ _ _ Sc)), (sc_super _ _ _ _ Sc) in Ht. rewrite (proj2 (Z.leb_le 1 c)), (proj2 (Z.leb_le c _)) in Ht by lia. cbn [andb] in Ht. change (has_bit (inode_map i') c) with (taken i' c) in Ht. rewrite (sc_bit _ _ _ _ Sc) in Ht by done. rewrite Ht.
  destruct R as [R|[-> R]]; [pose proof (proj1 (proj2 R)) as ->; done|]. rewrite (R si) by lia. done.
Qed.
End invariant.

(** ** Blocks and inodes together *)
Section both.
Context {P Q : Type} {opsP : BitmapOps P} {lawsP : BitmapLaws P} {opsQ : BitmapOps Q} {lawsQ : BitmapLaws Q} (place : Z → list Z → Z).
(** a file system with both bitmaps; [e_dirs] are the inodes that are directories *)
Record efs := Efs { e_fs : filsys; e_blocks : gbm Q; e_inodes : gbm P; e_dirs : Z → bool }.
Definition blocks_of (e : efs) : afs Q := Afs (e_fs e) (e_blocks e).
Definition inodes_of (e : efs) : ifs P := Ifs (e_fs e) (e_inodes e).
Definition efs_ok (e : efs) : Prop := alloc_ok (blocks_of e) ∧ inode_ok (e_dirs e) (inodes_of e).
Definition with_blocks (e : efs) (a : afs Q) : efs := Efs (afs_fs a) (block_map a) (e_inodes e) (e_dirs e).
Definition with_inodes (e : efs) (i : ifs P) (d : Z → bool) : efs := Efs (ifs_fs i) (e_blocks e) (inode_map i) d.
Inductive efs_step : efs → efs → Prop :=
| e_alloc_block e zero goal r a : 0 <= goal → goal = 0 ∨ s_first_data_block (super (e_fs e)) <= goal → ext2fs_alloc_block3 place zero (blocks_of e) goal = Ret (r, a) → efs_step e (with_blocks e a)
| e_free_block e blk a : s_first_data_block (super (e_fs e)) <= blk < ext2fs_blocks_count (super (e_fs e)) → used (blocks_of e) blk = true → ext2fs_block_alloc_stats2 place (blocks_of e) blk (-1) = Ret a → efs_step e (with_blocks e a)
| e_no_inode e dir err i : 0 <= dir <= s_inodes_count (super (e_fs e)) → ext2fs_new_inode place (inodes_of e) dir = Ret (inl err, i) → efs_step e (with_inodes e i (e_dirs e))
| e_new_inode e dir ino i i' isdir : 0 <= dir <= s_inodes_count (super (e_fs e)) → ext2fs_new_inode place (inodes_of e) dir = Ret (inr ino, i) → ext2fs_inode_alloc_stats2 place i ino 1 isdir = Ret i' →
    efs_step e (with_inodes e i' (new_dirs (e_dirs e) ino 1 isdir))
| e_free_inode e ino i' : 1 <= ino <= s_inodes_count (super (e_fs e)) → taken (inodes_of e) ino = true → ext2fs_inode_alloc_stats2 place (inodes_of e) ino (-1) (e_dirs e ino) = Ret i' →
    efs_step e (with_inodes e i' (new_dirs (e_dirs e) ino (-1) (e_dirs e ino))).
Lemma with_blocks_ok e a : efs_ok e → alloc_ok a → inode_frame (e_fs e) (afs_fs a) → efs_ok (with_blocks e a).
Proof.
  intros [_ Hi] Ha [Fr Ef]. split; [by destruct a|]. apply (inode_ok_frame _ (inodes_of e)); try done. intros g p Hg. apply (ak_csum _ Ha). rewrite (fr_count _ _ _ _ Fr). done.
Qed.
Lemma with_inodes_ok e i d : efs_ok e → inode_ok d i → frame block_field 0 (e_fs e) (ifs_fs i) → ext2fs_free_blocks_count (super (ifs_fs i)) = ext2fs_free_blocks_count (super (e_fs e)) → efs_ok (with_inodes e i d).
Proof.
  intros [Ha _] Hi Fr Ef. split; [|by destruct i]. apply (alloc_ok_frame (blocks_of e)); try done. intros g p Hg. apply (ik_csum _ _ Hi). rewrite (fr_count _ _ _ _ Fr). done.
Qed.
Lemma alloc_block_frame a zero goal r a' : alloc_ok a → 0 <= goal → goal = 0 ∨ s_first_data_block (super (afs_fs a)) <= goal → ext2fs_alloc_block3 place zero a goal = Ret (r, a') → alloc_ok a' ∧ inode_frame (afs_fs a) (afs_fs a').
Proof.
  intros Ha Hg0 Hg E. split; [apply (alloc_step_ok place a); [done|by eapply step_alloc]|]. destruct (new_block_ok place a goal Ha Hg0 Hg) as (x & En & Hx). unfold ext2fs_alloc_block3 in E. rewrite En in E. revert E. ostep.
  destruct x as [e|[blk a1]]; [intros [= _ <-]; split; [by apply frame_refl, Ha|done]|]. destruct Hx as (Hf & Ha1 & Es & Em & g & Hg' & Ec). pose proof (clear_uninit_frame place _ g _ (ak_gdt _ Ha) (ak_seed _ Ha) ltac:(lia) Ec) as [F1 F2].
  case_if; [|by intros [= _ <-]]. destruct (ext2fs_block_alloc_stats2 place a1 blk 1) as [a2| |] eqn:E2; [|done..]. ostep. intros [= _ <-]. destruct (block_stats_frame place a1 a2 blk 1 Ha1 ltac:(rewrite Es; apply Hf) ltac:(by left) E2) as [F3 F4].
  split; [by eapply frame_trans|congruence].
Qed.
Lemma efs_step_ok e e' : efs_ok e → efs_step e e' → efs_ok e'.
Proof.
  intros He Hs. pose proof He as [Ha Hi]. destruct Hs as [e zero goal r a Hg0 Hg E|e blk a Hb Hu E|e dir err i Hd E|e dir ino i i' isdir Hd E E2|e ino i' Hr Ht E].
  - destruct (alloc_block_frame _ zero goal r a Ha Hg0 Hg E) as [Ha' F]. by apply with_blocks_ok.
  - apply with_blocks_ok; [done|by apply (alloc_step_ok place (blocks_of e)); [|by eapply step_free]|]. by apply (block_stats_frame place (blocks_of e) a blk (-1)); [| |right|].
  - destruct (new_inode_ok place _ _ dir Hi Hd) as (r & i1 & E1 & Hi1 & Es1 & _ & F1 & _). rewrite E in E1. injection E1 as <- <-. apply with_inodes_ok; try done. by rewrite Es1.
  - destruct (new_inode_ok place _ _ dir Hi Hd) as (r & i1 & E1 & Hi1 & Es1 & Ht1 & F1 & R). rewrite E in E1. injection E1 as <- <-. destruct R as (Hr & Hn & _). pose proof (ik_first _ _ Hi) as H1. assert (1 <= ino <= s_inodes_count (super (e_fs e))) as Hr' by (cbn in *; lia).
    destruct (inode_stats_ok place _ i ino 1 isdir Hi1) as (i2 & E3 & Hi2 & _ & _ & F2 & Ef); [by rewrite Es1|left; split; [done|]; by rewrite Ht1|]. rewrite E2 in E3. injection E3 as <-. apply with_inodes_ok; try done; [by eapply frame_trans|]. by rewrite Ef, Es1.
  - destruct (inode_stats_ok place _ _ ino (-1) (e_dirs e ino) Hi Hr) as (i2 & E3 & Hi2 & _ & _ & F2 & Ef); [by right|]. rewrite E in E3. injection E3 as <-. by apply with_inodes_ok.
Qed.
(** C34. In every state that allocations and frees of blocks and of inodes can
    reach, in any order: the free counts of the superblock and of every group are
    the numbers of free blocks and free inodes of the two bitmaps, the directory
    count of every group is its number of directories, no inode in the unused end
    of an inode table and none of an uninitialised group is in use, and every
    descriptor has a valid checksum.  The search for a free inode ends there; it
    returns the nearest free inode from the directory's group on, whose
    bookkeeping succeeds, and fails only when every inode from the first
    non-reserved one on is in use. *)
Theorem fs_reachable_ok e e' : efs_ok e → rtc efs_step e e' → let fs := e_fs e' in let sb := super fs in
  (ext2fs_free_blocks_count sb = free (blocks_of e') (s_first_data_block sb) (ext2fs_blocks_count sb - 1) ∧
   s_free_inodes_count sb = s_inodes_count sb - ones (taken (inodes_of e')) 1 (s_inodes_count sb)) ∧
  (∀ g, 0 <= g < group_desc_count fs → (∀ place', ext2fs_group_desc_csum_verify place' fs g = Ret true) ∧
    ext2fs_bg_free_blocks_count fs g = Ret (free (blocks_of e') (ext2fs_group_first_block2 fs g) (ext2fs_group_last_block2 fs g)) ∧
    ext2fs_bg_free_inodes_count fs g = Ret (s_inodes_per_group sb - ones (taken (inodes_of e')) (ino_lo fs g) (ino_hi fs g)) ∧
    ext2fs_bg_used_dirs_count fs g = Ret (ones (e_dirs e') (ino_lo fs g) (ino_hi fs g)) ∧
    (ext2fs_has_group_desc_csum fs = true → ∃ unused fl, ext2fs_bg_itable_unused fs g = Ret unused ∧ ext2fs_bg_flags fs g = Ret fl ∧
      ∀ j, ino_lo fs g <= j <= ino_hi fs g → ino_hi fs g - unused < j ∨ Z.land fl EXT2_BG_INODE_UNINIT ≠ 0 → taken (inodes_of e') j = false)) ∧
  ∀ dir isdir, 0 <= dir <= s_inodes_count sb → ∃ r i, ext2fs_new_inode place (inodes_of e') dir = Ret (r, i) ∧
    match r with
    | inr ino => free_near (taken (inodes_of e')) sb (search_start sb dir) ino ∧ ∃ i', ext2fs_inode_alloc_stats2 place i ino 1 isdir = Ret i'
    | inl err => err = EXT2_ET_INODE_ALLOC_FAIL ∧ ∀ j, EXT2_FIRST_INODE sb <= j <= s_inodes_count sb → taken (inodes_of e') j = true
    end.
Proof.
  intros He Hr. assert (efs_ok e') as [Ha Hi] by (induction Hr as [|a b c Hs _ IH]; [done|]; apply IH; by eapply efs_step_ok). intros fs sb. split; [split; [apply (ak_total _ Ha)|apply (ik_total _ _ Hi)]|]. split.
  - intros g Hg. destruct (ik_groups _ _ Hi g Hg) as (φ & fl & [V1 V2] & I). split; [intros; by apply (ak_csum _ Ha)|]. split; [by apply (ak_groups _ Ha)|]. split; [rewrite (V1 GFreeInodes : ext2fs_bg_free_inodes_count fs g = _); by rewrite (ig_free _ _ _ _ _ _ I)|].
    split; [rewrite (V1 GUsedDirs : ext2fs_bg_used_dirs_count fs g = _); by rewrite (ig_dirs _ _ _ _ _ _ I)|]. intros Hc. exists (φ GItableUnused), fl. split; [apply (V1 GItableUnused)|]. split; [done|]. intros j Hj [Hu|Hu]; [apply (ig_unused _ _ _ _ _ _ I Hc); change (ifs_fs (inodes_of e')) with fs; lia|by apply (ig_uninit _ _ _ _ _ _ I Hc Hu)].
  - intros dir isdir Hd. destruct (new_inode_ok place _ _ dir Hi Hd) as (r & i & E & Hi1 & Es1 & Ht1 & _ & R). exists r, i. split; [done|]. destruct r as [err|ino]; [done|]. split; [done|]. destruct R as (Hr' & Hn & _). pose proof (ik_first _ _ Hi) as H1. change (super (ifs_fs (inodes_of e'))) with sb in H1, Hr'. assert (1 <= ino <= s_inodes_count sb) as Hr2 by lia.
    destruct (inode_stats_ok place _ i ino 1 isdir Hi1) as (i2 & E3 & _); [by rewrite Es1|left; split; [done|]; by rewrite Ht1|]. by exists i2.
Qed.
End both.

(** ** A file system of 40 blocks and 48 inodes in three groups with checksums:
    the inodes 1 to 11 are in use, 2 is a directory, the last two groups have no
    inode bitmap yet *)
Definition demo_super : list Z := st 4 (st 4 (st 4 (st 4 small_super 0x00 48) 0x10 37) 0x28 16) 0x64 0x10.
Definition demo_desc (blocks inodes dirs fl unused csum : Z) : list Z := st 2 (st 2 (st 2 (st 2 (st 2 (st 2 (replicate 32 0) 12 blocks) 14 inodes) 16 dirs) 18 fl) 28 unused) 30 csum.
Definition demo_gdt : list Z := demo_desc 12 5 1 0 5 33148 ++ demo_desc 16 16 0 1 16 63367 ++ demo_desc 8 16 0 1 16 9985.
Definition demo_fs : filsys := Filsys demo_super 0 0 1024 3 demo_gdt 1 16 0.
Definition demo_inodes : gbm ba := Gbm INODE_BITMAP64 1 48 48 0 [0xFF; 0x07; 0; 0; 0; 0].
Definition demo_dirs (j : Z) : bool := j =? 2.
Definition demo : efs (P := ba) (Q := ba) := Efs demo_fs small_map demo_inodes demo_dirs.
Lemma all_range (f : Z → bool) lo n : forallb f (seqZ lo n) = true → ∀ j, lo <= j < lo + n → f j = true.
Proof. rewrite forallb_forall. intros H j Hj. apply H, list_elem_of_In, elem_of_seqZ. lia. Qed.
Lemma demo_desc_bytes a b c d e f : bytes (demo_desc a b c d e f).
Proof. repeat apply bytes_st. by apply Forall_replicate. Qed.
Lemma demo_tables_bytes : bytes demo_super ∧ bytes demo_gdt.
Proof. split; [repeat apply bytes_st; by apply Forall_replicate|]. apply Forall_app_2; [|apply Forall_app_2]; apply demo_desc_bytes. Qed.
Lemma demo_gdt_ok : gdt_ok demo_fs.
Proof. split; [done|done|vm_compute; discriminate|vm_compute; discriminate|done|apply demo_tables_bytes]. Qed.
Lemma demo_csum g place : 0 <= g < 3 → ext2fs_group_desc_csum_verify place demo_fs g = Ret true.
Proof. intros Hg. assert (g = 0 ∨ g = 1 ∨ g = 2) as [->|[->| ->]] by lia; vm_compute; reflexivity. Qed.
Lemma demo_blocks_ok : alloc_ok (ops := small_ops) (laws := BitArray.ba_laws 0x1000) (Afs demo_fs small_map).
Proof.
  split; [exact demo_gdt_ok|split; vm_compute; repeat split; discriminate|cbn; lia|done|apply demo_tables_bytes|done|done|apply small_ok|done|done|done| | |intros g p Hg; by apply demo_csum].
  - intros g Hg. assert (g = 0 ∨ g = 1 ∨ g = 2) as [->|[->| ->]] by (cbn in Hg; lia); vm_compute; reflexivity.
  - vm_compute. reflexivity.
Qed.
Lemma demo_inodes_ok : inode_ok (ops := small_ops) (laws := BitArray.ba_laws 0x1000) demo_dirs (Ifs demo_fs demo_inodes).
Proof.
  split; [exact demo_gdt_ok|cbn; lia|done|apply demo_tables_bytes|by vm_compute|done|done|by vm_compute| |done|done|done| | | |intros g p Hg; by apply demo_csum].
  - change (BitArray.ba_ok demo_inodes). split; cbn [start end_ real_end cluster_bits private demo_inodes]; [lia..| |done]. by repeat constructor.
  - intros g Hg. exists (field demo_fs (desc demo_fs g)), (ld 2 (desc demo_fs g) 18). split; [by apply gview_desc; [apply demo_gdt_ok|]|]. 
    assert (∀ lo n j, forallb (λ j, negb (BitArray.ba_bit demo_inodes j)) (seqZ lo n) = true → lo <= j < lo + n → BitArray.ba_bit demo_inodes j = false) as Hz by (intros lo n j Hall Hj; pose proof (all_range _ lo n Hall j Hj) as H; cbn beta in H; by apply negb_true_iff in H).
    assert (g = 0 ∨ g = 1 ∨ g = 2) as [->|[->| ->]] by (cbn in Hg; lia); (split; [vm_compute; reflexivity|vm_compute; reflexivity|by vm_compute|intros _ j Hj|intros _ Hn j Hj]).
    + apply (Hz 12 5); [vm_compute; reflexivity|]. revert Hj. cbn [ifs_fs]. unfold ino_hi. change (field demo_fs (desc demo_fs 0) GItableUnused) with 5. change (s_inodes_per_group (super demo_fs)) with 16. lia.
    + exfalso. by apply Hn.
    + apply (Hz 17 32); [vm_compute; reflexivity|]. revert Hj. cbn [ifs_fs]. unfold ino_hi. change (field demo_fs (desc demo_fs 1) GItableUnused) with 16. change (s_inodes_per_group (super demo_fs)) with 16. lia.
    + apply (Hz 17 32); [vm_compute; reflexivity|]. revert Hj. cbn [ifs_fs]. unfold ino_lo, ino_hi. change (s_inodes_per_group (super demo_fs)) with 16. lia.
    + apply (Hz 17 32); [vm_compute; reflexivity|]. revert Hj. cbn [ifs_fs]. unfold ino_hi. change (field demo_fs (desc demo_fs 2) GItableUnused) with 16. change (s_inodes_per_group (super demo_fs)) with 16. lia.
    + apply (Hz 17 32); [vm_compute; reflexivity|]. revert Hj. cbn [ifs_fs]. unfold ino_lo, ino_hi. change (s_inodes_per_group (super demo_fs)) with 16. lia.
  - vm_compute. reflexivity.
  - intros j Hj Hd. apply Z.eqb_eq in Hd as ->. vm_compute. reflexivity.
Qed.
(** the search from the root directory on finds inode 12 *)
Lemma fs_reachable_ok_witness : ∃ i i', ext2fs_new_inode (ops := small_ops) anyplace (inodes_of demo) 2 = Ret (inr 12, i) ∧ ext2fs_inode_alloc_stats2 (ops := small_ops) anyplace i 12 1 true = Ret i'.
Proof.
  set (L := BitArray.ba_laws 0x1000). assert (efs_ok (lawsP := L) (lawsQ := L) demo) as H0 by (split; [exact demo_blocks_ok|exact demo_inodes_ok]).
  destruct (fs_reachable_ok (lawsP := L) (lawsQ := L) anyplace demo demo H0 (rtc_refl _ _)) as (_ & _ & Hn). destruct (Hn 2 true) as (r & i & E & R); [change (0 <= 2 <= 48); lia|]. destruct r as [e|ino].
  - exfalso. destruct R as [_ R]. specialize (R 12 ltac:(change (11 <= 12 <= 48); lia)). discriminate R.
  - destruct R as [(Hr & Hf & Hs) (i' & E')]. exists i, i'. change (search_start (super (e_fs demo)) 2) with 11 in Hs. assert (ino = 12) as <-; [|by split]. change (11 <= ino <= 48) in Hr. destruct Hs as [[_ Hs]|[Hs _]]; [|lia].
    destruct (decide (ino = 11)) as [->|]; [discriminate Hf|]. destruct (decide (12 < ino)); [specialize (Hs 12 ltac:(lia)); discriminate Hs|lia].
Defined.
End InodeAlloc.
